(* ===== verification/_CoqProject ===== *)
-Q . S2P
Prelude.v
Json.v
Regex.v
Domain.v
Store.v
Repos.v
WorkItems.v
Stages.v
RunState.v
Revert.v
FullWorkflow.v
SessionAdmin.v
SessionTransfer.v
SessionContext.v
Bridge.v
Hooks.v
Retry.v
Codec.v
Peer.v
QualityGates.v
Planner.v
Extensions.v
Routing.v
Bootstrap.v
Heap.v
Hnsw.v
Files.v
ScanPaths.v
Patch.v
Links.v
SearchTools.v
ToolRunner.v
Executor.v
Knowledge.v
Chunker.v
Projects.v
BridgeMessages.v
Client.v
Ask.v
HostBridge.v
Worker.v
Telemetry.v
Semantic.v
Cleanup.v
Retrieval.v
VerifyCommands.v
Tui.v
Worktree.v
Maintenance.v
MaintenanceCommand.v
Freshness.v
ContextPlanner.v
GeminiSchema.v
ModelOptions.v
MessageTransform.v
MessageSteps.v
MessageRules.v
