(* ===== verification/Prelude.v ===== *)
(** * dh-kit: a verification library for the TypeScript runtime

    dh-kit runs AI coding sessions.  A _session_ belongs to a _lane_ ([quick],
    [delivery], [migration], [full]) and moves through the stages of that lane;
    its state, history, checkpoints and audit rows live in a SQLite database and
    in JSON files.  Around the sessions are a planner of work items, a guard
    against concurrent runs, reverts to checkpoints, administration (fork,
    delete, export, import), hooks that decide about tool calls and answers, a
    retrying wrapper of the chat provider, a planner and an enforcer of the
    tools (skills and MCP servers) that an execution may use, the tools
    themselves (search, edits, patches, shell commands), the code index (scan,
    chunks, embeddings, vector index) with the retrieval on top of it, JSON-RPC
    bridges to worker processes and to the Rust engine, and a terminal
    interface.  This library models those parts of the TypeScript sources under
    [src/packages] and [src/apps] and proves what makes them correct.

    ** The model

    Operations of the runtime are functions [M World A] of a world: every table,
    file and registry they share is a field of [World] (Store.v), an error is
    the outcome [Throw message], and what was written before a throw stays
    written.  The clock and the random source are streams of the class [Env]; a
    theorem that needs more of them (ids drawn by one process differ, readings
    do not go back) takes the class [EnvLaws].  A table is the list of its rows in rowid
    order; [ORDER BY ts DESC, rowid DESC] is the stable sort [order_desc].
    Strings are sequences of code units below 128; the output of a child process
    is bytes, whose decoding is a parameter (ToolRunner.v).  Code outside the
    repository is a parameter: the body codecs of the bridge ([BodyCodec]),
    [localeCompare], [Date.parse], [Number], the rounding of doubles, SHA-256,
    the configured providers and models ([ProviderListings]), the context
    planner behind a role task ([ContextPlanner]), [JSON.parse], [toFixed], the
    schema library's [safeParse], the compilation of a user's [RegExp],
    [Math.random] as a stream, the order in which a directory is listed, the
    working directory, the embedding service, the extraction of symbols, the
    durations that are measured, and the task executor, child processes and
    client answers, by way of what they return or the events they raise.  The
    extension state file is a world of its own ([ExtWorld]), which routing sees
    through the interface [ExtensionStates]; the file tools run on any state with
    the file operations of Node (the class [NodeFs] of Files.v), of which there
    are two instances: a tree of files and directories, which the other parts use,
    and one with symbolic links (Links.v), where confinement is stated.  The disk of
    the workspace operations adds to the tree links that lead nowhere, times and the
    clock (Worktree.v);
    the code index has its own store (Semantic.v).  On that disk the printing of
    dates, of scores and of numbers to base 36, the suffixes that [mkdtemp] adds
    and the size that the system reports for a directory are parameters as
    well, and for the messages of a conversation [mergeDeep], [unique] and the
    lower case of the locale.

    ** The files, what they model and what they show

    - Prelude.v: the error-and-state monad, JavaScript strings and arrays, the
      string order of SQLite, frames and postconditions, automation.
    - Json.v: JSON documents, their traversal, [JSON.stringify], and the members
      that every object inherits.
    - Regex.v: regular expressions with the backtracking semantics of
      ECMAScript; the matcher is sound and complete for a relational semantics
      ([test_correct]), which the proofs about guards use.
    - Domain.v: [packages/shared/src/types] and [constants].
    - Store.v: the world, the tables of [packages/storage/src/sqlite/db.ts] with
      their primary and foreign keys, the statements on them, fresh ids.
    - Repos.v: the repository classes of [packages/storage/src/sqlite/repositories],
      one module per class, and [SessionStore].
    - WorkItems.v: [planWorkItems].  Its loop ends, every pending item is placed
      exactly once, dependencies come first, and an acyclic plan leaves out only
      items with missing dependencies.
    - Stages.v: [StageRunner.advance], [evaluateGate], [buildHandoff].  A
      session walks through the stages of its lane in order, can always reach the last
      one, and all stores agree after every advance; the suffix tests of the
      gate evaluator pick the right gate.
    - RunState.v: the run registry and [withSessionRunGuard].  Mutual exclusion,
      release on every exit of the body, whatever the hooks do, the registry
      invariant, cancellation; and the leak when [onBusy] throws.
    - Revert.v: [SessionRevertService].  A revert restores the checkpoint, undo
      is a round trip, a refused revert changes nothing.
    - FullWorkflow.v: [full-workflow-runtime.ts].  An invariant of the stored
      workflows under every sequence of operations, the single write owner, the
      path through the five gates, and the rejected gate that is not persisted.
    - SessionAdmin.v: listing, showing, resuming, deleting and forking sessions.
      Deletion is complete and isolated, or fails half way when rows still
      refer to the session; a fork copies, isolates and keeps its revert history closed.
    - SessionTransfer.v: export, redaction and import.  The transfer is a round
      trip when timestamps differ and reverses ties otherwise; a sanitized
      export carries no secret.
    - SessionContext.v: compaction, summaries, statistics and the event stream
      of a run, with exact bounds and gap-free numbering.
    - Bridge.v: key normalization and the hook decision log of
      [packages/opencode-sdk]; what is written is what is read back.
    - Hooks.v: the bash guard, the evidence gate and the enforcer that logs their
      decisions, each characterised exactly.
    - Retry.v: retry policy and retrying provider: bounded delays, at most
      [maxRetries + 1] calls, an answer always.
    - Codec.v: Content-Length framing of the bridge; the frame reader recovers
      every message for every way of cutting the stream.
    - Peer.v: the worker's JSON-RPC peer as a step relation; no request is settled
      twice, and a closed peer has settled all but those lost to a response whose
      error is null; every incoming request is answered once (or twice when the
      after-response handler fails).
    - QualityGates.v: [quality-gates-runtime.ts].  A report accounts for the six
      gates of the catalog and fails exactly when one of its inputs did.
    - Planner.v: [packages/opencode-app/src/planner] and [registry].  The MCPs
      chosen are the best-scoring eligible ones in every locale; what is left
      out carries its reasons; envelopes of the full lane carry no tools.
    - Extensions.v: [packages/runtime/src/extensions].  The state file implements
      a log of touches (apart from ids that every object inherits), a fingerprint covers exactly the contract of an
      extension, a drift report partitions what was classified.
    - Routing.v: [enforce-mcp-routing.ts].  A selected MCP is never a blocked one
      and satisfies metadata and runtime policy; without a runtime snapshot
      nothing is selected; fallbacks skip the lane, role and authentication
      checks.
    - Bootstrap.v: [SessionManager.createSession] with model resolution and the
      bootstrap log.  A created session is stored consistently everywhere, and
      cannot be deleted while foreign keys are enforced.
    - Heap.v: doubles, and the two heaps of [ann-index.ts], written once for an order; both
      implement a priority queue.
    - Hnsw.v: the layered vector index.  Building keeps the graph well formed
      whatever layers are drawn, a search returns the nearest nodes in order,
      and serialization is a round trip.
    - Files.v, ScanPaths.v: paths and files of a repository,
      [tool-paths.ts] and [scan-paths.ts].  A normalized path denotes the same
      file in canonical form, and normalizing is idempotent on its own results.
    - Patch.v: the patch tool.  A patch is parsed back from its text; hunks are
      applied where they occur and only there; a failed patch keeps what came before.
    - Links.v: the file operations of Node with symbolic links; without links they
      are those of Files.v ([linked_agrees_plain]).  Write, edit and patch change
      nothing outside of a repository whose links stay inside; a link that does
      not leads them out.
    - SearchTools.v: read, list, glob and grep tools, with the exact language
      of a glob pattern.
    - ToolRunner.v: the registry, permissions, dispatch, shell tool and audit
      rows.  Files change only when a call was authorized, and exactly the first
      [maxOutputBytes] bytes of the output are returned.
    - Executor.v: the application's own hooks; an answer passes exactly when the
      tools and the evidence suffice.
    - Knowledge.v: sessions of knowledge commands and their compaction, stored
      together or not at all.
    - Chunker.v: [chunker.ts].  Chunking ends and covers every line that is not
      blank.
    - Projects.v: [detect-projects.ts].  A scan collects exactly the files to be
      indexed unless it was stopped.
    - BridgeMessages.v: the queries of the bridge to the Rust engine, and the
      readers of its answers, capabilities and errors.
    - Client.v: [DhJsonRpcStdioClient] as a step relation with its queue of
      microtasks.  Every call ends exactly once, also when the engine dies, the
      input is malformed or the client is closed; the transport in use is always
      valid; a whole conversation returns what the engine answered.
    - Ask.v: the knowledge commands [ask], [explain] and [trace] on top of
      Knowledge.v and a bridge client.  A command always returns a report, closes
      its client, and answers only what the engine's evidence supports.
    - HostBridge.v: the bridge client of a hosted worker, with the same calls as
      the direct client; where the two classify errors differently.
    - Worker.v: the handlers of the worker process and its command router; ready
      is said once and after the handshake, and a cancellation is for good.
    - Telemetry.v: the telemetry log and its summaries.
    - Semantic.v: chunk and embedding rows, the embedding pipeline, semantic
      search and the refresh of the index job.  The pipeline leaves every input
      embedded and indexed, and with pairwise different chunks a second run of the
      job changes nothing.
    - Cleanup.v: [historical-chunk-cleanup.ts].  A dry run changes nothing, an
      applied cleanup leaves canonical paths and no orphans.
    - Retrieval.v: [runRetrieval]; the results are the best candidates, ranked
      and distinct, one evidence packet each.
    - VerifyCommands.v: the detection of verification commands.
    - Tui.v: the state of the terminal interface; under every sequence of actions
      sessions are listed once and the current one is listed, unless the last
      event of a run was about it.
    - Worktree.v: the operator-safe workspace operations of
      [packages/runtime/src/workspace] with the preflight, the snapshot, the
      temporary workspace and the report of a run.  The preflight allows exactly
      the runs that its rules allow, and a run records what it did and changes
      nothing else.
    - Maintenance.v: [operator-safe-maintenance-utils.ts]: listing, inspecting,
      pruning and cleaning up those artifacts.  Pruning removes exactly the
      expired ones; the cleanup of a blocked run undoes it.
    - MaintenanceCommand.v: [apps/cli/src/commands/operator-safe-maintenance.ts],
      which removes only entries of the artifact directories and only when
      asked to.
    - Freshness.v: [workspace-freshness.ts]; a check reports what happened since
      the fingerprint was last recorded.
    - ContextPlanner.v: [context-planner.ts] on top of Retrieval.v and
      Freshness.v.  A ledger keeps the best entries of its budget, and a planned
      context is found again by the next inspection.
    - GeminiSchema.v, ModelOptions.v, MessageTransform.v, MessageSteps.v and
      MessageRules.v: [packages/providers/src/provider/transform.ts].  The
      schema of a tool is rewritten to one that Gemini accepts, and rewriting it
      again changes nothing (the rules are those of [node_normal]); the variants, options and limits of a model.  The
      messages of a conversation are objects that some branches change in place:
      MessageTransform.v has the operations on a store of them, MessageSteps.v
      the function of a conversation's value that each of them computes, and
      MessageRules.v what the services ask for and that the rewritten messages
      follow it.

    ** Fuel and bounds

    Recursion that is not structural carries fuel that is proved to be enough:
    [plan_loop] one unit more than the schedulable items
    ([planWorkItems_terminates]), [drain] one more than the bytes in the buffer
    ([drain_fuel]; an iteration consumes at least four), [chat_loop]
    [maxRetries + 1] ([retrying_chat_bounded]), the repetition of a regular
    expression the units left ([bt_complete]), the loops of a heap its size, the
    beam of a vector search the nodes not yet visited ([beam_loop_returns]), the
    parser of patches the lines left ([parse_operations_fuel]), the windows of
    the chunker the lines left ([windows_terminate], [chunks_returned]), batches
    the rows left ([toBatches_concat]), the walks over directories their depth
    or the entries of the disk ([files_below_spec]),
    the reader of the bridge client the bytes in its buffer, and a turn of its
    microtasks the sum of their weights ([turn_empty]).  The load count of an extension
    is exact below [10^15], where doubles are.  Byte counts of frames are in
    [N], delays in [Q]; counters of rows are natural numbers.

    ** What is not modelled

    Connection handling and migrations of SQLite, language-model calls and the
    prompts of the team roles, and what the operating system does with a child
    process: their behaviour is that of code outside of the repository.  The
    vendored copies of provider SDKs follow the wire formats of the services and
    the types of packages whose sources are not here.  The diagnostics probe the machine for tools,
    processes and versions.  The extraction of symbols rests on a third-party
    parser.  The command line apart from the maintenance command and the HTTP
    server parse arguments and pass calls on.  The Rust engine is written in
    another language. *)

From Stdlib Require Import Ascii String.
From Stdlib Require Import Sorted.
From stdpp Require Import prelude list strings.

Set Default Goal Selector "!".
Set Default Proof Using "Type".
Set Warnings "-clear-no-such-hyp".

(** ** 1. The effect monad

    TypeScript operations read and write one mutable world and may throw.  A
    throw does not undo earlier writes, so the world is returned on both
    outcomes. *)

Inductive outcome (A : Type) : Type :=
| Ret (a : A)
| Throw (message : string).
Global Arguments Ret {A} _.
Global Arguments Throw {A} _.

(** A computation that may throw, for every element. *)
Fixpoint try_map {A B : Type} (f : A → outcome B) (xs : list A) : outcome (list B) :=
  match xs with
  | [] => Ret []
  | x :: xs => match f x with
               | Ret y => match try_map f xs with Ret ys => Ret (y :: ys) | Throw e => Throw e end
               | Throw e => Throw e
               end
  end.

(** [xs.filter(f)] for a predicate that may throw. *)
Fixpoint try_filter {A : Type} (f : A → outcome bool) (xs : list A) : outcome (list A) :=
  match xs with
  | [] => Ret []
  | x :: xs => match f x with
               | Ret b => match try_filter f xs with Ret ys => Ret (if b then x :: ys else ys) | Throw e => Throw e end
               | Throw e => Throw e
               end
  end.

Definition try_fmap {A B : Type} (f : A → B) (o : outcome A) : outcome B :=
  match o with Ret a => Ret (f a) | Throw e => Throw e end.

Definition M (W A : Type) : Type := W → outcome A * W.

Section monad.
Context {W : Type}.

#[global] Instance M_ret : MRet (M W) := λ A a w, (Ret a, w).
#[global] Instance M_bind : MBind (M W) := λ A B f m w,
  match m w with
  | (Ret a, w') => f a w'
  | (Throw e, w') => (Throw e, w')
  end.

Definition throw {A} (e : string) : M W A := λ w, (Throw e, w).
Definition get_state : M W W := λ w, (Ret w, w).
Definition gets {A} (f : W → A) : M W A := λ w, (Ret (f w), w).
Definition modify (f : W → W) : M W () := λ w, (Ret (), f w).

(** [try { m } finally { k }]: [k] runs on both outcomes; a throw of [k]
    replaces the pending outcome. *)
Definition try_finally {A} (m : M W A) (k : M W ()) : M W A := λ w,
  match m w with
  | (o, w') =>
    match k w' with
    | (Ret _, w'') => (o, w'')
    | (Throw e, w'') => (Throw e, w'')
    end
  end.

(** [try { m } catch (e) { h e }]. *)
Definition try_catch {A} (m : M W A) (h : string → M W A) : M W A := λ w,
  match m w with
  | (Ret a, w') => (Ret a, w')
  | (Throw e, w') => h e w'
  end.

(** [for (const x of xs) { f x }]. *)
Fixpoint for_each {A} (f : A → M W ()) (xs : list A) : M W () :=
  match xs with
  | [] => mret ()
  | x :: xs => f x ≫= λ _, for_each f xs
  end.

(** The same loop when the body also updates a local variable. *)
Fixpoint fold_each {A B} (f : B → A → M W B) (b : B) (xs : list A) : M W B :=
  match xs with
  | [] => mret b
  | x :: xs => f b x ≫= λ b, fold_each f b xs
  end.
End monad.

(** ** 2. Strings

    A JavaScript string is modelled by the sequence of its code units, all of
    them below 128: the literals of the modelled files are ASCII. *)

Declare Scope js_scope.
Delimit Scope js_scope with js.
Notation "s +:+ t" := (String.append s t) (at level 60, right associativity) : js_scope.
Open Scope js_scope.

Definition LF : ascii := ascii_of_nat 10.
Definition CR : ascii := ascii_of_nat 13.

(** WhiteSpace and LineTerminator code units of ECMAScript below 128. *)
Definition is_ws (c : ascii) : bool :=
  let n := nat_of_ascii c in
  ((9 <=? n) && (n <=? 13))%nat || (n =? 32)%nat.

Definition is_digit (c : ascii) : bool :=
  let n := nat_of_ascii c in ((48 <=? n) && (n <=? 57))%nat.

(** The class [\w] of regular expressions. *)
Definition is_word (c : ascii) : bool :=
  let n := nat_of_ascii c in
  is_digit c || ((65 <=? n) && (n <=? 90))%nat
  || ((97 <=? n) && (n <=? 122))%nat || (n =? 95)%nat.

Definition lower_ascii (c : ascii) : ascii :=
  let n := nat_of_ascii c in
  if ((65 <=? n) && (n <=? 90))%nat then ascii_of_nat (n + 32) else c.

Fixpoint toLowerCase (s : string) : string :=
  match s with
  | EmptyString => EmptyString
  | String c s => String (lower_ascii c) (toLowerCase s)
  end.

Fixpoint trimStart (s : string) : string :=
  match s with
  | EmptyString => EmptyString
  | String c t => if is_ws c then trimStart t else s
  end.

(** Drops the trailing white space: a white-space unit is kept only when
    something that is not white space follows it. *)
Fixpoint trimEnd (s : string) : string :=
  match s with
  | EmptyString => EmptyString
  | String c t =>
    match trimEnd t with
    | EmptyString => if is_ws c then EmptyString else String c EmptyString
    | t' => String c t'
    end
  end.

Definition trim (s : string) : string := trimEnd (trimStart s).

Definition startsWith (s p : string) : bool := String.prefix p s.

Definition endsWith (s q : string) : bool :=
  let n := String.length s in
  let m := String.length q in
  (m <=? n)%nat && String.eqb (String.substring (n - m) m s) q.

Fixpoint includes (s p : string) : bool :=
  String.prefix p s ||
  match s with EmptyString => false | String _ t => includes t p end.

(** [s.indexOf(p)], [None] for -1. *)
Fixpoint indexOf (s p : string) : option nat :=
  if String.prefix p s then Some 0%nat
  else match s with
       | EmptyString => None
       | String _ t => S <$> indexOf t p
       end.

(** [parts.join(sep)]. *)
Fixpoint join (sep : string) (parts : list string) : string :=
  match parts with
  | [] => ""
  | [p] => p
  | p :: ps => p +:+ sep +:+ join sep ps
  end.

(** ** 3. Arrays *)

(** [xs.indexOf(x)], [None] for -1. *)
Fixpoint list_index {A} `{EqDecision A} (x : A) (xs : list A) : option nat :=
  match xs with
  | [] => None
  | y :: ys => if decide (x = y) then Some 0%nat else S <$> list_index x ys
  end.

(** [xs.slice(-n)]; [slice(-0)] is the whole array. *)
Definition slice_tail {A} (n : nat) (xs : list A) : list A :=
  match n with
  | O => xs
  | _ => drop (length xs - n) xs
  end.

(** The elements of [new Set(xs)] in insertion order: the first occurrence of
    each value is kept. *)
Fixpoint js_dedup {A} `{EqDecision A} (seen xs : list A) : list A :=
  match xs with
  | [] => []
  | x :: xs => if decide (x ∈ seen) then js_dedup seen xs
               else x :: js_dedup (x :: seen) xs
  end.

(** [xs.sort(cmp)], which is stable: [le x y] says [cmp(x, y) <= 0]. *)
Fixpoint js_insert {A} (le : A → A → bool) (x : A) (ys : list A) : list A :=
  match ys with
  | [] => [x]
  | y :: ys => if le x y then x :: y :: ys else y :: js_insert le x ys
  end.

Definition js_sort {A} (le : A → A → bool) (xs : list A) : list A :=
  foldr (js_insert le) [] xs.

(** The nullish coalescing [o ?? d]. *)
Definition nullish {A} (o : option A) (d : A) : A := default d o.
Notation "o 'or_else' d" := (nullish o d) (at level 55) : js_scope.

(** ** 4. Automation *)

(** Proves a decidable proposition on concrete values by evaluating its
    decision procedure. *)
Ltac by_decision :=
  refine (bool_decide_eq_true_1 _ _); vm_compute; reflexivity.

(** Runs a monadic computation one step in the goal or in a hypothesis. *)
Ltac run_M := unfold mbind, mret, M_bind, M_ret, throw, gets, get_state, modify in *; simpl in *.

(** ** 5. Computations that may throw *)

Lemma try_map_ret {A B : Type} (f : A → outcome B) (g : A → B) xs : Forall (λ x, f x = Ret (g x)) xs → try_map f xs = Ret (g <$> xs).
Proof. induction 1 as [|x xs Hx _ IH]; [done|]. cbn [try_map]. by rewrite Hx, IH. Qed.

Lemma try_filter_ret {A : Type} (f : A → outcome bool) (P : A → Prop) `{∀ x, Decision (P x)} xs :
  Forall (λ x, f x = Ret (bool_decide (P x))) xs → try_filter f xs = Ret (filter P xs).
Proof.
  induction 1 as [|x xs Hx _ IH]; [done|]. cbn [try_filter]. rewrite Hx, IH. case_bool_decide.
  - by rewrite filter_cons_True.
  - by rewrite filter_cons_False.
Qed.

(** ** 6. The order of strings

    SQLite compares TEXT columns byte by byte, which is [String.leb]. *)

Lemma ascii_compare_trans a b c o :
  Ascii.compare a b = o → Ascii.compare b c = o → Ascii.compare a c = o.
Proof.
  unfold Ascii.compare. destruct o.
  - rewrite !N.compare_eq_iff. congruence.
  - rewrite !N.compare_lt_iff. lia.
  - rewrite !N.compare_gt_iff. lia.
Qed.

Lemma string_compare_refl s : String.compare s s = Eq.
Proof.
  induction s as [|c s IH]; simpl; [done|].
  assert (Ascii.compare c c = Eq) as -> by apply N.compare_refl. done.
Qed.

Lemma string_leb_refl s : String.leb s s = true.
Proof. unfold String.leb. by rewrite string_compare_refl. Qed.

Lemma string_leb_cons a s b t :
  String.leb (String a s) (String b t) = true ↔
  Ascii.compare a b = Lt ∨ (a = b ∧ String.leb s t = true).
Proof.
  unfold String.leb. simpl. destruct (Ascii.compare a b) eqn:E.
  - apply Ascii.compare_eq_iff in E as ->. destruct (String.compare s t); naive_solver.
  - naive_solver.
  - split; [done|]. intros [?|[-> _]]; [done|].
    unfold Ascii.compare in E. by rewrite N.compare_refl in E.
Qed.

Lemma string_leb_trans s t u :
  String.leb s t = true → String.leb t u = true → String.leb s u = true.
Proof.
  revert t u. induction s as [|a s IH]; intros t u; [by destruct u|].
  destruct t as [|b t]; [done|]. destruct u as [|c u]; [done|].
  rewrite !string_leb_cons. intros [H1|[-> H1]] [H2|[-> H2]].
  - left. by eapply ascii_compare_trans.
  - by left.
  - by left.
  - right. split; [done|]. by eapply IH.
Qed.

Lemma string_leb_total_false s t : String.leb s t = false → String.leb t s = true.
Proof. intros Hf. destruct (String.leb_total s t); congruence. Qed.

Create HintDb dh.
#[export] Hint Resolve string_leb_refl string_leb_total_false : dh.

(** ** 7. Positions in arrays without duplicates *)

Lemma list_index_lookup {A} `{EqDecision A} (l : list A) i x :
  NoDup l → l !! i = Some x → list_index x l = Some i.
Proof.
  revert i. induction l as [|y l IH]; intros i Hnd Hl; [done|].
  apply NoDup_cons in Hnd as [Hy Hnd]. destruct i as [|i]; simplify_eq/=.
  - by rewrite decide_True.
  - rewrite decide_False.
    + by rewrite (IH i).
    + intros ->. apply Hy. by eapply list_elem_of_lookup_2.
Qed.

Lemma list_index_Some {A} `{EqDecision A} (l : list A) i x :
  list_index x l = Some i → l !! i = Some x.
Proof.
  revert i. induction l as [|y l IH]; intros i Hi; simplify_eq/=.
  case_decide; simplify_eq/=; [done|].
  destruct (list_index x l) eqn:E; simplify_eq/=. by apply IH.
Qed.

(** ** 8. Frames and postconditions of monadic operations *)

Section hoare.
Context {W : Type}.

(** [m] leaves the part [f] of the world alone, whether it returns or throws. *)
Definition keeps {A B} (f : W → B) (m : M W A) : Prop := ∀ w, f (snd (m w)) = f w.

(** Whatever [m] returns satisfies [Q]. *)
Definition returns {A} (m : M W A) (Q : A → Prop) : Prop :=
  ∀ w a w', m w = (Ret a, w') → Q a.

Lemma keeps_bind {A B C} (f : W → C) (m : M W A) (k : A → M W B) :
  keeps f m → (∀ a, keeps f (k a)) → keeps f (m ≫= k).
Proof.
  intros Hm Hk w. unfold mbind, M_bind. specialize (Hm w).
  destruct (m w) as [[a|e] w']; simpl in *; [|done]. by rewrite Hk.
Qed.

(** One step of a run. *)
Lemma bind_run {A B} (m : M W A) (k : A → M W B) w a w' :
  m w = (Ret a, w') → (m ≫= k) w = k a w'.
Proof. unfold mbind, M_bind. by intros ->. Qed.

Lemma keeps_ret {A C} (f : W → C) (a : A) : keeps f (mret a).
Proof. done. Qed.

Lemma keeps_throw {A C} (f : W → C) e : keeps f (throw (A := A) e).
Proof. done. Qed.

Lemma keeps_gets {A C} (f : W → C) (g : W → A) : keeps f (gets g).
Proof. done. Qed.

Lemma returns_bind {A B} (m : M W A) (k : A → M W B) Q R :
  returns m Q → (∀ a, Q a → returns (k a) R) → returns (m ≫= k) R.
Proof.
  intros Hm Hk w b w'. unfold mbind, M_bind.
  destruct (m w) as [[a|e] w1] eqn:E; [|done]. apply Hk. by eapply Hm.
Qed.

Lemma returns_any {A B} (m : M W A) (k : A → M W B) R :
  (∀ a, returns (k a) R) → returns (m ≫= k) R.
Proof. intros Hk. apply returns_bind with (λ _, True); [done|]. by intros a _. Qed.

Lemma returns_ret {A} (a : A) (Q : A → Prop) : Q a → returns (mret a) Q.
Proof. intros HQ w a' w' [= <- <-]. done. Qed.

Lemma returns_throw {A} e (Q : A → Prop) : returns (throw e) Q.
Proof. intros w a w' [=]. Qed.
End hoare.

(** Total correctness: from every world the operation returns a value with the
    property. *)
Definition yields {W A} (m : M W A) (Q : A → Prop) : Prop :=
  ∀ w, ∃ a w', m w = (Ret a, w') ∧ Q a.

Lemma yields_ret {W A} (a : A) (Q : A → Prop) : Q a → yields (W := W) (mret a) Q.
Proof. intros HQ w. by exists a, w. Qed.

Lemma yields_bind {W A B} (m : M W A) (k : A → M W B) P Q :
  yields m P → (∀ a, P a → yields (k a) Q) → yields (m ≫= k) Q.
Proof.
  intros Hm Hk w. destruct (Hm w) as (a & w1 & Hrun & HP). destruct (Hk a HP w1) as (b & w2 & Hrest & HQ).
  exists b, w2. unfold mbind, M_bind. by rewrite Hrun.
Qed.

Lemma yields_mono {W A} (m : M W A) (P Q : A → Prop) : yields m P → (∀ a, P a → Q a) → yields m Q.
Proof. intros Hm HPQ w. destruct (Hm w) as (a & w' & Hrun & HP). eauto. Qed.

(** Runs the first operation of the goal's sequence, by evaluation or by a
    known equation. *)
Ltac run_step := erewrite bind_run by (reflexivity || eassumption); cbv beta.

#[export] Hint Resolve keeps_bind keeps_ret keeps_throw keeps_gets returns_ret returns_throw : dh.

Lemma js_dedup_spec {A} `{EqDecision A} (seen xs : list A) :
  NoDup (js_dedup seen xs) ∧ ∀ x, x ∈ js_dedup seen xs ↔ x ∈ xs ∧ x ∉ seen.
Proof.
  revert seen. induction xs as [|x xs IH]; intros seen; simpl.
  - split; [constructor|set_solver].
  - case_decide as Hs.
    + destruct (IH seen) as [Hn He]. split; [done|]. intros y. rewrite He, elem_of_cons.
      split; [tauto|]. intros [[->|?] ?]; tauto.
    + destruct (IH (x :: seen)) as [Hn He]. split.
      * constructor; [|done]. rewrite He, elem_of_cons. tauto.
      * intros y. rewrite !elem_of_cons, He, elem_of_cons.
        destruct (decide (y = x)) as [->|]; tauto.
Qed.

(** ** 9. Sorting *)

Section sorting.
Context {A : Type} (le : A → A → bool).

Lemma js_insert_perm x ys : js_insert le x ys ≡ₚ x :: ys.
Proof.
  induction ys as [|y ys IH]; simpl; [done|]. destruct (le x y); [done|].
  rewrite IH. apply Permutation_swap.
Qed.

Lemma js_sort_perm xs : js_sort le xs ≡ₚ xs.
Proof. induction xs as [|x xs IH]; simpl; [done|]. by rewrite js_insert_perm, IH. Qed.

Lemma elem_of_js_sort x xs : x ∈ js_sort le xs ↔ x ∈ xs.
Proof. by rewrite js_sort_perm. Qed.

Hypothesis le_total : ∀ x y, le x y = false → le y x = true.
Hypothesis le_trans : ∀ x y z, le x y = true → le y z = true → le x z = true.

Lemma js_insert_sorted x ys :
  StronglySorted (λ a b, le a b = true) ys → StronglySorted (λ a b, le a b = true) (js_insert le x ys).
Proof using All.
  induction ys as [|y ys IH]; simpl; intros Hs; [repeat constructor|].
  apply StronglySorted_inv in Hs as [Hs Hall]. destruct (le x y) eqn:Hxy.
  - constructor; [by constructor|]. constructor; [done|].
    eapply Forall_impl; [exact Hall|]. eauto.
  - constructor; [by apply IH|]. rewrite js_insert_perm. constructor; [by apply le_total|done].
Qed.

Lemma js_sort_sorted xs : StronglySorted (λ a b, le a b = true) (js_sort le xs).
Proof using All. induction xs; simpl; [constructor|]. by apply js_insert_sorted. Qed.
End sorting.

Lemma NoDup_fmap_elem_inj {A B} (f : A → B) xs x y :
  NoDup (f <$> xs) → x ∈ xs → y ∈ xs → f x = f y → x = y.
Proof.
  intros Hnd [i Hi]%list_elem_of_lookup [j Hj]%list_elem_of_lookup Hf.
  assert (i = j) as ->; [|congruence].
  eapply (NoDup_lookup _ _ _ (f x) Hnd); rewrite list_lookup_fmap; [by rewrite Hi|by rewrite Hj, Hf].
Qed.

(** Two comparison functions that agree on different elements sort alike. *)
Lemma js_sort_ext {A} (le le' : A → A → bool) xs :
  NoDup xs → (∀ x y, x ∈ xs → y ∈ xs → x ≠ y → le x y = le' x y) → js_sort le xs = js_sort le' xs.
Proof.
  induction xs as [|x xs IH]; simpl; intros Hnd Heq; [done|].
  apply NoDup_cons in Hnd as [Hx Hnd]. rewrite IH by (try done; set_solver).
  assert (∀ y, y ∈ js_sort le' xs → le x y = le' x y) as Hle.
  { intros y Hy%elem_of_js_sort. apply Heq; [set_solver..|]. by intros ->. }
  clear Heq IH. induction (js_sort le' xs) as [|y ys IH]; simpl; [done|].
  rewrite <-Hle by set_solver. destruct (le x y); [done|]. rewrite IH; [done|set_solver].
Qed.

Lemma js_sort_id {A : Type} (le : A → A → bool) xs : StronglySorted (λ a b, le a b = true) xs → js_sort le xs = xs.
Proof.
  induction 1 as [|x xs Hs IH Hx]; simpl; [done|]. rewrite IH. destruct xs as [|y xs]; simpl; [done|].
  apply Forall_cons in Hx as [Hxy _]. by rewrite Hxy.
Qed.

Lemma filter_all {A : Type} (P : A → Prop) `{∀ x, Decision (P x)} xs : Forall P xs → filter P xs = xs.
Proof. induction 1; [done|]. rewrite filter_cons_True by done. by f_equal. Qed.

Lemma filter_none {A : Type} (P : A → Prop) `{∀ x, Decision (P x)} xs : Forall (λ x, ¬ P x) xs → filter P xs = [].
Proof. induction 1; [done|]. by rewrite filter_cons_False. Qed.

(** What a prefix of a sorted list leaves out comes no earlier. *)
Lemma sorted_prefix_before {A} (R : A → A → Prop) n xs a b :
  StronglySorted R xs → a ∈ take n xs → b ∈ drop n xs → R a b.
Proof.
  revert n. induction xs as [|x xs IH]; intros [|n]; simpl; try set_solver.
  intros [Hs Hall]%StronglySorted_inv [->|Ha]%elem_of_cons Hb; [|by eapply IH].
  rewrite Forall_forall in Hall. apply Hall. eapply subseteq_drop; eassumption.
Qed.
