(* ===== verification/Json.v ===== *)
(** * JSON values

    The JSON documents that the runtime stores in event and snapshot columns
    and rewrites when a session is forked or exported.  A number keeps its
    literal: no modelled operation computes with it.  An object keeps its
    members in insertion order, as [Object.entries] and [Object.fromEntries]
    do. *)

From S2P Require Import Prelude.
From Stdlib Require Import Ascii String.
From stdpp Require Import prelude list strings pretty.
Set Warnings "-register-all,-clear-no-such-hyp".
Set Default Goal Selector "!".

Inductive json : Type :=
| JNull
| JBool (b : bool)
| JNum (literal : string)
| JStr (s : string)
| JArr (items : list json)
| JObj (members : list (string * json)).

(** Induction that reaches the elements of arrays and the members of objects. *)
Section json_ind.
Variable P : json → Prop.
Hypothesis HNull : P JNull.
Hypothesis HBool : ∀ b, P (JBool b).
Hypothesis HNum : ∀ l, P (JNum l).
Hypothesis HStr : ∀ s, P (JStr s).
Hypothesis HArr : ∀ items, Forall P items → P (JArr items).
Hypothesis HObj : ∀ members, Forall (λ m, P m.2) members → P (JObj members).

Fixpoint json_nested_ind (v : json) : P v :=
  match v with
  | JNull => HNull
  | JBool b => HBool b
  | JNum l => HNum l
  | JStr s => HStr s
  | JArr items =>
    HArr items ((fix go l : Forall P l :=
      match l with
      | [] => Forall_nil_2 P
      | x :: l => Forall_cons_2 P x l (json_nested_ind x) (go l)
      end) items)
  | JObj members =>
    HObj members ((fix go l : Forall (λ m, P m.2) l :=
      match l with
      | [] => Forall_nil_2 _
      | (k, x) :: l => Forall_cons_2 _ (k, x) l (json_nested_ind x) (go l)
      end) members)
  end.
End json_ind.

(** The strings that occur as values (not as keys) in a document. *)
Fixpoint json_strings (v : json) : list string :=
  match v with
  | JStr s => [s]
  | JArr items => flat_map json_strings items
  | JObj members => flat_map (λ m, json_strings m.2) members
  | _ => []
  end.

(** [obj.key] on an object, [None] for [undefined]; the last member wins. *)
Definition json_get (key : string) (v : json) : option json :=
  match v with
  | JObj members => snd <$> last (filter (λ m, m.1 = key) members)
  | _ => None
  end.

(** [record[key] = value] on an object: an existing member keeps its place. *)
Fixpoint set_member (key : string) (v : json) (members : list (string * json)) :
    list (string * json) :=
  match members with
  | [] => [(key, v)]
  | (k, x) :: ms => if String.eqb k key then (k, v) :: ms else (k, x) :: set_member key v ms
  end.

(** A member that is left out when its value is [undefined], as
    [JSON.stringify] does. *)
Definition opt_member (key : string) (o : option json) : list (string * json) :=
  match o with Some v => [(key, v)] | None => [] end.

Definition opt_str (key : string) (o : option string) : list (string * json) :=
  opt_member key (JStr <$> o).

(** ** Inherited members

    The names that every object and every array inherits: [o[name]] and
    [name in o] find them although [Object.entries] does not list them. *)

Definition OBJECT_PROTOTYPE : list string :=
  ["constructor"; "__defineGetter__"; "__defineSetter__"; "hasOwnProperty"; "__lookupGetter__"; "__lookupSetter__";
   "isPrototypeOf"; "propertyIsEnumerable"; "toString"; "valueOf"; "__proto__"; "toLocaleString"].

Definition ARRAY_PROTOTYPE : list string :=
  ["length"; "at"; "concat"; "copyWithin"; "fill"; "find"; "findIndex"; "findLast"; "findLastIndex"; "lastIndexOf"; "pop";
   "push"; "reverse"; "shift"; "unshift"; "slice"; "sort"; "splice"; "includes"; "indexOf"; "join"; "keys"; "entries";
   "values"; "forEach"; "filter"; "flat"; "flatMap"; "map"; "every"; "some"; "reduce"; "reduceRight"; "toReversed";
   "toSorted"; "toSpliced"; "with"] ++ OBJECT_PROTOTYPE.

(** The inherited value of [o[name]], [None] for [undefined].  It is a function or
    a prototype, whose own members no modelled code reads: an object without
    members stands for it; an array has its own [length]. *)
Definition inherited_member (name : string) (o : json) : option json :=
  match o with
  | JObj _ => if decide (name ∈ OBJECT_PROTOTYPE) then Some (JObj []) else None
  | JArr items =>
    if String.eqb name "length" then Some (JNum (pretty (N.of_nat (length items))))
    else if decide (name ∈ ARRAY_PROTOTYPE) then Some (JObj []) else None
  | _ => None
  end.

(** ** Values *)

(** [!value], for [undefined] or a value. *)
Definition falsy (o : option json) : bool :=
  match o with
  | None | Some JNull | Some (JBool false) => true
  | Some (JNum l) => String.eqb l "0"
  | Some (JStr s) => String.eqb s ""
  | _ => false
  end.

(** [a ?? b]. *)
Definition coalesce (a b : option json) : option json :=
  match a with None | Some JNull => b | _ => a end.

(** [v === s] for a string [s]. *)
Definition is_string (s : string) (v : json) : bool :=
  match v with JStr t => String.eqb s t | _ => false end.

Definition equals_string (s : string) (o : option json) : bool := from_option (is_string s) false o.

(** [a === b] for values of two documents: objects and arrays are different
    objects, and numbers have one literal each. *)
Definition strict_equal (a b : json) : bool :=
  match a, b with
  | JNull, JNull => true
  | JBool x, JBool y => Bool.eqb x y
  | JNum x, JNum y => String.eqb x y
  | JStr x, JStr y => String.eqb x y
  | _, _ => false
  end.

(** [o.key] throws for [undefined] and [null]; [o?.key] does not. *)
Definition member (key : string) (o : option json) : outcome (option json) :=
  match o with
  | None | Some JNull => Throw "TypeError"
  | Some v => Ret (json_get key v)
  end.

Definition opt_get (key : string) (o : option json) : option json := o ≫= json_get key.

Definition strings_json (l : list string) : json := JArr (JStr <$> l).
Definition JInt (z : Z) : json := JNum (pretty z).

(** ** [JSON.stringify] without indentation, on code units below 128 *)

Definition hex_digit (n : nat) : ascii :=
  ascii_of_nat (if (n <? 10)%nat then 48 + n else 87 + n).

(** A backslash and one unit. *)
Definition esc (c : ascii) : string := String (ascii_of_nat 92) (String c "").

Definition escape_unit (c : ascii) : string :=
  let n := nat_of_ascii c in
  if (n =? 8)%nat then esc "b" else if (n =? 9)%nat then esc "t"
  else if (n =? 10)%nat then esc "n" else if (n =? 12)%nat then esc "f"
  else if (n =? 13)%nat then esc "r"
  else if (n =? 34)%nat || (n =? 92)%nat then esc c
  else if (n <? 32)%nat
  then esc "u" +:+ "00" +:+ String (hex_digit (n / 16)) (String (hex_digit (n mod 16)) "")
  else String c "".

Fixpoint escape (s : string) : string :=
  match s with EmptyString => "" | String c s => escape_unit c +:+ escape s end.

Definition QUOTE : string := String (ascii_of_nat 34) "".

Definition quoted (s : string) : string := QUOTE +:+ escape s +:+ QUOTE.

Fixpoint stringify (v : json) : string :=
  match v with
  | JNull => "null"
  | JBool b => if b then "true" else "false"
  | JNum l => l
  | JStr s => quoted s
  | JArr items => "[" +:+ Prelude.join "," (map stringify items) +:+ "]"
  | JObj members =>
    "{" +:+ Prelude.join "," (map (λ m, quoted m.1 +:+ ":" +:+ stringify m.2) members) +:+ "}"
  end.

(** [String(value)]. *)
Fixpoint js_String (v : json) : string :=
  match v with
  | JNull => "null"
  | JBool b => if b then "true" else "false"
  | JNum l => l
  | JStr s => s
  | JArr items => Prelude.join "," (map (λ x, match x with JNull => "" | x => js_String x end) items)
  | JObj _ => "[object Object]"
  end.

Example stringify_demo :
  String.length (stringify (JObj [("a", JArr [JNum "1"; JNull]); ("b", JStr QUOTE)])) = 23.
Proof. vm_compute. reflexivity. Qed.

(** ** Members of objects *)

Lemma json_get_cons key m ms :
  json_get key (JObj (m :: ms)) =
  match json_get key (JObj ms) with
  | Some v => Some v
  | None => if decide (m.1 = key) then Some m.2 else None
  end.
Proof.
  simpl. rewrite filter_cons. case_decide as Hm; [|by destruct (last _)].
  rewrite last_cons. by destruct (last _).
Qed.

Definition members_unique (members : list (string * json)) : Prop := NoDup members.*1.

Lemma json_get_None key ms : json_get key (JObj ms) = None ↔ key ∉ ms.*1.
Proof.
  induction ms as [|m ms IH]; [split; [set_solver|done]|].
  rewrite json_get_cons, fmap_cons, not_elem_of_cons, <-IH.
  destruct (json_get key (JObj ms)); [naive_solver|]. case_decide; naive_solver.
Qed.

Lemma set_member_keys key v ms :
  (set_member key v ms).*1 = if decide (key ∈ ms.*1) then ms.*1 else ms.*1 ++ [key].
Proof.
  induction ms as [|[k x] ms IH]; cbn [set_member]; [done|].
  destruct (String.eqb_spec k key) as [Hk|Hne]; rewrite !fmap_cons; cbn [fst] in *.
  - subst k. by rewrite decide_True by set_solver.
  - rewrite IH. destruct (decide (key ∈ ms.*1)).
    + by rewrite decide_True by set_solver.
    + by rewrite decide_False by set_solver.
Qed.

Lemma set_member_unique key v ms : members_unique ms → members_unique (set_member key v ms).
Proof.
  unfold members_unique. rewrite set_member_keys. case_decide; [done|].
  intros Hnd. apply NoDup_app. split_and!; [done|set_solver|apply NoDup_singleton].
Qed.

Lemma set_member_get key v ms :
  members_unique ms → ∀ k, json_get k (JObj (set_member key v ms)) =
    if decide (k = key) then Some v else json_get k (JObj ms).
Proof.
  unfold members_unique. induction ms as [|[k0 x] ms IH]; intros Hnd k.
  - simpl. rewrite filter_cons. simpl. destruct (decide (k = key)) as [->|].
    + by rewrite decide_True.
    + by rewrite decide_False by congruence.
  - rewrite fmap_cons in Hnd. apply NoDup_cons in Hnd as [Hk Hnd]. cbn [set_member fst] in *.
    destruct (String.eqb_spec k0 key) as [->|Hne]; rewrite !json_get_cons; cbn [fst snd].
    + destruct (decide (k = key)) as [->|E].
      * apply json_get_None in Hk. rewrite Hk. by rewrite decide_True.
      * destruct (json_get k (JObj ms)); [done|]. by rewrite !decide_False by congruence.
    + rewrite IH by done. by destruct (decide (k = key)).
Qed.

Lemma set_member_forall (P : string * json → bool) key v ms :
  P (key, v) = true → forallb P ms = true → forallb P (set_member key v ms) = true.
Proof.
  intros Hv. induction ms as [|[k x] ms IH]; simpl; [by rewrite Hv|].
  intros [Hm Hms]%andb_true_iff. destruct (String.eqb_spec k key) as [->|]; simpl; [by rewrite Hv|].
  by rewrite Hm, IH.
Qed.

Lemma get_member key v ms : NoDup ms.*1 → (key, v) ∈ ms → json_get key (JObj ms) = Some v.
Proof.
  intros Hnd Hin. cbn [json_get]. enough (filter (λ m, m.1 = key) ms = [(key, v)]) as -> by done.
  apply list_elem_of_split in Hin as (l1 & l2 & ->). rewrite fmap_app, fmap_cons in Hnd. apply NoDup_app in Hnd as (_ & H1 & Hnd).
  apply NoDup_cons in Hnd as [H2 _]. rewrite filter_app, filter_cons_True by done.
  assert (∀ l, key ∉ l.*1 → filter (λ m : string * json, m.1 = key) l = []) as Hno.
  { induction l as [|m l IH]; intros Hl; [done|]. cbn in Hl. rewrite filter_cons_False by (intros <-; apply Hl; by left).
    apply IH. intros Hk. apply Hl. by right. }
  rewrite (Hno l1), (Hno l2); [done|done|]. intros Hk. apply (H1 _ Hk). by left.
Qed.

Lemma json_get_app key (a b : list (string * json)) :
  json_get key (JObj (a ++ b)) = match json_get key (JObj b) with Some v => Some v | None => json_get key (JObj a) end.
Proof. unfold json_get. rewrite filter_app, last_app. by destruct (last (filter _ b)). Qed.

Lemma json_get_opt key key' o : key ≠ key' → json_get key (JObj (opt_member key' o)) = None.
Proof. intros Hne. destruct o; [|done]. unfold json_get, opt_member. rewrite filter_cons_False by (simpl; congruence). done. Qed.

Lemma set_member_new key v ms : key ∉ fst <$> ms → set_member key v ms = ms ++ [(key, v)].
Proof.
  induction ms as [|[k x] ms IH]; csimpl; [done|]. intros [Hk Hn]%not_elem_of_cons.
  destruct (String.eqb_spec k key); [congruence|]. by rewrite IH.
Qed.
