(* ===== verification/Regex.v ===== *)
(** * Regular expressions

    The regular expressions of the source, run the way ECMAScript runs them: a
    backtracking matcher in continuation-passing style that prefers the first
    alternative and the longest repetition, or the shortest of a lazy one, on code units below 128.  [test]
    and [exec] look for the leftmost match.  The matcher is related to a
    relational semantics, which is what the proofs of the clients use. *)

From S2P Require Import Prelude.
From Stdlib Require Import Ascii String.
From stdpp Require Import prelude list strings.
Set Default Proof Using "Type".
Set Warnings "-clear-no-such-hyp".

Inductive regex : Type :=
| RClass (p : ascii → bool)
| REps
| RSeq (r1 r2 : regex)
| RAlt (r1 r2 : regex)
| RStar (r : regex)
| RGroup (i : nat) (r : regex)
| RBol
| REol
| RWordB
| RLazy (r : regex).

(** A place in the input: the units before it in reverse order, the units after
    it, and the groups captured so far, the latest first. *)
Record pos : Type := mkPos {
  before : list ascii;
  after : list ascii;
  groups : list (nat * string);
}.

Definition word_at (l : list ascii) : bool :=
  match l with c :: _ => is_word c | [] => false end.

Definition at_word_boundary (s : pos) : bool := xorb (word_at (before s)) (word_at (after s)).

(** The text between two places of one match. *)
Definition text_between (s s1 : pos) : string :=
  string_of_list_ascii (rev (take (length (before s1) - length (before s)) (before s1))).

Definition capture (i : nat) (s s1 : pos) : pos :=
  mkPos (before s1) (after s1) ((i, text_between s s1) :: groups s1).

(** The matcher.  An iteration of [RStar] that consumes nothing is refused, as
    the standard says, so the units left bound the iterations. *)
Fixpoint bt {R} (r : regex) (s : pos) (k : pos → option R) : option R :=
  match r with
  | RClass p =>
    match after s with
    | c :: t => if p c then k (mkPos (c :: before s) t (groups s)) else None
    | [] => None
    end
  | REps => k s
  | RSeq r1 r2 => bt r1 s (λ s1, bt r2 s1 k)
  | RAlt r1 r2 => match bt r1 s k with Some x => Some x | None => bt r2 s k end
  | RStar r =>
    (fix loop (fuel : nat) (s : pos) : option R :=
       match fuel with
       | O => k s
       | S fuel =>
         match bt r s (λ s1, if (length (after s1) <? length (after s))%nat
                             then loop fuel s1 else None) with
         | Some x => Some x
         | None => k s
         end
       end) (length (after s)) s
  | RGroup i r => bt r s (λ s1, k (capture i s s1))
  | RBol => match before s with [] => k s | _ => None end
  | REol => match after s with [] => k s | _ => None end
  | RWordB => if at_word_boundary s then k s else None
  | RLazy r =>
    (fix loop (fuel : nat) (s : pos) : option R :=
       match k s with
       | Some x => Some x
       | None =>
         match fuel with
         | O => None
         | S fuel => bt r s (λ s1, if (length (after s1) <? length (after s))%nat
                                   then loop fuel s1 else None)
         end
       end) (length (after s)) s
  end.

(** The leftmost match at or after a place: where it starts and where it ends. *)
Fixpoint search (r : regex) (b a : list ascii) : option (pos * pos) :=
  match bt r (mkPos b a []) Some with
  | Some s1 => Some (mkPos b a [], s1)
  | None => match a with [] => None | c :: a => search r (c :: b) a end
  end.

Definition test (r : regex) (input : string) : bool :=
  match search r [] (list_ascii_of_string input) with Some _ => true | None => false end.

(** [input.match(r)]: the groups of the leftmost match. *)
Definition exec_match (r : regex) (input : string) : option (list (nat * string)) :=
  groups ∘ snd <$> search r [] (list_ascii_of_string input).

(** [m[i]]. *)
Definition group (i : nat) (gs : list (nat * string)) : option string :=
  snd <$> head (filter (λ g, g.1 = i) gs).

(** [input.search(r)], and the text of the whole match. *)
Definition match_text (r : regex) (input : string) : option string :=
  (λ m, text_between m.1 m.2) <$> search r [] (list_ascii_of_string input).

(** [input.match(r)] under the flag [g]: the texts of the matches from left to
    right; after an empty one the search goes on one unit further. *)
Fixpoint matches (fuel : nat) (r : regex) (b a : list ascii) : list string :=
  match fuel with
  | O => []
  | S fuel =>
    match search r b a with
    | None => []
    | Some (s0, s1) =>
      text_between s0 s1 ::
      (if (length (after s1) <? length (after s0))%nat then matches fuel r (before s1) (after s1)
       else match after s1 with
            | [] => []
            | c :: a => matches fuel r (c :: before s1) a
            end)
    end
  end.

Definition match_all (r : regex) (input : string) : list string :=
  matches (S (String.length input)) r [] (list_ascii_of_string input).

(** ** Building expressions *)

Definition chr (c : ascii) : regex := RClass (Ascii.eqb c).

(** A unit under the flag [i]. *)
Definition chr_i (c : ascii) : regex := RClass (λ d, Ascii.eqb (lower_ascii c) (lower_ascii d)).

Fixpoint word (f : ascii → regex) (w : string) : regex :=
  match w with EmptyString => REps | String c w => RSeq (f c) (word f w) end.

Definition lit : string → regex := word chr.
Definition lit_i : string → regex := word chr_i.

Definition ROpt (r : regex) : regex := RAlt r REps.
Definition RPlus (r : regex) : regex := RSeq r (RStar r).
Definition RAny (rs : list regex) : regex :=
  match rs with [] => RClass (λ _, false) | r :: rs => foldl RAlt r rs end.
Definition seqs (rs : list regex) : regex := foldr RSeq REps rs.
Definition one_of (cs : string) : regex :=
  RClass (λ c, bool_decide (c ∈ list_ascii_of_string cs)).
(** A letter or a digit. *)
Definition alphanumeric (c : ascii) : bool :=
  let n := nat_of_ascii c in
  (48 <=? n)%nat && (n <=? 57)%nat || (65 <=? n)%nat && (n <=? 90)%nat || (97 <=? n)%nat && (n <=? 122)%nat.

Definition ws : regex := RClass is_ws.
Definition digit : regex := RClass is_digit.
Definition blanks : regex := RPlus ws.
(** The dot: any unit but a line end. *)
Definition dot : regex := RClass (λ c, negb (Ascii.eqb c LF || Ascii.eqb c CR)).
(** Words with white space between them, under the flag [i] or not. *)
Definition phrase (f : string → regex) (words : list string) : regex :=
  match words with
  | [] => REps
  | w :: ws => RSeq (f w) (foldr (λ v r, RSeq blanks (RSeq (f v) r)) REps ws)
  end.
(** [\b(...)\b]. *)
Definition bounded (rs : list regex) : regex := seqs [RWordB; RAny rs; RWordB].

(** ** The relational semantics *)

Inductive sem : regex → pos → pos → Prop :=
| sem_class p b c t g : p c = true → sem (RClass p) (mkPos b (c :: t) g) (mkPos (c :: b) t g)
| sem_eps s : sem REps s s
| sem_seq r1 r2 s s1 s2 : sem r1 s s1 → sem r2 s1 s2 → sem (RSeq r1 r2) s s2
| sem_alt_l r1 r2 s s1 : sem r1 s s1 → sem (RAlt r1 r2) s s1
| sem_alt_r r1 r2 s s1 : sem r2 s s1 → sem (RAlt r1 r2) s s1
| sem_star_nil r s : sem (RStar r) s s
| sem_star_cons r s s1 s2 :
    sem r s s1 → length (after s1) < length (after s) → sem (RStar r) s1 s2 →
    sem (RStar r) s s2
| sem_group i r s s1 : sem r s s1 → sem (RGroup i r) s (capture i s s1)
| sem_bol a g : sem RBol (mkPos [] a g) (mkPos [] a g)
| sem_eol b g : sem REol (mkPos b [] g) (mkPos b [] g)
| sem_wordb s : at_word_boundary s = true → sem RWordB s s
| sem_lazy r s s1 : sem (RStar r) s s1 → sem (RLazy r) s s1.
#[export] Hint Constructors sem : dh.

Lemma bt_sound {R} r : ∀ s (k : pos → option R) x,
  bt r s k = Some x → ∃ s1, sem r s s1 ∧ k s1 = Some x.
Proof.
  induction r as [p| |r1 IH1 r2 IH2|r1 IH1 r2 IH2|r IH|i r IH| | | |r IH]; intros s k x; simpl.
  - destruct s as [b [|c t] g]; simpl; [done|]. destruct (p c) eqn:E; [|done]. eauto with dh.
  - eauto with dh.
  - intros (s1 & H1 & (s2 & H2 & ?)%IH2)%IH1. eauto with dh.
  - destruct (bt r1 s k) eqn:E; [intros [= ->]; apply IH1 in E as (? & ? & ?)|
      intros (? & ? & ?)%IH2]; eauto with dh.
  - generalize (length (after s)) at 1 as fuel. intros fuel. revert s.
    induction fuel as [|fuel IHf]; intros s; simpl; [eauto with dh|].
    destruct (bt r s _) as [y|] eqn:E; [|eauto with dh]. intros [= ->].
    apply IH in E as (s1 & H1 & Hk). destruct (Nat.ltb_spec (length (after s1)) (length (after s)));
      [|done]. apply IHf in Hk as (s2 & ? & ?). eauto with dh.
  - intros (s1 & ? & ?)%IH. eauto with dh.
  - destruct s as [[|] a g]; simpl; [eauto with dh|done].
  - destruct s as [b [|] g]; simpl; [eauto with dh|done].
  - destruct (at_word_boundary s) eqn:E; [eauto with dh|done].
  - generalize (length (after s)) at 1 as fuel. intros fuel Hloop.
    assert (∃ s1, sem (RStar r) s s1 ∧ k s1 = Some x) as (s1 & ? & ?); [|eauto with dh].
    revert s Hloop. induction fuel as [|fuel IHf]; intros s; simpl;
      (destruct (k s) as [y|] eqn:Ek; [intros [= ->]; eauto with dh|]); [done|].
    intros (s1 & H1 & Hk)%IH. destruct (Nat.ltb_spec (length (after s1)) (length (after s))); [|done].
    apply IHf in Hk as (s2 & ? & ?). eauto with dh.
Qed.

Lemma bt_complete {R} r : ∀ s s1 (k : pos → option R),
  sem r s s1 → is_Some (k s1) → is_Some (bt r s k).
Proof.
  induction r as [p| |r1 IH1 r2 IH2|r1 IH1 r2 IH2|r IH|i r IH| | | |r IH]; intros s s1 k Hs Hk; simpl.
  - inversion Hs; subst; simpl. by case_match.
  - by inversion Hs; subst.
  - inversion Hs; subst. eapply IH1; [done|]. by eapply IH2.
  - inversion Hs; subst.
    + destruct (bt r1 s k) eqn:E; [done|]. edestruct IH1 as [? ?]; [done..|]. congruence.
    + destruct (bt r1 s k) eqn:E; [done|]. by eapply IH2.
  - assert (∀ fuel, length (after s) ≤ fuel → is_Some ((fix loop (fuel : nat) (s : pos) : option R :=
       match fuel with
       | O => k s
       | S fuel =>
         match bt r s (λ s1, if (length (after s1) <? length (after s))%nat
                             then loop fuel s1 else None) with
         | Some x => Some x
         | None => k s
         end
       end) fuel s)) as Hloop; [|by apply Hloop].
    remember (RStar r) as rs eqn:Er. induction Hs as [| | | | |r' s|r' s s1 s2 H1 _ Hlt H2 IHs| | | | |];
      simplify_eq; intros [|fuel] Hf; simpl; try done.
    + by case_match.
    + lia.
    + specialize (IHs eq_refl Hk fuel ltac:(lia)).
      match goal with |- is_Some (match bt r s ?f with _ => _ end) =>
        assert (is_Some (bt r s f)) as [y ->]; [|done]
      end.
      eapply IH; [exact H1|]. simpl. rewrite (proj2 (Nat.ltb_lt _ _) Hlt). exact IHs.
  - inversion Hs; subst. eapply IH; [done|]. done.
  - by inversion Hs; subst.
  - by inversion Hs; subst.
  - inversion Hs; subst. by case_match.
  - inversion Hs as [| | | | | | | | | | |r0 s' s1' Hs']; subst. clear Hs. rename Hs' into Hs.
    assert (∀ fuel, length (after s) ≤ fuel → is_Some ((fix loop (fuel : nat) (s : pos) : option R :=
       match k s with
       | Some x => Some x
       | None =>
         match fuel with
         | O => None
         | S fuel => bt r s (λ s1, if (length (after s1) <? length (after s))%nat
                                   then loop fuel s1 else None)
         end
       end) fuel s)) as Hloop; [|by apply Hloop].
    remember (RStar r) as rs eqn:Er. induction Hs as [| | | | |r' s|r' s s1 s2 H1 _ Hlt H2 IHs| | | | |];
      simplify_eq; intros [|fuel] Hf; simpl; destruct (k s) eqn:Ek; try done.
    + lia.
    + specialize (IHs Hk eq_refl fuel ltac:(lia)). eapply IH; [exact H1|]. simpl.
      rewrite (proj2 (Nat.ltb_lt _ _) Hlt). exact IHs.
Qed.

(** A match never moves backwards, and keeps the input. *)
Lemma sem_input r s s1 : sem r s s1 →
  ∃ m, after s = m ++ after s1 ∧ before s1 = rev m ++ before s.
Proof.
  induction 1 as [p b c t g| | r1 r2 s s1 s2 _ IH1 _ IH2| | | |r s s1 s2 _ IH1 _ _ IH2| | | | |];
    try (by exists []); try done.
  - by exists [c].
  - destruct IH1 as (m1 & E1 & F1), IH2 as (m2 & E2 & F2). exists (m1 ++ m2).
    by rewrite E1, E2, F2, F1, rev_app_distr, <- !app_assoc.
  - destruct IH1 as (m1 & E1 & F1), IH2 as (m2 & E2 & F2). exists (m1 ++ m2).
    by rewrite E1, E2, F2, F1, rev_app_distr, <- !app_assoc.
Qed.

(** [r] matches somewhere in the input. *)
Definition occurs (r : regex) (b a : list ascii) : Prop :=
  ∃ p q s1, a = p ++ q ∧ sem r (mkPos (rev p ++ b) q []) s1.

Lemma search_correct r a : ∀ b, is_Some (search r b a) ↔ occurs r b a.
Proof.
  induction a as [|c a IH]; intros b; simpl; destruct (bt r _ Some) as [s1|] eqn:E.
  - split; [|done]. intros _. apply bt_sound in E as (s2 & ? & _). by exists [], [], s2.
  - split; [by intros [? ?]|]. intros (p & q & s1 & Hp & Hs).
    symmetry in Hp. apply app_eq_nil in Hp as [-> ->]. simpl in Hs.
    edestruct (bt_complete r _ _ Some Hs) as [? ?]; [done|congruence].
  - split; [|done]. intros _. apply bt_sound in E as (s2 & ? & _). by exists [], (c :: a), s2.
  - rewrite IH. split.
    + intros (p & q & s1 & -> & Hs). exists (c :: p), q, s1. split; [done|].
      simpl. by rewrite <- app_assoc.
    + intros ([|d p] & q & s1 & Hp & Hs); simplify_eq/=.
      * edestruct (bt_complete r _ _ Some Hs) as [? ?]; [done|congruence].
      * exists p, q, s1. split; [done|]. by rewrite <- app_assoc in Hs.
Qed.

Lemma test_correct r input : test r input = true ↔ occurs r [] (list_ascii_of_string input).
Proof.
  unfold test. rewrite <- search_correct.
  destruct (search _ _ _); split; done.
Qed.

(** ** Literals *)

Lemma sem_lit w b a g s1 : sem (lit w) (mkPos b a g) s1 ↔
  ∃ t, a = list_ascii_of_string w ++ t ∧
       s1 = mkPos (rev (list_ascii_of_string w) ++ b) t g.
Proof.
  unfold lit. revert b a s1. induction w as [|c w IH]; intros b a s1; simpl.
  - split.
    + inversion 1; subst. eauto.
    + intros (t & -> & ->). constructor.
  - split.
    + inversion 1 as [| |? ? ? s2 ? H1 H2| | | | | | | | |]; subst.
      inversion H1 as [? ? d t ? Heq| | | | | | | | | | |]; subst.
      apply Ascii.eqb_eq in Heq as ->. apply IH in H2 as (t' & -> & ->). exists t'.
      by rewrite <- app_assoc.
    + intros (t & -> & ->). simpl. rewrite <- app_assoc. econstructor.
      * apply sem_class, Ascii.eqb_refl.
      * apply IH. by exists t.
Qed.

Lemma prefix_app_list w s : String.prefix w s = true ↔
  ∃ t, list_ascii_of_string s = list_ascii_of_string w ++ t.
Proof.
  revert s. induction w as [|c w IH]; intros s; simpl.
  - split; intros _; [by exists (list_ascii_of_string s)|by destruct s].
  - destruct s as [|d s]; simpl.
    + split; [done|]. by intros (t & ?).
    + destruct (ascii_dec c d) as [->|Hne].
      * rewrite IH. split; intros (t & Ht); exists t; congruence.
      * split; [done|]. intros (t & ?). congruence.
Qed.

(** Testing for a literal is [includes]. *)
Lemma test_lit w s : test (lit w) s = includes s w.
Proof.
  apply eq_true_iff_eq. rewrite test_correct. unfold occurs.
  assert (∀ b, (∃ p q s1, list_ascii_of_string s = p ++ q ∧ sem (lit w) (mkPos (rev p ++ b) q []) s1)
    ↔ includes s w = true) as Hgen; [|apply (Hgen [])].
  induction s as [|c s IH]; intros b; cbn [includes list_ascii_of_string].
  - rewrite orb_false_r, prefix_app_list. cbn [list_ascii_of_string]. split.
    + intros (p & q & s1 & Hp & (t & Hq & _)%sem_lit). symmetry in Hp.
      apply app_eq_nil in Hp as [_ ->]. eauto.
    + intros (t & Ht). eexists [], [], _. split; [done|]. apply sem_lit. eauto.
  - rewrite orb_true_iff, prefix_app_list, <- (IH (c :: b)). cbn [list_ascii_of_string]. split.
    + intros (p & q & s1 & Hp & Hs). destruct p as [|d p]; simplify_eq/=.
      * left. apply sem_lit in Hs as (t & ? & _). eauto.
      * right. exists p, q, s1. split; [done|]. by rewrite <- app_assoc in Hs.
    + intros [(t & Ht)|(p & q & s1 & Hp & Hs)].
      * eexists [], _, _. split; [done|]. apply sem_lit. eauto.
      * eexists (c :: p), q, s1. split; [by rewrite Hp|]. simpl. by rewrite <- app_assoc.
Qed.
