(* ===== verification/Domain.v ===== *)
(** * Shared data of the runtime

    Lanes, stages, sessions, workflow states and the records of the session
    runtime: [packages/shared/src/types] and [packages/shared/src/constants]. *)

From S2P Require Import Prelude Json.
From stdpp Require Import prelude list strings.

(** ** Lanes and stages *)

Inductive WorkflowLane : Type := quick | delivery | migration | full.

#[global] Instance WorkflowLane_eq_dec : EqDecision WorkflowLane.
Proof. solve_decision. Defined.

Definition lane_name (l : WorkflowLane) : string :=
  match l with
  | quick => "quick" | delivery => "delivery"
  | migration => "migration" | full => "full"
  end.

Definition WORKFLOW_LANES : list WorkflowLane := [quick; delivery; migration; full].

Inductive SemanticMode : Type := always | auto | off.

Inductive ToolEnforcementLevel : Type := very_hard.

Inductive WorkflowStage : Type :=
| quick_intake | quick_plan | quick_execute | quick_verify | quick_complete
| delivery_intake | delivery_analysis | delivery_solution | delivery_task_split
| delivery_execute | delivery_review | delivery_verify | delivery_complete
| migration_intake | migration_baseline | migration_strategy | migration_task_split
| migration_execute | migration_review | migration_verify | migration_complete
| full_intake | full_product | full_solution | full_implementation
| full_code_review | full_qa | full_done.

#[global] Instance WorkflowStage_eq_dec : EqDecision WorkflowStage.
Proof. solve_decision. Defined.

(** The string of a stage; the code tests stages by suffix. *)
Definition stage_name (s : WorkflowStage) : string :=
  match s with
  | quick_intake => "quick_intake" | quick_plan => "quick_plan"
  | quick_execute => "quick_execute" | quick_verify => "quick_verify"
  | quick_complete => "quick_complete"
  | delivery_intake => "delivery_intake" | delivery_analysis => "delivery_analysis"
  | delivery_solution => "delivery_solution"
  | delivery_task_split => "delivery_task_split"
  | delivery_execute => "delivery_execute" | delivery_review => "delivery_review"
  | delivery_verify => "delivery_verify" | delivery_complete => "delivery_complete"
  | migration_intake => "migration_intake" | migration_baseline => "migration_baseline"
  | migration_strategy => "migration_strategy"
  | migration_task_split => "migration_task_split"
  | migration_execute => "migration_execute" | migration_review => "migration_review"
  | migration_verify => "migration_verify" | migration_complete => "migration_complete"
  | full_intake => "full_intake" | full_product => "full_product"
  | full_solution => "full_solution" | full_implementation => "full_implementation"
  | full_code_review => "full_code_review" | full_qa => "full_qa"
  | full_done => "full_done"
  end.

Definition STAGES_BY_LANE (l : WorkflowLane) : list WorkflowStage :=
  match l with
  | quick => [quick_intake; quick_plan; quick_execute; quick_verify; quick_complete]
  | delivery => [delivery_intake; delivery_analysis; delivery_solution;
                 delivery_task_split; delivery_execute; delivery_review;
                 delivery_verify; delivery_complete]
  | migration => [migration_intake; migration_baseline; migration_strategy;
                  migration_task_split; migration_execute; migration_review;
                  migration_verify; migration_complete]
  | full => [full_intake; full_product; full_solution; full_implementation;
             full_code_review; full_qa; full_done]
  end.

Inductive StageStatus : Type :=
| stage_pending | stage_in_progress | stage_passed | stage_failed | stage_blocked.

#[global] Instance StageStatus_eq_dec : EqDecision StageStatus.
Proof. solve_decision. Defined.

Inductive GateStatus : Type := gate_pending | gate_pass | gate_fail.

Record WorkflowState : Type := mkWorkflow {
  wf_lane : WorkflowLane;
  wf_stage : WorkflowStage;
  wf_stageStatus : StageStatus;
  wf_previousStage : option WorkflowStage;
  wf_nextStage : option WorkflowStage;
  wf_gateStatus : GateStatus;
  wf_blockers : list string;
}.

(** ** Sessions *)

Inductive SessionStatus : Type :=
| ss_pending | ss_in_progress | ss_blocked | ss_complete.

#[global] Instance SessionStatus_eq_dec : EqDecision SessionStatus.
Proof. solve_decision. Defined.

(** The member [laneLocked : true] of the source has one value and no field
    here. *)
Record SessionState : Type := mkSession {
  sessionId : string;
  repoRoot : string;
  lane : WorkflowLane;
  currentStage : WorkflowStage;
  status : SessionStatus;
  createdAt : string;
  updatedAt : string;
  activeWorkItemIds : list string;
  semanticMode : SemanticMode;
  toolEnforcementLevel : ToolEnforcementLevel;
  latestSummaryId : option string;
  latestCheckpointId : option string;
  latestRevertId : option string;
}.

(** ** Records of the session runtime

    [ev_type] keeps the string of the event type, which the code compares and
    stores but never takes apart. *)

Record SessionRuntimeEventRecord : Type := mkEvent {
  ev_id : string;
  ev_sessionId : string;
  ev_type : string;
  ev_json : json;
  ev_createdAt : string;
}.

Record SessionSummaryRecord : Type := mkSummary {
  sum_id : string;
  sum_sessionId : string;
  sum_filesChanged : nat;
  sum_additions : nat;
  sum_deletions : nat;
  sum_lastDiffAt : option string;
  sum_latestStage : option WorkflowStage;
  sum_latestCheckpointId : option string;
  sum_continuationSummary : option string;
  sum_continuationCreatedAt : option string;
  sum_updatedAt : string;
}.

(** The members of [summarySnapshotJson] that are ever read; an empty object
    has them all absent. *)
Record SummarySnapshot : Type := mkSummarySnapshot {
  sn_filesChanged : option nat;
  sn_additions : option nat;
  sn_deletions : option nat;
  sn_lastDiffAt : option string;
  sn_latestStage : option WorkflowStage;
  sn_latestCheckpointId : option string;
  sn_continuationSummary : option string;
  sn_continuationCreatedAt : option string;
}.

Definition empty_summary_snapshot : SummarySnapshot :=
  mkSummarySnapshot None None None None None None None None.

Inductive CheckpointType : Type :=
| session_bootstrap | post_workflow | post_stage_advance | pre_revert.

(** [workflowSnapshotJson] is [None] for the empty object, which is what a
    checkpoint saved without a workflow snapshot holds. *)
Record SessionCheckpointRecord : Type := mkCheckpoint {
  cp_id : string;
  cp_sessionId : string;
  cp_type : CheckpointType;
  cp_lane : WorkflowLane;
  cp_stage : WorkflowStage;
  cp_summarySnapshot : SummarySnapshot;
  cp_workflowSnapshot : option WorkflowState;
  cp_continuation : json;
  cp_metadata : json;
  cp_createdAt : string;
}.

Record SessionRevertRecord : Type := mkRevert {
  rv_id : string;
  rv_sessionId : string;
  rv_checkpointId : string;
  rv_previousCheckpointId : option string;
  rv_reason : string;
  rv_createdAt : string;
}.

(** ** Work items *)

Inductive WorkItemStatus : Type := wi_pending | wi_in_progress | wi_done | wi_blocked.

#[global] Instance WorkItemStatus_eq_dec : EqDecision WorkItemStatus.
Proof. solve_decision. Defined.

Inductive OwnerRole : Type := owner_implementer | owner_reviewer | owner_tester.

Inductive CheckStatus : Type := check_pending | check_pass | check_fail | check_partial.

Record WorkItemState : Type := mkWorkItem {
  wi_id : string;
  wi_sessionId : string;
  wi_lane : WorkflowLane;
  wi_title : string;
  wi_description : string;
  wi_ownerRole : OwnerRole;
  wi_dependencies : list string;
  wi_parallelizable : bool;
  wi_executionGroup : option string;
  wi_status : WorkItemStatus;
  wi_targetAreas : list string;
  wi_acceptance : list string;
  wi_validationPlan : list string;
  wi_reviewStatus : CheckStatus;
  wi_testStatus : CheckStatus;
}.

#[global] Instance OwnerRole_eq_dec : EqDecision OwnerRole.
Proof. solve_decision. Defined.
#[global] Instance CheckStatus_eq_dec : EqDecision CheckStatus.
Proof. solve_decision. Defined.
#[global] Instance WorkItemState_eq_dec : EqDecision WorkItemState.
Proof. solve_decision. Defined.

(** ** Agents and execution envelopes *)

Inductive AgentRole : Type :=
| role_quick | role_coordinator | role_analyst | role_architect
| role_implementer | role_reviewer | role_tester.

#[global] Instance AgentRole_eq_dec : EqDecision AgentRole.
Proof. solve_decision. Defined.

Record ResolvedModelSelection : Type := mkModel {
  providerId : string;
  modelId : string;
  variantId : string;
}.

Record ExecutionEnvelopeState : Type := mkEnvelope {
  env_id : string;
  env_sessionId : string;
  env_lane : WorkflowLane;
  env_role : AgentRole;
  env_agentId : string;
  env_stage : WorkflowStage;
  env_workItemId : option string;
  env_resolvedModel : ResolvedModelSelection;
  env_activeSkills : list string;
  env_activeMcps : list string;
  env_requiredTools : list string;
  env_semanticMode : SemanticMode;
  env_createdAt : string;
}.

Record PersistedSessionRecord : Type := mkPersisted {
  ps_session : SessionState;
  ps_workflow : WorkflowState;
  ps_envelopes : list ExecutionEnvelopeState;
}.

(** ** Audit rows *)

Inductive HookDecision : Type := hd_allow | hd_block | hd_modify.

Record HookInvocationLog : Type := mkHookLog {
  hl_id : string;
  hl_sessionId : string;
  hl_envelopeId : string;
  hl_hookName : string;
  hl_input : json;
  hl_output : json;
  hl_decision : HookDecision;
  hl_reason : string;
  hl_durationMs : nat;
  hl_timestamp : string;
}.

Inductive ToolUsageStatus : Type := tu_called | tu_succeeded | tu_failed | tu_required_but_missing.

Record ToolUsageAudit : Type := mkToolUsage {
  tu_id : string;
  tu_sessionId : string;
  tu_envelopeId : string;
  tu_role : AgentRole;
  tu_intent : string;
  tu_toolName : string;
  tu_status : ToolUsageStatus;
  tu_timestamp : string;
}.

(** ** The run registry of the process *)

Record RunEntry : Type := mkRun {
  run_id : string;
  run_sessionId : string;
  run_startedAt : string;
  run_metadata : option json;
  run_cancelRequestedAt : option string;
  run_cancelReason : option string;
}.

(** ** The full workflow *)

Inductive FullWorkflowRoleId : Type :=
| master_orchestrator | product_lead | solution_lead | fullstack_agent
| code_reviewer | qa_agent | context_scout | summarizer.

#[global] Instance FullWorkflowRoleId_eq_dec : EqDecision FullWorkflowRoleId.
Proof. solve_decision. Defined.

Definition full_role_name (r : FullWorkflowRoleId) : string :=
  match r with
  | master_orchestrator => "master_orchestrator" | product_lead => "product_lead"
  | solution_lead => "solution_lead" | fullstack_agent => "fullstack_agent"
  | code_reviewer => "code_reviewer" | qa_agent => "qa_agent"
  | context_scout => "context_scout" | summarizer => "summarizer"
  end.

Inductive FullWorkflowPermission : Type :=
| perm_read_only | perm_write_with_permission | perm_bounded_shell.

#[global] Instance FullWorkflowPermission_eq_dec : EqDecision FullWorkflowPermission.
Proof. solve_decision. Defined.

Record FullWorkflowRoleContract : Type := mkContract {
  rc_id : FullWorkflowRoleId;
  rc_displayName : string;
  rc_permission : FullWorkflowPermission;
  rc_responsibility : string;
}.

Inductive FullWorkflowApprovalGateId : Type :=
| product_to_solution | solution_to_fullstack | fullstack_to_code_review
| code_review_to_qa | qa_to_done.

#[global] Instance FullWorkflowApprovalGateId_eq_dec : EqDecision FullWorkflowApprovalGateId.
Proof. solve_decision. Defined.

(** The stages of the full workflow are the stages of lane [full]. *)
Record FullWorkflowApprovalGate : Type := mkGate {
  gate_id : FullWorkflowApprovalGateId;
  gate_from : WorkflowStage;
  gate_to : WorkflowStage;
}.

Inductive ChildStatus : Type :=
| child_pending | child_running | child_complete | child_blocked.

#[global] Instance ChildStatus_eq_dec : EqDecision ChildStatus.
Proof. solve_decision. Defined.

Record FullWorkflowChildSession : Type := mkChild {
  ch_id : string;
  ch_role : FullWorkflowRoleId;
  ch_stage : WorkflowStage;
  ch_status : ChildStatus;
  ch_permission : FullWorkflowPermission;
  ch_summary : option string;
}.

Inductive ArtifactType : Type := role_output | handoff | qa_evidence | review_findings.

Record FullWorkflowArtifact : Type := mkArtifact {
  art_id : string;
  art_type : ArtifactType;
  art_role : FullWorkflowRoleId;
  art_stage : WorkflowStage;
  art_summary : string;
  art_evidenceRefs : list string;
  art_createdAt : string;
}.

Inductive GateDecision : Type := approve | reject.

#[global] Instance GateDecision_eq_dec : EqDecision GateDecision.
Proof. solve_decision. Defined.

Record FullWorkflowApproval : Type := mkApproval {
  ap_gateId : FullWorkflowApprovalGateId;
  ap_decision : GateDecision;
  ap_reason : option string;
  ap_createdAt : string;
}.

Record FullWorkflowRerouteIssue : Type := mkReroute {
  ri_id : string;
  ri_finding : string;
  ri_targetStage : WorkflowStage;
  ri_createdAt : string;
}.

Inductive FullAuditEvent : Type :=
| full_started_ev | full_role_started | full_role_finished | full_gate_approved
| full_gate_rejected | full_rerouted | full_closed.

Definition full_event_name (e : FullAuditEvent) : string :=
  match e with
  | full_started_ev => "full.started"
  | full_role_started => "full.role.started"
  | full_role_finished => "full.role.finished"
  | full_gate_approved => "full.gate.approved"
  | full_gate_rejected => "full.gate.rejected"
  | full_rerouted => "full.rerouted"
  | full_closed => "full.closed"
  end.

Record FullWorkflowAuditRecord : Type := mkAudit {
  au_id : string;
  au_event : FullAuditEvent;
  au_role : FullWorkflowRoleId;
  au_stage : WorkflowStage;
  au_createdAt : string;
}.

Inductive FullStatus : Type := full_running | full_blocked | full_complete.

#[global] Instance FullStatus_eq_dec : EqDecision FullStatus.
Proof. solve_decision. Defined.

(** The member [concurrency.singleWriteOwner] has the one value
    [fullstack_agent] and no field here. *)
Record FullWorkflowState : Type := mkFull {
  fw_parentSessionId : string;
  fw_objective : string;
  fw_currentStage : WorkflowStage;
  fw_currentOwner : FullWorkflowRoleId;
  fw_status : FullStatus;
  fw_childSessions : list FullWorkflowChildSession;
  fw_approvals : list FullWorkflowApproval;
  fw_artifacts : list FullWorkflowArtifact;
  fw_rerouteIssues : list FullWorkflowRerouteIssue;
  fw_evidenceLedgerRefs : list string;
  fw_audit : list FullWorkflowAuditRecord;
  fw_maxReadOnlyWorkers : nat;
  fw_createdAt : string;
  fw_updatedAt : string;
}.
