(* ===== verification/Store.v ===== *)
(** * The world: database, files, process memory

    The state that the operations of the runtime share: the SQLite tables of
    [packages/storage/src/sqlite/db.ts], the JSON files of sessions and full
    workflows, the run registry of the process, the clock and the random source.

    A table is the list of its rows in rowid order: an insert appends (SQLite
    gives it the largest rowid), an upsert on an existing key keeps the place of
    the row, a delete removes rows.  JSON columns hold the value itself, since
    [JSON.parse (JSON.stringify v)] is [v] up to members that are [undefined],
    which the records have as [None]. *)

From S2P Require Import Prelude Json Domain.
From Stdlib Require Import Ascii String.
From stdpp Require Import prelude list strings gmap.
Set Default Proof Using "Type".
Set Warnings "-clear-no-such-hyp".

(** ** The world *)

(** [w_fk] says whether the connection enforces FOREIGN KEY constraints, which
    is what [node:sqlite] does unless it is told otherwise.  [w_mirror] is the
    last session, workflow and envelope written to [.dh/workflow-state.json].
    [w_runs] is the heap of [RunEntry] objects and [w_registry] the process-wide
    [runRegistry], which maps a session to the object of its run.
    [w_ticks] and [w_draws] count the readings of the clock and of the random
    source. *)
Record World : Type := mkWorld {
  w_fk : bool;
  w_sessions : list SessionState;
  w_workflow : list (string * WorkflowState);
  w_envelopes : list ExecutionEnvelopeState;
  w_workItems : list WorkItemState;
  w_events : list SessionRuntimeEventRecord;
  w_summaries : list SessionSummaryRecord;
  w_checkpoints : list SessionCheckpointRecord;
  w_reverts : list SessionRevertRecord;
  w_hookLogs : list HookInvocationLog;
  w_toolAudit : list ToolUsageAudit;
  w_sessionFiles : gmap string PersistedSessionRecord;
  w_mirror : option PersistedSessionRecord;
  w_fullFiles : gmap string FullWorkflowState;
  w_runs : list RunEntry;
  w_registry : gmap string nat;
  w_ticks : nat;
  w_draws : nat;
}.

Definition set_sessions (v : list SessionState) (w : World) : World :=
  {| w_fk := w_fk w; w_sessions := v; w_workflow := w_workflow w;
     w_envelopes := w_envelopes w; w_workItems := w_workItems w;
     w_events := w_events w; w_summaries := w_summaries w;
     w_checkpoints := w_checkpoints w; w_reverts := w_reverts w;
     w_hookLogs := w_hookLogs w; w_toolAudit := w_toolAudit w;
     w_sessionFiles := w_sessionFiles w; w_mirror := w_mirror w;
     w_fullFiles := w_fullFiles w; w_runs := w_runs w; w_registry := w_registry w; w_ticks := w_ticks w;
     w_draws := w_draws w |}.

Definition set_workflow (v : list (string * WorkflowState)) (w : World) : World :=
  {| w_fk := w_fk w; w_sessions := w_sessions w; w_workflow := v;
     w_envelopes := w_envelopes w; w_workItems := w_workItems w;
     w_events := w_events w; w_summaries := w_summaries w;
     w_checkpoints := w_checkpoints w; w_reverts := w_reverts w;
     w_hookLogs := w_hookLogs w; w_toolAudit := w_toolAudit w;
     w_sessionFiles := w_sessionFiles w; w_mirror := w_mirror w;
     w_fullFiles := w_fullFiles w; w_runs := w_runs w; w_registry := w_registry w; w_ticks := w_ticks w;
     w_draws := w_draws w |}.

Definition set_envelopes (v : list ExecutionEnvelopeState) (w : World) : World :=
  {| w_fk := w_fk w; w_sessions := w_sessions w; w_workflow := w_workflow w;
     w_envelopes := v; w_workItems := w_workItems w; w_events := w_events w;
     w_summaries := w_summaries w; w_checkpoints := w_checkpoints w;
     w_reverts := w_reverts w; w_hookLogs := w_hookLogs w;
     w_toolAudit := w_toolAudit w; w_sessionFiles := w_sessionFiles w;
     w_mirror := w_mirror w; w_fullFiles := w_fullFiles w; w_runs := w_runs w; w_registry := w_registry w;
     w_ticks := w_ticks w; w_draws := w_draws w |}.

Definition set_workItems (v : list WorkItemState) (w : World) : World :=
  {| w_fk := w_fk w; w_sessions := w_sessions w; w_workflow := w_workflow w;
     w_envelopes := w_envelopes w; w_workItems := v; w_events := w_events w;
     w_summaries := w_summaries w; w_checkpoints := w_checkpoints w;
     w_reverts := w_reverts w; w_hookLogs := w_hookLogs w;
     w_toolAudit := w_toolAudit w; w_sessionFiles := w_sessionFiles w;
     w_mirror := w_mirror w; w_fullFiles := w_fullFiles w; w_runs := w_runs w; w_registry := w_registry w;
     w_ticks := w_ticks w; w_draws := w_draws w |}.

Definition set_events (v : list SessionRuntimeEventRecord) (w : World) : World :=
  {| w_fk := w_fk w; w_sessions := w_sessions w; w_workflow := w_workflow w;
     w_envelopes := w_envelopes w; w_workItems := w_workItems w; w_events := v;
     w_summaries := w_summaries w; w_checkpoints := w_checkpoints w;
     w_reverts := w_reverts w; w_hookLogs := w_hookLogs w;
     w_toolAudit := w_toolAudit w; w_sessionFiles := w_sessionFiles w;
     w_mirror := w_mirror w; w_fullFiles := w_fullFiles w; w_runs := w_runs w; w_registry := w_registry w;
     w_ticks := w_ticks w; w_draws := w_draws w |}.

Definition set_summaries (v : list SessionSummaryRecord) (w : World) : World :=
  {| w_fk := w_fk w; w_sessions := w_sessions w; w_workflow := w_workflow w;
     w_envelopes := w_envelopes w; w_workItems := w_workItems w;
     w_events := w_events w; w_summaries := v; w_checkpoints := w_checkpoints w;
     w_reverts := w_reverts w; w_hookLogs := w_hookLogs w;
     w_toolAudit := w_toolAudit w; w_sessionFiles := w_sessionFiles w;
     w_mirror := w_mirror w; w_fullFiles := w_fullFiles w; w_runs := w_runs w; w_registry := w_registry w;
     w_ticks := w_ticks w; w_draws := w_draws w |}.

Definition set_checkpoints (v : list SessionCheckpointRecord) (w : World) : World :=
  {| w_fk := w_fk w; w_sessions := w_sessions w; w_workflow := w_workflow w;
     w_envelopes := w_envelopes w; w_workItems := w_workItems w;
     w_events := w_events w; w_summaries := w_summaries w; w_checkpoints := v;
     w_reverts := w_reverts w; w_hookLogs := w_hookLogs w;
     w_toolAudit := w_toolAudit w; w_sessionFiles := w_sessionFiles w;
     w_mirror := w_mirror w; w_fullFiles := w_fullFiles w; w_runs := w_runs w; w_registry := w_registry w;
     w_ticks := w_ticks w; w_draws := w_draws w |}.

Definition set_reverts (v : list SessionRevertRecord) (w : World) : World :=
  {| w_fk := w_fk w; w_sessions := w_sessions w; w_workflow := w_workflow w;
     w_envelopes := w_envelopes w; w_workItems := w_workItems w;
     w_events := w_events w; w_summaries := w_summaries w;
     w_checkpoints := w_checkpoints w; w_reverts := v; w_hookLogs := w_hookLogs w;
     w_toolAudit := w_toolAudit w; w_sessionFiles := w_sessionFiles w;
     w_mirror := w_mirror w; w_fullFiles := w_fullFiles w; w_runs := w_runs w; w_registry := w_registry w;
     w_ticks := w_ticks w; w_draws := w_draws w |}.

Definition set_hookLogs (v : list HookInvocationLog) (w : World) : World :=
  {| w_fk := w_fk w; w_sessions := w_sessions w; w_workflow := w_workflow w;
     w_envelopes := w_envelopes w; w_workItems := w_workItems w;
     w_events := w_events w; w_summaries := w_summaries w;
     w_checkpoints := w_checkpoints w; w_reverts := w_reverts w; w_hookLogs := v;
     w_toolAudit := w_toolAudit w; w_sessionFiles := w_sessionFiles w;
     w_mirror := w_mirror w; w_fullFiles := w_fullFiles w; w_runs := w_runs w; w_registry := w_registry w;
     w_ticks := w_ticks w; w_draws := w_draws w |}.

Definition set_toolAudit (v : list ToolUsageAudit) (w : World) : World :=
  {| w_fk := w_fk w; w_sessions := w_sessions w; w_workflow := w_workflow w;
     w_envelopes := w_envelopes w; w_workItems := w_workItems w;
     w_events := w_events w; w_summaries := w_summaries w;
     w_checkpoints := w_checkpoints w; w_reverts := w_reverts w;
     w_hookLogs := w_hookLogs w; w_toolAudit := v; w_sessionFiles := w_sessionFiles w;
     w_mirror := w_mirror w; w_fullFiles := w_fullFiles w; w_runs := w_runs w; w_registry := w_registry w;
     w_ticks := w_ticks w; w_draws := w_draws w |}.

Definition set_sessionFiles (v : gmap string PersistedSessionRecord) (w : World) : World :=
  {| w_fk := w_fk w; w_sessions := w_sessions w; w_workflow := w_workflow w;
     w_envelopes := w_envelopes w; w_workItems := w_workItems w;
     w_events := w_events w; w_summaries := w_summaries w;
     w_checkpoints := w_checkpoints w; w_reverts := w_reverts w;
     w_hookLogs := w_hookLogs w; w_toolAudit := w_toolAudit w; w_sessionFiles := v;
     w_mirror := w_mirror w; w_fullFiles := w_fullFiles w; w_runs := w_runs w; w_registry := w_registry w;
     w_ticks := w_ticks w; w_draws := w_draws w |}.

Definition set_mirror (v : option PersistedSessionRecord) (w : World) : World :=
  {| w_fk := w_fk w; w_sessions := w_sessions w; w_workflow := w_workflow w;
     w_envelopes := w_envelopes w; w_workItems := w_workItems w;
     w_events := w_events w; w_summaries := w_summaries w;
     w_checkpoints := w_checkpoints w; w_reverts := w_reverts w;
     w_hookLogs := w_hookLogs w; w_toolAudit := w_toolAudit w;
     w_sessionFiles := w_sessionFiles w; w_mirror := v; w_fullFiles := w_fullFiles w;
     w_runs := w_runs w; w_registry := w_registry w; w_ticks := w_ticks w; w_draws := w_draws w |}.

Definition set_fullFiles (v : gmap string FullWorkflowState) (w : World) : World :=
  {| w_fk := w_fk w; w_sessions := w_sessions w; w_workflow := w_workflow w;
     w_envelopes := w_envelopes w; w_workItems := w_workItems w;
     w_events := w_events w; w_summaries := w_summaries w;
     w_checkpoints := w_checkpoints w; w_reverts := w_reverts w;
     w_hookLogs := w_hookLogs w; w_toolAudit := w_toolAudit w;
     w_sessionFiles := w_sessionFiles w; w_mirror := w_mirror w; w_fullFiles := v;
     w_runs := w_runs w; w_registry := w_registry w; w_ticks := w_ticks w; w_draws := w_draws w |}.

Definition set_runs (v : list RunEntry) (w : World) : World :=
  {| w_fk := w_fk w; w_sessions := w_sessions w; w_workflow := w_workflow w;
     w_envelopes := w_envelopes w; w_workItems := w_workItems w; w_events := w_events w;
     w_summaries := w_summaries w; w_checkpoints := w_checkpoints w;
     w_reverts := w_reverts w; w_hookLogs := w_hookLogs w; w_toolAudit := w_toolAudit w;
     w_sessionFiles := w_sessionFiles w; w_mirror := w_mirror w;
     w_fullFiles := w_fullFiles w; w_runs := v; w_registry := w_registry w;
     w_ticks := w_ticks w; w_draws := w_draws w |}.

Definition set_registry (v : gmap string nat) (w : World) : World :=
  {| w_fk := w_fk w; w_sessions := w_sessions w; w_workflow := w_workflow w;
     w_envelopes := w_envelopes w; w_workItems := w_workItems w;
     w_events := w_events w; w_summaries := w_summaries w;
     w_checkpoints := w_checkpoints w; w_reverts := w_reverts w;
     w_hookLogs := w_hookLogs w; w_toolAudit := w_toolAudit w;
     w_sessionFiles := w_sessionFiles w; w_mirror := w_mirror w;
     w_fullFiles := w_fullFiles w; w_runs := w_runs w; w_registry := v; w_ticks := w_ticks w;
     w_draws := w_draws w |}.

Definition set_ticks (v : nat) (w : World) : World :=
  {| w_fk := w_fk w; w_sessions := w_sessions w; w_workflow := w_workflow w;
     w_envelopes := w_envelopes w; w_workItems := w_workItems w;
     w_events := w_events w; w_summaries := w_summaries w;
     w_checkpoints := w_checkpoints w; w_reverts := w_reverts w;
     w_hookLogs := w_hookLogs w; w_toolAudit := w_toolAudit w;
     w_sessionFiles := w_sessionFiles w; w_mirror := w_mirror w;
     w_fullFiles := w_fullFiles w; w_runs := w_runs w; w_registry := w_registry w; w_ticks := v;
     w_draws := w_draws w |}.

Definition set_draws (v : nat) (w : World) : World :=
  {| w_fk := w_fk w; w_sessions := w_sessions w; w_workflow := w_workflow w;
     w_envelopes := w_envelopes w; w_workItems := w_workItems w;
     w_events := w_events w; w_summaries := w_summaries w;
     w_checkpoints := w_checkpoints w; w_reverts := w_reverts w;
     w_hookLogs := w_hookLogs w; w_toolAudit := w_toolAudit w;
     w_sessionFiles := w_sessionFiles w; w_mirror := w_mirror w;
     w_fullFiles := w_fullFiles w; w_runs := w_runs w; w_registry := w_registry w; w_ticks := w_ticks w;
     w_draws := v |}.

(** The readings of the clock and of the random source, by position. *)
Class Env : Type := {
  clock : nat → string;
  random36 : nat → string;
}.

Section effects.
Context `{Env}.

Definition nowIso : M World string := λ w,
  (Ret (clock (w_ticks w)), set_ticks (S (w_ticks w)) w).

(** The id that the [n]-th draw gives under a prefix. *)
Definition draw_id (prefix : string) (n : nat) : string := prefix +:+ "-" +:+ random36 n.

Definition createId (prefix : string) : M World string := λ w,
  (Ret (draw_id prefix (w_draws w)), set_draws (S (w_draws w)) w).

(** [o ?? m], where [m] is only run for [undefined]. *)
Definition or_run {A} (o : option A) (m : M World A) : M World A :=
  match o with Some a => mret a | None => m end.
End effects.

(** ** Tables *)

(** How the statements of the repositories see one table: its key, the session
    its FOREIGN KEY refers to ([None] for a table without one) and its place in
    the world. *)
Record Table (R : Type) : Type := mkTable {
  t_name : string;
  t_key : R → string;
  t_session : option (R → string);
  t_rows : World → list R;
  t_set : list R → World → World;
}.
Global Arguments mkTable {R}.
Global Arguments t_name {R}.
Global Arguments t_key {R}.
Global Arguments t_session {R}.
Global Arguments t_rows {R}.
Global Arguments t_set {R}.

Section rows.
Context {R : Type} (key : R → string).

Definition has_key (k : string) (rows : list R) : bool :=
  bool_decide (k ∈ (key <$> rows)).

(** [ON CONFLICT(key) DO UPDATE SET ...] with every other column excluded. *)
Fixpoint upsert_row (r : R) (rows : list R) : list R :=
  match rows with
  | [] => [r]
  | x :: xs => if decide (key x = key r) then r :: xs else x :: upsert_row r xs
  end.

Definition find_row (k : string) (rows : list R) : option R :=
  head (filter (λ r, key r = k) rows).

(** [ORDER BY ts DESC, rowid DESC] of rows given in rowid order. *)
Fixpoint insert_desc (ts : R → string) (r : R) (rows : list R) : list R :=
  match rows with
  | [] => [r]
  | x :: xs => if String.leb (ts r) (ts x) then x :: insert_desc ts r xs else r :: x :: xs
  end.

Fixpoint order_desc (ts : R → string) (rows : list R) : list R :=
  match rows with
  | [] => []
  | r :: rs => insert_desc ts r (order_desc ts rs)
  end.
End rows.

Definition SESSIONS : Table SessionState :=
  mkTable "sessions" sessionId None w_sessions set_sessions.
Definition WORKFLOW_STATE : Table (string * WorkflowState) :=
  mkTable "workflow_state" fst (Some fst) w_workflow set_workflow.
Definition EXECUTION_ENVELOPES : Table ExecutionEnvelopeState :=
  mkTable "execution_envelopes" env_id (Some env_sessionId) w_envelopes set_envelopes.
Definition WORK_ITEMS : Table WorkItemState :=
  mkTable "work_items" wi_id (Some wi_sessionId) w_workItems set_workItems.
Definition RUNTIME_EVENTS : Table SessionRuntimeEventRecord :=
  mkTable "session_runtime_events" ev_id (Some ev_sessionId) w_events set_events.
Definition SUMMARIES : Table SessionSummaryRecord :=
  mkTable "session_summaries" sum_id (Some sum_sessionId) w_summaries set_summaries.
Definition CHECKPOINTS : Table SessionCheckpointRecord :=
  mkTable "session_checkpoints" cp_id (Some cp_sessionId) w_checkpoints set_checkpoints.
Definition REVERTS : Table SessionRevertRecord :=
  mkTable "session_reverts" rv_id (Some rv_sessionId) w_reverts set_reverts.
Definition HOOK_LOGS : Table HookInvocationLog :=
  mkTable "hook_invocation_logs" hl_id None w_hookLogs set_hookLogs.
Definition TOOL_AUDIT : Table ToolUsageAudit :=
  mkTable "tool_usage_audit" tu_id None w_toolAudit set_toolAudit.

(** ** Statements *)

Definition FK_ERROR : string := "FOREIGN KEY constraint failed".
Definition UNIQUE_ERROR (table : string) : string :=
  "UNIQUE constraint failed: " +:+ table +:+ ".id".

(** A row may be written when its session exists, or when nothing is enforced. *)
Definition fk_ok {R} (T : Table R) (r : R) (w : World) : bool :=
  match t_session T with
  | None => true
  | Some sid => negb (w_fk w) || has_key sessionId (sid r) (w_sessions w)
  end.

(** [INSERT INTO t VALUES (...)]. *)
Definition db_insert {R} (T : Table R) (r : R) : M World () := λ w,
  if has_key (t_key T) (t_key T r) (t_rows T w) then (Throw (UNIQUE_ERROR (t_name T)), w)
  else if fk_ok T r w then (Ret (), t_set T (t_rows T w ++ [r]) w)
  else (Throw FK_ERROR, w).

(** [INSERT INTO t VALUES (...) ON CONFLICT(key) DO UPDATE SET ...]. *)
Definition db_upsert {R} (T : Table R) (r : R) : M World () := λ w,
  if fk_ok T r w then (Ret (), t_set T (upsert_row (t_key T) r (t_rows T w)) w)
  else (Throw FK_ERROR, w).

(** [SELECT ... WHERE key = ? LIMIT 1]. *)
Definition db_find {R} (T : Table R) (k : string) : M World (option R) :=
  gets (λ w, find_row (t_key T) k (t_rows T w)).

(** [SELECT ... WHERE p ORDER BY ts DESC, rowid DESC]. *)
Definition db_list {R} (T : Table R) (P : R → Prop) `{∀ r, Decision (P r)}
    (ts : R → string) : M World (list R) :=
  gets (λ w, order_desc ts (filter P (t_rows T w))).

(** [DELETE FROM t WHERE p], returning [changes]. *)
Definition db_delete {R} (T : Table R) (P : R → Prop) `{∀ r, Decision (P r)} :
    M World nat := λ w,
  (Ret (length (filter P (t_rows T w))), t_set T (filter (λ r, ¬ P r) (t_rows T w)) w).

(** Whether some row of a child table refers to the session. *)
Definition session_referenced (sid : string) (w : World) : bool :=
  has_key fst sid (w_workflow w) || has_key env_sessionId sid (w_envelopes w)
  || has_key wi_sessionId sid (w_workItems w) || has_key ev_sessionId sid (w_events w)
  || has_key sum_sessionId sid (w_summaries w) || has_key cp_sessionId sid (w_checkpoints w)
  || has_key rv_sessionId sid (w_reverts w).

(** ** Facts about rows *)

Section row_facts.
Context {R : Type} (key : R → string).

Lemma has_key_true k (rows : list R) : has_key key k rows = true ↔ ∃ r, r ∈ rows ∧ key r = k.
Proof.
  unfold has_key. rewrite bool_decide_eq_true, list_elem_of_fmap. naive_solver.
Qed.

Lemma has_key_false k (rows : list R) : has_key key k rows = false ↔ ∀ r, r ∈ rows → key r ≠ k.
Proof.
  unfold has_key. rewrite bool_decide_eq_false, list_elem_of_fmap. naive_solver.
Qed.

Lemma upsert_keys r rows :
  has_key key (key r) (upsert_row key r rows) = true.
Proof.
  induction rows as [|x rows IH]; simpl.
  - apply has_key_true. exists r. set_solver.
  - case_decide; apply has_key_true.
    + exists r. set_solver.
    + apply has_key_true in IH as (y & ? & ?). exists y. set_solver.
Qed.

Lemma upsert_has_key k r rows :
  has_key key k rows = true → has_key key k (upsert_row key r rows) = true.
Proof.
  intros (x & Hx & Hk)%has_key_true. apply has_key_true.
  induction rows as [|y rows IH]; simpl; [set_solver|]. case_decide.
  - apply elem_of_cons in Hx as [->|Hx].
    + exists r. split; [set_solver|congruence].
    + exists x. set_solver.
  - apply elem_of_cons in Hx as [->|Hx].
    + exists y. set_solver.
    + destruct (IH Hx) as (z & ? & ?). exists z. set_solver.
Qed.

Lemma find_upsert_eq r rows : find_row key (key r) (upsert_row key r rows) = Some r.
Proof.
  unfold find_row. induction rows as [|x rows IH]; simpl.
  - by rewrite filter_cons_True.
  - case_decide as E.
    + by rewrite filter_cons_True.
    + by rewrite filter_cons_False.
Qed.

Lemma find_upsert_ne k r rows :
  key r ≠ k → find_row key k (upsert_row key r rows) = find_row key k rows.
Proof.
  intros Hne. unfold find_row. induction rows as [|x rows IH]; simpl.
  - by rewrite filter_cons_False.
  - case_decide as E.
    + rewrite !filter_cons_False by congruence. done.
    + destruct (decide (key x = k)).
      * by rewrite !filter_cons_True.
      * by rewrite !filter_cons_False.
Qed.

Lemma upsert_fresh r rows :
  has_key key (key r) rows = false → upsert_row key r rows = rows ++ [r].
Proof.
  rewrite has_key_false. induction rows as [|x rows IH]; intros Hf; simpl; [done|].
  rewrite decide_False by set_solver. f_equal. apply IH. set_solver.
Qed.

Lemma find_row_Some k (rows : list R) r : find_row key k rows = Some r → r ∈ rows ∧ key r = k.
Proof.
  unfold find_row. intros Hh. assert (r ∈ filter (λ r, key r = k) rows) as Hin.
  { destruct (filter _ rows); simplify_eq/=. set_solver. }
  apply list_elem_of_filter in Hin. tauto.
Qed.

Lemma find_row_has_key k (rows : list R) r : find_row key k rows = Some r → has_key key k rows = true.
Proof. intros [? ?]%find_row_Some. apply has_key_true. eauto. Qed.

Lemma find_row_of_has_key k (rows : list R) :
  has_key key k rows = true → ∃ r, find_row key k rows = Some r ∧ key r = k.
Proof.
  intros (r & Hr & Hk)%has_key_true. destruct (find_row key k rows) as [r'|] eqn:E.
  - exists r'. split; [done|]. by apply find_row_Some in E as [_ ?].
  - exfalso. revert E. unfold find_row.
    assert (r ∈ filter (λ r, key r = k) rows) as Hin by by apply list_elem_of_filter.
    destruct (filter _ _); [set_solver|done].
Qed.

(** *** Sorting *)

Section order.
Variable ts : R → string.

Lemma insert_desc_perm r rows : insert_desc ts r rows ≡ₚ r :: rows.
Proof.
  induction rows as [|x rows IH]; simpl; [done|].
  destruct (String.leb _ _); [|done]. rewrite IH. apply Permutation_swap.
Qed.

Lemma order_desc_perm rows : order_desc ts rows ≡ₚ rows.
Proof.
  induction rows as [|r rows IH]; simpl; [done|]. by rewrite insert_desc_perm, IH.
Qed.

Lemma elem_of_order_desc r rows : r ∈ order_desc ts rows ↔ r ∈ rows.
Proof. by rewrite order_desc_perm. Qed.

Lemma length_order_desc rows : length (order_desc ts rows) = length rows.
Proof. apply Permutation_length, order_desc_perm. Qed.

(** A row that is no older than the rows before it comes first. *)
Lemma order_desc_latest rows r :
  Forall (λ x, String.leb (ts x) (ts r) = true) rows →
  order_desc ts (rows ++ [r]) = r :: order_desc ts rows.
Proof.
  induction rows as [|x rows IH]; intros Hall; simpl; [done|].
  apply Forall_cons in Hall as [Hx Hall]. rewrite IH by done. simpl.
  by rewrite Hx.
Qed.
End order.
End row_facts.

(** ** Lawful tables

    What the loops over a child table need to know of its place in the world. *)
Class LawfulTable {R} (T : Table R) : Prop := {
  t_get_set : ∀ v w, t_rows T (t_set T v w) = v;
  t_set_set : ∀ v v' w, t_set T v (t_set T v' w) = t_set T v w;
  t_set_get : ∀ w, t_set T (t_rows T w) w = w;
  t_set_sessions : ∀ v w, w_sessions (t_set T v w) = w_sessions w;
  t_set_fk : ∀ v w, w_fk (t_set T v w) = w_fk w;
  t_set_draws : ∀ v w, w_draws (t_set T v w) = w_draws w;
  t_rows_draws : ∀ n w, t_rows T (set_draws n w) = t_rows T w;
  t_draws_comm : ∀ v n w, t_set T v (set_draws n w) = set_draws n (t_set T v w);
}.

#[global] Instance RUNTIME_EVENTS_lawful : LawfulTable RUNTIME_EVENTS.
Proof. by split; intros; destruct w. Qed.
#[global] Instance SUMMARIES_lawful : LawfulTable SUMMARIES.
Proof. by split; intros; destruct w. Qed.
#[global] Instance CHECKPOINTS_lawful : LawfulTable CHECKPOINTS.
Proof. by split; intros; destruct w. Qed.
#[global] Instance REVERTS_lawful : LawfulTable REVERTS.
Proof. by split; intros; destruct w. Qed.

Lemma fk_ok_stored {R} (T : Table R) r w :
  (∀ sid, t_session T = Some sid → has_key sessionId (sid r) (w_sessions w) = true) →
  fk_ok T r w = true.
Proof. intros Hs. unfold fk_ok. destruct (t_session T); [|done]. by rewrite Hs, orb_true_r. Qed.

(** ** Fresh identifiers

    [createId] draws eight random base-36 digits and nothing in the code checks
    for a collision; what the operations rely on is that the draws of one
    process differ from each other and from the ids already stored. *)
Class EnvLaws `{Env} : Prop := {
  random36_inj : ∀ i j, random36 i = random36 j → i = j;
  clock_mono : ∀ i j, i ≤ j → String.leb (clock i) (clock j) = true;
}.

Lemma append_inv_head (p s t : string) : p +:+ s = p +:+ t → s = t.
Proof. induction p as [|c p IH]; simpl; [done|]. intros [= Heq]. by apply IH. Qed.

Section fresh.
Context `{EnvLaws}.

(** No future draw under [prefix] is a key of the table. *)
Definition draws_fresh {R} (key : R → string) (prefix : string) (rows : list R) (n : nat) : Prop :=
  ∀ k, n ≤ k → has_key key (draw_id prefix k) rows = false.

Lemma draw_id_inj prefix i j : draw_id prefix i = draw_id prefix j → i = j.
Proof using Type*.
  unfold draw_id. intros Heq%append_inv_head. simpl in Heq. injection Heq as Heq.
  by apply random36_inj.
Qed.

Lemma draws_fresh_now {R} (key : R → string) prefix rows n :
  draws_fresh key prefix rows n → has_key key (draw_id prefix n) rows = false.
Proof. intros Hf. by apply Hf. Qed.

Lemma draws_fresh_weaken {R} (key : R → string) prefix rows n m :
  draws_fresh key prefix rows n → n ≤ m → draws_fresh key prefix rows m.
Proof. intros Hf Hle k Hk. apply Hf. lia. Qed.

(** Rows whose ids were all drawn before collide with no later draw. *)
Lemma draws_fresh_drawn {R} (key : R → string) prefix rows (drawn : list nat) n :
  key <$> rows = draw_id prefix <$> drawn → Forall (λ i, i < n) drawn →
  draws_fresh key prefix rows n.
Proof using Type*.
  rewrite Forall_forall. intros Hids Hall k Hk. unfold has_key. rewrite Hids.
  apply bool_decide_eq_false. intros (i & Heq%draw_id_inj & Hi)%list_elem_of_fmap.
  specialize (Hall i Hi). lia.
Qed.

Lemma draws_fresh_snoc {R} (key : R → string) prefix rows r n m :
  draws_fresh key prefix rows n → n < m →
  (∃ i, i < m ∧ key r = draw_id prefix i) →
  draws_fresh key prefix (rows ++ [r]) m.
Proof using Type*.
  intros Hf Hlt (i & Hi & Hk) k Hle. apply has_key_false.
  intros x [Hx|Hx%list_elem_of_singleton]%elem_of_app.
  - assert (has_key key (draw_id prefix k) rows = false) as Hn by (apply Hf; lia).
    rewrite has_key_false in Hn. by apply Hn.
  - subst x. rewrite Hk. intros Heq%draw_id_inj. lia.
Qed.
End fresh.

(** ** Symbolic execution

    The operations are unfolded to the statements on the world; the database
    tests are then rewritten with the hypotheses about keys. *)
Create HintDb dh_ops.
#[export] Hint Unfold nowIso createId or_run fk_ok db_insert db_upsert db_find db_list
  db_delete throw get_state gets modify mbind mret M_bind M_ret : dh_ops.

Ltac exec_rewrite :=
  match goal with
  | H : has_key ?k ?i ?rows = _ |- context [has_key ?k ?i ?rows] => rewrite H
  | |- context [has_key ?k (?k ?r) (upsert_row ?k ?r ?rows)] => rewrite (upsert_keys k r rows)
  | H : has_key ?k ?i ?rows = true |- context [has_key ?k ?i (upsert_row ?k ?r ?rows)] =>
    rewrite (upsert_has_key k i r rows H)
  | |- context [_ || true] => rewrite orb_true_r
  end.

Ltac exec := repeat (autounfold with dh_ops; simpl); repeat (exec_rewrite; simpl).

(** ** A concrete environment, for examples

    Clock readings and random draws as unary numerals, which are ordered and
    pairwise distinct. *)
Fixpoint unary (n : nat) : string :=
  match n with O => "T" | S n => String "i" (unary n) end.

#[global] Instance demo_env : Env := {| clock := unary; random36 := unary |}.

#[global] Instance demo_env_laws : EnvLaws.
Proof.
  split.
  - simpl. intros i. induction i as [|i IH]; intros [|j]; simpl; try done.
    intros [= Heq]. f_equal. by apply IH.
  - simpl. intros i. induction i as [|i IH]; intros [|j] Hle; simpl; try done; [lia|].
    apply string_leb_cons. right. split; [done|]. apply IH. lia.
Defined.

Definition empty_world : World :=
  {| w_fk := true; w_sessions := []; w_workflow := []; w_envelopes := []; w_workItems := [];
     w_events := []; w_summaries := []; w_checkpoints := []; w_reverts := [];
     w_hookLogs := []; w_toolAudit := []; w_sessionFiles := ∅; w_mirror := None;
     w_fullFiles := ∅; w_runs := []; w_registry := ∅; w_ticks := 0; w_draws := 0 |}.
