(* ===== verification/Repos.v ===== *)
(** * Repositories

    The classes of [packages/storage/src/sqlite/repositories] and
    [packages/storage/src/fs] that the session and workflow runtime uses, one
    module per class, each method a monadic operation on the world. *)

From S2P Require Import Prelude Json Domain Store.
From Stdlib Require Import Ascii String.
From stdpp Require Import prelude list strings gmap.
Set Default Proof Using "Type".
Set Warnings "-clear-no-such-hyp".

(** ** [SessionsRepo] *)

Module SessionsRepo.

Definition save (session : SessionState) : M World () := db_upsert SESSIONS session.

Definition findById (sid : string) : M World (option SessionState) := db_find SESSIONS sid.

(** [ORDER BY updated_at DESC, created_at DESC]: rows that agree on both stay
    in scan order. *)
Definition newer (a b : SessionState) : bool :=
  negb (String.leb (updatedAt a) (updatedAt b))
  || (String.eqb (updatedAt a) (updatedAt b) && negb (String.leb (createdAt a) (createdAt b))).

Fixpoint insert_recent (r : SessionState) (rows : list SessionState) : list SessionState :=
  match rows with
  | [] => [r]
  | x :: xs => if newer x r then x :: insert_recent r xs else r :: x :: xs
  end.

Definition by_recency (rows : list SessionState) : list SessionState :=
  foldr insert_recent [] rows.

Definition list (limit : option nat) : M World (list SessionState) :=
  gets (λ w, take (limit or_else 20) (by_recency (w_sessions w))).

Definition findLatest : M World (option SessionState) :=
  rows ← list (Some 1); mret (head rows).

Definition findLatestByLane (l : WorkflowLane) : M World (option SessionState) :=
  row ← gets (λ w, head (by_recency (filter (λ s, lane s = l) (w_sessions w))));
  match row with
  | Some s => findById (sessionId s)
  | None => mret None
  end.

(** The delete fails when foreign keys are enforced and a child row refers to
    the session. *)
Definition deleteById (sid : string) : M World nat := λ w,
  if w_fk w && has_key sessionId sid (w_sessions w) && session_referenced sid w
  then (Throw FK_ERROR, w)
  else db_delete SESSIONS (λ s, sessionId s = sid) w.

End SessionsRepo.

(** ** [WorkflowStateRepo], [ExecutionEnvelopesRepo], [WorkItemsRepo] *)

Module WorkflowStateRepo.

Definition save (sid : string) (wf : WorkflowState) : M World () :=
  db_upsert WORKFLOW_STATE (sid, wf).

(** [save] of a JSON object that may be empty: [lane] is then [undefined],
    which SQLite cannot bind. *)
Definition save_snapshot (sid : string) (snapshot : option WorkflowState) : M World () :=
  match snapshot with
  | Some wf => save sid wf
  | None => throw "Provided value cannot be bound to SQLite parameter 2."
  end.

End WorkflowStateRepo.

Module ExecutionEnvelopesRepo.

Definition save (envelope : ExecutionEnvelopeState) : M World () :=
  db_upsert EXECUTION_ENVELOPES envelope.

End ExecutionEnvelopesRepo.

Module WorkItemsRepo.

Definition save (item : WorkItemState) : M World () := db_upsert WORK_ITEMS item.

(** [ORDER BY title ASC]. *)
Fixpoint insert_title (r : WorkItemState) (rows : list WorkItemState) : list WorkItemState :=
  match rows with
  | [] => [r]
  | x :: xs => if String.leb (wi_title r) (wi_title x) then r :: x :: xs
               else x :: insert_title r xs
  end.

Definition listBySession (sid : string) : M World (list WorkItemState) :=
  gets (λ w, foldr insert_title [] (filter (λ i, wi_sessionId i = sid) (w_workItems w))).

End WorkItemsRepo.

(** ** [SessionRuntimeEventsRepo] *)

Module SessionRuntimeEventsRepo.
Section repo.
Context `{Env}.

Definition save (sid eventType : string) (eventJson : option json) (at_ : option string) :
    M World SessionRuntimeEventRecord :=
  id ← createId "session-runtime-event";
  createdAt ← or_run at_ nowIso;
  let record := mkEvent id sid eventType (eventJson or_else JObj []) createdAt in
  _ ← db_insert RUNTIME_EVENTS record;
  mret record.

Definition saveRecord (record : SessionRuntimeEventRecord) : M World SessionRuntimeEventRecord :=
  _ ← db_upsert RUNTIME_EVENTS record; mret record.

Definition listBySession (sid : string) : M World (list SessionRuntimeEventRecord) :=
  db_list RUNTIME_EVENTS (λ r, ev_sessionId r = sid) ev_createdAt.

Definition listByEventType (eventType : string) : M World (list SessionRuntimeEventRecord) :=
  db_list RUNTIME_EVENTS (λ r, ev_type r = eventType) ev_createdAt.

Definition deleteBySession (sid : string) : M World nat :=
  db_delete RUNTIME_EVENTS (λ r, ev_sessionId r = sid).
End repo.
End SessionRuntimeEventsRepo.

(** ** [SessionSummaryRepo] *)

Module SessionSummaryRepo.
Section repo.
Context `{Env}.

(** The record is completed with a fresh id and the current time where the
    input leaves them out, and upserted. *)
Definition save (id : option string) (sid : string) (filesChanged additions deletions : nat)
    (lastDiffAt : option string) (latestStage : option WorkflowStage)
    (latestCheckpointId continuationSummary continuationCreatedAt updatedAt : option string) :
    M World SessionSummaryRecord :=
  id' ← or_run id (createId "session-summary");
  updatedAt' ← or_run updatedAt nowIso;
  let record := mkSummary id' sid filesChanged additions deletions lastDiffAt latestStage
                  latestCheckpointId continuationSummary continuationCreatedAt updatedAt' in
  _ ← db_upsert SUMMARIES record;
  mret record.

Definition saveRecord (r : SessionSummaryRecord) : M World SessionSummaryRecord :=
  save (Some (sum_id r)) (sum_sessionId r) (sum_filesChanged r) (sum_additions r)
    (sum_deletions r) (sum_lastDiffAt r) (sum_latestStage r) (sum_latestCheckpointId r)
    (sum_continuationSummary r) (sum_continuationCreatedAt r) (Some (sum_updatedAt r)).

Definition listBySession (sid : string) : M World (list SessionSummaryRecord) :=
  db_list SUMMARIES (λ r, sum_sessionId r = sid) sum_updatedAt.

Definition findLatestBySession (sid : string) : M World (option SessionSummaryRecord) :=
  rows ← listBySession sid; mret (head rows).

Definition deleteBySession (sid : string) : M World nat :=
  db_delete SUMMARIES (λ r, sum_sessionId r = sid).
End repo.
End SessionSummaryRepo.

(** ** [SessionCheckpointsRepo] *)

Module SessionCheckpointsRepo.
Section repo.
Context `{Env}.

Definition save (id : option string) (sid : string) (checkpointType : CheckpointType)
    (l : WorkflowLane) (stage : WorkflowStage) (summarySnapshot : option SummarySnapshot)
    (workflowSnapshot : option WorkflowState) (continuation metadata : option json)
    (at_ : option string) : M World SessionCheckpointRecord :=
  id' ← or_run id (createId "session-checkpoint");
  createdAt ← or_run at_ nowIso;
  let record := mkCheckpoint id' sid checkpointType l stage
                  (summarySnapshot or_else empty_summary_snapshot) workflowSnapshot
                  (continuation or_else JObj []) (metadata or_else JObj []) createdAt in
  _ ← db_insert CHECKPOINTS record;
  mret record.

Definition saveRecord (record : SessionCheckpointRecord) : M World SessionCheckpointRecord :=
  _ ← db_upsert CHECKPOINTS record; mret record.

Definition findById (checkpointId : string) : M World (option SessionCheckpointRecord) :=
  db_find CHECKPOINTS checkpointId.

Definition listBySession (sid : string) : M World (list SessionCheckpointRecord) :=
  db_list CHECKPOINTS (λ r, cp_sessionId r = sid) cp_createdAt.

Definition deleteBySession (sid : string) : M World nat :=
  db_delete CHECKPOINTS (λ r, cp_sessionId r = sid).
End repo.
End SessionCheckpointsRepo.

(** ** [SessionRevertRepo] *)

Module SessionRevertRepo.
Section repo.
Context `{Env}.

Definition save (id : option string) (sid checkpointId : string)
    (previousCheckpointId : option string) (reason : string) (at_ : option string) :
    M World SessionRevertRecord :=
  id' ← or_run id (createId "session-revert");
  createdAt ← or_run at_ nowIso;
  let record := mkRevert id' sid checkpointId previousCheckpointId reason createdAt in
  _ ← db_insert REVERTS record;
  mret record.

Definition saveRecord (record : SessionRevertRecord) : M World SessionRevertRecord :=
  _ ← db_upsert REVERTS record; mret record.

Definition listBySession (sid : string) : M World (list SessionRevertRecord) :=
  db_list REVERTS (λ r, rv_sessionId r = sid) rv_createdAt.

Definition findLatestBySession (sid : string) : M World (option SessionRevertRecord) :=
  rows ← listBySession sid; mret (head rows).

Definition deleteBySession (sid : string) : M World nat :=
  db_delete REVERTS (λ r, rv_sessionId r = sid).
End repo.
End SessionRevertRepo.

(** ** Audit tables and files *)

Module HookInvocationLogsRepo.

Definition save (record : HookInvocationLog) : M World () := db_insert HOOK_LOGS record.

(** The rows that a decision is looked up among.  A row written without an
    envelope carries the session id in its place. *)
Definition visible (sid envelopeId hookName : string) (r : HookInvocationLog) : bool :=
  String.eqb (hl_sessionId r) sid && String.eqb (hl_hookName r) hookName &&
  (negb (String.eqb envelopeId "") &&
     (String.eqb (hl_envelopeId r) envelopeId || String.eqb (hl_envelopeId r) (hl_sessionId r))
   || String.eqb envelopeId "" && String.eqb (hl_envelopeId r) (hl_sessionId r)).

(** [ORDER BY CASE WHEN envelope_id = ? THEN 0 ELSE 1 END, timestamp DESC]: [a]
    comes strictly before [b]. *)
Definition ranks_before (envelopeId : string) (a b : HookInvocationLog) : bool :=
  let ra := String.eqb (hl_envelopeId a) envelopeId in
  let rb := String.eqb (hl_envelopeId b) envelopeId in
  ra && negb rb || Bool.eqb ra rb && negb (String.leb (hl_timestamp a) (hl_timestamp b)).

(** [LIMIT 1]: of rows that rank equal the first one scanned is returned. *)
Definition first_ranked (envelopeId : string) (rows : list HookInvocationLog) :
    option HookInvocationLog :=
  foldl (λ best r, match best with
                   | Some b => if ranks_before envelopeId r b then Some r else Some b
                   | None => Some r
                   end) None rows.

Definition find_latest_row (sid envelopeId hookName : string) :
    M World (option HookInvocationLog) :=
  gets (λ w, first_ranked envelopeId
               (filter (λ r, visible sid envelopeId hookName r = true) (w_hookLogs w))).

End HookInvocationLogsRepo.

Module ToolUsageAuditRepo.

Definition save (record : ToolUsageAudit) : M World () := db_insert TOOL_AUDIT record.

End ToolUsageAuditRepo.

(** The session files [sessions/<id>.json] of the data directory. *)
Module SessionStore.

Definition write (record : PersistedSessionRecord) : M World () :=
  modify (λ w, set_sessionFiles
    (<[sessionId (ps_session record) := record]> (w_sessionFiles w)) w).

Definition read (sid : string) : M World (option PersistedSessionRecord) :=
  gets (λ w, w_sessionFiles w !! sid).

End SessionStore.

(** [.dh/workflow-state.json]: what the mirror shows of session, workflow and
    envelope. *)
Definition writeWorkflowCompatibilityMirror (session : SessionState)
    (workflow : WorkflowState) (latestEnvelope : ExecutionEnvelopeState) : M World () :=
  modify (set_mirror (Some (mkPersisted session workflow [latestEnvelope]))).

(** The error of an operation on a session that is not stored. *)
Definition session_error (sid : string) : string := "Session '" +:+ sid +:+ "' was not found.".

#[export] Hint Unfold SessionsRepo.save SessionsRepo.findById SessionsRepo.deleteById
  WorkflowStateRepo.save WorkflowStateRepo.save_snapshot ExecutionEnvelopesRepo.save
  SessionRuntimeEventsRepo.save SessionRuntimeEventsRepo.saveRecord
  SessionRuntimeEventsRepo.listBySession SessionRuntimeEventsRepo.deleteBySession
  SessionSummaryRepo.save SessionSummaryRepo.saveRecord SessionSummaryRepo.listBySession
  SessionSummaryRepo.findLatestBySession SessionSummaryRepo.deleteBySession
  SessionCheckpointsRepo.save SessionCheckpointsRepo.saveRecord SessionCheckpointsRepo.findById
  SessionCheckpointsRepo.listBySession SessionCheckpointsRepo.deleteBySession
  SessionRevertRepo.save SessionRevertRepo.saveRecord SessionRevertRepo.listBySession
  SessionRevertRepo.findLatestBySession SessionRevertRepo.deleteBySession
  HookInvocationLogsRepo.save ToolUsageAuditRepo.save
  SessionStore.write SessionStore.read writeWorkflowCompatibilityMirror : dh_ops.
