(* ===== verification/WorkItems.v ===== *)
(** * Work-item planning

    [packages/runtime/src/workflow/work-item-planner.ts]: the layered
    scheduler of a delivery or migration plan.  Maps and sets keyed by item id
    are [gmap] and [gset]; the map of execution groups, whose iteration order
    is observable, is an association list in insertion order. *)

From S2P Require Import Prelude Json Domain.
From stdpp Require Import prelude list strings gmap sets.
Set Default Proof Using "Type".
Set Warnings "-clear-no-such-hyp".

Record WorkItemPlan : Type := mkPlan {
  ready : list WorkItemState;
  blocked : list WorkItemState;
  parallelizableGroups : list (list WorkItemState);
  executionOrder : list (list WorkItemState);
}.

(** ** Grouping one layer *)

(** [groupedByExecutionGroup.set(key, [...existing, item])] on the
    insertion-ordered map. *)
Fixpoint group_push (key : string) (item : WorkItemState)
    (groups : list (string * list WorkItemState)) : list (string * list WorkItemState) :=
  match groups with
  | [] => [(key, [item])]
  | (k, g) :: rest =>
    if decide (k = key) then (k, g ++ [item]) :: rest
    else (k, g) :: group_push key item rest
  end.

Definition group_key (item : WorkItemState) : string :=
  wi_executionGroup item or_else ("solo:" +:+ wi_id item).

Definition groupParallelizable (items : list WorkItemState) : list (list WorkItemState) :=
  let parallelizable := filter (λ i, wi_parallelizable i = true) items in
  let serial := filter (λ i, wi_parallelizable i ≠ true) items in
  let grouped := foldl (λ m i, group_push (group_key i) i m) [] parallelizable in
  filter (λ g, g ≠ []) grouped.*2 ++ ((λ i, [i]) <$> serial).

(** ** The plan *)

Section plan.
Variable items : list WorkItemState.

Definition doneIds : gset string :=
  list_to_set (wi_id <$> filter (λ i, wi_status i = wi_done) items).

Definition pendingItems : list WorkItemState :=
  filter (λ i, wi_status i = wi_pending) items.

Definition allIds : gset string := list_to_set (wi_id <$> items).

(** The dependencies of an item that name no item at all. *)
Definition missing_deps (item : WorkItemState) : list string :=
  filter (λ d, (d ∉ doneIds) ∧ (d ∉ allIds)) (wi_dependencies item).

(** The keys of [missingDependencyIdsByItem]. *)
Definition missingIds : gset string :=
  list_to_set (wi_id <$> filter (λ i, missing_deps i ≠ []) pendingItems).

Definition schedulable : list WorkItemState :=
  filter (λ i, wi_id i ∉ missingIds) pendingItems.

Definition schedulableIds : gset string := list_to_set (wi_id <$> schedulable).

(** [new Set(unresolved)] of one item. *)
Definition unresolved_deps (item : WorkItemState) : gset string :=
  list_to_set (filter (λ d, (d ∉ doneIds) ∧ d ∈ schedulableIds) (wi_dependencies item)).

(** [unresolvedDepsByItem]: a later item overwrites an earlier one of the same
    id. *)
Definition unresolvedDepsByItem : gmap string (gset string) :=
  foldl (λ m i, <[wi_id i := unresolved_deps i]> m) ∅ schedulable.

(** The test that puts an item into the next layer. *)
Definition in_layer (scheduled : gset string) (item : WorkItemState) : Prop :=
  (wi_id item ∉ scheduled) ∧
  match unresolvedDepsByItem !! wi_id item with
  | None => True
  | Some unresolved => unresolved ⊆ scheduled
  end.

#[global] Instance in_layer_dec scheduled item : Decision (in_layer scheduled item).
Proof. unfold in_layer. destruct (_ !! _); apply _. Defined.

(** The [while] loop; [None] when the fuel runs out. *)
Fixpoint plan_loop (fuel : nat) (scheduled : gset string)
    (order : list (list WorkItemState)) : option (gset string * list (list WorkItemState)) :=
  match fuel with
  | O => None
  | S fuel =>
    if decide (size scheduled < length schedulable) then
      let layer := filter (in_layer scheduled) schedulable in
      match layer with
      | [] => Some (scheduled, order)
      | _ =>
        let groups := groupParallelizable layer in
        plan_loop fuel (scheduled ∪ list_to_set (wi_id <$> concat groups))
          (order ++ groups)
      end
    else Some (scheduled, order)
  end.

Definition is_ready (item : WorkItemState) : Prop :=
  match unresolvedDepsByItem !! wi_id item with
  | None => True
  | Some unresolved => unresolved = ∅
  end.

#[global] Instance is_ready_dec item : Decision (is_ready item).
Proof. unfold is_ready. destruct (_ !! _); apply _. Defined.

Definition planWorkItems : option WorkItemPlan :=
  match plan_loop (S (length schedulable)) ∅ [] with
  | None => None
  | Some (scheduled, order) =>
    let rdy := filter is_ready schedulable in
    let unscheduledIds : gset string :=
      list_to_set (wi_id <$> filter (λ i, wi_id i ∉ scheduled) schedulable) in
    Some {| ready := rdy;
            blocked := filter (λ i, wi_id i ∈ missingIds ∨ wi_id i ∈ unscheduledIds)
                         pendingItems;
            parallelizableGroups := groupParallelizable rdy;
            executionOrder := order |}
  end.
End plan.

(** ** Grouping loses and duplicates nothing *)

Lemma group_push_concat key i gs :
  concat (group_push key i gs).*2 ≡ₚ i :: concat gs.*2.
Proof.
  induction gs as [|[k g] gs IH]; simpl; [done|].
  case_decide; simpl.
  - rewrite <- app_assoc. simpl. by rewrite Permutation_middle.
  - rewrite IH. by rewrite Permutation_middle.
Qed.

Lemma group_foldl_concat xs gs :
  concat (foldl (λ m i, group_push (group_key i) i m) gs xs).*2
  ≡ₚ concat gs.*2 ++ xs.
Proof.
  revert gs. induction xs as [|i xs IH]; intros gs; simpl; [by rewrite app_nil_r|].
  rewrite IH, group_push_concat. by rewrite <- Permutation_middle.
Qed.

Lemma concat_filter_nonempty {A} (ls : list (list A)) :
  concat (filter (λ g, g ≠ []) ls) = concat ls.
Proof.
  induction ls as [|l ls IH]; [done|].
  destruct l; [rewrite filter_cons_False by naive_solver; done|].
  rewrite filter_cons_True by done. simpl. by rewrite IH.
Qed.

Lemma concat_singletons {A} (l : list A) : concat ((λ i, [i]) <$> l) = l.
Proof. induction l as [|x l IH]; csimpl; [done|]. by rewrite IH. Qed.

Lemma filter_partition {A} (P : A → Prop) `{∀ x, Decision (P x)} l :
  filter P l ++ filter (λ x, ¬ P x) l ≡ₚ l.
Proof.
  induction l as [|x l IH]; [done|].
  destruct (decide (P x)).
  - rewrite filter_cons_True by done. rewrite (filter_cons_False (λ x, ¬ P x)) by naive_solver.
    simpl. by rewrite IH.
  - rewrite filter_cons_False by done. rewrite (filter_cons_True (λ x, ¬ P x)) by done.
    rewrite <- Permutation_middle. by rewrite IH.
Qed.

Lemma groupParallelizable_concat l : concat (groupParallelizable l) ≡ₚ l.
Proof.
  unfold groupParallelizable. rewrite concat_app, concat_filter_nonempty, concat_singletons.
  rewrite group_foldl_concat. simpl. apply (filter_partition (λ i, wi_parallelizable i = true)).
Qed.

Lemma elem_of_groupParallelizable l g x :
  g ∈ groupParallelizable l → x ∈ g → x ∈ l.
Proof.
  intros Hg Hx. rewrite <- (groupParallelizable_concat l).
  apply list_elem_of_In, in_concat. exists g. by rewrite <- !list_elem_of_In.
Qed.

(** ** The scheduling loop *)

Section plan_proofs.
Variable items : list WorkItemState.
Hypothesis ids_unique : NoDup (wi_id <$> items).

Local Abbreviation sched := (schedulable items).

Lemma wi_id_inj x y : x ∈ items → y ∈ items → wi_id x = wi_id y → x = y.
Proof using ids_unique.
  intros [i Hi]%list_elem_of_lookup [j Hj]%list_elem_of_lookup Hid.
  assert (i = j) as ->; [|congruence].
  apply (NoDup_lookup (wi_id <$> items) i j (wi_id x)); [done| |].
  - by rewrite list_lookup_fmap, Hi.
  - by rewrite list_lookup_fmap, Hj, Hid.
Qed.

Lemma elem_of_pending x : x ∈ pendingItems items ↔ wi_status x = wi_pending ∧ x ∈ items.
Proof. unfold pendingItems. by rewrite list_elem_of_filter. Qed.

Lemma sched_items x : x ∈ sched → x ∈ items.
Proof. unfold schedulable. rewrite list_elem_of_filter, elem_of_pending. tauto. Qed.

Lemma elem_of_missingIds x :
  x ∈ pendingItems items → wi_id x ∈ missingIds items ↔ missing_deps items x ≠ [].
Proof using ids_unique.
  intros Hx. unfold missingIds. rewrite elem_of_list_to_set, list_elem_of_fmap. split.
  - intros (y & Hid & Hy). apply list_elem_of_filter in Hy as [Hm Hy].
    apply elem_of_pending in Hx as [_ Hx]. apply elem_of_pending in Hy as [_ Hy].
    by rewrite (wi_id_inj x y).
  - intros Hm. exists x. by rewrite list_elem_of_filter.
Qed.

Lemma elem_of_sched x :
  x ∈ sched ↔ x ∈ pendingItems items ∧ missing_deps items x = [].
Proof using ids_unique.
  unfold schedulable. rewrite list_elem_of_filter. split.
  - intros [Hn Hp]. rewrite elem_of_missingIds in Hn by done.
    split; [done|]. by apply dec_stable.
  - intros [Hp Hm]. rewrite elem_of_missingIds by done. naive_solver.
Qed.

Lemma NoDup_items_ids : NoDup items.
Proof using ids_unique. by apply (NoDup_fmap_1 wi_id). Qed.

Lemma NoDup_sched : NoDup sched.
Proof using ids_unique. apply NoDup_filter, NoDup_filter, NoDup_items_ids. Qed.

Lemma unresolved_foldl_notin (l : list WorkItemState) (m : gmap string (gset string)) k :
  (∀ y, y ∈ l → wi_id y ≠ k) →
  foldl (λ m i, <[wi_id i := unresolved_deps items i]> m) m l !! k = m !! k.
Proof.
  clear ids_unique. revert m. induction l as [|y l IH]; intros m Hl; simpl; [done|].
  rewrite IH; [|set_solver]. apply lookup_insert_ne. set_solver.
Qed.

Lemma unresolved_foldl (l : list WorkItemState) (m : gmap string (gset string)) x :
  (∀ y z, y ∈ l → z ∈ l → wi_id y = wi_id z → y = z) → x ∈ l →
  foldl (λ m i, <[wi_id i := unresolved_deps items i]> m) m l !! wi_id x
  = Some (unresolved_deps items x).
Proof.
  clear ids_unique. revert m. induction l as [|y l IH]; intros m Hinj Hx; [set_solver|]. simpl.
  destruct (decide (x ∈ l)) as [Hin|Hnin].
  - apply IH; [|done]. intros; apply Hinj; set_solver.
  - assert (x = y) as -> by set_solver.
    rewrite unresolved_foldl_notin.
    + apply lookup_insert_eq.
    + intros z Hz Heq. apply Hnin. rewrite <- (Hinj z y); set_solver.
Qed.

Lemma lookup_unresolved x :
  x ∈ sched → unresolvedDepsByItem items !! wi_id x = Some (unresolved_deps items x).
Proof using ids_unique.
  intros Hx. apply unresolved_foldl; [|done].
  intros y z Hy Hz. apply wi_id_inj; by apply sched_items.
Qed.

Lemma in_layer_spec S x :
  x ∈ sched → in_layer items S x ↔ (wi_id x ∉ S) ∧ unresolved_deps items x ⊆ S.
Proof using ids_unique. intros Hx. unfold in_layer. by rewrite lookup_unresolved. Qed.

(** The state of the loop: the scheduled ids are those of the groups so far,
    each item is there once, and every group comes after what it waits for. *)
Record loop_inv (S : gset string) (order : list (list WorkItemState)) : Prop := {
  li_ids : S = list_to_set (wi_id <$> concat order);
  li_sub : concat order ⊆ sched;
  li_nodup : NoDup (concat order);
  li_order : ∀ pre g post x, order = pre ++ g :: post → x ∈ g →
    unresolved_deps items x ⊆ list_to_set (wi_id <$> concat pre);
}.

Lemma loop_inv_mem S order x :
  loop_inv S order → x ∈ sched → wi_id x ∈ S ↔ x ∈ concat order.
Proof using ids_unique.
  intros [-> Hsub _ _] Hx. rewrite elem_of_list_to_set, list_elem_of_fmap. split.
  - intros (y & Hid & Hy). rewrite (wi_id_inj x y); [done|..]; try done.
    + by apply sched_items.
    + by apply sched_items, Hsub.
  - intros Hin. by exists x.
Qed.

Lemma loop_inv_init : loop_inv ∅ [].
Proof.
  clear ids_unique. split; [set_solver|set_solver|constructor|]. intros [] ? ? ? [=].
Qed.

Lemma app_cons_split {A} (l1 l2 pre post : list A) g :
  l1 ++ l2 = pre ++ g :: post →
  (∃ post', l1 = pre ++ g :: post') ∨ (∃ pre', pre = l1 ++ pre' ∧ l2 = pre' ++ g :: post).
Proof.
  revert pre. induction l1 as [|x l1 IH]; intros pre Heq; simpl in *.
  - right. by exists pre.
  - destruct pre as [|y pre]; simpl in Heq; injection Heq as -> Heq.
    + left. by exists l1.
    + destruct (IH _ Heq) as [[post' ->]|(pre' & -> & ->)]; [left|right]; eauto.
Qed.

Lemma loop_inv_step S order :
  loop_inv S order →
  let layer := filter (in_layer items S) sched in
  loop_inv (S ∪ list_to_set (wi_id <$> concat (groupParallelizable layer)))
           (order ++ groupParallelizable layer).
Proof using ids_unique.
  intros Hinv layer. destruct Hinv as [HS Hsub Hnd Hord] eqn:Hi.
  pose proof (groupParallelizable_concat layer) as Hperm.
  assert (∀ x, x ∈ concat (groupParallelizable layer) → in_layer items S x ∧ x ∈ sched) as Hlayer.
  { intros x. rewrite Hperm. unfold layer. by rewrite list_elem_of_filter. }
  split.
  - rewrite HS, concat_app, fmap_app, list_to_set_app_L. done.
  - rewrite concat_app. intros x [Hx|Hx]%elem_of_app; [by apply Hsub|].
    by apply Hlayer.
  - rewrite concat_app. apply NoDup_app. split; [done|]. split.
    + intros x Hx Hl. apply Hlayer in Hl as [[Hns _] Hxs].
      apply Hns. by apply (loop_inv_mem _ _ _ Hinv).
    + rewrite Hperm. apply NoDup_filter, NoDup_sched.
  - intros pre g post x Heq Hx.
    apply app_cons_split in Heq as [[post' Heq]|(pre' & -> & Heq)].
    + by eapply Hord.
    + assert (x ∈ concat (groupParallelizable layer)) as [Hl Hxs]%Hlayer.
      { rewrite Heq, concat_app. set_solver. }
      apply in_layer_spec in Hl as [_ Hl]; [|done].
      rewrite concat_app, fmap_app, list_to_set_app_L. rewrite <- HS. set_solver.
Qed.

(** Each iteration schedules a new id, so the fuel is never exhausted. *)
Lemma plan_loop_progress S :
  filter (in_layer items S) sched ≠ [] →
  size S < size (S ∪ list_to_set (wi_id <$>
    concat (groupParallelizable (filter (in_layer items S) sched)))).
Proof.
  clear ids_unique. intros Hne. apply subset_size.
  destruct (filter (in_layer items S) sched) as [|x l] eqn:E; [done|].
  assert (x ∈ filter (in_layer items S) sched) as Hx by (rewrite E; set_solver).
  rewrite <- E. apply list_elem_of_filter in Hx as Hx'. destruct Hx' as [[Hns _] _].
  split; [set_solver|]. intros Hsub. apply Hns. apply Hsub.
  apply elem_of_union_r, elem_of_list_to_set, list_elem_of_fmap. exists x.
  split; [done|]. by rewrite groupParallelizable_concat.
Qed.

Lemma plan_loop_total fuel S order :
  0 < fuel → length sched < fuel + size S →
  ∃ r, plan_loop items fuel S order = Some r.
Proof.
  revert S order. induction fuel as [|fuel IH]; intros S order H0 Hf; [lia|]. simpl.
  case_decide as Hlt; [|by eauto].
  destruct (filter (in_layer items S) sched) as [|x l] eqn:E; [by eauto|].
  rewrite <- E. pose proof (plan_loop_progress S) as Hp. rewrite E in Hp at 1.
  specialize (Hp ltac:(done)). apply IH; lia.
Qed.

(** When the loop stops, the invariant holds and no item is left that could be
    scheduled. *)
Lemma plan_loop_exit fuel S order S' order' :
  loop_inv S order → plan_loop items fuel S order = Some (S', order') →
  loop_inv S' order' ∧ ∀ x, x ∈ sched → ¬ in_layer items S' x.
Proof using ids_unique.
  revert S order. induction fuel as [|fuel IH]; intros S order Hinv Heq; simpl in Heq; [done|].
  case_decide as Hlt.
  - destruct (filter (in_layer items S) sched) as [|x l] eqn:E.
    + simplify_eq. split; [done|]. intros x Hx Hl.
      assert (x ∈ filter (in_layer items S') sched) as Hin by by apply list_elem_of_filter.
      rewrite E in Hin. set_solver.
    + rewrite <- E in Heq. eapply IH; [|exact Heq]. by apply loop_inv_step.
  - simplify_eq. split; [done|]. intros x Hx [Hns _]. apply Hns.
    apply (loop_inv_mem _ _ _ Hinv Hx).
    destruct Hinv as [HS Hsub Hnd _].
    assert (length sched ≤ length (concat order')) as Hlen.
    { rewrite HS, size_list_to_set, length_fmap in Hlt; [lia|].
      apply NoDup_fmap_2_strong; [|done].
      intros y z Hy Hz. apply wi_id_inj; by apply sched_items, Hsub. }
    assert (concat order' ≡ₚ sched) as ->; [|done].
    apply submseteq_length_Permutation; [|lia].
    apply NoDup_submseteq; [done|]. intros y Hy. by apply Hsub.
Qed.
End plan_proofs.

(** The postcondition of [planWorkItems] from which its properties follow. *)
Lemma planWorkItems_spec items plan :
  NoDup (wi_id <$> items) → planWorkItems items = Some plan →
  ∃ S, loop_inv items S (executionOrder plan) ∧
    (∀ x, x ∈ schedulable items → ¬ in_layer items S x) ∧
    ready plan = filter (is_ready items) (schedulable items) ∧
    ∀ x, x ∈ blocked plan ↔
      x ∈ pendingItems items ∧ (missing_deps items x ≠ [] ∨ wi_id x ∉ S).
Proof.
  intros Hu. unfold planWorkItems.
  destruct (plan_loop _ _ _ _) as [[S order]|] eqn:E; intros [= <-]. simpl.
  destruct (plan_loop_exit _ Hu _ _ _ _ _ (loop_inv_init items) E) as [Hinv Hex].
  exists S. do 3 (split; [done|]). intros x.
  rewrite list_elem_of_filter, elem_of_list_to_set, list_elem_of_fmap.
  split.
  - intros [Hor Hp]. split; [done|]. destruct Hor as [Hm|(y & Hid & Hy)].
    + left. by apply (elem_of_missingIds items Hu).
    + right. apply list_elem_of_filter in Hy as [Hn _]. congruence.
  - intros [Hp Hor]. split; [|done].
    destruct (decide (missing_deps items x = [])) as [Hm|Hm].
    + right. exists x. split; [done|]. apply list_elem_of_filter.
      split; [naive_solver|]. by apply (elem_of_sched items Hu).
    + left. by apply (elem_of_missingIds items Hu).
Qed.

Lemma blocked_waits items plan x :
  NoDup (wi_id <$> items) → planWorkItems items = Some plan →
  x ∈ blocked plan → missing_deps items x = [] →
  ∃ y, y ∈ blocked plan ∧ missing_deps items y = [] ∧ wi_id y ∈ unresolved_deps items x.
Proof.
  intros Hu Hplan Hx Hm.
  destruct (planWorkItems_spec _ _ Hu Hplan) as (S & Hinv & Hex & _ & Hblk).
  apply Hblk in Hx as [Hp [?|Hn]]; [done|].
  assert (x ∈ schedulable items) as Hs by by apply (elem_of_sched items Hu).
  specialize (Hex x Hs). rewrite (in_layer_spec items Hu) in Hex by done.
  destruct (decide (unresolved_deps items x ⊆ S)) as [?|Hsub]; [naive_solver|].
  assert (∃ d, d ∈ unresolved_deps items x ∖ S) as [d Hd].
  { apply set_choose_L. intros He. apply Hsub. set_solver. }
  apply elem_of_difference in Hd as [Hd HdS].
  assert (d ∈ schedulableIds items) as Hds.
  { revert Hd. unfold unresolved_deps. rewrite elem_of_list_to_set, list_elem_of_filter. tauto. }
  revert Hds. unfold schedulableIds. rewrite elem_of_list_to_set, list_elem_of_fmap.
  intros (y & -> & Hy). exists y. apply (elem_of_sched items Hu) in Hy as [Hyp Hym].
  split_and!; [|done|done]. apply Hblk. naive_solver.
Qed.

(** ** Properties *)

(** The scheduling loop of [planWorkItems] always ends: the fuel the model
    gives it (one more than the number of schedulable items) is enough for
    every list of items, duplicate ids included. *)
Theorem planWorkItems_terminates items : is_Some (planWorkItems items).
Proof.
  unfold planWorkItems.
  destruct (plan_loop_total items (S (length (schedulable items))) ∅ []) as [[S o] ->]; [lia| |].
  - rewrite size_empty. lia.
  - by eexists.
Qed.

(** Every pending item ends up either in exactly one place of the execution
    order or in [blocked], never in both and never nowhere, when ids are unique
    (they are the primary key of [work_items]). *)
Theorem plan_partitions_pending items plan :
  NoDup (wi_id <$> items) → planWorkItems items = Some plan →
  concat (executionOrder plan) ++ blocked plan ≡ₚ pendingItems items.
Proof.
  intros Hu Hplan. destruct (planWorkItems_spec _ _ Hu Hplan) as (S & Hinv & _ & _ & Hblk).
  assert (NoDup (blocked plan)) as Hnd.
  { revert Hplan. unfold planWorkItems. destruct (plan_loop _ _ _ _) as [[??]|]; intros [= <-].
    apply NoDup_filter, NoDup_filter, (NoDup_items_ids items Hu). }
  apply NoDup_Permutation.
  - apply NoDup_app. split_and!; [apply Hinv| |done].
    intros x Hx Hb. apply Hblk in Hb as [Hp Hb].
    assert (x ∈ schedulable items) as Hs by by apply Hinv.
    destruct Hb as [Hm|Hn].
    + by apply (elem_of_sched items Hu) in Hs as [_ ?].
    + by apply Hn, (loop_inv_mem items Hu _ _ _ Hinv).
  - apply NoDup_filter, (NoDup_items_ids items Hu).
  - intros x. rewrite elem_of_app, Hblk. split.
    + intros [Hx|[? _]]; [|done]. apply Hinv in Hx. by apply (elem_of_sched items Hu).
    + intros Hp. destruct (decide (missing_deps items x = [])) as [Hm|Hm]; [|naive_solver].
      assert (x ∈ schedulable items) as Hs by by apply (elem_of_sched items Hu).
      rewrite <- (loop_inv_mem items Hu _ _ _ Hinv Hs).
      destruct (decide (wi_id x ∈ S)); naive_solver.
Qed.

(** C3 The execution order respects dependencies: when group [g] runs, each
    dependency of each of its items is done, or was run by an earlier group, or
    names an item that the planner leaves out (one that is not pending, or one
    with a missing dependency of its own). *)
Theorem plan_respects_dependencies items plan pre g post x d :
  NoDup (wi_id <$> items) → planWorkItems items = Some plan →
  executionOrder plan = pre ++ g :: post → x ∈ g → d ∈ wi_dependencies x →
  d ∈ doneIds items
  ∨ (∃ y, y ∈ concat pre ∧ wi_id y = d)
  ∨ (∃ y, y ∈ items ∧ wi_id y = d ∧ (wi_status y ≠ wi_pending ∨ missing_deps items y ≠ [])).
Proof.
  intros Hu Hplan Ho Hx Hd.
  destruct (planWorkItems_spec _ _ Hu Hplan) as (S & Hinv & _).
  destruct (decide (d ∈ doneIds items)) as [?|Hnd]; [by left|right].
  destruct (decide (d ∈ schedulableIds items)) as [Hs|Hs].
  - left. assert (d ∈ unresolved_deps items x) as Hun.
    { apply elem_of_list_to_set, list_elem_of_filter. naive_solver. }
    apply (li_order _ _ _ Hinv _ _ _ _ Ho Hx) in Hun.
    apply elem_of_list_to_set, list_elem_of_fmap in Hun. naive_solver.
  - right. assert (x ∈ schedulable items) as Hxs.
    { apply Hinv. rewrite Ho, concat_app. set_solver. }
    apply (elem_of_sched items Hu) in Hxs as [Hxp Hxm].
    assert (d ∈ allIds items) as Hall.
    { apply dec_stable. intros Hna. assert (d ∈ missing_deps items x) as Hin.
      { apply list_elem_of_filter. naive_solver. }
      rewrite Hxm in Hin. set_solver. }
    apply elem_of_list_to_set, list_elem_of_fmap in Hall as (y & -> & Hy).
    exists y. split_and!; [done|done|].
    destruct (decide (wi_status y = wi_pending)) as [Hp|]; [right|by left].
    intros Hm. apply Hs. apply elem_of_list_to_set, list_elem_of_fmap.
    exists y. split; [done|]. apply (elem_of_sched items Hu).
    by rewrite elem_of_pending.
Qed.

(** The planner is complete: when the waiting-for relation of the
    schedulable items is acyclic (some rank decreases along it), the only
    blocked items are those with a missing dependency. *)
Theorem acyclic_plan_complete items plan (rank : string → nat) :
  NoDup (wi_id <$> items) → planWorkItems items = Some plan →
  (∀ x d, x ∈ schedulable items → d ∈ unresolved_deps items x → rank d < rank (wi_id x)) →
  ∀ x, x ∈ blocked plan → missing_deps items x ≠ [].
Proof.
  intros Hu Hplan Hrank.
  assert (∀ n x, rank (wi_id x) < n → x ∈ blocked plan → missing_deps items x ≠ []) as H;
    [|naive_solver].
  induction n as [|n IH]; intros x Hlt Hx Hm; [lia|].
  destruct (blocked_waits _ _ _ Hu Hplan Hx Hm) as (y & Hy & Hym & Hd).
  refine (IH y _ Hy Hym).
  assert (x ∈ schedulable items) as Hs.
  { apply (elem_of_sched items Hu).
    destruct (planWorkItems_spec _ _ Hu Hplan) as (? & _ & _ & _ & Hblk).
    by apply Hblk in Hx as [? _]. }
  specialize (Hrank _ _ Hs Hd). lia.
Qed.

(** ** Concrete plans *)

Definition demo_item (id : string) (deps : list string) (par : bool)
    (st : WorkItemStatus) : WorkItemState :=
  {| wi_id := id; wi_sessionId := "session-1"; wi_lane := delivery;
     wi_title := id; wi_description := ""; wi_ownerRole := owner_implementer;
     wi_dependencies := deps; wi_parallelizable := par; wi_executionGroup := None;
     wi_status := st; wi_targetAreas := []; wi_acceptance := [];
     wi_validationPlan := []; wi_reviewStatus := check_pending;
     wi_testStatus := check_pending |}.

Definition item_base := demo_item "base" [] false wi_done.
Definition item_api := demo_item "api" ["base"] true wi_pending.
Definition item_ui := demo_item "ui" ["api"] false wi_pending.
Definition item_docs := demo_item "docs" ["ghost"] false wi_pending.
Definition item_site := demo_item "site" ["docs"] false wi_pending.

Definition demo_items : list WorkItemState := [item_base; item_ui; item_api; item_docs].

Definition demo_plan : WorkItemPlan :=
  {| ready := [item_api]; blocked := [item_docs];
     parallelizableGroups := [[item_api]];
     executionOrder := [[item_api]; [item_ui]] |}.

Lemma plan_partitions_pending_witness :
  planWorkItems demo_items = Some demo_plan ∧
  concat (executionOrder demo_plan) ++ blocked demo_plan ≡ₚ pendingItems demo_items.
Proof.
  split; [vm_compute; reflexivity|].
  apply (plan_partitions_pending demo_items demo_plan).
  - by_decision.
  - vm_compute. reflexivity.
Defined.

Lemma plan_respects_dependencies_witness :
  "api" ∈ doneIds demo_items
  ∨ (∃ y, y ∈ concat [[item_api]] ∧ wi_id y = "api")
  ∨ (∃ y, y ∈ demo_items ∧ wi_id y = "api" ∧
       (wi_status y ≠ wi_pending ∨ missing_deps demo_items y ≠ [])).
Proof.
  apply (plan_respects_dependencies demo_items demo_plan [[item_api]] [item_ui] [] item_ui).
  - by_decision.
  - vm_compute. reflexivity.
  - reflexivity.
  - apply list_elem_of_singleton. reflexivity.
  - apply list_elem_of_singleton. reflexivity.
Defined.

Lemma acyclic_plan_complete_witness :
  item_docs ∈ blocked demo_plan ∧ missing_deps demo_items item_docs ≠ [].
Proof.
  assert (item_docs ∈ blocked demo_plan) as Hin by by apply list_elem_of_singleton.
  split; [exact Hin|].
  refine (acyclic_plan_complete demo_items demo_plan
            (λ d, if String.eqb d "ui" then 1 else 0) _ _ _ item_docs Hin).
  - by_decision.
  - vm_compute. reflexivity.
  - intros x d Hx Hd.
    assert (schedulable demo_items = [item_ui; item_api]) as E by (vm_compute; reflexivity).
    rewrite E in Hx. apply elem_of_cons in Hx as [->|Hx].
    + assert (unresolved_deps demo_items item_ui = {["api"]}) as E2
        by (vm_compute; reflexivity).
      rewrite E2 in Hd. apply elem_of_singleton in Hd as ->. vm_compute. lia.
    + apply list_elem_of_singleton in Hx as ->.
      assert (unresolved_deps demo_items item_api = ∅) as E2 by (vm_compute; reflexivity).
      rewrite E2 in Hd. set_solver.
Defined.

(** A dependency on an item that can never run is not propagated: an item
    whose dependency is itself [blocked] on a missing dependency is reported
    [ready] and put into the execution order. *)
Theorem blocked_dependency_reported_ready :
  ∃ items plan x y, NoDup (wi_id <$> items) ∧ planWorkItems items = Some plan ∧
    x ∈ ready plan ∧ x ∈ concat (executionOrder plan) ∧
    y ∈ blocked plan ∧ wi_id y ∈ wi_dependencies x.
Proof.
  exists [item_docs; item_site],
    {| ready := [item_site]; blocked := [item_docs];
       parallelizableGroups := [[item_site]]; executionOrder := [[item_site]] |},
    item_site, item_docs.
  split_and!; try (apply list_elem_of_singleton; reflexivity).
  - by_decision.
  - vm_compute. reflexivity.
Qed.
