(* ===== verification/Stages.v ===== *)
(** * Lane-locked sessions and stage transitions

    [packages/runtime/src/workflow]: [workflow-state-manager.ts],
    [stage-runner.ts], [gate-evaluator.ts], [handoff-manager.ts]; and
    [packages/runtime/src/session/lane-lock-manager.ts]. *)

From S2P Require Import Prelude Json Domain Store Repos.
From Stdlib Require Import Ascii String.
From stdpp Require Import prelude list strings gmap.
Set Default Proof Using "Type".
Set Warnings "-clear-no-such-hyp".

(** ** Creating a session and its workflow *)

(** [STAGES_BY_LANE[lane][0]]; every lane has a first stage. *)
Definition first_stage (l : WorkflowLane) : WorkflowStage :=
  match STAGES_BY_LANE l with s :: _ => s | [] => quick_intake end.

Section create.
Context `{Env}.

Definition createLaneLockedSession (root : string) (l : WorkflowLane) : M World SessionState :=
  timestamp ← nowIso;
  sid ← createId "session";
  mret {| sessionId := sid; repoRoot := root; lane := l; currentStage := first_stage l;
          status := ss_in_progress; createdAt := timestamp; updatedAt := timestamp;
          activeWorkItemIds := []; semanticMode := always;
          toolEnforcementLevel := very_hard; latestSummaryId := None;
          latestCheckpointId := None; latestRevertId := None |}.
End create.

Definition createWorkflowState (session : SessionState) : WorkflowState :=
  let stages := STAGES_BY_LANE (lane session) in
  {| wf_lane := lane session; wf_stage := first_stage (lane session);
     wf_stageStatus := stage_in_progress; wf_previousStage := None;
     wf_nextStage := stages !! 1%nat; wf_gateStatus := gate_pending; wf_blockers := [] |}.

(** ** [StageRunner.advance] *)

Definition getNextStage (stages : list WorkflowStage) (current : WorkflowStage) :
    option WorkflowStage :=
  match list_index current stages with
  | None => None
  | Some i => stages !! S i
  end.

Definition updated_workflow (stages : list WorkflowStage) (wf : WorkflowState)
    (next : WorkflowStage) : WorkflowState :=
  {| wf_lane := wf_lane wf; wf_stage := next;
     wf_stageStatus := if endsWith (stage_name next) "complete" then stage_passed
                       else stage_in_progress;
     wf_previousStage := Some (wf_stage wf);
     wf_nextStage := getNextStage stages next;
     wf_gateStatus := gate_pending; wf_blockers := wf_blockers wf |}.

Definition set_stage (s : SessionState) (stage : WorkflowStage) (at_ : string)
    (checkpoint : option string) : SessionState :=
  {| sessionId := sessionId s; repoRoot := repoRoot s; lane := lane s;
     currentStage := stage; status := status s; createdAt := createdAt s;
     updatedAt := at_; activeWorkItemIds := activeWorkItemIds s;
     semanticMode := semanticMode s; toolEnforcementLevel := toolEnforcementLevel s;
     latestSummaryId := latestSummaryId s; latestCheckpointId := checkpoint;
     latestRevertId := latestRevertId s |}.

Definition snapshot_of_summary (s : SessionSummaryRecord) : SummarySnapshot :=
  mkSummarySnapshot (Some (sum_filesChanged s)) (Some (sum_additions s))
    (Some (sum_deletions s)) (sum_lastDiffAt s) (sum_latestStage s)
    (sum_latestCheckpointId s) (sum_continuationSummary s) (sum_continuationCreatedAt s).

Definition stage_error (stage : WorkflowStage) (l : WorkflowLane) : string :=
  "Stage '" +:+ stage_name stage +:+ "' is not valid for lane '" +:+ lane_name l +:+ "'.".

Definition ADVANCE_METADATA : json :=
  JObj [("source", JStr "stage-runner.advance");
        ("runtimeAuthority", JStr "typescript_worker")].

Definition checkpoint_event (checkpointId : string) : json :=
  JObj [("checkpointId", JStr checkpointId); ("checkpointType", JStr "post_stage_advance")].

Section advance.
Context `{Env}.

Definition advance (session : SessionState) (workflow : WorkflowState)
    (latestEnvelope : ExecutionEnvelopeState) : M World (SessionState * WorkflowState) :=
  let stages := STAGES_BY_LANE (lane session) in
  match list_index (wf_stage workflow) stages with
  | None => throw (stage_error (wf_stage workflow) (lane session))
  | Some currentIndex =>
    match stages !! S currentIndex with
    | None => mret (session, workflow)
    | Some next =>
      now ← nowIso;
      let updatedWorkflow := updated_workflow stages workflow next in
      latestSummary ← SessionSummaryRepo.findLatestBySession (sessionId session);
      checkpoint ← SessionCheckpointsRepo.save None (sessionId session) post_stage_advance
        (lane session) next
        (Some (from_option snapshot_of_summary empty_summary_snapshot latestSummary))
        (Some updatedWorkflow)
        (Some (JObj (opt_str "continuationSummary" (latestSummary ≫= sum_continuationSummary))))
        (Some ADVANCE_METADATA) None;
      let updatedSession := set_stage session next now (Some (cp_id checkpoint)) in
      _ ← SessionsRepo.save updatedSession;
      _ ← WorkflowStateRepo.save (sessionId updatedSession) updatedWorkflow;
      _ ← SessionStore.write (mkPersisted updatedSession updatedWorkflow [latestEnvelope]);
      _ ← writeWorkflowCompatibilityMirror updatedSession updatedWorkflow latestEnvelope;
      _ ← SessionRuntimeEventsRepo.save (sessionId updatedSession) "checkpoint_created"
            (Some (checkpoint_event (cp_id checkpoint))) None;
      mret (updatedSession, updatedWorkflow)
    end
  end.
End advance.

(** ** [evaluateGate] *)

Record GateEvidence : Type := mkEvidence {
  requirementsClear : option bool;
  acceptanceCriteriaDefined : option bool;
  solutionDefined : option bool;
  sequencingDefined : option bool;
  blockerFindingsResolved : option bool;
  verificationEvidencePresent : option bool;
}.

Definition no_evidence : GateEvidence := mkEvidence None None None None None None.

Inductive GateName : Type :=
| gate_intake | gate_analysis | gate_solution | gate_review | gate_verification | gate_none.

#[global] Instance GateName_eq_dec : EqDecision GateName.
Proof. solve_decision. Defined.

Record GateEvaluationResult : Type := mkGateResult {
  ge_pass : bool;
  ge_gate : GateName;
  ge_reason : string;
}.

(** [Boolean(o)] of an optional boolean. *)
Definition truthy (o : option bool) : bool := default false o.

Definition evaluateGate (workflow : WorkflowState) (objective : string)
    (input : option GateEvidence) : GateEvaluationResult :=
  let stage := stage_name (wf_stage workflow) in
  let evidence := input or_else no_evidence in
  if endsWith stage "intake" then
    let pass := (0 <? String.length (trim objective))%nat in
    mkGateResult pass gate_intake
      (if pass then "Objective is present." else "Objective is required for intake gate.")
  else if endsWith stage "analysis" || endsWith stage "baseline"
          || String.eqb stage "quick_plan" then
    let pass := truthy (requirementsClear evidence)
                && truthy (acceptanceCriteriaDefined evidence) in
    mkGateResult pass gate_analysis
      (if pass then "Requirements and acceptance criteria are defined."
       else "Requirements clarity and acceptance criteria are required.")
  else if endsWith stage "solution" || endsWith stage "strategy"
          || endsWith stage "task_split" then
    let pass := truthy (solutionDefined evidence) && truthy (sequencingDefined evidence) in
    mkGateResult pass gate_solution
      (if pass then "Solution and sequencing are defined."
       else "Solution and sequencing must be defined before execution.")
  else if endsWith stage "review" then
    let pass := truthy (blockerFindingsResolved evidence) in
    mkGateResult pass gate_review
      (if pass then "Review blockers are resolved." else "Review blockers must be resolved.")
  else if endsWith stage "verify" || endsWith stage "complete" then
    let pass := truthy (verificationEvidencePresent evidence) in
    mkGateResult pass gate_verification
      (if pass then "Verification evidence is present."
       else "Verification evidence is required.")
  else mkGateResult true gate_none "No gate applies to this stage.".

(** ** [buildHandoff] *)

Inductive HandoffRole : Type := agent_role (r : AgentRole) | to_complete.

#[global] Instance HandoffRole_eq_dec : EqDecision HandoffRole.
Proof. solve_decision. Defined.

Record HandoffPayload : Type := mkHandoff {
  ho_lane : WorkflowLane;
  ho_fromRole : AgentRole;
  ho_toRole : HandoffRole;
  ho_stage : string;
  ho_notes : list string;
  ho_requiredArtifacts : list string;
}.

Definition buildNotes (l : WorkflowLane) (fromRole : AgentRole) (toRole : HandoffRole) :
    list string :=
  match fromRole, toRole with
  | role_coordinator, agent_role role_analyst =>
    ["Lane is locked."; "Objective and repo target are established."]
  | role_analyst, agent_role role_architect =>
    ["Problem statement is clarified."; "Acceptance criteria are defined."]
  | role_architect, agent_role role_implementer =>
    ["Solution direction is approved."; "Task decomposition is ready."]
  | role_implementer, agent_role role_reviewer =>
    ["Changed areas are listed."; "Local verification notes are attached."]
  | role_reviewer, agent_role role_tester =>
    match l with
    | migration => ["Review findings are resolved or accepted.";
                    "Residual risks and preserve-behavior invariants are stated."]
    | _ => ["Review findings are resolved or accepted."; "Residual risks are stated."]
    end
  | _, _ => ["Handoff is ready."]
  end.

Definition buildArtifacts (l : WorkflowLane) (fromRole : AgentRole) (toRole : HandoffRole) :
    list string :=
  match fromRole, toRole with
  | role_coordinator, agent_role role_analyst => ["session_state"; "lane_state"; "objective"]
  | role_analyst, agent_role role_architect =>
    ["problem_statement"; "scope"; "acceptance_criteria"]
  | role_architect, agent_role role_implementer =>
    match l with
    | migration => ["solution_summary"; "work_items"; "validation_plan"; "migration_invariants"]
    | _ => ["solution_summary"; "work_items"; "validation_plan"]
    end
  | role_implementer, agent_role role_reviewer =>
    ["changed_areas"; "summary"; "local_verification"]
  | role_reviewer, agent_role role_tester =>
    match l with
    | migration => ["findings"; "quality_gate"; "residual_risks"; "preserve_behavior_evidence"]
    | _ => ["findings"; "quality_gate"; "residual_risks"]
    end
  | _, _ => ["handoff_notes"]
  end.

Definition buildHandoff (l : WorkflowLane) (fromRole : AgentRole) (toRole : HandoffRole)
    (stage : string) : HandoffPayload :=
  mkHandoff l fromRole toRole stage (buildNotes l fromRole toRole)
    (buildArtifacts l fromRole toRole).

(** ** What [advance] does to the world *)

Section advance_facts.
Context `{Env}.

(** The stored state agrees with the session and workflow handed back. *)
Record stored_as (s : SessionState) (wf : WorkflowState) (e : ExecutionEnvelopeState)
    (w : World) : Prop := {
  sa_session : find_row sessionId (sessionId s) (w_sessions w) = Some s;
  sa_workflow : find_row fst (sessionId s) (w_workflow w) = Some (sessionId s, wf);
  sa_file : w_sessionFiles w !! sessionId s = Some (mkPersisted s wf [e]);
  sa_mirror : w_mirror w = Some (mkPersisted s wf [e]);
  sa_checkpoint : ∃ c, c ∈ w_checkpoints w ∧ latestCheckpointId s = Some (cp_id c) ∧
    cp_sessionId c = sessionId s ∧ cp_stage c = currentStage s ∧
    cp_workflowSnapshot c = Some wf;
  sa_event : ∃ ev, ev ∈ w_events w ∧ ev_sessionId ev = sessionId s ∧
    ev_type ev = "checkpoint_created";
}.

(** No future draw collides with a stored checkpoint or event. *)
Definition world_fresh (w : World) : Prop :=
  draws_fresh cp_id "session-checkpoint" (w_checkpoints w) (w_draws w) ∧
  draws_fresh ev_id "session-runtime-event" (w_events w) (w_draws w).

Lemma advance_ok `{!EnvLaws} s wf e w i next :
  list_index (wf_stage wf) (STAGES_BY_LANE (lane s)) = Some i →
  STAGES_BY_LANE (lane s) !! S i = Some next →
  has_key sessionId (sessionId s) (w_sessions w) = true → world_fresh w →
  let s' := set_stage s next (clock (w_ticks w)) (Some (draw_id "session-checkpoint" (w_draws w))) in
  let wf' := updated_workflow (STAGES_BY_LANE (lane s)) wf next in
  ∃ w', advance s wf e w = (Ret (s', wf'), w') ∧ stored_as s' wf' e w' ∧ world_fresh w'.
Proof.
  intros Hi Hn Hs [Hfc Hfe] s' wf'. unfold advance. rewrite Hi, Hn. eexists.
  pose proof (draws_fresh_now _ _ _ _ Hfc) as Hc.
  assert (has_key ev_id (draw_id "session-runtime-event" (S (w_draws w))) (w_events w) = false)
    as He by (apply Hfe; lia).
  split; [exec; reflexivity|]. split; [split|split]; simpl.
  - apply (find_upsert_eq sessionId s').
  - apply (find_upsert_eq fst (sessionId s, wf')).
  - apply lookup_insert_eq.
  - done.
  - eexists. split; [apply elem_of_app; right; apply list_elem_of_singleton; reflexivity|]. done.
  - eexists. split; [apply elem_of_app; right; apply list_elem_of_singleton; reflexivity|]. done.
  - eapply draws_fresh_snoc; [done|lia|]. exists (w_draws w). split; [lia|done].
  - eapply draws_fresh_snoc; [done|lia|]. exists (S (w_draws w)). split; [lia|done].
Qed.
End advance_facts.

Section runs.
Context `{Env}.

(** Every return of [advance]: either the lane is at its last stage and nothing
    changes, or session and workflow move to the next stage. *)
Lemma advance_inv s wf e w s' wf' w' :
  advance s wf e w = (Ret (s', wf'), w') →
  ∃ i, list_index (wf_stage wf) (STAGES_BY_LANE (lane s)) = Some i ∧
  match STAGES_BY_LANE (lane s) !! S i with
  | None => s' = s ∧ wf' = wf ∧ w' = w
  | Some next => wf' = updated_workflow (STAGES_BY_LANE (lane s)) wf next ∧
                 ∃ t cp, s' = set_stage s next t (Some cp)
  end.
Proof.
  unfold advance. destruct (list_index _ _) as [i|]; [|done]. intros Heq. exists i.
  split; [done|]. revert Heq. destruct (_ !! S i) as [next|]; [|by intros [= -> -> ->]].
  repeat (autounfold with dh_ops; simpl).
  repeat case_match; intros; simplify_eq/=. naive_solver.
Qed.

(** The sessions that [advance] reaches in [n] steps from a new one; the world
    may change in any way between two steps. *)
Inductive lane_run (l : WorkflowLane) : nat → SessionState → WorkflowState → Prop :=
| lane_run_start s : lane s = l → currentStage s = first_stage l →
    lane_run l 0 s (createWorkflowState s)
| lane_run_step n s wf e w s' wf' w' : lane_run l n s wf →
    advance s wf e w = (Ret (s', wf'), w') → lane_run l (S n) s' wf'.

(** The position after [n] steps. *)
Definition lane_position (l : WorkflowLane) (n : nat) : nat :=
  Nat.min n (length (STAGES_BY_LANE l) - 1).

Record at_position (l : WorkflowLane) (i : nat) (s : SessionState) (wf : WorkflowState) : Prop := {
  ap_lane : lane s = l;
  ap_wf_lane : wf_lane wf = l;
  ap_stage : STAGES_BY_LANE l !! i = Some (wf_stage wf);
  ap_session : currentStage s = wf_stage wf;
  ap_next : wf_nextStage wf = STAGES_BY_LANE l !! S i;
  ap_previous : wf_previousStage wf = match i with O => None | S j => STAGES_BY_LANE l !! j end;
  ap_status : wf_stageStatus wf =
    if decide (S i = length (STAGES_BY_LANE l) ∧ l ≠ full) then stage_passed
    else stage_in_progress;
}.

Lemma NoDup_stages l : NoDup (STAGES_BY_LANE l).
Proof. destruct l; by_decision. Qed.

(** A stage name ends in "complete" exactly for the last stage of the lanes
    other than [full]. *)
Lemma ends_with_complete l i stage :
  STAGES_BY_LANE l !! i = Some stage →
  endsWith (stage_name stage) "complete" = true ↔ S i = length (STAGES_BY_LANE l) ∧ l ≠ full.
Proof.
  intros Hl. pose proof (lookup_lt_Some _ _ _ Hl) as Hlt.
  destruct l; simpl in Hlt;
    do 8 (destruct i as [|i]; [simplify_eq/=; vm_compute; naive_solver lia|]); simpl in *; lia.
Qed.

Lemma at_position_next l i s wf next t cp :
  at_position l i s wf → STAGES_BY_LANE l !! S i = Some next →
  at_position l (S i) (set_stage s next t cp) (updated_workflow (STAGES_BY_LANE l) wf next).
Proof.
  intros [] Hn. split; simpl; try done.
  - unfold getNextStage. rewrite (list_index_lookup _ (S i)); [done|apply NoDup_stages|done].
  - pose proof (ends_with_complete l (S i) next Hn) as Hc.
    clear ap_status0. destruct (endsWith _ _), (decide _); by intuition congruence.
Qed.

Lemma lane_run_position l n s wf :
  lane_run l n s wf → at_position l (lane_position l n) s wf.
Proof.
  induction 1 as [s Hl Hs|n s wf e w s' wf' w' _ IH Ha].
  - subst l. unfold lane_position. destruct (lane s) eqn:E;
      split; unfold createWorkflowState; rewrite ?E; done.
  - pose proof IH as [Hl _ Hst _ _ _ _]. apply advance_inv in Ha as (i & Hi & Ha).
    rewrite Hl in *. rewrite (list_index_lookup _ _ _ (NoDup_stages l) Hst) in Hi.
    injection Hi as <-.
    assert (lane_position l n < length (STAGES_BY_LANE l)) as Hlt by by eapply lookup_lt_Some.
    destruct (STAGES_BY_LANE l !! S (lane_position l n)) as [next|] eqn:En.
    + destruct Ha as (-> & t & cp & ->).
      replace (lane_position l (S n)) with (S (lane_position l n));
        [by apply at_position_next|].
      apply lookup_lt_Some in En. unfold lane_position in *. lia.
    + destruct Ha as (-> & -> & ->).
      replace (lane_position l (S n)) with (lane_position l n); [done|].
      apply lookup_ge_None in En. unfold lane_position in *. lia.
Qed.
End runs.

(** [k] calls of [advance] in a row. *)
Section iterate.
Context `{EnvLaws}.

Fixpoint advance_times (k : nat) (s : SessionState) (wf : WorkflowState)
    (e : ExecutionEnvelopeState) : M World (SessionState * WorkflowState) :=
  match k with
  | O => mret (s, wf)
  | S k => '(s', wf') ← advance s wf e; advance_times k s' wf' e
  end.

Lemma advance_times_ok l k i s wf e w :
  at_position l i s wf → S (i + k) = length (STAGES_BY_LANE l) →
  has_key sessionId (sessionId s) (w_sessions w) = true → world_fresh w →
  ∃ s' wf' w', advance_times k s wf e w = (Ret (s', wf'), w') ∧
    at_position l (i + k) s' wf' ∧ sessionId s' = sessionId s ∧
    (0 < k → stored_as s' wf' e w').
Proof using Type*.
  revert i s wf w. induction k as [|k IH]; intros i s wf w Hpos Hlen Hs Hf.
  - exists s, wf, w. rewrite Nat.add_0_r. split_and!; [done..|lia].
  - destruct (lookup_lt_is_Some_2 (STAGES_BY_LANE l) (S i)) as [next Hn]; [lia|].
    pose proof Hpos as [Hl _ Hst _ _ _ _]. subst l.
    pose proof (list_index_lookup _ _ _ (NoDup_stages _) Hst) as Hi.
    destruct (advance_ok s wf e w i next Hi Hn Hs Hf) as (w1 & Ha & Hst1 & Hf1).
    edestruct (IH (S i)) as (s' & wf' & w' & Hrun & Hp & Hid & Hsto);
      [by apply at_position_next|lia| |exact Hf1|].
    { eapply find_row_has_key, (sa_session _ _ _ _ Hst1). }
    exists s', wf', w'. split_and!.
    + simpl. unfold mbind, M_bind. rewrite Ha. exact Hrun.
    + by replace (i + S k) with (S i + k) by lia.
    + exact Hid.
    + intros _. destruct k as [|k]; [|apply Hsto; lia].
      simpl in Hrun. injection Hrun as <- <- <-. exact Hst1.
Qed.

Lemma advance_times_run l k n s wf e w s' wf' w' :
  lane_run l n s wf → advance_times k s wf e w = (Ret (s', wf'), w') →
  lane_run l (n + k) s' wf'.
Proof.
  revert n s wf w. induction k as [|k IH]; intros n s wf w Hr Heq; simpl in Heq.
  - injection Heq as <- <- <-. by rewrite Nat.add_0_r.
  - unfold mbind, M_bind in Heq. destruct (advance s wf e w) as [[[s1 wf1]|m] w1] eqn:Ha; [|done].
    replace (n + S k) with (S n + k) by lia. eapply IH; [|exact Heq].
    by eapply lane_run_step.
Qed.
End iterate.

(** ** Properties *)

(** After [n] stage advances a session of any lane is at stage
    [min n (last stage)] of that lane: lane and session stage agree with the
    workflow, the neighbours recorded as previous and next stage are the
    neighbours in [STAGES_BY_LANE], and the lane never changes. *)
Theorem lane_progression `{Env} l n s wf :
  lane_run l n s wf → at_position l (lane_position l n) s wf.
Proof. apply lane_run_position. Qed.

(** C6 A stored session can always be advanced to the last stage of its lane:
    with ids that do not collide, the remaining calls of [advance] all return,
    and the last one leaves the sessions row, the workflow row, the session
    file, the mirror, a checkpoint and an event that agree with its result. *)
Theorem session_reaches_last_stage `{EnvLaws} l i s wf e w :
  at_position l i s wf → S i < length (STAGES_BY_LANE l) →
  has_key sessionId (sessionId s) (w_sessions w) = true → world_fresh w →
  ∃ s' wf' w', advance_times (length (STAGES_BY_LANE l) - 1 - i) s wf e w = (Ret (s', wf'), w') ∧
    last (STAGES_BY_LANE l) = Some (wf_stage wf') ∧ stored_as s' wf' e w'.
Proof.
  intros Hpos Hlt Hs Hf.
  destruct (advance_times_ok l (length (STAGES_BY_LANE l) - 1 - i) i s wf e w Hpos)
    as (s' & wf' & w' & Hrun & Hp & _ & Hsto); [lia|done|done|].
  exists s', wf', w'. split; [done|]. split; [|apply Hsto; lia].
  rewrite last_lookup, <- (ap_stage _ _ _ _ Hp). f_equal. lia.
Qed.

(** [advance] throws its stage error, leaving the world as it was, exactly
    when the stage of the workflow is not a stage of the session's lane. *)
Theorem advance_rejects_foreign_stage `{Env} s wf e w :
  advance s wf e w = (Throw (stage_error (wf_stage wf) (lane s)), w) ↔
  wf_stage wf ∉ STAGES_BY_LANE (lane s).
Proof.
  unfold advance. destruct (list_index _ _) as [i|] eqn:E.
  - apply list_index_Some, list_elem_of_lookup_2 in E. split; [|done]. intros Ht. exfalso. revert Ht.
    destruct (_ !! S i) as [next|]; [|done].
    repeat (autounfold with dh_ops; simpl). repeat case_match; intros; simplify_eq/=.
  - split; [|done]. intros _ [i Hi]%list_elem_of_lookup.
    by rewrite (list_index_lookup _ _ _ (NoDup_stages _) Hi) in E.
Qed.

(** The last stage of lane [full] is never reported as passed: its name
    does not end in "complete", so [advance] leaves it [in_progress], while the
    last stage of every other lane is [passed]. *)
Theorem last_stage_status `{Env} l n s wf :
  lane_run l n s wf → length (STAGES_BY_LANE l) ≤ S n →
  wf_stageStatus wf = match l with full => stage_in_progress | _ => stage_passed end.
Proof.
  intros Hr Hn. destruct (lane_run_position _ _ _ _ Hr) as [_ _ _ _ _ _ ->].
  case_decide as Hd; unfold lane_position in Hd; destruct l; simpl in Hd, Hn; try done.
  - by destruct Hd.
  - exfalso. apply Hd. split; [lia|done].
  - exfalso. apply Hd. split; [lia|done].
  - exfalso. apply Hd. split; [lia|done].
Qed.

(** The gate that guards a stage, and what it asks for. *)
Definition gate_of_stage (s : WorkflowStage) : GateName :=
  match s with
  | quick_intake | delivery_intake | migration_intake | full_intake => gate_intake
  | quick_plan | delivery_analysis | migration_baseline => gate_analysis
  | delivery_solution | delivery_task_split | migration_strategy | migration_task_split
  | full_solution => gate_solution
  | delivery_review | migration_review | full_code_review => gate_review
  | quick_verify | quick_complete | delivery_verify | delivery_complete
  | migration_verify | migration_complete => gate_verification
  | quick_execute | delivery_execute | migration_execute
  | full_product | full_implementation | full_qa | full_done => gate_none
  end.

Definition gate_requirement (g : GateName) (objective : string) (ev : GateEvidence) : bool :=
  match g with
  | gate_intake => negb (String.eqb (trim objective) "")
  | gate_analysis => truthy (requirementsClear ev) && truthy (acceptanceCriteriaDefined ev)
  | gate_solution => truthy (solutionDefined ev) && truthy (sequencingDefined ev)
  | gate_review => truthy (blockerFindingsResolved ev)
  | gate_verification => truthy (verificationEvidencePresent ev)
  | gate_none => true
  end.

(** The suffix tests of [evaluateGate] give each of the 28 stages its gate,
    and the gate passes exactly when the evidence it asks for is present. *)
Theorem evaluateGate_correct workflow objective ev :
  let r := evaluateGate workflow objective ev in
  ge_gate r = gate_of_stage (wf_stage workflow) ∧
  ge_pass r = gate_requirement (ge_gate r) objective (ev or_else no_evidence).
Proof.
  unfold evaluateGate. destruct (wf_stage workflow); split; try reflexivity;
    simpl; by destruct (trim objective).
Qed.

(** ** Witnesses *)

Definition demo_session (l : WorkflowLane) : SessionState :=
  {| sessionId := "session-1"; repoRoot := "/repo"; lane := l; currentStage := first_stage l;
     status := ss_in_progress; createdAt := "T"; updatedAt := "T"; activeWorkItemIds := [];
     semanticMode := always; toolEnforcementLevel := very_hard; latestSummaryId := None;
     latestCheckpointId := None; latestRevertId := None |}.

Definition demo_envelope (l : WorkflowLane) : ExecutionEnvelopeState :=
  {| env_id := "env-1"; env_sessionId := "session-1"; env_lane := l; env_role := role_quick;
     env_agentId := "quick"; env_stage := first_stage l; env_workItemId := None;
     env_resolvedModel := mkModel "openai" "gpt-5" "default"; env_activeSkills := [];
     env_activeMcps := []; env_requiredTools := []; env_semanticMode := always;
     env_createdAt := "T" |}.

Definition demo_world (l : WorkflowLane) : World :=
  set_sessions [demo_session l] empty_world.

Lemma demo_run l :
  lane_run l 0 (demo_session l) (createWorkflowState (demo_session l)).
Proof. by constructor. Qed.

Lemma lane_progression_witness :
  at_position delivery 0 (demo_session delivery) (createWorkflowState (demo_session delivery)).
Proof. apply (lane_progression delivery 0), demo_run. Defined.

Lemma session_reaches_last_stage_witness :
  ∃ s' wf' w',
    advance_times 4 (demo_session quick) (createWorkflowState (demo_session quick))
      (demo_envelope quick) (demo_world quick) = (Ret (s', wf'), w') ∧
    last (STAGES_BY_LANE quick) = Some (wf_stage wf') ∧
    stored_as s' wf' (demo_envelope quick) w'.
Proof.
  apply (session_reaches_last_stage quick 0).
  - apply lane_run_position with (n := 0), demo_run.
  - simpl. lia.
  - reflexivity.
  - split; intros k _; reflexivity.
Defined.

(** Six calls of [advance] take the full lane to [full_done]. *)
Lemma last_stage_status_witness :
  ∃ s wf, lane_run full 6 s wf ∧ wf_stage wf = full_done ∧
    wf_stageStatus wf = stage_in_progress.
Proof.
  destruct (advance_times 6 (demo_session full) (createWorkflowState (demo_session full))
              (demo_envelope full) (demo_world full)) as [[[s wf]|m] w] eqn:E;
    [|vm_compute in E; discriminate E].
  pose proof (advance_times_run full 6 0 _ _ _ _ _ _ _ (demo_run full) E) as Hr.
  exists s, wf. split; [exact Hr|]. split.
  - vm_compute in E. by injection E as <- <- <-.
  - apply (last_stage_status full 6 s wf Hr). simpl. lia.
Defined.
