(* ===== verification/RunState.v ===== *)
(** * The run registry

    [packages/runtime/src/session/session-run-state.ts]: at most one run per
    session in the process, with cancellation.  The entries of the registry are
    shared mutable objects ([cancel] changes the object that
    [withSessionRunGuard] later hands to [onIdle]), so the registry maps a
    session id to a reference into the heap [w_runs]. *)

From S2P Require Import Prelude Json Domain Store.
From Stdlib Require Import Ascii String.
From stdpp Require Import prelude list strings gmap.
Set Default Proof Using "Type".
Set Warnings "-clear-no-such-hyp".

Section run_state.
Context `{Env}.

Definition SessionBusyError (sid : string) : string :=
  "Session '" +:+ sid +:+ "' is currently busy.".

Definition assertNotBusy (sid : string) : M World () := λ w,
  match w_registry w !! sid with
  | Some _ => (Throw (SessionBusyError sid), w)
  | None => (Ret (), w)
  end.

(** Allocates the entry and registers it; the result is the reference. *)
Definition markBusy (sid : string) (metadata : option json) : M World nat :=
  _ ← assertNotBusy sid;
  runId ← createId "session-run";
  startedAt ← nowIso;
  w ← get_state;
  let ref := length (w_runs w) in
  _ ← modify (λ w, set_runs (w_runs w ++ [mkRun runId sid startedAt metadata None None]) w);
  _ ← modify (λ w, set_registry (<[sid := ref]> (w_registry w)) w);
  mret ref.

Definition markIdle (sid : string) : M World () :=
  modify (λ w, set_registry (delete sid (w_registry w)) w).

Definition request_cancel (at_ : string) (reason : option string) (e : RunEntry) : RunEntry :=
  mkRun (run_id e) (run_sessionId e) (run_startedAt e) (run_metadata e) (Some at_) reason.

Definition cancel (sid : string) (reason : option string) : M World bool :=
  w ← get_state;
  match w_registry w !! sid with
  | None => mret false
  | Some ref =>
    at_ ← nowIso;
    _ ← modify (λ w, set_runs (alter (request_cancel at_ reason) ref (w_runs w)) w);
    mret true
  end.

Definition getRunEntry (sid : string) : M World (option RunEntry) :=
  gets (λ w, ref ← w_registry w !! sid; w_runs w !! ref).

(** [Boolean(entry?.cancelRequestedAt)]: the empty string counts as false. *)
Definition isCancelRequested (sid : string) : M World bool :=
  entry ← getRunEntry sid;
  mret (match entry ≫= run_cancelRequestedAt with
        | Some at_ => negb (String.eqb at_ "")
        | None => false
        end).

Definition __resetSessionRunStateForTests : M World () := modify (set_registry ∅).

(** [options.onBusy] and [options.onIdle] receive the entry object: they read
    it through its reference when they run. *)
Definition run_hook (hook : option (RunEntry → M World ())) (ref : nat) : M World () :=
  match hook with
  | None => mret ()
  | Some f =>
    w ← get_state;
    match w_runs w !! ref with Some e => f e | None => mret () end
  end.

Definition withSessionRunGuard {T} (sid : string)
    (fn : string → M World bool → M World T) (metadata : option json)
    (onBusy onIdle : option (RunEntry → M World ())) : M World T :=
  ref ← markBusy sid metadata;
  _ ← run_hook onBusy ref;
  try_finally
    (w ← get_state;
     fn (from_option run_id "" (w_runs w !! ref)) (isCancelRequested sid))
    (_ ← markIdle sid; run_hook onIdle ref).

(** ** Facts *)

(** Every registered reference points to an entry of that session. *)
Definition registry_ok (w : World) : Prop :=
  ∀ sid ref, w_registry w !! sid = Some ref →
    ∃ e, w_runs w !! ref = Some e ∧ run_sessionId e = sid.

Lemma markBusy_free sid metadata w :
  w_registry w !! sid = None →
  ∃ w', markBusy sid metadata w = (Ret (length (w_runs w)), w') ∧
    w_registry w' = <[sid := length (w_runs w)]> (w_registry w) ∧
    w_runs w' = w_runs w ++
      [mkRun (draw_id "session-run" (w_draws w)) sid (clock (w_ticks w)) metadata None None].
Proof.
  intros Hf. unfold markBusy, assertNotBusy. repeat (autounfold with dh_ops; simpl).
  rewrite Hf. simpl. eexists. done.
Qed.

Lemma markBusy_busy sid metadata w :
  is_Some (w_registry w !! sid) →
  markBusy sid metadata w = (Throw (SessionBusyError sid), w).
Proof.
  intros [ref Hr]. unfold markBusy, assertNotBusy, mbind, M_bind. by rewrite Hr.
Qed.

(** A hook that leaves the registry of runs alone. *)
Definition keeps_registry (hook : option (RunEntry → M World ())) : Prop :=
  ∀ f e w, hook = Some f → w_registry (f e w).2 = w_registry w.

Lemma run_hook_registry hook ref w :
  keeps_registry hook → w_registry (run_hook hook ref w).2 = w_registry w.
Proof.
  intros Hk. unfold run_hook. destruct hook as [f|]; [|done]. unfold mbind, M_bind, get_state.
  destruct (w_runs w !! ref); [|done]. by apply Hk.
Qed.

(** The operations that touch the registry. *)
Inductive run_op : Type :=
| op_markBusy (sid : string) (metadata : option json)
| op_markIdle (sid : string)
| op_cancel (sid : string) (reason : option string).

Definition run_op_world (op : run_op) (w : World) : World :=
  match op with
  | op_markBusy sid metadata => snd (markBusy sid metadata w)
  | op_markIdle sid => snd (markIdle sid w)
  | op_cancel sid reason => snd (cancel sid reason w)
  end.

Lemma registry_ok_step op w : registry_ok w → registry_ok (run_op_world op w).
Proof.
  intros Hok. destruct op as [sid md|sid|sid reason]; simpl.
  - destruct (w_registry w !! sid) as [ref|] eqn:E.
    + rewrite markBusy_busy by eauto. done.
    + destruct (markBusy_free sid md w E) as (w' & -> & Hr & Hh). simpl.
      intros sid' ref'. rewrite Hr, Hh, lookup_insert. case_decide.
      * intros [= <-]. subst sid'. eexists. split; [by apply list_lookup_middle|done].
      * intros (e & He & Hs)%Hok. exists e. split; [|done]. by apply lookup_app_l_Some.
  - intros sid' ref'. simpl. rewrite lookup_delete. case_decide; [done|]. apply Hok.
  - unfold cancel. repeat (autounfold with dh_ops; simpl).
    destruct (w_registry w !! sid) as [ref|] eqn:E; [|done]. simpl.
    intros sid' ref' (e & He & Hs)%Hok. simpl.
    rewrite list_lookup_alter. case_decide; simplify_eq/=; [|by eauto].
    rewrite He. eexists. by split.
Qed.
End run_state.

(** ** Properties *)

Section properties.
Context `{Env}.

(** Mutual exclusion: while a session is registered as busy, a second
    guarded run of it throws [SessionBusyError] without running its body or its
    hooks and without disturbing the registered run. *)
Theorem guard_excludes_second_run {T} sid (fn : string → M World bool → M World T)
    metadata onBusy onIdle w :
  is_Some (w_registry w !! sid) →
  withSessionRunGuard sid fn metadata onBusy onIdle w = (Throw (SessionBusyError sid), w).
Proof.
  intros Hb. unfold withSessionRunGuard, mbind, M_bind. by rewrite markBusy_busy.
Qed.

(** C8 A guarded run on an idle session registers it and calls [onBusy].  When
    [onBusy] returns, the body runs and, however it ends, the session is idle
    again before [onIdle] runs and stays idle; the outcome of the body is passed
    on, unless [onIdle] throws, whose error replaces it.  When [onBusy] throws,
    its error is passed on, the body does not run and the session stays busy.
    The hooks may do anything but register, free or cancel runs. *)
Theorem guard_releases {T} sid (fn : string → M World bool → M World T) metadata onBusy onIdle w :
  w_registry w !! sid = None → keeps_registry onBusy → keeps_registry onIdle →
  ∃ ref w0 ob w1, markBusy sid metadata w = (Ret ref, w0) ∧ run_hook onBusy ref w0 = (ob, w1) ∧
    (∀ e, ob = Throw e →
       withSessionRunGuard sid fn metadata onBusy onIdle w = (Throw e, w1) ∧
       w_registry w1 !! sid = Some ref) ∧
    (ob = Ret () →
       ∃ o w2 oi w3, fn (from_option run_id "" (w_runs w1 !! ref)) (isCancelRequested sid) w1 = (o, w2) ∧
         run_hook onIdle ref (set_registry (delete sid (w_registry w2)) w2) = (oi, w3) ∧
         w_registry w3 = delete sid (w_registry w2) ∧
         withSessionRunGuard sid fn metadata onBusy onIdle w =
           (match oi with Throw e => Throw e | Ret _ => o end, w3)).
Proof.
  intros Hf Hb Hi. destruct (markBusy_free sid metadata w Hf) as (w0 & Hm & Hr & _).
  exists (length (w_runs w)), w0.
  destruct (run_hook onBusy (length (w_runs w)) w0) as [ob w1] eqn:Eb. exists ob, w1.
  pose proof (run_hook_registry onBusy (length (w_runs w)) w0 Hb) as Hw1. rewrite Eb in Hw1. simpl in Hw1.
  unfold withSessionRunGuard, mbind, M_bind. rewrite Hm, Eb. split_and!; [done|done| |].
  - intros e ->. split; [done|]. by rewrite Hw1, Hr, lookup_insert_eq.
  - intros ->. unfold try_finally, get_state.
    destruct (fn _ _ w1) as [o w2]. exists o, w2. unfold markIdle, modify.
    pose proof (run_hook_registry onIdle (length (w_runs w))
                  (set_registry (delete sid (w_registry w2)) w2) Hi) as Hw3.
    destruct (run_hook onIdle _ _) as [[[]|e] w3]; eexists _, w3; by split_and!.
Qed.

(** When the [onBusy] hook throws, the guard has already registered the run
    but not yet entered its [try]: the error escapes, the body never runs, and
    the session stays busy, so that every later run of it is refused. *)
Theorem throwing_onBusy_leaks_session {T} sid (fn : string → M World bool → M World T)
    metadata f onIdle msg w :
  w_registry w !! sid = None → (∀ e w, f e w = (Throw msg, w)) →
  ∃ w', withSessionRunGuard sid fn metadata (Some f) onIdle w = (Throw msg, w') ∧
    ∀ metadata', markBusy sid metadata' w' = (Throw (SessionBusyError sid), w').
Proof.
  intros Hf Ht. unfold withSessionRunGuard.
  destruct (markBusy_free sid metadata w Hf) as (w0 & Hm & Hr & Hh).
  exists w0. split.
  - unfold mbind, M_bind. rewrite Hm. unfold run_hook, mbind, M_bind, get_state.
    rewrite Hh, list_lookup_middle by done. by rewrite Ht.
  - intros md. apply markBusy_busy. rewrite Hr, lookup_insert_eq. by eexists.
Qed.

(** In every sequence of [markBusy], [markIdle] and [cancel] calls, of any
    sessions and in any order, each registered session points to an entry of
    its own. *)
Theorem registry_invariant ops w :
  registry_ok w → registry_ok (foldl (λ w op, run_op_world op w) w ops).
Proof.
  revert w. induction ops as [|op ops IH]; intros w Hok; simpl; [done|].
  by apply IH, registry_ok_step.
Qed.

(** Cancellation reaches the run and only that run: after [cancel] of a busy
    session its run sees the request, and no other session's entry changes. *)
Theorem cancel_reaches_own_run sid reason w :
  registry_ok w → is_Some (w_registry w !! sid) → clock (w_ticks w) ≠ "" →
  ∃ w', cancel sid reason w = (Ret true, w') ∧
    isCancelRequested sid w' = (Ret true, w') ∧
    ∀ sid', sid' ≠ sid → fst (getRunEntry sid' w') = fst (getRunEntry sid' w).
Proof.
  intros Hok [ref Hr] Hc. destruct (Hok _ _ Hr) as (e & He & Hs).
  unfold cancel. repeat (autounfold with dh_ops; simpl). rewrite Hr. simpl.
  eexists. split; [reflexivity|]. split.
  - unfold isCancelRequested, getRunEntry. repeat (autounfold with dh_ops; simpl).
    rewrite Hr. simpl. rewrite list_lookup_alter_eq, He. simpl.
    by rewrite (proj2 (String.eqb_neq _ _) Hc).
  - intros sid' Hne. unfold getRunEntry, gets. simpl. f_equal.
    destruct (w_registry w !! sid') as [ref'|] eqn:E; [|done]. simpl.
    rewrite list_lookup_alter_ne; [done|]. intros ->.
    destruct (Hok _ _ E) as (e' & He' & Hs'). congruence.
Qed.
End properties.

(** ** Witnesses *)

Definition busy_world : World := run_op_world (op_markBusy "session-1" None) empty_world.

Definition demo_body : string → M World bool → M World bool := λ _ cancelled, cancelled.

Lemma guard_excludes_second_run_witness :
  withSessionRunGuard "session-1" demo_body None None None busy_world
  = (Throw (SessionBusyError "session-1"), busy_world).
Proof. apply guard_excludes_second_run. by eexists. Defined.

(** Hooks as the lane command gives them: [onBusy] records an event; [onIdle]
    finds the event store gone. *)
Definition demo_onBusy (e : RunEntry) : M World () := _ ← nowIso; mret ().
Definition demo_onIdle (e : RunEntry) : M World () := throw "event store unavailable".

Lemma guard_releases_witness :
  (∃ w3, withSessionRunGuard "session-1" demo_body None (Some demo_onBusy) (Some demo_onIdle) empty_world
         = (Throw "event store unavailable", w3) ∧ w_registry w3 !! "session-1" = None) ∧
  ∃ ref w0 ob w1, markBusy "session-1" None empty_world = (Ret ref, w0) ∧
    run_hook (Some demo_onBusy) ref w0 = (ob, w1) ∧
    (∀ e, ob = Throw e →
       withSessionRunGuard "session-1" demo_body None (Some demo_onBusy) (Some demo_onIdle) empty_world
         = (Throw e, w1) ∧
       w_registry w1 !! "session-1" = Some ref) ∧
    (ob = Ret () →
       ∃ o w2 oi w3,
         demo_body (from_option run_id "" (w_runs w1 !! ref)) (isCancelRequested "session-1") w1 = (o, w2) ∧
         run_hook (Some demo_onIdle) ref (set_registry (delete "session-1" (w_registry w2)) w2) = (oi, w3) ∧
         w_registry w3 = delete "session-1" (w_registry w2) ∧
         withSessionRunGuard "session-1" demo_body None (Some demo_onBusy) (Some demo_onIdle) empty_world =
           (match oi with Throw e => Throw e | Ret _ => o end, w3)).
Proof.
  split; [eexists; split; reflexivity|].
  apply (guard_releases "session-1" demo_body None (Some demo_onBusy) (Some demo_onIdle) empty_world);
    [done| |]; by intros f e w [= <-].
Defined.

Lemma throwing_onBusy_leaks_session_witness :
  ∃ w', withSessionRunGuard "session-1" demo_body None
          (Some (λ _, throw "event store unavailable")) None empty_world
        = (Throw "event store unavailable", w') ∧
    ∀ metadata', markBusy "session-1" metadata' w' = (Throw (SessionBusyError "session-1"), w').
Proof.
  apply (throwing_onBusy_leaks_session "session-1" demo_body None
           (λ _, throw "event store unavailable") None "event store unavailable" empty_world);
    done.
Defined.

Lemma registry_invariant_witness :
  registry_ok (foldl (λ w op, run_op_world op w) empty_world
    [op_markBusy "session-1" None; op_cancel "session-1" (Some "stop"); op_markIdle "session-1"]).
Proof. apply (registry_invariant _ empty_world). intros sid ref Hr. discriminate Hr. Defined.

Lemma cancel_reaches_own_run_witness :
  ∃ w', cancel "session-1" None busy_world = (Ret true, w') ∧
    isCancelRequested "session-1" w' = (Ret true, w') ∧
    ∀ sid', sid' ≠ "session-1" → fst (getRunEntry sid' w') = fst (getRunEntry sid' busy_world).
Proof.
  apply (cancel_reaches_own_run "session-1" None busy_world).
  - apply registry_ok_step. intros sid ref Hr. discriminate Hr.
  - by eexists.
  - done.
Defined.
