(* ===== verification/Revert.v ===== *)
(** * Reverting a session to a checkpoint

    [packages/runtime/src/session/session-revert.ts]: [SessionRevertService]. *)

From S2P Require Import Prelude Json Domain Store Repos RunState.
From Stdlib Require Import Ascii String.
From stdpp Require Import prelude list strings gmap.
Set Default Proof Using "Type".
Set Warnings "-clear-no-such-hyp".

Definition checkpoint_error (cid sid : string) : string :=
  "Checkpoint '" +:+ cid +:+ "' does not exist for session '" +:+ sid +:+ "'.".
Definition history_error (sid : string) : string :=
  "Revert history changed during revert for session '" +:+ sid +:+ "'.".
Definition no_previous_error (sid : string) : string :=
  "No previous checkpoint available for undoRevert on session '" +:+ sid +:+ "'.".
Definition unavailable_error (sid cid : string) : string :=
  "Cannot undo revert for session '" +:+ sid +:+ "' because previous checkpoint '" +:+ cid +:+
  "' is unavailable.".
Definition self_reference_error (sid : string) : string :=
  "Cannot undo revert for session '" +:+ sid +:+
  "' because revert history is self-referential.".

Definition reverted_session (s : SessionState) (c : SessionCheckpointRecord)
    (summaryId revertId at_ : string) : SessionState :=
  {| sessionId := sessionId s; repoRoot := repoRoot s; lane := lane s;
     currentStage := cp_stage c; status := status s; createdAt := createdAt s;
     updatedAt := at_; activeWorkItemIds := activeWorkItemIds s;
     semanticMode := semanticMode s; toolEnforcementLevel := toolEnforcementLevel s;
     latestSummaryId := Some summaryId; latestCheckpointId := Some (cp_id c);
     latestRevertId := Some revertId |}.

Definition revert_event (checkpointId revertId reason : string) : json :=
  JObj [("checkpointId", JStr checkpointId); ("revertId", JStr revertId);
        ("reason", JStr reason)].

(** [latestBefore && previous?.id && latestBefore.id !== previous.id]. *)
Definition history_changed (latestBefore previous : option SessionRevertRecord) : bool :=
  match latestBefore, previous with
  | Some a, Some b => negb (String.eqb (rv_id b) "") && negb (String.eqb (rv_id a) (rv_id b))
  | _, _ => false
  end.

Section revert.
Context `{Env}.

Definition revertTo (sid checkpointId reason : string) : M World (string * string) :=
  latestBefore ← SessionRevertRepo.findLatestBySession sid;
  _ ← assertNotBusy sid;
  checkpoint ← SessionCheckpointsRepo.findById checkpointId;
  match checkpoint with
  | None => throw (checkpoint_error checkpointId sid)
  | Some c =>
    if negb (String.eqb (cp_sessionId c) sid) then throw (checkpoint_error checkpointId sid) else
    session ← SessionsRepo.findById sid;
    match session with
    | None => throw (session_error sid)
    | Some s =>
      _ ← WorkflowStateRepo.save_snapshot sid (cp_workflowSnapshot c);
      let snap := cp_summarySnapshot c in
      summary ← SessionSummaryRepo.save None sid
        (sn_filesChanged snap or_else 0) (sn_additions snap or_else 0)
        (sn_deletions snap or_else 0) (sn_lastDiffAt snap) (sn_latestStage snap)
        (Some (sn_latestCheckpointId snap or_else cp_id c))
        (sn_continuationSummary snap) (sn_continuationCreatedAt snap) None;
      previous ← SessionRevertRepo.findLatestBySession sid;
      revert ← SessionRevertRepo.save None sid checkpointId (rv_checkpointId <$> previous)
                 reason None;
      if history_changed latestBefore previous then throw (history_error sid) else
      now ← nowIso;
      _ ← SessionsRepo.save (reverted_session s c (sum_id summary) (rv_id revert) now);
      _ ← SessionRuntimeEventsRepo.save sid "revert"
            (Some (revert_event checkpointId (rv_id revert) reason)) None;
      mret (rv_id revert, checkpointId)
    end
  end.

Definition undoRevert (sid : string) : M World (string * string) :=
  latest ← SessionRevertRepo.findLatestBySession sid;
  match latest ≫= rv_previousCheckpointId with
  | None => throw (no_previous_error sid)
  | Some previous =>
    if String.eqb previous "" then throw (no_previous_error sid) else
    checkpoint ← SessionCheckpointsRepo.findById previous;
    match checkpoint with
    | None => throw (unavailable_error sid previous)
    | Some c =>
      if negb (String.eqb (cp_sessionId c) sid) then throw (unavailable_error sid previous)
      else if String.eqb (from_option rv_checkpointId "" latest) previous
      then throw (self_reference_error sid)
      else revertTo sid previous "undo-revert"
    end
  end.

(** ** Facts *)

(** The newest revert of a session, as [findLatestBySession] sees it. *)
Definition latest_revert (sid : string) (w : World) : option SessionRevertRecord :=
  head (order_desc rv_createdAt (filter (λ r, rv_sessionId r = sid) (w_reverts w))).

(** The world can take a revert of the session: it is stored and idle, no draw
    collides, and no stored revert is dated in the future. *)
Record revert_ready (sid : string) (w : World) : Prop := {
  rr_session : has_key sessionId sid (w_sessions w) = true;
  rr_idle : w_registry w !! sid = None;
  rr_reverts : draws_fresh rv_id "session-revert" (w_reverts w) (w_draws w);
  rr_events : draws_fresh ev_id "session-runtime-event" (w_events w) (w_draws w);
  rr_dated : Forall (λ r, String.leb (rv_createdAt r) (clock (w_ticks w)) = true) (w_reverts w);
}.

(** A checkpoint of the session that can be reverted to. *)
Record restorable (sid : string) (c : SessionCheckpointRecord) (wf : WorkflowState)
    (w : World) : Prop := {
  rs_stored : find_row cp_id (cp_id c) (w_checkpoints w) = Some c;
  rs_owner : cp_sessionId c = sid;
  rs_snapshot : cp_workflowSnapshot c = Some wf;
}.

(** The session is at the checkpoint: workflow row, stage and links. *)
Record reverted_at (sid : string) (c : SessionCheckpointRecord) (wf : WorkflowState)
    (w : World) : Prop := {
  ra_workflow : find_row fst sid (w_workflow w) = Some (sid, wf);
  ra_session : ∃ s, find_row sessionId sid (w_sessions w) = Some s ∧
    currentStage s = cp_stage c ∧ latestCheckpointId s = Some (cp_id c);
}.

Lemma history_unchanged r : history_changed r r = false.
Proof. destruct r; simpl; [|done]. by rewrite String.eqb_refl, andb_false_r. Qed.

End revert.

Section revert_ok.
Context `{EnvLaws}.

Lemma revertTo_ok sid c wf reason w :
  revert_ready sid w → restorable sid c wf w →
  ∃ w' rid, revertTo sid (cp_id c) reason w = (Ret (rid, cp_id c), w') ∧
    reverted_at sid c wf w' ∧ revert_ready sid w' ∧
    w_checkpoints w' = w_checkpoints w ∧
    ∃ r, latest_revert sid w' = Some r ∧ rv_id r = rid ∧ rv_checkpointId r = cp_id c ∧
      rv_previousCheckpointId r = rv_checkpointId <$> latest_revert sid w.
Proof using Type*.
  intros [Hs Hidle Hfr Hfe Hdated] [Hc Ho Hsn].
  destruct (find_row_of_has_key _ _ _ Hs) as (s & Hfs & Hid).
  assert (has_key rv_id (draw_id "session-revert" (S (w_draws w))) (w_reverts w) = false)
    as Hr1 by (apply Hfr; lia).
  assert (has_key ev_id (draw_id "session-runtime-event" (S (S (w_draws w)))) (w_events w) = false)
    as He1 by (apply Hfe; lia).
  eexists _, _. split.
  { unfold revertTo, assertNotBusy. repeat (autounfold with dh_ops; simpl).
    rewrite Hidle. simpl. rewrite Hc. simpl. rewrite Ho, String.eqb_refl. simpl.
    rewrite Hfs. simpl. rewrite Hsn. exec. rewrite history_unchanged. exec. reflexivity. }
  split; [|split; [|split; [done|]]].
  - split; simpl.
    + apply (find_upsert_eq fst (sid, wf)).
    + eexists (reverted_session s c _ _ _). split; [|split; reflexivity].
      rewrite <- Hid at 1. apply (find_upsert_eq sessionId (reverted_session s c _ _ _)).
  - split; simpl.
    + by apply upsert_has_key.
    + done.
    + eapply draws_fresh_snoc; [done|lia|]. exists (S (w_draws w)). split; [lia|done].
    + eapply draws_fresh_snoc; [done|lia|]. exists (S (S (w_draws w))). split; [lia|done].
    + apply Forall_app. split.
      * eapply Forall_impl; [exact Hdated|]. simpl. intros r Hr.
        eapply string_leb_trans; [exact Hr|]. apply clock_mono. lia.
      * apply Forall_singleton. simpl. apply clock_mono. lia.
  - eexists. split.
    { unfold latest_revert. simpl. rewrite filter_app, (filter_cons_True _ _ []), filter_nil by done.
      rewrite order_desc_latest; [reflexivity|].
      apply Forall_forall. intros r Hr. apply list_elem_of_filter in Hr as [_ Hr].
      rewrite Forall_forall in Hdated. simpl.
      eapply string_leb_trans; [by apply Hdated|]. apply clock_mono. lia. }
    done.
Qed.
End revert_ok.

(** ** Properties *)

(** A revert to a checkpoint of an idle, stored session succeeds and puts the
    session back: the workflow row is the checkpoint's snapshot, the session row
    has the checkpoint's stage and points to it, the revert is the newest of the
    session's history and remembers what the session was at before, and the
    world can take the next revert. *)
Theorem revertTo_restores `{EnvLaws} sid c wf reason w :
  revert_ready sid w → restorable sid c wf w →
  ∃ w' rid, revertTo sid (cp_id c) reason w = (Ret (rid, cp_id c), w') ∧
    reverted_at sid c wf w' ∧ revert_ready sid w' ∧
    ∃ r, latest_revert sid w' = Some r ∧ rv_id r = rid ∧ rv_checkpointId r = cp_id c ∧
      rv_previousCheckpointId r = rv_checkpointId <$> latest_revert sid w.
Proof.
  intros Hr Hc. destruct (revertTo_ok sid c wf reason w Hr Hc) as (w' & rid & ? & ? & ? & ? & ?).
  by exists w', rid.
Qed.

(** C5 Undo is a round trip: after a revert to [c1] and then to another
    checkpoint [c2], [undoRevert] brings the session back to [c1]. *)
Theorem undoRevert_round_trip `{EnvLaws} sid c1 wf1 c2 wf2 r1 r2 w :
  revert_ready sid w → restorable sid c1 wf1 w → restorable sid c2 wf2 w →
  cp_id c1 ≠ cp_id c2 → cp_id c1 ≠ "" →
  ∃ w' rid,
    (_ ← revertTo sid (cp_id c1) r1; _ ← revertTo sid (cp_id c2) r2; undoRevert sid) w
    = (Ret (rid, cp_id c1), w') ∧ reverted_at sid c1 wf1 w'.
Proof.
  intros Hr Hc1 Hc2 Hne Hn0.
  destruct (revertTo_ok sid c1 wf1 r1 w Hr Hc1) as (w1 & i1 & E1 & _ & Hr1 & Hk1 & l1 & Hl1 & _ & Hl1c & _).
  assert (restorable sid c2 wf2 w1) as Hc2' by (destruct Hc2; split; by rewrite ?Hk1).
  destruct (revertTo_ok sid c2 wf2 r2 w1 Hr1 Hc2')
    as (w2 & i2 & E2 & _ & Hr2 & Hk2 & l2 & Hl2 & _ & Hl2c & Hl2p).
  assert (restorable sid c1 wf1 w2) as Hc1' by (destruct Hc1; split; by rewrite ?Hk2, ?Hk1).
  destruct (revertTo_ok sid c1 wf1 "undo-revert" w2 Hr2 Hc1')
    as (w3 & i3 & E3 & Hat & _).
  exists w3, i3. split; [|done].
  unfold mbind, M_bind. rewrite E1, E2.
  unfold undoRevert. repeat (autounfold with dh_ops; simpl).
  fold (latest_revert sid w2). rewrite Hl2. simpl. rewrite Hl2p, Hl1. simpl. rewrite Hl1c.
  rewrite (proj2 (String.eqb_neq _ _) Hn0). simpl.
  rewrite (rs_stored _ _ _ _ Hc1'), (rs_owner _ _ _ _ Hc1'), String.eqb_refl. simpl.
  rewrite Hl2c, (proj2 (String.eqb_neq (cp_id c2) (cp_id c1))) by congruence.
  exact E3.
Qed.

(** The first revert of a session cannot be undone: its record has no
    previous checkpoint, so [undoRevert] throws and changes nothing. *)
Theorem first_revert_not_undoable `{EnvLaws} sid c wf reason w :
  revert_ready sid w → restorable sid c wf w → latest_revert sid w = None →
  ∃ w' rid, revertTo sid (cp_id c) reason w = (Ret (rid, cp_id c), w') ∧
    undoRevert sid w' = (Throw (no_previous_error sid), w').
Proof.
  intros Hr Hc Hn.
  destruct (revertTo_ok sid c wf reason w Hr Hc) as (w' & rid & E & _ & _ & _ & r & Hl & _ & _ & Hp).
  exists w', rid. split; [done|].
  unfold undoRevert. repeat (autounfold with dh_ops; simpl).
  fold (latest_revert sid w'). rewrite Hl. simpl. by rewrite Hp, Hn.
Qed.

(** A refused revert is atomic: when the session is busy, the checkpoint is
    unknown or another session's, the session is not stored, or the checkpoint
    has no workflow snapshot, [revertTo] throws and the world is unchanged. *)
Theorem refused_revert_changes_nothing `{Env} sid cid reason w :
  is_Some (w_registry w !! sid)
  ∨ (∀ c, find_row cp_id cid (w_checkpoints w) = Some c →
       cp_sessionId c ≠ sid ∨ cp_workflowSnapshot c = None)
  ∨ has_key sessionId sid (w_sessions w) = false →
  ∃ msg, revertTo sid cid reason w = (Throw msg, w).
Proof.
  intros Hcase. unfold revertTo, assertNotBusy. repeat (autounfold with dh_ops; simpl).
  destruct (w_registry w !! sid) as [ref|]; simpl; [by eexists|].
  destruct (find_row cp_id cid (w_checkpoints w)) as [c|] eqn:Ec; simpl; [|by eexists].
  destruct (String.eqb_spec (cp_sessionId c) sid) as [Ho|Ho]; simpl; [|by eexists].
  destruct (find_row sessionId sid (w_sessions w)) as [s|] eqn:Es; simpl; [|by eexists].
  destruct (cp_workflowSnapshot c) as [wf|] eqn:Ew; simpl; [|by eexists].
  exfalso. destruct Hcase as [[? ?]|[Hc|Hc]]; [done| |].
  - destruct (Hc c eq_refl); congruence.
  - by rewrite (find_row_has_key _ _ _ _ Es) in Hc.
Qed.

(** ** Witnesses *)

Definition demo_workflow (stage : WorkflowStage) : WorkflowState :=
  {| wf_lane := delivery; wf_stage := stage; wf_stageStatus := stage_in_progress;
     wf_previousStage := None; wf_nextStage := None; wf_gateStatus := gate_pending;
     wf_blockers := [] |}.

Definition demo_checkpoint (id : string) (stage : WorkflowStage) : SessionCheckpointRecord :=
  mkCheckpoint id "session-1" post_stage_advance delivery stage empty_summary_snapshot
    (Some (demo_workflow stage)) (JObj []) (JObj []) "T".

Definition cp_a := demo_checkpoint "cp-a" delivery_analysis.
Definition cp_b := demo_checkpoint "cp-b" delivery_execute.

Definition revert_world : World :=
  set_checkpoints [cp_a; cp_b]
    (set_sessions
       [mkSession "session-1" "/repo" delivery delivery_execute ss_in_progress "T" "T" []
          always very_hard None None None] empty_world).

Lemma revert_world_ready : revert_ready "session-1" revert_world.
Proof. split; try reflexivity; try (intros k _; reflexivity). constructor. Qed.

Lemma cp_a_restorable : restorable "session-1" cp_a (demo_workflow delivery_analysis) revert_world.
Proof. by split. Qed.

Lemma cp_b_restorable : restorable "session-1" cp_b (demo_workflow delivery_execute) revert_world.
Proof. by split. Qed.

Lemma revertTo_restores_witness :
  ∃ w' rid, revertTo "session-1" "cp-a" "manual-revert" revert_world = (Ret (rid, "cp-a"), w') ∧
    reverted_at "session-1" cp_a (demo_workflow delivery_analysis) w' ∧
    revert_ready "session-1" w' ∧
    ∃ r, latest_revert "session-1" w' = Some r ∧ rv_id r = rid ∧ rv_checkpointId r = "cp-a" ∧
      rv_previousCheckpointId r = rv_checkpointId <$> latest_revert "session-1" revert_world.
Proof.
  apply (revertTo_restores "session-1" cp_a (demo_workflow delivery_analysis) "manual-revert");
    [apply revert_world_ready | apply cp_a_restorable].
Defined.

Lemma undoRevert_round_trip_witness :
  ∃ w' rid,
    (_ ← revertTo "session-1" "cp-a" "one"; _ ← revertTo "session-1" "cp-b" "two";
     undoRevert "session-1") revert_world = (Ret (rid, "cp-a"), w') ∧
    reverted_at "session-1" cp_a (demo_workflow delivery_analysis) w'.
Proof.
  apply (undoRevert_round_trip "session-1" cp_a (demo_workflow delivery_analysis)
           cp_b (demo_workflow delivery_execute) "one" "two" revert_world);
    [apply revert_world_ready | apply cp_a_restorable | apply cp_b_restorable | done | done].
Defined.

Lemma first_revert_not_undoable_witness :
  ∃ w' rid, revertTo "session-1" "cp-a" "manual-revert" revert_world = (Ret (rid, "cp-a"), w') ∧
    undoRevert "session-1" w' = (Throw (no_previous_error "session-1"), w').
Proof.
  apply (first_revert_not_undoable "session-1" cp_a (demo_workflow delivery_analysis));
    [apply revert_world_ready | apply cp_a_restorable | done].
Defined.

Lemma refused_revert_changes_nothing_witness :
  ∃ msg, revertTo "session-2" "cp-a" "manual-revert" revert_world = (Throw msg, revert_world).
Proof. apply refused_revert_changes_nothing. right. right. reflexivity. Defined.
