(* ===== verification/FullWorkflow.v ===== *)
(** * The full workflow

    [packages/runtime/src/workflow/full-workflow-runtime.ts] and the part of
    [packages/opencode-app/src/agent/subagent-runtime.ts] it calls: the state
    machine of the full delivery lane, with its approval gates, role tasks,
    audit trail and persistence.

    A [FullWorkflowState] object is threaded through the operations; the file
    [.dh/full-workflow/<id>.json] of each parent session is an entry of
    [w_fullFiles]. *)

From S2P Require Import Prelude Json Domain Store Repos.
From Stdlib Require Import Ascii String.
From stdpp Require Import prelude list strings gmap.
Set Default Proof Using "Type".
Set Warnings "-clear-no-such-hyp -abstract-large-number".

(** ** Constants *)

Definition FULL_WORKFLOW_ROLES : list FullWorkflowRoleContract := [
  mkContract master_orchestrator "Master Orchestrator" perm_read_only
    "Own parent session, route stages, enforce gates, and surface status.";
  mkContract product_lead "Product Lead" perm_read_only
    "Convert intent into scope, user stories, acceptance criteria, and edge cases.";
  mkContract solution_lead "Solution Lead" perm_read_only
    "Convert approved scope into architecture, work items, sequencing, and validation plan.";
  mkContract fullstack_agent "Fullstack Agent" perm_write_with_permission
    "Implement scoped code changes and record verification evidence.";
  mkContract code_reviewer "Code Reviewer" perm_read_only
    "Review diffs for bugs, regressions, architecture drift, and missing tests.";
  mkContract qa_agent "QA Agent" perm_bounded_shell
    "Validate acceptance criteria, run tests, and record QA evidence.";
  mkContract context_scout "Context Scout" perm_read_only
    "Gather semantic, symbol, LSP, test, docs, and recent-change evidence.";
  mkContract summarizer "Summarizer" perm_read_only
    "Compress role outputs into parent-session memory without replacing evidence."].

Definition FULL_WORKFLOW_STAGES : list WorkflowStage :=
  [full_intake; full_product; full_solution; full_implementation; full_code_review;
   full_qa; full_done].

Definition FULL_WORKFLOW_APPROVAL_GATES : list FullWorkflowApprovalGate := [
  mkGate product_to_solution full_product full_solution;
  mkGate solution_to_fullstack full_solution full_implementation;
  mkGate fullstack_to_code_review full_implementation full_code_review;
  mkGate code_review_to_qa full_code_review full_qa;
  mkGate qa_to_done full_qa full_done].

(** The [switch] covers the stages of type [FullWorkflowStage]. *)
Definition ownerForStage (stage : WorkflowStage) : FullWorkflowRoleId :=
  match stage with
  | full_product => product_lead
  | full_solution => solution_lead
  | full_implementation => fullstack_agent
  | full_code_review => code_reviewer
  | full_qa => qa_agent
  | _ => master_orchestrator
  end.

Definition nextStage (stage : WorkflowStage) : option WorkflowStage :=
  match list_index stage FULL_WORKFLOW_STAGES with
  | None => None
  | Some i => FULL_WORKFLOW_STAGES !! S i
  end.

Definition find_contract (role : FullWorkflowRoleId) : option FullWorkflowRoleContract :=
  head (filter (λ c, rc_id c = role) FULL_WORKFLOW_ROLES).

Definition find_gate (id : FullWorkflowApprovalGateId) : option FullWorkflowApprovalGate :=
  head (filter (λ g, gate_id g = id) FULL_WORKFLOW_APPROVAL_GATES).

(** ** Assignments to the members of the state object *)

Definition set_children (v : list FullWorkflowChildSession) (st : FullWorkflowState) : FullWorkflowState :=
  {| fw_parentSessionId := fw_parentSessionId st; fw_objective := fw_objective st;
     fw_currentStage := fw_currentStage st; fw_currentOwner := fw_currentOwner st;
     fw_status := fw_status st; fw_childSessions := v; fw_approvals := fw_approvals st;
     fw_artifacts := fw_artifacts st; fw_rerouteIssues := fw_rerouteIssues st;
     fw_evidenceLedgerRefs := fw_evidenceLedgerRefs st; fw_audit := fw_audit st;
     fw_maxReadOnlyWorkers := fw_maxReadOnlyWorkers st; fw_createdAt := fw_createdAt st;
     fw_updatedAt := fw_updatedAt st |}.

Definition set_approvals (v : list FullWorkflowApproval) (st : FullWorkflowState) : FullWorkflowState :=
  {| fw_parentSessionId := fw_parentSessionId st; fw_objective := fw_objective st;
     fw_currentStage := fw_currentStage st; fw_currentOwner := fw_currentOwner st;
     fw_status := fw_status st; fw_childSessions := fw_childSessions st;
     fw_approvals := v; fw_artifacts := fw_artifacts st;
     fw_rerouteIssues := fw_rerouteIssues st;
     fw_evidenceLedgerRefs := fw_evidenceLedgerRefs st; fw_audit := fw_audit st;
     fw_maxReadOnlyWorkers := fw_maxReadOnlyWorkers st; fw_createdAt := fw_createdAt st;
     fw_updatedAt := fw_updatedAt st |}.

Definition set_artifacts (v : list FullWorkflowArtifact) (st : FullWorkflowState) : FullWorkflowState :=
  {| fw_parentSessionId := fw_parentSessionId st; fw_objective := fw_objective st;
     fw_currentStage := fw_currentStage st; fw_currentOwner := fw_currentOwner st;
     fw_status := fw_status st; fw_childSessions := fw_childSessions st;
     fw_approvals := fw_approvals st; fw_artifacts := v;
     fw_rerouteIssues := fw_rerouteIssues st;
     fw_evidenceLedgerRefs := fw_evidenceLedgerRefs st; fw_audit := fw_audit st;
     fw_maxReadOnlyWorkers := fw_maxReadOnlyWorkers st; fw_createdAt := fw_createdAt st;
     fw_updatedAt := fw_updatedAt st |}.

Definition set_reroutes (v : list FullWorkflowRerouteIssue) (st : FullWorkflowState) : FullWorkflowState :=
  {| fw_parentSessionId := fw_parentSessionId st; fw_objective := fw_objective st;
     fw_currentStage := fw_currentStage st; fw_currentOwner := fw_currentOwner st;
     fw_status := fw_status st; fw_childSessions := fw_childSessions st;
     fw_approvals := fw_approvals st; fw_artifacts := fw_artifacts st;
     fw_rerouteIssues := v; fw_evidenceLedgerRefs := fw_evidenceLedgerRefs st;
     fw_audit := fw_audit st; fw_maxReadOnlyWorkers := fw_maxReadOnlyWorkers st;
     fw_createdAt := fw_createdAt st; fw_updatedAt := fw_updatedAt st |}.

Definition set_refs (v : list string) (st : FullWorkflowState) : FullWorkflowState :=
  {| fw_parentSessionId := fw_parentSessionId st; fw_objective := fw_objective st;
     fw_currentStage := fw_currentStage st; fw_currentOwner := fw_currentOwner st;
     fw_status := fw_status st; fw_childSessions := fw_childSessions st;
     fw_approvals := fw_approvals st; fw_artifacts := fw_artifacts st;
     fw_rerouteIssues := fw_rerouteIssues st; fw_evidenceLedgerRefs := v;
     fw_audit := fw_audit st; fw_maxReadOnlyWorkers := fw_maxReadOnlyWorkers st;
     fw_createdAt := fw_createdAt st; fw_updatedAt := fw_updatedAt st |}.

Definition set_audit (v : list FullWorkflowAuditRecord) (st : FullWorkflowState) : FullWorkflowState :=
  {| fw_parentSessionId := fw_parentSessionId st; fw_objective := fw_objective st;
     fw_currentStage := fw_currentStage st; fw_currentOwner := fw_currentOwner st;
     fw_status := fw_status st; fw_childSessions := fw_childSessions st;
     fw_approvals := fw_approvals st; fw_artifacts := fw_artifacts st;
     fw_rerouteIssues := fw_rerouteIssues st;
     fw_evidenceLedgerRefs := fw_evidenceLedgerRefs st; fw_audit := v;
     fw_maxReadOnlyWorkers := fw_maxReadOnlyWorkers st; fw_createdAt := fw_createdAt st;
     fw_updatedAt := fw_updatedAt st |}.

Definition set_fstatus (v : FullStatus) (st : FullWorkflowState) : FullWorkflowState :=
  {| fw_parentSessionId := fw_parentSessionId st; fw_objective := fw_objective st;
     fw_currentStage := fw_currentStage st; fw_currentOwner := fw_currentOwner st;
     fw_status := v; fw_childSessions := fw_childSessions st;
     fw_approvals := fw_approvals st; fw_artifacts := fw_artifacts st;
     fw_rerouteIssues := fw_rerouteIssues st;
     fw_evidenceLedgerRefs := fw_evidenceLedgerRefs st; fw_audit := fw_audit st;
     fw_maxReadOnlyWorkers := fw_maxReadOnlyWorkers st; fw_createdAt := fw_createdAt st;
     fw_updatedAt := fw_updatedAt st |}.

Definition set_updated (v : string) (st : FullWorkflowState) : FullWorkflowState :=
  {| fw_parentSessionId := fw_parentSessionId st; fw_objective := fw_objective st;
     fw_currentStage := fw_currentStage st; fw_currentOwner := fw_currentOwner st;
     fw_status := fw_status st; fw_childSessions := fw_childSessions st;
     fw_approvals := fw_approvals st; fw_artifacts := fw_artifacts st;
     fw_rerouteIssues := fw_rerouteIssues st;
     fw_evidenceLedgerRefs := fw_evidenceLedgerRefs st; fw_audit := fw_audit st;
     fw_maxReadOnlyWorkers := fw_maxReadOnlyWorkers st; fw_createdAt := fw_createdAt st;
     fw_updatedAt := v |}.

(** [currentStage], [currentOwner] and [status] are assigned together. *)
Definition set_position (stage : WorkflowStage) (owner : FullWorkflowRoleId) (s : FullStatus) (st : FullWorkflowState) : FullWorkflowState :=
  {| fw_parentSessionId := fw_parentSessionId st; fw_objective := fw_objective st;
     fw_currentStage := stage; fw_currentOwner := owner; fw_status := s;
     fw_childSessions := fw_childSessions st; fw_approvals := fw_approvals st;
     fw_artifacts := fw_artifacts st; fw_rerouteIssues := fw_rerouteIssues st;
     fw_evidenceLedgerRefs := fw_evidenceLedgerRefs st; fw_audit := fw_audit st;
     fw_maxReadOnlyWorkers := fw_maxReadOnlyWorkers st; fw_createdAt := fw_createdAt st;
     fw_updatedAt := fw_updatedAt st |}.

(** ** Role tasks *)

(** [truncateUtf8]: one code unit is one byte here. *)
Definition truncateUtf8 (value : string) (maxBytes : nat) : string :=
  if (String.length value <=? maxBytes)%nat then value else String.substring 0 maxBytes value.

(** [runSubagentTask] of an input without a provider. *)
Definition runSubagentTask (prompt : string) (agentId : option string)
    (maxResultBytes : option nat) : string :=
  truncateUtf8 ("Subagent " +:+ (agentId or_else "general") +:+ ": " +:+ prompt)
    (maxResultBytes or_else 16000).

(** What the full workflow needs of [inspectContext]
    ([packages/runtime/src/context/context-planner.ts]): the id of the ledger it
    writes.  It reads the workspace and writes ledger and cache files of its
    own; of this world it only reads the clock and draws ids. *)
Class ContextPlanner : Type := {
  inspectContext : string → string → M World string;
  inspectContext_frame root query w :
    ∃ t d, snd (inspectContext root query w) = set_ticks t (set_draws d w);
}.

Section full_workflow.
Context `{Env} `{ContextPlanner}.
Variable root : string.

Definition roleContract (role : FullWorkflowRoleId) : M World FullWorkflowRoleContract :=
  match find_contract role with
  | Some c => mret c
  | None => throw ("Unknown full workflow role '" +:+ full_role_name role +:+ "'.")
  end.

Definition audit_json (r : FullWorkflowAuditRecord) : json :=
  JObj [("id", JStr (au_id r)); ("eventType", JStr (full_event_name (au_event r)));
        ("role", JStr (full_role_name (au_role r))); ("stage", JStr (stage_name (au_stage r)));
        ("createdAt", JStr (au_createdAt r))].

Definition recordAudit (st : FullWorkflowState) (event : FullAuditEvent)
    (role : FullWorkflowRoleId) (stage : WorkflowStage) : M World FullWorkflowState :=
  id ← createId "audit";
  createdAt ← nowIso;
  let record := mkAudit id event role stage createdAt in
  _ ← SessionRuntimeEventsRepo.save (fw_parentSessionId st) (full_event_name event)
        (Some (audit_json record)) (Some createdAt);
  mret (set_audit (fw_audit st ++ [record]) st).

Definition runRoleTask (st : FullWorkflowState) (role : FullWorkflowRoleId)
    (stage : WorkflowStage) : M World FullWorkflowState :=
  contract ← roleContract role;
  childId ← createId "child-session";
  let child := mkChild childId role stage child_running (rc_permission contract) None in
  let others := fw_childSessions st in
  st ← recordAudit (set_children (others ++ [child]) st) full_role_started role stage;
  st ← (if decide (role = context_scout) then
          ledgerId ← inspectContext root (fw_objective st);
          mret (set_refs (js_dedup [] (fw_evidenceLedgerRefs st ++ [ledgerId])) st)
        else mret st);
  let summary := runSubagentTask (stage_name stage +:+ ": " +:+ fw_objective st)
                   (Some (full_role_name role)) (Some 2000) in
  let st := set_children
    (others ++ [mkChild childId role stage child_complete (rc_permission contract)
                  (Some summary)]) st in
  artifactId ← createId "artifact";
  createdAt ← nowIso;
  let st := set_artifacts
    (fw_artifacts st ++ [mkArtifact artifactId role_output role stage summary
                           (fw_evidenceLedgerRefs st) createdAt]) st in
  st ← recordAudit st full_role_finished role stage;
  now ← nowIso;
  mret (set_updated now st).

(** ** Persistence *)

Definition parent_session (st : FullWorkflowState) : SessionState :=
  {| sessionId := fw_parentSessionId st; repoRoot := root; lane := full;
     currentStage := fw_currentStage st;
     status := match fw_status st with
               | full_complete => ss_complete | full_blocked => ss_blocked
               | full_running => ss_in_progress
               end;
     createdAt := fw_createdAt st; updatedAt := fw_updatedAt st;
     activeWorkItemIds :=
       ch_id <$> filter (λ c, ch_status c = child_running) (fw_childSessions st);
     semanticMode := auto; toolEnforcementLevel := very_hard; latestSummaryId := None;
     latestCheckpointId := None; latestRevertId := None |}.

Definition parent_workflow (st : FullWorkflowState) : WorkflowState :=
  {| wf_lane := full; wf_stage := fw_currentStage st;
     wf_stageStatus := match fw_status st with
                       | full_complete => stage_passed | full_blocked => stage_blocked
                       | full_running => stage_in_progress
                       end;
     wf_previousStage := None; wf_nextStage := nextStage (fw_currentStage st);
     wf_gateStatus := gate_pending; wf_blockers := ri_finding <$> fw_rerouteIssues st |}.

Definition persistParentSession (st : FullWorkflowState) : M World () :=
  _ ← SessionsRepo.save (parent_session st);
  WorkflowStateRepo.save (fw_parentSessionId st) (parent_workflow st).

Definition writeState (st : FullWorkflowState) : M World () :=
  modify (λ w, set_fullFiles (<[fw_parentSessionId st := st]> (w_fullFiles w)) w).

Definition readState (pid : string) : M World FullWorkflowState := λ w,
  match w_fullFiles w !! pid with
  | Some st => (Ret st, w)
  | None => (Throw ("Full workflow parent session '" +:+ pid +:+ "' was not found."), w)
  end.

(** ** Operations *)

Definition startFullWorkflow (input_objective : string) (maxReadOnlyWorkers : option nat) :
    M World FullWorkflowState :=
  let objective := trim input_objective in
  if String.eqb objective "" then throw "full workflow objective is required." else
  timestamp ← nowIso;
  pid ← createId "session";
  let st := {| fw_parentSessionId := pid; fw_objective := objective;
               fw_currentStage := full_product; fw_currentOwner := product_lead;
               fw_status := full_running; fw_childSessions := []; fw_approvals := [];
               fw_artifacts := []; fw_rerouteIssues := []; fw_evidenceLedgerRefs := [];
               fw_audit := []; fw_maxReadOnlyWorkers := maxReadOnlyWorkers or_else 3;
               fw_createdAt := timestamp; fw_updatedAt := timestamp |} in
  _ ← persistParentSession st;
  st ← recordAudit st full_started_ev master_orchestrator full_intake;
  st ← runRoleTask st product_lead full_product;
  _ ← writeState st;
  mret st.

Definition inspectFullWorkflow (pid : string) : M World FullWorkflowState := readState pid.

Definition gate_error (gid : FullWorkflowApprovalGateId) (stage : WorkflowStage) : string :=
  "Gate '" +:+
  match gid with
  | product_to_solution => "product_to_solution"
  | solution_to_fullstack => "solution_to_fullstack"
  | fullstack_to_code_review => "fullstack_to_code_review"
  | code_review_to_qa => "code_review_to_qa"
  | qa_to_done => "qa_to_done"
  end +:+ "' cannot advance current stage '" +:+ stage_name stage +:+ "'.".

(** [targetStage === "full_done" ? "complete" : "running"]. *)
Definition status_at (stage : WorkflowStage) : FullStatus :=
  if decide (stage = full_done) then full_complete else full_running.

Definition advanceFullWorkflow (pid : string) (gid : FullWorkflowApprovalGateId)
    (decision : GateDecision) (reason : option string) : M World FullWorkflowState :=
  st ← readState pid;
  match find_gate gid with
  | None => throw "Unknown full workflow gate."
  | Some gate =>
    if decide (gate_from gate ≠ fw_currentStage st)
    then throw (gate_error gid (fw_currentStage st)) else
    timestamp ← nowIso;
    let st := set_approvals
      (fw_approvals st ++ [mkApproval gid decision reason timestamp]) st in
    if decide (decision = reject) then
      let st := set_updated timestamp (set_fstatus full_blocked st) in
      st ← recordAudit st full_gate_rejected (fw_currentOwner st) (fw_currentStage st);
      _ ← writeState st;
      mret st
    else
      let to_ := gate_to gate in
      let st := set_updated timestamp
        (set_position to_ (ownerForStage to_) (status_at to_) st) in
      st ← recordAudit st full_gate_approved (fw_currentOwner st) to_;
      st ← (if decide (to_ = full_done) then mret st
            else runRoleTask st (fw_currentOwner st) to_);
      _ ← persistParentSession st;
      _ ← writeState st;
      mret st
  end.

Definition rerouteFullWorkflow (pid finding : string) (targetStage : WorkflowStage) :
    M World FullWorkflowState :=
  st ← readState pid;
  if decide (targetStage ∉ FULL_WORKFLOW_STAGES)
  then throw ("Unknown full workflow stage '" +:+ stage_name targetStage +:+ "'.") else
  timestamp ← nowIso;
  id ← createId "reroute";
  let st := set_reroutes
    (fw_rerouteIssues st ++ [mkReroute id finding targetStage timestamp]) st in
  let st := set_updated timestamp
    (set_position targetStage (ownerForStage targetStage) (status_at targetStage) st) in
  st ← recordAudit st full_rerouted (fw_currentOwner st) targetStage;
  _ ← persistParentSession st;
  _ ← writeState st;
  mret st.

Definition blockFullWorkflow (pid reason : string) : M World FullWorkflowState :=
  st ← readState pid;
  timestamp ← nowIso;
  id ← createId "reroute";
  let st := set_reroutes
    (fw_rerouteIssues st ++ [mkReroute id reason (fw_currentStage st) timestamp])
    (set_fstatus full_blocked st) in
  let st := set_updated timestamp st in
  st ← recordAudit st full_gate_rejected (fw_currentOwner st) (fw_currentStage st);
  _ ← persistParentSession st;
  _ ← writeState st;
  mret st.

(** [role] is [context_scout] or [summarizer] by its type. *)
Definition runFullWorkflowSupportRole (pid : string) (role : FullWorkflowRoleId)
    (stage : option WorkflowStage) : M World FullWorkflowState :=
  st ← readState pid;
  st ← runRoleTask st role (stage or_else fw_currentStage st);
  _ ← writeState st;
  mret st.

Definition closeFullWorkflow (pid : string) : M World FullWorkflowState :=
  st ← readState pid;
  let st := set_position full_done master_orchestrator full_complete st in
  now ← nowIso;
  st ← recordAudit (set_updated now st) full_closed master_orchestrator full_done;
  _ ← persistParentSession st;
  _ ← writeState st;
  mret st.
End full_workflow.

(** ** The invariant of a stored workflow *)

#[global] Instance FullAuditEvent_eq_dec : EqDecision FullAuditEvent.
Proof. solve_decision. Defined.

(** Number of audit records of one kind. *)
Definition audit_count (event : FullAuditEvent) (audit : list FullWorkflowAuditRecord) : nat :=
  length (filter (λ r, au_event r = event) audit).

Definition child_ok (c : FullWorkflowChildSession) : Prop :=
  ch_status c = child_complete ∧
  ∃ k, find_contract (ch_role c) = Some k ∧ ch_permission c = rc_permission k.

(** The artifact that the task of a child leaves behind. *)
Definition artifact_of (c : FullWorkflowChildSession) (a : FullWorkflowArtifact) : Prop :=
  art_role a = ch_role c ∧ art_stage a = ch_stage c ∧ ch_summary c = Some (art_summary a).

Record full_inv (st : FullWorkflowState) : Prop := {
  fi_objective : fw_objective st ≠ "";
  fi_stage : fw_currentStage st ∈ FULL_WORKFLOW_STAGES;
  fi_owner : fw_currentOwner st = ownerForStage (fw_currentStage st);
  fi_complete : fw_status st = full_complete → fw_currentStage st = full_done;
  fi_running : fw_status st = full_running → fw_currentStage st ≠ full_done;
  fi_children : Forall child_ok (fw_childSessions st);
  fi_artifacts : Forall2 artifact_of (fw_childSessions st) (fw_artifacts st);
  fi_started : audit_count full_role_started (fw_audit st) = length (fw_childSessions st);
  fi_finished : audit_count full_role_finished (fw_audit st) = length (fw_childSessions st);
  fi_refs : NoDup (fw_evidenceLedgerRefs st);
}.

(** Every workflow file holds a state that satisfies the invariant, under its
    own id. *)
Definition files_ok (w : World) : Prop :=
  ∀ pid st, w_fullFiles w !! pid = Some st → full_inv st ∧ fw_parentSessionId st = pid.

Definition preserves {A} (m : M World A) : Prop := ∀ w, files_ok w → files_ok (snd (m w)).

Lemma audit_count_snoc event audit r :
  audit_count event (audit ++ [r]) =
  audit_count event audit + (if decide (au_event r = event) then 1 else 0).
Proof.
  unfold audit_count. rewrite filter_app, length_app. f_equal.
  case_decide; [by rewrite filter_cons_True|by rewrite filter_cons_False].
Qed.

Lemma status_at_complete stage : status_at stage = full_complete → stage = full_done.
Proof. unfold status_at. by case_decide. Qed.

Lemma status_at_running stage : status_at stage = full_running → stage ≠ full_done.
Proof. unfold status_at. by case_decide. Qed.

Lemma gate_stages gid gate :
  find_gate gid = Some gate →
  gate_from gate ∈ FULL_WORKFLOW_STAGES ∧ gate_to gate ∈ FULL_WORKFLOW_STAGES ∧
  nextStage (gate_from gate) = Some (gate_to gate).
Proof.
  destruct gid; intros Hg; vm_compute in Hg; injection Hg as <-;
    (split; [by_decision|split; [by_decision|reflexivity]]).
Qed.

(** *** Frames *)

Section frames.
Context `{Env} `{CP : !ContextPlanner}.
Variable root : string.

Lemma keeps_files_insert {R} (T : Table R) r :
  (∀ rows w, w_fullFiles (t_set T rows w) = w_fullFiles w) → keeps w_fullFiles (db_insert T r).
Proof. intros HT w. unfold db_insert. repeat case_match; simpl; auto. Qed.

Lemma keeps_files_upsert {R} (T : Table R) r :
  (∀ rows w, w_fullFiles (t_set T rows w) = w_fullFiles w) → keeps w_fullFiles (db_upsert T r).
Proof. intros HT w. unfold db_upsert. repeat case_match; simpl; auto. Qed.

Lemma keeps_files_createId prefix : keeps w_fullFiles (createId prefix).
Proof. done. Qed.

Lemma keeps_files_nowIso : keeps w_fullFiles nowIso.
Proof. done. Qed.

Lemma keeps_files_inspect query : keeps w_fullFiles (inspectContext root query).
Proof. intros w. destruct (inspectContext_frame root query w) as (t & d & ->). done. Qed.

Lemma keeps_files_roleContract role : keeps w_fullFiles (roleContract role).
Proof. intros w. unfold roleContract. by case_match. Qed.

Lemma keeps_files_event sid ty j t :
  keeps w_fullFiles (SessionRuntimeEventsRepo.save sid ty j t).
Proof.
  apply keeps_bind; [apply keeps_files_createId|intros id].
  apply keeps_bind; [by destruct t|intros c].
  apply keeps_bind; [by apply keeps_files_insert|done].
Qed.

Lemma keeps_files_recordAudit st ev role stage :
  keeps w_fullFiles (recordAudit st ev role stage).
Proof.
  apply keeps_bind; [apply keeps_files_createId|intros id].
  apply keeps_bind; [apply keeps_files_nowIso|intros t].
  apply keeps_bind; [apply keeps_files_event|done].
Qed.

Lemma keeps_files_runRoleTask st role stage :
  keeps w_fullFiles (runRoleTask root st role stage).
Proof.
  apply keeps_bind; [apply keeps_files_roleContract|intros k].
  apply keeps_bind; [apply keeps_files_createId|intros cid].
  apply keeps_bind; [apply keeps_files_recordAudit|intros st1].
  apply keeps_bind.
  { case_decide; [|done]. apply keeps_bind; [apply keeps_files_inspect|done]. }
  intros st2. apply keeps_bind; [apply keeps_files_createId|intros aid].
  apply keeps_bind; [apply keeps_files_nowIso|intros t].
  apply keeps_bind; [apply keeps_files_recordAudit|intros st3].
  apply keeps_bind; [apply keeps_files_nowIso|done].
Qed.

Lemma keeps_files_persist st : keeps w_fullFiles (persistParentSession root st).
Proof. apply keeps_bind; [|intros []]; by apply keeps_files_upsert. Qed.

(** *** Results *)

Lemma recordAudit_returns st ev role stage :
  returns (recordAudit st ev role stage)
    (λ st', ∃ r, au_event r = ev ∧ st' = set_audit (fw_audit st ++ [r]) st).
Proof.
  apply returns_any. intros id. apply returns_any. intros t. apply returns_any. intros e.
  apply returns_ret. eexists. split; [|reflexivity]. done.
Qed.

(** The state after a role task: the task's child and artifact are appended
    and everything that places the workflow is as before. *)
Lemma runRoleTask_returns st role stage :
  full_inv st →
  returns (runRoleTask root st role stage)
    (λ st', full_inv st' ∧ fw_parentSessionId st' = fw_parentSessionId st ∧
       fw_currentStage st' = fw_currentStage st ∧ fw_status st' = fw_status st ∧
       fw_approvals st' = fw_approvals st ∧
       length (fw_childSessions st') = S (length (fw_childSessions st))).
Proof.
  intros Hinv. apply returns_bind with (λ k, find_contract role = Some k).
  { unfold roleContract. case_match; [by apply returns_ret|apply returns_throw]. }
  intros k Hk. apply returns_any. intros cid.
  eapply returns_bind; [apply recordAudit_returns|]. simpl. intros st1 (r1 & Hr1 & ->).
  apply returns_bind with (λ st2, ∃ refs, NoDup refs ∧ st2 = set_refs refs
    (set_audit (fw_audit st ++ [r1]) (set_children (fw_childSessions st ++
       [mkChild cid role stage child_running (rc_permission k) None]) st))).
  { case_decide.
    - apply returns_any. intros ledger. apply returns_ret. eexists.
      split; [|reflexivity]. apply js_dedup_spec.
    - apply returns_ret. exists (fw_evidenceLedgerRefs st). split; [apply Hinv|by destruct st]. }
  intros st2 (refs & Hrefs & ->). apply returns_any. intros aid. apply returns_any. intros t.
  eapply returns_bind; [apply recordAudit_returns|]. simpl. intros st3 (r3 & Hr3 & ->).
  apply returns_any. intros t'. apply returns_ret. destruct Hinv.
  split_and!; try done; [|simpl; rewrite length_app; simpl; lia].
  split; simpl; try done.
  - apply Forall_app. split; [done|]. apply Forall_singleton. split; [done|by exists k].
  - apply Forall2_app; [done|]. constructor; [done|constructor].
  - rewrite !audit_count_snoc, Hr1, Hr3, length_app. simpl. lia.
  - rewrite !audit_count_snoc, Hr1, Hr3, length_app. simpl. lia.
Qed.

(** *** Preservation *)

Lemma preserves_bind {A B} (m : M World A) (k : A → M World B) Q :
  keeps w_fullFiles m → returns m Q → (∀ a, Q a → preserves (k a)) → preserves (m ≫= k).
Proof.
  intros Hk Hr Hp w Hok. unfold mbind, M_bind. specialize (Hk w).
  destruct (m w) as [[a|e] w'] eqn:E; simpl in *.
  - apply Hp; [by eapply Hr|]. unfold files_ok. by rewrite Hk.
  - unfold files_ok. by rewrite Hk.
Qed.

Lemma preserves_then {A B} (m : M World A) (k : A → M World B) :
  keeps w_fullFiles m → (∀ a, preserves (k a)) → preserves (m ≫= k).
Proof. intros Hk Hp. by apply preserves_bind with (λ _, True). Qed.

Lemma preserves_throw {A} e : preserves (throw (A := A) e).
Proof. intros w Hok. exact Hok. Qed.

Lemma preserves_readState {B} pid (k : FullWorkflowState → M World B) :
  (∀ st, full_inv st → preserves (k st)) → preserves (readState pid ≫= k).
Proof.
  intros Hk w Hok. unfold mbind, M_bind, readState.
  destruct (w_fullFiles w !! pid) as [st|] eqn:E; [|done]. apply Hk; [|done].
  by apply (Hok pid).
Qed.

Lemma preserves_write {A} st (a : A) :
  full_inv st → preserves (_ ← writeState st; mret a).
Proof.
  intros Hinv w Hok pid st'. simpl. rewrite lookup_insert. case_decide.
  - intros [= <-]. done.
  - apply Hok.
Qed.

Lemma preserves_persist {A} st (a : A) :
  full_inv st → preserves (_ ← persistParentSession root st; _ ← writeState st; mret a).
Proof.
  intros Hinv. apply preserves_then; [apply keeps_files_persist|intros _].
  by apply preserves_write.
Qed.
End frames.

(** ** Sequences of operations *)

Inductive full_op : Type :=
| op_start (objective : string) (maxWorkers : option nat)
| op_advance (pid : string) (gid : FullWorkflowApprovalGateId) (d : GateDecision)
    (reason : option string)
| op_reroute (pid finding : string) (target : WorkflowStage)
| op_block (pid reason : string)
| op_support (pid : string) (role : FullWorkflowRoleId) (stage : option WorkflowStage)
| op_close (pid : string).

Section reachable.
Context `{Env} `{CP : !ContextPlanner}.
Variable root : string.

Definition run_full (op : full_op) : M World FullWorkflowState :=
  match op with
  | op_start objective n => startFullWorkflow root objective n
  | op_advance pid gid d reason => advanceFullWorkflow root pid gid d reason
  | op_reroute pid finding target => rerouteFullWorkflow root pid finding target
  | op_block pid reason => blockFullWorkflow root pid reason
  | op_support pid role stage => runFullWorkflowSupportRole root pid role stage
  | op_close pid => closeFullWorkflow root pid
  end.

(** The world after a sequence of operations, each of which may have thrown. *)
Definition full_run (ops : list full_op) (w : World) : World :=
  foldl (λ w op, snd (run_full op w)) w ops.

Lemma full_inv_start pid objective t n :
  objective ≠ "" →
  full_inv {| fw_parentSessionId := pid; fw_objective := objective;
              fw_currentStage := full_product; fw_currentOwner := product_lead;
              fw_status := full_running; fw_childSessions := []; fw_approvals := [];
              fw_artifacts := []; fw_rerouteIssues := []; fw_evidenceLedgerRefs := [];
              fw_audit := []; fw_maxReadOnlyWorkers := n; fw_createdAt := t;
              fw_updatedAt := t |}.
Proof. intros Ho. split; simpl; try done; [by_decision|constructor..]. Qed.

(** An audit record that is not about a role task leaves the invariant alone. *)
Lemma full_inv_audit st r :
  full_inv st → au_event r ≠ full_role_started → au_event r ≠ full_role_finished →
  full_inv (set_audit (fw_audit st ++ [r]) st).
Proof.
  intros [] H1 H2. split; simpl; try done;
    rewrite audit_count_snoc, decide_False by done; lia.
Qed.

Lemma full_inv_position st stage t :
  full_inv st → stage ∈ FULL_WORKFLOW_STAGES →
  full_inv (set_updated t (set_position stage (ownerForStage stage) (status_at stage) st)).
Proof.
  intros [] Hs. split; simpl; try done; [apply status_at_complete|apply status_at_running].
Qed.

Lemma full_inv_blocked st t : full_inv st → full_inv (set_updated t (set_fstatus full_blocked st)).
Proof. intros []. split; simpl; done. Qed.

(** Records an audit event of the workflow itself and continues. *)
Lemma preserves_audit {B} st ev role stage (k : FullWorkflowState → M World B) :
  full_inv st → ev ≠ full_role_started → ev ≠ full_role_finished →
  (∀ st', full_inv st' → preserves (k st')) →
  preserves (recordAudit st ev role stage ≫= k).
Proof.
  intros Hinv H1 H2 Hk. eapply preserves_bind.
  - apply keeps_files_recordAudit.
  - apply recordAudit_returns.
  - simpl. intros st' (r & <- & ->). by apply Hk, full_inv_audit.
Qed.

Lemma preserves_task {B} st role stage (k : FullWorkflowState → M World B) :
  full_inv st → (∀ st', full_inv st' → preserves (k st')) →
  preserves (runRoleTask root st role stage ≫= k).
Proof.
  intros Hinv Hk. eapply preserves_bind.
  - apply keeps_files_runRoleTask.
  - by apply runRoleTask_returns.
  - simpl. intros st' (? & _). by apply Hk.
Qed.

Lemma preserves_start objective n : preserves (startFullWorkflow root objective n).
Proof.
  unfold startFullWorkflow. destruct (String.eqb_spec (trim objective) "") as [|Ho]; [apply preserves_throw|].
  apply preserves_then; [apply keeps_files_nowIso|intros t].
  apply preserves_then; [apply keeps_files_createId|intros pid].
  apply preserves_then; [apply keeps_files_persist|intros _].
  apply preserves_audit; [by apply full_inv_start|done|done|intros st1 Hi1].
  apply preserves_task; [done|intros st2 Hi2]. by apply preserves_write.
Qed.

Lemma preserves_advance pid gid d reason : preserves (advanceFullWorkflow root pid gid d reason).
Proof.
  apply preserves_readState. intros st Hst. destruct (find_gate gid) as [gate|] eqn:Eg;
    [|apply preserves_throw].
  destruct (gate_stages _ _ Eg) as (Hf & Ht & _).
  case_decide as Hd; [apply preserves_throw|].
  apply preserves_then; [apply keeps_files_nowIso|intros t]. case_decide.
  - apply preserves_audit; [|done|done|intros st1 Hi1; by apply preserves_write].
    apply full_inv_blocked. by destruct Hst.
  - apply preserves_audit; [|done|done|intros st1 Hi1].
    { apply full_inv_position; [by destruct Hst|done]. }
    case_decide.
    + by apply preserves_persist.
    + apply preserves_task; [done|intros st2 Hi2]. by apply preserves_persist.
Qed.

Lemma preserves_op op : preserves (run_full op).
Proof.
  destruct op as [o n|pid gid d r|pid f target|pid r|pid role stage|pid]; simpl.
  - apply preserves_start.
  - apply preserves_advance.
  - apply preserves_readState. intros st Hst. case_decide as Hd; [apply preserves_throw|].
    apply preserves_then; [apply keeps_files_nowIso|intros t].
    apply preserves_then; [apply keeps_files_createId|intros id].
    apply preserves_audit; [|done|done|intros st1 Hi1; by apply preserves_persist].
    apply full_inv_position; [by destruct Hst|done].
  - apply preserves_readState. intros st Hst.
    apply preserves_then; [apply keeps_files_nowIso|intros t].
    apply preserves_then; [apply keeps_files_createId|intros id].
    apply preserves_audit; [|done|done|intros st1 Hi1; by apply preserves_persist].
    destruct Hst. by split.
  - apply preserves_readState. intros st Hst.
    apply preserves_task; [done|intros st1 Hi1]. by apply preserves_write.
  - apply preserves_readState. intros st Hst.
    apply preserves_then; [apply keeps_files_nowIso|intros t].
    apply preserves_audit; [|done|done|intros st1 Hi1; by apply preserves_persist].
    apply (full_inv_position st full_done t); [done|by_decision].
Qed.

Lemma full_run_ok ops w : files_ok w → files_ok (full_run ops w).
Proof.
  revert w. induction ops as [|op ops IH]; intros w Hw; simpl; [done|].
  by apply IH, preserves_op.
Qed.
End reachable.

(** ** Operations that succeed *)

Section progress.
Context `{EnvLaws} `{CP : !ContextPlanner}.
Variable root : string.

(** The workflow's session is stored and no draw collides with an event. *)
Definition event_ready (pid : string) (w : World) : Prop :=
  has_key sessionId pid (w_sessions w) = true ∧
  draws_fresh ev_id "session-runtime-event" (w_events w) (w_draws w).

(** [w'] differs from [w] at most in events, clock and draws, and is ready. *)
Record audited (pid : string) (w w' : World) : Prop := {
  aw_ready : event_ready pid w → event_ready pid w';
  aw_sessions : w_sessions w' = w_sessions w;
  aw_workflow : w_workflow w' = w_workflow w;
  aw_files : w_fullFiles w' = w_fullFiles w;
}.

Lemma audited_trans pid w1 w2 w3 : audited pid w1 w2 → audited pid w2 w3 → audited pid w1 w3.
Proof. intros [] []. split; [auto|congruence..]. Qed.

Lemma audited_ticks pid t d w :
  w_draws w ≤ d → audited pid w (set_ticks t (set_draws d w)).
Proof.
  intros Hle. split; try done. intros [Hs Hf]. split; [done|].
  by eapply draws_fresh_weaken.
Qed.

Lemma recordAudit_ok st ev role stage w :
  event_ready (fw_parentSessionId st) w →
  ∃ r w', recordAudit st ev role stage w = (Ret (set_audit (fw_audit st ++ [r]) st), w') ∧
    au_event r = ev ∧ audited (fw_parentSessionId st) w w'.
Proof using Type*.
  intros [Hs Hf].
  assert (has_key ev_id (draw_id "session-runtime-event" (S (w_draws w))) (w_events w) = false)
    as He by (apply Hf; lia).
  eexists _, _. split; [unfold recordAudit; exec; reflexivity|]. split; [done|].
  split; try done. intros _. split; [done|]. simpl.
  eapply draws_fresh_snoc; [done|lia|]. exists (S (w_draws w)). split; [lia|done].
Qed.

Lemma runRoleTask_ok st role stage w :
  event_ready (fw_parentSessionId st) w → role ≠ context_scout →
  ∃ st' w', runRoleTask root st role stage w = (Ret st', w') ∧
    audited (fw_parentSessionId st) w w'.
Proof using Type*.
  intros Hr Hne.
  assert (∃ k, find_contract role = Some k) as [k Hk]
    by (destruct role; by eexists).
  set (w1 := set_draws (S (w_draws w)) w).
  assert (audited (fw_parentSessionId st) w w1) as A1.
  { split; try done. intros [Hs Hf]. split; [done|]. eapply draws_fresh_weaken; [done|].
    simpl. lia. }
  set (child := mkChild (draw_id "child-session" (w_draws w)) role stage child_running
                  (rc_permission k) None).
  destruct (recordAudit_ok (set_children (fw_childSessions st ++ [child]) st)
              full_role_started role stage w1) as (r1 & w2 & E1 & _ & A2).
  { by apply A1. }
  simpl in E1, A2.
  assert (roleContract role w = (Ret k, w)) as E0 by (unfold roleContract; by rewrite Hk).
  unfold runRoleTask. do 2 run_step. fold w1. fold child. run_step.
  rewrite decide_False by done. do 3 run_step.
  match goal with |- context [mbind _ (recordAudit ?s full_role_finished role stage) ?w3] =>
    set (st3 := s); set (w3' := w3) end.
  assert (audited (fw_parentSessionId st) w2 w3') as A3.
  { split; try done. intros [Hs Hf]. split; [done|]. eapply draws_fresh_weaken; [done|].
    simpl. lia. }
  destruct (recordAudit_ok st3 full_role_finished role stage w3') as (r3 & w4 & E3 & _ & A4).
  { apply A3, A2, A1, Hr. }
  run_step. run_step. eexists _, _. split; [reflexivity|]. simpl in A4.
  eapply audited_trans; [exact A1|]. eapply audited_trans; [exact A2|].
  eapply audited_trans; [exact A3|]. eapply audited_trans; [exact A4|].
  split; try done.
Qed.

(** File, sessions row and workflow row all show the state. *)
Record persisted (st : FullWorkflowState) (w : World) : Prop := {
  pw_file : w_fullFiles w !! fw_parentSessionId st = Some st;
  pw_session : find_row sessionId (fw_parentSessionId st) (w_sessions w)
               = Some (parent_session root st);
  pw_workflow : find_row fst (fw_parentSessionId st) (w_workflow w)
                = Some (fw_parentSessionId st, parent_workflow st);
}.

Lemma persist_and_write st w :
  event_ready (fw_parentSessionId st) w →
  ∃ w', (_ ← persistParentSession root st; _ ← writeState st; mret st) w = (Ret st, w') ∧
    persisted st w' ∧ event_ready (fw_parentSessionId st) w'.
Proof.
  intros [Hs Hf].
  assert (has_key sessionId (fw_parentSessionId st)
            (upsert_row sessionId (parent_session root st) (w_sessions w)) = true) as Hk
    by apply (upsert_keys sessionId (parent_session root st)).
  eexists. split.
  { unfold persistParentSession, writeState. exec. reflexivity. }
  split; [split|split]; simpl; try done.
  - apply lookup_insert_eq.
  - apply (find_upsert_eq sessionId (parent_session root st)).
  - apply (find_upsert_eq fst (fw_parentSessionId st, parent_workflow st)).
Qed.

Lemma approve_ok pid gid gate st reason w :
  w_fullFiles w !! pid = Some st → full_inv st → fw_parentSessionId st = pid →
  event_ready pid w → find_gate gid = Some gate → gate_from gate = fw_currentStage st →
  ∃ st' w', advanceFullWorkflow root pid gid approve reason w = (Ret st', w') ∧
    fw_currentStage st' = gate_to gate ∧ fw_status st' = status_at (gate_to gate) ∧
    fw_parentSessionId st' = pid ∧ full_inv st' ∧ persisted st' w' ∧ event_ready pid w'.
Proof using Type*.
  intros Hfile Hinv Hpid Hr Hg Hfrom. subst pid.
  destruct (gate_stages _ _ Hg) as (_ & Hto & _).
  assert (readState (fw_parentSessionId st) w = (Ret st, w)) as E0
    by (unfold readState; by rewrite Hfile).
  unfold advanceFullWorkflow. run_step. rewrite Hg, decide_False by (rewrite Hfrom; tauto).
  run_step. rewrite decide_False by done.
  match goal with |- context [mbind _ (recordAudit ?s full_gate_approved _ _) ?w1] =>
    set (st1 := s); set (w1' := w1) end.
  assert (full_inv st1) as Hinv1.
  { apply full_inv_position; [by destruct Hinv|done]. }
  destruct (recordAudit_ok st1 full_gate_approved (fw_currentOwner st1) (gate_to gate) w1')
    as (r & w2 & E1 & Hev & A1).
  { destruct Hr as [Hs Hf]. by split. }
  assert (full_inv (set_audit (fw_audit st1 ++ [r]) st1)) as Hinv2
    by (apply full_inv_audit; [done|congruence..]).
  assert (event_ready (fw_parentSessionId st) w2) as Hr2
    by (apply A1; destruct Hr as [Hs Hf]; by split).
  run_step.
  case_decide as Hd.
  - run_step. destruct (persist_and_write (set_audit (fw_audit st1 ++ [r]) st1) w2 Hr2)
      as (w3 & E2 & Hp & Hr3).
    eexists _, w3. split; [exact E2|]. by split_and!.
  - destruct (runRoleTask_ok (set_audit (fw_audit st1 ++ [r]) st1) (ownerForStage (gate_to gate))
      (gate_to gate) w2 Hr2) as (st3 & w3 & E2 & A2).
    { destruct gid; vm_compute in Hg; injection Hg as <-; done. }
    destruct (runRoleTask_returns root _ _ _ Hinv2 _ _ _ E2) as (Hinv3 & Hid & Hst & Hss & _).
    simpl in E2, A2, Hid, Hst, Hss.
    run_step. destruct (persist_and_write st3 w3) as (w4 & E3 & Hp & Hr3).
    { rewrite Hid. by apply A2. }
    eexists _, w4. split; [exact E3|]. rewrite Hid in Hr3. by split_and!.
Qed.
End progress.

(** Approves the gates one after the other. *)
Fixpoint approve_all `{Env} `{!ContextPlanner} (root pid : string)
    (gids : list FullWorkflowApprovalGateId) (st : FullWorkflowState) :
    M World FullWorkflowState :=
  match gids with
  | [] => mret st
  | gid :: gids =>
    st ← advanceFullWorkflow root pid gid approve None; approve_all root pid gids st
  end.

(** One approval of [approve_all], from the facts about the state before it. *)
Ltac approve_step gid :=
  match goal with
  | Hfile : w_fullFiles _ !! ?pid = Some ?st, Hinv : full_inv ?st,
    Hpid : fw_parentSessionId ?st = ?pid, Hr : event_ready ?pid _,
    Hst : fw_currentStage ?st = _ |- context [advanceFullWorkflow ?root] =>
    let st1 := fresh "st" in let w1 := fresh "w" in let E := fresh "E" in
    let Hp := fresh "Hp" in let Hpid1 := fresh "Hpid" in let Hfile1 := fresh "Hfile" in
    edestruct (approve_ok root pid gid) as (st1 & w1 & E & ? & ? & Hpid1 & ? & Hp & ?);
      [exact Hfile|exact Hinv|exact Hpid|exact Hr|reflexivity|by rewrite Hst|];
    pose proof (pw_file _ _ _ Hp) as Hfile1; rewrite Hpid1 in Hfile1;
    run_step; clear E Hfile Hinv Hpid Hr Hst; simpl in *
  end.

(** ** Properties *)

(** C1 Every stored full workflow is well formed after every sequence of starts,
    approvals, rejections, reroutes, blocks, support-role runs and closes, in
    any order and whether or not each of them throws: the stage is one of the
    seven, the owner is the stage's owner, [complete] means [full_done] and
    [running] means not yet, every child session is complete with its role's
    permission and its artifact, the audit trail has one start and one finish
    per child, and no evidence reference is repeated. *)
Theorem full_workflow_invariant `{Env} `{!ContextPlanner} root ops w :
  files_ok w → files_ok (full_run root ops w).
Proof. apply full_run_ok. Qed.

(** There is a single write owner: in whatever state the operations leave a
    workflow, a child session that may write belongs to [fullstack_agent] and
    one with a shell to [qa_agent]. *)
Theorem single_write_owner `{Env} `{!ContextPlanner} root ops w pid st c :
  files_ok w → w_fullFiles (full_run root ops w) !! pid = Some st → c ∈ fw_childSessions st →
  (ch_permission c = perm_write_with_permission → ch_role c = fullstack_agent) ∧
  (ch_permission c = perm_bounded_shell → ch_role c = qa_agent).
Proof.
  intros Hw Hst Hc. destruct (full_run_ok root ops w Hw pid st Hst) as [Hinv _].
  destruct (proj1 (Forall_forall _ _) (fi_children _ Hinv) c Hc) as (_ & k & Hk & ->).
  destruct (ch_role c); vm_compute in Hk; injection Hk as <-; done.
Qed.

(** An approval at the matching gate always goes through: the workflow moves
    to the gate's target stage under its owner, the role task of that stage is
    run, and file, sessions row and workflow row agree on the new state. *)
Theorem approval_advances `{EnvLaws} `{!ContextPlanner} root pid gid gate st reason w :
  files_ok w → w_fullFiles w !! pid = Some st → event_ready pid w →
  find_gate gid = Some gate → gate_from gate = fw_currentStage st →
  ∃ st' w', advanceFullWorkflow root pid gid approve reason w = (Ret st', w') ∧
    fw_currentStage st' = gate_to gate ∧ fw_status st' = status_at (gate_to gate) ∧
    full_inv st' ∧ persisted root st' w'.
Proof.
  intros Hw Hfile Hr Hg Hf. destruct (Hw _ _ Hfile) as [Hinv Hpid].
  destruct (approve_ok root pid gid gate st reason w Hfile Hinv Hpid Hr Hg Hf)
    as (st' & w' & ? & ? & ? & _ & ? & ? & _).
  by exists st', w'.
Qed.

(** C9 A workflow at [full_product] is delivered by approving the five gates in
    order: every call returns, and the workflow ends [complete] at
    [full_done]. *)
Theorem full_delivery_completes `{EnvLaws} `{!ContextPlanner} root pid st w :
  files_ok w → w_fullFiles w !! pid = Some st → event_ready pid w →
  fw_currentStage st = full_product →
  ∃ st' w', approve_all root pid [product_to_solution; solution_to_fullstack;
      fullstack_to_code_review; code_review_to_qa; qa_to_done] st w = (Ret st', w') ∧
    fw_currentStage st' = full_done ∧ fw_status st' = full_complete ∧ persisted root st' w'.
Proof.
  intros Hw Hfile Hr Hst. destruct (Hw _ _ Hfile) as [Hinv Hpid]. clear Hw.
  unfold approve_all.
  approve_step product_to_solution. approve_step solution_to_fullstack.
  approve_step fullstack_to_code_review. approve_step code_review_to_qa.
  approve_step qa_to_done.
  eexists _, _. split; [reflexivity|]. done.
Qed.

(** A gate only opens from its own stage: any decision at another gate throws
    and changes nothing.  No gate leaves [full_intake] or [full_done], so a
    workflow rerouted there can only be rerouted again, blocked or closed. *)
Theorem gate_guards_stage `{Env} `{!ContextPlanner} root pid gid d reason st w :
  w_fullFiles w !! pid = Some st →
  (∀ gate, find_gate gid = Some gate → gate_from gate ≠ fw_currentStage st)
  ∨ fw_currentStage st = full_intake ∨ fw_currentStage st = full_done →
  advanceFullWorkflow root pid gid d reason w
  = (Throw (gate_error gid (fw_currentStage st)), w).
Proof.
  intros Hfile Hcase.
  assert (readState pid w = (Ret st, w)) as E by (unfold readState; by rewrite Hfile).
  unfold advanceFullWorkflow. run_step.
  destruct (find_gate gid) as [gate|] eqn:Hg; [|by destruct gid].
  rewrite decide_True; [done|]. destruct Hcase as [Hc|Hc]; [by apply Hc|].
  destruct gid; vm_compute in Hg; injection Hg as <-; simpl; destruct Hc; congruence.
Qed.

(** A rejected gate is recorded in the workflow file only: the file says
    [blocked], while the sessions row and the workflow row keep showing the
    state from before, because the rejecting branch returns without
    [persistParentSession]. *)
Theorem rejection_not_persisted `{EnvLaws} `{!ContextPlanner} root pid gid gate st reason w :
  w_fullFiles w !! pid = Some st → fw_parentSessionId st = pid → event_ready pid w →
  find_gate gid = Some gate → gate_from gate = fw_currentStage st →
  ∃ st' w', advanceFullWorkflow root pid gid reject reason w = (Ret st', w') ∧
    fw_status st' = full_blocked ∧ w_fullFiles w' !! pid = Some st' ∧
    w_sessions w' = w_sessions w ∧ w_workflow w' = w_workflow w.
Proof.
  intros Hfile Hpid Hr Hg Hf. subst pid.
  assert (readState (fw_parentSessionId st) w = (Ret st, w)) as E0
    by (unfold readState; by rewrite Hfile).
  unfold advanceFullWorkflow. run_step. rewrite Hg, decide_False by (rewrite Hf; tauto).
  run_step. rewrite decide_True by done.
  match goal with |- context [mbind _ (recordAudit ?s full_gate_rejected _ _) ?w1] =>
    set (st1 := s); set (w1' := w1) end.
  destruct (recordAudit_ok st1 full_gate_rejected (fw_currentOwner st1) (fw_currentStage st1) w1')
    as (r & w2 & E1 & Hev & A1).
  { destruct Hr as [Hs Hfr]. by split. }
  run_step. run_step. eexists _, _. split; [reflexivity|]. simpl.
  split_and!; [done|apply lookup_insert_eq|apply A1|apply A1].
Qed.

(** ** Witnesses *)

#[global] Instance demo_planner : ContextPlanner.
Proof.
  refine {| inspectContext := λ _ _ w, (Ret "context-ledger-1", w) |}.
  intros root query w. exists (w_ticks w), (w_draws w). by destruct w.
Defined.

Local Abbreviation started_world :=
  (full_run "/repo" [op_start " ship the feature " None] empty_world).

Definition started_id : string := "session-T".

Definition started_state : FullWorkflowState :=
  match w_fullFiles started_world !! started_id with
  | Some st => st
  | None => mkFull "" "" full_done master_orchestrator full_blocked [] [] [] [] [] [] 0 "" ""
  end.

Lemma empty_files_ok : files_ok empty_world.
Proof. intros pid st Hl. discriminate Hl. Qed.

Lemma started_files_ok : files_ok started_world.
Proof. apply full_run_ok, empty_files_ok. Qed.

Lemma started_file : w_fullFiles started_world !! started_id = Some started_state.
Proof. vm_compute. reflexivity. Qed.

Lemma started_ready : event_ready started_id started_world.
Proof.
  split; [vm_compute; reflexivity|].
  apply draws_fresh_drawn with [2; 5; 8]; [vm_compute; reflexivity|].
  assert (w_draws started_world = 9) as -> by (vm_compute; reflexivity).
  repeat constructor; lia.
Qed.

Lemma full_workflow_invariant_witness :
  files_ok (full_run "/repo"
    [op_start "ship" None; op_advance started_id product_to_solution approve None;
     op_reroute started_id "rework" full_intake; op_close started_id] empty_world).
Proof. apply full_workflow_invariant, empty_files_ok. Defined.

Lemma single_write_owner_witness :
  fw_childSessions started_state ≠ [] ∧
  Forall (λ c, (ch_permission c = perm_write_with_permission → ch_role c = fullstack_agent) ∧
               (ch_permission c = perm_bounded_shell → ch_role c = qa_agent))
    (fw_childSessions started_state).
Proof.
  split; [vm_compute; discriminate|]. apply Forall_forall. intros c Hc.
  exact (single_write_owner "/repo" [op_start " ship the feature " None] empty_world
           started_id started_state c empty_files_ok started_file Hc).
Defined.

Lemma approval_advances_witness :
  ∃ st' w', advanceFullWorkflow "/repo" started_id product_to_solution approve None started_world
            = (Ret st', w') ∧
    fw_currentStage st' = full_solution ∧ fw_status st' = full_running ∧
    full_inv st' ∧ persisted "/repo" st' w'.
Proof.
  apply (approval_advances "/repo" started_id product_to_solution
           (mkGate product_to_solution full_product full_solution) started_state);
    [apply started_files_ok|apply started_file|apply started_ready|reflexivity|
     vm_compute; reflexivity].
Defined.

Lemma full_delivery_completes_witness :
  ∃ st' w', approve_all "/repo" started_id [product_to_solution; solution_to_fullstack;
      fullstack_to_code_review; code_review_to_qa; qa_to_done] started_state started_world
      = (Ret st', w') ∧
    fw_currentStage st' = full_done ∧ fw_status st' = full_complete ∧ persisted "/repo" st' w'.
Proof.
  apply (full_delivery_completes "/repo" started_id started_state started_world);
    [apply started_files_ok|apply started_file|apply started_ready|vm_compute; reflexivity].
Defined.

Lemma gate_guards_stage_witness :
  advanceFullWorkflow "/repo" started_id qa_to_done approve None started_world
  = (Throw (gate_error qa_to_done full_product), started_world).
Proof.
  apply (gate_guards_stage "/repo" started_id qa_to_done approve None started_state started_world).
  - apply started_file.
  - left. intros gate Hg. vm_compute in Hg. injection Hg as <-. vm_compute. discriminate.
Defined.

Lemma rejection_not_persisted_witness :
  ∃ st' w', advanceFullWorkflow "/repo" started_id product_to_solution reject (Some "no")
              started_world = (Ret st', w') ∧
    fw_status st' = full_blocked ∧ w_fullFiles w' !! started_id = Some st' ∧
    w_sessions w' = w_sessions started_world ∧ w_workflow w' = w_workflow started_world.
Proof.
  apply (rejection_not_persisted "/repo" started_id product_to_solution
           (mkGate product_to_solution full_product full_solution) started_state);
    [apply started_file|vm_compute; reflexivity|apply started_ready|reflexivity|
     vm_compute; reflexivity].
Defined.
