(* ===== verification/SessionAdmin.v ===== *)
(** * Querying, resuming, deleting and forking sessions

    [packages/runtime/src/session/session-query.ts], [session-resume.ts],
    [session-delete.ts], [session-fork.ts] and
    [packages/opencode-app/src/lane/enforce-lane-lock.ts]. *)

From S2P Require Import Prelude Json Domain Store Repos.
From Stdlib Require Import Ascii String.
From stdpp Require Import prelude list strings gmap.
Set Default Proof Using "Type".
Set Warnings "-clear-no-such-hyp".

(** How many rows of each child table an operation touched. *)
Record ChildCounts : Type := mkCounts {
  n_runtimeEvents : nat;
  n_summaries : nat;
  n_checkpoints : nat;
  n_reverts : nat;
}.

(** ** Queries *)

Definition listSessions (limit : option nat) : M World (list SessionState) :=
  SessionsRepo.list (Some (limit or_else 20)).

Record SessionShowReport : Type := mkShow {
  show_session : SessionState;
  show_latestSummary : option SessionSummaryRecord;
  show_counts : ChildCounts;
}.

Definition showSession (sid : string) : M World SessionShowReport :=
  session ← SessionsRepo.findById sid;
  match session with
  | None => throw (session_error sid)
  | Some s =>
    runtimeEvents ← SessionRuntimeEventsRepo.listBySession sid;
    summaries ← SessionSummaryRepo.listBySession sid;
    checkpoints ← SessionCheckpointsRepo.listBySession sid;
    reverts ← SessionRevertRepo.listBySession sid;
    mret (mkShow s (head summaries)
      (mkCounts (length runtimeEvents) (length summaries) (length checkpoints) (length reverts)))
  end.

(** ** Resuming *)

Definition lane_lock_error (current requested : WorkflowLane) : string :=
  "Lane is locked to '" +:+ lane_name current +:+ "', cannot switch to '" +:+
  lane_name requested +:+ "' without explicit user command.".

Definition enforceLaneLock (currentLane requestedLane : WorkflowLane) : M World () :=
  if decide (currentLane = requestedLane) then mret ()
  else throw (lane_lock_error currentLane requestedLane).

(** The result is [(ok, reason)].  A file that is not JSON or has no valid lane
    has no counterpart in the typed session files of the world. *)
Definition resumeSession (sid : string) (requestedLane : WorkflowLane) : M World (bool * string) :=
  record ← SessionStore.read sid;
  match record with
  | None => mret (false, session_error sid)
  | Some r =>
    try_catch
      (_ ← enforceLaneLock (lane (ps_session r)) requestedLane;
       mret (true, "Resumed session '" +:+ sid +:+ "' in lane '" +:+ lane_name requestedLane +:+ "'."))
      (λ message, mret (false, message))
  end.

(** ** Deleting *)

Record SessionDeleteReport : Type := mkDeleted {
  del_sessionId : string;
  del_session : nat;
  del_counts : ChildCounts;
}.

Definition deleteSession (sid : string) : M World SessionDeleteReport :=
  session ← SessionsRepo.findById sid;
  match session with
  | None => throw (session_error sid)
  | Some _ =>
    runtimeEvents ← SessionRuntimeEventsRepo.deleteBySession sid;
    summaries ← SessionSummaryRepo.deleteBySession sid;
    reverts ← SessionRevertRepo.deleteBySession sid;
    checkpoints ← SessionCheckpointsRepo.deleteBySession sid;
    session ← SessionsRepo.deleteById sid;
    mret (mkDeleted sid session (mkCounts runtimeEvents summaries checkpoints reverts))
  end.

(** ** Forking *)

Fixpoint rewriteValue (value : json) (source target : string) : json :=
  match value with
  | JStr s => if String.eqb s source then JStr target else JStr s
  | JArr items => JArr ((λ item, rewriteValue item source target) <$> items)
  | JObj members => JObj ((λ m, (m.1, rewriteValue m.2 source target)) <$> members)
  | v => v
  end.

Definition rewriteSessionId (value : json) (source target : string) : json :=
  rewriteValue value source target.

(** [{ ...source, sessionId, status: "in_progress", ... }]. *)
Definition forked_session (s : SessionState) (sid at_ : string) : SessionState :=
  {| sessionId := sid; repoRoot := repoRoot s; lane := lane s;
     currentStage := currentStage s; status := ss_in_progress; createdAt := at_;
     updatedAt := at_; activeWorkItemIds := []; semanticMode := semanticMode s;
     toolEnforcementLevel := toolEnforcementLevel s;
     latestSummaryId := None; latestCheckpointId := None; latestRevertId := None |}.

Definition copy_event (source target id : string) (e : SessionRuntimeEventRecord) :
    SessionRuntimeEventRecord :=
  mkEvent id target (ev_type e) (rewriteSessionId (ev_json e) source target) (ev_createdAt e).

(** [{ ...summary, id, sessionId }]. *)
Definition copy_summary (target id : string) (r : SessionSummaryRecord) : SessionSummaryRecord :=
  mkSummary id target (sum_filesChanged r) (sum_additions r) (sum_deletions r)
    (sum_lastDiffAt r) (sum_latestStage r) (sum_latestCheckpointId r)
    (sum_continuationSummary r) (sum_continuationCreatedAt r) (sum_updatedAt r).

Definition copy_checkpoint (target id : string) (c : SessionCheckpointRecord) :
    SessionCheckpointRecord :=
  mkCheckpoint id target (cp_type c) (cp_lane c) (cp_stage c) (cp_summarySnapshot c)
    (cp_workflowSnapshot c) (cp_continuation c) (cp_metadata c) (cp_createdAt c).

Definition mapped (idMap : gmap string string) (cid : string) : string :=
  (idMap !! cid) or_else cid.

(** A [previousCheckpointId] that is absent or empty becomes [undefined]. *)
Definition copy_revert (idMap : gmap string string) (target id : string)
    (r : SessionRevertRecord) : SessionRevertRecord :=
  mkRevert id target (mapped idMap (rv_checkpointId r))
    (match rv_previousCheckpointId r with
     | Some p => if String.eqb p "" then None else Some (mapped idMap p)
     | None => None
     end) (rv_reason r) (rv_createdAt r).

Definition fork_event (source target : string) (title : option string) : json :=
  JObj [("type", JStr "session.created"); ("sessionId", JStr target);
        ("payload", JObj ([("commandFamily", JStr "session");
                           ("forkedFromSessionId", JStr source)] ++ opt_str "title" title))].

Record SessionForkReport : Type := mkForked {
  fork_source : string;
  fork_sessionId : string;
  fork_copied : ChildCounts;
}.

Section fork.
Context `{Env}.

Definition forkSession (source : string) (title : option string) : M World SessionForkReport :=
  found ← SessionsRepo.findById source;
  match found with
  | None => throw (session_error source)
  | Some s =>
    sid ← createId "session";
    timestamp ← nowIso;
    _ ← SessionsRepo.save (forked_session s sid timestamp);
    runtimeEvents ← SessionRuntimeEventsRepo.listBySession source;
    summaries ← SessionSummaryRepo.listBySession source;
    checkpoints ← SessionCheckpointsRepo.listBySession source;
    reverts ← SessionRevertRepo.listBySession source;
    _ ← for_each (λ e,
          id ← createId "session-runtime-event";
          _ ← SessionRuntimeEventsRepo.saveRecord (copy_event source sid id e); mret ()) runtimeEvents;
    _ ← for_each (λ r,
          id ← createId "session-summary";
          _ ← SessionSummaryRepo.saveRecord (copy_summary sid id r); mret ()) summaries;
    idMap ← fold_each (λ idMap c,
          id ← createId "session-checkpoint";
          let idMap := <[cp_id c := id]> idMap in
          _ ← SessionCheckpointsRepo.saveRecord (copy_checkpoint sid id c); mret idMap)
          (∅ : gmap string string) checkpoints;
    _ ← for_each (λ r,
          id ← createId "session-revert";
          _ ← SessionRevertRepo.saveRecord (copy_revert idMap sid id r); mret ()) reverts;
    _ ← SessionRuntimeEventsRepo.save sid "session.created" (Some (fork_event source sid title))
          (Some timestamp);
    mret (mkForked source sid
      (mkCounts (length runtimeEvents) (length summaries) (length checkpoints) (length reverts)))
  end.
End fork.

(** ** Facts: rows of one session *)

Section filters.
Context {R : Type} (P : R → Prop) `{!∀ r, Decision (P r)}.

Lemma filter_deleted (rows : list R) : filter P (filter (λ r, ¬ P r) rows) = [].
Proof.
  induction rows as [|r rows IH]; [done|]. destruct (decide (P r)).
  - by rewrite (filter_cons_False (λ r, ¬ P r)) by tauto.
  - by rewrite (filter_cons_True (λ r, ¬ P r)), (filter_cons_False P) by done.
Qed.

Lemma filter_kept (Q : R → Prop) `{!∀ r, Decision (Q r)} (rows : list R) :
  (∀ r, Q r → ¬ P r) → filter Q (filter (λ r, ¬ P r) rows) = filter Q rows.
Proof.
  intros HQ. induction rows as [|r rows IH]; [done|]. destruct (decide (P r)).
  - rewrite (filter_cons_False (λ r, ¬ P r)), (filter_cons_False Q) by naive_solver. done.
  - rewrite (filter_cons_True (λ r, ¬ P r)) by done. destruct (decide (Q r)).
    + by rewrite !(filter_cons_True Q), IH.
    + by rewrite !(filter_cons_False Q).
Qed.

End filters.

Lemma has_key_filter {R} (key : R → string) k (rows : list R) :
  has_key key k (filter (λ r, ¬ key r = k) rows) = false.
Proof. apply has_key_false. intros r [? _]%list_elem_of_filter. done. Qed.

Lemma filter_no_key {R} (key : R → string) k (rows : list R) :
  has_key key k rows = false → filter (λ r, key r = k) rows = [].
Proof. rewrite has_key_false. intros Hk. apply filter_none. by rewrite Forall_forall. Qed.

(** The rows of a session in the four child tables that carry its history. *)
Definition events_of (sid : string) (w : World) := filter (λ r, ev_sessionId r = sid) (w_events w).
Definition summaries_of (sid : string) (w : World) := filter (λ r, sum_sessionId r = sid) (w_summaries w).
Definition checkpoints_of (sid : string) (w : World) := filter (λ r, cp_sessionId r = sid) (w_checkpoints w).
Definition reverts_of (sid : string) (w : World) := filter (λ r, rv_sessionId r = sid) (w_reverts w).

Record same_history (sid : string) (w w' : World) : Prop := {
  sh_events : events_of sid w' = events_of sid w;
  sh_summaries : summaries_of sid w' = summaries_of sid w;
  sh_checkpoints : checkpoints_of sid w' = checkpoints_of sid w;
  sh_reverts : reverts_of sid w' = reverts_of sid w;
}.

Definition no_history (sid : string) (w : World) : Prop :=
  events_of sid w = [] ∧ summaries_of sid w = [] ∧ checkpoints_of sid w = [] ∧ reverts_of sid w = [].

(** The session has rows in the tables that [deleteSession] does not clear. *)
Definition pinned (sid : string) (w : World) : bool :=
  has_key fst sid (w_workflow w) || has_key env_sessionId sid (w_envelopes w)
  || has_key wi_sessionId sid (w_workItems w).

(** The world with the history of a session removed. *)
Definition without_history (sid : string) (w : World) : World :=
  set_checkpoints (filter (λ r, ¬ cp_sessionId r = sid) (w_checkpoints w))
    (set_reverts (filter (λ r, ¬ rv_sessionId r = sid) (w_reverts w))
      (set_summaries (filter (λ r, ¬ sum_sessionId r = sid) (w_summaries w))
        (set_events (filter (λ r, ¬ ev_sessionId r = sid) (w_events w)) w))).

Lemma without_history_spec sid w :
  no_history sid (without_history sid w) ∧
  (∀ sid', sid' ≠ sid → same_history sid' w (without_history sid w)) ∧
  session_referenced sid (without_history sid w) = pinned sid w.
Proof.
  split; [|split].
  - split; [|split; [|split]]; apply filter_deleted.
  - intros sid' Hne. split; apply filter_kept; congruence.
  - unfold session_referenced, pinned. simpl. by rewrite !has_key_filter, !orb_false_r.
Qed.

(** What [deleteSession] does once the history rows are gone. *)
Lemma deleteSession_run sid s w :
  find_row sessionId sid (w_sessions w) = Some s →
  deleteSession sid w =
  (n ← SessionsRepo.deleteById sid;
   mret (mkDeleted sid n
     (mkCounts (length (events_of sid w)) (length (summaries_of sid w))
        (length (checkpoints_of sid w)) (length (reverts_of sid w)))))
    (without_history sid w).
Proof.
  intros Hs. unfold deleteSession. repeat (autounfold with dh_ops; simpl). rewrite Hs. simpl.
  reflexivity.
Qed.

(** ** Properties of deletion *)

(** Deleting a stored session that no workflow, envelope or work-item row
    refers to succeeds: the session and its whole history are gone, the counts
    are the numbers of deleted rows, and the session rows and histories of all
    other sessions are as before. *)
Theorem delete_erases_session sid s w :
  find_row sessionId sid (w_sessions w) = Some s →
  w_fk w && pinned sid w = false →
  ∃ w' n, deleteSession sid w = (Ret (mkDeleted sid n
      (mkCounts (length (events_of sid w)) (length (summaries_of sid w))
         (length (checkpoints_of sid w)) (length (reverts_of sid w)))), w') ∧
    find_row sessionId sid (w_sessions w') = None ∧ no_history sid w' ∧
    ∀ sid', sid' ≠ sid → same_history sid' w w' ∧
      find_row sessionId sid' (w_sessions w') = find_row sessionId sid' (w_sessions w).
Proof.
  intros Hs Hp. rewrite (deleteSession_run _ _ _ Hs).
  destruct (without_history_spec sid w) as (Hno & Hsame & Href).
  unfold SessionsRepo.deleteById, mbind, M_bind. rewrite Href. simpl.
  rewrite <- andb_assoc, (andb_comm (has_key _ _ _)), andb_assoc, Hp. simpl.
  eexists _, _. split; [reflexivity|]. split; [|split; [done|]].
  - unfold find_row. simpl. by rewrite filter_deleted.
  - intros sid' Hne. split; [by destruct (Hsame sid' Hne)|]. unfold find_row. simpl.
    rewrite filter_kept; [done|]. congruence.
Qed.

(** With foreign keys enforced, deleting a session that has a workflow,
    envelope or work-item row fails half way: [deleteSession] throws the
    constraint error after the history was deleted, and the session itself
    stays.  Every session that [SessionManager] creates has such rows. *)
Theorem delete_of_live_session_fails sid s w :
  find_row sessionId sid (w_sessions w) = Some s →
  w_fk w = true → pinned sid w = true →
  ∃ w', deleteSession sid w = (Throw FK_ERROR, w') ∧
    find_row sessionId sid (w_sessions w') = Some s ∧ no_history sid w'.
Proof.
  intros Hs Hfk Hp. rewrite (deleteSession_run _ _ _ Hs).
  destruct (without_history_spec sid w) as (Hno & _ & Href).
  exists (without_history sid w). split; [|done].
  unfold SessionsRepo.deleteById, mbind, M_bind. rewrite Href, Hp. simpl.
  by rewrite Hfk, (find_row_has_key _ _ _ _ Hs).
Qed.

(** ** Facts: rewriting and copying *)

(** No value of the rewritten document is the source id, nothing else changes. *)
Lemma rewriteValue_strings value source target :
  json_strings (rewriteValue value source target) =
  (λ s, if String.eqb s source then target else s) <$> json_strings value.
Proof.
  induction value as [| | |s|items IH|members IH] using json_nested_ind; simpl; try done.
  - by case_match.
  - induction IH as [|v vs Hv _ IHvs]; csimpl; [done|]. rewrite fmap_app. f_equal; [exact Hv|exact IHvs].
  - induction IH as [|[k v] vs Hv _ IHvs]; csimpl; [done|]. rewrite fmap_app. f_equal; [exact Hv|exact IHvs].
Qed.

Lemma rewriteValue_no_source value source target :
  source ≠ target → source ∉ json_strings (rewriteValue value source target).
Proof.
  intros Hne. rewrite rewriteValue_strings, list_elem_of_fmap. intros (s & Hs & _).
  destruct (String.eqb_spec s source); congruence.
Qed.

Section copies.
Context {A R B : Type} (prefix : string) (mk : string → A → R) (upd : B → A → string → B).
Context `{Env}.

(** The rows that a copying loop writes when its first draw is the [n]-th, and
    the local variable it ends with. *)
Fixpoint copies (n : nat) (xs : list A) : list R :=
  match xs with [] => [] | x :: xs => mk (draw_id prefix n) x :: copies (S n) xs end.

Fixpoint folded (n : nat) (b : B) (xs : list A) : B :=
  match xs with [] => b | x :: xs => folded (S n) (upd b x (draw_id prefix n)) xs end.

Lemma length_copies n xs : length (copies n xs) = length xs.
Proof. revert n. induction xs as [|x xs IH]; intros n; simpl; [done|]. by rewrite IH. Qed.

Lemma Forall_copies (P : R → Prop) n xs : (∀ id x, P (mk id x)) → Forall P (copies n xs).
Proof. intros HP. revert n. induction xs as [|x xs IH]; intros n; constructor; auto. Qed.

Lemma elem_of_copies n xs r : r ∈ copies n xs → ∃ id x, x ∈ xs ∧ r = mk id x.
Proof.
  revert n. induction xs as [|x xs IH]; intros n; simpl; [by intros ?%elem_of_nil|].
  intros [->|Hr]%elem_of_cons.
  - eexists _, x. split; [apply elem_of_cons; by left|done].
  - destruct (IH _ Hr) as (id & y & Hy & ->). exists id, y. split; [by apply elem_of_cons; right|done].
Qed.

Lemma copied_elem n xs x : x ∈ xs → ∃ id, mk id x ∈ copies n xs.
Proof.
  revert n. induction xs as [|y xs IH]; intros n; simpl; [by intros ?%elem_of_nil|].
  intros [->|Hx]%elem_of_cons.
  - eexists. apply elem_of_cons. by left.
  - destruct (IH (S n) Hx) as (id & ?). exists id. apply elem_of_cons. by right.
Qed.
End copies.

Lemma for_each_fold {W A} (f : A → M W ()) xs w :
  for_each f xs w = fold_each (λ _ x, f x) () xs w.
Proof.
  revert w. induction xs as [|x xs IH]; intros w; simpl; [done|].
  unfold mbind, M_bind. destruct (f x w) as [[[]|e] w']; [apply IH|done].
Qed.

Section copy_loop.
Context `{EnvLaws} {A R B : Type} (T : Table R) `{!LawfulTable T}.
Context (prefix : string) (mk : string → A → R) (upd : B → A → string → B).
Context (save : R → M World R).
Hypothesis mk_key : ∀ id a, t_key T (mk id a) = id.
Hypothesis save_run : ∀ r w, fk_ok T r w = true →
  save r w = (Ret r, t_set T (upsert_row (t_key T) r (t_rows T w)) w).

Definition copy_step (b : B) (a : A) : M World B :=
  id ← createId prefix; _ ← save (mk id a); mret (upd b a id).

(** A copying loop appends its copies and takes one draw for each. *)
Lemma copy_loop xs b w :
  draws_fresh (t_key T) prefix (t_rows T w) (w_draws w) →
  (∀ id a w', w_fk w' = w_fk w → w_sessions w' = w_sessions w → fk_ok T (mk id a) w' = true) →
  fold_each copy_step b xs w =
  (Ret (folded prefix upd (w_draws w) b xs),
   set_draws (length xs + w_draws w)
     (t_set T (t_rows T w ++ copies prefix mk (w_draws w) xs) w)).
Proof using Type*.
  revert b w. induction xs as [|x xs IH]; intros b w Hf Hfk.
  { simpl. rewrite app_nil_r, t_set_get. by destruct w. }
  cbn [fold_each].
  rewrite (bind_run _ _ w (upd b x (draw_id prefix (w_draws w)))
    (set_draws (S (w_draws w)) (t_set T (t_rows T w ++ [mk (draw_id prefix (w_draws w)) x]) w))).
  - rewrite IH; simpl.
    + rewrite t_rows_draws, t_get_set, t_draws_comm, t_set_set, <- app_assoc, Nat.add_succ_r.
      done.
    + rewrite t_rows_draws, t_get_set. eapply draws_fresh_snoc; [done|lia|].
      exists (w_draws w). split; [lia|]. apply mk_key.
    + intros id a w' Hk Hs. apply Hfk.
      * rewrite Hk. apply t_set_fk.
      * rewrite Hs. apply t_set_sessions.
  - unfold copy_step. erewrite bind_run by reflexivity.
    erewrite bind_run by (apply save_run, Hfk; done).
    rewrite t_rows_draws, t_draws_comm, upsert_fresh; [done|]. rewrite mk_key.
    by apply draws_fresh_now.
Qed.
End copy_loop.

Lemma upsert_run {R} (T : Table R) r w : fk_ok T r w = true →
  db_upsert T r w = (Ret (), t_set T (upsert_row (t_key T) r (t_rows T w)) w).
Proof. intros Hf. unfold db_upsert. by rewrite Hf. Qed.

Lemma insert_run {R} (T : Table R) r w :
  has_key (t_key T) (t_key T r) (t_rows T w) = false → fk_ok T r w = true →
  db_insert T r w = (Ret (), t_set T (t_rows T w ++ [r]) w).
Proof. intros Hk Hf. unfold db_insert. by rewrite Hk, Hf. Qed.

Lemma save_event_run `{Env} r w : fk_ok RUNTIME_EVENTS r w = true →
  SessionRuntimeEventsRepo.saveRecord r w =
  (Ret r, t_set RUNTIME_EVENTS (upsert_row ev_id r (w_events w)) w).
Proof. intros Hf. unfold SessionRuntimeEventsRepo.saveRecord. by erewrite bind_run by by apply upsert_run. Qed.

Lemma save_summary_run `{Env} r w : fk_ok SUMMARIES r w = true →
  SessionSummaryRepo.saveRecord r w =
  (Ret r, t_set SUMMARIES (upsert_row sum_id r (w_summaries w)) w).
Proof.
  intros Hf. unfold SessionSummaryRepo.saveRecord, SessionSummaryRepo.save, or_run.
  do 2 (erewrite bind_run by reflexivity). cbv zeta. destruct r; simpl in *.
  by erewrite bind_run by by apply upsert_run.
Qed.

Lemma save_checkpoint_run `{Env} r w : fk_ok CHECKPOINTS r w = true →
  SessionCheckpointsRepo.saveRecord r w =
  (Ret r, t_set CHECKPOINTS (upsert_row cp_id r (w_checkpoints w)) w).
Proof. intros Hf. unfold SessionCheckpointsRepo.saveRecord. by erewrite bind_run by by apply upsert_run. Qed.

Lemma save_revert_run `{Env} r w : fk_ok REVERTS r w = true →
  SessionRevertRepo.saveRecord r w =
  (Ret r, t_set REVERTS (upsert_row rv_id r (w_reverts w)) w).
Proof. intros Hf. unfold SessionRevertRepo.saveRecord. by erewrite bind_run by by apply upsert_run. Qed.

(** Runs a copying loop of the goal's sequence, with the freshness hypothesis of
    its table. *)
Tactic Notation "run_copies" uconstr(loop) constr(save_run) hyp(Hfresh) :=
  erewrite bind_run;
  [|rewrite ?for_each_fold; eapply loop;
    [done|apply save_run|eapply draws_fresh_weaken; [exact Hfresh|simpl; lia]
    |intros ? ? ? _ Hses; apply fk_ok_stored; intros ? [= <-]; simpl; by rewrite Hses]].

(** Later draws stay fresh for the copies too. *)
Lemma copies_fresh `{EnvLaws} {A R} (key : R → string) prefix (mk : string → A → R) rows n xs :
  (∀ id a, key (mk id a) = id) → draws_fresh key prefix rows n →
  draws_fresh key prefix (rows ++ copies prefix mk n xs) (length xs + n).
Proof.
  intros Hk. revert rows n. induction xs as [|x xs IH]; intros rows n Hf; simpl.
  - by rewrite app_nil_r.
  - rewrite cons_middle, app_assoc, <- Nat.add_succ_r. apply IH.
    eapply draws_fresh_snoc; [done|lia|]. exists n. split; [lia|]. apply Hk.
Qed.

Section fork_facts.
Context `{EnvLaws}.

(** The id of the fork that the next call makes. *)
Definition fork_id (w : World) : string := draw_id "session" (w_draws w).

(** The source is stored, the draws to come collide with no stored id, and no
    row of a child table refers to the id of the fork. *)
Record fork_ready (source : string) (s : SessionState) (w : World) : Prop := {
  fr_source : find_row sessionId source (w_sessions w) = Some s;
  fr_new : has_key sessionId (fork_id w) (w_sessions w) = false;
  fr_events : draws_fresh ev_id "session-runtime-event" (w_events w) (w_draws w);
  fr_summaries : draws_fresh sum_id "session-summary" (w_summaries w) (w_draws w);
  fr_checkpoints : draws_fresh cp_id "session-checkpoint" (w_checkpoints w) (w_draws w);
  fr_reverts : draws_fresh rv_id "session-revert" (w_reverts w) (w_draws w);
  fr_unused : no_history (fork_id w) w;
}.

(** The map from checkpoints of the source to their copies. *)
Definition id_map (n : nat) (cs : list SessionCheckpointRecord) : gmap string string :=
  folded "session-checkpoint" (λ m c id, <[cp_id c := id]> m) n ∅ cs.

(** The rows of the fork: the copies of what the source lists, newest first,
    and the event that records the fork. *)
Record forked_as (source : string) (s : SessionState) (title : option string)
    (w w' : World) : Prop := {
  fa_session : w_sessions w' = w_sessions w ++ [forked_session s (fork_id w) (clock (w_ticks w))];
  fa_events : ∃ n id, w_events w' = w_events w
    ++ copies "session-runtime-event" (copy_event source (fork_id w)) n
         (order_desc ev_createdAt (events_of source w))
    ++ [mkEvent id (fork_id w) "session.created" (fork_event source (fork_id w) title)
          (clock (w_ticks w))];
  fa_summaries : ∃ n, w_summaries w' = w_summaries w
    ++ copies "session-summary" (copy_summary (fork_id w)) n
         (order_desc sum_updatedAt (summaries_of source w));
  fa_links : ∃ n m, w_checkpoints w' = w_checkpoints w
      ++ copies "session-checkpoint" (copy_checkpoint (fork_id w)) n
           (order_desc cp_createdAt (checkpoints_of source w)) ∧
    w_reverts w' = w_reverts w
      ++ copies "session-revert"
           (copy_revert (id_map n (order_desc cp_createdAt (checkpoints_of source w))) (fork_id w)) m
           (order_desc rv_createdAt (reverts_of source w));
}.

Definition history_counts (sid : string) (w : World) : ChildCounts :=
  mkCounts (length (events_of sid w)) (length (summaries_of sid w))
    (length (checkpoints_of sid w)) (length (reverts_of sid w)).

Lemma fork_run source s title w :
  fork_ready source s w →
  ∃ w', forkSession source title w =
    (Ret (mkForked source (fork_id w) (history_counts source w)), w') ∧
    forked_as source s title w w'.
Proof using Type*.
  intros [Hs Hnew He Hsum Hc Hr _]. unfold forkSession.
  erewrite bind_run by reflexivity. simpl. rewrite Hs.
  do 2 (erewrite bind_run by reflexivity).
  erewrite bind_run by (unfold SessionsRepo.save, db_upsert; simpl; rewrite upsert_fresh by exact Hnew; reflexivity).
  do 4 (erewrite bind_run by reflexivity). cbv beta. simpl.
  match goal with |- context [(for_each _ _ ≫= _) ?W] => set (w1 := W) end.
  assert (has_key sessionId (fork_id w) (w_sessions w1) = true) as Hstored.
  { apply has_key_true. eexists. split; [apply elem_of_app; right; apply elem_of_cons; by left|done]. }
  run_copies (copy_loop RUNTIME_EVENTS "session-runtime-event" (copy_event source (fork_id w))
    (λ _ _ _, ()) SessionRuntimeEventsRepo.saveRecord) save_event_run He.
  run_copies (copy_loop SUMMARIES "session-summary" (copy_summary (fork_id w))
    (λ _ _ _, ()) SessionSummaryRepo.saveRecord) save_summary_run Hsum.
  run_copies (copy_loop CHECKPOINTS "session-checkpoint" (copy_checkpoint (fork_id w))
    (λ m c id, <[cp_id c := id]> m) SessionCheckpointsRepo.saveRecord) save_checkpoint_run Hc.
  run_copies (copy_loop REVERTS "session-revert" (copy_revert _ (fork_id w))
    (λ _ _ _, ()) SessionRevertRepo.saveRecord) save_revert_run Hr.
  assert (has_key ev_id (draw_id "session-runtime-event"
      (length (order_desc rv_createdAt (reverts_of source w)) +
       (length (order_desc cp_createdAt (checkpoints_of source w)) +
        (length (order_desc sum_updatedAt (summaries_of source w)) +
         (length (order_desc ev_createdAt (events_of source w)) + S (w_draws w))))))
      (w_events w ++ copies "session-runtime-event" (copy_event source (fork_id w)) (S (w_draws w))
         (order_desc ev_createdAt (events_of source w))) = false) as Hlast.
  { eapply copies_fresh; [done| |rewrite Nat.add_assoc; lia].
    eapply draws_fresh_weaken; [exact He|lia]. }
  eexists. split.
  { erewrite bind_run.
    2:{ unfold SessionRuntimeEventsRepo.save, or_run.
        do 2 (erewrite bind_run by reflexivity). erewrite bind_run; [reflexivity|].
        apply insert_run; [exact Hlast|]. apply fk_ok_stored. intros ? [= <-]. exact Hstored. }
    unfold history_counts. by rewrite !length_order_desc. }
  split; simpl.
  - reflexivity.
  - eexists _, _. rewrite <- app_assoc. reflexivity.
  - eexists. reflexivity.
  - eexists _, _. split; reflexivity.
Qed.

(** The map sends every copied checkpoint to one of the copies. *)
Lemma id_map_lookup target n cs cid :
  cid ∈ cp_id <$> cs →
  ∃ c, c ∈ copies "session-checkpoint" (copy_checkpoint target) n cs ∧
    id_map n cs !! cid = Some (cp_id c).
Proof.
  unfold id_map. generalize (∅ : gmap string string) as m.
  enough (∀ m S, cid ∈ cp_id <$> cs ∨ (∃ c, c ∈ S ∧ m !! cid = Some (cp_id c)) →
    ∃ c, c ∈ S ++ copies "session-checkpoint" (copy_checkpoint target) n cs ∧
      folded "session-checkpoint" (λ m c id, <[cp_id c := id]> m) n m cs !! cid = Some (cp_id c))
    as Hgen by (intros m Hin; apply (Hgen m []); by left).
  revert n. induction cs as [|c cs IH]; intros n m S Hin; simpl.
  - destruct Hin as [[]%elem_of_nil|(c & ? & ?)]. exists c. by rewrite app_nil_r.
  - rewrite cons_middle, app_assoc. apply IH.
    destruct (decide (cp_id c = cid)) as [<-|Hne].
    + right. eexists. split; [apply elem_of_app; right; by apply list_elem_of_singleton|].
      by rewrite lookup_insert_eq.
    + destruct Hin as [[Heq|Hin]%elem_of_cons|(c' & ? & ?)]; [done|by left|right].
      exists c'. rewrite lookup_insert_ne by done. split; [|done]. apply elem_of_app. by left.
Qed.

Lemma fork_id_new source s w : fork_ready source s w → source ≠ fork_id w.
Proof.
  intros Hr ->. destruct Hr as [Hs Hn _ _ _ _ _]. apply find_row_has_key in Hs. congruence.
Qed.

(** The rows of the fork are what the fork appended. *)
Lemma appended_rows {R} (sid : R → string) nid rows new :
  filter (λ r, sid r = nid) rows = [] → Forall (λ r, sid r = nid) new →
  filter (λ r, sid r = nid) (rows ++ new) = new.
Proof. intros Ho Hn. rewrite filter_app, Ho. by apply filter_all. Qed.

Lemma other_rows {R} (sid : R → string) nid other rows new :
  other ≠ nid → Forall (λ r, sid r = nid) new →
  filter (λ r, sid r = other) (rows ++ new) = filter (λ r, sid r = other) rows.
Proof.
  intros Hne Hn. rewrite filter_app, (filter_none _ new), app_nil_r; [done|].
  eapply Forall_impl; [exact Hn|]. simpl. congruence.
Qed.
End fork_facts.

(** ** Properties of forking *)

(** C10 A fork of a stored session succeeds and is isolated: rows and history of
    every other session, the source included, are as before; the fork has the
    source's lane and stage, starts in progress without links, and its history
    is the copy of the source's with every mention of the source's id replaced,
    followed by the one event that records where it was forked from. *)
Theorem fork_copies_and_isolates `{EnvLaws} source s title w :
  fork_ready source s w →
  ∃ w', forkSession source title w =
      (Ret (mkForked source (fork_id w) (history_counts source w)), w') ∧
    forked_as source s title w w' ∧
    (∀ sid, sid ≠ fork_id w → same_history sid w w' ∧
      find_row sessionId sid (w_sessions w') = find_row sessionId sid (w_sessions w)) ∧
    ∃ copied created, events_of (fork_id w) w' = copied ++ [created] ∧
      length copied = length (events_of source w) ∧
      Forall (λ e, source ∉ json_strings (ev_json e)) copied.
Proof.
  intros Hr. destruct (fork_run source s title w Hr) as (w' & Hrun & Hf).
  exists w'. split; [done|]. split; [done|].
  destruct Hf as [Hs (n & id & He) (n2 & Hsum) (n3 & n4 & Hc & Hrv)].
  destruct (fr_unused _ _ _ Hr) as (Ue & _ & _ & _). split.
  - intros sid Hne. split.
    + split; unfold events_of, summaries_of, checkpoints_of, reverts_of;
        rewrite ?He, ?Hsum, ?Hc, ?Hrv; apply other_rows with (fork_id w); auto using Forall_copies.
      apply Forall_app. split; [by apply Forall_copies|by apply Forall_singleton].
    + unfold find_row. rewrite Hs, filter_app, (filter_cons_False _ _ []), filter_nil, app_nil_r;
        [done|]. by apply not_eq_sym.
  - eexists _, _. split; [|split].
    + unfold events_of. rewrite He. apply appended_rows; [exact Ue|].
      apply Forall_app. split; [by apply Forall_copies|by apply Forall_singleton].
    + by rewrite length_copies, length_order_desc.
    + apply Forall_copies. intros eid e. apply rewriteValue_no_source. by eapply fork_id_new.
Qed.

(** The revert history of a fork is closed: when the reverts of the source
    refer to checkpoints of the source, the reverts of the fork refer to
    checkpoints of the fork, for both the target and the previous checkpoint,
    so that [undoRevert] works in the fork without touching the source. *)
Theorem fork_revert_links `{EnvLaws} source s title w :
  fork_ready source s w →
  (∀ r cid, r ∈ reverts_of source w → Some cid = Some (rv_checkpointId r) ∨ Some cid = rv_previousCheckpointId r →
     cid ∈ cp_id <$> checkpoints_of source w) →
  ∃ report w', forkSession source title w = (Ret report, w') ∧
    ∀ r cid, r ∈ reverts_of (fork_id w) w' →
      Some cid = Some (rv_checkpointId r) ∨ Some cid = rv_previousCheckpointId r →
      ∃ c, c ∈ checkpoints_of (fork_id w) w' ∧ cp_id c = cid.
Proof.
  intros Hr Hclosed. destruct (fork_run source s title w Hr) as (w' & Hrun & Hf).
  eexists _, w'. split; [exact Hrun|].
  destruct Hf as [_ _ _ (n & m & Hc & Hrv)]. destruct (fr_unused _ _ _ Hr) as (_ & _ & Uc & Ur).
  unfold reverts_of, checkpoints_of. rewrite Hc, Hrv.
  rewrite (appended_rows cp_sessionId), (appended_rows rv_sessionId) by auto using Forall_copies.
  intros r cid (id & r0 & Hr0 & ->)%elem_of_copies Hcid. rewrite elem_of_order_desc in Hr0.
  set (cs := order_desc cp_createdAt (checkpoints_of source w)).
  assert (∀ k, k ∈ cp_id <$> checkpoints_of source w → mapped (id_map n cs) k = cid →
    ∃ c, c ∈ copies "session-checkpoint" (copy_checkpoint (fork_id w)) n cs ∧ cp_id c = cid) as Hin.
  { intros k Hk <-. destruct (id_map_lookup (fork_id w) n cs k) as (c & ? & Hl).
    - unfold cs. by rewrite order_desc_perm.
    - exists c. split; [done|]. unfold mapped. by rewrite Hl. }
  simpl in Hcid. destruct Hcid as [[= ->]|Hprev].
  - eapply Hin; [|done]. eapply Hclosed; [exact Hr0|by left].
  - destruct (rv_previousCheckpointId r0) as [p|] eqn:Ep; [|done].
    destruct (String.eqb p ""); [done|]. injection Hprev as ->.
    eapply Hin; [|done]. eapply Hclosed; [exact Hr0|by right].
Qed.

(** The copied summaries keep naming checkpoints of the source. *)
Lemma fork_summary_keeps_source_checkpoint `{EnvLaws} source s title w r :
  fork_ready source s w → r ∈ summaries_of source w →
  ∃ report w' r', forkSession source title w = (Ret report, w') ∧
    r' ∈ summaries_of (fork_id w) w' ∧ sum_latestCheckpointId r' = sum_latestCheckpointId r.
Proof.
  intros Hr Hin. destruct (fork_run source s title w Hr) as (w' & Hrun & Hf).
  destruct Hf as [_ _ (n & Hsum) _]. destruct (fr_unused _ _ _ Hr) as (_ & Us & _ & _).
  rewrite <- (elem_of_order_desc sum_updatedAt) in Hin.
  destruct (copied_elem "session-summary" (copy_summary (fork_id w)) n _ _ Hin) as (id & Hc).
  eexists _, w', (copy_summary (fork_id w) id r). split; [exact Hrun|]. split; [|reflexivity].
  unfold summaries_of. rewrite Hsum, (appended_rows sum_sessionId) by auto using Forall_copies.
  exact Hc.
Qed.

(** ** Witnesses *)

Definition admin_session : SessionState :=
  mkSession "session-1" "/repo" delivery delivery_execute ss_in_progress "T" "T" ["item-1"]
    always very_hard (Some "sum-1") (Some "cp-1") (Some "rv-1").

Definition admin_workflow : WorkflowState :=
  {| wf_lane := delivery; wf_stage := delivery_execute; wf_stageStatus := stage_in_progress;
     wf_previousStage := None; wf_nextStage := None; wf_gateStatus := gate_pending;
     wf_blockers := [] |}.

(** A session with an event that names it, a summary, two checkpoints and a
    revert between them. *)
Definition admin_world : World :=
  set_events [mkEvent "ev-1" "session-1" "busy" (JObj [("id", JStr "session-1")]) "T"]
    (set_summaries [mkSummary "sum-1" "session-1" 1 2 3 None None (Some "cp-1") None None "T"]
      (set_checkpoints
         [mkCheckpoint "cp-1" "session-1" post_workflow delivery delivery_execute
            empty_summary_snapshot (Some admin_workflow) (JObj []) (JObj []) "T";
          mkCheckpoint "cp-2" "session-1" post_workflow delivery delivery_execute
            empty_summary_snapshot (Some admin_workflow) (JObj []) (JObj []) "iT"]
        (set_reverts [mkRevert "rv-1" "session-1" "cp-1" (Some "cp-2") "manual" "T"]
          (set_sessions [admin_session] empty_world)))).

Lemma delete_erases_session_witness :
  ∃ w' n, deleteSession "session-1" admin_world =
      (Ret (mkDeleted "session-1" n (mkCounts 1 1 2 1)), w') ∧
    find_row sessionId "session-1" (w_sessions w') = None ∧ no_history "session-1" w' ∧
    ∀ sid', sid' ≠ "session-1" → same_history sid' admin_world w' ∧
      find_row sessionId sid' (w_sessions w') = find_row sessionId sid' (w_sessions admin_world).
Proof. apply (delete_erases_session "session-1" admin_session admin_world); reflexivity. Defined.

Definition live_world : World := set_workflow [("session-1", admin_workflow)] admin_world.

Lemma delete_of_live_session_fails_witness :
  ∃ w', deleteSession "session-1" live_world = (Throw FK_ERROR, w') ∧
    find_row sessionId "session-1" (w_sessions w') = Some admin_session ∧ no_history "session-1" w'.
Proof. apply (delete_of_live_session_fails "session-1" admin_session live_world); reflexivity. Defined.

Lemma admin_fork_ready : fork_ready "session-1" admin_session admin_world.
Proof. split; try reflexivity; try (intros k _; reflexivity). by vm_compute. Qed.

Lemma fork_copies_and_isolates_witness :
  ∃ w', forkSession "session-1" (Some "copy") admin_world =
      (Ret (mkForked "session-1" (fork_id admin_world) (history_counts "session-1" admin_world)), w') ∧
    forked_as "session-1" admin_session (Some "copy") admin_world w' ∧
    (∀ sid, sid ≠ (fork_id admin_world) → same_history sid admin_world w' ∧
      find_row sessionId sid (w_sessions w') = find_row sessionId sid (w_sessions admin_world)) ∧
    ∃ copied created, events_of (fork_id admin_world) w' = copied ++ [created] ∧
      length copied = length (events_of "session-1" admin_world) ∧ Forall (λ e, "session-1" ∉ json_strings (ev_json e)) copied.
Proof.
  apply (fork_copies_and_isolates "session-1" admin_session (Some "copy") admin_world).
  apply admin_fork_ready.
Defined.

Lemma fork_revert_links_witness :
  ∃ report w', forkSession "session-1" None admin_world = (Ret report, w') ∧
    ∀ r cid, r ∈ reverts_of (fork_id admin_world) w' →
      Some cid = Some (rv_checkpointId r) ∨ Some cid = rv_previousCheckpointId r →
      ∃ c, c ∈ checkpoints_of (fork_id admin_world) w' ∧ cp_id c = cid.
Proof.
  apply (fork_revert_links "session-1" admin_session None admin_world admin_fork_ready).
  intros r cid Hr%list_elem_of_singleton. subst r.
  intros [Hc|Hc]; injection Hc as ->; by_decision.
Defined.
