(* ===== verification/SessionTransfer.v ===== *)
(** * Exporting, redacting and importing sessions

    [packages/runtime/src/session/session-export.ts] and [session-import.ts]. *)

From S2P Require Import Prelude Json Domain Store Repos Regex SessionAdmin.
From Stdlib Require Import Ascii String.
From stdpp Require Import prelude list strings gmap pretty.
Set Default Proof Using "Type".
Set Warnings "-clear-no-such-hyp".

(** ** The export document *)

Definition SESSION_EXPORT_SCHEMA_VERSION : nat := 1.

Record SessionExportPayload : Type := mkPayload {
  xp_session : SessionState;
  xp_runtimeEvents : list SessionRuntimeEventRecord;
  xp_summaries : list SessionSummaryRecord;
  xp_checkpoints : list SessionCheckpointRecord;
  xp_reverts : list SessionRevertRecord;
}.

(** [source.product] has the one value ["dh"] and no field here. *)
Record SessionExportDocument : Type := mkDocument {
  xd_schemaVersion : nat;
  xd_exportedAt : string;
  xd_version : string;
  xd_repoRoot : string;
  xd_sanitized : bool;
  xd_payload : SessionExportPayload;
}.

(** *** As JSON, which is what redaction works on *)

Definition jnat (n : nat) : json := JNum (pretty n).

Definition session_status_name (s : SessionStatus) : string :=
  match s with
  | ss_pending => "pending" | ss_in_progress => "in_progress"
  | ss_blocked => "blocked" | ss_complete => "complete"
  end.

Definition semantic_mode_name (m : SemanticMode) : string :=
  match m with always => "always" | auto => "auto" | off => "off" end.

Definition enforcement_name (l : ToolEnforcementLevel) : string :=
  match l with very_hard => "very-hard" end.

Definition stage_status_name (s : StageStatus) : string :=
  match s with
  | stage_pending => "pending" | stage_in_progress => "in_progress"
  | stage_passed => "passed" | stage_failed => "failed" | stage_blocked => "blocked"
  end.

Definition gate_status_name (g : GateStatus) : string :=
  match g with gate_pending => "pending" | gate_pass => "pass" | gate_fail => "fail" end.

Definition checkpoint_type_name (t : CheckpointType) : string :=
  match t with
  | session_bootstrap => "session_bootstrap" | post_workflow => "post_workflow"
  | post_stage_advance => "post_stage_advance" | pre_revert => "pre_revert"
  end.

Definition session_json (s : SessionState) : json :=
  JObj ([("sessionId", JStr (sessionId s)); ("repoRoot", JStr (repoRoot s));
         ("lane", JStr (lane_name (lane s))); ("laneLocked", JBool true);
         ("currentStage", JStr (stage_name (currentStage s)));
         ("status", JStr (session_status_name (status s)));
         ("createdAt", JStr (createdAt s)); ("updatedAt", JStr (updatedAt s));
         ("activeWorkItemIds", JArr (JStr <$> activeWorkItemIds s));
         ("semanticMode", JStr (semantic_mode_name (semanticMode s)));
         ("toolEnforcementLevel", JStr (enforcement_name (toolEnforcementLevel s)))]
        ++ opt_str "latestSummaryId" (latestSummaryId s)
        ++ opt_str "latestCheckpointId" (latestCheckpointId s)
        ++ opt_str "latestRevertId" (latestRevertId s)).

Definition event_json (e : SessionRuntimeEventRecord) : json :=
  JObj [("id", JStr (ev_id e)); ("sessionId", JStr (ev_sessionId e));
        ("eventType", JStr (ev_type e)); ("eventJson", ev_json e);
        ("createdAt", JStr (ev_createdAt e))].

Definition summary_json (r : SessionSummaryRecord) : json :=
  JObj ([("id", JStr (sum_id r)); ("sessionId", JStr (sum_sessionId r));
         ("filesChanged", jnat (sum_filesChanged r)); ("additions", jnat (sum_additions r));
         ("deletions", jnat (sum_deletions r))]
        ++ opt_str "lastDiffAt" (sum_lastDiffAt r)
        ++ opt_str "latestStage" (stage_name <$> sum_latestStage r)
        ++ opt_str "latestCheckpointId" (sum_latestCheckpointId r)
        ++ opt_str "continuationSummary" (sum_continuationSummary r)
        ++ opt_str "continuationCreatedAt" (sum_continuationCreatedAt r)
        ++ [("updatedAt", JStr (sum_updatedAt r))]).

Definition snapshot_json (s : SummarySnapshot) : json :=
  JObj (opt_member "filesChanged" (jnat <$> sn_filesChanged s)
        ++ opt_member "additions" (jnat <$> sn_additions s)
        ++ opt_member "deletions" (jnat <$> sn_deletions s)
        ++ opt_str "lastDiffAt" (sn_lastDiffAt s)
        ++ opt_str "latestStage" (stage_name <$> sn_latestStage s)
        ++ opt_str "latestCheckpointId" (sn_latestCheckpointId s)
        ++ opt_str "continuationSummary" (sn_continuationSummary s)
        ++ opt_str "continuationCreatedAt" (sn_continuationCreatedAt s)).

Definition workflow_json (o : option WorkflowState) : json :=
  match o with
  | None => JObj []
  | Some wf =>
    JObj ([("lane", JStr (lane_name (wf_lane wf))); ("stage", JStr (stage_name (wf_stage wf)));
           ("stageStatus", JStr (stage_status_name (wf_stageStatus wf)))]
          ++ opt_str "previousStage" (stage_name <$> wf_previousStage wf)
          ++ opt_str "nextStage" (stage_name <$> wf_nextStage wf)
          ++ [("gateStatus", JStr (gate_status_name (wf_gateStatus wf)));
              ("blockers", JArr (JStr <$> wf_blockers wf))])
  end.

Definition checkpoint_json (c : SessionCheckpointRecord) : json :=
  JObj [("id", JStr (cp_id c)); ("sessionId", JStr (cp_sessionId c));
        ("checkpointType", JStr (checkpoint_type_name (cp_type c)));
        ("lane", JStr (lane_name (cp_lane c))); ("stage", JStr (stage_name (cp_stage c)));
        ("summarySnapshotJson", snapshot_json (cp_summarySnapshot c));
        ("workflowSnapshotJson", workflow_json (cp_workflowSnapshot c));
        ("continuationJson", cp_continuation c); ("metadataJson", cp_metadata c);
        ("createdAt", JStr (cp_createdAt c))].

Definition revert_json (r : SessionRevertRecord) : json :=
  JObj ([("id", JStr (rv_id r)); ("sessionId", JStr (rv_sessionId r));
         ("checkpointId", JStr (rv_checkpointId r))]
        ++ opt_str "previousCheckpointId" (rv_previousCheckpointId r)
        ++ [("reason", JStr (rv_reason r)); ("createdAt", JStr (rv_createdAt r))]).

Definition document_json (d : SessionExportDocument) : json :=
  JObj [("schemaVersion", jnat (xd_schemaVersion d)); ("exportedAt", JStr (xd_exportedAt d));
        ("source", JObj [("product", JStr "dh"); ("version", JStr (xd_version d));
                         ("repoRoot", JStr (xd_repoRoot d))]);
        ("sanitized", JBool (xd_sanitized d));
        ("payload", JObj [("session", session_json (xp_session (xd_payload d)));
                          ("runtimeEvents", JArr (event_json <$> xp_runtimeEvents (xd_payload d)));
                          ("summaries", JArr (summary_json <$> xp_summaries (xd_payload d)));
                          ("checkpoints", JArr (checkpoint_json <$> xp_checkpoints (xd_payload d)));
                          ("reverts", JArr (revert_json <$> xp_reverts (xd_payload d)))])].

(** ** Redaction *)

(** [/api[_-]?key|token|authorization|secret|password/i] *)
Definition SECRET_KEY : regex :=
  RAny [seqs [lit_i "api"; ROpt (one_of "_-"); lit_i "key"]; lit_i "token";
        lit_i "authorization"; lit_i "secret"; lit_i "password"].

(** [[a-z0-9._:-]] under the flag [i]; [is_word] has the letters, the digits and
    the underscore. *)
Definition token_unit : regex :=
  RClass (λ c, is_word c || bool_decide (c ∈ ["."; ":"; "-"]%char)).

(** [/bearer\s+[a-z0-9._:-]+|sk-[a-z0-9._:-]+/i] *)
Definition SECRET_VALUE : regex :=
  RAlt (seqs [lit_i "bearer"; RPlus ws; RPlus token_unit]) (seqs [lit_i "sk-"; RPlus token_unit]).

(** [/command|cmd|shell/i] *)
Definition COMMAND_KEY : regex := RAny [lit_i "command"; lit_i "cmd"; lit_i "shell"].

(** [/content|fileContent|body/i] *)
Definition FILE_CONTENT_KEY : regex := RAny [lit_i "content"; lit_i "fileContent"; lit_i "body"].

Definition isSecretKey (key : string) : bool := test SECRET_KEY key.
Definition containsSecret (value : string) : bool := test SECRET_VALUE value.
Definition isCommandKey (key : string) : bool := test COMMAND_KEY key.
Definition isFileContentKey (key : string) : bool := test FILE_CONTENT_KEY key.

Section redact.
(** [os.homedir()] and the root of the repository. *)
Variable homedir repoRoot : string.

Definition isPathLike (value : string) : bool :=
  startsWith value repoRoot || startsWith value homedir.

Fixpoint redactValue (value : json) (key : string) : json :=
  match value with
  | JArr items => JArr ((λ item, redactValue item key) <$> items)
  | JObj members => JObj ((λ m, (m.1, redactValue m.2 m.1)) <$> members)
  | JStr s =>
    if isSecretKey key || containsSecret s then JStr "[REDACTED_SECRET]"
    else if isCommandKey key then JStr "[REDACTED_COMMAND]"
    else if isFileContentKey key then JStr "[REDACTED_FILE_CONTENT]"
    else if isPathLike s then JStr "[REDACTED_PATH]"
    else JStr s
  | v => v
  end.

Definition sanitizeSessionExport (document : SessionExportDocument) : json :=
  redactValue (document_json document) "".
End redact.

(** ** Export *)

(** A sanitized document is only known as JSON. *)
Inductive ExportResult : Type :=
| exported (d : SessionExportDocument)
| sanitized (j : json).

Section transfer.
Context `{Env}.
Variable homedir : string.

Definition no_session_error (sid : option string) : string :=
  match sid with
  | Some s => if String.eqb s "" then "No session is available to export." else session_error s
  | None => "No session is available to export."
  end.

Definition buildSessionExport (root : string) (sid : option string) (version : string)
    (sanitize : option bool) : M World ExportResult :=
  session ← match sid with
            | Some s => if String.eqb s "" then SessionsRepo.findLatest else SessionsRepo.findById s
            | None => SessionsRepo.findLatest
            end;
  match session with
  | None => throw (no_session_error sid)
  | Some s =>
    exportedAt ← nowIso;
    runtimeEvents ← SessionRuntimeEventsRepo.listBySession (sessionId s);
    summaries ← SessionSummaryRepo.listBySession (sessionId s);
    checkpoints ← SessionCheckpointsRepo.listBySession (sessionId s);
    reverts ← SessionRevertRepo.listBySession (sessionId s);
    let document := mkDocument SESSION_EXPORT_SCHEMA_VERSION exportedAt version root
      (default false sanitize) (mkPayload s runtimeEvents summaries checkpoints reverts) in
    mret (if default false sanitize then sanitized (sanitizeSessionExport homedir root document)
          else exported document)
  end.

(** ** Import *)

(** [Partial<SessionExportDocument>]: what the code knows of a parsed document
    before it is checked.  A child collection is [None] when it is missing or
    not an array; the rows of a collection that is there are taken as they
    are. *)
Record PartialPayload : Type := mkPartialPayload {
  pp_session : option SessionState;
  pp_runtimeEvents : option (list SessionRuntimeEventRecord);
  pp_summaries : option (list SessionSummaryRecord);
  pp_checkpoints : option (list SessionCheckpointRecord);
  pp_reverts : option (list SessionRevertRecord);
}.

Record PartialDocument : Type := mkPartial {
  pd_schemaVersion : option nat;
  pd_payload : option PartialPayload;
}.

Definition schema_error (v : option nat) : string :=
  "Unsupported session export schema version " +:+
  (match v with Some n => pretty n | None => "undefined" end) +:+
  ". This DH build supports version 1.".

(** [None] is a document that is not an object. *)
Definition assertSessionExportDocument (value : option PartialDocument) :
    M World SessionExportPayload :=
  match value with
  | None => throw "Invalid session export: expected an object."
  | Some d =>
    if negb (bool_decide (pd_schemaVersion d = Some SESSION_EXPORT_SCHEMA_VERSION))
    then throw (schema_error (pd_schemaVersion d)) else
    match pd_payload d ≫= pp_session with
    | None => throw "Invalid session export: payload.session.sessionId is required."
    | Some s =>
      if String.eqb (sessionId s) ""
      then throw "Invalid session export: payload.session.sessionId is required." else
      match pd_payload d ≫= pp_runtimeEvents, pd_payload d ≫= pp_summaries,
            pd_payload d ≫= pp_checkpoints, pd_payload d ≫= pp_reverts with
      | Some es, Some ss, Some cs, Some rs => mret (mkPayload s es ss cs rs)
      | _, _, _, _ => throw "Invalid session export: payload child collections must be arrays."
      end
    end
  end.

(** [{ ...document.payload.session, repoRoot }]. *)
Definition relocated (root : string) (s : SessionState) : SessionState :=
  {| sessionId := sessionId s; repoRoot := root; lane := lane s;
     currentStage := currentStage s; status := status s; createdAt := createdAt s;
     updatedAt := updatedAt s; activeWorkItemIds := activeWorkItemIds s;
     semanticMode := semanticMode s; toolEnforcementLevel := toolEnforcementLevel s;
     latestSummaryId := latestSummaryId s; latestCheckpointId := latestCheckpointId s;
     latestRevertId := latestRevertId s |}.

(** [{ ...row, sessionId }]. *)
Definition own_event (sid : string) (e : SessionRuntimeEventRecord) : SessionRuntimeEventRecord :=
  mkEvent (ev_id e) sid (ev_type e) (ev_json e) (ev_createdAt e).
Definition own_summary (sid : string) (r : SessionSummaryRecord) : SessionSummaryRecord :=
  copy_summary sid (sum_id r) r.
Definition own_checkpoint (sid : string) (c : SessionCheckpointRecord) : SessionCheckpointRecord :=
  copy_checkpoint sid (cp_id c) c.
Definition own_revert (sid : string) (r : SessionRevertRecord) : SessionRevertRecord :=
  mkRevert (rv_id r) sid (rv_checkpointId r) (rv_previousCheckpointId r) (rv_reason r)
    (rv_createdAt r).

Definition importSessionDocument (root : string) (document : option PartialDocument) :
    M World (string * ChildCounts) :=
  payload ← assertSessionExportDocument document;
  let session := relocated root (xp_session payload) in
  let sid := sessionId session in
  _ ← SessionsRepo.save session;
  _ ← for_each (λ e, _ ← SessionRuntimeEventsRepo.saveRecord (own_event sid e); mret ())
        (xp_runtimeEvents payload);
  _ ← for_each (λ r, _ ← SessionSummaryRepo.saveRecord (own_summary sid r); mret ())
        (xp_summaries payload);
  _ ← for_each (λ c, _ ← SessionCheckpointsRepo.saveRecord (own_checkpoint sid c); mret ())
        (xp_checkpoints payload);
  _ ← for_each (λ r, _ ← SessionRevertRepo.saveRecord (own_revert sid r); mret ())
        (xp_reverts payload);
  mret (sid, mkCounts (length (xp_runtimeEvents payload)) (length (xp_summaries payload))
               (length (xp_checkpoints payload)) (length (xp_reverts payload))).
End transfer.

(** The document that [JSON.parse] gives back for an exported one. *)
Definition as_partial (d : SessionExportDocument) : PartialDocument :=
  mkPartial (Some (xd_schemaVersion d))
    (Some (mkPartialPayload (Some (xp_session (xd_payload d)))
             (Some (xp_runtimeEvents (xd_payload d))) (Some (xp_summaries (xd_payload d)))
             (Some (xp_checkpoints (xd_payload d))) (Some (xp_reverts (xd_payload d))))).

(** A work item id looks like a secret key: there is no word boundary before
    [sk-]. *)
Example task_id_redacted :
  redactValue "/home/dev" "/repo" (JObj [("activeWorkItemIds", JArr [JStr "task-1"])]) "" =
  JObj [("activeWorkItemIds", JArr [JStr "[REDACTED_SECRET]"])].
Proof. vm_compute. reflexivity. Qed.

Example secrets_redacted :
  redactValue "/home/dev" "/repo"
    (JObj [("Api-Key", JStr "x"); ("note", JStr "Bearer abc.def"); ("cmd", JStr "ls");
           ("path", JStr "/repo/a.ts"); ("plain", JStr "hello")]) "" =
  JObj [("Api-Key", JStr "[REDACTED_SECRET]"); ("note", JStr "[REDACTED_SECRET]");
        ("cmd", JStr "[REDACTED_COMMAND]"); ("path", JStr "[REDACTED_PATH]");
        ("plain", JStr "hello")].
Proof. vm_compute. reflexivity. Qed.

(** ** Facts: redaction *)

(** The strings of a document with the key that [redactValue] sees for them. *)
Fixpoint leaves (key : string) (v : json) : list (string * string) :=
  match v with
  | JStr s => [(key, s)]
  | JArr items => flat_map (leaves key) items
  | JObj members => flat_map (λ m, leaves m.1 m.2) members
  | _ => []
  end.

Definition MARKERS : list string :=
  ["[REDACTED_SECRET]"; "[REDACTED_COMMAND]"; "[REDACTED_FILE_CONTENT]"; "[REDACTED_PATH]"].

Definition leaf_safe (homedir root : string) (l : string * string) : Prop :=
  containsSecret l.2 = false ∧
  (l.2 ∈ MARKERS ∨
   isSecretKey l.1 = false ∧ isCommandKey l.1 = false ∧ isFileContentKey l.1 = false ∧
   isPathLike homedir root l.2 = false).

Lemma markers_safe homedir root key m : m ∈ MARKERS → leaf_safe homedir root (key, m).
Proof.
  intros Hm. split; [|by left]. simpl.
  assert (Forall (λ m, containsSecret m = false) MARKERS) as Hall by by_decision.
  rewrite Forall_forall in Hall. by apply Hall.
Qed.

Lemma redactValue_safe homedir root v key :
  Forall (leaf_safe homedir root) (leaves key (redactValue homedir root v key)).
Proof.
  revert key. induction v as [| | |s|items IH|members IH] using json_nested_ind; intros key;
    simpl; try constructor.
  - destruct (isSecretKey key) eqn:E1, (containsSecret s) eqn:E2; simpl;
      try (apply Forall_singleton, markers_safe; by_decision).
    destruct (isCommandKey key) eqn:E3; [apply Forall_singleton, markers_safe; by_decision|].
    destruct (isFileContentKey key) eqn:E4; [apply Forall_singleton, markers_safe; by_decision|].
    destruct (isPathLike homedir root s) eqn:E5; [apply Forall_singleton, markers_safe; by_decision|].
    apply Forall_singleton. split; [done|]. by right.
  - induction IH as [|v vs Hv _ IHvs]; csimpl; [constructor|]. apply Forall_app. by split.
  - induction IH as [|[k v] vs Hv _ IHvs]; csimpl; [constructor|]. apply Forall_app. split; [|done].
    apply Hv.
Qed.

(** ** Facts: export *)

Definition payload_of (s : SessionState) (w : World) : SessionExportPayload :=
  mkPayload s (order_desc ev_createdAt (events_of (sessionId s) w))
    (order_desc sum_updatedAt (summaries_of (sessionId s) w))
    (order_desc cp_createdAt (checkpoints_of (sessionId s) w))
    (order_desc rv_createdAt (reverts_of (sessionId s) w)).

Definition document_of (root version : string) (sanitize : bool) (s : SessionState) (w : World)
    `{Env} : SessionExportDocument :=
  mkDocument SESSION_EXPORT_SCHEMA_VERSION (clock (w_ticks w)) version root sanitize
    (payload_of s w).

Lemma export_run `{Env} homedir root sid version sanitize s w :
  sid ≠ "" → find_row sessionId sid (w_sessions w) = Some s →
  buildSessionExport homedir root (Some sid) version sanitize w =
  (Ret (if default false sanitize
        then sanitized (sanitizeSessionExport homedir root (document_of root version true s w))
        else exported (document_of root version false s w)),
   set_ticks (S (w_ticks w)) w).
Proof.
  intros Hne Hs. unfold buildSessionExport. rewrite (proj2 (String.eqb_neq _ _) Hne).
  erewrite bind_run by reflexivity. simpl. rewrite Hs. repeat run_step.
  by destruct sanitize as [[]|].
Qed.

(** C15 A sanitized export of a stored session always succeeds, and no string in
    it carries a secret; what is not a redaction marker is neither the value of
    a secret, command or file-content key nor a path below the repository or
    the home directory. *)
Theorem sanitized_export_is_clean `{Env} homedir root sid version s w :
  sid ≠ "" → find_row sessionId sid (w_sessions w) = Some s →
  ∃ j w', buildSessionExport homedir root (Some sid) version (Some true) w =
      (Ret (sanitized j), w') ∧
    ∀ key value, (key, value) ∈ leaves "" j →
      containsSecret value = false ∧
      (value ∈ MARKERS ∨
       isSecretKey key = false ∧ isCommandKey key = false ∧ isFileContentKey key = false ∧
       isPathLike homedir root value = false).
Proof.
  intros Hne Hs. rewrite (export_run homedir root sid version (Some true) s w Hne Hs).
  eexists _, _. split; [reflexivity|]. intros key value Hin.
  pose proof (redactValue_safe homedir root (document_json (document_of root version true s w)) "") as Hall.
  rewrite Forall_forall in Hall. exact (Hall (key, value) Hin).
Qed.

(** ** Facts: the order of listed rows *)

Section relist.
Context {R : Type} (ts : R → string).

(** Strictly newest first. *)
Fixpoint newest_first (rows : list R) : Prop :=
  match rows with
  | [] => True
  | r :: rs => Forall (λ x, String.leb (ts r) (ts x) = false) rs ∧ newest_first rs
  end.

Lemma relist_sorted rows : newest_first rows → order_desc ts rows = rows.
Proof.
  induction rows as [|r rows IH]; simpl; [done|]. intros [Hr Hs]. rewrite IH by done.
  destruct Hr as [|x xs Hx]; simpl; [done|]. by rewrite Hx.
Qed.

Lemma insert_newest_first r rows :
  newest_first rows → Forall (λ x, ts x ≠ ts r) rows → newest_first (insert_desc ts r rows).
Proof.
  induction rows as [|x rows IH]; simpl; [done|]. intros [Hx Hs] [Hne Hall]%Forall_cons.
  destruct (String.leb (ts r) (ts x)) eqn:E; simpl.
  - split; [|by apply IH]. rewrite (insert_desc_perm ts r rows). constructor; [|done].
    destruct (String.leb (ts x) (ts r)) eqn:E'; [|done].
    destruct Hne. by apply String.leb_antisym.
  - split; [|by split]. constructor; [done|]. eapply Forall_impl; [exact Hx|]. simpl. intros y Hy.
    destruct (String.leb (ts r) (ts y)) eqn:E'; [|done]. rewrite <- Hy. symmetry.
    eapply string_leb_trans; [|exact E']. by apply string_leb_total_false.
Qed.

Lemma list_newest_first rows : NoDup (ts <$> rows) → newest_first (order_desc ts rows).
Proof.
  induction rows as [|r rows IH]; csimpl; [done|]. intros [Hr Hn]%NoDup_cons.
  apply insert_newest_first; [by apply IH|]. rewrite order_desc_perm. apply Forall_forall.
  intros x Hx Heq. apply Hr. rewrite <- Heq. by apply list_elem_of_fmap_2.
Qed.

(** Listing what was written in listing order gives the same list, when the
    timestamps differ; rows with equal timestamps come back reversed. *)
Lemma relist_distinct rows : NoDup (ts <$> rows) →
  order_desc ts (order_desc ts rows) = order_desc ts rows.
Proof. intros Hn. by apply relist_sorted, list_newest_first. Qed.

Lemma insert_last r rows : Forall (λ x, ts x = ts r) rows → insert_desc ts r rows = rows ++ [r].
Proof.
  induction 1 as [|x rows Hx _ IH]; simpl; [done|]. by rewrite Hx, string_leb_refl, IH.
Qed.

Lemma list_ties t rows : Forall (λ x, ts x = t) rows → order_desc ts rows = reverse rows.
Proof.
  induction 1 as [|x rows Hx Hall IH]; simpl; [done|].
  rewrite reverse_cons, <- IH. apply insert_last. rewrite order_desc_perm.
  eapply Forall_impl; [exact Hall|]. simpl. congruence.
Qed.

Lemma relist_ties t rows : Forall (λ x, ts x = t) rows →
  order_desc ts (order_desc ts rows) = reverse (order_desc ts rows).
Proof. intros Hall. apply list_ties with t. by rewrite order_desc_perm. Qed.
End relist.

(** ** Facts: import *)

Section import_loop.
Context `{Env} {R : Type} (T : Table R) `{!LawfulTable T} (own : R → R) (save : R → M World R).
Hypothesis own_key : ∀ r, t_key T (own r) = t_key T r.
Hypothesis save_run : ∀ r w, fk_ok T r w = true →
  save r w = (Ret r, t_set T (upsert_row (t_key T) r (t_rows T w)) w).

(** A loading loop appends its rows when their ids are new and distinct. *)
Lemma import_loop rs w :
  NoDup (t_key T <$> rs) → Forall (λ r, has_key (t_key T) (t_key T r) (t_rows T w) = false) rs →
  (∀ r w', w_fk w' = w_fk w → w_sessions w' = w_sessions w → fk_ok T (own r) w' = true) →
  for_each (λ r, _ ← save (own r); mret ()) rs w =
  (Ret (), t_set T (t_rows T w ++ (own <$> rs)) w).
Proof using Type*.
  revert w. induction rs as [|r rs IH]; intros w Hn Hf Hfk.
  { simpl. by rewrite app_nil_r, t_set_get. }
  cbn [for_each fmap list_fmap] in *. apply NoDup_cons in Hn as [Hr Hn].
  apply Forall_cons in Hf as [Hfr Hf].
  rewrite (bind_run _ _ w () (t_set T (t_rows T w ++ [own r]) w)).
  - rewrite IH.
    + by rewrite t_get_set, t_set_set, <- app_assoc.
    + done.
    + apply Forall_forall. intros x Hx. rewrite t_get_set. apply has_key_false.
      rewrite Forall_forall in Hf. specialize (Hf x Hx). rewrite has_key_false in Hf.
      intros y [Hy|Hy%list_elem_of_singleton]%elem_of_app; [by apply Hf|].
      subst y. rewrite own_key. intros Heq. apply Hr. rewrite Heq. by apply list_elem_of_fmap_2.
    + intros x w' Hk Hs. apply Hfk; [rewrite Hk; apply t_set_fk|rewrite Hs; apply t_set_sessions].
  - erewrite bind_run by (apply save_run, Hfk; done). rewrite upsert_fresh; [done|].
    by rewrite own_key.
Qed.
End import_loop.

(** New rows: distinct ids that the table does not have. *)
Definition new_rows {R} (key : R → string) (rows table : list R) : Prop :=
  NoDup (key <$> rows) ∧ Forall (λ r, has_key key (key r) table = false) rows.

(** The target knows nothing of the session and none of the ids. *)
Record importable (p : SessionExportPayload) (w : World) : Prop := {
  im_id : sessionId (xp_session p) ≠ "";
  im_unused : no_history (sessionId (xp_session p)) w;
  im_events : new_rows ev_id (xp_runtimeEvents p) (w_events w);
  im_summaries : new_rows sum_id (xp_summaries p) (w_summaries w);
  im_checkpoints : new_rows cp_id (xp_checkpoints p) (w_checkpoints w);
  im_reverts : new_rows rv_id (xp_reverts p) (w_reverts w);
}.

(** Every row of the payload belongs to its session, as in every export. *)
Record own_rows (p : SessionExportPayload) : Prop := {
  or_events : Forall (λ r, ev_sessionId r = sessionId (xp_session p)) (xp_runtimeEvents p);
  or_summaries : Forall (λ r, sum_sessionId r = sessionId (xp_session p)) (xp_summaries p);
  or_checkpoints : Forall (λ r, cp_sessionId r = sessionId (xp_session p)) (xp_checkpoints p);
  or_reverts : Forall (λ r, rv_sessionId r = sessionId (xp_session p)) (xp_reverts p);
}.

Lemma map_own {R} (sid : R → string) (own : string → R → R) k rows :
  (∀ r, own (sid r) r = r) → Forall (λ r, sid r = k) rows → own k <$> rows = rows.
Proof.
  intros Hown. induction 1 as [|r rows <- _ IH]; csimpl; [done|]. by rewrite Hown, IH.
Qed.

Lemma payload_of_own s w : own_rows (payload_of s w).
Proof.
  split; simpl; rewrite order_desc_perm; apply Forall_forall; by intros r [? _]%list_elem_of_filter.
Qed.

Ltac run_import loop run :=
  erewrite bind_run;
  [|apply (loop); [done|apply run|..|intros ? ? _ Hses; apply fk_ok_stored; intros ? [= <-]; simpl; by rewrite Hses]].

Section import.
Context `{Env}.

Lemma import_run root d w :
  xd_schemaVersion d = SESSION_EXPORT_SCHEMA_VERSION → importable (xd_payload d) w →
  own_rows (xd_payload d) →
  ∃ w' counts, importSessionDocument root (Some (as_partial d)) w =
      (Ret (sessionId (xp_session (xd_payload d)), counts), w') ∧
    find_row sessionId (sessionId (xp_session (xd_payload d))) (w_sessions w')
      = Some (relocated root (xp_session (xd_payload d))) ∧
    events_of (sessionId (xp_session (xd_payload d))) w' = xp_runtimeEvents (xd_payload d) ∧
    summaries_of (sessionId (xp_session (xd_payload d))) w' = xp_summaries (xd_payload d) ∧
    checkpoints_of (sessionId (xp_session (xd_payload d))) w' = xp_checkpoints (xd_payload d) ∧
    reverts_of (sessionId (xp_session (xd_payload d))) w' = xp_reverts (xd_payload d).
Proof.
  destruct d as [? ? ? ? ? [s es ss cs rs]]. simpl.
  intros -> [Hid (Ue & Us & Uc & Ur) [Ne Fe] [Ns Fs] [Nc Fc] [Nr Fr]] [Oe Os Oc Or]. simpl in *.
  unfold importSessionDocument. rewrite (bind_run _ _ w (mkPayload s es ss cs rs) w).
  2:{ simpl. by rewrite (proj2 (String.eqb_neq _ _) Hid). }
  cbv zeta. simpl. set (sid := sessionId s) in *.
  erewrite bind_run by reflexivity.
  match goal with |- context [(for_each _ _ ≫= _) ?W] => set (w1 := W) end.
  assert (has_key sessionId sid (w_sessions w1) = true) as Hstored
    by apply (upsert_keys sessionId (relocated root s)).
  run_import (import_loop RUNTIME_EVENTS (own_event sid) SessionRuntimeEventsRepo.saveRecord) save_event_run;
    [|exact Ne|exact Fe].
  run_import (import_loop SUMMARIES (own_summary sid) SessionSummaryRepo.saveRecord) save_summary_run;
    [|exact Ns|exact Fs].
  run_import (import_loop CHECKPOINTS (own_checkpoint sid) SessionCheckpointsRepo.saveRecord) save_checkpoint_run;
    [|exact Nc|exact Fc].
  run_import (import_loop REVERTS (own_revert sid) SessionRevertRepo.saveRecord) save_revert_run;
    [|exact Nr|exact Fr].
  eexists _, _. split; [reflexivity|].
  split; [apply (find_upsert_eq sessionId (relocated root s))|].
  unfold events_of, summaries_of, checkpoints_of, reverts_of. simpl.
  rewrite (map_own ev_sessionId own_event), (map_own sum_sessionId own_summary),
    (map_own cp_sessionId own_checkpoint), (map_own rv_sessionId own_revert)
    by (done || by intros []).
  by rewrite !appended_rows.
Qed.
End import.

(** ** Properties of the transfer *)

(** The rows of the session have pairwise different timestamps. *)
Record distinct_history (sid : string) (w : World) : Prop := {
  dh_events : NoDup (ev_createdAt <$> events_of sid w);
  dh_summaries : NoDup (sum_updatedAt <$> summaries_of sid w);
  dh_checkpoints : NoDup (cp_createdAt <$> checkpoints_of sid w);
  dh_reverts : NoDup (rv_createdAt <$> reverts_of sid w);
}.

Definition relocate_payload (root : string) (p : SessionExportPayload) : SessionExportPayload :=
  mkPayload (relocated root (xp_session p)) (xp_runtimeEvents p) (xp_summaries p)
    (xp_checkpoints p) (xp_reverts p).

(** C7 Export and import are a round trip: a session whose rows have pairwise
    different timestamps, exported from one repository and imported into
    another that knows nothing of it, is exported from there with the same
    payload, the root of the repository apart. *)
Theorem export_import_round_trip `{Env} homedir r1 r2 version sid s w w2 :
  sid ≠ "" → find_row sessionId sid (w_sessions w) = Some s →
  distinct_history sid w → importable (payload_of s w) w2 →
  ∃ d w1 report w3 d' w4,
    buildSessionExport homedir r1 (Some sid) version None w = (Ret (exported d), w1) ∧
    importSessionDocument r2 (Some (as_partial d)) w2 = (Ret report, w3) ∧
    buildSessionExport homedir r2 (Some sid) version None w3 = (Ret (exported d'), w4) ∧
    xd_payload d' = relocate_payload r2 (xd_payload d).
Proof.
  intros Hne Hs [He Hsm Hc Hr] Him. pose proof (find_row_Some _ _ _ _ Hs) as [_ Hid]. subst sid.
  destruct (import_run r2 (document_of r1 version false s w) w2 eq_refl Him (payload_of_own s w))
    as (w3 & counts & Hrun & Hs3 & E1 & E2 & E3 & E4). simpl in *.
  eexists _, _, _, w3, _, _. split; [apply (export_run homedir r1 _ version None s w Hne Hs)|].
  split; [exact Hrun|]. split; [apply (export_run homedir r2 _ version None _ w3 Hne Hs3)|].
  unfold document_of, payload_of, relocate_payload. simpl. rewrite E1, E2, E3, E4.
  by rewrite !relist_distinct.
Qed.

(** Rows with equal timestamps do not survive the transfer in order: when all
    events of a session carry the same timestamp, the session exported again
    after the import lists them in the opposite order, because the import writes
    them newest first while listings break ties by insertion. *)
Theorem import_reverses_ties `{Env} homedir r1 r2 version sid s t w w2 :
  sid ≠ "" → find_row sessionId sid (w_sessions w) = Some s →
  Forall (λ e, ev_createdAt e = t) (events_of sid w) → importable (payload_of s w) w2 →
  ∃ d w1 report w3 d' w4,
    buildSessionExport homedir r1 (Some sid) version None w = (Ret (exported d), w1) ∧
    importSessionDocument r2 (Some (as_partial d)) w2 = (Ret report, w3) ∧
    buildSessionExport homedir r2 (Some sid) version None w3 = (Ret (exported d'), w4) ∧
    xp_runtimeEvents (xd_payload d') = reverse (xp_runtimeEvents (xd_payload d)).
Proof.
  intros Hne Hs Ht Him. pose proof (find_row_Some _ _ _ _ Hs) as [_ Hid]. subst sid.
  destruct (import_run r2 (document_of r1 version false s w) w2 eq_refl Him (payload_of_own s w))
    as (w3 & counts & Hrun & Hs3 & E1 & _). simpl in *.
  eexists _, _, _, w3, _, _. split; [apply (export_run homedir r1 _ version None s w Hne Hs)|].
  split; [exact Hrun|]. split; [apply (export_run homedir r2 _ version None _ w3 Hne Hs3)|].
  simpl. rewrite E1. by eapply relist_ties.
Qed.

(** A document that fails a check is refused before anything is written. *)
Lemma import_refused `{Env} root document w :
  (∀ d, document = Some d →
     pd_schemaVersion d ≠ Some SESSION_EXPORT_SCHEMA_VERSION ∨
     pd_payload d = None ∨
     (∃ p, pd_payload d = Some p ∧
        (sessionId <$> pp_session p = None ∨ sessionId <$> pp_session p = Some "" ∨
         pp_runtimeEvents p = None ∨ pp_summaries p = None ∨
         pp_checkpoints p = None ∨ pp_reverts p = None))) →
  ∃ message, importSessionDocument root document w = (Throw message, w).
Proof.
  intros Hbad. unfold importSessionDocument, mbind, M_bind.
  destruct document as [[v o]|]; simpl; [|by eexists].
  destruct (bool_decide_reflect (v = Some SESSION_EXPORT_SCHEMA_VERSION)) as [->|]; simpl; [|by eexists].
  destruct o as [[[s|] es ss cs rs]|]; simpl; [|by eexists..].
  destruct (String.eqb_spec (sessionId s) ""); simpl; [by eexists|].
  destruct es, ss, cs, rs; simpl; try by eexists.
  exfalso. destruct (Hbad _ eq_refl) as [?|[?|(p & [= <-] & Hp)]]; [done..|]. simpl in Hp. naive_solver.
Qed.

(** ** Witnesses *)

Lemma sanitized_export_is_clean_witness :
  ∃ j w', buildSessionExport "/home/dev" "/repo" (Some "session-1") "1" (Some true) admin_world =
      (Ret (sanitized j), w') ∧
    ∀ key value, (key, value) ∈ leaves "" j →
      containsSecret value = false ∧
      (value ∈ MARKERS ∨
       isSecretKey key = false ∧ isCommandKey key = false ∧ isFileContentKey key = false ∧
       isPathLike "/home/dev" "/repo" value = false).
Proof. by apply (sanitized_export_is_clean "/home/dev" "/repo" "session-1" "1" admin_session). Defined.

Lemma admin_importable : importable (payload_of admin_session admin_world) empty_world.
Proof. split; try done; split; by_decision. Qed.

Lemma export_import_round_trip_witness :
  ∃ d w1 report w3 d' w4,
    buildSessionExport "/home/dev" "/repo" (Some "session-1") "1" None admin_world =
      (Ret (exported d), w1) ∧
    importSessionDocument "/other" (Some (as_partial d)) empty_world = (Ret report, w3) ∧
    buildSessionExport "/home/dev" "/other" (Some "session-1") "1" None w3 = (Ret (exported d'), w4) ∧
    xd_payload d' = relocate_payload "/other" (xd_payload d).
Proof.
  apply (export_import_round_trip "/home/dev" "/repo" "/other" "1" "session-1" admin_session
           admin_world empty_world); [done|done| |apply admin_importable].
  split; by_decision.
Defined.

Definition tie_world : World :=
  set_events [mkEvent "ev-1" "session-1" "busy" (JObj []) "T";
              mkEvent "ev-2" "session-1" "idle" (JObj []) "T"] admin_world.

Lemma import_reverses_ties_witness :
  ∃ d w1 report w3 d' w4,
    buildSessionExport "/home/dev" "/repo" (Some "session-1") "1" None tie_world =
      (Ret (exported d), w1) ∧
    importSessionDocument "/other" (Some (as_partial d)) empty_world = (Ret report, w3) ∧
    buildSessionExport "/home/dev" "/other" (Some "session-1") "1" None w3 = (Ret (exported d'), w4) ∧
    xp_runtimeEvents (xd_payload d') = reverse (xp_runtimeEvents (xd_payload d)).
Proof.
  apply (import_reverses_ties "/home/dev" "/repo" "/other" "1" "session-1" admin_session "T"
           tie_world empty_world); [done|done| |].
  - repeat constructor.
  - split; try done; split; by_decision.
Defined.
