(* ===== verification/SessionContext.v ===== *)
(** * Context of a session: compaction, summaries, statistics, event stream

    [packages/runtime/src/session/session-compaction.ts], [session-summary.ts],
    [session-stats.ts] and [session-event-stream.ts]. *)

From S2P Require Import Prelude Json Domain Store Repos Regex SessionAdmin SessionTransfer.
From Stdlib Require Import Ascii String.
From stdpp Require Import prelude list strings gmap pretty sorting.
Set Default Proof Using "Type".
Set Warnings "-clear-no-such-hyp".

(** ** Compaction *)

Record CompactionInput : Type := mkCompaction {
  ci_sessionId : string;
  ci_workflowSummary : list string;
  ci_runtimeEvents : list SessionRuntimeEventRecord;
  ci_summary : option SessionSummaryRecord;
  ci_maxSummaryEntries : option nat;
  ci_maxSerializedBytes : option nat;
  ci_maxRuntimeEventsInHeuristic : option nat;
}.

Record CompactionResult : Type := mkCompacted {
  cr_overflow : bool;
  cr_trimmed : list string;
  cr_continuationSummary : option string;
  cr_latestStage : option WorkflowStage;
  cr_latestCheckpointId : option string;
  cr_unresolvedBlockers : list string;
}.

Definition extractUnresolvedBlockers (lines : list string) : list string :=
  take 8 (filter (λ line, includes (toLowerCase line) "blocker" = true) lines).

(** The events that the size heuristic looks at. *)
Definition sampled_events (input : CompactionInput) : list SessionRuntimeEventRecord :=
  slice_tail (ci_maxRuntimeEventsInHeuristic input or_else 64) (ci_runtimeEvents input).

(** The length of the serialized payload. *)
Definition serialized_bytes (input : CompactionInput) : nat :=
  String.length (stringify
    (JObj ([("workflowSummary", JArr (JStr <$> ci_workflowSummary input));
            ("runtimeEvents", JArr (event_json <$> sampled_events input))]
           ++ opt_member "summary" (summary_json <$> ci_summary input)))).

Definition compactSessionContext (input : CompactionInput) : CompactionResult :=
  let maxSummaryEntries := ci_maxSummaryEntries input or_else 12 in
  let maxSerializedBytes := ci_maxSerializedBytes input or_else (24 * 1000) in
  let lines := ci_workflowSummary input in
  let tooManyEntries := (maxSummaryEntries <? length lines)%nat in
  let overflow := tooManyEntries || (maxSerializedBytes <? serialized_bytes input)%nat in
  let stage := ci_summary input ≫= sum_latestStage in
  let checkpoint := ci_summary input ≫= sum_latestCheckpointId in
  let blockers := extractUnresolvedBlockers lines in
  if negb overflow then mkCompacted false lines None stage checkpoint blockers
  else
    let keepTail := max 4 (maxSummaryEntries / 2) in
    let tail := slice_tail keepTail lines in
    let events := ci_runtimeEvents input in
    let continuation := Prelude.join (String LF "")
      ["Continuation summary for session " +:+ ci_sessionId input +:+ ":";
       "- Previous summary entries compacted: " +:+ pretty (length lines - length tail);
       "- Runtime events observed: " +:+ pretty (length events);
       "- Runtime events sampled for heuristic: " +:+
         pretty (if (length (sampled_events input) <? length events)%nat
                 then length (sampled_events input) else length events);
       "- Latest stage: " +:+ ((stage_name <$> stage) or_else "unknown");
       "- Latest checkpoint: " +:+ (checkpoint or_else "unknown");
       (if (0 <? length blockers)%nat then "- Unresolved blockers: " +:+ Prelude.join "; " blockers
        else "- Unresolved blockers: none")] in
    mkCompacted true tail (Some continuation) stage checkpoint blockers.

(** ** Summaries *)

Definition digits_value (s : string) : nat :=
  foldl (λ n c, 10 * n + (nat_of_ascii c - 48)) 0 (list_ascii_of_string s).

(** [/files?\s*changed\s*[:=]\s*(\d+)/], [/additions?\s*[:=]\s*(\d+)/] and
    [/deletions?\s*[:=]\s*(\d+)/]. *)
Definition stat_regex (words : list regex) : regex :=
  seqs (words ++ [RStar ws; one_of ":="; RStar ws; RGroup 1 (RPlus digit)]).
Definition FILES_CHANGED : regex :=
  stat_regex [lit "file"; ROpt (lit "s"); RStar ws; lit "changed"].
Definition ADDITIONS : regex := stat_regex [lit "addition"; ROpt (lit "s")].
Definition DELETIONS : regex := stat_regex [lit "deletion"; ROpt (lit "s")].

(** The number that a statistic has in a line, if the line has it. *)
Definition stat_value (r : regex) (normalized : string) : option nat :=
  (λ gs, digits_value (group 1 gs or_else "")) <$> exec_match r normalized.

Record FileChangeStats : Type := mkStats {
  fs_filesChanged : nat;
  fs_additions : nat;
  fs_deletions : nat;
  fs_touched : bool;
}.

Definition stats_line (acc : FileChangeStats) (line : string) : FileChangeStats :=
  let normalized := toLowerCase line in
  let f := stat_value FILES_CHANGED normalized in
  let a := stat_value ADDITIONS normalized in
  let d := stat_value DELETIONS normalized in
  mkStats (match f with Some n => max (fs_filesChanged acc) n | None => fs_filesChanged acc end)
    (fs_additions acc + default 0 a) (fs_deletions acc + default 0 d)
    (fs_touched acc || bool_decide (is_Some f) || bool_decide (is_Some a) || bool_decide (is_Some d)).

Definition parseFileChangeStats (lines : list string) : FileChangeStats :=
  foldl stats_line (mkStats 0 0 0 false) lines.

Example parse_stats_demo :
  parseFileChangeStats ["Files changed: 3, additions = 10"; "deletions:4"; "file changed:2"] =
  mkStats 3 10 4 true.
Proof. vm_compute. reflexivity. Qed.

(** [Omit<SessionSummaryRecord, "id" | "sessionId" | "updatedAt">]. *)
Record SummarySeed : Type := mkSeed {
  seed_filesChanged : nat;
  seed_additions : nat;
  seed_deletions : nat;
  seed_lastDiffAt : option string;
  seed_latestStage : option WorkflowStage;
  seed_latestCheckpointId : option string;
  seed_continuationSummary : option string;
  seed_continuationCreatedAt : option string;
}.

Definition nonempty (o : option string) : bool :=
  match o with Some s => negb (String.eqb s "") | None => false end.

Section effects.
Context `{Env}.

Definition summarizeWorkflowArtifacts (workflowSummary : list string) (stage : option WorkflowStage)
    (previous : option SessionSummaryRecord) (latestCheckpointId continuationSummary : option string) :
    M World SummarySeed :=
  let changed := parseFileChangeStats workflowSummary in
  lastDiffAt ← (if fs_touched changed then (t ← nowIso; mret (Some t))
                else mret (previous ≫= sum_lastDiffAt));
  continuationCreatedAt ← (if nonempty continuationSummary then (t ← nowIso; mret (Some t))
                           else mret (previous ≫= sum_continuationCreatedAt));
  mret (mkSeed
    (max ((sum_filesChanged <$> previous) or_else 0) (fs_filesChanged changed))
    (((sum_additions <$> previous) or_else 0) + fs_additions changed)
    (((sum_deletions <$> previous) or_else 0) + fs_deletions changed)
    lastDiffAt stage
    (match latestCheckpointId with Some c => Some c | None => previous ≫= sum_latestCheckpointId end)
    (match continuationSummary with Some c => Some c | None => previous ≫= sum_continuationSummary end)
    continuationCreatedAt).

(** ** The event stream of a run *)

Record RunEvent : Type := mkRunEvent {
  re_type : string;
  re_sessionId : string;
  re_sequence : nat;
  re_timestamp : string;
  re_payload : json;
}.

Record EventStream : Type := mkStream {
  es_sessionId : string;
  es_events : list RunEvent;
  es_sequence : nat;
}.

Definition run_event_json (e : RunEvent) : json :=
  JObj [("type", JStr (re_type e)); ("sessionId", JStr (re_sessionId e));
        ("sequence", jnat (re_sequence e)); ("timestamp", JStr (re_timestamp e));
        ("payload", re_payload e)].

(** The stream is updated before the row is saved, so a failed save leaves the
    event in the stream. *)
Definition emit (type : string) (payload : option json) : M (World * EventStream) RunEvent :=
  λ '(w, st),
  match nowIso w with
  | (Throw e, w1) => (Throw e, (w1, st))
  | (Ret timestamp, w1) =>
    let event := mkRunEvent type (es_sessionId st) (S (es_sequence st)) timestamp
                   (payload or_else JObj []) in
    let st' := mkStream (es_sessionId st) (es_events st ++ [event]) (re_sequence event) in
    match SessionRuntimeEventsRepo.save (es_sessionId st) type (Some (run_event_json event))
            (Some timestamp) w1 with
    | (Ret _, w2) => (Ret event, (w2, st'))
    | (Throw e, w2) => (Throw e, (w2, st'))
    end
  end.
End effects.

(** ** Statistics *)

Record SessionStatsBucket : Type := mkBucket { bk_key : string; bk_count : nat }.

Section stats.
(** [a.localeCompare(b) <= 0], [Date.parse] in milliseconds ([None] for NaN) and
    [Date.now()]. *)
Variable locale_le : string → string → bool.
Variable date_parse : string → option Z.
Variable date_now : Z.

(** [counts.set(value, (counts.get(value) ?? 0) + 1)] on a [Map], which keeps
    the order of first insertion. *)
Fixpoint count_value (value : string) (counts : list SessionStatsBucket) : list SessionStatsBucket :=
  match counts with
  | [] => [mkBucket value 1]
  | b :: bs => if String.eqb (bk_key b) value then mkBucket value (S (bk_count b)) :: bs
               else b :: count_value value bs
  end.

(** [b.count - a.count || a.key.localeCompare(b.key)] puts [a] before [b]. *)
Definition bucket_le (a b : SessionStatsBucket) : bool :=
  (bk_count b <? bk_count a)%nat
  || ((bk_count a =? bk_count b)%nat && locale_le (bk_key a) (bk_key b)).

Definition buckets (values : list string) : list SessionStatsBucket :=
  js_sort bucket_le (foldl (λ counts v, count_value v counts) [] values).

(** [Date.parse(session.updatedAt) >= cutoff], false for NaN. *)
Definition updated_since (cutoff : Z) (s : SessionState) : bool :=
  match date_parse (updatedAt s) with Some t => (cutoff <=? t)%Z | None => false end.

Definition filterByDays (sessions : list SessionState) (days : option Z) : list SessionState :=
  match days with
  | None => sessions
  | Some d =>
    if (d =? 0)%Z then sessions
    else filter (λ s, updated_since (date_now - d * 24 * 60 * 60 * 1000) s = true) sessions
  end.

(** A [payload] that is an object and not an array is used, anything else leaves
    the event itself. *)
Definition readPayload (event : SessionRuntimeEventRecord) : json :=
  match json_get "payload" (ev_json event) with
  | Some (JObj members) => JObj members
  | _ => ev_json event
  end.

Definition string_member (key : string) (v : json) : list string :=
  match json_get key v with Some (JStr s) => [s] | _ => [] end.

Definition readModel (event : SessionRuntimeEventRecord) : list string :=
  if String.eqb (ev_type event) "message.started" then string_member "model" (readPayload event)
  else [].

(** [payload.toolName ?? payload.name]. *)
Definition readTool (event : SessionRuntimeEventRecord) : list string :=
  if String.eqb (ev_type event) "tool.started" then
    match json_get "toolName" (readPayload event) with
    | None | Some JNull => string_member "name" (readPayload event)
    | Some _ => string_member "toolName" (readPayload event)
    end
  else [].

Record SessionStatsReport : Type := mkStatsReport {
  st_days : option Z;
  st_totalSessions : nat;
  st_sessionsByLane : list SessionStatsBucket;
  st_sessionsByStatus : list SessionStatsBucket;
  st_runtimeEventsByType : list SessionStatsBucket;
  st_topModels : list SessionStatsBucket;
  st_topTools : list SessionStatsBucket;
}.

Definition buildSessionStats (days : option Z) (models tools : option nat) : M World SessionStatsReport :=
  listed ← SessionsRepo.list (Some (10 * 1000));
  let sessions := filterByDays listed days in
  events ← gets (λ w, flat_map (λ s, order_desc ev_createdAt (events_of (sessionId s) w)) sessions);
  mret (mkStatsReport days (length sessions)
    (buckets (lane_name ∘ lane <$> sessions))
    (buckets (session_status_name ∘ status <$> sessions))
    (buckets (ev_type <$> events))
    (take (models or_else 5) (buckets (flat_map readModel events)))
    (take (tools or_else 5) (buckets (flat_map readTool events)))).
End stats.

(** ** Facts and properties of compaction *)

Lemma slice_tail_suffix {A} n (xs : list A) : ∃ dropped, xs = dropped ++ slice_tail n xs.
Proof.
  destruct n as [|n]; simpl; [by exists []|].
  exists (take (length xs - S n) xs). symmetry. apply take_drop.
Qed.

Lemma length_slice_tail {A} n (xs : list A) : 0 < n → length (slice_tail n xs) = min (length xs) n.
Proof. destruct n as [|n]; [lia|]. intros _. simpl. rewrite length_drop. lia. Qed.

(** Compaction is exact and bounded: it reports overflow exactly when the
    entries or the serialized payload exceed their limits, then keeps the last
    [max 4 (limit / 2)] entries and writes a continuation summary; without
    overflow nothing is trimmed.  What is kept is always the end of the
    summary, and at most eight blockers are carried, all of them lines of it. *)
Theorem compaction_exact input :
  let r := compactSessionContext input in
  let limit := ci_maxSummaryEntries input or_else 12 in
  let lines := ci_workflowSummary input in
  (cr_overflow r = true ↔
     limit < length lines ∨ (ci_maxSerializedBytes input or_else (24 * 1000)) < serialized_bytes input) ∧
  (cr_overflow r = false → cr_trimmed r = lines ∧ cr_continuationSummary r = None) ∧
  (cr_overflow r = true →
     length (cr_trimmed r) = min (length lines) (max 4 (limit / 2)) ∧
     is_Some (cr_continuationSummary r)) ∧
  (∃ dropped, lines = dropped ++ cr_trimmed r) ∧
  length (cr_unresolvedBlockers r) ≤ 8 ∧
  (∀ b, b ∈ cr_unresolvedBlockers r → b ∈ lines).
Proof.
  cbv zeta. set (limit := ci_maxSummaryEntries input or_else 12).
  set (lines := ci_workflowSummary input).
  assert (∀ b, b ∈ extractUnresolvedBlockers lines → b ∈ lines) as Hb.
  { intros b Hb. unfold extractUnresolvedBlockers in Hb.
    assert (b ∈ filter (λ line, includes (toLowerCase line) "blocker" = true) lines) as Hf
      by (rewrite <- (take_drop 8 (filter _ lines)); apply elem_of_app; by left).
    by apply list_elem_of_filter in Hf as [_ ?]. }
  assert (length (extractUnresolvedBlockers lines) ≤ 8) as Hl
    by (unfold extractUnresolvedBlockers; rewrite length_take; lia).
  unfold compactSessionContext. cbv zeta. fold limit lines.
  generalize (serialized_bytes input) as bytes. intros bytes.
  generalize (ci_maxSerializedBytes input or_else (24 * 1000)) as maxBytes. intros maxBytes.
  destruct (Nat.ltb_spec limit (length lines)), (Nat.ltb_spec maxBytes bytes);
    cbn [orb negb cr_overflow cr_trimmed cr_continuationSummary cr_unresolvedBlockers];
    (split; [split; [(tauto || lia)|(done || lia)]|]);
    (split; [done|]);
    (split; [try done; intros _; (split; [apply length_slice_tail; lia|by eexists])|]);
    (split; [(apply slice_tail_suffix || by exists [])|done]).
Qed.

(** How a lane command calls it ([run-lane-command.ts]): the events are listed
    newest first. *)
Definition lane_compaction_input (sid : string) (lines : list string)
    (previous : option SessionSummaryRecord) (w : World) : CompactionInput :=
  mkCompaction sid lines (order_desc ev_createdAt (events_of sid w)) previous None None None.

Section sorted_listing.
Context {R : Type} (ts : R → string).

Definition no_older (a b : R) : Prop := String.leb (ts b) (ts a) = true.

Lemma insert_desc_sorted r rows :
  StronglySorted no_older rows → StronglySorted no_older (insert_desc ts r rows).
Proof.
  induction 1 as [|x rows Hs IH Hx]; simpl; [by repeat constructor|].
  destruct (String.leb (ts r) (ts x)) eqn:E.
  - constructor; [done|]. rewrite (insert_desc_perm ts r rows). by constructor.
  - apply string_leb_total_false in E. constructor; [by constructor|]. constructor; [done|].
    eapply Forall_impl; [exact Hx|]. unfold no_older. simpl. intros y Hy.
    by eapply string_leb_trans.
Qed.

Lemma order_desc_sorted rows : StronglySorted no_older (order_desc ts rows).
Proof. induction rows as [|r rows IH]; simpl; [constructor|]. by apply insert_desc_sorted. Qed.

Lemma sorted_app_split (l k : list R) a b :
  StronglySorted no_older (l ++ k) → a ∈ l → b ∈ k → no_older a b.
Proof.
  induction l as [|x l IH]; simpl; [by intros _ ?%elem_of_nil|].
  intros [Hs Hall]%StronglySorted_inv Ha Hb. apply elem_of_cons in Ha as [->|Ha]; [|by apply IH].
  rewrite Forall_forall in Hall. apply Hall, elem_of_app. by right.
Qed.
End sorted_listing.

(** The sample of a lane command is the oldest end of the history: no sampled
    event is newer than one left out. *)
Lemma lane_compaction_samples_oldest sid lines previous w :
  ∃ left_out, ci_runtimeEvents (lane_compaction_input sid lines previous w)
      = left_out ++ sampled_events (lane_compaction_input sid lines previous w) ∧
    ∀ e e', e ∈ sampled_events (lane_compaction_input sid lines previous w) → e' ∈ left_out →
      String.leb (ev_createdAt e) (ev_createdAt e') = true.
Proof.
  set (input := lane_compaction_input sid lines previous w).
  destruct (slice_tail_suffix 64 (ci_runtimeEvents input)) as (left_out & Heq).
  exists left_out. split; [done|]. intros e e' He He'.
  eapply (sorted_app_split ev_createdAt left_out); [|exact He'|exact He].
  unfold sampled_events. simpl nullish. rewrite <- Heq. apply order_desc_sorted.
Qed.

(** ** Properties of the event stream *)

Section stream.
Context `{EnvLaws}.

Definition emit_all (xs : list (string * option json)) : M (World * EventStream) () :=
  for_each (λ x, _ ← emit x.1 x.2; mret ()) xs.

(** The world can take events of the session, and none is dated in the future. *)
Record stream_ready (sid : string) (w : World) : Prop := {
  sr_session : has_key sessionId sid (w_sessions w) = true;
  sr_draws : draws_fresh ev_id "session-runtime-event" (w_events w) (w_draws w);
  sr_dated : Forall (λ e, String.leb (ev_createdAt e) (clock (w_ticks w)) = true) (events_of sid w);
}.

(** The stream has numbered its events from one, and they are the newest rows
    of the session, in the same order. *)
Record stream_inv (w0 w : World) (st : EventStream) : Prop := {
  si_count : es_sequence st = length (es_events st);
  si_numbers : re_sequence <$> es_events st = seq 1 (length (es_events st));
  si_rows : ev_json <$> events_of (es_sessionId st) w =
    (ev_json <$> events_of (es_sessionId st) w0) ++ (run_event_json <$> es_events st);
  si_listed : order_desc ev_createdAt (events_of (es_sessionId st) w) =
    reverse (drop (length (events_of (es_sessionId st) w0)) (events_of (es_sessionId st) w))
    ++ order_desc ev_createdAt (events_of (es_sessionId st) w0);
}.

Lemma save_new_event_run sid type j t w :
  has_key sessionId sid (w_sessions w) = true →
  draws_fresh ev_id "session-runtime-event" (w_events w) (w_draws w) →
  let row := mkEvent (draw_id "session-runtime-event" (w_draws w)) sid type j t in
  SessionRuntimeEventsRepo.save sid type (Some j) (Some t) w =
  (Ret row, set_events (w_events w ++ [row]) (set_draws (S (w_draws w)) w)).
Proof.
  intros Hs Hf. cbv zeta. unfold SessionRuntimeEventsRepo.save, or_run.
  do 2 (erewrite bind_run by reflexivity). cbv zeta. erewrite bind_run.
  2:{ apply insert_run; [by apply draws_fresh_now|]. apply fk_ok_stored. by intros ? [= <-]. }
  reflexivity.
Qed.

Lemma events_of_snoc sid rows row (w : World) :
  ev_sessionId row = sid →
  events_of sid (set_events (rows ++ [row]) w) = filter (λ r, ev_sessionId r = sid) rows ++ [row].
Proof. intros Hr. unfold events_of. simpl. by rewrite filter_app, (filter_cons_True _ _ []). Qed.

Lemma emit_step w0 w st type payload :
  stream_ready (es_sessionId st) w → stream_inv w0 w st →
  ∃ e w' st', emit type payload (w, st) = (Ret e, (w', st')) ∧
    es_sessionId st' = es_sessionId st ∧ es_events st' = es_events st ++ [e] ∧ re_type e = type ∧
    stream_ready (es_sessionId st') w' ∧ stream_inv w0 w' st'.
Proof using Type*.
  intros [Hs Hd Ht] [Hc Hn Hr Hl]. eexists _, _, _. split.
  { unfold emit, nowIso. rewrite save_new_event_run by done. reflexivity. }
  do 3 (split; [reflexivity|]). split; split; cbn [es_sessionId es_events es_sequence re_sequence].
  - exact Hs.
  - eapply draws_fresh_snoc; [exact Hd|simpl; lia|]. exists (w_draws w). split; [simpl; lia|done].
  - rewrite events_of_snoc by done. apply Forall_app. split.
    + eapply Forall_impl; [exact Ht|]. simpl. intros e He.
      eapply string_leb_trans; [exact He|]. apply clock_mono. lia.
    + apply Forall_singleton, clock_mono. simpl. lia.
  - rewrite length_app, Hc. simpl. lia.
  - rewrite length_app, seq_app, fmap_app, Hn, Hc. done.
  - rewrite events_of_snoc, !fmap_app, app_assoc by done. f_equal. exact Hr.
  - rewrite events_of_snoc by done. rewrite order_desc_latest by exact Ht.
    apply (f_equal length) in Hr. rewrite length_app, !length_fmap in Hr.
    rewrite drop_app_le, reverse_snoc by (simpl; fold (events_of (es_sessionId st) w); lia).
    simpl. f_equal. exact Hl.
Qed.
End stream.

(** The events of a run are numbered 1, 2, 3, ... without gaps, every one of
    them is stored, and listing the session gives them newest first, ahead of
    whatever the session had before, even when several events carry the same
    timestamp. *)
Theorem event_stream_order `{EnvLaws} sid xs w :
  stream_ready sid w →
  ∃ w' st, emit_all xs (w, mkStream sid [] 0) = (Ret (), (w', st)) ∧
    re_type <$> es_events st = fst <$> xs ∧
    re_sequence <$> es_events st = seq 1 (length xs) ∧
    (ev_json <$> order_desc ev_createdAt (events_of sid w')) =
      reverse (run_event_json <$> es_events st) ++
      (ev_json <$> order_desc ev_createdAt (events_of sid w)).
Proof.
  intros Hr.
  assert (∀ w1 st, es_sessionId st = sid → stream_ready (es_sessionId st) w1 → stream_inv w w1 st →
    ∃ w' st', emit_all xs (w1, st) = (Ret (), (w', st')) ∧ es_sessionId st' = sid ∧
      re_type <$> es_events st' = (re_type <$> es_events st) ++ (fst <$> xs) ∧
      stream_inv w w' st') as Hgen.
  { induction xs as [|[t p] xs IH]; intros w1 st Hid Hready Hinv.
    - exists w1, st. split_and!; [done..| |done]. by rewrite app_nil_r.
    - destruct (emit_step w w1 st t p Hready Hinv) as (e & w2 & st2 & He & Hid2 & Hev & Hty & Hr2 & Hi2).
      destruct (IH w2 st2) as (w3 & st3 & Hrun & Hid3 & Hty3 & Hi3); [congruence|done..|].
      exists w3, st3. split_and!; [|done| |done].
      + unfold emit_all. cbn [for_each]. erewrite bind_run; [exact Hrun|].
        erewrite bind_run by exact He. reflexivity.
      + by rewrite Hty3, Hev, fmap_app, <- app_assoc, <- Hty. }
  destruct (Hgen w (mkStream sid [] 0)) as (w' & st & Hrun & Hid & Hty & [Hc Hn Hrow Hl]); [done|done| |].
  { split; simpl; [done|done| |]; rewrite ?app_nil_r; [done|].
    by rewrite drop_all. }
  simpl in Hty. assert (length (es_events st) = length xs) as Hlen
    by (apply (f_equal length) in Hty; by rewrite !length_fmap in Hty).
  rewrite Hid in *. exists w', st. split_and!; [done|done|by rewrite Hn, Hlen|].
  rewrite Hl, fmap_app. f_equal. rewrite fmap_reverse. f_equal.
  rewrite fmap_drop, Hrow. apply drop_app_length'. by rewrite length_fmap.
Qed.

(** ** Facts of the statistics *)

Section bucket_facts.
Variable locale_le : string → string → bool.

Lemma buckets_perm values :
  buckets locale_le values ≡ₚ foldl (λ counts v, count_value v counts) [] values.
Proof.
  apply js_sort_perm.
Qed.

Definition count_of (v : string) (bs : list SessionStatsBucket) : nat :=
  sum_list (bk_count <$> filter (λ b, bk_key b = v) bs).

Lemma count_value_spec v u bs :
  count_of u (count_value v bs) = (if decide (u = v) then 1 else 0) + count_of u bs.
Proof.
  unfold count_of. induction bs as [|b bs IH]; simpl.
  - destruct (decide (u = v)) as [->|Hne].
    + by rewrite filter_cons_True.
    + by rewrite filter_cons_False.
  - destruct (String.eqb_spec (bk_key b) v) as [Hb|Hb].
    + rewrite !filter_cons. simpl. rewrite Hb. destruct (decide (v = u)) as [->|Hne].
      * rewrite decide_True by done. simpl. lia.
      * by rewrite decide_False by congruence.
    + rewrite !filter_cons. destruct (decide (bk_key b = u)); csimpl; rewrite IH; lia.
Qed.

(** The buckets add up: a key counts the values equal to it. *)
Lemma buckets_count values v :
  count_of v (buckets locale_le values) = length (filter (λ x, v = x) values).
Proof.
  assert (∀ bs bs', bs ≡ₚ bs' → count_of v bs = count_of v bs') as Hp.
  { intros bs bs' Heq. unfold count_of. by rewrite Heq. }
  rewrite (Hp _ _ (buckets_perm values)).
  enough (∀ bs, count_of v (foldl (λ counts x, count_value x counts) bs values) =
    length (filter (λ x, v = x) values) + count_of v bs) as ->
    by (unfold count_of; simpl; lia).
  induction values as [|x values IH]; intros bs; simpl; [done|].
  rewrite IH, count_value_spec, filter_cons. case_decide; simpl; lia.
Qed.
End bucket_facts.

(** ** Witnesses *)

Lemma event_stream_order_witness :
  ∃ w' st, emit_all [("run.started", None); ("run.finished", Some JNull)]
      (admin_world, mkStream "session-1" [] 0) = (Ret (), (w', st)) ∧
    re_type <$> es_events st = ["run.started"; "run.finished"] ∧
    re_sequence <$> es_events st = [1; 2] ∧
    (ev_json <$> order_desc ev_createdAt (events_of "session-1" w')) =
      reverse (run_event_json <$> es_events st) ++
      (ev_json <$> order_desc ev_createdAt (events_of "session-1" admin_world)).
Proof.
  apply (event_stream_order "session-1" [("run.started", None); ("run.finished", Some JNull)]).
  split; [done|intros k _; reflexivity|]. by_decision.
Defined.
