(* ===== verification/Bridge.v ===== *)
(** * The hook decision bridge

    [packages/opencode-sdk/src]: key normalization of payloads, the identity of
    an envelope, and the writer and reader of hook decisions
    ([decision-writer.ts], [HookInvocationLogsRepo.findLatestDecision]). *)

From S2P Require Import Prelude Json Domain Store Repos.
From Stdlib Require Import Ascii String.
From stdpp Require Import prelude list strings gmap.
Set Default Proof Using "Type".
Set Warnings "-clear-no-such-hyp".

(** ** Key normalization *)

Definition is_lower (c : ascii) : bool :=
  let n := nat_of_ascii c in ((97 <=? n) && (n <=? 122))%nat.
Definition is_upper (c : ascii) : bool :=
  let n := nat_of_ascii c in ((65 <=? n) && (n <=? 90))%nat.
Definition upper_ascii (c : ascii) : ascii :=
  if is_lower c then ascii_of_nat (nat_of_ascii c - 32) else c.
Definition lower_or_digit (c : ascii) : bool := is_lower c || is_digit c.
Definition UNDERSCORE : ascii := "_".

(** [value.replace(/([a-z0-9])([A-Z])/g, "$1_$2")]: both units of a match are
    consumed before the next match is looked for. *)
Fixpoint split_humps (s : string) : string :=
  match s with
  | String c (String d t as s') =>
    if lower_or_digit c && is_upper d then String c (String UNDERSCORE (String d (split_humps t)))
    else String c (split_humps s')
  | s => s
  end.

Definition is_separator (c : ascii) : bool := Ascii.eqb c "-" || is_ws c.

(** [value.replace(/[-\s]+/g, "_")]; [inside] says that the unit before was part
    of the same run. *)
Fixpoint join_separators (inside : bool) (s : string) : string :=
  match s with
  | EmptyString => EmptyString
  | String c t =>
    if is_separator c then
      if inside then join_separators true t else String UNDERSCORE (join_separators true t)
    else String c (join_separators false t)
  end.

Definition toSnakeCase (value : string) : string :=
  toLowerCase (join_separators false (split_humps value)).

(** [value.replace(/_([a-z])/g, (_, char) => char.toUpperCase())]. *)
Fixpoint toCamelCase (s : string) : string :=
  match s with
  | String c (String d t as s') =>
    if Ascii.eqb c UNDERSCORE && is_lower d then String (upper_ascii d) (toCamelCase t)
    else String c (toCamelCase s')
  | s => s
  end.

Section normalize.
Variable rename : string → string.

Fixpoint normalizeValue (value : json) : json :=
  match value with
  | JArr items => JArr (map normalizeValue items)
  | JObj members =>
    JObj ((fix go (ms : list (string * json)) (out : list (string * json)) :=
             match ms with
             | [] => out
             | (k, v) :: ms => go ms (set_member (rename k) (normalizeValue v) out)
             end) members [])
  | v => v
  end.

(** The loop over the members of an object. *)
Fixpoint normalize_members (ms out : list (string * json)) : list (string * json) :=
  match ms with
  | [] => out
  | (k, v) :: ms => normalize_members ms (set_member (rename k) (normalizeValue v) out)
  end.
End normalize.

Definition normalizeToSnakeCase : json → json := normalizeValue toSnakeCase.
Definition normalizeToCamelCase : json → json := normalizeValue toCamelCase.

(** A name used as a key of a payload does not survive: the decision recorded
    for the server [augment_context_engine] is read back under another name. *)
Example mcp_name_lost :
  normalizeToCamelCase (normalizeToSnakeCase
    (JObj [("decisions", JObj [("augment_context_engine", JStr "allow")])])) =
  JObj [("decisions", JObj [("augmentContextEngine", JStr "allow")])].
Proof. reflexivity. Qed.

(** ** Writing and reading decisions *)

Definition toEnvelopeId (sid envelopeId : string) : string :=
  if negb (String.eqb (trim envelopeId) "") then envelopeId else sid.

Section bridge.
Context `{Env}.

(** The result is the record, or the message of the error that was caught.  The
    parameters [id] and [timestamp] are what the callers pass. *)
Definition writeHookDecision (sid envelopeId hookName : string) (decision : HookDecision)
    (reason : string) (payloadIn payloadOut : json) (durationMs : option nat)
    (id timestamp : option string) : M World (HookInvocationLog + string) :=
  try_catch
    (id' ← or_run id (createId "hook-log");
     timestamp' ← or_run timestamp nowIso;
     let record := mkHookLog id' sid (toEnvelopeId sid envelopeId) hookName
       (normalizeToSnakeCase payloadIn) (normalizeToSnakeCase payloadOut) decision reason
       (durationMs or_else 0) timestamp' in
     _ ← HookInvocationLogsRepo.save record;
     mret (inl record))
    (λ message, mret (inr message)).
End bridge.

(** [toHookLog]. *)
Definition toHookLog (r : HookInvocationLog) : HookInvocationLog :=
  mkHookLog (hl_id r) (hl_sessionId r) (hl_envelopeId r) (hl_hookName r)
    (normalizeToCamelCase (hl_input r)) (normalizeToCamelCase (hl_output r))
    (hl_decision r) (hl_reason r) (hl_durationMs r) (hl_timestamp r).

Definition findLatestDecision (sid envelopeId hookName : string) :
    M World (option HookInvocationLog) :=
  row ← HookInvocationLogsRepo.find_latest_row sid envelopeId hookName;
  mret (toHookLog <$> row).

(** ** Facts: the round trip of keys *)

(** A camel-case key: letters and digits, every capital after a small letter or
    a digit, and the one after a capital small or a digit. *)
Fixpoint camel_tail (prev : bool) (s : string) : bool :=
  match s with
  | EmptyString => true
  | String c t => (lower_or_digit c || is_upper c && prev) && camel_tail (lower_or_digit c) t
  end.

Definition camel_key (s : string) : bool := camel_tail false s.

(** All keys of a document are camel case and no object repeats one. *)
Fixpoint camel_doc (v : json) : Prop :=
  match v with
  | JArr items => foldr (λ x P, camel_doc x ∧ P) True items
  | JObj members =>
    NoDup (fst <$> members) ∧ foldr (λ m P, (camel_key m.1 = true ∧ camel_doc m.2) ∧ P) True members
  | _ => True
  end.

Ltac by_units c := destruct c as [[] [] [] [] [] [] [] []]; vm_compute; done.

Lemma lower_or_digit_facts c : lower_or_digit c = true →
  is_separator c = false ∧ lower_ascii c = c ∧ Ascii.eqb c UNDERSCORE = false.
Proof. by_units c. Qed.

Lemma is_upper_facts c : is_upper c = true →
  is_separator c = false ∧ is_lower (lower_ascii c) = true ∧ upper_ascii (lower_ascii c) = c ∧
  lower_or_digit c = false.
Proof. by_units c. Qed.

Lemma toCamelCase_cons c t : Ascii.eqb c UNDERSCORE = false →
  toCamelCase (String c t) = String c (toCamelCase t).
Proof. intros Hc. destruct t as [|d t]; simpl; [done|]. by rewrite Hc. Qed.

Lemma snake_camel_key s : camel_key s = true → toCamelCase (toSnakeCase s) = s.
Proof.
  unfold camel_key, toSnakeCase.
  enough (∀ n s, String.length s ≤ n → camel_tail false s = true →
    toCamelCase (toLowerCase (join_separators false (split_humps s))) = s) as Hgen
    by by apply (Hgen (String.length s)).
  clear s. intros n. induction n as [|n IH]; intros [|c s] Hlen Hk; simpl in Hlen; try done; [lia|].
  simpl in Hk. rewrite andb_false_r, orb_false_r in Hk. apply andb_prop in Hk as [Hc Hk].
  destruct (lower_or_digit_facts c Hc) as (Sc & Lc & Uc). rewrite Hc in Hk.
  destruct s as [|d t]; [simpl; by rewrite Sc; simpl; rewrite Lc|].
  simpl in Hlen, Hk. apply andb_prop in Hk as [Hd Hk].
  destruct (is_upper d) eqn:Ed.
  - destruct (is_upper_facts d Ed) as (Sd & Ld & Ud & Nd). rewrite Nd in Hk.
    change (split_humps (String c (String d t))) with
      (if lower_or_digit c && is_upper d then String c (String UNDERSCORE (String d (split_humps t)))
       else String c (split_humps (String d t))).
    rewrite Hc, Ed. cbn [andb join_separators]. rewrite Sc.
    change (is_separator UNDERSCORE) with false. cbn [join_separators]. rewrite Sd.
    cbn [toLowerCase]. rewrite Lc, toCamelCase_cons by done. f_equal.
    change (lower_ascii UNDERSCORE) with UNDERSCORE. cbn [toCamelCase]. rewrite Ld. simpl.
    rewrite Ud. f_equal. apply IH; [lia|done].
  - rewrite andb_false_l, orb_false_r in Hd.
    change (split_humps (String c (String d t))) with
      (if lower_or_digit c && is_upper d then String c (String UNDERSCORE (String d (split_humps t)))
       else String c (split_humps (String d t))).
    rewrite Ed, andb_false_r. cbn [join_separators]. rewrite Sc. cbn [toLowerCase].
    rewrite Lc, toCamelCase_cons by done. f_equal. apply IH; [simpl; lia|].
    rewrite Hd in Hk. simpl. by rewrite Hd, Hk.
Qed.

(** Renaming without collisions maps the members one by one. *)
Lemma normalize_members_map rename ms out :
  NoDup ((fst <$> out) ++ (rename ∘ fst <$> ms)) →
  normalize_members rename ms out =
  out ++ ((λ m, (rename m.1, normalizeValue rename m.2)) <$> ms).
Proof.
  revert out. induction ms as [|[k v] ms IH]; intros out Hn; csimpl; [by rewrite app_nil_r|].
  rewrite set_member_new.
  - rewrite IH; [by rewrite <- app_assoc|]. rewrite fmap_app, <- app_assoc. exact Hn.
  - apply NoDup_app in Hn as (_ & Hd & _). intros Hin. apply (Hd _ Hin). csimpl.
    apply elem_of_cons. by left.
Qed.

Lemma normalize_object rename members :
  NoDup (rename ∘ fst <$> members) →
  normalizeValue rename (JObj members) =
  JObj ((λ m, (rename m.1, normalizeValue rename m.2)) <$> members).
Proof.
  intros Hn. rewrite <- (app_nil_l (_ <$> members)), <- normalize_members_map by done.
  reflexivity.
Qed.

Lemma camel_members members :
  foldr (λ m P, (camel_key m.1 = true ∧ camel_doc m.2) ∧ P) True members →
  Forall (λ m, camel_key m.1 = true ∧ camel_doc m.2) members.
Proof. induction members as [|m ms IH]; simpl; [done|]. intros [? ?]. constructor; auto. Qed.

Lemma camel_items items :
  foldr (λ x P, camel_doc x ∧ P) True items → Forall camel_doc items.
Proof. induction items as [|m ms IH]; simpl; [done|]. intros [? ?]. constructor; auto. Qed.

Lemma snake_keys_distinct (members : list (string * json)) :
  Forall (λ m, camel_key m.1 = true ∧ camel_doc m.2) members →
  NoDup (fst <$> members) → NoDup (toSnakeCase ∘ fst <$> members).
Proof.
  intros Hall Hn. apply (NoDup_fmap_1 toCamelCase). rewrite <- list_fmap_compose.
  erewrite (list_fmap_ext _ fst); [exact Hn|]. intros i m Hm. simpl. apply snake_camel_key.
  rewrite Forall_forall in Hall. apply (Hall m). by eapply list_elem_of_lookup_2.
Qed.

(** A payload with camel-case keys is read back as it was written. *)
Lemma normalize_round_trip v : camel_doc v → normalizeToCamelCase (normalizeToSnakeCase v) = v.
Proof.
  unfold normalizeToCamelCase, normalizeToSnakeCase.
  induction v as [| | |s|items IH|members IH] using json_nested_ind; intros Hd; try done.
  - simpl. f_equal. apply camel_items in Hd.
    induction IH as [|v vs Hv _ IHvs]; simpl; [done|].
    apply Forall_cons in Hd as [? ?]. f_equal; auto.
  - destruct Hd as [Hn Hall%camel_members].
    rewrite normalize_object by by apply snake_keys_distinct.
    assert ((toCamelCase ∘ fst <$>
        ((λ m, (toSnakeCase m.1, normalizeValue toSnakeCase m.2)) <$> members)) = fst <$> members) as Hk.
    { rewrite <- list_fmap_compose. apply list_fmap_ext. intros i m Hm. simpl.
      apply snake_camel_key. rewrite Forall_forall in Hall. apply (Hall m).
      by eapply list_elem_of_lookup_2. }
    rewrite normalize_object by by rewrite Hk. f_equal. rewrite <- list_fmap_compose.
    clear Hk Hn. induction IH as [|[k v] vs Hv _ IHvs]; csimpl; [done|].
    apply Forall_cons in Hall as [[Hk Hv'] Hall]. simpl in *.
    rewrite snake_camel_key, Hv by done. f_equal. by apply IHvs.
Qed.

Section latest.
Import HookInvocationLogsRepo.

Lemma first_ranked_elem eid rows r : first_ranked eid rows = Some r → r ∈ rows.
Proof.
  unfold first_ranked.
  enough (∀ best, foldl (λ best r, match best with
      | Some b => if ranks_before eid r b then Some r else Some b | None => Some r end) best rows = Some r →
    r ∈ rows ∨ best = Some r) as Hgen by (intros Hf; by destruct (Hgen _ Hf)).
  induction rows as [|x rows IH]; intros best; simpl; [by right|]. intros Hf.
  rewrite elem_of_cons. destruct (IH _ Hf) as [?|Hb]; [tauto|].
  destruct best as [b|]; [|left; left; congruence].
  destruct (ranks_before eid x b); [left; left; congruence|by right].
Qed.

(** A row that ranks before all earlier ones is the one found. *)
Lemma first_ranked_snoc eid rows r :
  Forall (λ x, ranks_before eid r x = true) rows → first_ranked eid (rows ++ [r]) = Some r.
Proof.
  intros Hall. unfold first_ranked. rewrite foldl_app. simpl. fold (first_ranked eid rows).
  destruct (first_ranked eid rows) as [b|] eqn:E; [|done].
  apply first_ranked_elem in E. rewrite Forall_forall in Hall. by rewrite (Hall b E).
Qed.

Lemma toEnvelopeId_visible sid eid hook id pin pout d reason dur t :
  visible sid eid hook (mkHookLog id sid (toEnvelopeId sid eid) hook pin pout d reason dur t) = true.
Proof.
  unfold visible, toEnvelopeId. simpl. rewrite !String.eqb_refl. simpl.
  destruct (String.eqb_spec eid "") as [->|]; simpl; [by rewrite String.eqb_refl|].
  destruct (String.eqb (trim eid) ""); simpl; by rewrite String.eqb_refl, ?orb_true_r.
Qed.

Lemma newest_ranks_first sid eid hook r x :
  eid = "" ∨ trim eid ≠ "" → visible sid eid hook x = true →
  hl_envelopeId r = toEnvelopeId sid eid →
  String.leb (hl_timestamp r) (hl_timestamp x) = false → ranks_before eid r x = true.
Proof.
  intros Heid Hv He Ht. unfold ranks_before. rewrite He, Ht. unfold toEnvelopeId. simpl.
  destruct Heid as [->|Hne].
  - simpl. unfold visible in Hv. simpl in Hv.
    apply andb_prop in Hv as [[Hs _]%andb_prop Henv]. apply String.eqb_eq in Hs, Henv.
    rewrite Henv, Hs. by destruct (String.eqb sid "").
  - rewrite (proj2 (String.eqb_neq _ _) Hne). simpl. rewrite String.eqb_refl. simpl.
    by destruct (String.eqb (hl_envelopeId x) eid).
Qed.
End latest.

(** ** Property of the bridge *)

(** The rows that a decision could be taken for are older than [t]. *)
Definition older_rows (sid eid hook t : string) (rows : list HookInvocationLog) : Prop :=
  Forall (λ x, HookInvocationLogsRepo.visible sid eid hook x = true → String.leb t (hl_timestamp x) = false) rows.

Lemma newest_row_found sid eid hook rows r w :
  eid = "" ∨ trim eid ≠ "" → hl_sessionId r = sid → hl_hookName r = hook → hl_envelopeId r = toEnvelopeId sid eid →
  older_rows sid eid hook (hl_timestamp r) rows → w_hookLogs w = rows ++ [r] →
  HookInvocationLogsRepo.find_latest_row sid eid hook w = (Ret (Some r), w).
Proof.
  intros Heid Hs Hh He Hold Hw. unfold HookInvocationLogsRepo.find_latest_row, gets. rewrite Hw, filter_app, (filter_cons_True _ r []), filter_nil
    by (destruct r; simpl in *; subst; apply toEnvelopeId_visible).
  rewrite first_ranked_snoc; [done|]. apply Forall_forall. intros x [Hv Hx]%list_elem_of_filter.
  unfold older_rows in Hold. rewrite Forall_forall in Hold. eapply newest_ranks_first; [done|exact Hv|done|]. by apply Hold.
Qed.

(** A hook decision is read back as it was written: with an unused id and a
    timestamp later than the decisions visible so far, [writeHookDecision]
    succeeds and [findLatestDecision] for the same session, envelope and hook
    returns that decision, its payloads unchanged through the snake-case column
    when their keys are camel case. *)
Theorem hook_decision_round_trip `{Env} sid eid hook decision reason pin pout dur w :
  eid = "" ∨ trim eid ≠ "" → camel_doc pin → camel_doc pout →
  has_key hl_id (draw_id "hook-log" (w_draws w)) (w_hookLogs w) = false →
  older_rows sid eid hook (clock (w_ticks w)) (w_hookLogs w) →
  ∃ w' r, writeHookDecision sid eid hook decision reason pin pout dur None None w = (Ret (inl r), w') ∧
    findLatestDecision sid eid hook w' =
      (Ret (Some (mkHookLog (draw_id "hook-log" (w_draws w)) sid (toEnvelopeId sid eid) hook
                    pin pout decision reason (dur or_else 0) (clock (w_ticks w)))), w').
Proof.
  intros Heid Hin Hout Hid Hold.
  set (r := mkHookLog (draw_id "hook-log" (w_draws w)) sid (toEnvelopeId sid eid) hook
    (normalizeToSnakeCase pin) (normalizeToSnakeCase pout) decision reason (dur or_else 0)
    (clock (w_ticks w))).
  eexists (set_hookLogs (w_hookLogs w ++ [r])
    (set_ticks (S (w_ticks w)) (set_draws (S (w_draws w)) w))), r. split.
  - unfold writeHookDecision, try_catch. repeat (autounfold with dh_ops; simpl). by rewrite Hid.
  - unfold findLatestDecision.
    erewrite bind_run by (by apply (newest_row_found sid eid hook (w_hookLogs w) r)).
    unfold toHookLog. simpl. by rewrite !normalize_round_trip.
Qed.

Definition demo_payload : json :=
  JObj [("toolName", JStr "bash"); ("evidenceScore", JNum "1"); ("nested", JObj [("isOk2Go", JNull)])].

Lemma hook_decision_round_trip_witness :
  ∃ w' r, writeHookDecision "session-1" "env-1" "pre_answer" hd_allow "ok" demo_payload demo_payload
      None None None empty_world = (Ret (inl r), w') ∧
    findLatestDecision "session-1" "env-1" "pre_answer" w' =
      (Ret (Some (mkHookLog (draw_id "hook-log" 0) "session-1" (toEnvelopeId "session-1" "env-1")
                    "pre_answer" demo_payload demo_payload hd_allow "ok" 0 (clock 0))), w').
Proof.
  apply (hook_decision_round_trip "session-1" "env-1" "pre_answer" hd_allow "ok"
           demo_payload demo_payload None empty_world); [by right| | |done|constructor];
  (split; [by_decision|]); repeat split; by_decision.
Defined.
