(* ===== verification/Hooks.v ===== *)
(** * Runtime hooks: bash guard, evidence gate, enforcer

    [packages/runtime/src/hooks/bash-guard.ts], [evidence-gate.ts],
    [enforcement-writer.ts], [runtime-enforcer.ts], and
    [normalizeStructuralEvidenceResult] of
    [packages/runtime/src/workflow/quality-gates-runtime.ts]. *)

From S2P Require Import Prelude Json Domain Store Repos Regex Bridge.
From Stdlib Require Import Ascii String QArith Qround Qabs.
From stdpp Require Import prelude list strings gmap pretty.
Set Default Proof Using "Type".
Set Warnings "-clear-no-such-hyp".

(** ** The bash guard *)

Inductive BashGuardLevel : Type := strict | advisory.
Inductive ShellPermissionLevel : Type := deny | ask | allow | auto_approve_with_policy.

Record BashGuardDecision : Type := mkGuard {
  g_allowed : bool;
  g_blocked : bool;
  g_reason : string;
  g_suggestion : option string;
  g_category : option string;
}.

Record ShellPermissionDecision : Type := mkPermission {
  sp_decision : BashGuardDecision;
  sp_permissionLevel : ShellPermissionLevel;
  sp_requiresPermission : bool;
}.

Record BashSubstitutionRule : Type := mkRule {
  rule_pattern : regex;
  rule_category : string;
  rule_suggestion : string;
}.

(** [\bw\b] for one of the words. *)
Definition whole_word (ws : list string) : regex := seqs [RWordB; RAny (map lit ws); RWordB].

Definition SUBSTITUTION_RULES : list BashSubstitutionRule := [
  mkRule (whole_word ["grep"]) "content-search"
    "Use dh.find-references, dh.find-symbol, or Grep tool.";
  mkRule (seqs [RWordB; lit_i "cat"; RWordB; RPlus ws; RPlus dot; chr "."; RGroup 1
            (RAny (map lit_i ["ts"; "tsx"; "js"; "jsx"; "go"; "py"; "rs"])); RWordB])
    "file-read" "Use view tool or dh.syntax-outline first.";
  mkRule (seqs [RWordB; lit "find"; RWordB; RPlus ws; RStar dot; lit "-name"; RWordB])
    "file-discovery" "Use glob tool or dh.find-symbol.";
  mkRule (whole_word ["sed"; "awk"]) "file-edit"
    "Use edit/patch tools instead of stream editing.";
  mkRule (whole_word ["head"; "tail"]) "partial-read" "Use view tool with offset/limit.";
  mkRule (whole_word ["wc"]) "count" "Use diagnostics/read-based counting in tooling."
].

Definition ALLOWED_PREFIXES : list string := [
  "git"; "npm"; "pnpm"; "yarn"; "bun"; "node"; "npx"; "docker"; "make"; "cargo"; "go"; "python";
  "pip"; "pytest"; "vitest"; "tsc"; "eslint"].

(** [first.slice(0, first.indexOf(splitter))] when the splitter occurs. *)
Definition cut_at (first splitter : string) : string :=
  match indexOf first splitter with
  | Some idx => String.substring 0 idx first
  | None => first
  end.

(** [s.split(sep)[0]] for a separator of one unit of the class. *)
Fixpoint first_field (sep : ascii → bool) (s : string) : string :=
  match s with
  | EmptyString => EmptyString
  | String c t => if sep c then EmptyString else String c (first_field sep t)
  end.

Definition parseBaseCommand (command : string) : string :=
  first_field is_ws (trim (foldl cut_at command ["&&"; ";"; "||"; "|"])).

Definition allowed_base (base : string) : bool :=
  existsb (λ prefix, String.eqb base prefix || startsWith base (prefix +:+ " ")) ALLOWED_PREFIXES.

Definition matching_rule (trimmed : string) : option BashSubstitutionRule :=
  List.find (λ rule, test (rule_pattern rule) trimmed) SUBSTITUTION_RULES.

Definition evaluateBashCommand (command : string) (level : BashGuardLevel) : BashGuardDecision :=
  let trimmed := trim command in
  if String.eqb trimmed "" then mkGuard true false "empty command" None None else
  let base := parseBaseCommand trimmed in
  if allowed_base base
  then mkGuard true false
         ("Allowed command prefix '" +:+ first_field (Ascii.eqb " ") base +:+ "'.") None None
  else match matching_rule trimmed with
       | None => mkGuard true false "No blocked pattern matched." None None
       | Some rule =>
         match level with
         | advisory =>
           mkGuard true false ("Advisory: command matched " +:+ rule_category rule +:+ ".")
             (Some (rule_suggestion rule)) (Some (rule_category rule))
         | strict =>
           mkGuard false true ("Blocked by bash guard (" +:+ rule_category rule +:+ ").")
             (Some (rule_suggestion rule)) (Some (rule_category rule))
         end
       end.

Definition evaluateShellPermission (command : string) (level : ShellPermissionLevel) :
    ShellPermissionDecision :=
  match level with
  | deny => mkPermission (mkGuard false true "Shell command denied by permission policy." None None)
              level false
  | ask => mkPermission (mkGuard false false "Shell command requires permission before execution."
                           None None) level true
  | allow => mkPermission (evaluateBashCommand command advisory) level false
  | auto_approve_with_policy => mkPermission (evaluateBashCommand command strict) level false
  end.

Example guard_demo :
  g_category (evaluateBashCommand "  cat src/Main.TS | head" strict) = Some "file-read" ∧
  g_allowed (evaluateBashCommand "git status | grep x" strict) = true ∧
  g_blocked (evaluateBashCommand "find . -name x" strict) = true ∧
  g_allowed (evaluateBashCommand "egrep x" strict) = true.
Proof. vm_compute. done. Qed.

(** ** The evidence gate *)

Record StructuralIntentRule : Type := mkIntent {
  ir_pattern : regex;
  ir_requiredTools : list string;
  ir_suggestion : string;
}.

(** [/\b(w1|w2|...)\b/i], the alternatives given as expressions. *)
Definition intent_pattern (alternatives : list regex) : regex :=
  seqs [RWordB; RGroup 1 (RAny alternatives); RWordB].

(** [word?] where the last unit is optional. *)
Definition plural (w : string) : regex := RSeq (lit_i w) (ROpt (lit_i "s")).

Definition STRUCTURAL_INTENT_RULES : list StructuralIntentRule := [
  mkIntent (intent_pattern [lit_i "who calls"; lit_i "what calls"; lit_i "call hierarchy";
                            plural "caller"; plural "callee"])
    ["dh.call-hierarchy"] "Run dh.call-hierarchy before answering call relationship questions.";
  mkIntent (intent_pattern (map lit_i ["depends on"; "depend on"; "imports"; "dependencies"]))
    ["dh.find-dependencies"; "dh.find-dependents"]
    "Run dh.find-dependencies or dh.find-dependents before dependency claims.";
  mkIntent (intent_pattern [lit_i "references"; lit_i "used by"; plural "usage"])
    ["dh.find-references"] "Run dh.find-references before reporting usages.";
  mkIntent (intent_pattern (map lit_i ["refactor"; "rename"; "impact analysis"; "breaking change"]))
    ["dh.find-references"; "dh.find-dependents"]
    "Run dh.find-references + dh.find-dependents before impact analysis."
].

Record EvidenceGateDecision : Type := mkEvidenceGate {
  eg_allowed : bool;
  eg_reason : string;
  eg_suggestion : option string;
}.

(** [x.toFixed(2)] for a number below 1e21: the nearest multiple of 1/100, the
    larger one of two. *)
Definition toFixed2 (x : Q) : string :=
  let n := Qfloor (Qabs x * 100 + (1 # 2)) in
  (if Qle_bool 0 x then "" else "-") +:+ pretty (n / 100)%Z +:+ "." +:+
  pretty (n / 10 mod 10)%Z +:+ pretty (n mod 10)%Z.

Definition intent_rule (text : string) : option StructuralIntentRule :=
  List.find (λ rule, test (ir_pattern rule) text) STRUCTURAL_INTENT_RULES.

(** [matchedRule.requiredTools.some((tool) => lowerTools.has(tool.toLowerCase()))]. *)
Definition has_required_tool (rule : StructuralIntentRule) (toolsUsed : list string) : bool :=
  existsb (λ tool, bool_decide (toLowerCase tool ∈ (toLowerCase <$> toolsUsed))) (ir_requiredTools rule).

Definition Qltb (a b : Q) : bool := negb (Qle_bool b a).

Definition evaluateEvidence (userIntentText : string) (toolsUsed : list string)
    (evidenceScore : Q) (threshold : option Q) : EvidenceGateDecision :=
  let threshold := threshold or_else (1 # 2) in
  match intent_rule userIntentText with
  | None => mkEvidenceGate true "Non-structural intent; evidence gate passed." None
  | Some rule =>
    if negb (has_required_tool rule toolsUsed)
    then mkEvidenceGate false "Missing structural graph-tool evidence for intent."
           (Some (ir_suggestion rule))
    else if Qltb evidenceScore threshold
    then mkEvidenceGate false
           ("Evidence score " +:+ toFixed2 evidenceScore +:+ " is below threshold " +:+
            toFixed2 threshold +:+ ".")
           (Some "Gather more structural evidence before final response.")
    else mkEvidenceGate true "Structural evidence requirements satisfied." None
  end.

Example evidence_demo :
  eg_allowed (evaluateEvidence "Who calls foo?" ["DH.call-hierarchy"] (9 # 10) None) = true ∧
  eg_reason (evaluateEvidence "list usages" ["dh.find-references"] (1 # 3) None) =
    "Evidence score 0.33 is below threshold 0.50." ∧
  eg_allowed (evaluateEvidence "callersX" [] 0 None) = true.
Proof. vm_compute. done. Qed.

(** ** Normalization of the gate's result *)

Inductive QualityStatus : Type := q_pass | q_fail | q_not_run.

Record QualityGateResult : Type := mkQuality {
  qr_gateId : string;
  qr_status : QualityStatus;
  qr_reason : string;
  qr_evidence : list string;
  qr_limitations : list string;
}.

Definition normalizeStructuralEvidenceResult (evaluated : bool) (allowed : option bool)
    (reason suggestion : option string) (toolsUsed : option (list string)) (evidenceScore : option Q) :
    QualityGateResult :=
  if negb evaluated
  then mkQuality "structural_evidence" q_not_run
         "Structural evidence gate was not evaluated in this workflow run." [] []
  else
    let ok := default false allowed in
    let toolEvidence := match toolsUsed with
                        | Some (t :: ts) => ["tools used: " +:+ Prelude.join ", " (t :: ts)]
                        | _ => []
                        end in
    let scoreEvidence := match evidenceScore with
                         | Some q => ["evidence score: " +:+ toFixed2 q]
                         | None => []
                         end in
    mkQuality "structural_evidence" (if ok then q_pass else q_fail)
      (reason or_else if ok then "Structural evidence gate passed." else "Structural evidence gate failed.")
      (toolEvidence ++ scoreEvidence)
      (if ok then [] else match suggestion with
                          | Some s => if String.eqb s "" then [] else [s]
                          | None => []
                          end).

(** ** Recording decisions *)

(** [String(toolArgs.command ?? "")]. *)
Definition command_of (toolArgs : json) : string :=
  match json_get "command" toolArgs with
  | None | Some JNull => ""
  | Some v => js_String v
  end.

Definition guard_json (d : BashGuardDecision) : json :=
  JObj ([("allowed", JBool (g_allowed d)); ("blocked", JBool (g_blocked d));
         ("reason", JStr (g_reason d))]
        ++ opt_str "suggestion" (g_suggestion d) ++ opt_str "category" (g_category d)).

Definition quality_status_name (s : QualityStatus) : string :=
  match s with q_pass => "pass" | q_fail => "fail" | q_not_run => "not_run" end.

Definition quality_json (r : QualityGateResult) : json :=
  JObj [("gateId", JStr (qr_gateId r)); ("status", JStr (quality_status_name (qr_status r)));
        ("reason", JStr (qr_reason r)); ("evidence", JArr (map JStr (qr_evidence r)));
        ("limitations", JArr (map JStr (qr_limitations r)))].

Definition evidence_json (d : EvidenceGateDecision) (q : QualityGateResult) : json :=
  JObj ([("allowed", JBool (eg_allowed d)); ("reason", JStr (eg_reason d))]
        ++ opt_str "suggestion" (eg_suggestion d) ++ [("qualityGate", quality_json q)]).

Section enforcer.
Context `{Env}.
(** The literal that [JSON.stringify] prints for a number. *)
Variable num_literal : Q → string.

Definition writeBashGuardDecision (sid envelopeId command : string) (result : BashGuardDecision)
    (durationMs : option nat) : M World () :=
  id ← createId "hook-log";
  timestamp ← nowIso;
  _ ← writeHookDecision sid envelopeId "pre_tool_exec"
        (if g_allowed result then hd_allow else hd_block) (g_reason result)
        (JObj [("command", JStr command)]) (guard_json result) (Some (durationMs or_else 0))
        (Some id) (Some timestamp);
  mret ().

Definition writeEvidenceGateDecision (sid envelopeId intent : string) (toolsUsed : list string)
    (evidenceScore : Q) (result : EvidenceGateDecision) (gate : QualityGateResult)
    (durationMs : option nat) : M World () :=
  id ← createId "hook-log";
  timestamp ← nowIso;
  _ ← writeHookDecision sid envelopeId "pre_answer"
        (if eg_allowed result then hd_allow else hd_block) (eg_reason result)
        (JObj [("intent", JStr intent); ("toolsUsed", JArr (map JStr toolsUsed));
               ("evidenceScore", JNum (num_literal evidenceScore))])
        (evidence_json result gate) (Some (durationMs or_else 0)) (Some id) (Some timestamp);
  mret ().

Definition audit_tool (sid envelopeId : string) (role : AgentRole) (intent toolName : string)
    (status : ToolUsageStatus) : M World () :=
  id ← createId "tool-audit";
  timestamp ← nowIso;
  ToolUsageAuditRepo.save (mkToolUsage id sid envelopeId role intent toolName status timestamp).

Definition BYPASSED : BashGuardDecision :=
  mkGuard true false "Non-bash tool; guard bypassed." None None.

(** The result is [(allow, reason)]. *)
Definition preToolExec (sid envelopeId : string) (role : AgentRole) (intent toolName : string)
    (toolArgs : json) : M World (bool * string) :=
  if negb (String.eqb toolName "bash") && negb (String.eqb toolName "shell") then
    _ ← writeBashGuardDecision sid envelopeId ("[tool:" +:+ toolName +:+ "]") BYPASSED None;
    _ ← audit_tool sid envelopeId role intent toolName tu_called;
    mret (true, "Non-bash tool; guard bypassed.")
  else
    session ← SessionsRepo.findById sid;
    let level := match toolEnforcementLevel <$> session with
                 | Some very_hard => strict
                 | None => advisory
                 end in
    let command := command_of toolArgs in
    let decision := evaluateBashCommand command level in
    _ ← writeBashGuardDecision sid envelopeId command decision None;
    _ ← audit_tool sid envelopeId role intent toolName
          (if g_allowed decision then tu_succeeded else tu_failed);
    mret (g_allowed decision, g_reason decision).

(** The result is [(allow, action, reason)]. *)
Definition preAnswer (sid envelopeId intentText : string) (toolsUsed : list string)
    (evidenceScore : Q) : M World (bool * string * string) :=
  let decision := evaluateEvidence intentText toolsUsed evidenceScore (Some (1 # 2)) in
  let structuralEvidence := normalizeStructuralEvidenceResult true (Some (eg_allowed decision))
    (Some (eg_reason decision)) (eg_suggestion decision) (Some toolsUsed) (Some evidenceScore) in
  _ ← writeEvidenceGateDecision sid envelopeId intentText toolsUsed evidenceScore decision
        structuralEvidence None;
  mret (eg_allowed decision, if eg_allowed decision then "finalize" else "retry_with_more_evidence",
        eg_reason decision).
End enforcer.

(** ** Facts about the guard *)

Lemma matching_rule_spec trimmed :
  match matching_rule trimmed with
  | Some rule => rule ∈ SUBSTITUTION_RULES ∧ occurs (rule_pattern rule) [] (list_ascii_of_string trimmed)
  | None => ∀ rule, rule ∈ SUBSTITUTION_RULES →
              ¬ occurs (rule_pattern rule) [] (list_ascii_of_string trimmed)
  end.
Proof.
  unfold matching_rule. destruct (List.find _ SUBSTITUTION_RULES) as [rule|] eqn:E.
  - apply List.find_some in E as [Hin Ht]. split; [by apply list_elem_of_In|]. by apply test_correct.
  - intros rule Hin%list_elem_of_In Hocc%test_correct.
    pose proof (List.find_none _ _ E rule Hin) as Hn. simpl in Hn. congruence.
Qed.

(** The commands that the strict guard lets through. *)
Definition guard_passes (command : string) : Prop :=
  trim command = "" ∨ allowed_base (parseBaseCommand (trim command)) = true ∨
  ∀ rule, rule ∈ SUBSTITUTION_RULES →
    ¬ occurs (rule_pattern rule) [] (list_ascii_of_string (trim command)).

Lemma strict_guard_exact command :
  (g_allowed (evaluateBashCommand command strict) = true ↔ guard_passes command) ∧
  g_blocked (evaluateBashCommand command strict) = negb (g_allowed (evaluateBashCommand command strict)) ∧
  g_allowed (evaluateBashCommand command advisory) = true.
Proof.
  unfold evaluateBashCommand, guard_passes. cbv zeta.
  destruct (String.eqb_spec (trim command) "") as [|Hne]; simpl; [tauto|].
  destruct (allowed_base _); simpl; [tauto|].
  pose proof (matching_rule_spec (trim command)) as Hm.
  destruct (matching_rule (trim command)) as [rule|]; simpl; [|tauto].
  destruct Hm as [Hin Hocc]. split; [|done]. split; [done|].
  intros [?|[?|Hall]]; [done..|]. destruct (Hall rule Hin Hocc).
Qed.

(** What follows an allowed first command is not looked at. *)
Lemma allowed_prefix_hides_rest rest level :
  g_allowed (evaluateBashCommand ("git && " +:+ rest) level) = true.
Proof.
  unfold evaluateBashCommand, trim.
  assert (trimStart ("git && " +:+ rest) = "git && " +:+ rest) as -> by done.
  assert (∃ t, trimEnd ("git && " +:+ rest) = "git &&" +:+ t) as (t & ->).
  { cbv [String.append]. cbn [trimEnd]. destruct (trimEnd rest) as [|c s].
    - by exists "".
    - by exists (String " " (String c s)). }
  by destruct t.
Qed.

(** ** Properties of the hooks *)

(** The draws to come are new to both audit tables. *)
Definition audit_ready `{Env} (w : World) : Prop :=
  draws_fresh hl_id "hook-log" (w_hookLogs w) (w_draws w) ∧
  draws_fresh tu_id "tool-audit" (w_toolAudit w) (w_draws w).

(** One decision was logged and one use of the tool audited, and both say what
    was decided. *)
Definition audited_as (w w' : World) (sid toolName : string) (allowed : bool) : Prop :=
  ∃ log use, w_hookLogs w' = w_hookLogs w ++ [log] ∧ w_toolAudit w' = w_toolAudit w ++ [use] ∧
    hl_sessionId log = sid ∧ hl_hookName log = "pre_tool_exec" ∧
    hl_decision log = (if allowed then hd_allow else hd_block) ∧
    tu_sessionId use = sid ∧ tu_toolName use = toolName ∧
    (tu_status use = tu_failed ↔ allowed = false).

(** The row of a decision of the guard. *)
Definition guard_row `{Env} (w : World) (sid eid command : string) (d : BashGuardDecision) : HookInvocationLog :=
  mkHookLog (draw_id "hook-log" (w_draws w)) sid (toEnvelopeId sid eid) "pre_tool_exec"
    (normalizeToSnakeCase (JObj [("command", JStr command)])) (normalizeToSnakeCase (guard_json d))
    (if g_allowed d then hd_allow else hd_block) (g_reason d) 0 (clock (w_ticks w)).

Lemma record_decision `{Env} sid eid role intent toolName command d status w :
  audit_ready w →
  (status = tu_failed ↔ g_allowed d = false) →
  ∃ w', (_ ← writeBashGuardDecision sid eid command d None;
         _ ← audit_tool sid eid role intent toolName status; mret (g_allowed d, g_reason d)) w
        = (Ret (g_allowed d, g_reason d), w') ∧ audited_as w w' sid toolName (g_allowed d) ∧
        w_hookLogs w' = w_hookLogs w ++ [guard_row w sid eid command d].
Proof.
  intros [Hl Ht] Hst. eexists. split.
  - unfold writeBashGuardDecision, audit_tool, writeHookDecision, try_catch.
    repeat (autounfold with dh_ops; simpl).
    rewrite (Hl (w_draws w)) by lia. simpl. rewrite (Ht (S (w_draws w))) by lia. reflexivity.
  - split; [|reflexivity]. eexists _, _. split_and!; reflexivity || exact Hst.
Qed.

(** A run of the enforcer: what it decides, and the rows it leaves. *)
Lemma preToolExec_run `{Env} sid eid role intent toolName toolArgs w :
  audit_ready w →
  ∃ command d w', preToolExec sid eid role intent toolName toolArgs w = (Ret (g_allowed d, g_reason d), w') ∧
    (g_allowed d = false ↔
       (toolName = "bash" ∨ toolName = "shell") ∧ has_key sessionId sid (w_sessions w) = true ∧
       ¬ guard_passes (command_of toolArgs)) ∧
    audited_as w w' sid toolName (g_allowed d) ∧ w_hookLogs w' = w_hookLogs w ++ [guard_row w sid eid command d].
Proof.
  intros Hr. unfold preToolExec.
  destruct (negb (String.eqb toolName "bash") && negb (String.eqb toolName "shell")) eqn:E.
  - destruct (record_decision sid eid role intent toolName ("[tool:" +:+ toolName +:+ "]") BYPASSED
      tu_called w Hr) as (w' & Hrun & Ha); [by split|].
    eexists _, BYPASSED, w'. split_and!; [exact Hrun| |exact (proj1 Ha)|exact (proj2 Ha)].
    apply andb_prop in E as [?%negb_true_iff%String.eqb_neq ?%negb_true_iff%String.eqb_neq].
    split; [done|]. intros ([?|?] & _); contradiction.
  - rewrite (bind_run _ _ w (find_row sessionId sid (w_sessions w)) w) by reflexivity.
    destruct (strict_guard_exact (command_of toolArgs)) as (Hex & _ & Hadv).
    set (level := match toolEnforcementLevel <$> _ with Some very_hard => strict | None => advisory end).
    assert (∀ d, (if g_allowed d then tu_succeeded else tu_failed) = tu_failed ↔ g_allowed d = false)
      as Hst by (intros d; by destruct (g_allowed d)).
    destruct (record_decision sid eid role intent toolName (command_of toolArgs)
      (evaluateBashCommand (command_of toolArgs) level) _ w Hr (Hst _)) as (w' & Hrun & Ha).
    eexists _, _, w'. split; [exact Hrun|]. split; [|exact Ha].
    assert (toolName = "bash" ∨ toolName = "shell") as Htool.
    { apply andb_false_iff in E as [E|E]; apply negb_false_iff, String.eqb_eq in E; tauto. }
    unfold level. destruct (find_row sessionId sid (w_sessions w)) as [s|] eqn:Es; simpl.
    + destruct (toolEnforcementLevel s). apply find_row_has_key in Es. rewrite <- not_true_iff_false, Hex.
      tauto.
    + rewrite Hadv. split; [done|]. intros (_ & Hk & _).
      destruct (find_row_of_has_key _ _ _ Hk) as (s & ? & _). congruence.
Qed.

(** The enforcer decides every tool call and leaves a trace of it: the call is
    refused exactly when it is a [bash] or [shell] call of a stored session
    whose command the strict guard blocks, that is, a command with no allowed
    first word in which a substitution rule matches; and every call adds one
    hook log and one tool audit row that agree with the decision.  A call of an
    unknown session is always let through. *)
Theorem preToolExec_decides `{Env} sid eid role intent toolName toolArgs w :
  audit_ready w →
  ∃ allowed reason w', preToolExec sid eid role intent toolName toolArgs w = (Ret (allowed, reason), w') ∧
    (allowed = false ↔
       (toolName = "bash" ∨ toolName = "shell") ∧ has_key sessionId sid (w_sessions w) = true ∧
       ¬ guard_passes (command_of toolArgs)) ∧
    audited_as w w' sid toolName allowed.
Proof.
  intros Hr. destruct (preToolExec_run sid eid role intent toolName toolArgs w Hr) as (command & d & w' & Hrun & Hd & Ha & _).
  by exists (g_allowed d), (g_reason d), w'.
Qed.

(** The evidence gate is exact: an answer is let through if and only if its
    text matches no structural rule, or one of the tools of the first matching
    rule was used (in any case of letters) and the score reaches the
    threshold; and a refusal always suggests what to do. *)
Theorem evidence_gate_exact text toolsUsed score threshold :
  let d := evaluateEvidence text toolsUsed score threshold in
  (eg_allowed d = true ↔
     intent_rule text = None ∨
     ∃ rule tool, intent_rule text = Some rule ∧ tool ∈ ir_requiredTools rule ∧
       toLowerCase tool ∈ (toLowerCase <$> toolsUsed) ∧
       ((threshold or_else (1 # 2)) <= score)%Q) ∧
  (eg_allowed d = false → is_Some (eg_suggestion d)).
Proof.
  cbv zeta. unfold evaluateEvidence, Qltb. generalize (threshold or_else (1 # 2)) as t. intros t.
  destruct (intent_rule text) as [rule|] eqn:E; [|simpl; split; [split; [by left|done]|done]].
  destruct (has_required_tool rule toolsUsed) eqn:Ht.
  - unfold has_required_tool in Ht. apply existsb_exists in Ht as (tool & Hin & Hu%bool_decide_eq_true).
    apply list_elem_of_In in Hin.
    destruct (Qle_bool t score) eqn:Eq; simpl.
    + split; [|done]. split; [|done]. intros _. right. exists rule, tool.
      by rewrite <- Qle_bool_iff.
    + split; [|by eexists]. split; [done|]. intros [?|(? & ? & ? & ? & ? & Hle)]; [done|].
      apply Qle_bool_iff in Hle. congruence.
  - simpl. split; [|by eexists]. split; [done|].
    intros [?|(rule' & tool & [= <-] & Hin & Hu & _)]; [done|].
    assert (has_required_tool rule toolsUsed = true) as Hc; [|congruence].
    apply existsb_exists. exists tool. split; [by apply list_elem_of_In|]. by apply bool_decide_eq_true.
Qed.

(** ** Witnesses *)

Definition hook_world : World :=
  set_sessions [mkSession "session-1" "/repo" quick quick_execute ss_in_progress "T" "T" []
                  always very_hard None None None] empty_world.

Lemma preToolExec_decides_witness :
  ∃ allowed reason w',
    preToolExec "session-1" "env-1" role_quick "search" "bash"
      (JObj [("command", JStr "grep -r auth src")]) hook_world = (Ret (allowed, reason), w') ∧
    (allowed = false ↔
       ("bash" = "bash" ∨ "bash" = "shell") ∧
       has_key sessionId "session-1" (w_sessions hook_world) = true ∧
       ¬ guard_passes (command_of (JObj [("command", JStr "grep -r auth src")]))) ∧
    audited_as hook_world w' "session-1" "bash" allowed.
Proof.
  apply (preToolExec_decides "session-1" "env-1" role_quick "search" "bash"
           (JObj [("command", JStr "grep -r auth src")]) hook_world).
  split; intros k _; reflexivity.
Defined.
