(* ===== verification/Retry.v ===== *)
(** * Retrying chat providers

    [packages/runtime/src/reliability/retry-policy.ts] and
    [retrying-chat-provider.ts]. *)

From S2P Require Import Prelude.
From Stdlib Require Import Ascii String QArith Qround Qminmax.
From stdpp Require Import prelude list strings.
Set Default Proof Using "Type".
Set Warnings "-clear-no-such-hyp".

(** ** Errors and numbers *)

(** A JavaScript number: a finite double is a rational. *)
Inductive number : Type := Fin (q : Q) | PosInf | NegInf | NaN.

(** A value that was thrown, as [asChatProviderError] sees it: whether it is an
    object, and its members when they have the expected type. *)
Record ErrorValue : Type := mkError {
  err_isObject : bool;
  err_kind : option string;
  err_message : option string;
  err_retryable : option bool;
  err_statusCode : option Z;
  err_retryAfterMs : option number;
  err_retryAfter : option string;
}.

Definition asChatProviderError (e : ErrorValue) : option ErrorValue :=
  if err_isObject e then
    match err_kind e, err_message e with Some _, Some _ => Some e | _, _ => None end
  else None.

Definition kind_in (kinds : list string) (e : ErrorValue) : bool :=
  match err_kind e with Some k => bool_decide (k ∈ kinds) | None => false end.

Definition isRetryable (error : ErrorValue) : bool :=
  match asChatProviderError error with
  | None => false
  | Some e =>
    if bool_decide (err_retryable e = Some true) then true
    else if kind_in ["semantic"; "overflow"] e then false
    else match err_statusCode e with
         | None => kind_in ["network"; "rate_limit"; "transient"] e
         | Some s => ((s =? 408) || (s =? 409) || (s =? 425) || (s =? 429)
                      || ((500 <=? s) && (s <=? 599)))%Z
         end
  end.

(** ** Delays *)

Definition DEFAULT_MAX_RETRIES : nat := 3.
Definition DEFAULT_BASE_DELAY_MS : Q := 500.
Definition DEFAULT_MAX_DELAY_MS : Q := 8000.

Record RetryHints : Type := mkHints {
  hint_retryAfterMs : option number;
  hint_retryAfter : option string;
  hint_nowMs : option Q;
  hint_baseDelayMs : option Q;
  hint_maxDelayMs : option Q;
}.

Definition no_hints : RetryHints := mkHints None None None None None.

Definition extractRetryHints (error : ErrorValue) : RetryHints :=
  match asChatProviderError error with
  | None => no_hints
  | Some e => mkHints (err_retryAfterMs e) (err_retryAfter e) None None None
  end.

Section delay.
(** [Number(s)], [Date.parse(s)] ([None] for NaN), [Date.now()], and the rounding
    of a product to the nearest double. *)
Variable Number : string → number.
Variable date_parse : string → option Q.
Variable date_now : Q.
Variable round64 : Q → Q.

Definition parseRetryAfter (value : string) (nowMs : option Q) : option Q :=
  let trimmed := trim value in
  if String.eqb trimmed "" then None else
  match Number trimmed with
  | Fin s => if Qle_bool 0 s then Some (inject_Z (Qfloor (round64 (s * 1000))))
             else match date_parse trimmed with
                  | Some t => Some (Qmax 0 (t - (nowMs or_else date_now)))
                  | None => None
                  end
  | _ => match date_parse trimmed with
         | Some t => Some (Qmax 0 (t - (nowMs or_else date_now)))
         | None => None
         end
  end.

(** [2 ^ n]; the product with a finite double is exact or overflows to infinity,
    whose minimum with the limit is the limit, as here. *)
Fixpoint pow2 (n : nat) : Q := match n with O => 1 | S n => 2 * pow2 n end.

Definition backoff (attempt : nat) (baseDelayMs : Q) : Q :=
  baseDelayMs * pow2 (max 1 attempt - 1).

Definition computeRetryDelay (attempt : nat) (metadata : RetryHints) : Q :=
  let baseDelayMs := hint_baseDelayMs metadata or_else DEFAULT_BASE_DELAY_MS in
  let maxDelayMs := hint_maxDelayMs metadata or_else DEFAULT_MAX_DELAY_MS in
  let by_attempt := Qmin (backoff attempt baseDelayMs) maxDelayMs in
  let by_header :=
    match hint_retryAfter metadata with
    | Some h => if String.eqb h "" then by_attempt
                else match parseRetryAfter h (hint_nowMs metadata) with
                     | Some ms => Qmin ms maxDelayMs
                     | None => by_attempt
                     end
    | None => by_attempt
    end in
  match hint_retryAfterMs metadata with
  | Some (Fin ms) => if negb (Qle_bool ms 0) then Qmin (inject_Z (Qfloor ms)) maxDelayMs else by_header
  | _ => by_header
  end.

(** ** The retrying provider *)

(** The provider that is wrapped, the audit sink and [sleep] act on a world and
    may reject with an error. *)
Context {W Request Response : Type}.
Definition async (A : Type) : Type := W → (A + ErrorValue) * W.

Record RetryOptions : Type := mkOptions {
  opt_maxRetries : option nat;
  opt_sleep : Q → async ();
  opt_onRetryAttempt : option (nat → Q → ErrorValue → async ());
  opt_onRetryGiveUp : option (nat → ErrorValue → async ());
}.

Variable base : Request → async Response.
Variable options : RetryOptions.

Definition maxRetries : nat := opt_maxRetries options or_else DEFAULT_MAX_RETRIES.

(** The [catch] block up to the next iteration: [Some e] ends the loop with [e]. *)
Definition on_failure (attempt : nat) (error : ErrorValue) (w : W) : option ErrorValue * W :=
  if isRetryable error && (attempt <=? maxRetries)%nat then
    let delayMs := computeRetryDelay attempt (extractRetryHints error) in
    let '(r, w) := match opt_onRetryAttempt options with
                   | Some hook => hook attempt delayMs error w
                   | None => (inl (), w)
                   end in
    match r with
    | inr e => (Some e, w)
    | inl _ => match opt_sleep options delayMs w with
               | (inr e, w) => (Some e, w)
               | (inl _, w) => (None, w)
               end
    end
  else
    match opt_onRetryGiveUp options with
    | Some hook => match hook attempt error w with
                   | (inr e, w) => (Some e, w)
                   | (inl _, w) => (Some error, w)
                   end
    | None => (Some error, w)
    end.

(** [while (true)], [attempt] being the iterations done; [None] when the fuel is
    used up. *)
Fixpoint chat_loop (fuel attempt : nat) (request : Request) (w : W) :
    option ((Response + ErrorValue) * W) :=
  match fuel with
  | O => None
  | S fuel =>
    match base request w with
    | (inl response, w) => Some (inl response, w)
    | (inr error, w) =>
      match on_failure (S attempt) error w with
      | (Some e, w) => Some (inr e, w)
      | (None, w) => chat_loop fuel (S attempt) request w
      end
    end
  end.

Definition chat (request : Request) (w : W) : option ((Response + ErrorValue) * W) :=
  chat_loop (S maxRetries) 0 request w.
End delay.


(** ** Facts about delays *)

Lemma pow2_pos n : (0 < pow2 n)%Q.
Proof. induction n as [|n IH]; simpl; [done|]. by apply Qmult_lt_0_compat. Qed.

Lemma pow2_mono n m : n ≤ m → (pow2 n <= pow2 m)%Q.
Proof.
  induction 1 as [|m Hle IH]; [apply Qle_refl|]. eapply Qle_trans; [exact IH|]. simpl.
  rewrite <- (Qmult_1_l (pow2 m)) at 1. apply Qmult_le_compat_r; [done|].
  apply Qlt_le_weak, pow2_pos.
Qed.

Lemma floor_nonneg q : (0 <= q)%Q → (0 <= inject_Z (Qfloor q))%Q.
Proof.
  intros Hq. replace 0%Q with (inject_Z 0) by done. rewrite <- Zle_Qle.
  rewrite <- (Qfloor_Z 0). by apply Qfloor_resp_le.
Qed.

Lemma Qmin_bounds a m : (0 <= a → 0 <= m → 0 <= Qmin a m ∧ Qmin a m <= m)%Q.
Proof. intros Ha Hm. split; [by apply Q.min_glb|apply Q.le_min_r]. Qed.

Lemma backoff_nonneg attempt b : (0 <= b → 0 <= backoff attempt b)%Q.
Proof. intros Hb. apply Qmult_le_0_compat; [done|]. apply Qlt_le_weak, pow2_pos. Qed.

Section delay_facts.
Context (Number : string → number) (date_parse : string → option Q) (date_now : Q) (round64 : Q → Q).
Hypothesis round64_nonneg : ∀ q, (0 <= q → 0 <= round64 q)%Q.

Lemma parseRetryAfter_nonneg value nowMs ms :
  parseRetryAfter Number date_parse date_now round64 value nowMs = Some ms → (0 <= ms)%Q.
Proof using round64_nonneg.
  unfold parseRetryAfter. destruct (String.eqb _ _); [done|].
  assert (∀ o, match o with
    | Some t => Some (Qmax 0 (t - (nowMs or_else date_now))) | None => None end = Some ms →
    (0 <= ms)%Q) as Hdate.
  { intros [t|]; [|done]. intros [= <-]. apply Q.le_max_l. }
  destruct (Number (trim value)) as [s| | |]; try apply Hdate.
  destruct (Qle_bool 0 s) eqn:E; [|apply Hdate]. intros [= <-].
  apply floor_nonneg, round64_nonneg. apply Qle_bool_iff in E. by apply Qmult_le_0_compat.
Qed.
End delay_facts.

(** ** Facts about the loop *)

Section loop_facts.
Context (Number : string → number) (date_parse : string → option Q) (date_now : Q) (round64 : Q → Q).
Context {W Request Response : Type}.
Context (base : Request → async (W := W) Response) (options : RetryOptions (W := W)).

(** An asynchronous step that never rejects. *)
Definition settles (m : async (W := W) ()) : Prop := ∀ w, ∃ w', m w = (inl (), w').

Record quiet_options : Prop := {
  qo_sleep : ∀ ms, settles (opt_sleep options ms);
  qo_retry : ∀ hook, opt_onRetryAttempt options = Some hook → ∀ n ms e, settles (hook n ms e);
  qo_give_up : ∀ hook, opt_onRetryGiveUp options = Some hook → ∀ n e, settles (hook n e);
}.

(** After [n] failed attempts the loop is at the second world, every failure
    having been retryable. *)
Inductive retried (request : Request) : nat → W → W → Prop :=
| retried_none w : retried request 0 w w
| retried_more n w w1 w2 w3 error :
    retried request n w w1 → base request w1 = (inr error, w2) → isRetryable error = true →
    on_failure Number date_parse date_now round64 options (S n) error w2 = (None, w3) →
    retried request (S n) w w3.

Lemma on_failure_quiet attempt error w :
  quiet_options →
  ∃ w', on_failure Number date_parse date_now round64 options attempt error w =
    (if isRetryable error && (attempt <=? maxRetries options)%nat then None else Some error, w').
Proof.
  intros [Hs Hr Hg]. unfold on_failure. destruct (isRetryable error && _).
  - cbv zeta. set (d := computeRetryDelay _ _ _ _ _ _).
    destruct (opt_onRetryAttempt options) as [hook|].
    + destruct (Hr hook eq_refl attempt d error w) as (w1 & ->).
      destruct (Hs d w1) as (w2 & ->). by exists w2.
    + destruct (Hs d w) as (w2 & ->). by exists w2.
  - destruct (opt_onRetryGiveUp options) as [hook|]; [|by exists w].
    destruct (Hg hook eq_refl attempt error w) as (w1 & ->). by exists w1.
Qed.

Lemma chat_loop_run request fuel n w0 w :
  quiet_options → retried request n w0 w → n + fuel = S (maxRetries options) → 0 < fuel →
  ∃ k w1 r w', chat_loop Number date_parse date_now round64 base options fuel n request w = Some (r, w') ∧
    k ≤ maxRetries options ∧ retried request k w0 w1 ∧
    match r with
    | inl response => base request w1 = (inl response, w')
    | inr error => ∃ w2, base request w1 = (inr error, w2) ∧
                     (isRetryable error = false ∨ k = maxRetries options)
    end.
Proof.
  intros Hq. revert n w. induction fuel as [|fuel IH]; intros n w Hn Hf Hpos; [lia|]. simpl.
  destruct (base request w) as [[response|error] w1] eqn:Eb.
  - exists n, w, (inl response), w1. split_and!; [done|lia|done|done].
  - destruct (on_failure_quiet (S n) error w1 Hq) as (w2 & Eo). rewrite Eo.
    destruct (isRetryable error && (S n <=? maxRetries options)%nat) eqn:Er.
    + apply andb_prop in Er as [Hr Hle%Nat.leb_le]. apply IH; [|lia|lia].
      by eapply retried_more.
    + exists n, w, (inr error), w2. split_and!; [done|lia|done|]. exists w1. split; [done|].
      apply andb_false_iff in Er as [?|Hlt%Nat.leb_gt]; [by left|right; lia].
Qed.
End loop_facts.

(** ** Properties *)

(** Whatever the provider's hints say, a retry delay is between zero and the
    limit: headers in seconds or as dates, in the past or in the future,
    fractional or infinite [retryAfterMs], and any attempt number; and without
    hints the delay never shrinks from one attempt to the next. *)
Theorem retry_delay_bounds Number date_parse date_now round64 attempt metadata :
  (∀ q, 0 <= q → 0 <= round64 q)%Q →
  (0 <= (hint_baseDelayMs metadata or_else DEFAULT_BASE_DELAY_MS))%Q →
  (0 <= (hint_maxDelayMs metadata or_else DEFAULT_MAX_DELAY_MS))%Q →
  let delay := computeRetryDelay Number date_parse date_now round64 in
  (0 <= delay attempt metadata ∧
   delay attempt metadata <= (hint_maxDelayMs metadata or_else DEFAULT_MAX_DELAY_MS))%Q ∧
  (∀ later : nat, (attempt ≤ later)%nat → (delay attempt no_hints <= delay later no_hints)%Q).
Proof.
  intros Hround Hb Hm. cbv zeta. split.
  - unfold computeRetryDelay.
    assert (∀ a, (0 <= a)%Q → (0 <= Qmin a (hint_maxDelayMs metadata or_else DEFAULT_MAX_DELAY_MS) ∧
      Qmin a (hint_maxDelayMs metadata or_else DEFAULT_MAX_DELAY_MS)
        <= (hint_maxDelayMs metadata or_else DEFAULT_MAX_DELAY_MS))%Q) as Hmin
      by (intros a Ha; by apply Qmin_bounds).
    assert (∀ P : Q → Prop,
      P (Qmin (backoff attempt (hint_baseDelayMs metadata or_else DEFAULT_BASE_DELAY_MS))
           (hint_maxDelayMs metadata or_else DEFAULT_MAX_DELAY_MS)) →
      (∀ ms, (0 <= ms)%Q → P (Qmin ms (hint_maxDelayMs metadata or_else DEFAULT_MAX_DELAY_MS))) →
      P (computeRetryDelay Number date_parse date_now round64 attempt metadata)) as Hcases.
    { intros P H1 H2. unfold computeRetryDelay.
      destruct (hint_retryAfterMs metadata) as [[ms| | |]|].
      1: destruct (Qle_bool ms 0) eqn:E; simpl;
        [|apply H2, floor_nonneg; apply Qlt_le_weak, Qnot_le_lt; by rewrite <- Qle_bool_iff, E].
      all: destruct (hint_retryAfter metadata) as [h|]; [|exact H1];
        destruct (String.eqb h ""); [exact H1|];
        destruct (parseRetryAfter _ _ _ _ h _) eqn:Ep; [|exact H1];
        apply H2; by eapply parseRetryAfter_nonneg. }
    apply (Hcases (λ d, 0 <= d ∧ d <= _)%Q); [|exact Hmin]. apply Hmin. by apply backoff_nonneg.
  - intros later Hle. unfold computeRetryDelay. simpl. apply Q.min_le_compat_r.
    unfold backoff. rewrite !(Qmult_comm DEFAULT_BASE_DELAY_MS). apply Qmult_le_compat_r; [|done].
    apply pow2_mono. lia.
Qed.


(** ** Witnesses *)

Definition demo_Number (s : string) : number := if String.eqb s "2" then Fin 2 else NaN.

Lemma retry_delay_bounds_witness :
  let m := mkHints None (Some " 2 ") None None None in
  let delay := computeRetryDelay demo_Number (λ _, None) 0 (λ q, q) in
  (0 <= delay 1%nat m ∧ delay 1%nat m <= 8000)%Q ∧
  (∀ later : nat, (1 ≤ later)%nat → (delay 1%nat no_hints <= delay later no_hints)%Q).
Proof.
  apply (retry_delay_bounds demo_Number (λ _, None) 0 (λ q, q) 1%nat
           (mkHints None (Some " 2 ") None None None)); [done|discriminate|discriminate].
Defined.

(** A provider that fails twice with a rate limit and then answers; the world
    counts the calls and the time slept. *)
Definition rate_limited : ErrorValue :=
  mkError true (Some "rate_limit") (Some "slow down") None (Some 429%Z) None None.

Definition demo_base (_ : ()) : async (W := nat * Q) string := λ '(n, t),
  (if (n <? 2)%nat then inr rate_limited else inl "done", (S n, t)).

Definition demo_options : RetryOptions (W := nat * Q) :=
  mkOptions None (λ ms '(n, t), (inl (), (n, Qred (t + ms)%Q))) None None.

