(* ===== verification/Codec.v ===== *)
(** * Framing of the JSON-RPC bridge

    [packages/opencode-app/src/bridge/stdio-codec.ts], and the frame reader
    [drainFrames] of [packages/opencode-app/src/worker/worker-jsonrpc-stdio.ts].
    A buffer is the list of its bytes; byte counts are in [N], as the limits are
    too large for unary numbers. *)

From S2P Require Import Prelude.
From Stdlib Require Import Ascii String.
From stdpp Require Import prelude list strings pretty.
Set Default Proof Using "Type".
Set Warnings "-clear-no-such-hyp".

Definition bytes : Type := list ascii.
Definition byte_length (b : bytes) : N := N.of_nat (length b).
Definition ascii_bytes : string → bytes := list_ascii_of_string.

Inductive BridgeRpcCodec : Type := JSON_RPC_CODEC | MSGPACK_RPC_CODEC.
Inductive BridgeCodecModeOverride : Type := mode_auto | mode_json | mode_msgpack.

Definition DEFAULT_BRIDGE_MAX_FRAME_BYTES : N := 16 * 1024 * 1024.
Definition MIN_BRIDGE_MAX_FRAME_BYTES : N := 64 * 1024.
Definition JSON_RPC_CONTENT_TYPE : string := "application/vscode-jsonrpc; charset=utf-8".
Definition MSGPACK_RPC_CONTENT_TYPE : string :=
  "application/x-msgpack; bridge=dh-jsonrpc; version=1".
Definition MAX_SAFE_INTEGER : N := 2 ^ 53 - 1.

(** Both bounds are below the largest safe integer. *)
Definition isValidBridgeMaxFrameBytes (value : N) : bool :=
  ((MIN_BRIDGE_MAX_FRAME_BYTES <=? value) && (value <=? DEFAULT_BRIDGE_MAX_FRAME_BYTES))%N.

Definition frame_range_error (value : N) : string :=
  "maxFrameBytes must be an integer between " +:+ pretty MIN_BRIDGE_MAX_FRAME_BYTES +:+ " and " +:+
  pretty DEFAULT_BRIDGE_MAX_FRAME_BYTES +:+ "; received " +:+ pretty value +:+ ".".

Definition validateBridgeMaxFrameBytes (value : N) : outcome N :=
  if isValidBridgeMaxFrameBytes value then Ret value else Throw (frame_range_error value).

(** [None] is a value that is not a string. *)
Definition normalizeBridgeCodecModeOverride (value : option string) : BridgeCodecModeOverride :=
  match value with
  | None => mode_auto
  | Some v =>
    let normalized := toLowerCase (trim v) in
    if String.eqb normalized "json" then mode_json
    else if String.eqb normalized "msgpack" then mode_msgpack
    else mode_auto
  end.

(** ** Headers *)

Definition CRLF : bytes := [CR; LF].
Definition CRLF2 : bytes := [CR; LF; CR; LF].

(** The first index at which the four bytes occur. *)
Fixpoint findFrameHeaderEnd (buffer : bytes) : option nat :=
  match buffer with
  | [] => None
  | b :: rest =>
    if bool_decide (take 4 buffer = CRLF2) then Some 0 else S <$> findFrameHeaderEnd rest
  end.

(** [buffer.toString("ascii")] drops the highest bit of every byte. *)
Definition ascii_unit (b : ascii) : ascii := ascii_of_nat (nat_of_ascii b mod 128).

(** [header.split("\r\n")]; the first list collects the current line. *)
Fixpoint split_lines (line header : bytes) : list bytes :=
  match header with
  | c :: (d :: rest) as tail =>
    if Ascii.eqb c CR && Ascii.eqb d LF then line :: split_lines [] rest
    else split_lines (line ++ [c]) tail
  | [c] => [line ++ [c]]
  | [] => [line]
  end.

(** The name before the first colon and the text after it, when there is one. *)
Fixpoint split_colon (name line : bytes) : option (bytes * bytes) :=
  match line with
  | [] => None
  | c :: rest => if Ascii.eqb c ":" then Some (name, rest) else split_colon (name ++ [c]) rest
  end.

Definition digit_value (c : ascii) : N := N.of_nat (nat_of_ascii c - 48).

(** [Number] of a string of digits. *)
Definition decimal_value (s : string) : N :=
  foldl (λ n c, 10 * n + digit_value c)%N 0%N (list_ascii_of_string s).

(** [/^[0-9]+$/.test(value)]. *)
Definition all_digits (s : string) : bool :=
  negb (String.eqb s "") && forallb is_digit (list_ascii_of_string s).

Record BridgeFrameHeaders : Type := mkHeaders {
  fh_contentLength : option N;
  fh_contentType : option string;
  fh_malformedContentLength : bool;
}.

Definition header_line (h : BridgeFrameHeaders) (line : bytes) : BridgeFrameHeaders :=
  match split_colon [] line with
  | None => h
  | Some ([], _) => h
  | Some (name, rest) =>
    let normalizedName := toLowerCase (trim (string_of_list_ascii name)) in
    let value := trim (string_of_list_ascii rest) in
    if String.eqb normalizedName "content-length" then
      if bool_decide (is_Some (fh_contentLength h)) || negb (all_digits value)
      then mkHeaders None (fh_contentType h) true
      else if (decimal_value value <=? MAX_SAFE_INTEGER)%N
      then mkHeaders (Some (decimal_value value)) (fh_contentType h) (fh_malformedContentLength h)
      else mkHeaders None (fh_contentType h) true
    else if String.eqb normalizedName "content-type"
    then mkHeaders (fh_contentLength h) (Some value) (fh_malformedContentLength h)
    else h
  end.

Definition parseFrameHeaders (header : bytes) : BridgeFrameHeaders :=
  foldl header_line (mkHeaders None None false) (split_lines [] header).

(** ** Bodies

    [JSON.stringify]/[JSON.parse] and the msgpack package, as an interface: an
    encoder that may throw and a decoder that may fail with a message. *)
Class BodyCodec (V : Type) : Type := {
  encode_value : BridgeRpcCodec → V → outcome bytes;
  decode_value : BridgeRpcCodec → N → bytes → outcome V;
}.

(** What a codec promises of a value: it has an encoding that decodes to it,
    under every valid limit that the encoding respects. *)
Definition codec_ok {V} `{BodyCodec V} (codec : BridgeRpcCodec) (v : V) (body : bytes) : Prop :=
  encode_value codec v = Ret body ∧
  ∀ limit, (byte_length body ≤ limit)%N → decode_value codec limit body = Ret v.

Section codec.
Context {V : Type} `{BodyCodec V}.

Definition encodeRpcBody (codec : BridgeRpcCodec) (value : V) : outcome bytes :=
  encode_value codec value.

Definition decodeRpcBody (codec : BridgeRpcCodec) (body : bytes) (maxFrameBytes : N) : outcome V :=
  match validateBridgeMaxFrameBytes maxFrameBytes with
  | Throw e => Throw e
  | Ret _ => decode_value codec maxFrameBytes body
  end.

Definition contentTypeForCodec (codec : BridgeRpcCodec) : string :=
  match codec with
  | MSGPACK_RPC_CODEC => MSGPACK_RPC_CONTENT_TYPE
  | JSON_RPC_CODEC => JSON_RPC_CONTENT_TYPE
  end.

(** The header without the empty line that ends it. *)
Definition frame_header (codec : BridgeRpcCodec) (body : bytes) : bytes :=
  ascii_bytes ("Content-Length: " +:+ pretty (byte_length body)) ++ CRLF ++
  ascii_bytes ("Content-Type: " +:+ contentTypeForCodec codec).

Definition too_large_error (size limit : N) : string :=
  "RPC frame body is " +:+ pretty size +:+ " bytes, exceeding maxFrameBytes=" +:+ pretty limit +:+ ".".

Definition encodeRpcFrame (codec : BridgeRpcCodec) (value : V) (maxFrameBytes : N) : outcome bytes :=
  match validateBridgeMaxFrameBytes maxFrameBytes with
  | Throw e => Throw e
  | Ret _ =>
    match encodeRpcBody codec value with
    | Throw e => Throw e
    | Ret body =>
      if (maxFrameBytes <? byte_length body)%N
      then Throw (too_large_error (byte_length body) maxFrameBytes)
      else Ret (frame_header codec body ++ CRLF2 ++ body)
    end
  end.

(** ** Reading frames *)

(** What one pass over the buffer finds: a decoded message, a body that does not
    decode (which is skipped), or a header that is refused (which discards the
    buffer). *)
Inductive FrameEvent : Type :=
| Incoming (v : V)
| Undecodable (message : string)
| BadHeader (message : string).

(** The bytes that are left and [expectedFrameLength]. *)
Record ReadState : Type := mkRead { rd_buffer : bytes; rd_expected : option nat }.

Definition header_error (h : BridgeFrameHeaders) : string :=
  if fh_malformedContentLength h then "JSON-RPC frame has a malformed Content-Length header."
  else "JSON-RPC frame is missing a valid Content-Length header.".

Definition limit_error (size limit : N) : string :=
  "JSON-RPC frame is " +:+ pretty size +:+ " bytes, exceeding maxFrameBytes=" +:+ pretty limit +:+ ".".

(** [while (true)]: every iteration that continues consumes a frame of at least
    four bytes, so the length of the buffer is fuel enough. *)
Fixpoint drain (fuel : nat) (codec : BridgeRpcCodec) (maxFrameBytes : N) (s : ReadState) :
    list FrameEvent * ReadState :=
  match fuel with
  | O => ([], s)
  | S fuel =>
    let buffer := rd_buffer s in
    match findFrameHeaderEnd buffer with
    | None => ([], s)
    | Some headerEnd =>
      let h := parseFrameHeaders (ascii_unit <$> take headerEnd buffer) in
      match fh_contentLength h, fh_malformedContentLength h with
      | Some contentLength, false =>
        if (maxFrameBytes <? contentLength)%N
        then ([BadHeader (limit_error contentLength maxFrameBytes)], mkRead [] (rd_expected s))
        else
          let bodyStart := headerEnd + 4 in
          let frameLength := bodyStart + N.to_nat contentLength in
          if (length buffer <? frameLength)%nat then ([], mkRead buffer (Some frameLength))
          else
            let body := drop bodyStart (take frameLength buffer) in
            let event := match decodeRpcBody codec body maxFrameBytes with
                         | Ret v => Incoming v
                         | Throw e => Undecodable e
                         end in
            let '(events, s') := drain fuel codec maxFrameBytes (mkRead (drop frameLength buffer) None) in
            (event :: events, s')
      | _, _ => ([BadHeader (header_error h)], mkRead [] (rd_expected s))
      end
    end
  end.

Definition drainFrames (codec : BridgeRpcCodec) (maxFrameBytes : N) (s : ReadState) :
    list FrameEvent * ReadState :=
  drain (S (length (rd_buffer s))) codec maxFrameBytes s.

(** The handler of ["data"]: append the chunk and drain. *)
Definition on_data (codec : BridgeRpcCodec) (maxFrameBytes : N) (s : ReadState) (chunk : bytes) :
    list FrameEvent * ReadState :=
  drainFrames codec maxFrameBytes (mkRead (rd_buffer s ++ chunk) (rd_expected s)).

Fixpoint on_chunks (codec : BridgeRpcCodec) (maxFrameBytes : N) (s : ReadState) (chunks : list bytes) :
    list FrameEvent * ReadState :=
  match chunks with
  | [] => ([], s)
  | chunk :: chunks =>
    let '(events, s1) := on_data codec maxFrameBytes s chunk in
    let '(events', s2) := on_chunks codec maxFrameBytes s1 chunks in
    (events ++ events', s2)
  end.
End codec.

(** ** Facts: decimal numerals *)

Section decimal.
Local Open Scope N_scope.

Lemma pretty_digit_facts d : d < 10 →
  is_digit (pretty_N_char d) = true ∧ digit_value (pretty_N_char d) = d.
Proof.
  intros Hd. assert (d = 0 ∨ d = 1 ∨ d = 2 ∨ d = 3 ∨ d = 4 ∨ d = 5 ∨ d = 6 ∨ d = 7 ∨ d = 8 ∨ d = 9)
    as Hcases by lia.
  by repeat destruct Hcases as [->|Hcases]; [..|subst].
Qed.

Lemma pretty_go_spec x s :
  forallb is_digit (list_ascii_of_string s) = true →
  forallb is_digit (list_ascii_of_string (pretty_N_go x s)) = true ∧
  foldl (λ n c, 10 * n + digit_value c) 0 (list_ascii_of_string (pretty_N_go x s)) =
  foldl (λ n c, 10 * n + digit_value c) x (list_ascii_of_string s).
Proof.
  revert s. induction (N.lt_wf_0 x) as [x _ IH]; intros s Hs.
  destruct (decide (x = 0)) as [->|Hx]; [done|].
  assert (x mod 10 < 10) as Hm by (apply N.mod_lt; lia).
  destruct (pretty_digit_facts _ Hm) as [Hd Hv].
  rewrite pretty_N_go_step by lia.
  destruct (IH (x / 10) ltac:(apply N.div_lt; lia) (String (pretty_N_char (x mod 10)) s)) as [H1 H2].
  { simpl. by rewrite Hd. }
  split; [done|]. rewrite H2. simpl. rewrite Hv. f_equal.
  pose proof (N.div_mod x 10). lia.
Qed.

Lemma pretty_go_nonempty x s : s ≠ "" → pretty_N_go x s ≠ "".
Proof.
  revert s. induction (N.lt_wf_0 x) as [x _ IH]; intros s Hs.
  destruct (decide (x = 0)) as [->|Hx]; [done|]. rewrite pretty_N_go_step by lia.
  apply IH; [apply N.div_lt; lia|done].
Qed.

(** A printed number is a numeral of that number. *)
Lemma pretty_numeral x : all_digits (pretty x) = true ∧ decimal_value (pretty x) = x.
Proof.
  unfold all_digits, decimal_value, pretty, pretty_N. case_decide as Hx; [by subst|].
  destruct (pretty_go_spec x "" eq_refl) as [H1 H2]. split; [|exact H2].
  rewrite H1, andb_true_r, negb_true_iff, String.eqb_neq.
  rewrite pretty_N_go_step by lia. by apply pretty_go_nonempty.
Qed.
End decimal.

(** ** Facts: the end of a header *)

Lemma four_bytes (b : bytes) : take 4 b = CRLF2 → 4 ≤ length b.
Proof.
  intros Ht. apply (f_equal length) in Ht. rewrite length_take in Ht.
  change (length CRLF2) with 4 in Ht. lia.
Qed.

Lemma find_header_bound b i : findFrameHeaderEnd b = Some i → i + 4 ≤ length b.
Proof.
  revert i. induction b as [|c b IH]; intros i; cbn [findFrameHeaderEnd]; [done|].
  case_bool_decide as Ht.
  - intros [= <-]. by apply four_bytes in Ht.
  - intros (j & Hj & ->)%fmap_Some. specialize (IH j Hj). simpl. lia.
Qed.

Lemma find_header_app b c i :
  findFrameHeaderEnd b = Some i → findFrameHeaderEnd (b ++ c) = Some i.
Proof.
  revert i. induction b as [|x b IH]; intros i; [done|].
  change ((x :: b) ++ c) with (x :: (b ++ c)). cbn [findFrameHeaderEnd].
  intros Hf. assert (4 ≤ length (x :: b)) as Hlen.
  { case_bool_decide as Ht.
    - by apply four_bytes.
    - apply fmap_Some in Hf as (j & Hj & _). apply find_header_bound in Hj.
      cbn [length]. lia. }
  assert (take 4 (x :: b ++ c) = take 4 (x :: b)) as -> by exact (take_app_le (x :: b) c 4 Hlen).
  case_bool_decide; [done|]. apply fmap_Some in Hf as (j & Hj & ->). by rewrite (IH j Hj).
Qed.

(** A header in which the empty line does not begin too early. *)
Fixpoint clean (h : bytes) : bool :=
  match h with
  | [] => true
  | _ :: t => negb (bool_decide (take 4 (h ++ CRLF2) = CRLF2)) && clean t
  end.

Lemma find_clean_header h body :
  clean h = true → findFrameHeaderEnd (h ++ CRLF2 ++ body) = Some (length h).
Proof.
  induction h as [|c h IH]; intros Hc; [done|].
  cbn [clean] in Hc. apply andb_prop in Hc as [Ht%negb_true_iff%bool_decide_eq_false Hc].
  change ((c :: h) ++ CRLF2 ++ body) with (c :: (h ++ CRLF2 ++ body)). cbn [findFrameHeaderEnd].
  rewrite bool_decide_eq_false_2; [by rewrite IH|]. intros Heq. apply Ht.
  etrans; [|exact Heq]. change (c :: h ++ CRLF2 ++ body) with ((c :: h) ++ CRLF2 ++ body).
  rewrite (app_assoc (c :: h) CRLF2 body). symmetry. apply take_app_le. rewrite length_app. simpl. lia.
Qed.

Lemma clean_prefix p h : Forall (λ c, c ≠ CR) p → clean (p ++ h) = clean h.
Proof.
  induction 1 as [|c p Hc _ IH]; [done|].
  change ((c :: p) ++ h) with (c :: (p ++ h)). cbn [clean].
  rewrite bool_decide_eq_false_2; [done|]. intros Heq. apply Hc.
  by apply (f_equal head) in Heq as [= ->].
Qed.

(** ** Facts: reading a header back *)

Lemma digit_facts c : is_digit c = true →
  c ≠ CR ∧ ascii_unit c = c ∧ is_ws c = false.
Proof. destruct c as [[] [] [] [] [] [] [] []]; vm_compute; intros Hd; by split_and!. Qed.

Lemma numeral_units (n : N) :
  Forall (λ c, is_digit c = true) (list_ascii_of_string (pretty n)).
Proof.
  destruct (pretty_numeral n) as [[_ Hd]%andb_prop _]. rewrite forallb_forall in Hd.
  apply Forall_forall. intros c Hc%list_elem_of_In. by apply Hd.
Qed.

Lemma list_ascii_app s t :
  list_ascii_of_string (s +:+ t) = list_ascii_of_string s ++ list_ascii_of_string t.
Proof. induction s as [|c s IH]; [done|]. simpl. by rewrite <- IH. Qed.

Lemma split_lines_step c tail l :
  c ≠ CR → tail ≠ [] → split_lines l (c :: tail) = split_lines (l ++ [c]) tail.
Proof.
  intros Hc Ht. destruct tail as [|d t]; [done|]. simpl.
  by rewrite (proj2 (Ascii.eqb_neq c CR) Hc).
Qed.

Lemma split_lines_prefix p q l :
  Forall (λ c, c ≠ CR) p → split_lines l (p ++ CRLF ++ q) = (l ++ p) :: split_lines [] q.
Proof.
  intros Hp. revert l. induction Hp as [|c p Hc _ IH]; intros l; [by rewrite app_nil_r|].
  change ((c :: p) ++ CRLF ++ q) with (c :: (p ++ CRLF ++ q)).
  rewrite split_lines_step, IH, <- app_assoc; [done|done|]. by destruct p.
Qed.

Lemma trim_solid s : forallb (λ c, negb (is_ws c)) (list_ascii_of_string s) = true → trim s = s.
Proof.
  unfold trim. intros Hs. assert (trimStart s = s) as ->.
  { destruct s as [|c s]; [done|]. simpl in *. apply andb_prop in Hs as [Hc%negb_true_iff _].
    by rewrite Hc. }
  induction s as [|c s IH]; [done|]. simpl in *. apply andb_prop in Hs as [Hc%negb_true_iff Hs].
  rewrite IH by done. rewrite Hc. by destruct s.
Qed.

Lemma trim_numeral (n : N) : trim (pretty n) = pretty n.
Proof.
  apply trim_solid. apply forallb_forall. intros c Hc%list_elem_of_In.
  pose proof (numeral_units n) as Hall. rewrite Forall_forall in Hall.
  destruct (digit_facts c (Hall c Hc)) as (_ & _ & ->). done.
Qed.

Lemma header_ascii codec body : ascii_unit <$> frame_header codec body = frame_header codec body.
Proof.
  unfold frame_header. rewrite !fmap_app. f_equal.
  - unfold ascii_bytes. rewrite list_ascii_app, fmap_app. f_equal.
    pose proof (numeral_units (byte_length body)) as Hall.
    induction Hall as [|c l Hc _ IH]; csimpl; [done|]. f_equal; [|exact IH].
    by apply digit_facts.
  - by destruct codec.
Qed.

Lemma header_clean codec body : clean (frame_header codec body) = true.
Proof.
  unfold frame_header, ascii_bytes. rewrite list_ascii_app, <- app_assoc.
  rewrite clean_prefix by (repeat constructor; discriminate).
  rewrite clean_prefix; [by destruct codec|].
  eapply Forall_impl; [apply numeral_units|]. simpl. intros c Hc. by apply digit_facts in Hc as (? & _).
Qed.

Lemma header_read_back codec body :
  (byte_length body ≤ MAX_SAFE_INTEGER)%N →
  parseFrameHeaders (frame_header codec body) =
  mkHeaders (Some (byte_length body)) (Some (contentTypeForCodec codec)) false.
Proof.
  intros Hsafe. unfold parseFrameHeaders, frame_header.
  rewrite split_lines_prefix.
  2:{ unfold ascii_bytes. rewrite list_ascii_app. apply Forall_app. split.
      - repeat constructor; discriminate.
      - eapply Forall_impl; [apply numeral_units|]. simpl. intros c Hc.
        by apply digit_facts in Hc as (? & _). }
  assert (header_line (mkHeaders None None false)
      ([] ++ ascii_bytes ("Content-Length: " +:+ pretty (byte_length body))) =
    mkHeaders (Some (byte_length body)) None false) as Hline.
  { unfold header_line, ascii_bytes. rewrite list_ascii_app.
    assert (∀ l, split_colon [] ([] ++ list_ascii_of_string "Content-Length: " ++ l) =
      Some (list_ascii_of_string "Content-Length", " "%char :: l)) as -> by done.
    cbn [list_ascii_of_string]. 
    assert (trim (string_of_list_ascii (" "%char :: list_ascii_of_string (pretty (byte_length body))))
      = pretty (byte_length body)) as ->.
    { cbn [string_of_list_ascii]. rewrite string_of_list_ascii_of_string.
      apply (trim_numeral (byte_length body)). }
    destruct (pretty_numeral (byte_length body)) as [-> ->].
    apply N.leb_le in Hsafe. rewrite Hsafe. reflexivity. }
  simpl. simpl in Hline. rewrite Hline. by destruct codec.
Qed.

(** ** Facts: draining *)

Section drain_facts.
Context {V : Type} `{BodyCodec V} (codec : BridgeRpcCodec) (limit : N).

Definition is_bad (e : FrameEvent (V := V)) : bool :=
  match e with BadHeader _ => true | _ => false end.

(** What the header at the front of a buffer says, when it is acceptable. *)
Definition frame_bounds (buffer : bytes) : option (nat * nat) :=
  headerEnd ← findFrameHeaderEnd buffer;
  let h := parseFrameHeaders (ascii_unit <$> take headerEnd buffer) in
  match fh_contentLength h, fh_malformedContentLength h with
  | Some n, false =>
    if (limit <? n)%N then None else Some (headerEnd + 4, headerEnd + 4 + N.to_nat n)
  | _, _ => None
  end.

Definition frame_event (body : bytes) : FrameEvent :=
  match decodeRpcBody codec body limit with Ret v => Incoming v | Throw e => Undecodable e end.

Lemma frame_bounds_app b c r : frame_bounds b = Some r → frame_bounds (b ++ c) = Some r.
Proof.
  unfold frame_bounds. destruct (findFrameHeaderEnd b) as [i|] eqn:E; [|done].
  rewrite (find_header_app b c i E). simpl.
  apply find_header_bound in E. by rewrite take_app_le by lia.
Qed.

Lemma frame_bounds_pos b n k : frame_bounds b = Some (n, k) → 4 ≤ n ≤ k.
Proof.
  unfold frame_bounds. destruct (findFrameHeaderEnd b); [|done]. simpl.
  repeat case_match; try done. intros [= <- <-]. lia.
Qed.

(** One iteration of the loop, by what the header says. *)
Lemma drain_step fuel s :
  drain (S fuel) codec limit s =
  match findFrameHeaderEnd (rd_buffer s), frame_bounds (rd_buffer s) with
  | None, _ => ([], s)
  | Some i, None =>
    let h := parseFrameHeaders (ascii_unit <$> take i (rd_buffer s)) in
    ([BadHeader match fh_contentLength h, fh_malformedContentLength h with
                | Some n, false => limit_error n limit
                | _, _ => header_error h
                end], mkRead [] (rd_expected s))
  | Some _, Some (start, stop) =>
    if (length (rd_buffer s) <? stop)%nat then ([], mkRead (rd_buffer s) (Some stop))
    else let '(events, s') := drain fuel codec limit (mkRead (drop stop (rd_buffer s)) None) in
         (frame_event (drop start (take stop (rd_buffer s))) :: events, s')
  end.
Proof.
  unfold frame_bounds. cbn [drain]. destruct (findFrameHeaderEnd (rd_buffer s)) as [i|]; [|done].
  simpl. set (h := parseFrameHeaders _). destruct (fh_contentLength h) as [n|]; [|done].
  destruct (fh_malformedContentLength h); [done|]. by destruct (limit <? n)%N.
Qed.

Lemma drain_fuel f1 f2 s :
  length (rd_buffer s) < f1 → length (rd_buffer s) < f2 →
  drain f1 codec limit s = drain f2 codec limit s.
Proof.
  revert f2 s. induction f1 as [|f1 IH]; intros [|f2] s H1 H2; try lia.
  rewrite !drain_step. destruct (findFrameHeaderEnd (rd_buffer s)) as [i|]; [|done].
  destruct (frame_bounds (rd_buffer s)) as [[start stop]|] eqn:E; [|done].
  apply frame_bounds_pos in E. destruct (Nat.ltb_spec (length (rd_buffer s)) stop); [done|].
  rewrite (IH f2); [done|..]; simpl; rewrite length_drop; lia.
Qed.

(** Draining a buffer and then what comes after is draining the whole, unless a
    header was refused, in which case the whole has one refused too. *)
Lemma drain_app fuel b c e :
  length b < fuel →
  let '(events, s) := drain fuel codec limit (mkRead b e) in
  let whole := drainFrames codec limit (mkRead (b ++ c) e) in
  if existsb is_bad events then existsb is_bad (fst whole) = true
  else whole = (events ++ (drainFrames codec limit (mkRead (rd_buffer s ++ c) (rd_expected s))).1,
                (drainFrames codec limit (mkRead (rd_buffer s ++ c) (rd_expected s))).2).
Proof.
  revert b e. induction fuel as [|fuel IH]; intros b e Hf; [lia|].
  rewrite drain_step. cbn [rd_buffer].
  destruct (findFrameHeaderEnd b) as [i|] eqn:Ei; [|by destruct (drainFrames _ _ _)].
  destruct (frame_bounds b) as [[start stop]|] eqn:E.
  - pose proof (frame_bounds_pos b start stop E) as Hpos.
    pose proof (frame_bounds_app b c _ E) as E'. pose proof (find_header_app b c i Ei) as Ei'.
    destruct (Nat.ltb_spec (length b) stop) as [Hlt|Hge].
    + simpl. unfold drainFrames. rewrite !drain_step. cbn [rd_buffer]. rewrite Ei', E'.
      destruct (_ <? stop)%nat; [done|]. by destruct (drain _ _ _ _).
    + specialize (IH (drop stop b) None). rewrite length_drop in IH. specialize (IH ltac:(lia)).
      destruct (drain fuel codec limit (mkRead (drop stop b) None)) as [events s1].
      assert (drainFrames codec limit (mkRead (b ++ c) e) =
        (frame_event (drop start (take stop b)) :: (drainFrames codec limit (mkRead (drop stop b ++ c) None)).1,
         (drainFrames codec limit (mkRead (drop stop b ++ c) None)).2)) as Hwhole.
      { unfold drainFrames at 1. rewrite drain_step. cbn [rd_buffer]. rewrite Ei', E'.
        rewrite (proj2 (Nat.ltb_ge _ _)) by (rewrite length_app; lia).
        rewrite drop_app_le, take_app_le by lia.
        rewrite (drain_fuel _ (S (length (drop stop b ++ c))));
          [|simpl; rewrite !length_app, length_drop; lia|simpl; lia].
        change (drain (S (length (drop stop b ++ c))) codec limit (mkRead (drop stop b ++ c) None))
          with (drainFrames codec limit (mkRead (drop stop b ++ c) None)).
        by destruct (drainFrames codec limit (mkRead (drop stop b ++ c) None)). }
      rewrite Hwhole. simpl existsb.
      assert (is_bad (frame_event (drop start (take stop b))) = false) as ->
        by (unfold frame_event; by destruct (decodeRpcBody _ _ _)).
      simpl orb. destruct (existsb is_bad events); simpl; [exact IH|]. by rewrite IH.
  - cbv zeta. simpl. unfold drainFrames. rewrite drain_step. cbn [rd_buffer].
    rewrite (find_header_app b c i Ei).
    assert (frame_bounds (b ++ c) = None) as ->; [|done].
    revert E. unfold frame_bounds. rewrite Ei, (find_header_app b c i Ei). simpl.
    apply find_header_bound in Ei. by rewrite take_app_le by lia.
Qed.

(** Reading a stream in chunks is reading it at once. *)
Lemma on_chunks_drain chunks s :
  existsb is_bad (drainFrames codec limit (mkRead (rd_buffer s ++ concat chunks) (rd_expected s))).1 = false →
  chunks ≠ [] →
  on_chunks codec limit s chunks =
  drainFrames codec limit (mkRead (rd_buffer s ++ concat chunks) (rd_expected s)).
Proof.
  revert s. induction chunks as [|c chunks IH]; intros s Hbad Hne; [done|].
  cbn [on_chunks concat] in *. unfold on_data.
  destruct chunks as [|c' chunks].
  { cbn [on_chunks concat]. rewrite (app_nil_r c).
    destruct (drainFrames codec limit (mkRead (rd_buffer s ++ c) (rd_expected s))) as [events s1].
    by rewrite (app_nil_r events). }
  rewrite app_assoc in Hbad |- *.
  pose proof (drain_app (S (length (rd_buffer s ++ c))) (rd_buffer s ++ c) (concat (c' :: chunks))
    (rd_expected s) ltac:(lia)) as Happ.
  unfold drainFrames at 1. cbn [rd_buffer].
  destruct (drain (S (length (rd_buffer s ++ c))) codec limit (mkRead (rd_buffer s ++ c) (rd_expected s)))
    as [events s1].
  destruct (existsb is_bad events) eqn:Eb; [congruence|]. rewrite Happ in Hbad |- *.
  simpl in Hbad. rewrite existsb_app, Eb in Hbad. simpl in Hbad.
  rewrite IH by done. by destruct (drainFrames _ _ _).
Qed.

(** What the reader finds at the front of a buffer that begins with a frame. *)
Lemma encoded_frame v frame rest :
  encodeRpcFrame codec v limit = Ret frame → (∃ body, codec_ok codec v body) →
  ∃ headerEnd start, findFrameHeaderEnd (frame ++ rest) = Some headerEnd ∧
    frame_bounds (frame ++ rest) = Some (start, length frame) ∧
    decodeRpcBody codec (drop start frame) limit = Ret v.
Proof.
  intros He (body & Henc & Hdec). unfold encodeRpcFrame, encodeRpcBody in He. rewrite Henc in He.
  unfold validateBridgeMaxFrameBytes in He.
  destruct (isValidBridgeMaxFrameBytes limit) eqn:Ev; [|done].
  destruct (N.ltb_spec limit (byte_length body)) as [|Hle]; [done|].
  assert (frame = frame_header codec body ++ CRLF2 ++ body) as -> by congruence. clear He.
  set (h := frame_header codec body).
  assert ((h ++ CRLF2 ++ body) ++ rest = h ++ CRLF2 ++ (body ++ rest)) as Hassoc
    by by rewrite <- !app_assoc.
  assert (findFrameHeaderEnd ((h ++ CRLF2 ++ body) ++ rest) = Some (length h)) as Hfind
    by (rewrite Hassoc; apply find_clean_header, header_clean).
  assert (limit ≤ DEFAULT_BRIDGE_MAX_FRAME_BYTES)%N as Hlim
    by (unfold isValidBridgeMaxFrameBytes in Ev; apply andb_prop in Ev as [_ Ev]; by apply N.leb_le).
  assert (length (h ++ CRLF2 ++ body) = length h + 4 + length body) as Hlen
    by (rewrite !length_app; simpl; lia).
  exists (length h), (length h + 4). split; [done|]. split.
  - unfold frame_bounds. rewrite Hfind. cbn [mbind option_bind].
    rewrite Hassoc, take_app_length. unfold h. rewrite header_ascii, header_read_back.
    + cbn [fh_contentLength fh_malformedContentLength]. fold h.
      rewrite (proj2 (N.ltb_ge _ _)), Hlen by done. unfold byte_length. by rewrite Nat2N.id.
    + etrans; [exact Hle|]. etrans; [exact Hlim|]. by vm_compute.
  - assert (drop (length h + 4) (h ++ CRLF2 ++ body) = body) as ->
      by (rewrite app_assoc; apply drop_app_length'; rewrite length_app; done).
    unfold decodeRpcBody, validateBridgeMaxFrameBytes. by rewrite Ev, Hdec.
Qed.

(** A whole frame at the front of the buffer is read back. *)
Lemma drain_frame v frame rest e :
  encodeRpcFrame codec v limit = Ret frame → (∃ body, codec_ok codec v body) →
  drainFrames codec limit (mkRead (frame ++ rest) e) =
  (Incoming v :: (drainFrames codec limit (mkRead rest None)).1,
   (drainFrames codec limit (mkRead rest None)).2).
Proof.
  intros He Hc. destruct (encoded_frame v frame rest He Hc) as (i & start & Hfind & Hbounds & Hdec).
  pose proof (frame_bounds_pos _ _ _ Hbounds) as Hpos.
  unfold drainFrames at 1. rewrite drain_step. cbn [rd_buffer]. rewrite Hfind, Hbounds.
  rewrite (proj2 (Nat.ltb_ge _ _)) by (rewrite length_app; lia).
  rewrite take_app_length, drop_app_length.
  rewrite (drain_fuel _ (S (length rest))); [|simpl; rewrite length_app; lia|simpl; lia].
  change (drain (S (length rest)) codec limit (mkRead rest None))
    with (drainFrames codec limit (mkRead rest None)).
  unfold frame_event. rewrite Hdec. by destruct (drainFrames codec limit (mkRead rest None)).
Qed.

(** A frame of which a part is missing is waited for. *)
Lemma drain_part v frame part rest e :
  encodeRpcFrame codec v limit = Ret frame → (∃ body, codec_ok codec v body) →
  frame = part ++ rest → rest ≠ [] →
  ∃ e', drainFrames codec limit (mkRead part e) = ([], mkRead part e').
Proof.
  intros He Hc Hframe Hrest.
  destruct (encoded_frame v frame [] He Hc) as (i & start & Hfind & Hbounds & _).
  rewrite app_nil_r in Hfind, Hbounds. unfold drainFrames. rewrite drain_step. cbn [rd_buffer].
  destruct (findFrameHeaderEnd part) as [j|] eqn:Ej; [|by exists e].
  assert (frame_bounds part = Some (start, length frame)) as ->.
  { rewrite <- Hbounds, Hframe. unfold frame_bounds.
    rewrite (find_header_app part rest j Ej), Ej. simpl. apply find_header_bound in Ej.
    by rewrite take_app_le by lia. }
  rewrite (proj2 (Nat.ltb_lt _ _)); [by exists (Some (length frame))|].
  rewrite Hframe, length_app. destruct rest; [done|simpl; lia].
Qed.

Lemma drain_frames msgs frames e :
  Forall2 (λ v f, encodeRpcFrame codec v limit = Ret f ∧ ∃ body, codec_ok codec v body) msgs frames →
  drainFrames codec limit (mkRead (concat frames) e) =
  (Incoming <$> msgs, mkRead [] (match msgs with [] => e | _ => None end)).
Proof.
  intros Hall. revert e. induction Hall as [|v f msgs frames [He Hc] _ IH]; intros e; [done|].
  simpl concat. rewrite (drain_frame v f (concat frames) e He Hc), IH. by destruct msgs.
Qed.
End drain_facts.

(** ** Property of the framing *)

(** C2 Framing is a round trip for every way the stream is cut: the messages
    whose frames were written one after the other are received in that order,
    each exactly once, with nothing left in the buffer, however the bytes are
    split into chunks. *)
Theorem frames_round_trip {V} `{BodyCodec V} codec limit (msgs : list V) frames chunks :
  Forall2 (λ v f, encodeRpcFrame codec v limit = Ret f ∧ ∃ body, codec_ok codec v body) msgs frames →
  concat chunks = concat frames →
  on_chunks codec limit (mkRead [] None) chunks = (Incoming <$> msgs, mkRead [] None).
Proof.
  intros Hall Hcat. destruct chunks as [|c chunks].
  { destruct Hall as [|v f msgs frames [He _] _]; [done|]. exfalso. simpl in Hcat.
    unfold encodeRpcFrame in He. repeat case_match; try done. injection He as <-. done. }
  pose proof (drain_frames codec limit msgs frames None Hall) as Hdrain.
  rewrite on_chunks_drain; [|..|done]; cbn [rd_buffer rd_expected]; rewrite app_nil_l, Hcat, Hdrain.
  - by destruct msgs.
  - simpl. clear. induction msgs as [|v msgs IH]; csimpl; [done|exact IH].
Qed.

(** ** Witness: a codec of strings *)

#[global] Instance string_codec : BodyCodec string := {|
  encode_value _ s := Ret (list_ascii_of_string s);
  decode_value _ _ b := Ret (string_of_list_ascii b);
|}.

Definition demo_frame (s : string) : bytes :=
  frame_header JSON_RPC_CODEC (list_ascii_of_string s) ++ CRLF2 ++ list_ascii_of_string s.

Lemma frames_round_trip_witness :
  on_chunks JSON_RPC_CODEC DEFAULT_BRIDGE_MAX_FRAME_BYTES (mkRead [] None)
    [take 7 (demo_frame "ping"); drop 7 (demo_frame "ping") ++ take 1 (demo_frame "pong");
     drop 1 (demo_frame "pong")]
  = (Incoming <$> ["ping"; "pong"], mkRead [] None).
Proof.
  apply (frames_round_trip JSON_RPC_CODEC DEFAULT_BRIDGE_MAX_FRAME_BYTES ["ping"; "pong"]
           [demo_frame "ping"; demo_frame "pong"]).
  - repeat constructor; eexists; split; try reflexivity; intros; simpl;
      by rewrite ?string_of_list_ascii_of_string.
  - reflexivity.
Defined.
