(* ===== verification/Peer.v ===== *)
(** * The JSON-RPC peer of a worker

    [packages/opencode-app/src/worker/worker-jsonrpc-stdio.ts]:
    [WorkerJsonRpcPeer] as a state machine.  The events of the input stream, the
    timers and the failures of the output stream are steps of their own, in any
    order; a request handler runs to its end in the step that delivers the
    request.  A response whose [error] is [null] makes the handling of responses
    throw after the request was forgotten: it is lost ([p_lost]). *)

From S2P Require Import Prelude Json Codec.
From Stdlib Require Import Ascii String.
From stdpp Require Import prelude list strings pretty.
Set Default Proof Using "Type".
Set Warnings "-clear-no-such-hyp".

(** ** Messages *)

(** [key in message]. *)
Definition has_member (key : string) (v : json) : bool :=
  match json_get key v with Some _ => true | None => false end.

Definition isJsonRpcMessage (message : json) : bool :=
  match json_get "jsonrpc" message with Some (JStr s) => String.eqb s "2.0" | _ => false end.

Definition isRequest (message : json) : bool :=
  has_member "id" message && has_member "method" message.

Definition isResponse (message : json) : bool :=
  has_member "id" message && (has_member "result" message || has_member "error" message)
  && negb (has_member "method" message).

(** The id of a response, when it is a number that this peer could have issued;
    numbers are printed as [JSON.stringify] prints them. *)
Definition response_id (message : json) : option N :=
  match json_get "id" message with
  | Some (JNum l) => if all_digits l then Some (decimal_value l) else None
  | _ => None
  end.

Definition request_message (id : N) (method : string) (params : option json) : json :=
  JObj ([("jsonrpc", JStr "2.0"); ("id", JNum (pretty id)); ("method", JStr method)]
        ++ opt_member "params" params).

Definition notification_message (method : string) (params : option json) : json :=
  JObj ([("jsonrpc", JStr "2.0"); ("method", JStr method)] ++ opt_member "params" params).

Definition result_message (id result : json) : json :=
  JObj [("jsonrpc", JStr "2.0"); ("id", id); ("result", result)].

Definition error_message (id : json) (code message : string) (data : option json) : json :=
  JObj [("jsonrpc", JStr "2.0"); ("id", id);
        ("error", JObj ([("code", JNum code); ("message", JStr message)] ++ opt_member "data" data))].

(** ** The peer *)

Inductive PeerErrorKind : Type := err_closed | err_timeout | err_protocol | err_rpc.

(** How the promise of a request ends. *)
Inductive Settled : Type :=
| Resolved (result : option json)
| Rejected (kind : PeerErrorKind) (message : string).

(** [p_lost] holds the requests that are no longer in [pending] although their
    promise was neither resolved nor rejected, with the response that did it. *)
Record Peer : Type := mkPeer {
  p_read : ReadState;
  p_pending : list (N * string);
  p_nextRequestId : N;
  p_closed : bool;
  p_settled : list (N * Settled);
  p_lost : list (N * json);
  p_sent : list json;
  p_protocolErrors : list string;
}.

Definition new_peer : Peer := mkPeer (mkRead [] None) [] 1 false [] [] [] [].

Definition set_read (r : ReadState) (p : Peer) : Peer :=
  mkPeer r (p_pending p) (p_nextRequestId p) (p_closed p) (p_settled p) (p_lost p) (p_sent p)
    (p_protocolErrors p).
Definition add_sent (m : json) (p : Peer) : Peer :=
  mkPeer (p_read p) (p_pending p) (p_nextRequestId p) (p_closed p) (p_settled p) (p_lost p) (p_sent p ++ [m])
    (p_protocolErrors p).
Definition add_error (message : string) (p : Peer) : Peer :=
  mkPeer (p_read p) (p_pending p) (p_nextRequestId p) (p_closed p) (p_settled p) (p_lost p) (p_sent p)
    (p_protocolErrors p ++ [message]).

(** [pending.get(id)], then [clearTimeout], [pending.delete(id)] and the promise
    settles; nothing happens for an id that is not pending. *)
Definition settle (id : N) (outcome : string → Settled) (p : Peer) : Peer :=
  match List.find (λ e, N.eqb e.1 id) (p_pending p) with
  | None => p
  | Some e =>
    mkPeer (p_read p) (filter (λ e, e.1 ≠ id) (p_pending p)) (p_nextRequestId p) (p_closed p)
      (p_settled p ++ [(id, outcome e.2)]) (p_lost p) (p_sent p) (p_protocolErrors p)
  end.

Definition failAllPending (kind : PeerErrorKind) (message : string) (p : Peer) : Peer :=
  mkPeer (p_read p) [] (p_nextRequestId p) (p_closed p)
    (p_settled p ++ ((λ e, (e.1, Rejected kind message)) <$> p_pending p)) (p_lost p) (p_sent p)
    (p_protocolErrors p).

(** [pending.get(id)], [clearTimeout] and [pending.delete(id)], and then an
    exception before the promise settles: [handleIncoming] rejects, which nobody
    handles. *)
Definition lose (id : N) (response : json) (p : Peer) : Peer :=
  match List.find (λ e, N.eqb e.1 id) (p_pending p) with
  | None => p
  | Some _ =>
    mkPeer (p_read p) (filter (λ e, e.1 ≠ id) (p_pending p)) (p_nextRequestId p) (p_closed p)
      (p_settled p) (p_lost p ++ [(id, response)]) (p_sent p) (p_protocolErrors p)
  end.

Definition handleProtocolError (message : string) (p : Peer) : Peer :=
  failAllPending err_protocol message (add_error message p).

(** What a handler may throw: a [JsonRpcResponseError], another error, or a value
    that is no error. *)
Inductive Thrown : Type :=
| ResponseError (code : string) (message : string) (data : option json)
| OtherError (message : string)
| NoError.

Section peer.
Context `{BodyCodec json}.
Variable codec : BridgeRpcCodec.
Variable maxFrameBytes : N.
Variable requestHandlers : string → option (option json → json + Thrown).
Variable notificationHandlers : string → option (option json → () + Thrown).
Variable afterResponseHandlers : string → option (json → () + Thrown).

(** [writeMessage]: the frame is built, or the promise rejects. *)
Definition writeMessage (message : json) (p : Peer) : (() + Thrown) * Peer :=
  match encodeRpcFrame codec message maxFrameBytes with
  | Throw e => (inr (OtherError e), p)
  | Ret _ => (inl (), add_sent message p)
  end.

Definition request (method : string) (params : option json) (p : Peer) : Peer :=
  if p_closed p then p else
  let id := p_nextRequestId p in
  let p := mkPeer (p_read p) (p_pending p ++ [(id, method)]) (p_nextRequestId p + 1)
             (p_closed p) (p_settled p) (p_lost p) (p_sent p) (p_protocolErrors p) in
  match writeMessage (request_message id method params) p with
  | (inl _, p) => p
  | (inr e, p) =>
    settle id (λ method, Rejected err_closed
      ("Failed to write JSON-RPC request '" +:+ method +:+ "': " +:+
       match e with OtherError m | ResponseError _ m _ => m | NoError => "" end)) p
  end.

Definition notify (method : string) (params : option json) (p : Peer) : Peer :=
  if p_closed p then p else snd (writeMessage (notification_message method params) p).

(** A request whose response has [null] for its [error] is removed, and
    [response.error.code] throws.  [super(message)] makes a string of any message
    but [undefined]. *)
Definition handleResponse (response : json) (p : Peer) : Peer :=
  match response_id response with
  | None => p
  | Some id =>
    match json_get "error" response with
    | Some JNull => lose id response p
    | Some e =>
      settle id (λ _, Rejected err_rpc (from_option js_String "" (json_get "message" e))) p
    | None => settle id (λ _, Resolved (json_get "result" response)) p
    end
  end.

Definition error_payload (id : json) (e : Thrown) : json :=
  match e with
  | ResponseError code message data => error_message id code message data
  | OtherError message => error_message id "-32000" message None
  | NoError => error_message id "-32000" "JSON-RPC request failed." None
  end.

Definition handleRequest (message : json) (p : Peer) : Peer :=
  let id := json_get "id" message or_else JNull in
  let method := match json_get "method" message with Some (JStr m) => m | _ => "" end in
  match requestHandlers method with
  | None => snd (writeMessage (error_message id "-32601" ("method not found: " +:+ method) None) p)
  | Some handler =>
    let '(failed, p) :=
      match handler (json_get "params" message) with
      | inr e => (Some e, p)
      | inl result =>
        match writeMessage (result_message id result) p with
        | (inr e, p) => (Some e, p)
        | (inl _, p) =>
          match afterResponseHandlers method with
          | None => (None, p)
          | Some after => match after message with inr e => (Some e, p) | inl _ => (None, p) end
          end
        end
      end in
    match failed with
    | None => p
    | Some e => snd (writeMessage (error_payload id e) p)
    end
  end.

Definition handleNotification (message : json) (p : Peer) : Peer :=
  let method := match json_get "method" message with Some (JStr m) => m | _ => "" end in
  match notificationHandlers method with
  | None => p
  | Some handler =>
    match handler (json_get "params" message) with
    | inl _ => p
    | inr (OtherError m) | inr (ResponseError _ m _) => handleProtocolError m p
    | inr NoError => handleProtocolError "JSON-RPC notification handler failed." p
    end
  end.

Definition handleIncoming (message : json) (p : Peer) : Peer :=
  if negb (isJsonRpcMessage message) then handleProtocolError "Ignoring malformed JSON-RPC message." p
  else if isResponse message then handleResponse message p
  else if isRequest message then handleRequest message p
  else handleNotification message p.

Definition codec_name : string :=
  match codec with JSON_RPC_CODEC => "json-rpc-v1" | MSGPACK_RPC_CODEC => "msgpack-rpc-v1" end.

Definition on_event (p : Peer) (e : FrameEvent) : Peer :=
  match e with
  | Incoming message => handleIncoming message p
  | Undecodable m =>
    handleProtocolError ("JSON-RPC payload could not be decoded as " +:+ codec_name +:+ ": " +:+ m) p
  | BadHeader m => handleProtocolError m p
  end.

(** The listeners of [start]. *)
Definition on_input (chunk : bytes) (p : Peer) : Peer :=
  if p_closed p then p else
  let '(events, r) := on_data codec maxFrameBytes (p_read p) chunk in
  foldl on_event (set_read r p) events.

Definition on_input_error (message : string) (p : Peer) : Peer :=
  add_error message
    (failAllPending err_protocol ("JSON-RPC input stream failed: " +:+ message) p).

Definition on_end (p : Peer) : Peer :=
  let truncated := bool_decide (is_Some (rd_expected (p_read p))) || (0 <? length (rd_buffer (p_read p)))%nat in
  let p := if truncated
           then set_read (mkRead [] None)
                  (handleProtocolError "JSON-RPC input stream ended with a truncated frame." p)
           else p in
  failAllPending err_closed "JSON-RPC input stream ended." p.

(** The timer of a request, which is cleared when the request settles. *)
Definition on_timeout (id : N) (timeoutMs : N) (p : Peer) : Peer :=
  settle id (λ method, Rejected err_timeout
    ("JSON-RPC request '" +:+ method +:+ "' timed out after " +:+ pretty timeoutMs +:+ "ms.")) p.

(** The write of a request that is reported as failed later. *)
Definition on_write_failure (id : N) (message : string) (p : Peer) : Peer :=
  settle id (λ method, Rejected err_closed
    ("Failed to write JSON-RPC request '" +:+ method +:+ "': " +:+ message)) p.

Definition close (p : Peer) : Peer :=
  if p_closed p then p else
  failAllPending err_closed "JSON-RPC peer was closed."
    (mkPeer (p_read p) (p_pending p) (p_nextRequestId p) true (p_settled p) (p_lost p)
      (p_sent p) (p_protocolErrors p)).

(** ** Steps *)

Inductive peer_step : Peer → Peer → Prop :=
| step_request method params p : peer_step p (request method params p)
| step_notify method params p : peer_step p (notify method params p)
| step_input chunk p : peer_step p (on_input chunk p)
| step_input_error message p : peer_step p (on_input_error message p)
| step_end p : peer_step p (on_end p)
| step_timeout id ms p : peer_step p (on_timeout id ms p)
| step_write_failure id message p : peer_step p (on_write_failure id message p)
| step_close p : peer_step p (close p).

(** The issued ids: waiting, settled and lost. *)
Definition ids (p : Peer) : list N := (p_pending p).*1 ++ (p_settled p).*1 ++ (p_lost p).*1.

(** A response to the request [id] with [null] for its [error]. *)
Definition null_error (e : N * json) : Prop :=
  isResponse e.2 = true ∧ response_id e.2 = Some e.1 ∧ json_get "error" e.2 = Some JNull.

(** The promises of the peer: the issued ids are those below the counter; each
    is waiting, settled or lost, in one way and once; only a response with [null]
    for its [error] loses a request; and a closed peer has nothing waiting. *)
Record peer_inv (p : Peer) : Prop := {
  pi_ids : ∀ id, id ∈ ids p ↔ (1 ≤ id < p_nextRequestId p)%N;
  pi_once : NoDup (ids p);
  pi_lost : Forall null_error (p_lost p);
  pi_closed : p_closed p = true → p_pending p = [];
  pi_next : (1 ≤ p_nextRequestId p)%N;
}.
End peer.

(** ** Facts *)

(** The step keeps the issued ids and only moves them from waiting to settled or
    lost. *)
Record moves (p p' : Peer) : Prop := {
  mv_ids : ids p' ≡ₚ ids p;
  mv_next : p_nextRequestId p' = p_nextRequestId p;
  mv_closed : p_closed p' = p_closed p;
  mv_empty : p_pending p = [] → p_pending p' = [];
  mv_lost : Forall null_error (p_lost p) → Forall null_error (p_lost p');
}.

#[global] Instance moves_preorder : PreOrder moves.
Proof.
  split; [by split|]. intros p q r [A1 B1 C1 D1 E1] [A2 B2 C2 D2 E2].
  split; [by rewrite A2|congruence|congruence|auto|auto].
Qed.

(** Looking an entry up by its id splits the list, as ids are not repeated. *)
Lemma find_split {A} (f : A → N) (l : list A) id e :
  NoDup (f <$> l) → List.find (λ e, N.eqb (f e) id) l = Some e →
  f e = id ∧ l ≡ₚ e :: filter (λ e, f e ≠ id) l.
Proof.
  induction l as [|x l IH]; csimpl; [done|]. intros [Hx Hn]%NoDup_cons.
  destruct (N.eqb_spec (f x) id) as [Hid|Hid].
  - intros [= ->]. split; [done|]. rewrite filter_cons_False by (intros Hc; by apply Hc).
    f_equiv. clear IH. induction l as [|y l IH]; [done|]. csimpl in *.
    apply not_elem_of_cons in Hx as [Hy Hx]. apply NoDup_cons in Hn as [_ Hn].
    rewrite filter_cons_True by congruence. f_equiv. by apply IH.
  - intros Hf. destruct (IH Hn Hf) as [? Hp]. split; [done|].
    rewrite filter_cons_True by done. rewrite Hp at 1. apply Permutation_swap.
Qed.

(** The ids after an entry left [pending]. *)
Lemma remove_pending id (l : list (N * string)) e :
  NoDup l.*1 → List.find (λ e, N.eqb e.1 id) l = Some e →
  l.*1 ≡ₚ id :: (filter (λ e, e.1 ≠ id) l).*1.
Proof.
  intros Hn E. destruct (find_split fst _ _ _ Hn E) as [He Hp].
  apply (fmap_Permutation fst) in Hp. by rewrite Hp, fmap_cons, He.
Qed.

Lemma settle_moves id outcome p : NoDup (ids p) → moves p (settle id outcome p).
Proof.
  intros [Hn _]%NoDup_app. unfold settle. destruct (List.find _ _) as [e|] eqn:E; [|reflexivity].
  split; simpl; [|done|done|by intros ->|done].
  unfold ids. simpl. rewrite (remove_pending _ _ _ Hn E), fmap_app. simpl. solve_Permutation.
Qed.

Lemma lose_moves id response p :
  NoDup (ids p) → null_error (id, response) → moves p (lose id response p).
Proof.
  intros [Hn _]%NoDup_app Hnull. unfold lose. destruct (List.find _ _) as [e|] eqn:E; [|reflexivity].
  split; simpl; [|done|done|by intros ->|].
  - unfold ids. simpl. rewrite (remove_pending _ _ _ Hn E), fmap_app. simpl. solve_Permutation.
  - intros Hl. apply Forall_app. split; [done|]. by apply Forall_singleton.
Qed.

Lemma fail_moves kind message p : moves p (failAllPending kind message p).
Proof.
  split; simpl; [|done..]. unfold ids. simpl. rewrite fmap_app, <- list_fmap_compose.
  unfold compose. simpl. solve_Permutation.
Qed.

Lemma add_error_moves m p : moves p (add_error m p).
Proof. by split. Qed.

Lemma protocol_error_moves m p : moves p (handleProtocolError m p).
Proof. etrans; [apply add_error_moves|apply fail_moves]. Qed.

Lemma set_read_moves r p : moves p (set_read r p).
Proof. by split. Qed.

Section peer_facts.
Context `{BodyCodec json} (codec : BridgeRpcCodec) (limit : N).
Context (requestHandlers : string → option (option json → json + Thrown)).
Context (notificationHandlers : string → option (option json → () + Thrown)).
Context (afterResponseHandlers : string → option (json → () + Thrown)).

Lemma write_moves m p : moves p (writeMessage codec limit m p).2.
Proof. unfold writeMessage. by destruct (encodeRpcFrame codec m limit). Qed.

Lemma handleRequest_moves m p :
  moves p (handleRequest codec limit requestHandlers afterResponseHandlers m p).
Proof.
  unfold handleRequest. destruct (requestHandlers _) as [handler|]; [|apply write_moves].
  destruct (handler _) as [result|e]; [|apply write_moves].
  pose proof (write_moves (result_message (json_get "id" m or_else JNull) result) p) as Hw.
  destruct (writeMessage _ _ _ p) as [[[]|e] p1]; simpl in Hw.
  - destruct (afterResponseHandlers _) as [after|]; [|done].
    destruct (after m); [done|]. etrans; [exact Hw|apply write_moves].
  - etrans; [exact Hw|apply write_moves].
Qed.

Lemma handleNotification_moves m p : moves p (handleNotification notificationHandlers m p).
Proof.
  unfold handleNotification. destruct (notificationHandlers _) as [handler|]; [|reflexivity].
  destruct (handler _) as [|[]]; reflexivity || apply protocol_error_moves.
Qed.

Lemma on_event_moves p e : NoDup (ids p) →
  moves p (on_event codec limit requestHandlers notificationHandlers afterResponseHandlers p e).
Proof.
  intros Hn. destruct e; simpl; try apply protocol_error_moves. unfold handleIncoming.
  destruct (negb _); [apply protocol_error_moves|].
  destruct (isResponse v) eqn:Er; [|destruct (isRequest v);
    [apply handleRequest_moves|apply handleNotification_moves]].
  unfold handleResponse. destruct (response_id v) eqn:Ei; [|reflexivity].
  destruct (json_get "error" v) as [[]|] eqn:Ee; try by apply settle_moves.
  by apply lose_moves.
Qed.

Lemma on_input_moves chunk p : NoDup (ids p) →
  moves p (on_input codec limit requestHandlers notificationHandlers afterResponseHandlers chunk p).
Proof.
  intros Hn. unfold on_input. destruct (p_closed p); [reflexivity|].
  destruct (on_data codec limit (p_read p) chunk) as [events r].
  assert (moves p (set_read r p)) as Hm by apply set_read_moves. revert Hm.
  generalize (set_read r p) as q. induction events as [|e events IH]; intros q Hq; simpl; [done|].
  apply IH. etrans; [exact Hq|]. apply on_event_moves. by rewrite (mv_ids _ _ Hq).
Qed.

Lemma on_end_moves p : moves p (on_end p).
Proof.
  unfold on_end. etrans; [|apply fail_moves]. destruct (_ || _); [|reflexivity].
  etrans; [apply protocol_error_moves|apply set_read_moves].
Qed.

Lemma moves_inv p p' : peer_inv p → moves p p' → peer_inv p'.
Proof.
  intros [A B L C D] [M1 M2 M3 M4 M5]. split; [| |auto| |].
  - intros id. rewrite M1, M2. apply A.
  - by rewrite M1.
  - rewrite M3. auto.
  - by rewrite M2.
Qed.

(** Issuing an id keeps the invariant. *)
Lemma request_inv method params p : peer_inv p → peer_inv (request codec limit method params p).
Proof.
  intros Hinv. unfold request. destruct (p_closed p) eqn:Ec; [done|].
  set (q := mkPeer _ _ _ _ _ _ _ _).
  assert (peer_inv q) as Hq.
  { assert (ids q ≡ₚ p_nextRequestId p :: ids p) as Hids.
    { unfold ids. simpl. rewrite fmap_app. simpl. solve_Permutation. }
    destruct Hinv as [A B L C D]. split; simpl; [| |done|done|lia].
    - intros id. rewrite Hids, elem_of_cons, A. lia.
    - rewrite Hids. constructor; [|done]. rewrite A. lia. }
  pose proof (write_moves (request_message (p_nextRequestId p) method params) q) as Hw.
  destruct (writeMessage _ _ _ q) as [[[]|e] q1]; simpl in Hw; pose proof (moves_inv _ _ Hq Hw) as Hq1;
    [done|]. eapply moves_inv; [done|]. apply settle_moves, pi_once. done.
Qed.

Lemma close_inv p : peer_inv p → peer_inv (close p).
Proof.
  intros Hinv. unfold close. destruct (p_closed p); [done|].
  destruct Hinv as [A B L C D]. set (q := mkPeer _ _ _ _ _ _ _ _).
  destruct (fail_moves err_closed "JSON-RPC peer was closed." q) as [M1 M2 M3 M4 M5]. split; [| |auto|done|].
  - intros id. rewrite M1, M2. apply A.
  - by rewrite M1.
  - by rewrite M2.
Qed.

Lemma step_inv p p' :
  peer_step codec limit requestHandlers notificationHandlers afterResponseHandlers p p' →
  peer_inv p → peer_inv p'.
Proof.
  intros Hstep Hinv. pose proof (pi_once _ Hinv) as Hn.
  destruct Hstep as [method params p|method params p|chunk p|m p|p|id ms p|id m p|p];
    try (by apply request_inv); try (by apply close_inv); apply (moves_inv p); try done.
  - unfold notify. destruct (p_closed p); [reflexivity|apply write_moves].
  - by apply on_input_moves.
  - etrans; [apply fail_moves|apply add_error_moves].
  - apply on_end_moves.
  - by apply settle_moves.
  - by apply settle_moves.
Qed.
End peer_facts.

(** ** Properties *)


(** What the handler of a request may end with besides a result. *)
Definition request_fails `{BodyCodec json} codec limit requestHandlers afterResponseHandlers
    (method : string) (message : json) (e : Thrown) : Prop :=
  (∃ handler : option json → json + Thrown, requestHandlers method = Some handler ∧
     (handler (json_get "params" message) = inr e ∨
      ∃ result text, handler (json_get "params" message) = inl result ∧
        encodeRpcFrame codec (result_message (json_get "id" message or_else JNull) result) limit = Throw text ∧
        e = OtherError text)) ∨
  (∃ after : json → () + Thrown, afterResponseHandlers method = Some after ∧ after message = inr e).

Definition encodes `{BodyCodec json} codec limit (m : json) : Prop :=
  ∃ frame, encodeRpcFrame codec m limit = Ret frame.

(** A request is answered exactly once, under its own id, whether its method
    is unknown, its handler fails, its result is too large or all goes well,
    with one exception: when the result was sent and the after-response handler
    then fails, a second answer, an error, goes out for the same id. *)
Theorem request_answers `{BodyCodec json} codec limit requestHandlers afterResponseHandlers
    method message p :
  json_get "method" message = Some (JStr method) →
  let id := json_get "id" message or_else JNull in
  encodes codec limit (error_message id "-32601" ("method not found: " +:+ method) None) →
  (∀ e, request_fails codec limit requestHandlers afterResponseHandlers method message e →
     encodes codec limit (error_payload id e)) →
  ∃ answers, p_sent (handleRequest codec limit requestHandlers afterResponseHandlers message p) =
      p_sent p ++ answers ∧
    Forall (λ a, json_get "id" a = Some id) answers ∧
    ((∃ handler result after e, requestHandlers method = Some handler ∧
        handler (json_get "params" message) = inl result ∧
        encodes codec limit (result_message id result) ∧
        afterResponseHandlers method = Some after ∧ after message = inr e) ∧ length answers = 2 ∨
     length answers = 1).
Proof.
  intros Hm id [fnf Hnf] Hfail. unfold handleRequest, writeMessage. rewrite Hm. fold id.
  assert (∀ e, json_get "id" (error_payload id e) = Some id) as Heid by (intros []; done).
  destruct (requestHandlers method) as [handler|] eqn:Eh.
  2:{ rewrite Hnf. eexists. split; [reflexivity|]. split; [by constructor|]. by right. }
  destruct (handler (json_get "params" message)) as [result|e] eqn:Er.
  2:{ destruct (Hfail e) as [f Hf]; [by left; exists handler; split; [|left]|].
      rewrite Hf. eexists. split; [reflexivity|]. split; [by constructor|]. by right. }
  destruct (encodeRpcFrame codec (result_message id result) limit) as [frame|text] eqn:Ef.
  2:{ destruct (Hfail (OtherError text)) as [f Hf].
      { left. exists handler. split; [done|]. right. by exists result, text. }
      simpl in *. rewrite Hf. eexists. split; [reflexivity|]. split; [by constructor|]. by right. }
  destruct (afterResponseHandlers method) as [after|] eqn:Ea.
  - destruct (after message) as [u|e] eqn:Eaf.
    + eexists. split; [reflexivity|]. split; [by constructor|]. by right.
    + destruct (Hfail e) as [f Hf]; [right; by exists after|]. rewrite Hf.
      exists [result_message id result; error_payload id e]. split; [|split].
      * simpl. by rewrite <- app_assoc.
      * by repeat constructor.
      * left. split; [|done]. exists handler, result, after, e. split_and!; try done. by exists frame.
  - eexists. split; [reflexivity|]. split; [by constructor|]. by right.
Qed.

(** ** Witnesses *)

(** The JSON codec; every body that the peer of the examples receives is a
    response to the request 2 with [null] for its [error]. *)
Definition null_response : json :=
  JObj [("jsonrpc", JStr "2.0"); ("id", JNum "2"); ("error", JNull)].

#[local] Instance demo_json_codec : BodyCodec json := {|
  encode_value _ v := Ret (list_ascii_of_string (stringify v));
  decode_value _ _ _ := Ret null_response;
|}.

Definition demo_limit : N := DEFAULT_BRIDGE_MAX_FRAME_BYTES.
Definition no_notifications : string → option (option json → () + Thrown) := λ _, None.

(** One handler that answers ["pong"], whose after-response handler fails. *)
Definition demo_requests (m : string) : option (option json → json + Thrown) :=
  if String.eqb m "ping" then Some (λ _, inl (JStr "pong")) else None.
Definition demo_after (m : string) : option (json → () + Thrown) :=
  if String.eqb m "ping" then Some (λ _, inr (OtherError "late failure")) else None.

(** Three requests: the first one times out, the second one is lost to its
    response, the third one is rejected when the peer closes. *)
Definition demo_frame : bytes :=
  match encodeRpcFrame JSON_RPC_CODEC null_response demo_limit with Ret f => f | Throw _ => [] end.

Definition demo_peer : Peer :=
  close (on_input JSON_RPC_CODEC demo_limit demo_requests no_notifications demo_after demo_frame
    (on_timeout 1 10 (request JSON_RPC_CODEC demo_limit "c" None
      (request JSON_RPC_CODEC demo_limit "b" None
        (request JSON_RPC_CODEC demo_limit "a" None new_peer))))).

(** The response of a request with [null] for its [error]: the request never
    settles, neither by its timer, which was cleared, nor by closing the peer. *)
Example null_error_loses_request :
  (p_pending demo_peer).*1 = [] ∧ (p_settled demo_peer).*1 = [1; 3]%N ∧
  p_lost demo_peer = [(2%N, null_response)] ∧ on_timeout 2 10 demo_peer = demo_peer.
Proof. split_and!; vm_compute; reflexivity. Qed.


Definition ping : json := request_message 7 "ping" None.

Lemma request_answers_witness :
  ∃ answers, p_sent (handleRequest JSON_RPC_CODEC demo_limit demo_requests demo_after ping new_peer) =
      p_sent new_peer ++ answers ∧
    Forall (λ a, json_get "id" a = Some (JNum "7")) answers ∧
    ((∃ handler result after e, demo_requests "ping" = Some handler ∧
        handler (json_get "params" ping) = inl result ∧
        encodes JSON_RPC_CODEC demo_limit (result_message (JNum "7") result) ∧
        demo_after "ping" = Some after ∧ after ping = inr e) ∧ length answers = 2 ∨
     length answers = 1).
Proof.
  apply (request_answers JSON_RPC_CODEC demo_limit demo_requests demo_after "ping" ping new_peer).
  - reflexivity.
  - eexists. vm_compute. reflexivity.
  - intros e [(handler & [= <-] & [Hc|(result & text & [= <-] & Hc & _)])|(after & [= <-] & [= <-])].
    + done.
    + exfalso. vm_compute in Hc. done.
    + eexists. vm_compute. reflexivity.
Defined.
