(* ===== verification/QualityGates.v ===== *)
(** * Quality gate reports

    [packages/runtime/src/workflow/quality-gates-runtime.ts].  The file system
    and the probe for the Semgrep command line are parameters. *)

From S2P Require Import Prelude Json Domain Hooks.
From Stdlib Require Import Ascii String QArith.
From stdpp Require Import prelude list strings gmap.
Set Default Proof Using "Type".
Set Warnings "-clear-no-such-hyp".

Inductive QualityGateId : Type :=
| rule_scan | security_scan | workflow_gate | local_verification | structural_evidence
| browser_verification_gate.

#[global] Instance QualityGateId_eq_dec : EqDecision QualityGateId.
Proof. solve_decision. Defined.

#[global] Instance QualityStatus_eq_dec : EqDecision QualityStatus.
Proof. solve_decision. Defined.

Definition QUALITY_GATE_CATALOG : list QualityGateId :=
  [rule_scan; security_scan; workflow_gate; local_verification; structural_evidence;
   browser_verification_gate].

Definition gate_name (g : QualityGateId) : string :=
  match g with
  | rule_scan => "rule_scan" | security_scan => "security_scan" | workflow_gate => "workflow_gate"
  | local_verification => "local_verification" | structural_evidence => "structural_evidence"
  | browser_verification_gate => "browser_verification"
  end.

Inductive QualityGateAvailability : Type := qa_available | qa_unavailable | qa_not_configured.

#[global] Instance QualityGateAvailability_eq_dec : EqDecision QualityGateAvailability.
Proof. solve_decision. Defined.

Record QualityGateAvailabilityRecord : Type := mkAvailability {
  qa_gateId : QualityGateId;
  qa_availability : QualityGateAvailability;
  qa_reason : string;
}.

Record QualityGateAvailabilitySnapshot : Type := mkAvailabilities {
  av_gates : QualityGateId → QualityGateAvailabilityRecord;
  av_availableCount : nat;
  av_unavailableCount : nat;
  av_notConfiguredCount : nat;
}.

Section availability.
(** [fsSync.existsSync] below the root, and [detectSemgrepCli]. *)
Variable exists_file : string → bool.
Variable semgrepDetected : bool.

Definition resolveRuleScanAvailability : QualityGateAvailabilityRecord :=
  if negb (existsb exists_file [".semgrep.yml"; ".semgrep.yaml"; "semgrep.yml"; "semgrep.yaml"])
  then mkAvailability rule_scan qa_not_configured
         "Semgrep configuration was not found (.semgrep.yml/.semgrep.yaml)."
  else if negb semgrepDetected
  then mkAvailability rule_scan qa_unavailable
         "Semgrep configuration exists but Semgrep CLI was not detected on host PATH."
  else mkAvailability rule_scan qa_available
         "Semgrep configuration and Semgrep CLI are present; in-process gate execution bridge remains additive and lane-owned.".

Definition resolveSecurityScanAvailability : QualityGateAvailabilityRecord :=
  if negb (existsb exists_file [".dh/security-scan.json"; ".dh/security-rules.json";
                                ".semgrep/security.yml"; ".semgrep/security.yaml"])
  then mkAvailability security_scan qa_not_configured
         "Security scan configuration was not found in expected runtime paths."
  else mkAvailability security_scan qa_unavailable
         "Security scan configuration exists but in-process security_scan execution bridge is not installed.".

Definition gate_availability (g : QualityGateId) : QualityGateAvailabilityRecord :=
  match g with
  | rule_scan => resolveRuleScanAvailability
  | security_scan => resolveSecurityScanAvailability
  | workflow_gate => mkAvailability g qa_available "Workflow stage gate evaluator is available."
  | local_verification => mkAvailability g qa_available "Local verification evidence surface is available."
  | structural_evidence => mkAvailability g qa_available "Structural evidence hook surface is available."
  | browser_verification_gate =>
    mkAvailability g qa_available "Browser verification normalization surface is available."
  end.

(** The counters of the loop over the catalog. *)
Definition count_availability (c : nat * nat * nat) (g : QualityGateId) : nat * nat * nat :=
  let '(a, u, n) := c in
  match qa_availability (gate_availability g) with
  | qa_available => (S a, u, n)
  | qa_unavailable => (a, S u, n)
  | qa_not_configured => (a, u, S n)
  end.

Definition getQualityGateAvailabilitySnapshot : QualityGateAvailabilitySnapshot :=
  let '(a, u, n) := foldl count_availability (0, 0, 0)%nat QUALITY_GATE_CATALOG in
  mkAvailabilities gate_availability a u n.

(** ** Results *)

Definition normalizeBrowserVerificationResult (required pass : bool)
    (executedChecks evidence limitations : list string) : QualityGateResult :=
  if negb required
  then mkQuality "browser_verification" q_not_run
         "Browser verification was not required for this objective." [] []
  else mkQuality "browser_verification" (if pass then q_pass else q_fail)
         (if pass then "Browser verification requirement satisfied."
          else "Browser verification requirement did not pass.")
         (executedChecks ++ evidence) limitations.

Definition normalizeRuleGateResult (gateId : QualityGateId) (r : QualityGateAvailabilityRecord) :
    QualityGateResult :=
  if negb (bool_decide (qa_availability r = qa_available))
  then mkQuality (gate_name gateId) q_not_run (qa_reason r) []
         ["Verification gate is not executable in this runtime."]
  else mkQuality (gate_name gateId) q_not_run
         (gate_name gateId +:+ " is available but was not executed in this workflow path.") []
         ["No local execution bridge wired for this workflow lane."].

Record StructuralInput : Type := mkStructural {
  si_evaluated : bool;
  si_allowed : option bool;
  si_reason : option string;
  si_suggestion : option string;
  si_toolsUsed : option (list string);
  si_evidenceScore : option Q;
}.

Record WorkflowQualityInput : Type := mkQualityInput {
  qi_lane : WorkflowLane;
  qi_gatePass : bool;
  qi_gateReason : string;
  qi_localPass : bool;
  qi_localReason : string;
  qi_localEvidence : option (list string);
  qi_localLimitations : option (list string);
  qi_structural : option StructuralInput;
  qi_browserRequired : bool;
  qi_browserPass : bool;
  qi_browserChecks : list string;
  qi_browserEvidence : list string;
  qi_browserLimitations : list string;
}.

Record WorkflowQualityGateReport : Type := mkQualityReport {
  qg_lane : WorkflowLane;
  qg_availability : QualityGateAvailabilitySnapshot;
  qg_results : list QualityGateResult;
  qg_passCount : nat;
  qg_failCount : nat;
  qg_notRunCount : nat;
  qg_unavailableCount : nat;
  qg_notConfiguredCount : nat;
}.

Definition structural_result (o : option StructuralInput) : QualityGateResult :=
  let si := o or_else mkStructural false None None None None None in
  normalizeStructuralEvidenceResult (si_evaluated si) (si_allowed si) (si_reason si) (si_suggestion si)
    (si_toolsUsed si) (si_evidenceScore si).

Definition count_status (s : QualityStatus) (results : list QualityGateResult) : nat :=
  length (filter (λ r, qr_status r = s) results).

Definition buildWorkflowQualityGateReport (input : WorkflowQualityInput) : WorkflowQualityGateReport :=
  let availability := getQualityGateAvailabilitySnapshot in
  let results := [
    normalizeRuleGateResult rule_scan (av_gates availability rule_scan);
    normalizeRuleGateResult security_scan (av_gates availability security_scan);
    mkQuality "workflow_gate" (if qi_gatePass input then q_pass else q_fail) (qi_gateReason input)
      ["lane: " +:+ lane_name (qi_lane input)] [];
    mkQuality "local_verification" (if qi_localPass input then q_pass else q_fail)
      (qi_localReason input) (qi_localEvidence input or_else []) (qi_localLimitations input or_else []);
    structural_result (qi_structural input);
    normalizeBrowserVerificationResult (qi_browserRequired input) (qi_browserPass input)
      (qi_browserChecks input) (qi_browserEvidence input) (qi_browserLimitations input)] in
  mkQualityReport (qi_lane input) availability results
    (count_status q_pass results) (count_status q_fail results) (count_status q_not_run results)
    (av_unavailableCount availability) (av_notConfiguredCount availability).

(** ** Properties *)

(** Every result has one of three statuses. *)
Lemma status_partition results :
  (count_status q_pass results + count_status q_fail results + count_status q_not_run results
   = length results)%nat.
Proof.
  unfold count_status. induction results as [|r rs IH]; [done|]. rewrite !filter_cons.
  destruct (qr_status r); simpl; lia.
Qed.

(** Every gate of the catalog is counted once. *)
Lemma availability_partition gates a u n :
  let '(a', u', n') := foldl count_availability (a, u, n) gates in
  (a' + u' + n' = a + u + n + length gates)%nat.
Proof.
  revert a u n. induction gates as [|g gates IH]; intros a u n; simpl; [lia|].
  assert (∀ a1 u1 n1, (a1 + u1 + n1 = S (a + u + n))%nat →
    let '(a', u', n') := foldl count_availability (a1, u1, n1) gates in
    (a' + u' + n' = a + u + n + S (length gates))%nat) as Hnext.
  { intros a1 u1 n1 Heq. specialize (IH a1 u1 n1). destruct (foldl _ _ _) as [[a' u'] n']. lia. }
  destruct (qa_availability _); apply Hnext; lia.
Qed.

Lemma rule_gate_result g r :
  qr_gateId (normalizeRuleGateResult g r) = gate_name g ∧
  qr_status (normalizeRuleGateResult g r) = q_not_run.
Proof. unfold normalizeRuleGateResult. by case_match. Qed.

Lemma structural_result_spec o :
  qr_gateId (structural_result o) = "structural_evidence" ∧
  (qr_status (structural_result o) = q_fail ↔
   ¬ ∀ si, o = Some si → si_evaluated si = true → si_allowed si = Some true).
Proof.
  unfold structural_result, normalizeStructuralEvidenceResult.
  destruct o as [[[] [[]|] ? ? ? ?]|]; simpl; split; try done; split; try done; naive_solver.
Qed.

Lemma browser_result_spec required pass checks evidence limitations :
  let r := normalizeBrowserVerificationResult required pass checks evidence limitations in
  qr_gateId r = "browser_verification" ∧ (qr_status r = q_fail ↔ ¬ (required = true → pass = true)).
Proof. destruct required, pass; naive_solver. Qed.

Lemma no_failure results :
  count_status q_fail results = 0%nat ↔ Forall (λ r, qr_status r ≠ q_fail) results.
Proof.
  unfold count_status. rewrite length_zero_iff_nil. induction results as [|r rs IH]; [done|].
  rewrite filter_cons, Forall_cons, <-IH. case_decide; naive_solver.
Qed.

(** A quality report accounts for every gate of the catalog: its results are
    the six gates in catalog order, its status counts and the counts of the
    availability snapshot each add up to six, and it contains a failed gate
    exactly when the workflow gate failed, local verification failed, the
    structural evidence was evaluated and not allowed, or a required browser
    verification did not pass.  The two scans are never reported as run. *)
Theorem quality_report_complete input :
  let r := buildWorkflowQualityGateReport input in
  qr_gateId <$> qg_results r = gate_name <$> QUALITY_GATE_CATALOG ∧
  (qg_passCount r + qg_failCount r + qg_notRunCount r = 6)%nat ∧
  (av_availableCount (qg_availability r) + qg_unavailableCount r + qg_notConfiguredCount r = 6)%nat ∧
  (qg_failCount r = 0%nat ↔
     qi_gatePass input = true ∧ qi_localPass input = true ∧
     (∀ si, qi_structural input = Some si → si_evaluated si = true → si_allowed si = Some true) ∧
     (qi_browserRequired input = true → qi_browserPass input = true)) ∧
  (2 <= qg_notRunCount r)%nat.
Proof.
  destruct (structural_result_spec (qi_structural input)) as [Hid Hst].
  destruct (browser_result_spec (qi_browserRequired input) (qi_browserPass input)
    (qi_browserChecks input) (qi_browserEvidence input) (qi_browserLimitations input)) as [Hib Hbr].
  intros r. split_and!.
  - unfold r, buildWorkflowQualityGateReport. cbn [qg_results fmap list_fmap].
    by rewrite Hid, Hib, !(proj1 (rule_gate_result _ _)).
  - apply (status_partition (qg_results r)).
  - pose proof (availability_partition QUALITY_GATE_CATALOG 0 0 0) as Hc. revert Hc.
    unfold r, buildWorkflowQualityGateReport, getQualityGateAvailabilitySnapshot.
    destruct (foldl _ _ _) as [[a u] n]. done.
  - change (qg_failCount r) with (count_status q_fail (qg_results r)). rewrite no_failure.
    unfold r, buildWorkflowQualityGateReport. cbn [qg_results]. rewrite !Forall_cons, Forall_nil. cbn [qr_status].
    rewrite Hst, Hbr, !(proj2 (rule_gate_result _ _)).
    destruct (qi_gatePass input), (qi_localPass input); naive_solver (apply dec_stable; naive_solver).
  - unfold r, buildWorkflowQualityGateReport. cbn [qg_notRunCount]. unfold count_status.
    rewrite !(filter_cons _ (normalizeRuleGateResult _ _)), !decide_True by apply rule_gate_result.
    simpl. lia.
Qed.
End availability.
