(* ===== verification/Planner.v ===== *)
(** * The planner: MCP and skill choice, execution envelopes

    [packages/opencode-app/src/planner]: [choose-mcps.ts], [choose-skills.ts],
    [build-execution-envelope.ts], [required-tools-policy.ts],
    [mcp-routing-types.ts]; and [packages/opencode-app/src/registry]:
    [mcp-registry.ts], [mcp-routing-policy.ts], [skill-registry.ts].

    A [Record] keyed by ids whose key order the code never reads is a [gmap].
    [localeCompare] depends on the locale and is a parameter. *)

From S2P Require Import Prelude Json Domain Store.
From Stdlib Require Import Ascii String Sorted.
From stdpp Require Import prelude list strings gmap.
Set Default Proof Using "Type".
Set Warnings "-clear-no-such-hyp".

(** ** The extension contract and the MCP registry *)

Inductive McpReasonCode : Type :=
| lane_match | lane_mismatch | role_match | role_mismatch | intent_match | intent_no_match
| capability_match | capability_denied | priority_boost | deprioritized | requires_auth
| needs_auth | status_unavailable | status_degraded | fallback_applied
| blocked_by_precondition | no_runtime_status | no_auth_context | entry_missing
| contract_version_mismatch | compat_check_failed | status_stale | missing_runtime_signal.

#[global] Instance McpReasonCode_eq_dec : EqDecision McpReasonCode.
Proof. solve_decision. Defined.

Inductive ExtensionDecisionKind : Type := dk_allow | dk_block | dk_modify.

#[global] Instance ExtensionDecisionKind_eq_dec : EqDecision ExtensionDecisionKind.
Proof. solve_decision. Defined.

Inductive McpRoutingStatus : Type := mcp_available | mcp_degraded | mcp_needs_auth | mcp_unavailable.

#[global] Instance McpRoutingStatus_eq_dec : EqDecision McpRoutingStatus.
Proof. solve_decision. Defined.

Inductive McpHealthClass : Type := critical | standard | best_effort.

#[global] Instance McpHealthClass_eq_dec : EqDecision McpHealthClass.
Proof. solve_decision. Defined.

(** The members of a runtime record that routing reads. *)
Record McpRuntimeRecord : Type := mkRuntime {
  rt_status : McpRoutingStatus;
  rt_authReady : option bool;
  rt_stale : option bool;
  rt_signalMissing : option bool;
}.

Definition McpRuntimeSnapshot : Type := gmap string McpRuntimeRecord.

Record ExtensionSpec : Type := mkSpec {
  x_id : string;
  x_contractVersion : string;
  x_entry : string;
  x_capabilities : list string;
  x_priority : Z;
  x_lanes : list WorkflowLane;
  x_roles : list AgentRole;
}.

Record McpRegistryEntry : Type := mkMcp {
  mcp_spec : ExtensionSpec;
  mcp_description : string;
  mcp_triggerTags : list string;
  mcp_requiresAuth : option bool;
  mcp_degradeTo : option (list string);
  mcp_healthClass : option McpHealthClass;
}.

Definition mcp_id (e : McpRegistryEntry) : string := x_id (mcp_spec e).

Definition MCP_EXTENSION_CONTRACT_VERSION : string := "v1".

Definition DEFAULT_MCP_REGISTRY : list McpRegistryEntry := [
  mkMcp (mkSpec "augment_context_engine" MCP_EXTENSION_CONTRACT_VERSION "tool:augment_context_engine"
           ["code_search"; "impact_analysis"; "traceability"] 100
           [quick; delivery; migration]
           [role_quick; role_analyst; role_architect; role_implementer; role_reviewer])
    "Semantic workspace code search" ["codebase"; "trace"; "impact"; "bug"] None None (Some critical);
  mkMcp (mkSpec "context7" MCP_EXTENSION_CONTRACT_VERSION "tool:context7"
           ["docs_lookup"; "api_reference"; "migration_research"] 90
           [quick; delivery; migration] [role_quick; role_analyst; role_architect; role_reviewer])
    "Official docs and snippets" ["library"; "framework"; "migration"; "api"] None None (Some standard);
  mkMcp (mkSpec "grep_app" MCP_EXTENSION_CONTRACT_VERSION "tool:grep_app"
           ["pattern_research"; "migration_research"] 80
           [delivery; migration] [role_analyst; role_architect])
    "Real-world GitHub examples" ["research"; "pattern"; "migration"] None None (Some best_effort);
  mkMcp (mkSpec "websearch" MCP_EXTENSION_CONTRACT_VERSION "tool:websearch"
           ["ecosystem_research"; "release_notes"; "external_lookup"] 70
           [delivery; migration] [role_analyst; role_architect; role_tester])
    "External research and release notes" ["research"; "release-notes"; "ecosystem"]
    None None (Some best_effort);
  mkMcp (mkSpec "chrome-devtools" MCP_EXTENSION_CONTRACT_VERSION "tool:chrome-devtools"
           ["browser_diag"; "performance_diagnostics"] 95
           [quick; delivery; migration] [role_quick; role_tester])
    "Browser diagnostics" ["browser"; "frontend"; "performance"]
    (Some true) (Some ["playwright"; "augment_context_engine"]) (Some standard);
  mkMcp (mkSpec "playwright" MCP_EXTENSION_CONTRACT_VERSION "tool:playwright"
           ["browser_automation"; "ui_flow"; "frontend_verification"] 85
           [quick; delivery; migration] [role_quick; role_tester])
    "Browser automation" ["browser"; "frontend"; "ui-flow"]
    (Some true) (Some ["augment_context_engine"]) (Some standard)
].

(** ** [mcp-routing-policy.ts] *)

(** [tags.add] for every tag of a block, on a [Set] in insertion order. *)
Definition add_tags (cond : bool) (new tags : list string) : list string :=
  if cond then js_dedup [] (tags ++ new) else tags.

Definition inferIntentTags (intent : string) : list string :=
  let normalized := toLowerCase intent in
  let has := includes normalized in
  let tags := ["codebase"] in
  let tags := add_tags (has "trace") ["trace"] tags in
  let tags := add_tags (has "impact") ["impact"] tags in
  let tags := add_tags (has "bug" || has "debug") ["bug"] tags in
  let tags := add_tags (has "library" || has "framework" || has "api")
                ["library"; "framework"; "api"] tags in
  let tags := add_tags (has "browser" || has "ui" || has "frontend")
                ["browser"; "frontend"; "ui-flow"; "performance"] tags in
  add_tags (has "migration" || has "release")
    ["migration"; "research"; "release-notes"; "ecosystem"; "pattern"] tags.

(** [xs.includes(x)] on an array. *)
Definition array_includes {A} `{EqDecision A} (xs : list A) (x : A) : bool := bool_decide (x ∈ xs).

Definition scoreRegistryEntry (entry : McpRegistryEntry) (intentTags : list string) :
    Z * list McpReasonCode :=
  if existsb (array_includes intentTags) (mcp_triggerTags entry)
  then ((x_priority (mcp_spec entry) + 20)%Z, [priority_boost; intent_match; capability_match])
  else ((x_priority (mcp_spec entry) - 25)%Z, [priority_boost; intent_no_match; deprioritized]).

Definition runtimeRecordFor (mcpName : string) (snapshot : option McpRuntimeSnapshot) :
    option McpRuntimeRecord :=
  match snapshot with Some m => m !! mcpName | None => None end.

Definition runtimeStatusFor (mcpName : string) (snapshot : option McpRuntimeSnapshot) :
    option McpRoutingStatus :=
  rt_status <$> runtimeRecordFor mcpName snapshot.

Definition fallbackTargets (entry : McpRegistryEntry) : list string := mcp_degradeTo entry or_else [].

Definition canUseDegraded (entry : McpRegistryEntry) : bool :=
  match mcp_healthClass entry with
  | None => false
  | Some h => bool_decide (h ≠ critical)
  end.

Definition hasAllRequiredCapabilities (entry : McpRegistryEntry) (required : list string) : bool :=
  forallb (array_includes (x_capabilities (mcp_spec entry))) required.

(** ** [choose-mcps.ts] *)

Inductive FailSafe : Type := allow_with_warning | degrade_or_fallback.

#[global] Instance FailSafe_eq_dec : EqDecision FailSafe.
Proof. solve_decision. Defined.

Record McpRoutingDecisionOptions : Type := mkOptions {
  o_runtimeSnapshot : option McpRuntimeSnapshot;
  o_maxSelected : option Z;
  o_requiredCapabilities : option (list string);
  o_supportedContractVersions : option (list string);
  o_runtimeStateRepoRoot : option string;
  o_staleRuntimeFailSafe : option FailSafe;
  o_missingRuntimeFailSafe : option FailSafe;
}.

(** [options] left out: every [options?.x] is [undefined]. *)
Definition no_options : McpRoutingDecisionOptions := mkOptions None None None None None None None.

Record McpRoutingDecision : Type := mkDecision {
  d_selected : list string;
  d_blocked : list string;
  d_warnings : list string;
  d_decisions : gmap string ExtensionDecisionKind;
  d_reasons : gmap string (list McpReasonCode);
  d_rejected : gmap string (list McpReasonCode);
}.

Record Candidate : Type := mkCandidate {
  c_entry : McpRegistryEntry;
  c_score : Z;
  c_reasons : list McpReasonCode;
}.

(** A member that is [true], as a condition reads it. *)
Definition truthy (b : option bool) : bool := b or_else false.

Definition isEmpty (s : string) : bool := String.eqb s "".

(** The callback of [DEFAULT_MCP_REGISTRY.map]: [inl] carries what is written to
    [rejected[entry.id]] where the callback returns [null]. *)
Definition consider (envelope : ExecutionEnvelopeState) (tags : list string)
    (options : McpRoutingDecisionOptions) (entry : McpRegistryEntry) :
    list McpReasonCode + Candidate :=
  let requiredCapabilities := o_requiredCapabilities options or_else [] in
  let supportedContractVersions := o_supportedContractVersions options or_else ["v1"] in
  let staleRuntimeFailSafe := o_staleRuntimeFailSafe options or_else allow_with_warning in
  let missingRuntimeFailSafe := o_missingRuntimeFailSafe options or_else allow_with_warning in
  let spec := mcp_spec entry in
  if negb (array_includes supportedContractVersions (x_contractVersion spec))
  then inl [contract_version_mismatch]
  else if isEmpty (x_entry spec) then inl [entry_missing]
  else if negb (array_includes (x_lanes spec) (env_lane envelope)) then inl [lane_mismatch]
  else if negb (array_includes (x_roles spec) (env_role envelope)) then inl [role_mismatch]
  else if negb (hasAllRequiredCapabilities entry requiredCapabilities) then inl [capability_denied]
  else
    let reasons := [lane_match; role_match] ++
                   (if (0 <? length requiredCapabilities)%nat then [capability_match] else []) in
    let scored := scoreRegistryEntry entry tags in
    let noStatus := bool_decide (runtimeStatusFor (mcp_id entry) (o_runtimeSnapshot options) = None) in
    if noStatus && negb (bool_decide (missingRuntimeFailSafe = allow_with_warning))
    then inl (reasons ++ [missing_runtime_signal])
    else
      let reasons := reasons ++ (if noStatus then [no_runtime_status] else []) in
      let record := runtimeRecordFor (mcp_id entry) (o_runtimeSnapshot options) in
      let signalMissing := truthy (record ≫= rt_signalMissing) in
      let stale := truthy (record ≫= rt_stale) in
      if signalMissing && bool_decide (missingRuntimeFailSafe = degrade_or_fallback)
      then inl (reasons ++ [missing_runtime_signal])
      else
        let reasons := reasons ++
          (if signalMissing && bool_decide (missingRuntimeFailSafe = allow_with_warning)
           then [missing_runtime_signal] else []) in
        if stale && bool_decide (staleRuntimeFailSafe = degrade_or_fallback)
        then inl (reasons ++ [status_stale])
        else
          let reasons := reasons ++
            (if stale && bool_decide (staleRuntimeFailSafe = allow_with_warning)
             then [status_stale] else []) in
          inr (mkCandidate entry scored.1 (reasons ++ scored.2)).

(** The locals of [chooseMcpsDetailed] that its loops write. *)
Record Plan : Type := mkPlan {
  p_selected : list string;
  p_decisions : gmap string ExtensionDecisionKind;
  p_reasons : gmap string (list McpReasonCode);
  p_rejected : gmap string (list McpReasonCode);
}.

Section choose.
(** [a.localeCompare(b) <= 0]. *)
Variable locale_le : string → string → bool.

(** The comparison function of [candidates.sort]. *)
Definition candidate_le (a b : Candidate) : bool :=
  if (c_score b =? c_score a)%Z then locale_le (mcp_id (c_entry a)) (mcp_id (c_entry b))
  else (c_score b <=? c_score a)%Z.

Definition candidates (envelope : ExecutionEnvelopeState) (tags : list string)
    (options : McpRoutingDecisionOptions) : list Candidate :=
  js_sort candidate_le
    (omap (λ e, match consider envelope tags options e with inr c => Some c | inl _ => None end)
       DEFAULT_MCP_REGISTRY).

(** [rejected] after the [map]. *)
Definition rejections (envelope : ExecutionEnvelopeState) (tags : list string)
    (options : McpRoutingDecisionOptions) : gmap string (list McpReasonCode) :=
  foldl (λ acc e, match consider envelope tags options e with
                  | inl codes => <[mcp_id e := codes]> acc
                  | inr _ => acc
                  end) ∅ DEFAULT_MCP_REGISTRY.

(** One turn of the loop over the sorted candidates. *)
Definition select_candidate (maxSelected : Z) (p : Plan) (c : Candidate) : Plan :=
  let id := mcp_id (c_entry c) in
  if (maxSelected <=? Z.of_nat (length (p_selected p)))%Z
  then mkPlan (p_selected p) (p_decisions p) (p_reasons p)
         (<[id := c_reasons c ++ [deprioritized]]> (p_rejected p))
  else mkPlan (p_selected p ++ [id]) (<[id := dk_allow]> (p_decisions p))
         (<[id := c_reasons c]> (p_reasons p)) (p_rejected p).

(** The comparison by priority that both fallbacks sort the registry with. *)
Definition priority_le (a b : McpRegistryEntry) : bool :=
  if (x_priority (mcp_spec b) =? x_priority (mcp_spec a))%Z then locale_le (mcp_id a) (mcp_id b)
  else (x_priority (mcp_spec b) <=? x_priority (mcp_spec a))%Z.

(** The [continue]s of the fallback's loop: [true] returns the entry. *)
Definition planner_safe (envelope : ExecutionEnvelopeState) (options : McpRoutingDecisionOptions)
    (entry : McpRegistryEntry) : bool :=
  let staleRuntimeFailSafe := o_staleRuntimeFailSafe options or_else allow_with_warning in
  let missingRuntimeFailSafe := o_missingRuntimeFailSafe options or_else allow_with_warning in
  let spec := mcp_spec entry in
  let record := runtimeRecordFor (mcp_id entry) (o_runtimeSnapshot options) in
  if negb (array_includes (o_supportedContractVersions options or_else ["v1"]) (x_contractVersion spec))
  then false
  else if isEmpty (x_entry spec) then false
  else if negb (array_includes (x_lanes spec) (env_lane envelope)) then false
  else if negb (array_includes (x_roles spec) (env_role envelope)) then false
  else if negb (hasAllRequiredCapabilities entry (o_requiredCapabilities options or_else [])) then false
  else if bool_decide (record = None) && bool_decide (missingRuntimeFailSafe = degrade_or_fallback)
  then false
  else if truthy (record ≫= rt_signalMissing) && bool_decide (missingRuntimeFailSafe = degrade_or_fallback)
  then false
  else if truthy (record ≫= rt_stale) && bool_decide (staleRuntimeFailSafe = degrade_or_fallback)
  then false
  else match rt_status <$> record with
       | Some mcp_unavailable | Some mcp_needs_auth => false
       | _ => true
       end.

Definition pickPlannerSafeFallback (envelope : ExecutionEnvelopeState)
    (options : McpRoutingDecisionOptions) : option string :=
  mcp_id <$> head (filter (λ e, planner_safe envelope options e = true)
                     (js_sort priority_le DEFAULT_MCP_REGISTRY)).

Definition chooseMcpsDetailed (envelope : ExecutionEnvelopeState) (intent : string)
    (options : McpRoutingDecisionOptions) : McpRoutingDecision :=
  let tags := inferIntentTags intent in
  let maxSelected := o_maxSelected options or_else 4%Z in
  let p := foldl (select_candidate maxSelected)
             (mkPlan [] ∅ ∅ (rejections envelope tags options)) (candidates envelope tags options) in
  match p_selected p with
  | [] =>
    match pickPlannerSafeFallback envelope options with
    | Some f =>
      mkDecision [f] []
        ["No MCP candidate selected by lane/role policy. Fallback to " +:+ f +:+ "."]
        (<[f := dk_modify]> (p_decisions p)) (<[f := [fallback_applied]]> (p_reasons p)) (p_rejected p)
    | None =>
      mkDecision [] []
        ["No MCP candidate selected by lane/role policy and no safe fallback is available."]
        (p_decisions p) (p_reasons p) (p_rejected p)
    end
  | selected => mkDecision selected [] [] (p_decisions p) (p_reasons p) (p_rejected p)
  end.

Definition chooseMcps (envelope : ExecutionEnvelopeState) (intent : string) : list string :=
  d_selected (chooseMcpsDetailed envelope intent
    (mkOptions None None None (Some ["v1"]) None None None)).
End choose.

(** ** Skills *)

Record SkillRegistryEntry : Type := mkSkill {
  sk_skillName : string;
  sk_description : string;
  sk_lanes : list WorkflowLane;
  sk_roles : list AgentRole;
  sk_triggerTags : list string;
}.

Definition DEFAULT_SKILL_REGISTRY : list SkillRegistryEntry := [
  mkSkill "using-skills" "Always-on SOP reminder" [quick; delivery; migration]
    [role_quick; role_coordinator; role_analyst; role_architect; role_implementer; role_reviewer; role_tester] ["always"];
  mkSkill "codebase-exploration" "Broad code understanding" [quick; delivery; migration]
    [role_quick; role_analyst; role_architect] ["explain_module"; "trace_flow"; "broad_codebase_question"];
  mkSkill "systematic-debugging" "Bug investigation workflow" [quick; delivery; migration]
    [role_quick; role_analyst; role_implementer] ["bug_investigation"];
  mkSkill "verification-before-completion" "Pre-completion verification" [quick; delivery; migration]
    [role_quick; role_coordinator; role_reviewer; role_tester] ["always"; "verify"];
  mkSkill "writing-solution" "Architectural solution writing" [delivery; migration]
    [role_architect] ["solution"];
  mkSkill "subagent-driven-development" "Task-split execution discipline" [delivery; migration]
    [role_implementer] ["execute"];
  mkSkill "code-review" "Review discipline" [delivery; migration]
    [role_reviewer] ["review"];
  mkSkill "test-driven-development" "TDD execution" [delivery]
    [role_implementer] ["execute"; "tests"];
  mkSkill "brainstorming" "Ambiguity reduction" [delivery; migration]
    [role_analyst] ["analysis"];
  mkSkill "refactoring" "Safe restructure workflow" [quick; delivery; migration]
    [role_quick; role_implementer] ["refactor"];
  mkSkill "deep-research" "External research heavy tasks" [delivery; migration]
    [role_architect; role_analyst] ["research"; "migration"];
  mkSkill "browser-automation" "Browser verification flows" [quick; delivery; migration]
    [role_quick; role_tester] ["browser"];
  mkSkill "dev-browser" "Browser diagnostics" [quick; delivery; migration]
    [role_quick; role_tester] ["browser"; "debug"];
  mkSkill "frontend-ui-ux" "Frontend quality guidance" [quick; delivery; migration]
    [role_quick; role_architect; role_implementer] ["frontend"; "react"];
  mkSkill "vercel-composition-patterns" "React composition guidance" [quick; delivery; migration]
    [role_quick; role_architect; role_implementer] ["react"; "composition"];
  mkSkill "vercel-react-best-practices" "React runtime quality guidance" [quick; delivery; migration]
    [role_quick; role_architect; role_implementer] ["react"; "frontend"];
  mkSkill "vercel-react-native-skills" "React Native guidance" [quick; delivery; migration]
    [role_quick; role_architect; role_implementer] ["react-native"; "expo"];
  mkSkill "find-skills" "Capability discovery" [quick; delivery; migration]
    [role_quick; role_analyst] ["find-skills"]
].

Definition buildSkillTags (envelope : ExecutionEnvelopeState) (intent : string) : list string :=
  let has := includes intent in
  let on (b : bool) (tags : list string) := if b then tags else [] in
  let role := env_role envelope in
  ["always"]
  ++ on (has "trace") ["trace_flow"]
  ++ on (has "explain" || has "codebase") ["explain_module"; "broad_codebase_question"]
  ++ on (has "bug" || has "debug") ["bug_investigation"; "debug"]
  ++ on (has "browser" || has "frontend") ["browser"; "frontend"]
  ++ on (has "react") ["react"]
  ++ on (has "react-native" || has "expo") ["react-native"; "expo"]
  ++ on (bool_decide (env_lane envelope ≠ quick)) ["verify"]
  ++ on (bool_decide (role = role_architect)) ["solution"]
  ++ on (bool_decide (role = role_implementer)) ["execute"]
  ++ on (bool_decide (role = role_reviewer)) ["review"]
  ++ on (bool_decide (role = role_analyst)) ["analysis"]
  ++ on (bool_decide (env_lane envelope = migration)) ["migration"; "research"].

Definition skill_matches (envelope : ExecutionEnvelopeState) (tags : list string)
    (entry : SkillRegistryEntry) : bool :=
  array_includes (sk_lanes entry) (env_lane envelope)
  && array_includes (sk_roles entry) (env_role envelope)
  && existsb (array_includes tags) (sk_triggerTags entry).

Definition chooseSkills (envelope : ExecutionEnvelopeState) (intent : string) : list string :=
  let tags := buildSkillTags envelope intent in
  js_dedup [] (sk_skillName <$> filter (λ e, skill_matches envelope tags e = true)
                                  DEFAULT_SKILL_REGISTRY).

(** ** Execution envelopes *)

(** The members that the runtime reads. *)
Record AgentRegistryEntry : Type := mkAgent {
  ag_agentId : string;
  ag_displayName : string;
  ag_role : AgentRole;
  ag_lanes : list WorkflowLane;
  ag_configurable : bool;
  ag_defaultProvider : option string;
  ag_defaultModel : option string;
  ag_defaultVariant : option string;
}.

Definition defaultMcpIntentForStage (stage : string) : string :=
  let normalized := toLowerCase stage in
  if includes normalized "migration" then "migration"
  else if includes normalized "verify" || includes normalized "test" || includes normalized "review"
  then "browser verification"
  else if includes normalized "delivery" then "delivery codebase"
  else "codebase".

(** The object without an id and a time, which [buildExecutionEnvelope] draws. *)
Definition envelope_base (id at_ : string) (session : SessionState) (agent : AgentRegistryEntry)
    (resolvedModel : ResolvedModelSelection) : ExecutionEnvelopeState :=
  {| env_id := id; env_sessionId := sessionId session; env_lane := lane session;
     env_role := ag_role agent; env_agentId := ag_agentId agent; env_stage := currentStage session;
     env_workItemId := None; env_resolvedModel := resolvedModel; env_activeSkills := [];
     env_activeMcps := []; env_requiredTools := []; env_semanticMode := semanticMode session;
     env_createdAt := at_ |}.

(** [{ ...base, activeSkills, activeMcps }]. *)
Definition with_tools (base : ExecutionEnvelopeState) (skills mcps : list string) :
    ExecutionEnvelopeState :=
  {| env_id := env_id base; env_sessionId := env_sessionId base; env_lane := env_lane base;
     env_role := env_role base; env_agentId := env_agentId base; env_stage := env_stage base;
     env_workItemId := env_workItemId base; env_resolvedModel := env_resolvedModel base;
     env_activeSkills := skills; env_activeMcps := mcps; env_requiredTools := env_requiredTools base;
     env_semanticMode := env_semanticMode base; env_createdAt := env_createdAt base |}.

Section envelope.
Context `{Env}.
Variable locale_le : string → string → bool.

Definition buildExecutionEnvelope (session : SessionState) (agent : AgentRegistryEntry)
    (resolvedModel : ResolvedModelSelection) : M World ExecutionEnvelopeState :=
  id ← createId "env";
  at_ ← nowIso;
  let base := envelope_base id at_ session agent resolvedModel in
  mret (with_tools base (chooseSkills base "codebase")
          (chooseMcps locale_le base (defaultMcpIntentForStage (stage_name (env_stage base))))).
End envelope.

(** ** Required tools *)

Inductive QueryIntent : Type :=
| find_definition | explain_module | trace_flow | impact_analysis | bug_investigation
| broad_codebase_question | library_lookup | browser_verification.

Definition REQUIRED_TOOLS_BY_INTENT (i : QueryIntent) : list string :=
  match i with
  | find_definition => ["symbol_search"; "keyword_search"]
  | explain_module => ["keyword_search"; "symbol_search"; "semantic_search"]
  | trace_flow => ["symbol_search"; "graph_expand"; "semantic_search"]
  | impact_analysis => ["symbol_search"; "reference_search"; "graph_expand"]
  | bug_investigation => ["keyword_search"; "symbol_search"; "semantic_search"]
  | broad_codebase_question => ["keyword_search"; "semantic_search"]
  | library_lookup => ["context7"]
  | browser_verification => ["chrome-devtools"; "playwright"]
  end.

Definition inferIntentFromInput (input : string) : QueryIntent :=
  let has := includes (toLowerCase input) in
  if has "trace" || has "flow" then trace_flow
  else if has "impact" then impact_analysis
  else if has "bug" || has "error" || has "debug" then bug_investigation
  else if has "library" || has "framework" || has "api" then library_lookup
  else if has "browser" || has "ui" || has "frontend" then browser_verification
  else if has "definition" || has "where defined" then find_definition
  else if has "explain" || has "module" then explain_module
  else broad_codebase_question.

(** ** What the planner promises *)

(** The metadata conditions of the routing policy, lane and role apart. *)
Record supported (options : McpRoutingDecisionOptions) (e : McpRegistryEntry) : Prop := {
  sup_contract : x_contractVersion (mcp_spec e) ∈ o_supportedContractVersions options or_else ["v1"];
  sup_entry : x_entry (mcp_spec e) ≠ "";
  sup_capabilities : ∀ c, c ∈ o_requiredCapabilities options or_else [] →
                          c ∈ x_capabilities (mcp_spec e);
}.

(** The runtime record of an MCP under the two fail-safe policies. *)
Definition runtime_tolerated (stale missing : FailSafe) (record : option McpRuntimeRecord) : Prop :=
  match record with
  | None => missing = allow_with_warning
  | Some r => (rt_signalMissing r = Some true → missing = allow_with_warning) ∧
              (rt_stale r = Some true → stale = allow_with_warning)
  end.

(** The entries that the planner may choose among. *)
Record eligible (envelope : ExecutionEnvelopeState) (options : McpRoutingDecisionOptions)
    (e : McpRegistryEntry) : Prop := {
  el_supported : supported options e;
  el_lane : env_lane envelope ∈ x_lanes (mcp_spec e);
  el_role : env_role envelope ∈ x_roles (mcp_spec e);
  el_runtime : runtime_tolerated (o_staleRuntimeFailSafe options or_else allow_with_warning)
                 (o_missingRuntimeFailSafe options or_else allow_with_warning)
                 (runtimeRecordFor (mcp_id e) (o_runtimeSnapshot options));
}.

Definition mcp_score (intent : string) (e : McpRegistryEntry) : Z :=
  (scoreRegistryEntry e (inferIntentTags intent)).1.

Lemma array_includes_true {A} `{EqDecision A} (xs : list A) x : array_includes xs x = true ↔ x ∈ xs.
Proof. unfold array_includes. by rewrite bool_decide_eq_true. Qed.

Lemma array_includes_false {A} `{EqDecision A} (xs : list A) x : array_includes xs x = false ↔ x ∉ xs.
Proof. unfold array_includes. by rewrite bool_decide_eq_false. Qed.

Lemma has_capabilities_true e required :
  hasAllRequiredCapabilities e required = true ↔
  ∀ c, c ∈ required → c ∈ x_capabilities (mcp_spec e).
Proof.
  unfold hasAllRequiredCapabilities. rewrite forallb_forall.
  setoid_rewrite array_includes_true. by setoid_rewrite <- list_elem_of_In.
Qed.

Lemma isEmpty_false s : isEmpty s = false ↔ s ≠ "".
Proof. apply String.eqb_neq. Qed.

Lemma truthy_true b : truthy b = true ↔ b = Some true.
Proof. destruct b as [[]|]; naive_solver. Qed.

Lemma truthy_false b : truthy b = false ↔ b ≠ Some true.
Proof. destruct b as [[]|]; naive_solver. Qed.

(** Rewrites the boolean guards of the routing code to propositions. *)
Ltac guards :=
  repeat match goal with
  | H : negb _ = true |- _ => apply negb_true_iff in H
  | H : negb _ = false |- _ => apply negb_false_iff in H
  | H : array_includes _ _ = true |- _ => apply array_includes_true in H
  | H : array_includes _ _ = false |- _ => apply array_includes_false in H
  | H : hasAllRequiredCapabilities _ _ = true |- _ => rewrite has_capabilities_true in H
  | H : isEmpty _ = false |- _ => apply isEmpty_false in H
  | H : isEmpty _ = true |- _ => apply String.eqb_eq in H
  | H : truthy _ = true |- _ => apply truthy_true in H
  | H : truthy _ = false |- _ => apply truthy_false in H
  | H : bool_decide _ = true |- _ => apply bool_decide_eq_true in H
  | H : bool_decide _ = false |- _ => apply bool_decide_eq_false in H
  | H : _ && _ = true |- _ => apply andb_true_iff in H as [? ?]
  | H : _ && _ = false |- _ => apply andb_false_iff in H
  | H : _ || _ = true |- _ => apply orb_true_iff in H
  | H : _ || _ = false |- _ => apply orb_false_iff in H as [? ?]
  end.

Lemma fail_safe_cases (f : FailSafe) : f ≠ allow_with_warning ↔ f = degrade_or_fallback.
Proof. destruct f; naive_solver. Qed.

(** The guards of [consider] that let an entry through, as one condition. *)
Definition admitted (envelope : ExecutionEnvelopeState) (options : McpRoutingDecisionOptions)
    (e : McpRegistryEntry) : bool :=
  let stale := o_staleRuntimeFailSafe options or_else allow_with_warning in
  let missing := o_missingRuntimeFailSafe options or_else allow_with_warning in
  let record := runtimeRecordFor (mcp_id e) (o_runtimeSnapshot options) in
  array_includes (o_supportedContractVersions options or_else ["v1"]) (x_contractVersion (mcp_spec e))
  && negb (isEmpty (x_entry (mcp_spec e)))
  && array_includes (x_lanes (mcp_spec e)) (env_lane envelope)
  && array_includes (x_roles (mcp_spec e)) (env_role envelope)
  && hasAllRequiredCapabilities e (o_requiredCapabilities options or_else [])
  && (negb (bool_decide (record = None)) || bool_decide (missing = allow_with_warning))
  && (negb (truthy (record ≫= rt_signalMissing)) || bool_decide (missing = allow_with_warning))
  && (negb (truthy (record ≫= rt_stale)) || bool_decide (stale = allow_with_warning)).

Lemma admitted_eligible envelope options e :
  admitted envelope options e = true ↔ eligible envelope options e.
Proof.
  unfold admitted. rewrite !andb_true_iff, !orb_true_iff, !negb_true_iff, !array_includes_true,
    has_capabilities_true, isEmpty_false, !truthy_false, !bool_decide_eq_true, bool_decide_eq_false.
  split.
  - intros (((((((Hv & He) & Hl) & Hr) & Hc) & Hm) & Hs) & Ht). split; try done.
    unfold runtime_tolerated. destruct (runtimeRecordFor _ _) as [r|]; simpl in *; [|naive_solver].
    split; naive_solver.
  - intros [[Hv He Hc] Hl Hr Ht]. unfold runtime_tolerated in Ht.
    destruct (runtimeRecordFor _ _) as [r|]; simpl in *; [|naive_solver].
    destruct Ht as [Hm Hs]. repeat split; try done.
    + left. discriminate.
    + destruct (decide (rt_signalMissing r = Some true)); naive_solver.
    + destruct (decide (rt_stale r = Some true)); naive_solver.
Qed.

Lemma consider_admitted envelope tags options e :
  match consider envelope tags options e with
  | inr c => admitted envelope options e = true ∧ c_entry c = e ∧
             c_score c = (scoreRegistryEntry e tags).1
  | inl _ => admitted envelope options e = false
  end.
Proof.
  unfold consider, admitted, runtimeStatusFor.
  destruct (array_includes (_ or_else ["v1"]) _); simpl; [|done].
  destruct (isEmpty _); simpl; [done|].
  destruct (array_includes (x_lanes _) _); simpl; [|done].
  destruct (array_includes (x_roles _) _); simpl; [|done].
  destruct (hasAllRequiredCapabilities _ _); simpl; [|done].
  destruct (o_missingRuntimeFailSafe options or_else _), (o_staleRuntimeFailSafe options or_else _),
    (runtimeRecordFor _ _) as [[st au [[]|] [[]|]]|]; simpl; try done; vm_compute; done.
Qed.

Lemma admitted_candidate envelope tags options e :
  admitted envelope options e = true → ∃ c, consider envelope tags options e = inr c.
Proof.
  intros Ha. pose proof (consider_admitted envelope tags options e) as Hc.
  destruct (consider _ _ _ e) as [l|c]; [congruence|eauto].
Qed.

Lemma registry_ids : NoDup (mcp_id <$> DEFAULT_MCP_REGISTRY).
Proof. by_decision. Qed.

Lemma registry_id_inj e e' :
  e ∈ DEFAULT_MCP_REGISTRY → e' ∈ DEFAULT_MCP_REGISTRY → mcp_id e = mcp_id e' → e = e'.
Proof. apply NoDup_fmap_elem_inj, registry_ids. Qed.

Section planner_facts.
Variable locale_le : string → string → bool.
Variables (envelope : ExecutionEnvelopeState) (options : McpRoutingDecisionOptions).

Lemma candidates_entries tags :
  c_entry <$> candidates locale_le envelope tags options
    ≡ₚ filter (λ e, admitted envelope options e = true) DEFAULT_MCP_REGISTRY.
Proof.
  unfold candidates. rewrite js_sort_perm.
  induction DEFAULT_MCP_REGISTRY as [|e es IH]; simpl; [done|].
  pose proof (consider_admitted envelope tags options e) as Hc.
  destruct (consider _ _ _ e) as [codes|c]; rewrite filter_cons.
  - by rewrite decide_False by congruence.
  - destruct Hc as (Ha & He & _). rewrite decide_True by done. simpl. by rewrite He, IH.
Qed.

Lemma candidate_elem tags c :
  c ∈ candidates locale_le envelope tags options →
  c_entry c ∈ DEFAULT_MCP_REGISTRY ∧ admitted envelope options (c_entry c) = true ∧
  c_score c = (scoreRegistryEntry (c_entry c) tags).1.
Proof.
  unfold candidates. rewrite elem_of_js_sort, list_elem_of_omap. intros (e & He & Hc).
  pose proof (consider_admitted envelope tags options e) as Hs.
  destruct (consider _ _ _ e) as [codes|c']; simplify_eq. by destruct Hs as (? & -> & ?).
Qed.

Lemma candidate_of tags e :
  e ∈ DEFAULT_MCP_REGISTRY → admitted envelope options e = true →
  ∃ c, c ∈ candidates locale_le envelope tags options ∧ c_entry c = e.
Proof.
  intros He Ha. assert (e ∈ (c_entry <$> candidates locale_le envelope tags options)) as Hin.
  { rewrite candidates_entries. by apply list_elem_of_filter. }
  apply list_elem_of_fmap in Hin as (c & -> & Hc). eauto.
Qed.

Lemma candidates_nodup tags :
  NoDup (mcp_id ∘ c_entry <$> candidates locale_le envelope tags options).
Proof.
  rewrite list_fmap_compose, candidates_entries.
  eapply sublist_NoDup; [exact registry_ids|]. apply fmap_sublist, sublist_filter.
Qed.

End planner_facts.

Lemma rejections_spec envelope options tags x :
  is_Some (rejections envelope tags options !! x) ↔
  ∃ e, e ∈ DEFAULT_MCP_REGISTRY ∧ mcp_id e = x ∧ admitted envelope options e = false.
Proof.
  unfold rejections.
  enough (∀ acc, is_Some (foldl (λ acc e, match consider envelope tags options e with
      | inl codes => <[mcp_id e:=codes]> acc | inr _ => acc end) acc DEFAULT_MCP_REGISTRY !! x) ↔
    is_Some (acc !! x) ∨
    ∃ e, e ∈ DEFAULT_MCP_REGISTRY ∧ mcp_id e = x ∧ admitted envelope options e = false) as ->.
  { rewrite lookup_empty. pose proof (@is_Some_None (list McpReasonCode)). tauto. }
  induction DEFAULT_MCP_REGISTRY as [|e es IH]; intros acc; cbn [foldl]; [set_solver|].
  rewrite IH. pose proof (consider_admitted envelope tags options e) as Hc.
  setoid_rewrite elem_of_cons. destruct (consider _ _ _ e) as [codes|c].
  - rewrite lookup_insert_is_Some. destruct (decide (mcp_id e = x)); naive_solver.
  - destruct Hc as (Ha & _). naive_solver congruence.
Qed.


(** What the selection loop has done after the candidates [cs]: the first ones
    up to the limit are selected and allowed, the others rejected. *)
Lemma select_loop maxSelected cs p :
  let k := Z.to_nat maxSelected - length (p_selected p) in
  let p' := foldl (select_candidate maxSelected) p cs in
  p_selected p' = p_selected p ++ (mcp_id ∘ c_entry <$> take k cs) ∧
  (∀ x, is_Some (p_rejected p' !! x) ↔
        x ∈ (mcp_id ∘ c_entry <$> drop k cs) ∨ is_Some (p_rejected p !! x)) ∧
  (∀ x, p_decisions p' !! x =
        if decide (x ∈ (mcp_id ∘ c_entry <$> take k cs)) then Some dk_allow else p_decisions p !! x).
Proof.
  revert p. induction cs as [|c cs IH]; intros p; cbn [foldl].
  { rewrite take_nil, drop_nil, app_nil_r. simpl. set_solver. }
  specialize (IH (select_candidate maxSelected p c)). revert IH. unfold select_candidate.
  case_match eqn:Hfull; simpl.
  - replace (Z.to_nat maxSelected - length (p_selected p)) with 0 by lia. simpl.
    intros (Hs & Hr & Hd). split_and!; [done| |done].
    intros x. rewrite Hr, lookup_insert_is_Some, elem_of_cons.
    destruct (decide (mcp_id (c_entry c) = x)); naive_solver.
  - rewrite length_app. simpl.
    replace (Z.to_nat maxSelected - length (p_selected p))
      with (S (Z.to_nat maxSelected - (length (p_selected p) + 1))) by lia. simpl.
    intros (Hs & Hr & Hd). split_and!; [by rewrite Hs, <-app_assoc|done|].
    intros x. rewrite Hd. destruct (decide (x = mcp_id (c_entry c))) as [->|Hne].
    + rewrite (decide_True (P := _ ∈ _ :: _)) by apply elem_of_cons, or_introl, eq_refl.
      case_decide; [done|]. by rewrite lookup_insert_eq.
    + rewrite lookup_insert_ne by done. case_decide as H1; case_decide as H2; set_solver.
Qed.

Lemma planner_safe_admitted envelope options e :
  planner_safe envelope options e = true → admitted envelope options e = true.
Proof.
  unfold planner_safe, admitted.
  destruct (array_includes (_ or_else ["v1"]) _); simpl; [|done].
  destruct (isEmpty _); simpl; [done|].
  destruct (array_includes (x_lanes _) _); simpl; [|done].
  destruct (array_includes (x_roles _) _); simpl; [|done].
  destruct (hasAllRequiredCapabilities _ _); simpl; [|done].
  destruct (o_missingRuntimeFailSafe options or_else _), (o_staleRuntimeFailSafe options or_else _),
    (runtimeRecordFor _ _) as [[st au [[]|] [[]|]]|]; simpl; done.
Qed.

Lemma pick_admitted locale_le envelope options f :
  pickPlannerSafeFallback locale_le envelope options = Some f →
  ∃ e, e ∈ DEFAULT_MCP_REGISTRY ∧ mcp_id e = f ∧ admitted envelope options e = true.
Proof.
  unfold pickPlannerSafeFallback. intros (e & He%head_Some_elem_of & ->)%fmap_Some.
  apply list_elem_of_filter in He as [Hs He%elem_of_js_sort].
  exists e. split_and!; [done|done|by apply planner_safe_admitted].
Qed.

Section top_choice.
Variable locale_le : string → string → bool.
Hypothesis locale_total : ∀ a b, locale_le a b = false → locale_le b a = true.
Hypothesis locale_trans : ∀ a b c, locale_le a b = true → locale_le b c = true → locale_le a c = true.

Lemma candidates_sorted envelope tags options :
  StronglySorted (λ a b, candidate_le locale_le a b = true) (candidates locale_le envelope tags options).
Proof using All.
  apply js_sort_sorted.
  - intros a b. unfold candidate_le. rewrite (Z.eqb_sym (c_score a)).
    destruct (Z.eqb_spec (c_score b) (c_score a)); [apply locale_total|].
    rewrite Z.leb_gt, Z.leb_le. lia.
  - intros a b c. unfold candidate_le.
    destruct (Z.eqb_spec (c_score b) (c_score a)), (Z.eqb_spec (c_score c) (c_score b)),
      (Z.eqb_spec (c_score c) (c_score a)); rewrite ?Z.leb_le; try lia; eauto.
Qed.

Lemma candidate_le_score a b : candidate_le locale_le a b = true → (c_score b <= c_score a)%Z.
Proof. unfold candidate_le. destruct (Z.eqb_spec (c_score b) (c_score a)); [lia|]. by rewrite Z.leb_le. Qed.

(** With room for one candidate the planner's own fallback is never taken: it
    accepts only entries that were candidates already. *)
Lemma choice_is_plan envelope intent options :
  (0 < o_maxSelected options or_else 4)%Z →
  let tags := inferIntentTags intent in
  let d := chooseMcpsDetailed locale_le envelope intent options in
  let p := foldl (select_candidate (o_maxSelected options or_else 4%Z))
             (mkPlan [] ∅ ∅ (rejections envelope tags options))
             (candidates locale_le envelope tags options) in
  d_selected d = p_selected p ∧ d_decisions d = p_decisions p ∧ d_rejected d = p_rejected p.
Proof.
  intros Hmax tags d p. subst d. unfold chooseMcpsDetailed. fold tags. fold p.
  destruct (p_selected p) as [|x xs] eqn:Hsel; [|done].
  destruct (pickPlannerSafeFallback locale_le envelope options) as [f|] eqn:Hf; [|done].
  exfalso. apply pick_admitted in Hf as (e & He & _ & Ha).
  destruct (select_loop (o_maxSelected options or_else 4%Z) (candidates locale_le envelope tags options)
    (mkPlan [] ∅ ∅ (rejections envelope tags options))) as [Hs _].
  fold p in Hs. rewrite Hsel in Hs. cbn [p_selected length app] in Hs.
  symmetry in Hs. apply fmap_nil_inv in Hs.
  assert (candidates locale_le envelope tags options = []) as Hnil.
  { destruct (candidates _ _ _ _); [done|]. revert Hs.
    destruct (Z.to_nat _ - 0) eqn:E; [lia|]. discriminate. }
  pose proof (candidates_entries locale_le envelope options tags) as Hp. rewrite Hnil in Hp.
  apply Permutation_nil_l in Hp. apply (elem_of_nil e). rewrite Hp. by apply list_elem_of_filter.
Qed.

Section chosen.
Variables (envelope : ExecutionEnvelopeState) (intent : string) (options : McpRoutingDecisionOptions).
Hypothesis Hmax : (0 < o_maxSelected options or_else 4)%Z.
Let tags := inferIntentTags intent.
Let k := Z.to_nat (o_maxSelected options or_else 4)%Z.
Let cs := candidates locale_le envelope tags options.
Let d := chooseMcpsDetailed locale_le envelope intent options.

(** The decision in terms of the first [k] of the sorted candidates. *)
Lemma choice_exact :
  d_selected d = (mcp_id ∘ c_entry <$> take k cs) ∧
  (∀ x, is_Some (d_rejected d !! x) ↔ x ∈ (mcp_id ∘ c_entry <$> drop k cs) ∨
     ∃ e, e ∈ DEFAULT_MCP_REGISTRY ∧ mcp_id e = x ∧ admitted envelope options e = false) ∧
  (∀ x, x ∈ d_selected d → d_decisions d !! x = Some dk_allow).
Proof using Hmax.
  destruct (choice_is_plan envelope intent options Hmax) as (Hsel & Hdec & Hrej).
  fold d tags cs in Hsel, Hdec, Hrej.
  destruct (select_loop (o_maxSelected options or_else 4%Z) cs
    (mkPlan [] ∅ ∅ (rejections envelope tags options))) as (Hs & Hr & Hd).
  cbn [p_selected p_decisions p_rejected length app] in Hs, Hr, Hd.
  rewrite Nat.sub_0_r in Hs, Hr, Hd. fold k in Hs, Hr, Hd.
  rewrite <-Hsel in Hs. rewrite <-Hdec in Hd. rewrite <-Hrej in Hr. split_and!; [done| |].
  - intros x. by rewrite Hr, rejections_spec.
  - intros x Hx. rewrite Hd, decide_True by (by rewrite <-Hs). done.
Qed.

Lemma chosen_nodup : NoDup (mcp_id ∘ c_entry <$> take k cs ++ drop k cs).
Proof. rewrite take_drop. apply candidates_nodup. Qed.

Lemma best_chosen e e' :
  e ∈ DEFAULT_MCP_REGISTRY → e' ∈ DEFAULT_MCP_REGISTRY →
  mcp_id e ∈ d_selected d → mcp_id e' ∉ d_selected d → eligible envelope options e' →
  (mcp_score intent e' <= mcp_score intent e)%Z.
Proof using All.
  destruct choice_exact as (-> & _ & _).
  intros He He' Hin Hout Hel%admitted_eligible.
  apply list_elem_of_fmap in Hin as (c & Hid & Hc).
  destruct (candidate_elem _ _ _ _ _ (subseteq_take _ _ _ Hc)) as (Hreg & _ & Hsc).
  apply registry_id_inj in Hid as ->; [|done..].
  destruct (candidate_of locale_le envelope options tags e') as (c' & Hc' & <-); [done..|].
  destruct (candidate_elem _ _ _ _ _ Hc') as (_ & _ & Hsc').
  unfold mcp_score. fold tags. rewrite <-Hsc, <-Hsc'.
  apply candidate_le_score.
  apply (sorted_prefix_before _ _ _ _ _ (candidates_sorted envelope tags options) Hc).
  fold cs in Hc'. rewrite <-(take_drop k cs) in Hc'. apply elem_of_app in Hc' as [Hc'|]; [|done].
  destruct Hout. apply list_elem_of_fmap. eauto.
Qed.

Lemma chosen_or_rejected e :
  e ∈ DEFAULT_MCP_REGISTRY → mcp_id e ∈ d_selected d ↔ d_rejected d !! mcp_id e = None.
Proof using Hmax.
  intros He. destruct choice_exact as (-> & Hr & _). rewrite eq_None_not_Some, Hr. split.
  - intros Hin. pose proof chosen_nodup as Hnd. rewrite fmap_app, NoDup_app in Hnd.
    intros [Hout|(e' & He' & Hid & Hno)]; [by destruct Hnd as (_ & Hdis & _); eapply Hdis|].
    apply registry_id_inj in Hid as ->; [|done..].
    apply list_elem_of_fmap in Hin as (c & Hid & Hc%subseteq_take).
    apply candidate_elem in Hc as (Hreg & Hyes & _).
    apply registry_id_inj in Hid as ->; [congruence|done..].
  - intros Hnot. destruct (admitted envelope options e) eqn:Ha; [|destruct Hnot; eauto].
    destruct (candidate_of locale_le envelope options tags e) as (c & Hc & <-); [done..|].
    fold cs in Hc. rewrite <-(take_drop k cs) in Hc. apply elem_of_app in Hc as [Hc|Hc].
    + apply list_elem_of_fmap. eauto.
    + destruct Hnot. left. apply list_elem_of_fmap. eauto.
Qed.
End chosen.

Lemma best_choice envelope intent options :
  (0 < o_maxSelected options or_else 4)%Z →
  let d := chooseMcpsDetailed locale_le envelope intent options in
  let eligibles := filter (λ e, admitted envelope options e = true) DEFAULT_MCP_REGISTRY in
  NoDup (d_selected d) ∧
  length (d_selected d) = min (Z.to_nat (o_maxSelected options or_else 4)%Z) (length eligibles) ∧
  (∀ x, x ∈ d_selected d → d_decisions d !! x = Some dk_allow ∧
     ∃ e, e ∈ DEFAULT_MCP_REGISTRY ∧ mcp_id e = x ∧ eligible envelope options e) ∧
  (∀ e e', e ∈ DEFAULT_MCP_REGISTRY → e' ∈ DEFAULT_MCP_REGISTRY →
     mcp_id e ∈ d_selected d → mcp_id e' ∉ d_selected d → eligible envelope options e' →
     (mcp_score intent e' <= mcp_score intent e)%Z) ∧
  (∀ e, e ∈ DEFAULT_MCP_REGISTRY →
     (mcp_id e ∈ d_selected d ↔ d_rejected d !! mcp_id e = None)).
Proof using All.
  intros Hmax d eligibles. destruct (choice_exact envelope intent options Hmax) as (Hs & _ & Hd).
  split_and!.
  - unfold d. rewrite Hs. pose proof (chosen_nodup envelope intent options) as Hnd.
    rewrite fmap_app in Hnd. by apply NoDup_app in Hnd as [? _].
  - unfold d. rewrite Hs, length_fmap, length_take. f_equal.
    rewrite <-(length_fmap c_entry). apply Permutation_length, candidates_entries.
  - intros x Hx. split; [by apply Hd|]. unfold d in Hx. rewrite Hs in Hx.
    apply list_elem_of_fmap in Hx as (c & -> & Hc%subseteq_take).
    apply candidate_elem in Hc as (? & ? & _). exists (c_entry c).
    by rewrite <-admitted_eligible.
  - by apply best_chosen.
  - by apply chosen_or_rejected.
Qed.
End top_choice.

(** ** Determinism *)

(** No two entries of the registry can end with the same score. *)
Lemma registry_priorities e e' :
  e ∈ DEFAULT_MCP_REGISTRY → e' ∈ DEFAULT_MCP_REGISTRY → mcp_id e ≠ mcp_id e' →
  x_priority (mcp_spec e) ≠ x_priority (mcp_spec e') ∧
  (x_priority (mcp_spec e) - x_priority (mcp_spec e') ≠ 45)%Z.
Proof.
  assert (Forall (λ e, Forall (λ e', mcp_id e ≠ mcp_id e' →
    x_priority (mcp_spec e) ≠ x_priority (mcp_spec e') ∧
    (x_priority (mcp_spec e) - x_priority (mcp_spec e') ≠ 45)%Z)
    DEFAULT_MCP_REGISTRY) DEFAULT_MCP_REGISTRY) as Hall by by_decision.
  intros He He'. rewrite Forall_forall in Hall. specialize (Hall e He).
  rewrite Forall_forall in Hall. by apply Hall.
Qed.

Lemma scores_differ tags e e' :
  e ∈ DEFAULT_MCP_REGISTRY → e' ∈ DEFAULT_MCP_REGISTRY → mcp_id e ≠ mcp_id e' →
  (scoreRegistryEntry e tags).1 ≠ (scoreRegistryEntry e' tags).1.
Proof.
  intros He He' Hne. destruct (registry_priorities e e') as [H1 H2]; [done..|].
  destruct (registry_priorities e' e) as [_ H3]; [done..|congruence|].
  unfold scoreRegistryEntry. case_match; case_match; simpl; lia.
Qed.

Lemma candidates_locale l l' envelope tags options :
  candidates l envelope tags options = candidates l' envelope tags options.
Proof.
  apply js_sort_ext.
  - pose proof (candidates_nodup l envelope options tags) as Hnd. unfold candidates in Hnd.
    rewrite js_sort_perm in Hnd. by eapply NoDup_fmap_1.
  - intros c c' Hc Hc' Hne. rewrite <-(elem_of_js_sort (candidate_le l)) in Hc, Hc'.
    destruct (candidate_elem _ _ _ _ _ Hc) as (He & _ & Hs).
    destruct (candidate_elem _ _ _ _ _ Hc') as (He' & _ & Hs').
    unfold candidate_le. case_match eqn:E; [|done]. apply Z.eqb_eq in E. exfalso.
    rewrite Hs, Hs' in E. revert E. apply scores_differ; [done..|]. intros Hid.
    apply Hne. by eapply (NoDup_fmap_elem_inj (mcp_id ∘ c_entry)); [apply candidates_nodup|..].
Qed.

Lemma fallback_locale l l' envelope options :
  pickPlannerSafeFallback l envelope options = pickPlannerSafeFallback l' envelope options.
Proof.
  unfold pickPlannerSafeFallback. rewrite (js_sort_ext (priority_le l) (priority_le l')); [done| |].
  - eapply NoDup_fmap_1, registry_ids.
  - intros e e' He He' Hne. unfold priority_le. case_match eqn:E; [|done]. apply Z.eqb_eq in E.
    destruct (registry_priorities e e') as [H1 _]; [done..| |done].
    intros Hid. by apply Hne, registry_id_inj.
Qed.

(** The choice does not depend on the locale of the host. *)
Lemma choice_locale l l' envelope intent options :
  chooseMcpsDetailed l envelope intent options = chooseMcpsDetailed l' envelope intent options.
Proof.
  unfold chooseMcpsDetailed. by rewrite (candidates_locale l l'), (fallback_locale l l').
Qed.

(** C12 With room for at least one MCP, the planner chooses the best eligible
    ones, in every locale: what it selects are distinct registry entries that
    support the contract, lane, role, capabilities and runtime policy; it
    selects as many of them as the limit allows; no eligible entry left out
    scores higher than a selected one; and every registry entry is either
    selected, with the decision to allow it, or carries the reasons of its
    rejection. *)
Theorem planner_selects_best locale_le envelope intent options :
  (0 < o_maxSelected options or_else 4)%Z →
  let d := chooseMcpsDetailed locale_le envelope intent options in
  let eligibles := filter (λ e, admitted envelope options e = true) DEFAULT_MCP_REGISTRY in
  NoDup (d_selected d) ∧
  length (d_selected d) = min (Z.to_nat (o_maxSelected options or_else 4)%Z) (length eligibles) ∧
  (∀ x, x ∈ d_selected d → d_decisions d !! x = Some dk_allow ∧
     ∃ e, e ∈ DEFAULT_MCP_REGISTRY ∧ mcp_id e = x ∧ eligible envelope options e) ∧
  (∀ e e', e ∈ DEFAULT_MCP_REGISTRY → e' ∈ DEFAULT_MCP_REGISTRY →
     mcp_id e ∈ d_selected d → mcp_id e' ∉ d_selected d → eligible envelope options e' →
     (mcp_score intent e' <= mcp_score intent e)%Z) ∧
  (∀ e, e ∈ DEFAULT_MCP_REGISTRY →
     (mcp_id e ∈ d_selected d ↔ d_rejected d !! mcp_id e = None)).
Proof.
  rewrite (choice_locale locale_le String.leb). apply best_choice.
  - apply string_leb_total_false.
  - apply string_leb_trans.
Qed.

Lemma chosen_eligible locale_le envelope intent x :
  x ∈ chooseMcps locale_le envelope intent →
  ∃ e, e ∈ DEFAULT_MCP_REGISTRY ∧ mcp_id e = x ∧
    env_lane envelope ∈ x_lanes (mcp_spec e) ∧ env_role envelope ∈ x_roles (mcp_spec e).
Proof.
  unfold chooseMcps. rewrite (choice_locale locale_le String.leb). set (opts := mkOptions _ _ _ _ _ _ _).
  assert (0 < o_maxSelected opts or_else 4)%Z as Hmax by done.
  destruct (best_choice String.leb string_leb_total_false string_leb_trans envelope intent opts Hmax)
    as (_ & _ & Hsel & _).
  intros (_ & e & He & Hid & Hel)%Hsel. exists e. by destruct Hel.
Qed.

Lemma chooseSkills_spec envelope intent x :
  x ∈ chooseSkills envelope intent ↔
  ∃ e, e ∈ DEFAULT_SKILL_REGISTRY ∧ sk_skillName e = x ∧
    skill_matches envelope (buildSkillTags envelope intent) e = true.
Proof.
  unfold chooseSkills. rewrite (proj2 (js_dedup_spec _ _)), list_elem_of_fmap.
  setoid_rewrite list_elem_of_filter. split.
  - intros [(e & -> & Hm & He) _]. by exists e.
  - intros (e & He & <- & Hm). split; [by exists e|apply not_elem_of_nil].
Qed.

Lemma no_full_entries :
  (∀ e, e ∈ DEFAULT_MCP_REGISTRY → full ∉ x_lanes (mcp_spec e)) ∧
  (∀ e, e ∈ DEFAULT_SKILL_REGISTRY → full ∉ sk_lanes e).
Proof. rewrite <-!Forall_forall. by_decision. Qed.

Lemma empty_of_no_elem {A} (xs : list A) : (∀ x, x ∉ xs) → xs = [].
Proof. destruct xs as [|x xs]; [done|]. intros Hno. destruct (Hno x). set_solver. Qed.

(** An envelope carries tools exactly in the lanes that the registries know:
    in the quick, delivery and migration lanes its skills contain the always-on
    reminder and every active MCP lists the lane and the role; in the full lane
    it carries no skill and no MCP. *)
Theorem envelope_tools `{Env} locale_le session agent model w :
  ∃ e w', buildExecutionEnvelope locale_le session agent model w = (Ret e, w') ∧
    env_sessionId e = sessionId session ∧ env_stage e = currentStage session ∧
    w_sessions w' = w_sessions w ∧ w_envelopes w' = w_envelopes w ∧
    (if decide (lane session = full) then env_activeSkills e = [] ∧ env_activeMcps e = []
     else "using-skills" ∈ env_activeSkills e ∧
          ∀ x, x ∈ env_activeMcps e → ∃ entry, entry ∈ DEFAULT_MCP_REGISTRY ∧ mcp_id entry = x ∧
            lane session ∈ x_lanes (mcp_spec entry) ∧ ag_role agent ∈ x_roles (mcp_spec entry)).
Proof.
  eexists _, _. split; [reflexivity|]. cbn -[chooseSkills chooseMcps defaultMcpIntentForStage].
  split_and!; [done..|]. set (base := envelope_base _ _ _ _ _). case_decide as Hl.
  - destruct no_full_entries as [Hm Hs]. split; apply empty_of_no_elem; intros x.
    + rewrite chooseSkills_spec. intros (e & He & _ & Hmatch). unfold skill_matches in Hmatch.
      guards. apply (Hs e He). by rewrite <-Hl.
    + intros (e & He & _ & Hlane & _)%chosen_eligible. apply (Hm e He). by rewrite <-Hl.
  - split; [|by intros x Hx%chosen_eligible].
    apply chooseSkills_spec. eexists. split; [apply list_elem_of_here|]. split; [done|].
    unfold skill_matches. simpl. destruct (lane session); [..|done]; by destruct (ag_role agent).
Qed.

(** Whatever the options: the selection has no duplicates and nothing is
    blocked yet. *)
Lemma planned_unblocked locale_le envelope intent options :
  let d := chooseMcpsDetailed locale_le envelope intent options in
  NoDup (d_selected d) ∧ d_blocked d = [] ∧ ∀ x, d_decisions d !! x ≠ Some dk_block.
Proof.
  unfold chooseMcpsDetailed.
  destruct (select_loop (o_maxSelected options or_else 4%Z)
    (candidates locale_le envelope (inferIntentTags intent) options)
    (mkPlan [] ∅ ∅ (rejections envelope (inferIntentTags intent) options))) as (Hs & _ & Hd).
  set (p := foldl _ _ _) in *. clearbody p. cbn [p_selected p_decisions app length] in Hs, Hd.
  assert (∀ x, p_decisions p !! x ≠ Some dk_block) as Hnb.
  { intros x. rewrite Hd. case_decide; [done|]. by rewrite lookup_empty. }
  destruct (p_selected p) as [|x xs] eqn:Hsel.
  - destruct (pickPlannerSafeFallback _ _ _) as [f|]; simpl; split_and!; try done;
      [apply NoDup_singleton| |apply NoDup_nil_2].
    intros x. destruct (decide (f = x)) as [->|]; [by rewrite lookup_insert_eq|by rewrite lookup_insert_ne].
  - split_and!; [|done..]. cbn [d_selected]. rewrite Hs.
    eapply sublist_NoDup; [apply candidates_nodup|]. apply fmap_sublist, sublist_take.
Qed.

(** The substring tests of [inferIntentFromInput] also fire inside words: a
    question about the build is taken for one about the user interface. *)
Example build_question_is_browser :
  inferIntentFromInput "why does the build fail" = browser_verification ∧
  "browser" ∈ inferIntentTags "why does the build fail".
Proof. split; [vm_compute; reflexivity|by_decision]. Qed.

(** ** Witnesses *)

Definition plan_envelope : ExecutionEnvelopeState :=
  mkEnvelope "env-1" "session-1" delivery role_architect "architect" delivery_solution None
    (mkModel "openai" "gpt" "default") [] [] [] always "2026".

Lemma planner_selects_best_witness :
  let options := mkOptions None (Some 2%Z) None None None None None in
  length (d_selected (chooseMcpsDetailed String.leb plan_envelope "library migration" options)) = 2 ∧
  NoDup (d_selected (chooseMcpsDetailed String.leb plan_envelope "library migration" options)).
Proof.
  intros options.
  destruct (planner_selects_best String.leb plan_envelope "library migration" options) as (Hn & Hl & _);
    [reflexivity|].
  split; [|exact Hn]. rewrite Hl. vm_compute. reflexivity.
Defined.
