(* ===== verification/Extensions.v ===== *)
(** * Extension runtime state

    [packages/runtime/src/extensions]: [extension-fingerprint.ts],
    [extension-runtime-state-store.ts], [touch-extension-state.ts] and
    [extension-drift-report.ts].

    The state file is one JSON document per repository.  [records[id]] finds a
    stored record or what every object inherits under that name ([record_at]).  The hash function, the
    locale's order and the sum of a number literal that is not a decimal integer
    of at most 15 digits are parameters. *)

From S2P Require Import Prelude Json Domain Store Bridge Codec Planner.
From Stdlib Require Import Ascii String Sorted.
From stdpp Require Import prelude list strings gmap pretty sorting.
Set Default Proof Using "Type".
Set Warnings "-clear-no-such-hyp".

(** ** Fingerprints *)

Definition role_name (r : AgentRole) : string :=
  match r with
  | role_quick => "quick" | role_coordinator => "coordinator" | role_analyst => "analyst"
  | role_architect => "architect" | role_implementer => "implementer"
  | role_reviewer => "reviewer" | role_tester => "tester"
  end.

Record ExtensionFingerprintPayload : Type := mkPayload {
  fp_id : string;
  fp_contractVersion : string;
  fp_entry : string;
  fp_capabilities : list string;
  fp_priority : Z;
  fp_lanes : list string;
  fp_roles : list string;
}.

Definition payload_json (p : ExtensionFingerprintPayload) : json :=
  JObj [("id", JStr (fp_id p)); ("contractVersion", JStr (fp_contractVersion p));
        ("entry", JStr (fp_entry p)); ("capabilities", JArr (JStr <$> fp_capabilities p));
        ("priority", JNum (pretty (fp_priority p))); ("lanes", JArr (JStr <$> fp_lanes p));
        ("roles", JArr (JStr <$> fp_roles p))].

Section fingerprint.
(** [a.localeCompare(b) <= 0] and the hexadecimal SHA-256 digest. *)
Variable locale_le : string → string → bool.
Variable sha256 : string → string.

Definition normalizeStringArray (values : list string) : list string :=
  js_sort locale_le (js_dedup [] values).

Definition toExtensionFingerprintPayload (spec : ExtensionSpec) : ExtensionFingerprintPayload :=
  mkPayload (x_id spec) (x_contractVersion spec) (x_entry spec)
    (normalizeStringArray (x_capabilities spec)) (x_priority spec)
    (normalizeStringArray (lane_name <$> x_lanes spec))
    (normalizeStringArray (role_name <$> x_roles spec)).

Definition deriveExtensionFingerprint (spec : ExtensionSpec) : string :=
  sha256 (stringify (payload_json (toExtensionFingerprintPayload spec))).
End fingerprint.

(** ** The state file *)

(** What [readFileSync] and [JSON.parse] make of the file. *)
Inductive StoreFile : Type :=
| NoFile
| Unreadable (message : string)
| NotJson
| Document (v : json).

(** The file, whether writing it fails and with which message, and the readings
    of the clock so far. *)
Record ExtWorld : Type := mkExt {
  xw_file : StoreFile;
  xw_writeError : option string;
  xw_ticks : nat;
}.

Definition STORE_VERSION : string := "v1".

(** [Object.entries(records)]; an array has its indices as keys. *)
Definition entries (records : json) : list (string * json) :=
  match records with
  | JObj members => members
  | JArr items => imap (λ i v, (pretty i, v)) items
  | _ => []
  end.

(** The record stored under an id. *)
Definition own_record (id : string) (records : json) : option json := json_get id (JObj (entries records)).

(** [records[id]], [None] for [undefined]: the stored record, or else what the
    records inherit under that name. *)
Definition record_at (id : string) (records : json) : option json :=
  match own_record id records with
  | Some r => Some r
  | None => inherited_member id records
  end.

Definition is_str (o : option json) : option string :=
  match o with Some (JStr s) => Some s | _ => None end.

Definition isRecord (key : string) (input : json) : bool :=
  match input with
  | JObj _ =>
    bool_decide (is_str (json_get "version" input) = Some STORE_VERSION)
    && bool_decide (is_str (json_get "extensionId" input) = Some key)
    && match json_get "fingerprint" input with Some (JStr f) => negb (isEmpty f) | _ => false end
    && match json_get "lastSeenAt" input with None | Some (JStr _) => true | _ => false end
    && match json_get "loadCount" input with None | Some (JNum _) => true | _ => false end
  | _ => false
  end.

Definition isStore (input : json) : bool :=
  match input with
  | JObj _ =>
    bool_decide (is_str (json_get "version" input) = Some STORE_VERSION)
    && match json_get "records" input with
       | Some (JObj _ as records) | Some (JArr _ as records) =>
         forallb (λ m, isRecord m.1 m.2) (entries records)
       | _ => false
       end
  | _ => false
  end.

(** [store.records] of a document that [isStore] accepts. *)
Definition records_of (store : json) : json := json_get "records" store or_else JNull.

Definition createEmptyStore : json :=
  JObj [("version", JStr STORE_VERSION); ("records", JObj [])].

(** [inl] is a failed result with its reason. *)
Definition read : M ExtWorld (string + json) := gets (λ w,
  match xw_file w with
  | NoFile => inr createEmptyStore
  | NotJson => inl "Extension runtime-state store JSON is malformed."
  | Unreadable message => inl message
  | Document v =>
    if isStore v then inr v
    else inl "Extension runtime-state store is malformed or has unsupported schema version."
  end).

Definition write (store : json) : M ExtWorld (string + ()) := λ w,
  if negb (isStore store) then (Ret (inl "Extension runtime-state store payload is invalid."), w)
  else match xw_writeError w with
       | Some message => (Ret (inl message), w)
       | None => (Ret (inr ()), mkExt (Document store) None (xw_ticks w))
       end.

Section store.
Context `{Env}.
(** The printed sum of 1 and a literal outside the integers below 10^15. *)
Variable double_succ : string → string.

(** [count + 1], printed. *)
Definition number_succ (literal : string) : string :=
  if all_digits literal && (String.length literal <=? 15)%nat
  then pretty (decimal_value literal + 1)%N else double_succ literal.

Definition nowIso_x : M ExtWorld string := λ w,
  (Ret (clock (xw_ticks w)), mkExt (xw_file w) (xw_writeError w) (S (xw_ticks w))).

Definition upsertRecord (store : json) (extensionId fingerprint : string) : M ExtWorld json :=
  let previous := record_at extensionId (records_of store) in
  let loadCount := match previous ≫= json_get "loadCount" with Some (JNum l) => l | _ => "0" end in
  at_ ← nowIso_x;
  mret (JObj [("version", JStr STORE_VERSION);
              ("records", JObj (set_member extensionId
                 (JObj [("version", JStr STORE_VERSION); ("extensionId", JStr extensionId);
                        ("fingerprint", JStr fingerprint); ("lastSeenAt", JStr at_);
                        ("loadCount", JNum (number_succ loadCount))])
                 (entries (records_of store))))]).

(** ** [touch-extension-state.ts] *)

Inductive ExtensionRuntimeState : Type := xs_first | xs_updated | xs_same.

#[global] Instance ExtensionRuntimeState_eq_dec : EqDecision ExtensionRuntimeState.
Proof. solve_decision. Defined.

Record TouchExtensionStateResult : Type := mkTouch {
  to_state : ExtensionRuntimeState;
  to_fingerprint : string;
  to_warning : option string;
}.

Variable locale_le : string → string → bool.
Variable sha256 : string → string.

Definition classify (prior : option json) (fingerprint : string) : ExtensionRuntimeState :=
  if falsy prior then xs_first
  else if decide (is_str (prior ≫= json_get "fingerprint") = Some fingerprint) then xs_same
  else xs_updated.

Definition touchExtensionState (spec : ExtensionSpec) : M ExtWorld TouchExtensionStateResult :=
  let fingerprint := deriveExtensionFingerprint locale_le sha256 spec in
  readResult ← read;
  match readResult with
  | inl reason =>
    mret (mkTouch xs_first fingerprint (Some ("Extension runtime-state read failed: " +:+ reason)))
  | inr store =>
    let state := classify (record_at (x_id spec) (records_of store)) fingerprint in
    nextStore ← upsertRecord store (x_id spec) fingerprint;
    writeResult ← write nextStore;
    match writeResult with
    | inl reason =>
      mret (mkTouch state fingerprint (Some ("Extension runtime-state write failed: " +:+ reason)))
    | inr _ => mret (mkTouch state fingerprint None)
    end
  end.
End store.

(** ** [extension-drift-report.ts] *)

(** The object [runtimeStates], in the order its members were added. *)
Definition ExtensionRuntimeStateMap : Type := list (string * (ExtensionRuntimeState * string)).

Definition runtime_state (id : string) (states : ExtensionRuntimeStateMap) :
    option (ExtensionRuntimeState * string) :=
  snd <$> head (filter (λ m, m.1 = id) states).

Record ExtensionStateDriftEntry : Type := mkDriftEntry {
  de_extensionId : string;
  de_fingerprint : string;
  de_state : option ExtensionRuntimeState;
  de_lastSeenAt : option string;
  de_loadCount : option string;
}.

Record ExtensionStateDriftReport : Type := mkDrift {
  dr_generatedAt : string;
  dr_persistedExtensionCount : nat;
  dr_classifiedExtensionCount : nat;
  dr_firstCount : nat;
  dr_sameCount : nat;
  dr_updatedCount : nat;
  dr_driftedExtensionIds : list string;
  dr_extensions : list ExtensionStateDriftEntry;
  dr_warnings : list string;
}.

Section drift.
Context `{Env}.
Variable locale_le : string → string → bool.

(** The ids classified with a state, of the sorted ids. *)
Definition ids_in_state (states : ExtensionRuntimeStateMap) (s : ExtensionRuntimeState)
    (ids : list string) : list string :=
  filter (λ id, fst <$> runtime_state id states = Some s) ids.

Definition drift_entry (store : json) (states : ExtensionRuntimeStateMap) (id : string) :
    ExtensionStateDriftEntry :=
  let persisted := record_at id (records_of store) in
  let state := runtime_state id states in
  mkDriftEntry id
    ((snd <$> state) or_else (is_str (persisted ≫= json_get "fingerprint") or_else ""))
    (fst <$> state)
    (is_str (persisted ≫= json_get "lastSeenAt"))
    (match persisted ≫= json_get "loadCount" with Some (JNum l) => Some l | _ => None end).

Definition buildExtensionStateDriftReport (runtimeStates : ExtensionRuntimeStateMap) :
    M ExtWorld ExtensionStateDriftReport :=
  readResult ← read;
  let store := match readResult with inr store => store | inl _ => createEmptyStore end in
  let warnings := match readResult with
                  | inl reason => ["Extension runtime-state drift report degraded: " +:+ reason]
                  | inr _ => []
                  end in
  let runtimeStateIds := js_sort locale_le (fst <$> runtimeStates) in
  let persistedIds := js_sort locale_le (fst <$> entries (records_of store)) in
  let allIds := js_sort locale_le (js_dedup [] (persistedIds ++ runtimeStateIds)) in
  generatedAt ← nowIso_x;
  mret {| dr_generatedAt := generatedAt;
          dr_persistedExtensionCount := length persistedIds;
          dr_classifiedExtensionCount := length runtimeStateIds;
          dr_firstCount := length (ids_in_state runtimeStates xs_first runtimeStateIds);
          dr_sameCount := length (ids_in_state runtimeStates xs_same runtimeStateIds);
          dr_updatedCount := length (ids_in_state runtimeStates xs_updated runtimeStateIds);
          dr_driftedExtensionIds := ids_in_state runtimeStates xs_updated runtimeStateIds;
          dr_extensions := drift_entry store runtimeStates <$> allIds;
          dr_warnings := warnings |}.
End drift.

(** ** Facts about the store *)

(** A number below [10^k] prints with at most [k] digits. *)
Lemma pretty_go_length k x s : (x < 10 ^ N.of_nat k)%N →
  String.length (pretty_N_go x s) <= k + String.length s.
Proof.
  revert x s. induction k as [|k IH]; intros x s Hx.
  { simpl in Hx. assert (x = 0%N) as -> by lia. done. }
  destruct (decide (x = 0%N)) as [->|Hne]; [rewrite pretty_N_go_0; lia|].
  rewrite pretty_N_go_step by lia. etrans; [apply IH|simpl; lia].
  apply N.Div0.div_lt_upper_bound. rewrite Nat2N.inj_succ, N.pow_succ_r' in Hx. lia.
Qed.

Lemma pretty_length k (x : N) : (x < 10 ^ N.of_nat k)%N → 0 < k → String.length (pretty x) <= k.
Proof.
  intros Hx Hk. unfold pretty, pretty_N. case_decide; [simpl; lia|].
  etrans; [by apply pretty_go_length|]. simpl. lia.
Qed.

Lemma number_succ_small double_succ (n : N) :
  (n < 10 ^ 15)%N → number_succ double_succ (pretty n) = pretty (n + 1)%N.
Proof.
  intros Hn. unfold number_succ. destruct (pretty_numeral n) as [-> ->].
  pose proof (pretty_length 15 n Hn ltac:(lia)) as Hl.
  by rewrite (proj2 (Nat.leb_le _ _) Hl).
Qed.

(** ** What the state file remembers *)

(** The specification: a log of touches, newest first. *)
Abbreviation TouchLog := (list (string * string)).

Definition touches_of (id : string) (log : TouchLog) : TouchLog := filter (λ t, t.1 = id) log.

(** How a touch of an extension is classified by the touches before it: for an id
    that every object inherits, the first touch is classified as an update. *)
Definition spec_state (log : TouchLog) (id fingerprint : string) : ExtensionRuntimeState :=
  match touches_of id log with
  | [] => if decide (id ∈ OBJECT_PROTOTYPE) then xs_updated else xs_first
  | t :: _ => if decide (t.2 = fingerprint) then xs_same else xs_updated
  end.

Fixpoint spec_states (log : TouchLog) (ts : TouchLog) : list ExtensionRuntimeState :=
  match ts with
  | [] => []
  | t :: ts => spec_state log t.1 t.2 :: spec_states (t :: log) ts
  end.

(** The document that [read] hands out. *)
Definition loaded (w : ExtWorld) : json :=
  match xw_file w with Document v => v | _ => createEmptyStore end.

(** The stored record of an extension is the summary of its touches. *)
Definition summarizes (log : TouchLog) (id : string) (stored : option json) : Prop :=
  match touches_of id log, stored with
  | [], None => True
  | (t :: _) as ts, Some r =>
    json_get "fingerprint" r = Some (JStr t.2) ∧
    json_get "loadCount" r = Some (JNum (pretty (N.of_nat (length ts))))
  | _, _ => False
  end.

Record tracks (w : ExtWorld) (log : TouchLog) : Prop := {
  tk_write : xw_writeError w = None;
  tk_file : match xw_file w with NoFile | Document _ => True | _ => False end;
  tk_store : isStore (loaded w) = true;
  tk_unique : members_unique (entries (records_of (loaded w)));
  tk_object : ∃ members, records_of (loaded w) = JObj members;
  tk_records : ∀ id, summarizes log id (own_record id (records_of (loaded w)));
}.

Lemma tracks_nothing w : xw_file w = NoFile → xw_writeError w = None → tracks w [].
Proof. intros Hf Hw. split; unfold loaded; rewrite ?Hf; try done; [apply NoDup_nil_2|by eexists]. Qed.

Lemma tracks_read w log : tracks w log → read w = (Ret (inr (loaded w)), w).
Proof.
  intros [_ Hf Hs _ _ _]. unfold read, gets, loaded in *. destruct (xw_file w); try done. by rewrite Hs.
Qed.

Lemma isStore_upserted v id record :
  isStore v = true → isRecord id record = true →
  isStore (JObj [("version", JStr STORE_VERSION);
                 ("records", JObj (set_member id record (entries (records_of v))))]) = true.
Proof.
  intros Hv Hr. destruct v as [| | | | |ms]; try done. unfold isStore in *.
  apply andb_true_iff in Hv as [_ Hv]. unfold records_of.
  change (forallb (λ m, isRecord m.1 m.2)
    (set_member id record (entries (json_get "records" (JObj ms) or_else JNull))) = true).
  destruct (json_get "records" (JObj ms)) as [[]|]; try done; by apply set_member_forall.
Qed.

Lemma summarizes_classify log id fp records :
  (∃ members, records = JObj members) →
  summarizes log id (own_record id records) →
  classify (record_at id records) fp = spec_state log id fp.
Proof.
  intros [ms ->]. unfold summarizes, classify, spec_state, record_at.
  destruct (own_record id (JObj ms)) as [r|] eqn:E; destruct (touches_of id log) as [|t ts]; try done.
  - intros [Hf _]. assert (falsy (Some r) = false) as ->.
    { destruct r; try done; by destruct t. }
    simpl. rewrite Hf. simpl.
    destruct (decide (t.2 = fp)), (decide (Some t.2 = Some fp)); naive_solver.
  - intros _. simpl. by case_decide.
Qed.

Lemma summarizes_count log id records :
  (∃ members, records = JObj members) → summarizes log id (own_record id records) →
  match record_at id records ≫= json_get "loadCount" with Some (JNum l) => l | _ => "0" end =
  pretty (N.of_nat (length (touches_of id log))).
Proof.
  intros [ms ->]. unfold summarizes, record_at.
  destruct (own_record id (JObj ms)) as [r|], (touches_of id log) as [|t ts]; try done.
  - intros [_ Hc]. change (Some r ≫= json_get "loadCount") with (json_get "loadCount" r). by rewrite Hc.
  - intros _. simpl. by case_decide.
Qed.

Lemma touches_of_cons id t log :
  touches_of id (t :: log) = if decide (t.1 = id) then t :: touches_of id log else touches_of id log.
Proof. unfold touches_of. by rewrite filter_cons. Qed.

Lemma summarizes_other log id id' fp stored :
  id ≠ id' → summarizes log id stored → summarizes ((id', fp) :: log) id stored.
Proof.
  intros Hne. unfold summarizes. rewrite touches_of_cons. by rewrite decide_False by (simpl; congruence).
Qed.

Section history.
Context `{Env}.
Variables (double_succ : string → string) (locale_le : string → string → bool).
Variable sha256 : string → string.
(** A digest is 64 characters long. *)
Hypothesis sha256_nonempty : ∀ s, sha256 s ≠ "".
Local Abbreviation touch := (touchExtensionState double_succ locale_le sha256).
Local Abbreviation fingerprint := (deriveExtensionFingerprint locale_le sha256).

(** The record that a touch writes. *)
Definition touched_record (spec : ExtensionSpec) (at_ : string) (count : N) : json :=
  JObj [("version", JStr STORE_VERSION); ("extensionId", JStr (x_id spec));
        ("fingerprint", JStr (fingerprint spec)); ("lastSeenAt", JStr at_);
        ("loadCount", JNum (pretty count))].

Lemma touched_record_valid spec at_ count : isRecord (x_id spec) (touched_record spec at_ count) = true.
Proof using sha256_nonempty.
  unfold isRecord, touched_record. simpl. rewrite !bool_decide_true by done. simpl.
  rewrite !andb_true_r. apply negb_true_iff, isEmpty_false, sha256_nonempty.
Qed.

Lemma tracks_touched w log spec at_ ticks :
  tracks w log →
  tracks (mkExt (Document (JObj [("version", JStr STORE_VERSION);
      ("records", JObj (set_member (x_id spec)
         (touched_record spec at_ (N.of_nat (length (touches_of (x_id spec) log)) + 1))
         (entries (records_of (loaded w)))))])) None ticks)
    ((x_id spec, fingerprint spec) :: log).
Proof using sha256_nonempty.
  intros [Hw Hf Hs Hu Ho Hr]. split; try done; [| |by eexists|].
  - apply isStore_upserted; [done|apply touched_record_valid].
  - by apply set_member_unique.
  - intros id. unfold own_record, records_of, loaded. cbn [xw_file].
    change (summarizes ((x_id spec, fingerprint spec) :: log) id
      (json_get id (JObj (set_member (x_id spec)
         (touched_record spec at_ (N.of_nat (length (touches_of (x_id spec) log)) + 1))
         (entries (records_of (loaded w))))))).
    rewrite set_member_get by done. case_decide as Hid; [|by apply summarizes_other, Hr].
    subst id. unfold summarizes. rewrite touches_of_cons, decide_True by done. split; [done|].
    cbn [length]. rewrite Nat2N.inj_succ, <-N.add_1_r. reflexivity.
Qed.

Lemma upsert_touched w log spec :
  tracks w log → (N.of_nat (length log) < 10 ^ 15)%N →
  upsertRecord double_succ (loaded w) (x_id spec) (fingerprint spec) w =
  (Ret (JObj [("version", JStr STORE_VERSION);
      ("records", JObj (set_member (x_id spec)
         (touched_record spec (clock (xw_ticks w)) (N.of_nat (length (touches_of (x_id spec) log)) + 1))
         (entries (records_of (loaded w)))))]),
   mkExt (xw_file w) (xw_writeError w) (S (xw_ticks w))).
Proof.
  intros Ht Hlen.
  assert (length (touches_of (x_id spec) log) <= length log) as Hle by apply length_filter.
  unfold upsertRecord. rewrite (summarizes_count _ _ _ (tk_object _ _ Ht) (tk_records _ _ Ht (x_id spec))).
  rewrite number_succ_small by lia. reflexivity.
Qed.

Lemma touch_step w log spec :
  tracks w log → (N.of_nat (length log) < 10 ^ 15)%N →
  ∃ w', touch spec w =
      (Ret (mkTouch (spec_state log (x_id spec) (fingerprint spec)) (fingerprint spec) None), w') ∧
    tracks w' ((x_id spec, fingerprint spec) :: log).
Proof using sha256_nonempty.
  intros Ht Hlen. eexists. split; [|by apply tracks_touched].
  unfold touchExtensionState. erewrite bind_run by (eapply tracks_read; eassumption). cbv beta iota.
  rewrite (summarizes_classify _ _ _ _ (tk_object _ _ Ht) (tk_records _ _ Ht (x_id spec))).
  erewrite bind_run by (by apply upsert_touched). cbv beta.
  erewrite (bind_run _ _ _ (inr ())); [reflexivity|]. unfold write.
  rewrite isStore_upserted by (apply tk_store with log || apply touched_record_valid; done).
  cbn [negb xw_writeError]. by rewrite (tk_write _ _ Ht).
Qed.

(** Touching a list of extensions in order. *)
Definition touch_all (specs : list ExtensionSpec) : M ExtWorld (list TouchExtensionStateResult) :=
  fold_each (λ acc spec, r ← touch spec; mret (acc ++ [r])) [] specs.

Lemma touch_all_run specs acc w log :
  tracks w log → (N.of_nat (length log + length specs) <= 10 ^ 15)%N →
  let ts := (λ spec, (x_id spec, fingerprint spec)) <$> specs in
  ∃ rs w', fold_each (λ acc spec, r ← touch spec; mret (acc ++ [r])) acc specs w = (Ret (acc ++ rs), w') ∧
    to_state <$> rs = spec_states log ts ∧ Forall (λ r, to_warning r = None) rs ∧
    tracks w' (reverse ts ++ log).
Proof using sha256_nonempty.
  revert acc w log. induction specs as [|spec specs IH]; intros acc w log Ht Hlen ts.
  { exists [], w. rewrite app_nil_r. by split_and!. }
  simpl in Hlen. destruct (touch_step w log spec Ht ltac:(lia)) as (w1 & Hrun & Ht1).
  destruct (IH (acc ++ [mkTouch (spec_state log (x_id spec) (fingerprint spec)) (fingerprint spec) None])
    w1 _ Ht1 ltac:(simpl; lia)) as (rs & w2 & Hrest & Hst & Hwn & Ht2).
  eexists (_ :: rs), w2. split_and!.
  - cbn [fold_each]. erewrite bind_run by (erewrite bind_run by exact Hrun; reflexivity). cbv beta.
    rewrite Hrest, <-app_assoc. reflexivity.
  - subst ts. cbn. by rewrite Hst.
  - by constructor.
  - subst ts. rewrite fmap_cons, reverse_cons, <-app_assoc. exact Ht2.
Qed.
End history.

(** C13 The state file implements a log of touches: from an absent, writable file
    any sequence of at most [10^15] touches succeeds without a warning; each one
    is classified as same or updated by the last touch of that extension before
    it, and as first when there is none - except that an id which every object
    inherits, such as [constructor], is classified as updated at its first touch;
    and afterwards the stored record of every extension carries its
    last fingerprint and the number of its touches. *)
Theorem touches_tracked `{Env} double_succ locale_le sha256 specs w :
  (∀ s, sha256 s ≠ "") → xw_file w = NoFile → xw_writeError w = None →
  (N.of_nat (length specs) <= 10 ^ 15)%N →
  let ts := (λ spec, (x_id spec, deriveExtensionFingerprint locale_le sha256 spec)) <$> specs in
  ∃ rs w', touch_all double_succ locale_le sha256 specs w = (Ret rs, w') ∧
    to_state <$> rs = spec_states [] ts ∧ Forall (λ r, to_warning r = None) rs ∧
    isStore (loaded w') = true ∧
    ∀ id, summarizes (reverse ts) id (own_record id (records_of (loaded w'))).
Proof.
  intros Hsha Hf Hw Hlen ts.
  destruct (touch_all_run double_succ locale_le sha256 Hsha specs [] w [] (tracks_nothing w Hf Hw) Hlen)
    as (rs & w' & Hrun & Hst & Hwn & Ht).
  rewrite app_nil_r in Ht. exists rs, w'. by destruct Ht.
Qed.

(** An extension whose id is a name of [Object.prototype] counts as updated when it
    is touched for the first time. *)
Lemma inherited_id_not_first `{Env} double_succ locale_le sha256 id spec w :
  (∀ s, sha256 s ≠ "") → xw_file w = NoFile → xw_writeError w = None →
  x_id spec = id → id ∈ OBJECT_PROTOTYPE →
  ∃ w', touchExtensionState double_succ locale_le sha256 spec w =
    (Ret (mkTouch xs_updated (deriveExtensionFingerprint locale_le sha256 spec) None), w').
Proof.
  intros Hsha Hf Hw <- Hid.
  destruct (touch_step double_succ locale_le sha256 Hsha w [] spec (tracks_nothing w Hf Hw)) as (w' & Hrun & _); [done|].
  exists w'. rewrite Hrun. unfold spec_state. simpl. by rewrite decide_True.
Qed.

(** A file that cannot be read as a store is reported and left alone. *)
Lemma touch_unreadable `{Env} double_succ locale_le sha256 spec w reason :
  read w = (Ret (inl reason), w) →
  touchExtensionState double_succ locale_le sha256 spec w =
  (Ret (mkTouch xs_first (deriveExtensionFingerprint locale_le sha256 spec)
          (Some ("Extension runtime-state read failed: " +:+ reason))), w).
Proof. intros Hr. unfold touchExtensionState. by erewrite bind_run by exact Hr. Qed.

(** ** Facts about fingerprints *)

Section fingerprints.
Variable locale_le : string → string → bool.
Hypothesis locale_total : ∀ a b, locale_le a b = false → locale_le b a = true.
Hypothesis locale_trans : ∀ a b c, locale_le a b = true → locale_le b c = true → locale_le a c = true.
(** Different strings without ignorable characters do not compare equal. *)
Hypothesis locale_antisym : ∀ a b, locale_le a b = true → locale_le b a = true → a = b.

Lemma elem_of_normalized x values : x ∈ normalizeStringArray locale_le values ↔ x ∈ values.
Proof.
  unfold normalizeStringArray. rewrite elem_of_js_sort, (proj2 (js_dedup_spec _ _)).
  pose proof (not_elem_of_nil x). tauto.
Qed.

Lemma normalized_eq values values' :
  normalizeStringArray locale_le values = normalizeStringArray locale_le values' ↔
  ∀ x, x ∈ values ↔ x ∈ values'.
Proof using locale_total locale_trans locale_antisym.
  split; [intros Heq x; by rewrite <-(elem_of_normalized x values), Heq, elem_of_normalized|].
  intros Hsame. unfold normalizeStringArray.
  destruct (js_dedup_spec [] values) as [Hn He], (js_dedup_spec [] values') as [Hn' He'].
  apply (StronglySorted_unique_strong (λ a b, locale_le a b = true)).
  - intros a b _ _. apply locale_antisym.
  - by apply js_sort_sorted.
  - by apply js_sort_sorted.
  - rewrite !js_sort_perm. apply NoDup_Permutation; [done..|]. intros x. by rewrite He, He', Hsame.
Qed.

Lemma fmap_same {A B} (f : A → B) `{!Inj (=) (=) f} (xs ys : list A) :
  (∀ b, b ∈ f <$> xs ↔ b ∈ f <$> ys) ↔ ∀ a, a ∈ xs ↔ a ∈ ys.
Proof.
  setoid_rewrite list_elem_of_fmap. split; [|naive_solver].
  intros Hb a. specialize (Hb (f a)). naive_solver.
Qed.

#[local] Instance lane_name_inj : Inj (=) (=) lane_name.
Proof. by intros [] []. Qed.

#[local] Instance role_name_inj : Inj (=) (=) role_name.
Proof. by intros [] []. Qed.

(** A fingerprint covers exactly the contract of an extension: two
    specifications have the same hashed payload exactly when they agree on id,
    contract version, entry and priority and have the same capabilities, lanes
    and roles, in whatever order and however often these are listed. *)
Theorem fingerprint_covers_contract a b :
  toExtensionFingerprintPayload locale_le a = toExtensionFingerprintPayload locale_le b ↔
  x_id a = x_id b ∧ x_contractVersion a = x_contractVersion b ∧ x_entry a = x_entry b ∧
  x_priority a = x_priority b ∧
  (∀ c, c ∈ x_capabilities a ↔ c ∈ x_capabilities b) ∧
  (∀ l, l ∈ x_lanes a ↔ l ∈ x_lanes b) ∧ (∀ r, r ∈ x_roles a ↔ r ∈ x_roles b).
Proof using locale_total locale_trans locale_antisym.
  rewrite <-(fmap_same lane_name), <-(fmap_same role_name), <-!normalized_eq.
  unfold toExtensionFingerprintPayload. split; [intros [=]; naive_solver|].
  intros (-> & -> & -> & -> & -> & -> & ->). done.
Qed.
End fingerprints.

(** ** Facts about drift reports *)

Lemma runtime_state_None id states : runtime_state id states = None ↔ id ∉ states.*1.
Proof.
  unfold runtime_state. rewrite fmap_None. split.
  - intros Hn [m [-> Hm]]%list_elem_of_fmap.
    assert (m ∈ filter (λ m', m'.1 = m.1) states) as Hin by by apply list_elem_of_filter.
    destruct (filter _ states); [set_solver|done].
  - intros Hid. destruct (filter _ states) as [|m ms] eqn:E; [done|].
    assert (m ∈ filter (λ m, m.1 = id) states) as Hin by (rewrite E; set_solver).
    apply list_elem_of_filter in Hin as [<- Hm]. destruct Hid. apply list_elem_of_fmap. eauto.
Qed.

(** The three classes of a drift report partition the classified extensions. *)
Lemma drift_partition states ids :
  (∀ id, id ∈ ids → id ∈ states.*1) →
  length (ids_in_state states xs_first ids) + length (ids_in_state states xs_same ids) +
  length (ids_in_state states xs_updated ids) = length ids.
Proof.
  unfold ids_in_state. induction ids as [|id ids IH]; intros Hin; [done|].
  rewrite !filter_cons. specialize (IH ltac:(set_solver)).
  destruct (runtime_state id states) as [[[] f]|] eqn:E; simpl;
    [repeat case_decide; simplify_eq; simpl; lia..|].
  apply runtime_state_None in E. destruct E. apply Hin. set_solver.
Qed.

(** The report covers the stored and the classified extensions, each once; its
    three counts add up to the classified ones; the file is only read. *)
Theorem drift_report_covers `{Env} locale_le states w :
  ∃ r w', buildExtensionStateDriftReport locale_le states w = (Ret r, w') ∧ xw_file w' = xw_file w ∧
    dr_firstCount r + dr_sameCount r + dr_updatedCount r = dr_classifiedExtensionCount r ∧
    dr_classifiedExtensionCount r = length states ∧
    NoDup (de_extensionId <$> dr_extensions r) ∧
    (∀ id, id ∈ states.*1 → id ∈ (de_extensionId <$> dr_extensions r)) ∧
    (dr_warnings r = [] → ∀ id, id ∈ (entries (records_of (loaded w))).*1 →
       id ∈ (de_extensionId <$> dr_extensions r)).
Proof.
  unfold buildExtensionStateDriftReport. eexists _, _. split; [reflexivity|].
  cbn [dr_firstCount dr_sameCount dr_updatedCount dr_classifiedExtensionCount dr_extensions dr_warnings].
  split; [done|].
  match goal with |- context [drift_entry ?st _ <$> js_sort _ (js_dedup [] ?ids)] =>
    assert (de_extensionId <$> (drift_entry st states <$> js_sort locale_le (js_dedup [] ids))
      = js_sort locale_le (js_dedup [] ids)) as ->
      by (rewrite <-list_fmap_compose; apply list_fmap_id)
  end.
  split_and!.
  - apply drift_partition. intros id. by rewrite elem_of_js_sort.
  - by rewrite js_sort_perm, length_fmap.
  - rewrite js_sort_perm. apply js_dedup_spec.
  - intros id Hid. rewrite elem_of_js_sort, (proj2 (js_dedup_spec _ _)), elem_of_app, !elem_of_js_sort.
    split; [by right|apply not_elem_of_nil].
  - intros Hw id Hid. rewrite elem_of_js_sort, (proj2 (js_dedup_spec _ _)), elem_of_app, !elem_of_js_sort.
    split; [left|apply not_elem_of_nil]. revert Hw Hid. unfold loaded.
    destruct (xw_file w) as [| | |v]; try done. by destruct (isStore v).
Qed.

(** ** Witnesses *)

Definition demo_spec (caps : list string) : ExtensionSpec :=
  mkSpec "context7" "v1" "tool:context7" caps 90 [quick; delivery] [role_quick].
Definition inherited_spec : ExtensionSpec :=
  mkSpec "constructor" "v1" "tool:constructor" [] 90 [quick] [role_quick].

Lemma touches_tracked_witness :
  ∃ rs w', touch_all (λ l, l) String.leb (λ s, "#" +:+ s)
      [demo_spec ["a"]; demo_spec ["a"; "a"]; inherited_spec; demo_spec ["b"]; inherited_spec]
      (mkExt NoFile None 0) = (Ret rs, w') ∧
    to_state <$> rs = [xs_first; xs_same; xs_updated; xs_updated; xs_same] ∧
    (own_record "context7" (records_of (loaded w')) ≫= json_get "loadCount") = Some (JNum "3").
Proof.
  destruct (touches_tracked (λ l, l) String.leb (λ s, "#" +:+ s)
    [demo_spec ["a"]; demo_spec ["a"; "a"]; inherited_spec; demo_spec ["b"]; inherited_spec] (mkExt NoFile None 0))
    as (rs & w' & Hrun & Hst & _ & _ & Hid); try done.
  exists rs, w'. split; [exact Hrun|]. split; [rewrite Hst; vm_compute; reflexivity|].
  specialize (Hid "context7"). revert Hid. unfold summarizes.
  generalize (own_record "context7" (records_of (loaded w'))) as stored.
  assert (touches_of "context7" (reverse ((λ spec, (x_id spec, deriveExtensionFingerprint String.leb (λ s, "#" +:+ s) spec)) <$>
    [demo_spec ["a"]; demo_spec ["a"; "a"]; inherited_spec; demo_spec ["b"]; inherited_spec])) =
    (λ c, ("context7", deriveExtensionFingerprint String.leb (λ s, "#" +:+ s) (demo_spec c))) <$> [["b"]; ["a"; "a"]; ["a"]])
    as -> by (vm_compute; reflexivity).
  intros [r|]; [by intros [_ Hc]|done].
Defined.

Lemma fingerprint_covers_contract_witness :
  toExtensionFingerprintPayload String.leb (demo_spec ["b"; "a"; "b"]) =
  toExtensionFingerprintPayload String.leb (demo_spec ["a"; "b"]).
Proof.
  apply (fingerprint_covers_contract String.leb string_leb_total_false string_leb_trans
    String.leb_antisym (demo_spec ["b"; "a"; "b"]) (demo_spec ["a"; "b"])).
  split_and!; try done. intros c. simpl. set_solver.
Defined.
