(* ===== verification/Routing.v ===== *)
(** * Enforcement of MCP routing

    [packages/opencode-app/src/executor/enforce-mcp-routing.ts]: the planner's
    choice is checked against the runtime snapshot, MCPs that may not be used
    are blocked and replaced by their fallbacks.

    The extension state store is used through the interface [ExtensionStates],
    which [Extensions.v] implements. *)

From S2P Require Import Prelude Json Domain Store Planner Extensions.
From Stdlib Require Import Ascii String.
From stdpp Require Import prelude list strings gmap.
Set Default Proof Using "Type".
Set Warnings "-clear-no-such-hyp".

(** ** The interface of the extension state store *)

Class ExtensionStates (W : Type) : Type := {
  xs_touch : string → ExtensionSpec → M W TouchExtensionStateResult;
  xs_drift : string → ExtensionRuntimeStateMap → M W ExtensionStateDriftReport;
}.

(** Failures of the store are values: neither operation throws. *)
Class ExtensionStatesTotal (W : Type) `{ExtensionStates W} : Prop := {
  xs_touch_total : ∀ root spec w, ∃ r w', xs_touch root spec w = (Ret r, w');
  xs_drift_total : ∀ root states w, ∃ r w', xs_drift root states w = (Ret r, w');
}.

(** ** The locals of [enforceMcpRoutingDetailed] *)

Record Route : Type := mkRoute {
  r_selected : list string;
  r_blocked : list string;
  r_warnings : list string;
  r_decisions : gmap string ExtensionDecisionKind;
  r_reasons : gmap string (list McpReasonCode);
  r_rejected : gmap string (list McpReasonCode);
  r_states : ExtensionRuntimeStateMap;
}.

Definition route_select (name : string) (r : Route) : Route :=
  mkRoute (r_selected r ++ [name]) (r_blocked r) (r_warnings r) (r_decisions r) (r_reasons r)
    (r_rejected r) (r_states r).

Definition route_warn (message : string) (r : Route) : Route :=
  mkRoute (r_selected r) (r_blocked r) (r_warnings r ++ [message]) (r_decisions r) (r_reasons r)
    (r_rejected r) (r_states r).

Definition route_decide (name : string) (k : ExtensionDecisionKind) (r : Route) : Route :=
  mkRoute (r_selected r) (r_blocked r) (r_warnings r) (<[name := k]> (r_decisions r)) (r_reasons r)
    (r_rejected r) (r_states r).

(** [reasons[name] = [...(reasons[name] ?? []), ...codes]]. *)
Definition route_reason (name : string) (codes : list McpReasonCode) (r : Route) : Route :=
  mkRoute (r_selected r) (r_blocked r) (r_warnings r) (r_decisions r)
    (<[name := (r_reasons r !! name or_else []) ++ codes]> (r_reasons r)) (r_rejected r) (r_states r).

(** [if (reasons[name]) delete reasons[name]]. *)
Definition route_unreason (name : string) (r : Route) : Route :=
  mkRoute (r_selected r) (r_blocked r) (r_warnings r) (r_decisions r) (delete name (r_reasons r))
    (r_rejected r) (r_states r).

Definition blockMcp (mcpName : string) (code : McpReasonCode) (r : Route) : Route :=
  let existing := r_rejected r !! mcpName or_else [] in
  mkRoute (r_selected r)
    (if array_includes (r_blocked r) mcpName then r_blocked r else r_blocked r ++ [mcpName])
    (r_warnings r) (<[mcpName := dk_block]> (r_decisions r)) (r_reasons r)
    (<[mcpName := if array_includes existing code then existing else existing ++ [code]]> (r_rejected r))
    (r_states r).

(** [registryByName.get(name)]. *)
Definition registry_entry (name : string) : option McpRegistryEntry :=
  head (filter (λ e, mcp_id e = name) DEFAULT_MCP_REGISTRY).

(** ** Fallbacks *)

(** The [continue]s of the loop in [pickFallback]: [true] returns the name. *)
Definition fallback_usable (blocked : list string) (options : McpRoutingDecisionOptions)
    (fallback : string) : bool :=
  let stale := o_staleRuntimeFailSafe options or_else degrade_or_fallback in
  let missing := o_missingRuntimeFailSafe options or_else degrade_or_fallback in
  if array_includes blocked fallback then false
  else match registry_entry fallback with
  | None => false
  | Some entry =>
    if negb (array_includes (o_supportedContractVersions options or_else ["v1"])
               (x_contractVersion (mcp_spec entry))) then false
    else if isEmpty (x_entry (mcp_spec entry)) then false
    else if negb (hasAllRequiredCapabilities entry (o_requiredCapabilities options or_else [])) then false
    else match runtimeRecordFor fallback (o_runtimeSnapshot options) with
    | None => negb (bool_decide (missing = degrade_or_fallback))
    | Some runtime =>
      if bool_decide (rt_status runtime = mcp_unavailable) || bool_decide (rt_status runtime = mcp_needs_auth)
      then false
      else if bool_decide (stale = degrade_or_fallback) && truthy (rt_stale runtime) then false
      else if bool_decide (missing = degrade_or_fallback) && truthy (rt_signalMissing runtime) then false
      else true
    end
  end.

Definition pickFallback (entry : McpRegistryEntry) (blocked : list string)
    (options : McpRoutingDecisionOptions) : option string :=
  head (filter (λ f, fallback_usable blocked options f = true) (fallbackTargets entry)).

Fixpoint dedupe_loop (blocked seen values : list string) : list string :=
  match values with
  | [] => []
  | v :: vs => if array_includes blocked v || array_includes seen v then dedupe_loop blocked seen vs
               else v :: dedupe_loop blocked (v :: seen) vs
  end.

Definition dedupeExcluding (values blocked : list string) : list string := dedupe_loop blocked [] values.

Definition global_usable (blocked : list string) (options : McpRoutingDecisionOptions)
    (candidate : McpRegistryEntry) : bool :=
  let stale := o_staleRuntimeFailSafe options or_else degrade_or_fallback in
  let missing := o_missingRuntimeFailSafe options or_else degrade_or_fallback in
  if array_includes blocked (mcp_id candidate) then false
  else if negb (array_includes (o_supportedContractVersions options or_else ["v1"])
                  (x_contractVersion (mcp_spec candidate))) then false
  else if isEmpty (x_entry (mcp_spec candidate)) then false
  else if negb (hasAllRequiredCapabilities candidate (o_requiredCapabilities options or_else [])) then false
  else match runtimeRecordFor (mcp_id candidate) (o_runtimeSnapshot options) with
  | None => negb (bool_decide (missing = degrade_or_fallback))
  | Some runtime =>
    if bool_decide (rt_status runtime = mcp_unavailable) || bool_decide (rt_status runtime = mcp_needs_auth)
    then false
    else if bool_decide (stale = degrade_or_fallback) && truthy (rt_stale runtime) then false
    else if bool_decide (missing = degrade_or_fallback) && truthy (rt_signalMissing runtime) then false
    else true
  end.

Section enforce.
Variable locale_le : string → string → bool.

Definition pickGlobalSafeFallback (blocked : list string) (options : McpRoutingDecisionOptions) :
    option string :=
  mcp_id <$> head (filter (λ e, global_usable blocked options e = true)
                     (js_sort (priority_le locale_le) DEFAULT_MCP_REGISTRY)).

Context {W : Type} `{ExtensionStates W}.

(** [if (!repoRoot)]: the empty string counts as none. *)
Definition state_root (options : McpRoutingDecisionOptions) : option string :=
  match o_runtimeStateRepoRoot options with
  | Some root => if isEmpty root then None else Some root
  | None => None
  end.

(** The registry entry's extension specification is its field [mcp_spec], which
    [toExtensionSpec] copies. *)
Definition applyRuntimeStateTouch (entry : McpRegistryEntry) (options : McpRoutingDecisionOptions)
    (r : Route) : M W Route :=
  match state_root options with
  | None => mret r
  | Some root =>
    match runtime_state (mcp_id entry) (r_states r) with
    | Some _ => mret r
    | None =>
      result ← xs_touch root (mcp_spec entry);
      let r' := mkRoute (r_selected r) (r_blocked r) (r_warnings r) (r_decisions r) (r_reasons r)
                  (r_rejected r)
                  (r_states r ++ [(mcp_id entry, (to_state result, to_fingerprint result))]) in
      mret match to_warning result with
           | Some m => if isEmpty m then r' else route_warn m r'
           | None => r'
           end
    end
  end.

(** A guard on metadata that fails: block, drop the reasons, warn. *)
Definition block_with (name : string) (code : McpReasonCode) (message : string) (r : Route) : Route :=
  route_warn message (route_unreason name (blockMcp name code r)).

(** A runtime guard that fails: block, drop the reasons, and use a fallback if
    there is one.  [applied] and [none] are the two warnings. *)
Definition block_and_fall_back (entry : McpRegistryEntry) (code : McpReasonCode)
    (applied : string → string) (none : string) (options : McpRoutingDecisionOptions) (r : Route) :
    M W Route :=
  let name := mcp_id entry in
  let r := route_unreason name (blockMcp name code r) in
  match pickFallback entry (r_blocked r) options with
  | Some fallback =>
    let r := route_warn (applied fallback)
               (route_reason fallback [fallback_applied; code]
                  (route_decide fallback dk_modify (route_select fallback r))) in
    match registry_entry fallback with
    | Some fallbackEntry => applyRuntimeStateTouch fallbackEntry options r
    | None => mret r
    end
  | None => mret (route_warn none r)
  end.

Definition lane_role_warning (name what value : string) : string :=
  "MCP '" +:+ name +:+ "' is not allowed for " +:+ what +:+ " '" +:+ value +:+ "'.".

(** The notes on an MCP that is used all the same. *)
Definition note_caution (name : string) (code : McpReasonCode) (what : string) (applies : bool)
    (r : Route) : Route :=
  if applies
  then route_warn ("MCP '" +:+ name +:+ "' " +:+ what +:+ "; continuing with caution.")
         (route_reason name [code] r)
  else r.

Definition note_auth_context (name : string) (applies : bool) (r : Route) : Route :=
  if applies
  then route_reason name [requires_auth; no_auth_context]
         (route_warn ("Auth context missing for '" +:+ name +:+ "'.") r)
  else r.

Definition note_degraded (name : string) (applies : bool) (r : Route) : Route :=
  if applies
  then route_warn ("MCP '" +:+ name +:+ "' is degraded but still allowed by policy.")
         (route_decide name dk_modify (route_reason name [status_degraded] r))
  else r.

(** The part of the loop body after the runtime record was found fresh enough:
    status, authentication and degradation. *)
Definition enforce_status (entry : McpRegistryEntry) (runtimeRecord : McpRuntimeRecord)
    (options : McpRoutingDecisionOptions) (r : Route) : M W Route :=
  let name := mcp_id entry in
  let q := "'" +:+ name +:+ "'" in
  if bool_decide (rt_status runtimeRecord = mcp_unavailable)
  then block_and_fall_back entry status_unavailable
         (λ f, "Fallback applied: " +:+ q +:+ " unavailable -> '" +:+ f +:+ "'.")
         ("No fallback available for unavailable MCP " +:+ q +:+ ".") options r
  else if bool_decide (rt_status runtimeRecord = mcp_needs_auth)
  then block_and_fall_back entry needs_auth
         (λ f, "Fallback applied: " +:+ q +:+ " needs auth -> '" +:+ f +:+ "'.")
         ("MCP " +:+ q +:+ " needs auth and has no fallback.") options r
  else if truthy (mcp_requiresAuth entry) && bool_decide (rt_authReady runtimeRecord = Some false)
  then block_and_fall_back entry requires_auth
         (λ f, "Fallback applied: " +:+ q +:+ " auth not ready -> '" +:+ f +:+ "'.")
         ("MCP " +:+ q +:+ " requires auth and no non-auth fallback is available.") options r
  else
    let r := note_auth_context name
               (truthy (mcp_requiresAuth entry) && bool_decide (rt_authReady runtimeRecord = None)) r in
    if bool_decide (rt_status runtimeRecord = mcp_degraded) && negb (canUseDegraded entry)
    then
      let r := blockMcp name status_degraded r in
      mret match pickFallback entry (r_blocked r) options with
           | Some f =>
             route_warn ("Fallback applied: critical MCP " +:+ q +:+ " degraded -> '" +:+ f +:+ "'.")
               (route_reason f [fallback_applied; status_degraded]
                  (route_decide f dk_modify (route_select f r)))
           | None => route_warn ("Critical MCP " +:+ q +:+ " is degraded and has no fallback.") r
           end
    else
      let r := note_degraded name (bool_decide (rt_status runtimeRecord = mcp_degraded)) r in
      let r := route_decide name (r_decisions r !! name or_else dk_allow) r in
      r ← applyRuntimeStateTouch entry options r;
      mret (route_select name r).

(** The runtime guards: no record, signal missing, stale. *)
Definition enforce_runtime (entry : McpRegistryEntry) (options : McpRoutingDecisionOptions)
    (r : Route) : M W Route :=
  let stale := o_staleRuntimeFailSafe options or_else degrade_or_fallback in
  let missing := o_missingRuntimeFailSafe options or_else degrade_or_fallback in
  let name := mcp_id entry in
  let q := "'" +:+ name +:+ "'" in
  let signal_lost :=
    block_and_fall_back entry missing_runtime_signal
      (λ f, "Fail-safe fallback applied: " +:+ q +:+ " missing runtime signal -> '" +:+ f +:+ "'.")
      ("MCP " +:+ q +:+ " missing runtime signal and no fallback is available.") options r in
  match runtimeRecordFor name (o_runtimeSnapshot options) with
  | None =>
    if bool_decide (missing = allow_with_warning)
    then
      let r := route_warn ("No runtime status for " +:+ q +:+ ", using metadata-only routing.")
                 (route_decide name dk_allow (route_reason name [no_runtime_status] r)) in
      r ← applyRuntimeStateTouch entry options r;
      mret (route_select name r)
    else signal_lost
  | Some runtimeRecord =>
    if truthy (rt_signalMissing runtimeRecord) && bool_decide (missing = degrade_or_fallback)
    then signal_lost
    else if truthy (rt_stale runtimeRecord) && bool_decide (stale = degrade_or_fallback)
    then block_and_fall_back entry status_stale
           (λ f, "Fail-safe fallback applied: " +:+ q +:+ " stale runtime status -> '" +:+ f +:+ "'.")
           ("MCP " +:+ q +:+ " runtime status is stale and no fallback is available.") options r
    else
      let r := note_caution name missing_runtime_signal "runtime signal is missing"
                 (truthy (rt_signalMissing runtimeRecord) && bool_decide (missing = allow_with_warning)) r in
      let r := note_caution name status_stale "runtime status is stale"
                 (truthy (rt_stale runtimeRecord) && bool_decide (stale = allow_with_warning)) r in
      enforce_status entry runtimeRecord options r
  end.

(** The loop body over [planned.selected]. *)
Definition enforce_mcp (envelope : ExecutionEnvelopeState) (options : McpRoutingDecisionOptions)
    (r : Route) (mcpName : string) : M W Route :=
  let requiredCapabilities := o_requiredCapabilities options or_else [] in
  match registry_entry mcpName with
  | None =>
    mret (route_warn ("MCP '" +:+ mcpName +:+ "' is not present in registry metadata.")
            (blockMcp mcpName blocked_by_precondition r))
  | Some entry =>
    let spec := mcp_spec entry in
    if negb (array_includes (o_supportedContractVersions options or_else ["v1"]) (x_contractVersion spec))
    then mret (block_with mcpName contract_version_mismatch
                 ("MCP '" +:+ mcpName +:+ "' contract version '" +:+ x_contractVersion spec +:+
                  "' is not supported.") r)
    else if isEmpty (x_entry spec)
    then mret (block_with mcpName entry_missing
                 ("MCP '" +:+ mcpName +:+ "' is missing required entry metadata.") r)
    else if negb (array_includes (x_lanes spec) (env_lane envelope))
    then mret (block_with mcpName lane_mismatch
                 (lane_role_warning mcpName "lane" (lane_name (env_lane envelope))) r)
    else if negb (array_includes (x_roles spec) (env_role envelope))
    then mret (block_with mcpName role_mismatch
                 (lane_role_warning mcpName "role" (role_name (env_role envelope))) r)
    else if negb (hasAllRequiredCapabilities entry requiredCapabilities)
    then mret (block_with mcpName capability_denied
                 ("MCP '" +:+ mcpName +:+ "' does not satisfy required capabilities: " +:+
                  Prelude.join "," requiredCapabilities +:+ ".") r)
    else enforce_runtime entry options r
  end.

(** The replacement of an empty selection. *)
Definition force_safe_fallback (options : McpRoutingDecisionOptions) (r : Route) : M W Route :=
  match pickGlobalSafeFallback (r_blocked r) options with
  | Some f =>
    let r := route_reason f [fallback_applied] (route_decide f dk_modify (route_select f
      (route_warn ("All selected MCPs were blocked; forcing safe fallback to " +:+ f +:+ ".") r))) in
    match registry_entry f with
    | Some fallbackEntry => applyRuntimeStateTouch fallbackEntry options r
    | None => mret r
    end
  | None => mret (route_warn "All selected MCPs were blocked and no safe fallback is available." r)
  end.

Definition with_selected (selected : list string) (r : Route) : Route :=
  mkRoute selected (r_blocked r) (r_warnings r) (r_decisions r) (r_reasons r) (r_rejected r) (r_states r).

(** The result carries the drift report beside the route. *)
Definition enforceMcpRoutingDetailed (envelope : ExecutionEnvelopeState) (intent : string)
    (options : McpRoutingDecisionOptions) : M W (Route * option ExtensionStateDriftReport) :=
  let planned := chooseMcpsDetailed locale_le envelope intent options in
  let r := mkRoute [] (d_blocked planned) (d_warnings planned) (d_decisions planned)
             (d_reasons planned) (d_rejected planned) [] in
  r ← fold_each (enforce_mcp envelope options) r (d_selected planned);
  let dedupSelected := dedupeExcluding (r_selected r) (r_blocked r) in
  drift ← match state_root options with
          | Some root => report ← xs_drift root (r_states r); mret (Some report)
          | None => mret None
          end;
  let r := match drift with
           | Some report => foldl (λ r m, route_warn m r) r (dr_warnings report)
           | None => r
           end in
  let r := with_selected dedupSelected r in
  r ← match dedupSelected with
      | [] => force_safe_fallback options r
      | _ => mret r
      end;
  mret (r, drift).

Definition enforceMcpRouting (envelope : ExecutionEnvelopeState) (intent : string) : M W (list string) :=
  result ← enforceMcpRoutingDetailed envelope intent (mkOptions None None None (Some ["v1"]) None None None);
  mret (r_selected result.1).
End enforce.

(** ** What an enforced selection guarantees *)

(** The runtime policy of the enforcement: usable status, and a missing signal or
    stale status only where the fail-safe allows it. *)
Definition runtime_usable (options : McpRoutingDecisionOptions) (name : string) : Prop :=
  let record := runtimeRecordFor name (o_runtimeSnapshot options) in
  runtime_tolerated (o_staleRuntimeFailSafe options or_else degrade_or_fallback)
    (o_missingRuntimeFailSafe options or_else degrade_or_fallback) record ∧
  ∀ rec, record = Some rec → rt_status rec ≠ mcp_unavailable ∧ rt_status rec ≠ mcp_needs_auth.

Definition usable (options : McpRoutingDecisionOptions) (name : string) : Prop :=
  ∃ e, e ∈ DEFAULT_MCP_REGISTRY ∧ mcp_id e = name ∧ supported options e ∧ runtime_usable options name.

Lemma registry_entry_Some name e :
  registry_entry name = Some e → e ∈ DEFAULT_MCP_REGISTRY ∧ mcp_id e = name.
Proof. intros He%head_Some_elem_of. by apply list_elem_of_filter in He as [? ?]. Qed.

Lemma registry_entry_of e : e ∈ DEFAULT_MCP_REGISTRY → registry_entry (mcp_id e) = Some e.
Proof.
  intros He. unfold registry_entry. destruct (filter _ _) as [|e' es] eqn:E.
  - exfalso. apply (elem_of_nil e). rewrite <-E. by apply list_elem_of_filter.
  - assert (e' ∈ filter (λ e', mcp_id e' = mcp_id e) DEFAULT_MCP_REGISTRY) as He'
      by (rewrite E; apply list_elem_of_here).
    apply list_elem_of_filter in He' as [Hid He']. simpl. f_equal. by apply registry_id_inj.
Qed.

(** The conditions that [pickFallback] and [pickGlobalSafeFallback] share. *)
Lemma global_usable_sound blocked options e :
  e ∈ DEFAULT_MCP_REGISTRY → global_usable blocked options e = true →
  usable options (mcp_id e) ∧ mcp_id e ∉ blocked.
Proof.
  intros He. unfold global_usable.
  destruct (array_includes blocked _) eqn:Eb; [done|].
  destruct (array_includes (_ or_else ["v1"]) _) eqn:Ev; simpl; [|done].
  destruct (isEmpty _) eqn:Ee; [done|].
  destruct (hasAllRequiredCapabilities _ _) eqn:Ec; simpl; [|done].
  intros Hrt. guards. split; [|done]. exists e. split_and!; [done|done|by split|].
  revert Hrt. unfold runtime_usable, runtime_tolerated.
  destruct (runtimeRecordFor _ _) as [[[] au [[]|] [[]|]]|], 
    (o_staleRuntimeFailSafe options or_else degrade_or_fallback),
    (o_missingRuntimeFailSafe options or_else degrade_or_fallback); simpl; try done;
    intros _; split; (done || (intros rec [= <-]; done)).
Qed.

Lemma fallback_usable_sound blocked options f :
  fallback_usable blocked options f = true → usable options f ∧ f ∉ blocked.
Proof.
  intros Hf. destruct (registry_entry f) as [e|] eqn:He.
  - destruct (registry_entry_Some _ _ He) as [Hreg <-]. apply global_usable_sound; [done|].
    unfold fallback_usable in Hf. unfold global_usable. by rewrite He in Hf.
  - unfold fallback_usable in Hf. rewrite He in Hf. by destruct (array_includes _ _).
Qed.

Lemma pickFallback_sound entry blocked options f :
  pickFallback entry blocked options = Some f → usable options f ∧ f ∉ blocked.
Proof.
  intros Hf%head_Some_elem_of. apply list_elem_of_filter in Hf as [Hf _].
  by apply fallback_usable_sound.
Qed.

(** ** The invariant of the enforcement loop *)

Record route_ok (options : McpRoutingDecisionOptions) (r : Route) : Prop := {
  ro_selected : ∀ x, x ∈ r_selected r → usable options x ∧ is_Some (r_decisions r !! x);
  ro_blocked : ∀ x, x ∈ r_blocked r ↔ r_decisions r !! x = Some dk_block;
  ro_rejected : ∀ x, x ∈ r_blocked r → is_Some (r_rejected r !! x);
}.

(** What one turn for [name] does to the blocked MCPs. *)
Definition blocks_only (name : string) (r r' : Route) : Prop :=
  ∀ x, x ∈ r_blocked r' → x ∈ r_blocked r ∨ x = name.

Lemma route_ok_warn options m r : route_ok options (route_warn m r) ↔ route_ok options r.
Proof. split; intros [? ? ?]; by split. Qed.

Lemma route_ok_reason options n cs r : route_ok options (route_reason n cs r) ↔ route_ok options r.
Proof. split; intros [? ? ?]; by split. Qed.

Lemma route_ok_unreason options n r : route_ok options (route_unreason n r) ↔ route_ok options r.
Proof. split; intros [? ? ?]; by split. Qed.

Lemma route_ok_block options n c r : route_ok options r → route_ok options (blockMcp n c r).
Proof.
  intros [Hs Hb Hr]. assert (∀ x, x ∈ r_blocked (blockMcp n c r) ↔ x ∈ r_blocked r ∨ x = n) as Hbl.
  { intros x. unfold blockMcp. simpl. case_match; guards; [|rewrite elem_of_app]; set_solver. }
  split.
  - intros x Hx%Hs. destruct Hx as [Hu Hd]. split; [done|]. simpl. rewrite lookup_insert_is_Some'. auto.
  - intros x. rewrite Hbl. simpl. rewrite Hb, lookup_insert_Some.
    destruct (decide (n = x)) as [->|]; naive_solver.
  - intros x Hx%Hbl. simpl. rewrite lookup_insert_is_Some'. destruct Hx as [Hx| ->]; auto.
Qed.

Lemma route_ok_decide options n k r :
  n ∉ r_blocked r → k ≠ dk_block → route_ok options r → route_ok options (route_decide n k r).
Proof.
  intros Hn Hk [Hs Hb Hr]. split; [|intros x|done]; simpl.
  - intros x Hx%Hs. destruct Hx as [Hu Hd]. split; [done|]. rewrite lookup_insert_is_Some'. auto.
  - destruct (decide (n = x)) as [->|Hne]; [rewrite lookup_insert_eq|by rewrite lookup_insert_ne].
    split; [done|congruence].
Qed.

Lemma route_ok_select options n r :
  usable options n → is_Some (r_decisions r !! n) → route_ok options r →
  route_ok options (route_select n r).
Proof.
  intros Hu Hd [Hs Hb Hr]. split; [|done..]. simpl. intros x. rewrite elem_of_app, list_elem_of_singleton.
  intros [Hx| ->]; auto.
Qed.

(** A fallback that was picked enters the selection. *)
Lemma route_ok_fall_back options f cs m r :
  usable options f → f ∉ r_blocked r → route_ok options r →
  route_ok options (route_warn m (route_reason f cs (route_decide f dk_modify (route_select f r)))).
Proof.
  intros Hu Hf Hok. rewrite route_ok_warn, route_ok_reason.
  assert (route_ok options (route_select f (route_decide f dk_modify r))) as [Hs Hb Hr]; [|by split].
  apply route_ok_select; [done| |by apply route_ok_decide]. simpl. by rewrite lookup_insert_eq.
Qed.

Lemma block_blocks n c r : blocks_only n r (blockMcp n c r) ∧ n ∈ r_blocked (blockMcp n c r).
Proof.
  unfold blocks_only, blockMcp. simpl. case_match; guards; [auto|].
  split; [intros x|]; rewrite elem_of_app; set_solver.
Qed.

Section enforced.
Context {W : Type} `{HX : ExtensionStates W} {HT : ExtensionStatesTotal W}.
Variables (envelope : ExecutionEnvelopeState) (options : McpRoutingDecisionOptions).

(** An entry that passed the guards before its status, with its record. *)
Record fresh_entry (e : McpRegistryEntry) (rec : McpRuntimeRecord) : Prop := {
  fe_registry : e ∈ DEFAULT_MCP_REGISTRY;
  fe_supported : supported options e;
  fe_record : runtimeRecordFor (mcp_id e) (o_runtimeSnapshot options) = Some rec;
  fe_tolerated : runtime_tolerated (o_staleRuntimeFailSafe options or_else degrade_or_fallback)
                   (o_missingRuntimeFailSafe options or_else degrade_or_fallback) (Some rec);
}.

(** The step of the loop for [name] from [r], as a postcondition. *)
Definition turn_ok (name : string) (r r' : Route) : Prop := route_ok options r' ∧ blocks_only name r r'.

Lemma touch_keeps entry r :
  yields (W := W) (applyRuntimeStateTouch entry options r) (λ r',
    r_selected r' = r_selected r ∧ r_blocked r' = r_blocked r ∧ r_decisions r' = r_decisions r ∧
    r_rejected r' = r_rejected r).
Proof using HT.
  unfold applyRuntimeStateTouch. destruct (state_root options) as [root|]; [|by apply yields_ret].
  destruct (runtime_state _ _); [by apply yields_ret|].
  eapply yields_bind with (P := λ _, True).
  - intros w. destruct (xs_touch_total root (mcp_spec entry) w) as (t & w' & Hrun). eauto.
  - intros t _. apply yields_ret. by destruct (to_warning t); [case_match|].
Qed.

Lemma touch_ok name entry r0 r :
  turn_ok name r0 r →
  yields (W := W) (applyRuntimeStateTouch entry options r)
    (λ r', turn_ok name r0 r' ∧ r_decisions r' = r_decisions r).
Proof using HT.
  intros [[Hs Hb Hr] Hbl]. eapply yields_mono; [apply touch_keeps|].
  intros r' (E1 & E2 & E3 & E4). unfold turn_ok, blocks_only. rewrite E2. split; [|done]. split; [|done].
  split; rewrite ?E1, ?E2, ?E3, ?E4; auto.
Qed.

Lemma fall_back_turn entry code applied none r :
  route_ok options r →
  yields (W := W) (block_and_fall_back entry code applied none options r) (turn_ok (mcp_id entry) r).
Proof using HT.
  intros Hok. unfold block_and_fall_back. set (r1 := route_unreason _ _).
  assert (turn_ok (mcp_id entry) r r1) as [Hok1 Hbl1].
  { split; [by apply route_ok_unreason, route_ok_block|apply block_blocks]. }
  destruct (pickFallback entry (r_blocked r1) options) as [f|] eqn:Hf.
  - apply pickFallback_sound in Hf as [Hu Hn].
    set (r2 := route_warn _ _). assert (turn_ok (mcp_id entry) r r2) as Ht2.
    { split; [by apply route_ok_fall_back|done]. }
    destruct (registry_entry f); [|by apply yields_ret].
    eapply yields_mono; [by apply touch_ok|]. by intros r' [? _].
  - apply yields_ret. split; [by apply route_ok_warn|done].
Qed.

(** An MCP that passed every guard is decided, touched and selected. *)
Lemma select_turn entry r0 r :
  usable options (mcp_id entry) → is_Some (r_decisions r !! mcp_id entry) →
  turn_ok (mcp_id entry) r0 r →
  yields (W := W) (r' ← applyRuntimeStateTouch entry options r; mret (route_select (mcp_id entry) r'))
    (turn_ok (mcp_id entry) r0).
Proof using HT.
  intros Hu Hd Ht.
  eapply yields_bind; [by apply touch_ok|]. intros r' [[Hok Hbl] E]. apply yields_ret.
  split; [|done]. apply route_ok_select; [done|by rewrite E|done].
Qed.

(** The allowing end of the loop body. *)
Lemma allow_turn entry k r :
  usable options (mcp_id entry) → mcp_id entry ∉ r_blocked r → k ≠ dk_block → route_ok options r →
  yields (W := W) (r' ← applyRuntimeStateTouch entry options (route_decide (mcp_id entry) k r);
                   mret (route_select (mcp_id entry) r'))
    (turn_ok (mcp_id entry) r).
Proof using HT.
  intros Hu Hn Hk Hok. apply select_turn; [done|simpl; by rewrite lookup_insert_eq|].
  split; [by apply route_ok_decide|]. intros x Hx. by left.
Qed.

Lemma fresh_usable e rec :
  fresh_entry e rec → rt_status rec ≠ mcp_unavailable → rt_status rec ≠ mcp_needs_auth →
  usable options (mcp_id e).
Proof using Type.
  intros [Hr Hs Hrec Ht] H1 H2. exists e. split_and!; [done..|]. unfold runtime_usable. rewrite Hrec.
  split; [done|]. by intros ? [= <-].
Qed.

(** A step that leaves the blocked MCPs alone can be put before a turn. *)
Lemma turn_ok_from name r r1 r' : r_blocked r1 = r_blocked r → turn_ok name r1 r' → turn_ok name r r'.
Proof using Type. unfold turn_ok, blocks_only. by intros ->. Qed.

Lemma status_turn entry rec r :
  fresh_entry entry rec → mcp_id entry ∉ r_blocked r → route_ok options r →
  yields (W := W) (enforce_status entry rec options r) (turn_ok (mcp_id entry) r).
Proof using HT.
  intros He Hn Hok. unfold enforce_status.
  case_bool_decide as Hs1; [by apply fall_back_turn|].
  case_bool_decide as Hs2; [by apply fall_back_turn|].
  case_match; [by apply fall_back_turn|].
  set (r1 := note_auth_context _ _ r).
  assert (route_ok options r1 ∧ r_blocked r1 = r_blocked r) as (Hok1 & Hb1).
  { unfold r1, note_auth_context. case_match; [|done]. split; [by apply route_ok_reason, route_ok_warn|done]. }
  eapply yields_mono; [|intros r'; by apply turn_ok_from].
  rewrite <-Hb1 in Hn. clearbody r1. destruct (bool_decide _ && negb _).
  - apply yields_ret. destruct (block_blocks (mcp_id entry) status_degraded r1) as [Hbl Hin].
    apply (route_ok_block _ (mcp_id entry) status_degraded) in Hok1.
    destruct (pickFallback _ _ _) as [f|] eqn:Hf; split; try exact Hbl.
    + apply pickFallback_sound in Hf as [Hu Hf]. by apply route_ok_fall_back.
    + by apply route_ok_warn.
  - set (r2 := note_degraded _ _ r1).
    assert (route_ok options r2 ∧ r_blocked r2 = r_blocked r1) as (Hok2 & Hb2).
    { unfold r2, note_degraded. case_match; [|done].
      split; [by apply route_ok_warn, route_ok_decide, route_ok_reason|done]. }
    eapply yields_mono; [|intros r'; by apply turn_ok_from].
    rewrite <-Hb2 in Hn. clearbody r2. apply allow_turn; [by eapply fresh_usable|done| |done].
    intros Hk. apply Hn, (ro_blocked _ _ Hok2).
    destruct (r_decisions r2 !! mcp_id entry); cbn in Hk; congruence.
Qed.

Lemma caution_ok name code what applies r :
  route_ok options r →
  route_ok options (note_caution name code what applies r) ∧
  r_blocked (note_caution name code what applies r) = r_blocked r.
Proof using Type.
  intros Hok. unfold note_caution. case_match; [|done].
  split; [by apply route_ok_warn, route_ok_reason|done].
Qed.

Lemma runtime_turn entry r :
  entry ∈ DEFAULT_MCP_REGISTRY → supported options entry → mcp_id entry ∉ r_blocked r →
  route_ok options r →
  yields (W := W) (enforce_runtime entry options r) (turn_ok (mcp_id entry) r).
Proof using HT.
  intros Hreg Hsup Hn Hok. unfold enforce_runtime.
  destruct (runtimeRecordFor _ _) as [rec|] eqn:Hrec.
  - destruct (truthy (rt_signalMissing rec) && _) eqn:Hm; [by apply fall_back_turn|].
    destruct (truthy (rt_stale rec) && _) eqn:Hs; [by apply fall_back_turn|].
    match goal with |- context [note_caution ?n status_stale ?m ?b (note_caution ?n' ?c ?m' ?b' r)] =>
      destruct (caution_ok n' c m' b' r Hok) as [Hok1 Hb1];
      destruct (caution_ok n status_stale m b _ Hok1) as [Hok2 Hb2]
    end.
    eapply yields_mono; [apply status_turn|intros r'; apply turn_ok_from; by rewrite Hb2, Hb1].
    + split; [done..|]. split; intros Ht; rewrite Ht in *; apply dec_stable;
        intros Hne%fail_safe_cases; rewrite Hne in *; discriminate.
    + by rewrite Hb2, Hb1.
    + done.
  - case_bool_decide as Hal; [|by apply fall_back_turn].
    set (r1 := route_warn _ _).
    assert (route_ok options r1 ∧ is_Some (r_decisions r1 !! mcp_id entry)) as [Hok1 Hd].
    { split; [by apply route_ok_warn, route_ok_decide, route_ok_reason|]. simpl. by rewrite lookup_insert_eq. }
    apply select_turn; [|done|split; [done|intros x Hx; by left]].
    exists entry. split_and!; [done..|]. unfold runtime_usable. by rewrite Hrec.
Qed.

Lemma enforce_turn r name :
  name ∉ r_blocked r → route_ok options r →
  yields (W := W) (enforce_mcp envelope options r name) (turn_ok name r).
Proof using HT.
  intros Hn Hok. unfold enforce_mcp.
  assert (∀ c m, turn_ok name r (block_with name c m r)) as Hblock.
  { intros c m. split; [by apply route_ok_warn, route_ok_unreason, route_ok_block|apply block_blocks]. }
  destruct (registry_entry name) as [e|] eqn:He.
  2: { apply yields_ret. split; [by apply route_ok_warn, route_ok_block|apply block_blocks]. }
  apply registry_entry_Some in He as [Hreg <-].
  case_match; [by apply yields_ret|]. case_match; [by apply yields_ret|].
  case_match; [by apply yields_ret|]. case_match; [by apply yields_ret|].
  case_match; [by apply yields_ret|]. guards. by apply runtime_turn.
Qed.

Lemma enforce_loop names r :
  NoDup names → (∀ x, x ∈ names → x ∉ r_blocked r) → route_ok options r →
  yields (W := W) (fold_each (enforce_mcp envelope options) r names) (route_ok options).
Proof using HT.
  revert r. induction names as [|name names IH]; intros r Hnd Hfree Hok; simpl; [by apply yields_ret|].
  apply NoDup_cons in Hnd as [Hname Hnd].
  eapply yields_bind; [apply enforce_turn; [apply Hfree, list_elem_of_here|done]|].
  intros r' [Hok' Hbl]. apply IH; [done| |done].
  intros x Hx [Hb| ->]%Hbl; [|done]. revert Hb. apply Hfree. by apply list_elem_of_further.
Qed.
End enforced.

(** ** The result of enforcement *)

Lemma dedupe_loop_spec blocked seen values :
  NoDup (dedupe_loop blocked seen values) ∧
  ∀ x, x ∈ dedupe_loop blocked seen values ↔ (x ∈ values ∧ (x ∉ blocked) ∧ x ∉ seen).
Proof.
  revert seen. induction values as [|v vs IH]; intros seen; simpl.
  - split; [constructor|set_solver].
  - destruct (array_includes blocked v || array_includes seen v) eqn:E.
    + destruct (IH seen) as [Hn He]. split; [done|]. intros x. rewrite He, elem_of_cons.
      split; [tauto|]. intros [[->|?] ?]; [|tauto]. guards. destruct E; guards; tauto.
    + destruct (IH (v :: seen)) as [Hn He]. guards. split.
      * constructor; [|done]. rewrite He. set_solver.
      * intros x. rewrite !elem_of_cons, He, elem_of_cons. destruct (decide (x = v)) as [->|]; tauto.
Qed.

Section result.
Context {W : Type} `{HX : ExtensionStates W} {HT : ExtensionStatesTotal W}.
Variable locale_le : string → string → bool.

(** What holds of the route that enforcement returns. *)
Definition enforced_ok (options : McpRoutingDecisionOptions) (r : Route) : Prop :=
  NoDup (r_selected r) ∧ route_ok options r ∧ (∀ x, x ∈ r_selected r → x ∉ r_blocked r).

Lemma global_fallback_sound blocked options f :
  pickGlobalSafeFallback locale_le blocked options = Some f → usable options f ∧ f ∉ blocked.
Proof using Type.
  unfold pickGlobalSafeFallback. intros (e & He%head_Some_elem_of & ->)%fmap_Some.
  apply list_elem_of_filter in He as [Hg He%elem_of_js_sort]. by apply global_usable_sound.
Qed.

Lemma force_fallback_ok options r :
  route_ok options r → r_selected r = [] →
  yields (W := W) (force_safe_fallback locale_le options r) (enforced_ok options).
Proof using HT.
  intros Hok Hnil. unfold force_safe_fallback.
  destruct (pickGlobalSafeFallback _ _ _) as [f|] eqn:Hf.
  - apply global_fallback_sound in Hf as [Hu Hn]. set (r1 := route_reason _ _ _).
    assert (route_ok options r1) as Hok1.
    { apply route_ok_reason.
      assert (route_ok options (route_select f (route_decide f dk_modify r))) as [? ? ?]; [|by split].
      apply route_ok_select; [done| |by apply route_ok_decide]. simpl. by rewrite lookup_insert_eq. }
    assert (r_selected r1 = [f] ∧ r_blocked r1 = r_blocked r) as [Hs1 Hb1].
    { simpl. by rewrite Hnil. }
    assert (∀ r', r_selected r' = [f] → r_blocked r' = r_blocked r → route_ok options r' →
      enforced_ok options r') as Hend.
    { intros r' Hs Hb Hok'. split_and!; [rewrite Hs; apply NoDup_singleton|done|].
      intros x. rewrite Hs, Hb, list_elem_of_singleton. by intros ->. }
    destruct (registry_entry f) as [e|]; [|by apply yields_ret, Hend].
    eapply yields_mono; [apply touch_keeps|]. intros r' (E1 & E2 & E3 & E4).
    apply Hend; [by rewrite E1|by rewrite E2|]. destruct Hok1 as [? ? ?].
    split; rewrite ?E1, ?E2, ?E3, ?E4; auto.
  - apply yields_ret. split_and!; [simpl; rewrite Hnil; apply NoDup_nil_2|by apply route_ok_warn|].
    intros x Hx. cbn in Hx. rewrite Hnil in Hx. by apply elem_of_nil in Hx.
Qed.

Lemma enforce_ok envelope intent options :
  yields (W := W) (enforceMcpRoutingDetailed locale_le envelope intent options)
    (λ result, enforced_ok options result.1).
Proof using HT.
  unfold enforceMcpRoutingDetailed.
  destruct (planned_unblocked locale_le envelope intent options) as (Hnd & Hbl & Hdec).
  set (d := chooseMcpsDetailed _ _ _ _) in *. clearbody d.
  eapply yields_bind; [apply enforce_loop; [done| |]|].
  - cbn. rewrite Hbl. intros x _. apply not_elem_of_nil.
  - split; cbn; [by intros x ?%elem_of_nil| |by rewrite Hbl; intros x ?%elem_of_nil].
    intros x. rewrite Hbl. split; [by intros ?%elem_of_nil|by intros ?%Hdec].
  - intros r Hok. eapply yields_bind with (P := λ _, True).
    { destruct (state_root options) as [root|]; [|by apply yields_ret].
      eapply yields_bind with (P := λ _, True); [|intros; by apply yields_ret].
      intros w. destruct (xs_drift_total root (r_states r) w) as (t & w' & Hrun). eauto. }
    intros drift _. set (r1 := match drift with Some _ => _ | None => _ end).
    assert (route_ok options r1 ∧ r_blocked r1 = r_blocked r ∧ r_selected r1 = r_selected r) as (Hok1 & Hb1 & Hs1).
    { subst r1. destruct drift as [report|]; [|done]. clear -Hok. revert r Hok.
      induction (dr_warnings report) as [|m ms IH]; intros r Hok; [done|]. simpl.
      destruct (IH (route_warn m r)) as (? & -> & ->); [by apply route_ok_warn|done]. }
    clearbody r1. destruct (dedupe_loop_spec (r_blocked r) [] (r_selected r)) as [Hn Hin].
    fold (dedupeExcluding (r_selected r) (r_blocked r)) in Hn, Hin.
    set (sel := dedupeExcluding (r_selected r) (r_blocked r)) in *. clearbody sel.
    assert (route_ok options (with_selected sel r1)) as Hok2.
    { destruct Hok1 as [Hs Hb Hr]. split; [|done..]. cbn. intros x [Hx _]%Hin. apply Hs. by rewrite Hs1. }
    eapply yields_bind with (P := enforced_ok options); [|intros r' Hr'; by apply yields_ret].
    destruct sel as [|x xs] eqn:Esel; [by apply force_fallback_ok|].
    apply yields_ret. split_and!; [done|done|]. cbn. intros y (_ & Hy & _)%Hin. by rewrite Hb1.
Qed.

(** C11 Routing never hands out an MCP it refused: whatever the snapshot and the
    options, enforcement returns, its selection has no duplicates, contains no
    blocked MCP, and every selected MCP is a registry entry with a supported
    contract, an entry point and the required capabilities whose runtime record
    the fail-safes accept and is neither unavailable nor waiting for
    authentication, with a recorded decision other than block; and the blocked
    MCPs are exactly those decided so, each with its reasons. *)
Theorem enforced_selection_safe envelope intent options w :
  ∃ r drift w', enforceMcpRoutingDetailed (W := W) locale_le envelope intent options w = (Ret (r, drift), w') ∧
    NoDup (r_selected r) ∧
    (∀ x, x ∈ r_selected r → (x ∉ r_blocked r) ∧ usable options x ∧
       (r_decisions r !! x = Some dk_allow ∨ r_decisions r !! x = Some dk_modify)) ∧
    (∀ x, x ∈ r_blocked r ↔ r_decisions r !! x = Some dk_block) ∧
    (∀ x, x ∈ r_blocked r → is_Some (r_rejected r !! x)).
Proof using HT.
  destruct (enforce_ok envelope intent options w) as ([r drift] & w' & Hrun & Hnd & [Hs Hb Hr] & Hx).
  exists r, drift, w'. split_and!; [done..| |done|done]. intros x Hin. destruct (Hs x Hin) as [Hu [k Hk]].
  split_and!; [by apply Hx|done|]. destruct k; [by left| |by right].
  destruct (Hx x Hin). by apply Hb.
Qed.

(** Without a runtime snapshot and with the default fail-safe, enforcement
    selects no MCP at all: every planned MCP lacks a runtime signal, and so does
    every fallback.  This is how the delivery and migration workflows call it. *)
Theorem no_snapshot_selects_nothing envelope intent options w :
  o_runtimeSnapshot options = None → o_missingRuntimeFailSafe options = None →
  ∃ r drift w', enforceMcpRoutingDetailed (W := W) locale_le envelope intent options w = (Ret (r, drift), w') ∧
    r_selected r = [].
Proof using HT.
  intros Hsnap Hfs.
  destruct (enforce_ok envelope intent options w) as ([r drift] & w' & Hrun & _ & [Hs _ _] & _).
  exists r, drift, w'. split; [done|]. apply empty_of_no_elem. intros x Hx.
  destruct (Hs x Hx) as [(e & _ & _ & _ & Ht & _) _]. by rewrite Hsnap, Hfs in Ht.
Qed.
End result.

(** ** The extension state store implements the interface *)

Section implementation.
Context `{Env}.
Variables (double_succ : string → string) (locale_le : string → string → bool).
Variable sha256 : string → string.

(** The world holds the state file of the one root that a run works in. *)
#[local] Instance store_states : ExtensionStates ExtWorld := {|
  xs_touch _ spec := touchExtensionState double_succ locale_le sha256 spec;
  xs_drift _ states := buildExtensionStateDriftReport locale_le states;
|}.

Lemma store_states_total : ExtensionStatesTotal ExtWorld.
Proof.
  split; intros root x w.
  - cbn. unfold touchExtensionState, read, write, upsertRecord, nowIso_x. run_M.
    destruct (match xw_file w with NoFile => _ | _ => _ end) as [reason|store]; [eauto|].
    destruct (negb _); [eauto|]. simpl. destruct (xw_writeError w); eauto.
  - cbn. unfold buildExtensionStateDriftReport, read, nowIso_x. run_M. eauto.
Qed.
End implementation.

(** ** Examples *)

Definition record_of (status : McpRoutingStatus) : McpRuntimeRecord := mkRuntime status (Some true) None None.

Definition snapshot_options (snapshot : list (string * McpRuntimeRecord)) (limit : option Z) :
    McpRoutingDecisionOptions :=
  mkOptions (Some (list_to_map snapshot)) limit None None None None None.

Definition browser_envelope (role : AgentRole) : ExecutionEnvelopeState :=
  mkEnvelope "env-1" "session-1" delivery role "agent" delivery_verify None
    (mkModel "openai" "gpt" "default") [] [] [] always "2026".

(** A run against the state store on a concrete snapshot. *)
Definition route_of (envelope : ExecutionEnvelopeState) (intent : string)
    (options : McpRoutingDecisionOptions) : list string :=
  match enforceMcpRoutingDetailed (H := store_states (λ l, l) String.leb (λ s, "#" +:+ s))
          String.leb envelope intent options (mkExt NoFile None 0) with
  | (Ret (r, _), _) => r_selected r
  | (Throw _, _) => []
  end.

(** Fallbacks are not checked against the lane and the role: a tester is routed
    to an MCP whose registry entry does not list the role. *)
Example fallback_ignores_role :
  route_of (browser_envelope role_tester) "browser"
    (snapshot_options [("chrome-devtools", record_of mcp_unavailable);
                       ("playwright", record_of mcp_unavailable);
                       ("augment_context_engine", record_of mcp_available)] None)
    = ["augment_context_engine"] ∧
  (∀ e, registry_entry "augment_context_engine" = Some e → role_tester ∉ x_roles (mcp_spec e)).
Proof. split; [vm_compute; reflexivity|]. intros e [= <-]. by_decision. Qed.

(** Nor against authentication: the fallback of an MCP whose authentication is
    not ready may itself need authentication that is not ready. *)
Example fallback_ignores_auth :
  route_of (browser_envelope role_tester) "browser"
    (snapshot_options [("chrome-devtools", mkRuntime mcp_available (Some false) None None);
                       ("playwright", mkRuntime mcp_available (Some false) None None)] (Some 1%Z))
    = ["playwright"].
Proof. vm_compute. reflexivity. Qed.

(** ** Witnesses *)

Lemma enforced_selection_safe_witness :
  let HX := store_states (λ l, l) String.leb (λ s, "#" +:+ s) in
  ∃ r drift w', enforceMcpRoutingDetailed (H := HX) String.leb (browser_envelope role_tester) "browser"
      (snapshot_options [("playwright", record_of mcp_available)] None) (mkExt NoFile None 0) =
      (Ret (r, drift), w') ∧
    ∀ x, x ∈ r_selected r →
      usable (snapshot_options [("playwright", record_of mcp_available)] None) x.
Proof.
  intros HX.
  destruct (enforced_selection_safe (HX := HX)
    (HT := store_states_total (λ l, l) String.leb (λ s, "#" +:+ s)) String.leb
    (browser_envelope role_tester) "browser"
    (snapshot_options [("playwright", record_of mcp_available)] None) (mkExt NoFile None 0))
    as (r & drift & w' & Hrun & _ & Hsel & _).
  exists r, drift, w'. split; [exact Hrun|]. intros x Hx. apply (Hsel x Hx).
Defined.

Lemma no_snapshot_selects_nothing_witness :
  let HX := store_states (λ l, l) String.leb (λ s, "#" +:+ s) in
  ∃ r drift w', enforceMcpRoutingDetailed (H := HX) String.leb (browser_envelope role_architect) "codebase"
      (mkOptions None None None None (Some "/repo") None None) (mkExt NoFile None 0) =
      (Ret (r, drift), w') ∧ r_selected r = [].
Proof.
  intros HX.
  apply (no_snapshot_selects_nothing (HX := HX)
    (HT := store_states_total (λ l, l) String.leb (λ s, "#" +:+ s)) String.leb
    (browser_envelope role_architect) "codebase"
    (mkOptions None None None None (Some "/repo") None None) (mkExt NoFile None 0)); reflexivity.
Defined.
