(* ===== verification/Bootstrap.v ===== *)
(** * Session bootstrap

    [packages/runtime/src/session/session-manager.ts], [session-bootstrap-log.ts];
    [packages/providers/src/resolution]; [recordHookDecision] of
    [packages/runtime/src/workflow/workflow-audit-service.ts].

    The providers and models that are configured come from configuration files
    and a remote catalog: they are the class [ProviderListings]. *)

From S2P Require Import Prelude Json Domain Store Repos Stages SessionAdmin Bridge Planner Extensions.
From Stdlib Require Import Ascii String.
From stdpp Require Import prelude list strings gmap.
Set Default Proof Using "Type".
Set Warnings "-clear-no-such-hyp".

(** ** Resolving the model of an agent *)

Definition DEFAULT_AGENT_REGISTRY : list AgentRegistryEntry := [
  mkAgent "build" "Build" role_implementer [delivery; migration] false (Some "openai") (Some "gpt-5-codex") (Some "default");
  mkAgent "plan" "Plan" role_architect [quick; delivery; migration] false (Some "openai") (Some "gpt-5") (Some "high-reasoning");
  mkAgent "general" "General" role_quick [quick] false (Some "openai") (Some "gpt-5") (Some "default");
  mkAgent "quick" "Quick" role_quick [quick] false (Some "openai") (Some "gpt-5") (Some "default");
  mkAgent "quick-agent" "Quick Agent" role_quick [quick] true (Some "openai") (Some "gpt-5") (Some "default");
  mkAgent "coordinator" "Coordinator" role_coordinator [delivery; migration] true (Some "openai") (Some "gpt-5") (Some "default");
  mkAgent "analyst" "Analyst" role_analyst [delivery; migration] true (Some "anthropic") (Some "claude-opus-4-5") (Some "high-reasoning");
  mkAgent "architect" "Architect" role_architect [delivery; migration] true (Some "anthropic") (Some "claude-opus-4-5") (Some "high-reasoning");
  mkAgent "implementer" "Implementer" role_implementer [delivery; migration] true (Some "openai") (Some "gpt-5-codex") (Some "default");
  mkAgent "reviewer" "Reviewer" role_reviewer [delivery; migration] true (Some "openai") (Some "gpt-5") (Some "tool-use-optimized");
  mkAgent "tester" "Tester" role_tester [delivery; migration] true (Some "openai") (Some "gpt-5") (Some "default")
].

(** Ids with their availability: [listProvidersAsync] and, for a provider,
    [listModelsAsync]. *)
Class ProviderListings : Type := {
  listProvidersAsync : list (string * bool);
  listModelsAsync : string → list (string * bool);
}.

(** Every model is offered in the same variants; an entry carries no
    [available] member, which counts as available. *)
Definition listVariantsAsync (provider model : string) : list string :=
  ["default"; "high-reasoning"; "tool-use-optimized"].

Record AgentModelAssignment : Type := mkAssignment {
  as_agentId : string;
  as_model : ResolvedModelSelection;
  as_updatedAt : string;
}.

(** [assignments.find(...)] over the rows of the table. *)
Definition findByAgentId (agentId : string) (assignments : list AgentModelAssignment) :
    option AgentModelAssignment :=
  head (filter (λ a, as_agentId a = agentId) assignments).

Section resolve.
Context `{ProviderListings}.
Context {W : Type}.

(** [xs.find((entry) => entry.id === id && entry.available)]. *)
Definition offered (id : string) (listing : list (string * bool)) : bool :=
  existsb (λ x, String.eqb x.1 id && x.2) listing.

Definition validateResolvedModel (agentId : string) (m : ResolvedModelSelection) : M W () :=
  if negb (offered (providerId m) listProvidersAsync)
  then throw ("Provider '" +:+ providerId m +:+ "' is not enabled for agent '" +:+ agentId +:+ "'.")
  else if negb (offered (modelId m) (listModelsAsync (providerId m)))
  then throw ("Model '" +:+ modelId m +:+ "' is not available for provider '" +:+ providerId m +:+
              "' and agent '" +:+ agentId +:+ "'.")
  else if negb (array_includes (listVariantsAsync (providerId m) (modelId m)) (variantId m))
  then throw ("Variant '" +:+ variantId m +:+ "' is not available for model '" +:+ modelId m +:+
              "' and agent '" +:+ agentId +:+ "'.")
  else mret ().

(** A default that is left out or empty counts as missing. *)
Definition given (o : option string) : option string :=
  match o with Some s => if isEmpty s then None else Some s | None => None end.

Definition resolveFallbackModel (agentId : string) (fallbackAgent : option AgentRegistryEntry) :
    M W ResolvedModelSelection :=
  let agent := match fallbackAgent with
               | Some a => Some a
               | None => head (filter (λ e, ag_agentId e = agentId) DEFAULT_AGENT_REGISTRY)
               end in
  match agent ≫= given ∘ ag_defaultProvider, agent ≫= given ∘ ag_defaultModel,
        agent ≫= given ∘ ag_defaultVariant with
  | Some provider, Some model, Some variant =>
    if negb (offered provider listProvidersAsync)
    then throw ("Default provider '" +:+ provider +:+ "' is not enabled for agent '" +:+ agentId +:+ "'.")
    else if negb (offered model (listModelsAsync provider))
    then throw ("Default model '" +:+ model +:+ "' is not available for agent '" +:+ agentId +:+ "'.")
    else if negb (array_includes (listVariantsAsync provider model) variant)
    then throw ("Default variant '" +:+ variant +:+ "' is not available for agent '" +:+ agentId +:+ "'.")
    else mret (mkModel provider model variant)
  | _, _, _ => throw ("No default model fallback is configured for agent '" +:+ agentId +:+ "'.")
  end.

Definition resolveAgentModel (agentId : string) (assignment : option AgentModelAssignment)
    (fallbackAgent : option AgentRegistryEntry) : M W ResolvedModelSelection :=
  match assignment with
  | Some a => _ ← validateResolvedModel agentId (as_model a); mret (as_model a)
  | None => resolveFallbackModel agentId fallbackAgent
  end.
End resolve.

(** ** The bootstrap log *)

Section bootstrap.
Context `{Env}.

(** The result of [writeHookDecision] is not looked at. *)
Definition recordHookDecision (envelope : ExecutionEnvelopeState) (hookName : string)
    (decision : HookDecision) (reason : string) (payloadIn payloadOut : json) (durationMs : option nat) :
    M World () :=
  id ← createId "hook-log";
  timestamp ← nowIso;
  _ ← writeHookDecision (env_sessionId envelope) (env_id envelope) hookName decision reason
        payloadIn payloadOut durationMs (Some id) (Some timestamp);
  mret ().

Definition semantic_mode_name (m : SemanticMode) : string :=
  match m with always => "always" | auto => "auto" | off => "off" end.

Definition enforcement_name (l : ToolEnforcementLevel) : string :=
  match l with very_hard => "very-hard" end.

Definition model_json (m : ResolvedModelSelection) : json :=
  JObj [("providerId", JStr (providerId m)); ("modelId", JStr (modelId m));
        ("variantId", JStr (variantId m))].

Definition lane_role_json (e : ExecutionEnvelopeState) : json :=
  JObj [("lane", JStr (lane_name (env_lane e))); ("role", JStr (role_name (env_role e)))].

Definition session_state_json (s : SessionState) : json :=
  JObj [("lane", JStr (lane_name (lane s))); ("laneLocked", JBool true);
        ("currentStage", JStr (stage_name (currentStage s)));
        ("semanticMode", JStr (semantic_mode_name (semanticMode s)));
        ("toolEnforcementLevel", JStr (enforcement_name (toolEnforcementLevel s)));
        ("activeWorkItemIds", JArr (JStr <$> activeWorkItemIds s))].

(** [activeMcps.reduce((acc, mcp) => { acc[mcp] = "allow"; ... }, {})]. *)
Definition allow_all (mcps : list string) : json :=
  JObj (foldl (λ acc mcp, set_member mcp (JStr "allow") acc) [] mcps).

Definition mcp_routing_json (e : ExecutionEnvelopeState) : json :=
  JObj [("mcps", JArr (JStr <$> env_activeMcps e)); ("blocked", JArr []); ("warnings", JArr []);
        ("decisions", allow_all (env_activeMcps e)); ("reasons", JObj []); ("rejected", JObj [])].

Definition recordSessionBootstrap (session : SessionState) (envelope : ExecutionEnvelopeState) :
    M World () :=
  _ ← recordHookDecision envelope "session_state" hd_modify
        "Session bootstrap persisted lane, stage, semantic mode, and work-item state."
        (JObj [("sessionId", JStr (sessionId session))]) (session_state_json session) None;
  _ ← recordHookDecision envelope "model_override" hd_modify
        "Resolved model selection was attached to the execution envelope during bootstrap."
        (JObj [("agentId", JStr (env_agentId envelope)); ("role", JStr (role_name (env_role envelope)));
               ("lane", JStr (lane_name (env_lane envelope)))])
        (model_json (env_resolvedModel envelope)) None;
  _ ← recordHookDecision envelope "skill_activation" hd_modify
        "Bootstrap attached active skills to the execution envelope."
        (lane_role_json envelope) (JObj [("skills", JArr (JStr <$> env_activeSkills envelope))]) None;
  recordHookDecision envelope "mcp_routing" hd_modify
    "Bootstrap attached active MCP routing to the execution envelope."
    (lane_role_json envelope) (mcp_routing_json envelope) None.

(** ** [SessionManager.createSession] *)

Definition stamped (id at_ : string) (e : ExecutionEnvelopeState) : ExecutionEnvelopeState :=
  {| env_id := id; env_sessionId := env_sessionId e; env_lane := env_lane e; env_role := env_role e;
     env_agentId := env_agentId e; env_stage := env_stage e; env_workItemId := env_workItemId e;
     env_resolvedModel := env_resolvedModel e; env_activeSkills := env_activeSkills e;
     env_activeMcps := env_activeMcps e; env_requiredTools := env_requiredTools e;
     env_semanticMode := env_semanticMode e; env_createdAt := at_ |}.

Context `{ProviderListings}.
Variable locale_le : string → string → bool.

(** The returned [runtimeAuthority] repeats an option and is left out. *)
Definition createSession (root : string) (assignments : list AgentModelAssignment) (l : WorkflowLane)
    (agent : AgentRegistryEntry) : M World (SessionState * ExecutionEnvelopeState) :=
  session ← createLaneLockedSession root l;
  let assignment := findByAgentId (ag_agentId agent) assignments in
  resolvedModel ← resolveAgentModel (ag_agentId agent) assignment (Some agent);
  built ← buildExecutionEnvelope locale_le session agent resolvedModel;
  id ← createId "env";
  at_ ← nowIso;
  let envelope := stamped id at_ built in
  let workflow := createWorkflowState session in
  _ ← SessionsRepo.save session;
  _ ← WorkflowStateRepo.save (sessionId session) workflow;
  _ ← ExecutionEnvelopesRepo.save envelope;
  _ ← recordSessionBootstrap session envelope;
  _ ← SessionStore.write (mkPersisted session workflow [envelope]);
  _ ← writeWorkflowCompatibilityMirror session workflow envelope;
  mret (session, envelope).
End bootstrap.

(** ** Resolution *)

(** The selection an agent asks for: its assignment, or else its defaults. *)
Definition wanted_model (agent : AgentRegistryEntry) (assignment : option AgentModelAssignment) :
    option ResolvedModelSelection :=
  match assignment with
  | Some a => Some (as_model a)
  | None => match given (ag_defaultProvider agent), given (ag_defaultModel agent),
                  given (ag_defaultVariant agent) with
            | Some p, Some m, Some v => Some (mkModel p m v)
            | _, _, _ => None
            end
  end.

Definition model_offered `{ProviderListings} (m : ResolvedModelSelection) : bool :=
  offered (providerId m) listProvidersAsync && offered (modelId m) (listModelsAsync (providerId m))
  && array_includes (listVariantsAsync (providerId m) (modelId m)) (variantId m).

(** Resolution returns what is asked for if it is offered and throws otherwise;
    it never puts another model in its place. *)
Lemma resolve_exact `{ProviderListings} {W} agentId assignment agent (w : W) :
  match wanted_model agent assignment with
  | Some m => if model_offered m
              then resolveAgentModel agentId assignment (Some agent) w = (Ret m, w)
              else ∃ e, resolveAgentModel agentId assignment (Some agent) w = (Throw e, w)
  | None => ∃ e, resolveAgentModel agentId assignment (Some agent) w = (Throw e, w)
  end.
Proof.
  unfold wanted_model, resolveAgentModel, resolveFallbackModel, validateResolvedModel, model_offered, throw.
  unfold mbind, M_bind, mret, M_ret.
  destruct assignment as [[aid [p m v] t]|].
  - simpl. destruct (offered p _); simpl; [|eauto]. destruct (offered m _); simpl; [|eauto].
    destruct (array_includes _ v); simpl; eauto.
  - simpl. destruct (given (ag_defaultProvider agent)) as [p|]; simpl; [|eauto].
    destruct (given (ag_defaultModel agent)) as [m|]; simpl; [|eauto].
    destruct (given (ag_defaultVariant agent)) as [v|]; simpl; [|eauto].
    destruct (offered p _); simpl; [|eauto]. destruct (offered m _); simpl; [|eauto].
    destruct (array_includes _ v); simpl; eauto.
Qed.

(** ** The bootstrap log *)

Section log.
Context `{EnvLaws}.

(** Two worlds that differ in the hook log, the clock and the draws only. *)
Record only_logged (w w' : World) : Prop := {
  ol_sessions : w_sessions w' = w_sessions w;
  ol_workflow : w_workflow w' = w_workflow w;
  ol_envelopes : w_envelopes w' = w_envelopes w;
  ol_files : w_sessionFiles w' = w_sessionFiles w;
  ol_fk : w_fk w' = w_fk w;
}.

Definition log_ready (w : World) : Prop := draws_fresh hl_id "hook-log" (w_hookLogs w) (w_draws w).

Lemma record_run e hook d reason pin pout dur w :
  log_ready w →
  ∃ row w', recordHookDecision e hook d reason pin pout dur w = (Ret (), w') ∧
    w_hookLogs w' = w_hookLogs w ++ [row] ∧ hl_hookName row = hook ∧ hl_decision row = d ∧
    hl_sessionId row = env_sessionId e ∧ only_logged w w' ∧ log_ready w'.
Proof using Type*.
  intros Hf. eexists _, _. split.
  - unfold recordHookDecision, writeHookDecision, try_catch. repeat (autounfold with dh_ops; simpl).
    rewrite (Hf (w_draws w)) by lia. reflexivity.
  - simpl. split_and!; try done. unfold log_ready. simpl.
    eapply draws_fresh_snoc; [exact Hf|lia|]. eexists. split; [|reflexivity]. lia.
Qed.

Lemma only_logged_trans w1 w2 w3 : only_logged w1 w2 → only_logged w2 w3 → only_logged w1 w3.
Proof. intros [] []. split; congruence. Qed.

Lemma bootstrap_run s e w :
  log_ready w →
  ∃ rows w', recordSessionBootstrap s e w = (Ret (), w') ∧ w_hookLogs w' = w_hookLogs w ++ rows ∧
    hl_hookName <$> rows = ["session_state"; "model_override"; "skill_activation"; "mcp_routing"] ∧
    Forall (λ r, hl_sessionId r = env_sessionId e ∧ hl_decision r = hd_modify) rows ∧ only_logged w w'.
Proof using Type*.
  intros Hf. unfold recordSessionBootstrap.
  edestruct (record_run e "session_state") as (r1 & w1 & H1 & L1 & N1 & D1 & S1 & O1 & F1); [exact Hf|].
  erewrite bind_run by exact H1. cbv beta.
  edestruct (record_run e "model_override") as (r2 & w2 & H2 & L2 & N2 & D2 & S2 & O2 & F2); [exact F1|].
  erewrite bind_run by exact H2. cbv beta.
  edestruct (record_run e "skill_activation") as (r3 & w3 & H3 & L3 & N3 & D3 & S3 & O3 & F3); [exact F2|].
  erewrite bind_run by exact H3. cbv beta.
  edestruct (record_run e "mcp_routing") as (r4 & w4 & H4 & L4 & N4 & D4 & S4 & O4 & F4); [exact F3|].
  exists [r1; r2; r3; r4], w4. split; [exact H4|]. split_and!.
  - by rewrite L4, L3, L2, L1, <-!app_assoc.
  - simpl. congruence.
  - by repeat constructor.
  - eauto using only_logged_trans.
Qed.
End log.

(** ** Properties of session creation *)

Section create_session.
Context `{EnvLaws} `{ProviderListings}.
Variable locale_le : string → string → bool.

(** What is stored of a new session. *)
Record session_stored (s : SessionState) (e : ExecutionEnvelopeState) (w : World) : Prop := {
  st_session : find_row sessionId (sessionId s) (w_sessions w) = Some s;
  st_workflow : find_row fst (sessionId s) (w_workflow w) = Some (sessionId s, createWorkflowState s);
  st_envelope : find_row env_id (env_id e) (w_envelopes w) = Some e;
  st_owner : env_sessionId e = sessionId s;
  st_file : w_sessionFiles w !! sessionId s = Some (mkPersisted s (createWorkflowState s) [e]);
  st_mirror : w_mirror w = Some (mkPersisted s (createWorkflowState s) [e]);
}.

(** The rows saved before the log is written, from the world [w]. *)
Lemma save_rows s e w :
  env_sessionId e = sessionId s →
  ∃ w', (∀ A (k : M World A), (_ ← SessionsRepo.save s;
           _ ← WorkflowStateRepo.save (sessionId s) (createWorkflowState s);
           _ ← ExecutionEnvelopesRepo.save e; k) w = k w') ∧
    w_sessions w' = upsert_row sessionId s (w_sessions w) ∧
    w_workflow w' = upsert_row fst (sessionId s, createWorkflowState s) (w_workflow w) ∧
    w_envelopes w' = upsert_row env_id e (w_envelopes w) ∧
    w_hookLogs w' = w_hookLogs w ∧ w_draws w' = w_draws w ∧ w_fk w' = w_fk w.
Proof using Type.
  intros He. eexists. split.
  - intros A k. exec. rewrite He. exec. reflexivity.
  - by split_and!.
Qed.

(** What creating a session does to the world. *)
Definition created (l : WorkflowLane) (agent : AgentRegistryEntry) (m : ResolvedModelSelection)
    (s : SessionState) (e : ExecutionEnvelopeState) (w w' : World) : Prop :=
  lane s = l ∧ currentStage s = first_stage l ∧ env_stage e = first_stage l ∧
  env_role e = ag_role agent ∧ env_resolvedModel e = m ∧ session_stored s e w' ∧
  (∃ rows, w_hookLogs w' = w_hookLogs w ++ rows ∧
    hl_hookName <$> rows = ["session_state"; "model_override"; "skill_activation"; "mcp_routing"] ∧
    Forall (λ r, hl_sessionId r = sessionId s ∧ hl_decision r = hd_modify) rows) ∧
  ∀ sid, sid ≠ sessionId s →
    find_row sessionId sid (w_sessions w') = find_row sessionId sid (w_sessions w) ∧
    find_row fst sid (w_workflow w') = find_row fst sid (w_workflow w).

Lemma createSession_run root assignments l agent m w :
  log_ready w →
  wanted_model agent (findByAgentId (ag_agentId agent) assignments) = Some m →
  model_offered m = true →
  ∃ s e w', createSession locale_le root assignments l agent w = (Ret (s, e), w') ∧
    w_fk w' = w_fk w ∧ created l agent m s e w w'.
Proof using Type*.
  intros Hlog Hwant Hoff. unfold createSession.
  erewrite bind_run by reflexivity. cbv beta zeta.
  pose proof (λ w0 : World, resolve_exact (ag_agentId agent)
    (findByAgentId (ag_agentId agent) assignments) agent w0) as Hres.
  rewrite Hwant, Hoff in Hres. erewrite bind_run by apply Hres.
  do 3 (erewrite bind_run by reflexivity; cbv beta zeta).
  match goal with |- context [SessionsRepo.save ?s0] => set (s := s0) end.
  match goal with |- context [ExecutionEnvelopesRepo.save ?e0] => set (e := e0) end.
  match goal with |- ∃ s' e' w', ?prog ?w0 = _ ∧ _ => set (w1 := w0) end.
  assert (lane s = l ∧ currentStage s = first_stage l ∧ env_stage e = first_stage l ∧
    env_role e = ag_role agent ∧ env_resolvedModel e = m ∧ env_sessionId e = sessionId s)
    as (F1 & F2 & F3 & F4 & F5 & Hown) by done.
  clearbody e. clearbody s.
  destruct (save_rows s e w1 Hown) as (w2 & Hsave & Hs2 & Hwf2 & He2 & Hl2 & Hd2 & Hfk2).
  rewrite Hsave.
  assert (log_ready w2) as Hlog2.
  { unfold log_ready. rewrite Hl2, Hd2. eapply draws_fresh_weaken; [exact Hlog|simpl; lia]. }
  destruct (bootstrap_run s e w2 Hlog2) as (rows & w3 & Hrun & Hl3 & Hn & Hf & [Os Ow Oe _ Ofk]).
  erewrite bind_run by exact Hrun. cbv beta.
  eexists s, e, _. split; [reflexivity|]. split; [cbn; by rewrite Ofk, Hfk2|].
  split_and!; [done..| | |].
  - split; simpl; rewrite ?Os, ?Ow, ?Oe, ?Hs2, ?Hwf2, ?He2.
    + apply find_upsert_eq.
    + apply (find_upsert_eq fst (sessionId s, createWorkflowState s)).
    + apply find_upsert_eq.
    + done.
    + apply lookup_insert_eq.
    + done.
  - exists rows. simpl. split_and!; [by rewrite Hl3, Hl2|done|by rewrite <-Hown].
  - intros sid Hne. simpl. rewrite Os, Ow, Hs2, Hwf2.
    split; apply find_upsert_ne; simpl; congruence.
Qed.

(** Creating a session stores it everywhere and logs it: when the model that
    the agent asks for is offered, [createSession] returns a session at the
    first stage of its lane and an envelope with that model; the tables, the
    session file and the mirror agree on session, workflow and envelope; the
    four bootstrap decisions are appended to the hook log; and the rows of other
    sessions are unchanged. *)
Theorem createSession_stores root assignments l agent m w :
  log_ready w →
  wanted_model agent (findByAgentId (ag_agentId agent) assignments) = Some m →
  model_offered m = true →
  ∃ s e w', createSession locale_le root assignments l agent w = (Ret (s, e), w') ∧
    created l agent m s e w w'.
Proof using Type*.
  intros Hlog Hwant Hoff.
  destruct (createSession_run root assignments l agent m w Hlog Hwant Hoff) as (s & e & w' & Hrun & _ & Hc).
  by exists s, e, w'.
Qed.

(** A session cannot be deleted once it was created: with foreign keys
    enforced, deleting a session that [createSession] has just stored throws the
    constraint error, since its workflow and envelope rows refer to it, and
    leaves the session in place but without its history. *)
Theorem created_session_undeletable root assignments l agent m w :
  log_ready w → w_fk w = true →
  wanted_model agent (findByAgentId (ag_agentId agent) assignments) = Some m →
  model_offered m = true →
  ∃ s e w' w'', createSession locale_le root assignments l agent w = (Ret (s, e), w') ∧
    deleteSession (sessionId s) w' = (Throw FK_ERROR, w'') ∧
    find_row sessionId (sessionId s) (w_sessions w'') = Some s ∧ no_history (sessionId s) w''.
Proof using Type*.
  intros Hlog Hfk Hwant Hoff.
  destruct (createSession_run root assignments l agent m w Hlog Hwant Hoff)
    as (s & e & w' & Hrun & Hfk' & (_ & _ & _ & _ & _ & [Hs Hwf _ _ _ _] & _)).
  destruct (delete_of_live_session_fails (sessionId s) s w' Hs) as (w'' & Hdel & Hstay & Hno);
    [congruence| |by exists s, e, w', w''].
  unfold pinned. apply find_row_has_key in Hwf. by rewrite Hwf.
Qed.

(** When the model is not offered, nothing is stored. *)
Lemma createSession_refused root assignments l agent w :
  match wanted_model agent (findByAgentId (ag_agentId agent) assignments) with
  | Some m => model_offered m = false
  | None => True
  end →
  ∃ message w', createSession locale_le root assignments l agent w = (Throw message, w') ∧
    only_logged w w' ∧ w_hookLogs w' = w_hookLogs w.
Proof using Type.
  intros Hno. unfold createSession. erewrite bind_run by reflexivity. cbv beta zeta.
  pose proof (λ w0 : World, resolve_exact (ag_agentId agent)
    (findByAgentId (ag_agentId agent) assignments) agent w0) as Hres.
  match goal with |- ∃ message w', mbind ?k ?m ?w0 = _ ∧ _ =>
    specialize (Hres w0); assert (∃ message, m w0 = (Throw message, w0)) as [message Hthrow] end.
  { destruct (wanted_model _ _); [by rewrite Hno in Hres|done]. }
  eexists message, _. split; [unfold mbind at 1, M_bind at 1; rewrite Hthrow; reflexivity|done].
Qed.
End create_session.

(** ** Witnesses *)

#[local] Instance demo_listings : ProviderListings := {|
  listProvidersAsync := [("openai", true)];
  listModelsAsync p := [("gpt-5", true)];
|}.

Definition quick_agent : AgentRegistryEntry :=
  mkAgent "quick" "Quick" role_quick [quick] false (Some "openai") (Some "gpt-5") (Some "default").

Lemma createSession_stores_witness :
  ∃ s e w', createSession String.leb "/repo" [] quick quick_agent empty_world = (Ret (s, e), w') ∧
    created quick quick_agent (mkModel "openai" "gpt-5" "default") s e empty_world w'.
Proof.
  apply (createSession_stores String.leb "/repo" [] quick quick_agent
    (mkModel "openai" "gpt-5" "default") empty_world).
  - intros k _. reflexivity.
  - reflexivity.
  - reflexivity.
Defined.

Lemma created_session_undeletable_witness :
  ∃ s e w' w'', createSession String.leb "/repo" [] quick quick_agent empty_world = (Ret (s, e), w') ∧
    deleteSession (sessionId s) w' = (Throw FK_ERROR, w'') ∧
    find_row sessionId (sessionId s) (w_sessions w'') = Some s ∧ no_history (sessionId s) w''.
Proof.
  apply (created_session_undeletable String.leb "/repo" [] quick quick_agent
    (mkModel "openai" "gpt-5" "default") empty_world).
  - intros k _. reflexivity.
  - reflexivity.
  - reflexivity.
  - reflexivity.
Defined.
