(* ===== verification/Heap.v ===== *)
(** * Doubles and the binary heaps of the vector index

    The numbers of JavaScript are the IEEE 754 doubles, here the executable
    [spec_float] of the Standard Library with 53 bits of precision; and
    [MinHeap] and [MaxHeap] of [packages/retrieval/src/semantic/ann-index.ts],
    arrays in heap order keyed by a distance.

    The two classes differ only in the direction of their comparisons, so their
    loops are written once for an order and instantiated twice.  A loop carries
    fuel: an index that is halved, or a distance to the end of the array.  That
    it is enough follows from the theorems, which state heap order of the
    result. *)

From S2P Require Import Prelude.
From Stdlib Require Import ZArith SpecFloat Sorted.
From stdpp Require Import prelude list.
Set Default Goal Selector "!".
Set Default Proof Using "Type".

(** ** Doubles *)

Definition double : Type := spec_float.
Definition d_add : double → double → double := SFadd 53 1024.
Definition d_sub : double → double → double := SFsub 53 1024.
Definition d_mul : double → double → double := SFmul 53 1024.
Definition d_div : double → double → double := SFdiv 53 1024.
Definition d_sqrt : double → double := SFsqrt 53 1024.
Definition d_leb : double → double → bool := SFleb.
Definition d_ltb : double → double → bool := SFltb.
Definition d_of_Z (n : Z) : double := binary_normalize 53 1024 n 0 false.
Definition d_zero : double := S754_zero false.

Definition not_nan (x : double) : bool := match x with S754_nan => false | _ => true end.

(** Position of a number that is not NaN on the line, as a triple in
    lexicographic order: the kind and sign, the exponent and the mantissa. *)
Definition d_rank (x : double) : Z * (Z * Z) :=
  match x with
  | S754_nan => (0, (0, 0))%Z
  | S754_infinity true => (-2, (0, 0))%Z
  | S754_finite true m e => (-1, (- e, Z.neg m))%Z
  | S754_zero _ => (0, (0, 0))%Z
  | S754_finite false m e => (1, (e, Z.pos m))%Z
  | S754_infinity false => (2, (0, 0))%Z
  end.

Definition lex_lt (a b : Z * (Z * Z)) : Prop :=
  (a.1 < b.1 ∨ a.1 = b.1 ∧ (a.2.1 < b.2.1 ∨ a.2.1 = b.2.1 ∧ a.2.2 < b.2.2))%Z.

Lemma SFcompare_rank x y : not_nan x = true → not_nan y = true →
  match SFcompare x y with
  | Some Lt => lex_lt (d_rank x) (d_rank y)
  | Some Eq => d_rank x = d_rank y
  | Some Gt => lex_lt (d_rank y) (d_rank x)
  | None => False
  end.
Proof.
  unfold lex_lt. intros Hx Hy.
  destruct x as [sx|[]| |[] mx ex]; try done; destruct y as [sy|[]| |[] my ey]; try done; simpl; try lia;
    destruct (Z.compare_spec ex ey) as [->| |]; simpl; try lia;
    change (PosDef.Pos.compare_cont Eq mx my) with (Pos.compare mx my);
    destruct (Pos.compare_spec mx my) as [->| |]; simpl; try done; lia.
Qed.

Lemma d_ltb_rank x y : not_nan x = true → not_nan y = true →
  d_ltb x y = true ↔ lex_lt (d_rank x) (d_rank y).
Proof.
  intros Hx Hy. pose proof (SFcompare_rank x y Hx Hy) as Hc. unfold d_ltb, SFltb.
  destruct (SFcompare x y) as [[]|]; unfold lex_lt in *; try done.
  - rewrite Hc. split; [done|lia].
  - split; [done|lia].
Qed.

Lemma d_leb_ltb x y : not_nan x = true → not_nan y = true → d_leb x y = negb (d_ltb y x).
Proof.
  intros Hx Hy. pose proof (SFcompare_rank x y Hx Hy) as Hc. pose proof (d_ltb_rank y x Hy Hx) as Hr.
  unfold d_leb, SFleb. destruct (SFcompare x y) as [[]|]; try done.
  - destruct (d_ltb y x); [|done]. rewrite Hc in Hr. unfold lex_lt in Hr. lia.
  - destruct (d_ltb y x); [|done]. unfold lex_lt in *. lia.
  - destruct (d_ltb y x); [done|]. destruct Hr as [_ Hr]. by specialize (Hr Hc).
Qed.

Lemma d_ltb_irrefl x : d_ltb x x = false.
Proof.
  destruct (not_nan x) eqn:Hx; [|by destruct x].
  apply not_true_is_false. rewrite d_ltb_rank by done. unfold lex_lt. lia.
Qed.

Lemma d_ltb_asym x y : not_nan x = true → not_nan y = true → d_ltb x y = true → d_ltb y x = false.
Proof.
  intros Hx Hy Hlt. apply not_true_is_false. rewrite d_ltb_rank in * by done. unfold lex_lt in *. lia.
Qed.

(** "Not after" is transitive. *)
Lemma d_notlt_trans x y z : not_nan x = true → not_nan y = true → not_nan z = true →
  d_ltb y x = false → d_ltb z y = false → d_ltb z x = false.
Proof.
  intros Hx Hy Hz. rewrite <-!not_true_iff_false, !d_ltb_rank by done. unfold lex_lt. lia.
Qed.

Lemma d_leb_trans x y z : not_nan x = true → not_nan y = true → not_nan z = true →
  d_leb x y = true → d_leb y z = true → d_leb x z = true.
Proof. intros Hx Hy Hz. rewrite !d_leb_ltb, !negb_true_iff by done. by apply d_notlt_trans. Qed.

Lemma d_ltb_leb x y : not_nan x = true → not_nan y = true → d_ltb x y = true → d_leb x y = true.
Proof. intros Hx Hy Hlt. rewrite d_leb_ltb, negb_true_iff by done. by apply d_ltb_asym. Qed.

(** ** Binary heaps *)

Definition parent (i : nat) : nat := (i - 1) / 2.

(** [[a[i], a[j]] = [a[j], a[i]]]. *)
Definition swap {A} (data : list A) (i j : nat) : list A :=
  match data !! i, data !! j with
  | Some x, Some y => <[i := y]> (<[j := x]> data)
  | _, _ => data
  end.

(** The comparisons of a heap: [before] for the one that ends [_bubbleUp] and
    [strictly] for those of [_sinkDown]. *)
Class HeapOrder (A : Type) : Type := {
  before : A → A → bool;
  strictly : A → A → bool;
}.

Section heap.
Context {A : Type} `{HeapOrder A}.

Fixpoint bubbleUp (fuel : nat) (data : list A) (i : nat) : list A :=
  match fuel with
  | O => data
  | S fuel =>
    if (i =? 0)%nat then data
    else match data !! parent i, data !! i with
         | Some x, Some y =>
           if before x y then data else bubbleUp fuel (swap data (parent i) i) (parent i)
         | _, _ => data
         end
  end.

(** [if (c < n && data[c] < data[s]) s = c]. *)
Definition better_child (data : list A) (c s : nat) : nat :=
  match data !! c, data !! s with
  | Some x, Some y => if strictly x y then c else s
  | _, _ => s
  end.

Fixpoint sinkDown (fuel : nat) (data : list A) (i : nat) : list A :=
  match fuel with
  | O => data
  | S fuel =>
    let best := better_child data (2 * i + 2) (better_child data (2 * i + 1) i) in
    if (best =? i)%nat then data else sinkDown fuel (swap data best i) best
  end.

Definition heap_push (item : A) (data : list A) : list A :=
  bubbleUp (length data) (data ++ [item]) (length data).

Definition heap_pop (data : list A) : option (A * list A) :=
  match data, last data with
  | top :: _, Some l =>
    let rest := removelast data in
    Some (top, if (0 <? length rest)%nat then sinkDown (length rest) (<[0 := l]> rest) 0 else rest)
  | _, _ => None
  end.

Definition heap_peek (data : list A) : option A := head data.

(** *** Heap order *)

Definition rel (data : list A) (p c : nat) : Prop :=
  ∀ x y, data !! p = Some x → data !! c = Some y → before x y = true.

Definition heap (data : list A) : Prop := ∀ c, 0 < c → rel data (parent c) c.

(** Heap order but for the position [i] that is on its way up, or down. *)
Definition heap_up (data : list A) (i : nat) : Prop :=
  ∀ c, 0 < c → (c ≠ i → rel data (parent c) c) ∧ (parent c = i → 0 < i → rel data (parent i) c).

Definition heap_down (data : list A) (i : nat) : Prop :=
  ∀ c, 0 < c → (parent c ≠ i → rel data (parent c) c) ∧ (parent c = i → 0 < i → rel data (parent i) c).
End heap.

(** The laws hold for the items that satisfy [ok], the ones whose key is not NaN. *)
Class HeapLaws {A} `{HeapOrder A} (ok : A → Prop) : Prop := {
  before_strictly : ∀ x y, ok x → ok y → before x y = negb (strictly y x);
  before_trans : ∀ x y z, ok x → ok y → ok z → before x y = true → before y z = true → before x z = true;
  strictly_before : ∀ x y, ok x → ok y → strictly x y = true → before x y = true;
}.

Lemma swap_perm {A} (data : list A) i j : swap data i j ≡ₚ data.
Proof.
  unfold swap. destruct (data !! i) eqn:Hi, (data !! j) eqn:Hj; try done.
  by apply Permutation_insert_swap.
Qed.

Lemma swap_length {A} (data : list A) i j : length (swap data i j) = length data.
Proof. apply Permutation_length, swap_perm. Qed.

Lemma swap_lookup {A} (data : list A) i j k x y :
  data !! i = Some x → data !! j = Some y →
  swap data i j !! k = if decide (k = i) then Some y else if decide (k = j) then Some x else data !! k.
Proof.
  intros Hi Hj. unfold swap. rewrite Hi, Hj. repeat case_decide; subst.
  - apply list_lookup_insert_eq. rewrite length_insert. by eapply lookup_lt_Some.
  - rewrite list_lookup_insert_ne by done. apply list_lookup_insert_eq. by eapply lookup_lt_Some.
  - by rewrite !list_lookup_insert_ne by done.
Qed.

(** The children of a position. *)
Lemma parent_spec c : 0 < c → c = 2 * parent c + 1 ∨ c = 2 * parent c + 2.
Proof. intros Hc. unfold parent. pose proof (Nat.div_mod_eq (c - 1) 2). pose proof (Nat.mod_upper_bound (c - 1) 2). lia. Qed.

Lemma parent_child i : parent (2 * i + 1) = i ∧ parent (2 * i + 2) = i.
Proof. pose proof (parent_spec (2 * i + 1)). pose proof (parent_spec (2 * i + 2)). lia. Qed.

Section heap_order.
Context {A : Type} `{HeapLaws A ok}.

Lemma before_total x y : ok x → ok y → before x y = false → before y x = true.
Proof using Type*.
  intros Hx Hy Hb. apply strictly_before; [done..|]. rewrite before_strictly in Hb by done.
  by destruct (strictly y x).
Qed.

Lemma lookup_ok (data : list A) i x : Forall ok data → data !! i = Some x → ok x.
Proof. apply Forall_lookup_1. Qed.

Lemma bubbleUp_perm fuel (data : list A) i : bubbleUp fuel data i ≡ₚ data.
Proof.
  revert data i. induction fuel as [|fuel IH]; intros data i; simpl; [done|].
  destruct (i =? 0)%nat; [done|]. destruct (data !! parent i), (data !! i); try done.
  destruct (before _ _); [done|]. by rewrite IH, swap_perm.
Qed.

Lemma sinkDown_perm fuel (data : list A) i : sinkDown fuel data i ≡ₚ data.
Proof.
  revert data i. induction fuel as [|fuel IH]; intros data i; [done|]. cbn [sinkDown].
  destruct (_ =? i)%nat; [done|]. by rewrite IH, swap_perm.
Qed.

(** A swap with the parent moves the exceptional position up. *)
Lemma heap_up_swap data i x y :
  Forall ok data → 0 < i → data !! parent i = Some x → data !! i = Some y → before x y = false →
  heap_up data i → heap_up (swap data (parent i) i) (parent i).
Proof using Type*.
  intros Hok Hi Hx Hy Hb Hup. pose proof (parent_spec i Hi) as Hpi.
  assert (before y x = true) as Hyx by (apply before_total; eauto using lookup_ok).
  assert (∀ c z, 0 < c → c ≠ i → parent c = parent i → data !! c = Some z → before x z = true) as Hsib.
  { intros c z Hc Hne Hpc Hz. destruct (Hup c Hc) as [Hrel _]. rewrite Hpc in Hrel. by apply (Hrel Hne). }
  intros c Hc. pose proof (parent_spec c Hc) as Hpc. split.
  - intros Hne u v. rewrite !(swap_lookup _ _ _ _ x y) by done. intros Hu Hv.
    destruct (decide (c = parent i)) as [|_]; [done|].
    destruct (decide (c = i)) as [->|Hci].
    + rewrite decide_True in Hu by done. by simplify_eq.
    + destruct (decide (parent c = parent i)) as [Hpp|Hpp].
      * simplify_eq. apply (before_trans _ x); eauto using lookup_ok.
      * destruct (decide (parent c = i)) as [Hci'|Hci']; simplify_eq.
        -- destruct (Hup c Hc) as [_ Hrel]. by apply Hrel.
        -- destruct (Hup c Hc) as [Hrel _]. by apply (Hrel Hci).
  - intros Hpp Hp0 u v. pose proof (parent_spec (parent i) Hp0) as Hppi.
    rewrite !(swap_lookup _ _ _ _ x y) by done. rewrite decide_False, decide_False by lia. intros Hu Hv.
    assert (before u x = true) as Hux by (destruct (Hup (parent i) Hp0) as [Hrel _]; apply Hrel; [lia|done..]).
    rewrite decide_False in Hv by lia. case_decide; simplify_eq; [done|].
    apply (before_trans _ x); eauto using lookup_ok.
Qed.

Lemma bubbleUp_heap fuel data i :
  i ≤ fuel → i < length data → Forall ok data → heap_up data i → heap (bubbleUp fuel data i).
Proof using Type*.
  revert data i. induction fuel as [|fuel IH]; intros data i Hf Hlen Hok Hup; simpl.
  - intros c Hc. apply (Hup c Hc). lia.
  - destruct (Nat.eqb_spec i 0) as [->|Hi]; [intros c Hc; apply (Hup c Hc); lia|].
    pose proof (parent_spec i ltac:(lia)).
    destruct (lookup_lt_is_Some_2 data i Hlen) as [y Hy].
    destruct (lookup_lt_is_Some_2 data (parent i) ltac:(lia)) as [x Hx]. rewrite Hx, Hy.
    destruct (before x y) eqn:Hb.
    + intros c Hc. destruct (decide (c = i)) as [->|]; [|by apply (Hup c Hc)]. intros u v Hu Hv. by simplify_eq.
    + apply IH; [lia|rewrite swap_length; lia|by rewrite swap_perm|].
      eapply heap_up_swap; eauto with lia.
Qed.

Lemma before_refl x : ok x → before x x = true.
Proof using Type*. intros Hx. destruct (before x x) eqn:E; [done|].
  by rewrite (before_total x x Hx Hx E) in E.
Qed.

Lemma better_child_spec data c s x :
  data !! s = Some x → Forall ok data →
  ∃ z, data !! better_child data c s = Some z ∧ before z x = true ∧
       (∀ y, data !! c = Some y → before z y = true) ∧
       (better_child data c s = c ∨ better_child data c s = s).
Proof using Type*.
  intros Hs Hok. unfold better_child. rewrite Hs.
  assert (before x x = true) as Hxx by eauto using before_refl, lookup_ok.
  destruct (data !! c) as [y|] eqn:Hc; [|exists x; split_and!; [done..|by right]].
  destruct (strictly y x) eqn:E.
  - exists y. split_and!; [done|apply strictly_before; eauto using lookup_ok| |by left].
    intros ? [= <-]. eauto using before_refl, lookup_ok.
  - exists x. split_and!; [done..| |by right]. intros ? [= <-]. rewrite before_strictly by eauto using lookup_ok.
    by rewrite E.
Qed.

(** A swap with the best child moves the exceptional position down. *)
Lemma heap_down_swap data i b x z :
  Forall ok data → 0 < b → parent b = i → data !! i = Some x → data !! b = Some z → before z x = true →
  (∀ c y, 0 < c → parent c = i → data !! c = Some y → before z y = true) →
  heap_down data i → heap_down (swap data b i) b.
Proof using Type*.
  intros Hok Hb Hpb Hx Hz Hzx Hbest Hdn. pose proof (parent_spec b Hb) as Hpb'.
  intros c Hc. pose proof (parent_spec c Hc) as Hpc. split.
  - intros Hne u v. rewrite !(swap_lookup _ _ _ _ z x) by done. intros Hu Hv.
    rewrite decide_False in Hu by done. destruct (decide (parent c = i)) as [Hpi|Hpi].
    + injection Hu as <-. destruct (decide (c = b)) as [->|]; [by simplify_eq|].
      rewrite decide_False in Hv by lia. by eapply Hbest.
    + rewrite decide_False in Hv by (intros ->; done). destruct (decide (c = i)) as [->|]; simplify_eq.
      * by apply (proj2 (Hdn b Hb)).
      * by apply (proj1 (Hdn c Hc)).
  - intros Hpc' _ u v. rewrite !(swap_lookup _ _ _ _ z x) by done. rewrite Hpb. intros Hu Hv.
    rewrite decide_False, decide_True in Hu by lia. rewrite decide_False, decide_False in Hv by lia. simplify_eq.
    destruct (Hdn c Hc) as [Hrel _]. apply Hrel; [lia|done..].
Qed.

Lemma sinkDown_heap fuel data i :
  length data ≤ fuel + i → i < length data → Forall ok data → heap_down data i → heap (sinkDown fuel data i).
Proof using Type*.
  revert data i. induction fuel as [|fuel IH]; intros data i Hf Hlen Hok Hdn; [lia|]. cbn [sinkDown].
  destruct (lookup_lt_is_Some_2 data i Hlen) as [x Hx].
  destruct (better_child_spec data (2 * i + 1) i x Hx Hok) as (y & Hy & Hyx & Hyl & Hcase1).
  set (s := better_child data (2 * i + 1) i) in *.
  destruct (better_child_spec data (2 * i + 2) s y Hy Hok) as (z & Hz & Hzy & Hzr & Hcase2).
  set (b := better_child data (2 * i + 2) s) in *.
  assert (∀ c v, 0 < c → parent c = i → data !! c = Some v → before z v = true) as Hbest.
  { intros c v Hc Hpc Hv. destruct (parent_spec c Hc) as [Hc'|Hc']; rewrite Hpc in Hc'; subst c; [|by apply Hzr].
    apply (before_trans _ y); eauto using lookup_ok. }
  assert (before z x = true) as Hzx by (apply (before_trans _ y); eauto using lookup_ok).
  pose proof (parent_child i) as [Hp1 Hp2]. destruct (Nat.eqb_spec b i) as [Hbi|Hbi].
  - rewrite Hbi in Hz. simplify_eq. intros c Hc. destruct (decide (parent c = i)) as [Hpc|]; [|by apply (Hdn c Hc)].
    intros u v Hu Hv. rewrite Hpc in Hu. simplify_eq. by eapply Hbest.
  - assert (0 < b ∧ parent b = i) as [Hb0 Hpb] by (split; [lia|]; destruct Hcase2 as [->| ->]; [done|]; destruct Hcase1; congruence).
    pose proof (parent_spec b Hb0). apply lookup_lt_Some in Hz as Hlt.
    apply IH; [rewrite swap_length; lia|by rewrite swap_length|by rewrite swap_perm|].
    by eapply heap_down_swap.
Qed.

(** *** The operations *)

Lemma heap_push_perm item data : heap_push item data ≡ₚ item :: data.
Proof. unfold heap_push. rewrite bubbleUp_perm. by rewrite Permutation_app_comm. Qed.

Lemma heap_push_heap item data : ok item → Forall ok data → heap data → heap (heap_push item data).
Proof using Type*.
  intros Hi Hok Hh. apply bubbleUp_heap; [done|rewrite length_app; simpl; lia|by apply Forall_app_2; [|constructor]|].
  intros c Hc. pose proof (parent_spec c Hc). split.
  - intros Hne u v Hu Hv. apply lookup_lt_Some in Hv as Hlt. rewrite length_app in Hlt. simpl in Hlt.
    rewrite lookup_app_l in Hu, Hv by lia. by apply (Hh c Hc).
  - intros Hpc _ u v _ Hv. apply lookup_lt_Some in Hv. rewrite length_app in Hv. simpl in Hv. lia.
Qed.

(** The root comes before every item. *)
Lemma heap_root data top : Forall ok data → heap data → heap_peek data = Some top →
  ∀ y, y ∈ data → before top y = true.
Proof using Type*.
  intros Hok Hh Htop y [c Hc]%list_elem_of_lookup. destruct data as [|x data]; simplify_eq/=.
  revert y Hc. induction (lt_wf c) as [c _ IH]; intros y Hc. destruct (decide (c = 0)) as [->|Hne].
  - simplify_eq/=. apply before_refl. by eapply (lookup_ok (y :: data) 0).
  - pose proof (parent_spec c ltac:(lia)). apply lookup_lt_Some in Hc as Hlt.
    destruct (lookup_lt_is_Some_2 (top :: data) (parent c) ltac:(lia)) as [z Hz].
    apply (before_trans _ z); [by eapply (lookup_ok _ 0)|by eapply lookup_ok|by eapply lookup_ok| |].
    + apply (IH (parent c)); [lia|done].
    + apply (Hh c); [lia|done..].
Qed.

Lemma heap_pop_None data : heap_pop data = None ↔ data = [].
Proof.
  destruct data as [|x data]; [done|]. split; [|done]. unfold heap_pop.
  destruct (last (x :: data)) eqn:E; [done|]. by apply last_None in E.
Qed.

Lemma heap_pop_snoc data (l : A) : heap_pop (data ++ [l]) =
  Some (match data with [] => (l, []) | y :: d => (y, sinkDown (length data) (l :: d) 0) end).
Proof.
  destruct data as [|y d]; [done|]. change ((y :: d) ++ [l]) with (y :: (d ++ [l])).
  unfold heap_pop. change (y :: d ++ [l]) with ((y :: d) ++ [l]). by rewrite last_snoc, removelast_last.
Qed.

Lemma heap_pop_perm data top rest :
  heap_pop data = Some (top, rest) → data ≡ₚ top :: rest ∧ heap_peek data = Some top.
Proof.
  destruct data as [|l data _] using rev_ind; [done|]. rewrite heap_pop_snoc.
  destruct data as [|y d]; intros Heq; apply (inj Some), pair_equal_spec in Heq as [<- <-]; [done|].
  split; [|done]. rewrite sinkDown_perm. simpl. by rewrite <-Permutation_cons_append.
Qed.

Lemma heap_pop_heap data top rest :
  Forall ok data → heap data → heap_pop data = Some (top, rest) → heap rest.
Proof using Type*.
  destruct data as [|l data _] using rev_ind; [done|]. intros Hok Hh. rewrite heap_pop_snoc.
  destruct data as [|y d]; intros Heq; apply (inj Some), pair_equal_spec in Heq as [<- <-]; [by intros c Hc u v Hu|].
  apply Forall_app in Hok as [Hok Hl]. apply Forall_cons in Hl as [? _]. apply Forall_cons in Hok as [_ ?].
  apply sinkDown_heap; simpl; [lia..|by constructor|].
  intros c Hc. split; [|lia]. intros Hpc u v Hu Hv. apply (Hh c Hc).
  - rewrite lookup_app_l by (by apply lookup_lt_Some in Hu). by destruct (parent c).
  - rewrite lookup_app_l by (by apply lookup_lt_Some in Hv). by destruct c.
Qed.
End heap_order.

(** ** The two classes *)

Record HeapItem : Type := mkItem { hi_id : Z; hi_dist : double }.

#[global] Instance HeapItem_eq_dec : EqDecision HeapItem.
Proof. intros [i x] [j y]. unfold Decision. repeat decide equality. Defined.

Definition item_ok (x : HeapItem) : Prop := not_nan (hi_dist x) = true.

Module MinHeap.
Definition order : HeapOrder HeapItem := {|
  before x y := d_leb (hi_dist x) (hi_dist y);
  strictly x y := d_ltb (hi_dist x) (hi_dist y) |}.
Definition push : HeapItem → list HeapItem → list HeapItem := heap_push (H := order).
Definition pop : list HeapItem → option (HeapItem * list HeapItem) := heap_pop (H := order).
Definition peek : list HeapItem → option HeapItem := heap_peek.

#[global] Instance min_laws : HeapLaws (H := order) item_ok.
Proof.
  split; simpl.
  - intros x y Hx Hy. by apply d_leb_ltb.
  - intros x y z. apply d_leb_trans.
  - intros x y. apply d_ltb_leb.
Qed.
End MinHeap.

Module MaxHeap.
Definition order : HeapOrder HeapItem := {|
  before x y := d_leb (hi_dist y) (hi_dist x);
  strictly x y := d_ltb (hi_dist y) (hi_dist x) |}.
Definition push : HeapItem → list HeapItem → list HeapItem := heap_push (H := order).
Definition pop : list HeapItem → option (HeapItem * list HeapItem) := heap_pop (H := order).
Definition peek : list HeapItem → option HeapItem := heap_peek.

(** The sign of [a.dist - b.dist] is the order of the two doubles; a difference
    that is NaN counts as 0. *)
Definition toSortedAsc (data : list HeapItem) : list HeapItem :=
  js_sort (λ a b, negb (d_ltb (hi_dist b) (hi_dist a))) data.

#[global] Instance max_laws : HeapLaws (H := order) item_ok.
Proof.
  split; simpl.
  - intros x y Hx Hy. by apply d_leb_ltb.
  - intros x y z Hx Hy Hz H1 H2. by apply (d_leb_trans _ (hi_dist y)).
  - intros x y Hx Hy. by apply d_ltb_leb.
Qed.
End MaxHeap.

(** ** Heaps implement priority queues

    The abstract queue is a bag; a pop removes an item that no item of the bag
    precedes, and says nothing about the choice among equals. *)

Inductive QueueOp : Type := Push (x : HeapItem) | Pop.

Inductive bag_run (R : HeapItem → HeapItem → Prop) :
  list HeapItem → list QueueOp → list (option HeapItem) → list HeapItem → Prop :=
| bag_done bag bag' : bag ≡ₚ bag' → bag_run R bag [] [] bag'
| bag_push bag x ops outs bag' : bag_run R (x :: bag) ops outs bag' → bag_run R bag (Push x :: ops) outs bag'
| bag_empty ops outs bag' : bag_run R [] ops outs bag' → bag_run R [] (Pop :: ops) (None :: outs) bag'
| bag_pop bag top rest ops outs bag' :
    bag ≡ₚ top :: rest → Forall (R top) rest → bag_run R rest ops outs bag' →
    bag_run R bag (Pop :: ops) (Some top :: outs) bag'.

Section queue.
Context (O : HeapOrder HeapItem) `{!HeapLaws (H := O) item_ok}.

Fixpoint heap_run (data : list HeapItem) (ops : list QueueOp) : list (option HeapItem) * list HeapItem :=
  match ops with
  | [] => ([], data)
  | Push x :: ops => heap_run (heap_push x data) ops
  | Pop :: ops =>
    match heap_pop data with
    | Some (top, rest) => let (outs, data) := heap_run rest ops in (Some top :: outs, data)
    | None => let (outs, data) := heap_run data ops in (None :: outs, data)
    end
  end.

Definition pushes_ok (ops : list QueueOp) : Prop :=
  Forall (λ op, match op with Push x => item_ok x | Pop => True end) ops.

Lemma heap_simulates_bag ops : pushes_ok ops → ∀ data bag,
  Forall item_ok data → heap data → data ≡ₚ bag →
  bag_run (λ x y, before x y = true) bag ops (heap_run data ops).1 (heap_run data ops).2 ∧
  heap (heap_run data ops).2.
Proof using Type*.
  induction 1 as [|op ops Hop Hops IH]; intros data bag Hok Hh Hp; simpl; [by split; [constructor|]|].
  destruct op as [x|].
  - destruct (IH (heap_push x data) (x :: bag)) as [Hrun Hh'].
    + rewrite heap_push_perm. by constructor.
    + by apply heap_push_heap.
    + by rewrite heap_push_perm, Hp.
    + split; [by constructor|done].
  - destruct (heap_pop data) as [[top rest]|] eqn:Hpop.
    + apply heap_pop_perm in Hpop as Hpp. destruct Hpp as [Hperm Hpeek].
      assert (Forall (λ y, before top y = true) data) as Hmin
        by (apply Forall_forall; intros y Hy; by eapply (heap_root data)).
      rewrite Hperm in Hmin. apply Forall_cons in Hmin as [_ Hmin].
      destruct (IH rest rest) as [Hrun Hh']; [rewrite Hperm in Hok; by apply Forall_cons in Hok as [_ ?]
        |by eapply heap_pop_heap|done|].
      destruct (heap_run rest ops) as [outs d]. split; [|done].
      apply (bag_pop _ _ top rest); [by rewrite <-Hp|done..].
    + apply heap_pop_None in Hpop as ->. apply Permutation_nil in Hp as ->.
      destruct (IH [] []) as [Hrun Hh']; [done..|]. destruct (heap_run [] ops) as [outs d].
      split; [by constructor|done].
Qed.
End queue.

(** C18 The min-heap and the max-heap of the vector index implement a priority
    queue: for every sequence of pushes (of distances that are not NaN) and
    pops on an empty heap, each pop returns an item at minimal, respectively
    maximal, distance among those held, [undefined] exactly when none is held,
    and what remains is what was pushed and not popped. *)
Theorem heaps_implement_queues (ops : list QueueOp) : pushes_ok ops →
  (let (outs, data) := heap_run MinHeap.order [] ops in
   bag_run (λ x y, d_leb (hi_dist x) (hi_dist y) = true) [] ops outs data) ∧
  (let (outs, data) := heap_run MaxHeap.order [] ops in
   bag_run (λ x y, d_leb (hi_dist y) (hi_dist x) = true) [] ops outs data).
Proof.
  intros Hops. split.
  - destruct (heap_simulates_bag MinHeap.order ops Hops [] []) as [Hrun _]; [done..|].
    by destruct (heap_run MinHeap.order [] ops).
  - destruct (heap_simulates_bag MaxHeap.order ops Hops [] []) as [Hrun _]; [done..|].
    by destruct (heap_run MaxHeap.order [] ops).
Qed.

Definition demo_queue : list QueueOp :=
  [Push (mkItem 1 (d_of_Z 3)); Push (mkItem 2 (d_of_Z 1)); Push (mkItem 3 (d_of_Z 2)); Pop; Pop; Pop; Pop].

Lemma heaps_implement_queues_witness :
  map (option_map hi_id) (heap_run MinHeap.order [] demo_queue).1 = [Some 2; Some 3; Some 1; None]%Z ∧
  map (option_map hi_id) (heap_run MaxHeap.order [] demo_queue).1 = [Some 1; Some 3; Some 2; None]%Z ∧
  bag_run (λ x y, d_leb (hi_dist x) (hi_dist y) = true) [] demo_queue
    (heap_run MinHeap.order [] demo_queue).1 (heap_run MinHeap.order [] demo_queue).2.
Proof.
  split; [vm_compute; reflexivity|]. split; [vm_compute; reflexivity|].
  assert (pushes_ok demo_queue) as Hops by (repeat constructor).
  exact (proj1 (heaps_implement_queues demo_queue Hops)).
Defined.
