(* ===== verification/Hnsw.v ===== *)
(** * The vector index

    [HnswIndex] of [packages/retrieval/src/semantic/ann-index.ts]: a layered
    graph of embeddings, searched by a beam that two heaps keep.

    [Map] is the list of its entries in insertion order.  [Math.random] is a
    stream, and a process counts its draws.  The arrays a serialized index
    shares with the live one are values here: the code writes them to JSON at
    once.  Sizes and layers are natural numbers, vectors lists of doubles. *)

From S2P Require Import Prelude Heap.
From Stdlib Require Import ZArith Sorted.
From stdpp Require Import prelude list strings.
Set Default Goal Selector "!".
Set Default Proof Using "Type".
Set Warnings "-clear-no-such-hyp".

(** ** Similarity of vectors *)

Definition dot_mags (a b : list double) : double * double * double :=
  foldl (λ '(dot, magA, magB) '(x, y),
           (d_add dot (d_mul x y), d_add magA (d_mul x x), d_add magB (d_mul y y)))
        (d_zero, d_zero, d_zero) (zip a b).

Definition cosineSimilarity (a b : list double) : double :=
  if negb (length a =? length b)%nat || (length a =? 0)%nat then d_zero
  else let '(dot, magA, magB) := dot_mags a b in
       let denom := d_mul (d_sqrt magA) (d_sqrt magB) in
       if d_ltb d_zero denom then d_div dot denom else d_zero.

Definition distance (a b : list double) : double := d_sub (d_of_Z 1) (cosineSimilarity a b).

(** ** The index *)

Record HnswConfig : Type := mkConfig { c_m : nat; c_efConstruction : nat; c_efSearch : nat }.
Definition DEFAULT_HNSW_CONFIG : HnswConfig := mkConfig 16 200 50.

Record Node : Type := mkNode {
  n_chunkId : string;
  n_vector : list double;
  n_neighbors : list (list Z);
}.

Record HnswIndex : Type := mkIndex {
  x_nodes : list (Z * Node);
  x_entryPointId : Z;
  x_maxLayer : nat;
  x_nextId : Z;
  x_modelName : string;
  x_config : HnswConfig;
}.

Definition new_index (modelName : string) (config : HnswConfig) : HnswIndex :=
  mkIndex [] (-1) 0 0 modelName config.

(** [Map.get] and [Map.set]. *)
Fixpoint map_get {V} (k : Z) (m : list (Z * V)) : option V :=
  match m with
  | [] => None
  | (k', v) :: m => if decide (k = k') then Some v else map_get k m
  end.

Fixpoint map_set {V} (k : Z) (v : V) (m : list (Z * V)) : list (Z * V) :=
  match m with
  | [] => [(k, v)]
  | (k', v') :: m => if decide (k = k') then (k', v) :: m else (k', v') :: map_set k v m
  end.

Definition set_nodes (nodes : list (Z * Node)) (ix : HnswIndex) : HnswIndex :=
  mkIndex nodes (x_entryPointId ix) (x_maxLayer ix) (x_nextId ix) (x_modelName ix) (x_config ix).
Definition set_entry (id : Z) (layer : nat) (ix : HnswIndex) : HnswIndex :=
  mkIndex (x_nodes ix) id layer (x_nextId ix) (x_modelName ix) (x_config ix).
Definition set_nextId (id : Z) (ix : HnswIndex) : HnswIndex :=
  mkIndex (x_nodes ix) (x_entryPointId ix) (x_maxLayer ix) id (x_modelName ix) (x_config ix).

(** ** Search in a layer *)

Record Beam : Type := mkBeam {
  b_visited : list Z;
  b_candidates : list HeapItem;
  b_results : list HeapItem;
}.

Section search_layer.
Context (nodes : list (Z * Node)) (queryVector : list double) (ef layer : nat).

(** [results.peek()!.dist]; the heap is never empty here. *)
Definition closer_than_worst (dist : double) (results : list HeapItem) : bool :=
  match MaxHeap.peek results with Some w => d_ltb dist (hi_dist w) | None => false end.

Definition farther_than_worst (dist : double) (results : list HeapItem) : bool :=
  match MaxHeap.peek results with Some w => d_ltb (hi_dist w) dist | None => false end.

(** [if (results.size > ef) results.pop()]. *)
Definition keep_best (results : list HeapItem) : list HeapItem :=
  if (ef <? length results)%nat then
    match MaxHeap.pop results with Some (_, rest) => rest | None => results end
  else results.

(** One neighbour of the node being expanded. *)
Definition visit (b : Beam) (neighborId : Z) : Beam :=
  if decide (neighborId ∈ b_visited b) then b
  else
    let visited := neighborId :: b_visited b in
    match map_get neighborId nodes with
    | None => mkBeam visited (b_candidates b) (b_results b)
    | Some n =>
      let dist := distance queryVector (n_vector n) in
      if (length (b_results b) <? ef)%nat || closer_than_worst dist (b_results b) then
        let item := mkItem neighborId dist in
        mkBeam visited (MinHeap.push item (b_candidates b)) (keep_best (MaxHeap.push item (b_results b)))
      else mkBeam visited (b_candidates b) (b_results b)
    end.

(** [node.neighbors[layer]] where the node and the layer exist. *)
Definition links (id : Z) : list Z :=
  match map_get id nodes with
  | Some n => default [] (n_neighbors n !! layer)
  | None => []
  end.

(** [while (candidates.size > 0)]; [None] when the fuel runs out. *)
Fixpoint beam_loop (fuel : nat) (b : Beam) : option Beam :=
  match fuel with
  | O => None
  | S fuel =>
    match MinHeap.pop (b_candidates b) with
    | None => Some b
    | Some (current, rest) =>
      if (ef <=? length (b_results b))%nat && farther_than_worst (hi_dist current) (b_results b)
      then Some (mkBeam (b_visited b) rest (b_results b))
      else beam_loop fuel (foldl visit (mkBeam (b_visited b) rest (b_results b)) (links (hi_id current)))
    end
  end.

Definition first_beam (entryId : Z) (entryNode : Node) : Beam :=
  let item := mkItem entryId (distance queryVector (n_vector entryNode)) in
  mkBeam [entryId] (MinHeap.push item []) (MaxHeap.push item []).

(** Every iteration pops a node that no later one pushes again, so one unit
    more than the nodes is enough ([beam_loop_returns]). *)
Definition searchLayer (entryId : Z) : list HeapItem :=
  match map_get entryId nodes with
  | None => []
  | Some entryNode =>
    match beam_loop (S (length nodes)) (first_beam entryId entryNode) with
    | Some b => MaxHeap.toSortedAsc (b_results b)
    | None => []
    end
  end.
End search_layer.

(** ** Insertion *)

Definition selectNeighbors (candidates : list HeapItem) (m : nat) : list HeapItem := take m candidates.

Definition pruneConnections (nodes : list (Z * Node)) (nodeVector : list double) (neighborIds : list Z) (m : nat) :
    list Z :=
  let scored := omap (λ id, (λ n, mkItem id (distance nodeVector (n_vector n))) <$> map_get id nodes) neighborIds in
  hi_id <$> take m (MaxHeap.toSortedAsc scored).

(** The layers [hi], [hi - 1], ..., [lo]. *)
Definition layers_down (hi lo : nat) : list nat := rev (seq lo (S hi - lo)).

(** [if (closest.length > 0) currentEntry = closest[0]!.id]. *)
Definition next_entry (found : list HeapItem) (currentEntry : Z) : Z :=
  match found with [] => currentEntry | c :: _ => hi_id c end.

Definition descend (nodes : list (Z * Node)) (vector : list double) (entry : Z) (layers : list nat) : Z :=
  foldl (λ currentEntry lc, next_entry (searchLayer nodes vector 1 lc currentEntry) currentEntry) entry layers.

Definition TYPE_ERROR : string := "TypeError: Cannot read properties of undefined".

Definition put_neighbors (id : Z) (n : Node) (lc : nat) (ids : list Z) : M HnswIndex () :=
  modify (λ ix, set_nodes (map_set id (mkNode (n_chunkId n) (n_vector n) (<[lc := ids]> (n_neighbors n))) (x_nodes ix)) ix).

(** [this.nodes.get(id)!], whose result is used. *)
Definition get_node (id : Z) : M HnswIndex Node :=
  nodes ← gets x_nodes;
  match map_get id nodes with Some n => mret n | None => throw TYPE_ERROR end.

(** The body of the loop over the selected neighbours. *)
Definition link_back (id : Z) (lc : nat) (neighbor : HeapItem) : M HnswIndex () :=
  n ← get_node (hi_id neighbor);
  ix ← get_state;
  match n_neighbors n !! lc with
  | None => mret ()
  | Some ids =>
    let ids := ids ++ [id] in
    let m := c_m (x_config ix) in
    put_neighbors (hi_id neighbor) n lc
      (if (m * 2 <? length ids)%nat then pruneConnections (x_nodes ix) (n_vector n) ids m else ids)
  end.

(** One layer of an insertion; returns the entry of the next one. *)
Definition insert_layer (id : Z) (vector : list double) (currentEntry : Z) (lc : nat) : M HnswIndex Z :=
  ix ← get_state;
  let candidates := searchLayer (x_nodes ix) vector (c_efConstruction (x_config ix)) lc currentEntry in
  let selected := selectNeighbors candidates (c_m (x_config ix)) in
  node ← get_node id;
  (if (lc <? length (n_neighbors node))%nat then put_neighbors id node lc (hi_id <$> selected) else mret ());;
  for_each (link_back id lc) selected;;
  mret (next_entry candidates currentEntry).

(** [insertOne] after the layer of the new node is drawn. *)
Definition insert_at (nodeLayer : nat) (chunkId : string) (vector : list double) : M HnswIndex () :=
  ix ← get_state;
  let id := x_nextId ix in
  modify (λ ix, set_nextId (id + 1) (set_nodes
    (map_set id (mkNode chunkId vector (replicate (nodeLayer + 1) [])) (x_nodes ix)) ix));;
  if decide (x_entryPointId ix = -1)%Z then modify (set_entry id nodeLayer)
  else
    ix ← get_state;
    let currentEntry := descend (x_nodes ix) vector (x_entryPointId ix) (layers_down (x_maxLayer ix) (nodeLayer + 1)) in
    fold_each (insert_layer id vector) currentEntry (layers_down (nodeLayer `min` x_maxLayer ix) 0);;
    modify (λ ix, if (x_maxLayer ix <? nodeLayer)%nat then set_entry id nodeLayer ix else ix).

Class Random : Type := random : nat → double.

Record Process : Type := mkProcess { p_index : HnswIndex; p_draws : nat }.

Section insertion.
Context `{Random}.

(** [while (Math.random() < 1 / m && level < 16) level++]: [remaining] is [16 - level]. *)
Fixpoint random_level (m : nat) (remaining level draws : nat) : nat * nat :=
  if d_ltb (random draws) (d_div (d_of_Z 1) (d_of_Z (Z.of_nat m))) then
    match remaining with
    | O => (level, S draws)
    | S remaining => random_level m remaining (S level) (S draws)
    end
  else (level, S draws).

Definition randomLayer (m draws : nat) : nat * nat := random_level m 16 0 draws.

Definition insertOne (chunkId : string) (vector : list double) : M Process () := λ p,
  if (length vector =? 0)%nat then (Ret (), p)
  else let (nodeLayer, draws) := randomLayer (c_m (x_config (p_index p))) (p_draws p) in
       let (o, ix) := insert_at nodeLayer chunkId vector (p_index p) in
       (o, mkProcess ix draws).

Definition buildFromEntries (entries : list (string * list double)) : M Process () :=
  for_each (λ e, insertOne e.1 e.2) entries.
End insertion.

(** ** Queries *)

Fixpoint answer_rows (nodes : list (Z * Node)) (found : list HeapItem) : outcome (list (string * double)) :=
  match found with
  | [] => Ret []
  | c :: cs =>
    match map_get (hi_id c) nodes, answer_rows nodes cs with
    | Some n, Ret rows => Ret ((n_chunkId n, d_sub (d_of_Z 1) (hi_dist c)) :: rows)
    | None, _ => Throw TYPE_ERROR
    | _, Throw e => Throw e
    end
  end.

Definition search (ix : HnswIndex) (queryVector : list double) (k : nat) (ef : option nat) :
    outcome (list (string * double)) :=
  let ef := ef or_else c_efSearch (x_config ix) in
  if bool_decide (x_entryPointId ix = -1)%Z || (length (x_nodes ix) =? 0)%nat then Ret []
  else
    let currentEntry := descend (x_nodes ix) queryVector (x_entryPointId ix) (layers_down (x_maxLayer ix) 1) in
    let candidates := searchLayer (x_nodes ix) queryVector (ef `max` k) 0 currentEntry in
    answer_rows (x_nodes ix) (take k candidates).

(** ** Serialization *)

Record HnswSerialNode : Type := mkSerialNode {
  sn_id : Z; sn_chunkId : string; sn_vector : list double; sn_neighbors : list (list Z);
}.

Record HnswSerial : Type := mkSerial {
  s_version : Z;
  s_modelName : string;
  s_M : nat;
  s_efConstruction : nat;
  s_entryPointId : Z;
  s_maxLayer : nat;
  s_nodes : list HnswSerialNode;
}.

Definition serialize (ix : HnswIndex) : HnswSerial :=
  mkSerial 1 (x_modelName ix) (c_m (x_config ix)) (c_efConstruction (x_config ix))
    (x_entryPointId ix) (x_maxLayer ix)
    ((λ '(id, n), mkSerialNode id (n_chunkId n) (n_vector n) (n_neighbors n)) <$> x_nodes ix).

Definition load_node (ix : HnswIndex) (sn : HnswSerialNode) : HnswIndex :=
  let ix := set_nodes (map_set (sn_id sn) (mkNode (sn_chunkId sn) (sn_vector sn) (sn_neighbors sn)) (x_nodes ix)) ix in
  if (x_nextId ix <=? sn_id sn)%Z then set_nextId (sn_id sn + 1) ix else ix.

Definition deserialize (serial : HnswSerial) : HnswIndex :=
  let config := mkConfig (s_M serial) (s_efConstruction serial) (c_efSearch DEFAULT_HNSW_CONFIG) in
  foldl load_node
    (set_nextId 0 (set_entry (s_entryPointId serial) (s_maxLayer serial) (new_index (s_modelName serial) config)))
    (s_nodes serial).

(** ** Maps *)

Lemma map_get_set_eq {V} k (v : V) m : map_get k (map_set k v m) = Some v.
Proof.
  induction m as [|[k' v'] m IH]; simpl; [by rewrite decide_True|].
  case_decide; simpl; [by rewrite decide_True|by rewrite decide_False].
Qed.

Lemma map_get_set_ne {V} k k' (v : V) m : k ≠ k' → map_get k (map_set k' v m) = map_get k m.
Proof.
  intros Hne. induction m as [|[k0 v0] m IH]; simpl; [by rewrite decide_False|].
  destruct (decide (k' = k0)) as [<-|]; simpl; [by rewrite !decide_False|]. by case_decide.
Qed.

Lemma map_get_elem {V} k (v : V) m : map_get k m = Some v → (k, v) ∈ m.
Proof.
  induction m as [|[k' v'] m IH]; simpl; [done|]. case_decide; intros ?; simplify_eq; set_solver.
Qed.

Lemma map_get_keys {V} k (m : list (Z * V)) : is_Some (map_get k m) ↔ k ∈ m.*1.
Proof.
  induction m as [|[k' v'] m IH]; simpl; [by split; [intros []|intros ?%elem_of_nil]|].
  rewrite elem_of_cons. case_decide; [naive_solver|]. rewrite IH. naive_solver.
Qed.

Lemma map_set_keys_in {V} k (v : V) m : k ∈ m.*1 → (map_set k v m).*1 = m.*1.
Proof.
  induction m as [|[k' v'] m IH]; simpl; [by intros ?%elem_of_nil|].
  rewrite elem_of_cons. intros Hk. case_decide; simpl; [done|]. f_equal. apply IH. naive_solver.
Qed.

Lemma map_set_new {V} k (v : V) m : k ∉ m.*1 → map_set k v m = m ++ [(k, v)].
Proof.
  induction m as [|[k' v'] m IH]; simpl; [done|]. rewrite not_elem_of_cons. intros [Hne Hk].
  rewrite decide_False by done. by rewrite IH.
Qed.

(** ** The beam search *)

Section beam.
Context (nodes : list (Z * Node)) (q : list double) (ef layer : nat).

Abbreviation links := (links nodes layer).
Abbreviation visit := (visit nodes q ef).
Abbreviation beam_loop := (beam_loop nodes q ef layer).

(** *** Termination *)

Definition unvisited (visited : list Z) : nat := length (filter (λ kn, kn.1 ∉ visited) nodes).

Lemma unvisited_mono y visited : unvisited (y :: visited) ≤ unvisited visited.
Proof.
  unfold unvisited. induction nodes as [|[k n] l IH]; [done|].
  rewrite !filter_cons. simpl. repeat case_decide; simpl; set_solver by lia.
Qed.

Lemma unvisited_new y visited :
  y ∉ visited → is_Some (map_get y nodes) → S (unvisited (y :: visited)) ≤ unvisited visited.
Proof.
  intros Hy Hn%map_get_keys. pose proof (unvisited_mono y visited) as Hmono. revert Hmono. unfold unvisited.
  induction nodes as [|[k n] l IH]; [by apply elem_of_nil in Hn|].
  rewrite fmap_cons, elem_of_cons in Hn. rewrite !filter_cons. simpl in *.
  destruct (decide (k = y)) as [->|Hky].
  - rewrite decide_False by set_solver. rewrite decide_True by done. simpl. intros _.
    clear. induction l as [|[k n] l IH]; [done|]. rewrite !filter_cons. simpl.
    repeat case_decide; simpl; set_solver by lia.
  - destruct Hn as [|Hn]; [done|]. specialize (IH Hn). repeat case_decide; simpl; set_solver by lia.
Qed.

Definition beam_measure (b : Beam) : nat := length (b_candidates b) + unvisited (b_visited b).

Lemma push_length item data : length (MinHeap.push item data) = S (length data).
Proof. unfold MinHeap.push. by rewrite (Permutation_length (heap_push_perm item data)). Qed.

Lemma visit_measure b y : beam_measure (visit b y) ≤ beam_measure b.
Proof.
  unfold beam_measure, Hnsw.visit. case_decide as Hv; [done|].
  destruct (map_get y nodes) as [n|] eqn:Hn; simpl; [|pose proof (unvisited_mono y (b_visited b)); lia].
  pose proof (unvisited_new y (b_visited b) Hv ltac:(by rewrite Hn)).
  destruct (_ || _); simpl; [rewrite push_length|]; lia.
Qed.

Lemma visits_measure ys b : beam_measure (foldl visit b ys) ≤ beam_measure b.
Proof. revert b. induction ys as [|y ys IH]; intros b; simpl; [done|]. rewrite IH. apply visit_measure. Qed.

Lemma beam_loop_returns fuel b : beam_measure b < fuel → is_Some (beam_loop fuel b).
Proof.
  revert b. induction fuel as [|fuel IH]; intros b Hf; [lia|]. simpl.
  destruct (MinHeap.pop (b_candidates b)) as [[cur rest]|] eqn:Hpop; [|done].
  destruct (_ && _); [done|]. apply IH. eapply Nat.le_lt_trans; [apply visits_measure|].
  apply heap_pop_perm in Hpop as [Hperm%Permutation_length _].
  unfold beam_measure in *. simpl in *. lia.
Qed.

(** *** What the beam holds *)

Context (entry : Z).

(** An item of a heap carries the distance of its node. *)
Definition item_of (x : HeapItem) : Prop :=
  ∃ n, map_get (hi_id x) nodes = Some n ∧ hi_dist x = distance q (n_vector n).

Definition not_closer (results : list HeapItem) (d : double) : Prop :=
  ∀ x, x ∈ results → d_leb (hi_dist x) d = true.

Record beam_shape (b : Beam) : Prop := {
  bs_results_items : Forall item_of (b_results b);
  bs_candidates_items : Forall item_of (b_candidates b);
  bs_results_nodup : NoDup (hi_id <$> b_results b);
  bs_results_visited : ∀ x, x ∈ b_results b → hi_id x ∈ b_visited b;
  bs_candidates_visited : ∀ x, x ∈ b_candidates b → hi_id x ∈ b_visited b;
  bs_length : 1 ≤ length (b_results b) ≤ 1 `max` ef;
  bs_reach : ∀ v, v ∈ b_visited b → rtc (λ x y, y ∈ links x) entry v;
}.

(** The heaps are ordered, and what was visited and is not among the results is
    not closer than any of them. *)
Record beam_order (b : Beam) : Prop := {
  bo_results_heap : heap (H := MaxHeap.order) (b_results b);
  bo_candidates_heap : heap (H := MinHeap.order) (b_candidates b);
  bo_best : ∀ v n, v ∈ b_visited b → map_get v nodes = Some n →
    v ∈ hi_id <$> b_results b ∨
    ef ≤ length (b_results b) ∧ not_closer (b_results b) (distance q (n_vector n));
}.

(** Only the results in [P] may have a link that was not followed. *)
Definition open_only (P : HeapItem → Prop) (b : Beam) : Prop :=
  ∀ x, x ∈ b_results b → P x ∨ ∀ y, y ∈ links (hi_id x) → y ∈ b_visited b.

(** *** The shape of the beam, for every distance function *)

Lemma keep_best_drops results : results ≠ [] →
  let kept := keep_best ef results in
  kept = results ∧ length results ≤ ef ∨
  ∃ w, MaxHeap.pop results = Some (w, kept) ∧ results ≡ₚ w :: kept ∧ ef < length results.
Proof.
  intros Hne. unfold keep_best. destruct (Nat.ltb_spec ef (length results)) as [Hlt|]; [|by auto].
  destruct (MaxHeap.pop results) as [[w kept]|] eqn:Hpop; [|by apply heap_pop_None in Hpop].
  right. exists w. split; [done|]. split; [|done]. by apply (heap_pop_perm (H := MaxHeap.order)) in Hpop as [? _].
Qed.

(** The results after a node was offered: it and the old ones, without the one
    on top when they are too many. *)
Lemma offer_drops item results :
  let kept := keep_best ef (MaxHeap.push item results) in
  kept ≡ₚ item :: results ∧ S (length results) ≤ ef ∨
  ∃ w, MaxHeap.pop (MaxHeap.push item results) = Some (w, kept) ∧ item :: results ≡ₚ w :: kept ∧ ef ≤ length results.
Proof.
  assert (MaxHeap.push item results ≡ₚ item :: results) as Hp by apply heap_push_perm.
  apply Permutation_length in Hp as Hlen. simpl in Hlen.
  destruct (keep_best_drops (MaxHeap.push item results)) as [[-> Hle]|(w & Hpop & Hw & Hlt)].
  - intros E. by rewrite E in Hlen.
  - left. split; [done|lia].
  - right. exists w. split; [done|]. split; [by rewrite <-Hp|lia].
Qed.

Lemma visit_shape b y : beam_shape b → rtc (λ u v, v ∈ links u) entry y → beam_shape (visit b y).
Proof.
  intros [Hri Hci Hnd Hrv Hcv Hlen Hrt] Hreach. unfold Hnsw.visit. case_decide as Hy; [done|].
  assert (∀ v, v ∈ y :: b_visited b → rtc (λ u v, v ∈ links u) entry v) as Hrt'
    by (intros v [->|Hv]%elem_of_cons; [done|by apply Hrt]).
  assert (∀ xs : list HeapItem, (∀ x, x ∈ xs → hi_id x ∈ b_visited b) → ∀ x, x ∈ xs → hi_id x ∈ y :: b_visited b) as Hvis by set_solver.
  destruct (map_get y nodes) as [n|] eqn:Hn; [destruct (_ || _)|]; [|by constructor; simpl; [done|done|done|apply Hvis|apply Hvis|done|done]..].
  set (item := mkItem y (distance q (n_vector n))). assert (item_of item) as Hitem by (by exists n).
  assert (MinHeap.push item (b_candidates b) ≡ₚ item :: b_candidates b) as Hc by apply heap_push_perm.
  pose proof (offer_drops item (b_results b)) as Hcase.
  set (kept := keep_best ef (MaxHeap.push item (b_results b))) in *.
  assert (∃ ws, item :: b_results b ≡ₚ ws ++ kept) as [ws Hp]
    by (destruct Hcase as [[Hp _]|(w & _ & Hp & _)]; [by exists []|by exists [w]]).
  assert (NoDup (hi_id <$> item :: b_results b)) as Hnd'.
  { simpl. apply NoDup_cons. split; [|done]. intros (x & Hx & Hin)%list_elem_of_fmap. subst y. by apply Hy, Hrv. }
  constructor; simpl; [| | | | | |done].
  - assert (Forall item_of (ws ++ kept)) as [_ ?]%Forall_app; [by rewrite <-Hp; constructor|done].
  - rewrite Hc. by constructor.
  - rewrite Hp, fmap_app, NoDup_app in Hnd'. tauto.
  - intros x Hx. assert (x ∈ item :: b_results b) as [->|Hx']%elem_of_cons by (rewrite Hp; set_solver); set_solver.
  - intros x. rewrite Hc. set_solver.
  - destruct Hcase as [[->%Permutation_length ?]|(w & _ & Hl%Permutation_length & ?)]; simpl in *; lia.
Qed.

Lemma visit_mono b y : b_visited b ⊆ b_visited (visit b y) ∧ y ∈ b_visited (visit b y).
Proof.
  unfold Hnsw.visit. case_decide; [done|]. destruct (map_get y nodes); [destruct (_ || _)|]; simpl; set_solver.
Qed.

(** A result that a visit adds is among the candidates. *)
Lemma visit_open P b y :
  open_only (λ x, x ∈ b_candidates b ∨ P x) b → open_only (λ x, x ∈ b_candidates (visit b y) ∨ P x) (visit b y).
Proof.
  intros Hopen x Hx. destruct (visit_mono b y) as [Hsub _].
  assert (x ∈ b_results b → (x ∈ b_candidates b → x ∈ b_candidates (visit b y)) →
          (x ∈ b_candidates (visit b y) ∨ P x) ∨ ∀ z, z ∈ links (hi_id x) → z ∈ b_visited (visit b y)) as Hold.
  { intros Hxr Hc. destruct (Hopen x Hxr) as [[?|?]|Hall]; [by left; left; apply Hc|by left; right|].
    right. intros z Hz. by apply Hsub, Hall. }
  revert Hx Hold. unfold Hnsw.visit. case_decide; [naive_solver|].
  destruct (map_get y nodes) as [n|] eqn:Hn; [destruct (_ || _)|]; simpl; [|naive_solver..].
  set (item := mkItem y (distance q (n_vector n))). intros Hx Hold.
  assert (∀ z, z ∈ item :: b_candidates b → z ∈ MinHeap.push item (b_candidates b)) as Hpush
    by (intros z Hz; unfold MinHeap.push; by rewrite heap_push_perm).
  assert (x ∈ item :: b_results b) as [->|Hxr]%elem_of_cons.
  { destruct (offer_drops item (b_results b)) as [[Hp _]|(w & _ & Hp & _)]; [by rewrite <-Hp|].
    rewrite Hp. set_solver. }
  - left. left. apply Hpush. set_solver.
  - apply Hold; [done|]. intros Hc. apply Hpush. set_solver.
Qed.

Lemma pop_shape b cur rest :
  beam_shape b → MinHeap.pop (b_candidates b) = Some (cur, rest) →
  beam_shape (mkBeam (b_visited b) rest (b_results b)) ∧ b_candidates b ≡ₚ cur :: rest ∧
  ∀ y, y ∈ links (hi_id cur) → rtc (λ u v, v ∈ links u) entry y.
Proof.
  intros [Hri Hci Hnd Hrv Hcv Hlen Hrt] Hpop.
  apply (heap_pop_perm (H := MinHeap.order)) in Hpop as [Hp _].
  assert (Forall item_of (cur :: rest)) as [Hcur Hrest]%Forall_cons by (by rewrite <-Hp).
  split; [|split; [done|]].
  - constructor; simpl; [done..| |done|done]. intros x Hx. apply Hcv. rewrite Hp. set_solver.
  - intros y Hy. eapply rtc_r; [|done]. apply Hrt, Hcv. rewrite Hp. set_solver.
Qed.

Lemma visits_shape ys b :
  beam_shape b → (∀ y, y ∈ ys → rtc (λ u v, v ∈ links u) entry y) → beam_shape (foldl visit b ys).
Proof.
  revert b. induction ys as [|y ys IH]; intros b Hb Hys; simpl; [done|].
  apply IH; [apply visit_shape; [done|]|]; set_solver.
Qed.

Lemma beam_loop_shape fuel b b' : beam_shape b → beam_loop fuel b = Some b' → beam_shape b'.
Proof.
  revert b. induction fuel as [|fuel IH]; intros b Hb; simpl; [done|].
  destruct (MinHeap.pop (b_candidates b)) as [[cur rest]|] eqn:Hpop; [|by intros [= <-]].
  destruct (pop_shape b cur rest Hb Hpop) as (Hb' & _ & Hreach).
  destruct (_ && _); [by intros [= <-]|]. by apply IH, visits_shape.
Qed.

Lemma first_beam_shape n : map_get entry nodes = Some n →
  let b := first_beam q entry n in beam_shape b ∧ beam_measure b ≤ length nodes.
Proof.
  intros Hn. unfold first_beam. split.
  - assert (item_of (mkItem entry (distance q (n_vector n)))) by (by exists n).
    constructor; simpl; [repeat constructor; done..|apply NoDup_singleton|set_solver|set_solver|lia|].
    by intros v ->%list_elem_of_singleton.
  - unfold beam_measure. simpl. pose proof (unvisited_new entry [] ltac:(apply not_elem_of_nil) ltac:(by rewrite Hn)) as Hlt.
    assert (unvisited [] ≤ length nodes) by apply length_filter. lia.
Qed.

(** What the search of a layer returns, whatever the distances are. *)
Record layer_shape (found : list HeapItem) : Prop := {
  ls_items : Forall item_of found;
  ls_nodup : NoDup (hi_id <$> found);
  ls_length : 1 ≤ length found ≤ 1 `max` ef;
  ls_reach : ∀ x, x ∈ found → rtc (λ x y, y ∈ links x) entry (hi_id x);
}.

Lemma toSortedAsc_perm xs : MaxHeap.toSortedAsc xs ≡ₚ xs.
Proof. apply js_sort_perm. Qed.

Lemma searchLayer_shape n : map_get entry nodes = Some n → layer_shape (searchLayer nodes q ef layer entry).
Proof.
  intros Hn. unfold searchLayer. rewrite Hn. destruct (first_beam_shape n Hn) as (Hb & Hm).
  destruct (beam_loop_returns (S (length nodes)) (first_beam q entry n)) as [b Hloop]; [lia|]. rewrite Hloop.
  destruct (beam_loop_shape _ _ b Hb Hloop) as [Hri _ Hnd Hrv _ Hlen Hrt].
  pose proof (toSortedAsc_perm (b_results b)) as Hp. constructor; rewrite ?Hp; [done..|].
  intros x. rewrite Hp. intros Hx. by apply Hrt, Hrv.
Qed.

Lemma searchLayer_missing : map_get entry nodes = None → searchLayer nodes q ef layer entry = [].
Proof. unfold searchLayer. by intros ->. Qed.

(** *** The order of the beam, where the distances are numbers *)

Hypothesis distances_ok : ∀ id n, map_get id nodes = Some n → not_nan (distance q (n_vector n)) = true.

Lemma item_of_ok x : item_of x → item_ok x.
Proof using distances_ok. intros (n & Hn & Hd). unfold item_ok. rewrite Hd. by eapply distances_ok. Qed.

Lemma items_ok xs : Forall item_of xs → Forall item_ok xs.
Proof using distances_ok. intros H. eapply Forall_impl; [exact H|]. apply item_of_ok. Qed.

(** The item on top of the results is the farthest. *)
Lemma worst_result results : heap (H := MaxHeap.order) results → Forall item_of results → 1 ≤ length results →
  ∃ w, MaxHeap.peek results = Some w ∧ item_of w ∧ not_closer results (hi_dist w).
Proof using distances_ok.
  intros Hh Hi Hl. destruct results as [|w rs]; simpl in Hl; [lia|]. exists w. split; [done|].
  split; [by apply Forall_cons in Hi as [? _]|]. intros x Hx.
  by eapply (heap_root (H := MaxHeap.order) (w :: rs)); [apply items_ok| |..].
Qed.

Lemma offer_spec item results :
  item_of item → heap (H := MaxHeap.order) results → Forall item_of results →
  let kept := keep_best ef (MaxHeap.push item results) in
  heap (H := MaxHeap.order) kept ∧
  (kept ≡ₚ item :: results ∧ S (length results) ≤ ef ∨
   ∃ w, item :: results ≡ₚ w :: kept ∧ ef ≤ length results ∧ not_closer kept (hi_dist w)).
Proof using distances_ok.
  intros Hitem Hh Hi. assert (MaxHeap.push item results ≡ₚ item :: results) as Hp by apply heap_push_perm.
  assert (Forall item_ok (MaxHeap.push item results)) as Hok by (apply items_ok; rewrite Hp; by constructor).
  assert (heap (H := MaxHeap.order) (MaxHeap.push item results)) as Hh'
    by (apply (heap_push_heap (H := MaxHeap.order)); [by apply item_of_ok|by apply items_ok|done]).
  destruct (offer_drops item results) as [[Hk Hle]|(w & Hpop & Hw & Hle)].
  - split; [|by left]. unfold keep_best. destruct (Nat.ltb_spec ef (length (MaxHeap.push item results))) as [Hlt|]; [|done].
    rewrite Hp in Hlt. simpl in Hlt. lia.
  - split; [by eapply (heap_pop_heap (H := MaxHeap.order))|]. right. exists w. split; [done|]. split; [done|].
    apply (heap_pop_perm (H := MaxHeap.order)) in Hpop as [_ Hpk]. intros x Hx.
    eapply (heap_root (H := MaxHeap.order) _ w Hok Hh' Hpk). rewrite Hp, Hw. set_solver.
Qed.

Lemma item_of_dist x n : item_of x → map_get (hi_id x) nodes = Some n → hi_dist x = distance q (n_vector n).
Proof. intros (n' & Hn & ->) Hn'. congruence. Qed.

Lemma not_closer_trans results d e : Forall item_of results → not_nan d = true → not_nan e = true →
  not_closer results d → d_leb d e = true → not_closer results e.
Proof using distances_ok.
  intros Hi Hd He Hnc Hde x Hx. apply (d_leb_trans _ d); [|done|done|by apply Hnc|done].
  apply item_of_ok. rewrite Forall_forall in Hi. by apply Hi.
Qed.

(** The best of what was visited stay the best when a node is accepted. *)
Lemma offer_best b y n :
  beam_shape b → beam_order b → map_get y nodes = Some n →
  (length (b_results b) <? ef)%nat || closer_than_worst (distance q (n_vector n)) (b_results b) = true →
  let kept := keep_best ef (MaxHeap.push (mkItem y (distance q (n_vector n))) (b_results b)) in
  Forall item_of kept →
  ∀ v nv, v ∈ y :: b_visited b → map_get v nodes = Some nv →
  v ∈ hi_id <$> kept ∨ ef ≤ length kept ∧ not_closer kept (distance q (n_vector nv)).
Proof using distances_ok.
  intros [Hri _ _ _ _ Hlen _] [Hrh _ Hbest] Hn Hguard kept Hkept v nv Hv Hnv.
  set (item := mkItem y (distance q (n_vector n))) in *.
  assert (item_of item) as Hitem by (by exists n).
  destruct (offer_spec item (b_results b) Hitem Hrh Hri) as [_ Hcase]. fold kept in Hcase.
  assert (v ∈ hi_id <$> (item :: b_results b) ∨
          ef ≤ length (b_results b) ∧ not_closer (b_results b) (distance q (n_vector nv))) as [Hin|[Hef Hfar]].
  { apply elem_of_cons in Hv as [->|Hv]; [left; set_solver|]. destruct (Hbest v nv Hv Hnv); [left; set_solver|by right]. }
  - destruct Hcase as [[Hp _]|(w & Hp & Hef & Hfar)]; [left; by rewrite Hp|].
    rewrite Hp in Hin. apply elem_of_cons in Hin as [->|Hin]; [|by left]. right.
    apply Permutation_length in Hp as Hl. simpl in Hl. split; [lia|].
    assert (item_of w) as Hw by (assert (Forall item_of (w :: kept)) as [? _]%Forall_cons; [rewrite <-Hp; by constructor|done]).
    by rewrite <-(item_of_dist w nv).
  - destruct Hcase as [[_ Hlt]|(w & Hp & _ & _)]; [lia|]. right.
    apply Permutation_length in Hp as Hl. simpl in Hl. split; [lia|].
    assert (d_leb (hi_dist item) (distance q (n_vector nv)) = true) as Hnew.
    { destruct (Nat.ltb_spec (length (b_results b)) ef) as [|_]; [lia|]. simpl in Hguard.
      destruct (worst_result (b_results b) Hrh Hri ltac:(lia)) as (worst & Hpk & Hwi & _).
      unfold closer_than_worst in Hguard. rewrite Hpk in Hguard.
      apply (d_leb_trans _ (hi_dist worst)); eauto using item_of_ok.
      - by apply item_of_ok.
      - by apply item_of_ok.
      - apply d_ltb_leb; [by apply item_of_ok..|done].
      - apply Hfar. destruct (b_results b); simplify_eq/=. set_solver. }
    intros x Hx. assert (x ∈ item :: b_results b) as [->|Hx']%elem_of_cons; [rewrite Hp; set_solver|done|by apply Hfar].
Qed.

Lemma push_candidates_spec item candidates :
  item_of item → heap (H := MinHeap.order) candidates → Forall item_of candidates →
  heap (H := MinHeap.order) (MinHeap.push item candidates) ∧ Forall item_of (MinHeap.push item candidates).
Proof using distances_ok.
  intros Hitem Hh Hi. assert (MinHeap.push item candidates ≡ₚ item :: candidates) as Hp by apply heap_push_perm.
  split; [|by rewrite Hp; constructor].
  apply (heap_push_heap (H := MinHeap.order)); [by apply item_of_ok|by apply items_ok|done].
Qed.

Lemma visit_order b y :
  beam_shape b → rtc (λ u v, v ∈ links u) entry y → beam_order b → beam_order (visit b y).
Proof using distances_ok.
  intros Hs Hreach Ho. pose proof (bs_results_items _ (visit_shape b y Hs Hreach)) as Hkept. revert Hkept.
  pose proof Hs as [Hri Hci _ _ _ Hlen _]. pose proof Ho as [Hrh Hch Hbest].
  unfold Hnsw.visit. case_decide as Hy; [done|].
  destruct (map_get y nodes) as [n|] eqn:Hn; [destruct (_ || _) eqn:Hguard|]; simpl; intros Hkept.
  - set (item := mkItem y (distance q (n_vector n))) in *. assert (item_of item) as Hitem by (by exists n).
    constructor; simpl.
    + by apply (offer_spec item (b_results b)).
    + by apply (push_candidates_spec item).
    + by apply (offer_best b y n).
  - constructor; simpl; [done..|]. intros v nv [->|Hv]%elem_of_cons Hnv; [|by apply Hbest]. simplify_eq.
    apply orb_false_iff in Hguard as [Hlt%Nat.ltb_ge Hcl]. right. split; [done|].
    destruct (worst_result _ Hrh Hri ltac:(lia)) as (w & Hpk & Hwi & Hfar). unfold closer_than_worst in Hcl.
    rewrite Hpk in Hcl. apply (not_closer_trans _ (hi_dist w)); eauto using item_of_ok.
    + by apply item_of_ok.
    + rewrite d_leb_ltb, Hcl; [done|by apply item_of_ok|by eapply distances_ok].
  - constructor; simpl; [done..|]. intros v nv [->|Hv]%elem_of_cons Hnv; [congruence|by apply Hbest].
Qed.

Lemma visits_inv ys b P :
  beam_shape b → beam_order b → (∀ y, y ∈ ys → rtc (λ u v, v ∈ links u) entry y) →
  open_only (λ x, x ∈ b_candidates b ∨ P x) b →
  let b' := foldl visit b ys in
  beam_order b' ∧ open_only (λ x, x ∈ b_candidates b' ∨ P x) b' ∧
  b_visited b ⊆ b_visited b' ∧ ∀ y, y ∈ ys → y ∈ b_visited b'.
Proof using distances_ok.
  revert b. induction ys as [|y ys IH]; intros b Hs Hb Hys Hopen; simpl.
  { split_and!; [done..|]. by intros y ?%elem_of_nil. }
  destruct (visit_mono b y) as [Hsub Hy].
  destruct (IH (visit b y)) as (Hb' & Hopen' & Hsub' & Hall).
  - apply visit_shape; [done|]. apply Hys. by apply elem_of_cons; left.
  - apply visit_order; [done| |done]. apply Hys. by apply elem_of_cons; left.
  - intros z Hz. apply Hys. by apply elem_of_cons; right.
  - by apply visit_open.
  - split_and!; [done..|by etrans|]. intros z [->|Hz]%elem_of_cons; [by apply Hsub'|by apply Hall].
Qed.

(** *** The loop *)

Lemma pop_order b cur rest :
  beam_shape b → beam_order b → MinHeap.pop (b_candidates b) = Some (cur, rest) →
  beam_order (mkBeam (b_visited b) rest (b_results b)) ∧ item_of cur ∧
  ∀ x, x ∈ b_candidates b → d_leb (hi_dist cur) (hi_dist x) = true.
Proof using distances_ok.
  intros [_ Hci _ _ _ _ _] [Hrh Hch Hbest] Hpop.
  assert (heap (H := MinHeap.order) rest) as Hh'
    by (eapply (heap_pop_heap (H := MinHeap.order)); [by apply items_ok|done..]).
  apply (heap_pop_perm (H := MinHeap.order)) in Hpop as [Hp Hpk].
  assert (Forall item_of (cur :: rest)) as [Hcur _]%Forall_cons by (by rewrite <-Hp).
  split_and!; [by constructor|done|]. intros x Hx.
  eapply (heap_root (H := MinHeap.order) (b_candidates b)); [by apply items_ok|done..].
Qed.

(** When the closest candidate is farther than every result, no result is a
    candidate any more. *)
Lemma break_closes b cur rest :
  beam_shape b → beam_order b → open_only (λ x, x ∈ b_candidates b) b →
  MinHeap.pop (b_candidates b) = Some (cur, rest) →
  farther_than_worst (hi_dist cur) (b_results b) = true → open_only (λ _, False) b.
Proof using distances_ok.
  intros Hs Ho Hopen Hpop Hfar x Hx. destruct (Hopen x Hx) as [Hxc|?]; [|by right].
  destruct (pop_order b cur rest Hs Ho Hpop) as (_ & Hcur & Hmin).
  destruct (worst_result (b_results b)) as (w & Hpk & Hw & Hmax); [apply Ho|apply Hs|apply Hs|].
  unfold farther_than_worst in Hfar. rewrite Hpk in Hfar.
  assert (item_of x) as Hxi by (pose proof (bs_results_items b Hs) as Hall; rewrite Forall_forall in Hall; by apply Hall).
  assert (d_leb (hi_dist cur) (hi_dist w) = true) as Hle.
  { apply (d_leb_trans _ (hi_dist x)); [by apply item_of_ok..|by apply Hmin|by apply Hmax]. }
  rewrite d_leb_ltb, Hfar in Hle by (by apply item_of_ok). done.
Qed.

Lemma beam_loop_settles fuel b b' :
  beam_shape b → beam_order b → open_only (λ x, x ∈ b_candidates b) b → beam_loop fuel b = Some b' →
  beam_order b' ∧ open_only (λ _, False) b' ∧ b_visited b ⊆ b_visited b'.
Proof using distances_ok.
  revert b. induction fuel as [|fuel IH]; intros b Hs Ho Hopen; simpl; [done|].
  destruct (MinHeap.pop (b_candidates b)) as [[cur rest]|] eqn:Hpop.
  - destruct (pop_order b cur rest Hs Ho Hpop) as (Ho' & Hcur & Hmin).
    destruct (pop_shape b cur rest Hs Hpop) as (Hs' & Hp & Hreach).
    destruct (_ && _) eqn:Hbreak.
    + intros [= <-]. apply andb_true_iff in Hbreak as [_ Hfar]. split_and!; [done| |done].
      intros x Hx. exact (break_closes b cur rest Hs Ho Hopen Hpop Hfar x Hx).
    + destruct (visits_inv (links (hi_id cur)) (mkBeam (b_visited b) rest (b_results b)) (λ x, x = cur))
        as (Hov & Hopen' & Hsub & Hall); [done..| |].
      * intros x Hx. destruct (Hopen x Hx) as [Hc|]; [left|by right]. rewrite Hp, elem_of_cons in Hc. simpl. tauto.
      * intros Hloop. destruct (IH _ (visits_shape _ _ Hs' Hreach) Hov) as (Ho'' & Hopen'' & Hs''); [|exact Hloop|].
        -- intros x Hx. destruct (Hopen' x Hx) as [[?| ->]|?]; auto.
        -- split_and!; [done..|]. by etrans.
  - apply heap_pop_None in Hpop. intros [= <-]. split_and!; [done| |done].
    intros x Hx. destruct (Hopen x Hx) as [Hc|]; [|by right]. rewrite Hpop in Hc. by apply elem_of_nil in Hc.
Qed.

Lemma first_beam_order n : map_get entry nodes = Some n →
  let b := first_beam q entry n in beam_order b ∧ open_only (λ x, x ∈ b_candidates b) b.
Proof.
  clear distances_ok. intros Hn. split; [|intros x Hx; by left]. constructor; simpl.
  - intros [|[|c]] ? x y Hx Hy; simplify_eq/=; lia.
  - intros [|[|c]] ? x y Hx Hy; simplify_eq/=; lia.
  - intros v nv ->%list_elem_of_singleton Hnv. left. by apply list_elem_of_singleton.
Qed.

(** What the search of a layer returns where the distances are numbers: items
    in ascending order, the best of a set of visited nodes that are reachable
    from the entry and contain every link of a result. *)
Record layer_best (found : list HeapItem) : Prop := {
  lb_sorted : StronglySorted (λ a b, d_leb (hi_dist a) (hi_dist b) = true) found;
  lb_visited : ∃ visited : list Z,
    entry ∈ visited ∧
    (∀ v, v ∈ visited → rtc (λ x y, y ∈ links x) entry v) ∧
    (∀ x y, x ∈ found → y ∈ links (hi_id x) → y ∈ visited) ∧
    (∀ v n, v ∈ visited → map_get v nodes = Some n →
       v ∈ hi_id <$> found ∨ ef ≤ length found ∧ not_closer found (distance q (n_vector n)));
}.

(** The insertion sort of items whose distances are numbers. *)
Lemma toSortedAsc_sorted xs : Forall item_ok xs →
  StronglySorted (λ a b, d_leb (hi_dist a) (hi_dist b) = true) (MaxHeap.toSortedAsc xs).
Proof.
  clear distances_ok. unfold MaxHeap.toSortedAsc. induction 1 as [|x xs Hx Hxs IH]; simpl; [constructor|].
  assert (Forall item_ok (js_sort (λ a b, negb (d_ltb (hi_dist b) (hi_dist a))) xs)) as Hok by (by rewrite js_sort_perm).
  revert IH Hok. generalize (js_sort (λ a b, negb (d_ltb (hi_dist b) (hi_dist a))) xs). clear Hxs xs.
  induction l as [|y ys IHy]; simpl; intros Hs Hok; [repeat constructor|].
  apply StronglySorted_inv in Hs as [Hs Hall]. apply Forall_cons in Hok as [Hy Hok].
  rewrite <-d_leb_ltb by done. destruct (d_leb (hi_dist x) (hi_dist y)) eqn:Hxy.
  - constructor; [by constructor|]. constructor; [done|]. rewrite Forall_forall in *.
    intros z Hz. apply (d_leb_trans _ (hi_dist y)); [done|done|by apply Hok|done|by apply Hall].
  - constructor; [by apply IHy|]. rewrite js_insert_perm. constructor; [|done].
    apply d_ltb_leb; [done..|]. rewrite d_leb_ltb in Hxy by done. by destruct (d_ltb _ _).
Qed.

Lemma searchLayer_best n : map_get entry nodes = Some n → layer_best (searchLayer nodes q ef layer entry).
Proof using distances_ok.
  intros Hn. unfold searchLayer. rewrite Hn.
  destruct (first_beam_shape n Hn) as (Hs & Hm). destruct (first_beam_order n Hn) as (Ho & Hopen).
  destruct (beam_loop_returns (S (length nodes)) (first_beam q entry n)) as [b Hloop]; [lia|]. rewrite Hloop.
  destruct (beam_loop_settles _ _ b Hs Ho Hopen Hloop) as (Ho' & Hopen' & Hsub).
  pose proof (beam_loop_shape _ _ b Hs Hloop) as Hs'. pose proof (toSortedAsc_perm (b_results b)) as Hp.
  constructor.
  - apply toSortedAsc_sorted, items_ok. apply Hs'.
  - exists (b_visited b). split_and!.
    + apply Hsub. simpl. by apply list_elem_of_singleton.
    + apply Hs'.
    + intros x y. rewrite Hp. intros Hx Hy. destruct (Hopen' x Hx) as [[]|Hall]. by apply Hall.
    + intros v nv Hv Hnv. unfold not_closer. setoid_rewrite Hp. by apply (bo_best b Ho').
Qed.
End beam.

(** ** The graph *)

Definition has_layer (nodes : list (Z * Node)) (lc : nat) (y : Z) : Prop :=
  ∃ n, map_get y nodes = Some n ∧ lc < length (n_neighbors n).

(** The neighbours of a node on a layer: distinct, at most [2 * m], other nodes
    that are on the layer too. *)
Definition links_ok (nodes : list (Z * Node)) (m : nat) (id : Z) (lc : nat) (ids : list Z) : Prop :=
  NoDup ids ∧ length ids ≤ m * 2 ∧ ∀ y, y ∈ ids → y ≠ id ∧ has_layer nodes lc y.

Definition graph_ok (nodes : list (Z * Node)) (m : nat) : Prop :=
  ∀ id n lc ids, map_get id nodes = Some n → n_neighbors n !! lc = Some ids → links_ok nodes m id lc ids.

Definition unlinked (nodes : list (Z * Node)) (id : Z) (lc : nat) : Prop := ∀ y, id ∉ links nodes lc y.

(** What linking never changes: ids, chunk ids, vectors and the number of layers. *)
Definition shape (nodes : list (Z * Node)) : list (Z * (string * list double * nat)) :=
  prod_map id (λ n, (n_chunkId n, n_vector n, length (n_neighbors n))) <$> nodes.

Lemma shape_get nodes id : map_get id (shape nodes) =
  (λ n, (n_chunkId n, n_vector n, length (n_neighbors n))) <$> map_get id nodes.
Proof. induction nodes as [|[k n] l IH]; simpl; [done|]. by case_decide. Qed.

Lemma shape_keys nodes : (shape nodes).*1 = nodes.*1.
Proof. unfold shape. rewrite <-list_fmap_compose. by apply list_fmap_ext. Qed.

Lemma shape_has_layer nodes nodes' lc y : shape nodes' = shape nodes → has_layer nodes lc y → has_layer nodes' lc y.
Proof.
  intros Hsh (n & Hn & Hlt). pose proof (shape_get nodes' y) as Hg. rewrite Hsh, shape_get, Hn in Hg. simpl in Hg.
  destruct (map_get y nodes') as [n'|] eqn:Hn'; [|done]. injection Hg as _ _ Hl. exists n'. rewrite <-Hl. auto.
Qed.

Lemma has_layer_le nodes lc lc' y : lc' ≤ lc → has_layer nodes lc y → has_layer nodes lc' y.
Proof. intros Hle (n & Hn & Hlt). exists n. split; [done|lia]. Qed.

Definition relink (id : Z) (n : Node) (lc : nat) (ids : list Z) (nodes : list (Z * Node)) : list (Z * Node) :=
  map_set id (mkNode (n_chunkId n) (n_vector n) (<[lc := ids]> (n_neighbors n))) nodes.

Lemma relink_shape id n lc ids nodes : map_get id nodes = Some n → shape (relink id n lc ids nodes) = shape nodes.
Proof.
  unfold relink, shape. induction nodes as [|[k n'] l IH]; simpl; [done|]. case_decide as Hk; simpl; intros Hn.
  - simplify_eq. by rewrite length_insert.
  - f_equal. by apply IH.
Qed.

Lemma relink_links id n lc ids nodes lc' y : map_get id nodes = Some n → lc < length (n_neighbors n) →
  links (relink id n lc ids nodes) lc' y = if decide (y = id ∧ lc' = lc) then ids else links nodes lc' y.
Proof.
  intros Hn Hlt. unfold links, relink. destruct (decide (y = id)) as [->|Hne].
  - rewrite map_get_set_eq, Hn. simpl. destruct (decide (lc' = lc)) as [->|Hlc].
    + rewrite decide_True by done. by rewrite list_lookup_insert_eq.
    + rewrite decide_False by naive_solver. by rewrite list_lookup_insert_ne.
  - rewrite map_get_set_ne by done. by rewrite decide_False by naive_solver.
Qed.

Lemma graph_ok_links nodes m lc x : graph_ok nodes m → links_ok nodes m x lc (links nodes lc x).
Proof.
  intros Hg. unfold links. destruct (map_get x nodes) as [n|] eqn:Hn.
  - destruct (n_neighbors n !! lc) as [ids|] eqn:Hl; [by eapply Hg|]. split_and!; simpl; [constructor|lia|set_solver].
  - split_and!; simpl; [constructor|lia|set_solver].
Qed.

Lemma relink_graph id n lc ids nodes m :
  graph_ok nodes m → map_get id nodes = Some n → lc < length (n_neighbors n) → links_ok nodes m id lc ids →
  graph_ok (relink id n lc ids nodes) m.
Proof.
  intros Hg Hn Hlt Hids x nx lx xs Hx Hxs.
  assert (links (relink id n lc ids nodes) lx x = xs) as Hl by (unfold links; by rewrite Hx, Hxs).
  assert (links_ok nodes m x lx xs) as (Hnd & Hlen & Hall).
  { rewrite relink_links in Hl by done. case_decide as Hd; [destruct Hd as [-> ->]; by subst|].
    subst xs. by apply graph_ok_links. }
  split_and!; [done..|]. intros y Hy. destruct (Hall y Hy) as [? ?]. split; [done|].
  eapply shape_has_layer; [by apply relink_shape|done].
Qed.

(** *** Pruning *)

Lemma pruneConnections_ok nodes m id lc v ids :
  NoDup ids → (∀ y, y ∈ ids → y ≠ id ∧ has_layer nodes lc y) →
  links_ok nodes m id lc (pruneConnections nodes v ids m).
Proof.
  intros Hnd Hall. unfold pruneConnections.
  set (score := λ i, (λ n, mkItem i (distance v (n_vector n))) <$> map_get i nodes).
  assert (∀ i x, score i = Some x → hi_id x = i) as Hscore
    by (unfold score; intros i x; destruct (map_get i nodes); intros; simplify_eq/=; done).
  assert (∀ l, NoDup l → NoDup (hi_id <$> omap score l) ∧ ∀ y, y ∈ hi_id <$> omap score l → y ∈ l) as Homap.
  { induction l as [|i l IH]; simpl; intros Hl; [split; [constructor|done]|].
    apply NoDup_cons in Hl as [Hi Hl]. destruct (IH Hl) as [Hn He].
    destruct (score i) as [x|] eqn:Hs; simpl; [rewrite (Hscore i x Hs)|split; set_solver].
    split; [by constructor; auto|set_solver]. }
  destruct (Homap ids Hnd) as [Hn He]. pose proof (toSortedAsc_perm (omap score ids)) as Hp.
  assert (NoDup (hi_id <$> MaxHeap.toSortedAsc (omap score ids))) as Hn' by (by rewrite Hp).
  rewrite fmap_take. split_and!.
  - eapply sublist_NoDup; [exact Hn'|]. apply sublist_take.
  - rewrite length_take. lia.
  - intros y Hy%subseteq_take. rewrite Hp in Hy. by apply Hall, He.
Qed.

(** *** Steps of an insertion *)

(** A search on a layer stays on it, and does not find a node that no link of
    the layer leads to. *)
Lemma search_stays nodes m q ef lc entry id :
  graph_ok nodes m → has_layer nodes lc entry → entry ≠ id → unlinked nodes id lc →
  let found := searchLayer nodes q ef lc entry in
  NoDup (hi_id <$> found) ∧
  (∀ x, x ∈ found → has_layer nodes lc (hi_id x) ∧ hi_id x ≠ id) ∧
  has_layer nodes lc (next_entry found entry) ∧ next_entry found entry ≠ id.
Proof.
  intros Hg He Hne Hun found. destruct He as (n & Hn & Hlt).
  destruct (searchLayer_shape nodes q ef lc entry n Hn) as [Hi Hnd Hlen Hr]. fold found in Hi, Hnd, Hlen, Hr.
  assert (∀ v, rtc (λ x y, y ∈ links nodes lc x) entry v → has_layer nodes lc v ∧ v ≠ id) as Hreach.
  { apply (rtc_ind_r (λ v, has_layer nodes lc v ∧ v ≠ id)); [split; [by exists n|done]|].
    intros u v _ Huv _. split; [by apply (graph_ok_links nodes m lc u Hg)|]. intros ->. by apply (Hun u). }
  assert (∀ x, x ∈ found → has_layer nodes lc (hi_id x) ∧ hi_id x ≠ id) as Hall by (intros x Hx; by apply Hreach, Hr).
  split_and!; [done..|destruct found as [|c cs]; simpl in *; [lia|]; apply Hall, elem_of_cons; by left|].
  destruct found as [|c cs]; simpl in *; [done|]. apply Hall, elem_of_cons. by left.
Qed.

Lemma get_node_run id n ix : map_get id (x_nodes ix) = Some n → get_node id ix = (Ret n, ix).
Proof. intros Hn. unfold get_node. run_M. by rewrite Hn. Qed.

(** The node [nid] gets a link to [id]. *)
Lemma link_back_run id lc item ix :
  graph_ok (x_nodes ix) (c_m (x_config ix)) →
  has_layer (x_nodes ix) lc (hi_id item) → has_layer (x_nodes ix) lc id → hi_id item ≠ id →
  id ∉ links (x_nodes ix) lc (hi_id item) →
  ∃ nodes, link_back id lc item ix = (Ret (), set_nodes nodes ix) ∧
    shape nodes = shape (x_nodes ix) ∧ graph_ok nodes (c_m (x_config ix)) ∧
    ∀ y lc', y ≠ hi_id item ∨ lc' ≠ lc → links nodes lc' y = links (x_nodes ix) lc' y.
Proof.
  intros Hg (n & Hn & Hlt) Hid Hne Hun.
  destruct (lookup_lt_is_Some_2 _ _ Hlt) as [ids Hids].
  assert (links (x_nodes ix) lc (hi_id item) = ids) as Hl by (unfold links; by rewrite Hn, Hids).
  destruct (Hg _ _ _ _ Hn Hids) as (Hnd & Hlen & Hall). rewrite Hl in Hun.
  set (m := c_m (x_config ix)) in *. set (ids' := ids ++ [id]).
  assert (NoDup ids') as Hnd'.
  { apply NoDup_app. split_and!; [done| |apply NoDup_singleton]. intros x Hx ->%list_elem_of_singleton. done. }
  assert (∀ y, y ∈ ids' → y ≠ hi_id item ∧ has_layer (x_nodes ix) lc y) as Hall'.
  { intros y [Hy| ->%list_elem_of_singleton]%elem_of_app; [by apply Hall|by split]. }
  set (new := if (m * 2 <? length ids')%nat then pruneConnections (x_nodes ix) (n_vector n) ids' m else ids').
  assert (links_ok (x_nodes ix) m (hi_id item) lc new) as Hnew.
  { unfold new. destruct (Nat.ltb_spec (m * 2) (length ids')); [by apply pruneConnections_ok|by split_and!]. }
  exists (relink (hi_id item) n lc new (x_nodes ix)). split_and!.
  - unfold link_back. rewrite (bind_run _ _ _ _ _ (get_node_run _ _ _ Hn)). run_M. by rewrite Hids.
  - by apply relink_shape.
  - by apply relink_graph.
  - intros y lc' Hy. rewrite relink_links by done. by rewrite decide_False by naive_solver.
Qed.

Lemma link_all_run id lc selected ix :
  graph_ok (x_nodes ix) (c_m (x_config ix)) → NoDup (hi_id <$> selected) → has_layer (x_nodes ix) lc id →
  (∀ x, x ∈ selected → has_layer (x_nodes ix) lc (hi_id x) ∧ hi_id x ≠ id ∧ id ∉ links (x_nodes ix) lc (hi_id x)) →
  ∃ nodes, for_each (link_back id lc) selected ix = (Ret (), set_nodes nodes ix) ∧
    shape nodes = shape (x_nodes ix) ∧ graph_ok nodes (c_m (x_config ix)) ∧
    ∀ y lc', lc' ≠ lc → links nodes lc' y = links (x_nodes ix) lc' y.
Proof.
  revert ix. induction selected as [|x xs IH]; intros ix Hg Hnd Hid Hsel.
  { exists (x_nodes ix). split_and!; [|done..]. by destruct ix. }
  simpl in Hnd. apply NoDup_cons in Hnd as [Hx Hnd].
  destruct (Hsel x) as (Hxl & Hxne & Hxun); [set_solver|].
  destruct (link_back_run id lc x ix Hg Hxl Hid Hxne Hxun) as (nodes & Hrun & Hsh & Hg' & Hl).
  destruct (IH (set_nodes nodes ix)) as (nodes' & Hrun' & Hsh' & Hg'' & Hl'); [done|done|by eapply shape_has_layer| |].
  - intros y Hy. destruct (Hsel y) as (Hyl & Hyne & Hyun); [set_solver|].
    assert (hi_id y ≠ hi_id x) by (intros E; apply Hx; rewrite <-E; by apply list_elem_of_fmap_2).
    split_and!; [by eapply shape_has_layer|done|]. simpl. rewrite Hl by auto. done.
  - exists nodes'. simpl in *. rewrite (bind_run _ _ _ _ _ Hrun), Hrun'. split_and!; [done|congruence|done|].
    intros y lc' Hne. rewrite Hl', Hl by auto. done.
Qed.

Lemma set_nodes_set_nodes ns ns' ix : set_nodes ns (set_nodes ns' ix) = set_nodes ns ix.
Proof. done. Qed.

(** One layer: the graph stays well formed, and the lower layers are as they
    were. *)
Lemma insert_layer_run id vector entry lc ix :
  graph_ok (x_nodes ix) (c_m (x_config ix)) → has_layer (x_nodes ix) lc entry → entry ≠ id →
  has_layer (x_nodes ix) lc id → unlinked (x_nodes ix) id lc →
  ∃ nodes e, insert_layer id vector entry lc ix = (Ret e, set_nodes nodes ix) ∧
    shape nodes = shape (x_nodes ix) ∧ graph_ok nodes (c_m (x_config ix)) ∧
    has_layer nodes lc e ∧ e ≠ id ∧ ∀ y lc', lc' ≠ lc → links nodes lc' y = links (x_nodes ix) lc' y.
Proof.
  intros Hg He Hne Hid Hun. pose proof Hid as (n & Hn & Hlt).
  set (m := c_m (x_config ix)) in *.
  set (found := searchLayer (x_nodes ix) vector (c_efConstruction (x_config ix)) lc entry).
  destruct (search_stays (x_nodes ix) m vector (c_efConstruction (x_config ix)) lc entry id Hg He Hne Hun)
    as (Hnd & Hall & Hnext & Hnextne). fold found in Hnd, Hall, Hnext, Hnextne.
  set (selected := selectNeighbors found m).
  assert (∀ x, x ∈ selected → x ∈ found) as Hsub by (intros x; apply subseteq_take).
  assert (NoDup (hi_id <$> selected)) as Hnds.
  { unfold selected, selectNeighbors. rewrite fmap_take. eapply sublist_NoDup; [exact Hnd|]. apply sublist_take. }
  assert (links_ok (x_nodes ix) m id lc (hi_id <$> selected)) as Hlok.
  { split_and!; [done|unfold selected, selectNeighbors; rewrite length_fmap, length_take; lia|].
    intros y (x & -> & Hx)%list_elem_of_fmap. destruct (Hall x (Hsub x Hx)) as [? ?]. done. }
  set (ns1 := relink id n lc (hi_id <$> selected) (x_nodes ix)).
  destruct (link_all_run id lc selected (set_nodes ns1 ix)) as (nodes & Hrun & Hsh & Hg' & Hl).
  - by apply relink_graph.
  - done.
  - eapply shape_has_layer; [by apply relink_shape|done].
  - intros x Hx. destruct (Hall x (Hsub x Hx)) as [? ?]. split_and!; [|done|].
    + eapply shape_has_layer; [by apply relink_shape|done].
    + simpl. unfold ns1. rewrite relink_links by done. rewrite decide_False by naive_solver. apply Hun.
  - exists nodes, (next_entry found entry). simpl in *.
    assert (shape nodes = shape (x_nodes ix)) as Hshape by (rewrite Hsh; by apply relink_shape).
    split_and!; [|done|done|by eapply shape_has_layer|done|].
    + unfold insert_layer. unfold mbind at 1, M_bind at 1, get_state. cbv beta iota zeta.
      fold found. fold m. fold selected. rewrite (bind_run _ _ _ _ _ (get_node_run _ _ _ Hn)).
      apply Nat.ltb_lt in Hlt as ->. rewrite (bind_run _ _ ix () (set_nodes ns1 ix)) by done.
      rewrite (bind_run _ _ _ _ _ Hrun). done.
    + intros y lc' Hlc. rewrite Hl by done. unfold ns1. rewrite relink_links by done.
      by rewrite decide_False by naive_solver.
Qed.

Lemma layers_down_S hi lo : lo ≤ S hi → layers_down (S hi) lo = S hi :: layers_down hi lo.
Proof.
  intros Hle. unfold layers_down. replace (S (S hi) - lo) with (S (S hi - lo)) by lia.
  rewrite seq_S, rev_app_distr. simpl. f_equal. lia.
Qed.

Lemma layers_down_nil hi lo : hi < lo → layers_down hi lo = [].
Proof. intros Hlt. unfold layers_down. by replace (S hi - lo) with 0 by lia. Qed.

Lemma insert_layers_run id vector hi entry ix :
  graph_ok (x_nodes ix) (c_m (x_config ix)) → has_layer (x_nodes ix) hi entry → entry ≠ id →
  has_layer (x_nodes ix) hi id → (∀ lc, unlinked (x_nodes ix) id lc) →
  ∃ nodes e, fold_each (insert_layer id vector) entry (layers_down hi 0) ix = (Ret e, set_nodes nodes ix) ∧
    shape nodes = shape (x_nodes ix) ∧ graph_ok nodes (c_m (x_config ix)).
Proof.
  intros Hg He Hne Hid Hun0. assert (∀ lc, lc ≤ hi → unlinked (x_nodes ix) id lc) as Hun by auto. clear Hun0.
  revert entry ix Hg He Hne Hid Hun. induction hi as [|hi IH]; intros entry ix Hg He Hne Hid Hun.
  - destruct (insert_layer_run id vector entry 0 ix) as (nodes & e & Hrun & Hsh & Hg' & _); [by auto..|].
    exists nodes, e. unfold layers_down. simpl. by rewrite (bind_run _ _ _ _ _ Hrun).
  - destruct (insert_layer_run id vector entry (S hi) ix) as (nodes & e & Hrun & Hsh & Hg' & He' & Hne' & Hl); [by auto..|].
    destruct (IH e (set_nodes nodes ix)) as (nodes' & e' & Hrun' & Hsh' & Hg''); simpl in *; [done| |done|..].
    + eapply has_layer_le; [|done]. lia.
    + eapply shape_has_layer; [exact Hsh|]. eapply has_layer_le; [|done]. lia.
    + intros lc Hlc y. rewrite Hl by lia. apply Hun. lia.
    + exists nodes', e'. rewrite layers_down_S by lia. simpl. rewrite (bind_run _ _ _ _ _ Hrun), Hrun'.
      split_and!; [done|congruence|done].
Qed.

Lemma descend_stays nodes m q id hi lo entry :
  graph_ok nodes m → (∀ lc, unlinked nodes id lc) → has_layer nodes hi entry → entry ≠ id →
  let e := descend nodes q entry (layers_down hi lo) in
  has_layer nodes (hi `min` lo) e ∧ e ≠ id.
Proof.
  intros Hg Hun. revert entry. induction hi as [|hi IH]; intros entry He Hne.
  - destruct lo as [|lo]; [|rewrite layers_down_nil by lia; split; [|done]; eapply has_layer_le; [|done]; lia].
    destruct (search_stays nodes m q 1 0 entry id) as (_ & _ & ? & ?); auto.
  - destruct (decide (lo ≤ S hi)) as [Hle|Hgt].
    + rewrite layers_down_S by done. destruct (search_stays nodes m q 1 (S hi) entry id) as (_ & _ & Hl & Hn); [by auto..|].
      destruct (decide (lo = S hi)) as [->|].
      * rewrite layers_down_nil by lia. simpl. split; [|done]. eapply has_layer_le; [|done]. lia.
      * destruct (IH (next_entry (searchLayer nodes q 1 (S hi) entry) entry)) as [H1 H2]; [|done|].
        -- eapply has_layer_le; [|done]. lia.
        -- split; [|done]. eapply has_layer_le; [|done]. lia.
    + rewrite layers_down_nil by lia. split; [|done]. eapply has_layer_le; [|done]. lia.
Qed.

(** *** The invariant of an index *)

Record index_wf (ix : HnswIndex) : Prop := {
  wf_ids : (x_nodes ix).*1 = Z.of_nat <$> seq 0 (length (x_nodes ix));
  wf_next : x_nextId ix = Z.of_nat (length (x_nodes ix));
  wf_entry : x_nodes ix = [] ∧ x_entryPointId ix = (-1)%Z ∨
             ∃ n, map_get (x_entryPointId ix) (x_nodes ix) = Some n ∧ length (n_neighbors n) = S (x_maxLayer ix);
  wf_levels : ∀ id n, map_get id (x_nodes ix) = Some n →
             n_vector n ≠ [] ∧ 1 ≤ length (n_neighbors n) ≤ S (x_maxLayer ix);
  wf_graph : graph_ok (x_nodes ix) (c_m (x_config ix));
}.

Lemma new_index_wf modelName config : index_wf (new_index modelName config).
Proof. constructor; simpl; [done|done|by left|done|]. by intros id n lc ids. Qed.

Lemma wf_key_range ix id : index_wf ix → id ∈ (x_nodes ix).*1 → (0 ≤ id < x_nextId ix)%Z.
Proof.
  intros [Hids Hnext _ _ _]. rewrite Hids, Hnext, list_elem_of_fmap. intros (k & -> & Hk%elem_of_seq). lia.
Qed.

(** The index once the new node is stored and not yet linked. *)
Lemma add_node_graph ix n k : index_wf ix → n_neighbors n = replicate k [] →
  let nodes := map_set (x_nextId ix) n (x_nodes ix) in
  nodes = x_nodes ix ++ [(x_nextId ix, n)] ∧ graph_ok nodes (c_m (x_config ix)) ∧
  (∀ lc y, has_layer (x_nodes ix) lc y → has_layer nodes lc y ∧ y ≠ x_nextId ix) ∧
  (∀ lc, unlinked nodes (x_nextId ix) lc).
Proof.
  intros Hwf Hk nodes. set (id := x_nextId ix) in *.
  assert (id ∉ (x_nodes ix).*1) as Hfresh by (intros Hin%(wf_key_range ix _ Hwf); lia).
  assert (∀ lc y, has_layer (x_nodes ix) lc y → has_layer nodes lc y ∧ y ≠ id) as Hkeep.
  { intros lc y (ny & Hy & Hl). assert (y ≠ id) as Hne by (intros ->; apply Hfresh, map_get_keys; by rewrite Hy).
    split; [|done]. exists ny. unfold nodes. by rewrite map_get_set_ne. }
  assert (∀ y lc, links nodes lc y = if decide (y = id) then [] else links (x_nodes ix) lc y) as Hlinks.
  { intros y lc. unfold links, nodes. case_decide as Hy; [subst y|by rewrite map_get_set_ne].
    rewrite map_get_set_eq, Hk. destruct (replicate k [] !! lc) as [l|] eqn:E; [|done].
    by apply lookup_replicate in E as [-> _]. }
  split_and!; [by apply map_set_new| |done|].
  - intros y ny lc ids Hy Hids. assert (links nodes lc y = ids) as <- by (unfold links; by rewrite Hy, Hids).
    rewrite Hlinks. case_decide; [split_and!; simpl; [constructor|lia|set_solver]|].
    destruct (graph_ok_links _ _ lc y (wf_graph ix Hwf)) as (? & ? & Hall). split_and!; [done..|].
    intros z Hz. destruct (Hall z Hz) as [? ?]. split; [done|by apply Hkeep].
  - intros lc y. rewrite Hlinks. case_decide; [set_solver|]. intros Hin.
    destruct (graph_ok_links _ _ lc y (wf_graph ix Hwf)) as (_ & _ & Hall). destruct (Hall id Hin) as [_ (z & Hz & _)].
    apply Hfresh, map_get_keys. by rewrite Hz.
Qed.

Definition entries_of (nodes : list (Z * Node)) : list (string * list double) :=
  (λ kn, (n_chunkId kn.2, n_vector kn.2)) <$> nodes.

Lemma shape_entries nodes nodes' : shape nodes' = shape nodes → entries_of nodes' = entries_of nodes.
Proof.
  intros Hsh. assert (∀ ns, entries_of ns = (λ kv, kv.2.1) <$> shape ns) as Heq.
  { intros ns. unfold entries_of, shape. rewrite <-list_fmap_compose. by apply list_fmap_ext. }
  by rewrite !Heq, Hsh.
Qed.

(** The linked index is well formed with either choice of the entry point. *)
Lemma linked_wf ix nodes k chunkId vector :
  index_wf ix → vector ≠ [] →
  shape nodes = shape (x_nodes ix ++ [(x_nextId ix, mkNode chunkId vector (replicate (k + 1) []))]) →
  graph_ok nodes (c_m (x_config ix)) →
  let ix' := set_nextId (x_nextId ix + 1) (set_nodes nodes ix) in
  (x_nodes ix = [] ∨ x_maxLayer ix < k → index_wf (set_entry (x_nextId ix) k ix')) ∧
  (x_nodes ix ≠ [] ∧ k ≤ x_maxLayer ix → index_wf ix').
Proof.
  intros Hwf Hv Hsh Hg ix'. set (id := x_nextId ix) in *. set (new := mkNode chunkId vector (replicate (k + 1) [])) in *.
  assert (length nodes = S (length (x_nodes ix))) as Hlen.
  { apply (f_equal length) in Hsh. unfold shape in Hsh. rewrite !length_fmap, length_app in Hsh. simpl in Hsh. lia. }
  assert (nodes.*1 = Z.of_nat <$> seq 0 (length nodes)) as Hids.
  { rewrite <-(shape_keys nodes), Hsh, shape_keys, fmap_app, Hlen, seq_S, fmap_app. simpl.
    rewrite (wf_ids ix Hwf). unfold id. by rewrite (wf_next ix Hwf). }
  assert (x_nextId ix' = Z.of_nat (length nodes)) as Hnext by (simpl; unfold id; rewrite (wf_next ix Hwf); lia).
  assert (id ∉ (x_nodes ix).*1) as Hfresh by (intros Hin%(wf_key_range ix _ Hwf); lia).
  assert (∀ y, map_get y (shape nodes) = (λ n, (n_chunkId n, n_vector n, length (n_neighbors n))) <$>
             (if decide (y = id) then Some new else map_get y (x_nodes ix))) as Hget.
  { intros y. rewrite Hsh, shape_get, <-map_set_new by done. case_decide as Hy; [subst y; by rewrite map_get_set_eq|].
    by rewrite map_get_set_ne. }
  assert (∀ y n, map_get y nodes = Some n → n_vector n ≠ [] ∧ 1 ≤ length (n_neighbors n) ∧
            (y = id ∧ length (n_neighbors n) = S k ∨ length (n_neighbors n) ≤ S (x_maxLayer ix))) as Hlev.
  { intros y n Hn. pose proof (Hget y) as Hy. rewrite shape_get, Hn in Hy. case_decide; simpl in Hy.
    - injection Hy as _ -> ->. rewrite length_replicate. split_and!; [done|lia|left; split; [done|lia]].
    - destruct (map_get y (x_nodes ix)) as [n'|] eqn:Hn'; [|done]. injection Hy as _ -> ->.
      destruct (wf_levels ix Hwf y n' Hn') as [? ?]. split_and!; [done|lia|right; lia]. }
  split; intros Hcase; constructor; simpl; try done.
  - right. pose proof (Hget id) as Hy. rewrite shape_get, decide_True in Hy by done.
    destruct (map_get id nodes) as [n|]; [|done]. exists n. split; [done|]. injection Hy as _ _ ->. rewrite length_replicate. lia.
  - intros y n Hn. destruct (Hlev y n Hn) as (? & ? & Hle). split; [done|].
    destruct Hle as [[_ ->]|Hle]; [lia|]. destruct Hcase as [Hnil|]; [|lia].
    pose proof (Hget y) as Hy. rewrite shape_get, Hn, Hnil in Hy. case_decide; simpl in Hy; [|done].
    injection Hy as _ _ ->. rewrite length_replicate. lia.
  - destruct Hcase as [Hne Hk]. right. destruct (wf_entry ix Hwf) as [[? _]|(n & Hn & Hl)]; [done|].
    assert (x_entryPointId ix ≠ id) as Hne' by (intros E; apply Hfresh, map_get_keys; rewrite <-E, Hn; done).
    pose proof (Hget (x_entryPointId ix)) as Hy. rewrite shape_get, decide_False, Hn in Hy by done.
    destruct (map_get (x_entryPointId ix) nodes) as [n'|]; [|done]. exists n'. split; [done|]. injection Hy as _ _ ->. done.
  - destruct Hcase as [_ Hk]. intros y n Hn. destruct (Hlev y n Hn) as (? & ? & [[_ ->]|Hle]); split; auto; lia.
Qed.

Lemma insert_at_run k chunkId vector ix :
  index_wf ix → vector ≠ [] →
  ∃ ix', insert_at k chunkId vector ix = (Ret (), ix') ∧ index_wf ix' ∧
    entries_of (x_nodes ix') = entries_of (x_nodes ix) ++ [(chunkId, vector)] ∧
    x_modelName ix' = x_modelName ix ∧ x_config ix' = x_config ix.
Proof.
  intros Hwf Hv. set (new := mkNode chunkId vector (replicate (k + 1) [])).
  destruct (add_node_graph ix new (k + 1) Hwf eq_refl) as (Hnew & Hg & Hkeep & Hun).
  set (id := x_nextId ix) in *. set (nodes1 := map_set id new (x_nodes ix)) in *.
  assert (entries_of nodes1 = entries_of (x_nodes ix) ++ [(chunkId, vector)]) as Hent
    by (rewrite Hnew; unfold entries_of; by rewrite fmap_app).
  unfold insert_at. unfold mbind at 1, M_bind at 1, get_state at 1. cbv beta iota zeta. fold id. fold new.
  erewrite bind_run by reflexivity. fold nodes1.
  case_decide as Hentry.
  - destruct (linked_wf ix nodes1 k chunkId vector Hwf Hv) as [Hwf' _]; [by rewrite Hnew|done|].
    eexists. split; [reflexivity|]. split; [|done]. apply Hwf'. left.
    destruct (wf_entry ix Hwf) as [[? _]|(n & Hn & _)]; [done|].
    assert (x_entryPointId ix ∈ (x_nodes ix).*1) as Hin by (apply map_get_keys; by rewrite Hn).
    apply (wf_key_range ix _ Hwf) in Hin. lia.
  - destruct (wf_entry ix Hwf) as [[_ ?]|(ne & Hne & Hnl)]; [done|].
    destruct (Hkeep (x_maxLayer ix) (x_entryPointId ix)) as [He Hene]; [exists ne; split; [done|lia]|].
    destruct (descend_stays nodes1 _ vector id (x_maxLayer ix) (k + 1) (x_entryPointId ix) Hg Hun He Hene) as [Hd Hdne].
    set (ix1 := set_nextId (id + 1) (set_nodes nodes1 ix)).
    destruct (insert_layers_run id vector (k `min` x_maxLayer ix)
      (descend nodes1 vector (x_entryPointId ix) (layers_down (x_maxLayer ix) (k + 1))) ix1) as (nodes & e & Hrun & Hsh & Hg').
    + done.
    + eapply has_layer_le; [|exact Hd]. lia.
    + done.
    + exists new. split; [apply map_get_set_eq|]. simpl. rewrite length_replicate. lia.
    + done.
    + destruct (linked_wf ix nodes k chunkId vector Hwf Hv) as [Hup Hlow]; [by rewrite Hsh; simpl; rewrite Hnew|done|].
      unfold mbind at 1, M_bind at 1, get_state at 1. cbv beta iota zeta. fold ix1.
      change (x_nodes ix1) with nodes1. change (x_entryPointId ix1) with (x_entryPointId ix).
      change (x_maxLayer ix1) with (x_maxLayer ix). rewrite (bind_run _ _ _ _ _ Hrun).
      eexists. split; [reflexivity|]. simpl.
      assert (entries_of nodes = entries_of nodes1) as Hent' by (by apply shape_entries).
      destruct (Nat.ltb_spec (x_maxLayer ix) k) as [Hlt|Hge]; simpl; rewrite Hent', Hent.
      * split; [|done]. apply Hup. by right.
      * split; [|done]. apply Hlow. split; [|done]. intros E. by rewrite E in Hne.
Qed.

(** ** What an index is after any number of insertions *)

Section build.
Context `{Random}.

Lemma insertOne_run chunkId vector p : index_wf (p_index p) →
  ∃ p', insertOne chunkId vector p = (Ret (), p') ∧ index_wf (p_index p') ∧
    entries_of (x_nodes (p_index p')) =
      entries_of (x_nodes (p_index p)) ++ (if decide (vector = []) then [] else [(chunkId, vector)]) ∧
    x_modelName (p_index p') = x_modelName (p_index p) ∧ x_config (p_index p') = x_config (p_index p).
Proof.
  intros Hwf. unfold insertOne. destruct (Nat.eqb_spec (length vector) 0) as [Hnil|Hne].
  - exists p. apply length_zero_iff_nil in Hnil as ->. rewrite decide_True, app_nil_r by done. done.
  - assert (vector ≠ []) as Hv by (by intros ->). rewrite decide_False by done.
    destruct (randomLayer _ _) as [k draws]. destruct (insert_at_run k chunkId vector (p_index p) Hwf Hv) as (ix & Hrun & Hrest).
    exists (mkProcess ix draws). by rewrite Hrun.
Qed.

Lemma buildFromEntries_run entries p : index_wf (p_index p) →
  ∃ p', buildFromEntries entries p = (Ret (), p') ∧ index_wf (p_index p') ∧
    entries_of (x_nodes (p_index p')) = entries_of (x_nodes (p_index p)) ++ filter (λ e, e.2 ≠ []) entries ∧
    x_modelName (p_index p') = x_modelName (p_index p) ∧ x_config (p_index p') = x_config (p_index p).
Proof.
  revert p. induction entries as [|[c v] es IH]; intros p Hwf.
  { exists p. by rewrite filter_nil, app_nil_r. }
  destruct (insertOne_run c v p Hwf) as (p1 & Hrun & Hwf1 & Hent & Hm & Hc).
  destruct (IH p1 Hwf1) as (p2 & Hrun2 & Hwf2 & Hent2 & Hm2 & Hc2). exists p2. unfold buildFromEntries in *. simpl.
  rewrite (bind_run _ _ _ _ _ Hrun), Hrun2. split_and!; [done..| |by rewrite Hm2|by rewrite Hc2].
  rewrite Hent2, Hent, <-app_assoc. f_equal.
  rewrite filter_cons. simpl. by destruct (decide (v = [])) as [->|]; case_decide.
Qed.

(** C16 Whatever layers are drawn, building an index never throws, stores every
    entry with a non-empty vector once and in order, and leaves a well-formed
    graph: ids are consecutive, the entry point is on the top layer, and the
    neighbours of a node on a layer are at most [2 * m] distinct other nodes
    that exist and are on that layer too. *)
Theorem hnsw_build_invariant entries p : index_wf (p_index p) →
  ∃ p', buildFromEntries entries p = (Ret (), p') ∧ index_wf (p_index p') ∧
    entries_of (x_nodes (p_index p')) = entries_of (x_nodes (p_index p)) ++ filter (λ e, e.2 ≠ []) entries.
Proof. intros Hwf. destruct (buildFromEntries_run entries p Hwf) as (p' & ? & ? & ? & _). eauto. Qed.
End build.

(** ** Queries *)

Definition layer0_entry (ix : HnswIndex) (q : list double) : Z :=
  descend (x_nodes ix) q (x_entryPointId ix) (layers_down (x_maxLayer ix) 1).

Definition numeric_query (ix : HnswIndex) (q : list double) : Prop :=
  ∀ id n, map_get id (x_nodes ix) = Some n → not_nan (distance q (n_vector n)) = true.

Lemma layer0_entry_ok ix q : index_wf ix → x_nodes ix ≠ [] → ∃ n, map_get (layer0_entry ix q) (x_nodes ix) = Some n.
Proof.
  intros Hwf Hne. destruct (wf_entry ix Hwf) as [[? _]|(n & Hn & Hl)]; [done|].
  destruct (descend_stays (x_nodes ix) (c_m (x_config ix)) q (x_nextId ix) (x_maxLayer ix) 1 (x_entryPointId ix))
    as [(n' & Hn' & _) _].
  - apply Hwf.
  - intros lc y Hin. destruct (graph_ok_links _ _ lc y (wf_graph ix Hwf)) as (_ & _ & Hall).
    destruct (Hall _ Hin) as [_ (z & Hz & _)]. assert (x_nextId ix ∈ (x_nodes ix).*1) as Hk by (apply map_get_keys; by rewrite Hz).
    apply (wf_key_range ix _ Hwf) in Hk. lia.
  - exists n. split; [done|lia].
  - intros E. assert (x_nextId ix ∈ (x_nodes ix).*1) as Hk by (apply map_get_keys; by rewrite <-E, Hn).
    apply (wf_key_range ix _ Hwf) in Hk. lia.
  - by exists n'.
Qed.

(** Rows of a result list. *)
Lemma search_rows nodes q found : Forall (item_of nodes q) found →
  ∃ rows, answer_rows nodes found = Ret rows ∧
    Forall2 (λ id row, ∃ n, map_get id nodes = Some n ∧ row = (n_chunkId n, d_sub (d_of_Z 1) (distance q (n_vector n))))
      (hi_id <$> found) rows.
Proof.
  induction 1 as [|c cs (n & Hn & Hd) Hcs (rows & Hrun & HF)]; simpl; [by exists []|].
  rewrite Hrun, Hn. eexists. split; [reflexivity|]. constructor; [|done]. exists n. by rewrite Hd.
Qed.

Lemma NoDup_keys_length nodes (ids : list Z) :
  NoDup ids → (∀ y, y ∈ ids → is_Some (map_get (V := Node) y nodes)) → length ids ≤ length nodes.
Proof.
  intros Hnd Hin. rewrite <-(length_fmap fst nodes). apply submseteq_length, NoDup_submseteq; [done|].
  intros y Hy. by apply map_get_keys, Hin.
Qed.

(** A beam as wide as the index visits everything the entry leads to. *)
Lemma wide_beam_exhaustive nodes q ef layer entry n :
  (∀ id n, map_get id nodes = Some n → not_nan (distance q (n_vector n)) = true) →
  map_get entry nodes = Some n → length nodes ≤ ef →
  ∀ v, v ∈ hi_id <$> searchLayer nodes q ef layer entry ↔
       rtc (λ x y, y ∈ links nodes layer x) entry v ∧ is_Some (map_get v nodes).
Proof.
  intros Hnum Hn Hef. destruct (searchLayer_shape nodes q ef layer entry n Hn) as [Hi Hnd Hlen Hr].
  destruct (searchLayer_best nodes q ef layer entry Hnum n Hn) as [_ (visited & He & Hvr & Hcl & Hbest)].
  set (found := searchLayer nodes q ef layer entry) in *.
  assert (∀ y, y ∈ hi_id <$> found → is_Some (map_get y nodes)) as Hkey.
  { intros y (x & -> & Hx)%list_elem_of_fmap. rewrite Forall_forall in Hi. destruct (Hi x Hx) as (nx & -> & _). done. }
  assert (∀ v, v ∈ visited → is_Some (map_get v nodes) → v ∈ hi_id <$> found) as Hall.
  { intros v Hv [nv Hnv]. destruct (Hbest v nv Hv Hnv) as [?|[Hle _]]; [done|].
    destruct (decide (v ∈ hi_id <$> found)) as [|Hnot]; [done|].
    assert (length (v :: (hi_id <$> found)) ≤ length nodes) as Hl.
    { apply NoDup_keys_length; [by constructor|]. intros y [->|Hy]%elem_of_cons; [by rewrite Hnv|by apply Hkey]. }
    simpl in Hl. rewrite length_fmap in Hl. lia. }
  intros v. split.
  - intros Hv. split; [|by apply Hkey]. apply list_elem_of_fmap in Hv as (x & -> & Hx). by apply Hr.
  - intros [Hrt Hv]. apply Hall; [|done]. clear Hv. revert v Hrt. apply rtc_ind_r; [done|].
    intros u w Hru Huw Hu. apply Hall in Hu as (x & -> & Hx)%list_elem_of_fmap; [by eapply Hcl|].
    unfold links in Huw. destruct (map_get u nodes); [done|set_solver].
Qed.

(** Node [a] is at most as far from the query as node [b]. *)
Definition closer (ix : HnswIndex) (q : list double) (a b : Z) : Prop :=
  ∃ na nb, map_get a (x_nodes ix) = Some na ∧ map_get b (x_nodes ix) = Some nb ∧
           d_leb (distance q (n_vector na)) (distance q (n_vector nb)) = true.

Lemma closer_items ix q x y : item_of (x_nodes ix) q x → item_of (x_nodes ix) q y →
  d_leb (hi_dist x) (hi_dist y) = true → closer ix q (hi_id x) (hi_id y).
Proof. intros (nx & Hx & Hdx) (ny & Hy & Hdy). rewrite Hdx, Hdy. by exists nx, ny. Qed.

Lemma sorted_ids ix q found k : Forall (item_of (x_nodes ix) q) found →
  StronglySorted (λ a b, d_leb (hi_dist a) (hi_dist b) = true) found →
  StronglySorted (closer ix q) (hi_id <$> take k found).
Proof.
  intros Hi Hs. revert k. induction Hs as [|x xs Hs IH Hall]; intros k; [rewrite take_nil; constructor|].
  apply Forall_cons in Hi as [Hx Hi]. destruct k as [|k]; [constructor|]. simpl. constructor; [by apply IH|].
  apply Forall_forall. intros z (y & -> & Hy%subseteq_take)%list_elem_of_fmap. rewrite Forall_forall in Hi, Hall.
  apply closer_items; auto.
Qed.

Definition row_of (ix : HnswIndex) (q : list double) (id : Z) (row : string * double) : Prop :=
  ∃ n, map_get id (x_nodes ix) = Some n ∧ row = (n_chunkId n, d_sub (d_of_Z 1) (distance q (n_vector n))).

(** C17 A query on a well-formed index whose distances to the query are numbers
    returns at most [k] rows, at least one when the index has a node and [k] is
    positive; they belong to distinct nodes in ascending order of distance, each
    with its chunk and its similarity.  When the beam is at least as wide as the
    index, the search is exact on the part of the bottom layer that its entry
    leads to: a node left out is not closer than any node returned, and [k] rows
    were returned. *)
Theorem search_nearest ix q k ef : index_wf ix → numeric_query ix q →
  ∃ rows ids, search ix q k ef = Ret rows ∧ length ids ≤ k ∧ (x_nodes ix ≠ [] → 1 ≤ k → ids ≠ []) ∧
    NoDup ids ∧ Forall2 (row_of ix q) ids rows ∧ StronglySorted (closer ix q) ids ∧
    (length (x_nodes ix) ≤ (ef or_else c_efSearch (x_config ix)) `max` k →
     ∀ v, rtc (λ x y, y ∈ links (x_nodes ix) 0 x) (layer0_entry ix q) v → is_Some (map_get v (x_nodes ix)) →
     v ∈ ids ∨ length ids = k ∧ ∀ a, a ∈ ids → closer ix q a v).
Proof.
  intros Hwf Hnum. unfold search. set (e := ef or_else c_efSearch (x_config ix)).
  destruct (decide (x_nodes ix = [])) as [Hnil|Hne].
  { exists [], []. rewrite Hnil, orb_true_r. split_and!; [done|simpl; lia|done|constructor|constructor|constructor|].
    intros _ v _ [? ?]. done. }
  destruct (layer0_entry_ok ix q Hwf Hne) as [n Hn].
  assert (bool_decide (x_entryPointId ix = -1)%Z || (length (x_nodes ix) =? 0)%nat = false) as ->.
  { apply orb_false_iff. split; [|apply Nat.eqb_neq; by destruct (x_nodes ix)]. apply bool_decide_eq_false. intros E.
    destruct (wf_entry ix Hwf) as [[? _]|(n' & Hn' & _)]; [done|].
    assert (x_entryPointId ix ∈ (x_nodes ix).*1) as Hk by (apply map_get_keys; by rewrite Hn').
    apply (wf_key_range ix _ Hwf) in Hk. lia. }
  fold (layer0_entry ix q). set (found := searchLayer (x_nodes ix) q (e `max` k) 0 (layer0_entry ix q)).
  destruct (searchLayer_shape _ q (e `max` k) 0 _ n Hn) as [Hi Hnd Hlen _]. fold found in Hi, Hnd, Hlen.
  destruct (searchLayer_best _ q (e `max` k) 0 _ Hnum n Hn) as [Hs _]. fold found in Hs.
  destruct (search_rows (x_nodes ix) q (take k found)) as (rows & Hrun & HF); [by apply Forall_take|].
  exists rows, (hi_id <$> take k found). split_and!; [done|rewrite length_fmap, length_take; lia| | |done|by apply sorted_ids|].
  - intros _ Hk. destruct found; simpl in Hlen; [lia|]. destruct k; [lia|done].
  - rewrite fmap_take. eapply sublist_NoDup; [exact Hnd|]. apply sublist_take.
  - intros Hwide v Hrt Hv. pose proof (wide_beam_exhaustive _ q _ 0 _ n Hnum Hn Hwide v) as Hex. fold found in Hex.
    destruct Hex as [_ Hex]. specialize (Hex (conj Hrt Hv)). apply list_elem_of_fmap in Hex as (x & -> & Hx).
    rewrite <-(take_drop k found) in Hx. apply elem_of_app in Hx as [Hx|Hx]; [left; by apply list_elem_of_fmap_2|]. right.
    split.
    + rewrite length_fmap, length_take. apply list_elem_of_lookup in Hx as [i Hx%lookup_lt_Some].
      rewrite length_drop in Hx. lia.
    + intros a (y & -> & Hy)%list_elem_of_fmap. rewrite Forall_forall in Hi.
      apply closer_items; [apply Hi; by eapply subseteq_take|apply Hi; by eapply subseteq_drop|].
      by apply (sorted_prefix_before _ k found y x Hs).
Qed.

(** ** Round trip through the serialized form *)

Lemma load_nodes_run sns ix :
  foldl load_node ix ((λ '(id, n), mkSerialNode id (n_chunkId n) (n_vector n) (n_neighbors n)) <$> sns) =
  mkIndex (foldl (λ m '(k, v), map_set k v m) (x_nodes ix) sns) (x_entryPointId ix) (x_maxLayer ix)
    (foldl (λ next '(k, _), if (next <=? k)%Z then (k + 1)%Z else next) (x_nextId ix) sns) (x_modelName ix) (x_config ix).
Proof.
  revert ix. induction sns as [|[id n] sns IH]; intros ix; simpl; [by destruct ix|].
  rewrite IH. unfold load_node. simpl. destruct n. by destruct (x_nextId ix <=? id)%Z.
Qed.

Lemma fold_map_set {V} (xs acc : list (Z * V)) :
  NoDup (acc ++ xs).*1 → foldl (λ m '(k, v), map_set k v m) acc xs = acc ++ xs.
Proof.
  revert acc. induction xs as [|[k v] xs IH]; intros acc Hnd; simpl; [by rewrite app_nil_r|].
  rewrite map_set_new.
  - rewrite IH; rewrite <-app_assoc; done.
  - rewrite fmap_app in Hnd. apply NoDup_app in Hnd as (_ & Hd & _). intros Hin. by apply (Hd k Hin), elem_of_cons; left.
Qed.

Lemma fold_next_id {V} (xs : list (Z * V)) a :
  xs.*1 = Z.of_nat <$> seq a (length xs) →
  foldl (λ next '(k, _), if (next <=? k)%Z then (k + 1)%Z else next) (Z.of_nat a) xs = Z.of_nat (a + length xs).
Proof.
  revert a. induction xs as [|[k v] xs IH]; intros a Hk; simpl in *; [f_equal; lia|].
  injection Hk as -> Hk. rewrite Z.leb_refl. replace (Z.of_nat a + 1)%Z with (Z.of_nat (S a)) by lia.
  rewrite IH by done. f_equal. lia.
Qed.

(** Reading back what was serialized gives the same index, with one
    exception: the search-time beam width is not stored, and the default of 50
    takes its place. *)
Lemma deserialize_serialize ix : index_wf ix →
  deserialize (serialize ix) =
    mkIndex (x_nodes ix) (x_entryPointId ix) (x_maxLayer ix) (x_nextId ix) (x_modelName ix)
      (mkConfig (c_m (x_config ix)) (c_efConstruction (x_config ix)) 50).
Proof.
  intros Hwf. unfold deserialize, serialize. simpl. rewrite load_nodes_run. simpl. f_equal.
  - rewrite fold_map_set; [done|]. simpl. rewrite (wf_ids ix Hwf). apply NoDup_fmap_2; [apply _|]. apply NoDup_seq.
  - rewrite (wf_next ix Hwf). apply (fold_next_id (x_nodes ix) 0), Hwf.
Qed.

(** ** A small index *)

Definition vec (xs : list Z) : list double := d_of_Z <$> xs.

Definition demo_random : Random := λ n, if (n mod 5 =? 0)%nat then d_zero else d_of_Z 1.

Definition demo_entries : list (string * list double) :=
  [("a", vec [1; 0]%Z); ("b", vec [0; 1]%Z); ("empty", []); ("c", vec [1; 1]%Z); ("d", vec [2; 1]%Z); ("e", vec [-1; 0]%Z)].

Definition demo_start : Process := mkProcess (new_index "demo" (mkConfig 2 4 3)) 0.

Definition demo_process : Process :=
  foldl (λ p e, snd (insertOne (H := demo_random) e.1 e.2 p)) demo_start demo_entries.

Lemma demo_wf : index_wf (p_index demo_process).
Proof.
  unfold demo_process. assert (index_wf (p_index demo_start)) as Hwf by apply new_index_wf.
  revert Hwf. generalize demo_start. induction demo_entries as [|e es IH]; intros p Hwf; [done|]. simpl. apply IH.
  destruct (insertOne_run (H := demo_random) e.1 e.2 p Hwf) as (p' & -> & Hwf' & _). done.
Qed.

Lemma hnsw_build_invariant_witness :
  ∃ p', buildFromEntries (H := demo_random) demo_entries demo_start = (Ret (), p') ∧
    index_wf (p_index p') ∧
    entries_of (x_nodes (p_index p')) = [] ++ filter (λ e, e.2 ≠ []) demo_entries.
Proof. exact (hnsw_build_invariant (H := demo_random) demo_entries demo_start (new_index_wf _ _)). Defined.

Lemma search_nearest_witness :
  (∃ rows, search (p_index demo_process) (vec [3; 1]%Z) 2 None = Ret rows ∧ rows.*1 = ["d"; "a"]) ∧
  ∃ rows ids, search (p_index demo_process) (vec [3; 1]%Z) 2 None = Ret rows ∧ length ids ≤ 2 ∧ NoDup ids ∧
    Forall2 (row_of (p_index demo_process) (vec [3; 1]%Z)) ids rows.
Proof.
  split; [eexists; split; vm_compute; reflexivity|].
  assert (numeric_query (p_index demo_process) (vec [3; 1]%Z)) as Hnum.
  { intros id n Hn%map_get_elem. revert Hn.
    assert (Forall (λ kn, not_nan (distance (vec [3; 1]%Z) (n_vector kn.2)) = true) (x_nodes (p_index demo_process))) as Hall
      by by_decision.
    rewrite Forall_forall in Hall. intros Hn. exact (Hall (id, n) Hn). }
  destruct (search_nearest (p_index demo_process) (vec [3; 1]%Z) 2 None demo_wf Hnum)
    as (rows & ids & Hrun & Hlen & _ & Hnd & HF & _). exists rows, ids. auto.
Defined.
