(* ===== verification/Files.v ===== *)
(** * The file tools

    [packages/opencode-app/src/tools]: [tool-paths.ts], [diff-summary.ts],
    [read-tool.ts], [write-tool.ts], [edit-tool.ts].

    A path is the list of its segments from the root of a POSIX file system; a
    repository root is such a list.  The tools run on any state with the file
    operations of Node ([NodeFs]).  [FileSystem] is the instance without symbolic
    links, a map from paths to files and directories; Links.v has the instance
    with symbolic links, which the theorem about confinement is about.  The message
    of a system error is its code.  Strings are ASCII, so their bytes are their
    code units. *)

From S2P Require Import Prelude.
From Stdlib Require Import Ascii String.
From stdpp Require Import prelude list strings gmap.
Set Default Goal Selector "!".
Set Default Proof Using "Type".
Set Warnings "-clear-no-such-hyp".
#[local] Arguments String.append : simpl nomatch.

(** ** Strings and lines *)

Definition cons_head (c : ascii) (ls : list string) : list string :=
  match ls with
  | [] => [String c ""]
  | l :: ls => String c l :: ls
  end.

(** [s.split(/\r?\n/)]. *)
Fixpoint split_crlf (s : string) : list string :=
  match s with
  | EmptyString => [""]
  | String c t =>
    if decide (c = LF) then "" :: split_crlf t
    else match t with
         | String d t' =>
           if decide (c = CR ∧ d = LF) then "" :: split_crlf t' else cons_head c (split_crlf t)
         | EmptyString => [String c ""]
         end
  end.

(** [s.split(sep)] for a non-empty separator: [skip] units of a separator are
    still to be passed over. *)
Fixpoint split_from (sep : string) (skip : nat) (s : string) : list string :=
  match s with
  | EmptyString => [""]
  | String c t =>
    match skip with
    | S skip => split_from sep skip t
    | O => if String.prefix sep s then "" :: split_from sep (String.length sep - 1) t
           else cons_head c (split_from sep 0 t)
    end
  end.

Definition split_on (sep s : string) : list string := split_from sep 0 s.

(** [if (lines[lines.length - 1] === "") lines.pop()]. *)
Definition pop_empty (lines : list string) : list string :=
  match last lines with
  | Some "" => removelast lines
  | _ => lines
  end.

Definition splitComparableLines (content : string) : list string :=
  if decide (content = "") then [] else pop_empty (split_crlf content).

(** ** Paths *)

Abbreviation Path := (list string).

Definition resolve_step (acc : Path) (segment : string) : Path :=
  if decide (segment = "" ∨ segment = ".") then acc
  else if decide (segment = "..") then removelast acc
  else acc ++ [segment].

(** [path.resolve(base, p)] for an absolute [base]. *)
Definition path_resolve (base : Path) (p : string) : Path :=
  foldl resolve_step (if startsWith p "/" then [] else base) (split_on "/" p).

Fixpoint relative_segments (from to : Path) : Path :=
  match from, to with
  | f :: from', t :: to' => if decide (f = t) then relative_segments from' to' else ((λ _, "..") <$> from) ++ to
  | _, _ => ((λ _, "..") <$> from) ++ to
  end.

(** [path.relative(from, to)] of two absolute paths. *)
Definition path_relative (from to : Path) : string := Prelude.join "/" (relative_segments from to).

Record ResolvedRepoPath : Type := mkResolved { absolutePath : Path; relativePath : string }.

(** On POSIX [path.isAbsolute(relative)] is false and the separator is the
    slash. *)
Definition resolveRepoPath (repoRoot : Path) (requestedPath : string) : outcome ResolvedRepoPath :=
  let absolute := path_resolve repoRoot requestedPath in
  let relative := path_relative repoRoot absolute in
  if startsWith relative ".." then Throw ("Path '" +:+ requestedPath +:+ "' is outside the repository.")
  else Ret (mkResolved absolute (if decide (relative = "") then "." else relative)).

(** ** The file system

    A tree without symbolic links: a path is where its segments say. *)

Inductive Entry : Type := File (content : string) | Dir.

Abbreviation FileSystem :=
  (@gmap (list string) (@list_eq_dec string String.eq_dec) (@list_countable string String.eq_dec String.countable) Entry).

Definition existsSync (p : Path) (fs : FileSystem) : bool := bool_decide (p = []) || bool_decide (is_Some (fs !! p)).

Definition is_dir (fs : FileSystem) (p : Path) : bool :=
  match p, fs !! p with
  | [], _ => true
  | _, Some Dir => true
  | _, _ => false
  end.

Definition readFileSync (p : Path) : M FileSystem string := λ fs,
  if is_dir fs p then (Throw "EISDIR", fs)
  else match fs !! p with
       | Some (File c) => (Ret c, fs)
       | _ => (Throw "ENOENT", fs)
       end.

Definition writeFileSync (p : Path) (content : string) : M FileSystem () := λ fs,
  if is_dir fs p then (Throw "EISDIR", fs)
  else if is_dir fs (removelast p) then (Ret (), <[p := File content]> fs)
  else (Throw "ENOENT", fs).

Definition unlinkSync (p : Path) : M FileSystem () := λ fs,
  if is_dir fs p then (Throw "EISDIR", fs)
  else match fs !! p with
       | Some (File _) => (Ret (), delete p fs)
       | _ => (Throw "ENOENT", fs)
       end.

(** [mkdirSync(p, { recursive: true })]: the prefixes of [p] from the shortest. *)
Fixpoint mkdir_from (done rest : Path) : M FileSystem () := λ fs,
  match rest with
  | [] => (Ret (), fs)
  | s :: rest =>
    let p := done ++ [s] in
    match fs !! p with
    | Some Dir => mkdir_from p rest fs
    | Some (File _) => (Throw (if decide (rest = []) then "EEXIST" else "ENOTDIR"), fs)
    | None => mkdir_from p rest (<[p := Dir]> fs)
    end
  end.

Definition mkdirSync (p : Path) : M FileSystem () := mkdir_from [] p.

(** The file operations that the tools use, on a state [W]. *)
Class NodeFs (W : Type) : Type := {
  fs_existsSync : Path → W → bool;
  fs_readFileSync : Path → M W string;
  fs_writeFileSync : Path → string → M W ();
  fs_unlinkSync : Path → M W ();
  fs_mkdirSync : Path → M W ();
}.

#[export] Instance plain_files : NodeFs FileSystem := {|
  fs_existsSync := existsSync;
  fs_readFileSync := readFileSync;
  fs_writeFileSync := writeFileSync;
  fs_unlinkSync := unlinkSync;
  fs_mkdirSync := mkdirSync;
|}.

(** The operations of [FileSystem] in a goal. *)
Ltac plain_fs :=
  cbn [fs_existsSync fs_readFileSync fs_writeFileSync fs_unlinkSync fs_mkdirSync plain_files].

(** [try { ... } catch]: an outcome into the monad. *)
Definition lift_outcome {W A : Type} (o : outcome A) : M W A := λ w, (o, w).

(** ** Diff summaries *)

Record ToolDiffSummary : Type := mkDiff { filesChanged : nat; additions : nat; deletions : nat; diff_paths : list string }.

(** The length of the longest common prefix: [while (... xs[n] === ys[n]) n += 1]. *)
Fixpoint common_prefix (xs ys : list string) : nat :=
  match xs, ys with
  | x :: xs, y :: ys => if decide (x = y) then S (common_prefix xs ys) else 0
  | _, _ => 0
  end.

Definition summarizeTextDiff (filePath before after : string) : ToolDiffSummary :=
  if decide (before = after) then mkDiff 0 0 0 []
  else
    let beforeLines := splitComparableLines before in
    let afterLines := splitComparableLines after in
    let prefix := common_prefix beforeLines afterLines in
    let suffix := common_prefix (rev (drop prefix beforeLines)) (rev (drop prefix afterLines)) in
    mkDiff 1 (length afterLines - prefix - suffix) (length beforeLines - prefix - suffix) [filePath].

Definition combineDiffSummaries (summaries : list ToolDiffSummary) : ToolDiffSummary :=
  let paths := js_dedup [] (summaries ≫= diff_paths) in
  mkDiff (length paths) (sum_list (additions <$> summaries)) (sum_list (deletions <$> summaries)) paths.

(** ** Results *)

Inductive ToolResultStatus : Type := succeeded | failed | permission_required | unsupported.

#[global] Instance ToolResultStatus_eq_dec : EqDecision ToolResultStatus.
Proof. solve_decision. Defined.

Record ToolResultMetadata : Type := mkMetadata {
  truncated : bool;
  bytesRead : option nat;
  bytesReturned : option nat;
  omittedBytes : option nat;
  exitCode : option (option Z);
  diffSummary : option ToolDiffSummary;
}.

Definition plain_metadata : ToolResultMetadata := mkMetadata false None None None None None.

Record ToolResultEnvelope (O : Type) : Type := mkResult {
  r_toolName : string;
  r_status : ToolResultStatus;
  r_output : option O;
  r_error : option string;
  r_metadata : ToolResultMetadata;
}.
Global Arguments mkResult {O} _ _ _ _ _.
Global Arguments r_toolName {O} _.
Global Arguments r_status {O} _.
Global Arguments r_output {O} _.
Global Arguments r_error {O} _.
Global Arguments r_metadata {O} _.

Definition failed_result {O : Type} (toolName error : string) : ToolResultEnvelope O :=
  mkResult toolName failed None (Some error) plain_metadata.

(** [try { body } catch (error) { return failed }]. *)
Definition tool_body {W O : Type} (toolName : string) (body : M W (ToolResultEnvelope O)) :
    M W (ToolResultEnvelope O) :=
  try_catch body (λ e, mret (failed_result toolName e)).

(** ** Reading *)

Record ReadInput : Type := mkReadInput {
  rd_path : string; rd_offset : option nat; rd_limit : option nat; rd_maxBytes : option nat;
}.

Record LineSlice : Type := mkSlice { sl_content : string; sl_startLine : nat; sl_endLine : nat; sl_truncated : bool }.

Record ReadToolOutput : Type := mkReadOutput {
  ro_path : string; ro_content : string; ro_startLine : nat; ro_endLine : nat;
}.

(** [value ? a : b] of an optional number. *)
Definition truthy_nat (o : option nat) : option nat := match o with Some (S n) => Some (S n) | _ => None end.

Definition sliceLines (content : string) (offset : nat) (limit : option nat) : LineSlice :=
  let lines := pop_empty (split_crlf content) in
  let selected := match truthy_nat limit with
                  | Some l => take l (drop offset lines)
                  | None => drop offset lines
                  end in
  mkSlice (Prelude.join (String LF "") selected)
    (if (0 <? length selected)%nat then offset + 1 else offset)
    (if (0 <? length selected)%nat then offset + length selected else offset)
    ((0 <? offset)%nat || match limit with Some l => (offset + l <? length lines)%nat | None => false end).

Definition executeReadTool `{NodeFs W} (repoRoot : Path) (input : ReadInput) : M W (ToolResultEnvelope ReadToolOutput) :=
  tool_body "read" (
    resolved ← lift_outcome (resolveRepoPath repoRoot (rd_path input));
    buffer ← fs_readFileSync (absolutePath resolved);
    let read := String.length buffer in
    let content := match truthy_nat (rd_maxBytes input) with
                   | Some maxBytes => if (maxBytes <? read)%nat then String.substring 0 maxBytes buffer else buffer
                   | None => buffer
                   end in
    let lineResult := sliceLines content (rd_offset input or_else 0) (rd_limit input) in
    let returned := String.length (sl_content lineResult) in
    let byteTruncated := match rd_maxBytes input with Some maxBytes => (maxBytes <? read)%nat | None => false end in
    mret (mkResult "read" succeeded
      (Some (mkReadOutput (relativePath resolved) (sl_content lineResult) (sl_startLine lineResult) (sl_endLine lineResult)))
      None
      (mkMetadata (byteTruncated || sl_truncated lineResult) (Some read) (Some returned) (Some (read - returned)) None None))).

(** ** Writing *)

Record WriteInput : Type := mkWriteInput { wr_path : string; wr_content : string; wr_createDirs : option bool }.
Record WriteToolOutput : Type := mkWriteOutput { wo_path : string; wo_bytesWritten : nat }.

Definition executeWriteTool `{NodeFs W} (repoRoot : Path) (input : WriteInput) : M W (ToolResultEnvelope WriteToolOutput) :=
  tool_body "write" (
    resolved ← lift_outcome (resolveRepoPath repoRoot (wr_path input));
    exists_ ← gets (fs_existsSync (absolutePath resolved));
    before ← (if exists_ : bool then fs_readFileSync (absolutePath resolved) else mret "");
    (if wr_createDirs input or_else false then fs_mkdirSync (removelast (absolutePath resolved)) else mret ());;
    fs_writeFileSync (absolutePath resolved) (wr_content input);;
    let bytesWritten := String.length (wr_content input) in
    mret (mkResult "write" succeeded (Some (mkWriteOutput (relativePath resolved) bytesWritten)) None
      (mkMetadata false None (Some bytesWritten) None None
        (Some (summarizeTextDiff (relativePath resolved) before (wr_content input)))))).

(** ** Editing *)

Record EditInput : Type := mkEditInput { ed_path : string; ed_oldText : string; ed_newText : string; ed_replaceAll : option bool }.
Record EditToolOutput : Type := mkEditOutput { eo_path : string; eo_replacements : nat }.

Definition DOLLAR : ascii := ascii_of_nat 36.

(** [GetSubstitution] of ECMAScript without captures: the replacement text of
    [String.prototype.replace] is a template. *)
Fixpoint substitution (matched before after template : string) : string :=
  match template with
  | EmptyString => ""
  | String c t =>
    match t with
    | String d t' =>
      if negb (Ascii.eqb c DOLLAR) then String c (substitution matched before after t)
      else if Ascii.eqb d DOLLAR then String DOLLAR (substitution matched before after t')
      else if Ascii.eqb d "&" then matched +:+ substitution matched before after t'
      else if Ascii.eqb d "`" then before +:+ substitution matched before after t'
      else if Ascii.eqb d "'" then after +:+ substitution matched before after t'
      else String c (substitution matched before after t)
    | EmptyString => String c ""
    end
  end.

(** [original.replace(oldText, newText)] with a string pattern: the first
    occurrence. *)
Definition replace_first (oldText newText original : string) : string :=
  match indexOf original oldText with
  | None => original
  | Some i =>
    let before := String.substring 0 i original in
    let after := String.substring (i + String.length oldText) (String.length original) original in
    before +:+ substitution oldText before after newText +:+ after
  end.

Definition executeEditTool `{NodeFs W} (repoRoot : Path) (input : EditInput) : M W (ToolResultEnvelope EditToolOutput) :=
  tool_body "edit" (
    resolved ← lift_outcome (resolveRepoPath repoRoot (ed_path input));
    original ← fs_readFileSync (absolutePath resolved);
    if negb (includes original (ed_oldText input)) then
      mret (failed_result "edit" ("Text to replace was not found in " +:+ relativePath resolved +:+ "."))
    else
      let all := ed_replaceAll input or_else false in
      let parts := split_on (ed_oldText input) original in
      let replacements := if all then length parts - 1 else 1 in
      let updated := if all then Prelude.join (ed_newText input) parts
                     else replace_first (ed_oldText input) (ed_newText input) original in
      fs_writeFileSync (absolutePath resolved) updated;;
      mret (mkResult "edit" succeeded (Some (mkEditOutput (relativePath resolved) replacements)) None
        (mkMetadata false (Some (String.length original)) (Some (String.length updated)) None None
          (Some (summarizeTextDiff (relativePath resolved) original updated))))).

(** ** Facts about strings *)

Lemma append_nil_r s : s +:+ "" = s.
Proof. induction s as [|c s IH]; [done|]. simpl. f_equal. apply IH. Qed.

Lemma append_assoc (s t u : string) : (s +:+ t) +:+ u = s +:+ t +:+ u.
Proof. induction s as [|c s IH]; [done|]. simpl. f_equal. apply IH. Qed.

Lemma length_append s t : String.length (s +:+ t) = String.length s + String.length t.
Proof. induction s as [|c s IH]; [done|]. simpl. f_equal. apply IH. Qed.

Lemma prefix_iff p s : String.prefix p s = true ↔ ∃ t, s = p +:+ t.
Proof.
  revert s. induction p as [|c p IH]; intros s; [split; [by exists s|by destruct s]|].
  destruct s as [|d s]; [split; [done|by intros []]|]. simpl. destruct (ascii_dec c d) as [->|Hne].
  - rewrite IH. split; intros [t Ht]; exists t; congruence.
  - split; [done|]. intros [t Ht]. congruence.
Qed.

Lemma prefix_append p t : String.prefix p (p +:+ t) = true.
Proof. apply prefix_iff. by exists t. Qed.

Lemma substring_all n s : String.length s ≤ n → String.substring 0 n s = s.
Proof. revert n. induction s as [|c s IH]; intros [|n] Hn; simpl in *; try done; [lia|]. rewrite IH by lia. done. Qed.

Lemma substring_0_append a b : String.substring 0 (String.length a) (a +:+ b) = a.
Proof. induction a as [|c a IH]; simpl; [by destruct b|]. by rewrite IH. Qed.

Lemma substring_skip_append a b n : String.length b ≤ n → String.substring (String.length a) n (a +:+ b) = b.
Proof. intros Hn. induction a as [|c a IH]; simpl; [by apply substring_all|done]. Qed.

(** The first occurrence of a text. *)
Lemma indexOf_Some s p i : indexOf s p = Some i →
  ∃ a b, s = a +:+ p +:+ b ∧ String.length a = i ∧
         ∀ a' b', s = a' +:+ p +:+ b' → String.length a ≤ String.length a'.
Proof.
  revert i. induction s as [|c s IH]; intros i; cbn [indexOf].
  - destruct (String.prefix p "") eqn:Hp; [|done]. intros [= <-]. apply prefix_iff in Hp as [t Ht].
    exists "", t. split_and!; [exact Ht|done|]. intros. simpl. lia.
  - destruct (String.prefix p (String c s)) eqn:Hp.
    + intros [= <-]. apply prefix_iff in Hp as [t Ht]. exists "", t. split_and!; [exact Ht|done|]. intros. simpl. lia.
    + destruct (indexOf s p) as [j|] eqn:Hj; [|done]. intros [= <-]. destruct (IH j eq_refl) as (a & b & -> & Hl & Hmin).
      exists (String c a), b. split_and!; [done|by simpl; rewrite Hl|]. intros [|c' a'] b' Heq.
      * exfalso. assert (String.prefix p (String c (a +:+ p +:+ b)) = true) as E by (apply prefix_iff; by exists b').
        congruence.
      * simpl in Heq. injection Heq as <- Heq. specialize (Hmin _ _ Heq). simpl. lia.
Qed.

Lemma includes_indexOf s p : includes s p = true ↔ is_Some (indexOf s p).
Proof.
  induction s as [|c s IH]; cbn [includes indexOf].
  - destruct (String.prefix p ""); simpl; [done|]. split; [done|by intros []].
  - destruct (String.prefix p (String c s)); simpl; [done|]. rewrite IH. by rewrite fmap_is_Some.
Qed.

Lemma includes_append a p b : includes (a +:+ p +:+ b) p = true.
Proof.
  induction a as [|c a IH].
  - change ("" +:+ p +:+ b) with (p +:+ b). pose proof (prefix_append p b) as Hp.
    by destruct (p +:+ b); cbn [includes]; rewrite Hp.
  - change (String c a +:+ p +:+ b) with (String c (a +:+ p +:+ b)). cbn [includes]. rewrite IH. apply orb_true_r.
Qed.

(** A text is its parts joined by the separator. *)
Lemma join_cons_head c sep ls : ls ≠ [] → Prelude.join sep (cons_head c ls) = String c (Prelude.join sep ls).
Proof. by destruct ls as [|l [|l' ls]]. Qed.

Lemma split_from_cons sep skip s : split_from sep skip s ≠ [].
Proof.
  revert skip. induction s as [|c s IH]; intros skip; cbn [split_from]; [done|]. destruct skip; [|done].
  destruct (String.prefix sep (String c s)); [done|]. specialize (IH 0). by destruct (split_from sep 0 s).
Qed.

Lemma split_from_skip sep t s : split_from sep (String.length t) (t +:+ s) = split_from sep 0 s.
Proof. induction t as [|c t IH]; [done|]. exact IH. Qed.

Lemma split_on_match c sep r : split_on (String c sep) (String c sep +:+ r) = "" :: split_on (String c sep) r.
Proof.
  unfold split_on. change (String c sep +:+ r) with (String c (sep +:+ r)). cbn [split_from].
  change (String c (sep +:+ r)) with (String c sep +:+ r). rewrite prefix_append. f_equal.
  cbn [String.length]. rewrite Nat.sub_succ, Nat.sub_0_r. apply split_from_skip.
Qed.

Lemma split_on_cons sep c s : String.prefix sep (String c s) = false →
  split_on sep (String c s) = cons_head c (split_on sep s).
Proof. intros Hp. unfold split_on. cbn [split_from]. by rewrite Hp. Qed.

Lemma join_split sep s : sep ≠ "" → Prelude.join sep (split_on sep s) = s.
Proof.
  intros Hsep. destruct sep as [|x sep]; [done|]. clear Hsep.
  remember (String.length s) as n eqn:Hn. revert s Hn.
  induction (lt_wf n) as [n _ IH]; intros s Hn. destruct s as [|c s]; [done|].
  destruct (String.prefix (String x sep) (String c s)) eqn:Hp.
  - apply prefix_iff in Hp as [r Hr]. rewrite Hr, split_on_match.
    assert (String.length r < n) as Hlt by (rewrite Hn, Hr, length_append; simpl; lia).
    pose proof (IH _ Hlt r eq_refl) as Hj. pose proof (split_from_cons (String x sep) 0 r) as Hne. unfold split_on in *.
    destruct (split_from (String x sep) 0 r) as [|l ls]; [done|].
    change (Prelude.join (String x sep) ("" :: l :: ls)) with (String x sep +:+ Prelude.join (String x sep) (l :: ls)).
    by rewrite Hj.
  - rewrite split_on_cons by done. rewrite join_cons_head by apply split_from_cons.
    f_equal. apply (IH (String.length s)); [simpl in Hn; lia|done].
Qed.

(** ** Paths stay inside the repository *)

Lemma relative_segments_cases from to :
  (∃ rest, to = from ++ rest ∧ relative_segments from to = rest) ∨
  (¬ (∃ rest, to = from ++ rest) ∧ ∃ l, relative_segments from to = ".." :: l).
Proof.
  revert to. induction from as [|f from IH]; intros to; [left; by exists to|].
  destruct to as [|t to]; simpl.
  - right. split; [by intros []|eauto].
  - case_decide as Hft; [subst t|].
    + destruct (IH to) as [(rest & -> & Hr)|(Hno & l & Hl)]; [left; by exists rest|right].
      split; [|by exists l]. intros [rest Hr]. apply Hno. exists rest. by injection Hr.
    + right. split; [|eauto]. intros [rest Hr]. by injection Hr.
Qed.

Lemma join_head sep x l : ∃ t, Prelude.join sep (x :: l) = x +:+ t.
Proof. destruct l as [|y l]; [exists ""; by rewrite append_nil_r|by exists (sep +:+ Prelude.join sep (y :: l))]. Qed.

(** A requested path is accepted exactly when it resolves to the root or to
    something below it whose relative path does not begin with two dots. *)
Lemma resolveRepoPath_spec root p r :
  resolveRepoPath root p = Ret r ↔
  ∃ rest, path_resolve root p = root ++ rest ∧ startsWith (Prelude.join "/" rest) ".." = false ∧
          r = mkResolved (root ++ rest) (if decide (Prelude.join "/" rest = "") then "." else Prelude.join "/" rest).
Proof.
  unfold resolveRepoPath, path_relative.
  destruct (relative_segments_cases root (path_resolve root p)) as [(rest & -> & Hr)|(Hno & l & Hl)].
  - rewrite Hr. split.
    + destruct (startsWith _ _) eqn:E; [done|]. intros [= <-]. eauto.
    + intros (rest' & Heq & Hs & ->). apply app_inv_head in Heq as <-. by rewrite Hs.
  - rewrite Hl. destruct (join_head "/" ".." l) as [t ->]. unfold startsWith. rewrite prefix_append. split; [done|].
    intros (rest & Hrest & _). exfalso. apply Hno. eauto.
Qed.

Lemma resolve_inside root p r : resolveRepoPath root p = Ret r → ∃ rest, absolutePath r = root ++ rest.
Proof. intros (rest & _ & _ & ->)%resolveRepoPath_spec. by exists rest. Qed.

(** A file of the root whose name begins with two dots is taken for one outside. *)
Lemma dotted_name_refused root : resolveRepoPath root "..config" = Throw "Path '..config' is outside the repository.".
Proof.
  unfold resolveRepoPath, path_relative. assert (path_resolve root "..config" = root ++ ["..config"]) as -> by done.
  destruct (relative_segments_cases root (root ++ ["..config"])) as [(rest & Heq & ->)|(Hno & _)].
  - by apply app_inv_head in Heq as <-.
  - exfalso. apply Hno. eauto.
Qed.

(** A segment that a path keeps when it is resolved. *)
Definition plain_segment (s : string) : Prop := s ≠ "" ∧ s ≠ "." ∧ s ≠ "..".

Lemma resolve_steps_plain segments acc :
  Forall plain_segment acc → Forall plain_segment (foldl resolve_step acc segments).
Proof.
  revert acc. induction segments as [|s segments IH]; intros acc Hacc; [done|]. simpl. apply IH. unfold resolve_step.
  case_decide as H1; [done|]. case_decide as H2.
  - destruct acc as [|x acc _] using rev_ind; [done|]. rewrite removelast_last. by apply Forall_app in Hacc as [? _].
  - apply Forall_app. split; [done|]. apply Forall_singleton. unfold plain_segment. tauto.
Qed.

Lemma path_resolve_plain base p : Forall plain_segment base → Forall plain_segment (path_resolve base p).
Proof. intros Hb. unfold path_resolve. apply resolve_steps_plain. by destruct (startsWith p "/"). Qed.

Lemma resolve_plain root p r : Forall plain_segment root → resolveRepoPath root p = Ret r →
  ∃ rest, absolutePath r = root ++ rest ∧ Forall plain_segment rest.
Proof.
  intros Hroot (rest & Heq & _ & ->)%resolveRepoPath_spec. exists rest. split; [done|].
  pose proof (path_resolve_plain root p Hroot) as Hp. rewrite Heq in Hp. by apply Forall_app in Hp as [_ ?].
Qed.

(** *** Frames

    What a file system promises to the tools: a condition on the repository and
    what is outside of it, such that no operation on a path that is lexically
    below the root breaks the condition or changes anything outside. *)

Class FileFrame (W : Type) : Type := {
  root_ok : Path → W → Prop;
  same_outside : Path → W → W → Prop;
  same_outside_preorder root :: PreOrder (same_outside root);
  root_ok_plain root w : root_ok root w → Forall plain_segment root;
}.

(** The operation keeps the repository in order and what is outside as it is. *)
Definition confined `{FileFrame W} {A : Type} (root : Path) (m : M W A) : Prop :=
  ∀ w, root_ok root w → root_ok root (snd (m w)) ∧ same_outside root w (snd (m w)).

Class ConfinedFs (W : Type) `{FileFrame W} `{NodeFs W} : Prop := {
  confined_read root rest : Forall plain_segment rest → confined root (fs_readFileSync (root ++ rest));
  confined_write root rest c : Forall plain_segment rest → confined root (fs_writeFileSync (root ++ rest) c);
  confined_unlink root rest : Forall plain_segment rest → confined root (fs_unlinkSync (root ++ rest));
  confined_mkdir root rest : Forall plain_segment rest → confined root (fs_mkdirSync (removelast (root ++ rest)));
}.

Section confinement.
Context `{ConfinedFs W}.

Lemma confined_bind {A B : Type} (root : Path) (m : M W A) (k : A → M W B) :
  confined root m → (∀ a, confined root (k a)) → confined root (m ≫= k).
Proof.
  intros Hm Hk w Hok. destruct (Hm w Hok) as [Hok' Hout]. unfold mbind, M_bind.
  destruct (m w) as [[a|e] w']; simpl in *; [|done]. destruct (Hk a w' Hok') as [? Hout']. split; [done|]. by etrans.
Qed.

Lemma confined_ret {A : Type} (root : Path) (a : A) : confined (W:=W) root (mret a).
Proof. by intros w Hok. Qed.

Lemma confined_throw {A : Type} (root : Path) e : confined (W:=W) (A:=A) root (throw e).
Proof. by intros w Hok. Qed.

Lemma confined_gets {A : Type} (root : Path) (f : W → A) : confined root (gets f).
Proof. by intros w Hok. Qed.

Lemma confined_lift {A : Type} (root : Path) (o : outcome A) : confined (W:=W) root (lift_outcome o).
Proof. by intros w Hok. Qed.

(** The path of a tool is resolved first. *)
Lemma confined_resolved {B : Type} (root : Path) p (k : ResolvedRepoPath → M W B) :
  (∀ r rest, absolutePath r = root ++ rest → Forall plain_segment rest → confined root (k r)) →
  confined root (lift_outcome (resolveRepoPath root p) ≫= k).
Proof.
  intros Hk w Hok. unfold mbind, M_bind, lift_outcome. destruct (resolveRepoPath root p) as [r|e] eqn:Hr; [|done].
  destruct (resolve_plain root p r (root_ok_plain root w Hok) Hr) as (rest & Hrest & Hplain). by apply (Hk r rest).
Qed.

Lemma confined_tool {O : Type} (root : Path) name (m : M W (ToolResultEnvelope O)) :
  confined root m → confined root (tool_body name m).
Proof.
  intros Hm w Hok. specialize (Hm w Hok). unfold tool_body, try_catch. by destruct (m w) as [[a|e] w'].
Qed.
End confinement.

Create HintDb confine.
#[export] Hint Resolve confined_ret confined_throw confined_gets confined_lift confined_read confined_write confined_unlink
  confined_mkdir : confine.

Ltac confine :=
  repeat match goal with
  | |- confined _ (tool_body _ _) => apply confined_tool
  | |- confined _ (lift_outcome (resolveRepoPath _ _) ≫= _) =>
    apply confined_resolved; let r := fresh "r" in let rest := fresh "rest" in
    let Hr := fresh "Hr" in let Hp := fresh "Hp" in intros r rest Hr Hp; rewrite Hr
  | |- confined _ (_ ≫= _) => apply confined_bind; [|intros ?]
  | |- confined _ (if ?b then _ else _) => destruct b
  | |- confined _ _ => solve [auto with confine]
  end.

Section tools.
Context `{ConfinedFs W}.

Lemma write_confined (root : Path) input : confined root (executeWriteTool (W:=W) root input).
Proof using Type*. unfold executeWriteTool. confine. Qed.

Lemma edit_confined (root : Path) input : confined root (executeEditTool (W:=W) root input).
Proof using Type*. unfold executeEditTool. confine. Qed.
End tools.

(** Making directories adds missing prefixes and nothing else. *)
Lemma mkdir_from_adds rest : ∀ done fs q,
  snd (mkdir_from done rest fs) !! q = fs !! q ∨ fs !! q = None ∧ ∃ a b, a ≠ [] ∧ rest = a ++ b ∧ q = done ++ a.
Proof.
  induction rest as [|s rest IH]; intros done fs q; simpl; [by left|].
  assert (∀ fs', (fs' = fs ∨ fs !! (done ++ [s]) = None ∧ fs' = <[done ++ [s] := Dir]> fs) →
    snd (mkdir_from (done ++ [s]) rest fs') !! q = fs !! q ∨
    fs !! q = None ∧ ∃ a b, a ≠ [] ∧ s :: rest = a ++ b ∧ q = done ++ a) as Hgo.
  { intros fs' Hfs'. destruct (IH (done ++ [s]) fs' q) as [->|(Hnone & a & b & Ha & -> & ->)].
    - destruct Hfs' as [->|[Hn ->]]; [by left|]. destruct (decide (q = done ++ [s])) as [->|].
      + right. split; [done|]. by exists [s], rest.
      + left. by rewrite lookup_insert_ne.
    - right. split.
      + destruct Hfs' as [->|[Hn ->]]; [done|]. by apply lookup_insert_None in Hnone as [? _].
      + exists (s :: a), b. by rewrite <-app_assoc. }
  destruct (fs !! (done ++ [s])) as [[c|]|] eqn:E; [by left|apply Hgo; by left|apply Hgo; by right].
Qed.

(** ** Edits *)

Fixpoint has_char (c : ascii) (s : string) : bool :=
  match s with
  | EmptyString => false
  | String d s => Ascii.eqb d c || has_char c s
  end.

Lemma substitution_plain matched before after template :
  has_char DOLLAR template = false → substitution matched before after template = template.
Proof.
  induction template as [|c t IH]; [done|]. cbn [has_char]. intros [Hc Ht]%orb_false_iff.
  cbn [substitution]. destruct t as [|d t]; [done|]. rewrite Hc. cbn [negb]. by rewrite IH.
Qed.

Lemma replace_first_exact oldText newText original i :
  indexOf original oldText = Some i → has_char DOLLAR newText = false →
  ∃ a b, original = a +:+ oldText +:+ b ∧ replace_first oldText newText original = a +:+ newText +:+ b ∧
         ∀ a' b', original = a' +:+ oldText +:+ b' → String.length a ≤ String.length a'.
Proof.
  intros Hi Hd. unfold replace_first. rewrite Hi. apply indexOf_Some in Hi as (a & b & Heq & Hl & Hmin).
  exists a, b. split_and!; [done| |done]. rewrite substitution_plain by done. rewrite Heq, <-Hl.
  rewrite substring_0_append. do 2 f_equal. rewrite <-append_assoc, <-length_append.
  apply substring_skip_append. rewrite length_append. lia.
Qed.

(** The outcome of a run of the edit tool on an existing file. *)
Lemma edit_run root input fs r original :
  resolveRepoPath root (ed_path input) = Ret r → fs !! absolutePath r = Some (File original) →
  absolutePath r ≠ [] → is_dir fs (removelast (absolutePath r)) = true → includes original (ed_oldText input) = true →
  let parts := split_on (ed_oldText input) original in
  let all := ed_replaceAll input or_else false in
  let updated := if all then Prelude.join (ed_newText input) parts
                 else replace_first (ed_oldText input) (ed_newText input) original in
  executeEditTool root input fs =
    (Ret (mkResult "edit" succeeded
            (Some (mkEditOutput (relativePath r) (if all then length parts - 1 else 1))) None
            (mkMetadata false (Some (String.length original)) (Some (String.length updated)) None None
              (Some (summarizeTextDiff (relativePath r) original updated)))),
     <[absolutePath r := File updated]> fs).
Proof.
  intros Hr Hf Hne Hdir Hinc parts all updated. unfold executeEditTool, tool_body, try_catch.
  rewrite Hr. plain_fs. unfold mbind, M_bind, lift_outcome, readFileSync.
  assert (is_dir fs (absolutePath r) = false) as Hnd by (unfold is_dir; destruct (absolutePath r); [done|]; by rewrite Hf).
  rewrite Hnd, Hf. rewrite Hinc. cbn [negb]. unfold writeFileSync. by rewrite Hnd, Hdir.
Qed.

(** An edit of an existing file that contains the text replaces its first
    occurrence by the new text and leaves the rest of the file and all other
    files alone, or, with [replaceAll], every occurrence, which it counts; the
    new text must not contain a dollar sign unless all occurrences are
    replaced. *)
Theorem edit_exact root input fs r original :
  resolveRepoPath root (ed_path input) = Ret r → fs !! absolutePath r = Some (File original) →
  absolutePath r ≠ [] → is_dir fs (removelast (absolutePath r)) = true →
  includes original (ed_oldText input) = true → ed_oldText input ≠ "" →
  (ed_replaceAll input ≠ Some true → has_char DOLLAR (ed_newText input) = false) →
  ∃ parts updated md, executeEditTool root input fs =
      (Ret (mkResult "edit" succeeded (Some (mkEditOutput (relativePath r) (length parts - 1))) None md),
       <[absolutePath r := File updated]> fs) ∧
    original = Prelude.join (ed_oldText input) parts ∧ updated = Prelude.join (ed_newText input) parts ∧
    (ed_replaceAll input ≠ Some true →
     ∃ a b, parts = [a; b] ∧ ∀ a' b', original = a' +:+ ed_oldText input +:+ b' → String.length a ≤ String.length a').
Proof.
  intros Hr Hf Hne Hdir Hinc Hold Hplain. rewrite (edit_run root input fs r original) by done.
  destruct (ed_replaceAll input) as [[]|] eqn:Hall; cbn [nullish default from_option].
  - exists (split_on (ed_oldText input) original). do 2 eexists. split; [reflexivity|]. split; [by rewrite join_split|].
    split; [done|]. by intros [].
  - apply includes_indexOf in Hinc as [i Hi].
    destruct (replace_first_exact _ (ed_newText input) _ _ Hi (Hplain ltac:(done))) as (a & b & Ha & Hrep & Hmin).
    exists [a; b]. do 2 eexists. split; [reflexivity|]. split; [done|]. split; [done|]. intros _. by exists a, b.
  - apply includes_indexOf in Hinc as [i Hi].
    destruct (replace_first_exact _ (ed_newText input) _ _ Hi (Hplain ltac:(done))) as (a & b & Ha & Hrep & Hmin).
    exists [a; b]. do 2 eexists. split; [reflexivity|]. split; [done|]. split; [done|]. intros _. by exists a, b.
Qed.

Definition demo_root : Path := ["home"; "repo"].
Definition demo_fs : FileSystem :=
  <[["home"; "repo"; "a.txt"] := File "one two one"]> (<[["home"; "repo"] := Dir]> (<[["home"] := Dir]> ∅)).

Lemma edit_exact_witness :
  ∃ parts updated md, executeEditTool demo_root (mkEditInput "src/../a.txt" "one" "1" (Some true)) demo_fs =
      (Ret (mkResult "edit" succeeded (Some (mkEditOutput "a.txt" (length parts - 1))) None md),
       <[["home"; "repo"; "a.txt"] := File updated]> demo_fs) ∧
    "one two one" = Prelude.join "one" parts ∧ updated = Prelude.join "1" parts.
Proof.
  destruct (edit_exact demo_root (mkEditInput "src/../a.txt" "one" "1" (Some true)) demo_fs
    (mkResolved ["home"; "repo"; "a.txt"] "a.txt") "one two one") as (parts & updated & md & Hrun & H1 & H2 & _);
    try (vm_compute; reflexivity); try done.
  exists parts, updated, md. done.
Defined.

(** The replacement of a single edit is a template: [$&] stands for the text
    that is replaced, and [$$] for one dollar sign. *)
Lemma edit_dollar_expanded :
  snd (executeEditTool demo_root (mkEditInput "a.txt" "two" "$$ $&" None) demo_fs) !! ["home"; "repo"; "a.txt"] =
    Some (File "one $ two one") ∧
  snd (executeEditTool demo_root (mkEditInput "a.txt" "two" "$$ $&" (Some true)) demo_fs) !! ["home"; "repo"; "a.txt"] =
    Some (File "one $$ $& one").
Proof. split; vm_compute; reflexivity. Qed.

(** ** Diff summaries are exact *)

Lemma common_prefix_split xs ys : let n := common_prefix xs ys in
  take n xs = take n ys ∧ n ≤ length xs ∧ n ≤ length ys ∧
  ∀ x y, xs !! n = Some x → ys !! n = Some y → x ≠ y.
Proof.
  revert ys. induction xs as [|x xs IH]; intros ys; simpl; [split_and!; [done|lia|lia|done]|].
  destruct ys as [|y ys]; simpl; [split_and!; [done|lia|lia|done]|]. case_decide as Hxy; simpl.
  - destruct (IH ys) as (Ht & Hx & Hy & Hd). subst y. split_and!; [by f_equal|lia|lia|done].
  - split_and!; [done|lia|lia|]. intros u v [= <-] [= <-]. done.
Qed.

(** Two lists with a common beginning and a common end, measured as
    [summarizeTextDiff] does. *)
Lemma diff_decomposition (xs ys : list string) :
  let prefix := common_prefix xs ys in
  let suffix := common_prefix (rev (drop prefix xs)) (rev (drop prefix ys)) in
  ∃ pre del add suf, xs = pre ++ del ++ suf ∧ ys = pre ++ add ++ suf ∧
    length del = length xs - prefix - suffix ∧ length add = length ys - prefix - suffix ∧
    (∀ x y, head del = Some x → head add = Some y → x ≠ y) ∧ (∀ x y, last del = Some x → last add = Some y → x ≠ y).
Proof.
  intros prefix suffix. destruct (common_prefix_split xs ys) as (Hp & Hpx & Hpy & Hpd). fold prefix in Hp, Hpx, Hpy, Hpd.
  set (dx := drop prefix xs) in *. set (dy := drop prefix ys) in *.
  destruct (common_prefix_split (rev dx) (rev dy)) as (Hs & Hsx & Hsy & Hsd). fold suffix in Hs, Hsx, Hsy, Hsd.
  rewrite !length_rev in Hsx, Hsy.
  assert (length dx = length xs - prefix ∧ length dy = length ys - prefix) as [Hlx Hly]
    by (unfold dx, dy; rewrite !length_drop; lia).
  assert (∀ d : list string, suffix ≤ length d → drop (length d - suffix) d = rev (take suffix (rev d))) as Hrev.
  { intros d Hd. by rewrite firstn_rev, rev_involutive. }
  exists (take prefix xs), (take (length dx - suffix) dx), (take (length dy - suffix) dy), (drop (length dx - suffix) dx).
  assert (drop (length dx - suffix) dx = drop (length dy - suffix) dy) as Hsuf by (rewrite !Hrev by done; by rewrite Hs).
  split_and!.
  - by rewrite take_drop; unfold dx; rewrite take_drop.
  - rewrite Hsuf, take_drop, Hp. unfold dy. by rewrite take_drop.
  - rewrite length_take. lia.
  - rewrite length_take. lia.
  - intros x y Hx Hy. apply (Hpd x y).
    + rewrite <-(Nat.add_0_r prefix), <-lookup_drop. fold dx. rewrite head_lookup in Hx.
      by apply lookup_take_Some in Hx as [? _].
    + rewrite <-(Nat.add_0_r prefix), <-lookup_drop. fold dy. rewrite head_lookup in Hy.
      by apply lookup_take_Some in Hy as [? _].
  - assert (∀ (d : list string) x, suffix ≤ length d → last (take (length d - suffix) d) = Some x → rev d !! suffix = Some x) as Hlast.
    { intros d x Hd Hx. rewrite last_lookup, length_take in Hx. apply lookup_take_Some in Hx as [Hx Hlt].
      rewrite rev_alt. change (rev_append d []) with (reverse d). rewrite reverse_lookup by lia. rewrite <-Hx. f_equal. lia. }
    intros x y Hx Hy. apply (Hsd x y); by apply Hlast.
Qed.

(** The counts of a summary are those of a decomposition of both texts into a
    common beginning, a changed middle and a common end, and the middle has no
    common first or last line. *)
Lemma summary_exact filePath before after : before ≠ after →
  let s := summarizeTextDiff filePath before after in
  filesChanged s = 1 ∧ diff_paths s = [filePath] ∧
  ∃ pre del add suf, splitComparableLines before = pre ++ del ++ suf ∧ splitComparableLines after = pre ++ add ++ suf ∧
    length del = deletions s ∧ length add = additions s ∧
    (∀ x y, head del = Some x → head add = Some y → x ≠ y) ∧ (∀ x y, last del = Some x → last add = Some y → x ≠ y).
Proof.
  intros Hne. unfold summarizeTextDiff. rewrite decide_False by done. split; [done|]. split; [done|]. apply diff_decomposition.
Qed.
