(* ===== verification/ScanPaths.v ===== *)
(** * Canonical paths of indexed files

    [packages/intelligence/src/workspace/scan-paths.ts]: conversions between the
    absolute paths and the repository-relative paths of indexed files, and the
    tests that a path lies within a workspace.

    Paths are strings here, since the source normalizes their backslashes; the
    functions of Node's [path] module are those of POSIX, and [cwd] is the
    working directory of the process. *)

From S2P Require Import Prelude Files.
From Stdlib Require Import Ascii String.
From stdpp Require Import prelude list strings gmap.
Set Default Goal Selector "!".
Set Default Proof Using "Type".
Set Warnings "-clear-no-such-hyp".
#[local] Arguments String.append : simpl nomatch.

Definition SLASH : ascii := ascii_of_nat 47.
Definition BACKSLASH : ascii := ascii_of_nat 92.

(** ** Node's path functions on strings *)

Definition path_string (p : Path) : string := "/" +:+ Prelude.join "/" p.
Definition isAbsolute (p : string) : bool := startsWith p "/".

(** [path.relative(from, to)]: both are resolved first. *)
Definition relative (cwd : Path) (from to : string) : string :=
  path_relative (path_resolve cwd from) (path_resolve cwd to).

Definition normalize_step (absolute : bool) (acc : Path) (segment : string) : Path :=
  if decide (segment = "" ∨ segment = ".") then acc
  else if decide (segment = "..") then
    if decide (acc = [] ∨ last acc = Some "..") then if absolute then acc else acc ++ [".."]
    else removelast acc
  else acc ++ [segment].

Definition endsWith_slash (s : string) : bool := bool_decide (last (split_on "/" s) = Some "").

(** [path.posix.normalize]. *)
Definition path_normalize (s : string) : string :=
  if decide (s = "") then "."
  else
    let absolute := isAbsolute s in
    let trailing := endsWith_slash s in
    let p := Prelude.join "/" (foldl (normalize_step absolute) [] (split_on "/" s)) in
    if decide (p = "") then if absolute then "/" else if trailing then "./" else "."
    else (if absolute then "/" else "") +:+ p +:+ (if trailing then "/" else "").

(** [path.join(a, b)]: empty arguments are left out. *)
Definition path_join (a b : string) : string :=
  if decide (a = "") then path_normalize b
  else if decide (b = "") then path_normalize a
  else path_normalize (a +:+ "/" +:+ b).

(** ** The module *)

(** [input.replace(/\\/g, "/")]. *)
Fixpoint normalizePathSlashes (input : string) : string :=
  match input with
  | EmptyString => ""
  | String c s => String (if Ascii.eqb c BACKSLASH then SLASH else c) (normalizePathSlashes s)
  end.

Definition canonicalizeAbsolutePath (cwd : Path) (input : string) : string :=
  normalizePathSlashes (path_string (path_resolve cwd input)).

(** [relative.startsWith("../") || relative === ".."]. *)
Definition leaves_root (relative : string) : bool := startsWith relative "../" || bool_decide (relative = "..").

Definition toWorkspaceRelativePath (cwd : Path) (workspaceRootAbs targetAbs : string) : option string :=
  let root := canonicalizeAbsolutePath cwd workspaceRootAbs in
  let target := canonicalizeAbsolutePath cwd targetAbs in
  let rel := normalizePathSlashes (relative cwd root target) in
  if decide (rel = "" ∨ rel = ".") then None
  else if leaves_root rel || isAbsolute rel then None
  else Some rel.

Definition isPathWithinWorkspace (cwd : Path) (workspaceRootAbs targetAbs : string) : bool :=
  let root := canonicalizeAbsolutePath cwd workspaceRootAbs in
  let target := canonicalizeAbsolutePath cwd targetAbs in
  let rel := normalizePathSlashes (relative cwd root target) in
  if decide (rel = "") then true
  else if decide (rel = ".") then true
  else if leaves_root rel then false
  else negb (isAbsolute rel).

Definition isSameOrParentPath (cwd : Path) (parentCandidateAbs childCandidateAbs : string) : bool :=
  let parent := canonicalizeAbsolutePath cwd parentCandidateAbs in
  let child := canonicalizeAbsolutePath cwd childCandidateAbs in
  let rel := normalizePathSlashes (relative cwd parent child) in
  if decide (rel = "" ∨ rel = ".") then true
  else if leaves_root rel then false
  else negb (isAbsolute rel).

Inductive FileStatus : Type := fs_indexed | fs_pending | fs_ignored.

Record IndexedFile : Type := mkIndexedFile {
  f_id : string;
  f_path : string;
  f_extension : string;
  f_language : string;
  f_sizeBytes : nat;
  f_status : FileStatus;
  f_ignoredReason : option string;
  f_workspaceRoot : option string;
}.

(** [value ? a : b] of an optional string. *)
Definition truthy_string (o : option string) : option string :=
  match o with
  | Some (String c s) => Some (String c s)
  | _ => None
  end.

Definition resolveIndexedFileAbsolutePath (cwd : Path) (repoRootAbs : string) (file : IndexedFile) : option string :=
  let workspaceRoot := canonicalizeAbsolutePath cwd (truthy_string (f_workspaceRoot file) or_else repoRootAbs) in
  let absolutePath := canonicalizeAbsolutePath cwd (path_join workspaceRoot (f_path file)) in
  if isPathWithinWorkspace cwd workspaceRoot absolutePath then Some absolutePath else None.

Definition toRepoRelativePath (cwd : Path) (repoRootAbs absolutePath : string) : option string :=
  let repoRoot := canonicalizeAbsolutePath cwd repoRootAbs in
  let target := canonicalizeAbsolutePath cwd absolutePath in
  if isPathWithinWorkspace cwd repoRoot target then
    let rel := normalizePathSlashes (relative cwd repoRoot target) in
    if decide (rel = "" ∨ rel = ".") then None
    else if leaves_root rel || isAbsolute rel then None
    else Some rel
  else None.

(** [s.replace(/^\.\//, "")]. *)
Definition drop_dot_slash (s : string) : string :=
  match s with
  | String "." (String "/" t) => t
  | _ => s
  end.

Definition normalizeToRepoRelativePath (cwd : Path) (repoRootAbs candidatePath : string) : option string :=
  let trimmed := trim candidatePath in
  if decide (trimmed = "") then None
  else if isAbsolute trimmed then toRepoRelativePath cwd repoRootAbs trimmed
  else
    let posixNormalized := path_normalize (drop_dot_slash (normalizePathSlashes trimmed)) in
    if decide (posixNormalized = "" ∨ posixNormalized = ".") then None
    else if leaves_root posixNormalized || isAbsolute posixNormalized then None
    else
      let absolute := canonicalizeAbsolutePath cwd (path_join repoRootAbs posixNormalized) in
      if isPathWithinWorkspace cwd repoRootAbs absolute then toRepoRelativePath cwd repoRootAbs absolute else None.

(** ** Splitting at slashes *)

Lemma prefix_slash c s : String.prefix "/" (String c s) = Ascii.eqb c SLASH.
Proof.
  destruct (Ascii.eqb_spec c SLASH) as [->|Hne]; [by destruct s|]. apply not_true_is_false. intros [t Ht]%prefix_iff.
  apply Hne. by injection Ht.
Qed.

Lemma split_slash_cons c s :
  split_on "/" (String c s) = if Ascii.eqb c SLASH then "" :: split_on "/" s else cons_head c (split_on "/" s).
Proof. unfold split_on. cbn [split_from]. rewrite prefix_slash. by destruct (Ascii.eqb c SLASH). Qed.

Lemma cons_head_app c xs ys : xs ≠ [] → cons_head c (xs ++ ys) = cons_head c xs ++ ys.
Proof. by destruct xs. Qed.

Lemma split_slash_app a b : split_on "/" (a +:+ "/" +:+ b) = split_on "/" a ++ split_on "/" b.
Proof.
  induction a as [|c a IH]; [exact (split_slash_cons SLASH b)|].
  change (String c a +:+ "/" +:+ b) with (String c (a +:+ "/" +:+ b)). rewrite !split_slash_cons, IH.
  destruct (Ascii.eqb c SLASH); [done|]. rewrite cons_head_app; [done|apply split_from_cons].
Qed.

Lemma split_slash_head t : split_on "/" ("/" +:+ t) = "" :: split_on "/" t.
Proof. exact (split_slash_app "" t). Qed.

Definition no_slash (s : string) : Prop := has_char SLASH s = false.

Lemma split_no_slash s : no_slash s → split_on "/" s = [s].
Proof.
  unfold no_slash. induction s as [|c s IH]; [done|]. cbn [has_char]. intros [Hc Hs]%orb_false_iff.
  rewrite split_slash_cons, Hc, IH by done. done.
Qed.

Lemma split_slash_parts s : Forall no_slash (split_on "/" s).
Proof.
  induction s as [|c s IH]; [by repeat constructor|]. rewrite split_slash_cons. destruct (Ascii.eqb c SLASH) eqn:Hc; [by constructor|].
  destruct (split_on "/" s) as [|x xs]; simpl; [repeat constructor; unfold no_slash; simpl; by rewrite Hc|].
  inversion IH; subst. constructor; [|done]. unfold no_slash in *. cbn [has_char]. by rewrite Hc.
Qed.

Lemma split_join_slash (l : Path) : l ≠ [] → Forall no_slash l → split_on "/" (Prelude.join "/" l) = l.
Proof.
  intros Hne Hl. induction Hl as [|x l Hx Hl IH]; [done|]. destruct l as [|y l]; [by apply split_no_slash|].
  change (Prelude.join "/" (x :: y :: l)) with (x +:+ "/" +:+ Prelude.join "/" (y :: l)).
  rewrite split_slash_app, split_no_slash, IH by done. done.
Qed.

(** ** Clean segments *)

(** A name that [path.resolve] can leave in a path. *)
Definition clean (s : string) : Prop := s ≠ "" ∧ s ≠ "." ∧ s ≠ ".." ∧ no_slash s.

Definition no_backslash (s : string) : Prop := has_char BACKSLASH s = false.

Lemma resolve_step_clean acc s : clean s → resolve_step acc s = acc ++ [s].
Proof. intros (? & ? & ? & _). unfold resolve_step. by rewrite !decide_False by naive_solver. Qed.

Lemma resolve_clean base (l : Path) : Forall clean l → foldl resolve_step base l = base ++ l.
Proof.
  intros Hl. revert base. induction Hl as [|s l Hs Hl IH]; intros base; simpl; [by rewrite app_nil_r|].
  rewrite IH, resolve_step_clean by done. by rewrite <-app_assoc.
Qed.

Lemma Forall_removelast {A : Type} (P : A → Prop) l : Forall P l → Forall P (removelast l).
Proof. intros Hl. induction Hl as [|x [|y l] Hx Hl IH]; [done|by constructor|]. by constructor. Qed.

(** Resolving keeps any property of names that the given names have. *)
Lemma resolve_Forall (P : string → Prop) base l :
  Forall (λ s, clean s ∧ P s) base → Forall (λ s, no_slash s ∧ P s) l → Forall (λ s, clean s ∧ P s) (foldl resolve_step base l).
Proof.
  intros Hb Hl. revert base Hb. induction Hl as [|s l [Hs Hp] Hl IH]; intros base Hb; simpl; [done|]. apply IH.
  unfold resolve_step. destruct (decide (s = "" ∨ s = ".")) as [|Hn]; [done|].
  destruct (decide (s = "..")); [by apply Forall_removelast|]. apply Forall_app. split; [done|]. repeat constructor; naive_solver.
Qed.

Lemma no_char_append c s t : has_char c (s +:+ t) = has_char c s || has_char c t.
Proof. induction s as [|d s IH]; [done|]. change (String d s +:+ t) with (String d (s +:+ t)). cbn [has_char]. by rewrite IH, orb_assoc. Qed.

Lemma split_no_char c s : has_char c s = false → Forall (λ x, has_char c x = false) (split_on "/" s).
Proof.
  induction s as [|d s IH]; [by repeat constructor|]. cbn [has_char]. intros [Hd Hs]%orb_false_iff. specialize (IH Hs).
  rewrite split_slash_cons. destruct (Ascii.eqb d SLASH); [by constructor|].
  destruct (split_on "/" s) as [|x xs]; simpl; [by repeat constructor; simpl; rewrite Hd|].
  inversion IH; subst. constructor; [|done]. cbn [has_char]. by rewrite Hd.
Qed.

Lemma join_no_char c (l : Path) : c ≠ SLASH → Forall (λ x, has_char c x = false) l → has_char c (Prelude.join "/" l) = false.
Proof.
  intros Hc Hl. induction Hl as [|x [|y l] Hx Hl IH]; [done|done|].
  change (Prelude.join "/" (x :: y :: l)) with (x +:+ "/" +:+ Prelude.join "/" (y :: l)). rewrite !no_char_append, Hx, IH.
  cbn [has_char orb]. rewrite !orb_false_r. apply Ascii.eqb_neq. intros E. by apply Hc.
Qed.

Lemma slashes_normalized s : no_backslash (normalizePathSlashes s).
Proof.
  unfold no_backslash. induction s as [|c s IH]; [done|]. cbn [normalizePathSlashes has_char]. rewrite IH, orb_false_r.
  by destruct (Ascii.eqb c BACKSLASH) eqn:E.
Qed.

Lemma normalize_slashes_id s : no_backslash s → normalizePathSlashes s = s.
Proof.
  unfold no_backslash. induction s as [|c s IH]; [done|]. cbn [normalizePathSlashes has_char]. intros [Hc Hs]%orb_false_iff.
  by rewrite Hc, IH.
Qed.

Lemma normalize_slashes_append s t : normalizePathSlashes (s +:+ t) = normalizePathSlashes s +:+ normalizePathSlashes t.
Proof. induction s as [|c s IH]; [done|]. change (String c s +:+ t) with (String c (s +:+ t)). cbn [normalizePathSlashes]. by rewrite IH. Qed.

(** ** Canonical segments *)

Definition canonical (s : string) : Prop := clean s ∧ no_backslash s.

(** The segments that a path denotes after its backslashes were normalized. *)
Definition canon (cwd : Path) (input : string) : Path := path_resolve [] (canonicalizeAbsolutePath cwd input).

Lemma startsWith_iff s p : startsWith s p = true ↔ ∃ t, s = p +:+ t.
Proof. apply prefix_iff. Qed.

Lemma canonicalize_absolute cwd input : ∃ t, canonicalizeAbsolutePath cwd input = "/" +:+ t.
Proof. eexists. unfold canonicalizeAbsolutePath, path_string. by rewrite normalize_slashes_append. Qed.

Lemma resolve_absolute cwd t : path_resolve cwd ("/" +:+ t) = path_resolve [] ("/" +:+ t).
Proof. unfold path_resolve. by rewrite (proj2 (startsWith_iff ("/" +:+ t) "/")) by (by exists t). Qed.

Lemma resolve_canonicalized cwd cwd' input : path_resolve cwd' (canonicalizeAbsolutePath cwd input) = canon cwd input.
Proof. unfold canon. destruct (canonicalize_absolute cwd input) as [t ->]. apply resolve_absolute. Qed.

Lemma canon_canonical cwd input : Forall canonical (canon cwd input).
Proof.
  unfold canon, path_resolve. apply (resolve_Forall no_backslash); [by destruct (startsWith _ _)|].
  assert (no_backslash (canonicalizeAbsolutePath cwd input)) as Hb by apply slashes_normalized.
  pose proof (split_slash_parts (canonicalizeAbsolutePath cwd input)) as Hs. apply split_no_char in Hb.
  by apply Forall_and.
Qed.

Lemma canonical_clean (l : Path) : Forall canonical l → Forall clean l.
Proof. intros Hl. eapply Forall_impl; [exact Hl|]. by intros s [? _]. Qed.

Lemma canonical_no_slash (l : Path) : Forall canonical l → Forall no_slash l.
Proof. intros Hl. eapply Forall_impl; [exact Hl|]. by intros s [(_ & _ & _ & ?) _]. Qed.

Lemma canonical_no_backslash (l : Path) : Forall canonical l → no_backslash (Prelude.join "/" l).
Proof. intros Hl. apply join_no_char; [done|]. eapply Forall_impl; [done|]. by intros s [_ ?]. Qed.

Lemma path_string_split (l : Path) : Forall no_slash l → split_on "/" (path_string l) = "" :: if decide (l = []) then [""] else l.
Proof.
  intros Hl. unfold path_string. rewrite split_slash_head. destruct (decide (l = [])) as [->|Hne]; [done|].
  by rewrite split_join_slash.
Qed.

Lemma resolve_path_string cwd (l : Path) : Forall canonical l → path_resolve cwd (path_string l) = l.
Proof.
  intros Hl. unfold path_string. rewrite resolve_absolute. unfold path_resolve. fold (path_string l).
  rewrite path_string_split by (by apply canonical_no_slash). destruct (startsWith _ _); destruct (decide (l = [])) as [->|];
    cbn [foldl]; try done; rewrite resolve_clean by (by apply canonical_clean); done.
Qed.

Lemma path_string_no_backslash (l : Path) : Forall canonical l → no_backslash (path_string l).
Proof. intros Hl. unfold no_backslash, path_string. rewrite no_char_append. by apply canonical_no_backslash in Hl as ->. Qed.

Lemma canonicalize_path_string cwd (l : Path) : Forall canonical l → canonicalizeAbsolutePath cwd (path_string l) = path_string l.
Proof.
  intros Hl. unfold canonicalizeAbsolutePath. rewrite resolve_path_string by done. by apply normalize_slashes_id, path_string_no_backslash.
Qed.

Lemma canon_path_string cwd (l : Path) : Forall canonical l → canon cwd (path_string l) = l.
Proof. intros Hl. unfold canon. rewrite canonicalize_path_string by done. by apply resolve_path_string. Qed.

(** Canonicalizing a second time changes nothing any more. *)
Lemma canonicalize_twice cwd input : canonicalizeAbsolutePath cwd (canonicalizeAbsolutePath cwd input) = path_string (canon cwd input).
Proof.
  unfold canonicalizeAbsolutePath at 1. rewrite resolve_canonicalized. apply normalize_slashes_id, path_string_no_backslash, canon_canonical.
Qed.

Lemma canon_canonicalize cwd input : canon cwd (canonicalizeAbsolutePath cwd input) = canon cwd input.
Proof. unfold canon at 1. rewrite canonicalize_twice. apply resolve_path_string, canon_canonical. Qed.

(** ** Containment *)

Definition rel_path (cwd : Path) (root target : string) : string :=
  normalizePathSlashes (relative cwd (canonicalizeAbsolutePath cwd root) (canonicalizeAbsolutePath cwd target)).

Lemma canonical_join_nil (l : Path) : Forall canonical l → Prelude.join "/" l = "" → l = [].
Proof. intros Hl Hj. destruct Hl as [|x l [(Hx & _) _] _]; [done|]. destruct (join_head "/" x l) as [t Ht]. rewrite Ht in Hj. by destruct x. Qed.

Lemma first_segment_join x (l : Path) : Forall no_slash (x :: l) → head (split_on "/" (Prelude.join "/" (x :: l))) = Some x.
Proof. intros Hl. by rewrite split_join_slash. Qed.

Lemma head_split_dots s : leaves_root s = true ↔ head (split_on "/" s) = Some "..".
Proof.
  unfold leaves_root. rewrite orb_true_iff, bool_decide_eq_true. split.
  - intros [[t ->]%startsWith_iff| ->]; [|done]. change (head (split_on "/" (".." +:+ "/" +:+ t)) = Some ".."). by rewrite split_slash_app.
  - intros Hh. rewrite startsWith_iff. destruct (split_on "/" s) as [|x l] eqn:E; [done|]. injection Hh as ->.
    assert (s = Prelude.join "/" (".." :: l)) as -> by (rewrite <-E; symmetry; by apply join_split).
    destruct l as [|y l]; [by right|]. left. by exists (Prelude.join "/" (y :: l)).
Qed.

(** The relative path of two canonical paths, on both sides of containment. *)
Lemma rel_path_cases cwd root target :
  (∃ rest, canon cwd target = canon cwd root ++ rest ∧ rel_path cwd root target = Prelude.join "/" rest ∧ Forall canonical rest) ∨
  (¬ (∃ rest, canon cwd target = canon cwd root ++ rest) ∧ leaves_root (rel_path cwd root target) = true).
Proof.
  unfold rel_path, relative, path_relative. rewrite !resolve_canonicalized.
  pose proof (canon_canonical cwd target) as Ht. pose proof (canon_canonical cwd root) as Hr.
  destruct (relative_segments_cases (canon cwd root) (canon cwd target)) as [(rest & Heq & ->)|(Hno & l & Hl)].
  - left. exists rest. rewrite Heq in Ht. apply Forall_app in Ht as [_ Hrest]. split_and!; [done| |done].
    by apply normalize_slashes_id, canonical_no_backslash.
  - right. split; [done|]. apply head_split_dots.
    assert (Forall (λ s, no_slash s ∧ no_backslash s) (relative_segments (canon cwd root) (canon cwd target))) as Hall.
    { clear Hno Hl. revert Ht. generalize (canon cwd target). induction (canon cwd root) as [|f from IH]; intros to Ht; simpl.
      - eapply Forall_impl; [done|]. by intros s [(_ & _ & _ & ?) ?].
      - inversion Hr; subst. assert (Forall (λ s, no_slash s ∧ no_backslash s) (((λ _, "..") <$> (f :: from)) ++ to)) as Hd.
        { apply Forall_app. split; [apply Forall_fmap, Forall_true; by split|]. eapply Forall_impl; [done|]. by intros s [(_ & _ & _ & ?) ?]. }
        destruct to as [|t to]; [done|]. destruct (decide (f = t)); [|done]. inversion Ht; subst. by apply IH. }
    rewrite Hl in *. apply Forall_and in Hall as [Hs Hb]. rewrite normalize_slashes_id by (by apply join_no_char).
    by apply first_segment_join.
Qed.

Lemma inside_not_leaving (rest : Path) : Forall canonical rest →
  leaves_root (Prelude.join "/" rest) = false ∧ isAbsolute (Prelude.join "/" rest) = false ∧ Prelude.join "/" rest ≠ ".".
Proof.
  intros Hr. destruct (decide (rest = [])) as [->|Hne]; [done|]. pose proof (split_join_slash rest Hne (canonical_no_slash _ Hr)) as Hs.
  destruct Hr as [|x l [(Hx & Hd & Hdd & _) _] Hl]; [done|]. split_and!.
  - apply not_true_is_false. rewrite head_split_dots, Hs. naive_solver.
  - apply not_true_is_false. intros [t Ht]%startsWith_iff. rewrite Ht, split_slash_head in Hs. naive_solver.
  - intros Hj. rewrite Hj in Hs. injection Hs as <-. naive_solver.
Qed.

Lemma within_exact cwd root target :
  isPathWithinWorkspace cwd root target = true ↔ ∃ rest, canon cwd target = canon cwd root ++ rest.
Proof.
  change (isPathWithinWorkspace cwd root target) with
    (if decide (rel_path cwd root target = "") then true else if decide (rel_path cwd root target = ".") then true
     else if leaves_root (rel_path cwd root target) then false else negb (isAbsolute (rel_path cwd root target))).
  destruct (rel_path_cases cwd root target) as [(rest & Heq & -> & Hr)|(Hno & Hl)].
  - destruct (inside_not_leaving rest Hr) as (-> & -> & _). split; [by exists rest|]. by repeat destruct (decide _).
  - split; [|done]. destruct (decide (_ = "")) as [E|]; [by rewrite E in Hl|]. destruct (decide (_ = ".")) as [E|]; [by rewrite E in Hl|].
    by rewrite Hl.
Qed.

Lemma relative_guard (rel r : string) :
  (if decide (rel = "" ∨ rel = ".") then None else if leaves_root rel || isAbsolute rel then None else Some rel) = Some r ↔
  r = rel ∧ rel ≠ "" ∧ rel ≠ "." ∧ leaves_root rel = false ∧ isAbsolute rel = false.
Proof.
  destruct (decide _) as [[->| ->]|Hn]; [naive_solver..|].
  destruct (leaves_root rel), (isAbsolute rel); simpl; naive_solver.
Qed.

(** A relative path is given exactly for what lies strictly below the root, and
    it is the rest of the canonical path. *)
Lemma repo_relative_exact cwd root target r :
  toRepoRelativePath cwd root target = Some r ↔
  ∃ rest, rest ≠ [] ∧ canon cwd target = canon cwd root ++ rest ∧ r = Prelude.join "/" rest.
Proof.
  unfold toRepoRelativePath. change (normalizePathSlashes (relative _ _ _)) with (rel_path cwd root target).
  destruct (isPathWithinWorkspace _ _ _) eqn:Hin.
  - rewrite relative_guard. apply within_exact in Hin as [rest Heq]. rewrite !canon_canonicalize in Heq.
    destruct (rel_path_cases cwd root target) as [(rest' & Heq' & -> & Hr)|(Hno & _)]; [|by destruct Hno; eauto].
    destruct (inside_not_leaving rest' Hr) as (Hl & Ha & Hd). split.
    + intros (-> & Hne & _). exists rest'. split_and!; [by intros ->|done|done].
    + intros (l & Hne & Hl' & ->). rewrite Heq' in Hl'. apply app_inv_head in Hl' as ->.
      split_and!; [done|by intros ?%canonical_join_nil|done..].
  - split; [done|]. intros (rest & _ & Heq & _). assert (isPathWithinWorkspace cwd (canonicalizeAbsolutePath cwd root)
      (canonicalizeAbsolutePath cwd target) = true) by (apply within_exact; rewrite !canon_canonicalize; eauto). congruence.
Qed.

Lemma workspace_relative_is_repo cwd root target : toWorkspaceRelativePath cwd root target = toRepoRelativePath cwd root target.
Proof.
  unfold toRepoRelativePath, toWorkspaceRelativePath. change (normalizePathSlashes (relative _ _ _)) with (rel_path cwd root target).
  destruct (isPathWithinWorkspace _ _ _) eqn:Hin; [done|]. apply not_true_iff_false in Hin. rewrite within_exact, !canon_canonicalize in Hin.
  destruct (rel_path_cases cwd root target) as [(rest & Heq & _)|(_ & Hl)]; [by destruct Hin; eauto|]. rewrite Hl. by destruct (decide _).
Qed.

Lemma same_or_parent_is_within cwd a b : isSameOrParentPath cwd a b = isPathWithinWorkspace cwd a b.
Proof.
  unfold isSameOrParentPath, isPathWithinWorkspace. set (rel := normalizePathSlashes _).
  destruct (decide (rel = "" ∨ rel = ".")); [|by rewrite !decide_False by naive_solver]. by repeat case_decide; try naive_solver.
Qed.

(** ** Normalizing and resolving *)

(** What [path.normalize] can have collected: double dots (of a relative path),
    then names. *)
Definition normal (absolute : bool) (acc : Path) : Prop :=
  ∃ k l, acc = replicate k ".." ++ l ∧ Forall clean l ∧ (absolute = true → k = 0).

Lemma normalize_step_resolves absolute base acc s :
  normal absolute acc → no_slash s → (absolute = true → base = []) →
  normal absolute (normalize_step absolute acc s) ∧
  foldl resolve_step base (normalize_step absolute acc s) = resolve_step (foldl resolve_step base acc) s.
Proof.
  intros (k & l & -> & Hl & Hk) Hs Hbase. unfold normalize_step, resolve_step at 2.
  destruct (decide (s = "" ∨ s = ".")) as [|Hs1]; [split; [by exists k, l|done]|].
  destruct (decide (s = "..")) as [->|Hs2].
  - destruct (decide (replicate k ".." ++ l = [] ∨ last (replicate k ".." ++ l) = Some "..")) as [Hd|Hd].
    + assert (l = []) as ->.
      { destruct l as [|x l _] using rev_ind; [done|]. rewrite app_assoc, last_snoc in Hd. apply Forall_app in Hl as [_ Hx].
        inversion Hx as [|? ? (_ & _ & Hdd & _)]; subst. destruct Hd as [Hd|Hd]; [by destruct (replicate k ".." ++ l)|congruence]. }
      rewrite app_nil_r. destruct absolute.
      * rewrite Hk, Hbase by done. split; [by exists 0, []|done].
      * split; [exists (S k), []; split_and!; [|done|done]; by rewrite app_nil_r, replicate_S_end|].
        by rewrite foldl_app.
    + destruct l as [|x l _] using rev_ind.
      { exfalso. apply Hd. rewrite app_nil_r. destruct k as [|k]; [by left|right]. by rewrite replicate_S_end, last_snoc. }
      apply Forall_app in Hl as [Hl Hx]. inversion Hx; subst. rewrite app_assoc, removelast_last. split; [by exists k, l|].
      rewrite (foldl_app _ _ [x]). cbn [foldl]. by rewrite resolve_step_clean, removelast_last.
  - assert (clean s) as Hc by (unfold clean; naive_solver). split.
    + exists k, (l ++ [s]). split_and!; [by rewrite app_assoc|apply Forall_app; split; [done|by apply Forall_singleton]|done].
    + rewrite foldl_app. cbn [foldl]. by rewrite resolve_step_clean.
Qed.

Lemma normalize_segments_resolve absolute base l : ∀ acc,
  normal absolute acc → Forall no_slash l → (absolute = true → base = []) →
  normal absolute (foldl (normalize_step absolute) acc l) ∧
  foldl resolve_step base (foldl (normalize_step absolute) acc l) = foldl resolve_step (foldl resolve_step base acc) l.
Proof.
  induction l as [|s l IH]; intros acc Hacc Hl Hbase; simpl; [done|]. inversion Hl; subst.
  destruct (normalize_step_resolves absolute base acc s) as [Hn Hr]; [done..|].
  destruct (IH (normalize_step absolute acc s)) as [Hn' ->]; [done..|]. by rewrite Hr.
Qed.

Lemma normal_nil absolute : normal absolute [].
Proof. by exists 0, []. Qed.

Lemma normal_no_slash absolute (l : Path) : normal absolute l → Forall (λ s, s ≠ "" ∧ no_slash s) l.
Proof.
  intros (k & l' & -> & Hl & _). apply Forall_app. split; [by apply Forall_replicate|]. eapply Forall_impl; [exact Hl|].
  by intros s (? & _ & _ & ?).
Qed.

Lemma resolve_trailing base (l : Path) (t : bool) :
  Forall no_slash l → foldl resolve_step base (split_on "/" (Prelude.join "/" l +:+ (if t then "/" else ""))) = foldl resolve_step base l.
Proof.
  intros Hl. assert (foldl resolve_step base (split_on "/" (Prelude.join "/" l)) = foldl resolve_step base l) as Hj
    by (destruct (decide (l = [])) as [->|]; [done|by rewrite split_join_slash]).
  destruct t; [|by rewrite append_nil_r]. rewrite (split_slash_app _ ""), foldl_app, Hj. done.
Qed.

Definition segments (s : string) : Path := foldl (normalize_step (isAbsolute s)) [] (split_on "/" s).

Lemma segments_normal s : normal (isAbsolute s) (segments s).
Proof. apply (normalize_segments_resolve (isAbsolute s) [] (split_on "/" s) []); [apply normal_nil|apply split_slash_parts|done]. Qed.

Lemma segments_join_nil s : Prelude.join "/" (segments s) = "" → segments s = [].
Proof.
  pose proof (normal_no_slash _ _ (segments_normal s)) as Hs. intros Hj. destruct (segments s) as [|x l]; [done|]. exfalso.
  inversion Hs as [|? ? [Hx _]]; subst. destruct (join_head "/" x l) as [t Ht]. rewrite Ht in Hj. by destruct x.
Qed.

(** Normalizing keeps what a path resolves to. *)
Lemma resolve_segments cwd s : path_resolve cwd s = foldl resolve_step (if isAbsolute s then [] else cwd) (segments s).
Proof.
  unfold path_resolve, isAbsolute. symmetry. destruct (normalize_segments_resolve (startsWith s "/")
    (if startsWith s "/" then [] else cwd) (split_on "/" s) []) as [_ Hr]; [apply normal_nil|apply split_slash_parts| |exact Hr].
  by intros ->.
Qed.

Lemma segments_relative s : isAbsolute s = false → isAbsolute (Prelude.join "/" (segments s)) = false.
Proof.
  intros Ha. pose proof (normal_no_slash _ _ (segments_normal s)) as Hs. apply not_true_is_false. intros [t Ht]%startsWith_iff.
  destruct (segments s) as [|x l]; [done|]. apply Forall_and in Hs as [Hne Hs]. pose proof (split_join_slash (x :: l)) as Hsp.
  rewrite Ht, split_slash_head in Hsp. inversion Hne; subst. naive_solver.
Qed.

Lemma normalize_relative s t : isAbsolute s = false → segments s ≠ [] → isAbsolute (Prelude.join "/" (segments s) +:+ t) = false.
Proof.
  intros Ha Hne. pose proof (segments_relative s Ha) as Hr. pose proof (segments_join_nil s) as Hj.
  destruct (Prelude.join "/" (segments s)) as [|c u]; [by destruct Hne; apply Hj|]. change (String c u +:+ t) with (String c (u +:+ t)).
  unfold isAbsolute, startsWith in *. by rewrite prefix_slash in *.
Qed.

Lemma resolve_normalize cwd s : path_resolve cwd (path_normalize s) = path_resolve cwd s.
Proof.
  rewrite (resolve_segments cwd s). unfold path_normalize. destruct (decide (s = "")) as [->|Hs]; [done|]. fold (segments s).
  assert (Forall no_slash (segments s)) as Hns by (eapply Forall_impl; [exact (normal_no_slash _ _ (segments_normal s))|by intros ? [_ ?]]).
  destruct (decide (_ = "")) as [E|E].
  - rewrite (segments_join_nil s E). by destruct (isAbsolute s), (endsWith_slash s).
  - unfold path_resolve. destruct (isAbsolute s) eqn:Ha.
    + rewrite (proj2 (startsWith_iff _ "/")) by eauto. rewrite split_slash_head. cbn [foldl]. by apply resolve_trailing.
    + change ("" +:+ ?x) with x. pose proof (normalize_relative s (if endsWith_slash s then "/" else "") Ha) as Hr.
      unfold isAbsolute in Hr. rewrite Hr by (intros En; by rewrite En in E). by apply resolve_trailing.
Qed.

(** [path.join] resolves its second argument against the first. *)
Lemma resolve_join cwd a b : isAbsolute b = false → path_resolve cwd (path_join a b) = path_resolve (path_resolve cwd a) b.
Proof.
  intros Hb. unfold path_join. destruct (decide (a = "")) as [->|Ha]; [by rewrite resolve_normalize|].
  destruct (decide (b = "")) as [->|Hb']; rewrite resolve_normalize; [done|]. unfold path_resolve.
  unfold isAbsolute in Hb. rewrite Hb, split_slash_app, foldl_app. f_equal. f_equal.
  destruct a as [|c a]; [done|]. change (String c a +:+ "/" +:+ b) with (String c (a +:+ "/" +:+ b)).
  unfold startsWith. by rewrite !prefix_slash.
Qed.

Lemma resolve_join_canonical base (l : Path) : Forall canonical l → path_resolve base (Prelude.join "/" l) = base ++ l.
Proof.
  intros Hl. destruct (inside_not_leaving l Hl) as (_ & Ha & _). unfold path_resolve. unfold isAbsolute in Ha. rewrite Ha.
  destruct (decide (l = [])) as [->|Hne]; [by rewrite app_nil_r|]. rewrite split_join_slash by (done || by apply canonical_no_slash).
  by apply resolve_clean, canonical_clean.
Qed.

Lemma join_app (a b : Path) : a ≠ [] → b ≠ [] → Prelude.join "/" (a ++ b) = Prelude.join "/" a +:+ "/" +:+ Prelude.join "/" b.
Proof.
  intros Ha Hb. induction a as [|x [|y a] IH]; [done| |].
  - destruct b; [done|]. done.
  - change (Prelude.join "/" ((x :: y :: a) ++ b)) with (x +:+ "/" +:+ Prelude.join "/" ((y :: a) ++ b)). rewrite IH by done.
    change (Prelude.join "/" (x :: y :: a)) with (x +:+ "/" +:+ Prelude.join "/" (y :: a)). by rewrite !append_assoc.
Qed.

(** Names below a directory stay below its canonical path. *)
Lemma canon_below (R l : Path) : Forall canonical l →
  path_resolve [] (normalizePathSlashes (path_string (R ++ l))) = path_resolve [] (normalizePathSlashes (path_string R)) ++ l.
Proof.
  intros Hl. destruct (decide (l = [])) as [->|Hne]; [by rewrite !app_nil_r|]. pose proof (canonical_no_backslash l Hl) as Hb.
  destruct (decide (R = [])) as [->|HR].
  - unfold path_string at 1. rewrite normalize_slashes_append, (normalize_slashes_id (Prelude.join _ _)) by done.
    change (normalizePathSlashes "/") with "/". by apply resolve_path_string.
  - unfold path_string. rewrite join_app by done. rewrite !normalize_slashes_append, (normalize_slashes_id (Prelude.join "/" l)) by done.
    change (normalizePathSlashes "/") with "/". unfold path_resolve. rewrite !(proj2 (startsWith_iff _ "/")) by eauto.
    rewrite <-append_assoc. rewrite split_slash_app, foldl_app, split_join_slash by (done || by apply canonical_no_slash).
    by apply resolve_clean, canonical_clean.
Qed.

Lemma canon_join cwd root (l : Path) : Forall canonical l → canon cwd (path_join root (Prelude.join "/" l)) = canon cwd root ++ l.
Proof.
  intros Hl. destruct (inside_not_leaving l Hl) as (_ & Ha & _). unfold canon at 1, canonicalizeAbsolutePath.
  rewrite resolve_join, resolve_join_canonical by done. by apply canon_below.
Qed.

(** The segments of a candidate that [normalizeToRepoRelativePath] accepts. *)
Definition denotes (cwd : Path) (root candidate : string) : Path :=
  let c := trim candidate in
  if isAbsolute c then canon cwd c else path_resolve (canon cwd root) (normalizePathSlashes c).

Lemma drop_dot_slash_spec s :
  (∃ t, s = "." +:+ "/" +:+ t ∧ drop_dot_slash s = t) ∨ ((∀ t, s ≠ "." +:+ "/" +:+ t) ∧ drop_dot_slash s = s).
Proof.
  destruct s as [|c [|d t]]; [by right|right; by destruct c as [[] [] [] [] [] [] [] []]|].
  destruct (decide (c = ("." : ascii)%char ∧ d = SLASH)) as [[-> ->]|Hn]; [left; by exists t|right].
  split; [intros t' [=]; by apply Hn|]. unfold drop_dot_slash. repeat case_match; subst; try done. by destruct Hn.
Qed.

Lemma resolve_drop_dot_slash base s : isAbsolute (drop_dot_slash s) = false → path_resolve base s = path_resolve base (drop_dot_slash s).
Proof.
  intros Ha. destruct (drop_dot_slash_spec s) as [(t & -> & Ht)|[_ ->]]; [|done]. rewrite Ht in *. unfold path_resolve.
  unfold isAbsolute in Ha. rewrite Ha, split_slash_app. done.
Qed.

Lemma normalize_leading s : isAbsolute s = false → segments s ≠ [] → leaves_root (path_normalize s) = false → head (segments s) ≠ Some "..".
Proof.
  intros Ha Hne Hl Hh. apply not_true_iff_false in Hl. apply Hl. apply head_split_dots. unfold path_normalize.
  destruct (decide (s = "")) as [->|]; [done|]. fold (segments s). rewrite Ha. destruct (decide _) as [E|]; [by apply segments_join_nil in E|].
  change ("" +:+ ?x) with x. pose proof (normal_no_slash _ _ (segments_normal s)) as [_ Hns]%Forall_and.
  destruct (endsWith_slash s); [rewrite (split_slash_app _ "")|rewrite append_nil_r]; rewrite split_join_slash by done; [|done].
  by destruct (segments s).
Qed.

(** A relative candidate that does not leave the root consists of names. *)
Lemma accepted_segments s :
  no_backslash s → leaves_root (path_normalize s) = false → isAbsolute (path_normalize s) = false →
  isAbsolute s = false ∧ Forall canonical (segments s).
Proof.
  intros Hb Hl Ha. assert (isAbsolute s = false) as Hs.
  { apply not_true_is_false. intros Hs. apply not_true_iff_false in Ha. apply Ha. unfold path_normalize.
    destruct (decide (s = "")) as [->|]; [done|]. rewrite Hs. destruct (decide _); [done|]. apply startsWith_iff. eauto. }
  split; [done|]. destruct (decide (segments s = [])) as [->|Hne]; [done|]. pose proof (normalize_leading s Hs Hne Hl) as Hh.
  destruct (segments_normal s) as (k & l & Heq & Hcl & _). destruct k as [|k]; [|by rewrite Heq in Hh].
  rewrite Heq. change (replicate 0 ".." ++ l) with l in *. pose proof (resolve_segments [] s) as Hr.
  rewrite Hs, Heq, resolve_clean in Hr by done. change ([] ++ l) with l in Hr. rewrite <-Hr. unfold path_resolve.
  apply (resolve_Forall no_backslash); [by destruct (startsWith _ _)|]. apply Forall_and. split; [apply split_slash_parts|].
  by apply split_no_char.
Qed.

Lemma normalize_relative_sound cwd root s r :
  no_backslash s → leaves_root (path_normalize s) = false → isAbsolute (path_normalize s) = false →
  toRepoRelativePath cwd root (canonicalizeAbsolutePath cwd (path_join root (path_normalize s))) = Some r →
  ∃ l, l ≠ [] ∧ Forall canonical l ∧ r = Prelude.join "/" l ∧ ∀ base, path_resolve base s = base ++ l.
Proof.
  intros Hb Hl Ha (l & Hne & Heq & ->)%repo_relative_exact. destruct (accepted_segments s Hb Hl Ha) as [Hs Hcan].
  assert (∀ base, path_resolve base s = base ++ segments s) as Hres
    by (intros base; rewrite resolve_segments, Hs; by apply resolve_clean, canonical_clean).
  assert (l = segments s) as ->; [|by exists (segments s)]. apply (app_inv_head (canon cwd root)). rewrite <-Heq, canon_canonicalize.
  unfold canon at 1, canonicalizeAbsolutePath. rewrite resolve_join, resolve_normalize, Hres by done. by apply canon_below.
Qed.

Lemma normalize_canonical (l : Path) : l ≠ [] → Forall canonical l → path_normalize (Prelude.join "/" l) = Prelude.join "/" l.
Proof.
  intros Hne Hl. pose proof (canonical_join_nil l Hl) as Hj. destruct (inside_not_leaving l Hl) as (_ & Ha & _).
  unfold path_normalize. rewrite decide_False by naive_solver. rewrite Ha.
  assert (∀ acc, foldl (normalize_step false) acc l = acc ++ l) as Hf.
  { clear Hne Hj Ha. induction Hl as [|x l [(H1 & H2 & H3 & _) _] Hl IH]; intros acc; simpl; [by rewrite app_nil_r|].
    unfold normalize_step at 2. rewrite !decide_False by naive_solver. by rewrite IH, <-app_assoc. }
  unfold endsWith_slash. rewrite split_join_slash by (done || by apply canonical_no_slash). rewrite Hf. change ([] ++ l) with l.
  rewrite decide_False by naive_solver. rewrite bool_decide_false; [by rewrite append_nil_r|].
  intros Hlast. apply last_Some in Hlast as [l' ->]. apply Forall_app in Hl as [_ Hx]. inversion Hx as [|? ? [(? & _) _]]; subst. done.
Qed.

Lemma drop_dot_slash_canonical (l : Path) : Forall canonical l → drop_dot_slash (Prelude.join "/" l) = Prelude.join "/" l.
Proof.
  intros Hl. destruct (decide (l = [])) as [->|Hne]; [done|]. pose proof (split_join_slash l Hne (canonical_no_slash l Hl)) as Hs.
  destruct (drop_dot_slash_spec (Prelude.join "/" l)) as [(t & Ht & _)|[_ ->]]; [|done].
  rewrite Ht, split_slash_app in Hs. rewrite <-Hs in Hl. by inversion Hl as [|? ? [(_ & Hd & _) _]].
Qed.

Lemma normalize_sound cwd root candidate r : normalizeToRepoRelativePath cwd root candidate = Some r →
  ∃ l, l ≠ [] ∧ Forall canonical l ∧ r = Prelude.join "/" l ∧ denotes cwd root candidate = canon cwd root ++ l.
Proof.
  unfold normalizeToRepoRelativePath, denotes. destruct (decide _) as [|_]; [done|].
  destruct (isAbsolute (trim candidate)).
  { intros (l & Hne & Heq & ->)%repo_relative_exact. exists l. split_and!; [done| |done|done].
    pose proof (canon_canonical cwd (trim candidate)) as Hc. rewrite Heq in Hc. by apply Forall_app in Hc as [_ ?]. }
  set (s := normalizePathSlashes (trim candidate)). destruct (decide _) as [|_]; [done|].
  destruct (leaves_root _) eqn:Hl; [done|]. destruct (isAbsolute (path_normalize _)) eqn:Ha; [done|]. simpl.
  destruct (isPathWithinWorkspace _ _ _); [|done]. intros Hr.
  assert (no_backslash (drop_dot_slash s)) as Hb.
  { assert (no_backslash s) as Hb by apply slashes_normalized. unfold drop_dot_slash. by repeat case_match; subst. }
  destruct (normalize_relative_sound cwd root (drop_dot_slash s) r) as (l & Hne & Hcl & -> & Hres); [done..|].
  exists l. split_and!; [done..|]. rewrite resolve_drop_dot_slash; [apply Hres|]. by apply accepted_segments.
Qed.

Lemma normalize_fixed cwd root (l : Path) : l ≠ [] → Forall canonical l →
  let r := Prelude.join "/" l in let absolute := path_string (canon cwd root ++ l) in
  (trim r = r → normalizeToRepoRelativePath cwd root r = Some r) ∧
  (trim absolute = absolute → normalizeToRepoRelativePath cwd root absolute = Some r).
Proof.
  intros Hne Hl r absolute. unfold normalizeToRepoRelativePath. destruct (inside_not_leaving l Hl) as (Hlv & Ha & Hd).
  assert (r ≠ "") as Hr by (by intros ?%canonical_join_nil). split; intros ->.
  + rewrite decide_False by done. unfold r in *. rewrite Ha, normalize_slashes_id by (by apply canonical_no_backslash).
    rewrite drop_dot_slash_canonical, normalize_canonical by done. rewrite decide_False by naive_solver. rewrite Hlv, Ha. simpl.
    rewrite (proj2 (within_exact _ _ _)) by (exists l; rewrite canon_canonicalize; by apply canon_join).
    apply repo_relative_exact. exists l. rewrite canon_canonicalize. split_and!; [done|by apply canon_join|done].
  + rewrite decide_False by done. assert (isAbsolute absolute = true) as -> by (apply startsWith_iff; by eexists).
    apply repo_relative_exact. exists l. split_and!; [done| |done]. apply canon_path_string, Forall_app. split; [apply canon_canonical|done].
Qed.

(** A normal form without white space at its ends is its own normal form. *)
Lemma normalize_twice cwd root candidate r : normalizeToRepoRelativePath cwd root candidate = Some r → trim r = r →
  normalizeToRepoRelativePath cwd root r = Some r.
Proof. intros (l & Hne & Hl & -> & _)%normalize_sound Ht. by apply (normalize_fixed cwd root l). Qed.

(** Repository-relative paths of files are canonical.  A candidate that
    normalizes to [r] denotes the file [r] below the root, in names that are not
    empty, not dots and have no slash or backslash; and such a path, as far as it
    has no white space at its ends, is its own normal form, given relative or
    absolute. *)
Theorem repo_paths_canonical cwd root :
  (∀ candidate r, normalizeToRepoRelativePath cwd root candidate = Some r →
     ∃ l, l ≠ [] ∧ Forall canonical l ∧ r = Prelude.join "/" l ∧ denotes cwd root candidate = canon cwd root ++ l) ∧
  (∀ l, l ≠ [] → Forall canonical l →
     let r := Prelude.join "/" l in let absolute := path_string (canon cwd root ++ l) in
     (trim r = r → normalizeToRepoRelativePath cwd root r = Some r) ∧
     (trim absolute = absolute → normalizeToRepoRelativePath cwd root absolute = Some r)).
Proof. split; [apply normalize_sound|apply normalize_fixed]. Qed.

Lemma repo_paths_canonical_witness :
  (∃ l, l ≠ [] ∧ Forall canonical l ∧ "src/a.ts" = Prelude.join "/" l ∧
     denotes ["home"] "repo" " ./src\..\src\a.ts " = canon ["home"] "repo" ++ l) ∧
  normalizeToRepoRelativePath ["home"] "repo" "src/a.ts" = Some "src/a.ts" ∧
  normalizeToRepoRelativePath ["home"] "repo" "/home/repo/src/a.ts" = Some "src/a.ts".
Proof.
  split; [apply (proj1 (repo_paths_canonical ["home"] "repo")); vm_compute; reflexivity|].
  assert (Forall canonical ["src"; "a.ts"]) as Hc by (by repeat constructor).
  destruct (proj2 (repo_paths_canonical ["home"] "repo") ["src"; "a.ts"] ltac:(done) Hc) as [Hr Ha].
  split; [by apply Hr|by apply Ha].
Defined.

(** White space inside a candidate can come to stand at the ends of its normal
    form, which is then not a fixed point. *)
Example normalize_not_idempotent :
  normalizeToRepoRelativePath ["repo"] "." "./ a" = Some " a" ∧ normalizeToRepoRelativePath ["repo"] "." " a" = Some "a".
Proof. split; vm_compute; reflexivity. Qed.

(** The path of an indexed file is resolved exactly when it stays within its
    workspace. *)
Lemma indexed_file_within cwd root file path :
  resolveIndexedFileAbsolutePath cwd root file = Some path →
  ∃ rest, canon cwd path = canon cwd (truthy_string (f_workspaceRoot file) or_else root) ++ rest.
Proof.
  unfold resolveIndexedFileAbsolutePath. destruct (isPathWithinWorkspace _ _ _) eqn:Hin; [|done]. intros [= <-].
  apply within_exact in Hin as [rest Hr]. rewrite (canon_canonicalize cwd (_ or_else _)) in Hr. eauto.
Qed.
