(* ===== verification/Patch.v ===== *)
(** * Patches

    [packages/opencode-app/src/tools/apply-patch-tool.ts]: the patch language,
    its parser, and the application of a patch to the files of a repository. *)

From S2P Require Import Prelude Files.
From Stdlib Require Import Ascii String.
From stdpp Require Import prelude list strings gmap.
Set Default Goal Selector "!".
Set Default Proof Using "Type".
Set Warnings "-clear-no-such-hyp".
#[local] Arguments String.append : simpl nomatch.

(** ** The language *)

Record PatchHunk : Type := mkHunk { oldLines : list string; newLines : list string }.

Inductive PatchOperation : Type :=
| op_add (filePath : string) (lines : list string)
| op_delete (filePath : string)
| op_update (filePath : string) (hunks : list PatchHunk).

Definition BEGIN_PATCH : string := "*** Begin Patch".
Definition END_PATCH : string := "*** End Patch".
Definition ADD_FILE : string := "*** Add File: ".
Definition DELETE_FILE : string := "*** Delete File: ".
Definition UPDATE_FILE : string := "*** Update File: ".

(** [line.slice(n)]. *)
Fixpoint slice_from (n : nat) (s : string) : string :=
  match n, s with
  | S n, String _ t => slice_from n t
  | _, _ => s
  end.

Definition after_marker (marker line : string) : string := trim (slice_from (String.length marker) line).

(** [while (lines.at(-1) === "") lines.pop()]. *)
Fixpoint pop_empties (lines : list string) : list string :=
  match lines with
  | [] => []
  | l :: ls => match pop_empties ls with
               | [] => if decide (l = "") then [] else [l]
               | ls => l :: ls
               end
  end.

(** ** The parser

    An iteration of a loop looks at the first of the lines that are left, which
    end before the end marker. *)

(** The content of an added file and the lines after it. *)
Fixpoint parse_added (filePath : string) (lines : list string) : outcome (list string * list string) :=
  match lines with
  | [] => Ret ([], [])
  | l :: ls =>
    if startsWith l "*** " then Ret ([], lines)
    else if startsWith l "+" then
      match parse_added filePath ls with
      | Ret (content, rest) => Ret (slice_from 1 l :: content, rest)
      | Throw e => Throw e
      end
    else Throw ("Add file '" +:+ filePath +:+ "' lines must start with '+'.")
  end.

Definition push_current (current : option PatchHunk) (hunks : list PatchHunk) : list PatchHunk :=
  match current with Some h => hunks ++ [h] | None => hunks end.

(** One line of a hunk: context, removed or added. *)
Definition hunk_line (filePath l : string) (current : PatchHunk) : outcome PatchHunk :=
  match l with
  | String marker value =>
    if decide (marker = " "%char) then Ret (mkHunk (oldLines current ++ [value]) (newLines current ++ [value]))
    else if decide (marker = "-"%char) then Ret (mkHunk (oldLines current ++ [value]) (newLines current))
    else if decide (marker = "+"%char) then Ret (mkHunk (oldLines current) (newLines current ++ [value]))
    else Throw ("Unsupported patch line in '" +:+ filePath +:+ "': " +:+ l)
  | EmptyString => Throw ("Unsupported patch line in '" +:+ filePath +:+ "': " +:+ l)
  end.

Fixpoint parse_hunks (filePath : string) (current : option PatchHunk) (hunks : list PatchHunk) (lines : list string) :
    outcome (list PatchHunk * list string) :=
  match lines with
  | [] => Ret (push_current current hunks, [])
  | l :: ls =>
    if startsWith l "*** " then Ret (push_current current hunks, lines)
    else if startsWith l "@@" then parse_hunks filePath (Some (mkHunk [] [])) (push_current current hunks) ls
    else match hunk_line filePath l (current or_else mkHunk [] []) with
         | Ret h => parse_hunks filePath (Some h) hunks ls
         | Throw e => Throw e
         end
  end.

(** One directive with its lines. *)
Definition parse_operation (line : string) (rest : list string) : outcome (PatchOperation * list string) :=
  if startsWith line ADD_FILE then
    let filePath := after_marker ADD_FILE line in
    match parse_added filePath rest with
    | Ret (content, rest) => Ret (op_add filePath content, rest)
    | Throw e => Throw e
    end
  else if startsWith line DELETE_FILE then Ret (op_delete (after_marker DELETE_FILE line), rest)
  else if startsWith line UPDATE_FILE then
    let filePath := after_marker UPDATE_FILE line in
    match parse_hunks filePath None [] rest with
    | Ret ([], _) => Throw ("Update file '" +:+ filePath +:+ "' has no hunks.")
    | Ret (hunks, rest) => Ret (op_update filePath hunks, rest)
    | Throw e => Throw e
    end
  else Throw ("Unsupported patch directive: " +:+ line).

(** [while (index < lines.length - 1)]: an iteration consumes a line at least,
    so the number of lines is fuel enough ([parse_operations_fuel]). *)
Fixpoint parse_operations (fuel : nat) (lines : list string) : outcome (list PatchOperation) :=
  match fuel, lines with
  | _, [] => Ret []
  | O, _ :: _ => Ret []
  | S fuel, line :: rest =>
    match parse_operation line rest with
    | Ret (op, rest) =>
      match parse_operations fuel rest with
      | Ret ops => Ret (op :: ops)
      | Throw e => Throw e
      end
    | Throw e => Throw e
    end
  end.

(** Replacing CRLF by LF and splitting at LF is splitting at either. *)
Definition parseApplyPatch (patch : string) : outcome (list PatchOperation) :=
  let lines := pop_empties (split_crlf patch) in
  if decide (head lines = Some BEGIN_PATCH ∧ last lines = Some END_PATCH) then
    let body := removelast (tail lines) in
    match parse_operations (length body) body with
    | Ret [] => Throw "Patch did not contain any file operations."
    | r => r
    end
  else Throw "Patch must be wrapped in *** Begin Patch and *** End Patch markers.".

(** ** Application *)

(** [index] and the positions after it, [count] of them. *)
Fixpoint find_at (lines sequence : list string) (index count : nat) : option nat :=
  match count with
  | O => None
  | S count =>
    if decide (take (length sequence) (drop index lines) = sequence) then Some index
    else find_at lines sequence (S index) count
  end.

Definition findLineSequence (lines sequence : list string) (startIndex : nat) : option nat :=
  if decide (sequence = []) then Some startIndex
  else find_at lines sequence startIndex (S (length lines) - length sequence - startIndex).

Fixpoint apply_hunks (filePath : string) (hunks : list PatchHunk) (lines : list string) (cursor : nat) : outcome (list string) :=
  match hunks with
  | [] => Ret lines
  | h :: hs =>
    match findLineSequence lines (oldLines h) cursor with
    | None => Throw ("Patch hunk did not match " +:+ filePath +:+ ".")
    | Some start =>
      apply_hunks filePath hs (take start lines ++ newLines h ++ drop (start + length (oldLines h)) lines)
        (start + length (newLines h))
    end
  end.

Definition NEWLINE : string := String LF "".

(** The function of the same body in [diff-summary.ts]. *)
Definition splitFileLines (content : string) : list string := splitComparableLines content.

Definition applyUpdateHunks (content : string) (hunks : list PatchHunk) (filePath : string) : outcome string :=
  match apply_hunks filePath hunks (splitFileLines content) 0 with
  | Ret [] => Ret ""
  | Ret lines => Ret (Prelude.join NEWLINE lines +:+ (if endsWith content NEWLINE then NEWLINE else ""))
  | Throw e => Throw e
  end.

Definition formatPatchLines (lines : list string) : string :=
  match lines with
  | [] => ""
  | _ => Prelude.join NEWLINE lines +:+ NEWLINE
  end.

Definition applyOperation `{NodeFs W} (repoRoot : Path) (operation : PatchOperation) : M W ToolDiffSummary :=
  match operation with
  | op_add filePath lines =>
    resolved ← lift_outcome (resolveRepoPath repoRoot filePath);
    exists_ ← gets (fs_existsSync (absolutePath resolved));
    if exists_ : bool then throw ("Cannot add '" +:+ relativePath resolved +:+ "' because it already exists.")
    else
      let after := formatPatchLines lines in
      fs_mkdirSync (removelast (absolutePath resolved));;
      fs_writeFileSync (absolutePath resolved) after;;
      mret (summarizeTextDiff (relativePath resolved) "" after)
  | op_delete filePath =>
    resolved ← lift_outcome (resolveRepoPath repoRoot filePath);
    before ← fs_readFileSync (absolutePath resolved);
    fs_unlinkSync (absolutePath resolved);;
    mret (summarizeTextDiff (relativePath resolved) before "")
  | op_update filePath hunks =>
    resolved ← lift_outcome (resolveRepoPath repoRoot filePath);
    before ← fs_readFileSync (absolutePath resolved);
    after ← lift_outcome (applyUpdateHunks before hunks (relativePath resolved));
    fs_writeFileSync (absolutePath resolved) after;;
    mret (summarizeTextDiff (relativePath resolved) before after)
  end.

(** [operations.map((operation) => applyOperation(repoRoot, operation))]. *)
Fixpoint applyOperations `{NodeFs W} (repoRoot : Path) (operations : list PatchOperation) : M W (list ToolDiffSummary) :=
  match operations with
  | [] => mret []
  | op :: ops => s ← applyOperation repoRoot op; ss ← applyOperations repoRoot ops; mret (s :: ss)
  end.

Definition executeApplyPatchTool `{NodeFs W} (repoRoot : Path) (patch : string) : M W (ToolResultEnvelope ToolDiffSummary) :=
  tool_body "apply_patch" (
    operations ← lift_outcome (parseApplyPatch patch);
    summaries ← applyOperations repoRoot operations;
    let diff := combineDiffSummaries summaries in
    mret (mkResult "apply_patch" succeeded (Some diff) None (mkMetadata false None None None None (Some diff)))).

(** ** Hunks are found wherever they can be

    A specification that does not search: the old lines of the hunks occur in
    this order and apart from each other, and are replaced. *)

Inductive replaced : list PatchHunk → list string → list string → Prop :=
| replaced_nil rest : replaced [] rest rest
| replaced_cons h hs gap rest rest' :
    replaced hs rest rest' →
    replaced (h :: hs) (gap ++ oldLines h ++ rest) (gap ++ newLines h ++ rest').

Lemma replaced_skip hs rest out x : replaced hs rest out → ∃ out', replaced hs (x ++ rest) out'.
Proof.
  destruct 1 as [rest|h hs gap rest rest' Hr]; [exists (x ++ rest); constructor|].
  rewrite app_assoc. eexists. by constructor.
Qed.

Lemma replaced_cons_inv h hs lines out : replaced (h :: hs) lines out →
  ∃ gap rest rest', lines = gap ++ oldLines h ++ rest ∧ replaced hs rest rest'.
Proof. inversion 1; subst. eauto. Qed.

(** Where the sequence begins first, at or after [index]. *)
Lemma find_at_spec lines sequence count index :
  match find_at lines sequence index count with
  | Some i => index ≤ i < index + count ∧ take (length sequence) (drop i lines) = sequence ∧
              ∀ j, index ≤ j < i → take (length sequence) (drop j lines) ≠ sequence
  | None => ∀ j, index ≤ j < index + count → take (length sequence) (drop j lines) ≠ sequence
  end.
Proof.
  revert index. induction count as [|count IH]; intros index; simpl; [intros j Hj; lia|].
  case_decide as Hm; [split_and!; [lia|lia|done|intros j Hj; lia]|].
  specialize (IH (S index)). destruct (find_at lines sequence (S index) count) as [i|].
  - destruct IH as (Hi & Hmi & Hmin). split_and!; [lia|lia|done|].
    intros j Hj. destruct (decide (j = index)) as [->|]; [done|]. apply Hmin. lia.
  - intros j Hj. destruct (decide (j = index)) as [->|]; [done|]. apply IH. lia.
Qed.

(** In a text whose first part is already done, the search finds the first
    occurrence in the rest. *)
Lemma findLineSequence_spec front rest sequence :
  match findLineSequence (front ++ rest) sequence (length front) with
  | Some i => ∃ gap rest', rest = gap ++ sequence ++ rest' ∧ i = length front + length gap ∧
      ∀ gap2 rest2, rest = gap2 ++ sequence ++ rest2 → length gap ≤ length gap2
  | None => ∀ gap rest', rest ≠ gap ++ sequence ++ rest'
  end.
Proof.
  unfold findLineSequence. case_decide as Hs.
  { subst sequence. exists [], rest. split_and!; [done|simpl; lia|]. intros. simpl. lia. }
  assert (∀ gap rest', rest = gap ++ sequence ++ rest' →
            take (length sequence) (drop (length front + length gap) (front ++ rest)) = sequence ∧
            length gap < S (length rest) - length sequence) as Hocc.
  { intros gap rest' ->. split.
    - rewrite <-(length_app front gap), app_assoc, drop_app_length, take_app_length. done.
    - rewrite !length_app. destruct sequence; [done|simpl in *; lia]. }
  rewrite length_app.
  pose proof (find_at_spec (front ++ rest) sequence (S (length front + length rest) - length sequence - length front)
    (length front)) as Hf.
  destruct (find_at _ _ _ _) as [i|].
  - destruct Hf as (Hi & Hm & Hmin). set (k := i - length front). assert (i = length front + k) as Hik by lia.
    rewrite Hik, drop_app_add' in Hm by done.
    exists (take k rest), (drop (length sequence) (drop k rest)).
    assert (rest = take k rest ++ sequence ++ drop (length sequence) (drop k rest)) as Hrest.
    { rewrite <-(take_drop k rest) at 1. f_equal. rewrite <-(take_drop (length sequence) (drop k rest)) at 1.
      by rewrite Hm. }
    assert (length (take k rest) = k) as Hlk.
    { rewrite length_take. apply (f_equal length) in Hm. rewrite length_take, length_drop in Hm.
      destruct sequence; [done|]. simpl in Hm. lia. }
    split_and!; [done|lia|]. intros gap2 rest2 H2. destruct (Hocc gap2 rest2 H2) as [Hm2 Hl2]. rewrite Hlk.
    destruct (decide (k ≤ length gap2)) as [|Hgt]; [done|]. exfalso.
    apply (Hmin (length front + length gap2)); [lia|done].
  - intros gap rest' Heq. destruct (Hocc gap rest' Heq) as [Hm Hl]. apply (Hf (length front + length gap)); [lia|done].
Qed.

Lemma apply_hunks_rest filePath hs : ∀ front rest,
  match apply_hunks filePath hs (front ++ rest) (length front) with
  | Ret lines => ∃ rest', lines = front ++ rest' ∧ replaced hs rest rest'
  | Throw e => e = "Patch hunk did not match " +:+ filePath +:+ "." ∧ ∀ out, ¬ replaced hs rest out
  end.
Proof.
  induction hs as [|h hs IH]; intros front rest; simpl; [exists rest; split; [done|constructor]|].
  pose proof (findLineSequence_spec front rest (oldLines h)) as Hf.
  destruct (findLineSequence (front ++ rest) (oldLines h) (length front)) as [i|].
  - destruct Hf as (gap & rest1 & -> & -> & Hmin).
    assert (take (length front + length gap) (front ++ gap ++ oldLines h ++ rest1) = front ++ gap) as ->
      by (rewrite app_assoc, <-length_app; apply take_app_length).
    assert (drop (length front + length gap + length (oldLines h)) (front ++ gap ++ oldLines h ++ rest1) = rest1) as ->
      by (rewrite !app_assoc, <-!length_app; apply drop_app_length).
    specialize (IH ((front ++ gap) ++ newLines h) rest1). rewrite !length_app, <-app_assoc in IH.
    destruct (apply_hunks filePath hs _ _) as [lines|e].
    + destruct IH as (rest' & -> & Hr). exists (gap ++ newLines h ++ rest'). split; [by rewrite <-!app_assoc|by constructor].
    + destruct IH as [-> Hno]. split; [done|]. intros out (gap2 & rest2 & rest2' & Heq1 & Hr2)%replaced_cons_inv.
      destruct (app_eq_inv gap2 (oldLines h ++ rest2) gap (oldLines h ++ rest1)) as [(k & Hg & Hk)|(k & Hg & Hk)]; [by symmetry|..].
      * assert (∃ x, rest1 = x ++ rest2) as [x ->].
        { apply (f_equal (drop (length (oldLines h)))) in Hk as Hd. rewrite drop_app_length in Hd. rewrite Hd, app_assoc.
          rewrite drop_app_le by (rewrite length_app; lia). eauto. }
        destruct (replaced_skip hs rest2 rest2' x Hr2) as [out' Hout]. by apply (Hno out').
      * assert (k = []) as ->.
        { specialize (Hmin gap2 rest2 Heq1). rewrite Hg, length_app in Hmin. destruct k; [done|simpl in Hmin; lia]. }
        simpl in Hk. apply app_inv_head in Hk as ->. by apply (Hno rest2').
  - split; [done|]. intros out (gap2 & rest2 & rest2' & -> & _)%replaced_cons_inv. by eapply Hf.
Qed.

(** C22 Hunks are applied wherever they can be: if the old lines of the hunks
    occur in a file in order and apart from each other, the update succeeds and
    its result replaces such occurrences; otherwise it throws and names the
    file. *)
Theorem hunks_applied_exactly filePath hunks lines :
  match apply_hunks filePath hunks lines 0 with
  | Ret out => replaced hunks lines out
  | Throw e => e = "Patch hunk did not match " +:+ filePath +:+ "." ∧ ∀ out, ¬ replaced hunks lines out
  end.
Proof.
  pose proof (apply_hunks_rest filePath hunks [] lines) as H. simpl in H.
  destruct (apply_hunks filePath hunks lines 0) as [out|e]; [|done]. by destruct H as (rest' & -> & Hr).
Qed.

Definition demo_hunks : list PatchHunk := [mkHunk ["a"; "b"] ["x"]; mkHunk ["b"] []].

Example hunks_demo : apply_hunks "f" demo_hunks ["a"; "a"; "b"; "c"; "b"] 0 = Ret ["a"; "x"; "c"].
Proof. reflexivity. Qed.

(** ** The parser ends *)

Lemma parse_added_shorter filePath lines content rest :
  parse_added filePath lines = Ret (content, rest) → length rest ≤ length lines.
Proof.
  revert content. induction lines as [|l ls IH]; intros content; simpl; [by intros [= <- <-]|].
  destruct (startsWith l "*** "); [by intros [= <- <-]|]. destruct (startsWith l "+"); [|done].
  destruct (parse_added filePath ls) as [[c r]|]; [|done]. intros [= <- <-]. specialize (IH c eq_refl). lia.
Qed.

Lemma parse_hunks_shorter filePath lines : ∀ current hunks out rest,
  parse_hunks filePath current hunks lines = Ret (out, rest) → length rest ≤ length lines.
Proof.
  induction lines as [|l ls IH]; intros current hunks out rest; simpl; [by intros [= <- <-]|].
  destruct (startsWith l "*** "); [by intros [= <- <-]|]. destruct (startsWith l "@@"); [intros H%IH; lia|].
  destruct (hunk_line _ _ _); [|done]. intros H%IH. lia.
Qed.

Lemma parse_operation_shorter line rest op rest' :
  parse_operation line rest = Ret (op, rest') → length rest' ≤ length rest.
Proof.
  unfold parse_operation. destruct (startsWith line ADD_FILE).
  { destruct (parse_added _ _) as [[c r]|] eqn:E; [|done]. intros [= <- <-]. by eapply parse_added_shorter. }
  destruct (startsWith line DELETE_FILE); [by intros [= <- <-]|].
  destruct (startsWith line UPDATE_FILE); [|done].
  destruct (parse_hunks _ _ _ _) as [[[|h hs] r]|] eqn:E; [done| |done]. intros [= <- <-]. by eapply parse_hunks_shorter.
Qed.

Lemma parse_operations_fuel fuel lines : length lines ≤ fuel →
  parse_operations fuel lines = parse_operations (length lines) lines.
Proof.
  revert lines. induction (lt_wf fuel) as [fuel _ IH]; intros lines Hf.
  destruct lines as [|l ls]; [by destruct fuel|]. destruct fuel as [|fuel]; simpl in *; [lia|].
  destruct (parse_operation l ls) as [[op rest]|] eqn:E; [|done]. apply parse_operation_shorter in E.
  rewrite (IH fuel) by lia. destruct (decide (length ls = fuel)) as [->|]; [rewrite (IH fuel) by lia; done|].
  by rewrite (IH (length ls)) by lia.
Qed.

(** ** Printing and parsing back *)

Definition print_hunk (h : PatchHunk) : list string :=
  "@@" :: (String.append "-" <$> oldLines h) ++ (String.append "+" <$> newLines h).

Definition print_operation (op : PatchOperation) : list string :=
  match op with
  | op_add filePath lines => (ADD_FILE +:+ filePath) :: (String.append "+" <$> lines)
  | op_delete filePath => [DELETE_FILE +:+ filePath]
  | op_update filePath hunks => (UPDATE_FILE +:+ filePath) :: (hunks ≫= print_hunk)
  end.

Definition print_patch (ops : list PatchOperation) : string :=
  Prelude.join NEWLINE (BEGIN_PATCH :: (ops ≫= print_operation) ++ [END_PATCH]).

(** Text without line ends. *)
Definition plain (s : string) : bool := negb (has_char CR s) && negb (has_char LF s).

Definition plain_operation (op : PatchOperation) : Prop :=
  match op with
  | op_add filePath lines => trim filePath = filePath ∧ plain filePath = true ∧ Forall (λ l, plain l = true) lines
  | op_delete filePath => trim filePath = filePath ∧ plain filePath = true
  | op_update filePath hunks => trim filePath = filePath ∧ plain filePath = true ∧ hunks ≠ [] ∧
      Forall (λ h, Forall (λ l, plain l = true) (oldLines h ++ newLines h)) hunks
  end.

Lemma has_char_append c s t : has_char c (s +:+ t) = has_char c s || has_char c t.
Proof. induction s as [|d s IH]; simpl; [done|]. by rewrite IH, orb_assoc. Qed.

Lemma plain_append s t : plain (s +:+ t) = plain s && plain t.
Proof. unfold plain. rewrite !has_char_append, !negb_orb. by destruct (has_char CR s), (has_char LF s), (has_char CR t), (has_char LF t). Qed.

Lemma split_plain l s : plain l = true → split_crlf (l +:+ NEWLINE +:+ s) = l :: split_crlf s.
Proof.
  unfold plain. induction l as [|c l IH]; cbn [has_char]; intros Hp; [done|].
  rewrite !negb_orb in Hp. apply andb_true_iff in Hp as [[Hcr Hl1]%andb_true_iff [Hlf Hl2]%andb_true_iff].
  assert (split_crlf (l +:+ NEWLINE +:+ s) = l :: split_crlf s) as IH' by (apply IH; by rewrite Hl1, Hl2). clear IH.
  change (String c l +:+ NEWLINE +:+ s) with (String c (l +:+ NEWLINE +:+ s)). cbn [split_crlf].
  rewrite decide_False by (intros ->; by vm_compute in Hlf).
  destruct (l +:+ NEWLINE +:+ s) as [|d t] eqn:E; [by destruct l|].
  rewrite decide_False by (intros [-> _]; by vm_compute in Hcr). by rewrite IH'.
Qed.

Lemma split_plain_end l : plain l = true → split_crlf l = [l].
Proof.
  unfold plain. induction l as [|c l IH]; cbn [has_char]; intros Hp; [done|].
  rewrite !negb_orb in Hp. apply andb_true_iff in Hp as [[Hcr Hl1]%andb_true_iff [Hlf Hl2]%andb_true_iff].
  cbn [split_crlf]. rewrite decide_False by (intros ->; by vm_compute in Hlf).
  destruct l as [|d t] eqn:E; [done|]. rewrite decide_False by (intros [-> _]; by vm_compute in Hcr).
  rewrite IH by (by rewrite Hl1, Hl2). done.
Qed.

Lemma split_join lines : lines ≠ [] → Forall (λ l, plain l = true) lines → split_crlf (Prelude.join NEWLINE lines) = lines.
Proof.
  intros Hne Hp. induction Hp as [|l ls Hl Hls IH]; [done|]. destruct ls as [|l' ls]; [by apply split_plain_end|].
  change (Prelude.join NEWLINE (l :: l' :: ls)) with (l +:+ NEWLINE +:+ Prelude.join NEWLINE (l' :: ls)).
  rewrite split_plain by done. by rewrite IH.
Qed.

Lemma startsWith_append p t : startsWith (p +:+ t) p = true.
Proof. apply prefix_append. Qed.

(** Nothing is left, or a directive is next. *)
Definition at_directive (rest : list string) : Prop := ∀ l, head rest = Some l → startsWith l "*** " = true.

Lemma parse_added_print filePath lines rest : at_directive rest →
  parse_added filePath ((String.append "+" <$> lines) ++ rest) = Ret (lines, rest).
Proof.
  intros Hd. induction lines as [|l ls IH].
  - destruct rest as [|r rs]; simpl; [done|]. by rewrite (Hd r eq_refl).
  - rewrite fmap_cons, <-app_comm_cons. cbn [parse_added].
    change (startsWith ("+" +:+ l) "*** ") with false. cbv iota.
    rewrite startsWith_append. by rewrite IH.
Qed.

Lemma parse_hunk_lines filePath marker lines rest : ∀ h hunks,
  (marker = "-" ∨ marker = "+") →
  parse_hunks filePath (Some h) hunks ((String.append marker <$> lines) ++ rest) =
  parse_hunks filePath
    (Some (if decide (marker = "-") then mkHunk (oldLines h ++ lines) (newLines h) else mkHunk (oldLines h) (newLines h ++ lines)))
    hunks rest.
Proof.
  induction lines as [|l ls IH]; intros h hunks Hm.
  - simpl. rewrite !app_nil_r. destruct h. by case_decide.
  - rewrite fmap_cons, <-app_comm_cons. destruct Hm as [-> | ->]; cbn [parse_hunks].
    + change (startsWith ("-" +:+ l) "*** ") with false. change (startsWith ("-" +:+ l) "@@") with false. cbv iota.
      change (hunk_line filePath ("-" +:+ l) (Some h or_else mkHunk [] []))
        with (Ret (mkHunk (oldLines h ++ [l]) (newLines h))). cbv iota.
      rewrite IH by auto. rewrite !decide_True by done. cbn [oldLines newLines]. by rewrite <-app_assoc.
    + change (startsWith ("+" +:+ l) "*** ") with false. change (startsWith ("+" +:+ l) "@@") with false. cbv iota.
      change (hunk_line filePath ("+" +:+ l) (Some h or_else mkHunk [] []))
        with (Ret (mkHunk (oldLines h) (newLines h ++ [l]))). cbv iota.
      rewrite IH by auto. rewrite !decide_False by done. cbn [oldLines newLines]. by rewrite <-app_assoc.
Qed.

Lemma parse_hunks_print filePath hs rest : at_directive rest → ∀ current hunks,
  parse_hunks filePath current hunks ((hs ≫= print_hunk) ++ rest) = Ret (push_current current hunks ++ hs, rest).
Proof.
  intros Hd. induction hs as [|h hs IH]; intros current hunks.
  - simpl. rewrite app_nil_r. destruct rest as [|r rs]; simpl; [done|]. by rewrite (Hd r eq_refl).
  - rewrite bind_cons. unfold print_hunk at 1. rewrite <-!app_comm_cons, <-!app_assoc. cbn [parse_hunks].
    change (startsWith "@@" "*** ") with false. change (startsWith "@@" "@@") with true. cbv iota.
    rewrite parse_hunk_lines by auto. rewrite decide_True by done.
    rewrite parse_hunk_lines by auto. rewrite decide_False by done.
    rewrite IH. cbn [push_current oldLines newLines app]. rewrite <-app_assoc. by destruct h.
Qed.

Lemma after_marker_print marker filePath : trim filePath = filePath → after_marker marker (marker +:+ filePath) = filePath.
Proof.
  intros Ht. unfold after_marker. assert (slice_from (String.length marker) (marker +:+ filePath) = filePath) as ->; [|done].
  clear Ht. induction marker as [|c m IH]; simpl; [by destruct filePath|done].
Qed.

Lemma parse_operation_print op rest : plain_operation op → at_directive rest →
  ∃ line lines, print_operation op = line :: lines ∧ startsWith line "*** " = true ∧
    parse_operation line (lines ++ rest) = Ret (op, rest).
Proof.
  intros Hop Hd. destruct op as [filePath ls|filePath|filePath hs]; do 2 eexists; (split; [reflexivity|]); (split; [done|]).
  - destruct Hop as (Ht & _). unfold parse_operation. rewrite startsWith_append.
    rewrite after_marker_print by done. by rewrite parse_added_print.
  - destruct Hop as (Ht & _). unfold parse_operation. change (startsWith (DELETE_FILE +:+ filePath) ADD_FILE) with false.
    cbv iota. rewrite startsWith_append. by rewrite after_marker_print.
  - destruct Hop as (Ht & _ & Hne & _). unfold parse_operation.
    change (startsWith (UPDATE_FILE +:+ filePath) ADD_FILE) with false.
    change (startsWith (UPDATE_FILE +:+ filePath) DELETE_FILE) with false. cbv iota.
    rewrite startsWith_append, after_marker_print by done.
    rewrite parse_hunks_print by done. simpl. by destruct hs.
Qed.

Lemma parse_operations_print ops fuel : Forall plain_operation ops → length (ops ≫= print_operation) ≤ fuel →
  parse_operations fuel (ops ≫= print_operation) = Ret ops ∧ at_directive (ops ≫= print_operation).
Proof.
  intros Hops. revert fuel. induction Hops as [|op ops Hop Hops IH]; intros fuel Hf; [by destruct fuel|].
  rewrite bind_cons in *. destruct (IH (length (ops ≫= print_operation)) (Nat.le_refl _)) as [_ Hd].
  destruct (parse_operation_print op (ops ≫= print_operation) Hop Hd) as (line & lines & Hp & Hstar & Hparse).
  rewrite Hp in *. simpl in *. split; [|by intros l [= <-]]. destruct fuel as [|fuel]; [lia|]. simpl. rewrite Hparse.
  destruct (IH fuel) as [-> _]; [|done]. rewrite length_app in Hf. lia.
Qed.

Lemma pop_empties_keep lines l : l ≠ "" → pop_empties (lines ++ [l]) = lines ++ [l].
Proof.
  intros Hl. induction lines as [|x xs IH]; simpl; [by rewrite decide_False|]. rewrite IH. by destruct (xs ++ [l]) eqn:E; [destruct xs|].
Qed.

Lemma print_plain op : plain_operation op → Forall (λ l, plain l = true) (print_operation op).
Proof.
  assert (∀ m ls, plain m = true → Forall (λ l, plain l = true) ls → Forall (λ l, plain l = true) (String.append m <$> ls)) as Hmap.
  { intros m ls Hm Hls. apply Forall_fmap. eapply Forall_impl; [exact Hls|]. intros l Hl. unfold compose.
    by rewrite plain_append, Hm, Hl. }
  assert (∀ m f, plain m = true → plain f = true → plain (m +:+ f) = true) as Hhead
    by (intros m f Hm Hf; by rewrite plain_append, Hm, Hf).
  destruct op as [filePath ls|filePath|filePath hs]; intros Hop; cbn [print_operation plain_operation] in *.
  - destruct Hop as (_ & Hp & Hls). constructor; [by apply Hhead|]. by apply Hmap.
  - destruct Hop as (_ & Hp). constructor; [by apply Hhead|constructor].
  - destruct Hop as (_ & Hp & _ & Hhs). constructor; [by apply Hhead|].
    induction Hhs as [|h hs [Ho Hn]%Forall_app Hhs IH]; [constructor|]. rewrite bind_cons. apply Forall_app. split; [|done].
    constructor; [done|]. apply Forall_app. by split; apply Hmap.
Qed.

(** C21 Printing and parsing a patch is a round trip: a patch written for a
    non-empty list of operations, with trimmed paths and lines without line
    ends, is read back as exactly these operations. *)
Theorem patch_round_trip ops : ops ≠ [] → Forall plain_operation ops → parseApplyPatch (print_patch ops) = Ret ops.
Proof.
  intros Hne Hops. unfold parseApplyPatch, print_patch.
  assert (Forall (λ l, plain l = true) (BEGIN_PATCH :: (ops ≫= print_operation) ++ [END_PATCH])) as Hp.
  { constructor; [done|]. apply Forall_app. split; [|by repeat constructor].
    clear Hne. induction Hops; [constructor|]. rewrite bind_cons. apply Forall_app. split; [by apply print_plain|done]. }
  rewrite split_join by done. rewrite app_comm_cons, pop_empties_keep by done. rewrite last_snoc.
  rewrite decide_True by done. cbn [tail app]. rewrite removelast_last.
  destruct (parse_operations_print ops (length (ops ≫= print_operation)) Hops) as [-> _]; [done|]. by destruct ops.
Qed.

Definition demo_patch : list PatchOperation :=
  [op_add "new.txt" ["first"; ""]; op_update "a.txt" [mkHunk ["one"] ["two"; "three"]; mkHunk [] ["end"]]; op_delete "old.txt"].

Lemma patch_round_trip_witness : parseApplyPatch (print_patch demo_patch) = Ret demo_patch.
Proof.
  apply (patch_round_trip demo_patch); [done|].
  repeat first [discriminate | constructor].
Defined.

(** ** What a failing patch leaves behind *)

Definition same_files (fs fs' : FileSystem) : Prop := ∀ p c, fs' !! p = Some (File c) ↔ fs !! p = Some (File c).

Lemma mkdir_same_files rest : ∀ front fs, same_files fs (snd (mkdir_from front rest fs)).
Proof.
  induction rest as [|s rest IH]; intros front fs q c; simpl; [done|].
  destruct (fs !! (front ++ [s])) as [[c'|]|] eqn:E; [done|apply IH|]. etrans; [apply IH|].
  destruct (decide (q = front ++ [s])) as [->|]; [|by rewrite lookup_insert_ne].
  rewrite lookup_insert_eq, E. done.
Qed.

(** An operation that throws has changed no file; it may have made directories. *)
Lemma failed_operation_files root op fs e fs' : applyOperation root op fs = (Throw e, fs') → same_files fs fs'.
Proof.
  unfold applyOperation. plain_fs. unfold mbind, M_bind, lift_outcome, gets, throw, mret, M_ret. destruct op as [f ls|f|f hs];
    (destruct (resolveRepoPath root f) as [r|er]; [|by intros [= <- <-]]).
  - destruct (existsSync _ fs); [by intros [= <- <-]|]. pose proof (mkdir_same_files (removelast (absolutePath r)) [] fs) as Hs.
    unfold mkdirSync. destruct (mkdir_from [] _ fs) as [[[]|em] fs1]; [|by intros [= <- <-]].
    unfold writeFileSync. destruct (is_dir fs1 (absolutePath r)); [by intros [= <- <-]|].
    destruct (is_dir fs1 _); intros ?; by simplify_eq.
  - unfold readFileSync, unlinkSync. destruct (is_dir fs (absolutePath r)) eqn:Hd; [by intros [= <- <-]|].
    destruct (fs !! absolutePath r) as [[c|]|] eqn:Hf; [|by intros [= <- <-]..]. by rewrite Hd, Hf.
  - unfold readFileSync. destruct (is_dir fs (absolutePath r)) eqn:Hd; [by intros [= <- <-]|].
    destruct (fs !! absolutePath r) as [[c|]|] eqn:Hf; [|by intros [= <- <-]..].
    destruct (applyUpdateHunks c hs (relativePath r)) as [after|eh]; [|by intros [= <- <-]].
    unfold writeFileSync. rewrite Hd. destruct (is_dir fs (removelast _)); intros ?; by simplify_eq.
Qed.

Lemma failing_operations root ops fs e fs' : applyOperations root ops fs = (Throw e, fs') →
  ∃ before op rest summaries fs1, ops = before ++ op :: rest ∧ applyOperations root before fs = (Ret summaries, fs1) ∧
    applyOperation root op fs1 = (Throw e, fs').
Proof.
  revert fs. induction ops as [|op ops IH]; intros fs; simpl; [done|]. unfold mbind at 1, M_bind at 1.
  destruct (applyOperation root op fs) as [[s|e1] fs1] eqn:Hop.
  - unfold mbind at 1, M_bind at 1. destruct (applyOperations root ops fs1) as [[ss|e2] fs2] eqn:Hops; [done|].
    intros [= <- <-]. destruct (IH fs1 Hops) as (before & op' & rest & sums & fs3 & -> & Hd & Ho).
    exists (op :: before), op', rest, (s :: sums), fs3. split_and!; [done| |done]. simpl.
    rewrite (bind_run _ _ _ _ _ Hop). by rewrite (bind_run _ _ _ _ _ Hd).
  - intros [= <- <-]. exists [], op, ops, [], fs. done.
Qed.

(** The patch tool always returns a result, and a failed patch is not undone:
    either nothing was changed because the patch does not parse, or the
    operations before the first failing one stay applied, that one has changed
    no file, the ones after it were not tried, and the result carries its
    error. *)
Theorem failed_patch_keeps_prefix root patch fs :
  ∃ r fs', executeApplyPatchTool root patch fs = (Ret r, fs') ∧
  (r_status r = failed →
     (∃ e, parseApplyPatch patch = Throw e ∧ r_error r = Some e ∧ fs' = fs) ∨
     ∃ before op rest summaries fs1 e,
       parseApplyPatch patch = Ret (before ++ op :: rest) ∧ applyOperations root before fs = (Ret summaries, fs1) ∧
       applyOperation root op fs1 = (Throw e, fs') ∧ same_files fs1 fs' ∧ r_error r = Some e).
Proof.
  unfold executeApplyPatchTool, tool_body, try_catch, mbind, M_bind, lift_outcome.
  destruct (parseApplyPatch patch) as [ops|e]; [|do 2 eexists; split; [done|]; by eauto].
  destruct (applyOperations root ops fs) as [[ss|e] fs'] eqn:Hops; (do 2 eexists; split; [reflexivity|]); [done|].
  intros _. right. destruct (failing_operations root ops fs e fs' Hops) as (before & op & rest & sums & fs1 & -> & Hd & Ho).
  exists before, op, rest, sums, fs1, e. split_and!; [done..| |done]. by eapply failed_operation_files.
Qed.

(** A patch whose second operation fails has deleted a file nevertheless. *)
Lemma failed_patch_deletes :
  let patch := print_patch [op_delete "a.txt"; op_delete "missing.txt"] in
  let (r, fs) := executeApplyPatchTool demo_root patch demo_fs in
  match r with Ret r => r_status r = failed | Throw _ => False end ∧ fs !! ["home"; "repo"; "a.txt"] = None.
Proof. split; vm_compute; reflexivity. Qed.

(** A file with CRLF line ends is rewritten with LF throughout by any update. *)
Lemma update_drops_carriage_returns :
  applyUpdateHunks ("a" +:+ String CR NEWLINE +:+ "b" +:+ String CR NEWLINE) [mkHunk ["b"] ["c"]] "f" =
    Ret ("a" +:+ NEWLINE +:+ "c" +:+ NEWLINE).
Proof. reflexivity. Qed.

(** ** Confinement *)

Section confinement.
Context `{ConfinedFs W}.

Lemma operation_confined (root : Path) op : confined root (applyOperation (W:=W) root op).
Proof using Type*. destruct op as [f ls|f|f hs]; cbn [applyOperation]; confine. Qed.

Lemma operations_confined (root : Path) ops : confined root (applyOperations (W:=W) root ops).
Proof using Type*.
  induction ops as [|op ops IH]; [apply confined_ret|]. simpl. apply confined_bind; [apply operation_confined|].
  intros s. apply confined_bind; [done|]. intros ss. apply confined_ret.
Qed.

Lemma patch_confined (root : Path) patch : confined root (executeApplyPatchTool (W:=W) root patch).
Proof using Type*.
  unfold executeApplyPatchTool. apply confined_tool, confined_bind; [apply confined_lift|]. intros ops.
  apply confined_bind; [apply operations_confined|]. intros ss. apply confined_ret.
Qed.
End confinement.
