(* ===== verification/Links.v ===== *)
(** * Files with symbolic links

    The file operations of Node on a POSIX file system with symbolic links, as an
    instance of the operations that the file tools use ([NodeFs]).  The tools test
    the path they are given by its segments alone
    ([packages/opencode-app/src/tools/tool-paths.ts]); what keeps them inside the
    repository is proved here for repositories whose links stay inside, and a link
    that does not leads them out.

    Hard links, mount points, permissions and other processes are left out. *)

From S2P Require Import Prelude Files Patch.
From Stdlib Require Import Ascii String.
From stdpp Require Import prelude list strings gmap.
Set Default Goal Selector "!".
Set Default Proof Using "Type".
Set Warnings "-clear-no-such-hyp".
#[local] Arguments String.append : simpl nomatch.

Inductive Node : Type := NFile (content : string) | NDir | NLink (target : string).

Abbreviation LinkedFiles :=
  (@gmap (list string) (@list_eq_dec string String.eq_dec) (@list_countable string String.eq_dec String.countable) Node).

(** ** Resolution *)

(** What is at a real path; the root is a directory. *)
Definition node_at (fs : LinkedFiles) (p : Path) : option Node :=
  match p with [] => Some NDir | _ => fs !! p end.

(** Where the path [todo] leads from the real directory [cur]: the real path of
    an entry, or of a missing entry of a real directory.  At most [links] links
    are followed. *)
Fixpoint real (links : nat) (fs : LinkedFiles) : Path → Path → outcome Path :=
  fix go (cur todo : Path) : outcome Path :=
    match todo with
    | [] => Ret cur
    | s :: rest =>
      if decide (s = "" ∨ s = ".") then go cur rest
      else if decide (s = "..") then go (removelast cur) rest
      else
        let p := cur ++ [s] in
        match fs !! p with
        | Some (NLink target) =>
          match links with
          | O => Throw "ELOOP"
          | S links => real links fs (if startsWith target "/" then [] else cur) (split_on "/" target ++ rest)
          end
        | Some NDir => go p rest
        | Some (NFile _) => if decide (rest = []) then Ret p else Throw "ENOTDIR"
        | None => if decide (rest = []) then Ret p else Throw "ENOENT"
        end
    end.

(** Linux follows at most 40 links. *)
Definition MAXSYMLINKS : nat := 40.

Definition realpath (fs : LinkedFiles) (p : Path) : outcome Path := real MAXSYMLINKS fs [] p.

(** ** Operations *)

Definition linked_exists (p : Path) (fs : LinkedFiles) : bool :=
  match realpath fs p with
  | Ret q => bool_decide (is_Some (node_at fs q))
  | Throw _ => false
  end.

Definition linked_read (p : Path) : M LinkedFiles string := λ fs,
  match realpath fs p with
  | Throw e => (Throw e, fs)
  | Ret q => match node_at fs q with
             | Some (NFile c) => (Ret c, fs)
             | Some NDir => (Throw "EISDIR", fs)
             | _ => (Throw "ENOENT", fs)
             end
  end.

(** A link is followed, and the file it names is made if it is missing. *)
Definition linked_write (p : Path) (content : string) : M LinkedFiles () := λ fs,
  match realpath fs p with
  | Throw e => (Throw e, fs)
  | Ret q => match node_at fs q with
             | Some NDir => (Throw "EISDIR", fs)
             | _ => (Ret (), <[q := NFile content]> fs)
             end
  end.

(** The last segment is not followed: a link is removed itself. *)
Definition linked_unlink (p : Path) : M LinkedFiles () := λ fs,
  match last p with
  | None => (Throw "EISDIR", fs)
  | Some s =>
    match realpath fs (removelast p) with
    | Throw e => (Throw e, fs)
    | Ret q =>
      match fs !! (q ++ [s]) with
      | Some NDir => (Throw "EISDIR", fs)
      | Some _ => (Ret (), delete (q ++ [s]) fs)
      | None => (Throw "ENOENT", fs)
      end
    end
  end.

(** [mkdirSync(p, { recursive: true })]: the prefixes of [p] from the shortest, of
    which [cur] is the real path of the last one.  A prefix that is a link is not
    made, but must lead to a directory. *)
Fixpoint linked_mkdir_from (cur rest : Path) : M LinkedFiles () := λ fs,
  match rest with
  | [] => (Ret (), fs)
  | s :: rest =>
    let p := cur ++ [s] in
    let not_directory := Throw (if decide (rest = []) then "EEXIST" else "ENOTDIR") in
    match fs !! p with
    | Some NDir => linked_mkdir_from p rest fs
    | Some (NFile _) => (not_directory, fs)
    | None => linked_mkdir_from p rest (<[p := NDir]> fs)
    | Some (NLink _) =>
      match real MAXSYMLINKS fs cur [s] with
      | Throw e => (Throw e, fs)
      | Ret q => match node_at fs q with
                 | Some NDir => linked_mkdir_from q rest fs
                 | Some _ => (not_directory, fs)
                 | None => (Throw "ENOENT", fs)
                 end
      end
    end
  end.

Definition linked_mkdir (p : Path) : M LinkedFiles () := linked_mkdir_from [] p.

#[export] Instance linked_files : NodeFs LinkedFiles := {|
  fs_existsSync := linked_exists;
  fs_readFileSync := linked_read;
  fs_writeFileSync := linked_write;
  fs_unlinkSync := linked_unlink;
  fs_mkdirSync := linked_mkdir;
|}.

(** ** Links that stay inside *)

Definition plain_segments (target : string) : Path := filter (λ s, s ≠ "" ∧ s ≠ ".") (split_on "/" target).

(** A link in the directory [root ++ dir] stays below [root]: it is absolute and
    begins with [root], or it is relative and begins with no more [..] than lead to
    [root]; no other [..] is in it. *)
Definition stays_inside (root dir : Path) (target : string) : Prop :=
  ∃ ups names, Forall (λ s, s ≠ "..") names ∧
    if startsWith target "/" then ups = 0 ∧ plain_segments target = root ++ names
    else ups ≤ length dir ∧ plain_segments target = replicate ups ".." ++ names.

Definition links_inside (root : Path) (fs : LinkedFiles) : Prop :=
  ∀ dir s target, fs !! (root ++ dir ++ [s]) = Some (NLink target) → stays_inside root dir target.

Definition below (root p : Path) : Prop := ∃ rest, rest ≠ [] ∧ p = root ++ rest.

(** The root is reached by directories only. *)
Definition real_root (root : Path) (fs : LinkedFiles) : Prop :=
  Forall plain_segment root ∧ ∀ p q, root = p ++ q → node_at fs p = Some NDir.

#[export] Instance linked_frame : FileFrame LinkedFiles.
Proof.
  refine {| root_ok root fs := real_root root fs ∧ links_inside root fs;
            same_outside root fs fs' := ∀ p, ¬ below root p → fs' !! p = fs !! p |}.
  - intros root. split; [done|]. intros a b c Hab Hbc p Hp. by rewrite Hbc, Hab.
  - by intros root w [[? _] _].
Defined.

(** ** Resolution stays inside *)

Local Abbreviation passed := (filter (λ s : string, s ≠ "" ∧ s ≠ ".")).

(** One segment of a walk. *)
Lemma real_cons links fs cur s rest :
  real links fs cur (s :: rest) =
  if decide (s = "" ∨ s = ".") then real links fs cur rest
  else if decide (s = "..") then real links fs (removelast cur) rest
  else match fs !! (cur ++ [s]) with
       | Some (NLink target) =>
         match links with
         | O => Throw "ELOOP"
         | S links => real links fs (if startsWith target "/" then [] else cur) (split_on "/" target ++ rest)
         end
       | Some NDir => real links fs (cur ++ [s]) rest
       | Some (NFile _) => if decide (rest = []) then Ret (cur ++ [s]) else Throw "ENOTDIR"
       | None => if decide (rest = []) then Ret (cur ++ [s]) else Throw "ENOENT"
       end.
Proof. by destruct links. Qed.

Lemma real_nil links fs cur : real links fs cur [] = Ret cur.
Proof. by destruct links. Qed.

Lemma passed_plain (p : Path) : Forall plain_segment p → passed p = p.
Proof.
  induction 1 as [|s p (H1 & H2 & _) _ IH]; [done|]. rewrite filter_cons_True by done. by rewrite IH.
Qed.

#[local] Arguments real : simpl never.

Lemma exists_last_or_nil {A : Type} (l : list A) : l = [] ∨ ∃ l' x, l = l' ++ [x].
Proof. destruct l as [|x l _] using rev_ind; eauto. Qed.

Section inside.
Context (root : Path).

Lemma root_entry fs p s q : real_root root fs → root = p ++ s :: q → plain_segment s ∧ fs !! (p ++ [s]) = Some NDir.
Proof.
  intros [Hplain Hdir] Heq. split; [rewrite Heq in Hplain; apply Forall_app in Hplain as [_ Hp]; by apply Forall_cons in Hp as [? _]|].
  specialize (Hdir (p ++ [s]) q). rewrite <-app_assoc in Hdir. specialize (Hdir Heq). by destruct p.
Qed.

(** A walk along the root comes to the root. *)
Lemma real_to_root links fs todo : ∀ p q names, real_root root fs → root = p ++ q → passed todo = q ++ names →
  ∃ todo', passed todo' = names ∧ real links fs p todo = real links fs root todo'.
Proof.
  induction todo as [|s todo IH]; intros p q names Hroot Heq Hp.
  { symmetry in Hp. apply app_eq_nil in Hp as [-> ->]. exists []. by rewrite Heq, app_nil_r. }
  destruct q as [|x q]; [exists (s :: todo); split; [done|by rewrite Heq, app_nil_r]|].
  rewrite real_cons. destruct (decide (s = "" ∨ s = ".")) as [Hs|Hs].
  - rewrite filter_cons_False in Hp by tauto. by apply (IH p (x :: q)).
  - rewrite filter_cons_True in Hp by tauto. injection Hp as -> Hp.
    destruct (root_entry fs p x q Hroot Heq) as [(_ & _ & Hx) Hd]. rewrite decide_False by done. rewrite Hd.
    apply (IH (p ++ [x]) q); [done| |done]. by rewrite <-app_assoc.
Qed.

Lemma real_prefix links fs todo : ∀ p q, real_root root fs → root = p ++ todo ++ q → real links fs p todo = Ret (p ++ todo).
Proof.
  induction todo as [|s todo IH]; intros p q Hroot Heq; [by rewrite real_nil, app_nil_r|].
  destruct (root_entry fs p s (todo ++ q) Hroot Heq) as [(H1 & H2 & H3) Hd]. rewrite real_cons, decide_False by tauto.
  rewrite decide_False by done. rewrite Hd, (IH (p ++ [s]) q) by (done || by rewrite <-app_assoc). by rewrite <-app_assoc.
Qed.

(** A walk from inside that climbs at most to the root ends inside. *)
Lemma real_inside links : ∀ fs todo dir ups names q, real_root root fs → links_inside root fs →
  passed todo = replicate ups ".." ++ names → ups ≤ length dir → Forall (λ s, s ≠ "..") names →
  real links fs (root ++ dir) todo = Ret q → ∃ dir', q = root ++ dir'.
Proof.
  induction links as [links IHl] using lt_wf_ind. intros fs todo. induction todo as [|s todo IH];
    intros dir ups names q Hroot Hin Hp Hups Hnames; [rewrite real_nil; intros [= <-]; by exists dir|].
  rewrite real_cons. destruct (decide (s = "" ∨ s = ".")) as [Hs|Hs].
  { rewrite filter_cons_False in Hp by tauto. by eapply IH. }
  rewrite filter_cons_True in Hp by tauto. destruct (decide (s = "..")) as [->|Hdots].
  - destruct ups as [|ups]; [destruct names; [done|injection Hp as <- _; by apply Forall_cons in Hnames as [? _]]|].
    simpl in Hp. injection Hp as Hp. destruct dir as [|d dir _] using rev_ind; [simpl in Hups; lia|].
    rewrite app_assoc, removelast_last. rewrite length_app in Hups. simpl in Hups. apply (IH dir ups names); auto. lia.
  - destruct ups as [|ups]; [|simpl in Hp; by injection Hp]. destruct names as [|n names]; [done|]. simpl in Hp.
    injection Hp as <- Hp. apply Forall_cons in Hnames as [_ Hnames]. rewrite <-app_assoc.
    destruct (fs !! (root ++ dir ++ [s])) as [[c| |target]|] eqn:E.
    + case_decide; [|done]. intros [= <-]. eauto.
    + apply (IH (dir ++ [s]) 0 names); [done..|lia|done].
    + destruct links as [|links]; [done|]. destruct (Hin dir s target E) as (ups & ts & Hts & Htarget).
      destruct (startsWith target "/") eqn:Habs; destruct Htarget as [Hu Htarget].
      * destruct (real_to_root links fs (split_on "/" target ++ todo) [] root (ts ++ names)) as (todo' & Hp' & ->); [done|done| |].
        { rewrite filter_app, Hp. fold (plain_segments target). by rewrite Htarget, <-app_assoc. }
        rewrite <-(app_nil_r root) at 1. apply (IHl links) with (ups := 0) (names := ts ++ names); [lia|done|done|done|simpl; lia|].
        by apply Forall_app.
      * apply (IHl links) with (ups := ups) (names := ts ++ names); [lia|done|done| |done|by apply Forall_app].
        rewrite filter_app, Hp. fold (plain_segments target). by rewrite Htarget, <-app_assoc.
    + case_decide; [|done]. intros [= <-]. eauto.
Qed.

Lemma plain_no_dots (p : Path) : Forall plain_segment p → Forall (λ s, s ≠ "..") p.
Proof. intros Hp. eapply Forall_impl; [exact Hp|]. by intros s (_ & _ & ?). Qed.

(** A path that is lexically inside leads inside. *)
Lemma realpath_inside fs rest q : real_root root fs → links_inside root fs → Forall plain_segment rest →
  realpath fs (root ++ rest) = Ret q → ∃ dir, q = root ++ dir.
Proof.
  intros Hroot Hin Hrest. unfold realpath.
  destruct (real_to_root MAXSYMLINKS fs (root ++ rest) [] root rest) as (todo & Hp & ->); [done|done| |].
  { rewrite filter_app, !passed_plain; [done|done|]. apply Hroot. }
  rewrite <-(app_nil_r root) at 1. apply (real_inside _ _ _ _ 0 rest); [done..|simpl; lia|by apply plain_no_dots].
Qed.

(** *** Changes below the root *)

Definition inside_ok (fs : LinkedFiles) : Prop := real_root root fs ∧ links_inside root fs.

Lemma not_root fs (dir : Path) : real_root root fs → node_at fs (root ++ dir) ≠ Some NDir → dir ≠ [].
Proof. intros [_ Hd] Hn ->. apply Hn. rewrite app_nil_r. apply (Hd root []). by rewrite app_nil_r. Qed.

(** An entry below the root is set, but not to a link, or removed. *)
Lemma changed_below fs fs' dir : inside_ok fs → dir ≠ [] →
  (∀ p, p ≠ root ++ dir → fs' !! p = fs !! p) → (∀ target, fs' !! (root ++ dir) ≠ Some (NLink target)) →
  inside_ok fs' ∧ ∀ p, ¬ below root p → fs' !! p = fs !! p.
Proof.
  intros [[Hplain Hd] Hin] Hdir Hsame Hnolink. split; [split; [split; [done|]|]|].
  - intros p q Hpq. specialize (Hd p q Hpq). destruct p as [|x p]; [done|]. simpl in *. rewrite Hsame; [done|].
    intros Heq. change (root = (x :: p) ++ q) in Hpq. rewrite Heq in Hpq. apply (f_equal length) in Hpq.
    rewrite !length_app in Hpq. destruct dir; [done|simpl in Hpq; lia].
  - intros d s target Hl. destruct (decide (root ++ d ++ [s] = root ++ dir)) as [Heq|Hne].
    + rewrite Heq in Hl. by apply Hnolink in Hl.
    + rewrite Hsame in Hl by done. by eapply Hin.
  - intros p Hp. apply Hsame. intros ->. apply Hp. by exists dir.
Qed.

Lemma unchanged fs : inside_ok fs → inside_ok fs ∧ ∀ p, ¬ below root p → fs !! p = fs !! p.
Proof. done. Qed.

Lemma linked_write_inside rest c fs : Forall plain_segment rest → inside_ok fs →
  let fs' := snd (linked_write (root ++ rest) c fs) in inside_ok fs' ∧ ∀ p, ¬ below root p → fs' !! p = fs !! p.
Proof.
  intros Hrest Hok. unfold linked_write. destruct (realpath fs (root ++ rest)) as [q|e] eqn:E; [|by apply unchanged].
  destruct (realpath_inside fs rest q (proj1 Hok) (proj2 Hok) Hrest E) as [dir ->].
  assert (node_at fs (root ++ dir) ≠ Some NDir →
    inside_ok (<[root ++ dir := NFile c]> fs) ∧ ∀ p, ¬ below root p → <[root ++ dir := NFile c]> fs !! p = fs !! p) as Hgo.
  { intros Hn. apply (changed_below fs _ dir); [done|by eapply not_root, Hn; apply Hok| |].
    - intros p Hp. by rewrite lookup_insert_ne.
    - intros target. by rewrite lookup_insert_eq. }
  destruct (node_at fs (root ++ dir)) as [[c'| |target]|]; [by apply Hgo|by apply unchanged|by apply Hgo|by apply Hgo].
Qed.

Lemma linked_unlink_inside rest fs : Forall plain_segment rest → inside_ok fs →
  let fs' := snd (linked_unlink (root ++ rest) fs) in inside_ok fs' ∧ ∀ p, ¬ below root p → fs' !! p = fs !! p.
Proof.
  intros Hrest Hok. unfold linked_unlink. destruct rest as [|s rest _] using rev_ind.
  - rewrite app_nil_r. destruct (last root) as [s|] eqn:Hl; [|by apply unchanged].
    apply last_Some in Hl as [r Hr].
    assert (removelast root = r) as -> by (by rewrite Hr, removelast_last). unfold realpath.
    rewrite (real_prefix MAXSYMLINKS fs r [] [s]) by (done || apply Hok). cbn [app].
    destruct (root_entry fs r s [] (proj1 Hok) Hr) as [_ ->]. by apply unchanged.
  - rewrite app_assoc, last_snoc, removelast_last. apply Forall_app in Hrest as [Hrest _].
    destruct (realpath fs (root ++ rest)) as [q|e] eqn:E; [|by apply unchanged].
    destruct (realpath_inside fs rest q (proj1 Hok) (proj2 Hok) Hrest E) as [dir ->].
    assert (inside_ok (delete ((root ++ dir) ++ [s]) fs) ∧
      ∀ p, ¬ below root p → delete ((root ++ dir) ++ [s]) fs !! p = fs !! p) as Hdel.
    { rewrite <-app_assoc. apply (changed_below fs _ (dir ++ [s])); [done|by destruct dir| |].
      - intros p Hp. by rewrite lookup_delete_ne.
      - intros target. by rewrite lookup_delete_eq. }
    destruct (fs !! ((root ++ dir) ++ [s])) as [[c| |target]|]; [done|by apply unchanged|done|by apply unchanged].
Qed.

Lemma linked_mkdir_below rest : ∀ dir fs, Forall plain_segment rest → inside_ok fs →
  let fs' := snd (linked_mkdir_from (root ++ dir) rest fs) in inside_ok fs' ∧ ∀ p, ¬ below root p → fs' !! p = fs !! p.
Proof.
  induction rest as [|s rest IH]; intros dir fs Hrest Hok; [by apply unchanged|].
  apply Forall_cons in Hrest as [(Hs1 & Hs2 & Hs3) Hrest]. cbn [linked_mkdir_from]. rewrite <-app_assoc.
  destruct (fs !! (root ++ dir ++ [s])) as [[c| |target]|] eqn:E; [by apply unchanged|by apply IH| |].
  - destruct (real MAXSYMLINKS fs (root ++ dir) [s]) as [q|e] eqn:Hq; [|by apply unchanged].
    assert (∃ dir', q = root ++ dir') as [dir' ->].
    { apply (real_inside MAXSYMLINKS fs [s] dir 0 [s]); [apply Hok..| |lia|by repeat constructor|done].
      by rewrite filter_cons_True. }
    destruct (node_at fs (root ++ dir')) as [[c| |t]|]; [by apply unchanged|by apply IH|by apply unchanged..].
  - destruct (changed_below fs (<[root ++ dir ++ [s] := NDir]> fs) (dir ++ [s]) Hok) as [Hok' Hout].
    + by destruct dir.
    + intros p Hp. by rewrite lookup_insert_ne.
    + intros target. by rewrite lookup_insert_eq.
    + destruct (IH (dir ++ [s]) _ Hrest Hok') as [Hok2 Hout2]. split; [done|]. intros p Hp. by rewrite Hout2, Hout.
Qed.

Lemma linked_mkdir_to_root fs : ∀ q p rest, real_root root fs → root = p ++ q →
  linked_mkdir_from p (q ++ rest) fs = linked_mkdir_from root rest fs.
Proof.
  induction q as [|s q IH]; intros p rest Hroot Heq; [by rewrite Heq, app_nil_r|].
  destruct (root_entry fs p s q Hroot Heq) as [_ Hd]. simpl. rewrite Hd. apply IH; [done|]. by rewrite <-app_assoc.
Qed.

Lemma linked_mkdir_prefix fs : ∀ q p r, real_root root fs → root = p ++ q ++ r → linked_mkdir_from p q fs = (Ret (), fs).
Proof.
  induction q as [|s q IH]; intros p r Hroot Heq; [done|].
  destruct (root_entry fs p s (q ++ r) Hroot Heq) as [_ Hd]. simpl. rewrite Hd. apply (IH _ r); [done|]. by rewrite <-app_assoc.
Qed.

Lemma linked_mkdir_inside rest fs : Forall plain_segment rest → inside_ok fs →
  let fs' := snd (linked_mkdir (removelast (root ++ rest)) fs) in inside_ok fs' ∧ ∀ p, ¬ below root p → fs' !! p = fs !! p.
Proof.
  intros Hrest Hok. unfold linked_mkdir. destruct rest as [|s rest _] using rev_ind.
  - rewrite app_nil_r. assert (∃ r, root = removelast root ++ r) as [r Hr].
    { destruct (exists_last_or_nil root) as [->|(l & x & ->)]; [by exists []|]. exists [x]. by rewrite removelast_last. }
    rewrite (linked_mkdir_prefix fs (removelast root) [] r) by (done || apply Hok). by apply unchanged.
  - rewrite app_assoc, removelast_last. apply Forall_app in Hrest as [Hrest _].
    rewrite (linked_mkdir_to_root fs root [] rest) by (done || apply Hok).
    pose proof (linked_mkdir_below rest [] fs Hrest Hok) as Hb. by rewrite app_nil_r in Hb.
Qed.
End inside.

#[export] Instance linked_confined : ConfinedFs LinkedFiles.
Proof.
  split; intros root rest; [|intros c|..]; intros Hrest w Hok.
  - cbn [fs_readFileSync linked_files]. assert (snd (linked_read (root ++ rest) w) = w) as ->; [|by apply (unchanged root w)].
    unfold linked_read. destruct (realpath w _) as [q|]; [|done]. by destruct (node_at w q) as [[]|].
  - by apply linked_write_inside.
  - by apply linked_unlink_inside.
  - by apply linked_mkdir_inside.
Qed.

(** ** A tree without links

    On the image of a [FileSystem], which has no links, the operations agree with
    those of [FileSystem]; only the code of an error may differ, since a path
    through a file is [ENOTDIR] here. *)

Definition to_node (e : Entry) : Node := match e with File c => NFile c | Dir => NDir end.
Definition unlinked (t : FileSystem) : LinkedFiles := to_node <$> t.

(** Every entry is in a directory. *)
Definition tree_ok (t : FileSystem) : Prop := ∀ p s, is_Some (t !! (p ++ [s])) → is_dir t p = true.

Definition agrees {A : Type} (r : outcome A * FileSystem) (r' : outcome A * LinkedFiles) : Prop :=
  r'.2 = unlinked r.2 ∧ match r.1, r'.1 with Ret a, Ret a' => a = a' | Throw _, Throw _ => True | _, _ => False end.

Lemma node_unlinked t p : node_at (unlinked t) p = if is_dir t p then Some NDir else to_node <$> t !! p.
Proof.
  unfold is_dir, node_at, unlinked. destruct p as [|x p]; [done|]. rewrite lookup_fmap. by destruct (t !! (x :: p)) as [[]|].
Qed.

Lemma entry_unlinked t (p : Path) : p ≠ [] → unlinked t !! p = node_at (unlinked t) p.
Proof. by destruct p. Qed.

Lemma is_dir_parent t p s : tree_ok t → is_dir t (p ++ [s]) = true → is_dir t p = true.
Proof. intros Ht Hd. apply (Ht p s). unfold is_dir in Hd. destruct p; simpl in *; by destruct (t !! _) as [[]|]. Qed.

Lemma is_dir_prefix t p q : tree_ok t → is_dir t (p ++ q) = true → is_dir t p = true.
Proof.
  intros Ht. induction q as [|s q IH] using rev_ind; [by rewrite app_nil_r|]. rewrite app_assoc.
  intros Hd%is_dir_parent; auto.
Qed.

(** Where a path leads: to where it says, if its directory exists. *)
Lemma real_unlinked links t todo : ∀ cur, tree_ok t → Forall plain_segment todo → is_dir t cur = true →
  real links (unlinked t) cur todo = Ret (cur ++ todo) ∧ (todo = [] ∨ is_dir t (removelast (cur ++ todo)) = true) ∨
  (∃ e, real links (unlinked t) cur todo = Throw e) ∧ is_dir t (removelast (cur ++ todo)) = false.
Proof.
  induction todo as [|s todo IH]; intros cur Ht Hp Hd; [left; rewrite real_nil, app_nil_r; auto|].
  apply Forall_cons in Hp as [(H1 & H2 & H3) Hp]. rewrite real_cons, decide_False by tauto. rewrite decide_False by done.
  assert (todo ≠ [] → is_dir t (cur ++ [s]) = false → is_dir t (removelast (cur ++ s :: todo)) = false) as Hno.
  { intros Hne Hf. destruct todo as [|x l _] using rev_ind; [done|].
    rewrite app_comm_cons, app_assoc, removelast_last. apply not_true_is_false. intros Hc.
    change (s :: l) with ([s] ++ l) in Hc. rewrite app_assoc in Hc. apply is_dir_prefix in Hc; [congruence|done]. }
  assert (is_dir t (removelast (cur ++ [s])) = true) as Hpar by (by rewrite removelast_last).
  rewrite entry_unlinked by (by destruct cur). rewrite node_unlinked. destruct (is_dir t (cur ++ [s])) eqn:Hds.
  - destruct (IH (cur ++ [s]) Ht Hp Hds) as [[-> [->|Hd']]|He]; rewrite <-?app_assoc in *; auto.
  - destruct (t !! (cur ++ [s])) as [[c|]|] eqn:E; cbn [fmap option_fmap option_map to_node].
    + case_decide as Hr; [subst todo; auto|right; eauto].
    + exfalso. unfold is_dir in Hds. destruct (cur ++ [s]) as [|x l] eqn:Hl; [by destruct cur|]. by rewrite E in Hds.
    + case_decide as Hr; [subst todo; auto|right; eauto].
Qed.

Lemma missing_parent t (p : Path) : tree_ok t → is_dir t (removelast p) = false → is_dir t p = false ∧ t !! p = None.
Proof.
  intros Ht Hd. destruct p as [|s p _] using rev_ind; [done|]. rewrite removelast_last in Hd. split.
  - apply not_true_is_false. intros Hc%is_dir_parent; [congruence|done].
  - apply eq_None_not_Some. intros Hs%Ht. congruence.
Qed.

Lemma plain_entry t (p : Path) e : t !! p = Some e → p ≠ [] → is_dir t p = match e with Dir => true | File _ => false end.
Proof. intros He Hp. destruct p; [done|]. unfold is_dir. rewrite He. by destruct e. Qed.

Lemma plain_missing t (p : Path) : t !! p = None → p ≠ [] → is_dir t p = false.
Proof. intros He Hp. destruct p; [done|]. unfold is_dir. by rewrite He. Qed.

Lemma mkdir_agrees rest : ∀ cur t, agrees (mkdir_from cur rest t) (linked_mkdir_from cur rest (unlinked t)).
Proof.
  induction rest as [|s rest IH]; intros cur t; simpl; [done|]. unfold unlinked at 1. rewrite lookup_fmap.
  destruct (t !! (cur ++ [s])) as [[c|]|]; simpl; [done|apply IH|].
  assert (<[cur ++ [s] := NDir]> (unlinked t) = unlinked (<[cur ++ [s] := Dir]> t)) as -> by (symmetry; apply (fmap_insert to_node)).
  apply IH.
Qed.

Theorem linked_agrees_plain t p c : tree_ok t → Forall plain_segment p →
  linked_exists p (unlinked t) = existsSync p t ∧
  agrees (readFileSync p t) (linked_read p (unlinked t)) ∧
  agrees (writeFileSync p c t) (linked_write p c (unlinked t)) ∧
  agrees (unlinkSync p t) (linked_unlink p (unlinked t)) ∧
  agrees (mkdirSync p t) (linked_mkdir p (unlinked t)).
Proof.
  intros Ht Hp. pose proof (real_unlinked MAXSYMLINKS t p [] Ht Hp eq_refl) as Hr. cbn [app] in Hr.
  split_and!; [| | | |apply mkdir_agrees].
  - unfold linked_exists, existsSync, realpath. destruct Hr as [[-> _]|[[e ->] Hm]].
    + rewrite node_unlinked. unfold is_dir. destruct p as [|x p]; [done|]. by destruct (t !! (x :: p)) as [[]|].
    + apply missing_parent in Hm as [Hd ->]; [|done]. by destruct p.
  - unfold readFileSync, linked_read, realpath, agrees. destruct Hr as [[-> _]|[[e ->] Hm]].
    + rewrite node_unlinked. destruct (is_dir t p) eqn:Hd; [done|]. destruct (t !! p) as [[]|]; done.
    + apply missing_parent in Hm as [Hm1 Hm2]; [|done]. by rewrite Hm1, Hm2.
  - unfold writeFileSync, linked_write, realpath, agrees. destruct Hr as [[-> Hpar]|[[e ->] Hm]].
    + rewrite node_unlinked. destruct (is_dir t p) eqn:Hd; [done|]. destruct Hpar as [->| ->]; [done|].
      assert (<[p := NFile c]> (unlinked t) = unlinked (<[p := File c]> t)) as Hi by (symmetry; apply (fmap_insert to_node)).
      cbn [fst snd]. rewrite <-Hi. destruct (t !! p) as [[]|] eqn:E; try done.
      rewrite (plain_entry t p Dir) in Hd; [done|done|]. by intros ->.
    + rewrite (proj1 (missing_parent t p Ht Hm)), Hm. done.
  - unfold unlinkSync, linked_unlink, agrees. destruct p as [|s p _] using rev_ind; [done|].
    rewrite last_snoc, removelast_last. apply Forall_app in Hp as [Hp _]. unfold realpath.
    assert (unlinked t !! (p ++ [s]) = to_node <$> t !! (p ++ [s])) as Hl by apply lookup_fmap.
    destruct (real_unlinked MAXSYMLINKS t p [] Ht Hp eq_refl) as [[-> _]|[[e ->] Hm]]; cbn [app] in *.
    + rewrite Hl. destruct (t !! (p ++ [s])) as [[c'|]|] eqn:E; simpl.
      * rewrite (plain_entry t _ _ E) by (by destruct p). split; [|done].
        symmetry. apply (fmap_delete to_node).
      * by rewrite (plain_entry t _ _ E) by (by destruct p).
      * rewrite plain_missing; [done|done|by destruct p].
    + assert (is_dir t p = false) as Hd by (by apply missing_parent). assert (is_dir t (removelast (p ++ [s])) = false) as Hd'
        by (by rewrite removelast_last). destruct (missing_parent t (p ++ [s]) Ht Hd') as [Hm1 Hm2]. by rewrite Hm1, Hm2.
Qed.

(** ** Properties *)

(** C19 The tools that write files stay inside the repository if its links do:
    when the root is a real directory and every symbolic link below it is
    absolute and begins with the root, or relative and climbs at most to the root
    before it descends, then whatever paths a write, an edit or a patch names,
    nothing outside the directory of the repository is created, changed or
    removed, through links or otherwise; and root and links stay like that. *)
Theorem write_tools_confined (root : Path) (fs : LinkedFiles) : real_root root fs → links_inside root fs →
  ∀ wi ei patch fs', fs' = snd (executeWriteTool root wi fs) ∨ fs' = snd (executeEditTool root ei fs) ∨
                     fs' = snd (executeApplyPatchTool root patch fs) →
  real_root root fs' ∧ links_inside root fs' ∧ ∀ p, ¬ below root p → fs' !! p = fs !! p.
Proof.
  intros Hroot Hlinks wi ei patch fs' Hfs'.
  assert (∀ {A : Type} (m : M LinkedFiles A), confined root m → fs' = snd (m fs) →
    real_root root fs' ∧ links_inside root fs' ∧ ∀ p, ¬ below root p → fs' !! p = fs !! p) as Hgo.
  { intros A m Hm ->. destruct (Hm fs (conj Hroot Hlinks)) as [[? ?] ?]. done. }
  destruct Hfs' as [Hw|[He|Hp]];
    [eapply Hgo, Hw; apply write_confined|eapply Hgo, He; apply edit_confined|eapply Hgo, Hp; apply patch_confined].
Qed.

(** A link that does not stay inside leads a write out of the repository. *)
Definition escaping_files : LinkedFiles :=
  <[["etc"] := NDir]> (<[["home"] := NDir]> (<[["home"; "repo"] := NDir]> (<[["home"; "repo"; "out"] := NLink "/etc"]> ∅))).

Lemma link_escapes :
  let (o, fs) := executeWriteTool ["home"; "repo"] (mkWriteInput "out/passwd" "x" None) escaping_files in
  match o with Ret r => r_status r = succeeded | Throw _ => False end ∧ fs !! ["etc"; "passwd"] = Some (NFile "x").
Proof. split; vm_compute; reflexivity. Qed.

(** ** A witness *)

(** A repository with a link from [packages/app/lib] to [packages/lib]. *)
Definition linked_repo : LinkedFiles :=
  <[["home"] := NDir]> (<[["home"; "repo"] := NDir]> (<[["home"; "repo"; "packages"] := NDir]>
  (<[["home"; "repo"; "packages"; "lib"] := NDir]> (<[["home"; "repo"; "packages"; "app"] := NDir]>
  (<[["home"; "repo"; "packages"; "app"; "lib"] := NLink "../lib"]> ∅))))).

Lemma write_tools_confined_witness :
  let input := mkWriteInput "packages/app/lib/src/a.ts" "x" (Some true) in
  let fs' := snd (executeWriteTool demo_root input linked_repo) in
  fs' !! ["home"; "repo"; "packages"; "lib"; "src"; "a.ts"] = Some (NFile "x") ∧
  real_root demo_root fs' ∧ links_inside demo_root fs' ∧ ∀ p, ¬ below demo_root p → fs' !! p = linked_repo !! p.
Proof.
  split; [vm_compute; reflexivity|].
  apply (write_tools_confined demo_root linked_repo) with (ei := mkEditInput "" "" "" None) (patch := "")
    (wi := mkWriteInput "packages/app/lib/src/a.ts" "x" (Some true)); [| |by left].
  - split; [by repeat constructor|]. intros p q Hpq.
    unfold demo_root in Hpq. destruct p as [|a [|b [|c p]]]; simplify_eq/=; reflexivity.
  - intros dir s target Hl. assert (dir = ["packages"; "app"] ∧ target = "../lib") as [-> ->].
    { unfold linked_repo in Hl. repeat (apply lookup_insert_Some in Hl as [[Heq Hv]|[_ Hl]];
        [first [discriminate Hv | idtac]|]); [|by rewrite lookup_empty in Hl].
      injection Hv as <-. unfold demo_root in Heq. injection Heq as Heq.
      destruct dir as [|d1 [|d2 [|d3 dir]]]; simplify_eq/=; try done. by destruct dir. }
    exists 1, ["lib"]. split; [by repeat constructor|]. split; [simpl; lia|vm_compute; reflexivity].
Defined.
