(* ===== verification/SearchTools.v ===== *)
(** * The search tools

    [packages/opencode-app/src/tools/search-tool.ts]: [glob] and [grep] over the
    files of the repository.

    The order in which a directory lists its entries, and the compilation of a
    pattern that the caller gives as a regular expression, are parameters. *)

From S2P Require Import Prelude Regex Files.
From Stdlib Require Import Ascii String.
From stdpp Require Import prelude list strings gmap.
Set Default Goal Selector "!".
Set Default Proof Using "Type".
Set Warnings "-clear-no-such-hyp".

(** ** Glob patterns *)

Inductive GlobToken : Type := GDeep | GAny | GStar | GOne | GChar (c : ascii).

(** The branches of the loop over the pattern. *)
Fixpoint glob_tokens (pattern : string) : list GlobToken :=
  match pattern with
  | EmptyString => []
  | String c t =>
    if Ascii.eqb c "*" then
      match t with
      | String d t1 =>
        if Ascii.eqb d "*" then
          match t1 with
          | String e t2 => if Ascii.eqb e "/" then GDeep :: glob_tokens t2 else GAny :: glob_tokens t1
          | EmptyString => GAny :: glob_tokens t1
          end
        else GStar :: glob_tokens t
      | EmptyString => GStar :: glob_tokens t
      end
    else if Ascii.eqb c "?" then GOne :: glob_tokens t
    else GChar c :: glob_tokens t
  end.

(** [.], and [[^/]]. *)
Definition not_line_end (c : ascii) : bool := negb (Ascii.eqb c LF) && negb (Ascii.eqb c CR).
Definition not_slash (c : ascii) : bool := negb (Ascii.eqb c "/").

Definition token_regex (t : GlobToken) : regex :=
  match t with
  | GDeep => ROpt (RSeq (RStar (RClass not_line_end)) (chr "/"))
  | GAny => RStar (RClass not_line_end)
  | GStar => RStar (RClass not_slash)
  | GOne => RClass not_slash
  | GChar c => chr c
  end.

Definition globMatcher (pattern value : string) : bool :=
  test (RSeq RBol (RSeq (seqs (token_regex <$> glob_tokens pattern)) REol)) value.

Example glob_demo :
  globMatcher "**/*.ts" "src/a/b.ts" = true ∧ globMatcher "**/*.ts" "b.ts" = true ∧
  globMatcher "*.ts" "src/b.ts" = false ∧ globMatcher "src/?.ts" "src/b.ts" = true ∧
  globMatcher "a+b" "a+b" = true ∧ globMatcher "a.b" "axb" = false.
Proof. vm_compute. done. Qed.

(** ** Walking the tree *)

Definition SKIPPED_DIRS : list string := [".git"; ".dh"; "node_modules"; "dist"; "build"; ".next"].

Class SearchEnv : Type := {
  dir_order : list string → list string;
  regexp : string → bool → option (string → bool);
}.

(** What [readdirSync] promises: every entry once. *)
Class SearchEnvLaws `{SearchEnv} : Prop := {
  dir_order_perm : ∀ names, dir_order names ≡ₚ names;
}.

(** The names of the entries of a directory. *)
Definition children (fs : FileSystem) (p : Path) : list string :=
  omap (λ kv, match last kv.1 with
              | Some x => if decide (kv.1 = p ++ [x]) then Some x else None
              | None => None
              end) (map_to_list fs).

Record GlobInput : Type := mkGlobInput { gl_pattern : string; gl_cwd : option string; gl_limit : option nat }.
Record GrepInput : Type := mkGrepInput {
  gr_pattern : string; gr_include : option string; gr_cwd : option string; gr_limit : option nat; gr_caseSensitive : option bool;
}.
Record GrepMatch : Type := mkMatch { gm_path : string; gm_line : nat; gm_text : string }.

(** [matches.push] until the limit; one more ends the search. *)
Fixpoint up_to_limit {A : Type} (limit : nat) (found : list A) : list A * bool :=
  match found with
  | [] => ([], false)
  | x :: xs => match limit with
               | O => ([], true)
               | S limit => let (ms, truncated) := up_to_limit limit xs in (x :: ms, truncated)
               end
  end.

Section search_tools.
Context `{SearchEnv}.

(** [walkFiles] below a directory: the files in the order they are yielded.  A
    path is never longer than the entries of the file system
    ([walkFiles_exact]). *)
Fixpoint walk (fuel : nat) (fs : FileSystem) (base : Path) : list Path :=
  match fuel with
  | O => []
  | S fuel =>
    dir_order (children fs base) ≫= λ name,
      if decide (name ∈ SKIPPED_DIRS) then []
      else match fs !! (base ++ [name]) with
           | Some Dir => walk fuel fs (base ++ [name])
           | Some (File _) => [base ++ [name]]
           | None => []
           end
  end.

(** [readdirSync] throws on a base that is not a directory. *)
Definition walkFiles (fs : FileSystem) (base : Path) : outcome (list Path) :=
  if is_dir fs base then Ret (walk (size fs) fs base)
  else Throw (if decide (is_Some (fs !! base)) then "ENOTDIR" else "ENOENT").

(** [input.cwd ? resolveRepoPath(repoRoot, input.cwd).absolutePath : repoRoot]. *)
Definition search_base (repoRoot : Path) (cwd : option string) : outcome Path :=
  match cwd with
  | Some c => if decide (c = "") then Ret repoRoot
              else match resolveRepoPath repoRoot c with Ret r => Ret (absolutePath r) | Throw e => Throw e end
  | None => Ret repoRoot
  end.

Definition selects (matcher : string → bool) (repoRoot base file : Path) : bool :=
  matcher (path_relative base file) || matcher (path_relative repoRoot file).

Definition executeGlobTool (repoRoot : Path) (input : GlobInput) (fs : FileSystem) : ToolResultEnvelope (list string) :=
  match search_base repoRoot (gl_cwd input) with
  | Throw e => failed_result "glob" e
  | Ret base =>
    match walkFiles fs base with
    | Throw e => failed_result "glob" e
    | Ret files =>
      let selected := filter (λ f, selects (globMatcher (gl_pattern input)) repoRoot base f = true) files in
      let (matches, truncated) := up_to_limit (gl_limit input or_else 100) (path_relative repoRoot <$> selected) in
      mkResult "glob" succeeded (Some matches) None (mkMetadata truncated None None None None None)
    end
  end.

(** [new RegExp(pattern, ...)], or the escaped pattern when it does not compile:
    a literal search. *)
Definition compilePattern (pattern : string) (caseSensitive : bool) : string → bool :=
  match regexp pattern caseSensitive with
  | Some r => r
  | None => λ text, if caseSensitive then includes text pattern
                    else includes (toLowerCase text) (toLowerCase pattern)
  end.

(** The matches of one file; a file with a NUL byte is skipped. *)
Definition grep_file (matcher : string → bool) (repoRoot file : Path) (fs : FileSystem) : list GrepMatch :=
  match fs !! file with
  | Some (File content) =>
    if has_char (ascii_of_nat 0) content then []
    else omap (λ il, if matcher il.2 : bool then Some (mkMatch (path_relative repoRoot file) (il.1 + 1) il.2) else None)
           (imap pair (split_crlf content))
  | _ => []
  end.

Definition executeGrepTool (repoRoot : Path) (input : GrepInput) (fs : FileSystem) : ToolResultEnvelope (list GrepMatch) :=
  match search_base repoRoot (gr_cwd input) with
  | Throw e => failed_result "grep" e
  | Ret base =>
    match walkFiles fs base with
    | Throw e => failed_result "grep" e
    | Ret files =>
      let include := globMatcher (gr_include input or_else "**/*") in
      let matcher := compilePattern (gr_pattern input) (gr_caseSensitive input or_else false) in
      let selected := filter (λ f, selects include repoRoot base f = true) files in
      let (matches, truncated) :=
        up_to_limit (gr_limit input or_else 100) (selected ≫= λ f, grep_file matcher repoRoot f fs) in
      mkResult "grep" succeeded (Some matches) None (mkMetadata truncated None None None None None)
    end
  end.
End search_tools.

(** ** What a glob pattern matches

    A definition by the parts of the text, without regular expressions. *)

Definition token_text (tok : GlobToken) (m : list ascii) : Prop :=
  match tok with
  | GChar c => m = [c]
  | GOne => ∃ c, m = [c] ∧ not_slash c = true
  | GStar => Forall (λ c, not_slash c = true) m
  | GAny => Forall (λ c, not_line_end c = true) m
  | GDeep => m = [] ∨ ∃ d, m = d ++ ["/"%char] ∧ Forall (λ c, not_line_end c = true) d
  end.

Inductive glob_matches : list GlobToken → list ascii → Prop :=
| glob_end : glob_matches [] []
| glob_cons tok ts m u : token_text tok m → glob_matches ts u → glob_matches (tok :: ts) (m ++ u).

Lemma sem_class_inv p b a g s1 : sem (RClass p) (mkPos b a g) s1 →
  ∃ c t, a = c :: t ∧ p c = true ∧ s1 = mkPos (c :: b) t g.
Proof. inversion 1; subst. eauto. Qed.

Lemma sem_bol_inv s s1 : sem RBol s s1 → s1 = s ∧ before s = [].
Proof. by inversion 1. Qed.

Lemma sem_seq_inv r1 r2 s s2 : sem (RSeq r1 r2) s s2 → ∃ s1, sem r1 s s1 ∧ sem r2 s1 s2.
Proof. inversion 1; subst. eauto. Qed.

Lemma sem_star_class p b a g s1 : sem (RStar (RClass p)) (mkPos b a g) s1 ↔
  ∃ m t, a = m ++ t ∧ Forall (λ c, p c = true) m ∧ s1 = mkPos (rev m ++ b) t g.
Proof.
  split.
  - remember (RStar (RClass p)) as r eqn:Hr. remember (mkPos b a g) as s eqn:Hs. intros Hsem. revert b a g Hs.
    induction Hsem as [| | | | |r0 s0|r0 s0 sa sb H1 _ Hlt H2 IH| | | | |]; intros b0 a0 g0 Heq; simplify_eq.
    + by exists [], a0.
    + apply sem_class_inv in H1 as (c & t & -> & Hc & ->).
      destruct (IH eq_refl _ _ _ eq_refl) as (m & t' & -> & Hm & ->). exists (c :: m), t'.
      split_and!; [done|by constructor|]. simpl. by rewrite <-app_assoc.
  - intros (m & t & -> & Hm & ->). revert b. induction Hm as [|c m Hc Hm IH]; intros b; [constructor|].
    simpl. rewrite <-app_assoc. eapply sem_star_cons; [by constructor|simpl; lia|]. apply IH.
Qed.

(** The places a token leads to. *)
Lemma sem_token tok b a g s1 : sem (token_regex tok) (mkPos b a g) s1 ↔
  ∃ m t, a = m ++ t ∧ s1 = mkPos (rev m ++ b) t g ∧ token_text tok m.
Proof.
  destruct tok as [| | | |c]; cbn [token_regex token_text].
  - split.
    + inversion 1 as [| | |? ? ? ? Hl|? ? ? ? Hr| | | | | | |]; subst.
      * apply sem_seq_inv in Hl as (s2 & (m & t & -> & Hm & ->)%sem_star_class & (c & t' & -> & Hc & ->)%sem_class_inv).
        apply Ascii.eqb_eq in Hc as <-. exists (m ++ ["/"%char]), t'.
        rewrite <-app_assoc, rev_app_distr. split_and!; [done..|]. right. by exists m.
      * inversion Hr; subst. exists [], a. split_and!; [done..|]. by left.
    + intros (m & t & -> & -> & [->|(d & -> & Hd)]); [by apply sem_alt_r; constructor|]. apply sem_alt_l.
      rewrite <-app_assoc, rev_app_distr. eapply sem_seq; [apply sem_star_class; eauto|]. by constructor.
  - rewrite sem_star_class. naive_solver.
  - rewrite sem_star_class. naive_solver.
  - split.
    + intros (c & t & -> & Hc & ->)%sem_class_inv. exists [c], t. eauto.
    + intros (m & t & -> & -> & (c & -> & Hc)). by constructor.
  - split.
    + intros (d & t & -> & ->%Ascii.eqb_eq & ->)%sem_class_inv. exists [d], t. eauto.
    + intros (m & t & -> & -> & ->). constructor. apply Ascii.eqb_refl.
Qed.

Lemma sem_tokens ts b a g s1 : sem (seqs (token_regex <$> ts)) (mkPos b a g) s1 ↔
  ∃ m t, a = m ++ t ∧ s1 = mkPos (rev m ++ b) t g ∧ glob_matches ts m.
Proof.
  revert b a s1. induction ts as [|tok ts IH]; intros b a s1.
  - split; [inversion 1; subst; exists [], a; eauto using glob_end|].
    intros (m & t & -> & -> & Hm). inversion Hm. constructor.
  - split.
    + intros (s2 & (m & t & -> & -> & Hm)%sem_token & (m' & t' & -> & -> & Hm')%IH)%sem_seq_inv.
      exists (m ++ m'), t'. rewrite <-app_assoc, rev_app_distr, <-app_assoc. split_and!; [done..|by constructor].
    + intros (m0 & t & -> & -> & Hm). inversion Hm as [|? ? m u Ht Hu]; subst.
      rewrite <-app_assoc, rev_app_distr, <-app_assoc. change (seqs (token_regex <$> tok :: ts)) with (RSeq (token_regex tok) (seqs (token_regex <$> ts))).
      eapply sem_seq; [apply sem_token; eauto|]. apply IH. eauto.
Qed.

Lemma rev_nil_inv {A : Type} (l : list A) : rev l = [] → l = [].
Proof. intros Hl. by rewrite <-(rev_involutive l), Hl. Qed.

(** The matcher that is compiled from a glob pattern accepts exactly the
    texts that are made of its parts: a star is any text without a slash, two
    stars any text of one line, and two stars with a slash any directory prefix
    or none. *)
Theorem globMatcher_exact pattern value :
  globMatcher pattern value = true ↔ glob_matches (glob_tokens pattern) (list_ascii_of_string value).
Proof.
  unfold globMatcher. rewrite test_correct. unfold occurs. split.
  - intros (p & q & s1 & Hpq & (s2 & Hbol & (s3 & Htok & Heol)%sem_seq_inv)%sem_seq_inv).
    apply sem_bol_inv in Hbol as [-> Hp]. simpl in Hp. rewrite app_nil_r in Hp.
    apply rev_nil_inv in Hp as ->.
    apply sem_tokens in Htok as (m & t & -> & -> & Hm). inversion Heol; subst. rewrite Hpq. simpl. by rewrite app_nil_r.
  - intros Hm. exists [], (list_ascii_of_string value). eexists. split; [done|].
    eapply sem_seq; [constructor|]. eapply sem_seq.
    + apply sem_tokens. exists (list_ascii_of_string value), []. rewrite app_nil_r. eauto.
    + constructor.
Qed.

(** ** The walk finds every visible file once *)

(** A file below a base that no skipped name hides. *)
Definition visible (fs : FileSystem) (base rest : Path) : Prop :=
  rest ≠ [] ∧ Forall (λ s, s ∉ SKIPPED_DIRS) rest ∧ (∃ c, fs !! (base ++ rest) = Some (File c)) ∧
  ∀ a b, rest = a ++ b → a ≠ [] → b ≠ [] → fs !! (base ++ a) = Some Dir.

Lemma elem_of_children fs p x : x ∈ children fs p ↔ is_Some (fs !! (p ++ [x])).
Proof.
  unfold children. rewrite list_elem_of_omap. split.
  - intros ([q e] & Hq & Hx). apply elem_of_map_to_list in Hq. simpl in Hx. destruct (last q) as [y|]; [|done].
    case_decide as Heq; [|done]. simplify_eq. by rewrite Hq.
  - intros [e He]. exists (p ++ [x], e). split; [by apply elem_of_map_to_list|]. simpl.
    by rewrite last_snoc, decide_True.
Qed.

Lemma children_NoDup fs p : NoDup (children fs p).
Proof.
  unfold children. pose proof (NoDup_fst_map_to_list fs) as Hnd. induction (map_to_list fs) as [|[q e] l IH]; [constructor|].
  simpl in Hnd. apply NoDup_cons in Hnd as [Hq Hnd]. specialize (IH Hnd). simpl.
  destruct (last q) as [y|]; [|done]. case_decide as Heq; [|done]. constructor; [|done].
  intros ([q' e'] & Hin & Hy)%list_elem_of_omap. simpl in Hy. destruct (last q') as [z|]; [|done].
  case_decide as Heq'; [|done]. simplify_eq. apply Hq. apply list_elem_of_fmap. by exists (p ++ [y], e').
Qed.

Lemma visible_cons fs base name rest : visible fs base (name :: rest) ↔
  (name ∉ SKIPPED_DIRS) ∧
  match fs !! (base ++ [name]) with
  | Some Dir => visible fs (base ++ [name]) rest
  | Some (File _) => rest = []
  | None => False
  end.
Proof.
  unfold visible. split.
  - intros (_ & [Hn Hall]%Forall_cons & (c & Hc) & Hdirs). split; [done|]. destruct rest as [|r rest].
    + by rewrite Hc.
    + rewrite (Hdirs [name] (r :: rest)) by done. split_and!; [done..| |].
      * exists c. by rewrite <-app_assoc.
      * intros a b Heq Ha Hb. rewrite <-app_assoc. apply (Hdirs (name :: a) b); [simpl; by rewrite Heq|done..].
  - intros [Hn Hcase]. destruct (fs !! (base ++ [name])) as [[c|]|] eqn:E; [|..|done].
    + subst rest. split_and!; [done|by repeat constructor|by exists c|]. intros [|x [|y a]] b Heq Ha Hb; by simplify_eq/=.
    + destruct Hcase as (Hne & Hall & (c & Hc) & Hdirs). rewrite <-app_assoc in Hc.
      split_and!; [done|by constructor|by exists c|]. intros [|x a] b Heq Ha Hb; simplify_eq/=.
      destruct a as [|y a]; [done|]. pose proof (Hdirs (y :: a) b eq_refl) as Hd. rewrite <-app_assoc in Hd. by apply Hd.
Qed.

Section walk.
Context `{SearchEnvLaws}.

Lemma walk_spec fuel fs : ∀ base,
  NoDup (walk fuel fs base) ∧
  ∀ f, f ∈ walk fuel fs base ↔ ∃ rest, f = base ++ rest ∧ length rest ≤ fuel ∧ visible fs base rest.
Proof using Type*.
  induction fuel as [|fuel IH]; intros base; cbn [walk].
  { split; [constructor|]. intros f. split; [by intros ?%elem_of_nil|]. intros ([|] & -> & Hl & (Hne & _)); [done|simpl in Hl; lia]. }
  assert (∀ name f, (f ∈ (if decide (name ∈ SKIPPED_DIRS) then []
      else match fs !! (base ++ [name]) with
           | Some Dir => walk fuel fs (base ++ [name]) | Some (File _) => [base ++ [name]] | None => [] end)) ↔
    ∃ rest, f = base ++ name :: rest ∧ length rest ≤ fuel ∧ visible fs base (name :: rest)) as Hname.
  { intros name f. setoid_rewrite visible_cons. case_decide as Hs; [split; [by intros ?%elem_of_nil|naive_solver]|].
    destruct (fs !! (base ++ [name])) as [[c|]|].
    - rewrite list_elem_of_singleton. split; [intros ->; exists []; simpl; split_and!; [done|lia|done..]|].
      by intros (rest & -> & _ & _ & ->).
    - rewrite (proj2 (IH (base ++ [name])) f). split.
      + intros (rest & -> & Hl & Hv). exists rest. by rewrite <-app_assoc.
      + intros (rest & -> & Hl & _ & Hv). exists rest. by rewrite <-app_assoc.
    - split; [by intros ?%elem_of_nil|naive_solver]. }
  split.
  - apply NoDup_bind.
    + intros n1 n2 f _ _ (r1 & -> & _)%Hname (r2 & Heq & _)%Hname. apply app_inv_head in Heq. by injection Heq.
    + intros name _. case_decide; [constructor|]. destruct (fs !! (base ++ [name])) as [[]|]; [|apply IH|constructor].
      apply NoDup_singleton.
    + rewrite dir_order_perm. apply children_NoDup.
  - intros f. rewrite list_elem_of_bind. setoid_rewrite Hname. setoid_rewrite dir_order_perm. setoid_rewrite elem_of_children.
    split.
    + intros (name & (rest & -> & Hl & Hv) & _). exists (name :: rest). simpl. split_and!; [done|lia|done].
    + intros ([|name rest] & -> & Hl & Hv); [by destruct Hv|]. exists name. split; [exists rest; simpl in Hl; split_and!; [done|lia|done]|].
      apply visible_cons in Hv as [_ Hv]. by destruct (fs !! (base ++ [name])).
Qed.

(** A visible path has no more segments than the file system has entries. *)
Lemma visible_depth fs base rest : visible fs base rest → length rest ≤ size fs.
Proof.
  clear. intros (Hne & _ & (c & Hc) & Hdirs).
  assert (length ((λ i, base ++ take i rest) <$> seq 1 (length rest)) ≤ length (map_to_list fs).*1) as Hlen.
  { apply submseteq_length, NoDup_submseteq.
    - apply NoDup_fmap_2_strong; [|apply NoDup_seq]. intros i j Hi%elem_of_seq Hj%elem_of_seq Heq%app_inv_head.
      apply (f_equal length) in Heq. rewrite !length_take in Heq. lia.
    - intros p (i & -> & Hi%elem_of_seq)%list_elem_of_fmap. apply list_elem_of_fmap.
      destruct (decide (i = length rest)) as [->|Hlt].
      + exists (base ++ rest, File c). rewrite firstn_all. split; [done|]. by apply elem_of_map_to_list.
      + exists (base ++ take i rest, Dir). split; [done|]. apply elem_of_map_to_list. apply (Hdirs _ (drop i rest)).
        * by rewrite take_drop.
        * intros E. apply (f_equal length) in E. rewrite length_take in E. simpl in E. lia.
        * intros E. apply (f_equal length) in E. rewrite length_drop in E. simpl in E. lia. }
  rewrite length_fmap, length_seq, length_fmap, length_map_to_list in Hlen. done.
Qed.

(** Walking a directory yields every file below it exactly once, unless a
    segment of its path is a skipped name, and nothing else; the recursion
    always ends. *)
Theorem walkFiles_exact fs base : is_dir fs base = true →
  ∃ files, walkFiles fs base = Ret files ∧ NoDup files ∧
    ∀ f, f ∈ files ↔ ∃ rest, f = base ++ rest ∧ visible fs base rest.
Proof using Type*.
  intros Hd. unfold walkFiles. rewrite Hd. destruct (walk_spec (size fs) fs base) as [Hnd Hall].
  eexists. split; [reflexivity|]. split; [done|]. intros f. rewrite Hall. split; [naive_solver|].
  intros (rest & -> & Hv). exists rest. split_and!; [done|by eapply visible_depth|done].
Qed.
End walk.

Lemma up_to_limit_spec {A : Type} limit (found : list A) :
  up_to_limit limit found = (take limit found, (limit <? length found)%nat).
Proof.
  revert limit. induction found as [|x xs IH]; intros [|limit]; simpl; [done..|]. by rewrite IH.
Qed.

#[local] Instance listing_order : SearchEnv := {| dir_order names := names; regexp _ _ := None |}.
#[local] Instance listing_order_laws : SearchEnvLaws.
Proof. by split. Qed.

Definition demo_tree : FileSystem :=
  <[["home"; "repo"; "src"; "b.ts"] := File "let b = 1"]> (<[["home"; "repo"; "dist"; "c.ts"] := File "x"]>
    (<[["home"; "repo"; "dist"] := Dir]> (<[["home"; "repo"; "src"] := Dir]> demo_fs))).

Lemma walkFiles_exact_witness :
  walkFiles demo_tree demo_root = Ret [["home"; "repo"; "a.txt"]; ["home"; "repo"; "src"; "b.ts"]] ∧
  ∃ files, walkFiles demo_tree demo_root = Ret files ∧ NoDup files ∧
    ∀ f, f ∈ files ↔ ∃ rest, f = demo_root ++ rest ∧ visible demo_tree demo_root rest.
Proof.
  split; [vm_compute; reflexivity|]. apply (walkFiles_exact demo_tree demo_root). vm_compute. reflexivity.
Defined.

Example search_demo :
  r_output (executeGlobTool demo_root (mkGlobInput "**/*.ts" None None) demo_tree) = Some ["src/b.ts"] ∧
  r_output (executeGrepTool demo_root (mkGrepInput "LET" None (Some "src") None None) demo_tree) =
    Some [mkMatch "src/b.ts" 1 "let b = 1"].
Proof. vm_compute. done. Qed.
