(* ===== verification/ToolRunner.v ===== *)
(** * The tool runner

    [packages/opencode-app/src/tools]: [tool-registry.ts], [schemas.ts],
    [todo-tool.ts], [task-tool.ts], [shell-tool.ts] and [tool-runner.ts].

    Outside the repository, and so parameters: the schema library that checks
    the raw input of a tool, the child process of a shell command (the events
    it sends and its effect on the files), the decoding of its output
    ([Buffer.toString(utf8)], which puts U+FFFD where the bytes are not UTF-8),
    and the executor that a caller may inject for sub-tasks.  A rejected promise of [run] is a throw.  Durations
    are left out of the metadata. *)

From S2P Require Import Prelude Json Domain Store Repos Bridge Hooks Files Patch SearchTools.
From Stdlib Require Import Ascii String.
From stdpp Require Import prelude list strings gmap pretty.
Set Default Goal Selector "!".
Set Default Proof Using "Type".
Set Warnings "-clear-no-such-hyp,-abstract-large-number".

(** ** The registry *)

Inductive ToolName : Type :=
| t_read | t_write | t_edit | t_shell | t_glob | t_grep | t_apply_patch | t_todo | t_task
| t_semantic_search | t_graph_find_symbol | t_graph_find_references | t_graph_call_hierarchy.

#[global] Instance ToolName_eq_dec : EqDecision ToolName.
Proof. solve_decision. Defined.

Definition tool_name (t : ToolName) : string :=
  match t with
  | t_read => "read" | t_write => "write" | t_edit => "edit" | t_shell => "shell" | t_glob => "glob"
  | t_grep => "grep" | t_apply_patch => "apply_patch" | t_todo => "todo" | t_task => "task"
  | t_semantic_search => "semantic_search" | t_graph_find_symbol => "graph_find_symbol"
  | t_graph_find_references => "graph_find_references" | t_graph_call_hierarchy => "graph_call_hierarchy"
  end.

Definition TOOL_NAMES : list ToolName :=
  [t_read; t_write; t_edit; t_shell; t_glob; t_grep; t_apply_patch; t_todo; t_task;
   t_semantic_search; t_graph_find_symbol; t_graph_find_references; t_graph_call_hierarchy].

Inductive ToolCategory : Type := cat_read | cat_write | cat_shell | cat_task | cat_graph.

#[global] Instance ToolCategory_eq_dec : EqDecision ToolCategory.
Proof. solve_decision. Defined.

(** [ToolPermissionLevel] is [ShellPermissionLevel]. *)
Record ToolDefinition : Type := mkTool {
  td_name : ToolName;
  td_category : ToolCategory;
  td_defaultPermissionLevel : ShellPermissionLevel;
  td_streams : bool;
  td_executable : bool;
}.

Definition TOOL_DEFINITIONS : list ToolDefinition :=
  [mkTool t_read cat_read auto_approve_with_policy false true;
   mkTool t_write cat_write ask false true;
   mkTool t_edit cat_write ask false true;
   mkTool t_shell cat_shell ask true true;
   mkTool t_glob cat_read auto_approve_with_policy false true;
   mkTool t_grep cat_read auto_approve_with_policy false true;
   mkTool t_apply_patch cat_write ask false true;
   mkTool t_todo cat_task auto_approve_with_policy false true;
   mkTool t_task cat_task ask true true;
   mkTool t_semantic_search cat_read auto_approve_with_policy false false;
   mkTool t_graph_find_symbol cat_graph auto_approve_with_policy false false;
   mkTool t_graph_find_references cat_graph auto_approve_with_policy false false;
   mkTool t_graph_call_hierarchy cat_graph auto_approve_with_policy false false].

Definition getToolDefinition (toolName : string) : option ToolDefinition :=
  find (λ d, String.eqb (tool_name (td_name d)) toolName) TOOL_DEFINITIONS.

(** ** Inputs *)

Inductive TodoStatus : Type := todo_pending | todo_in_progress | todo_completed.
Record TodoItemInput : Type := mkTodoInput { ti_id : option string; ti_content : string; ti_status : option TodoStatus }.
Record TodoItem : Type := mkTodo { to_id : string; to_content : string; to_status : TodoStatus }.
Record ShellInput : Type := mkShellInput {
  sh_command : string; sh_cwd : option string; sh_timeoutMs : option nat; sh_maxOutputBytes : option nat;
}.
Record TaskInput : Type := mkTaskInput { tk_prompt : string; tk_agentId : option string; tk_maxResultBytes : option nat }.

(** [ToolInputMap]. *)
Inductive ToolInput : Type :=
| in_read (i : ReadInput)
| in_write (i : WriteInput)
| in_edit (i : EditInput)
| in_shell (i : ShellInput)
| in_glob (i : GlobInput)
| in_grep (i : GrepInput)
| in_apply_patch (patch : string)
| in_todo (items : list TodoItemInput)
| in_task (i : TaskInput)
| in_semantic_search (query : string)
| in_graph_find_symbol (symbol : string)
| in_graph_find_references (symbol : string)
| in_graph_call_hierarchy (symbol : string).

Definition input_tool (i : ToolInput) : ToolName :=
  match i with
  | in_read _ => t_read | in_write _ => t_write | in_edit _ => t_edit | in_shell _ => t_shell | in_glob _ => t_glob
  | in_grep _ => t_grep | in_apply_patch _ => t_apply_patch | in_todo _ => t_todo | in_task _ => t_task
  | in_semantic_search _ => t_semantic_search | in_graph_find_symbol _ => t_graph_find_symbol
  | in_graph_find_references _ => t_graph_find_references | in_graph_call_hierarchy _ => t_graph_call_hierarchy
  end.

Inductive ChildEvent : Type :=
| child_data (is_stdout : bool) (chunk : list ascii)
| child_timeout
| child_error (message : string)
| child_close (code : option Z).

(** The schema library and the operating system. *)
Class ToolEnv : Type := {
  safeParse : ToolName → json → list string + ToolInput;
  child_events : string → Path → nat → list ChildEvent;
  child_effect : string → Path → FileSystem → FileSystem;
  buffer_toString : list ascii → string;
}.

Definition child_ends (e : ChildEvent) : Prop :=
  match e with child_error _ | child_close _ => True | _ => False end.

Definition ascii_bytes (buffer : list ascii) : Prop := Forall (λ c, (nat_of_ascii c < 128)%nat) buffer.

(** A schema yields an input of its own tool, a child process ends, and the
    UTF-8 code of an ASCII character is one byte. *)
Class ToolEnvLaws `{ToolEnv} : Prop := {
  safeParse_tool : ∀ t raw i, safeParse t raw = inr i → input_tool i = t;
  child_settles : ∀ command cwd timeout, Exists child_ends (child_events command cwd timeout);
  buffer_toString_ascii : ∀ buffer, ascii_bytes buffer → buffer_toString buffer = string_of_list_ascii buffer;
}.

Definition parseToolInput `{ToolEnv} (t : ToolName) (raw : json) : string + ToolInput :=
  match safeParse t raw with
  | inl issues => inl (tool_name t +:+ " input is invalid: " +:+ Prelude.join "; " issues)
  | inr i => inr i
  end.

(** ** Outputs and events *)

Record ShellToolOutput : Type := mkShellOutput { so_command : string; so_stdout : string; so_stderr : string; so_exitCode : option Z }.

Inductive ToolOutput : Type :=
| out_read (o : ReadToolOutput)
| out_write (o : WriteToolOutput)
| out_edit (o : EditToolOutput)
| out_patch (o : ToolDiffSummary)
| out_glob (matches : list string)
| out_grep (matches : list GrepMatch)
| out_shell (o : ShellToolOutput)
| out_todo (items : list TodoItem)
| out_task (result : string).

Definition map_result {A B : Type} (f : A → B) (r : ToolResultEnvelope A) : ToolResultEnvelope B :=
  mkResult (r_toolName r) (r_status r) (f <$> r_output r) (r_error r) (r_metadata r).

Inductive ToolEvent : Type :=
| ev_permission_requested (tool : ToolName) (level : ShellPermissionLevel) (reason : string)
| ev_tool_started (tool : ToolName)
| ev_tool_delta (tool : ToolName) (stream : option bool) (text : string)
| ev_tool_finished (tool : ToolName) (status : ToolResultStatus) (metadata : ToolResultMetadata).

Record RunnerWorld : Type := mkRunner { rw_world : World; rw_fs : FileSystem; rw_events : list ToolEvent }.

Definition on_world {A : Type} (m : M World A) : M RunnerWorld A := λ w,
  let (o, w') := m (rw_world w) in (o, mkRunner w' (rw_fs w) (rw_events w)).
Definition on_files {A : Type} (m : M FileSystem A) : M RunnerWorld A := λ w,
  let (o, fs) := m (rw_fs w) in (o, mkRunner (rw_world w) fs (rw_events w)).
Definition onEvent (e : ToolEvent) : M RunnerWorld () :=
  modify (λ w, mkRunner (rw_world w) (rw_fs w) (rw_events w ++ [e])).

(** [return f(await m)]. *)
Definition then_map {W A B : Type} (f : A → B) (m : M W A) : M W B := m ≫= λ a, mret (f a).
Infix "<$$>" := then_map (at level 61, left associativity).

(** ** Todos *)

Definition executeTodoTool (items : list TodoItemInput) : ToolResultEnvelope (list TodoItem) :=
  mkResult "todo" succeeded
    (Some (imap (λ index item, mkTodo (ti_id item or_else ("todo-" +:+ pretty (index + 1))) (ti_content item)
                                  (ti_status item or_else todo_pending)) items))
    None plain_metadata.

(** ** The shell *)

Record ShellState : Type := mkShell {
  ss_stdout : string;
  ss_stderr : string;
  ss_bytesReturned : nat;
  ss_bytesSeen : nat;
  ss_timedOut : bool;
  ss_result : option (ToolResultEnvelope ShellToolOutput);
}.

Definition shell_start : ShellState := mkShell "" "" 0 0 false None.

Section shell.
(** [returned.toString(utf8)]. *)
Variable toString : list ascii → string.

(** [append(stream, chunk)] and the delta it sends.  The limit cuts bytes, and each
    piece is decoded by itself. *)
Definition shell_append (maxOutputBytes : nat) (is_stdout : bool) (chunk : list ascii) (s : ShellState) :
    ShellState * list ToolEvent :=
  let remaining := maxOutputBytes - ss_bytesReturned s in
  let returned := take remaining chunk in
  let text := toString returned in
  (mkShell (if is_stdout then ss_stdout s +:+ text else ss_stdout s)
           (if is_stdout then ss_stderr s else ss_stderr s +:+ text)
           (ss_bytesReturned s + length returned) (ss_bytesSeen s + length chunk)
           (ss_timedOut s) (ss_result s),
   if (0 <? String.length text)%nat then [ev_tool_delta t_shell (Some is_stdout) text] else []).

Definition shell_metadata (s : ShellState) (code : option Z) : ToolResultMetadata :=
  mkMetadata (ss_bytesReturned s <? ss_bytesSeen s)%nat None (Some (ss_bytesReturned s))
    (Some (ss_bytesSeen s - ss_bytesReturned s)) (Some code) None.

Definition shell_settle (r : ToolResultEnvelope ShellToolOutput) (s : ShellState) : ShellState :=
  match ss_result s with
  | Some _ => s
  | None => mkShell (ss_stdout s) (ss_stderr s) (ss_bytesReturned s) (ss_bytesSeen s) (ss_timedOut s) (Some r)
  end.

Definition show_code (code : option Z) : string := match code with Some z => pretty z | None => "null" end.

Definition shell_closed (command : string) (timeoutMs : nat) (code : option Z) (s : ShellState) :
    ToolResultEnvelope ShellToolOutput :=
  mkResult "shell" (if ss_timedOut s || negb (bool_decide (code = Some 0%Z)) then failed else succeeded)
    (Some (mkShellOutput command (ss_stdout s) (ss_stderr s) code))
    (if ss_timedOut s then Some ("Shell command timed out after " +:+ pretty timeoutMs +:+ "ms.")
     else if bool_decide (code = Some 0%Z) then None
     else Some ("Shell command exited with code " +:+ show_code code +:+ "."))
    (shell_metadata s code).

Definition shell_step (command : string) (timeoutMs maxOutputBytes : nat) (s : ShellState) (e : ChildEvent) :
    ShellState * list ToolEvent :=
  match e with
  | child_data is_stdout chunk => shell_append maxOutputBytes is_stdout chunk s
  | child_timeout => (mkShell (ss_stdout s) (ss_stderr s) (ss_bytesReturned s) (ss_bytesSeen s) true (ss_result s), [])
  | child_error message =>
    (shell_settle (mkResult "shell" failed None (Some message) (shell_metadata s None)) s, [])
  | child_close code => (shell_settle (shell_closed command timeoutMs code s) s, [])
  end.

Fixpoint shell_run (command : string) (timeoutMs maxOutputBytes : nat) (s : ShellState) (es : list ChildEvent) :
    ShellState * list ToolEvent :=
  match es with
  | [] => (s, [])
  | e :: es =>
    let (s, sent) := shell_step command timeoutMs maxOutputBytes s e in
    let (s, sent') := shell_run command timeoutMs maxOutputBytes s es in
    (s, sent ++ sent')
  end.
End shell.

(** ** The runner *)

Record ToolRunnerOptions : Type := mkOptions {
  o_repoRoot : Path;
  o_envelope : ExecutionEnvelopeState;
  o_intent : string;
  o_permissionOverrides : ToolName → option ShellPermissionLevel;
  o_taskExecutor : option (string → option string → M RunnerWorld string);
}.

Record ToolPermission : Type := mkToolPermission { tp_allowed : bool; tp_requiresPermission : bool; tp_reason : string }.

Definition evaluateToolPermission (definition : ToolDefinition) (permissionLevel : ShellPermissionLevel) : ToolPermission :=
  let name := tool_name (td_name definition) in
  match permissionLevel with
  | deny => mkToolPermission false false ("Tool '" +:+ name +:+ "' is denied by permission policy.")
  | ask => mkToolPermission false true ("Tool '" +:+ name +:+ "' requires permission before execution.")
  | allow => mkToolPermission true false "Tool explicitly allowed."
  | auto_approve_with_policy => mkToolPermission true false "Tool auto-approved by policy."
  end.

Definition isWriteOwner (envelope : ExecutionEnvelopeState) : bool :=
  bool_decide (env_role envelope = role_implementer) || String.eqb (env_agentId envelope) "implementer"
  || String.eqb (env_agentId envelope) "fullstack_agent".

Definition WRITE_OWNER_ERROR : string :=
  "Only the Fullstack Agent can execute write tools; reviewer, tester, and read-only roles must report findings through artifacts.".

Section runner.
Context `{Env} `{SearchEnv} `{ToolEnv} (options : ToolRunnerOptions).

Definition executeShellTool (i : ShellInput) (permissionLevel : ShellPermissionLevel) :
    M RunnerWorld (ToolResultEnvelope ShellToolOutput) :=
  let permission := evaluateShellPermission (sh_command i) permissionLevel in
  if negb (g_allowed (sp_decision permission)) then
    mret (mkResult "shell" (if sp_requiresPermission permission then permission_required else failed) None
            (Some (g_reason (sp_decision permission))) plain_metadata)
  else
    cwd ← match sh_cwd i with
          | Some c => if decide (c = "") then mret (o_repoRoot options)
                      else r ← lift_outcome (resolveRepoPath (o_repoRoot options) c); mret (absolutePath r)
          | None => mret (o_repoRoot options)
          end;
    let timeoutMs := sh_timeoutMs i or_else 30000 in
    modify (λ w, mkRunner (rw_world w) (child_effect (sh_command i) cwd (rw_fs w)) (rw_events w));;
    let (s, sent) := shell_run buffer_toString (sh_command i) timeoutMs (sh_maxOutputBytes i or_else 64000) shell_start
                       (child_events (sh_command i) cwd timeoutMs) in
    for_each onEvent sent;;
    match ss_result s with
    | Some r => mret r
    | None => throw "pending"
    end.

Definition executeTaskTool (i : TaskInput) : M RunnerWorld (ToolResultEnvelope string) :=
  match o_taskExecutor options with
  | None => mret (mkResult "task" unsupported None (Some "Task tool requires an injected task executor.") plain_metadata)
  | Some executor =>
    raw ← executor (tk_prompt i) (tk_agentId i);
    let maxBytes := tk_maxResultBytes i or_else 16000 in
    let result := if (maxBytes <? String.length raw)%nat then String.substring 0 maxBytes raw else raw in
    onEvent (ev_tool_delta t_task None result);;
    mret (mkResult "task" succeeded (Some result) None
      (mkMetadata (String.length result <? String.length raw)%nat (Some (String.length raw)) (Some (String.length result))
        (Some (String.length raw - String.length result)) None None))
  end.

Definition not_executable (t : ToolName) : ToolResultEnvelope ToolOutput :=
  mkResult (tool_name t) unsupported None
    (Some ("Tool '" +:+ tool_name t +:+ "' is catalogued but not executable in this milestone.")) plain_metadata.

Definition dispatch (input : ToolInput) (permissionLevel : ShellPermissionLevel) : M RunnerWorld (ToolResultEnvelope ToolOutput) :=
  let root := o_repoRoot options in
  match input with
  | in_read i => map_result out_read <$$> on_files (executeReadTool root i)
  | in_write i => map_result out_write <$$> on_files (executeWriteTool root i)
  | in_edit i => map_result out_edit <$$> on_files (executeEditTool root i)
  | in_glob i => map_result out_glob <$$> gets (λ w, executeGlobTool root i (rw_fs w))
  | in_grep i => map_result out_grep <$$> gets (λ w, executeGrepTool root i (rw_fs w))
  | in_shell i => map_result out_shell <$$> executeShellTool i permissionLevel
  | in_todo items => mret (map_result out_todo (executeTodoTool items))
  | in_task i => map_result out_task <$$> executeTaskTool i
  | in_apply_patch patch => map_result out_patch <$$> on_files (executeApplyPatchTool root patch)
  | in_semantic_search _ => mret (not_executable t_semantic_search)
  | in_graph_find_symbol _ => mret (not_executable t_graph_find_symbol)
  | in_graph_find_references _ => mret (not_executable t_graph_find_references)
  | in_graph_call_hierarchy _ => mret (not_executable t_graph_call_hierarchy)
  end.

Definition recordAudit (toolName : string) (status : ToolUsageStatus) : M RunnerWorld () := on_world (
  id ← createId "tool-audit";
  timestamp ← nowIso;
  ToolUsageAuditRepo.save (mkToolUsage id (env_sessionId (o_envelope options)) (env_id (o_envelope options))
    (env_role (o_envelope options)) (o_intent options) toolName status timestamp)).

Definition refuse (t : ToolName) (result : ToolResultEnvelope ToolOutput) : M RunnerWorld (ToolResultEnvelope ToolOutput) :=
  recordAudit (tool_name t) tu_failed;; mret result.

Definition run (toolName : string) (rawInput : json) : M RunnerWorld (ToolResultEnvelope ToolOutput) :=
  match getToolDefinition toolName with
  | None =>
    recordAudit toolName tu_failed;;
    mret (failed_result toolName ("Unknown tool '" +:+ toolName +:+ "'."))
  | Some definition =>
    let t := td_name definition in
    recordAudit (tool_name t) tu_called;;
    match parseToolInput t rawInput with
    | inl error => refuse t (failed_result (tool_name t) error)
    | inr input =>
      let permissionLevel := o_permissionOverrides options t or_else td_defaultPermissionLevel definition in
      let permission := evaluateToolPermission definition permissionLevel in
      if negb (tp_allowed permission) then
        (if tp_requiresPermission permission
         then onEvent (ev_permission_requested t permissionLevel (tp_reason permission)) else mret ());;
        refuse t (mkResult (tool_name t) (if tp_requiresPermission permission then permission_required else failed) None
                    (Some (tp_reason permission)) plain_metadata)
      else if bool_decide (td_category definition = cat_write) && negb (isWriteOwner (o_envelope options)) then
        refuse t (failed_result (tool_name t) WRITE_OWNER_ERROR)
      else
        onEvent (ev_tool_started t);;
        result ← dispatch input permissionLevel;
        onEvent (ev_tool_finished t (r_status result) (r_metadata result));;
        recordAudit (tool_name t) (if bool_decide (r_status result = succeeded) then tu_succeeded else tu_failed);;
        mret result
    end
  end.
End runner.

(** ** Who may change files *)

Section authority.
Context `{Env} `{SearchEnv} `{ToolEnvLaws} (options : ToolRunnerOptions).

Lemma keeps_fs_world {A : Type} (m : M World A) : keeps rw_fs (on_world m).
Proof. intros w. unfold on_world. by destruct (m (rw_world w)). Qed.

Lemma keeps_fs_event e : keeps rw_fs (onEvent e).
Proof. done. Qed.

Lemma keeps_fs_audit name status : keeps rw_fs (recordAudit options name status).
Proof. apply keeps_fs_world. Qed.

Lemma keeps_then_map {W A B C : Type} (f : W → C) (g : A → B) (m : M W A) : keeps f m → keeps f (g <$$> m).
Proof. intros Hm. apply keeps_bind; [done|]. intros a. apply keeps_ret. Qed.

Lemma keeps_fs_files {A : Type} (m : M FileSystem A) : (∀ fs, snd (m fs) = fs) → keeps rw_fs (on_files m).
Proof. intros Hm w. unfold on_files. specialize (Hm (rw_fs w)). by destruct (m (rw_fs w)). Qed.

Lemma readFileSync_keeps p fs : snd (readFileSync p fs) = fs.
Proof. unfold readFileSync. destruct (is_dir fs p); [done|]. by destruct (fs !! p) as [[]|]. Qed.

Lemma executeReadTool_keeps root i fs : snd (executeReadTool root i fs) = fs.
Proof.
  unfold executeReadTool, tool_body. plain_fs. unfold try_catch, mbind, M_bind, lift_outcome.
  destruct (resolveRepoPath root (rd_path i)) as [r|]; [|done]. pose proof (readFileSync_keeps (absolutePath r) fs) as Hk.
  destruct (readFileSync (absolutePath r) fs) as [[c|e] fs']; simpl in *; done.
Qed.

Lemma keeps_refuse t r : keeps rw_fs (refuse options t r).
Proof. apply keeps_bind; [apply keeps_fs_audit|]. intros _. apply keeps_ret. Qed.

(** The tools that reach the files other than by reading. *)
Definition may_write (i : ToolInput) (level : ShellPermissionLevel) : Prop :=
  match i with
  | in_write _ | in_edit _ | in_apply_patch _ => True
  | in_shell s => g_allowed (sp_decision (evaluateShellPermission (sh_command s) level)) = true
  | in_task _ => is_Some (o_taskExecutor options)
  | _ => False
  end.

#[local] Instance may_write_dec i level : Decision (may_write i level).
Proof. destruct i; unfold may_write; apply _. Defined.

Lemma dispatch_keeps i level : ¬ may_write i level → keeps rw_fs (dispatch options i level).
Proof.
  intros Hno. destruct i as [ri|wi|ei|si|gi|gr|pa|items|ti|?|?|?|?]; simpl in Hno; try tauto;
    try (apply keeps_ret || (apply keeps_then_map, keeps_gets)).
  - apply keeps_then_map, keeps_fs_files. intros fs. apply executeReadTool_keeps.
  - apply keeps_then_map. unfold executeShellTool. apply not_true_is_false in Hno. rewrite Hno. apply keeps_ret.
  - apply keeps_then_map. unfold executeTaskTool. destruct (o_taskExecutor options); [by destruct Hno|]. apply keeps_ret.
Qed.

(** Permission was given, by an override or by the default of the tool. *)
Definition permitted (d : ToolDefinition) (level : ShellPermissionLevel) : Prop :=
  level = (o_permissionOverrides options (td_name d) or_else td_defaultPermissionLevel d) ∧
  (level = allow ∨ level = auto_approve_with_policy).

Lemma written_category d i : d ∈ TOOL_DEFINITIONS → input_tool i = td_name d →
  match i with in_write _ | in_edit _ | in_apply_patch _ => True | _ => False end → td_category d = cat_write.
Proof.
  unfold TOOL_DEFINITIONS. rewrite !elem_of_cons, elem_of_nil. intros Hd Hi Hw.
  destruct i; try done; naive_solver.
Qed.

(** C20 A tool call changes no file unless it was permitted, by the override or
    the default for the tool, and is one of three: a write, edit or patch of
    the write owner (the implementer or the fullstack agent); a shell command
    that the bash guard lets through; or a task with an injected executor. *)
Theorem file_changes_authorized toolName raw w :
  rw_fs (snd (run options toolName raw w)) ≠ rw_fs w →
  ∃ d i level, getToolDefinition toolName = Some d ∧ parseToolInput (td_name d) raw = inr i ∧
    permitted d level ∧
    (td_category d = cat_write ∧ isWriteOwner (o_envelope options) = true ∨
     (∃ s, i = in_shell s ∧ g_allowed (sp_decision (evaluateShellPermission (sh_command s) level)) = true) ∨
     (∃ t, i = in_task t ∧ is_Some (o_taskExecutor options))).
Proof using Type*.
  intros Hch. unfold run in Hch. destruct (getToolDefinition toolName) as [d|] eqn:Hd;
    [|by rewrite (keeps_bind rw_fs _ _ (keeps_fs_audit _ _) (λ _, keeps_ret _ _)) in Hch].
  exists d. assert (d ∈ TOOL_DEFINITIONS) as Hin by (by apply find_some in Hd as [?%list_elem_of_In _]).
  set (level := o_permissionOverrides options (td_name d) or_else td_defaultPermissionLevel d) in *.
  destruct (parseToolInput (td_name d) raw) as [e|i] eqn:Hp;
    [by rewrite (keeps_bind rw_fs _ _ (keeps_fs_audit _ _) (λ _, keeps_refuse _ _)) in Hch|].
  exists i, level. split; [done|]. split; [done|].
  destruct (tp_allowed (evaluateToolPermission d level)) eqn:Hallow; cbn [negb] in Hch.
  2: { rewrite keeps_bind in Hch; [done|apply keeps_fs_audit|]. intros _. apply keeps_bind; [|intros _; apply keeps_refuse].
       destruct (tp_requiresPermission _); [apply keeps_fs_event|apply keeps_ret]. }
  assert (permitted d level) as Hper by (split; [done|]; destruct level; simpl in Hallow; auto; done).
  split; [done|].
  destruct (bool_decide (td_category d = cat_write) && negb (isWriteOwner (o_envelope options))) eqn:Hown.
  { by rewrite (keeps_bind rw_fs _ _ (keeps_fs_audit _ _) (λ _, keeps_refuse _ _)) in Hch. }
  destruct (decide (may_write i level)) as [Hmay|Hno].
  - assert (input_tool i = td_name d) as Ht.
    { unfold parseToolInput in Hp. destruct (safeParse (td_name d) raw) as [|i'] eqn:Hs; [done|]. injection Hp as ->.
      by eapply safeParse_tool. }
    assert (td_category d = cat_write → td_category d = cat_write ∧ isWriteOwner (o_envelope options) = true) as Hcat.
    { intros Hc. rewrite bool_decide_true in Hown by done. split; [done|]. by apply negb_false_iff in Hown. }
    destruct i; simpl in Hmay; try done; first [by left; apply Hcat; eapply written_category | right; left; by eauto | right; right; by eauto].
  - exfalso. apply Hch. rewrite keeps_bind; [done|apply keeps_fs_audit|]. intros _.
    apply keeps_bind; [apply keeps_fs_event|]. intros _. apply keeps_bind; [by apply dispatch_keeps|]. intros r.
    apply keeps_bind; [apply keeps_fs_event|]. intros _. apply keeps_bind; [apply keeps_fs_audit|]. intros _. apply keeps_ret.
Qed.
End authority.

(** ** Audit rows *)

Section audit.
Context `{EnvLaws} `{SearchEnv} `{ToolEnvLaws} (options : ToolRunnerOptions).

Definition audit_fresh (w : RunnerWorld) : Prop :=
  draws_fresh tu_id "tool-audit" (w_toolAudit (rw_world w)) (w_draws (rw_world w)).

(** The rows that were added, each for the session, envelope, role and intent of
    the runner. *)
Definition audited (w w' : RunnerWorld) (trace : list (string * ToolUsageStatus)) : Prop :=
  ∃ rows, w_toolAudit (rw_world w') = w_toolAudit (rw_world w) ++ rows ∧
    ((λ r, (tu_toolName r, tu_status r)) <$> rows) = trace ∧
    Forall (λ r, tu_sessionId r = env_sessionId (o_envelope options) ∧ tu_envelopeId r = env_id (o_envelope options) ∧
                 tu_role r = env_role (o_envelope options) ∧ tu_intent r = o_intent options) rows.

Lemma audited_nil w w' : rw_world w' = rw_world w → audited w w' [].
Proof. intros Heq. exists []. by rewrite Heq, app_nil_r. Qed.

Lemma audited_app w1 w2 w3 t1 t2 : audited w1 w2 t1 → audited w2 w3 t2 → audited w1 w3 (t1 ++ t2).
Proof.
  intros (r1 & Hr1 & <- & F1) (r2 & Hr2 & <- & F2). exists (r1 ++ r2). rewrite Hr2, Hr1, app_assoc, fmap_app.
  split_and!; [done..|]. by apply Forall_app.
Qed.

Lemma recordAudit_run name status w : audit_fresh w →
  ∃ w', recordAudit options name status w = (Ret (), w') ∧ audit_fresh w' ∧ audited w w' [(name, status)].
Proof using Type*.
  intros Hf. unfold recordAudit, on_world, ToolUsageAuditRepo.save.
  repeat (autounfold with dh_ops; simpl). rewrite (Hf (w_draws (rw_world w))) by lia.
  eexists. split; [reflexivity|]. split.
  - unfold audit_fresh. simpl. eapply draws_fresh_snoc; [exact Hf|lia|]. exists (w_draws (rw_world w)). split; [lia|done].
  - eexists [_]. split; [reflexivity|]. split; [done|]. by repeat constructor.
Qed.

(** What a step of the runner that does not touch the database leaves as it was. *)
Lemma keeps_world_event e : keeps rw_world (onEvent e).
Proof. done. Qed.

Lemma keeps_world_files {A : Type} (m : M FileSystem A) : keeps rw_world (on_files m).
Proof. intros w. unfold on_files. by destruct (m (rw_fs w)). Qed.

Lemma keeps_world_events es : keeps rw_world (for_each onEvent es).
Proof. induction es as [|e es IH]; [done|]. apply keeps_bind; [apply keeps_world_event|]. by intros _. Qed.

Lemma keeps_world_lift {A : Type} (o : outcome A) : keeps rw_world (lift_outcome o).
Proof. done. Qed.

Lemma keeps_world_shell i level : keeps rw_world (executeShellTool options i level).
Proof.
  unfold executeShellTool. destruct (negb _); [apply keeps_ret|]. apply keeps_bind.
  - destruct (sh_cwd i) as [c|]; [|apply keeps_ret]. case_decide; [apply keeps_ret|].
    apply keeps_bind; [apply keeps_world_lift|]. intros r. apply keeps_ret.
  - intros cwd. apply keeps_bind; [done|]. intros _. destruct (shell_run _ _ _ _ _ _) as [s sent].
    apply keeps_bind; [apply keeps_world_events|]. intros _. destruct (ss_result s); [apply keeps_ret|apply keeps_throw].
Qed.

Lemma dispatch_keeps_world i level : (∀ t, i = in_task t → o_taskExecutor options = None) →
  keeps rw_world (dispatch options i level).
Proof.
  intros Hno. destruct i as [ri|wi|ei|si|gi|gr|pa|items|ti|?|?|?|?]; cbn [dispatch];
    try (apply keeps_ret || (apply keeps_then_map, keeps_gets) || (apply keeps_then_map, keeps_world_files)).
  - apply keeps_then_map, keeps_world_shell.
  - apply keeps_then_map. unfold executeTaskTool. rewrite (Hno ti eq_refl). apply keeps_ret.
Qed.

Lemma keeps_audited {A : Type} (m : M RunnerWorld A) w o w' : keeps rw_world m → audit_fresh w → m w = (o, w') →
  audit_fresh w' ∧ audited w w' [].
Proof.
  intros Hk Hf Hm. specialize (Hk w). rewrite Hm in Hk. simpl in Hk. split; [unfold audit_fresh; by rewrite Hk|].
  by apply audited_nil.
Qed.

Definition final_status (r : ToolResultEnvelope ToolOutput) : ToolUsageStatus :=
  if bool_decide (r_status r = succeeded) then tu_succeeded else tu_failed.

Lemma refuse_run t r w : audit_fresh w → r_status r ≠ succeeded →
  ∃ w', refuse options t r w = (Ret r, w') ∧ audited w w' [(tool_name t, final_status r)].
Proof using Type*.
  intros Hf Hr. destruct (recordAudit_run (tool_name t) tu_failed w Hf) as (w' & Hrun & _ & Ha). exists w'.
  unfold refuse. rewrite (bind_run _ _ _ _ _ Hrun). split; [done|]. unfold final_status. by rewrite bool_decide_false.
Qed.

(** The audit table tells what became of every tool call: a call of a known
    tool adds a row [called] and then, when it returns, a row [succeeded] or
    [failed] in agreement with its result; a call of an unknown tool adds one
    row [failed]; and a call that throws adds the row [called] only.  (The task
    tool with an executor is left out, since the executor may run other
    tools.) *)
Theorem tool_calls_audited toolName raw w : audit_fresh w →
  (toolName = "task" → o_taskExecutor options = None) →
  let (o, w') := run options toolName raw w in
  audited w w'
    match getToolDefinition toolName, o with
    | None, _ => [(toolName, tu_failed)]
    | Some d, Ret r => [(tool_name (td_name d), tu_called); (tool_name (td_name d), final_status r)]
    | Some d, Throw _ => [(tool_name (td_name d), tu_called)]
    end.
Proof using Type*.
  intros Hf Htask. unfold run. destruct (getToolDefinition toolName) as [d|] eqn:Hd.
  2: { destruct (recordAudit_run toolName tu_failed w Hf) as (w1 & Hrun & _ & Ha). by rewrite (bind_run _ _ _ _ _ Hrun). }
  set (t := td_name d). destruct (recordAudit_run (tool_name t) tu_called w Hf) as (w1 & Hrun & Hf1 & Ha1).
  rewrite (bind_run _ _ _ _ _ Hrun).
  assert (∀ r w2, r_status r ≠ succeeded → audit_fresh w2 → audited w1 w2 [] →
    let (o, w') := refuse options t r w2 in
    audited w w' match o with Ret r => [(tool_name t, tu_called); (tool_name t, final_status r)] | Throw _ => [(tool_name t, tu_called)] end)
    as Href.
  { intros r w2 Hr Hf2 Ha2. destruct (refuse_run t r w2 Hf2 Hr) as (w' & -> & Ha').
    apply (audited_app w w1 w' [_] [_] Ha1). by apply (audited_app w1 w2 w' [] [_]). }
  destruct (parseToolInput t raw) as [e|i] eqn:Hp; [apply Href; [done..|by apply audited_nil]|].
  set (level := o_permissionOverrides options t or_else td_defaultPermissionLevel d).
  destruct (negb (tp_allowed (evaluateToolPermission d level))).
  { rewrite (bind_run _ _ w1 () (if tp_requiresPermission (evaluateToolPermission d level)
      then snd (onEvent (ev_permission_requested t level (tp_reason (evaluateToolPermission d level))) w1) else w1))
      by (by destruct (tp_requiresPermission _)).
    apply Href; [by simpl; destruct (tp_requiresPermission _)|..];
      destruct (tp_requiresPermission _); try done; by apply audited_nil. }
  destruct (bool_decide _ && _); [apply Href; [done..|by apply audited_nil]|].
  assert (keeps rw_world (dispatch options i level)) as Hkeep.
  { apply dispatch_keeps_world. intros ti ->. apply Htask. unfold parseToolInput in Hp.
    destruct (safeParse t raw) as [|i'] eqn:Hs; [done|]. injection Hp as ->. apply safeParse_tool in Hs. simpl in Hs.
    apply find_some in Hd as [_ Hname%String.eqb_eq]. fold t in Hname. by rewrite <-Hname, <-Hs. }
  erewrite bind_run by reflexivity. set (w2 := mkRunner _ _ _).
  destruct (dispatch options i level w2) as [[r|e] w3] eqn:Hdis;
    destruct (keeps_audited _ _ _ _ Hkeep (Hf1 : audit_fresh w2) Hdis) as [Hf3 Ha3];
    pose proof (audited_app w w1 w3 [_] [] Ha1 Ha3) as Ha.
  - rewrite (bind_run _ _ _ _ _ Hdis). erewrite bind_run by reflexivity.
    destruct (recordAudit_run (tool_name t) (final_status r) _ (Hf3 : audit_fresh (mkRunner (rw_world w3) (rw_fs w3)
      (rw_events w3 ++ [ev_tool_finished t (r_status r) (r_metadata r)])))) as (w4 & Hrun4 & _ & Ha4).
    rewrite (bind_run _ _ _ _ _ Hrun4). exact (audited_app w w3 w4 [_] [_] Ha Ha4).
  - unfold mbind at 1, M_bind at 1. by rewrite Hdis.
Qed.
End audit.

(** ** The output of a shell command *)

(** What the child process wrote, piece by piece. *)
Fixpoint written (es : list ChildEvent) : list (bool * list ascii) :=
  match es with
  | [] => []
  | child_data is_stdout chunk :: es => (is_stdout, chunk) :: written es
  | _ :: es => written es
  end.

(** The same pieces, cut after [n] bytes altogether. *)
Fixpoint cut_chunks (n : nat) (chunks : list (bool * list ascii)) : list (bool * list ascii) :=
  match chunks with
  | [] => []
  | c :: cs => (c.1, take n c.2) :: cut_chunks (n - length c.2) cs
  end.

(** How many bytes the pieces have. *)
Definition byte_count (chunks : list (bool * list ascii)) : nat := length (concat chunks.*2).

#[local] Instance child_ends_dec e : Decision (child_ends e).
Proof. destruct e; simpl; apply _. Defined.

Section output.
Variable toString : list ascii → string.

(** The text of one of the streams, of which every piece is decoded by itself. *)
Fixpoint decoded (is_stdout : bool) (chunks : list (bool * list ascii)) : string :=
  match chunks with
  | [] => ""
  | c :: cs => (if Bool.eqb c.1 is_stdout then toString c.2 else "") +:+ decoded is_stdout cs
  end.

(** The events of the pieces. *)
Definition deltas (chunks : list (bool * list ascii)) : list ToolEvent :=
  chunks ≫= λ c, if (0 <? String.length (toString c.2))%nat
                 then [ev_tool_delta t_shell (Some c.1) (toString c.2)] else [].

Lemma concat_cut n chunks : concat (cut_chunks n chunks).*2 = take n (concat chunks.*2).
Proof. revert n. induction chunks as [|c cs IH]; intros n; simpl; [by rewrite take_nil|]. by rewrite IH, take_app. Qed.

Lemma byte_count_cons c chunks : byte_count (c :: chunks) = length c.2 + byte_count chunks.
Proof. apply length_app. Qed.

Lemma byte_count_cut n chunks : byte_count (cut_chunks n chunks) = n `min` byte_count chunks.
Proof. unfold byte_count. by rewrite concat_cut, length_take. Qed.

(** A run adds up the pieces, whatever else happens. *)
Lemma shell_run_streams command timeoutMs max es : ∀ s s' sent,
  shell_run toString command timeoutMs max s es = (s', sent) → ss_bytesReturned s ≤ max →
  let kept := cut_chunks (max - ss_bytesReturned s) (written es) in
  ss_stdout s' = ss_stdout s +:+ decoded true kept ∧ ss_stderr s' = ss_stderr s +:+ decoded false kept ∧
  ss_bytesReturned s' = ss_bytesReturned s + byte_count kept ∧
  ss_bytesSeen s' = ss_bytesSeen s + byte_count (written es) ∧
  ss_timedOut s' = ss_timedOut s || existsb (λ e, match e with child_timeout => true | _ => false end) es ∧
  sent = deltas kept.
Proof.
  induction es as [|e es IH]; intros s s' sent; cbn [shell_run].
  { intros [= <- <-] _. simpl. unfold byte_count. simpl. rewrite !append_nil_r, !Nat.add_0_r, orb_false_r. done. }
  destruct (shell_step toString command timeoutMs max s e) as [s1 sent1] eqn:Hs1.
  destruct (shell_run toString command timeoutMs max s1 es) as [s2 sent2] eqn:Hs2. intros [= <- <-] Hle.
  assert (∀ r, s1 = shell_settle r s → sent1 = [] →
    ss_stdout s1 = ss_stdout s ∧ ss_stderr s1 = ss_stderr s ∧ ss_bytesReturned s1 = ss_bytesReturned s ∧
    ss_bytesSeen s1 = ss_bytesSeen s ∧ ss_timedOut s1 = ss_timedOut s) as Hset.
  { intros r -> _. unfold shell_settle. by destruct (ss_result s). }
  destruct e as [out chunk| |message|code]; cbn [shell_step] in Hs1; unfold shell_append in Hs1; injection Hs1 as H1 H2; subst sent1.
  - subst s1. destruct (IH _ _ _ Hs2) as (-> & -> & -> & -> & -> & ->).
    { simpl. rewrite length_take. lia. }
    cbn [written cut_chunks decoded ss_stdout ss_stderr ss_bytesReturned ss_bytesSeen ss_timedOut fst snd]. rewrite length_take.
    set (n := max - ss_bytesReturned s).
    assert (cut_chunks (max - (ss_bytesReturned s + n `min` length chunk)) (written es) =
      cut_chunks (n - length chunk) (written es)) as -> by (f_equal; lia).
    rewrite !byte_count_cons. simpl. rewrite length_take.
    split_and!; [destruct out; simpl; by rewrite ?append_assoc|destruct out; simpl; by rewrite ?append_assoc|lia|lia|done|done].
  - subst s1. destruct (IH _ _ _ Hs2 Hle) as (-> & -> & -> & -> & -> & ->). simpl. rewrite orb_true_r. done.
  - destruct (Hset _ (eq_sym H1) eq_refl) as (E1 & E2 & E3 & E4 & E5).
    destruct (IH _ _ _ Hs2) as (-> & -> & -> & -> & -> & ->); [by rewrite E3|]. rewrite E1, E2, E3, E4, E5. done.
  - destruct (Hset _ (eq_sym H1) eq_refl) as (E1 & E2 & E3 & E4 & E5).
    destruct (IH _ _ _ Hs2) as (-> & -> & -> & -> & -> & ->); [by rewrite E3|]. rewrite E1, E2, E3, E4, E5. done.
Qed.

Lemma shell_run_app command timeoutMs max es1 es2 s :
  (shell_run toString command timeoutMs max s (es1 ++ es2)).1 =
  (shell_run toString command timeoutMs max (shell_run toString command timeoutMs max s es1).1 es2).1.
Proof.
  revert s. induction es1 as [|e es1 IH]; intros s; [done|]. cbn [app shell_run].
  destruct (shell_step _ _ _ _ _ e) as [s1 sent1]. specialize (IH s1).
  destruct (shell_run _ _ _ _ s1 (es1 ++ es2)), (shell_run _ _ _ _ s1 es1). done.
Qed.

(** The first result stays, and nothing but the end of the process makes one. *)
Lemma shell_run_result command timeoutMs max es s :
  is_Some (ss_result s) ∨ Forall (λ e, ¬ child_ends e) es →
  ss_result (shell_run toString command timeoutMs max s es).1 = ss_result s.
Proof.
  revert s. induction es as [|e es IH]; intros s Hs; [done|]. cbn [shell_run].
  assert (ss_result (shell_step toString command timeoutMs max s e).1 = ss_result s) as He.
  { destruct Hs as [[r Hr]|[He _]%Forall_cons].
    - destruct e; simpl; unfold shell_settle; by rewrite ?Hr.
    - destruct e; simpl in *; try done; tauto. }
  specialize (IH (shell_step toString command timeoutMs max s e).1). rewrite He in IH.
  destruct (shell_step _ _ _ _ _ e) as [s1 sent1]. simpl in *. destruct (shell_run _ _ _ _ s1 es). simpl in *.
  rewrite IH; [done|]. destruct Hs as [?|[_ ?]%Forall_cons]; auto.
Qed.

Lemma result_ended command timeoutMs max es :
  is_Some (ss_result (shell_run toString command timeoutMs max shell_start es).1) → Exists child_ends es.
Proof.
  intros Hres. destruct (decide (Exists child_ends es)) as [|Hno]; [done|]. exfalso.
  rewrite shell_run_result in Hres; [by destruct Hres|]. right. by apply Forall_Exists_neg.
Qed.

(** The events up to the first end of the process. *)
Lemma first_end es : Exists child_ends es →
  ∃ before e after, es = before ++ e :: after ∧ Forall (λ e, ¬ child_ends e) before ∧ child_ends e.
Proof.
  induction es as [|e es IH]; [by intros ?%Exists_nil|]. intros He. destruct (decide (child_ends e)) as [|Hno].
  - by exists [], e, es.
  - apply Exists_cons in He as [?|He]; [done|]. destruct (IH He) as (b & e' & a & -> & Hb & He').
    exists (e :: b), e', a. split_and!; [done|by constructor|done].
Qed.

(** What the result of an event that ends the process says, when [before] came
    before it. *)
Definition shell_result (command : string) (timeoutMs max : nat) (before : list ChildEvent) (e : ChildEvent)
    (r : ToolResultEnvelope ShellToolOutput) : Prop :=
  let seen := byte_count (written before) in
  let kept := cut_chunks max (written before) in
  bytesReturned (r_metadata r) = Some (max `min` seen) ∧ omittedBytes (r_metadata r) = Some (seen - max) ∧
  truncated (r_metadata r) = (max <? seen)%nat ∧
  match e with
  | child_error message => r_status r = failed ∧ r_error r = Some message ∧ r_output r = None
  | child_close code =>
    (r_status r = succeeded ↔ code = Some 0%Z ∧ child_timeout ∉ before) ∧
    r_output r = Some (mkShellOutput command (decoded true kept) (decoded false kept) code)
  | _ => False
  end.

Lemma timed_out_in es : existsb (λ e, match e with child_timeout => true | _ => false end) es = true ↔ child_timeout ∈ es.
Proof.
  rewrite existsb_exists. setoid_rewrite list_elem_of_In. split; [intros ([] & Hin & He); done|]. intros Hin.
  by exists child_timeout.
Qed.

Lemma shell_end command timeoutMs max before e s sent :
  shell_run toString command timeoutMs max shell_start before = (s, sent) → Forall (λ e, ¬ child_ends e) before →
  child_ends e →
  ∃ r, ss_result (shell_step toString command timeoutMs max s e).1 = Some r ∧ shell_result command timeoutMs max before e r.
Proof.
  intros Hrun Hno He. pose proof (shell_run_result command timeoutMs max before shell_start (or_intror Hno)) as Hres.
  rewrite Hrun in Hres. simpl in Hres.
  destruct (shell_run_streams command timeoutMs max before _ _ _ Hrun) as (Ho & Hr & Hb & Hs & Ht & _); [simpl; lia|].
  simpl in Ho, Hr, Hb, Hs, Ht. rewrite Nat.sub_0_r in *. rewrite byte_count_cut in Hb.
  assert (∀ code, let md := shell_metadata s code in let seen := byte_count (written before) in
    bytesReturned md = Some (max `min` seen) ∧ omittedBytes md = Some (seen - max) ∧ truncated md = (max <? seen)%nat) as Hmd.
  { intros code. unfold shell_metadata. simpl. rewrite Hb, Hs. split_and!; [done|f_equal; lia|].
    apply eq_true_iff_eq. rewrite !Nat.ltb_lt. lia. }
  destruct e as [| |message|code]; try done; cbn [shell_step fst]; unfold shell_settle; rewrite Hres; eexists;
    (split; [reflexivity|]); unfold shell_result; cbn [r_metadata r_status r_error r_output shell_closed];
    destruct (Hmd None) as (M1 & M2 & M3); (split; [exact M1|]); (split; [exact M2|]); (split; [exact M3|]); [done|].
  split; [|by rewrite Ho, Hr].
  rewrite <-timed_out_in, Ht. destruct (existsb _ _); simpl; [naive_solver|].
  destruct (decide (code = Some 0%Z)); [rewrite bool_decide_true by done|rewrite bool_decide_false by done]; simpl; naive_solver.
Qed.
End output.

(** C23 A shell command that was started gets a result exactly when its child
    process fails to start or closes, and then the result of the first such
    event.  Of what the process had written until then, on both streams
    together, exactly the first [maxOutputBytes] bytes are returned, and the
    result reports how many these are and how many were omitted.  The texts of
    the streams are these bytes, each piece decoded by itself, and so are the
    deltas that were sent; the command succeeded if it exited with 0 and in time. *)
Theorem shell_output_bounded toString command timeoutMs max es :
  let (s, sent) := shell_run toString command timeoutMs max shell_start es in
  (is_Some (ss_result s) ↔ Exists child_ends es) ∧
  sent = deltas toString (cut_chunks max (written es)) ∧
  (∀ r, ss_result s = Some r →
   ∃ before e after, es = before ++ e :: after ∧ Forall (λ e, ¬ child_ends e) before ∧ child_ends e ∧
     concat (cut_chunks max (written before)).*2 = take max (concat (written before).*2) ∧
     shell_result toString command timeoutMs max before e r).
Proof.
  destruct (shell_run toString command timeoutMs max shell_start es) as [s sent] eqn:Hrun.
  destruct (shell_run_streams toString command timeoutMs max es _ _ _ Hrun) as (_ & _ & _ & _ & _ & Hsent); [simpl; lia|].
  simpl in Hsent. rewrite Nat.sub_0_r in Hsent.
  assert (∀ before e after, es = before ++ e :: after → Forall (λ e, ¬ child_ends e) before → child_ends e →
    ∃ r, ss_result s = Some r ∧ shell_result toString command timeoutMs max before e r) as Hend.
  { intros before e after -> Hno He. pose proof (shell_run_app toString command timeoutMs max before (e :: after) shell_start) as Happ.
    rewrite Hrun in Happ. destruct (shell_run _ _ _ _ _ before) as [s1 sent1] eqn:Hb.
    destruct (shell_end toString command timeoutMs max before e s1 sent1 Hb Hno He) as (r & Hr & Hspec).
    exists r. split; [|done]. simpl in Happ. rewrite Happ. destruct (shell_step _ _ _ _ _ e) as [s2 sent2]. simpl in Hr.
    pose proof (shell_run_result toString command timeoutMs max after s2 (or_introl (ex_intro _ r Hr))) as Hk.
    destruct (shell_run _ _ _ _ s2 after). simpl in *. by rewrite Hk. }
  split; [|split; [done|]].
  - split; [|intros (b & e & a & Heq & Hno & He)%first_end; destruct (Hend b e a Heq Hno He) as (r & -> & _); done].
    intros Hres. apply (result_ended toString command timeoutMs max). by rewrite Hrun.
  - intros r Hr. destruct (first_end es) as (b & e & a & Heq & Hno & He).
    { apply (result_ended toString command timeoutMs max). rewrite Hrun. simpl. by rewrite Hr. }
    exists b, e, a. split_and!; [done..|apply concat_cut|]. destruct (Hend b e a Heq Hno He) as (r' & Hr' & Hspec).
    by simplify_eq.
Qed.

(** When the process writes ASCII, the texts are as long as the bytes returned. *)
Lemma ascii_output_length toString chunks :
  (∀ buffer, ascii_bytes buffer → toString buffer = string_of_list_ascii buffer) →
  Forall (λ c, ascii_bytes c.2) chunks →
  String.length (decoded toString true chunks) + String.length (decoded toString false chunks) = byte_count chunks.
Proof.
  intros Ht. induction 1 as [|c cs Hc _ IH]; [done|]. rewrite byte_count_cons, <-IH. cbn [decoded]. rewrite !length_append.
  assert (String.length (toString c.2) = length c.2) as Hl.
  { rewrite Ht by done. clear. induction c.2 as [|x l IHl]; [done|]. simpl. by rewrite IHl. }
  destruct c.1; simpl; lia.
Qed.

(** A decoder for bytes below 128 and two-byte sequences, with U+FFFD for the rest,
    in the bytes of UTF-8. *)
Definition REPLACEMENT : string := string_of_list_ascii (ascii_of_nat <$> [239; 191; 189]).

Fixpoint two_byte_decoder (buffer : list ascii) : string :=
  match buffer with
  | [] => ""
  | b :: rest =>
    if (nat_of_ascii b <? 128)%nat then String b (two_byte_decoder rest)
    else match rest with
         | c :: rest' =>
           if (192 <=? nat_of_ascii b)%nat && (nat_of_ascii b <? 224)%nat && (128 <=? nat_of_ascii c)%nat && (nat_of_ascii c <? 192)%nat
           then String b (String c (two_byte_decoder rest')) else REPLACEMENT +:+ two_byte_decoder rest
         | [] => REPLACEMENT
         end
  end.

(** A two-byte character whose second byte is over the limit: one byte is reported
    as returned, and the text that is returned is the three bytes of U+FFFD. *)
Lemma cut_character_replaced :
  let e_acute := ascii_of_nat <$> [195; 169] in
  match ss_result (shell_run two_byte_decoder "cat" 1000 1 shell_start [child_data true e_acute; child_close (Some 0%Z)]).1 with
  | Some r => bytesReturned (r_metadata r) = Some 1 ∧ (so_stdout <$> r_output r) = Some REPLACEMENT
  | None => False
  end ∧ String.length REPLACEMENT = 3 ∧ two_byte_decoder e_acute = string_of_list_ascii e_acute.
Proof. split_and!; vm_compute; done. Qed.

Definition demo_output : list ChildEvent :=
  [child_data true (list_ascii_of_string "abc"); child_data false (list_ascii_of_string "def"); child_close (Some 0%Z)].

Lemma shell_output_bounded_witness :
  let (s, sent) := shell_run two_byte_decoder "ls" 1000 4 shell_start demo_output in
  ∃ r, ss_result s = Some r ∧ bytesReturned (r_metadata r) = Some 4 ∧ length sent = 2 ∧
    (so_stderr <$> r_output r) = Some "d" ∧ (is_Some (ss_result s) ↔ Exists child_ends demo_output).
Proof.
  pose proof (shell_output_bounded two_byte_decoder "ls" 1000 4 demo_output) as Hw.
  destruct (shell_run two_byte_decoder "ls" 1000 4 shell_start demo_output) as [s sent] eqn:E.
  destruct Hw as (Hiff & _). vm_compute in E. injection E as <- <-. eexists. split; [reflexivity|].
  do 3 (split; [reflexivity|]). exact Hiff.
Defined.

(** ** A runner, for examples *)

Definition demo_envelope (role : AgentRole) (agentId : string) : ExecutionEnvelopeState :=
  mkEnvelope "env-1" "session-1" quick role agentId quick_execute None (mkModel "p" "m" "v") [] [] [] off "T".

Definition demo_parse (t : ToolName) (raw : json) : list string + ToolInput :=
  match t, raw with
  | t_write, JStr content => inr (in_write (mkWriteInput "b.txt" content None))
  | t_shell, JStr cwd => inr (in_shell (mkShellInput "git status" (Some cwd) None None))
  | _, _ => inl ["Expected object"]
  end.

#[local] Instance demo_tools : ToolEnv :=
  {| safeParse := demo_parse; child_events _ _ _ := [child_close (Some 0%Z)]; child_effect _ _ fs := fs;
     buffer_toString := two_byte_decoder |}.

#[local] Instance demo_tools_laws : ToolEnvLaws.
Proof.
  split.
  - intros t raw i. destruct t; simpl; try done; destruct raw; simpl; try done; by intros [= <-].
  - intros. by repeat constructor.
  - intros buffer. induction 1 as [|b rest Hb _ IH]; [done|]. simpl in *. rewrite (proj2 (Nat.ltb_lt _ _) Hb). by rewrite IH.
Qed.

Definition demo_options (role : AgentRole) : ToolRunnerOptions :=
  mkOptions demo_root (demo_envelope role "agent") "demo" (λ _, Some allow) None.

Definition demo_runner : RunnerWorld := mkRunner empty_world demo_fs [].

#[local] Instance demo_search : SearchEnv := {| dir_order names := names; regexp _ _ := None |}.

Lemma file_changes_authorized_witness :
  rw_fs (snd (run (demo_options role_implementer) "write" (JStr "text") demo_runner)) !! ["home"; "repo"; "b.txt"] =
    Some (File "text") ∧
  rw_fs (snd (run (demo_options role_reviewer) "write" (JStr "text") demo_runner)) = demo_fs ∧
  ∃ d i level, getToolDefinition "write" = Some d ∧ parseToolInput (td_name d) (JStr "text") = inr i ∧
    permitted (demo_options role_implementer) d level ∧
    (td_category d = cat_write ∧ isWriteOwner (o_envelope (demo_options role_implementer)) = true ∨
     (∃ s, i = in_shell s ∧ g_allowed (sp_decision (evaluateShellPermission (sh_command s) level)) = true) ∨
     (∃ t, i = in_task t ∧ is_Some (o_taskExecutor (demo_options role_implementer)))).
Proof.
  assert (rw_fs (snd (run (demo_options role_implementer) "write" (JStr "text") demo_runner)) !! ["home"; "repo"; "b.txt"] =
    Some (File "text")) as Hnew by (vm_compute; reflexivity).
  split; [exact Hnew|]. split; [vm_compute; reflexivity|].
  apply (file_changes_authorized (demo_options role_implementer) "write" (JStr "text") demo_runner).
  intros Heq. rewrite Heq in Hnew. vm_compute in Hnew. discriminate Hnew.
Defined.

Lemma tool_calls_audited_witness :
  let (o, w') := run (demo_options role_implementer) "write" (JStr "text") demo_runner in
  audited (demo_options role_implementer) demo_runner w' [("write", tu_called); ("write", tu_succeeded)].
Proof.
  assert (audit_fresh demo_runner) as Hf by (by intros k Hk).
  pose proof (tool_calls_audited (demo_options role_implementer) "write" (JStr "text") demo_runner Hf (λ _, eq_refl)) as Ha.
  exact Ha.
Defined.

(** A shell call with a working directory outside the repository rejects: the
    start is announced and audited, and neither an end nor a failure is. *)
Lemma shell_outside_unfinished :
  let (o, w) := run (demo_options role_implementer) "shell" (JStr "../other") demo_runner in
  o = Throw "Path '../other' is outside the repository." ∧
  rw_events w = [ev_tool_started t_shell] ∧ (tu_status <$> w_toolAudit (rw_world w)) = [tu_called].
Proof. vm_compute. done. Qed.
