(* ===== verification/Executor.v ===== *)
(** * The application's enforcement of tool calls and answers

    [packages/opencode-app/src/executor]: [enforce-tool-usage.ts],
    [answer-gating.ts] and [hook-enforcer.ts].  The enforcer runs the policy of
    the planner first and, when that allows, the runtime enforcer of [Hooks];
    every decision is a row of the hook log.

    A score is the rational number that a double stands for, and the thresholds
    are the doubles nearest to the decimal fractions of the source.  The time
    that a check takes is an argument. *)

From S2P Require Import Prelude Json Domain Store Repos Bridge Hooks Planner Files ToolRunner.
From Stdlib Require Import Ascii String QArith.
From stdpp Require Import prelude list strings pretty.
Set Default Goal Selector "!".
Set Default Proof Using "Type".
Set Warnings "-clear-no-such-hyp".
#[local] Open Scope nat_scope.

Definition intent_name (i : QueryIntent) : string :=
  match i with
  | find_definition => "find_definition"
  | explain_module => "explain_module"
  | trace_flow => "trace_flow"
  | impact_analysis => "impact_analysis"
  | bug_investigation => "bug_investigation"
  | broad_codebase_question => "broad_codebase_question"
  | library_lookup => "library_lookup"
  | browser_verification => "browser_verification"
  end.

(** ** Tools *)

Definition BLOCKED_TOOLS : list string := ["find"; "cat"; "head"; "tail"; "sed"; "awk"].

Record ToolDecision : Type := mkToolDecision { td_allow : bool; td_reason : string }.

(** [envelope.requiredTools.length > 0 ? ... : REQUIRED_TOOLS_BY_INTENT[intent]]. *)
Definition required_tools (envelope : ExecutionEnvelopeState) (intent : QueryIntent) : list string :=
  if decide (env_requiredTools envelope = []) then REQUIRED_TOOLS_BY_INTENT intent else env_requiredTools envelope.

Definition enforceToolUsage (envelope : ExecutionEnvelopeState) (toolName : string) (intent : QueryIntent) : ToolDecision :=
  let allowed := "Tool allowed for intent '" +:+ intent_name intent +:+ "'." in
  if decide (toolName ∈ BLOCKED_TOOLS)
  then mkToolDecision false ("Tool '" +:+ toolName +:+ "' is blocked. Use structured or built-in repository tools instead.")
  else if decide (is_Some (getToolDefinition toolName) ∧ env_requiredTools envelope = []) then mkToolDecision true allowed
  else
    let requiredTools := required_tools envelope intent in
    if decide (requiredTools ≠ [] ∧ toolName ∉ requiredTools)
    then mkToolDecision true ("Tool '" +:+ toolName +:+ "' is allowed, but not listed as required for intent '" +:+ intent_name intent +:+ "'.")
    else mkToolDecision true allowed.

(** ** Answers *)

Inductive AnswerAction : Type := finalize | retry | degrade.

Definition action_name (a : AnswerAction) : string :=
  match a with finalize => "finalize" | retry => "retry" | degrade => "degrade" end.

Record AnswerGateDecision : Type := mkAnswerGate { ag_allow : bool; ag_action : AnswerAction; ag_reason : string }.

Record EvidenceThreshold : Type := mkThreshold { retryThreshold : Q; finalizeThreshold : Q }.

Definition getEvidenceThreshold (lane : WorkflowLane) (intent : QueryIntent) : EvidenceThreshold :=
  match intent with
  | trace_flow | impact_analysis =>
    mkThreshold (8106479329266893 # 18014398509481984) (3242591731706757 # 4503599627370496)
  | _ =>
    if bool_decide (intent_name intent = "bug_investigation") || negb (bool_decide (lane_name lane = "quick"))
    then mkThreshold (3602879701896397 # 9007199254740992) (5854679515581645 # 9007199254740992)
    else mkThreshold (3152519739159347 # 9007199254740992) (2476979795053773 # 4503599627370496)
  end.

Definition gateAnswer (envelope : ExecutionEnvelopeState) (toolsUsed : list string) (evidenceScore : Q) (intent : QueryIntent) :
    AnswerGateDecision :=
  let missing := filter (λ t, t ∉ toolsUsed) (required_tools envelope intent) in
  if decide (missing ≠ [])
  then mkAnswerGate false retry ("Missing required tools for intent '" +:+ intent_name intent +:+ "': " +:+ Prelude.join ", " missing)
  else
    let threshold := getEvidenceThreshold (env_lane envelope) intent in
    if Qltb evidenceScore (retryThreshold threshold)
    then mkAnswerGate false retry ("Evidence score " +:+ toFixed2 evidenceScore +:+ " is below retry threshold " +:+
           toFixed2 (retryThreshold threshold) +:+ " for intent '" +:+ intent_name intent +:+ "'.")
    else if Qltb evidenceScore (finalizeThreshold threshold)
    then mkAnswerGate false degrade ("Evidence score " +:+ toFixed2 evidenceScore +:+ " is below finalize threshold " +:+
           toFixed2 (finalizeThreshold threshold) +:+ " for intent '" +:+ intent_name intent +:+ "'.")
    else mkAnswerGate true finalize ("Answer is valid for lane '" +:+ lane_name (env_lane envelope) +:+ "' and intent '" +:+ intent_name intent +:+ "'.").

(** ** The enforcer *)

Record EnforcerDecision : Type := mkEnforcer { ed_allow : bool; ed_decision : HookDecision; ed_reason : string; ed_logId : string }.

Section enforcer.
Context `{Env} (num_literal : Q → string).

(** The row of a decision of the planner's policy. *)
Definition record_block (envelope : ExecutionEnvelopeState) (hookName reason : string) (payloadIn payloadOut : json) (durationMs : nat) :
    M World EnforcerDecision :=
  id ← createId "hook";
  result ← writeHookDecision (env_sessionId envelope) (env_id envelope) hookName hd_block reason payloadIn payloadOut
             (Some durationMs) (Some id) None;
  match result with
  | inl row => mret (mkEnforcer false hd_block reason (hl_id row))
  | inr _ => logId ← createId "hook-failed"; mret (mkEnforcer false hd_block reason logId)
  end.

(** The decision of the runtime enforcer, with the row it left. *)
Definition from_runtime (envelope : ExecutionEnvelopeState) (hookName : string) (allow : bool) (reason : string) : M World EnforcerDecision :=
  latest ← HookInvocationLogsRepo.find_latest_row (env_sessionId envelope) (env_id envelope) hookName;
  let decision := if allow then hd_allow else hd_block in
  match latest with
  | Some row => mret (mkEnforcer allow decision reason (hl_id row))
  | None => logId ← createId "hook-failed"; mret (mkEnforcer allow decision reason logId)
  end.

Definition enforce_preToolExec (envelope : ExecutionEnvelopeState) (toolName : string) (toolArgs : json) (intent : QueryIntent)
    (durationMs : nat) : M World EnforcerDecision :=
  let baseline := enforceToolUsage envelope toolName intent in
  if negb (td_allow baseline) then
    record_block envelope "pre_tool_exec" (td_reason baseline)
      (JObj [("toolName", JStr toolName); ("toolArgs", toolArgs); ("intent", JStr (intent_name intent)); ("source", JStr "baseline")])
      (JObj [("allow", JBool (td_allow baseline)); ("reason", JStr (td_reason baseline))]) durationMs
  else
    result ← preToolExec (env_sessionId envelope) (env_id envelope) (env_role envelope) (intent_name intent) toolName toolArgs;
    from_runtime envelope "pre_tool_exec" result.1 result.2.

(** [intent.replaceAll("_", " ")]. *)
Fixpoint underscores_to_blanks (s : string) : string :=
  match s with
  | EmptyString => ""
  | String c t => String (if Ascii.eqb c "_" then " " else c)%char (underscores_to_blanks t)
  end.

Definition enforce_preAnswer (envelope : ExecutionEnvelopeState) (toolsUsed : list string) (evidenceScore : Q) (intent : QueryIntent)
    (durationMs : nat) : M World EnforcerDecision :=
  let baseline := gateAnswer envelope toolsUsed evidenceScore intent in
  if negb (ag_allow baseline) then
    record_block envelope "pre_answer" (ag_reason baseline)
      (JObj [("toolsUsed", JArr (map JStr toolsUsed)); ("evidenceScore", JNum (num_literal evidenceScore));
             ("intent", JStr (intent_name intent)); ("source", JStr "baseline")])
      (JObj [("allow", JBool (ag_allow baseline)); ("action", JStr (action_name (ag_action baseline))); ("reason", JStr (ag_reason baseline))])
      durationMs
  else
    result ← preAnswer num_literal (env_sessionId envelope) (env_id envelope) (underscores_to_blanks (intent_name intent)) toolsUsed evidenceScore;
    from_runtime envelope "pre_answer" result.1.1 result.2.
End enforcer.

(** ** Every decision is the one on record *)

(** The draws to come are new, and the clock is past the rows of the hook. *)
Definition enforcer_ready `{Env} (envelope : ExecutionEnvelopeState) (hook : string) (w : World) : Prop :=
  audit_ready w ∧ draws_fresh hl_id "hook" (w_hookLogs w) (w_draws w) ∧
  (env_id envelope = "" ∨ trim (env_id envelope) ≠ "") ∧
  older_rows (env_sessionId envelope) (env_id envelope) hook (clock (w_ticks w)) (w_hookLogs w).

(** The run left one more row for the hook, which says what was decided, and its
    id was returned. *)
Definition decided (envelope : ExecutionEnvelopeState) (hook : string) (w w' : World) (d : EnforcerDecision) : Prop :=
  ed_decision d = (if ed_allow d then hd_allow else hd_block) ∧
  ∃ row, w_hookLogs w' = w_hookLogs w ++ [row] ∧ hl_id row = ed_logId d ∧ hl_sessionId row = env_sessionId envelope ∧
    hl_hookName row = hook ∧ hl_decision row = ed_decision d ∧ hl_reason row = ed_reason d.

Lemma record_block_run `{Env} envelope hook reason pin pout ms w :
  enforcer_ready envelope hook w →
  ∃ d w', record_block envelope hook reason pin pout ms w = (Ret d, w') ∧ ed_allow d = false ∧ ed_reason d = reason ∧ decided envelope hook w w' d.
Proof.
  intros (_ & Hf & _). eexists _, _. split.
  - unfold record_block, writeHookDecision, try_catch. repeat (autounfold with dh_ops; simpl).
    rewrite (Hf (w_draws w)) by lia. reflexivity.
  - split_and!; [done..|]. split; [done|]. by eexists.
Qed.

Lemma from_runtime_run `{Env} envelope hook (allow : bool) reason row w w' :
  enforcer_ready envelope hook w → w_hookLogs w' = w_hookLogs w ++ [row] →
  hl_sessionId row = env_sessionId envelope → hl_hookName row = hook → hl_envelopeId row = toEnvelopeId (env_sessionId envelope) (env_id envelope) →
  hl_timestamp row = clock (w_ticks w) → hl_decision row = (if allow then hd_allow else hd_block) → hl_reason row = reason →
  ∃ d, from_runtime envelope hook allow reason w' = (Ret d, w') ∧ ed_allow d = allow ∧ ed_reason d = reason ∧ decided envelope hook w w' d.
Proof.
  intros (_ & _ & Heid & Hold) Hw Hs Hh He Ht Hd Hr. rewrite <-Ht in Hold.
  eexists. unfold from_runtime. split; [erewrite bind_run by (by apply (newest_row_found _ _ _ (w_hookLogs w) row)); reflexivity|].
  split_and!; [done..|]. split; [done|]. exists row. by split_and!.
Qed.

Lemma enforceToolUsage_allow envelope tool intent : td_allow (enforceToolUsage envelope tool intent) = false ↔ tool ∈ BLOCKED_TOOLS.
Proof. unfold enforceToolUsage. by repeat case_decide. Qed.

(** A tool call of the application is refused exactly when the tool is one of
    the blocked shell tools, or it is a [bash] or [shell] call of a stored
    session whose command the strict guard blocks; and the decision that is
    returned is the latest row of the hook log, by its id, verdict and reason. *)
Theorem enforced_tool_calls `{Env} envelope tool args intent ms w :
  enforcer_ready envelope "pre_tool_exec" w →
  ∃ d w', enforce_preToolExec envelope tool args intent ms w = (Ret d, w') ∧
    (ed_allow d = false ↔
       tool ∈ BLOCKED_TOOLS ∨
       (tool = "bash" ∨ tool = "shell") ∧ has_key sessionId (env_sessionId envelope) (w_sessions w) = true ∧
       ¬ guard_passes (command_of args)) ∧
    decided envelope "pre_tool_exec" w w' d.
Proof.
  intros Hready. unfold enforce_preToolExec. pose proof (enforceToolUsage_allow envelope tool intent) as Hb.
  destruct (td_allow (enforceToolUsage envelope tool intent)); cbn [negb].
  - destruct (preToolExec_run (env_sessionId envelope) (env_id envelope) (env_role envelope) (intent_name intent) tool args w)
      as (command & g & w' & Hrun & Hg & _ & Hlog); [apply Hready|].
    rewrite (bind_run _ _ _ _ _ Hrun).
    destruct (from_runtime_run envelope "pre_tool_exec" (g_allowed g) (g_reason g) _ w w' Hready Hlog) as (d & Hd & Ha & _ & Hdec); [done..|].
    exists d, w'. split_and!; [done| |done]. rewrite Ha, Hg. destruct Hb as [_ Hb]. intuition congruence.
  - destruct (record_block_run envelope "pre_tool_exec" (td_reason (enforceToolUsage envelope tool intent))
      (JObj [("toolName", JStr tool); ("toolArgs", args); ("intent", JStr (intent_name intent)); ("source", JStr "baseline")])
      (JObj [("allow", JBool false); ("reason", JStr (td_reason (enforceToolUsage envelope tool intent)))]) ms w Hready)
      as (d & w' & Hrun & Ha & _ & Hdec).
    exists d, w'. split_and!; [done| |done]. split; [intros _; left; by apply Hb|done].
Qed.

(** ** Answers *)

Lemma preAnswer_run `{Env} num_literal sid eid text tools score w :
  audit_ready w →
  let g := evaluateEvidence text tools score (Some (1 # 2)%Q) in
  ∃ w' row, preAnswer num_literal sid eid text tools score w =
      (Ret (eg_allowed g, if eg_allowed g then "finalize" else "retry_with_more_evidence", eg_reason g), w') ∧
    w_hookLogs w' = w_hookLogs w ++ [row] ∧ hl_sessionId row = sid ∧ hl_hookName row = "pre_answer" ∧
    hl_envelopeId row = toEnvelopeId sid eid ∧ hl_timestamp row = clock (w_ticks w) ∧
    hl_decision row = (if eg_allowed g then hd_allow else hd_block) ∧ hl_reason row = eg_reason g.
Proof.
  intros [Hl _] g. unfold preAnswer, writeEvidenceGateDecision, writeHookDecision, try_catch. fold g.
  generalize (normalizeToSnakeCase (evidence_json g (normalizeStructuralEvidenceResult true (Some (eg_allowed g)) (Some (eg_reason g))
    (eg_suggestion g) (Some tools) (Some score)))). intros out. eexists _, _. split.
  - repeat (autounfold with dh_ops; simpl). rewrite (Hl (w_draws w)) by lia. reflexivity.
  - by split_and!.
Qed.

(** Of the names of intents only [impact analysis] is structural. *)
Lemma intent_rules intent :
  match intent_rule (underscores_to_blanks (intent_name intent)) with
  | Some rule => intent = impact_analysis ∧ ir_requiredTools rule = ["dh.find-references"; "dh.find-dependents"]
  | None => intent ≠ impact_analysis
  end.
Proof. destruct intent; vm_compute; done. Qed.

Definition uses_tool (tools : list string) (tool : string) : Prop := toLowerCase tool ∈ (toLowerCase <$> tools).

Lemma gate_of_intent intent tools score :
  (1 # 2 <= score)%Q →
  eg_allowed (evaluateEvidence (underscores_to_blanks (intent_name intent)) tools score (Some (1 # 2)%Q)) = true ↔
  (intent = impact_analysis → uses_tool tools "dh.find-references" ∨ uses_tool tools "dh.find-dependents").
Proof.
  intros Hs. unfold evaluateEvidence. pose proof (intent_rules intent) as Hr.
  destruct (intent_rule _) as [rule|]; [|done]. destruct Hr as [-> Hr].
  assert (has_required_tool rule tools = true ↔ uses_tool tools "dh.find-references" ∨ uses_tool tools "dh.find-dependents") as Hh.
  { unfold has_required_tool. rewrite Hr. cbn [existsb]. rewrite orb_false_r, orb_true_iff, !bool_decide_eq_true. done. }
  assert (Qltb score (1 # 2) = false) as Hlt by (unfold Qltb; apply negb_false_iff, Qle_bool_iff; exact Hs).
  change (Some (1 # 2)%Q or_else (1 # 2)%Q) with (1 # 2)%Q. rewrite Hlt.
  destruct (has_required_tool rule tools) eqn:E; cbn [negb eg_allowed]; [intuition|]. split; [done|]. intros Hx. by apply Hh, Hx.
Qed.

Lemma thresholds lane intent :
  (1 # 2 <= finalizeThreshold (getEvidenceThreshold lane intent))%Q ∧
  (retryThreshold (getEvidenceThreshold lane intent) <= finalizeThreshold (getEvidenceThreshold lane intent))%Q.
Proof. destruct lane, intent; split; vm_compute; discriminate. Qed.

Lemma gateAnswer_exact envelope tools score intent :
  ag_allow (gateAnswer envelope tools score intent) = true ↔
  (∀ t, t ∈ required_tools envelope intent → t ∈ tools) ∧ (finalizeThreshold (getEvidenceThreshold (env_lane envelope) intent) <= score)%Q.
Proof.
  unfold gateAnswer. destruct (thresholds (env_lane envelope) intent) as [_ Hle]. set (th := getEvidenceThreshold (env_lane envelope) intent) in *.
  destruct (decide _) as [Hm|Hm].
  - split; [done|]. intros [Hall _]. destruct Hm. apply elem_of_nil_inv. intros t [Hn Ht]%list_elem_of_filter. by apply Hn, Hall.
  - assert (∀ t, t ∈ required_tools envelope intent → t ∈ tools) as Hall.
    { intros t Ht. destruct (decide (t ∈ tools)) as [|Hn]; [done|]. exfalso. apply Hm. intros E.
      assert (t ∈ filter (λ t, t ∉ tools) (required_tools envelope intent)) as Hin by (by apply list_elem_of_filter). rewrite E in Hin. by apply elem_of_nil in Hin. }
    assert (∀ q, Qltb score q = true ↔ ¬ (q <= score)%Q) as Hlt.
    { intros q. unfold Qltb. rewrite negb_true_iff, <-not_true_iff_false, Qle_bool_iff. done. }
    destruct (Qltb score (retryThreshold th)) eqn:E1; [apply Hlt in E1; split; [done|]|].
    { intros [_ Hs]. destruct E1. by eapply Qle_trans. }
    destruct (Qltb score (finalizeThreshold th)) eqn:E2; [apply Hlt in E2; by split; [|intros [_ ?]]|].
    split; [|done]. intros _. split; [done|]. apply not_true_iff_false in E2. rewrite Hlt in E2.
    destruct (Qlt_le_dec score (finalizeThreshold th)) as [Hq|]; [|done]. destruct E2. by apply Qlt_not_le.
Qed.

(** An answer of the application is let through exactly when every required tool
    was used, the evidence reaches the threshold of lane and intent, and for an
    impact analysis one of the two graph tools was used; and the decision that is
    returned is the latest row of the hook log. *)
Theorem enforced_answers `{Env} num_literal envelope tools score intent ms w :
  enforcer_ready envelope "pre_answer" w →
  ∃ d w', enforce_preAnswer num_literal envelope tools score intent ms w = (Ret d, w') ∧
    (ed_allow d = true ↔
       (∀ t, t ∈ required_tools envelope intent → t ∈ tools) ∧
       (finalizeThreshold (getEvidenceThreshold (env_lane envelope) intent) <= score)%Q ∧
       (intent = impact_analysis → uses_tool tools "dh.find-references" ∨ uses_tool tools "dh.find-dependents")) ∧
    decided envelope "pre_answer" w w' d.
Proof.
  intros Hready. unfold enforce_preAnswer. pose proof (gateAnswer_exact envelope tools score intent) as Hb.
  destruct (thresholds (env_lane envelope) intent) as [Hhalf _].
  destruct (ag_allow (gateAnswer envelope tools score intent)) eqn:E; cbn [negb].
  - destruct (preAnswer_run num_literal (env_sessionId envelope) (env_id envelope) (underscores_to_blanks (intent_name intent)) tools score w)
      as (w' & row & Hrun & Hlog & H1 & H2 & H3 & H4 & H5 & H6); [apply Hready|].
    rewrite (bind_run _ _ _ _ _ Hrun). destruct (proj1 Hb eq_refl) as [Hall Hs].
    pose proof (gate_of_intent intent tools score (Qle_trans _ _ _ Hhalf Hs)) as Hg.
    destruct (from_runtime_run envelope "pre_answer" _ _ row w w' Hready Hlog H1 H2 H3 H4 H5 H6) as (d & Hd & Ha & _ & Hdec).
    exists d, w'. split_and!; [exact Hd| |done]. rewrite Ha, Hg. intuition.
  - edestruct (record_block_run envelope "pre_answer" (ag_reason (gateAnswer envelope tools score intent)))
      as (d & w' & Hrun & Ha & _ & Hdec); [exact Hready|].
    exists d, w'. split_and!; [exact Hrun| |done]. rewrite Ha. split; [done|]. intros (Hall & Hs & _).
    assert (false = true) by (by apply Hb). done.
Qed.

(** The tools that the first gate asks for an impact analysis are not among those
    that the second one accepts: an answer with exactly the required tools is
    always refused. *)
Lemma impact_analysis_refused tools score :
  tools = REQUIRED_TOOLS_BY_INTENT impact_analysis → eg_allowed (evaluateEvidence "impact analysis" tools score (Some (1 # 2)%Q)) = false.
Proof. intros ->. vm_compute. done. Qed.

Definition demo_envelope : ExecutionEnvelopeState :=
  mkEnvelope "env-1" "session-1" quick role_quick "quick" quick_execute None (mkModel "p" "m" "v") [] [] [] always "T".

Lemma enforced_answers_witness :
  ∃ d w', enforce_preAnswer (λ _, "0.8") demo_envelope ["symbol_search"; "reference_search"; "graph_expand"] (8 # 10)%Q impact_analysis 3 hook_world = (Ret d, w') ∧
    ed_allow d = false ∧ decided demo_envelope "pre_answer" hook_world w' d.
Proof.
  destruct (enforced_answers (λ _, "0.8") demo_envelope ["symbol_search"; "reference_search"; "graph_expand"] (8 # 10)%Q impact_analysis 3 hook_world)
    as (d & w' & Hrun & Hallow & Hdec).
  - split_and!; [split; intros k _; reflexivity|intros k _; reflexivity|right; vm_compute; discriminate|constructor].
  - exists d, w'. split_and!; [exact Hrun| |exact Hdec]. apply not_true_is_false. intros (_ & _ & Htools)%Hallow.
    destruct (Htools eq_refl) as [Hu|Hu]; unfold uses_tool in Hu; apply (bool_decide_eq_true_2 _) in Hu; vm_compute in Hu; discriminate.
Defined.
