(* ===== verification/Knowledge.v ===== *)
(** * Knowledge command sessions

    [packages/runtime/src/session/knowledge-command-session-bridge.ts] and
    [knowledge-command-runtime-persistence.ts], with the repositories
    [knowledge-command-sessions-repo.ts], [knowledge-command-runtime-events-repo.ts],
    [knowledge-command-summary-repo.ts] and [config-repo.ts].

    The tables are part of a state of their own, with the clock and the random
    draws of the process.  Foreign keys are enforced, as the events and summaries
    refer to a session that was saved before.  A transaction that fails restores
    the tables.  The setting that is read from the configuration is a boolean. *)

From S2P Require Import Prelude Json Domain Store SessionContext.
From Stdlib Require Import Ascii String.
From stdpp Require Import prelude list strings gmap pretty.
Set Default Goal Selector "!".
Set Default Proof Using "Type".
Set Warnings "-clear-no-such-hyp".

Inductive KnowledgeCommandKind : Type := ask | explain | trace.
Inductive KnowledgeStatus : Type := ks_active | ks_closed.

#[global] Instance KnowledgeStatus_eq_dec : EqDecision KnowledgeStatus.
Proof. solve_decision. Defined.

Definition kind_text (k : KnowledgeCommandKind) : string :=
  match k with ask => "ask" | explain => "explain" | trace => "trace" end.

Definition knowledge_status_name (s : KnowledgeStatus) : string :=
  match s with ks_active => "active" | ks_closed => "closed" end.

Record KnowledgeCommandSessionRecord : Type := mkKSession {
  k_sessionId : string;
  k_repoRoot : string;
  k_status : KnowledgeStatus;
  k_lastCommandKind : option KnowledgeCommandKind;
  k_lastInput : option string;
  k_lastCompacted : bool;
  k_lastRunAt : option string;
  k_createdAt : string;
  k_updatedAt : string;
}.

Record KnowledgeCommandRuntimeEventRecord : Type := mkKEvent {
  ke_id : string;
  ke_knowledgeSessionId : string;
  ke_eventType : string;
  ke_eventJson : json;
  ke_createdAt : string;
}.

Record KnowledgeCommandSummaryRecord : Type := mkKSummary {
  kx_knowledgeSessionId : string;
  kx_lastCommandKind : option KnowledgeCommandKind;
  kx_lastRunAt : option string;
  kx_compactionAttempted : bool;
  kx_compactionOverflow : bool;
  kx_compactionApplied : bool;
  kx_continuationSummary : option string;
  kx_continuationCreatedAt : option string;
  kx_compactionEventId : option string;
  kx_updatedAt : string;
}.

Record KnowledgeTables : Type := mkKTables {
  kt_sessions : list KnowledgeCommandSessionRecord;
  kt_events : list KnowledgeCommandRuntimeEventRecord;
  kt_summaries : list KnowledgeCommandSummaryRecord;
}.

Record KWorld : Type := mkKWorld {
  kw_tables : KnowledgeTables;
  kw_autoCompaction : option bool;
  kw_ticks : nat;
  kw_draws : nat;
}.

Definition set_tables (t : KnowledgeTables) (w : KWorld) : KWorld := mkKWorld t (kw_autoCompaction w) (kw_ticks w) (kw_draws w).

Section knowledge.
Context `{Env}.

Definition k_nowIso : M KWorld string := λ w,
  (Ret (clock (kw_ticks w)), mkKWorld (kw_tables w) (kw_autoCompaction w) (S (kw_ticks w)) (kw_draws w)).

Definition k_createId (prefix : string) : M KWorld string := λ w,
  (Ret (draw_id prefix (kw_draws w)), mkKWorld (kw_tables w) (kw_autoCompaction w) (kw_ticks w) (S (kw_draws w))).

(** ** Repositories *)

Definition KSessions_save (record : KnowledgeCommandSessionRecord) : M KWorld () := λ w,
  let t := kw_tables w in
  (Ret (), set_tables (mkKTables (upsert_row k_sessionId record (kt_sessions t)) (kt_events t) (kt_summaries t)) w).

Definition KSessions_create (repoRoot : string) : M KWorld KnowledgeCommandSessionRecord :=
  now ← k_nowIso;
  sid ← k_createId "knowledge-session";
  let record := mkKSession sid repoRoot ks_active None None false None now now in
  KSessions_save record;;
  mret record.

Definition KSessions_findById (sid : string) : M KWorld (option KnowledgeCommandSessionRecord) :=
  gets (λ w, find_row k_sessionId sid (kt_sessions (kw_tables w))).

Definition references_session (sid : string) (w : KWorld) : bool := has_key k_sessionId sid (kt_sessions (kw_tables w)).

Definition insert_event (record : KnowledgeCommandRuntimeEventRecord) : M KWorld KnowledgeCommandRuntimeEventRecord := λ w,
  let t := kw_tables w in
  if has_key ke_id (ke_id record) (kt_events t) then (Throw (UNIQUE_ERROR "knowledge_command_runtime_events"), w)
  else if references_session (ke_knowledgeSessionId record) w
  then (Ret record, set_tables (mkKTables (kt_sessions t) (kt_events t ++ [record]) (kt_summaries t)) w)
  else (Throw FK_ERROR, w).

Definition KEvents_save (sid eventType : string) (eventJson : json) (createdAt : option string) : M KWorld KnowledgeCommandRuntimeEventRecord :=
  id ← k_createId "knowledge-runtime-event";
  created ← (match createdAt with Some c => mret c | None => k_nowIso end : M KWorld string);
  insert_event (mkKEvent id sid eventType eventJson created).

Definition KEvents_listByKnowledgeSession (sid : string) : M KWorld (list KnowledgeCommandRuntimeEventRecord) :=
  gets (λ w, order_desc ke_createdAt (filter (λ e, ke_knowledgeSessionId e = sid) (kt_events (kw_tables w)))).

Definition upsert_summary (record : KnowledgeCommandSummaryRecord) : M KWorld KnowledgeCommandSummaryRecord := λ w,
  let t := kw_tables w in
  if references_session (kx_knowledgeSessionId record) w
  then (Ret record, set_tables (mkKTables (kt_sessions t) (kt_events t) (upsert_row kx_knowledgeSessionId record (kt_summaries t))) w)
  else (Throw FK_ERROR, w).

Definition KSummary_save (record : string → KnowledgeCommandSummaryRecord) : M KWorld KnowledgeCommandSummaryRecord :=
  now ← k_nowIso;
  upsert_summary (record now).

Definition KSummary_find (sid : string) : M KWorld (option KnowledgeCommandSummaryRecord) :=
  gets (λ w, find_row kx_knowledgeSessionId sid (kt_summaries (kw_tables w))).

(** ** Persisting an outcome *)

(** [BEGIN]; the body; [COMMIT], or [ROLLBACK] and the error as a value. *)
Definition in_transaction {A : Type} (body : M KWorld A) : M KWorld (A + string) := λ w,
  match body w with
  | (Ret a, w') => (Ret (inl a), w')
  | (Throw e, w') => (Ret (inr e), set_tables (kw_tables w) w')
  end.

Record Compaction : Type := mkKCompaction {
  kc_attempted : bool;
  kc_overflow : bool;
  kc_compacted : bool;
  kc_continuationSummary : option string;
}.

(** [Boolean(value)] of an optional string. *)
Definition is_text (o : option string) : bool := match o with Some (String _ _) => true | _ => false end.

Definition persistCompactionOutcome (sid : string) (kind : KnowledgeCommandKind) (lastRunAt : string) (compaction : Compaction) :
    M KWorld ((KnowledgeCommandRuntimeEventRecord * KnowledgeCommandSummaryRecord) + string) :=
  in_transaction (
    continuationCreatedAt ← (if is_text (kc_continuationSummary compaction) then t ← k_nowIso; mret (Some t) else mret None : M KWorld (option string));
    event ← KEvents_save sid "compaction"
      (JObj [("commandKind", JStr (kind_text kind)); ("attempted", JBool (kc_attempted compaction)); ("overflow", JBool (kc_overflow compaction));
             ("compacted", JBool (kc_compacted compaction));
             ("continuationSummaryGeneratedInMemory", JBool (is_text (kc_continuationSummary compaction)));
             ("continuationCreatedAt", match continuationCreatedAt with Some t => JStr t | None => JNull end)]) None;
    summary ← KSummary_save (λ now, mkKSummary sid (Some kind) (Some lastRunAt) (kc_attempted compaction) (kc_overflow compaction)
      (kc_compacted compaction) (kc_continuationSummary compaction) continuationCreatedAt (Some (ke_id event)) now);
    mret (event, summary)).

(** ** Resolving a session *)

Definition MAX_PERSISTED_LAST_INPUT_CHARS : nat := 2 * 1000.

(** The ellipsis is one code unit in the source. *)
Definition truncatePersistedLastInput (input : string) : string :=
  if (String.length input <=? MAX_PERSISTED_LAST_INPUT_CHARS)%nat then input
  else
    let kept := String.substring 0 MAX_PERSISTED_LAST_INPUT_CHARS input in
    kept +:+ "… [truncated " +:+ pretty (String.length input - String.length kept) +:+ " chars]".

Definition buildUpdatedSessionRecord (session : KnowledgeCommandSessionRecord) (kind : KnowledgeCommandKind) (prompt : string) (compacted : bool) :
    M KWorld KnowledgeCommandSessionRecord :=
  now ← k_nowIso;
  mret (mkKSession (k_sessionId session) (k_repoRoot session) (k_status session) (Some kind) (Some (truncatePersistedLastInput prompt)) compacted
    (Some now) (k_createdAt session) now).

Definition workflow_summary (session : KnowledgeCommandSessionRecord) (prompt : string) : list string :=
  filter (λ line, line ≠ "")
    [match k_lastInput session with
     | Some (String c t) => "previous input: " +:+ String c t
     | _ => ""
     end;
     "prompt: " +:+ prompt; "prompt length: " +:+ pretty (String.length prompt)].

Definition runCompactionPreflight (session : KnowledgeCommandSessionRecord) (prompt : string) : M KWorld Compaction :=
  let result := compactSessionContext (mkCompaction (k_sessionId session) (workflow_summary session prompt) [] None None None None) in
  auto ← gets (λ w, kw_autoCompaction w or_else false);
  mret (mkKCompaction true (cr_overflow result) (auto && cr_overflow result) (if auto : bool then cr_continuationSummary result else None)).

Record Persistence : Type := mkPersistence { p_attempted : bool; p_persisted : bool; p_warning : option string; p_eventId : option string }.

Definition persistPostflight (session : KnowledgeCommandSessionRecord) (kind : KnowledgeCommandKind) (prompt : string) (compaction : Compaction) :
    M KWorld (KnowledgeCommandSessionRecord * Persistence) :=
  updated ← buildUpdatedSessionRecord session kind prompt (kc_compacted compaction);
  KSessions_save updated;;
  persistence ← persistCompactionOutcome (k_sessionId updated) kind (k_lastRunAt updated or_else k_updatedAt updated) compaction;
  match persistence with
  | inr reason => mret (updated, mkPersistence true false (Some ("Cross-surface persistence failed: " +:+ reason)) None)
  | inl (event, _) => mret (updated, mkPersistence true true None (Some (ke_id event)))
  end.

(** What an ok result carries. *)
Record Resolved : Type := mkKResolved {
  rs_session : KnowledgeCommandSessionRecord;
  rs_resumed : bool;
  rs_overflow : bool;
  rs_compacted : bool;
  rs_generated : bool;
  rs_summaryPersisted : bool;
  rs_persistence : Persistence;
}.

Definition run_session (session : KnowledgeCommandSessionRecord) (resumed : bool) (kind : KnowledgeCommandKind) (prompt : string) :
    M KWorld (Resolved + string) :=
  compaction ← runCompactionPreflight session prompt;
  postflight ← persistPostflight session kind prompt compaction;
  let generated := is_text (kc_continuationSummary compaction) in
  mret (inl (mkKResolved postflight.1 resumed (kc_overflow compaction) (kc_compacted compaction) generated
    (generated && p_persisted postflight.2) postflight.2)).

Definition resolveSession (repoRoot : string) (kind : KnowledgeCommandKind) (prompt : string) (resumeSessionId : option string) :
    M KWorld (Resolved + string) :=
  match trim <$> resumeSessionId with
  | Some (String c t) =>
    let requested := String c t in
    existing ← KSessions_findById requested;
    match existing with
    | None => mret (inr ("Knowledge session '" +:+ requested +:+ "' was not found."))
    | Some session =>
      if decide (k_repoRoot session ≠ repoRoot)
      then mret (inr ("Knowledge session '" +:+ requested +:+ "' belongs to a different repository and cannot be resumed here."))
      else if decide (k_status session ≠ ks_active)
      then mret (inr ("Knowledge session '" +:+ requested +:+ "' is not resumable because it is '" +:+ knowledge_status_name (k_status session) +:+ "'."))
      else run_session session true kind prompt
    end
  | _ => created ← KSessions_create repoRoot; run_session created false kind prompt
  end.
End knowledge.

(** ** The tables stay linked *)

(** Events and summaries belong to stored sessions, and a summary names an event
    of its own session. *)
Definition linked (t : KnowledgeTables) : Prop :=
  (∀ e, e ∈ kt_events t → has_key k_sessionId (ke_knowledgeSessionId e) (kt_sessions t) = true) ∧
  (∀ x, x ∈ kt_summaries t → has_key k_sessionId (kx_knowledgeSessionId x) (kt_sessions t) = true ∧
     ∃ e, e ∈ kt_events t ∧ kx_compactionEventId x = Some (ke_id e) ∧ ke_knowledgeSessionId e = kx_knowledgeSessionId x).

Lemma elem_of_upsert {R : Type} (key : R → string) r rows x : x ∈ upsert_row key r rows → x = r ∨ x ∈ rows.
Proof.
  induction rows as [|y rows IH]; simpl; [by intros ->%list_elem_of_singleton; left|]. case_decide; intros [->|Hx]%elem_of_cons; [by left|right; by right| |].
  - right. by left.
  - destruct (IH Hx); [by left|right; by right].
Qed.

(** What persisting an outcome leaves: both rows, or none. *)
Definition persisted_rows (sid : string) (t t' : KnowledgeTables) (eventId : option string) : Prop :=
  kt_sessions t' = kt_sessions t ∧
  match eventId with
  | Some id =>
    ∃ event summary, ke_id event = id ∧ ke_knowledgeSessionId event = sid ∧ kx_knowledgeSessionId summary = sid ∧
      kx_compactionEventId summary = Some id ∧ kt_events t' = kt_events t ++ [event] ∧
      kt_summaries t' = upsert_row kx_knowledgeSessionId summary (kt_summaries t)
  | None => kt_events t' = kt_events t ∧ kt_summaries t' = kt_summaries t
  end.

Lemma persisted_linked sid t t' eventId : linked t → has_key k_sessionId sid (kt_sessions t) = true → persisted_rows sid t t' eventId → linked t'.
Proof.
  intros [He Hx] Hsid [Hs Hrows]. destruct eventId as [id|].
  - destruct Hrows as (event & summary & Hid & Hev & Hsum & Hlink & Hevents & Hsummaries). unfold linked. rewrite Hs, Hevents, Hsummaries. split.
    + intros e [Hin|Hin]%elem_of_app; [by apply He|]. apply list_elem_of_singleton in Hin as ->. by rewrite Hev.
    + intros x [->|Hin]%elem_of_upsert.
      * rewrite Hsum. split; [done|]. exists event. split_and!; [apply elem_of_app; right; by apply list_elem_of_singleton|congruence|congruence].
      * destruct (Hx x Hin) as [Hk (e & Hin' & Hrest)]. split; [done|]. exists e. split; [apply elem_of_app; by left|done].
  - destruct Hrows as [Hevents Hsummaries]. unfold linked. by rewrite Hs, Hevents, Hsummaries.
Qed.

Section laws.
Context `{Env}.

Lemma persist_run sid kind lastRunAt compaction w :
  references_session sid w = true →
  ∃ r w', persistCompactionOutcome sid kind lastRunAt compaction w = (Ret r, w') ∧
    persisted_rows sid (kw_tables w) (kw_tables w') (match r with inl (event, _) => Some (ke_id event) | inr _ => None end) ∧
    (r = inr (UNIQUE_ERROR "knowledge_command_runtime_events") ∨ ∃ p, r = inl p).
Proof.
  intros Href. unfold persistCompactionOutcome, in_transaction.
  set (body := mbind _ _). destruct (body w) as [[[event summary]|e] w'] eqn:E.
  - eexists _, _. split; [reflexivity|]. split; [|right; by eexists]. revert E. unfold body, KEvents_save, KSummary_save, insert_event, upsert_summary.
    destruct (is_text (kc_continuationSummary compaction)); unfold mbind, M_bind, mret, M_ret; simpl; unfold references_session in *; simpl;
      destruct (has_key ke_id _ _); try done; rewrite Href; simpl; rewrite Href; intros [= <- <- <-]; (split; [done|]); simpl;
      eexists (mkKEvent _ _ _ _ _), (mkKSummary _ _ _ _ _ _ _ _ _ _); split_and!; reflexivity.
  - eexists _, _. split; [reflexivity|]. split; [by split_and!|]. left. f_equal. revert E. unfold body, KEvents_save, KSummary_save, insert_event, upsert_summary.
    destruct (is_text (kc_continuationSummary compaction)); unfold mbind, M_bind, mret, M_ret; simpl; unfold references_session in *; simpl;
      destruct (has_key ke_id _ _); [by intros [= <- _]| |by intros [= <- _]|]; rewrite Href; simpl; rewrite Href; done.
Qed.

Definition with_sessions (rows : list KnowledgeCommandSessionRecord) (t : KnowledgeTables) : KnowledgeTables :=
  mkKTables rows (kt_events t) (kt_summaries t).

Lemma save_linked r t : linked t → linked (with_sessions (upsert_row k_sessionId r (kt_sessions t)) t).
Proof.
  intros [He Hx]. split; simpl; [intros e Hin; by apply upsert_has_key, He|].
  intros x Hin. destruct (Hx x Hin) as [Hk Hlink]. split; [by apply upsert_has_key|done].
Qed.

(** The answer of a command that ran in a session. *)
Definition ran (session : KnowledgeCommandSessionRecord) (resumed : bool) (kind : KnowledgeCommandKind) (prompt : string)
    (t t' : KnowledgeTables) (r : Resolved) : Prop :=
  let u := rs_session r in
  rs_resumed r = resumed ∧
  k_sessionId u = k_sessionId session ∧ k_repoRoot u = k_repoRoot session ∧ k_status u = k_status session ∧ k_createdAt u = k_createdAt session ∧
  k_lastCommandKind u = Some kind ∧ k_lastInput u = Some (truncatePersistedLastInput prompt) ∧ k_lastCompacted u = rs_compacted r ∧
  persisted_rows (k_sessionId session) (with_sessions (upsert_row k_sessionId u (kt_sessions t)) t) t' (p_eventId (rs_persistence r)) ∧
  (p_persisted (rs_persistence r) = true ↔ is_Some (p_eventId (rs_persistence r))) ∧
  rs_summaryPersisted r = (rs_generated r && p_persisted (rs_persistence r)).

Lemma persistPostflight_run session kind prompt compaction w :
  ∃ u p w', persistPostflight session kind prompt compaction w = (Ret (u, p), w') ∧
    k_sessionId u = k_sessionId session ∧ k_repoRoot u = k_repoRoot session ∧ k_status u = k_status session ∧ k_createdAt u = k_createdAt session ∧
    k_lastCommandKind u = Some kind ∧ k_lastInput u = Some (truncatePersistedLastInput prompt) ∧ k_lastCompacted u = kc_compacted compaction ∧
    persisted_rows (k_sessionId session) (with_sessions (upsert_row k_sessionId u (kt_sessions (kw_tables w))) (kw_tables w)) (kw_tables w') (p_eventId p) ∧
    (p_persisted p = true ↔ is_Some (p_eventId p)).
Proof.
  unfold persistPostflight. erewrite bind_run by reflexivity. set (u := mkKSession _ _ _ _ _ _ _ _ _).
  erewrite bind_run by reflexivity. set (w1 := set_tables _ _).
  destruct (persist_run (k_sessionId u) kind (k_lastRunAt u or_else k_updatedAt u) compaction w1) as (p & w' & Hp & Hrows & _);
    [apply (upsert_keys k_sessionId u)|].
  rewrite (bind_run _ _ _ _ _ Hp).
  destruct p as [[event summary]|reason]; eexists u, _, w'; (split; [reflexivity|]); (split_and!; [reflexivity..|exact Hrows|]).
  - split; [by eexists|done].
  - split; [done|by intros []].
Qed.

Lemma run_session_run session resumed kind prompt w :
  ∃ r w', run_session session resumed kind prompt w = (Ret (inl r), w') ∧ ran session resumed kind prompt (kw_tables w) (kw_tables w') r.
Proof.
  unfold run_session, runCompactionPreflight.
  generalize (compactSessionContext (mkCompaction (k_sessionId session) (workflow_summary session prompt) [] None None None None)). intros result.
  erewrite bind_run by reflexivity. set (compaction := mkKCompaction _ _ _ _).
  destruct (persistPostflight_run session kind prompt compaction w) as (u & p & w' & Hrun & Hpost).
  rewrite (bind_run _ _ _ _ _ Hrun). eexists _, w'. split; [reflexivity|]. unfold ran. cbn [fst snd rs_session rs_persistence rs_resumed].
  destruct Hpost as (H1 & H2 & H3 & H4 & H5 & H6 & H7 & H8 & H9). split_and!; done || apply H9.
Qed.

Lemma ran_linked session resumed kind prompt t t' r : ran session resumed kind prompt t t' r → linked t → linked t'.
Proof.
  intros (_ & Hid & _ & _ & _ & _ & _ & _ & Hrows & _) Hl. eapply persisted_linked; [by apply save_linked| |exact Hrows].
  simpl. rewrite <-Hid. apply upsert_keys.
Qed.

(** Which rows of the sessions and of the outcome a run leaves. *)
Lemma ran_rows session resumed kind prompt t t' r : ran session resumed kind prompt t t' r →
  find_row k_sessionId (k_sessionId session) (kt_sessions t') = Some (rs_session r) ∧
  (∀ sid, sid ≠ k_sessionId session → find_row k_sessionId sid (kt_sessions t') = find_row k_sessionId sid (kt_sessions t)) ∧
  persisted_rows (k_sessionId session) (with_sessions (kt_sessions t') t) t' (p_eventId (rs_persistence r)).
Proof.
  intros (_ & Hid & _ & _ & _ & _ & _ & _ & Hrows & _). pose proof (proj1 Hrows) as Hs. simpl in Hs. rewrite <-Hs in Hrows.
  split_and!; [|intros sid Hne|exact Hrows]; rewrite Hs; [rewrite <-Hid; apply find_upsert_eq|apply find_upsert_ne; congruence].
Qed.

(** A stored session of the repository that is still active. *)
Definition resumable (repoRoot sid : string) (t : KnowledgeTables) : Prop :=
  ∃ session, find_row k_sessionId sid (kt_sessions t) = Some session ∧ k_repoRoot session = repoRoot ∧ k_status session = ks_active.

(** A refusal leaves the state alone; it remains to see why it was one. *)
Ltac refuse w := eexists _, w; split; [reflexivity|]; split; [done|]; split; [done|]; eexists; split_and!; [done|done|].

(** Resolving a session returns. *)
Lemma resolveSession_returns repoRoot kind prompt resume w :
  ∃ r w', resolveSession repoRoot kind prompt resume w = (Ret r, w').
Proof.
  assert (∀ session resumed w, ∃ r w', run_session session resumed kind prompt w = (Ret r, w')) as Hrun.
  { intros session resumed w0. destruct (run_session_run session resumed kind prompt w0) as (r & w' & Hr & _).
    by exists (inl r), w'. }
  assert (∃ r w', (created ← KSessions_create repoRoot; run_session created false kind prompt) w = (Ret r, w')) as Hfresh.
  { assert (∃ u w1, KSessions_create repoRoot w = (Ret u, w1)) as (u & w1 & Hc)
      by (destruct (KSessions_create repoRoot w) as [[u|e] w1] eqn:E; [by eexists _, _|done]).
    rewrite (bind_run _ _ w u w1 Hc). apply Hrun. }
  unfold resolveSession. destruct (trim <$> resume) as [[|c t]|]; [done| |done].
  erewrite bind_run by reflexivity. destruct (find_row _ _ _) as [session|]; [|by eexists _, _].
  do 2 (case_decide; [by eexists _, _|]). apply Hrun.
Qed.

(** Resolving the session of a knowledge command never throws.  It is refused
    exactly when an id was asked for that names no active session of this
    repository, and then no table changes.  Otherwise the session asked for, or a
    new one, is stored with the command and its bounded input, no other session
    changes, and the event and the summary of the run are stored together or not
    at all; in every case events and summaries stay linked. *)
Theorem knowledge_session_resolved repoRoot kind prompt resume w :
  ∃ r w', resolveSession repoRoot kind prompt resume w = (Ret r, w') ∧
    (linked (kw_tables w) → linked (kw_tables w')) ∧
    match r with
    | inr _ => kw_tables w' = kw_tables w ∧ ∃ sid, trim <$> resume = Some sid ∧ sid ≠ "" ∧ ¬ resumable repoRoot sid (kw_tables w)
    | inl r =>
      let u := rs_session r in
      (if rs_resumed r then trim <$> resume = Some (k_sessionId u) ∧ resumable repoRoot (k_sessionId u) (kw_tables w)
       else k_sessionId u = draw_id "knowledge-session" (kw_draws w)) ∧
      k_repoRoot u = repoRoot ∧ k_status u = ks_active ∧ k_lastCommandKind u = Some kind ∧ k_lastInput u = Some (truncatePersistedLastInput prompt) ∧
      find_row k_sessionId (k_sessionId u) (kt_sessions (kw_tables w')) = Some u ∧
      (∀ sid, sid ≠ k_sessionId u → find_row k_sessionId sid (kt_sessions (kw_tables w')) = find_row k_sessionId sid (kt_sessions (kw_tables w))) ∧
      (p_persisted (rs_persistence r) = true ↔ is_Some (p_eventId (rs_persistence r))) ∧
      persisted_rows (k_sessionId u) (with_sessions (kt_sessions (kw_tables w')) (kw_tables w)) (kw_tables w') (p_eventId (rs_persistence r))
    end.
Proof.
  unfold resolveSession. assert ((∃ c t, trim <$> resume = Some (String c t)) ∨ ∀ (A : Type) (f : ascii → string → A) (d : A),
    match trim <$> resume with Some (String c t) => f c t | _ => d end = d) as [(c & t & Hresume)|Hfresh].
  { destruct (trim <$> resume) as [[|c t]|]; [by right|left; by exists c, t|by right]. }
  - rewrite Hresume. erewrite bind_run by reflexivity.
    destruct (find_row k_sessionId (String c t) (kt_sessions (kw_tables w))) as [session|] eqn:Hfind.
    2: { refuse w. intros (s & Hs & _). congruence. }
    destruct (decide (k_repoRoot session ≠ repoRoot)) as [Hrepo|Hrepo].
    { refuse w. intros (s & Hs & Hr & _). congruence. }
    destruct (decide (k_status session ≠ ks_active)) as [Hst|Hst].
    { refuse w. intros (s & Hs & _ & Ha). congruence. }
    apply dec_stable in Hrepo, Hst. destruct (run_session_run session true kind prompt w) as (r & w' & Hrun & Hran).
    exists (inl r), w'. split; [done|]. split; [by eapply ran_linked|]. destruct (ran_rows _ _ _ _ _ _ _ Hran) as (Hf & Ho & Hp).
    assert (k_sessionId session = String c t) as Hsid by (by apply find_row_Some in Hfind as [_ ?]).
    destruct Hran as (-> & Hid & H2 & H3 & _ & H5 & H6 & _ & _ & H9 & _). cbv zeta. rewrite Hid, H2, H3.
    split_and!; [congruence|rewrite Hsid; by exists session|done..].
  - rewrite Hfresh. set (created := mkKSession (draw_id "knowledge-session" (kw_draws w)) repoRoot ks_active None None false None
      (clock (kw_ticks w)) (clock (kw_ticks w))).
    set (w1 := mkKWorld (with_sessions (upsert_row k_sessionId created (kt_sessions (kw_tables w))) (kw_tables w)) (kw_autoCompaction w)
      (S (kw_ticks w)) (S (kw_draws w))).
    rewrite (bind_run _ _ w created w1) by reflexivity.
    destruct (run_session_run created false kind prompt w1) as (r & w' & Hrun & Hran). exists (inl r), w'. split; [done|].
    split; [intros Hl; eapply ran_linked; [exact Hran|]; by apply (save_linked created)|].
    destruct (ran_rows _ _ _ _ _ _ _ Hran) as (Hf & Ho & Hp). destruct Hran as (-> & Hid & H2 & H3 & _ & H5 & H6 & _ & _ & H9 & _).
    cbv zeta. rewrite Hid, H2, H3. split_and!; [done..| |done|done]. intros sid Hne. rewrite Ho by done. by apply find_upsert_ne.
Qed.
End laws.

(** At most three lines are ever handed to the compaction, which keeps six: a
    session that is recorded as compacted lost nothing. *)
Lemma knowledge_compaction_keeps_all session prompt :
  cr_trimmed (compactSessionContext (mkCompaction (k_sessionId session) (workflow_summary session prompt) [] None None None None)) =
  workflow_summary session prompt.
Proof.
  unfold compactSessionContext. simpl. destruct (negb _); [done|]. simpl. unfold slice_tail.
  assert (length (workflow_summary session prompt) ≤ 3) as Hl by (unfold workflow_summary; etransitivity; [apply length_filter|done]).
  assert (length (workflow_summary session prompt) - 6 = 0) as -> by lia. done.
Qed.

#[local] Instance demo_env : Env := {| clock := λ _, "T"; random36 := λ n, pretty n |}.

Definition knowledge_world : KWorld :=
  mkKWorld (mkKTables [mkKSession "k1" "/repo" ks_active None None false None "T" "T"; mkKSession "k2" "/repo" ks_closed None None false None "T" "T"] [] [])
    (Some true) 0 0.

Example knowledge_demo :
  (∃ r w', resolveSession "/repo" ask "where?" (Some " k1 ") knowledge_world = (Ret (inl r), w') ∧ rs_resumed r = true ∧
     length (kt_events (kw_tables w')) = 1 ∧ length (kt_summaries (kw_tables w')) = 1) ∧
  fst (resolveSession "/repo" ask "where?" (Some "k2") knowledge_world) =
    Ret (inr "Knowledge session 'k2' is not resumable because it is 'closed'.").
Proof. split; [eexists _, _; vm_compute; done|vm_compute; reflexivity]. Qed.
