(* ===== verification/Chunker.v ===== *)
(** * Chunking files for retrieval

    [packages/retrieval/src/semantic/chunker.ts]: a file is cut into chunks at
    its symbols, or into overlapping windows of lines.  Line numbers are
    integers, as the source computes with them, and may be negative where the
    source lets them be.  The hash function is a parameter; the files are read
    from the file system of [Files]. *)

From S2P Require Import Prelude Files ScanPaths.
From Stdlib Require Import Ascii String ZArith Sorted.
From stdpp Require Import prelude list strings gmap.
Set Default Goal Selector "!".
Set Default Proof Using "Type".
Set Warnings "-clear-no-such-hyp".
#[local] Arguments String.append : simpl nomatch.
#[local] Open Scope Z_scope.

Definition DEFAULT_CHUNK_MAX_LINES : Z := 60.
Definition DEFAULT_CHUNK_OVERLAP_LINES : Z := 8.

Record ChunkerOptions : Type := mkChunkerOptions { maxLines : option Z; overlapLines : option Z }.

Inductive SymbolKind : Type :=
  k_function | k_class | k_method | k_interface | k_type | k_const | k_namespace | k_unknown.

Record IndexedSymbol : Type := mkSymbol {
  s_id : string;
  s_fileId : string;
  s_name : string;
  s_kind : SymbolKind;
  s_lineStart : Z;
  s_lineEnd : Z;
}.

Record ChunkInput : Type := mkChunk {
  ch_fileId : string;
  ch_filePath : string;
  ch_symbolId : option string;
  ch_lineStart : Z;
  ch_lineEnd : Z;
  ch_content : string;
  ch_language : string;
}.

(** [Math.ceil(text.length / 4)]. *)
Definition estimateTokens (text : string) : nat := ((String.length text + 3) / 4)%nat.

Definition contentHash (sha256 : string → string) (content : string) : string :=
  String.substring 0 16 (sha256 content).

(** [xs.slice(a, b)]: a negative position counts from the end. *)
Definition slice_index {A : Type} (xs : list A) (i : Z) : nat :=
  let n := Z.of_nat (length xs) in
  Z.to_nat (if i <? 0 then Z.max (n + i) 0 else Z.min i n).

Definition js_slice {A : Type} (xs : list A) (a b : Z) : list A :=
  take (slice_index xs b - slice_index xs a)%nat (drop (slice_index xs a) xs).

Definition join_lines (lines : list string) : string := Prelude.join (String LF "") lines.

(** A chunk, unless it would be blank. *)
Definition chunk_of (file : IndexedFile) (path : string) (symbolId : option string) (from to : Z) (lines : list string) :
    list ChunkInput :=
  let content := join_lines (js_slice lines from to) in
  if (0 <? String.length (trim content))%nat
  then [mkChunk (f_id file) path symbolId (from + 1) to content (f_language file)]
  else [].

(** ** By symbols *)

(** The gap before a symbol and the symbol itself; the loop carries the cursor. *)
Fixpoint symbol_chunks (file : IndexedFile) (path : string) (lines : list string) (symbols : list IndexedSymbol) (cursor : Z) :
    list ChunkInput :=
  let n := Z.of_nat (length lines) in
  match symbols with
  | [] => if cursor <? n then chunk_of file path None cursor n lines else []
  | symbol :: rest =>
    let symStart := s_lineStart symbol - 1 in
    let symEnd := Z.min (s_lineEnd symbol) n in
    (if cursor <? symStart then chunk_of file path None cursor symStart lines else [])
    ++ chunk_of file path (Some (s_id symbol)) symStart symEnd lines
    ++ symbol_chunks file path lines rest symEnd
  end.

Definition chunkBySymbols (file : IndexedFile) (path : string) (lines : list string) (symbols : list IndexedSymbol) :
    list ChunkInput :=
  symbol_chunks file path lines (js_sort (λ a b, s_lineStart a <=? s_lineStart b) symbols) 0.

(** ** By windows *)

(** [None] when the fuel runs out. *)
Fixpoint window_chunks (fuel : nat) (file : IndexedFile) (path : string) (lines : list string) (max overlap start : Z) :
    option (list ChunkInput) :=
  let n := Z.of_nat (length lines) in
  match fuel with
  | O => None
  | S fuel =>
    if start <? n then
      let end_ := Z.min (start + max) n in
      let chunks := chunk_of file path None start end_ lines in
      if n <=? end_ then Some chunks
      else app chunks <$> window_chunks fuel file path lines max overlap (end_ - overlap)
    else Some []
  end.

(** One iteration more than the lines is enough when a window is longer than the
    overlap ([windows_terminate]). *)
Definition chunkByWindow (file : IndexedFile) (path : string) (lines : list string) (options : option ChunkerOptions) :
    option (list ChunkInput) :=
  let max := (options ≫= maxLines) or_else DEFAULT_CHUNK_MAX_LINES in
  let overlap := (options ≫= overlapLines) or_else DEFAULT_CHUNK_OVERLAP_LINES in
  window_chunks (S (length lines)) file path lines max overlap 0.

(** The chunks of the text of a file. *)
Definition chunkContent (file : IndexedFile) (path content : string) (symbols : list IndexedSymbol)
    (options : option ChunkerOptions) : option (list ChunkInput) :=
  let lines := split_on (String LF "") content in
  match filter (λ s, s_fileId s = f_id file) symbols with
  | [] => chunkByWindow file path lines options
  | fileSymbols => Some (chunkBySymbols file path lines fileSymbols)
  end.

(** [Some] of the chunks, [None] when the window loop does not end.  A file that
    cannot be read has no chunks. *)
Definition chunkFile (cwd : Path) (repoRoot : string) (file : IndexedFile) (symbols : list IndexedSymbol)
    (options : option ChunkerOptions) (fs : FileSystem) : option (list ChunkInput) :=
  match resolveIndexedFileAbsolutePath cwd repoRoot file with
  | None => Some []
  | Some absolutePath =>
    match toRepoRelativePath cwd repoRoot absolutePath with
    | None => Some []
    | Some canonicalFilePath =>
      match fst (readFileSync (path_resolve cwd absolutePath) fs) with
      | Throw _ => Some []
      | Ret content => chunkContent file canonicalFilePath content symbols options
      end
    end
  end.

Definition chunkFiles (cwd : Path) (repoRoot : string) (files : list IndexedFile) (symbols : list IndexedSymbol)
    (options : option ChunkerOptions) (fs : FileSystem) : option (list ChunkInput) :=
  mjoin <$> mapM (λ file, chunkFile cwd repoRoot file symbols options fs) files.

(** ** Blank text *)

Fixpoint blank (s : string) : bool :=
  match s with
  | EmptyString => true
  | String c s => is_ws c && blank s
  end.

Lemma blank_append s t : blank (s +:+ t) = blank s && blank t.
Proof. induction s as [|c s IH]; simpl; [done|]. by rewrite IH, andb_assoc. Qed.

Lemma trimEnd_nil s : trimEnd s = "" ↔ blank s = true.
Proof.
  induction s as [|c s IH]; simpl; [done|]. rewrite andb_true_iff, <-IH. destruct (trimEnd s) as [|d t] eqn:E.
  - destruct (is_ws c); naive_solver.
  - split; [done|]. by intros [_ ?].
Qed.

Lemma trim_nil s : trim s = "" ↔ blank s = true.
Proof.
  unfold trim. rewrite trimEnd_nil. induction s as [|c s IH]; [done|]. cbn [trimStart blank].
  destruct (is_ws c) eqn:E; [done|]. cbn [blank]. by rewrite E.
Qed.

Lemma length_0_string s : (0 <? String.length s)%nat = false ↔ s = "".
Proof. destruct s; simpl; [done|]. split; [|done]. intros ?%Nat.ltb_ge. lia. Qed.

Lemma join_not_blank lines l : l ∈ lines → blank l = false → blank (join_lines lines) = false.
Proof.
  unfold join_lines. intros Hl Hb. induction lines as [|x [|y ls] IH]; [by apply elem_of_nil in Hl| |].
  - by apply list_elem_of_singleton in Hl as ->.
  - change (Prelude.join (String LF "") (x :: y :: ls)) with (x +:+ String LF "" +:+ Prelude.join (String LF "") (y :: ls)).
    rewrite !blank_append. apply elem_of_cons in Hl as [->|Hl]; [by rewrite Hb|]. rewrite (IH Hl). by rewrite !andb_false_r.
Qed.

(** ** Chunks cover their file *)

(** The chunk shows line [i] (from 0), and its content is the lines it names. *)
Definition shows (lines : list string) (i : nat) (c : ChunkInput) : Prop :=
  ch_lineStart c <= Z.of_nat i + 1 <= ch_lineEnd c ∧
  ch_content c = join_lines (js_slice lines (ch_lineStart c - 1) (ch_lineEnd c)).

Definition text_line (lines : list string) (i : nat) : Prop := ∃ l, lines !! i = Some l ∧ blank l = false.

Lemma js_slice_elem {A : Type} (xs : list A) a b i x :
  0 <= a <= Z.of_nat i → Z.of_nat i < b → xs !! i = Some x → x ∈ js_slice xs a b.
Proof.
  intros Ha Hb Hx. apply lookup_lt_Some in Hx as Hlt. unfold js_slice, slice_index.
  destruct (Z.ltb_spec a 0) as [|_]; [lia|]. destruct (Z.ltb_spec b 0) as [|_]; [lia|].
  apply list_elem_of_lookup. exists (i - Z.to_nat (Z.min a (Z.of_nat (length xs))))%nat.
  rewrite lookup_take_lt by lia. rewrite lookup_drop. rewrite <-Hx. f_equal. lia.
Qed.

Lemma chunk_of_shows file path sym a b lines i :
  0 <= a <= Z.of_nat i → Z.of_nat i < b → text_line lines i →
  ∃ c, c ∈ chunk_of file path sym a b lines ∧ shows lines i c.
Proof.
  intros Ha Hb (l & Hl & Hblank). unfold chunk_of.
  assert (blank (join_lines (js_slice lines a b)) = false) as Hnb
    by (eapply join_not_blank; [by eapply (js_slice_elem lines a b i)|done]).
  destruct (0 <? String.length (trim (join_lines (js_slice lines a b))))%nat eqn:E.
  - eexists. split; [by apply list_elem_of_singleton|]. split; simpl; [lia|]. by replace (a + 1 - 1) with a by lia.
  - apply length_0_string, trim_nil in E. congruence.
Qed.

Definition wf_symbol (s : IndexedSymbol) : Prop := 1 <= s_lineStart s ∧ 0 <= s_lineEnd s.

Lemma symbol_chunks_cover file path lines symbols cursor i :
  Forall wf_symbol symbols → 0 <= cursor <= Z.of_nat i → text_line lines i →
  ∃ c, c ∈ symbol_chunks file path lines symbols cursor ∧ shows lines i c.
Proof.
  intros Hs. revert cursor. induction Hs as [|s ss [Hs1 Hs2] Hs IH]; intros cursor Hc Hi; cbn [symbol_chunks].
  - assert (Z.of_nat i < Z.of_nat (length lines)) as Hlt by (destruct Hi as (l & Hl & _); apply lookup_lt_Some in Hl; lia).
    destruct (Z.ltb_spec cursor (Z.of_nat (length lines))); [|lia]. by apply chunk_of_shows.
  - set (symEnd := Z.min (s_lineEnd s) (Z.of_nat (length lines))).
    destruct (decide (Z.of_nat i < s_lineStart s - 1)) as [Hgap|Hgap].
    + destruct (Z.ltb_spec cursor (s_lineStart s - 1)); [|lia].
      destruct (chunk_of_shows file path None cursor (s_lineStart s - 1) lines i) as (c & Hin & Hsh); [lia..|done|].
      exists c. split; [|done]. apply elem_of_app. by left.
    + destruct (decide (Z.of_nat i < symEnd)) as [Hsym|Hafter].
      * destruct (chunk_of_shows file path (Some (s_id s)) (s_lineStart s - 1) symEnd lines i) as (c & Hin & Hsh); [lia..|done|].
        exists c. split; [|done]. apply elem_of_app. right. apply elem_of_app. by left.
      * destruct (IH symEnd) as (c & Hin & Hsh); [lia|done|]. exists c. split; [|done].
        apply elem_of_app. right. apply elem_of_app. by right.
Qed.

(** A window longer than the overlap moves forward, so the loop ends, and the
    windows leave no line out. *)
Lemma windows_terminate fuel file path lines max overlap start :
  0 <= overlap < max → 0 <= start → (1 ≤ fuel)%nat → Z.of_nat (length lines) - start < Z.of_nat fuel →
  ∃ chunks, window_chunks fuel file path lines max overlap start = Some chunks ∧
    ∀ i, start <= Z.of_nat i → text_line lines i → ∃ c, c ∈ chunks ∧ shows lines i c.
Proof.
  intros Hov. revert start. induction fuel as [|fuel IH]; intros start Hs Hfuel Hf; cbn [window_chunks]; [lia|].
  assert (∀ i, text_line lines i → Z.of_nat i < Z.of_nat (length lines)) as Hlt
    by (intros i (l & Hl & _); apply lookup_lt_Some in Hl; lia).
  destruct (Z.ltb_spec start (Z.of_nat (length lines))) as [Hin|Hout].
  2: { exists []. split; [done|]. intros i Hi Ht. specialize (Hlt i Ht). lia. }
  set (e := Z.min (start + max) (Z.of_nat (length lines))).
  assert (∀ i, start <= Z.of_nat i → Z.of_nat i < e → text_line lines i →
    ∃ c, c ∈ chunk_of file path None start e lines ∧ shows lines i c) as Hwin by (intros i H1 H2; apply chunk_of_shows; lia).
  destruct (Z.leb_spec (Z.of_nat (length lines)) e) as [Hend|Hmore].
  - eexists. split; [reflexivity|]. intros i Hi Ht. apply Hwin; [done| |done]. specialize (Hlt i Ht). lia.
  - destruct (IH (e - overlap)) as (chunks & -> & Hcov); [lia..|]. eexists. split; [reflexivity|]. intros i Hi Ht.
    destruct (decide (Z.of_nat i < e)) as [Hie|Hie].
    + destruct (Hwin i Hi Hie Ht) as (c & Hc & Hsh). exists c. split; [apply elem_of_app; by left|done].
    + destruct (Hcov i) as (c & Hc & Hsh); [lia|done|]. exists c. split; [apply elem_of_app; by right|done].
Qed.

Definition options_ok (options : option ChunkerOptions) : Prop :=
  let max := (options ≫= maxLines) or_else DEFAULT_CHUNK_MAX_LINES in
  let overlap := (options ≫= overlapLines) or_else DEFAULT_CHUNK_OVERLAP_LINES in
  0 <= overlap < max.

Lemma content_covered file path content symbols options :
  Forall wf_symbol symbols → options_ok options →
  let lines := split_on (String LF "") content in
  ∃ chunks, chunkContent file path content symbols options = Some chunks ∧
    ∀ i, text_line lines i → ∃ c, c ∈ chunks ∧ shows lines i c.
Proof.
  intros Hsym Hopt lines. unfold chunkContent. fold lines.
  assert (Forall wf_symbol (filter (λ s, s_fileId s = f_id file) symbols)) as Hfs.
  { rewrite Forall_forall in *. intros s [_ Hs]%list_elem_of_filter. by apply Hsym. }
  destruct (filter _ symbols) as [|s ss].
  - destruct (windows_terminate (S (length lines)) file path lines _ _ 0 Hopt) as (chunks & Hrun & Hcov); [lia..|].
    exists chunks. split; [exact Hrun|]. intros i Hi. apply Hcov; [lia|done].
  - eexists. split; [reflexivity|]. intros i Hi. apply symbol_chunks_cover; [by rewrite js_sort_perm|lia|done].
Qed.

(** Every chunk carries the file and the path it was asked for. *)
Lemma chunk_of_path file path sym a b lines c : c ∈ chunk_of file path sym a b lines → ch_filePath c = path ∧ ch_fileId c = f_id file.
Proof. unfold chunk_of. destruct (_ <? _)%nat; intros Hc; [|by apply elem_of_nil in Hc]. by apply list_elem_of_singleton in Hc as ->. Qed.

Lemma symbol_chunks_path file path lines symbols cursor c :
  c ∈ symbol_chunks file path lines symbols cursor → ch_filePath c = path ∧ ch_fileId c = f_id file.
Proof.
  revert cursor. induction symbols as [|s ss IH]; intros cursor; cbn [symbol_chunks].
  - destruct (_ <? _); [apply chunk_of_path|by intros ?%elem_of_nil].
  - intros [Hc|[Hc|Hc]%elem_of_app]%elem_of_app; [|by eapply chunk_of_path|by eapply IH].
    destruct (_ <? _); [by eapply chunk_of_path|by apply elem_of_nil in Hc].
Qed.

Lemma window_chunks_path fuel file path lines max overlap start chunks c :
  window_chunks fuel file path lines max overlap start = Some chunks → c ∈ chunks → ch_filePath c = path ∧ ch_fileId c = f_id file.
Proof.
  revert start chunks. induction fuel as [|fuel IH]; intros start chunks; cbn [window_chunks]; [done|].
  destruct (start <? _); [|by intros [= <-] ?%elem_of_nil]. destruct (_ <=? _).
  - intros [= <-]. apply chunk_of_path.
  - intros (rest & Hrest & ->)%fmap_Some [Hc|Hc]%elem_of_app; [by eapply chunk_of_path|by eapply IH].
Qed.

Lemma chunkContent_path file path content symbols options chunks c :
  chunkContent file path content symbols options = Some chunks → c ∈ chunks → ch_filePath c = path ∧ ch_fileId c = f_id file.
Proof.
  unfold chunkContent. destruct (filter _ symbols); [by apply window_chunks_path|]. intros [= <-]. apply symbol_chunks_path.
Qed.

(** C24 Chunking a file ends and loses no text: with symbols whose line numbers
    are valid, or with windows longer than their overlap, a file of the
    repository that can be read has chunks that carry its canonical path, and
    every line that is not blank is in the range of a chunk whose content is
    exactly the lines of that range. *)
Theorem chunks_cover_file cwd root file symbols options fs absolute rest content :
  Forall wf_symbol symbols → options_ok options →
  resolveIndexedFileAbsolutePath cwd root file = Some absolute →
  canon cwd absolute = canon cwd root ++ rest → rest ≠ [] →
  fs !! path_resolve cwd absolute = Some (File content) → path_resolve cwd absolute ≠ [] →
  let lines := split_on (String LF "") content in
  ∃ chunks, chunkFile cwd root file symbols options fs = Some chunks ∧
    (∀ c, c ∈ chunks → ch_filePath c = Prelude.join "/" rest ∧ ch_fileId c = f_id file) ∧
    ∀ i, text_line lines i → ∃ c, c ∈ chunks ∧ shows lines i c.
Proof.
  intros Hsym Hopt Habs Hcanon Hne Hfile Hroot lines. unfold chunkFile. rewrite Habs.
  assert (toRepoRelativePath cwd root absolute = Some (Prelude.join "/" rest)) as -> by (apply repo_relative_exact; eauto).
  unfold readFileSync, is_dir. rewrite Hfile. destruct (path_resolve cwd absolute); [done|]. simpl.
  destruct (content_covered file (Prelude.join "/" rest) content symbols options Hsym Hopt) as (chunks & Hrun & Hcov).
  exists chunks. split_and!; [by rewrite Hfile| |done]. intros c. by apply chunkContent_path with (1 := Hrun).
Qed.

Definition demo_file : IndexedFile := mkIndexedFile "f" "src/../a.ts" ".ts" "ts" 0 fs_indexed None None.
Definition demo_symbol (id : string) (kind : SymbolKind) (from to : Z) : IndexedSymbol := mkSymbol id "f" id kind from to.
Definition demo_text : string := join_lines ["import x"; ""; "class A {"; "  m() {}"; "}"; "end"].

Lemma chunks_cover_file_witness :
  ∃ chunks, chunkFile ["home"] "repo" demo_file [demo_symbol "A" k_class 3 5; demo_symbol "m" k_method 4 4] None
      {[ ["home"; "repo"; "a.ts"] := File demo_text ]} = Some chunks ∧
    (ch_filePath <$> chunks) = ["a.ts"; "a.ts"; "a.ts"; "a.ts"] ∧
    (ch_lineStart <$> chunks) = [1; 3; 4; 5] ∧ (ch_lineEnd <$> chunks) = [2; 5; 4; 6] ∧
    ∀ i, text_line (split_on (String LF "") demo_text) i → ∃ c, c ∈ chunks ∧ shows (split_on (String LF "") demo_text) i c.
Proof.
  destruct (chunks_cover_file ["home"] "repo" demo_file [demo_symbol "A" k_class 3 5; demo_symbol "m" k_method 4 4] None
    {[ ["home"; "repo"; "a.ts"] := File demo_text ]} "/home/repo/a.ts" ["a.ts"] demo_text) as (chunks & Hrun & _ & Hcov).
  - do 2 (apply Forall_cons_2; [split; vm_compute; discriminate|]). apply Forall_nil_2.
  - split; done.
  - vm_compute. reflexivity.
  - vm_compute. reflexivity.
  - done.
  - vm_compute. reflexivity.
  - vm_compute. discriminate.
  - exists chunks. vm_compute in Hrun. injection Hrun as <-. split_and!; [reflexivity..|exact Hcov].
Defined.

(** The lines of a class after its last method are chunked twice: the cursor
    falls back to the end of the method. *)
Example nested_symbol_repeats :
  (λ c, (ch_lineStart c, ch_lineEnd c)) <$> chunkBySymbols demo_file "a.ts" ["class A {"; "m() {}"; "n = 1"; "}"]
    [demo_symbol "A" k_class 1 4; demo_symbol "m" k_method 2 2] = [(1, 4); (2, 2); (3, 4)].
Proof. vm_compute. reflexivity. Qed.

(** With an overlap that is not shorter than the window, the loop never ends on a
    file that is longer than a window. *)
Lemma window_overlap_diverges fuel file path lines max overlap start :
  max <= overlap → start + max < Z.of_nat (length lines) → 0 <= max →
  window_chunks fuel file path lines max overlap start = None.
Proof.
  intros Hov Hlt Hmax. revert start Hlt. induction fuel as [|fuel IH]; intros start Hlt; [done|]. cbn [window_chunks].
  destruct (Z.ltb_spec start (Z.of_nat (length lines))); [|lia].
  destruct (Z.leb_spec (Z.of_nat (length lines)) (Z.min (start + max) (Z.of_nat (length lines)))); [lia|].
  rewrite IH; [done|]. lia.
Qed.
