(* ===== verification/Projects.v ===== *)
(** * Scanning a repository for workspaces and files

    [packages/intelligence/src/workspace/detect-projects.ts]: the workspaces of a
    repository are the innermost directories with a package manifest; the files
    of each are collected up to limits of number, depth and size.

    The file system is that of [Files], which has no symbolic links, so the
    branches for links are not taken and [followSymlinks] has no effect.  The
    order of directory entries, the hash function and [localeCompare] are
    parameters; the size of a file is its length. *)

From S2P Require Import Prelude Files ScanPaths SearchTools Chunker.
From Stdlib Require Import Ascii String.
From stdpp Require Import prelude list strings gmap.
Set Default Goal Selector "!".
Set Default Proof Using "Type".
Set Warnings "-clear-no-such-hyp".
#[local] Arguments String.append : simpl nomatch.

Definition IGNORED_DIRECTORIES : list string := [".git"; "node_modules"; ".dh"; "dist"].

Definition INDEXABLE_EXTENSIONS : list (string * string) :=
  [(".ts", "typescript"); (".tsx", "tsx"); (".js", "javascript"); (".jsx", "jsx"); (".json", "json"); (".md", "markdown");
   (".go", "go")].

(** The options as given, and with every field present. *)
Record ScanOptions : Type := mkScanOptions {
  so_maxFiles : option nat;
  so_maxDepth : option nat;
  so_maxFileSizeBytes : option N;
  so_followSymlinks : option bool;
  so_includeExtensions : option (list string);
  so_ignoreDirs : option (list string);
}.

Record RequiredScanOptions : Type := mkRequiredOptions {
  o_maxFiles : nat;
  o_maxDepth : nat;
  o_maxFileSizeBytes : N;
  o_followSymlinks : bool;
  o_includeExtensions : list string;
  o_ignoreDirs : list string;
}.

Definition DEFAULT_SCAN_OPTIONS : RequiredScanOptions :=
  mkRequiredOptions (100 * 100) 32 1048576%N false (fst <$> INDEXABLE_EXTENSIONS) IGNORED_DIRECTORIES.

Definition resolveOptions (options : option ScanOptions) : RequiredScanOptions :=
  let d := DEFAULT_SCAN_OPTIONS in
  mkRequiredOptions
    ((options ≫= so_maxFiles) or_else o_maxFiles d)
    ((options ≫= so_maxDepth) or_else o_maxDepth d)
    ((options ≫= so_maxFileSizeBytes) or_else o_maxFileSizeBytes d)
    ((options ≫= so_followSymlinks) or_else o_followSymlinks d)
    ((options ≫= so_includeExtensions) or_else o_includeExtensions d)
    ((options ≫= so_ignoreDirs) or_else o_ignoreDirs d).

Inductive ScanStopReason : Type :=
  stop_none | max_files_reached | max_depth_reached | max_file_size_scan_stopped | io_error.

#[global] Instance ScanStopReason_eq_dec : EqDecision ScanStopReason.
Proof. solve_decision. Defined.

Record WorkspaceScanDiagnostics : Type := mkDiagnostics {
  filesVisited : nat;
  filesIndexed : nat;
  filesIgnored : nat;
  dirsSkipped : nat;
  errors : nat;
  stopReason : ScanStopReason;
}.

Record WorkspaceMarkers : Type := mkMarkers { hasPackageJson : bool; hasCargoToml : bool }.

Record IndexedWorkspace : Type := mkWorkspace {
  w_root : string;
  w_type : string;
  w_files : list IndexedFile;
  w_diagnostics : WorkspaceScanDiagnostics;
  w_markers : WorkspaceMarkers;
  w_partial : bool;
}.

(** [path.extname] of a name without slashes: from the last dot, unless nothing
    or only a dot stands before it. *)
Fixpoint last_dot (s : string) : option string :=
  match s with
  | EmptyString => None
  | String c t => match last_dot t with
                  | Some e => Some e
                  | None => if Ascii.eqb c "." then Some s else None
                  end
  end.

Definition extname (name : string) : string :=
  match last_dot name with
  | Some e => if decide (e = name ∨ name = "..") then "" else e
  | None => ""
  end.

(** The state of a scan: the variables that [walk] closes over. *)
Record Scan : Type := mkScan { files : list IndexedFile; diagnostics : WorkspaceScanDiagnostics }.

Definition stopped (s : Scan) : bool := bool_decide (stopReason (diagnostics s) ≠ stop_none).

Definition with_diagnostics (f : WorkspaceScanDiagnostics → WorkspaceScanDiagnostics) (s : Scan) : Scan :=
  mkScan (files s) (f (diagnostics s)).

Definition set_stop (r : ScanStopReason) (d : WorkspaceScanDiagnostics) : WorkspaceScanDiagnostics :=
  mkDiagnostics (filesVisited d) (filesIndexed d) (filesIgnored d) (dirsSkipped d) (errors d) r.
Definition add_visited (d : WorkspaceScanDiagnostics) : WorkspaceScanDiagnostics :=
  mkDiagnostics (S (filesVisited d)) (filesIndexed d) (filesIgnored d) (dirsSkipped d) (errors d) (stopReason d).
Definition add_indexed (d : WorkspaceScanDiagnostics) : WorkspaceScanDiagnostics :=
  mkDiagnostics (filesVisited d) (S (filesIndexed d)) (filesIgnored d) (dirsSkipped d) (errors d) (stopReason d).
Definition add_ignored (d : WorkspaceScanDiagnostics) : WorkspaceScanDiagnostics :=
  mkDiagnostics (filesVisited d) (filesIndexed d) (S (filesIgnored d)) (dirsSkipped d) (errors d) (stopReason d).
Definition add_skipped (d : WorkspaceScanDiagnostics) : WorkspaceScanDiagnostics :=
  mkDiagnostics (filesVisited d) (filesIndexed d) (filesIgnored d) (S (dirsSkipped d)) (errors d) (stopReason d).
Definition add_error (d : WorkspaceScanDiagnostics) : WorkspaceScanDiagnostics :=
  mkDiagnostics (filesVisited d) (filesIndexed d) (filesIgnored d) (dirsSkipped d) (S (errors d)) (stopReason d).

Definition detectWorkspaceType (markers : WorkspaceMarkers) : string :=
  if hasPackageJson markers then "node" else if hasCargoToml markers then "rust" else "unknown".

Section projects.
Context `{SearchEnv} (sha256 : string → string) (locale_le : string → string → bool) (cwd : Path).

(** ** File access *)

(** [fs.readdir(p, { withFileTypes: true })]: names, and whether each is a
    directory; [None] when it rejects. *)
Definition readdir (fs : FileSystem) (p : string) : option (list (string * bool)) :=
  let q := path_resolve cwd p in
  if is_dir fs q then Some ((λ name, (name, is_dir fs (q ++ [name]))) <$> dir_order (children fs q)) else None.

(** [fs.stat(p)] of a file: its size. *)
Definition stat_size (fs : FileSystem) (p : string) : option N :=
  let q := path_resolve cwd p in
  if is_dir fs q then Some 0%N else match fs !! q with Some (File c) => Some (N.of_nat (String.length c)) | _ => None end.

Definition markerExists (fs : FileSystem) (filePath : string) : bool :=
  let q := path_resolve cwd filePath in
  negb (is_dir fs q) && bool_decide (is_Some (fs !! q)).

Definition detectWorkspaceMarkers (fs : FileSystem) (root : string) : WorkspaceMarkers :=
  mkMarkers (markerExists fs (path_join root "package.json")) (markerExists fs (path_join root "Cargo.toml")).

Definition stableFileId (workspaceRoot relativePath : string) : string :=
  "file-" +:+ String.substring 0 12 (sha256 (workspaceRoot +:+ "::" +:+ relativePath)).

(** ** Collecting files *)

(** [includeExtensions.get(extension)], and [!language]. *)
Definition language_of (options : RequiredScanOptions) (extension : string) : option string :=
  if decide (extension ∈ o_includeExtensions options)
  then match list_find (λ e, e.1 = extension) INDEXABLE_EXTENSIONS with
       | Some (_, (_, language)) => Some language
       | None => None
       end
  else None.

(** The body of the loop for an entry that is not a directory. *)
Definition visit_file (fs : FileSystem) (root : string) (options : RequiredScanOptions) (absolutePath entryName : string) (s : Scan) : Scan :=
  let s := with_diagnostics add_visited s in
  let extension := extname entryName in
  match language_of options extension with
  | None => with_diagnostics add_ignored s
  | Some language =>
    match stat_size fs absolutePath with
    | None => with_diagnostics add_error s
    | Some size =>
      if (o_maxFileSizeBytes options <? size)%N
      then with_diagnostics (set_stop max_file_size_scan_stopped ∘ add_ignored) s
      else match toWorkspaceRelativePath cwd root absolutePath with
           | None => with_diagnostics add_ignored s
           | Some relativePath =>
             let file := mkIndexedFile (stableFileId root relativePath) relativePath extension language (N.to_nat size)
                           fs_indexed None (Some root) in
             let s := mkScan (files s ++ [file]) (add_indexed (diagnostics s)) in
             if o_maxFiles options <=? length (files s) then with_diagnostics (set_stop max_files_reached) s else s
           end
    end
  end.

(** [walk]: [levels] is [maxDepth + 1 - scanDepth].  An iteration of the loop
    after the scan was stopped changes nothing, which is the early return. *)
Fixpoint collect (levels : nat) (fs : FileSystem) (root : string) (options : RequiredScanOptions) (scanPath : string) (s : Scan) : Scan :=
  if stopped s then s
  else match levels with
       | O => with_diagnostics (add_skipped ∘ set_stop max_depth_reached) s
       | S levels =>
         match readdir fs scanPath with
         | None => with_diagnostics (set_stop io_error ∘ add_error) s
         | Some entries =>
           foldl (λ s '(entryName, isDirectory),
             if stopped s then s
             else
               let absolutePath := path_join scanPath entryName in
               if isDirectory : bool then
                 if decide (entryName ∈ o_ignoreDirs options) then with_diagnostics add_skipped s
                 else if isPathWithinWorkspace cwd root absolutePath
                      then collect levels fs root options absolutePath s
                      else with_diagnostics add_skipped s
               else visit_file fs root options absolutePath entryName s) s entries
         end
       end.

Definition empty_scan : Scan := mkScan [] (mkDiagnostics 0 0 0 0 0 stop_none).

Definition collectFiles (fs : FileSystem) (root currentPath : string) (options : RequiredScanOptions) : Scan :=
  let s := collect (S (o_maxDepth options)) fs root options currentPath empty_scan in
  mkScan (js_sort (λ a b, locale_le (f_path a) (f_path b)) (files s)) (diagnostics s).

Definition buildWorkspace (fs : FileSystem) (workspaceRoot : string) (options : RequiredScanOptions) : IndexedWorkspace :=
  let markers := detectWorkspaceMarkers fs workspaceRoot in
  let scan := collectFiles fs workspaceRoot workspaceRoot options in
  mkWorkspace workspaceRoot (detectWorkspaceType markers) (files scan) (diagnostics scan) markers (stopped scan).

(** ** Workspace roots *)

(** [discovered.add] of a JavaScript set. *)
Definition set_add (x : string) (xs : list string) : list string := if decide (x ∈ xs) then xs else xs ++ [x].

Fixpoint discover (levels : nat) (fs : FileSystem) (repoRoot : string) (options : RequiredScanOptions) (scanPath : string)
    (discovered : list string) : list string :=
  match levels with
  | O => discovered
  | S levels =>
    if isPathWithinWorkspace cwd repoRoot scanPath then
      let markers := detectWorkspaceMarkers fs scanPath in
      let discovered := if hasCargoToml markers || hasPackageJson markers
                        then set_add (canonicalizeAbsolutePath cwd scanPath) discovered else discovered in
      match readdir fs scanPath with
      | None => discovered
      | Some entries =>
        foldl (λ discovered '(entryName, isDirectory),
          if negb isDirectory then discovered
          else if decide (entryName ∈ o_ignoreDirs options) then discovered
          else
            let absolutePath := path_join scanPath entryName in
            if isPathWithinWorkspace cwd repoRoot absolutePath
            then discover levels fs repoRoot options absolutePath discovered else discovered) discovered entries
      end
    else discovered
  end.

Definition discoverWorkspaceRootsByMarkers (fs : FileSystem) (repoRoot : string) (options : RequiredScanOptions) : list string :=
  discover (S (o_maxDepth options)) fs repoRoot options repoRoot [].

Definition finalizeWorkspaceRoots (repoRoot : string) (roots : list string) : list string :=
  let canonicalRepoRoot := canonicalizeAbsolutePath cwd repoRoot in
  let inRepo := filter (λ root, isPathWithinWorkspace cwd canonicalRepoRoot root = true) (canonicalizeAbsolutePath cwd <$> roots) in
  let deduped := js_sort locale_le (js_dedup [] inRepo) in
  let leafRoots := filter (λ candidate,
    existsb (λ other, negb (bool_decide (other = candidate)) && isSameOrParentPath cwd candidate other) deduped = false) deduped in
  js_sort locale_le leafRoots.

Definition detectProjects (fs : FileSystem) (repoRoot : string) (options : option ScanOptions) : list IndexedWorkspace :=
  let workspaceRoot := canonicalizeAbsolutePath cwd repoRoot in
  let scanOptions := resolveOptions options in
  let candidateRoots := discoverWorkspaceRootsByMarkers fs workspaceRoot scanOptions in
  let workspaceRoots := finalizeWorkspaceRoots workspaceRoot candidateRoots in
  if decide (workspaceRoots = []) then [buildWorkspace fs workspaceRoot scanOptions]
  else (λ root, buildWorkspace fs root scanOptions) <$> workspaceRoots.
End projects.

(** ** Paths below a canonical root *)

Lemma path_join_name (P : Path) name : Forall canonical P → clean name → path_join (path_string P) name = path_string (P ++ [name]).
Proof.
  intros HP Hn. pose proof Hn as (Hne & _ & _ & Hns). unfold path_join. rewrite !decide_False by done.
  set (s := path_string P +:+ "/" +:+ name).
  assert (isAbsolute s = true) as Ha by (apply startsWith_iff; unfold s, path_string; rewrite append_assoc; by eexists).
  assert (split_on "/" s = "" :: (if decide (P = []) then [""] else P) ++ [name]) as Hs.
  { unfold s. rewrite split_slash_app, path_string_split, (split_no_slash name) by (done || by apply canonical_no_slash). done. }
  unfold path_normalize. rewrite decide_False by (by intros E; rewrite E in Ha). rewrite Ha, Hs.
  assert (foldl (normalize_step true) [] ("" :: (if decide (P = []) then [""] else P) ++ [name]) = P ++ [name]) as ->.
  { cbn [foldl]. change (normalize_step true [] "") with (@nil string). rewrite foldl_app.
    assert (∀ l acc, Forall clean l → foldl (normalize_step true) acc l = acc ++ l) as Hf.
    { induction l as [|x l IH]; intros acc Hl; simpl; [by rewrite app_nil_r|]. inversion Hl as [|? ? (? & ? & ? & _)]; subst.
      unfold normalize_step at 2. rewrite !decide_False by naive_solver. by rewrite IH, <-app_assoc. }
    destruct (decide (P = [])) as [->|]; [by apply (Hf [name] []); constructor|].
    rewrite (Hf P []) by (by apply canonical_clean). by apply (Hf [name] P); constructor. }
  unfold endsWith_slash. rewrite Hs. rewrite bool_decide_false by (rewrite app_comm_cons, last_snoc; naive_solver).
  rewrite decide_False by (destruct P as [|x [|y P]]; [done|by destruct x|by destruct x]). by rewrite append_nil_r.
Qed.

Definition canonical_tree (fs : FileSystem) (R : Path) : Prop :=
  Forall canonical R ∧ ∀ q, is_Some (fs !! (R ++ q)) → Forall canonical q.

Lemma relative_below cwd (R rest : Path) : Forall canonical (R ++ rest) → rest ≠ [] →
  toWorkspaceRelativePath cwd (path_string R) (path_string (R ++ rest)) = Some (Prelude.join "/" rest).
Proof.
  intros Hc Hne. rewrite workspace_relative_is_repo. apply repo_relative_exact. exists rest. split_and!; [done| |done].
  rewrite !canon_path_string; [done| |done]. by apply Forall_app in Hc as [? _].
Qed.

Lemma within_below cwd (R rest : Path) : Forall canonical (R ++ rest) → isPathWithinWorkspace cwd (path_string R) (path_string (R ++ rest)) = true.
Proof.
  intros Hc. apply within_exact. exists rest. rewrite !canon_path_string; [done| |done]. by apply Forall_app in Hc as [? _].
Qed.

(** ** A scan is a sequence of events *)

Lemma omap_cons_list {A B : Type} (f : A → option B) x l : omap f (x :: l) = option_list (f x) ++ omap f l.
Proof. unfold omap. simpl. by destruct (f x). Qed.

Lemma foldl_bind {A B C : Type} (f : C → B → C) (g : A → list B) (l : list A) c :
  foldl f c (l ≫= g) = foldl (λ c a, foldl f c (g a)) c l.
Proof. revert c. induction l as [|a l IH]; intros c; simpl; [done|]. by rewrite foldl_app, IH. Qed.

Lemma foldl_ext_in {A B : Type} (f g : B → A → B) (l : list A) b :
  (∀ b a, a ∈ l → f b a = g b a) → foldl f b l = foldl g b l.
Proof. revert b. induction l as [|a l IH]; intros b Hf; simpl; [done|]. rewrite Hf by set_solver. apply IH. set_solver. Qed.

Lemma is_dir_entry fs p : p ≠ [] → is_dir fs p = match fs !! p with Some Dir => true | _ => false end.
Proof. by destruct p. Qed.

(** What the walk meets, in order, if it is not stopped. *)
Inductive ScanEvent : Type := ev_skip | ev_too_deep | ev_file (rest : Path).

Section scan.
Context `{SearchEnvLaws} (sha256 : string → string) (cwd : Path).
Context (fs : FileSystem) (R : Path) (options : RequiredScanOptions).

(** The events below [R ++ q]. *)
Fixpoint events (levels : nat) (q : Path) : list ScanEvent :=
  match levels with
  | O => [ev_too_deep]
  | S levels =>
    dir_order (children fs (R ++ q)) ≫= λ name,
      if is_dir fs (R ++ q ++ [name])
      then if decide (name ∈ o_ignoreDirs options) then [ev_skip] else events levels (q ++ [name])
      else [ev_file (q ++ [name])]
  end.

Definition apply_event (s : Scan) (e : ScanEvent) : Scan :=
  if stopped s then s
  else match e with
       | ev_skip => with_diagnostics add_skipped s
       | ev_too_deep => with_diagnostics (add_skipped ∘ set_stop max_depth_reached) s
       | ev_file q => visit_file sha256 cwd fs (path_string R) options (path_string (R ++ q)) (last q or_else "") s
       end.

Lemma apply_stopped es s : stopped s = true → foldl apply_event s es = s.
Proof. intros Hs. induction es as [|e es IH]; simpl; [done|]. unfold apply_event at 2. by rewrite Hs. Qed.

Lemma collect_events (Ht : canonical_tree fs R) levels : ∀ q s, is_dir fs (R ++ q) = true → Forall canonical q →
  collect sha256 cwd levels fs (path_string R) options (path_string (R ++ q)) s = foldl apply_event s (events levels q).
Proof using Type*.
  destruct Ht as [HR Hq]. induction levels as [|levels IH]; intros q s Hd Hc; cbn [collect events foldl].
  { unfold apply_event. by destruct (stopped s). }
  destruct (stopped s) eqn:Hs; [by rewrite apply_stopped|].
  assert (Forall canonical (R ++ q)) as HRq by (by apply Forall_app).
  unfold readdir. rewrite resolve_path_string, Hd, foldl_bind by done. rewrite foldl_fmap. apply foldl_ext_in.
  intros s' name Hname. rewrite dir_order_perm, elem_of_children in Hname. rewrite <-app_assoc in *.
  assert (canonical name) as Hn by (apply Hq in Hname; apply Forall_app in Hname as [_ Hname]; by inversion Hname).
  destruct (stopped s') eqn:Hs'; [by rewrite apply_stopped|].
  rewrite path_join_name by (done || apply Hn). rewrite <-app_assoc. destruct (is_dir fs (R ++ q ++ [name])) eqn:Hdir.
  - destruct (decide _); [cbn [foldl]; unfold apply_event; by rewrite Hs'|].
    rewrite within_below; [|repeat apply Forall_app_2; [done|done|by apply Forall_singleton]].
    apply IH; [done|]. apply Forall_app_2; [done|by apply Forall_singleton].
  - cbn [foldl]. unfold apply_event. rewrite Hs', last_snoc. done.
Qed.

(** What the scan pushes for a file with a language that is not too large. *)
Definition indexed (rest : Path) (content language : string) : IndexedFile :=
  let relativePath := Prelude.join "/" rest in
  mkIndexedFile (stableFileId sha256 (path_string R) relativePath) relativePath (extname (last rest or_else "")) language
    (N.to_nat (N.of_nat (String.length content))) fs_indexed None (Some (path_string R)).

Definition event_file (e : ScanEvent) : option IndexedFile :=
  match e with
  | ev_file rest =>
    match fs !! (R ++ rest), language_of options (extname (last rest or_else "")) with
    | Some (File c), Some language =>
      if (o_maxFileSizeBytes options <? N.of_nat (String.length c))%N then None else Some (indexed rest c language)
    | _, _ => None
    end
  | _ => None
  end.

(** The files below [R ++ q] that the walk can reach. *)
Fixpoint reach (q rest : Path) : Prop :=
  match rest with
  | [] => False
  | name :: rest =>
    match fs !! (R ++ q ++ [name]) with
    | Some (File _) => rest = []
    | Some Dir => (name ∉ o_ignoreDirs options) ∧ reach (q ++ [name]) rest
    | None => False
    end
  end.

Definition file_rest (e : ScanEvent) : option Path := match e with ev_file q => Some q | _ => None end.

Lemma omap_bind {A B C : Type} (f : B → option C) (g : A → list B) (l : list A) : omap f (l ≫= g) = l ≫= λ a, omap f (g a).
Proof. induction l as [|a l IH]; [done|]. rewrite !bind_cons, omap_app. by f_equal. Qed.

Lemma event_files_spec levels : ∀ q,
  NoDup (omap file_rest (events levels q)) ∧
  ∀ f, f ∈ omap file_rest (events levels q) ↔ ∃ rest, f = q ++ rest ∧ length rest ≤ levels ∧ reach q rest.
Proof using Type*.
  induction levels as [|levels IH]; intros q; cbn [events].
  { split; [constructor|]. intros f. split; [by intros ?%elem_of_nil|]. intros ([|] & _ & Hl & Hr); [done|simpl in Hl; lia]. }
  rewrite omap_bind. set (step name := omap file_rest _).
  assert (∀ name f, is_Some (fs !! (R ++ q ++ [name])) → (f ∈ step name ↔ ∃ rest, f = q ++ name :: rest ∧ length rest ≤ levels ∧ reach q (name :: rest))) as Hname.
  { intros name f [e He]. unfold step. cbn [reach]. rewrite is_dir_entry, He by (by destruct R, q).
    destruct e as [c|].
    - change (omap file_rest [ev_file ?x]) with [x]. rewrite list_elem_of_singleton. split; [intros ->; exists []; simpl; split_and!; [done|lia|done]|]. by intros (rest & -> & _ & ->).
    - case_decide as Hig; [split; [by intros ?%elem_of_nil|naive_solver]|].
      rewrite (proj2 (IH (q ++ [name])) f). split.
      + intros (rest & -> & Hl & Hr). exists rest. by rewrite <-app_assoc.
      + intros (rest & -> & Hl & _ & Hr). exists rest. by rewrite <-app_assoc. }
  assert (∀ name, name ∈ dir_order (children fs (R ++ q)) ↔ is_Some (fs !! (R ++ q ++ [name]))) as Hdir
    by (intros name; rewrite dir_order_perm, elem_of_children, <-app_assoc; done).
  split.
  - apply NoDup_bind.
    + intros n1 n2 f H1%Hdir H2%Hdir (r1 & -> & _)%(Hname _ _ H1) (r2 & Heq & _)%(Hname _ _ H2). apply app_inv_head in Heq. by injection Heq.
    + intros name _. unfold step. destruct (is_dir _ _); [case_decide; [constructor|apply IH]|apply NoDup_singleton].
    + rewrite dir_order_perm. apply children_NoDup.
  - intros f. rewrite list_elem_of_bind. split.
    + intros (name & Hf & Hin%Hdir). apply (Hname _ _ Hin) in Hf as (rest & -> & Hl & Hr). exists (name :: rest). simpl. split_and!; [done|lia|done].
    + intros ([|name rest] & -> & Hl & Hr); [done|]. assert (is_Some (fs !! (R ++ q ++ [name]))) as Hin
        by (cbn [reach] in Hr; by destruct (fs !! (R ++ q ++ [name]))).
      exists name. split; [|by apply Hdir]. apply (Hname _ _ Hin). exists rest. simpl in Hl. split_and!; [done|lia|done].
Qed.

Lemma reach_file q rest : reach q rest → ∃ c, fs !! (R ++ q ++ rest) = Some (File c).
Proof.
  revert q. induction rest as [|name rest IH]; intros q; cbn [reach]; [done|].
  destruct (fs !! (R ++ q ++ [name])) as [[c|]|] eqn:E; [intros ->; by exists c|intros [_ Hr]|done].
  apply IH in Hr as [c Hc]. exists c. by rewrite <-app_assoc in Hc.
Qed.

Definition scannable_event (e : ScanEvent) : Prop :=
  match e with
  | ev_file rest => rest ≠ [] ∧ Forall canonical (R ++ rest) ∧ ∃ c, fs !! (R ++ rest) = Some (File c)
  | _ => True
  end.

Lemma visit_event rest c s : rest ≠ [] → Forall canonical (R ++ rest) → fs !! (R ++ rest) = Some (File c) →
  visit_file sha256 cwd fs (path_string R) options (path_string (R ++ rest)) (last rest or_else "") s =
  let s := with_diagnostics add_visited s in
  match language_of options (extname (last rest or_else "")) with
  | None => with_diagnostics add_ignored s
  | Some language =>
    if (o_maxFileSizeBytes options <? N.of_nat (String.length c))%N
    then with_diagnostics (set_stop max_file_size_scan_stopped ∘ add_ignored) s
    else let s := mkScan (files s ++ [indexed rest c language]) (add_indexed (diagnostics s)) in
         if o_maxFiles options <=? length (files s) then with_diagnostics (set_stop max_files_reached) s else s
  end.
Proof.
  intros Hne Hc Hf. unfold visit_file. destruct (language_of _ _); [|done].
  unfold stat_size. rewrite resolve_path_string by done. rewrite is_dir_entry, Hf by (by destruct R, rest).
  destruct (_ <? _)%N; [done|]. by rewrite relative_below.
Qed.

(** The scan has pushed the files of the events it saw, all of them if it was
    not stopped. *)
Lemma fold_pushes es : ∀ s, Forall scannable_event es →
  ∃ new, files (foldl apply_event s es) = files s ++ new ∧ new `sublist_of` omap event_file es ∧
    (stopReason (diagnostics (foldl apply_event s es)) = stop_none → new = omap event_file es ∧ stopReason (diagnostics s) = stop_none).
Proof.
  induction es as [|e es IH]; intros s Hes; cbn [foldl]; [exists []; by rewrite app_nil_r|].
  inversion Hes as [|? ? He Hes']; subst. destruct (IH (apply_event s e) Hes') as (new & Hf & Hsub & Hall).
  assert (∃ now, files (apply_event s e) = files s ++ now ∧ now `sublist_of` option_list (event_file e) ∧
    (stopReason (diagnostics (apply_event s e)) = stop_none → now = option_list (event_file e) ∧ stopReason (diagnostics s) = stop_none))
    as (now & Hf1 & Hsub1 & Hall1).
  { clear IH Hf Hsub Hall. unfold apply_event. destruct (stopped s) eqn:Hs.
    { exists []. rewrite app_nil_r. split_and!; [done|apply sublist_nil_l|]. unfold stopped in Hs. by apply bool_decide_eq_true in Hs. }
    assert (stopReason (diagnostics s) = stop_none) as Hn by (unfold stopped in Hs; by apply bool_decide_eq_false, dec_stable in Hs).
    destruct e as [| |rest]; [by exists []; rewrite app_nil_r..|]. destruct He as (Hne & Hc & c & Hfile).
    rewrite (visit_event rest c) by done. cbn [event_file]. rewrite Hfile.
    destruct (language_of _ _) as [lang|]; [|by exists []; rewrite app_nil_r].
    destruct (_ <? _)%N; [by exists []; rewrite app_nil_r|]. exists [indexed rest c lang]. by destruct (_ <=? _). }
  exists (now ++ new). rewrite Hf, Hf1, app_assoc, omap_cons_list.
  split_and!; [done|by apply sublist_app|]. intros [-> Hs]%Hall. by destruct (Hall1 Hs) as [-> ->].
Qed.

Definition counted (s : Scan) : Prop :=
  filesIndexed (diagnostics s) = length (files s) ∧
  filesVisited (diagnostics s) = filesIndexed (diagnostics s) + filesIgnored (diagnostics s) ∧
  errors (diagnostics s) = 0 ∧
  (0 < o_maxFiles options → length (files s) ≤ o_maxFiles options ∧
     (stopReason (diagnostics s) = stop_none → length (files s) < o_maxFiles options)).

Lemma fold_counted es : ∀ s, Forall scannable_event es → counted s → counted (foldl apply_event s es).
Proof.
  induction es as [|e es IH]; intros s Hes Hs; cbn [foldl]; [done|]. inversion Hes as [|? ? He Hes']; subst. apply IH; [done|].
  unfold apply_event. destruct (stopped s) eqn:Hst; [done|]. unfold stopped in Hst. apply bool_decide_eq_false, dec_stable in Hst.
  destruct Hs as (H1 & H2 & H3 & H4). destruct e as [| |rest]; [unfold counted; simpl; naive_solver..|].
  destruct He as (Hne & Hc & c & Hfile). rewrite (visit_event rest c) by done.
  destruct (language_of _ _) as [lang|]; [|unfold counted; simpl; split_and!; [done|lia|done|naive_solver]].
  destruct (_ <? _)%N; [unfold counted; simpl; split_and!; [done|lia|done|naive_solver]|].
  simpl. rewrite length_app. simpl. destruct (Nat.leb_spec (o_maxFiles options) (length (files s) + 1)) as [Hl|Hl];
    unfold counted; simpl; rewrite length_app; simpl; (split_and!; [lia|lia|done|]);
    intros Hpos; destruct (H4 Hpos) as [_ H5]; specialize (H5 Hst); (split; [lia|done]).
Qed.

(** The files that a scan is to find: reachable without passing an ignored
    directory, at most [maxDepth] directories down, with a language, not too
    large. *)
Definition to_index (rest : Path) (content language : string) : Prop :=
  reach [] rest ∧ length rest ≤ S (o_maxDepth options) ∧ fs !! (R ++ rest) = Some (File content) ∧
  language_of options (extname (last rest or_else "")) = Some language ∧
  (N.of_nat (String.length content) <= o_maxFileSizeBytes options)%N.

Lemma events_scannable (Ht : canonical_tree fs R) levels : Forall scannable_event (events levels []).
Proof using Type*.
  apply Forall_forall. intros [| |rest] Hin; [done..|]. assert (rest ∈ omap file_rest (events levels [])) as Hr
    by (apply list_elem_of_omap; by exists (ev_file rest)).
  apply event_files_spec in Hr as (rest' & -> & _ & Hr). destruct (reach_file [] rest' Hr) as [c Hc]. cbn [app] in *.
  destruct Ht as [HR Hq]. split_and!; [by intros ->|apply Forall_app_2; [done|by apply Hq]|by exists c].
Qed.

Lemma event_file_spec levels f : f ∈ omap event_file (events levels []) ↔
  ∃ rest content language, f = indexed rest content language ∧ reach [] rest ∧ length rest ≤ levels ∧
    fs !! (R ++ rest) = Some (File content) ∧ language_of options (extname (last rest or_else "")) = Some language ∧
    (N.of_nat (String.length content) <= o_maxFileSizeBytes options)%N.
Proof using Type*.
  rewrite list_elem_of_omap. split.
  - intros ([| |rest] & Hin & Hf); [done..|]. assert (rest ∈ omap file_rest (events levels [])) as Hr
      by (apply list_elem_of_omap; by exists (ev_file rest)).
    apply event_files_spec in Hr as (rest' & -> & Hl & Hr). cbn [event_file app] in *.
    destruct (fs !! _) as [[c|]|] eqn:Hfile; [|done..]. destruct (language_of _ _) as [lang|] eqn:Hlang; [|done].
    destruct (N.ltb_spec (o_maxFileSizeBytes options) (N.of_nat (String.length c))) as [|Hsize]; [done|]. injection Hf as <-.
    exists rest', c, lang. by split_and!.
  - intros (rest & c & lang & -> & Hr & Hl & Hf & Hlang & Hsize). exists (ev_file rest). split.
    + assert (rest ∈ omap file_rest (events levels [])) as Hin by (apply event_files_spec; by exists rest).
      apply list_elem_of_omap in Hin as ([| |rest'] & Hin & [= ->]). done.
    + cbn [event_file]. rewrite Hf, Hlang. by destruct (N.ltb_spec (o_maxFileSizeBytes options) (N.of_nat (String.length c))); [lia|].
Qed.

(** Different files have different paths. *)
Lemma event_paths_NoDup (Ht : canonical_tree fs R) levels : NoDup (f_path <$> omap event_file (events levels [])).
Proof using Type*.
  destruct (event_files_spec levels []) as [Hnd _]. pose proof (events_scannable Ht levels) as Hsc.
  induction Hsc as [|e es He Hes IH]; [constructor|].
  destruct e as [| |rest]; [by apply IH..|]. change (omap file_rest (ev_file rest :: es)) with (rest :: omap file_rest es) in Hnd.
  apply NoDup_cons in Hnd as [Hnew Hnd]. specialize (IH Hnd).
  rewrite omap_cons_list. destruct (event_file (ev_file rest)) as [f|] eqn:E; [|done]. simpl. constructor; [|done].
  assert (∀ rest f, event_file (ev_file rest) = Some f → f_path f = Prelude.join "/" rest) as Hpath.
  { intros r g. cbn [event_file]. destruct (fs !! _) as [[]|]; [|done..]. destruct (language_of _ _); [|done]. by destruct (_ <? _)%N; intros [= <-]. }
  rewrite (Hpath _ _ E). intros (g & Hg & ([| |rest'] & Hin & Hev)%list_elem_of_omap)%list_elem_of_fmap; [done..|].
  rewrite (Hpath _ _ Hev) in Hg. rewrite Forall_forall in Hes. destruct (Hes _ Hin) as (Hne' & Hc' & _). destruct He as (Hne & Hc & _).
  apply Forall_app in Hc as [_ Hc]. apply Forall_app in Hc' as [_ Hc']. apply (f_equal (split_on "/")) in Hg.
  rewrite !split_join_slash in Hg by (done || by apply canonical_no_slash). subst rest'. apply Hnew, list_elem_of_omap. by exists (ev_file rest).
Qed.
End scan.

Lemma indexed_resolves sha256 cwd root fs R options rest c lang :
  canonical_tree fs R → reach fs R options [] rest →
  resolveIndexedFileAbsolutePath cwd root (indexed sha256 R rest c lang) = Some (path_string (R ++ rest)).
Proof.
  intros [HR Hq] Hr. destruct (reach_file fs R options [] rest Hr) as [c' Hc]. cbn [app] in Hc.
  assert (Forall canonical rest) as Hrest by (by apply Hq; rewrite Hc).
  assert (Forall canonical (R ++ rest)) as Hall by (by apply Forall_app_2). unfold resolveIndexedFileAbsolutePath. cbn [indexed f_workspaceRoot f_path].
  change (truthy_string (Some (path_string R)) or_else root) with (path_string R). rewrite canonicalize_path_string by done.
  assert (canonicalizeAbsolutePath cwd (path_join (path_string R) (Prelude.join "/" rest)) = path_string (R ++ rest)) as ->.
  { unfold canonicalizeAbsolutePath. rewrite resolve_join by (by apply inside_not_leaving).
    rewrite resolve_path_string, resolve_join_canonical by done. by apply normalize_slashes_id, path_string_no_backslash. }
  by rewrite within_below.
Qed.

(** C25 Scanning a workspace of canonical names: every collected file is one that
    is to be indexed and resolves back to its place, none is collected twice, and
    when the scan was not stopped all of them are collected; the counters of the
    diagnostics add up, and the limit on the number of files is kept. *)
Theorem scan_exact `{SearchEnvLaws} sha256 locale_le cwd fs R options :
  canonical_tree fs R → is_dir fs R = true →
  let s := collectFiles sha256 locale_le cwd fs (path_string R) (path_string R) options in
  (∀ f, f ∈ files s → ∃ rest content language, to_index fs R options rest content language ∧ f = indexed sha256 R rest content language ∧
     ∀ root, resolveIndexedFileAbsolutePath cwd root f = Some (path_string (R ++ rest))) ∧
  NoDup (f_path <$> files s) ∧
  (stopReason (diagnostics s) = stop_none →
     ∀ rest content language, to_index fs R options rest content language → indexed sha256 R rest content language ∈ files s) ∧
  counted options s.
Proof.
  intros Ht Hd s. unfold collectFiles in s. set (levels := S (o_maxDepth options)) in *.
  pose proof (collect_events sha256 cwd fs R options Ht levels [] empty_scan) as Hrun. rewrite !app_nil_r in Hrun. specialize (Hrun Hd (Forall_nil_2 _)).
  destruct (fold_pushes sha256 cwd fs R options (events fs R options levels []) empty_scan) as (new & Hf & Hsub & Hall); [by apply events_scannable|].
  pose proof (fold_counted sha256 cwd fs R options (events fs R options levels []) empty_scan (events_scannable fs R options Ht levels)) as Hcnt.
  rewrite <-Hrun in *. change (files empty_scan ++ new) with new in Hf.
  assert (files s ≡ₚ new) as Hperm by (unfold s; cbn [files]; rewrite Hf; apply js_sort_perm).
  assert (∀ f, f ∈ new → f ∈ omap (event_file sha256 fs R options) (events fs R options levels [])) as Hin
    by (intros f Hf'; eapply elem_of_sublist; eauto).
  split_and!.
  - intros f Hfs. rewrite Hperm in Hfs. apply Hin, event_file_spec in Hfs as (rest & c & lang & -> & Hr & Hl & Hx).
    exists rest, c, lang. split_and!; [exact (conj Hr (conj Hl Hx))|done|]. intros root. by eapply indexed_resolves.
  - rewrite Hperm. eapply sublist_NoDup; [by eapply event_paths_NoDup|by apply fmap_sublist].
  - intros [-> _]%Hall rest c lang (Hr & Hl & Hx). rewrite Hperm. apply event_file_spec.
    exists rest, c, lang. exact (conj eq_refl (conj Hr (conj Hl Hx))).
  - destruct Hcnt as (H1 & H2 & H3 & H4); [split_and!; [done..|intros; simpl; lia]|].
    unfold counted. rewrite Hperm, <-Hf. by split_and!.
Qed.

(** ** Workspace roots *)

(** The workspace roots that remain are pairwise not nested, lie in the
    repository, and there is one at or below every candidate in the repository. *)
Lemma final_roots_leaves locale_le cwd repoRoot roots r1 r2 :
  let final := finalizeWorkspaceRoots locale_le cwd repoRoot roots in
  r1 ∈ final → r2 ∈ final → r1 ≠ r2 → isPathWithinWorkspace cwd r1 r2 = false.
Proof.
  intros final Hr1 Hr2 Hne. unfold final, finalizeWorkspaceRoots in *. set (deduped := js_sort _ (js_dedup _ _)) in *.
  rewrite elem_of_js_sort, list_elem_of_filter in Hr1, Hr2. destruct Hr1 as [Hex _], Hr2 as [_ Hin].
  rewrite <-same_or_parent_is_within. apply not_true_is_false. intros Hp. apply not_true_iff_false in Hex. apply Hex.
  apply existsb_exists. exists r2. split; [by apply list_elem_of_In|]. rewrite Hp, andb_true_r. by apply negb_true_iff, bool_decide_eq_false.
Qed.

(** The innermost of a finite set of nested directories. *)
Lemma innermost_below cwd (dirs : list string) x :
  (∀ d, d ∈ dirs → d = path_string (canon cwd d)) → x ∈ dirs →
  ∃ y, y ∈ dirs ∧ isPathWithinWorkspace cwd x y = true ∧
    existsb (λ other, negb (bool_decide (other = y)) && isSameOrParentPath cwd y other) dirs = false.
Proof.
  intros Hcan. set (bound := list_max (length ∘ canon cwd <$> dirs)).
  assert (∀ d, d ∈ dirs → length (canon cwd d) ≤ bound) as Hmax.
  { intros d Hd. assert (Forall (λ k, k ≤ bound) (length ∘ canon cwd <$> dirs)) as Hall by (by apply list_max_le).
    rewrite Forall_forall in Hall. apply Hall, list_elem_of_fmap. by exists d. }
  remember (S bound - length (canon cwd x)) as n eqn:Hn. revert x Hn. induction n as [n IH] using lt_wf_ind. intros x Hn Hx.
  destruct (existsb (λ other, negb (bool_decide (other = x)) && isSameOrParentPath cwd x other) dirs) eqn:E.
  2: { exists x. split_and!; [done| |done]. apply within_exact. exists []. by rewrite app_nil_r. }
  apply existsb_exists in E as (y & Hy%list_elem_of_In & [Hyx%negb_true_iff%bool_decide_eq_false Hp]%andb_true_iff).
  rewrite same_or_parent_is_within in Hp. apply within_exact in Hp as [rest Hrest].
  assert (rest ≠ []) as Hne by (intros ->; rewrite app_nil_r in Hrest; apply Hyx; rewrite (Hcan y Hy), (Hcan x Hx); by f_equal).
  pose proof (Hmax y Hy) as Hmy. destruct (IH (S bound - length (canon cwd y))) with (x := y) as (z & Hz & Hyz & Hleaf); [|done..|].
  { rewrite Hrest, length_app in *. destruct rest; [done|]. simpl in *. lia. }
  exists z. split_and!; [done| |done]. apply within_exact in Hyz as [rest' Hrest']. apply within_exact. exists (rest ++ rest').
  by rewrite Hrest', Hrest, app_assoc.
Qed.

Lemma final_roots_cover locale_le cwd repoRoot roots r :
  r ∈ roots → (∀ x, x ∈ roots → ∃ p, x = canonicalizeAbsolutePath cwd p) → isPathWithinWorkspace cwd repoRoot r = true →
  ∃ r', r' ∈ finalizeWorkspaceRoots locale_le cwd repoRoot roots ∧ isPathWithinWorkspace cwd r r' = true.
Proof.
  intros Hr Hcan Hin. unfold finalizeWorkspaceRoots. set (deduped := js_sort locale_le (js_dedup [] _)).
  assert (∀ x, x ∈ deduped → x = path_string (canon cwd x)) as Hcan'.
  { intros x. unfold deduped. rewrite elem_of_js_sort, (proj2 (js_dedup_spec [] _)), list_elem_of_filter, list_elem_of_fmap.
    intros [(_ & y & -> & [p ->]%Hcan) _]. by rewrite canonicalize_twice, canon_path_string by apply canon_canonical. }
  assert (canonicalizeAbsolutePath cwd r ∈ deduped) as Hd.
  { apply elem_of_js_sort, js_dedup_spec. split; [|apply not_elem_of_nil]. apply list_elem_of_filter. split; [|by apply list_elem_of_fmap_2].
    apply within_exact in Hin as [rest Hrest]. apply within_exact. rewrite !canon_canonicalize. by exists rest. }
  destruct (innermost_below cwd deduped _ Hcan' Hd) as (y & Hy & Hw & Hleaf). exists y.
  split; [by apply elem_of_js_sort, list_elem_of_filter|].
  apply within_exact in Hw as [rest Hrest]. rewrite canon_canonicalize in Hrest. apply within_exact. by exists rest.
Qed.

(** ** Concrete repositories *)

#[global] Instance canonical_dec s : Decision (canonical s).
Proof. unfold canonical, clean, no_slash, no_backslash. apply _. Defined.

Lemma canonical_tree_check (fs : FileSystem) (R : Path) :
  Forall canonical R → Forall (λ kv, Forall canonical kv.1) (map_to_list fs) → canonical_tree fs R.
Proof.
  intros HR Hall. split; [done|]. intros q [e He]. rewrite Forall_forall in Hall. apply elem_of_map_to_list, Hall in He.
  by apply Forall_app in He as [_ ?].
Qed.

Definition repo_tree : FileSystem :=
  list_to_map [(["home"], Dir); (["home"; "repo"], Dir); (["home"; "repo"; "package.json"], File "{}");
    (["home"; "repo"; "src"], Dir); (["home"; "repo"; "src"; "x.ts"], File "let x = 1");
    (["home"; "repo"; "packages"], Dir); (["home"; "repo"; "packages"; "a"], Dir);
    (["home"; "repo"; "packages"; "a"; "package.json"], File "{}"); (["home"; "repo"; "packages"; "a"; "y.ts"], File "y");
    (["home"; "repo"; "dist"], Dir); (["home"; "repo"; "dist"; "x.js"], File "x")].

#[local] Instance projects_order : SearchEnv := {| dir_order := id; regexp := λ _ _, None |}.
#[local] Instance projects_order_laws : SearchEnvLaws.
Proof. by split. Qed.

Definition string_le (a b : string) : bool := match String.compare a b with Gt => false | _ => true end.

Lemma scan_exact_witness :
  let s := collectFiles id string_le [] repo_tree "/home/repo" "/home/repo" DEFAULT_SCAN_OPTIONS in
  (f_path <$> files s) = ["package.json"; "packages/a/package.json"; "packages/a/y.ts"; "src/x.ts"] ∧
  stopReason (diagnostics s) = stop_none ∧ NoDup (f_path <$> files s) ∧
  ∀ rest content language, to_index repo_tree ["home"; "repo"] DEFAULT_SCAN_OPTIONS rest content language →
    indexed id ["home"; "repo"] rest content language ∈ files s.
Proof.
  assert (canonical_tree repo_tree ["home"; "repo"]) as Ht
    by (apply canonical_tree_check; apply (bool_decide_unpack _); vm_compute; exact I).
  destruct (scan_exact id string_le [] repo_tree ["home"; "repo"] DEFAULT_SCAN_OPTIONS Ht ltac:(vm_compute; reflexivity))
    as (_ & Hnd & Hall & _).
  split; [vm_compute; reflexivity|]. split; [vm_compute; reflexivity|]. split; [exact Hnd|apply Hall; vm_compute; reflexivity].
Defined.

(** A manifest in a package below hides the files of the repository's own
    workspace. *)
Example nested_manifest_hides_files :
  (λ w, (w_root w, f_path <$> w_files w)) <$> detectProjects id string_le [] repo_tree "/home/repo" None =
    [("/home/repo/packages/a", ["package.json"; "y.ts"])].
Proof. vm_compute. reflexivity. Qed.

(** One file over the size limit ends the scan. *)
Example large_file_stops_scan :
  let s := collectFiles id string_le [] repo_tree "/home/repo" "/home/repo"
             (resolveOptions (Some (mkScanOptions None None (Some 1%N) None None None))) in
  (f_path <$> files s, filesVisited (diagnostics s), stopReason (diagnostics s)) = (["packages/a/y.ts"], 2, max_file_size_scan_stopped).
Proof. vm_compute. reflexivity. Qed.

(** So does one directory that is too deep. *)
Example deep_directory_stops_scan :
  let s := collectFiles id string_le [] repo_tree "/home/repo" "/home/repo"
             (resolveOptions (Some (mkScanOptions None (Some 1) None None None None))) in
  stopReason (diagnostics s) = max_depth_reached.
Proof. vm_compute. reflexivity. Qed.
