(* ===== verification/BridgeMessages.v ===== *)
(** * Messages of the bridge to the Rust engine

    [packages/opencode-app/src/bridge/dh-jsonrpc-stdio-client.ts]: the calls
    that an ask turns into, the readers of what the engine answers and the
    classification of its errors.  A member of an answer is [None] when it is
    [undefined]; a number is the literal that JavaScript prints for it. *)

From S2P Require Import Prelude Json Codec ScanPaths.
From Stdlib Require Import Ascii String QArith Qround.
From stdpp Require Import prelude list strings pretty.
Set Default Proof Using "Type".
Set Warnings "-clear-no-such-hyp".
Local Open Scope js_scope.

(** ** Errors *)

Inductive BridgeFailureCode : Type :=
| BRIDGE_STARTUP_FAILED | BRIDGE_UNREACHABLE | BRIDGE_TIMEOUT | METHOD_NOT_SUPPORTED
| INVALID_REQUEST | ACCESS_DENIED | NOT_FOUND | TIMEOUT | EXECUTION_FAILED
| RUNTIME_UNAVAILABLE | BINARY_FILE_UNSUPPORTED | BRIDGE_CODEC_UNSUPPORTED
| BRIDGE_CODEC_DECODE_FAILED | BRIDGE_FRAME_TOO_LARGE | BRIDGE_CODEC_NEGOTIATION_FAILED
| CAPABILITY_UNSUPPORTED | REQUEST_FAILED.

#[global] Instance BridgeFailureCode_eq_dec : EqDecision BridgeFailureCode.
Proof. solve_decision. Defined.

Inductive BridgeFailurePhase : Type := ph_startup | ph_request.

#[global] Instance BridgeFailurePhase_eq_dec : EqDecision BridgeFailurePhase.
Proof. solve_decision. Defined.

Record DhBridgeError : Type := mkBridgeError {
  be_code : BridgeFailureCode;
  be_phase : BridgeFailurePhase;
  be_message : string;
  be_retryable : bool;
}.

(** [new DhBridgeError({ code, phase, message })]. *)
Definition bridge_error (code : BridgeFailureCode) (phase : BridgeFailurePhase) (message : string) :
    DhBridgeError := mkBridgeError code phase message false.

(** ** Values of unknown shape *)

(** [a ?? b] on values that may be missing. *)
Definition coalesce {A} (a b : option A) : option A :=
  match a with Some _ => a | None => b end.

(** [raw.a ?? raw.b]: [null] is passed over too. *)
Definition coalesce_json (a b : option json) : option json :=
  match a with None | Some JNull => b | _ => a end.

Definition asRecord (value : option json) : json :=
  match value with Some (JObj members) => JObj members | _ => JObj [] end.

Definition asString (value : option json) : option string :=
  match value with Some (JStr s) => Some s | _ => None end.

(** The literals of the numbers that are not finite. *)
Definition is_finite (l : string) : bool :=
  negb (String.eqb l "NaN" || String.eqb l "Infinity" || String.eqb l "-Infinity").

Definition asNumber (value : option json) : option string :=
  match value with Some (JNum l) => if is_finite l then Some l else None | _ => None end.

Definition asBoolean (value : option json) : option bool :=
  match value with Some (JBool b) => Some b | _ => None end.

Definition JSON_RPC_CODEC_NAME : string := "json-rpc-v1".
Definition MSGPACK_RPC_CODEC_NAME : string := "msgpack-rpc-v1".

Definition codec_name (c : BridgeRpcCodec) : string :=
  match c with JSON_RPC_CODEC => JSON_RPC_CODEC_NAME | MSGPACK_RPC_CODEC => MSGPACK_RPC_CODEC_NAME end.

Definition is_msgpack (c : BridgeRpcCodec) : bool :=
  match c with MSGPACK_RPC_CODEC => true | JSON_RPC_CODEC => false end.

Definition asBridgeRpcCodec (value : option json) : option BridgeRpcCodec :=
  s ← asString value;
  if String.eqb s JSON_RPC_CODEC_NAME then Some JSON_RPC_CODEC
  else if String.eqb s MSGPACK_RPC_CODEC_NAME then Some MSGPACK_RPC_CODEC
  else None.

Definition asStringArray (value : option json) : option (list string) :=
  match value with
  | Some (JArr items) => mapM (λ item, asString (Some item)) items
  | _ => None
  end.

(** What [!value] lets through of a string: the empty one is refused. *)
Definition truthy (value : option string) : option string :=
  s ← value; if String.eqb s "" then None else Some s.

(** [Array.isArray(value) ? value : []]. *)
Definition asItems (value : option json) : list json :=
  match value with Some (JArr items) => items | _ => [] end.

(** ** Answers *)

Inductive BridgeAnswerState : Type := as_grounded | as_partial | as_insufficient | as_unsupported.

Definition asBridgeAnswerState (value : option json) : option BridgeAnswerState :=
  s ← asString value;
  if String.eqb s "grounded" then Some as_grounded
  else if String.eqb s "partial" then Some as_partial
  else if String.eqb s "insufficient" then Some as_insufficient
  else if String.eqb s "unsupported" then Some as_unsupported
  else None.

Inductive BridgeEvidenceConfidence : Type := ec_grounded | ec_partial.

Definition asBridgeEvidenceConfidence (value : option json) : option BridgeEvidenceConfidence :=
  s ← asString value;
  if String.eqb s "grounded" then Some ec_grounded
  else if String.eqb s "partial" then Some ec_partial
  else None.

Record BridgeSearchItem : Type := mkSearchItem {
  si_filePath : string;
  si_lineStart : string;
  si_lineEnd : string;
  si_snippet : string;
  si_reason : string;
  si_score : string;
}.

Definition toBridgeSearchItem (raw : json) : option BridgeSearchItem :=
  let value := asRecord (Some raw) in
  filePath ← truthy (coalesce (asString (json_get "filePath" value)) (asString (json_get "file_path" value)));
  lineStart ← coalesce (asNumber (json_get "lineStart" value)) (asNumber (json_get "line_start" value));
  lineEnd ← coalesce (asNumber (json_get "lineEnd" value)) (asNumber (json_get "line_end" value));
  Some (mkSearchItem filePath lineStart lineEnd
    (asString (json_get "snippet" value) or_else "")
    (asString (json_get "reason" value) or_else "rust query match")
    (asNumber (json_get "score" value) or_else "0.5")).

Record BridgeEvidenceEntry : Type := mkEvidenceEntry {
  bee_kind : string;
  bee_filePath : string;
  bee_reason : string;
  bee_source : string;
  bee_confidence : BridgeEvidenceConfidence;
  bee_symbol : option string;
  bee_lineStart : option string;
  bee_lineEnd : option string;
  bee_snippet : option string;
}.

Definition parseBridgeEvidenceEntry (value : json) : option BridgeEvidenceEntry :=
  let raw := asRecord (Some value) in
  kind ← truthy (asString (json_get "kind" raw));
  filePath ← truthy (coalesce (asString (json_get "filePath" raw)) (asString (json_get "file_path" raw)));
  reason ← truthy (asString (json_get "reason" raw));
  source ← truthy (asString (json_get "source" raw));
  confidence ← asBridgeEvidenceConfidence (json_get "confidence" raw);
  Some (mkEvidenceEntry kind filePath reason source confidence
    (asString (json_get "symbol" raw))
    (coalesce (asNumber (json_get "lineStart" raw)) (asNumber (json_get "line_start" raw)))
    (coalesce (asNumber (json_get "lineEnd" raw)) (asNumber (json_get "line_end" raw)))
    (asString (json_get "snippet" raw))).

Record BridgeEvidenceBounds : Type := mkBounds {
  eb_hopCount : option string;
  eb_nodeLimit : option string;
  eb_traversalScope : option string;
  eb_stopReason : option string;
}.

Record BridgeEvidencePacket : Type := mkEvidencePacket {
  bp_answerState : BridgeAnswerState;
  bp_questionClass : string;
  bp_subject : string;
  bp_summary : string;
  bp_conclusion : string;
  bp_evidence : list BridgeEvidenceEntry;
  bp_gaps : list string;
  bp_bounds : BridgeEvidenceBounds;
}.

(** A value that is missing or [null] has no members, as any value that is not
    a record, and is refused with them. *)
Definition parseBridgeEvidencePacket (value : option json) : option BridgeEvidencePacket :=
  let raw := asRecord value in
  answerState ← asBridgeAnswerState (coalesce_json (json_get "answerState" raw) (json_get "answer_state" raw));
  questionClass ← truthy (coalesce (asString (json_get "questionClass" raw))
                                   (asString (json_get "question_class" raw)));
  subject ← truthy (asString (json_get "subject" raw));
  summary ← truthy (asString (json_get "summary" raw));
  conclusion ← truthy (asString (json_get "conclusion" raw));
  let boundsRaw := asRecord (json_get "bounds" raw) in
  Some (mkEvidencePacket answerState questionClass subject summary conclusion
    (omap parseBridgeEvidenceEntry (asItems (json_get "evidence" raw)))
    (omap (λ gap, asString (Some gap)) (asItems (json_get "gaps" raw)))
    (mkBounds
      (coalesce (asNumber (json_get "hopCount" boundsRaw)) (asNumber (json_get "hop_count" boundsRaw)))
      (coalesce (asNumber (json_get "nodeLimit" boundsRaw)) (asNumber (json_get "node_limit" boundsRaw)))
      (coalesce (asString (json_get "traversalScope" boundsRaw)) (asString (json_get "traversal_scope" boundsRaw)))
      (coalesce (asString (json_get "stopReason" boundsRaw)) (asString (json_get "stop_reason" boundsRaw))))).

(** ** Language capabilities *)

Inductive BridgeLanguageCapabilityState : Type := lc_supported | lc_partial | lc_best_effort | lc_unsupported.

Definition asBridgeLanguageCapabilityState (value : option json) : option BridgeLanguageCapabilityState :=
  s ← asString value;
  if String.eqb s "supported" then Some lc_supported
  else if String.eqb s "partial" then Some lc_partial
  else if String.eqb s "best-effort" then Some lc_best_effort
  else if String.eqb s "unsupported" then Some lc_unsupported
  else if String.eqb s "best_effort" then Some lc_best_effort
  else None.

Record BridgeLanguageCapabilityLanguageSummary : Type := mkLanguageSummary {
  ls_language : string;
  ls_state : BridgeLanguageCapabilityState;
  ls_reason : string;
  ls_parserBacked : bool;
}.

Definition parseBridgeLanguageCapabilityLanguageSummary (value : json) :
    option BridgeLanguageCapabilityLanguageSummary :=
  let raw := asRecord (Some value) in
  language ← truthy (asString (json_get "language" raw));
  state ← asBridgeLanguageCapabilityState (json_get "state" raw);
  reason ← truthy (asString (json_get "reason" raw));
  parserBacked ← asBoolean (json_get "parserBacked" raw);
  Some (mkLanguageSummary language state reason parserBacked).

Record BridgeLanguageCapabilitySummary : Type := mkCapabilitySummary {
  cs_capability : string;
  cs_weakestState : BridgeLanguageCapabilityState;
  cs_languages : list BridgeLanguageCapabilityLanguageSummary;
  cs_retrievalOnly : bool;
}.

Definition parseBridgeLanguageCapabilitySummary (value : option json) :
    option BridgeLanguageCapabilitySummary :=
  let raw := asRecord value in
  capability ← truthy (asString (json_get "capability" raw));
  weakestState ← asBridgeLanguageCapabilityState (json_get "weakestState" raw);
  retrievalOnly ← asBoolean (json_get "retrievalOnly" raw);
  Some (mkCapabilitySummary capability weakestState
    (omap parseBridgeLanguageCapabilityLanguageSummary (asItems (json_get "languages" raw))) retrievalOnly).

Record BridgeLanguageCapabilityEntry : Type := mkCapabilityEntry {
  ce_language : string;
  ce_capability : string;
  ce_state : BridgeLanguageCapabilityState;
  ce_reason : string;
  ce_parserBacked : bool;
}.

Definition parseBridgeLanguageCapabilityEntry (value : json) : option BridgeLanguageCapabilityEntry :=
  let raw := asRecord (Some value) in
  language ← truthy (asString (json_get "language" raw));
  capability ← truthy (asString (json_get "capability" raw));
  state ← asBridgeLanguageCapabilityState (json_get "state" raw);
  reason ← truthy (asString (json_get "reason" raw));
  parserBacked ← asBoolean (json_get "parserBacked" raw);
  Some (mkCapabilityEntry language capability state reason parserBacked).

(** ** Transport *)

Inductive BridgeTransportSelectedMode : Type := tm_json | tm_msgpack_rpc_v1 | tm_json_fallback.

#[global] Instance BridgeTransportSelectedMode_eq_dec : EqDecision BridgeTransportSelectedMode.
Proof. solve_decision. Defined.

Record BridgeTransportSnapshot : Type := mkTransport {
  ts_selectedCodec : BridgeRpcCodec;
  ts_selectedMode : BridgeTransportSelectedMode;
  ts_fallbackReason : option string;
  ts_maxFrameBytes : string;
  ts_codecVersion : string;
}.

(** The digits before the decimal point, and whether there is one. *)
Fixpoint integer_part (l : string) : string * bool :=
  match l with
  | EmptyString => ("", false)
  | String c rest =>
    if Ascii.eqb c "." then ("", true)
    else let '(digits, point) := integer_part rest in (String c digits, point)
  end.

(** [MIN <= n && n <= DEFAULT] for a number that may have a fraction; numbers
    that are printed with an exponent or a sign are out of the range. *)
Definition frame_bytes_in_range (l : string) : bool :=
  let '(digits, point) := integer_part l in
  all_digits digits
  && (MIN_BRIDGE_MAX_FRAME_BYTES <=? decimal_value digits)%N
  && (if point then decimal_value digits <? DEFAULT_BRIDGE_MAX_FRAME_BYTES
      else decimal_value digits <=? DEFAULT_BRIDGE_MAX_FRAME_BYTES)%N.

(** [validateBridgeMaxFrameBytes] of a number that the engine sent. *)
Definition validate_frame_literal (l : string) : outcome N :=
  if all_digits l && isValidBridgeMaxFrameBytes (decimal_value l) then Ret (decimal_value l)
  else Throw ("maxFrameBytes must be an integer between " +:+ pretty MIN_BRIDGE_MAX_FRAME_BYTES +:+
              " and " +:+ pretty DEFAULT_BRIDGE_MAX_FRAME_BYTES +:+ "; received " +:+ l +:+ ".").

Definition DEFAULT_FRAME_LITERAL : string := pretty DEFAULT_BRIDGE_MAX_FRAME_BYTES.

Definition asSelectedMode (value : option json) : option BridgeTransportSelectedMode :=
  s ← asString value;
  if String.eqb s "json" then Some tm_json
  else if String.eqb s "json-fallback" then Some tm_json_fallback
  else if String.eqb s "msgpack-rpc-v1" then Some tm_msgpack_rpc_v1
  else None.

Definition parseBridgeTransportSnapshot (value : option json) : option BridgeTransportSnapshot :=
  let raw := asRecord value in
  selectedCodec ← asBridgeRpcCodec (json_get "selectedCodec" raw);
  let rawMaxFrameBytes := asNumber (json_get "maxFrameBytes" raw) or_else DEFAULT_FRAME_LITERAL in
  Some (mkTransport selectedCodec
    (asSelectedMode (json_get "selectedMode" raw)
       or_else if is_msgpack selectedCodec then tm_msgpack_rpc_v1 else tm_json)
    (asString (json_get "fallbackReason" raw))
    (if frame_bytes_in_range rawMaxFrameBytes then rawMaxFrameBytes else DEFAULT_FRAME_LITERAL)
    (asNumber (json_get "codecVersion" raw) or_else "1")).

(** ** Capabilities *)

Definition V2_PROTOCOL_VERSION : string := "1".
Definition V2_METHODS : list string :=
  ["dh.initialize"; "query.search"; "query.definition"; "query.relationship"; "query.buildEvidence";
   "query.callHierarchy"; "query.entryPoints"; "runtime.ping"].
Definition V2_RELATIONS : list string := ["usage"; "dependencies"; "dependents"].
Definition SUPPORTED_BRIDGE_CODECS : list BridgeRpcCodec := [JSON_RPC_CODEC; MSGPACK_RPC_CODEC].

(** The owner is always Rust; a family has a name and a state. *)
Record BridgeRuntimeAuthorityCapability : Type := mkAuthority { ra_families : list (string * string) }.

Record BridgeInitializeCapabilities : Type := mkCapabilities {
  ic_protocolVersion : string;
  ic_methods : list string;
  ic_supportedRelations : list string;
  ic_languageCapabilityMatrix : list BridgeLanguageCapabilityEntry;
  ic_transport : option BridgeTransportSnapshot;
  ic_runtimeAuthority : option BridgeRuntimeAuthorityCapability;
}.

(** The names that were sent are as many as those required, and none of the
    latter is missing. *)
Definition advertises (required sent : list string) : bool :=
  (length sent =? length required)%nat && forallb (λ name, bool_decide (name ∈ sent)) required.

Definition parseV2Capabilities (value : option json) : option BridgeInitializeCapabilities :=
  let capabilities := asRecord value in
  protocolVersion ← asString (json_get "protocolVersion" capabilities);
  if negb (String.eqb protocolVersion V2_PROTOCOL_VERSION) then None else
  methods ← asStringArray (json_get "methods" capabilities);
  if negb (advertises V2_METHODS methods) then None else
  let relationship := asRecord (json_get "queryRelationship" capabilities) in
  supportedRelations ← asStringArray (json_get "supportedRelations" relationship);
  if negb (advertises V2_RELATIONS supportedRelations) then None else
  let matrix := asItems (json_get "languageCapabilityMatrix" capabilities) in
  if (length matrix =? 0)%nat then None else
  let languageCapabilityMatrix := omap parseBridgeLanguageCapabilityEntry matrix in
  if negb (length languageCapabilityMatrix =? length matrix)%nat then None else
  Some (mkCapabilities protocolVersion V2_METHODS V2_RELATIONS languageCapabilityMatrix
    (parseBridgeTransportSnapshot (json_get "transport" capabilities)) None).

(** ** Asking *)

(** The last constructor is a value outside the type, which the code expects
    from untyped callers. *)
Inductive BridgeAskQueryClass : Type :=
| search_file_discovery | graph_definition | graph_relationship_usage
| graph_relationship_dependencies | graph_relationship_dependents
| graph_call_hierarchy | graph_entry_points | graph_build_evidence
| other_query_class (name : string).

Inductive BridgeBuildEvidenceFreshness : Type := fr_indexed | fr_requireFresh | fr_require_fresh.

Definition freshness_name (f : BridgeBuildEvidenceFreshness) : string :=
  match f with
  | fr_indexed => "indexed" | fr_requireFresh => "requireFresh" | fr_require_fresh => "require_fresh"
  end.

Record BridgeBuildEvidenceBudget : Type := mkBudget {
  bb_maxFiles : option Q;
  bb_maxSymbols : option Q;
  bb_maxSnippets : option Q;
}.

Inductive BridgeBuildEvidenceIntent : Type := intent_explain.

Record BridgeAskRequest : Type := mkAsk {
  ask_query : string;
  ask_repoRoot : string;
  ask_queryClass : BridgeAskQueryClass;
  ask_limit : option Q;
  ask_maxDepth : option Q;
  ask_symbol : option string;
  ask_targetPath : option string;
  ask_intent : option BridgeBuildEvidenceIntent;
  ask_targets : option (list string);
  ask_budget : option BridgeBuildEvidenceBudget;
  ask_freshness : option BridgeBuildEvidenceFreshness;
}.

Definition isDelegatedSessionQueryClass (queryClass : BridgeAskQueryClass) : bool :=
  match queryClass with other_query_class _ => false | _ => true end.

Definition query_class_name (queryClass : BridgeAskQueryClass) : string :=
  match queryClass with
  | search_file_discovery => "search_file_discovery"
  | graph_definition => "graph_definition"
  | graph_relationship_usage => "graph_relationship_usage"
  | graph_relationship_dependencies => "graph_relationship_dependencies"
  | graph_relationship_dependents => "graph_relationship_dependents"
  | graph_call_hierarchy => "graph_call_hierarchy"
  | graph_entry_points => "graph_entry_points"
  | graph_build_evidence => "graph_build_evidence"
  | other_query_class name => name
  end.

Inductive BridgeDirectQueryMethod : Type :=
| query_search | query_definition | query_relationship | query_buildEvidence
| query_callHierarchy | query_entryPoints.

Definition method_name (m : BridgeDirectQueryMethod) : string :=
  match m with
  | query_search => "query.search"
  | query_definition => "query.definition"
  | query_relationship => "query.relationship"
  | query_buildEvidence => "query.buildEvidence"
  | query_callHierarchy => "query.callHierarchy"
  | query_entryPoints => "query.entryPoints"
  end.

(** A limit, when there is one, is a finite number. *)
Definition boundedBuildEvidenceBudgetFromLimit (limit : option Q) : BridgeBuildEvidenceBudget :=
  let maxFiles :=
    match limit with
    | None => 5%Z
    | Some limit =>
      if Qle_bool limit 0 then 5%Z else Z.min (Z.max 1 (Qfloor limit)) 5
    end in
  mkBudget (Some (inject_Z maxFiles)) (Some (inject_Z 8)) (Some (inject_Z 8)).

Section calls.
(** The literal of a number. *)
Variable num_literal : Q → string.

Definition number (q : Q) : json := JNum (num_literal q).

Definition budget_json (b : BridgeBuildEvidenceBudget) : json :=
  JObj (opt_member "maxFiles" (number <$> bb_maxFiles b) ++
        opt_member "maxSymbols" (number <$> bb_maxSymbols b) ++
        opt_member "maxSnippets" (number <$> bb_maxSnippets b)).

(** The method and the parameters; [inr] is the error that is thrown. *)
Definition buildAskCall (input : BridgeAskRequest) :
    (BridgeDirectQueryMethod * json) + DhBridgeError :=
  let limit := match ask_limit input with Some q => number q | None => JNum "5" end in
  let maxDepth := match ask_maxDepth input with Some q => number q | None => JNum "3" end in
  let symbol := JStr (ask_symbol input or_else ask_query input) in
  let target := JStr (ask_targetPath input or_else ask_query input) in
  let root := JStr (ask_repoRoot input) in
  match ask_queryClass input with
  | search_file_discovery =>
    inl (query_search,
      JObj [("query", JStr (ask_query input)); ("workspaceRoot", root);
            ("mode", JStr "file_path"); ("limit", limit)])
  | graph_definition =>
    inl (query_definition, JObj [("symbol", symbol); ("workspaceRoot", root); ("limit", limit)])
  | graph_relationship_usage =>
    inl (query_relationship,
      JObj [("relation", JStr "usage"); ("symbol", symbol); ("workspaceRoot", root); ("limit", limit)])
  | graph_relationship_dependencies =>
    inl (query_relationship,
      JObj [("relation", JStr "dependencies"); ("filePath", target); ("workspaceRoot", root);
            ("limit", limit)])
  | graph_relationship_dependents =>
    inl (query_relationship,
      JObj [("relation", JStr "dependents"); ("target", target); ("workspaceRoot", root);
            ("limit", limit)])
  | graph_call_hierarchy =>
    inl (query_callHierarchy,
      JObj ([("symbol", symbol); ("workspaceRoot", root)] ++ opt_str "filePath" (ask_targetPath input)
            ++ [("limit", limit); ("maxDepth", maxDepth)]))
  | graph_entry_points =>
    inl (query_entryPoints,
      JObj ([("symbol", symbol); ("workspaceRoot", root)] ++ opt_str "filePath" (ask_targetPath input)
            ++ [("limit", limit); ("maxDepth", maxDepth)]))
  | graph_build_evidence =>
    inl (query_buildEvidence,
      JObj [("query", JStr (ask_query input)); ("workspaceRoot", root); ("intent", JStr "explain");
            ("targets", JArr (JStr <$> (ask_targets input or_else [])));
            ("budget", budget_json (ask_budget input
               or_else boundedBuildEvidenceBudgetFromLimit (ask_limit input)));
            ("freshness", JStr (freshness_name (ask_freshness input or_else fr_indexed)))])
  | other_query_class name =>
    inr (bridge_error INVALID_REQUEST ph_request
           ("Unsupported query class for bridge contract v2: " +:+ name))
  end.
End calls.

(** ** Reading an answer *)

Definition inferQuestionClassFromCall (method : BridgeDirectQueryMethod) (params : json) : string :=
  match method with
  | query_search =>
    let mode := asString (json_get "mode" params) or_else "symbol" in
    if String.eqb mode "file_path" then "search_file_discovery"
    else if String.eqb mode "structural" then "search_structural"
    else if String.eqb mode "concept" then "search_concept_relevance"
    else "search_symbol"
  | query_definition => "definition"
  | query_buildEvidence => "build_evidence"
  | query_callHierarchy => "call_hierarchy"
  | query_entryPoints => "entry_points"
  | query_relationship =>
    match asString (json_get "relation" params) with
    | Some relation =>
      if String.eqb relation "usage" then "references"
      else if String.eqb relation "dependencies" then "dependencies"
      else if String.eqb relation "dependents" then "dependents"
      else "unknown"
    | None => "unknown"
    end
  end.

Record BridgeAskResultDerivedFields : Type := mkDerived {
  rd_answerState : BridgeAnswerState;
  rd_questionClass : string;
  rd_items : list BridgeSearchItem;
  rd_evidence : option BridgeEvidencePacket;
  rd_languageCapabilitySummary : option BridgeLanguageCapabilitySummary;
}.

Definition parseBridgeAskResult (result : option json) (method : BridgeDirectQueryMethod) (params : json) :
    BridgeAskResultDerivedFields + DhBridgeError :=
  let resultObj := asRecord result in
  let evidence := parseBridgeEvidencePacket (json_get "evidence" resultObj) in
  match coalesce (asBridgeAnswerState (json_get "answerState" resultObj)) (bp_answerState <$> evidence) with
  | None =>
    inr (bridge_error INVALID_REQUEST ph_request
           ("Rust bridge response for '" +:+ method_name method +:+ "' is missing answerState."))
  | Some resolvedAnswerState =>
    inl (mkDerived resolvedAnswerState
      (coalesce (asString (json_get "questionClass" resultObj)) (bp_questionClass <$> evidence)
         or_else inferQuestionClassFromCall method params)
      (omap toBridgeSearchItem (asItems (json_get "items" resultObj)))
      evidence
      (parseBridgeLanguageCapabilitySummary (json_get "languageCapabilitySummary" resultObj)))
  end.

(** ** Errors of the engine *)

(** The symbolic codes, in the order in which they are compared. *)
Definition symbolic_codes : list (string * BridgeFailureCode) :=
  [("CAPABILITY_UNSUPPORTED", CAPABILITY_UNSUPPORTED); ("ACCESS_DENIED", ACCESS_DENIED);
   ("NOT_FOUND", NOT_FOUND); ("TIMEOUT", TIMEOUT); ("EXECUTION_FAILED", EXECUTION_FAILED);
   ("RUNTIME_UNAVAILABLE", RUNTIME_UNAVAILABLE); ("BINARY_FILE_UNSUPPORTED", BINARY_FILE_UNSUPPORTED);
   ("BRIDGE_CODEC_UNSUPPORTED", BRIDGE_CODEC_UNSUPPORTED);
   ("BRIDGE_CODEC_DECODE_FAILED", BRIDGE_CODEC_DECODE_FAILED);
   ("BRIDGE_FRAME_TOO_LARGE", BRIDGE_FRAME_TOO_LARGE);
   ("BRIDGE_CODEC_NEGOTIATION_FAILED", BRIDGE_CODEC_NEGOTIATION_FAILED)].

Definition symbolic_code (data : option json) : option BridgeFailureCode :=
  name ← asString (json_get "code" (asRecord data));
  snd <$> List.find (λ c, String.eqb c.1 name) symbolic_codes.

(** [code] is the literal of the number, [None] when there is none. *)
Definition mapRpcError (code : option string) (message : string) (phase : BridgeFailurePhase)
    (data : option json) : DhBridgeError :=
  match symbolic_code data with
  | Some TIMEOUT => mkBridgeError TIMEOUT phase message true
  | Some c => bridge_error c phase message
  | None =>
    bridge_error
      (if decide (code = Some "-32601") then METHOD_NOT_SUPPORTED
       else if decide (code = Some "-32600" ∨ code = Some "-32602") then INVALID_REQUEST
       else REQUEST_FAILED) phase message
  end.

(** ** Where the engine is *)

Definition resolveRustEngineRoot (existsSync : string → bool) (fromSourceLayout repoRoot : string) : string :=
  let fromRepoRoot := path_join repoRoot "rust-engine" in
  if existsSync fromRepoRoot then fromRepoRoot
  else if existsSync fromSourceLayout then fromSourceLayout
  else fromRepoRoot.

