(* ===== verification/Client.v ===== *)
(** * The client of the bridge to the Rust engine

    [packages/opencode-app/src/bridge/dh-jsonrpc-stdio-client.ts]:
    [DhJsonRpcStdioClient] as a state machine.  A call of one of its methods is
    an asynchronous function that waits for the handshake and then for its
    answer: what it does next is kept with the request it waits for, and moves
    to the queue of microtasks when that request settles.  The microtasks run
    in order before the next event of a child process, of a timer or of the
    input stream; a caller may start another call, or close the client, at any
    time. *)

From S2P Require Import Prelude Json Codec Peer ScanPaths BridgeMessages.
From Stdlib Require Import Ascii String QArith.
From stdpp Require Import prelude list strings pretty.
Set Default Proof Using "Type".
Set Warnings "-clear-no-such-hyp".
Local Open Scope js_scope.

(** ** Calls and what they return *)

Inductive Call : Type :=
| CallAsk (input : BridgeAskRequest)
| CallSession (input : BridgeAskRequest)
| CallSnapshot
| CallPing.

Record BridgeAskResult : Type := mkAskResult {
  ar_method : BridgeDirectQueryMethod;
  ar_seamMethod : option string;
  ar_delegatedMethod : option BridgeDirectQueryMethod;
  ar_requestId : N;
  ar_engineName : string;
  ar_engineVersion : string;
  ar_protocolVersion : string;
  ar_capabilities : BridgeInitializeCapabilities;
  ar_derived : BridgeAskResultDerivedFields;
}.

Record BridgeInitializeSnapshot : Type := mkSnapshot {
  sn_engineName : string;
  sn_engineVersion : string;
  sn_protocolVersion : string;
  sn_capabilities : BridgeInitializeCapabilities;
  sn_transport : BridgeTransportSnapshot;
}.

Record RuntimePing : Type := mkPing {
  rp_ok : bool;
  rp_workerState : string;
  rp_healthState : string;
  rp_phase : string;
}.

(** How the promise of a call ends: a value, a bridge error, or the [TypeError]
    of reading a member of [null]. *)
Inductive CallResult : Type :=
| Asked (r : BridgeAskResult)
| Snapshot (s : BridgeInitializeSnapshot)
| Ping (p : RuntimePing)
| Failed (e : DhBridgeError)
| FailedType.

(** ** State *)

Record ChildProcess : Type := mkChild {
  ch_cwd : string;
  ch_workspace : string;
  ch_killed : bool;
}.

(** The rest of the call [k] after [await this.request(...)]: of the handshake,
    or of the call's own request with its id and, unless it is a ping, its
    method and parameters. *)
Inductive Waiter : Type :=
| AfterInitialize (k : nat) (call : Call)
| AfterAnswer (k : nat) (call : Call) (requestId : N) (built : option (BridgeDirectQueryMethod * json)).

Record PendingRequest : Type := mkPending {
  pe_id : N;
  pe_phase : BridgeFailurePhase;
  pe_method : string;
  pe_timeoutMs : N;
  pe_waiter : Waiter;
}.

(** A microtask: a settled request resumes its waiter; the body of a call
    continues after [ensureInitialized]. *)
Inductive Task : Type :=
| Resume (w : Waiter) (r : json + DhBridgeError)
| Body (k : nat) (call : Call).

Record Transport : Type := mkClientTransport {
  t_activeCodec : BridgeRpcCodec;
  t_negotiatedCodec : BridgeRpcCodec;
  t_selectedMode : BridgeTransportSelectedMode;
  t_fallbackReason : option string;
  t_maxFrameBytes : N;
  t_codecVersion : string;
}.

Record Engine : Type := mkEngine {
  e_initialized : bool;
  e_engineName : string;
  e_engineVersion : string;
  e_protocolVersion : string;
  e_capabilities : BridgeInitializeCapabilities;
}.

(** [c_children] are the processes spawned so far, [c_child] the current one;
    [c_sent] the messages written, each with the child it went to; [c_calls] the
    number of calls made; [c_results] how they ended; [c_uncaught] an exception
    that left a stream handler. *)
Record Client : Type := mkClient {
  c_children : list ChildProcess;
  c_child : option nat;
  c_closed : bool;
  c_nextRequestId : N;
  c_readBuffer : bytes;
  c_transport : Transport;
  c_pending : list PendingRequest;
  c_engine : Engine;
  c_sent : list (nat * json);
  c_calls : nat;
  c_tasks : list Task;
  c_results : list (nat * CallResult);
  c_uncaught : bool;
}.

Definition initial_transport : Transport :=
  mkClientTransport JSON_RPC_CODEC JSON_RPC_CODEC tm_json None DEFAULT_BRIDGE_MAX_FRAME_BYTES "1".

Definition initial_engine : Engine :=
  mkEngine false "dh-engine" "unknown" V2_PROTOCOL_VERSION
    (mkCapabilities V2_PROTOCOL_VERSION V2_METHODS V2_RELATIONS [] None None).

Definition new_client : Client :=
  mkClient [] None false 1 [] initial_transport [] initial_engine [] 0 [] [] false.

Definition set_children (children : list ChildProcess) (child : option nat) (c : Client) : Client :=
  mkClient children child (c_closed c) (c_nextRequestId c) (c_readBuffer c) (c_transport c) (c_pending c)
    (c_engine c) (c_sent c) (c_calls c) (c_tasks c) (c_results c) (c_uncaught c).
Definition set_closed (c : Client) : Client :=
  mkClient (c_children c) (c_child c) true (c_nextRequestId c) (c_readBuffer c) (c_transport c) (c_pending c)
    (c_engine c) (c_sent c) (c_calls c) (c_tasks c) (c_results c) (c_uncaught c).
Definition set_buffer (b : bytes) (c : Client) : Client :=
  mkClient (c_children c) (c_child c) (c_closed c) (c_nextRequestId c) b (c_transport c) (c_pending c)
    (c_engine c) (c_sent c) (c_calls c) (c_tasks c) (c_results c) (c_uncaught c).
Definition set_uncaught (c : Client) : Client :=
  mkClient (c_children c) (c_child c) (c_closed c) (c_nextRequestId c) (c_readBuffer c) (c_transport c)
    (c_pending c) (c_engine c) (c_sent c) (c_calls c) (c_tasks c) (c_results c) true.
Definition set_transport (t : Transport) (c : Client) : Client :=
  mkClient (c_children c) (c_child c) (c_closed c) (c_nextRequestId c) (c_readBuffer c) t (c_pending c)
    (c_engine c) (c_sent c) (c_calls c) (c_tasks c) (c_results c) (c_uncaught c).
Definition set_engine (e : Engine) (c : Client) : Client :=
  mkClient (c_children c) (c_child c) (c_closed c) (c_nextRequestId c) (c_readBuffer c) (c_transport c)
    (c_pending c) e (c_sent c) (c_calls c) (c_tasks c) (c_results c) (c_uncaught c).
Definition set_queues (pending : list PendingRequest) (tasks : list Task) (c : Client) : Client :=
  mkClient (c_children c) (c_child c) (c_closed c) (c_nextRequestId c) (c_readBuffer c) (c_transport c)
    pending (c_engine c) (c_sent c) (c_calls c) tasks (c_results c) (c_uncaught c).
Definition add_message (child : nat) (m : json) (c : Client) : Client :=
  mkClient (c_children c) (c_child c) (c_closed c) (c_nextRequestId c) (c_readBuffer c) (c_transport c)
    (c_pending c) (c_engine c) (c_sent c ++ [(child, m)]) (c_calls c) (c_tasks c) (c_results c)
    (c_uncaught c).
(** [this.nextRequestId++]. *)
Definition next_id (c : Client) : Client :=
  mkClient (c_children c) (c_child c) (c_closed c) (c_nextRequestId c + 1) (c_readBuffer c) (c_transport c)
    (c_pending c) (c_engine c) (c_sent c) (c_calls c) (c_tasks c) (c_results c) (c_uncaught c).
Definition next_call (c : Client) : Client :=
  mkClient (c_children c) (c_child c) (c_closed c) (c_nextRequestId c) (c_readBuffer c) (c_transport c)
    (c_pending c) (c_engine c) (c_sent c) (S (c_calls c)) (c_tasks c) (c_results c) (c_uncaught c).
(** The promise of the call [k] settles. *)
Definition finish (k : nat) (r : CallResult) (c : Client) : Client :=
  mkClient (c_children c) (c_child c) (c_closed c) (c_nextRequestId c) (c_readBuffer c) (c_transport c)
    (c_pending c) (c_engine c) (c_sent c) (c_calls c) (c_tasks c) (c_results c ++ [(k, r)]) (c_uncaught c).

Definition add_task (t : Task) (c : Client) : Client :=
  set_queues (c_pending c) (c_tasks c ++ [t]) c.

(** ** Requests *)

(** [pending.get(id)]; then the timer is cleared, the entry deleted and its
    promise settled. *)
Definition settle (id : N) (r : PendingRequest → json + DhBridgeError) (c : Client) : Client :=
  match List.find (λ e, N.eqb (pe_id e) id) (c_pending c) with
  | None => c
  | Some e =>
    set_queues (filter (λ e, pe_id e ≠ id) (c_pending c)) (c_tasks c ++ [Resume (pe_waiter e) (r e)]) c
  end.

Definition failAllPending (createError : BridgeFailurePhase → DhBridgeError) (c : Client) : Client :=
  set_queues [] (c_tasks c ++ ((λ e, Resume (pe_waiter e) (inr (createError (pe_phase e)))) <$> c_pending c)) c.

(** The handler of the timer of a request; it runs only for a request that is
    pending, as settling clears it. *)
Definition on_timeout (id : N) (c : Client) : Client :=
  settle id (λ e, inr (mkBridgeError BRIDGE_TIMEOUT (pe_phase e)
    ("Bridge request timed out after " +:+ pretty (pe_timeoutMs e) +:+ "ms for method '" +:+
     pe_method e +:+ "'.") true)) c.

(** The callback of [child.stdin.write] when it reports an error. *)
Definition on_write_error (id : N) (message : string) (c : Client) : Client :=
  settle id (λ e, inr (bridge_error BRIDGE_UNREACHABLE (pe_phase e)
    ("Failed to send bridge request: " +:+ message))) c.

Section client.
Context `{BodyCodec json}.
(** The literal of a number, the environment variable [DH_BRIDGE_CODEC], the
    file system and the place of this source file, and the constructor's
    arguments. *)
Variable num_literal : Q → string.
Variable DH_BRIDGE_CODEC : option string.
Variable existsSync : string → bool.
Variable fromSourceLayout : string.
Variable repoRoot : string.
Variable startupTimeoutMs : N.
Variable requestTimeoutMs : N.

Definition request (id : N) (method : string) (params : option json) (phase : BridgeFailurePhase)
    (timeoutMs : N) (w : Waiter) (c : Client) : Client :=
  if c_closed c then
    add_task (Resume w (inr (bridge_error BRIDGE_UNREACHABLE phase "Bridge client is already closed."))) c
  else match c_child c with
  | None =>
    add_task (Resume w (inr (bridge_error BRIDGE_UNREACHABLE phase "Bridge process is not available."))) c
  | Some child =>
    let message := request_message id method params in
    let c := set_queues (c_pending c ++ [mkPending id phase method timeoutMs w]) (c_tasks c) c in
    match encodeRpcFrame (t_activeCodec (c_transport c)) message (t_maxFrameBytes (c_transport c)) with
    | Throw e =>
      set_queues (filter (λ e, pe_id e ≠ id) (c_pending c))
        (c_tasks c ++ [Resume w (inr (bridge_error BRIDGE_FRAME_TOO_LARGE phase
           ("Failed to encode bridge request '" +:+ method +:+ "': " +:+ e)))]) c
    | Ret _ => add_message child message c
    end
  end.

(** ** The handshake *)

Definition codec_override : BridgeCodecModeOverride := normalizeBridgeCodecModeOverride DH_BRIDGE_CODEC.

Definition override_name (m : BridgeCodecModeOverride) : string :=
  match m with mode_auto => "auto" | mode_json => "json" | mode_msgpack => "msgpack" end.

Definition initializeTransportParams (c : Client) : json :=
  let only_json := bool_decide (override_name codec_override = "json") in
  JObj [("supportedCodecs", JArr ((JStr ∘ codec_name) <$>
           if only_json then [JSON_RPC_CODEC] else SUPPORTED_BRIDGE_CODECS));
        ("preferredCodec", JStr (codec_name (if only_json then JSON_RPC_CODEC else MSGPACK_RPC_CODEC)));
        ("maxFrameBytes", JNum (pretty (t_maxFrameBytes (c_transport c))));
        ("binaryBridge", JObj [("enabled", JBool (negb only_json)); ("minPayloadBytes", JNum "0")]);
        ("codecOverride", JStr (override_name codec_override))].

Definition initialize_params (root : string) (c : Client) : json :=
  JObj [("protocolVersion", JStr "1"); ("workspaceRoot", JStr root);
        ("client", JObj [("name", JStr "dh-cli"); ("version", JStr "0.1.0")]);
        ("transport", initializeTransportParams c)].

(** [ensureInitialized] up to its first [await]. *)
Definition ensureInitialized (root : string) (k : nat) (call : Call) (c : Client) : Client :=
  if e_initialized (c_engine c) then add_task (Body k call) c
  else
    let child := mkChild (resolveRustEngineRoot existsSync fromSourceLayout root) root false in
    let c := set_children (c_children c ++ [child]) (Some (length (c_children c))) c in
    let id := c_nextRequestId c in
    let c := next_id c in
    request id "dh.initialize" (Some (initialize_params root c)) ph_startup startupTimeoutMs
      (AfterInitialize k call) c.

Definition transportSnapshot (t : Transport) : BridgeTransportSnapshot :=
  mkTransport (t_negotiatedCodec t) (t_selectedMode t) (t_fallbackReason t)
    (pretty (t_maxFrameBytes t)) (t_codecVersion t).

(** The transport that the engine's answer selects, or the error that is
    thrown. *)
Definition applyNegotiatedTransport (resultTransport : option json)
    (capabilitiesTransport : option BridgeTransportSnapshot) : Transport + DhBridgeError :=
  let transport := asRecord resultTransport in
  let selectedCodec := coalesce (asBridgeRpcCodec (json_get "selectedCodec" transport))
                         (ts_selectedCodec <$> capabilitiesTransport) or_else JSON_RPC_CODEC in
  let fallbackReason := coalesce (asString (json_get "fallbackReason" transport))
                          (capabilitiesTransport ≫= ts_fallbackReason) in
  let maxFrameBytes := coalesce (asNumber (json_get "maxFrameBytes" transport))
                         (ts_maxFrameBytes <$> capabilitiesTransport) or_else DEFAULT_FRAME_LITERAL in
  let codecVersion := coalesce (asNumber (json_get "codecVersion" transport))
                        (ts_codecVersion <$> capabilitiesTransport) or_else "1" in
  match validate_frame_literal maxFrameBytes with
  | Throw e =>
    inr (bridge_error BRIDGE_CODEC_NEGOTIATION_FAILED ph_startup
           ("Bridge selected invalid maxFrameBytes: " +:+ e))
  | Ret limit =>
    if bool_decide (override_name codec_override = "msgpack") && negb (is_msgpack selectedCodec) then
      inr (bridge_error BRIDGE_CODEC_NEGOTIATION_FAILED ph_startup
             ("DH_BRIDGE_CODEC=msgpack required " +:+ MSGPACK_RPC_CODEC_NAME +:+
              ", but bridge selected " +:+ codec_name selectedCodec +:+ "."))
    else if is_msgpack selectedCodec && negb (String.eqb codecVersion "1") then
      inr (bridge_error BRIDGE_CODEC_UNSUPPORTED ph_startup
             ("Bridge selected unsupported MessagePack codecVersion '" +:+ codecVersion +:+ "'."))
    else
      inl (mkClientTransport selectedCodec selectedCodec
             (if is_msgpack selectedCodec then tm_msgpack_rpc_v1
              else match truthy fallbackReason with Some _ => tm_json_fallback | None => tm_json end)
             fallbackReason limit codecVersion)
  end.

(** [response.error.code], [.message] and [.data], passed to [mapRpcError]; the
    error is not [null]. *)
Definition map_error (phase : BridgeFailurePhase) (error : json) : DhBridgeError :=
  mapRpcError (match json_get "code" error with Some (JNum l) => Some l | _ => None end)
    (match json_get "message" error with Some v => js_String v | None => "" end)
    phase (json_get "data" error).

(** [if ("error" in response) throw this.mapRpcError(...)]. *)
Definition response_failure (phase : BridgeFailurePhase) (response : json) : option CallResult :=
  match json_get "error" response with
  | None => None
  | Some JNull => Some FailedType
  | Some error => Some (Failed (map_error phase error))
  end.

(** [ensureInitialized] after the answer; [inr] is what it throws, with the
    fields assigned before. *)
Definition initialized (response : json) (c : Client) : Client * option CallResult :=
  match response_failure ph_startup response with
  | Some failure => (c, Some failure)
  | None =>
    let resultObj := asRecord (json_get "result" response) in
    let name := asString (json_get "serverName" resultObj) or_else "dh-engine" in
    let version := asString (json_get "serverVersion" resultObj) or_else "unknown" in
    let e := c_engine c in
    let c := set_engine (mkEngine (e_initialized e) name version (e_protocolVersion e) (e_capabilities e)) c in
    let protocolVersion := asString (json_get "protocolVersion" resultObj) in
    if negb (bool_decide (protocolVersion = Some V2_PROTOCOL_VERSION)) then
      (c, Some (Failed (bridge_error INVALID_REQUEST ph_startup
        ("Bridge initialize returned unsupported protocolVersion '" +:+
         (protocolVersion or_else "missing") +:+ "'."))))
    else match parseV2Capabilities (json_get "capabilities" resultObj) with
    | None =>
      (c, Some (Failed (bridge_error INVALID_REQUEST ph_startup
        "Bridge initialize did not advertise required V2 capabilities.")))
    | Some capabilities =>
      let c := set_engine (mkEngine (e_initialized e) name version V2_PROTOCOL_VERSION capabilities) c in
      match applyNegotiatedTransport (json_get "transport" resultObj) (ic_transport capabilities) with
      | inr error => (c, Some (Failed error))
      | inl t =>
        (set_engine (mkEngine true name version V2_PROTOCOL_VERSION
           (mkCapabilities (ic_protocolVersion capabilities) (ic_methods capabilities)
              (ic_supportedRelations capabilities) (ic_languageCapabilityMatrix capabilities)
              (Some (transportSnapshot t)) (ic_runtimeAuthority capabilities))) (set_transport t c), None)
      end
    end
  end.

(** ** The methods *)

Definition call_root (call : Call) : string :=
  match call with CallAsk input | CallSession input => ask_repoRoot input | _ => repoRoot end.

(** A caller makes the next call. *)
Definition start (call : Call) (c : Client) : Client :=
  ensureInitialized (call_root call) (c_calls c) call (next_call c).

Definition runAskQuery (k : nat) (input : BridgeAskRequest) (c : Client) : Client :=
  if negb (isDelegatedSessionQueryClass (ask_queryClass input)) then
    finish k (Failed (bridge_error CAPABILITY_UNSUPPORTED ph_request
      ("Direct bridge ask does not support query class '" +:+ query_class_name (ask_queryClass input) +:+
       "' in this bounded path."))) c
  else
    let requestId := c_nextRequestId c in
    let c := next_id c in
    match buildAskCall num_literal input with
    | inr e => finish k (Failed e) c
    | inl (method, params) =>
      request requestId (method_name method) (Some params) ph_request requestTimeoutMs
        (AfterAnswer k (CallAsk input) requestId (Some (method, params))) c
    end.

Definition runSessionCommand (k : nat) (input : BridgeAskRequest) (c : Client) : Client :=
  let requestId := c_nextRequestId c in
  let c := next_id c in
  match buildAskCall num_literal input with
  | inr e => finish k (Failed e) c
  | inl (method, params) =>
    request requestId "session.runCommand"
      (Some (JObj [("query", JObj [("method", JStr (method_name method)); ("params", params)])]))
      ph_request requestTimeoutMs (AfterAnswer k (CallSession input) requestId (Some (method, params))) c
  end.

Definition getInitializeSnapshot (k : nat) (c : Client) : Client :=
  let e := c_engine c in
  finish k (Snapshot (mkSnapshot (e_engineName e) (e_engineVersion e) (e_protocolVersion e)
    (e_capabilities e) (transportSnapshot (c_transport c)))) c.

Definition getRuntimePing (k : nat) (c : Client) : Client :=
  let requestId := c_nextRequestId c in
  request requestId "runtime.ping" None ph_request requestTimeoutMs
    (AfterAnswer k CallPing requestId None) (next_id c).

(** The part of a call after [await this.ensureInitialized(...)]. *)
Definition body (k : nat) (call : Call) (c : Client) : Client :=
  match call with
  | CallAsk input => runAskQuery k input c
  | CallSession input => runSessionCommand k input c
  | CallSnapshot => getInitializeSnapshot k c
  | CallPing => getRuntimePing k c
  end.

(** [Boolean(value)]. *)
Definition js_Boolean (v : option json) : bool :=
  match v with
  | None | Some JNull | Some (JBool false) => false
  | Some (JNum l) => negb (bool_decide (l = "0" ∨ l = "-0" ∨ l = "NaN"))
  | Some (JStr s) => negb (String.eqb s "")
  | _ => true
  end.

(** [String(value ?? "unknown")]. *)
Definition state_name (v : option json) : string :=
  match v with None | Some JNull => "unknown" | Some v => js_String v end.

(** The value that the call returns for the answer to its request. *)
Definition answer (call : Call) (requestId : N) (built : option (BridgeDirectQueryMethod * json))
    (response : json) (c : Client) : CallResult :=
  match response_failure ph_request response with
  | Some failure => failure
  | None =>
    match built with
    | None =>
      let resultObj := asRecord (json_get "result" response) in
      Ping (mkPing (js_Boolean (json_get "ok" resultObj)) (state_name (json_get "workerState" resultObj))
        (state_name (json_get "healthState" resultObj)) (state_name (json_get "phase" resultObj)))
    | Some (method, params) =>
      match parseBridgeAskResult (json_get "result" response) method params with
      | inr e => Failed e
      | inl derived =>
        let session := match call with CallSession _ => true | _ => false end in
        let e := c_engine c in
        Asked (mkAskResult method (if session then Some "session.runCommand" else None)
          (if session then Some method else None) requestId (e_engineName e) (e_engineVersion e)
          (e_protocolVersion e) (e_capabilities e) derived)
      end
    end
  end.

(** ** Microtasks *)

Definition run_task (t : Task) (c : Client) : Client :=
  match t with
  | Resume (AfterInitialize k call) (inr e) => finish k (Failed e) c
  | Resume (AfterInitialize k call) (inl response) =>
    match initialized response c with
    | (c, Some failure) => finish k failure c
    | (c, None) => add_task (Body k call) c
    end
  | Resume (AfterAnswer k _ _ _) (inr e) => finish k (Failed e) c
  | Resume (AfterAnswer k call requestId built) (inl response) =>
    finish k (answer call requestId built response c) c
  | Body k call => body k call c
  end.

Fixpoint run_tasks (fuel : nat) (c : Client) : Client :=
  match fuel, c_tasks c with
  | S fuel, t :: tasks => run_tasks fuel (run_task t (set_queues (c_pending c) tasks c))
  | _, _ => c
  end.

(** How many microtasks a microtask may still lead to, with itself. *)
Definition task_weight (t : Task) : nat :=
  match t with
  | Resume (AfterInitialize _ _) _ => 3
  | Body _ _ => 2
  | Resume (AfterAnswer _ _ _ _) _ => 1
  end.

(** The queue is emptied. *)
Definition turn (c : Client) : Client :=
  run_tasks (sum_list_with task_weight (c_tasks c)) c.

(** ** Input *)

Definition header_failure (h : BridgeFrameHeaders) (phase : BridgeFailurePhase) : DhBridgeError :=
  bridge_error INVALID_REQUEST phase
    (if fh_malformedContentLength h then "Bridge response has a malformed Content-Length header."
     else "Bridge response is missing a valid Content-Length header.").

Definition size_failure (size limit : N) (phase : BridgeFailurePhase) : DhBridgeError :=
  bridge_error BRIDGE_FRAME_TOO_LARGE phase
    ("Bridge response frame is " +:+ pretty size +:+ " bytes, exceeding maxFrameBytes=" +:+ pretty limit +:+ ".").

Definition decode_failure (codec : BridgeRpcCodec) (message : string) (phase : BridgeFailurePhase) :
    DhBridgeError :=
  bridge_error (if is_msgpack codec then BRIDGE_CODEC_DECODE_FAILED else INVALID_REQUEST) phase
    ("Bridge response payload could not be decoded as " +:+ codec_name codec +:+ ": " +:+ message).

(** A decoded message goes to the request whose id it carries, if one is
    pending. *)
Definition deliver (parsed : json) (c : Client) : Client :=
  match json_get "id" parsed with
  | Some (JNum l) =>
    match List.find (λ e, String.eqb (pretty (pe_id e)) l) (c_pending c) with
    | Some e => settle (pe_id e) (λ _, inl parsed) c
    | None => c
    end
  | _ => c
  end.

(** [while (true)]: an iteration that continues has taken at least four bytes
    from the buffer.  Reading [id] of a decoded [null] throws. *)
Fixpoint drain_buffer (fuel : nat) (c : Client) : Client :=
  match fuel with
  | O => c
  | S fuel =>
    let buffer := c_readBuffer c in
    let codec := t_activeCodec (c_transport c) in
    let maxFrameBytes := t_maxFrameBytes (c_transport c) in
    match findFrameHeaderEnd buffer with
    | None => c
    | Some headerEnd =>
      let h := parseFrameHeaders (ascii_unit <$> take headerEnd buffer) in
      match fh_contentLength h, fh_malformedContentLength h with
      | Some contentLength, false =>
        if (maxFrameBytes <? contentLength)%N
        then set_buffer [] (failAllPending (size_failure contentLength maxFrameBytes) c)
        else
          let bodyStart := headerEnd + 4 in
          let frameLength := bodyStart + N.to_nat contentLength in
          if (length buffer <? frameLength)%nat then c
          else
            let c := set_buffer (drop frameLength buffer) c in
            match decodeRpcBody codec (drop bodyStart (take frameLength buffer)) maxFrameBytes with
            | Throw e => failAllPending (decode_failure codec e) c
            | Ret JNull => set_uncaught c
            | Ret parsed => drain_buffer fuel (deliver parsed c)
            end
      | _, _ => set_buffer [] (failAllPending (header_failure h) c)
      end
    end
  end.

Definition drainFrames (c : Client) : Client := drain_buffer (S (length (c_readBuffer c))) c.

Definition on_stdout (chunk : bytes) (c : Client) : Client :=
  drainFrames (set_buffer (c_readBuffer c ++ chunk) c).

(** ** The child process and the end *)

Definition process_failure (message : string) (phase : BridgeFailurePhase) : DhBridgeError :=
  bridge_error (match phase with ph_startup => BRIDGE_STARTUP_FAILED | ph_request => BRIDGE_UNREACHABLE end)
    phase message.

Definition on_child_error (message : string) (c : Client) : Client :=
  failAllPending (process_failure ("Failed to start rust bridge process: " +:+ message)) c.

Definition on_exit (code signal : option string) (c : Client) : Client :=
  if c_closed c then c
  else failAllPending (process_failure ("Rust bridge process exited unexpectedly (code=" +:+
         (code or_else "null") +:+ ", signal=" +:+ (signal or_else "null") +:+ ").")) c.

Definition kill (i : nat) (children : list ChildProcess) : list ChildProcess :=
  alter (λ ch, mkChild (ch_cwd ch) (ch_workspace ch) true) i children.

Definition close_failure (e : PendingRequest) : DhBridgeError :=
  bridge_error BRIDGE_UNREACHABLE (pe_phase e)
    ("Bridge connection closed while request " +:+ pretty (pe_id e) +:+ " was pending.").

Definition close (c : Client) : Client :=
  if c_closed c then c else
  let child := c_child c in
  let c := set_children (c_children c) None (set_closed c) in
  let c := set_queues [] (c_tasks c ++
             ((λ e, Resume (pe_waiter e) (inr (close_failure e))) <$> c_pending c)) c in
  match child with
  | None => c
  | Some i => set_children (kill i (c_children c)) None c
  end.

(** ** Every interleaving *)

(** Events come when no microtask is left and no exception has ended the
    process. *)
Definition idle (c : Client) : Prop := c_tasks c = [] ∧ c_uncaught c = false.

Inductive client_step : Client → Client → Prop :=
| step_start call c : client_step c (start call c)
| step_close c : client_step c (close c)
| step_task t tasks c : c_tasks c = t :: tasks →
    client_step c (run_task t (set_queues (c_pending c) tasks c))
| step_stdout chunk c : idle c → client_step c (on_stdout chunk c)
| step_error message c : idle c → client_step c (on_child_error message c)
| step_exit code signal c : idle c → client_step c (on_exit code signal c)
| step_timeout id c : idle c → client_step c (on_timeout id c)
| step_write_error id message c : idle c → client_step c (on_write_error id message c).

(** The timers of all that is pending run out, the first first; after each the
    microtasks run. *)
Definition expire (c : Client) : Client :=
  foldl (λ c id, turn (on_timeout id c)) c (pe_id <$> c_pending c).
End client.

(** ** Facts: the calls *)

Definition waiter_call (w : Waiter) : nat :=
  match w with AfterInitialize k _ | AfterAnswer k _ _ _ => k end.
Definition task_call (t : Task) : nat :=
  match t with Resume w _ => waiter_call w | Body k _ => k end.

(** The calls that wait for a request, those that a microtask will continue, and
    those that have ended. *)
Definition calls_of (c : Client) : list nat :=
  (waiter_call ∘ pe_waiter <$> c_pending c) ++ (task_call <$> c_tasks c) ++ (c_results c).*1.

Definition codec_mode (t : Transport) : BridgeTransportSelectedMode :=
  if is_msgpack (t_activeCodec t) then tm_msgpack_rpc_v1
  else match truthy (t_fallbackReason t) with Some _ => tm_json_fallback | None => tm_json end.

(** A transport that both ends can use: a limit in the range, one codec for both
    directions, named by the mode, and the only version there is of MessagePack. *)
Record transport_ok (t : Transport) : Prop := {
  to_codec : t_negotiatedCodec t = t_activeCodec t;
  to_limit : isValidBridgeMaxFrameBytes (t_maxFrameBytes t) = true;
  to_mode : t_selectedMode t = codec_mode t;
  to_version : t_activeCodec t = MSGPACK_RPC_CODEC → t_codecVersion t = "1";
}.

(** The promises of the client, while the calls [ks] are in the hands of the code
    that runs: every call made is in one place and in one only; the pending ids
    are distinct and below the counter; nothing is pending once it is closed; and
    the transport is usable, and the one that was forced, if one was. *)
Record client_inv (env : option string) (ks : list nat) (c : Client) : Prop := {
  ci_calls : ks ++ calls_of c ≡ₚ seq 0 (c_calls c);
  ci_ids : NoDup (pe_id <$> c_pending c);
  ci_fresh : Forall (λ e, pe_id e < c_nextRequestId c)%N (c_pending c);
  ci_closed : c_closed c = true → c_pending c = [];
  ci_transport : transport_ok (c_transport c);
  ci_forced : e_initialized (c_engine c) = true → codec_override env = mode_msgpack →
    t_activeCodec (c_transport c) = MSGPACK_RPC_CODEC;
}.

Section client_facts.
Context `{BodyCodec json}.
Context (num_literal : Q → string) (env : option string) (existsSync : string → bool).
Context (fromSourceLayout repoRoot : string) (startupTimeoutMs requestTimeoutMs : N).

Lemma new_client_inv : client_inv env [] new_client.
Proof using Type. by repeat (split || constructor). Qed.

Lemma add_task_inv t ks c : client_inv env (task_call t :: ks) c → client_inv env ks (add_task t c).
Proof using Type.
  intros [A B C D E F]. split; try done. rewrite <- A. unfold calls_of, add_task. simpl.
  rewrite fmap_app. simpl. solve_Permutation.
Qed.

Lemma finish_inv k r ks c : client_inv env (k :: ks) c → client_inv env ks (finish k r c).
Proof using Type.
  intros [A B C D E F]. split; try done. rewrite <- A. unfold calls_of, finish. simpl.
  rewrite fmap_app. simpl. solve_Permutation.
Qed.

Lemma pop_inv t tasks ks c :
  c_tasks c = t :: tasks → client_inv env ks c →
  client_inv env (task_call t :: ks) (set_queues (c_pending c) tasks c).
Proof using Type.
  intros Ht [A B C D E F]. split; try done. rewrite <- A. unfold calls_of. simpl. rewrite Ht.
  simpl. solve_Permutation.
Qed.

(** Every entry of a part of the pending requests goes to the queue. *)
Lemma release_inv (kept gone : list PendingRequest) (r : PendingRequest → json + DhBridgeError) ks c :
  c_pending c ≡ₚ gone ++ kept → client_inv env ks c →
  client_inv env ks
    (set_queues kept (c_tasks c ++ ((λ e, Resume (pe_waiter e) (r e)) <$> gone)) c).
Proof using Type.
  intros Hp [A B C D E F]. split; simpl; try done.
  - rewrite <- A. unfold calls_of. simpl. rewrite Hp, !fmap_app, <- list_fmap_compose.
    rewrite (list_fmap_ext (task_call ∘ (λ e, Resume (pe_waiter e) (r e))) (waiter_call ∘ pe_waiter) gone)
      by done. solve_Permutation.
  - rewrite Hp, fmap_app in B. by apply NoDup_app in B as (_ & _ & B).
  - rewrite Hp in C. by apply Forall_app in C as [_ C].
  - intros Hc. specialize (D Hc). rewrite D in Hp. apply Permutation_nil_l in Hp. by destruct gone.
Qed.

Lemma client_settle_inv id r ks c : client_inv env ks c → client_inv env ks (settle id r c).
Proof using Type.
  intros Hinv. unfold settle. destruct (List.find _ _) as [e|] eqn:E; [|done].
  destruct (find_split pe_id _ _ _ (ci_ids _ _ _ Hinv) E) as [_ Hp].
  by apply (release_inv _ [e] r).
Qed.

Lemma fail_inv f ks c : client_inv env ks c → client_inv env ks (failAllPending f c).
Proof using Type.
  intros Hinv. apply (release_inv [] (c_pending c) (λ e, inr (f (pe_phase e)))); [|done].
  by rewrite app_nil_r.
Qed.

(** The state of the streams and of the children is not in the invariant. *)
Lemma buffer_inv b ks c : client_inv env ks c → client_inv env ks (set_buffer b c).
Proof using Type. by intros [A B C D E F]. Qed.

Lemma children_inv l i ks c : client_inv env ks c → client_inv env ks (set_children l i c).
Proof using Type. by intros [A B C D E F]. Qed.

Lemma uncaught_inv ks c : client_inv env ks c → client_inv env ks (set_uncaught c).
Proof using Type. by intros [A B C D E F]. Qed.

Lemma next_id_inv ks c : client_inv env ks c → client_inv env ks (next_id c).
Proof using Type.
  intros [A B C D E F]. split; simpl; try done. eapply Forall_impl; [exact C|]. simpl. lia.
Qed.

(** A request for an id taken from the counter. *)
Lemma client_request_inv method params phase ms w ks c :
  client_inv env (waiter_call w :: ks) c →
  client_inv env ks (request (c_nextRequestId c) method params phase ms w (next_id c)).
Proof using Type.
  intros Hinv. apply next_id_inv in Hinv as Hn. unfold request. simpl.
  destruct (c_closed c) eqn:Ec; [by apply add_task_inv|].
  destruct (c_child c) as [i|]; [|by apply add_task_inv].
  set (q := set_queues _ _ _).
  assert (client_inv env ks q) as Hq.
  { destruct Hinv as [A B C D E F]. split; simpl; try done.
    - rewrite <- A. unfold calls_of. simpl. rewrite fmap_app. simpl. solve_Permutation.
    - rewrite fmap_app. apply NoDup_app. split_and!; [done| |apply NoDup_singleton].
      intros id (e & -> & He)%list_elem_of_fmap Heq%list_elem_of_singleton.
      rewrite Forall_forall in C. specialize (C e He). simpl in *. lia.
    - apply Forall_app. split; [eapply Forall_impl; [exact C|simpl; lia]|].
      apply Forall_singleton. simpl. lia.
    - congruence. }
  destruct (encodeRpcFrame _ _ _) as [frame|e]; [by destruct Hq|].
  apply (release_inv _ [mkPending (c_nextRequestId c) phase method ms w]
    (λ _, inr (bridge_error _ _ _)) ks q); [|done].
  simpl. rewrite filter_app, filter_all.
  - rewrite filter_cons_False by (intros Hc; by apply Hc). rewrite filter_nil, app_nil_r.
    symmetry. apply Permutation_cons_append.
  - eapply Forall_impl; [apply (ci_fresh _ _ _ Hinv)|]. simpl. lia.
Qed.
End client_facts.

(** ** Facts: the steps *)

Section step_facts.
Context `{BodyCodec json}.
Context (num_literal : Q → string) (env : option string) (existsSync : string → bool).
Context (fromSourceLayout repoRoot : string) (startupTimeoutMs requestTimeoutMs : N).

Lemma negotiated_ok rt ct t :
  applyNegotiatedTransport env rt ct = inl t →
  transport_ok t ∧ (codec_override env = mode_msgpack → t_activeCodec t = MSGPACK_RPC_CODEC).
Proof using Type.
  unfold applyNegotiatedTransport. set (codec := _ or_else JSON_RPC_CODEC).
  set (version := _ or_else "1"). clearbody codec version.
  unfold validate_frame_literal. destruct (_ && isValidBridgeMaxFrameBytes _) eqn:Ev; [|done].
  apply andb_prop in Ev as [_ Ev]. case_bool_decide as Ho; simpl.
  - destruct codec; [done|]. simpl. destruct (String.eqb_spec version "1"); simpl; [|done].
    intros [= <-]. by repeat split.
  - assert (codec_override env = mode_msgpack → t_activeCodec t = MSGPACK_RPC_CODEC) as Hf
      by (intros Hm; by rewrite Hm in Ho).
    destruct codec; simpl; [|destruct (String.eqb_spec version "1"); simpl; [|done]];
      intros [= <-]; by repeat split.
Qed.

Lemma initialized_inv response ks c :
  client_inv env ks c → client_inv env ks (initialized env response c).1.
Proof using Type.
  intros Hinv. unfold initialized. destruct (response_failure _ _); [done|].
  destruct (negb _); [by destruct Hinv|].
  destruct (parseV2Capabilities _) as [caps|]; [|by destruct Hinv].
  destruct (applyNegotiatedTransport _ _ _) as [t|e] eqn:Et; [|by destruct Hinv].
  apply negotiated_ok in Et as [Hok Hf]. by destruct Hinv as [A B C D E F].
Qed.

Lemma body_inv k call c :
  client_inv env [k] c → client_inv env [] (body num_literal requestTimeoutMs k call c).
Proof using Type.
  intros Hinv. destruct call as [input|input| |]; simpl.
  - unfold runAskQuery. destruct (negb _); [by apply finish_inv|].
    destruct (buildAskCall _ _) as [[method params]|e]; [by apply client_request_inv|].
    by apply finish_inv, next_id_inv.
  - unfold runSessionCommand. destruct (buildAskCall _ _) as [[method params]|e]; [by apply client_request_inv|].
    by apply finish_inv, next_id_inv.
  - by apply finish_inv.
  - by apply client_request_inv.
Qed.

Lemma run_task_inv t c :
  client_inv env [task_call t] c → client_inv env [] (run_task num_literal env requestTimeoutMs t c).
Proof using Type.
  intros Hinv. destruct t as [[k call|k call id built] [response|e]|k call]; simpl in *;
    try by apply finish_inv.
  - pose proof (initialized_inv response _ _ Hinv) as Hi.
    destruct (initialized env response c) as [c' [failure|]]; simpl in Hi; [by apply finish_inv|].
    by apply add_task_inv.
  - by apply body_inv.
Qed.

Lemma start_inv call c :
  client_inv env [] c →
  client_inv env [] (start env existsSync fromSourceLayout repoRoot startupTimeoutMs call c).
Proof using Type.
  intros Hinv. unfold start. assert (client_inv env [c_calls c] (next_call c)) as Hn.
  { destruct Hinv as [A B C D E F]. split; try done. cbn [c_calls next_call]. rewrite seq_S, <- A. unfold calls_of. simpl.
    solve_Permutation. }
  unfold ensureInitialized. destruct (e_initialized _); [by apply add_task_inv|].
  set (q := set_children _ _ _). apply (client_request_inv env _ _ _ _ (AfterInitialize (c_calls c) call) [] q).
  by apply children_inv.
Qed.

Lemma client_close_inv c : client_inv env [] c → client_inv env [] (close c).
Proof using Type.
  intros Hinv. unfold close. destruct (c_closed c) eqn:Ec; [done|].
  set (q := set_children _ None (set_closed c)).
  assert (client_inv env [] (set_queues [] (c_tasks q ++
    ((λ e, Resume (pe_waiter e) (inr (close_failure e))) <$> c_pending c)) q)) as Hq.
  { destruct (release_inv env [] (c_pending c) (λ e, inr (close_failure e)) [] c) as [A B C D E F];
      [by rewrite app_nil_r|done|]. by split. }
  destruct (c_child c); [by apply children_inv|done].
Qed.

Lemma deliver_inv parsed c : client_inv env [] c → client_inv env [] (deliver parsed c).
Proof using Type.
  intros Hinv. unfold deliver. repeat case_match; try done. by apply client_settle_inv.
Qed.

Lemma drain_inv fuel c : client_inv env [] c → client_inv env [] (drain_buffer fuel c).
Proof using Type.
  revert c. induction fuel as [|fuel IH]; intros c Hinv; [done|]. cbn [drain_buffer].
  destruct (findFrameHeaderEnd _) as [i|]; [|done]. set (h := parseFrameHeaders _).
  destruct (fh_contentLength h) as [n|]; [|by apply buffer_inv, fail_inv].
  destruct (fh_malformedContentLength h); [by apply buffer_inv, fail_inv|].
  destruct (_ <? n)%N; [by apply buffer_inv, fail_inv|].
  destruct (_ <? _)%nat; [done|].
  destruct (decodeRpcBody _ _ _) as [parsed|e]; [|by apply fail_inv, buffer_inv].
  destruct parsed; try (by apply IH, deliver_inv, buffer_inv). by apply uncaught_inv, buffer_inv.
Qed.

Lemma client_step_inv c c' :
  client_step num_literal env existsSync fromSourceLayout repoRoot startupTimeoutMs requestTimeoutMs c c' →
  client_inv env [] c → client_inv env [] c'.
Proof using Type.
  intros Hstep Hinv. destruct Hstep.
  - by apply start_inv.
  - by apply client_close_inv.
  - by apply run_task_inv, pop_inv.
  - by apply drain_inv, buffer_inv.
  - by apply fail_inv.
  - unfold on_exit. destruct (c_closed c); [done|by apply fail_inv].
  - by apply client_settle_inv.
  - by apply client_settle_inv.
Qed.

Lemma client_steps_inv c :
  rtc (client_step num_literal env existsSync fromSourceLayout repoRoot startupTimeoutMs requestTimeoutMs)
    new_client c → client_inv env [] c.
Proof using Type.
  intros Hsteps. pose proof (new_client_inv env) as Hn. revert Hn.
  induction Hsteps; eauto using client_step_inv.
Qed.
End step_facts.

(** ** Facts: the microtasks come to an end *)

Section turn_facts.
Context `{BodyCodec json}.
Context (num_literal : Q → string) (env : option string) (existsSync : string → bool).
Context (fromSourceLayout repoRoot : string) (startupTimeoutMs requestTimeoutMs : N).

Abbreviation weight := (sum_list_with task_weight).
Abbreviation task := (run_task num_literal env requestTimeoutMs).
Abbreviation run := (turn num_literal env requestTimeoutMs).

Lemma request_weight id method params phase ms k call r built c :
  weight (c_tasks (request id method params phase ms (AfterAnswer k call r built) c)) ≤ S (weight (c_tasks c)).
Proof using Type.
  unfold request. destruct (c_closed c); [|destruct (c_child c); [destruct (encodeRpcFrame _ _ _)|]];
    simpl; rewrite ?sum_list_with_app; simpl; lia.
Qed.

Lemma run_task_weight t c : weight (c_tasks (task t c)) < weight (c_tasks c) + task_weight t.
Proof using Type.
  destruct t as [[k call|k call id built] [response|e]|k call]; simpl; try lia.
  - destruct (initialized env response c) as [c' [failure|]] eqn:E;
      assert (c_tasks c' = c_tasks c) as Ht
        by (revert E; unfold initialized; repeat case_match; intros E; by simplify_eq).
    + simpl. rewrite Ht. lia.
    + simpl. rewrite sum_list_with_app, Ht. simpl. lia.
  - destruct call as [input|input| |]; simpl;
      unfold runAskQuery, runSessionCommand, getRuntimePing;
      repeat case_match; simpl; try lia; (eapply Nat.le_lt_trans; [apply request_weight|simpl; lia]).
Qed.

Lemma run_tasks_empty fuel c :
  weight (c_tasks c) ≤ fuel → c_tasks (run_tasks num_literal env requestTimeoutMs fuel c) = [].
Proof using Type.
  revert c. induction fuel as [|fuel IH]; intros c Hw; cbn [run_tasks].
  - destruct (c_tasks c) as [|[[]|] tasks]; [done|simpl in Hw; lia..].
  - destruct (c_tasks c) as [|t tasks] eqn:Et; [done|]. apply IH.
    pose proof (run_task_weight t (set_queues (c_pending c) tasks c)) as Hlt. simpl in *. lia.
Qed.

(** The fuel of a turn is enough. *)
Lemma turn_empty c : c_tasks (run c) = [].
Proof using Type. by apply run_tasks_empty. Qed.

Abbreviation steps :=
  (rtc (client_step num_literal env existsSync fromSourceLayout repoRoot startupTimeoutMs requestTimeoutMs)).

Lemma run_tasks_steps fuel c : steps c (run_tasks num_literal env requestTimeoutMs fuel c).
Proof using Type.
  revert c. induction fuel as [|fuel IH]; intros c; cbn [run_tasks]; [done|].
  destruct (c_tasks c) as [|t tasks] eqn:Et; [done|].
  eapply rtc_l; [by apply step_task|]. apply IH.
Qed.

Lemma turn_steps c : steps c (run c).
Proof using Type. apply run_tasks_steps. Qed.
(** A request whose timer runs out ends its call; nothing else changes. *)
Lemma timeout_turn e c :
  c_tasks c = [] → NoDup (pe_id <$> c_pending c) → e ∈ c_pending c →
  let c' := run (on_timeout (pe_id e) c) in
  c_pending c' = filter (λ e', pe_id e' ≠ pe_id e) (c_pending c) ∧ c_tasks c' = [] ∧
  c_calls c' = c_calls c ∧ c_uncaught c' = c_uncaught c.
Proof using Type.
  intros Ht Hn He. unfold on_timeout, settle.
  destruct (List.find _ _) as [e'|] eqn:Ef.
  - unfold turn. cbn [set_queues c_tasks]. rewrite Ht. simpl.
    by destruct (pe_waiter e') as [k call|k call id built].
  - eapply List.find_none in Ef; [|by apply list_elem_of_In]. by rewrite N.eqb_refl in Ef.
Qed.

Lemma expire_all c :
  client_inv env [] c → idle c → steps c (expire num_literal env requestTimeoutMs c) ∧
  c_pending (expire num_literal env requestTimeoutMs c) = [] ∧
  c_tasks (expire num_literal env requestTimeoutMs c) = [] ∧
  c_calls (expire num_literal env requestTimeoutMs c) = c_calls c.
Proof using Type.
  unfold expire. remember (c_pending c) as l eqn:El. revert c El.
  induction l as [|e l IH]; intros c El Hinv [Ht Hu]; [done|]. csimpl.
  pose proof (ci_ids _ _ _ Hinv) as Hn.
  destruct (timeout_turn e c Ht Hn) as (Hp & Ht' & Hc & Hu'); [rewrite <- El; by left|].
  rewrite <- El in Hp, Hn. csimpl in *. apply NoDup_cons in Hn as [Hx Hn].
  rewrite filter_cons_False, filter_all in Hp by
    (try tauto; apply Forall_forall; intros x Hin Heq; apply Hx; rewrite <- Heq; by apply list_elem_of_fmap_2).
  assert (steps c (run (on_timeout (pe_id e) c))) as Hs
    by (eapply rtc_l; [by apply step_timeout|apply turn_steps]).
  destruct (IH (run (on_timeout (pe_id e) c))) as (A & B & C & D); [done| |by split; rewrite ?Hu'|].
  { clear -Hs Hinv. induction Hs; eauto using client_step_inv. }
  split_and!; [by etrans|done|done|congruence].
Qed.
End turn_facts.


(** ** Facts: reading *)

Lemma deliver_buffer m b c : deliver m (set_buffer b c) = set_buffer b (deliver m c).
Proof.
  unfold deliver, settle. cbn [set_buffer c_pending]. destruct (json_get "id" m) as [[]|]; try done.
  destruct (List.find _ _) as [e|]; [|done]. by destruct (List.find _ _).
Qed.

Lemma deliver_keeps m c :
  c_transport (deliver m c) = c_transport c ∧ c_readBuffer (deliver m c) = c_readBuffer c ∧
  c_engine (deliver m c) = c_engine c.
Proof.
  unfold deliver, settle. destruct (json_get "id" m) as [[]|]; try done.
  destruct (List.find _ _) as [e|]; [|done]. by destruct (List.find _ _).
Qed.

Section read_facts.
Context `{BodyCodec json}.
Context (num_literal : Q → string) (env : option string) (requestTimeoutMs : N).

(** The reader of the client and that of the worker find the same messages in a
    stream without errors. *)
Lemma drain_delivers fuel c e msgs r :
  drain fuel (t_activeCodec (c_transport c)) (t_maxFrameBytes (c_transport c)) (mkRead (c_readBuffer c) e) =
    (Incoming <$> msgs, r) →
  Forall (λ m, m ≠ JNull) msgs →
  drain_buffer fuel c = set_buffer (rd_buffer r) (foldl (λ c m, deliver m c) c msgs).
Proof using Type.
  revert c e msgs r. induction fuel as [|fuel IH]; intros c e msgs r; cbn [drain drain_buffer rd_buffer].
  { intros [= Hm <-] _. destruct msgs; [|done]. by destruct c. }
  destruct (findFrameHeaderEnd (c_readBuffer c)) as [i|]; [|intros [= Hm <-] _; destruct msgs; [by destruct c|done]].
  set (h := parseFrameHeaders _).
  destruct (fh_contentLength h) as [n|]; [|intros [= Hm _]; by destruct msgs].
  destruct (fh_malformedContentLength h); [intros [= Hm _]; by destruct msgs|].
  destruct (_ <? n)%N; [intros [= Hm _]; by destruct msgs|].
  destruct (_ <? _)%nat; [intros [= Hm <-] _; destruct msgs; [by destruct c|done]|].
  destruct (drain fuel _ _ _) as [events s'] eqn:Ed.
  destruct (decodeRpcBody _ _ _) as [v|e']; [|intros [= Hm _]; by destruct msgs].
  intros [= Hm <-] Hnull. destruct msgs as [|m msgs]; [done|]. csimpl in Hm.
  injection Hm as -> ->. apply Forall_cons in Hnull as [Hm Hnull].
  set (rest := drop _ (c_readBuffer c)) in *.
  assert (drain_buffer fuel (deliver m (set_buffer rest c)) =
          set_buffer (rd_buffer s') (foldl (λ c m, deliver m c) (deliver m (set_buffer rest c)) msgs)) as Heq.
  { destruct (deliver_keeps m (set_buffer rest c)) as (Ht & Hb & _).
    apply (IH _ None); [|done]. by rewrite Ht, Hb. }
  assert (∀ ms q, foldl (λ c m, deliver m c) (set_buffer rest q) ms =
                  set_buffer rest (foldl (λ c m, deliver m c) q ms)) as Hfold
    by (induction ms as [|m' ms IHms]; intros q; [done|]; cbn [foldl]; by rewrite deliver_buffer, IHms).
  transitivity (drain_buffer fuel (deliver m (set_buffer rest c))); [by destruct m|].
  by rewrite Heq, deliver_buffer, Hfold.
Qed.

(** The input arrives in chunks; after each the microtasks run. *)
Definition feed (chunks : list bytes) (c : Client) : Client :=
  foldl (λ c chunk, turn num_literal env requestTimeoutMs (on_stdout chunk c)) c chunks.

Lemma feed_frame v frame part chunks c :
  encodeRpcFrame (t_activeCodec (c_transport c)) v (t_maxFrameBytes (c_transport c)) = Ret frame →
  (∃ body, codec_ok (t_activeCodec (c_transport c)) v body) → v ≠ JNull →
  c_tasks c = [] → part ++ concat chunks = frame → Forall (λ ch, ch ≠ []) chunks → chunks ≠ [] →
  feed chunks (set_buffer part c) = turn num_literal env requestTimeoutMs (deliver v (set_buffer [] c)).
Proof using Type.
  intros He Hc Hv Ht. revert part.
  induction chunks as [|x chunks IH]; intros part Hcat Hne Hnil; [done|].
  apply Forall_cons in Hne as [Hx Hne].
  unfold feed. cbn [foldl]. unfold on_stdout, drainFrames. cbn [set_buffer c_readBuffer].
  set (q := set_buffer (part ++ x) _).
  change (set_buffer (part ++ x) (set_buffer part c)) with (set_buffer (part ++ x) c) in q.
  destruct chunks as [|y chunks].
  - cbn [foldl]. cbn [concat] in Hcat. rewrite app_nil_r in Hcat.
    pose proof (drain_frame _ _ v frame [] None He Hc) as Hd. rewrite app_nil_r, <- Hcat in Hd.
    assert (drain_buffer (S (length (part ++ x))) q = set_buffer [] (deliver v q)) as ->
      by (apply (drain_delivers _ q None [v] (mkRead [] None)); [exact Hd|by constructor]).
    by rewrite <- deliver_buffer.
  - destruct (drain_part _ _ v frame (part ++ x) (concat (y :: chunks)) None He Hc) as [e' Hd].
    { by rewrite <- Hcat, <- app_assoc. }
    { apply Forall_cons in Hne as [Hy _]. by destruct y. }
    assert (drain_buffer (S (length (part ++ x))) q = q) as ->
      by (apply (drain_delivers _ q None [] (mkRead (part ++ x) e')); [exact Hd|by constructor]).
    assert (turn num_literal env requestTimeoutMs q = q) as ->.
    { unfold turn. change (c_tasks q) with (c_tasks c). by rewrite Ht. }
    apply IH; [by rewrite <- app_assoc|done..].
Qed.

(** The answer to a pending request resumes the call that waits for it. *)
Lemma deliver_answer e v l c :
  json_get "id" v = Some (JNum l) → l = pretty (pe_id e) →
  NoDup (pe_id <$> c_pending c) → e ∈ c_pending c →
  deliver v c = set_queues (filter (λ e', pe_id e' ≠ pe_id e) (c_pending c))
                  (c_tasks c ++ [Resume (pe_waiter e) (inl v)]) c.
Proof using Type.
  intros Hid -> Hn He. unfold deliver, settle. rewrite Hid.
  destruct (List.find (λ e0, String.eqb _ _) (c_pending c)) as [e1|] eqn:E1.
  2:{ eapply List.find_none in E1; [|by apply list_elem_of_In]. by rewrite String.eqb_refl in E1. }
  apply List.find_some in E1 as [Hin1 Heq1%String.eqb_eq%(inj pretty)].
  destruct (List.find (λ e0, N.eqb _ _) (c_pending c)) as [e2|] eqn:E2.
  2:{ eapply List.find_none in E2; [|exact Hin1]. by rewrite N.eqb_refl in E2. }
  apply List.find_some in E2 as [Hin2 Heq2%N.eqb_eq].
  assert (e2 = e) as ->; [|by rewrite Heq1].
  apply list_elem_of_lookup in He as [i Hi]. apply list_elem_of_In, list_elem_of_lookup in Hin2 as [j Hj].
  assert (i = j) as ->; [|congruence]. eapply (NoDup_lookup _ _ _ (pe_id e) Hn);
    rewrite list_lookup_fmap, ?Hi, ?Hj; simpl; congruence.
Qed.
End read_facts.

(** ** Facts: a conversation *)

Section conversation.
Context `{BodyCodec json}.
Context (num_literal : Q → string) (env : option string) (existsSync : string → bool).
Context (fromSourceLayout repoRoot : string) (startupTimeoutMs requestTimeoutMs : N).

(** The frame of a message arrives, cut anywhere. *)
Definition arrives (codec : BridgeRpcCodec) (limit : N) (m : json) (chunks : list bytes) : Prop :=
  encodeRpcFrame codec m limit = Ret (concat chunks) ∧ (∃ body, codec_ok codec m body) ∧
  Forall (λ ch, ch ≠ []) chunks.

Lemma arrives_some codec limit m chunks : arrives codec limit m chunks → chunks ≠ [].
Proof using Type.
  intros (He & _ & _) ->. revert He. unfold encodeRpcFrame. by repeat case_match.
Qed.

(** The call, and what it sends for a query. *)
Definition ask_call (session : bool) (input : BridgeAskRequest) : Call :=
  if session then CallSession input else CallAsk input.
Definition ask_message (session : bool) (id : N) (method : BridgeDirectQueryMethod) (params : json) : json :=
  if session then
    request_message id "session.runCommand"
      (Some (JObj [("query", JObj [("method", JStr (method_name method)); ("params", params)])]))
  else request_message id (method_name method) (Some params).

(** The client after the call was made. *)
Lemma start_first session input :
  let init := request_message 1 "dh.initialize"
                (Some (initialize_params env (ask_repoRoot input) new_client)) in
  encodes JSON_RPC_CODEC DEFAULT_BRIDGE_MAX_FRAME_BYTES init →
  start env existsSync fromSourceLayout repoRoot startupTimeoutMs (ask_call session input) new_client =
  mkClient [mkChild (resolveRustEngineRoot existsSync fromSourceLayout (ask_repoRoot input))
              (ask_repoRoot input) false] (Some 0) false 2 [] initial_transport
    [mkPending 1 ph_startup "dh.initialize" startupTimeoutMs (AfterInitialize 0 (ask_call session input))]
    initial_engine [(0, init)] 1 [] [] false.
Proof using Type.
  intros init [frame He]. unfold start. destruct session; cbn [ask_call call_root];
    unfold ensureInitialized; cbn [new_client next_call c_engine initial_engine e_initialized];
    unfold request; cbn [c_closed next_id set_children c_child c_transport set_queues new_client next_call];
    unfold init in He; simpl t_activeCodec; simpl t_maxFrameBytes;
    unfold initialize_params, initializeTransportParams in *; simpl in He |- *; by rewrite He.
Qed.

Definition handshake (response : json) (caps : BridgeInitializeCapabilities) (t : Transport) : Prop :=
  let result := asRecord (Some response) in
  asString (json_get "protocolVersion" result) = Some V2_PROTOCOL_VERSION ∧
  parseV2Capabilities (json_get "capabilities" result) = Some caps ∧
  applyNegotiatedTransport env (json_get "transport" result) (ic_transport caps) = inl t.

(** The engine as the client records it. *)
Definition engine_of (response : json) (caps : BridgeInitializeCapabilities) (t : Transport) : Engine :=
  let result := asRecord (Some response) in
  mkEngine true (asString (json_get "serverName" result) or_else "dh-engine")
    (asString (json_get "serverVersion" result) or_else "unknown") V2_PROTOCOL_VERSION
    (mkCapabilities (ic_protocolVersion caps) (ic_methods caps) (ic_supportedRelations caps)
       (ic_languageCapabilityMatrix caps) (Some (transportSnapshot t)) (ic_runtimeAuthority caps)).

Lemma initialized_ok id response caps t c :
  handshake response caps t →
  initialized env (result_message id response) c =
  (set_engine (engine_of response caps t) (set_transport t c), None).
Proof using Type.
  intros (Hp & Hc & Ht). unfold initialized.
  change (response_failure ph_startup (result_message id response)) with (@None CallResult).
  change (json_get "result" (result_message id response)) with (Some response). cbv iota.
  rewrite Hp, bool_decide_eq_true_2 by done. cbn [negb]. by rewrite Hc, Ht.
Qed.

(** A pending request is answered: what its waiter does next. *)
Lemma answered e v chunks c :
  c_tasks c = [] → c_readBuffer c = [] → NoDup (pe_id <$> c_pending c) → e ∈ c_pending c →
  arrives (t_activeCodec (c_transport c)) (t_maxFrameBytes (c_transport c))
    (result_message (JNum (pretty (pe_id e))) v) chunks →
  feed num_literal env requestTimeoutMs chunks c =
  run_tasks num_literal env requestTimeoutMs
    (task_weight (Resume (pe_waiter e) (inl (result_message (JNum (pretty (pe_id e))) v))))
    (set_queues (filter (λ e', pe_id e' ≠ pe_id e) (c_pending c))
       [Resume (pe_waiter e) (inl (result_message (JNum (pretty (pe_id e))) v))] c).
Proof using Type.
  intros Ht Hb Hn He Ha. pose proof (arrives_some _ _ _ _ Ha) as Hsome. destruct Ha as (Henc & Hc & Hne).
  assert (set_buffer [] c = c) as Hset by (rewrite <- Hb; by destruct c).
  rewrite <- Hset at 1. rewrite (feed_frame _ _ _ _ _ _ _ _ Henc Hc) by done. rewrite Hset.
  rewrite (deliver_answer e _ (pretty (pe_id e))) by done. rewrite Ht. unfold turn.
  cbn [set_queues c_tasks app sum_list_with]. by rewrite Nat.add_0_r.
Qed.
End conversation.
(** ** Properties *)

(** C28 In every interleaving of calls, answers, malformed input, failures of the
    process, timeouts and closing, each call made is in exactly one place: waiting
    for a request, about to be continued, or ended.  So none ends twice, none is
    lost, all have ended soon after the client is closed, and no call waits for
    ever: once the timers of what is pending have run out, all have ended.  And
    whatever the engine answers, the client only works with a transport that the
    framing accepts, with MessagePack if that was forced. *)
Theorem bridge_calls_settle `{BodyCodec json} num_literal env existsSync fromSourceLayout repoRoot
    startupTimeoutMs requestTimeoutMs c :
  rtc (client_step num_literal env existsSync fromSourceLayout repoRoot startupTimeoutMs requestTimeoutMs)
    new_client c →
  calls_of c ≡ₚ seq 0 (c_calls c) ∧
  (c_closed c = true → c_tasks c = [] → (c_results c).*1 ≡ₚ seq 0 (c_calls c)) ∧
  (idle c → (c_results (expire num_literal env requestTimeoutMs c)).*1 ≡ₚ seq 0 (c_calls c)) ∧
  transport_ok (c_transport c) ∧
  (e_initialized (c_engine c) = true → codec_override env = mode_msgpack →
   t_activeCodec (c_transport c) = MSGPACK_RPC_CODEC).
Proof.
  intros Hsteps%client_steps_inv. split; [apply Hsteps|]. split; [|split; [|split; apply Hsteps]].
  - intros Hc Ht. pose proof (ci_calls _ _ _ Hsteps) as Hp. unfold calls_of in Hp.
    by rewrite (ci_closed _ _ _ Hsteps Hc), Ht in Hp.
  - intros Hi. destruct (expire_all num_literal env existsSync fromSourceLayout repoRoot
      startupTimeoutMs requestTimeoutMs c Hsteps Hi) as (Hs & Hp & Ht & Hn).
    assert (client_inv env [] (expire num_literal env requestTimeoutMs c)) as [A _ _ _ _ _]
      by (clear -Hs Hsteps; induction Hs; eauto using client_step_inv).
    unfold calls_of in A. by rewrite Hp, Ht, Hn in A.
Qed.

(** What the call returns for the engine's result. *)
Definition ask_outcome (session : bool) (method : BridgeDirectQueryMethod) (params : json)
    (engine : Engine) (result : json) : CallResult :=
  match parseBridgeAskResult (Some result) method params with
  | inr e => Failed e
  | inl derived =>
    Asked (mkAskResult method (if session then Some "session.runCommand" else None)
      (if session then Some method else None) 2 (e_engineName engine) (e_engineVersion engine)
      (e_protocolVersion engine) (e_capabilities engine) derived)
  end.

(** C29 A whole conversation: an ask on a fresh client spawns one engine, sends
    the handshake and then, in the codec the engine selected, the query; and
    when the engine's two answers arrive, however their bytes are cut, the call
    returns what the second says, and nothing is left pending or unread. *)
Theorem ask_answered `{BodyCodec json} num_literal env existsSync fromSourceLayout repoRoot
    startupTimeoutMs requestTimeoutMs session input result1 caps t method params result2 chunks1 chunks2 :
  let init := request_message 1 "dh.initialize"
                (Some (initialize_params env (ask_repoRoot input) new_client)) in
  encodes JSON_RPC_CODEC DEFAULT_BRIDGE_MAX_FRAME_BYTES init →
  handshake env result1 caps t →
  arrives JSON_RPC_CODEC DEFAULT_BRIDGE_MAX_FRAME_BYTES (result_message (JNum "1") result1) chunks1 →
  buildAskCall num_literal input = inl (method, params) →
  encodes (t_activeCodec t) (t_maxFrameBytes t) (ask_message session 2 method params) →
  arrives (t_activeCodec t) (t_maxFrameBytes t) (result_message (JNum "2") result2) chunks2 →
  let c := feed num_literal env requestTimeoutMs chunks2
             (feed num_literal env requestTimeoutMs chunks1
               (start env existsSync fromSourceLayout repoRoot startupTimeoutMs
                 (ask_call session input) new_client)) in
  c_results c = [(0, ask_outcome session method params (engine_of result1 caps t) result2)] ∧
  c_sent c = [(0, init); (0, ask_message session 2 method params)] ∧
  length (c_children c) = 1 ∧ c_pending c = [] ∧ c_tasks c = [] ∧ c_readBuffer c = [] ∧ c_transport c = t.
Proof.
  intros init Hinit Hhand Ha1 Hbuild Henc Ha2. rewrite start_first by exact Hinit. fold init.
  set (w1 := AfterInitialize 0 (ask_call session input)).
  set (e1 := mkPending 1 ph_startup "dh.initialize" startupTimeoutMs w1).
  set (c1 := mkClient _ _ _ _ _ _ _ _ _ _ _ _ _).
  rewrite (answered num_literal env requestTimeoutMs e1 result1 chunks1 c1); try done;
    [|apply NoDup_singleton|by left].
  cbn [c1 e1 c_pending pe_waiter pe_id w1 task_weight].
  change (filter _ [e1]) with (@nil PendingRequest).
  unfold w1. cbn [run_tasks set_queues c_tasks run_task]. rewrite (initialized_ok env _ _ caps t) by done.
  cbn [add_task set_queues c_tasks set_engine set_transport app c_pending run_tasks run_task].
  set (id2 := AfterAnswer 0 (ask_call session input) 2 (Some (method, params))).
  set (e2 := mkPending 2 ph_request (if session then "session.runCommand" else method_name method)
               requestTimeoutMs id2).
  set (q := body _ _ _ _ _).
  assert (q = mkClient (c_children c1) (Some 0) false 3 [] t [e2] (engine_of result1 caps t)
                [(0, init); (0, ask_message session 2 method params)] 1 [] [] false) as Hq.
  { destruct Henc as [frame Henc]. unfold q. clear q.
    destruct session; cbn [ask_call body]; unfold runSessionCommand, runAskQuery; rewrite Hbuild.
    - unfold request. simpl in Henc |- *. by rewrite Henc.
    - assert (isDelegatedSessionQueryClass (ask_queryClass input) = true) as ->
        by (revert Hbuild; unfold buildAskCall; by destruct (ask_queryClass input)).
      unfold request. simpl in Henc |- *. by rewrite Henc. }
  rewrite Hq. clear q Hq. cbn [run_tasks c_tasks].
  rewrite (answered num_literal env requestTimeoutMs e2 result2 chunks2); try done;
    [|apply NoDup_singleton|by left].
  cbn [e2 c_pending pe_waiter pe_id id2 task_weight c_engine]. change (filter _ [e2]) with (@nil PendingRequest).
  unfold id2. cbn [run_tasks set_queues c_tasks run_task]. split; [|done]. simpl.
  unfold answer, ask_outcome. simpl. by destruct session, (parseBridgeAskResult _ _ _).
Qed.

(** ** Consequences *)

Lemma request_children `{BodyCodec json} id method params phase ms w c :
  c_children (request id method params phase ms w c) = c_children c ∧
  c_child (request id method params phase ms w c) = c_child c ∧
  c_closed (request id method params phase ms w c) = c_closed c ∧
  c_engine (request id method params phase ms w c) = c_engine c.
Proof.
  unfold request. destruct (c_closed c) eqn:Ec; [done|]. destruct (c_child c) as [i|] eqn:Ei; [|done].
  destruct (encodeRpcFrame _ _ _); split_and!; done.
Qed.

Lemma start_children `{BodyCodec json} env existsSync fromSourceLayout repoRoot ms call c :
  e_initialized (c_engine c) = false →
  let c' := start env existsSync fromSourceLayout repoRoot ms call c in
  ch_killed <$> c_children c' = (ch_killed <$> c_children c) ++ [false] ∧
  c_child c' = Some (length (c_children c)) ∧ c_closed c' = c_closed c ∧ c_engine c' = c_engine c.
Proof.
  intros Hi. unfold start, ensureInitialized. cbn [next_call c_engine]. rewrite Hi.
  cbn [next_call c_children set_children next_id c_nextRequestId].
  set (q := next_id _).
  destruct (request_children (c_nextRequestId c) "dh.initialize"
    (Some (initialize_params env (call_root repoRoot call) q)) ph_startup ms
    (AfterInitialize (c_calls c) call) q) as (-> & -> & -> & ->).
  unfold q. simpl. rewrite fmap_app. done.
Qed.

(** Two calls made before the first handshake is answered spawn two engines, of
    which closing the client stops the second only. *)
Lemma two_engines `{BodyCodec json} env existsSync fromSourceLayout repoRoot ms call1 call2 :
  ch_killed <$> c_children (close
    (start env existsSync fromSourceLayout repoRoot ms call2
      (start env existsSync fromSourceLayout repoRoot ms call1 new_client))) = [false; true].
Proof.
  destruct (start_children env existsSync fromSourceLayout repoRoot ms call1 new_client eq_refl)
    as (A1 & B1 & C1 & D1). set (c1 := start _ _ _ _ _ call1 _) in *.
  destruct (start_children env existsSync fromSourceLayout repoRoot ms call2 c1)
    as (A2 & B2 & C2 & D2); [by rewrite D1|]. set (c2 := start _ _ _ _ _ call2 _) in *.
  rewrite A1 in A2. unfold close. rewrite C2, C1, B2. cbn [c_closed new_client].
  cbn [set_children set_closed set_queues c_children c_tasks].
  assert (length (c_children c1) = 1) as -> by by rewrite <- (length_fmap ch_killed), A1.
  destruct (c_children c2) as [|x [|y [|z l]]]; try done. simpl in *. congruence.
Qed.

(** A call on a client that was closed before any handshake spawns an engine
    that closing again does not stop. *)
Lemma engine_after_close `{BodyCodec json} env existsSync fromSourceLayout repoRoot ms call :
  ch_killed <$> c_children (close
    (start env existsSync fromSourceLayout repoRoot ms call (close new_client))) = [false].
Proof.
  destruct (start_children env existsSync fromSourceLayout repoRoot ms call (close new_client) eq_refl)
    as (A & B & C & D). unfold close at 1. by rewrite C.
Qed.

(** After the engine has died, a client that was initialized never starts
    another: its calls go to the process that is gone. *)
Lemma no_restart `{BodyCodec json} env existsSync fromSourceLayout repoRoot ms call code signal c :
  e_initialized (c_engine c) = true →
  let c' := start env existsSync fromSourceLayout repoRoot ms call (on_exit code signal c) in
  c_children c' = c_children c ∧ c_child c' = c_child c ∧
  last (c_tasks c') = Some (Body (c_calls c) call).
Proof.
  intros Hi. unfold start, ensureInitialized, on_exit. destruct (c_closed c);
    cbn [failAllPending set_queues next_call c_engine c_calls]; rewrite Hi; simpl; by rewrite last_snoc.
Qed.

(** A frame whose body is [null] makes the reader throw out of the handler of
    the stream. *)
Lemma null_body_uncaught `{BodyCodec json} frame c :
  let t := c_transport c in
  encodeRpcFrame (t_activeCodec t) JNull (t_maxFrameBytes t) = Ret frame →
  (∃ body, codec_ok (t_activeCodec t) JNull body) → c_readBuffer c = [] →
  c_uncaught (on_stdout frame c) = true.
Proof.
  intros t He Hc Hb. unfold on_stdout, drainFrames. rewrite Hb.
  change ([] ++ frame) with frame. cbn [c_readBuffer set_buffer].
  destruct (encoded_frame _ _ JNull frame [] He Hc) as (i & start & Hfind & Hbounds & Hdec).
  rewrite app_nil_r in Hfind, Hbounds. revert Hbounds. unfold frame_bounds. rewrite Hfind. simpl.
  cbn [drain_buffer c_readBuffer c_transport set_buffer]. fold t. rewrite Hfind.
  set (h := parseFrameHeaders _). destruct (fh_contentLength h) as [n|]; [|done].
  destruct (fh_malformedContentLength h); [done|]. destruct (_ <? n)%N; [done|].
  intros [= <- Hlen]. rewrite Hlen, Nat.ltb_irrefl, firstn_all, Hdec. done.
Qed.

(** ** Witnesses *)

Definition demo_capabilities : json :=
  JObj [("protocolVersion", JStr "1"); ("methods", JArr (JStr <$> V2_METHODS));
        ("queryRelationship", JObj [("supportedRelations", JArr (JStr <$> V2_RELATIONS))]);
        ("languageCapabilityMatrix", JArr [JObj [("language", JStr "rust"); ("capability", JStr "definition");
           ("state", JStr "supported"); ("reason", JStr "parser"); ("parserBacked", JBool true)]])].

Definition demo_handshake : json :=
  JObj [("serverName", JStr "engine"); ("protocolVersion", JStr "1"); ("capabilities", demo_capabilities);
        ("transport", JObj [("selectedCodec", JStr "msgpack-rpc-v1"); ("maxFrameBytes", JNum "65536")])].

Definition demo_found : json :=
  JObj [("answerState", JStr "grounded");
        ("items", JArr [JObj [("file_path", JStr "a.rs"); ("lineStart", JNum "1"); ("lineEnd", JNum "2")]])].

(** A codec that reads back the messages of the example. *)
#[local] Instance demo_bridge_codec : BodyCodec json := {|
  encode_value _ v := Ret (list_ascii_of_string (stringify v));
  decode_value _ _ b :=
    match List.find (λ m, String.eqb (stringify m) (string_of_list_ascii b))
            [result_message (JNum "1") demo_handshake; result_message (JNum "2") demo_found] with
    | Some m => Ret m
    | None => Throw "Unexpected token"
    end;
|}.

Definition demo_ask : BridgeAskRequest :=
  mkAsk "main" "/repo" graph_definition None None None None None None None None.

Definition demo_transport : Transport :=
  mkClientTransport MSGPACK_RPC_CODEC MSGPACK_RPC_CODEC tm_msgpack_rpc_v1 None 65536 "1".

Definition demo_frame_of (codec : BridgeRpcCodec) (v : json) : bytes :=
  let body := list_ascii_of_string (stringify v) in frame_header codec body ++ CRLF2 ++ body.

Definition demo_start : Client :=
  start None (λ _, false) "/dh/rust-engine" "/repo" 10000 (CallAsk demo_ask) new_client.

(** The call, then a second one, the end of the process and closing. *)
Definition demo_closed : Client :=
  close (start None (λ _, false) "/dh/rust-engine" "/repo" 10000 CallPing
    (on_exit None None demo_start)).

Lemma demo_closed_reached :
  rtc (client_step (λ _, "0") None (λ _, false) "/dh/rust-engine" "/repo" 10000 10000) new_client
    (turn (λ _, "0") None 10000 demo_closed).
Proof.
  etrans; [|apply turn_steps]. unfold demo_closed. eapply rtc_r; [|apply step_close].
  eapply rtc_r; [|apply step_start]. eapply rtc_r; [|by apply step_exit; vm_compute].
  apply rtc_once, step_start.
Qed.

Lemma bridge_calls_settle_witness :
  let c := turn (λ _, "0") None 10000 demo_closed in
  c_calls c = 2 ∧
  calls_of c ≡ₚ seq 0 (c_calls c) ∧
  (c_closed c = true → c_tasks c = [] → (c_results c).*1 ≡ₚ seq 0 (c_calls c)) ∧
  (idle c → (c_results (expire (λ _, "0") None 10000 c)).*1 ≡ₚ seq 0 (c_calls c)) ∧
  transport_ok (c_transport c) ∧
  (e_initialized (c_engine c) = true → codec_override None = mode_msgpack →
   t_activeCodec (c_transport c) = MSGPACK_RPC_CODEC).
Proof.
  intros c. split; [vm_compute; reflexivity|].
  apply (bridge_calls_settle (λ _, "0") None (λ _, false) "/dh/rust-engine" "/repo" 10000 10000 c).
  exact demo_closed_reached.
Defined.

Lemma demo_arrives codec limit v n m :
  encodeRpcFrame codec v limit = Ret (demo_frame_of codec v) →
  decode_value codec limit (list_ascii_of_string (stringify v)) = Ret v →
  take n (demo_frame_of codec v) ≠ [] → drop n (demo_frame_of codec v) ≠ [] → m = demo_frame_of codec v →
  arrives codec limit v [take n m; drop n m].
Proof.
  intros He Hd Ht Hr ->. split; [|split].
  - simpl. by rewrite app_nil_r, take_drop.
  - exists (list_ascii_of_string (stringify v)). by split.
  - by repeat constructor.
Qed.

Lemma ask_answered_witness :
  let engine := engine_of demo_handshake
    (mkCapabilities "1" V2_METHODS V2_RELATIONS
       [mkCapabilityEntry "rust" "definition" lc_supported "parser" true] None None) demo_transport in
  let frame1 := demo_frame_of JSON_RPC_CODEC (result_message (JNum "1") demo_handshake) in
  let frame2 := demo_frame_of MSGPACK_RPC_CODEC (result_message (JNum "2") demo_found) in
  let c := feed (λ _, "0") None 10000 [take 9 frame2; drop 9 frame2]
             (feed (λ _, "0") None 10000 [take 30 frame1; drop 30 frame1] demo_start) in
  c_results c = [(0, Asked (mkAskResult query_definition None None 2 "engine" "unknown" "1"
    (e_capabilities engine)
    (mkDerived as_grounded "definition" [mkSearchItem "a.rs" "1" "2" "" "rust query match" "0.5"] None None)))] ∧
  length (c_children c) = 1 ∧ c_pending c = [].
Proof.
  intros engine frame1 frame2 c.
  destruct (ask_answered (λ _, "0") None (λ _, false) "/dh/rust-engine" "/repo" 10000 10000 false demo_ask
    demo_handshake
    (mkCapabilities "1" V2_METHODS V2_RELATIONS
       [mkCapabilityEntry "rust" "definition" lc_supported "parser" true] None None)
    demo_transport query_definition
    (JObj [("symbol", JStr "main"); ("workspaceRoot", JStr "/repo"); ("limit", JNum "5")])
    demo_found [take 30 frame1; drop 30 frame1] [take 9 frame2; drop 9 frame2]) as (Hr & _ & Hl & Hp & _).
  - eexists. vm_compute. reflexivity.
  - repeat split.
  - apply (demo_arrives _ _ _ 30); reflexivity || (vm_compute; discriminate).
  - reflexivity.
  - eexists. vm_compute. reflexivity.
  - apply (demo_arrives _ _ _ 9); reflexivity || (vm_compute; discriminate).
  - split; [exact Hr|]. split; [exact Hl|exact Hp].
Defined.
