(* ===== verification/Ask.v ===== *)
(** * Knowledge commands

    [packages/opencode-app/src/workflows/run-knowledge-command.ts]: the
    commands [ask], [explain] and [trace].  A question is classified by regular
    expressions, its session is resolved (Knowledge.v), and the bridge client is
    asked; the report says what the engine's evidence supports.

    The client is a record of what its methods answer, so that the direct client
    (Client.v) and the worker's client can both be meant; each use of it is
    recorded in order. *)

From S2P Require Import Prelude Json Regex Domain Store SessionContext Knowledge Codec BridgeMessages Client.
From Stdlib Require Import Ascii String QArith.
From stdpp Require Import prelude list strings gmap pretty.
Set Default Goal Selector "!".
Set Default Proof Using "Type".
Set Warnings "-clear-no-such-hyp".
Local Open Scope js_scope.

(** ** Classification of a question *)

(** [None] is the class ["unsupported"]. *)
Record AskQuestionClassification : Type := mkQuestion {
  q_queryClass : option BridgeAskQueryClass;
  q_symbol : option string;
  q_targetPath : option string;
  q_targets : option (list string);
  q_unsupportedReason : option string;
  q_unsupportedLimitations : option (list string);
}.

Definition question (c : BridgeAskQueryClass) (symbol targetPath : option string)
    (targets : option (list string)) : AskQuestionClassification :=
  mkQuestion (Some c) symbol targetPath targets None None.

Inductive BroadUnderstandingClassification : Type :=
| broad_supported (subject : string)
| broad_unsupported (reason : string)
| not_broad.

(** A backtick, a double or a single quote. *)
Definition is_quote (c : ascii) : bool :=
  let n := nat_of_ascii c in ((n =? 96) || (n =? 34) || (n =? 39))%nat.
Definition is_ending (c : ascii) : bool := bool_decide (c ∈ list_ascii_of_string ".,;:!?").
(** [[A-Za-z0-9_.$/-]]. *)
Definition is_path_unit (c : ascii) : bool := is_word c || bool_decide (c ∈ list_ascii_of_string ".$/-").
Definition quote_mark : regex := RClass is_quote.

Fixpoint drop_units (p : ascii → bool) (l : list ascii) : list ascii :=
  match l with c :: t => if p c then drop_units p t else l | [] => [] end.

(** Units removed from the end, and from the start, of a string. *)
Definition strip_end (p : ascii → bool) (s : string) : string :=
  string_of_list_ascii (rev (drop_units p (rev (list_ascii_of_string s)))).
Definition strip_start (p : ascii → bool) (s : string) : string :=
  string_of_list_ascii (drop_units p (list_ascii_of_string s)).

(** Each run of white space becomes a blank; [inside] says that a run has begun. *)
Fixpoint collapse_blanks (inside : bool) (s : string) : string :=
  match s with
  | EmptyString => ""
  | String c t =>
    if is_ws c then (if inside then collapse_blanks true t else String " " (collapse_blanks true t))
    else String c (collapse_blanks false t)
  end.

Definition sanitizeToken (token : option string) : option string :=
  t ← truthy token; Some (trim (strip_end is_ending t)).

(** A symbol between quotes, and [/\b([A-Za-z_][A-Za-z0-9_.$]{2,})\b/g]. *)
Definition quoted_symbol_re : regex :=
  seqs [quote_mark; RGroup 1 (RPlus (RClass is_path_unit)); quote_mark].
Definition identifier_re : regex :=
  let unit_re := RClass (λ c, is_word c || Ascii.eqb c "." || Ascii.eqb c "$") in
  seqs [RWordB; RClass (λ c, is_word c && negb (is_digit c)); unit_re; unit_re; RStar unit_re; RWordB].

Definition extractSymbolCandidate (query : string) : option string :=
  match truthy (exec_match quoted_symbol_re query ≫= group 1) with
  | Some s => sanitizeToken (Some s)
  | None => last (match_all identifier_re query) ≫= λ s, sanitizeToken (Some s)
  end.

(** Anything between quotes, [/\.[A-Za-z0-9]+$/], and
    [/([A-Za-z0-9_./-]+\.(?:ts|tsx|js|jsx|rs|json|md))/]. *)
Definition quoted_re : regex :=
  seqs [quote_mark; RGroup 1 (RPlus (RClass (λ c, negb (is_quote c)))); quote_mark].
Definition extension_re : regex :=
  seqs [chr "."; RPlus (RClass (λ c, is_word c && negb (Ascii.eqb c "_"))); REol].
Definition path_re : regex :=
  RGroup 1 (seqs [RPlus (RClass (λ c, is_path_unit c && negb (Ascii.eqb c "$"))); chr ".";
                  RAny [lit "ts"; lit "tsx"; lit "js"; lit "jsx"; lit "rs"; lit "json"; lit "md"]]).

Definition extractPathCandidate (query : string) : option string :=
  let by_name :=
    match truthy (exec_match path_re query ≫= group 1) with
    | Some s => sanitizeToken (Some s)
    | None => None
    end in
  match truthy (exec_match quoted_re query ≫= group 1) with
  | Some s => if test extension_re s then sanitizeToken (Some s) else by_name
  | None => by_name
  end.

(** ** The branches of [classifyAskQuestion] *)

Definition phrase_i : list string → regex := phrase lit_i.

Definition definition_re : regex :=
  seqs [RAny [phrase_i ["where"; "is"]; phrase_i ["where"; "are"]; phrase_i ["definition"; "of"];
              phrase_i ["defined"; "in"]; phrase_i ["implemented"; "in"]];
        blanks; ROpt quote_mark; RGroup 1 (RPlus (RClass is_path_unit))].

Definition usage_re : regex :=
  seqs [RAny [phrase_i ["where"; "is"]; phrase_i ["who"; "uses"];
              seqs [lit_i "usage"; ROpt (chr_i "s"); blanks; lit_i "of"];
              seqs [lit_i "reference"; ROpt (chr_i "s"); blanks; lit_i "to"]]; RStar dot].
Definition usage_word_re : regex :=
  bounded (lit_i <$> ["use"; "used"; "usage"; "reference"; "references"]).

Definition dependencies_re : regex :=
  bounded [phrase_i ["what"; "does"]; phrase_i ["dependencies"; "of"]; phrase_i ["depends"; "on"];
           phrase_i ["imports"; "for"]].
Definition dependencies_word_re : regex :=
  bounded (lit_i <$> ["file"; "path"; ".ts"; ".js"; ".tsx"; ".jsx"; ".rs"; "import"; "depend"]).

Definition dependents_re : regex :=
  bounded [phrase_i ["who"; "imports"]; phrase_i ["what"; "imports"]; phrase_i ["what"; "files"; "import"];
           phrase_i ["which"; "files"; "import"]; phrase_i ["dependents"; "of"];
           phrase_i ["who"; "depends"; "on"]].

Definition discovery_re : regex :=
  bounded [lit_i "where"; lit_i "find"; phrase_i ["which"; "files"]; lit_i "locate"].

Definition unsupportedAskClassification (reason : string) : AskQuestionClassification :=
  mkQuestion None None None None (Some reason)
    (Some [reason;
           "Bounded broad ask requires a finite static repository subject and Rust-authored query.buildEvidence packet truth.";
           "No TypeScript-composed canonical evidence packet fallback was used."]).

(** The tests in order, each with its reason; [lowered] is in lower case, so
    that the flag [i] is not needed. *)
Definition unsupported_boundaries : list (regex * string) :=
  let words := phrase lit in
  [(bounded [seqs [lit "runtime"; blanks; lit "trac"; RAny [lit "e"; lit "ing"]]; words ["trace"; "flow"]],
    "runtime tracing and trace-flow execution are outside bounded Rust-hosted build-evidence support.");
   (bounded [RSeq (lit "debug") (ROpt (RAny [lit "ger"; lit "ging"]));
             RSeq (lit "profil") (RAny [lit "e"; lit "ing"; lit "er"])],
    "runtime debugging and profiling requests are outside the static repository-understanding ask contract.");
   (bounded [words ["impact"; "analysis"]],
    "impact-analysis requests are not part of the bounded broad-understanding ask contract.");
   (RAlt (bounded [words ["impact"; "of"]]) (bounded [words ["could"; "break"]; words ["would"; "break"]]),
    "impact-analysis requests are not part of the bounded broad-understanding ask contract.");
   (bounded [words ["call"; "hierarchy"]],
    "call-hierarchy requests remain outside this bounded broad-understanding ask route.");
   (bounded [seqs [lit "multi"; ROpt (RClass (λ c, Ascii.eqb c "-" || is_ws c)); lit "hop"]],
    "multi-hop path exploration is outside first-wave Rust-hosted build-evidence support.");
   (bounded [seqs [RAny [lit "entire"; lit "whole"]; blanks;
                   RAny (lit <$> ["subsystem"; "system"; "codebase"; "repo"; "repository"; "project"])]],
    "unbounded subsystem or repository-wide requests need a finite subject before build evidence can be safe.");
   (bounded [lit "everything"; seqs [lit "all"; blanks; lit "behavio"; ROpt (chr "u"); chr "r"]],
    "unbounded broad-understanding requests need a finite subject before build evidence can be safe.")].

Definition classifyUnsupportedAskBoundary (lowered : string) : option AskQuestionClassification :=
  unsupportedAskClassification ∘ snd <$> List.find (λ b, test b.1 lowered) unsupported_boundaries.

(** An optional place, introduced by one of four words, and an optional question
    mark end the question. *)
Definition broad_tail : regex :=
  seqs [ROpt (seqs [blanks; RAny (lit_i <$> ["in"; "inside"; "within"; "for"]); RWordB; RStar dot]);
        ROpt (chr "?"); REol].
(** [(.+?)]. *)
Definition lazy_subject : regex := RGroup 1 (RSeq dot (RLazy dot)).

Definition broadPatterns : list regex :=
  let works := seqs [lit_i "work"; ROpt (chr_i "s")] in
  [seqs [RBol; phrase_i ["how"; "does"]; blanks; lazy_subject; blanks; works; broad_tail];
   seqs [RBol; phrase_i ["how"; "is"]; blanks; lazy_subject; blanks;
         RAny [lit_i "implemented"; lit_i "wired"]; broad_tail];
   seqs [RBol; phrase_i ["what"; "is"; "the"]; blanks; lazy_subject; blanks; lit_i "flow"; broad_tail];
   seqs [RBol; phrase_i ["explain"; "how"]; blanks; lazy_subject; blanks; works; broad_tail]].

(** What [/^(?:the|a|an)\s+/i] matches is removed. *)
Definition drop_article (s : string) : string :=
  match bt (seqs [RBol; RAny (lit_i <$> ["the"; "a"; "an"]); blanks])
          (mkPos [] (list_ascii_of_string s) []) Some with
  | Some s1 => string_of_list_ascii (after s1)
  | None => s
  end.

(** Both quotes are stripped by one pattern with two alternatives, the leading
    ones first. *)
Definition sanitizeBroadUnderstandingSubject (raw : string) : option string :=
  truthy (Some (trim (drop_article (trim (strip_end is_ending
    (strip_end is_quote (strip_start is_quote raw))))))).

Definition isUnboundedBroadUnderstandingSubject (subject : string) : bool :=
  let lowered := toLowerCase subject in
  bool_decide (lowered ∈ ["it"; "this"; "that"; "system"; "subsystem"; "codebase"; "repo"; "repository";
                          "project"; "everything"])
  || test (seqs [RBol; RAny (lit <$> ["all"; "entire"; "whole"]); RWordB]) lowered.

Fixpoint first_broad (normalized : string) (patterns : list regex) : BroadUnderstandingClassification :=
  match patterns with
  | [] => not_broad
  | pattern :: patterns =>
    match truthy (exec_match pattern normalized ≫= group 1) with
    | None => first_broad normalized patterns
    | Some subject =>
      match sanitizeBroadUnderstandingSubject subject with
      | None =>
        broad_unsupported "bounded broad-understanding asks need a finite static repository subject."
      | Some subject =>
        if isUnboundedBroadUnderstandingSubject subject then
          broad_unsupported "unbounded broad-understanding requests need a finite subject before build evidence can be safe."
        else broad_supported subject
      end
    end
  end.

Definition classifyBroadUnderstandingAsk (query : string) : BroadUnderstandingClassification :=
  first_broad (collapse_blanks false (trim query)) broadPatterns.

Definition classifyAskQuestion (query : string) : AskQuestionClassification :=
  let q := trim query in
  let lowered := toLowerCase q in
  match exec_match definition_re q with
  | Some gs => question graph_definition (sanitizeToken (group 1 gs)) None None
  | None =>
    if test usage_re q && test usage_word_re q then
      question graph_relationship_usage (Some (extractSymbolCandidate q or_else q)) None None
    else if test dependencies_re q && test dependencies_word_re q then
      question graph_relationship_dependencies None (Some (extractPathCandidate q or_else q)) None
    else if test dependents_re q then
      question graph_relationship_dependents None
        (Some (coalesce (extractPathCandidate q) (extractSymbolCandidate q) or_else q)) None
    else if test discovery_re q then question search_file_discovery None None None
    else match classifyUnsupportedAskBoundary lowered with
    | Some unsupportedBoundary => unsupportedBoundary
    | None =>
      match classifyBroadUnderstandingAsk q with
      | broad_supported subject => question graph_build_evidence None None (Some [subject])
      | broad_unsupported reason => unsupportedAskClassification reason
      | not_broad => mkQuestion None None None None None None
      end
    end
  end.

Definition classifyExplainQuestion (query : string) : AskQuestionClassification :=
  let q := trim query in
  question graph_definition
    (Some (coalesce (extractSymbolCandidate q) (sanitizeToken (Some q)) or_else q)) None None.

Example classify_build : classifyAskQuestion "How does the session guard work in the runtime?" =
  question graph_build_evidence None None (Some ["session guard"]).
Proof. vm_compute. reflexivity. Qed.
Example classify_usage : classifyAskQuestion "who uses `runStage`? list references" =
  question graph_relationship_usage (Some "runStage") None None.
Proof. vm_compute. reflexivity. Qed.

(** Questions that their own branch does not get. *)
Lemma used_question_is_definition :
  classifyAskQuestion "where is runStage used" = question graph_definition (Some "runStage") None None.
Proof. vm_compute. reflexivity. Qed.
Lemma dependents_question_is_dependencies :
  classifyAskQuestion "who depends on src/app.ts" =
    question graph_relationship_dependencies None (Some "src/app.ts") None.
Proof. vm_compute. reflexivity. Qed.
(** The first alternative that matches cuts the longer extensions. *)
Lemma extension_cut :
  q_targetPath (classifyAskQuestion "what does src/App.tsx import") = Some "src/App.ts" ∧
  q_targetPath (classifyAskQuestion "what imports package.json") = Some "package.js".
Proof. vm_compute. split; reflexivity. Qed.

(** ** Answers *)

Inductive KnowledgeAskAnswerType : Type :=
| at_search_match | at_build_evidence | at_definition | at_usage | at_dependencies | at_dependents
| at_partial | at_unsupported.

Inductive Relationship : Type := rel_usage | rel_dependencies | rel_dependents | rel_call_hierarchy | rel_entry_points.

Record KnowledgeAskEvidenceEntry : Type := mkAskEvidence {
  ae_filePath : string;
  ae_lineStart : option string;
  ae_lineEnd : option string;
  ae_reason : string;
  ae_sourceMethod : string;
  ae_source : option string;
  ae_confidence : option BridgeEvidenceConfidence;
  ae_kind : option string;
  ae_snippet : option string;
  ae_symbol : option string;
  ae_relationship : option Relationship;
}.

#[global] Instance BridgeAnswerState_eq_dec : EqDecision BridgeAnswerState.
Proof. solve_decision. Defined.
#[global] Instance BridgeAskQueryClass_eq_dec : EqDecision BridgeAskQueryClass.
Proof. solve_decision. Defined.

Definition answer_state_name (s : BridgeAnswerState) : string :=
  match s with
  | as_grounded => "grounded" | as_partial => "partial"
  | as_insufficient => "insufficient" | as_unsupported => "unsupported"
  end.

Definition capitalizeAnswerState (s : BridgeAnswerState) : string :=
  match s with
  | as_grounded => "Grounded" | as_partial => "Partial"
  | as_insufficient => "Insufficient" | as_unsupported => "Unsupported"
  end.

Definition mapQuestionClassToAnswerType (questionClass : string) (answerState : BridgeAnswerState) :
    KnowledgeAskAnswerType :=
  match answerState with
  | as_unsupported => at_unsupported
  | as_partial | as_insufficient => at_partial
  | as_grounded =>
    if String.eqb questionClass "definition" then at_definition
    else if String.eqb questionClass "references" then at_usage
    else if String.eqb questionClass "dependencies" then at_dependencies
    else if String.eqb questionClass "dependents" then at_dependents
    else if String.eqb questionClass "build_evidence" then at_build_evidence
    else at_search_match
  end.

Definition relationship_of (c : BridgeAskQueryClass) : option Relationship :=
  match c with
  | graph_relationship_usage => Some rel_usage
  | graph_relationship_dependencies => Some rel_dependencies
  | graph_relationship_dependents => Some rel_dependents
  | graph_call_hierarchy => Some rel_call_hierarchy
  | graph_entry_points => Some rel_entry_points
  | _ => None
  end.

Definition ask_evidence (c : BridgeAskQueryClass) (method : BridgeDirectQueryMethod) (e : BridgeEvidenceEntry) :
    KnowledgeAskEvidenceEntry :=
  mkAskEvidence (bee_filePath e) (bee_lineStart e) (bee_lineEnd e) (bee_reason e) (method_name method)
    (Some (bee_source e)) (Some (bee_confidence e)) (Some (bee_kind e)) (bee_snippet e) (bee_symbol e)
    (relationship_of c).

(** [`${item.filePath} [${lineStart}-${lineEnd}]`], without the lines when they
    are not known. *)
Definition topLocation (e : KnowledgeAskEvidenceEntry) : string :=
  match ae_lineStart e, ae_lineEnd e with
  | Some a, Some b => ae_filePath e +:+ " [" +:+ a +:+ "-" +:+ b +:+ "]"
  | _, _ => ae_filePath e
  end.

(** The answer when the engine gives no conclusion. *)
Definition location_answer (c : BridgeAskQueryClass) (top : option KnowledgeAskEvidenceEntry) : string :=
  let found prefix := λ e, prefix +:+ topLocation e +:+ "." in
  match c, top with
  | search_file_discovery, Some e => found "Best file-discovery match: " e
  | search_file_discovery, None => "Partial file-discovery answer: no concrete match returned."
  | graph_definition, Some e => found "Best definition location: " e
  | graph_definition, None => "Partial definition answer: no concrete definition location returned."
  | graph_relationship_usage, Some e => found "Best one-hop usage match: " e
  | graph_relationship_usage, None => "Partial usage answer: no concrete usage location returned."
  | graph_relationship_dependencies, Some e => found "Best one-hop dependency match: " e
  | graph_relationship_dependencies, None => "Partial dependencies answer: no concrete dependency edge returned."
  | _, Some e => found "Best one-hop dependent/importer match: " e
  | _, None => "Partial dependents answer: no concrete dependent/import edge returned."
  end.

Definition MISSING_PACKET : string :=
  "Rust build-evidence packet was missing; preview rows are non-authoritative and cannot ground this answer.".
Definition EMPTY_PACKET : string :=
  "Rust build-evidence packet was grounded but returned no inspectable evidence entries; final answer is insufficient.".
Definition GROUNDED_WITHOUT_EVIDENCE : string :=
  "Rust answer state is grounded but no inspectable evidence entries were returned.".
Definition PREVIEW_ONLY : string :=
  "Rust bridge returned preview items without a canonical evidence packet; preview rows are non-authoritative and cannot be used as proof.".

Record AssembledAnswer : Type := mkAssembled {
  aa_answer : string;
  aa_answerType : KnowledgeAskAnswerType;
  aa_answerState : BridgeAnswerState;
  aa_evidence : list KnowledgeAskEvidenceEntry;
  aa_rustEvidence : option BridgeEvidencePacket;
  aa_limitations : list string;
  aa_questionClass : string;
  aa_languageCapabilitySummary : option BridgeLanguageCapabilitySummary;
}.

(** [if (b) limitations.push(text)]. *)
Definition push_if (b : bool) (text : string) : list string := if b then [text] else [].

Definition assembleAskAnswer (requested : BridgeAskQueryClass) (bridgeResult : BridgeAskResult) : AssembledAnswer :=
  let derived := ar_derived bridgeResult in
  let rustEvidence := rd_evidence derived in
  let build := bool_decide (requested = graph_build_evidence) in
  let missing := build && match rustEvidence with Some _ => false | None => true end in
  let evidence := ask_evidence requested (ar_method bridgeResult) <$> ((bp_evidence <$> rustEvidence) or_else []) in
  let no_evidence := (length evidence =? 0)%nat in
  let empty := build && bool_decide (bp_answerState <$> rustEvidence = Some as_grounded) && no_evidence in
  let answerState :=
    if missing || empty then as_insufficient
    else (bp_answerState <$> rustEvidence) or_else rd_answerState derived in
  let questionClass :=
    (bp_questionClass <$> rustEvidence) or_else (if build then "build_evidence" else rd_questionClass derived) in
  let limitations :=
    ((bp_gaps <$> rustEvidence) or_else [])
    ++ push_if missing MISSING_PACKET
    ++ push_if empty EMPTY_PACKET
    ++ match rustEvidence with
       | Some p =>
         push_if (negb (bool_decide (bp_answerState p = rd_answerState derived)))
           ("Rust packet answerState '" +:+ answer_state_name (bp_answerState p) +:+
            "' was preserved over bridge envelope answerState '" +:+
            answer_state_name (rd_answerState derived) +:+ "'.")
         ++ push_if (negb (String.eqb (bp_questionClass p) (rd_questionClass derived)))
           ("Rust packet questionClass '" +:+ bp_questionClass p +:+
            "' was preserved over bridge envelope questionClass '" +:+ rd_questionClass derived +:+ "'.")
       | None => push_if (negb (length (rd_items derived) =? 0)%nat) PREVIEW_ONLY
       end
    ++ push_if (bool_decide (answerState = as_grounded) && no_evidence) GROUNDED_WITHOUT_EVIDENCE
    ++ push_if (match rd_languageCapabilitySummary derived with Some s => cs_retrievalOnly s | None => false end)
         "Result is retrieval-backed for this class and does not imply parser-backed relation proof." in
  let answer :=
    if missing then MISSING_PACKET
    else if empty then EMPTY_PACKET
    else truthy (bp_conclusion <$> rustEvidence) or_else location_answer requested (head evidence) in
  mkAssembled
    (if decide (answerState = as_grounded) then answer
     else capitalizeAnswerState answerState +:+ " answer: " +:+ answer)
    (mapQuestionClassToAnswerType questionClass answerState)
    answerState evidence rustEvidence limitations questionClass (rd_languageCapabilitySummary derived).

(** ** Trace *)

Definition capabilityStateRank (s : BridgeLanguageCapabilityState) : nat :=
  match s with lc_supported => 3 | lc_partial => 2 | lc_best_effort => 1 | lc_unsupported => 0 end.

Definition weaker (current candidate : BridgeLanguageCapabilityState) : BridgeLanguageCapabilityState :=
  if (capabilityStateRank candidate <? capabilityStateRank current)%nat then candidate else current.

Definition summarizeTraceCapabilityFromInitialize (snapshot : BridgeInitializeSnapshot) :
    option BridgeLanguageCapabilitySummary :=
  let entries :=
    (λ e, mkLanguageSummary (ce_language e) (ce_state e) (ce_reason e) (ce_parserBacked e)) <$>
    filter (λ e, ce_capability e = "trace_flow") (ic_languageCapabilityMatrix (sn_capabilities snapshot)) in
  match entries with
  | [] => None
  | first :: _ =>
    Some (mkCapabilitySummary "trace_flow" (foldl weaker (ls_state first) (ls_state <$> entries)) entries false)
  end.

Record TraceTruth : Type := mkTraceTruth {
  tt_answer : string;
  tt_summary : string;
  tt_conclusion : string;
  tt_gaps : list string;
  tt_limitations : list string;
  tt_stopReason : string;
}.

#[global] Instance BridgeLanguageCapabilityState_eq_dec : EqDecision BridgeLanguageCapabilityState.
Proof. solve_decision. Defined.

Definition deriveTraceUnsupportedTruth (snapshot : BridgeInitializeSnapshot)
    (summary : BridgeLanguageCapabilitySummary) : TraceTruth :=
  let supportsTraceMethod := bool_decide ("query.trace" ∈ ic_methods (sn_capabilities snapshot)) in
  let unsupportedByCapability := bool_decide (cs_weakestState summary = lc_unsupported) in
  let gaps :=
    push_if (negb supportsTraceMethod)
      "Rust bridge methods do not advertise query.trace in the current bounded protocol."
    ++ ((λ e, ls_language e +:+ ": " +:+ ls_reason e) <$>
        filter (λ e, ls_state e = lc_unsupported) (cs_languages summary))
    ++ push_if (negb unsupportedByCapability && negb supportsTraceMethod)
      "Trace routing remains unavailable even though capability matrix did not report unsupported as the weakest state." in
  let gaps := match gaps with
              | [] => ["Trace flow is outside the current bounded Rust query routing contract."]
              | _ => gaps
              end in
  let text := if unsupportedByCapability
    then "Trace flow is unsupported in the Rust capability matrix for the current bounded contract."
    else "Trace flow routing is not advertised by the Rust bridge in the current bounded contract." in
  let conclusion := if unsupportedByCapability
    then "Unsupported trace result: Rust capability truth reports trace_flow as unsupported for the bounded language set."
    else "Unsupported trace result: Rust bridge capability routing does not expose trace_flow execution in this bounded contract." in
  mkTraceTruth ("Unsupported: " +:+ conclusion) text conclusion gaps [conclusion]
    (if supportsTraceMethod then "unsupported_language_capability" else "method_not_advertised").

(** ** The report *)

Record KnowledgeCommandExecutionBoundary : Type := mkBoundary {
  xb_path : string;
  xb_rustHosted : bool;
  xb_lifecycleAuthority : string;
  xb_label : string;
  xb_note : string;
}.

Definition LEGACY_TS_HOST_KNOWLEDGE_BOUNDARY : KnowledgeCommandExecutionBoundary :=
  mkBoundary "legacy_ts_host_bridge_compatibility" false "not_claimed"
    "legacy_ts_host_bridge_compatibility_only"
    "This TypeScript CLI path may spawn the legacy Rust bridge for query evidence; it is not the Rust-host lifecycle-authoritative first-wave path.".

(** The part of a report about the answer; [rq_requested] is [None] for the
    class ["unsupported"]. *)
Record ReportAnswer : Type := mkReportAnswer {
  rq_answer : string;
  rq_answerType : KnowledgeAskAnswerType;
  rq_answerState : BridgeAnswerState;
  rq_evidence : list KnowledgeAskEvidenceEntry;
  rq_rustEvidence : option BridgeEvidencePacket;
  rq_limitations : list string;
  rq_questionClass : string;
  rq_requested : option BridgeAskQueryClass;
  rq_languageCapabilitySummary : option BridgeLanguageCapabilitySummary;
}.

Record BridgeEvidence : Type := mkBridgeEvidence {
  be_startupSucceeded : bool;
  be_method : option string;
  be_seamMethod : option string;
  be_delegatedMethod : option BridgeDirectQueryMethod;
  be_requestId : option N;
  be_rustBacked : bool;
  be_engine : option (string * string * string * BridgeInitializeCapabilities);
  be_failure : option DhBridgeError;
}.

(** [kr_session] stands for the members [sessionId], [resumed], [compaction] and
    [persistence], all of which repeat what the session resolved to. *)
Record KnowledgeCommandReport : Type := mkReport {
  kr_exitCode : nat;
  kr_command : KnowledgeCommandKind;
  kr_repo : string;
  kr_intent : string;
  kr_tools : list string;
  kr_seedTerms : list string;
  kr_workspaceCount : nat;
  kr_resultCount : nat;
  kr_evidenceCount : nat;
  kr_evidencePreview : list string;
  kr_session : option Resolved;
  kr_message : option string;
  kr_guidance : option (list string);
  kr_answered : option ReportAnswer;
  kr_bridgeEvidence : option BridgeEvidence;
  kr_executionBoundary : option KnowledgeCommandExecutionBoundary;
}.

(** ** The client *)

(** What a call may reject with: a bridge error, another [Error], or a value that
    is no error. *)
Inductive ClientFailure : Type :=
| BridgeFailed (e : DhBridgeError)
| ErrorFailed (message : string)
| ValueFailed.

Record BridgeClient : Type := mkBridgeClient {
  bc_runAskQuery : BridgeAskRequest → BridgeAskResult + ClientFailure;
  bc_runSessionCommand : option (BridgeAskRequest → BridgeAskResult + ClientFailure);
  bc_getInitializeSnapshot : option (BridgeInitializeSnapshot + ClientFailure);
}.

Inductive ClientEvent : Type :=
| Created (repoRoot : string)
| AskedDirectly (request : BridgeAskRequest)
| AskedSession (request : BridgeAskRequest)
| Inspected
| Closed.

Record CommandWorld : Type := mkCommandWorld {
  cw_store : KWorld;
  cw_log : list ClientEvent;
}.

Definition in_store {A} (m : M KWorld A) : M CommandWorld A := λ w,
  let '(o, s) := m (cw_store w) in (o, mkCommandWorld s (cw_log w)).
Definition log_event (e : ClientEvent) : M CommandWorld () := λ w,
  (Ret (), mkCommandWorld (cw_store w) (cw_log w ++ [e])).

Definition isFirstWaveDelegatedQuestionClass (c : BridgeAskQueryClass) : bool :=
  match c with other_query_class _ => false | _ => true end.

Definition runBridgeAskQuery (client : BridgeClient) (request : BridgeAskRequest) :
    M CommandWorld (BridgeAskResult + ClientFailure) :=
  match isFirstWaveDelegatedQuestionClass (ask_queryClass request), bc_runSessionCommand client with
  | true, Some run => log_event (AskedSession request);; mret (run request)
  | _, _ => log_event (AskedDirectly request);; mret (bc_runAskQuery client request)
  end.

Definition toBridgeFailure (f : ClientFailure) : DhBridgeError :=
  match f with
  | BridgeFailed e => e
  | ErrorFailed message => mkBridgeError REQUEST_FAILED ph_request message false
  | ValueFailed => mkBridgeError REQUEST_FAILED ph_request "Unknown bridge error." false
  end.

Definition failure_code_name (c : BridgeFailureCode) : string :=
  match c with
  | BRIDGE_STARTUP_FAILED => "BRIDGE_STARTUP_FAILED" | BRIDGE_UNREACHABLE => "BRIDGE_UNREACHABLE"
  | BRIDGE_TIMEOUT => "BRIDGE_TIMEOUT" | METHOD_NOT_SUPPORTED => "METHOD_NOT_SUPPORTED"
  | INVALID_REQUEST => "INVALID_REQUEST" | ACCESS_DENIED => "ACCESS_DENIED" | NOT_FOUND => "NOT_FOUND"
  | TIMEOUT => "TIMEOUT" | EXECUTION_FAILED => "EXECUTION_FAILED"
  | RUNTIME_UNAVAILABLE => "RUNTIME_UNAVAILABLE" | BINARY_FILE_UNSUPPORTED => "BINARY_FILE_UNSUPPORTED"
  | BRIDGE_CODEC_UNSUPPORTED => "BRIDGE_CODEC_UNSUPPORTED"
  | BRIDGE_CODEC_DECODE_FAILED => "BRIDGE_CODEC_DECODE_FAILED"
  | BRIDGE_FRAME_TOO_LARGE => "BRIDGE_FRAME_TOO_LARGE"
  | BRIDGE_CODEC_NEGOTIATION_FAILED => "BRIDGE_CODEC_NEGOTIATION_FAILED"
  | CAPABILITY_UNSUPPORTED => "CAPABILITY_UNSUPPORTED" | REQUEST_FAILED => "REQUEST_FAILED"
  end.

Definition phase_name (p : BridgeFailurePhase) : string :=
  match p with ph_startup => "startup" | ph_request => "request" end.

Definition mapBridgeMethodToIntent (m : BridgeDirectQueryMethod) : string :=
  match m with
  | query_definition => "bridge_query_definition"
  | query_relationship => "bridge_query_relationship"
  | query_buildEvidence => "bridge_query_build_evidence"
  | query_callHierarchy => "bridge_query_call_hierarchy"
  | query_entryPoints => "bridge_query_entry_points"
  | query_search => "bridge_query_search"
  end.

Definition unsupportedAskTruth (c : AskQuestionClassification) : string * list string :=
  ("Unsupported: " +:+ (q_unsupportedReason c
     or_else "this question falls outside the bounded Rust-hosted ask classes."),
   q_unsupportedLimitations c or_else
     ["Rust-hosted first-wave ask supports search-aware file discovery, graph-aware definition/location, graph-aware one-hop usage/dependency/import relationships, and bounded broad understanding through Rust-authored query.buildEvidence packets.";
      "No TypeScript-composed canonical evidence packet fallback was used for this unsupported request."]).

(** [input.split(/\s+/).filter((value) => value.length > 0).slice(0, 6)]: the
    empty pieces that runs of white space give here are dropped as well. *)
Fixpoint split_blanks (word : string) (s : string) : list string :=
  match s with
  | EmptyString => [word]
  | String c t => if is_ws c then word :: split_blanks "" t else split_blanks (word +:+ String c "") t
  end.
Definition seedTerms (input : string) : list string :=
  take 6 (filter (λ v, 0 < String.length v) (split_blanks "" input)).

(** One line for each of the first three entries. *)
Definition evidence_line (i : nat) (e : KnowledgeAskEvidenceEntry) : string :=
  "evidence " +:+ pretty (S i) +:+ ": " +:+ ae_filePath e +:+ " " +:+
  match ae_lineStart e, ae_lineEnd e with
  | Some a, Some b => "[" +:+ a +:+ "-" +:+ b +:+ "]"
  | _, _ => "[line unknown]"
  end +:+ " via=" +:+ ae_sourceMethod e +:+ " reason=" +:+ ae_reason e.

Section command.
Context `{Env}.
(** [createDhJsonRpcStdioClient]. *)
Variable createDhJsonRpcStdioClient : string → BridgeClient.

Section run.
Variable kind : KnowledgeCommandKind.
Variable input : string.
Variable repoRoot : string.
Variable bridgeClientFactory : option (string → BridgeClient).

Definition legacyBoundaryForDirectTsHost : option KnowledgeCommandExecutionBoundary :=
  match bridgeClientFactory with Some _ => None | None => Some LEGACY_TS_HOST_KNOWLEDGE_BOUNDARY end.

(** The reports with exit code 1. *)
Definition refused_report (message : string) (guidance : option (list string)) : KnowledgeCommandReport :=
  mkReport 1 kind repoRoot "" [] [] 0 0 0 [] None (Some message) guidance None None
    legacyBoundaryForDirectTsHost.

Definition failed_report (resolved : Resolved) (error : ClientFailure) : KnowledgeCommandReport :=
  let failure := toBridgeFailure error in
  mkReport 1 kind repoRoot "" [] [] 0 0 0 [] (Some resolved)
    (Some ("Knowledge command failed: " +:+ failure_code_name (be_code failure) +:+ " (" +:+
           phase_name (be_phase failure) +:+ ") — " +:+ be_message failure))
    (Some ["Check bridge diagnostics and ensure rust-engine can run locally.";
     "Run: cargo test --workspace (from rust-engine) to verify engine health.";
     "Run: dh --help to confirm available commands.";
     "Run: dh status to check workspace/index state."])
    None
    (Some (mkBridgeEvidence (bool_decide (be_phase failure = ph_request)) None None None None false None
             (Some failure)))
    legacyBoundaryForDirectTsHost.

Definition unsupported_report (resolved : Resolved) (c : AskQuestionClassification) : KnowledgeCommandReport :=
  let '(answer, limitations) := unsupportedAskTruth c in
  mkReport 0 kind repoRoot "unsupported_question_class" [] (seedTerms input) 1 0 0 [] (Some resolved) None (Some [])
    (Some (mkReportAnswer answer at_unsupported as_unsupported [] None limitations "unsupported" None None))
    (Some (mkBridgeEvidence false None None None None false None None)) legacyBoundaryForDirectTsHost.

Definition bridge_request (c : AskQuestionClassification) (queryClass : BridgeAskQueryClass) : BridgeAskRequest :=
  let build := bool_decide (queryClass = graph_build_evidence) in
  mkAsk input repoRoot queryClass (Some 5%Q) None (q_symbol c) (q_targetPath c)
    (if build then Some intent_explain else None) (q_targets c) None
    (if build then Some fr_indexed else None).

Definition answered_report (resolved : Resolved) (queryClass : BridgeAskQueryClass) (r : BridgeAskResult) :
    KnowledgeCommandReport :=
  let a := assembleAskAnswer queryClass r in
  mkReport 0 kind repoRoot (mapBridgeMethodToIntent (ar_method r)) ["rust_bridge_jsonrpc"] (seedTerms input) 1
    (length (rd_items (ar_derived r))) (length (aa_evidence a))
    (imap evidence_line (take 3 (aa_evidence a))) (Some resolved) None (Some [])
    (Some (mkReportAnswer (aa_answer a) (aa_answerType a) (aa_answerState a) (aa_evidence a) (aa_rustEvidence a)
             (aa_limitations a) (aa_questionClass a) (Some queryClass) (aa_languageCapabilitySummary a)))
    (Some (mkBridgeEvidence true (Some (method_name (ar_method r))) (ar_seamMethod r) (ar_delegatedMethod r)
             (Some (ar_requestId r)) true
             (Some (ar_protocolVersion r, ar_engineName r, ar_engineVersion r, ar_capabilities r)) None))
    legacyBoundaryForDirectTsHost.

Definition trace_report (resolved : Resolved) (snapshot : BridgeInitializeSnapshot)
    (summary : BridgeLanguageCapabilitySummary) : KnowledgeCommandReport :=
  let t := deriveTraceUnsupportedTruth snapshot summary in
  mkReport 0 kind repoRoot "trace_flow_unsupported" ["rust_bridge_jsonrpc"] (seedTerms input) 1 0 0
    [tt_summary t] (Some resolved) None
    (Some ["Use dh ask for bounded definition/usage/dependency/dependent questions.";
     "Use dh explain for bounded symbol-definition lookup."])
    (Some (mkReportAnswer (tt_answer t) at_unsupported as_unsupported []
             (Some (mkEvidencePacket as_unsupported "trace_flow" input (tt_summary t) (tt_conclusion t) []
                      (tt_gaps t) (mkBounds (Some "0") None (Some "trace_flow") (Some (tt_stopReason t)))))
             (tt_limitations t) "trace_flow" None (Some summary)))
    (Some (mkBridgeEvidence true (Some "dh.initialize") None None None true
             (Some (sn_protocolVersion snapshot, sn_engineName snapshot, sn_engineVersion snapshot,
                    sn_capabilities snapshot)) None))
    legacyBoundaryForDirectTsHost.

(** [try { ... } catch { ... } finally { await bridgeClient.close() }] around
    the use of a new client. *)
Definition with_client (use : BridgeClient → M CommandWorld KnowledgeCommandReport) :
    M CommandWorld KnowledgeCommandReport :=
  let create := match bridgeClientFactory with Some f => f | None => createDhJsonRpcStdioClient end in
  log_event (Created repoRoot);;
  report ← use (create repoRoot);
  log_event Closed;;
  mret report.

Definition answer_question (resolved : Resolved) : M CommandWorld KnowledgeCommandReport :=
  let c := match kind with ask => classifyAskQuestion input | _ => classifyExplainQuestion input end in
  match q_queryClass c with
  | None => mret (unsupported_report resolved c)
  | Some queryClass =>
    with_client (λ client,
      result ← runBridgeAskQuery client (bridge_request c queryClass);
      mret (match result with
            | inl r => answered_report resolved queryClass r
            | inr error => failed_report resolved error
            end))
  end.

Definition trace_question (resolved : Resolved) : M CommandWorld KnowledgeCommandReport :=
  with_client (λ client,
    match bc_getInitializeSnapshot client with
    | None => mret (failed_report resolved (BridgeFailed (bridge_error METHOD_NOT_SUPPORTED ph_startup
        "Rust bridge client does not expose initialize capability snapshot for trace introspection.")))
    | Some result =>
      log_event Inspected;;
      mret (match result with
            | inr error => failed_report resolved error
            | inl snapshot =>
              match summarizeTraceCapabilityFromInitialize snapshot with
              | None => failed_report resolved (BridgeFailed (bridge_error INVALID_REQUEST ph_startup
                  "Rust bridge initialize snapshot omitted trace_flow capability entries."))
              | Some summary => trace_report resolved snapshot summary
              end
            end)
    end).

Definition runKnowledgeCommand (resumeSessionId : option string) : M CommandWorld KnowledgeCommandReport :=
  if String.eqb input "" then
    mret (refused_report ("Missing input for '" +:+ kind_text kind +:+ "' command.")
            (Some ["Example: dh " +:+ kind_text kind +:+ " " +:+ quoted "how does authentication work?"]))
  else
    resolved ← in_store (resolveSession repoRoot kind input resumeSessionId);
    match resolved with
    | inr reason => mret (refused_report reason None)
    | inl resolved =>
      match kind with
      | trace => trace_question resolved
      | _ => answer_question resolved
      end
    end.
End run.
End command.

(** ** Facts *)

(** What an answer owes to the result it was made from: its evidence is that of
    the engine's packet; it is grounded only if the engine says so, and for a
    broad question only on evidence that can be inspected; and grounded without
    evidence it says that there is none. *)
Record supported_by (c : BridgeAskQueryClass) (r : BridgeAskResult) (state : BridgeAnswerState)
    (evidence : list KnowledgeAskEvidenceEntry) (limitations : list string) : Prop := {
  sb_evidence : evidence = ask_evidence c (ar_method r) <$>
    ((bp_evidence <$> rd_evidence (ar_derived r)) or_else []);
  sb_grounded : state = as_grounded →
    ((bp_answerState <$> rd_evidence (ar_derived r)) or_else rd_answerState (ar_derived r)) = as_grounded;
  sb_inspectable : state = as_grounded → c = graph_build_evidence →
    is_Some (rd_evidence (ar_derived r)) ∧ evidence ≠ [];
  sb_admitted : state = as_grounded → evidence = [] → GROUNDED_WITHOUT_EVIDENCE ∈ limitations;
}.

Lemma assembled_supported c r :
  let a := assembleAskAnswer c r in
  supported_by c r (aa_answerState a) (aa_evidence a) (aa_limitations a).
Proof.
  unfold assembleAskAnswer. set (build := bool_decide (c = graph_build_evidence)).
  set (packet := rd_evidence (ar_derived r)). set (missing := build && _).
  set (evidence := _ <$> (_ or_else [])). set (empty := build && _ && _).
  set (state := if missing || empty then _ else _). cbn [aa_answerState aa_evidence aa_limitations].
  assert (state = as_grounded → missing = false ∧ empty = false ∧
    ((bp_answerState <$> packet) or_else rd_answerState (ar_derived r)) = as_grounded) as Hstate.
  { unfold state. destruct missing, empty; simpl; [done..|]. tauto. }
  split; [done|by intros (_ & _ & Hg)%Hstate| |].
  - intros (Hm & He & Hg)%Hstate ->. revert Hm He Hg. unfold missing, empty, build.
    rewrite bool_decide_eq_true_2 by done. simpl.
    fold packet. destruct packet as [p|]; simpl; [|done]. intros _ He Hg. split; [by eexists|]. intros Hnil.
    rewrite Hg, Hnil in He. done.
  - intros Hs Hnil. rewrite !elem_of_app. do 4 right. left. rewrite Hs, Hnil. simpl. by left.
Qed.

(** The queries that were put to a client, and what it answered. *)
Definition answers (client : BridgeClient) (use : ClientEvent) (r : BridgeAskResult) (c : BridgeAskQueryClass) : Prop :=
  ∃ request, ask_queryClass request = c ∧
    (use = AskedDirectly request ∧ bc_runAskQuery client request = inl r ∨
     ∃ run, use = AskedSession request ∧ bc_runSessionCommand client = Some run ∧ run request = inl r).

Lemma query_run client request w :
  ∃ use, runBridgeAskQuery client request w =
    (Ret (match use with
          | AskedSession _ => from_option (λ run, run request) (bc_runAskQuery client request)
                                (bc_runSessionCommand client)
          | _ => bc_runAskQuery client request
          end), mkCommandWorld (cw_store w) (cw_log w ++ [use])) ∧
    (use = AskedDirectly request ∨ use = AskedSession request ∧ is_Some (bc_runSessionCommand client)).
Proof.
  unfold runBridgeAskQuery.
  destruct (isFirstWaveDelegatedQuestionClass _), (bc_runSessionCommand client) as [run|] eqn:E;
    [exists (AskedSession request)|exists (AskedDirectly request)..]; eauto.
Qed.

(** ** Property *)

(** What a report may say after the given uses of the client: either a failure
    with a message and no answer; or an answer, which is ["unsupported"] and has
    no evidence, or is supported by what the client returned to the one query
    that was put to it. *)
Definition report_ok (kind : KnowledgeCommandKind) (client : BridgeClient) (uses : list ClientEvent)
    (report : KnowledgeCommandReport) : Prop :=
  kr_exitCode report = 1 ∧ kr_answered report = None ∧ is_Some (kr_message report) ∨
  kr_exitCode report = 0 ∧ kr_message report = None ∧
  ∃ a, kr_answered report = Some a ∧ kr_evidenceCount report = length (rq_evidence a) ∧
    (rq_answerState a = as_unsupported ∧ rq_evidence a = [] ∧ (uses = [] ∨ kind = trace) ∨
     kind ≠ trace ∧ ∃ use c r, uses = [use] ∧ rq_requested a = Some c ∧ answers client use r c ∧
       supported_by c r (rq_answerState a) (rq_evidence a) (rq_limitations a)).

(** C30 A knowledge command always returns a report, uses at most one client, for
    at most one query, and closes it whatever happens; its exit code tells
    whether there is an answer; and an answer never claims more than the engine
    returned: its evidence is the engine's, a broad question is grounded only on
    evidence that can be inspected, and a trace is never claimed to be
    supported. *)
Theorem knowledge_command_truthful `{Env} create kind input repoRoot factory resume w :
  let client := match factory with Some f => f | None => create end repoRoot in
  ∃ report w' uses,
    runKnowledgeCommand create kind input repoRoot factory resume w = (Ret report, w') ∧
    (cw_log w' = cw_log w ∧ uses = [] ∨
     cw_log w' = cw_log w ++ Created repoRoot :: uses ++ [Closed] ∧ length uses ≤ 1) ∧
    report_ok kind client uses report.
Proof.
  intros client. unfold runKnowledgeCommand.
  destruct (String.eqb input ""). { eexists _, w, []. split; [done|]. split; [by left|]. left. by eauto. }
  destruct (resolveSession_returns repoRoot kind input resume (cw_store w)) as (resolved & s & Hres).
  rewrite (bind_run _ _ w resolved (mkCommandWorld s (cw_log w)))
    by (unfold in_store; by rewrite Hres).
  destruct resolved as [resolved|reason].
  2: { eexists _, _, []. split; [done|]. split; [by left|]. left. by eauto. }
  assert (∀ error, report_ok kind client [] (failed_report kind repoRoot factory resolved error)) as Hfail
    by (intros error; left; eauto).
  assert (∀ error uses, report_ok kind client uses (failed_report kind repoRoot factory resolved error)) as Hfails
    by (intros error uses; left; eauto).
  assert (kind = trace ∨ kind ≠ trace) as [->|Hk] by (destruct kind; auto).
  - unfold trace_question, with_client. erewrite bind_run by reflexivity. fold client.
    destruct (bc_getInitializeSnapshot client) as [[snapshot|error]|].
    + destruct (summarizeTraceCapabilityFromInitialize snapshot) as [summary|];
        eexists _, _, [Inspected]; (split; [reflexivity|]); (split; [right; simpl; by rewrite <- !app_assoc|]).
      * right. do 2 (split; [done|]). eexists. split; [reflexivity|]. split; [done|]. left. eauto.
      * apply Hfails.
    + eexists _, _, [Inspected]. split; [reflexivity|]. split; [right; simpl; by rewrite <- !app_assoc|]. apply Hfails.
    + eexists _, _, []. split; [reflexivity|]. split; [right; simpl; split; [by rewrite <- !app_assoc|lia]|]. apply Hfails.
  - assert (∀ A (x y : A), match kind with trace => x | _ => y end = y) as -> by (intros; by destruct kind).
    unfold answer_question. set (c := match kind with ask => _ | _ => _ end).
    destruct (q_queryClass c) as [queryClass|].
    2: { unfold unsupported_report. destruct (unsupportedAskTruth c) as [text limitations].
      eexists _, _, []. split; [reflexivity|]. split; [by left|]. right. do 2 (split; [done|]).
      eexists. split; [reflexivity|]. split; [done|]. left. eauto. }
    unfold with_client. erewrite bind_run by reflexivity. fold client.
    set (request := bridge_request input repoRoot c queryClass).
    set (w1 := mkCommandWorld _ _).
    destruct (query_run client request w1) as (use & Hrun & Huse).
    eexists _, _, [use]. split.
    { erewrite bind_run; [reflexivity|]. erewrite bind_run by exact Hrun. reflexivity. }
    split; [right; simpl; by rewrite <- !app_assoc|].
    set (result := match use with AskedSession _ => _ | _ => _ end).
    destruct result as [r|error] eqn:Er; [|apply Hfails].
    right. do 2 (split; [done|]). eexists. split; [reflexivity|]. split; [done|]. right. split; [done|].
    exists use, queryClass, r. split; [done|]. split; [done|]. split; [|apply assembled_supported].
    exists request. split; [done|]. destruct Huse as [->|[-> [run Hs]]]; [by left|right].
    exists run. split; [done|]. split; [done|]. unfold result in Er. by rewrite Hs in Er.
Qed.

(** An answer to the handshake with a [null] error makes the client throw a
    [TypeError], which the command reports as a failure of a request after a
    startup that succeeded. *)
Lemma startup_misreported env c kind repoRoot factory resolved message :
  (initialized env (JObj [("id", JNum "1"); ("error", JNull)]) c).2 = Some FailedType ∧
  be_startupSucceeded <$> kr_bridgeEvidence (failed_report kind repoRoot factory resolved (ErrorFailed message)) =
    Some true.
Proof. done. Qed.
