(* ===== verification/HostBridge.v ===== *)
(** * The bridge client of a hosted worker

    [packages/opencode-app/src/worker/host-bridge-client.ts]: the client that a
    worker uses, which sends its queries over the worker's own JSON-RPC peer to
    the Rust host.  The peer's answer to a request is a parameter.  The schemas
    of evidence packets and of capability summaries are those of a library, so
    what they accept is a parameter too; an evidence entry that the schema's
    transformation rejects by throwing makes the reader throw. *)

From S2P Require Import Prelude Json Codec Peer BridgeMessages Client Ask.
From Stdlib Require Import Ascii String QArith.
From stdpp Require Import prelude list strings pretty.
Set Default Proof Using "Type".
Set Warnings "-clear-no-such-hyp".
Local Open Scope js_scope.

Definition HOST_BACKED_BRIDGE_ENGINE_NAME : string := "dh-engine".
Definition HOST_BACKED_BRIDGE_PROTOCOL_VERSION : string := "1".
Definition HOST_BACKED_BRIDGE_SUPPORTED_METHODS : list string :=
  ["dh.initialize"; "query.search"; "query.definition"; "query.relationship"; "query.buildEvidence";
   "query.callHierarchy"; "query.entryPoints"].
Definition HOST_BACKED_BRIDGE_SUPPORTED_RELATIONS : list string := ["usage"; "dependencies"; "dependents"].

Definition defaultHostBridgeTransport : BridgeTransportSnapshot :=
  mkTransport JSON_RPC_CODEC tm_json_fallback (Some "host_bridge_worker_peer_uses_json_rpc")
    DEFAULT_FRAME_LITERAL "1".

Definition defaultHostBridgeCapabilities (protocolVersion : string) (transport : BridgeTransportSnapshot) :
    BridgeInitializeCapabilities :=
  let reason := "Trace flow remains outside the bounded first-wave Rust host query contract." in
  mkCapabilities protocolVersion HOST_BACKED_BRIDGE_SUPPORTED_METHODS HOST_BACKED_BRIDGE_SUPPORTED_RELATIONS
    [mkCapabilityEntry "typescript" "trace_flow" lc_unsupported reason false;
     mkCapabilityEntry "rust" "trace_flow" lc_unsupported reason false]
    (Some transport)
    (Some (mkAuthority [("knowledge", "supported"); ("lane", "supported"); ("run", "planned");
                        ("session", "partial"); ("provider", "planned"); ("mcp", "planned");
                        ("tool", "planned")])).

Record HostBridgeClientOptions : Type := mkHostOptions {
  ho_protocolVersion : option string;
  ho_engineName : option string;
  ho_engineVersion : option string;
  ho_capabilities : option BridgeInitializeCapabilities;
}.

(** The fields of the client apart from the peer and the timeout. *)
Record HostBridgeClient : Type := mkHostClient {
  hc_engineName : string;
  hc_engineVersion : string;
  hc_protocolVersion : string;
  hc_capabilities : BridgeInitializeCapabilities;
  hc_transport : BridgeTransportSnapshot;
  hc_nextSyntheticRequestId : N;
}.

Definition new_host_client (options : HostBridgeClientOptions) : HostBridgeClient :=
  let protocolVersion := ho_protocolVersion options or_else HOST_BACKED_BRIDGE_PROTOCOL_VERSION in
  let transport := (ho_capabilities options ≫= ic_transport) or_else defaultHostBridgeTransport in
  mkHostClient (ho_engineName options or_else HOST_BACKED_BRIDGE_ENGINE_NAME)
    (ho_engineVersion options or_else "host-managed") protocolVersion
    (ho_capabilities options or_else defaultHostBridgeCapabilities protocolVersion transport) transport 1.

(** ** Calls *)

(** The only difference from the direct client's [buildAskCall] is the message
    for a class outside the type. *)
Definition buildBridgeCall (num_literal : Q → string) (input : BridgeAskRequest) :
    (BridgeDirectQueryMethod * json) + DhBridgeError :=
  let number q := JNum (num_literal q) in
  let limit := match ask_limit input with Some q => number q | None => JNum "5" end in
  let maxDepth := match ask_maxDepth input with Some q => number q | None => JNum "3" end in
  let root := ("workspaceRoot", JStr (ask_repoRoot input)) in
  let symbol := ("symbol", JStr (ask_symbol input or_else ask_query input)) in
  let path := ask_targetPath input or_else ask_query input in
  let relation name member := inl (query_relationship, JObj [("relation", JStr name); member; root; ("limit", limit)]) in
  let walk method :=
    inl (method, JObj ([symbol; root] ++ opt_str "filePath" (ask_targetPath input)
                       ++ [("limit", limit); ("maxDepth", maxDepth)])) in
  match ask_queryClass input with
  | search_file_discovery =>
    inl (query_search,
      JObj [("query", JStr (ask_query input)); root; ("mode", JStr "file_path"); ("limit", limit)])
  | graph_definition => inl (query_definition, JObj [symbol; root; ("limit", limit)])
  | graph_relationship_usage => relation "usage" symbol
  | graph_relationship_dependencies => relation "dependencies" ("filePath", JStr path)
  | graph_relationship_dependents => relation "dependents" ("target", JStr path)
  | graph_call_hierarchy => walk query_callHierarchy
  | graph_entry_points => walk query_entryPoints
  | graph_build_evidence =>
    inl (query_buildEvidence,
      JObj [("query", JStr (ask_query input)); root; ("intent", JStr "explain");
            ("targets", JArr (JStr <$> (ask_targets input or_else [])));
            ("budget", budget_json num_literal (ask_budget input
               or_else boundedBuildEvidenceBudgetFromLimit (ask_limit input)));
            ("freshness", JStr (freshness_name (ask_freshness input or_else fr_indexed)))])
  | other_query_class name =>
    inr (bridge_error INVALID_REQUEST ph_request
           ("Unsupported query class for host-backed bridge: " +:+ name))
  end.

(** ** Errors *)

(** [JsonRpcPeerError], another [Error], or a value that is no error. *)
Inductive PeerFailure : Type :=
| PeerError (kind : PeerErrorKind) (message : string) (rpcCode : option string) (rpcData : option json)
| PeerBridgeError (e : DhBridgeError)
| PeerOtherError (message : string)
| PeerValue.

Definition host_symbolic_codes : list (string * BridgeFailureCode) :=
  [("CAPABILITY_UNSUPPORTED", CAPABILITY_UNSUPPORTED); ("ACCESS_DENIED", ACCESS_DENIED);
   ("NOT_FOUND", NOT_FOUND); ("TIMEOUT", TIMEOUT); ("EXECUTION_FAILED", EXECUTION_FAILED);
   ("RUNTIME_UNAVAILABLE", RUNTIME_UNAVAILABLE); ("BINARY_FILE_UNSUPPORTED", BINARY_FILE_UNSUPPORTED)].

Definition mapJsonRpcCode (code : option string) (data : option json) : BridgeFailureCode :=
  match asString (json_get "code" (asRecord data)) ≫=
        λ name, snd <$> List.find (λ c, String.eqb c.1 name) host_symbolic_codes with
  | Some c => c
  | None =>
    if decide (code = Some "-32601") then METHOD_NOT_SUPPORTED
    else if decide (code = Some "-32600" ∨ code = Some "-32602") then INVALID_REQUEST
    else if decide (code = Some "-32012") then TIMEOUT
    else REQUEST_FAILED
  end.

Definition mapHostRpcError (error : PeerFailure) (method : string) : DhBridgeError :=
  match error with
  | PeerBridgeError e => e
  | PeerError err_timeout message _ _ => mkBridgeError BRIDGE_TIMEOUT ph_request message true
  | PeerError (err_closed | err_protocol) message _ _ => bridge_error BRIDGE_UNREACHABLE ph_request message
  | PeerError err_rpc message rpcCode rpcData =>
    mkBridgeError (mapJsonRpcCode rpcCode rpcData) ph_request message (bool_decide (rpcCode = Some "-32012"))
  | PeerOtherError message => bridge_error REQUEST_FAILED ph_request message
  | PeerValue => bridge_error REQUEST_FAILED ph_request ("Host RPC '" +:+ method +:+ "' failed.")
  end.

Definition invalidHostPayload (method shape : string) : DhBridgeError :=
  bridge_error INVALID_REQUEST ph_request
    ("Rust host response for '" +:+ method +:+ "' is missing or invalid " +:+ shape +:+ " payload.").

Definition toSearchItem (value : json) : option BridgeSearchItem :=
  let raw := asRecord (Some value) in
  filePath ← truthy (coalesce (asString (json_get "filePath" raw)) (asString (json_get "file_path" raw)));
  lineStart ← coalesce (asNumber (json_get "lineStart" raw)) (asNumber (json_get "line_start" raw));
  lineEnd ← coalesce (asNumber (json_get "lineEnd" raw)) (asNumber (json_get "line_end" raw));
  Some (mkSearchItem filePath lineStart lineEnd
    (asString (json_get "snippet" raw) or_else "")
    (asString (json_get "reason" raw) or_else "rust host query match")
    (asNumber (json_get "score" raw) or_else "0.5")).

Section host.
Variable num_literal : Q → string.
(** [parseEvidencePacket] and [parseLanguageCapabilitySummary]: the schemas. *)
Variable parseEvidencePacket : option json → outcome (option BridgeEvidencePacket).
Variable parseLanguageCapabilitySummary : option json → option BridgeLanguageCapabilitySummary.
(** [peer.request(method, params, timeout)]. *)
Variable peer_request : string → json → option json + PeerFailure.

Definition host_parseBridgeAskResult (result : option json) (method : BridgeDirectQueryMethod) (params : json) :
    BridgeAskResultDerivedFields + ClientFailure :=
  let resultObj := asRecord result in
  match parseEvidencePacket (json_get "evidence" resultObj) with
  | Throw e => inr (ErrorFailed e)
  | Ret evidence =>
    match coalesce (asBridgeAnswerState (json_get "answerState" resultObj)) (bp_answerState <$> evidence) with
    | None => inr (BridgeFailed (invalidHostPayload (method_name method) "query answer state"))
    | Some resolvedAnswerState =>
      inl (mkDerived resolvedAnswerState
        (coalesce (asString (json_get "questionClass" resultObj)) (bp_questionClass <$> evidence)
           or_else inferQuestionClassFromCall method params)
        (omap toSearchItem (asItems (json_get "items" resultObj)))
        evidence
        (parseLanguageCapabilitySummary (json_get "languageCapabilitySummary" resultObj)))
    end
  end.

(** [requestHost]: the id is taken also when the request fails. *)
Definition requestHost (method : string) (params : json) (c : HostBridgeClient) :
    (option json * N + ClientFailure) * HostBridgeClient :=
  let requestId := hc_nextSyntheticRequestId c in
  let c := mkHostClient (hc_engineName c) (hc_engineVersion c) (hc_protocolVersion c) (hc_capabilities c)
             (hc_transport c) (hc_nextSyntheticRequestId c + 1) in
  (match peer_request method params with
   | inl result => inl (result, requestId)
   | inr error => inr (BridgeFailed (mapHostRpcError error method))
   end, c).

(** [runAskQuery] and [runSessionCommand], which differ in what they report of
    the way. *)
Definition host_ask (session : bool) (input : BridgeAskRequest) (c : HostBridgeClient) :
    (BridgeAskResult + ClientFailure) * HostBridgeClient :=
  match buildBridgeCall num_literal input with
  | inr e => (inr (BridgeFailed e), c)
  | inl (method, params) =>
    match requestHost (method_name method) params c with
    | (inr e, c) => (inr e, c)
    | (inl (result, requestId), c) =>
      (match host_parseBridgeAskResult result method params with
       | inr e => inr e
       | inl derived =>
         inl (mkAskResult method (Some (if session then "session.runCommand" else "direct.query"))
                (if session then Some method else None) requestId (hc_engineName c) (hc_engineVersion c)
                (hc_protocolVersion c) (hc_capabilities c) derived)
       end, c)
    end
  end.

Definition host_getInitializeSnapshot (c : HostBridgeClient) : BridgeInitializeSnapshot :=
  mkSnapshot (hc_engineName c) (hc_engineVersion c) (hc_protocolVersion c) (hc_capabilities c) (hc_transport c).

(** The client as a knowledge command sees it; a command puts at most one query
    to it. *)
Definition host_bridge_client (c : HostBridgeClient) : BridgeClient :=
  mkBridgeClient (λ input, (host_ask false input c).1) (Some (λ input, (host_ask true input c).1))
    (Some (inl (host_getInitializeSnapshot c))).
End host.

(** ** Facts *)

(** Both clients make the same call for every class of the type. *)
Lemma buildBridgeCall_same num_literal input :
  isDelegatedSessionQueryClass (ask_queryClass input) = true →
  buildBridgeCall num_literal input = buildAskCall num_literal input.
Proof. unfold buildBridgeCall, buildAskCall. by destruct (ask_queryClass input). Qed.

Lemma find_app_prefer {A} (f : A → bool) xs ys :
  List.find f (xs ++ ys) = match List.find f xs with Some x => Some x | None => List.find f ys end.
Proof. induction xs as [|x xs IH]; simpl; [done|]. by destruct (f x). Qed.

(** Both classify an error alike, except for the codes of the bridge's own and
    for [-32012]. *)
Lemma host_error_codes message code data :
  (∀ c, symbolic_code data = Some c → c ∈ snd <$> host_symbolic_codes) → code ≠ Some "-32012" →
  mapJsonRpcCode code data = be_code (mapRpcError code message ph_request data).
Proof.
  intros Hc Hcode. unfold mapJsonRpcCode, mapRpcError. unfold symbolic_code in *.
  assert (∀ o, be_code (match o with
      | Some TIMEOUT => mkBridgeError TIMEOUT ph_request message true
      | Some c => bridge_error c ph_request message
      | None => bridge_error (if decide (code = Some "-32601") then METHOD_NOT_SUPPORTED
          else if decide (code = Some "-32600" ∨ code = Some "-32602") then INVALID_REQUEST
          else REQUEST_FAILED) ph_request message end) =
    match o with Some c => c | None => if decide (code = Some "-32601") then METHOD_NOT_SUPPORTED
          else if decide (code = Some "-32600" ∨ code = Some "-32602") then INVALID_REQUEST
          else REQUEST_FAILED end) as -> by (intros [[]|]; done).
  assert (∀ x y : BridgeFailureCode, (if decide (code = Some "-32012") then x else y) = y) as ->
    by (intros; by case_decide).
  destruct (asString _) as [name|]; [|done]. cbn [mbind option_bind] in *.
  set (f := λ c : string * BridgeFailureCode, String.eqb c.1 name) in *.
  change symbolic_codes with (host_symbolic_codes ++ drop 7 symbolic_codes) in *.
  rewrite find_app_prefer in *. destruct (List.find f host_symbolic_codes) as [x|]; [done|].
  destruct (List.find f (drop 7 symbolic_codes)) as [x|] eqn:E; [|done]. exfalso.
  specialize (Hc _ eq_refl). apply List.find_some in E as [Hin _].
  assert (Forall (λ y, y.2 ∉ snd <$> host_symbolic_codes) (drop 7 symbolic_codes)) as Hall by by_decision.
  rewrite Forall_forall in Hall. eapply Hall; [by apply list_elem_of_In|done].
Qed.

(** The host client never retries what the direct client retries: an error with
    the symbolic code of a timeout. *)
Lemma host_timeout_not_retryable message data :
  symbolic_code data = Some TIMEOUT →
  be_retryable (mapRpcError (Some "-32000") message ph_request data) = true ∧
  be_retryable (mapHostRpcError (PeerError err_rpc message (Some "-32000") data) "query.search") = false.
Proof. unfold mapRpcError. intros ->. done. Qed.

(** A trace asked of a worker with the capabilities it starts with is always
    answered, and always with ["unsupported"]. *)
Lemma host_trace_unsupported protocolVersion transport snapshot :
  sn_capabilities snapshot = defaultHostBridgeCapabilities protocolVersion transport →
  ∃ summary, summarizeTraceCapabilityFromInitialize snapshot = Some summary ∧
    cs_weakestState summary = lc_unsupported ∧
    tt_stopReason (deriveTraceUnsupportedTruth snapshot summary) = "method_not_advertised".
Proof.
  intros Hc. unfold summarizeTraceCapabilityFromInitialize, deriveTraceUnsupportedTruth. rewrite Hc.
  eexists. by vm_compute.
Qed.
