(* ===== verification/Worker.v ===== *)
(** * The worker process

    [packages/opencode-app/src/worker/worker-main.ts] and
    [worker-command-router.ts]: the handlers that the worker registers with its
    peer (Peer.v), as functions of the worker's state.  A handler runs to its end
    before the next message.  What the parameter schemas accept, and the lane and
    direct workflows, are parameters; the notification ["dh.ready"] is recorded
    when it is handed to the peer. *)

From S2P Require Import Prelude Json Domain Store Knowledge Codec Peer BridgeMessages Client Ask HostBridge.
From Stdlib Require Import Ascii String QArith.
From stdpp Require Import prelude list strings pretty.
Set Default Proof Using "Type".
Set Warnings "-clear-no-such-hyp".
Local Open Scope js_scope.

(** ** Parameters of requests *)

Record InitializeParams : Type := mkInitialize {
  ip_protocolVersion : option string;
  ip_workspaceRoot : option string;
  ip_lifecycleAuthority : option string;
  ip_hostName : option string;
  ip_hostVersion : option string;
}.

Record WorkerRunCommandParams : Type := mkRunCommand {
  rc_command : option KnowledgeCommandKind;
  rc_kind : option KnowledgeCommandKind;
  rc_input : option string;
  rc_prompt : option string;
  rc_query : option string;
  rc_workspaceRoot : option string;
  rc_repoRoot : option string;
  rc_resumeSessionId : option string;
}.

Record WorkerRunLaneParams : Type := mkRunLane {
  rl_lane : string;
  rl_objective : string;
  rl_repoRoot : option string;
  rl_resumeSessionId : option string;
}.

Record WorkerRunDirectParams : Type := mkRunDirect {
  dp_message : string;
  dp_repoRoot : option string;
  dp_model : option string;
  dp_agentId : option string;
}.

(** ** State *)

Record WorkerCommandRouter : Type := mkRouter {
  ro_bridgeClient : HostBridgeClient;
  ro_defaultRepoRoot : string;
  ro_cancelled : bool;
}.

Record WorkerRuntime : Type := mkWorker {
  wr_initialized : bool;
  wr_readySent : bool;
  wr_router : option WorkerCommandRouter;
  wr_defaultRepoRoot : string;
  wr_shutdownRequested : bool;
  wr_notified : list string;
  wr_commands : CommandWorld;
}.

Definition set_ready (w : WorkerRuntime) : WorkerRuntime :=
  mkWorker (wr_initialized w) true (wr_router w) (wr_defaultRepoRoot w) (wr_shutdownRequested w)
    (wr_notified w ++ ["dh.ready"]) (wr_commands w).
Definition set_router (r : option WorkerCommandRouter) (w : WorkerRuntime) : WorkerRuntime :=
  mkWorker (wr_initialized w) (wr_readySent w) r (wr_defaultRepoRoot w) (wr_shutdownRequested w)
    (wr_notified w) (wr_commands w).
Definition set_commands (c : CommandWorld) (w : WorkerRuntime) : WorkerRuntime :=
  mkWorker (wr_initialized w) (wr_readySent w) (wr_router w) (wr_defaultRepoRoot w) (wr_shutdownRequested w)
    (wr_notified w) c.

Definition new_worker (defaultRepoRoot : string) (commands : CommandWorld) : WorkerRuntime :=
  mkWorker false false None defaultRepoRoot false [] commands.

(** What a handler returns. *)
Inductive HandlerResult : Type :=
| Plain (v : json)
| Report (report : KnowledgeCommandReport).

(** ** The router *)

Definition cancelledReport (kind : KnowledgeCommandKind) (repoRoot : string) : KnowledgeCommandReport :=
  mkReport 130 kind repoRoot "cancelled_by_rust_host" [] [] 0 0 0 [] None
    (Some "Command handling was cancelled by the Rust host.")
    (Some ["Rust host owns the final cancellation lifecycle classification for this worker request."])
    None None None.

Definition router_cancel (r : WorkerCommandRouter) : WorkerCommandRouter :=
  mkRouter (ro_bridgeClient r) (ro_defaultRepoRoot r) true.

Definition cancelled_lane (p : WorkerRunLaneParams) : json :=
  JObj [("report", JObj [("exitCode", JNum "130"); ("lane", JStr (rl_lane p)); ("sessionId", JStr "");
    ("stage", JStr ""); ("agent", JStr ""); ("model", JStr ""); ("objective", JStr (rl_objective p));
    ("workflowSummary", JArr [JStr "Lane workflow was cancelled by the Rust host."]);
    ("runtimeAuthority", JStr "typescript_worker"); ("finalStatus", JStr "cancelled");
    ("degradedReason", JStr "Lane workflow was cancelled by the Rust host before TypeScript lane execution completed.")])].

Definition cancelled_direct (p : WorkerRunDirectParams) : json :=
  JObj [("report", JObj [("exitCode", JNum "130"); ("command", JStr "run"); ("sessionId", JStr "");
    ("model", JStr (dp_model p or_else "")); ("agentId", JStr (dp_agentId p or_else ""));
    ("text", JStr "Direct run was cancelled by the Rust host."); ("events", JArr []); ("files", JArr []);
    ("runtimeAuthority", JStr "typescript_worker"); ("finalStatus", JStr "cancelled");
    ("degradedReason", JStr "Direct run was cancelled by the Rust host before TypeScript execution completed.")])].

(** [{ ...result, runtimeAuthority }]. *)
Definition with_authority (v : json) : json :=
  match v with
  | JObj members => JObj (filter (λ m, m.1 ≠ "runtimeAuthority") members ++
                          [("runtimeAuthority", JStr "typescript_worker")])
  | _ => v
  end.

Section worker.
Context `{Env}.
Variable num_literal : Q → string.
Variable parseEvidencePacket : option json → outcome (option BridgeEvidencePacket).
Variable parseLanguageCapabilitySummary : option json → option BridgeLanguageCapabilitySummary.
Variable peer_request : string → json → option json + PeerFailure.
Variable createDhJsonRpcStdioClient : string → BridgeClient.
(** The schemas: the parameters, or a message and a description of what is wrong. *)
Variable InitializeParamsSchema : option json → InitializeParams + (string * json).
Variable WorkerRunCommandParamsSchema : option json → WorkerRunCommandParams + (string * json).
Variable WorkerRunLaneParamsSchema : option json → WorkerRunLaneParams + (string * json).
Variable WorkerRunDirectParamsSchema : option json → WorkerRunDirectParams + (string * json).
(** The lane and direct workflows, on the repository they are given. *)
Variable runLaneWorkflow : WorkerRunLaneParams → string → json + Thrown.
Variable runDirectCommand : WorkerRunDirectParams → string → json + Thrown.

(** [as...Params]. *)
Definition parse_params {P : Type} (name : string) (schema : option json → P + (string * json)) (value : option json) :
    P + Thrown :=
  match schema value with
  | inl p => inl p
  | inr (message, data) => inr (ResponseError "-32602" ("Invalid " +:+ name +:+ ": " +:+ message) (Some data))
  end.

(** The queries that a command put to the client, each of which took an id from
    the client's counter if it was sent to the host. *)
Definition sent_to_host (e : ClientEvent) : bool :=
  match e with
  | AskedDirectly request | AskedSession request =>
    match buildBridgeCall num_literal request with inl _ => true | inr _ => false end
  | _ => false
  end.

Definition count_requests (events : list ClientEvent) (c : HostBridgeClient) : HostBridgeClient :=
  mkHostClient (hc_engineName c) (hc_engineVersion c) (hc_protocolVersion c) (hc_capabilities c) (hc_transport c)
    (hc_nextSyntheticRequestId c + N.of_nat (length (List.filter sent_to_host events))).

Definition runCommand (p : WorkerRunCommandParams) (r : WorkerCommandRouter) (w : CommandWorld) :
    (KnowledgeCommandReport + Thrown) * WorkerCommandRouter * CommandWorld :=
  let repoRoot := coalesce (rc_repoRoot p) (rc_workspaceRoot p) or_else ro_defaultRepoRoot r in
  if ro_cancelled r then
    (inl (cancelledReport (coalesce (rc_command p) (rc_kind p) or_else ask) repoRoot), r, w)
  else match coalesce (rc_command p) (rc_kind p) with
  | None =>
    (inr (OtherError "session.runCommand requires command/kind to be one of ask, explain, or trace."), r, w)
  | Some kind =>
    let input := coalesce (rc_input p) (coalesce (rc_prompt p) (rc_query p)) or_else "" in
    let client := host_bridge_client num_literal parseEvidencePacket parseLanguageCapabilitySummary peer_request
                    (ro_bridgeClient r) in
    let '(outcome, w') := runKnowledgeCommand createDhJsonRpcStdioClient kind input repoRoot
                            (Some (λ _, client)) (rc_resumeSessionId p) w in
    let r := mkRouter (count_requests (drop (length (cw_log w)) (cw_log w')) (ro_bridgeClient r))
               (ro_defaultRepoRoot r) (ro_cancelled r) in
    (match outcome with Ret report => inl report | Throw e => inr (OtherError e) end, r, w')
  end.

Definition runLane (p : WorkerRunLaneParams) (r : WorkerCommandRouter) : json + Thrown :=
  if ro_cancelled r then inl (cancelled_lane p)
  else match runLaneWorkflow p (rl_repoRoot p or_else ro_defaultRepoRoot r) with
  | inl report => inl (JObj [("report", report)])
  | inr e => inr e
  end.

Definition runDirect (p : WorkerRunDirectParams) (r : WorkerCommandRouter) : json + Thrown :=
  if ro_cancelled r then inl (cancelled_direct p)
  else match runDirectCommand p (dp_repoRoot p or_else ro_defaultRepoRoot r) with
  | inl report => inl (JObj [("report", report)])
  | inr e => inr e
  end.

(** ** The handlers *)

Definition WORKER_PROTOCOL_VERSION : string := "1".

Definition markReady (w : WorkerRuntime) : (() + Thrown) * WorkerRuntime :=
  if wr_readySent w then (inl (), w)
  else if negb (wr_initialized w) then
    (inr (ResponseError "-32000" "Worker cannot report ready before dh.initialize succeeds." None), w)
  else (inl (), set_ready w).

(** The accepted handshake. *)
Definition initialize (p : InitializeParams) (w : WorkerRuntime) : HandlerResult * WorkerRuntime :=
  let root := ip_workspaceRoot p or_else wr_defaultRepoRoot w in
  let client := new_host_client (mkHostOptions (Some HOST_BACKED_BRIDGE_PROTOCOL_VERSION)
                  (Some (ip_hostName p or_else "dh-engine")) (Some (ip_hostVersion p or_else "host-managed")) None) in
  (Plain (JObj [("workerId", JStr "dh-typescript-worker"); ("protocolVersion", JStr WORKER_PROTOCOL_VERSION);
     ("workerProtocolVersion", JStr WORKER_PROTOCOL_VERSION); ("role", JStr "typescript_worker");
     ("lifecycleAuthority", JStr "rust");
     ("capabilities", JObj [("commands", JArr [JStr "ask"; JStr "explain"; JStr "trace"]);
        ("hostBackedBridgeClient", JBool true); ("lifecycleAuthority", JStr "rust")]);
     ("bootstrapWarnings", JArr [])]),
   mkWorker true (wr_readySent w) (Some (mkRouter client root false)) root (wr_shutdownRequested w)
     (wr_notified w) (wr_commands w)).

Definition on_initialize (params : option json) (w : WorkerRuntime) : (HandlerResult + Thrown) * WorkerRuntime :=
  match parse_params "InitializeParams" InitializeParamsSchema params with
  | inr e => (inr e, w)
  | inl p =>
    if negb (bool_decide (ip_protocolVersion p = Some WORKER_PROTOCOL_VERSION)) then
      (inr (ResponseError "-32602" ("Unsupported worker protocolVersion '" +:+
              (ip_protocolVersion p or_else "missing") +:+ "'.")
              (Some (JObj [("code", JStr "PROTOCOL_MISMATCH")]))), w)
    else if match truthy (ip_lifecycleAuthority p) with
            | Some authority => negb (String.eqb authority "rust") | None => false
            end then
      (inr (ResponseError "-32602" "TypeScript worker requires Rust host lifecycle authority on this path."
              (Some (JObj [("code", JStr "INVALID_LIFECYCLE_AUTHORITY")]))), w)
    else let '(result, w) := initialize p w in (inl result, w)
  end.

Definition on_ping (w : WorkerRuntime) : json :=
  let healthy := wr_initialized w && negb (wr_shutdownRequested w) in
  JObj [("ok", JBool healthy);
        ("workerState", JStr (if wr_shutdownRequested w then "shutting_down"
                              else if wr_readySent w then "ready" else "spawned_not_ready"));
        ("healthState", JStr (if healthy then "healthy" else "unknown"));
        ("phase", JStr "health")].

Definition on_cancel (w : WorkerRuntime) : WorkerRuntime := set_router (router_cancel <$> wr_router w) w.

(** What the three session requests begin with: the worker must be initialized
    and reports that it is ready if it has not. *)
Definition with_router (method : string) (w : WorkerRuntime)
    (run : WorkerCommandRouter → WorkerRuntime → (HandlerResult + Thrown) * WorkerRuntime) :
    (HandlerResult + Thrown) * WorkerRuntime :=
  match wr_initialized w, wr_router w with
  | true, Some router =>
    match markReady w with
    | (inr e, w) => (inr e, w)
    | (inl _, w) => run router w
    end
  | _, _ =>
    (inr (ResponseError "-32000" ("Worker is not initialized for " +:+ method +:+ ".") None), w)
  end.

Definition accepted : json := JObj [("accepted", JBool true)].

(** The handlers of requests, by method; [None] is a method without one. *)
Definition handle_request (method : string) (params : option json) (w : WorkerRuntime) :
    option ((HandlerResult + Thrown) * WorkerRuntime) :=
  if String.eqb method "dh.initialize" then Some (on_initialize params w)
  else if String.eqb method "dh.initialized" then
    Some (match markReady w with
          | (inl _, w) => (inl (Plain accepted), w)
          | (inr e, w) => (inr e, w)
          end)
  else if String.eqb method "runtime.ping" then Some (inl (Plain (on_ping w)), w)
  else if String.eqb method "session.cancel" then Some (inl (Plain accepted), on_cancel w)
  else if String.eqb method "session.runCommand" then
    Some (with_router method w (λ router w,
      match parse_params "session.runCommand params" WorkerRunCommandParamsSchema params with
      | inr e => (inr e, w)
      | inl p =>
        let '(result, router, commands) := runCommand p router (wr_commands w) in
        (match result with inl report => inl (Report report) | inr e => inr e end,
         set_router (Some router) (set_commands commands w))
      end))
  else if String.eqb method "session.runLane" then
    Some (with_router method w (λ router w,
      match parse_params "session.runLane params" WorkerRunLaneParamsSchema params with
      | inr e => (inr e, w)
      | inl p => (match runLane p router with inl v => inl (Plain (with_authority v)) | inr e => inr e end, w)
      end))
  else if String.eqb method "session.runDirect" then
    Some (with_router method w (λ router w,
      match parse_params "session.runDirect params" WorkerRunDirectParamsSchema params with
      | inr e => (inr e, w)
      | inl p => (match runDirect p router with inl v => inl (Plain (with_authority v)) | inr e => inr e end, w)
      end))
  else if String.eqb method "dh.shutdown" then
    Some (inl (Plain accepted),
      mkWorker (wr_initialized w) (wr_readySent w) (wr_router w) (wr_defaultRepoRoot w) true (wr_notified w)
        (wr_commands w))
  else None.

(** The handlers of notifications; what [markReady] throws goes to the peer. *)
Definition handle_notification (method : string) (w : WorkerRuntime) : (() + Thrown) * WorkerRuntime :=
  if String.eqb method "dh.initialized" then markReady w
  else if String.eqb method "session.cancel" then (inl (), on_cancel w)
  else (inl (), w).

Inductive worker_step : WorkerRuntime → WorkerRuntime → Prop :=
| step_request method params w r w' : handle_request method params w = Some (r, w') → worker_step w w'
| step_notification method w r w' : handle_notification method w = (r, w') → worker_step w w'.

(** ** Facts *)

(** A worker is initialized exactly when it has a router, and has said that it is
    ready at most once, after it was initialized. *)
Record worker_inv (w : WorkerRuntime) : Prop := {
  wi_router : wr_initialized w = true ↔ is_Some (wr_router w);
  wi_ready : wr_readySent w = true → wr_initialized w = true;
  wi_notified : wr_notified w = if wr_readySent w then ["dh.ready"] else [];
}.

Lemma markReady_inv w : worker_inv w → worker_inv (markReady w).2.
Proof.
  intros Hw. unfold markReady. destruct (wr_readySent w) eqn:Er; [done|].
  destruct (wr_initialized w) eqn:Ei; [|done]. destruct Hw as [A B C].
  split; simpl; rewrite ?Ei, ?C, ?Er in *; done.
Qed.

Lemma on_cancel_inv w : worker_inv w → worker_inv (on_cancel w).
Proof. intros [A B C]. split; simpl; [|done..]. by rewrite A, fmap_is_Some. Qed.

Lemma with_router_inv method w run :
  worker_inv w → (∀ r w, worker_inv w → wr_initialized w = true → worker_inv (run r w).2) → worker_inv (with_router method w run).2.
Proof.
  intros Hw Hrun. unfold with_router. destruct (wr_initialized w) eqn:Ei, (wr_router w); try done.
  pose proof (markReady_inv w Hw). assert (wr_initialized (markReady w).2 = true) as Hi
    by (unfold markReady; rewrite Ei; by destruct (wr_readySent w)).
  destruct (markReady w) as [[]?]; [by apply Hrun|done].
Qed.

Lemma on_initialize_inv params w : worker_inv w → worker_inv (on_initialize params w).2.
Proof.
  intros Hw. unfold on_initialize. destruct (parse_params _ _ _) as [p|]; [|done].
  destruct (negb _); [done|]. destruct (match truthy _ with Some _ => _ | None => _ end); [done|].
  destruct Hw as [A B C]. by split.
Qed.

Lemma worker_step_inv w w' : worker_step w w' → worker_inv w → worker_inv w'.
Proof.
  intros [method params w0 r w1 Hr|method w0 r w1 Hr] Hw.
  - assert (worker_inv (from_option snd w0 (handle_request method params w0))) as Hinv; [|by rewrite Hr in Hinv].
    unfold handle_request. repeat (destruct (String.eqb method _)); simpl; try done.
    + by apply on_initialize_inv.
    + pose proof (markReady_inv w0 Hw). by destruct (markReady w0) as [[]?].
    + by apply on_cancel_inv.
    + apply with_router_inv; [done|]. intros router u [A B C] Hi. destruct (parse_params _ _ _); [|done].
      destruct (runCommand _ _ _) as [[result router'] commands]. by split.
    + apply with_router_inv; [done|]. intros router u Hu Hi. by destruct (parse_params _ _ _).
    + apply with_router_inv; [done|]. intros router u Hu Hi. by destruct (parse_params _ _ _).
    + by destruct Hw.
  - assert (worker_inv (handle_notification method w0).2) as Hinv; [|by rewrite Hr in Hinv].
    unfold handle_notification. repeat (destruct (String.eqb method _)); [|by apply on_cancel_inv|done].
    by apply markReady_inv.
Qed.

(** In every sequence of messages the worker says at most once that it is ready,
    never before it was initialized, and runs nothing before that. *)
Lemma worker_reachable root commands w :
  rtc worker_step (new_worker root commands) w →
  worker_inv w ∧
  (wr_initialized w = false → ∀ params, ∃ e,
     handle_request "session.runCommand" params w = Some (inr e, w)).
Proof.
  intros Hsteps. assert (worker_inv w) as Hinv.
  { assert (worker_inv (new_worker root commands)) as H0 by (split; [split; [done|by intros []]|done|done]).
    revert H0. induction Hsteps; eauto using worker_step_inv. }
  split; [done|]. intros Hi params. eexists. unfold handle_request. simpl String.eqb. cbv iota.
  unfold with_router. rewrite Hi. reflexivity.
Qed.

(** A cancelled router is cancelled for good: every later command is answered
    as cancelled and nothing runs, whatever comes before it except a new
    handshake. *)
Lemma cancel_sticks p w router :
  wr_initialized w = true → wr_readySent w = true → wr_router w = Some router →
  let w' := on_cancel w in
  ∀ params, WorkerRunCommandParamsSchema params = inl p →
    handle_request "session.runCommand" params w' =
      Some (inl (Report (cancelledReport (coalesce (rc_command p) (rc_kind p) or_else ask)
             (coalesce (rc_repoRoot p) (rc_workspaceRoot p) or_else ro_defaultRepoRoot router))), w').
Proof.
  intros Hi Hr Hro w' params Hp. unfold handle_request. simpl String.eqb. cbv iota.
  assert (markReady w' = (inl (), w')) as Hm by (unfold markReady, w', on_cancel; simpl; by rewrite Hr).
  unfold with_router. rewrite Hm. unfold parse_params. rewrite Hp. unfold w', on_cancel. simpl. by rewrite Hi, Hro.
Qed.
End worker.
