(* ===== verification/Telemetry.v ===== *)
(** * Local telemetry

    [packages/shared/src/types/telemetry.ts] and
    [packages/retrieval/src/semantic/telemetry-collector.ts].

    The log is the list of its lines; a line that is not an event in JSON is
    [None].  [Date.parse] is a parameter, [None] for [NaN].  Numbers of tokens
    and chunks are integers, durations are doubles, which are not associative:
    sums are taken in the order of the log. *)

From S2P Require Import Prelude Heap.
From Stdlib Require Import Ascii String ZArith.
From stdpp Require Import prelude list strings gmap.
Set Default Goal Selector "!".
Set Default Proof Using "Type".
Set Warnings "-clear-no-such-hyp".

Record EmbeddingPipelineMetrics : Type := mkPipelineMetrics {
  pm_durationMs : double;
  pm_chunksInput : nat;
  pm_chunksEmbedded : nat;
  pm_chunksSkipped : nat;
  pm_totalTokens : Z;
  pm_avgTokensPerChunk : double;
  pm_modelName : string;
  pm_usedMockProvider : bool;
}.

Record AnnBuildMetrics : Type := mkAnnMetrics { am_durationMs : double; am_vectorCount : nat; am_modelName : string }.

Inductive SearchStrategy : Type := hnsw | flat_cache | db_scan.

Record SemanticSearchMetrics : Type := mkSearchMetrics {
  sm_durationMs : double;
  sm_strategy : SearchStrategy;
  sm_resultCount : nat;
  sm_topK : nat;
  sm_minSimilarity : double;
  sm_modelName : string;
}.

Inductive EvidenceFailure : Type := normalization_failed | file_read_failed.

(** Why there are no dependency edges, in [reason], [attemptedAdapter],
    [engine], [selectorLabel] and [runtimeBehavior]. *)
Record GraphUnavailable : Type := mkGraphUnavailable {
  gu_reason : string; gu_attemptedAdapter : string; gu_engine : string; gu_selectorLabel : string; gu_runtimeBehavior : string;
}.

Inductive TelemetryEvent : Type :=
| embedding_pipeline (metrics : EmbeddingPipelineMetrics)
| ann_build (metrics : AnnBuildMetrics)
| semantic_search (metrics : SemanticSearchMetrics)
| semantic_path_unresolved (chunkId filePath originalFilePath : string)
| evidence_path_unresolved (filePath : string) (normalizedFilePath : option string) (sourceTool : string) (failureKind : EvidenceFailure)
| retrieval_dependency_graph_unavailable (details : GraphUnavailable).

Record TimestampedEvent : Type := mkTimestamped { te_event : TelemetryEvent; te_timestamp : string }.

Definition TelemetryLog : Type := list (option TimestampedEvent).

Definition readTelemetryEvents (log : TelemetryLog) : list TimestampedEvent := omap id log.

(** ** Summaries *)

Record RunTotals : Type := mkTotals { rt_runs : nat; rt_totalDurationMs : double; rt_avgDurationMs : double }.

Record TelemetrySummary : Type := mkSummary {
  ts_totalEvents : nat;
  ts_embeddingPipeline : RunTotals;
  ts_totalTokens : Z;
  ts_totalChunksEmbedded : nat;
  ts_annBuild : RunTotals;
  ts_semanticSearch : RunTotals;
  ts_strategyBreakdown : list (SearchStrategy * nat);
  ts_semanticUnresolved : nat;
  ts_evidenceUnresolved : nat;
  ts_dependencyGraphUnavailable : nat;
}.

#[global] Instance SearchStrategy_eq_dec : EqDecision SearchStrategy.
Proof. solve_decision. Defined.

(** [breakdown[key] = (breakdown[key] ?? 0) + 1], keys in order of insertion. *)
Fixpoint count_strategy (s : SearchStrategy) (breakdown : list (SearchStrategy * nat)) : list (SearchStrategy * nat) :=
  match breakdown with
  | [] => [(s, 1)]
  | (s', n) :: rest => if decide (s' = s) then (s', S n) :: rest else (s', n) :: count_strategy s rest
  end.

Definition pipeline_metrics (e : TimestampedEvent) : option EmbeddingPipelineMetrics :=
  match te_event e with embedding_pipeline m => Some m | _ => None end.
Definition ann_metrics (e : TimestampedEvent) : option AnnBuildMetrics :=
  match te_event e with ann_build m => Some m | _ => None end.
Definition search_metrics (e : TimestampedEvent) : option SemanticSearchMetrics :=
  match te_event e with semantic_search m => Some m | _ => None end.

Definition is_semantic_unresolved (e : TimestampedEvent) : bool :=
  match te_event e with semantic_path_unresolved _ _ _ => true | _ => false end.
Definition is_evidence_unresolved (e : TimestampedEvent) : bool :=
  match te_event e with evidence_path_unresolved _ _ _ _ => true | _ => false end.
Definition is_graph_unavailable (e : TimestampedEvent) : bool :=
  match te_event e with retrieval_dependency_graph_unavailable _ => true | _ => false end.

Definition count_if (p : TimestampedEvent → bool) (events : list TimestampedEvent) : nat := length (filter (λ e, p e = true) events).

(** [runs > 0 ? total / runs : 0]. *)
Definition totals {A : Type} (duration : A → double) (ms : list A) : RunTotals :=
  let total := foldl (λ s m, d_add s (duration m)) d_zero ms in
  mkTotals (length ms) total (if (0 <? length ms)%nat then d_div total (d_of_Z (Z.of_nat (length ms))) else d_zero).

Definition summarizeTelemetryFromEvents (events : list TimestampedEvent) : TelemetrySummary :=
  let pipelineEvents := omap pipeline_metrics events in
  let annEvents := omap ann_metrics events in
  let searchEvents := omap search_metrics events in
  mkSummary (length events)
    (totals pm_durationMs pipelineEvents)
    (foldl (λ s m, s + pm_totalTokens m)%Z 0%Z pipelineEvents)
    (foldl (λ s m, s + pm_chunksEmbedded m)%nat 0 pipelineEvents)
    (totals am_durationMs annEvents)
    (totals sm_durationMs searchEvents)
    (foldl (λ b m, count_strategy (sm_strategy m) b) [] searchEvents)
    (count_if is_semantic_unresolved events) (count_if is_evidence_unresolved events) (count_if is_graph_unavailable events).

Definition summarizeTelemetry (log : TelemetryLog) : TelemetrySummary := summarizeTelemetryFromEvents (readTelemetryEvents log).

Record TelemetrySummaryWindow : Type := mkWindow { sinceIso : option string; untilIso : option string }.

Section window.
Context (date_parse : string → option Z).

(** [at >= sinceMs]: a bound that is not given or empty is infinite, one that
    is not a date compares false. *)
Definition at_or_after (at_ms : Z) (bound : option string) : bool :=
  match bound with
  | None | Some EmptyString => true
  | Some iso => match date_parse iso with Some ms => (ms <=? at_ms)%Z | None => false end
  end.
Definition at_or_before (at_ms : Z) (bound : option string) : bool :=
  match bound with
  | None | Some EmptyString => true
  | Some iso => match date_parse iso with Some ms => (at_ms <=? ms)%Z | None => false end
  end.

Definition in_window (window : TelemetrySummaryWindow) (event : TimestampedEvent) : bool :=
  match date_parse (te_timestamp event) with
  | None => false
  | Some at_ms => at_or_after at_ms (sinceIso window) && at_or_before at_ms (untilIso window)
  end.

Definition filterEventsByWindow (events : list TimestampedEvent) (window : TelemetrySummaryWindow) : list TimestampedEvent :=
  filter (λ e, in_window window e = true) events.

Definition summarizeTelemetryInWindow (log : TelemetryLog) (window : TelemetrySummaryWindow) : TelemetrySummary :=
  summarizeTelemetryFromEvents (filterEventsByWindow (readTelemetryEvents log) window).
End window.

(** ** Properties *)

Definition breakdown_count (s : SearchStrategy) (breakdown : list (SearchStrategy * nat)) : nat :=
  match List.find (λ e, bool_decide (e.1 = s)) breakdown with Some e => e.2 | None => 0 end.

Definition breakdown_total (breakdown : list (SearchStrategy * nat)) : nat := foldr (λ e n, e.2 + n) 0 breakdown.

Lemma count_strategy_total s b : breakdown_total (count_strategy s b) = S (breakdown_total b).
Proof.
  unfold breakdown_total. induction b as [|[s' n] b IH]; simpl; [done|]. destruct (decide _); simpl; [done|].
  rewrite IH. lia.
Qed.

Lemma count_strategy_get s t b :
  breakdown_count t (count_strategy s b) = breakdown_count t b + (if decide (t = s) then 1 else 0).
Proof.
  unfold breakdown_count. induction b as [|[s' n] b IH]; simpl.
  { destruct (decide (t = s)) as [->|]; [by rewrite bool_decide_true|by rewrite bool_decide_false]. }
  destruct (decide (s' = s)) as [->|Hs]; simpl.
  - destruct (decide (t = s)) as [->|]; [rewrite bool_decide_true; simpl; [lia|done]|].
    rewrite bool_decide_false by done. lia.
  - destruct (decide (s' = t)) as [->|Ht].
    + rewrite bool_decide_true by done. simpl. rewrite decide_False by done. lia.
    + rewrite bool_decide_false by done. exact IH.
Qed.

Lemma fold_count_total (ms : list SemanticSearchMetrics) b :
  breakdown_total (foldl (λ b m, count_strategy (sm_strategy m) b) b ms) = breakdown_total b + length ms.
Proof. revert b. induction ms as [|m ms IH]; intros b; simpl; [lia|]. rewrite IH, count_strategy_total. lia. Qed.

Lemma fold_count_get t (ms : list SemanticSearchMetrics) b :
  breakdown_count t (foldl (λ b m, count_strategy (sm_strategy m) b) b ms) =
  breakdown_count t b + length (filter (λ m, sm_strategy m = t) ms).
Proof.
  revert b. induction ms as [|m ms IH]; intros b; simpl; [lia|].
  rewrite IH, count_strategy_get. destruct (decide (t = sm_strategy m)) as [Ht|Hf].
  - rewrite filter_cons_True by done. simpl. lia.
  - rewrite filter_cons_False by done. lia.
Qed.

Lemma count_if_cons p e es : count_if p (e :: es) = (if p e then 1 else 0) + count_if p es.
Proof.
  unfold count_if. destruct (p e) eqn:E; [by rewrite filter_cons_True|]. rewrite filter_cons_False; [done|]. by rewrite E.
Qed.

(** Every event of the log that can be read is counted once, under its kind, and
    every search under its strategy. *)
Lemma summary_counts events :
  let s := summarizeTelemetryFromEvents events in
  ts_totalEvents s = rt_runs (ts_embeddingPipeline s) + rt_runs (ts_annBuild s) + rt_runs (ts_semanticSearch s)
    + ts_semanticUnresolved s + ts_evidenceUnresolved s + ts_dependencyGraphUnavailable s ∧
  breakdown_total (ts_strategyBreakdown s) = rt_runs (ts_semanticSearch s) ∧
  ∀ t, breakdown_count t (ts_strategyBreakdown s) = length (filter (λ m, sm_strategy m = t) (omap search_metrics events)).
Proof.
  simpl. split_and!.
  - induction events as [|[ev at_] es IH]; [done|]. rewrite !count_if_cons. unfold omap in *. destruct ev; simpl; lia.
  - by rewrite fold_count_total.
  - intros t. by rewrite fold_count_get.
Qed.

(** A summary of a window is the summary of the events inside it: with no bounds
    given it only leaves out events without a date. *)
Lemma window_all date_parse events :
  Forall (λ e, is_Some (date_parse (te_timestamp e))) events →
  filterEventsByWindow date_parse events (mkWindow None None) = events.
Proof.
  induction 1 as [|e es [ms Hms] _ IH]; [done|]. unfold filterEventsByWindow in *. rewrite filter_cons_True; [by rewrite IH|].
  unfold in_window. by rewrite Hms.
Qed.
