(* ===== verification/Semantic.v ===== *)
(** * The semantic index

    The chunk and embedding tables ([packages/storage/src/sqlite/repositories],
    [chunks-repo.ts] and [embeddings-repo.ts]), the embedding pipeline
    ([packages/retrieval/src/semantic/embedding-pipeline.ts]), the index files
    ([ann-index.ts], whose graph is in [Hnsw]) and the search
    ([semantic-search.ts]).

    Tables are lists in rowid order, as in [Store], with the FOREIGN KEY of
    [embeddings] enforced.  A cache file that is missing or cannot be parsed is
    absent from its map; files are named by the model, whose name has no slash.
    The embedding service answers by the position of the call.  The durations of
    the telemetry events are a parameter.  A number that JSON cannot write comes
    back as [null], which is zero in arithmetic. *)

From S2P Require Import Prelude Store Heap Hnsw Chunker Telemetry.
From Stdlib Require Import Ascii String ZArith SpecFloat Sorted.
From stdpp Require Import prelude list strings gmap.
Set Default Goal Selector "!".
Set Default Proof Using "Type".
Set Warnings "-clear-no-such-hyp".
#[local] Arguments String.append : simpl nomatch.
#[local] Open Scope nat_scope.

Record ChunkRow : Type := mkChunkRow {
  c_id : string;
  c_fileId : string;
  c_filePath : string;
  c_symbolId : option string;
  c_lineStart : Z;
  c_lineEnd : Z;
  c_content : string;
  c_contentHash : string;
  c_tokenEstimate : nat;
  c_language : string;
  c_createdAt : string;
}.

Record EmbeddingRow : Type := mkEmbeddingRow {
  e_id : string;
  e_chunkId : string;
  e_modelName : string;
  e_vector : list double;
  e_vectorDim : nat;
  e_createdAt : string;
}.

Record AnnIndexEntry : Type := mkAnnEntry { ae_chunkId : string; ae_modelName : string; ae_vector : list double }.
Record AnnIndex : Type := mkAnnIndex { ai_modelName : string; ai_entries : list AnnIndexEntry }.

Record SemanticStore : Type := mkSemanticStore {
  i_chunks : list ChunkRow;
  i_embeddings : list EmbeddingRow;
  i_ann : gmap string AnnIndex;
  i_hnsw : gmap string HnswSerial;
  i_telemetry : TelemetryLog;
  i_ticks : nat;
  i_draws : nat;
  i_random : nat;
  i_calls : nat;
}.

Definition set_chunks (v : list ChunkRow) (s : SemanticStore) : SemanticStore :=
  mkSemanticStore v (i_embeddings s) (i_ann s) (i_hnsw s) (i_telemetry s) (i_ticks s) (i_draws s) (i_random s) (i_calls s).
Definition set_embeddings (v : list EmbeddingRow) (s : SemanticStore) : SemanticStore :=
  mkSemanticStore (i_chunks s) v (i_ann s) (i_hnsw s) (i_telemetry s) (i_ticks s) (i_draws s) (i_random s) (i_calls s).
Definition set_ann (v : gmap string AnnIndex) (s : SemanticStore) : SemanticStore :=
  mkSemanticStore (i_chunks s) (i_embeddings s) v (i_hnsw s) (i_telemetry s) (i_ticks s) (i_draws s) (i_random s) (i_calls s).
Definition set_hnsw (v : gmap string HnswSerial) (s : SemanticStore) : SemanticStore :=
  mkSemanticStore (i_chunks s) (i_embeddings s) (i_ann s) v (i_telemetry s) (i_ticks s) (i_draws s) (i_random s) (i_calls s).
Definition set_telemetry (v : TelemetryLog) (s : SemanticStore) : SemanticStore :=
  mkSemanticStore (i_chunks s) (i_embeddings s) (i_ann s) (i_hnsw s) v (i_ticks s) (i_draws s) (i_random s) (i_calls s).
Definition set_counters (ticks draws random calls : nat) (s : SemanticStore) : SemanticStore :=
  mkSemanticStore (i_chunks s) (i_embeddings s) (i_ann s) (i_hnsw s) (i_telemetry s) ticks draws random calls.

Abbreviation SM := (M SemanticStore).

(** ** Numbers and JSON *)

(** A number read back from JSON: [-0] is written [0], and what is not finite is
    written [null]. *)
Definition json_number (x : double) : double :=
  match x with
  | S754_finite _ _ _ => x
  | _ => d_zero
  end.
Definition json_vector (v : list double) : list double := json_number <$> v.

Definition json_serial (s : HnswSerial) : HnswSerial :=
  mkSerial (s_version s) (s_modelName s) (s_M s) (s_efConstruction s) (s_entryPointId s) (s_maxLayer s)
    ((λ n, mkSerialNode (sn_id n) (sn_chunkId n) (json_vector (sn_vector n)) (sn_neighbors n)) <$> s_nodes s).

(** ** Batches *)

Fixpoint batches_of {A : Type} (fuel size : nat) (xs : list A) : list (list A) :=
  match fuel, xs with
  | S fuel, _ :: _ => take size xs :: batches_of fuel size (drop size xs)
  | _, _ => []
  end.

(** [for (let i = 0; i < xs.length; i += size) xs.slice(i, i + size)]; with a
    size of zero the loop would not end. *)
Definition toBatches {A : Type} (xs : list A) (size : positive) : list (list A) := batches_of (length xs) (Pos.to_nat size) xs.

(** ** Embedding providers *)

Record EmbeddingProviderConfig : Type := mkProviderConfig {
  pc_providerId : string;
  pc_modelName : string;
  pc_apiKeyEnvVar : string;
  pc_baseUrl : option string;
  pc_dimensions : nat;
  pc_maxBatchSize : positive;
}.

Definition DEFAULT_EMBEDDING_CONFIG : EmbeddingProviderConfig :=
  mkProviderConfig "openai" "text-embedding-3-small" "OPENAI_API_KEY" None (Z.to_nat 1536) 96.

Record EmbeddingResponse : Type := mkResponse { er_vectors : list (list double); er_model : string; er_promptTokens : Z; er_totalTokens : Z }.

(** [embed] of a call at a position, for texts and a model. *)
Record EmbeddingProvider : Type := mkProvider {
  config : EmbeddingProviderConfig;
  embed : nat → list string → string → outcome EmbeddingResponse;
}.

Definition ProcessEnv : Type := gmap string string.

Definition isEmbeddingKeyAvailable (env : ProcessEnv) (c : EmbeddingProviderConfig) : bool :=
  match env !! pc_apiKeyEnvVar c with Some key => (0 <? String.length key)%nat | None => false end.

(** *** The deterministic provider *)

(** [x | 0]. *)
Definition to_int32 (x : Z) : Z := ((x + 2 ^ 31) `mod` 2 ^ 32 - 2 ^ 31)%Z.
(** [x >>> 0]. *)
Definition to_uint32 (x : Z) : Z := (x `mod` 2 ^ 32)%Z.

(** [((seed << 5) - seed + code) | 0]. *)
Definition hash_step (seed : Z) (c : ascii) : Z := to_int32 (to_int32 (Z.shiftl seed 5) - seed + Z.of_nat (nat_of_ascii c)).

Definition text_seed (text : string) : Z := foldl hash_step 0%Z (String.list_ascii_of_string text).

(** [(seed * 1664525 + 1013904223) | 0]. *)
Definition lcg (seed : Z) : Z := to_int32 (seed * 1664525 + 1013904223).

(** [((seed >>> 0) / 0xffffffff) * 2 - 1]. *)
Definition unit_interval (seed : Z) : double :=
  d_sub (d_mul (d_div (d_of_Z (to_uint32 seed)) (d_of_Z 4294967295)) (d_of_Z 2)) (d_of_Z 1).

Fixpoint lcg_vector (dim : nat) (seed : Z) : list double :=
  match dim with
  | O => []
  | S dim => unit_interval (lcg seed) :: lcg_vector dim (lcg seed)
  end.

Definition mockVector (text : string) (dim : nat) : list double :=
  let vec := lcg_vector dim (text_seed text) in
  let mag := d_sqrt (foldl (λ sum v, d_add sum (d_mul v v)) d_zero vec) in
  if d_ltb d_zero mag then (λ v, d_div v mag) <$> vec else vec.

Definition createMockEmbeddingProvider (c : EmbeddingProviderConfig) : EmbeddingProvider :=
  mkProvider c (λ _ texts model,
    let tokens := foldl (λ acc t, (acc + Z.of_nat (estimateTokens t))%Z) 0%Z texts in
    Ret (mkResponse ((λ t, mockVector t (pc_dimensions c)) <$> texts) model tokens tokens)).

(** *** The remote provider *)

Inductive HttpAnswer : Type :=
| http_error (status : string) (body : string)
| http_ok (data : list (list double * Z)) (promptTokens totalTokens : Z).

Section remote.
(** [fetch] of the body's model, input and dimensions with a key, by position;
    a failed connection throws. *)
Context (fetch : nat → string → string → string → list string → nat → outcome HttpAnswer).

Definition createOpenAIEmbeddingProvider (env : ProcessEnv) (c : EmbeddingProviderConfig) : EmbeddingProvider :=
  let baseUrl := pc_baseUrl c or_else "https://api.openai.com/v1" in
  mkProvider c (λ call texts model,
    match env !! pc_apiKeyEnvVar c with
    | None | Some EmptyString => Throw ("Missing API key: set " +:+ pc_apiKeyEnvVar c +:+ " in your environment.")
    | Some apiKey =>
      match fetch call (baseUrl +:+ "/embeddings") apiKey model texts (pc_dimensions c) with
      | Throw e => Throw e
      | Ret (http_error status body) => Throw ("Embedding API error " +:+ status +:+ ": " +:+ body)
      | Ret (http_ok data prompt total) =>
        Ret (mkResponse (fst <$> js_sort (λ a b, (a.2 <=? b.2)%Z) data) model prompt total)
      end
    end).

Definition createEmbeddingProvider (env : ProcessEnv) (c : option EmbeddingProviderConfig) : EmbeddingProvider :=
  let c := c or_else DEFAULT_EMBEDDING_CONFIG in
  if isEmbeddingKeyAvailable env c then createOpenAIEmbeddingProvider env c else createMockEmbeddingProvider c.
End remote.

Section index.
Context `{Env} `{Random} (sha256 : string → string) (elapsed : nat → double) (env : ProcessEnv).

Definition draw (prefix : string) : SM string := λ s,
  (Ret (draw_id prefix (i_draws s)), set_counters (i_ticks s) (S (i_draws s)) (i_random s) (i_calls s) s).
Definition now : SM string := λ s,
  (Ret (clock (i_ticks s)), set_counters (S (i_ticks s)) (i_draws s) (i_random s) (i_calls s) s).

(** Appends an event, with the time and the duration given by its position. *)
Definition recordTelemetry (event : double → TelemetryEvent) : SM () :=
  timestamp ← now;
  modify (λ s, set_telemetry (i_telemetry s ++ [Some (mkTimestamped (event (elapsed (length (i_telemetry s)))) timestamp)]) s).

(** ** [ChunksRepo] *)

(** [ON CONFLICT(id) DO UPDATE SET content, content_hash, token_estimate]. *)
Fixpoint upsert_chunk (r : ChunkRow) (rows : list ChunkRow) : list ChunkRow :=
  match rows with
  | [] => [r]
  | x :: xs =>
    if decide (c_id x = c_id r) then
      mkChunkRow (c_id x) (c_fileId x) (c_filePath x) (c_symbolId x) (c_lineStart x) (c_lineEnd x) (c_content r) (c_contentHash r)
        (c_tokenEstimate r) (c_language x) (c_createdAt x) :: xs
    else x :: upsert_chunk r xs
  end.

(** The row of an input with its hash and its estimate. *)
Definition row_of_input (input : ChunkInput) (id createdAt : string) : ChunkRow :=
  mkChunkRow id (ch_fileId input) (ch_filePath input) (ch_symbolId input) (ch_lineStart input) (ch_lineEnd input) (ch_content input)
    (contentHash sha256 (ch_content input)) (estimateTokens (ch_content input)) (ch_language input) createdAt.

Definition chunks_save (input : ChunkInput) : SM ChunkRow :=
  id ← draw "chunk";
  createdAt ← now;
  let row := row_of_input input id createdAt in
  modify (λ s, set_chunks (upsert_chunk row (i_chunks s)) s);;
  mret row.

Definition chunks_findById (id : string) (s : SemanticStore) : option ChunkRow := find_row c_id id (i_chunks s).
(** [LIMIT 1] without an order: the first row of the index on the hash. *)
Definition findByContentHash (hash : string) (s : SemanticStore) : option ChunkRow := find_row c_contentHash hash (i_chunks s).
(** [ORDER BY line_start ASC]. *)
Definition findContentHashesByFileId (fileId : string) (s : SemanticStore) : list string :=
  c_contentHash <$> js_sort (λ a b, (c_lineStart a <=? c_lineStart b)%Z) (filter (λ r, c_fileId r = fileId) (i_chunks s)).
Definition chunks_listAll (s : SemanticStore) : list ChunkRow := order_desc c_createdAt (i_chunks s).
Definition findIdsByFileId (fileId : string) (s : SemanticStore) : list string :=
  c_id <$> filter (λ r, c_fileId r = fileId) (i_chunks s).
Definition chunks_count (s : SemanticStore) : nat := length (i_chunks s).

(** A chunk that an embedding refers to cannot be deleted. *)
Definition deleteByFileId (fileId : string) : SM () := λ s,
  if existsb (λ r, bool_decide (c_fileId r = fileId) && has_key e_chunkId (c_id r) (i_embeddings s)) (i_chunks s)
  then (Throw FK_ERROR, s)
  else (Ret (), set_chunks (filter (λ r, c_fileId r ≠ fileId) (i_chunks s)) s).

(** ** [EmbeddingsRepo] *)

(** [ON CONFLICT(id) DO UPDATE SET vector_json, vector_dim]. *)
Fixpoint upsert_embedding (r : EmbeddingRow) (rows : list EmbeddingRow) : list EmbeddingRow :=
  match rows with
  | [] => [r]
  | x :: xs =>
    if decide (e_id x = e_id r) then mkEmbeddingRow (e_id x) (e_chunkId x) (e_modelName x) (e_vector r) (e_vectorDim r) (e_createdAt x) :: xs
    else x :: upsert_embedding r xs
  end.

(** The inputs of [saveBatch]: chunk, model and vector. *)
Definition EmbedInput : Type := string * string * list double.

Definition insert_embedding (r : EmbeddingRow) : SM () := λ s,
  if has_key c_id (e_chunkId r) (i_chunks s) then (Ret (), set_embeddings (upsert_embedding r (i_embeddings s)) s)
  else (Throw FK_ERROR, s).

Definition saveBatch (inputs : list EmbedInput) : SM () :=
  createdAt ← now;
  for_each (λ '(chunkId, modelName, vector),
    id ← draw "emb";
    insert_embedding (mkEmbeddingRow id chunkId modelName (json_vector vector) (length vector) createdAt)) inputs.

(** [LIMIT 1] without an order: the oldest row of the index on the chunk. *)
Definition findByChunkId (chunkId : string) (s : SemanticStore) : option EmbeddingRow := find_row e_chunkId chunkId (i_embeddings s).
Definition listByModel (modelName : string) (s : SemanticStore) : list EmbeddingRow :=
  order_desc e_createdAt (filter (λ r, e_modelName r = modelName) (i_embeddings s)).
Definition deleteByChunkIds (chunkIds : list string) : SM () :=
  modify (λ s, set_embeddings (filter (λ r, e_chunkId r ∉ chunkIds) (i_embeddings s)) s).
Definition deleteByModel (modelName : string) : SM () :=
  modify (λ s, set_embeddings (filter (λ r, e_modelName r ≠ modelName) (i_embeddings s)) s).
Definition is_orphan (s : SemanticStore) (r : EmbeddingRow) : bool := negb (has_key c_id (e_chunkId r) (i_chunks s)).
Definition countOrphaned (s : SemanticStore) : nat := length (filter (λ r, is_orphan s r = true) (i_embeddings s)).
Definition deleteOrphaned : SM nat := λ s,
  (Ret (countOrphaned s), set_embeddings (filter (λ r, is_orphan s r = false) (i_embeddings s)) s).

(** ** Index files *)

Definition writeAnnIndex_flat (modelName : string) (embeddings : list EmbeddingRow) : SM () :=
  modify (λ s, set_ann (<[modelName := mkAnnIndex modelName
    ((λ e, mkAnnEntry (e_chunkId e) (e_modelName e) (json_vector (e_vector e))) <$> embeddings)]> (i_ann s)) s).

(** The graph is built in memory, drawing layers from the random source. *)
Definition buildAndWriteHnswIndex (modelName : string) (embeddings : list EmbeddingRow) : SM () := λ s,
  match buildFromEntries ((λ e, (e_chunkId e, e_vector e)) <$> embeddings) (mkProcess (new_index modelName DEFAULT_HNSW_CONFIG) (i_random s)) with
  | (Throw e, p) => (Throw e, set_counters (i_ticks s) (i_draws s) (p_draws p) (i_calls s) s)
  | (Ret _, p) =>
    (Ret (), set_counters (i_ticks s) (i_draws s) (p_draws p) (i_calls s)
               (set_hnsw (<[x_modelName (p_index p) := json_serial (serialize (p_index p))]> (i_hnsw s)) s))
  end.

(** Writes the flat file and the graph. *)
Definition writeAnnIndex (modelName : string) (embeddings : list EmbeddingRow) : SM () :=
  writeAnnIndex_flat modelName embeddings;;
  buildAndWriteHnswIndex modelName embeddings.

Definition readHnswIndexSync (modelName : string) (s : SemanticStore) : option HnswIndex :=
  i_hnsw s !! modelName ≫= λ serial, if (s_version serial =? 1)%Z then Some (deserialize serial) else None.

Definition rebuildAnnIndex (modelName : string) : SM () :=
  embeddings ← gets (listByModel modelName);
  writeAnnIndex modelName embeddings;;
  buildAndWriteHnswIndex modelName embeddings;;
  recordTelemetry (λ durationMs, ann_build (mkAnnMetrics durationMs (length embeddings) modelName)).

(** ** The pipeline *)

Record EmbedPipelineResult : Type := mkPipelineResult { chunksStored : nat; embeddingsStored : nat; skippedDuplicates : nat; totalTokens : Z }.

Definition persist_chunk (input : ChunkInput) : SM ChunkRow :=
  existing ← gets (findByContentHash (contentHash sha256 (ch_content input)));
  match existing with
  | Some row => mret row
  | None => chunks_save input
  end.

Definition persistChunks (inputs : list ChunkInput) : SM (list ChunkRow) :=
  fold_each (λ results input, row ← persist_chunk input; mret (results ++ [row])) [] inputs.

Definition has_embedding (modelName : string) (s : SemanticStore) (chunk : ChunkRow) : bool :=
  match findByChunkId (c_id chunk) s with Some e => bool_decide (e_modelName e = modelName) | None => false end.

(** [response.vectors[idx]!.length] of every chunk of the batch. *)
Fixpoint embed_inputs (modelName : string) (batch : list ChunkRow) (vectors : list (list double)) : outcome (list EmbedInput) :=
  match batch, vectors with
  | [], _ => Ret []
  | _ :: _, [] => Throw TYPE_ERROR
  | c :: batch, v :: vectors =>
    match embed_inputs modelName batch vectors with
    | Ret rest => Ret ((c_id c, modelName, v) :: rest)
    | Throw e => Throw e
    end
  end.

Definition call_embed (p : EmbeddingProvider) (texts : list string) (model : string) : SM EmbeddingResponse := λ s,
  (embed p (i_calls s) texts model, set_counters (i_ticks s) (i_draws s) (i_random s) (S (i_calls s)) s).

Definition embed_batch (p : EmbeddingProvider) (acc : nat * Z) (batch : list ChunkRow) : SM (nat * Z) :=
  response ← call_embed p (c_content <$> batch) (pc_modelName (config p));
  match embed_inputs (pc_modelName (config p)) batch (er_vectors response) with
  | Throw e => throw e
  | Ret inputs => saveBatch inputs;; mret (acc.1 + length inputs, (acc.2 + er_totalTokens response)%Z)
  end.

Definition embedAndPersist (chunks : list ChunkRow) (p : EmbeddingProvider) : SM EmbedPipelineResult :=
  let modelName := pc_modelName (config p) in
  s ← get_state;
  let toEmbed := filter (λ c, has_embedding modelName s c = false) chunks in
  let skipped := length (filter (λ c, has_embedding modelName s c = true) chunks) in
  '(stored, tokens) ← fold_each (embed_batch p) (0, 0%Z) (toBatches toEmbed (pc_maxBatchSize (config p)));
  recordTelemetry (λ durationMs, embedding_pipeline (mkPipelineMetrics durationMs (length chunks) stored skipped tokens
    (if (0 <? stored)%nat then d_div (d_of_Z tokens) (d_of_Z (Z.of_nat stored)) else d_zero) modelName
    (negb (isEmbeddingKeyAvailable env (config p)))));;
  mret (mkPipelineResult (length chunks) stored skipped tokens).

Definition runEmbeddingPipeline (chunkInputs : list ChunkInput) (p : EmbeddingProvider) : SM EmbedPipelineResult :=
  storedChunks ← persistChunks chunkInputs;
  result ← embedAndPersist storedChunks p;
  rebuildAnnIndex (pc_modelName (config p));;
  mret result.

(** The pipeline's result with the number of chunks deleted, which stands for
    the number of embeddings deleted too. *)
Definition refreshFileChunks (fileId : string) (newChunkInputs : list ChunkInput) (p : EmbeddingProvider) : SM (EmbedPipelineResult * nat) :=
  existingChunkIds ← gets (findIdsByFileId fileId);
  deleteByChunkIds existingChunkIds;;
  deleteByFileId fileId;;
  pipelineResult ← runEmbeddingPipeline newChunkInputs p;
  mret (pipelineResult, length existingChunkIds).

Definition reembedAllChunks (p : EmbeddingProvider) (oldModelName : option string) : SM EmbedPipelineResult :=
  (match oldModelName with None | Some EmptyString => mret () | Some m => deleteByModel m end);;
  deleteOrphaned;;
  allChunks ← gets chunks_listAll;
  result ← embedAndPersist allChunks p;
  rebuildAnnIndex (pc_modelName (config p));;
  mret result.

(** ** Changed files *)

Definition needs_refresh (candidates : list ChunkInput) (s : SemanticStore) (fileId : string) : bool :=
  let existingHashes := findContentHashesByFileId fileId s in
  let nextHashes := (λ c, contentHash sha256 (ch_content c)) <$> filter (λ c, ch_fileId c = fileId) candidates in
  bool_decide (existingHashes = []) || negb (bool_decide (existingHashes = nextHashes)).

Definition add_results (a b : EmbedPipelineResult) : EmbedPipelineResult :=
  mkPipelineResult (chunksStored a + chunksStored b) (embeddingsStored a + embeddingsStored b)
    (skippedDuplicates a + skippedDuplicates b) (totalTokens a + totalTokens b).

Definition refreshChangedFiles (fileIds : list string) (chunkInputs : list ChunkInput) (p : EmbeddingProvider) : SM EmbedPipelineResult :=
  fold_each (λ totals fileId,
    '(result, _) ← refreshFileChunks fileId (filter (λ c, ch_fileId c = fileId) chunkInputs) p;
    mret (add_results totals result)) (mkPipelineResult 0 0 0 0) fileIds.

(** ** Search *)

Record SemanticSearchResult : Type := mkSemantic {
  sr_chunkId : string; sr_fileId : string; sr_filePath : string; sr_symbolId : option string;
  sr_lineStart : Z; sr_lineEnd : Z; sr_content : string; sr_similarity : double; sr_language : string;
}.

Definition linearScan (queryVector : list double) (embeddings : list EmbeddingRow) (topK : nat) (minSim : double) : list (string * double) :=
  take topK (js_sort (λ a b, negb (d_ltb a.2 b.2))
    (omap (λ emb, let sim := cosineSimilarity queryVector (e_vector emb) in
                  if d_leb minSim sim then Some (e_chunkId emb, sim) else None) embeddings)).

Definition resolveChunks (hits : list (string * double)) (s : SemanticStore) : list SemanticSearchResult :=
  omap (λ '(chunkId, similarity),
    (λ c, mkSemantic (c_id c) (c_fileId c) (c_filePath c) (c_symbolId c) (c_lineStart c) (c_lineEnd c) (c_content c) similarity (c_language c))
    <$> chunks_findById chunkId s) hits.

Record SemanticSearchOptions : Type := mkSearchOptions { so_topK : option nat; so_minSimilarity : option double; so_modelName : option string }.

(** Where the vectors of a linear scan come from. *)
Definition scan_source (modelName : string) (s : SemanticStore) : SearchStrategy * list EmbeddingRow :=
  let flat := match i_ann s !! modelName with
    | Some cached => (λ e, mkEmbeddingRow ("ann-" +:+ ae_chunkId e) (ae_chunkId e) (ae_modelName e) (ae_vector e) (length (ae_vector e)) "ann-cache")
                     <$> ai_entries cached
    | None => []
    end in
  match flat with
  | [] => (db_scan, listByModel modelName s)
  | _ => (flat_cache, flat)
  end.

Definition finish_search (strategy : SearchStrategy) (results : list SemanticSearchResult) (topK : nat) (minSim : double) (modelName : string) :
    SM (list SemanticSearchResult) :=
  recordTelemetry (λ durationMs, semantic_search (mkSearchMetrics durationMs strategy (length results) topK minSim modelName));;
  mret results.

Definition linear_search (queryVector : list double) (topK : nat) (minSim : double) (modelName : string) : SM (list SemanticSearchResult) :=
  s ← get_state;
  let '(strategy, embeddings) := scan_source modelName s in
  if decide (embeddings = []) then mret []
  else finish_search strategy (resolveChunks (linearScan queryVector embeddings topK minSim) s) topK minSim modelName.

Definition semanticSearch (query : string) (options : SemanticSearchOptions) (p : EmbeddingProvider) : SM (list SemanticSearchResult) :=
  let topK := so_topK options or_else 10 in
  let minSim := so_minSimilarity options or_else d_div (d_of_Z 1) (d_of_Z 4) in
  let modelName := so_modelName options or_else pc_modelName (config p) in
  response ← call_embed p [query] modelName;
  match head (er_vectors response) with
  | None | Some [] => mret []
  | Some queryVector =>
    s ← get_state;
    match readHnswIndexSync modelName s with
    | Some (mkIndex (_ :: _) _ _ _ _ _ as ix) =>
      match search ix queryVector topK None with
      | Throw e => throw e
      | Ret hits => finish_search hnsw (resolveChunks (filter (λ h, d_leb minSim h.2 = true) hits) s) topK minSim modelName
      end
    | _ => linear_search queryVector topK minSim modelName
    end
  end.

(** ** Indexing the files of a repository *)

Record IndexJobOptions : Type := mkJobOptions { skipEmbedding : bool; force : bool }.

(** The files to chunk, for the chunks that all files have now. *)
Definition filterFilesNeedingRefresh (files : list string) (candidates : list ChunkInput) (s : SemanticStore) : list string :=
  filter (λ f, needs_refresh candidates s f = true) files.

(** [chunkFiles] of files given by their ids and the chunks of each. *)
Definition chunks_of (file_chunks : string → list ChunkInput) (files : list string) : list ChunkInput := files ≫= file_chunks.

(** Steps 4 and 5 of the job: the files chunked, their chunks and what the
    pipeline answered. *)
Definition index_files (options : IndexJobOptions) (files : list string) (file_chunks : string → list ChunkInput) (p : EmbeddingProvider) :
    SM (list string * list ChunkInput * option EmbedPipelineResult) :=
  s ← get_state;
  let filesToChunk := if force options then files else filterFilesNeedingRefresh files (chunks_of file_chunks files) s in
  let chunkInputs := chunks_of file_chunks filesToChunk in
  embedding ← (if skipEmbedding options || bool_decide (chunkInputs = []) then mret None
               else if force options then (r ← runEmbeddingPipeline chunkInputs p; mret (Some r))
               else (r ← refreshChangedFiles filesToChunk chunkInputs p; mret (Some r)));
  mret (filesToChunk, chunkInputs, embedding).
End index.

(** ** Batches *)

Lemma batches_concat {A : Type} fuel size (xs : list A) : 0 < size → length xs ≤ fuel → mjoin (batches_of fuel size xs) = xs.
Proof.
  intros Hs. revert xs. induction fuel as [|fuel IH]; intros [|x xs] Hl; [done|simpl in Hl; lia|done|].
  change (batches_of (S fuel) size (x :: xs)) with (take size (x :: xs) :: batches_of fuel size (drop size (x :: xs))).
  transitivity (take size (x :: xs) ++ mjoin (batches_of fuel size (drop size (x :: xs)))); [done|].
  rewrite IH, take_drop; [done|]. rewrite length_drop. simpl in *. lia.
Qed.

Lemma toBatches_concat {A : Type} (xs : list A) size : mjoin (toBatches xs size) = xs.
Proof. apply batches_concat; lia. Qed.

(** ** Numbers *)

Lemma json_number_idem x : json_number (json_number x) = json_number x.
Proof. by destruct x. Qed.

Lemma json_vector_idem v : json_vector (json_vector v) = json_vector v.
Proof. unfold json_vector. rewrite <-list_fmap_compose. apply list_fmap_ext. intros. apply json_number_idem. Qed.

Lemma json_vector_nil v : json_vector v = [] ↔ v = [].
Proof. by destruct v. Qed.

(** ** The generator of the deterministic provider

    Its products stay below 2^53, so that the doubles of the source compute them
    exactly before they are cut to 32 bits. *)

Definition int32 (x : Z) : Prop := (- 2 ^ 31 <= x < 2 ^ 31)%Z.

Lemma to_int32_range x : int32 (to_int32 x).
Proof. unfold int32, to_int32. pose proof (Z.mod_pos_bound (x + 2 ^ 31) (2 ^ 32)). lia. Qed.

Lemma lcg_exact seed : int32 seed → (Z.abs (seed * 1664525 + 1013904223) < 2 ^ 53)%Z ∧ int32 (lcg seed).
Proof. intros Hs. split; [unfold int32 in Hs; lia|apply to_int32_range]. Qed.

Lemma text_seed_range text : int32 (text_seed text).
Proof.
  unfold text_seed. assert (∀ cs s, int32 s → int32 (foldl hash_step s cs)) as Hf.
  { induction cs as [|c cs IH]; intros s Hs; simpl; [done|]. apply IH, to_int32_range. }
  apply Hf. unfold int32. lia.
Qed.

(** ** Rows *)

Lemma upsert_chunk_fresh r rows : has_key c_id (c_id r) rows = false → upsert_chunk r rows = rows ++ [r].
Proof.
  rewrite has_key_false. induction rows as [|x rows IH]; intros Hf; simpl; [done|].
  rewrite decide_False by set_solver. f_equal. apply IH. set_solver.
Qed.

Lemma upsert_embedding_fresh r rows : has_key e_id (e_id r) rows = false → upsert_embedding r rows = rows ++ [r].
Proof.
  rewrite has_key_false. induction rows as [|x rows IH]; intros Hf; simpl; [done|].
  rewrite decide_False by set_solver. f_equal. apply IH. set_solver.
Qed.

Lemma find_row_None {R : Type} (key : R → string) k rows : find_row key k rows = None → k ∉ (key <$> rows).
Proof.
  intros Hn Hin. destruct (find_row_of_has_key key k rows) as (r & Hr & _); [|by rewrite Hn in Hr].
  unfold has_key. by rewrite bool_decide_true.
Qed.

Lemma has_key_app_l {R : Type} (key : R → string) k (xs ys : list R) : has_key key k xs = true → has_key key k (xs ++ ys) = true.
Proof. rewrite !has_key_true. intros (r & ? & ?). exists r. set_solver. Qed.

(** ** Index files *)

Lemma json_serial_stored ix : Forall (λ e, json_vector e.2 = e.2) (entries_of (x_nodes ix)) → json_serial (serialize ix) = serialize ix.
Proof.
  intros Hst. unfold json_serial, serialize. simpl. f_equal. rewrite <-list_fmap_compose. apply list_fmap_ext. intros i [id n] Hin.
  simpl. f_equal. rewrite Forall_forall in Hst. apply (Hst (n_chunkId n, n_vector n)). unfold entries_of.
  apply list_elem_of_fmap. exists (id, n). split; [done|]. by eapply list_elem_of_lookup_2.
Qed.

(** The index file of a model holds the non-empty vectors of [rows]. *)
Definition indexes (m : string) (rows : list EmbeddingRow) (s : SemanticStore) : Prop :=
  ∃ ix, readHnswIndexSync m s = Some ix ∧ index_wf ix ∧ x_modelName ix = m ∧ x_config ix = DEFAULT_HNSW_CONFIG ∧
    entries_of (x_nodes ix) = filter (λ e, e.2 ≠ []) ((λ e, (e_chunkId e, e_vector e)) <$> rows).

Lemma listByModel_elem m s e : e ∈ listByModel m s ↔ e ∈ i_embeddings s ∧ e_modelName e = m.
Proof. unfold listByModel. rewrite elem_of_order_desc, list_elem_of_filter. tauto. Qed.

Lemma indexes_hnsw m rows s s' : i_hnsw s' = i_hnsw s → indexes m rows s → indexes m rows s'.
Proof. intros Heq (ix & Hr & ?). exists ix. unfold readHnswIndexSync in *. by rewrite Heq. Qed.

Lemma has_embedding_true m s c : has_embedding m s c = true → ∃ e, e ∈ i_embeddings s ∧ e_chunkId e = c_id c ∧ e_modelName e = m.
Proof.
  unfold has_embedding, findByChunkId. destruct (find_row _ _ _) as [e|] eqn:Hf; [|done]. intros Hm%bool_decide_eq_true.
  apply find_row_Some in Hf as [? ?]. by exists e.
Qed.

(** [rows] are new embeddings of [chunks] for a model. *)
Definition embedded (m : string) (chunks : list ChunkRow) (rows : list EmbeddingRow) : Prop :=
  e_chunkId <$> rows = c_id <$> chunks ∧ Forall (λ e, e_modelName e = m) rows.

Lemma embedded_app m cs cs' rows rows' : embedded m cs rows → embedded m cs' rows' → embedded m (cs ++ cs') (rows ++ rows').
Proof. intros [? ?] [? ?]. split; [rewrite !fmap_app; by f_equal|by apply Forall_app]. Qed.

(** The chunks that [embedAndPersist] sends to the provider. *)
Definition to_embed (m : string) (s : SemanticStore) (chunks : list ChunkRow) : list ChunkRow :=
  filter (λ c, has_embedding m s c = false) chunks.

(** Every chunk of the list has an embedding for the model. *)
Definition all_embedded (m : string) (chunks : list ChunkRow) (embeddings : list EmbeddingRow) : Prop :=
  ∀ c, c ∈ chunks → ∃ e, e ∈ embeddings ∧ e_chunkId e = c_id c ∧ e_modelName e = m.

Lemma embedded_all m s chunks rows : embedded m (to_embed m s chunks) rows → all_embedded m chunks (i_embeddings s ++ rows).
Proof.
  intros [Hids Hm] c Hc. destruct (has_embedding m s c) eqn:E.
  - apply has_embedding_true in E as (e & ? & ? & ?). exists e. set_solver.
  - assert (c_id c ∈ (e_chunkId <$> rows)) as (e & He & Hin)%list_elem_of_fmap.
    { rewrite Hids. apply list_elem_of_fmap_2. by apply list_elem_of_filter. }
    exists e. rewrite Forall_forall in Hm. split_and!; [set_solver|done|by apply Hm].
Qed.

(** The inputs differ in content from each other and from what is stored. *)
Definition new_contents (sha256 : string → string) (inputs : list ChunkInput) (s : SemanticStore) : Prop :=
  let hashes := (λ i, contentHash sha256 (ch_content i)) <$> inputs in
  NoDup hashes ∧ ∀ h, h ∈ hashes → h ∈ (c_contentHash <$> i_chunks s) → False.

Definition is_row_of (sha256 : string → string) (input : ChunkInput) (row : ChunkRow) : Prop :=
  ∃ id at_, row = row_of_input sha256 input id at_.

Lemma new_contents_cons sha256 input inputs s : new_contents sha256 (input :: inputs) s →
  (contentHash sha256 (ch_content input) ∉ (λ i, contentHash sha256 (ch_content i)) <$> inputs) ∧
  (contentHash sha256 (ch_content input) ∉ (c_contentHash <$> i_chunks s)) ∧ new_contents sha256 inputs s.
Proof.
  unfold new_contents. simpl. intros [[Hn Hd]%NoDup_cons Hdis]. split_and!; [done| |done|].
  - intros Hin. apply (Hdis (contentHash sha256 (ch_content input))); [by left|done].
  - intros h Hh. apply Hdis. by right.
Qed.

Lemma rows_of_hashes sha256 inputs rows : Forall2 (is_row_of sha256) inputs rows →
  c_contentHash <$> rows = (λ c, contentHash sha256 (ch_content c)) <$> inputs.
Proof. induction 1 as [|? ? ? ? (? & ? & ->)]; simpl; [done|]. by f_equal. Qed.

Lemma rows_of_elem sha256 inputs rows r : Forall2 (is_row_of sha256) inputs rows → r ∈ rows → ∃ c, c ∈ inputs ∧ is_row_of sha256 c r.
Proof. induction 1 as [|c r' inputs rows Hr _ IH]; [by intros ?%not_elem_of_nil|]. intros [->|Hin]%elem_of_cons; [exists c; set_solver|].
  destruct (IH Hin) as (c' & ? & ?). exists c'. set_solver.
Qed.

Lemma rows_of_file sha256 fileId inputs rows : Forall2 (is_row_of sha256) inputs rows →
  Forall (λ c, ch_fileId c = fileId) inputs → Forall (λ r, c_fileId r = fileId) rows.
Proof. induction 1 as [|? ? ? ? (? & ? & ->)]; intros Hf; [constructor|]. apply Forall_cons in Hf as [? ?]. by constructor; auto. Qed.

(** Chunks are in the order of their first lines. *)
Definition in_line_order (inputs : list ChunkInput) : Prop :=
  StronglySorted (λ a b, (ch_lineStart a <=? ch_lineStart b)%Z = true) inputs.

Lemma rows_of_sorted sha256 inputs rows : Forall2 (is_row_of sha256) inputs rows → in_line_order inputs →
  StronglySorted (λ a b, (c_lineStart a <=? c_lineStart b)%Z = true) rows.
Proof.
  unfold in_line_order. induction 1 as [|i r inputs rows (? & ? & ->) HF IH]; intros Hs; [constructor|].
  apply StronglySorted_inv in Hs as [Hs Hx]. constructor; [by apply IH|]. clear IH Hs.
  induction HF as [|? ? ? ? (? & ? & ->)]; [constructor|]. apply Forall_cons in Hx as [? ?]. by constructor; auto.
Qed.

(** ** The invariant of the store *)

Section invariant.
Context `{EnvLaws} `{Random} (sha256 : string → string) (elapsed : nat → double) (env : ProcessEnv).

Local Set Default Proof Using "Type*".

Record store_wf (s : SemanticStore) : Prop := {
  wf_chunk_ids : NoDup (c_id <$> i_chunks s);
  wf_hashes : NoDup (c_contentHash <$> i_chunks s);
  wf_hash_of : Forall (λ r, c_contentHash r = contentHash sha256 (c_content r)) (i_chunks s);
  wf_chunk_draws : draws_fresh c_id "chunk" (i_chunks s) (i_draws s);
  wf_emb_draws : draws_fresh e_id "emb" (i_embeddings s) (i_draws s);
  wf_refs : Forall (λ e, has_key c_id (e_chunkId e) (i_chunks s) = true) (i_embeddings s);
  wf_vectors : Forall (λ e, json_vector (e_vector e) = e_vector e) (i_embeddings s);
}.

(** Rows are only added. *)
Record grows (s s' : SemanticStore) : Prop := {
  g_chunks : i_chunks s `prefix_of` i_chunks s';
  g_embeddings : i_embeddings s `prefix_of` i_embeddings s';
}.

Lemma grows_refl s : grows s s.
Proof. by split. Qed.

Lemma grows_trans s1 s2 s3 : grows s1 s2 → grows s2 s3 → grows s1 s3.
Proof. intros [? ?] [? ?]. split; by etrans. Qed.

(** *** Chunks *)

Lemma persist_chunk_run input s : store_wf s →
  ∃ row s', persist_chunk sha256 input s = (Ret row, s') ∧ store_wf s' ∧ grows s s' ∧ row ∈ i_chunks s' ∧
    c_contentHash row = contentHash sha256 (ch_content input) ∧ i_embeddings s' = i_embeddings s ∧
    ((i_chunks s' = i_chunks s ∧ contentHash sha256 (ch_content input) ∈ (c_contentHash <$> i_chunks s)) ∨
     i_chunks s' = i_chunks s ++ [row] ∧ (contentHash sha256 (ch_content input) ∉ (c_contentHash <$> i_chunks s)) ∧
     ∃ id at_, row = row_of_input sha256 input id at_).
Proof.
  intros Hwf. unfold persist_chunk, findByContentHash. run_step.
  destruct (find_row c_contentHash _ _) as [row|] eqn:Hf.
  { apply find_row_Some in Hf as [Hin Hh]. exists row, s. split_and!; [done|done|apply grows_refl|done..|left; split; [done|]].
    rewrite <-Hh. by apply list_elem_of_fmap_2. }
  apply find_row_None in Hf. unfold chunks_save. do 2 run_step.
  set (row := row_of_input _ _ _ _). pose proof (wf_chunk_draws s Hwf (i_draws s) ltac:(lia)) as Hfresh.
  run_step. cbn [i_chunks set_counters i_draws i_ticks]. rewrite (upsert_chunk_fresh row) by done. destruct Hwf as [W1 W2 W3 W4 W5 W6 W7].
  eexists row, _. split; [reflexivity|]. split_and!; [|split; simpl; [by eexists|done]|simpl; set_solver|done|done|right; split_and!; [done..|by eexists _, _]].
  split; simpl; [| | | | | |done].
  - rewrite fmap_app. simpl. apply NoDup_app. split_and!; [done| |apply NoDup_singleton]. intros x Hx ->%list_elem_of_singleton.
    unfold has_key in Hfresh. by apply bool_decide_eq_false in Hfresh.
  - rewrite fmap_app. simpl. apply NoDup_app. split_and!; [done| |apply NoDup_singleton]. by intros x Hx ->%list_elem_of_singleton.
  - apply Forall_app. split; [done|]. by apply Forall_singleton.
  - eapply draws_fresh_snoc; [exact W4|lia|]. exists (i_draws s). split; [lia|done].
  - eapply draws_fresh_weaken; [exact W5|lia].
  - eapply Forall_impl; [exact W6|]. intros e. apply has_key_app_l.
Qed.

Lemma persistChunks_run inputs : ∀ acc s, store_wf s →
  ∃ rows s', fold_each (λ results input, row ← persist_chunk sha256 input; mret (results ++ [row])) acc inputs s = (Ret (acc ++ rows), s') ∧
    store_wf s' ∧ grows s s' ∧ i_embeddings s' = i_embeddings s ∧ rows ⊆ i_chunks s' ∧
    Forall2 (λ input row, c_contentHash row = contentHash sha256 (ch_content input)) inputs rows ∧
    (new_contents sha256 inputs s → i_chunks s' = i_chunks s ++ rows ∧ Forall2 (is_row_of sha256) inputs rows).
Proof.
  induction inputs as [|input inputs IH]; intros acc s Hwf.
  { exists [], s. rewrite !app_nil_r. split_and!; [done|done|apply grows_refl|done|set_solver|constructor|by split; [|constructor]]. }
  destruct (persist_chunk_run input s Hwf) as (row & s1 & Hrun & Hwf1 & Hg1 & Hin & Hh & He & Hnew).
  destruct (IH (acc ++ [row]) s1 Hwf1) as (rows & s2 & Hrun2 & Hwf2 & Hg2 & He2 & Hsub & HF & HF2).
  exists (row :: rows), s2. simpl. split_and!; [|done|by eapply grows_trans|by rewrite He2| |by constructor|].
  - erewrite bind_run; [|by erewrite bind_run by exact Hrun]. rewrite Hrun2, <-app_assoc. done.
  - intros x [->|Hx]%elem_of_cons; [|by apply Hsub]. destruct (g_chunks _ _ Hg2) as [k ->]. apply elem_of_app. by left.
  - intros (Hd & Hnin & Hnew')%new_contents_cons. destruct Hnew as [[_ Hold]|(Hch & _ & Hrow)]; [done|].
    destruct HF2 as [Hch2 HF2]; [|rewrite Hch2, Hch, <-app_assoc; split; [done|by constructor]].
    unfold new_contents. rewrite Hch, fmap_app. simpl. rewrite Hh. destruct Hnew' as [? Hdis]. split; [done|].
    intros h Hi [Hs|Hs%list_elem_of_singleton]%elem_of_app; [by apply (Hdis h)|by subst].
Qed.

(** *** Embeddings *)

(** The rows that [inputs] become. *)
Definition is_embedding_of (input : EmbedInput) (row : EmbeddingRow) : Prop :=
  e_chunkId row = input.1.1 ∧ e_modelName row = input.1.2 ∧ e_vector row = json_vector input.2 ∧ e_vectorDim row = length input.2.

Lemma insert_embedding_run row s : store_wf s → e_id row = draw_id "emb" (i_draws s - 1) → 0 < i_draws s →
  draws_fresh e_id "emb" (i_embeddings s) (i_draws s - 1) → has_key c_id (e_chunkId row) (i_chunks s) = true →
  json_vector (e_vector row) = e_vector row →
  insert_embedding row s = (Ret (), set_embeddings (i_embeddings s ++ [row]) s) ∧ store_wf (set_embeddings (i_embeddings s ++ [row]) s).
Proof.
  intros [W1 W2 W3 W4 W5 W6 W7] Hid Hd Hf Hk Hv. unfold insert_embedding. rewrite Hk, (upsert_embedding_fresh row).
  - split; [done|]. split; simpl; [done..| | |].
    + eapply draws_fresh_snoc; [exact Hf|lia|]. exists (i_draws s - 1). split; [lia|done].
    + apply Forall_app. split; [done|by apply Forall_singleton].
    + apply Forall_app. split; [done|by apply Forall_singleton].
  - rewrite Hid. apply Hf. lia.
Qed.

Lemma store_wf_counters s ticks draws rnd calls : store_wf s → i_draws s ≤ draws → store_wf (set_counters ticks draws rnd calls s).
Proof.
  intros [W1 W2 W3 W4 W5 W6 W7] Hle. split; simpl; [done..| | |done|done].
  - eapply draws_fresh_weaken; [exact W4|done].
  - eapply draws_fresh_weaken; [exact W5|done].
Qed.

Lemma saveBatch_run inputs s : store_wf s → Forall (λ i, has_key c_id i.1.1 (i_chunks s) = true) inputs →
  ∃ rows s', saveBatch inputs s = (Ret (), s') ∧ store_wf s' ∧ i_chunks s' = i_chunks s ∧
    i_embeddings s' = i_embeddings s ++ rows ∧ Forall2 is_embedding_of inputs rows.
Proof.
  intros Hwf Hk. unfold saveBatch. run_step. set (at_ := clock (i_ticks s)). set (s0 := set_counters _ _ _ _ s).
  assert (store_wf s0) as Hwf0 by (by apply store_wf_counters).
  change (i_chunks s) with (i_chunks s0) in *. change (i_embeddings s) with (i_embeddings s0) in *. clearbody s0 at_. clear s Hwf.
  revert s0 Hk Hwf0. induction inputs as [|[[c m] v] inputs IH]; intros s0 Hk Hwf; simpl.
  { exists [], s0. rewrite app_nil_r. split_and!; [done..|constructor]. }
  apply Forall_cons in Hk as [Hc Hk]. simpl in Hc.
  set (s1 := set_counters (i_ticks s0) (S (i_draws s0)) (i_random s0) (i_calls s0) s0).
  set (row := mkEmbeddingRow (draw_id "emb" (i_draws s0)) c m (json_vector v) (length v) at_).
  assert (store_wf s1) as Hwf1 by (apply store_wf_counters; [done|lia]).
  destruct (insert_embedding_run row s1) as [Hrun Hwf2]; [done|simpl; by rewrite Nat.sub_0_r|simpl; lia| |done|apply json_vector_idem|].
  { simpl. rewrite Nat.sub_0_r. apply Hwf. }
  destruct (IH (set_embeddings (i_embeddings s1 ++ [row]) s1)) as (rows & s2 & Hrun2 & Hwf3 & Hch & Hem & HF); [done|done|].
  exists (row :: rows), s2. split_and!; [|done|by rewrite Hch|by rewrite Hem; simpl; rewrite <-app_assoc|by constructor].
  erewrite bind_run; [exact Hrun2|]. by run_step.
Qed.

(** The provider answers every call with a vector for each text. *)
Definition answers (p : EmbeddingProvider) : Prop :=
  ∀ call texts model, ∃ r, embed p call texts model = Ret r ∧ length (er_vectors r) = length texts.

Lemma embed_inputs_run m batch vectors : length vectors = length batch →
  ∃ inputs, embed_inputs m batch vectors = Ret inputs ∧ (λ i, i.1.1) <$> inputs = c_id <$> batch ∧ Forall (λ i, i.1.2 = m) inputs.
Proof.
  revert vectors. induction batch as [|c batch IH]; intros [|v vectors] Hl; try done; simpl.
  - by exists [].
  - destruct (IH vectors) as (inputs & -> & Hids & Hm); [by injection Hl|]. eexists. split; [done|]. split; [by simpl; f_equal|by constructor].
Qed.

Lemma embed_batch_run p acc batch s : answers p → store_wf s → batch ⊆ i_chunks s →
  ∃ tokens rows s', embed_batch p acc batch s = (Ret (acc.1 + length batch, tokens), s') ∧ store_wf s' ∧
    i_chunks s' = i_chunks s ∧ i_embeddings s' = i_embeddings s ++ rows ∧ embedded (pc_modelName (config p)) batch rows.
Proof.
  intros Hp Hwf Hsub. unfold embed_batch. destruct (Hp (i_calls s) (c_content <$> batch) (pc_modelName (config p))) as (r & Hr & Hl).
  rewrite length_fmap in Hl. destruct (embed_inputs_run (pc_modelName (config p)) batch (er_vectors r) Hl) as (inputs & Hi & Hids & Hm).
  set (s1 := set_counters (i_ticks s) (i_draws s) (i_random s) (S (i_calls s)) s).
  assert (call_embed p (c_content <$> batch) (pc_modelName (config p)) s = (Ret r, s1)) as Hc by (unfold call_embed; by rewrite Hr).
  rewrite (bind_run _ _ _ _ _ Hc), Hi.
  destruct (saveBatch_run inputs s1) as (rows & s2 & Hrun & Hwf2 & Hch & Hem & HF).
  { by apply store_wf_counters. }
  { apply Forall_forall. intros i Hin. apply has_key_true.
    assert (i.1.1 ∈ (c_id <$> batch)) as (c & -> & Hcin)%list_elem_of_fmap 
      by (rewrite <-Hids; by apply (list_elem_of_fmap_2 (λ i : EmbedInput, i.1.1))).
    exists c. split; [by apply Hsub|done]. }
  exists (acc.2 + er_totalTokens r)%Z, rows, s2. rewrite (bind_run _ _ _ _ _ Hrun). unfold mret, M_ret.
  assert (@length EmbedInput inputs = length batch) as -> by (apply (f_equal length) in Hids; by rewrite !length_fmap in Hids).
  split_and!; [done..|]. split.
  - rewrite <-Hids. clear -HF. by induction HF as [|? ? ? ? (? & _)]; simpl; [|f_equal].
  - clear -HF Hm. induction HF as [|? ? ? ? (_ & ? & _)]; [constructor|]. apply Forall_cons in Hm as [? ?]. constructor; [congruence|auto].
Qed.

Lemma embed_batches_run p batches : ∀ acc s, answers p → store_wf s → mjoin batches ⊆ i_chunks s →
  ∃ tokens rows s', fold_each (embed_batch p) acc batches s = (Ret (acc.1 + length (mjoin batches), tokens), s') ∧ store_wf s' ∧
    i_chunks s' = i_chunks s ∧ i_embeddings s' = i_embeddings s ++ rows ∧ embedded (pc_modelName (config p)) (mjoin batches) rows.
Proof.
  induction batches as [|b bs IH]; intros acc s Hp Hwf Hsub.
  { exists acc.2, [], s. destruct acc as [a z]. rewrite app_nil_r. simpl. rewrite Nat.add_0_r. split_and!; [done..|]. by split. }
  change (mjoin (b :: bs)) with (b ++ mjoin bs) in *.
  destruct (embed_batch_run p acc b s) as (t1 & rows1 & s1 & Hrun1 & Hwf1 & Hc1 & He1 & HE1); [done|done|set_solver|].
  destruct (IH (acc.1 + length b, t1) s1) as (t2 & rows2 & s2 & Hrun2 & Hwf2 & Hc2 & He2 & HE2); [done|done|rewrite Hc1; set_solver|].
  exists t2, (rows1 ++ rows2), s2. simpl. rewrite (bind_run _ _ _ _ _ Hrun1), Hrun2. simpl. rewrite length_app, Nat.add_assoc.
  split_and!; [done|done|by rewrite Hc2|by rewrite He2, He1, app_assoc|by apply embedded_app].
Qed.

(** Telemetry changes neither table. *)
Lemma recordTelemetry_run ev s :
  ∃ s', recordTelemetry elapsed ev s = (Ret (), s') ∧ (store_wf s → store_wf s') ∧ i_chunks s' = i_chunks s ∧ i_embeddings s' = i_embeddings s ∧
    i_hnsw s' = i_hnsw s ∧ i_ann s' = i_ann s ∧ length (i_telemetry s') = S (length (i_telemetry s)).
Proof.
  eexists. split; [reflexivity|]. simpl. split_and!; [|done..|by rewrite length_app, Nat.add_1_r]. by intros [].
Qed.

Lemma embedAndPersist_run p chunks s : answers p → store_wf s → chunks ⊆ i_chunks s →
  let m := pc_modelName (config p) in
  ∃ r rows s', embedAndPersist elapsed env chunks p s = (Ret r, s') ∧ store_wf s' ∧ i_chunks s' = i_chunks s ∧
    i_embeddings s' = i_embeddings s ++ rows ∧ embedded m (to_embed m s chunks) rows ∧
    chunksStored r = length chunks ∧ embeddingsStored r = length (to_embed m s chunks) ∧
    embeddingsStored r + skippedDuplicates r = length chunks.
Proof.
  intros Hp Hwf Hsub m. unfold embedAndPersist. fold m. run_step.
  destruct (embed_batches_run p (toBatches (to_embed m s chunks) (pc_maxBatchSize (config p))) (0, 0%Z) s)
    as (t & rows & s1 & Hrun & Hwf1 & Hc & He & HE); [done|done| |].
  { rewrite toBatches_concat. intros c [_ Hin]%list_elem_of_filter. by apply Hsub. }
  rewrite toBatches_concat in *. unfold to_embed in Hrun. rewrite (bind_run _ _ _ _ _ Hrun). cbv beta iota.
  destruct (recordTelemetry_run (λ d, embedding_pipeline (mkPipelineMetrics d (length chunks) (length (to_embed m s chunks))
    (length (filter (λ c, has_embedding m s c = true) chunks)) t
    (if (0 <? length (to_embed m s chunks))%nat then d_div (d_of_Z t) (d_of_Z (Z.of_nat (length (to_embed m s chunks)))) else d_zero) m
    (negb (isEmbeddingKeyAvailable env (config p))))) s1) as (s2 & Hrt & Hwf2 & Hc2 & He2 & _).
  eexists _, rows, s2. erewrite bind_run by exact Hrt. split; [reflexivity|]. simpl.
  split_and!; [by apply Hwf2|by rewrite Hc2|by rewrite He2|done|done|done|].
  clear. unfold to_embed. induction chunks as [|c cs IH]; [done|]. destruct (has_embedding m s c) eqn:E.
  - rewrite filter_cons_False, filter_cons_True by congruence. simpl. lia.
  - rewrite filter_cons_True, filter_cons_False by congruence. simpl. lia.
Qed.

(** *** Index files *)

Lemma buildAndWriteHnswIndex_run m rows s : Forall (λ e, json_vector (e_vector e) = e_vector e) rows → store_wf s →
  ∃ s', buildAndWriteHnswIndex m rows s = (Ret (), s') ∧ store_wf s' ∧ i_chunks s' = i_chunks s ∧ i_embeddings s' = i_embeddings s ∧
    i_ann s' = i_ann s ∧ indexes m rows s'.
Proof.
  intros Hst Hwf. unfold buildAndWriteHnswIndex. set (entries := _ <$> rows).
  destruct (buildFromEntries_run entries (mkProcess (new_index m DEFAULT_HNSW_CONFIG) (i_random s))) as (p & Hrun & Hix & Hent & Hm & Hc).
  { apply new_index_wf. }
  rewrite Hrun. simpl in *. rewrite Hm. eexists. split; [reflexivity|]. split_and!; [|done..|].
  { apply store_wf_counters; [|done]. by destruct Hwf. }
  exists (p_index p). split_and!; [|done..]. unfold readHnswIndexSync. simpl. rewrite lookup_insert_eq. simpl.
  rewrite json_serial_stored.
  - rewrite deserialize_serialize by done. f_equal. destruct (p_index p) as [ns en ml ni mn cfg]. simpl in *. by subst.
  - rewrite Hent. apply Forall_forall. intros e [_ (r & -> & Hr)%list_elem_of_fmap]%list_elem_of_filter.
    rewrite Forall_forall in Hst. by apply Hst.
Qed.

Lemma rebuildAnnIndex_run m s : store_wf s →
  ∃ s', rebuildAnnIndex elapsed m s = (Ret (), s') ∧ store_wf s' ∧ i_chunks s' = i_chunks s ∧ i_embeddings s' = i_embeddings s ∧
    indexes m (listByModel m s) s'.
Proof.
  intros Hwf. unfold rebuildAnnIndex. run_step. set (rows := listByModel m s).
  assert (Forall (λ e, json_vector (e_vector e) = e_vector e) rows) as Hst.
  { apply Forall_forall. intros e [He _]%listByModel_elem. pose proof (wf_vectors s Hwf) as Hv. rewrite Forall_forall in Hv. by apply Hv. }
  unfold writeAnnIndex. set (s1 := set_ann (<[m := mkAnnIndex m ((λ e, mkAnnEntry (e_chunkId e) (e_modelName e) (json_vector (e_vector e))) <$> rows)]>
    (i_ann s)) s).
  assert (store_wf s1) as Hwf1 by (by destruct Hwf).
  destruct (buildAndWriteHnswIndex_run m rows s1 Hst Hwf1) as (s2 & Hrun2 & Hwf2 & Hc2 & He2 & _).
  destruct (buildAndWriteHnswIndex_run m rows s2 Hst Hwf2) as (s3 & Hrun3 & Hwf3 & Hc3 & He3 & _ & Hix).
  destruct (recordTelemetry_run (λ d, ann_build (mkAnnMetrics d (length rows) m)) s3) as (s4 & Hrun4 & Hwf4 & Hc4 & He4 & Hh4 & _).
  exists s4. split_and!; [|by apply Hwf4|by rewrite Hc4, Hc3, Hc2|by rewrite He4, He3, He2|by eapply indexes_hnsw].
  assert ((writeAnnIndex_flat m rows;; buildAndWriteHnswIndex m rows) s = (Ret (), s2)) as Hw by (by run_step).
  by rewrite (bind_run _ _ _ _ _ Hw), (bind_run _ _ _ _ _ Hrun3).
Qed.

(** *** The pipeline *)

Lemma runEmbeddingPipeline_run inputs p s : answers p → store_wf s →
  let m := pc_modelName (config p) in
  ∃ r rows s', runEmbeddingPipeline sha256 elapsed env inputs p s = (Ret r, s') ∧ store_wf s' ∧ grows s s' ∧ rows ⊆ i_chunks s' ∧
    Forall2 (λ input row, c_contentHash row = contentHash sha256 (ch_content input)) inputs rows ∧
    all_embedded m rows (i_embeddings s') ∧ indexes m (listByModel m s') s' ∧
    chunksStored r = length inputs ∧ embeddingsStored r + skippedDuplicates r = length inputs ∧
    (new_contents sha256 inputs s → i_chunks s' = i_chunks s ++ rows ∧ Forall2 (is_row_of sha256) inputs rows).
Proof.
  intros Hp Hwf m. unfold runEmbeddingPipeline.
  destruct (persistChunks_run inputs [] s Hwf) as (rows & s1 & Hrun1 & Hwf1 & Hg1 & He1 & Hsub & HF & HF2). simpl in Hrun1.
  destruct (embedAndPersist_run p rows s1 Hp Hwf1 Hsub) as (r & es & s2 & Hrun2 & Hwf2 & Hc2 & He2 & HE & Hr1 & Hr2 & Hr3). fold m in HE, Hr2.
  destruct (rebuildAnnIndex_run m s2 Hwf2) as (s3 & Hrun3 & Hwf3 & Hc3 & He3 & Hix).
  exists r, rows, s3. rewrite (bind_run _ _ _ _ _ Hrun1), (bind_run _ _ _ _ _ Hrun2), (bind_run _ _ _ _ _ Hrun3).
  assert (length rows = length inputs) as Hl by (symmetry; by eapply Forall2_length).
  split_and!; [done|done| |by rewrite Hc3, Hc2|done|by rewrite He3, He2; apply embedded_all| |by rewrite Hr1|by rewrite Hr3|by rewrite Hc3, Hc2].
  - eapply grows_trans; [exact Hg1|]. split; [by rewrite Hc3, Hc2|]. rewrite He3, He2. by apply prefix_app_r.
  - assert (listByModel m s3 = listByModel m s2) as -> by (unfold listByModel; by rewrite He3). done.
Qed.

(** *** Files *)

(** What the deletions of a refresh leave. *)
Definition without_file (fileId : string) (s : SemanticStore) : SemanticStore :=
  set_chunks (filter (λ r, c_fileId r ≠ fileId) (i_chunks s))
    (set_embeddings (filter (λ e, e_chunkId e ∉ findIdsByFileId fileId s) (i_embeddings s)) s).

Lemma has_key_filter_weaken {R : Type} (key : R → string) (P : R → Prop) `{∀ r, Decision (P r)} k rows :
  has_key key k rows = false → has_key key k (filter P rows) = false.
Proof. rewrite !has_key_false. intros Hk r [_ Hr]%list_elem_of_filter. by apply Hk. Qed.

Lemma filter_Forall {A : Type} (P Q : A → Prop) `{∀ x, Decision (Q x)} xs : Forall P xs → Forall P (filter Q xs).
Proof. rewrite !Forall_forall. intros HP x [_ Hx]%list_elem_of_filter. by apply HP. Qed.

Lemma without_file_run fileId s : store_wf s →
  (deleteByChunkIds (findIdsByFileId fileId s);; deleteByFileId fileId) s = (Ret (), without_file fileId s) ∧ store_wf (without_file fileId s).
Proof.
  intros [W1 W2 W3 W4 W5 W6 W7]. split.
  - run_step. unfold deleteByFileId. simpl. destruct (existsb _ _) eqn:Hex; [exfalso|done]. revert Hex.
    intros (r & Hr & [Hf%bool_decide_eq_true Hk]%andb_true_iff)%existsb_exists. apply has_key_true in Hk as (e & He & Hid).
    apply list_elem_of_filter in He as [Hn _]. apply Hn. rewrite Hid. unfold findIdsByFileId. apply list_elem_of_fmap_2, list_elem_of_filter.
    split; [done|by apply list_elem_of_In].
  - split; simpl.
    + eapply sublist_NoDup; [exact W1|]. apply fmap_sublist, sublist_filter.
    + eapply sublist_NoDup; [exact W2|]. apply fmap_sublist, sublist_filter.
    + by eapply filter_Forall.
    + intros k Hk. apply has_key_filter_weaken. by apply W4.
    + intros k Hk. apply has_key_filter_weaken. by apply W5.
    + apply Forall_forall. intros e [Hn He]%list_elem_of_filter. rewrite Forall_forall in W6. apply has_key_true.
      destruct (proj1 (has_key_true _ _ _) (W6 e He)) as (r & Hr & Hid). exists r. split; [|done]. apply list_elem_of_filter.
      split; [|done]. intros Hf. apply Hn. rewrite <-Hid. unfold findIdsByFileId. apply list_elem_of_fmap_2. by apply list_elem_of_filter.
    + by eapply filter_Forall.
Qed.

Lemma refreshFileChunks_run fileId inputs p s : answers p → store_wf s → new_contents sha256 inputs (without_file fileId s) →
  let m := pc_modelName (config p) in
  ∃ r rows s', refreshFileChunks sha256 elapsed env fileId inputs p s = (Ret r, s') ∧ store_wf s' ∧
    i_chunks s' = filter (λ r, c_fileId r ≠ fileId) (i_chunks s) ++ rows ∧ Forall2 (is_row_of sha256) inputs rows ∧
    all_embedded m rows (i_embeddings s') ∧ indexes m (listByModel m s') s'.
Proof.
  intros Hp Hwf Hnew m. unfold refreshFileChunks. run_step. destruct (without_file_run fileId s Hwf) as [Hrun Hwf1].
  destruct (runEmbeddingPipeline_run inputs p (without_file fileId s) Hp Hwf1)
    as (r & rows & s' & Hrun2 & Hwf2 & _ & _ & _ & Hall & Hix & _ & _ & Hrows). destruct (Hrows Hnew) as [Hch HF].
  exists (r, length (findIdsByFileId fileId s)), rows, s'. split_and!; [|done..]. revert Hrun. run_step. intros Hrun.
  run_step. rewrite (bind_run _ _ _ _ _ Hrun). by rewrite (bind_run _ _ _ _ _ Hrun2).
Qed.

(** The stored chunks of a file are the chunks that it has now. *)
Definition settled (candidates : list ChunkInput) (s : SemanticStore) (fileId : string) : Prop :=
  Forall2 (is_row_of sha256) (filter (λ c, ch_fileId c = fileId) candidates) (filter (λ r, c_fileId r = fileId) (i_chunks s)).

Lemma settled_needs_no_refresh candidates s fileId : settled candidates s fileId →
  in_line_order (filter (λ c, ch_fileId c = fileId) candidates) → filter (λ c, ch_fileId c = fileId) candidates ≠ [] →
  needs_refresh sha256 candidates s fileId = false.
Proof.
  intros HF Hs Hne. unfold needs_refresh, findContentHashesByFileId. rewrite js_sort_id by (by eapply rows_of_sorted).
  rewrite (rows_of_hashes _ _ _ HF). rewrite bool_decide_false by (by destruct (filter _ candidates)). by rewrite bool_decide_true.
Qed.

(** What is stored with the content of an input is stored for the same file. *)
Definition apart (files : list string) (inputs : list ChunkInput) (s : SemanticStore) : Prop :=
  ∀ c r, c ∈ inputs → ch_fileId c ∈ files → r ∈ i_chunks s → c_contentHash r = contentHash sha256 (ch_content c) → c_fileId r = ch_fileId c.

Definition hashes_of (inputs : list ChunkInput) : list string := (λ c, contentHash sha256 (ch_content c)) <$> inputs.

Lemma apart_new fileId files inputs s : NoDup (hashes_of inputs) → apart (fileId :: files) inputs s →
  new_contents sha256 (filter (λ c, ch_fileId c = fileId) inputs) (without_file fileId s).
Proof.
  intros Hd Ha. split.
  - eapply sublist_NoDup; [exact Hd|]. apply fmap_sublist, sublist_filter.
  - intros h (c & -> & [Hc Hin]%list_elem_of_filter)%list_elem_of_fmap (r & Hh & [Hf Hr]%list_elem_of_filter)%list_elem_of_fmap.
    apply Hf. rewrite <-Hc. apply Ha; [done|rewrite Hc; by left|done|done].
Qed.

Lemma refreshed_file fileId inputs rows s s' : Forall2 (is_row_of sha256) (filter (λ c, ch_fileId c = fileId) inputs) rows →
  i_chunks s' = filter (λ r, c_fileId r ≠ fileId) (i_chunks s) ++ rows →
  settled inputs s' fileId ∧ ∀ g, g ≠ fileId → filter (λ r, c_fileId r = g) (i_chunks s') = filter (λ r, c_fileId r = g) (i_chunks s).
Proof.
  intros HF Hch. assert (Forall (λ r, c_fileId r = fileId) rows) as Hrows.
  { eapply rows_of_file; [exact HF|]. apply Forall_forall. by intros c [? _]%list_elem_of_filter. }
  split.
  - unfold settled. rewrite Hch, filter_app, (filter_all _ rows) by done.
    rewrite (filter_none _ (filter _ (i_chunks s))); [done|]. apply Forall_forall. by intros r [? _]%list_elem_of_filter.
  - intros g Hg. rewrite Hch, filter_app, (filter_none _ rows), app_nil_r.
    + rewrite list_filter_filter. apply list_filter_iff. intros r. naive_solver.
    + eapply Forall_impl; [exact Hrows|]. intros r ->. done.
Qed.

Lemma apart_next fileId files inputs rows s s' : NoDup (hashes_of inputs) → (fileId ∉ files) → apart (fileId :: files) inputs s →
  Forall2 (is_row_of sha256) (filter (λ c, ch_fileId c = fileId) inputs) rows →
  i_chunks s' = filter (λ r, c_fileId r ≠ fileId) (i_chunks s) ++ rows → apart files inputs s'.
Proof.
  intros Hd Hn Ha HF Hch c r Hc Hf. rewrite Hch. intros [[_ Hr]%list_elem_of_filter|Hr]%elem_of_app Hh.
  { apply Ha; [done|by right|done|done]. }
  destruct (rows_of_elem _ _ _ r HF Hr) as (c' & [Hf' Hc']%list_elem_of_filter & (id & at_ & ->)). simpl in *.
  by rewrite (NoDup_fmap_elem_inj (λ c, contentHash sha256 (ch_content c)) inputs c' c Hd Hc' Hc Hh).
Qed.

Lemma refreshChangedFiles_run inputs p : answers p → NoDup (hashes_of inputs) → ∀ files totals s,
  NoDup files → store_wf s → apart files inputs s →
  ∃ r s', fold_each (λ totals fileId,
      '(result, _) ← refreshFileChunks sha256 elapsed env fileId (filter (λ c, ch_fileId c = fileId) inputs) p;
      mret (add_results totals result)) totals files s = (Ret r, s') ∧ store_wf s' ∧
    (∀ f, f ∈ files → settled inputs s' f) ∧
    (∀ g, (g ∉ files) → filter (λ r, c_fileId r = g) (i_chunks s') = filter (λ r, c_fileId r = g) (i_chunks s)).
Proof.
  intros Hp Hd files. induction files as [|f files IH]; intros totals s Hnd Hwf Ha.
  { exists totals, s. split_and!; [done|done|by intros f ?%not_elem_of_nil|done]. }
  apply NoDup_cons in Hnd as [Hf Hnd].
  destruct (refreshFileChunks_run f (filter (λ c, ch_fileId c = f) inputs) p s Hp Hwf (apart_new _ _ _ _ Hd Ha))
    as ([r n] & rows & s1 & Hrun & Hwf1 & Hch & HF & _).
  destruct (refreshed_file f inputs rows s s1 HF Hch) as [Hset Hother].
  destruct (IH (add_results totals r) s1 Hnd Hwf1 (apart_next _ _ _ _ _ _ Hd Hf Ha HF Hch)) as (r2 & s2 & Hrun2 & Hwf2 & Hset2 & Hother2).
  exists r2, s2. split_and!; [|done| |].
  - cbn [fold_each]. erewrite bind_run; [exact Hrun2|]. by rewrite (bind_run _ _ _ _ _ Hrun).
  - intros g [->|Hg]%elem_of_cons; [|by apply Hset2]. unfold settled. by rewrite Hother2.
  - intros g [Hg1 Hg2]%not_elem_of_cons. by rewrite Hother2, Hother.
Qed.

(** *** The job *)

Section job.
Context (file_chunks : string → list ChunkInput) (own_chunks : ∀ f, Forall (λ c, ch_fileId c = f) (file_chunks f)).

Lemma chunks_of_one files f : NoDup files → f ∈ files → filter (λ c, ch_fileId c = f) (chunks_of file_chunks files) = file_chunks f.
Proof.
  unfold chunks_of. induction files as [|g files IH]; [by intros _ ?%not_elem_of_nil|]. intros [Hg Hnd]%NoDup_cons Hf.
  change ((g :: files) ≫= file_chunks) with (file_chunks g ++ (files ≫= file_chunks)). rewrite filter_app.
  apply elem_of_cons in Hf as [->|Hf].
  - rewrite filter_all by done. rewrite filter_none; [by rewrite app_nil_r|]. apply Forall_forall.
    intros c (f & Hc & Hf)%list_elem_of_bind Heq. pose proof (own_chunks f) as Ho. rewrite Forall_forall in Ho. specialize (Ho c Hc). congruence.
  - rewrite (filter_none _ (file_chunks g)); [by apply IH|]. eapply Forall_impl; [apply own_chunks|]. simpl. intros c -> ->. done.
Qed.

Lemma chunks_of_file files c : c ∈ chunks_of file_chunks files → ch_fileId c ∈ files.
Proof.
  intros (f & Hc & Hf)%list_elem_of_bind. pose proof (own_chunks f) as Ho. rewrite Forall_forall in Ho. by rewrite (Ho c Hc).
Qed.

Lemma chunks_of_sublist files files' : files `sublist_of` files' → chunks_of file_chunks files `sublist_of` chunks_of file_chunks files'.
Proof.
  unfold chunks_of. induction 1 as [|f l k _ IH|f l k _ IH]; [done| |].
  - change ((f :: ?xs) ≫= file_chunks) with (file_chunks f ++ (xs ≫= file_chunks)). by apply sublist_app.
  - change ((f :: ?xs) ≫= file_chunks) with (file_chunks f ++ (xs ≫= file_chunks)). by apply sublist_inserts_l.
Qed.

Lemma needs_refresh_same cands cands' s s' f : filter (λ c, ch_fileId c = f) cands = filter (λ c, ch_fileId c = f) cands' →
  filter (λ r, c_fileId r = f) (i_chunks s) = filter (λ r, c_fileId r = f) (i_chunks s') →
  needs_refresh sha256 cands s f = needs_refresh sha256 cands' s' f.
Proof. intros Hc Hs. unfold needs_refresh, findContentHashesByFileId. by rewrite Hc, Hs. Qed.

Context (files : list string) (files_distinct : NoDup files).
Context (chunks_ordered : ∀ f, f ∈ files → in_line_order (file_chunks f)).

(** A file without chunks is selected again, whatever is stored of it. *)
Lemma blank_needs_refresh s f : f ∈ files → file_chunks f = [] →
  needs_refresh sha256 (chunks_of file_chunks files) s f = true.
Proof using files_distinct own_chunks.
  intros Hf Hnil. unfold needs_refresh. rewrite chunks_of_one, Hnil by done. cbn [fmap list_fmap].
  destruct (findContentHashesByFileId f s); [done|]. by rewrite !bool_decide_false by done.
Qed.

Lemma index_files_run p s : answers p → store_wf s → NoDup (hashes_of (chunks_of file_chunks files)) →
  apart files (chunks_of file_chunks files) s →
  ∃ r s', index_files sha256 elapsed env (mkJobOptions false false) files file_chunks p s = (Ret r, s') ∧ store_wf s' ∧
    ∀ f, f ∈ files → needs_refresh sha256 (chunks_of file_chunks files) s' f = bool_decide (file_chunks f = []).
Proof.
  intros Hp Hwf Hd Ha. unfold index_files. run_step. cbn [force skipEmbedding orb].
  set (all := chunks_of file_chunks files) in *. set (sel := filterFilesNeedingRefresh sha256 files all s).
  assert (∀ f, f ∈ sel ↔ needs_refresh sha256 all s f = true ∧ f ∈ files) as Hsel
    by (intros f; unfold sel, filterFilesNeedingRefresh; by rewrite list_elem_of_filter).
  assert (sel `sublist_of` files) as Hsub by (apply sublist_filter).
  assert (NoDup sel) as Hnd by (eapply sublist_NoDup; [exact files_distinct|done]).
  destruct (bool_decide (chunks_of file_chunks sel = [])) eqn:Hnil.
  { apply bool_decide_eq_true in Hnil. eexists _, s. split; [reflexivity|]. split; [done|]. intros f Hf.
    destruct (decide (file_chunks f = [])) as [Hb|Hne]; [rewrite bool_decide_true by done; by apply blank_needs_refresh|].
    rewrite bool_decide_false by done. destruct (needs_refresh sha256 all s f) eqn:Hr; [|done]. exfalso. apply Hne.
    rewrite <-(chunks_of_one sel f), Hnil by (done || by apply Hsel). done. }
  destruct (refreshChangedFiles_run (chunks_of file_chunks sel) p Hp) with (files := sel) (totals := mkPipelineResult 0 0 0 0) (s := s)
    as (r & s' & Hrun & Hwf' & Hset & Hother); [|done|done| |].
  { eapply sublist_NoDup; [exact Hd|]. by apply fmap_sublist, chunks_of_sublist. }
  { intros c row Hc Hf. apply Ha; [by eapply elem_of_sublist, chunks_of_sublist|]. by apply Hsel in Hf as [_ ?]. }
  exists (sel, chunks_of file_chunks sel, Some r), s'. split_and!; [|done|].
  - erewrite bind_run; [reflexivity|]. unfold refreshChangedFiles. by rewrite (bind_run _ _ _ _ _ Hrun).
  - intros f Hf. destruct (decide (file_chunks f = [])) as [Hb|Hne]; [rewrite bool_decide_true by done; by apply blank_needs_refresh|].
    rewrite bool_decide_false by done. destruct (decide (f ∈ sel)) as [Hs|Hs].
    + rewrite (needs_refresh_same all (chunks_of file_chunks sel) s' s'); [|by unfold all; rewrite !chunks_of_one|done].
      pose proof (chunks_ordered f Hf). apply settled_needs_no_refresh; [by apply Hset|by rewrite chunks_of_one..].
    + rewrite (needs_refresh_same all all s' s); [|done|by apply Hother].
      destruct (needs_refresh sha256 all s f) eqn:Hr; [|done]. exfalso. apply Hs. by apply Hsel.
Qed.
End job.
End invariant.

(** ** Search *)

Lemma answer_rows_length nodes found rows : answer_rows nodes found = Ret rows → length rows = length found.
Proof.
  revert rows. induction found as [|c cs IH]; intros rows; simpl; [by intros [= <-]|].
  destruct (map_get _ _); [|done]. destruct (answer_rows nodes cs) as [rs|]; [|done]. intros [= <-]. simpl. by rewrite (IH rs).
Qed.

Lemma search_length ix q k ef rows : search ix q k ef = Ret rows → length rows ≤ k.
Proof.
  unfold search. destruct (_ || _); [intros [= <-]; simpl; lia|]. intros Hr%answer_rows_length. rewrite Hr, length_take. lia.
Qed.

(** A result shows a stored chunk and is similar enough. *)
Definition shows_chunk (s : SemanticStore) (minSim : double) (r : SemanticSearchResult) : Prop :=
  d_leb minSim (sr_similarity r) = true ∧ ∃ c, c ∈ i_chunks s ∧ sr_chunkId r = c_id c ∧ sr_fileId r = c_fileId c ∧
    sr_filePath r = c_filePath c ∧ sr_lineStart r = c_lineStart c ∧ sr_lineEnd r = c_lineEnd c ∧ sr_content r = c_content c.

Lemma resolveChunks_shows hits s minSim : Forall (λ h, d_leb minSim h.2 = true) hits →
  Forall (shows_chunk s minSim) (resolveChunks hits s) ∧ length (resolveChunks hits s) ≤ length hits.
Proof.
  intros Hsim. split.
  - apply Forall_forall. intros r ([id sim] & Hin & (c & Hf & ->)%fmap_Some_1)%list_elem_of_omap.
    rewrite Forall_forall in Hsim. apply find_row_Some in Hf as [Hc _]. split; [by apply (Hsim (id, sim))|]. by exists c.
  - clear Hsim. unfold resolveChunks. induction hits as [|[id sim] hits IH]; [done|]. unfold omap in *. simpl.
    destruct (chunks_findById id s); simpl; lia.
Qed.

Lemma linearScan_hits q rows k minSim : Forall (λ h, d_leb minSim h.2 = true) (linearScan q rows k minSim) ∧ length (linearScan q rows k minSim) ≤ k.
Proof.
  unfold linearScan. split; [|rewrite length_take; lia]. apply Forall_take, Forall_forall.
  intros [id sim] (e & _ & He)%elem_of_js_sort%list_elem_of_omap. simpl in *. destruct (d_leb _ _) eqn:E; [|done]. by injection He as <- <-.
Qed.

Section search_spec.
Context `{Env} (elapsed : nat → double).

Lemma finish_search_run strategy results topK minSim m s :
  ∃ s', finish_search elapsed strategy results topK minSim m s = (Ret results, s') ∧ i_chunks s' = i_chunks s ∧ i_embeddings s' = i_embeddings s.
Proof. by eexists. Qed.

(** A search returns at most [topK] results, each at least as similar as asked
    for and with the place and the text of a stored chunk, and changes neither
    table. *)
Lemma search_results query options p s rs s' :
  semanticSearch elapsed query options p s = (Ret rs, s') →
  length rs ≤ so_topK options or_else 10 ∧
  Forall (shows_chunk s (so_minSimilarity options or_else d_div (d_of_Z 1) (d_of_Z 4))) rs ∧
  i_chunks s' = i_chunks s ∧ i_embeddings s' = i_embeddings s.
Proof.
  unfold semanticSearch. set (k := so_topK options or_else 10). set (minSim := so_minSimilarity options or_else _).
  set (m := so_modelName options or_else _). clearbody k minSim m. unfold mbind at 1, M_bind at 1, call_embed.
  destruct (embed p _ _ _) as [resp|]; [|done]. set (s0 := set_counters _ _ _ _ s).
  change (i_chunks s) with (i_chunks s0). change (i_embeddings s) with (i_embeddings s0).
  change (shows_chunk s minSim) with (shows_chunk s0 minSim). clearbody s0.
  destruct (head (er_vectors resp)) as [[|x q]|]; try (intros [= <- <-]; split_and!; [simpl; lia|constructor|done|done]).
  assert (∀ strategy hits, Forall (λ h, d_leb minSim h.2 = true) hits → length hits ≤ k →
    finish_search elapsed strategy (resolveChunks hits s0) k minSim m s0 = (Ret rs, s') →
    length rs ≤ k ∧ Forall (shows_chunk s0 minSim) rs ∧ i_chunks s' = i_chunks s0 ∧ i_embeddings s' = i_embeddings s0) as Hfin.
  { intros strategy hits Hsim Hl. destruct (resolveChunks_shows hits s0 minSim Hsim) as [Hsh Hlen].
    destruct (finish_search_run strategy (resolveChunks hits s0) k minSim m s0) as (s1 & -> & Hc & He). intros [= <- <-].
    split_and!; [lia|done|done|done]. }
  assert (linear_search elapsed (x :: q) k minSim m s0 = (Ret rs, s') →
    length rs ≤ k ∧ Forall (shows_chunk s0 minSim) rs ∧ i_chunks s' = i_chunks s0 ∧ i_embeddings s' = i_embeddings s0) as Hlin.
  { unfold linear_search. run_step. destruct (scan_source m s0) as [strategy rows].
    destruct (decide _); [intros [= <- <-]; split_and!; [simpl; lia|constructor|done|done]|].
    apply Hfin; apply linearScan_hits. }
  run_step. destruct (readHnswIndexSync m s0) as [[[|n ns] en ml ni mn cfg]|]; [exact Hlin| |exact Hlin].
  destruct (search _ _ _ _) as [hits|] eqn:Hs; [|done]. apply Hfin.
  - apply Forall_forall. by intros h [? _]%list_elem_of_filter.
  - apply search_length in Hs. etrans; [apply length_filter|done].
Qed.
End search_spec.

(** ** The pipeline and the job *)

Lemma filter_same {A : Type} (P Q : A → Prop) `{∀ x, Decision (P x)} `{∀ x, Decision (Q x)} (l : list A) :
  (∀ x, x ∈ l → P x ↔ Q x) → filter P l = filter Q l.
Proof.
  induction l as [|x l IH]; intros Hpq; [done|]. rewrite !filter_cons, IH by (intros; apply Hpq; by right).
  destruct (Hpq x) as [H1 H2]; [by left|]. do 2 case_decide; naive_solver.
Qed.

(** With a provider that answers, the embedding pipeline returns and leaves a
    consistent store that only grew: every input has a stored chunk with its
    content hash, that chunk has an embedding for the model, and the index file
    of the model reads back as a well-formed graph over exactly the stored
    embeddings of the model.  Every chunk is counted as embedded or skipped. *)
Theorem pipeline_indexes `{EnvLaws} `{Random} sha256 elapsed env inputs p s : answers p → store_wf sha256 s →
  let m := pc_modelName (config p) in
  ∃ r s', runEmbeddingPipeline sha256 elapsed env inputs p s = (Ret r, s') ∧ store_wf sha256 s' ∧
    i_chunks s `prefix_of` i_chunks s' ∧ i_embeddings s `prefix_of` i_embeddings s' ∧
    (∀ input, input ∈ inputs → ∃ c e, c ∈ i_chunks s' ∧ c_contentHash c = contentHash sha256 (ch_content input) ∧
       e ∈ i_embeddings s' ∧ e_chunkId e = c_id c ∧ e_modelName e = m) ∧
    indexes m (listByModel m s') s' ∧
    chunksStored r = length inputs ∧ embeddingsStored r + skippedDuplicates r = length inputs.
Proof.
  intros Hp Hwf m. destruct (runEmbeddingPipeline_run sha256 elapsed env inputs p s Hp Hwf)
    as (r & rows & s' & Hrun & Hwf' & [Hg1 Hg2] & Hsub & HF & Hall & Hix & Hr1 & Hr2 & _). exists r, s'.
  split_and!; [done..| |done|done|done]. intros input [i Hi]%list_elem_of_lookup.
  destruct (Forall2_lookup_l _ _ _ _ _ HF Hi) as (row & Hrow%list_elem_of_lookup_2 & Hh).
  destruct (Hall row Hrow) as (e & ? & ? & ?). exists row, e. split_and!; [by apply Hsub|done..].
Qed.

(** C27 The index job settles.  Let every file be listed once and its chunks come
    in line order; let the contents of all these chunks have pairwise different
    hashes, within a file and across files; let what is stored under one of these
    hashes be stored for the same file; and let the provider answer every call
    with one vector for each text.  Then one run of the job leaves a consistent
    store, and a second run over the same chunks selects exactly the files without
    any chunk, calls no service and changes nothing.  (Files that share a content
    do not settle: [shared_content_one_owner].) *)
Theorem index_job_settles `{EnvLaws} `{Random} sha256 elapsed env file_chunks files p s :
  (∀ f, Forall (λ c, ch_fileId c = f) (file_chunks f)) → NoDup files →
  (∀ f, f ∈ files → in_line_order (file_chunks f)) →
  answers p → store_wf sha256 s → NoDup (hashes_of sha256 (chunks_of file_chunks files)) → apart sha256 files (chunks_of file_chunks files) s →
  let job := index_files sha256 elapsed env (mkJobOptions false false) files file_chunks p in
  ∃ r s', job s = (Ret r, s') ∧ store_wf sha256 s' ∧
    job s' = (Ret (filter (λ f, file_chunks f = []) files, [], None), s').
Proof.
  intros Hown Hnd Hch Hp Hwf Hd Ha job.
  destruct (index_files_run sha256 elapsed env file_chunks Hown files Hnd Hch p s Hp Hwf Hd Ha) as (r & s' & Hrun & Hwf' & Hset).
  exists r, s'. split_and!; [done|done|]. unfold job, index_files. run_step. cbn [force skipEmbedding orb].
  assert (filterFilesNeedingRefresh sha256 files (chunks_of file_chunks files) s' = filter (λ f, file_chunks f = []) files) as ->.
  { unfold filterFilesNeedingRefresh. apply filter_same. intros f Hf. rewrite Hset by done. apply bool_decide_eq_true. }
  assert (chunks_of file_chunks (filter (λ f, file_chunks f = []) files) = []) as ->; [|done].
  unfold chunks_of. apply elem_of_nil_inv. intros c (f & Hc & [Hf _]%list_elem_of_filter)%list_elem_of_bind.
  rewrite Hf in Hc. by apply elem_of_nil in Hc.
Qed.

(** ** Examples *)

Definition demo_provider (model : string) : EmbeddingProvider :=
  createMockEmbeddingProvider (mkProviderConfig "demo" model "KEY" None 1 2).

Definition demo_chunk (f content : string) (line : Z) : ChunkInput := mkChunk f f None line line content "ts".

Definition empty_store : SemanticStore := mkSemanticStore [] [] ∅ ∅ [] 0 0 0 0.

#[local] Existing Instance demo_random.

Definition demo_job (file_chunks : string → list ChunkInput) : SM (list string * list ChunkInput * option EmbedPipelineResult) :=
  index_files (λ c, c) (λ _, d_zero) ∅ (mkJobOptions false false) ["a"; "b"] file_chunks (demo_provider "m").

Definition demo_chunks (f : string) : list ChunkInput :=
  if decide (f = "a") then [demo_chunk "a" "a1" 1; demo_chunk "a" "a2" 9]
  else if decide (f = "b") then [demo_chunk "b" "b1" 1; demo_chunk "b" "b2" 9] else [].

Lemma demo_answers m : answers (demo_provider m).
Proof. intros call texts model. eexists. split; [reflexivity|]. apply length_fmap. Defined.

Lemma empty_store_wf : store_wf (λ c, c) empty_store.
Proof. split; simpl; try (by constructor); by intros k Hk. Qed.

Lemma pipeline_indexes_witness :
  let m := pc_modelName (config (demo_provider "m")) in let inputs := demo_chunks "a" in
  ∃ r s', runEmbeddingPipeline (λ c, c) (λ _, d_zero) ∅ inputs (demo_provider "m") empty_store = (Ret r, s') ∧ store_wf (λ c, c) s' ∧
    i_chunks empty_store `prefix_of` i_chunks s' ∧ i_embeddings empty_store `prefix_of` i_embeddings s' ∧
    (∀ input, input ∈ inputs → ∃ c e, c ∈ i_chunks s' ∧ c_contentHash c = contentHash (λ c, c) (ch_content input) ∧
       e ∈ i_embeddings s' ∧ e_chunkId e = c_id c ∧ e_modelName e = m) ∧
    indexes m (listByModel m s') s' ∧ chunksStored r = 2 ∧ embeddingsStored r + skippedDuplicates r = 2.
Proof. apply (pipeline_indexes (λ c, c) (λ _, d_zero) ∅ (demo_chunks "a")); [apply demo_answers|apply empty_store_wf]. Defined.

Lemma demo_own_chunks f : Forall (λ c, ch_fileId c = f) (demo_chunks f).
Proof. unfold demo_chunks. repeat case_decide; subst; by repeat constructor. Qed.

Lemma index_job_settles_witness :
  ∃ r s', demo_job demo_chunks empty_store = (Ret r, s') ∧ store_wf (λ c, c) s' ∧
    demo_job demo_chunks s' = (Ret (filter (λ f, demo_chunks f = []) ["a"; "b"], [], None), s').
Proof.
  apply (index_job_settles (λ c, c) (λ _, d_zero) ∅ demo_chunks ["a"; "b"] (demo_provider "m") empty_store).
  - apply demo_own_chunks.
  - repeat constructor; set_solver.
  - intros f [->|[->|[]%elem_of_nil]%elem_of_cons]%elem_of_cons; repeat constructor.
  - apply demo_answers.
  - apply empty_store_wf.
  - vm_compute. repeat constructor; set_solver.
  - by intros c r _ _ ?%elem_of_nil.
Defined.

(** The store after an operation. *)
Definition after {A : Type} (m : SM A) (s : SemanticStore) : SemanticStore := snd (m s).

(** A chunk that moves from one file to another is lost: [b2] moves to the first
    file, where it is taken for the chunk stored for the second, which the
    refresh of the second then deletes. *)
Example moved_chunk_lost :
  let moved f := if decide (f = "a") then demo_chunks "a" ++ [demo_chunk "a" "b2" 20] else take 1 (demo_chunks f) in
  c_content <$> i_chunks (after (demo_job moved) (after (demo_job demo_chunks) empty_store)) = ["a1"; "a2"; "b1"].
Proof. vm_compute. reflexivity. Qed.

(** Two files with the same content: the second has no chunk of its own, needs a
    refresh on every run, and loses the content when the first changes. *)
Example shared_content_one_owner :
  let same f := [demo_chunk f "same" 1] in
  let s := after (demo_job same) empty_store in
  let changed f := if decide (f = "a") then [demo_chunk "a" "new" 1] else [] in
  (λ c, (c_fileId c, c_content c)) <$> i_chunks s = [("a", "same")] ∧
  fst (demo_job same s) = Ret (["b"], [demo_chunk "b" "same" 1], Some (mkPipelineResult 1 0 1 0)) ∧
  c_content <$> i_chunks (after (refreshFileChunks (λ c, c) (λ _, d_zero) ∅ "a" (changed "a") (demo_provider "m")) s) = ["new"].
Proof. vm_compute. repeat split. Qed.

(** A file that no longer has chunks, the only one to change, keeps its old ones
    in the index: it is selected, but without chunks nothing is refreshed. *)
Example emptied_file_keeps_chunks :
  let emptied f := if decide (f = "a") then [] else demo_chunks f in
  let s := after (demo_job demo_chunks) empty_store in
  demo_job emptied s = (Ret (["a"], [], None), s) ∧ length (filter (λ c, c_fileId c = "a") (i_chunks s)) = 2.
Proof. vm_compute. split; reflexivity. Qed.

(** Equal contents in one run: one chunk, embedded twice, and found twice. *)
Example equal_contents_embedded_twice :
  let s := after (runEmbeddingPipeline (λ c, c) (λ _, d_zero) ∅ [demo_chunk "a" "x" 1; demo_chunk "b" "x" 1] (demo_provider "m")) empty_store in
  length (i_chunks s) = 1 ∧ length (i_embeddings s) = 2 ∧
  match fst (semanticSearch (λ _, d_zero) "x" (mkSearchOptions None None None) (demo_provider "m") s) with
  | Ret rs => sr_chunkId <$> rs = replicate 2 (draw_id "chunk" 0)
  | Throw _ => False
  end.
Proof. vm_compute. repeat split. Qed.

(** With embeddings of two models, only the older row of a chunk is looked at:
    the second model is embedded again on every run. *)
Example second_model_embedded_again :
  let s := after (runEmbeddingPipeline (λ c, c) (λ _, d_zero) ∅ [demo_chunk "a" "x" 1] (demo_provider "m")) empty_store in
  let again := reembedAllChunks (λ _, d_zero) ∅ (demo_provider "m2") None in
  e_modelName <$> i_embeddings (after again (after again s)) = ["m"; "m2"; "m2"].
Proof. vm_compute. reflexivity. Qed.
