(* ===== verification/Cleanup.v ===== *)
(** * Cleanup of historical chunk paths

    [packages/retrieval/src/semantic/historical-chunk-cleanup.ts] on the tables of
    [Semantic], with [updateFilePathsByChunkId] of [chunks-repo.ts].

    The time of the report and [Date.parse] are parameters.  A batch size of zero
    or less is replaced by the default, as in the code. *)

From S2P Require Import Prelude Store Heap Hnsw Files ScanPaths Chunker Telemetry Semantic.
From Stdlib Require Import Ascii String ZArith.
From stdpp Require Import prelude list strings gmap.
Set Default Goal Selector "!".
Set Default Proof Using "Type".
Set Warnings "-clear-no-such-hyp".
#[local] Arguments String.append : simpl nomatch.
#[local] Open Scope nat_scope.

Inductive CleanupClassificationKind : Type := canonical_row | deterministic_convertible | unresolved.

#[global] Instance CleanupClassificationKind_eq_dec : EqDecision CleanupClassificationKind.
Proof. solve_decision. Defined.

Record HistoricalChunkCleanupRow : Type := mkCleanupRow {
  hr_chunkId : string;
  hr_fileId : string;
  hr_currentFilePath : string;
  hr_targetFilePath : option string;
  hr_telemetryFlagged : bool;
  hr_kind : CleanupClassificationKind;
  hr_reason : string;
}.

Record HistoricalChunkCleanupClassification : Type := mkClassification {
  hc_rowsScanned : nat;
  hc_telemetryFlaggedRows : nat;
  hc_telemetryFlaggedDeterministicConvertibleRows : nat;
  hc_canonicalRows : nat;
  hc_deterministicConvertibleRows : nat;
  hc_unresolvedRows : nat;
  hc_rows : list HistoricalChunkCleanupRow;
}.

Inductive CleanupMode : Type := dry_run | apply_mode.

#[global] Instance CleanupMode_eq_dec : EqDecision CleanupMode.
Proof. solve_decision. Defined.

Record HistoricalChunkCleanupOptions : Type := mkCleanupOptions {
  co_mode : CleanupMode;
  co_observationWindow : option TelemetrySummaryWindow;
  co_batchSize : option Z;
  co_exampleLimit : option Z;
  co_operator : option string;
}.

Record HistoricalChunkCleanupReport : Type := mkReport {
  re_runAt : string;
  re_operator : string;
  re_mode : CleanupMode;
  re_observationWindow : TelemetrySummaryWindow;
  re_batchSize : positive;
  re_telemetryBefore : TelemetrySummary;
  re_telemetryAfter : TelemetrySummary;
  re_storageBefore : HistoricalChunkCleanupClassification;
  re_storageAfter : HistoricalChunkCleanupClassification;
  re_deterministicRowsEligibleForApply : nat;
  re_deterministicRowsUpdated : nat;
  re_deterministicRowsNotUpdated : nat;
  re_canonicalRowsUnchanged : nat;
  re_skippedRows : nat;
  re_unresolvedRowsRetained : nat;
  re_orphanedEmbeddingsBefore : nat;
  re_orphanedEmbeddingsAfter : nat;
  re_orphanedEmbeddingsDeleted : nat;
  re_examplesCanonical : list string;
  re_examplesConvertible : list string;
  re_examplesUnresolved : list string;
}.

Section cleanup.
Context `{Env} (date_parse : string → option Z) (cwd : Path) (repoRoot : string) (fs : FileSystem).

(** ** Signals of the telemetry *)

(** [eventMs < sinceMs]: false when the bound is not a date. *)
Definition before_bound (at_ms : Z) (bound : option string) : bool :=
  match bound with
  | None | Some EmptyString => false
  | Some iso => match date_parse iso with Some ms => (at_ms <? ms)%Z | None => false end
  end.
Definition after_bound (at_ms : Z) (bound : option string) : bool :=
  match bound with
  | None | Some EmptyString => false
  | Some iso => match date_parse iso with Some ms => (ms <? at_ms)%Z | None => false end
  end.

Definition event_paths (e : TelemetryEvent) : list string :=
  match e with
  | semantic_path_unresolved _ filePath originalFilePath => [filePath; originalFilePath]
  | evidence_path_unresolved filePath (Some (String c t)) _ _ => [filePath; String c t]
  | evidence_path_unresolved filePath _ _ _ => [filePath]
  | _ => []
  end.

Definition collectTelemetryPathSignals (log : TelemetryLog) (window : TelemetrySummaryWindow) : list string :=
  readTelemetryEvents log ≫= λ event,
    match date_parse (te_timestamp event) with
    | None => []
    | Some eventMs =>
      if before_bound eventMs (sinceIso window) || after_bound eventMs (untilIso window) then [] else event_paths (te_event event)
    end.

(** ** Classification *)

Definition existsSyncSafe (filePath : string) : bool := existsSync (path_resolve cwd filePath) fs.

Definition classifyOneRow (telemetrySignals : list string) (row : ChunkRow) : HistoricalChunkCleanupRow :=
  let telemetryFlagged := bool_decide (c_filePath row ∈ telemetrySignals) in
  let mk := mkCleanupRow (c_id row) (c_fileId row) (c_filePath row) in
  match truthy_string (normalizeToRepoRelativePath cwd repoRoot (c_filePath row)) with
  | None => mk None telemetryFlagged unresolved
      (if telemetryFlagged then "Telemetry-flagged unresolved path cannot be normalized into repo-relative contract."
       else "Path cannot be normalized into repo-relative contract.")
  | Some canonical =>
    if decide (canonical = c_filePath row) then mk (Some canonical) telemetryFlagged canonical_row "Already canonical repo-relative path."
    else if existsSyncSafe (path_join repoRoot canonical) then
      mk (Some canonical) telemetryFlagged deterministic_convertible "Deterministic normalization with existing file target."
    else mk None telemetryFlagged unresolved "Normalized path does not map to an existing file."
  end.

Definition count_kind (k : CleanupClassificationKind) (rows : list HistoricalChunkCleanupRow) : nat := length (filter (λ r, hr_kind r = k) rows).

Definition classifyHistoricalChunkPaths (window : TelemetrySummaryWindow) (s : SemanticStore) : HistoricalChunkCleanupClassification :=
  let inventory := order_desc c_createdAt (i_chunks s) in
  let telemetrySignals := collectTelemetryPathSignals (i_telemetry s) window in
  let rows := classifyOneRow telemetrySignals <$> inventory in
  mkClassification (length rows) (length (filter (λ r, hr_telemetryFlagged r = true) rows))
    (length (filter (λ r, hr_kind r = deterministic_convertible ∧ hr_telemetryFlagged r = true) rows))
    (count_kind canonical_row rows) (count_kind deterministic_convertible rows) (count_kind unresolved rows) rows.

(** ** Updates *)

Definition set_filePath (p : string) (r : ChunkRow) : ChunkRow :=
  mkChunkRow (c_id r) (c_fileId r) p (c_symbolId r) (c_lineStart r) (c_lineEnd r) (c_content r) (c_contentHash r) (c_tokenEstimate r)
    (c_language r) (c_createdAt r).

(** [UPDATE chunks SET file_path = ? WHERE id = ?]. *)
Definition update_path (chunkId filePath : string) (rows : list ChunkRow) : list ChunkRow :=
  (λ r, if decide (c_id r = chunkId) then set_filePath filePath r else r) <$> rows.

Definition updateFilePathsByChunkId (updates : list (string * string)) : SM nat :=
  fold_each (λ changed '(chunkId, filePath), λ s,
    (Ret (changed + length (filter (λ r, c_id r = chunkId) (i_chunks s))), set_chunks (update_path chunkId filePath (i_chunks s)) s)) 0 updates.

(** [options.n && options.n > 0 ? options.n : d]. *)
Definition positive_or (d : positive) (n : option Z) : positive :=
  match n with Some (Zpos p) => p | _ => d end.

Definition collectExamples (rows : list HistoricalChunkCleanupRow) (kind : CleanupClassificationKind) (limit : positive) : list string :=
  (λ row, hr_currentFilePath row +:+
     match hr_targetFilePath row with
     | Some (String c t) => if decide (String c t = hr_currentFilePath row) then "" else " -> " +:+ String c t
     | _ => ""
     end) <$> take (Pos.to_nat limit) (filter (λ r, hr_kind r = kind) rows).

(** The chunk and the target of a row to convert. *)
Definition eligible (row : HistoricalChunkCleanupRow) : option (string * string) :=
  match hr_kind row, hr_targetFilePath row with
  | deterministic_convertible, Some (String c t) => Some (hr_chunkId row, String c t)
  | _, _ => None
  end.

Definition runHistoricalChunkCleanup (options : HistoricalChunkCleanupOptions) : SM HistoricalChunkCleanupReport :=
  let mode := co_mode options in
  let window := co_observationWindow options or_else mkWindow None None in
  let batchSize := positive_or 200 (co_batchSize options) in
  let exampleLimit := positive_or 5 (co_exampleLimit options) in
  let operator := match trim <$> co_operator options with Some (String c t) => String c t | _ => "unknown" end in
  telemetryBefore ← gets (λ s, summarizeTelemetryInWindow date_parse (i_telemetry s) window);
  storageBefore ← gets (classifyHistoricalChunkPaths window);
  orphanedBefore ← gets countOrphaned;
  let deterministicRows := omap eligible (hc_rows storageBefore) in
  updatedRows ← (if decide (mode = apply_mode) then
      fold_each (λ n batch, k ← updateFilePathsByChunkId batch; mret (n + k)) 0 (toBatches deterministicRows batchSize)
    else mret 0);
  orphanedDeleted ← (if decide (mode = apply_mode) then deleteOrphaned else mret 0);
  orphanedAfter ← gets countOrphaned;
  storageAfter ← gets (classifyHistoricalChunkPaths window);
  telemetryAfter ← gets (λ s, summarizeTelemetryInWindow date_parse (i_telemetry s) window);
  runAt ← now;
  let notUpdated := length deterministicRows - updatedRows in
  mret (mkReport runAt operator mode window batchSize telemetryBefore telemetryAfter storageBefore storageAfter
    (length deterministicRows) updatedRows notUpdated (hc_canonicalRows storageBefore) notUpdated (hc_unresolvedRows storageBefore)
    orphanedBefore orphanedAfter orphanedDeleted
    (collectExamples (hc_rows storageAfter) canonical_row exampleLimit)
    (collectExamples (hc_rows storageBefore) deterministic_convertible exampleLimit)
    (collectExamples (hc_rows storageAfter) unresolved exampleLimit)).
End cleanup.

(** ** Updates *)

Lemma set_chunks_same s : set_chunks (i_chunks s) s = s.
Proof. by destruct s. Qed.

Definition apply_updates (updates : list (string * string)) (rows : list ChunkRow) : list ChunkRow :=
  foldl (λ rows u, update_path u.1 u.2 rows) rows updates.

Lemma update_path_ids id p rows : c_id <$> update_path id p rows = c_id <$> rows.
Proof. unfold update_path. rewrite <-list_fmap_compose. apply list_fmap_ext. intros _ r _. simpl. by case_decide. Qed.

Lemma apply_updates_ids updates : ∀ rows, c_id <$> apply_updates updates rows = c_id <$> rows.
Proof. induction updates as [|u us IH]; intros rows; simpl; [done|]. by rewrite IH, update_path_ids. Qed.

Lemma count_id id rows : NoDup (c_id <$> rows) → id ∈ (c_id <$> rows) → length (filter (λ r, c_id r = id) rows) = 1.
Proof.
  induction rows as [|r rows IH]; simpl; [by intros _ ?%not_elem_of_nil|]. intros [Hr Hnd]%NoDup_cons [->|Hin]%elem_of_cons.
  - rewrite filter_cons_True by done. rewrite filter_none; [done|]. apply Forall_forall. intros x Hx Heq. apply Hr. rewrite <-Heq.
    by apply list_elem_of_fmap_2.
  - rewrite filter_cons_False; [by apply IH|]. by intros <-.
Qed.

Lemma updateFilePaths_run updates s : NoDup (c_id <$> i_chunks s) → Forall (λ u, u.1 ∈ (c_id <$> i_chunks s)) updates →
  updateFilePathsByChunkId updates s = (Ret (length updates), set_chunks (apply_updates updates (i_chunks s)) s).
Proof.
  unfold updateFilePathsByChunkId. change (length updates) with (0 + length updates). generalize 0 as n. revert s.
  induction updates as [|[id p] us IH]; intros s n Hnd Hin; simpl.
  { by rewrite Nat.add_0_r, set_chunks_same. }
  apply Forall_cons in Hin as [Hid Hin]. erewrite bind_run; [|reflexivity]. rewrite count_id by done.
  rewrite IH; simpl; [|by rewrite update_path_ids|by rewrite update_path_ids]. by rewrite <-Nat.add_assoc.
Qed.

Lemma updateBatches_run batches : ∀ n s, NoDup (c_id <$> i_chunks s) → Forall (λ u, u.1 ∈ (c_id <$> i_chunks s)) (mjoin batches) →
  fold_each (λ n batch, k ← updateFilePathsByChunkId batch; mret (n + k)) n batches s =
  (Ret (n + length (mjoin batches)), set_chunks (apply_updates (mjoin batches) (i_chunks s)) s).
Proof.
  induction batches as [|b bs IH]; intros n s Hnd Hin.
  { by rewrite Nat.add_0_r; simpl; rewrite set_chunks_same. }
  change (mjoin (b :: bs)) with (b ++ mjoin bs) in *. apply Forall_app in Hin as [Hb Hbs]. cbn [fold_each].
  erewrite bind_run; [|by erewrite bind_run by (by apply updateFilePaths_run)].
  rewrite IH; cbn [i_chunks set_chunks]; [|by rewrite apply_updates_ids..].
  unfold apply_updates. by rewrite length_app, foldl_app, Nat.add_assoc.
Qed.

(** With distinct ids, the updates act on each row on its own. *)
Lemma apply_updates_map updates : NoDup updates.*1 → ∀ rows,
  apply_updates updates rows =
  (λ r, match (list_to_map updates : gmap string string) !! c_id r with Some p => set_filePath p r | None => r end) <$> rows.
Proof.
  unfold apply_updates. induction updates as [|[id p] us IH]; simpl; intros Hnd rows.
  { rewrite <-(list_fmap_id rows) at 1. apply list_fmap_ext. done. }
  apply NoDup_cons in Hnd as [Hid Hnd]. rewrite IH by done. unfold update_path. rewrite <-list_fmap_compose.
  apply list_fmap_ext. intros _ r _. simpl. destruct (decide (c_id r = id)) as [<-|Hne]; simpl.
  - rewrite lookup_insert_eq, not_elem_of_list_to_map_1 by done. done.
  - by rewrite lookup_insert_ne.
Qed.

Lemma order_desc_fmap {R : Type} (ts : R → string) (f : R → R) rows : (∀ r, ts (f r) = ts r) →
  order_desc ts (f <$> rows) = f <$> order_desc ts rows.
Proof.
  intros Hts. induction rows as [|r rows IH]; [done|]. rewrite fmap_cons. cbn [order_desc]. rewrite IH. clear IH.
  induction (order_desc ts rows) as [|x xs IH]; [done|]. rewrite fmap_cons. cbn [insert_desc]. rewrite !Hts.
  destruct (String.leb _ _); [|done]. by rewrite IH, fmap_cons.
Qed.

Lemma count_kind_cons k r rows : count_kind k (r :: rows) = (if decide (hr_kind r = k) then 1 else 0) + count_kind k rows.
Proof. unfold count_kind. case_decide; [by rewrite filter_cons_True|by rewrite filter_cons_False]. Qed.

(** ** The cleanup *)

Section cleanup_facts.
Context `{Env} (date_parse : string → option Z) (cwd : Path) (repoRoot : string) (fs : FileSystem).

Let classify := classifyOneRow cwd repoRoot fs.

(** The row after the cleanup. *)
Definition converted (signals : list string) (r : ChunkRow) : ChunkRow :=
  match eligible (classify signals r) with Some (_, p) => set_filePath p r | None => r end.

Lemma eligible_spec signals r u : eligible (classify signals r) = Some u ↔
  u.1 = c_id r ∧ u.2 ≠ "" ∧ u.2 ≠ c_filePath r ∧ normalizeToRepoRelativePath cwd repoRoot (c_filePath r) = Some u.2 ∧
  existsSyncSafe cwd fs (path_join repoRoot u.2) = true.
Proof.
  unfold classify, classifyOneRow. destruct u as [id p]. cbn [fst snd].
  destruct (normalizeToRepoRelativePath _ _ _) as [[|c t]|]; cbn [truthy_string].
  - split; [done|]. intros (_ & Hne & _ & [= <-] & _). done.
  - case_decide as Hc; [split; [done|]; intros (_ & _ & Hn & [= <-] & _); by rewrite Hc in Hn|].
    destruct (existsSyncSafe cwd fs _) eqn:He; unfold eligible; cbn [hr_kind hr_targetFilePath hr_chunkId].
    + split; [intros [= <- <-]; done|]. intros (-> & _ & _ & [= <-] & _). done.
    + split; [done|]. intros (_ & _ & _ & [= <-] & Ht). by rewrite He in Ht.
  - split; [done|]. intros (_ & _ & _ & ? & _). done.
Qed.

Lemma eligible_kind signals r : is_Some (eligible (classify signals r)) ↔ hr_kind (classify signals r) = deterministic_convertible.
Proof.
  unfold classify, classifyOneRow. destruct (normalizeToRepoRelativePath _ _ _) as [[|c t]|]; simpl; [split; [by intros []|done]| |split; [by intros []|done]].
  case_decide; [split; [by intros []|done]|]. destruct (existsSyncSafe cwd fs _); [done|split; [by intros []|done]].
Qed.

Lemma eligible_count signals (rows : list ChunkRow) :
  length (omap eligible (classify signals <$> rows)) = count_kind deterministic_convertible (classify signals <$> rows).
Proof.
  induction rows as [|r rows IH]; [done|]. cbn [fmap list_fmap]. rewrite count_kind_cons, <-IH. unfold omap. simpl.
  pose proof (eligible_kind signals r) as Hk. destruct (eligible (classify signals r)); simpl; case_decide as Hd; simpl; [done| | |done].
  - exfalso. apply Hd, Hk. by eexists.
  - apply Hk in Hd as [? ?]. done.
Qed.

Lemma eligible_ids signals (rows : list ChunkRow) u : u ∈ omap eligible (classify signals <$> rows) → u.1 ∈ (c_id <$> rows).
Proof.
  intros (h & (r & -> & Hr)%list_elem_of_fmap & (-> & _)%eligible_spec)%list_elem_of_omap. by apply list_elem_of_fmap_2.
Qed.

Lemma eligible_distinct signals (rows : list ChunkRow) : NoDup (c_id <$> rows) → NoDup (omap eligible (classify signals <$> rows)).*1.
Proof.
  induction rows as [|r rows IH]; simpl; [intros _; constructor|]. intros [Hr Hnd]%NoDup_cons. unfold omap in *. simpl.
  destruct (eligible (classify signals r)) as [u|] eqn:He; simpl; [|by apply IH].
  constructor; [|by apply IH]. apply eligible_spec in He as (-> & _). intros (v & Hv & Hin)%list_elem_of_fmap. apply Hr. rewrite Hv.
  by apply (eligible_ids signals rows).
Qed.

Lemma updates_lookup signals (rows : list ChunkRow) r : NoDup (c_id <$> rows) → r ∈ rows →
  (list_to_map (omap eligible (classify signals <$> rows)) : gmap string string) !! c_id r = snd <$> eligible (classify signals r).
Proof.
  intros Hnd Hr. destruct (eligible (classify signals r)) as [[id p]|] eqn:He; simpl.
  - apply elem_of_list_to_map; [by apply eligible_distinct|]. apply list_elem_of_omap. exists (classify signals r).
    split; [by apply list_elem_of_fmap_2|]. rewrite He. apply eligible_spec in He as (He & _). simpl in He. by rewrite He.
  - apply not_elem_of_list_to_map_1. intros (u & Hu & (h & (r' & -> & Hr')%list_elem_of_fmap & He')%list_elem_of_omap)%list_elem_of_fmap.
    pose proof He' as (Hid & _)%eligible_spec. assert (r' = r) as -> by (apply (NoDup_fmap_elem_inj c_id rows); [done..|congruence]). congruence.
Qed.

Lemma apply_eligible signals (rows rows' : list ChunkRow) : NoDup (c_id <$> rows) → rows' ≡ₚ rows →
  apply_updates (omap eligible (classify signals <$> rows')) rows = converted signals <$> rows.
Proof.
  intros Hnd Hp. assert (NoDup (c_id <$> rows')) as Hnd' by (by rewrite Hp).
  rewrite apply_updates_map by (by apply eligible_distinct). apply list_fmap_ext. intros i r Hi%list_elem_of_lookup_2.
  rewrite updates_lookup by (done || by rewrite Hp). unfold converted. by destruct (eligible _) as [[? ?]|].
Qed.

(** Targets that are read back as they were written. *)
Definition trimmed_targets (rows : list ChunkRow) : Prop :=
  ∀ r p, r ∈ rows → normalizeToRepoRelativePath cwd repoRoot (c_filePath r) = Some p → trim p = p.

Lemma converted_kind signals rows r : trimmed_targets rows → r ∈ rows →
  hr_kind (classify signals (converted signals r)) =
  match hr_kind (classify signals r) with deterministic_convertible => canonical_row | k => k end.
Proof.
  intros Ht Hr. unfold converted. destruct (eligible (classify signals r)) as [[id p]|] eqn:He.
  - assert (hr_kind (classify signals r) = deterministic_convertible) as -> by (apply eligible_kind; by eexists).
    apply eligible_spec in He as (_ & Hne & _ & Hn & _). simpl in *. unfold classify, classifyOneRow. simpl.
    rewrite (normalize_twice cwd repoRoot (c_filePath r) p) by (done || by eapply Ht). destruct p as [|c t]; [done|]. simpl.
    by rewrite decide_True.
  - pose proof (eligible_kind signals r) as Hk. rewrite He in Hk. destruct (hr_kind (classify signals r)); [done| |done].
    by destruct (proj2 Hk eq_refl).
Qed.

(** Every row is counted once. *)
Lemma kinds_partition (rows : list HistoricalChunkCleanupRow) :
  length rows = count_kind canonical_row rows + count_kind deterministic_convertible rows + count_kind unresolved rows.
Proof. induction rows as [|r rows IH]; [done|]. rewrite !count_kind_cons. destruct (hr_kind r); simpl; lia. Qed.

Lemma converted_counts signals rows : trimmed_targets rows → ∀ inventory, inventory ⊆ rows →
  let before := classify signals <$> inventory in let after := classify signals <$> (converted signals <$> inventory) in
  count_kind canonical_row after = count_kind canonical_row before + count_kind deterministic_convertible before ∧
  count_kind deterministic_convertible after = 0 ∧ count_kind unresolved after = count_kind unresolved before.
Proof.
  intros Ht inventory. induction inventory as [|r inv IH]; intros Hsub; [done|].
  destruct IH as (IH1 & IH2 & IH3). { intros x Hx. apply Hsub. by right. }
  assert (r ∈ rows) as Hr by (apply Hsub; by left). cbn [fmap list_fmap]. rewrite !count_kind_cons, (converted_kind signals rows) by done.
  destruct (hr_kind (classify signals r)); simpl; lia.
Qed.

Lemma orphans_gone s : countOrphaned (set_embeddings (filter (λ r, is_orphan s r = false) (i_embeddings s)) s) = 0.
Proof.
  unfold countOrphaned. simpl. rewrite filter_none; [done|]. apply Forall_forall. intros e [He _]%list_elem_of_filter.
  unfold is_orphan in *. simpl. congruence.
Qed.

Lemma has_key_ids id rows rows' : c_id <$> rows = c_id <$> rows' → has_key c_id id rows = has_key c_id id rows'.
Proof. unfold has_key. by intros ->. Qed.
End cleanup_facts.

Section cleanup_spec.
Context `{Env} (date_parse : string → option Z) (cwd : Path) (repoRoot : string) (fs : FileSystem).

Definition window_of (options : HistoricalChunkCleanupOptions) : TelemetrySummaryWindow := co_observationWindow options or_else mkWindow None None.

(** What the run leaves, by the mode. *)
Definition cleaned (options : HistoricalChunkCleanupOptions) (s : SemanticStore) : SemanticStore :=
  match co_mode options with
  | dry_run => s
  | apply_mode =>
    let signals := collectTelemetryPathSignals date_parse (i_telemetry s) (window_of options) in
    set_embeddings (filter (λ e, is_orphan s e = false) (i_embeddings s)) (set_chunks (converted cwd repoRoot fs signals <$> i_chunks s) s)
  end.

Lemma cleanup_run options s : NoDup (c_id <$> i_chunks s) →
  let classify := classifyHistoricalChunkPaths date_parse cwd repoRoot fs (window_of options) in
  ∃ r s', runHistoricalChunkCleanup date_parse cwd repoRoot fs options s = (Ret r, s') ∧
    i_chunks s' = i_chunks (cleaned options s) ∧ i_embeddings s' = i_embeddings (cleaned options s) ∧
    re_storageBefore r = classify s ∧ re_storageAfter r = classify (cleaned options s) ∧
    re_orphanedEmbeddingsAfter r = countOrphaned (cleaned options s) ∧
    re_deterministicRowsEligibleForApply r = hc_deterministicConvertibleRows (classify s) ∧
    re_deterministicRowsUpdated r = match co_mode options with dry_run => 0 | apply_mode => hc_deterministicConvertibleRows (classify s) end.
Proof.
  intros Hnd classify. unfold runHistoricalChunkCleanup. do 3 run_step. fold (window_of options). fold classify.
  set (signals := collectTelemetryPathSignals date_parse (i_telemetry s) (window_of options)).
  set (inventory := order_desc c_createdAt (i_chunks s)).
  assert (hc_rows (classify s) = classifyOneRow cwd repoRoot fs signals <$> inventory) as -> by done.
  assert (inventory ≡ₚ i_chunks s) as Hp by apply order_desc_perm.
  set (us := omap eligible (classifyOneRow cwd repoRoot fs signals <$> inventory)).
  assert (length us = hc_deterministicConvertibleRows (classify s)) as Hlen by apply eligible_count.
  assert (apply_updates us (i_chunks s) = converted cwd repoRoot fs signals <$> i_chunks s) as Happ by (by apply apply_eligible).
  unfold cleaned. destruct (co_mode options).
  - rewrite !decide_False by done. do 6 run_step. eexists _, _. split; [reflexivity|]. cbn. split_and!; done.
  - rewrite !decide_True by done. erewrite bind_run.
    2:{ apply updateBatches_run; [done|]. rewrite toBatches_concat. apply Forall_forall. intros u Hu.
        apply (eligible_ids cwd repoRoot fs signals) in Hu. by rewrite Hp in Hu. }
    rewrite toBatches_concat, Happ.
    set (s1 := set_chunks _ s). assert (∀ e, is_orphan s1 e = is_orphan s e) as Ho.
    { intros e. unfold is_orphan, s1. simpl. f_equal. apply has_key_ids. rewrite <-Happ. apply apply_updates_ids. }
    assert (filter (λ r, is_orphan s1 r = false) (i_embeddings s) = filter (λ r, is_orphan s r = false) (i_embeddings s)) as Hf.
    { apply list_filter_iff. intros e. by rewrite Ho. }
    do 5 run_step. eexists _, _. split; [reflexivity|]. cbn [i_chunks i_embeddings set_counters set_embeddings set_chunks re_storageBefore
      re_storageAfter re_orphanedEmbeddingsAfter re_deterministicRowsEligibleForApply re_deterministicRowsUpdated].
    change (i_embeddings s1) with (i_embeddings s). rewrite Hf. split_and!; done.
Qed.
End cleanup_spec.

(** A cleanup returns and its report counts every chunk under exactly one
    kind.  A dry run changes nothing and updates nothing.  An applied run rewrites
    the path of exactly the convertible rows to their canonical target, no other
    column and no other row, leaves no orphaned embedding, and, when the targets
    have no white space at their ends, turns every convertible row into a
    canonical one and leaves the unresolved ones as they were. *)
Theorem cleanup_converges `{Env} date_parse cwd repoRoot fs options s : NoDup (c_id <$> i_chunks s) →
  ∃ r s', runHistoricalChunkCleanup date_parse cwd repoRoot fs options s = (Ret r, s') ∧
    (let before := re_storageBefore r in
     length (i_chunks s) = hc_canonicalRows before + hc_deterministicConvertibleRows before + hc_unresolvedRows before) ∧
    (co_mode options = dry_run → i_chunks s' = i_chunks s ∧ i_embeddings s' = i_embeddings s ∧
       re_storageAfter r = re_storageBefore r ∧ re_deterministicRowsUpdated r = 0) ∧
    (co_mode options = apply_mode →
       (∃ signals, i_chunks s' = converted cwd repoRoot fs signals <$> i_chunks s) ∧
       re_deterministicRowsUpdated r = hc_deterministicConvertibleRows (re_storageBefore r) ∧ re_orphanedEmbeddingsAfter r = 0 ∧
       (trimmed_targets cwd repoRoot (i_chunks s) →
        hc_deterministicConvertibleRows (re_storageAfter r) = 0 ∧
        hc_canonicalRows (re_storageAfter r) = hc_canonicalRows (re_storageBefore r) + hc_deterministicConvertibleRows (re_storageBefore r) ∧
        hc_unresolvedRows (re_storageAfter r) = hc_unresolvedRows (re_storageBefore r))).
Proof.
  intros Hnd. destruct (cleanup_run date_parse cwd repoRoot fs options s Hnd)
    as (r & s' & Hrun & Hc & He & Hb & Ha & Ho & Hel & Hup). exists r, s'. split; [done|]. rewrite Hb, Ha, Hup, Ho, Hc, He.
  split_and!; [| |].
  - unfold classifyHistoricalChunkPaths. cbn. rewrite <-kinds_partition, length_fmap. symmetry. apply length_order_desc.
  - intros Hm. unfold cleaned. by rewrite Hm.
  - intros Hm. unfold cleaned. rewrite Hm. split_and!; [by eexists|done| |].
    + set (f := converted cwd repoRoot fs _). unfold countOrphaned. cbn [i_embeddings set_embeddings]. rewrite filter_none; [done|].
      apply Forall_forall. intros e [He' _]%list_elem_of_filter. unfold is_orphan in *. simpl in *.
      rewrite (has_key_ids _ _ (i_chunks s)); [congruence|]. rewrite <-list_fmap_compose. apply list_fmap_ext. intros _ x _. simpl.
      unfold f, converted. by destruct (eligible _) as [[? ?]|].
    + intros Ht. unfold classifyHistoricalChunkPaths. cbn [hc_deterministicConvertibleRows hc_canonicalRows hc_unresolvedRows i_chunks i_telemetry
        set_embeddings set_chunks]. set (signals := collectTelemetryPathSignals _ _ _).
      rewrite order_desc_fmap by (intros x; unfold converted; by destruct (eligible _) as [[? ?]|]).
      destruct (converted_counts cwd repoRoot fs signals (i_chunks s) Ht (order_desc c_createdAt (i_chunks s))) as (H1 & H2 & H3); [|done].
      intros x. by rewrite elem_of_order_desc.
Qed.

(** ** Examples *)

Definition demo_row (id path : string) : ChunkRow := mkChunkRow id "f" path None 1 2 path path 1 "ts" "T".

Definition demo_rows : SemanticStore :=
  mkSemanticStore [demo_row "1" "src/a.ts"; demo_row "2" "./src\a.ts"; demo_row "3" "../x"] [] ∅ ∅
    [None; Some (mkTimestamped (semantic_path_unresolved "3" "../x" "../x") "T")] 0 0 0 0.

Definition demo_files : FileSystem := <[["repo"; "src"] := Dir]> (<[["repo"; "src"; "a.ts"] := File "x"]> ∅).

Lemma cleanup_converges_witness :
  ∃ r s', runHistoricalChunkCleanup (λ _, Some 0%Z) ["repo"] "." demo_files (mkCleanupOptions apply_mode None None None None) demo_rows = (Ret r, s') ∧
    hc_deterministicConvertibleRows (re_storageAfter r) = 0 ∧ hc_canonicalRows (re_storageAfter r) = 2 ∧
    hc_unresolvedRows (re_storageAfter r) = 1 ∧ re_deterministicRowsUpdated r = 1 ∧ re_orphanedEmbeddingsAfter r = 0.
Proof.
  assert (NoDup (c_id <$> i_chunks demo_rows)) as Hnd by (apply (bool_decide_unpack _); vm_compute; exact I).
  destruct (cleanup_converges (λ _, Some 0%Z) ["repo"] "." demo_files (mkCleanupOptions apply_mode None None None None) demo_rows Hnd)
    as (r & s' & Hrun & _ & _ & Ha). exists r, s'. split; [exact Hrun|]. destruct (Ha eq_refl) as (_ & Hu & Ho & Ht).
  destruct Ht as (H1 & H2 & H3).
  - intros x p Hx Hn. repeat (apply elem_of_cons in Hx as [->|Hx]; [vm_compute in Hn; first [discriminate Hn|injection Hn as <-; reflexivity]|]).
    apply elem_of_nil in Hx. destruct Hx.
  - assert (re_storageBefore r = classifyHistoricalChunkPaths (λ _, Some 0%Z) ["repo"] "." demo_files (mkWindow None None) demo_rows) as Hb.
    { apply (f_equal fst) in Hrun. vm_compute in Hrun. injection Hrun as <-. vm_compute. reflexivity. }
    rewrite Hb in H2, H3, Hu. repeat split; [exact H1|rewrite H2; reflexivity|rewrite H3; reflexivity|rewrite Hu; reflexivity|exact Ho].
Defined.

(** A bound that is not a date: the summary of the window is empty, the signals
    of the same window are not. *)
Example bad_bound_disagrees :
  let parse iso := if decide (iso = "T") then Some 0%Z else None in
  let window := mkWindow (Some "yesterday") None in
  ts_totalEvents (summarizeTelemetryInWindow parse (i_telemetry demo_rows) window) = 0 ∧
  collectTelemetryPathSignals parse (i_telemetry demo_rows) window = ["../x"; "../x"].
Proof. vm_compute. split; reflexivity. Qed.
