(* ===== verification/Retrieval.v ===== *)
(** * Retrieval

    [packages/retrieval/src/query]: [build-retrieval-plan.ts], [search-symbols.ts],
    [expand-graph.ts], [dependency-edge-adapter.ts], [run-retrieval.ts] and
    [build-evidence-packets.ts], the conversion of semantic results in
    [packages/retrieval/src/semantic/semantic-search.ts] and
    [packages/shared/src/utils/graph-engine-selector.ts].

    Scores are IEEE doubles.  The extraction of symbols, which rests on a parser
    that is not part of the repository, is an argument, as are [toFixed], the
    environment of the process and those of [Projects] and [Semantic].  Evidence is read
    concurrently; its telemetry is recorded here in the order of the results. *)

From S2P Require Import Prelude Json Domain Store Planner Heap Hnsw Files ScanPaths SearchTools Chunker Projects Telemetry Semantic.
From Stdlib Require Import Ascii String ZArith SpecFloat Sorted.
From stdpp Require Import prelude list strings gmap sorting.
Set Default Goal Selector "!".
Set Default Proof Using "Type".
Set Warnings "-clear-no-such-hyp".
#[local] Arguments String.append : simpl nomatch.
#[local] Open Scope nat_scope.

(** The double nearest to a decimal fraction. *)
Definition d_lit (n d : Z) : double := d_div (d_of_Z n) (d_of_Z d).

(** [a - index * b]. *)
Definition step_down (a b : double) (index : nat) : double := d_sub a (d_mul (d_of_Z (Z.of_nat index)) b).

(** [Math.max] of two numbers. *)
Definition d_max (a b : double) : double := if d_ltb a b then b else a.

Inductive EntityType : Type := et_file | et_symbol | et_chunk.

Record NormalizedRetrievalResult : Type := mkRetrieved {
  nr_entityType : EntityType;
  nr_entityId : string;
  nr_filePath : string;
  nr_symbolName : option string;
  nr_lineRange : Z * Z;
  nr_sourceTool : string;
  nr_matchReason : string;
  nr_rawScore : double;
  nr_normalizedScore : double;
  nr_metadata : json;
}.

Inductive EdgeKind : Type := e_import | e_export | e_call | e_reference | e_containment.

Record IndexedEdge : Type := mkEdge { ie_id : string; ie_fromId : string; ie_toId : string; ie_kind : EdgeKind }.

(** ** The plan *)

Inductive RetrievalMode : Type := mode_ask | mode_explain | mode_trace.

Record RetrievalPlan : Type := mkPlan {
  rp_intent : QueryIntent;
  rp_seedTerms : list string;
  rp_selectedTools : list string;
  rp_maxDepth : nat;
  rp_includeCallers : bool;
  rp_includeCallees : bool;
  rp_includeImports : bool;
  rp_contextBudget : nat;
  rp_retryPolicy : string;
  rp_costTier : string;
  rp_semanticMode : SemanticMode;
}.

#[global] Instance QueryIntent_eq_dec : EqDecision QueryIntent.
Proof. solve_decision. Defined.

(** [query.split(/\s+/)]: a run of white space separates; the empty pieces that
    the code can get are dropped by the filter on their length. *)
Fixpoint split_ws (word : string) (s : string) : list string :=
  match s with
  | EmptyString => [word]
  | String c t => if is_ws c then word :: split_ws "" t else split_ws (word +:+ String c "") t
  end.

Definition seed_terms (query : string) : list string :=
  take 8 (filter (λ t, 2 < String.length t) ((λ t, toLowerCase (trim t)) <$> split_ws "" query)).

Definition buildRetrievalPlan (query : string) (mode : RetrievalMode) (semanticMode : option SemanticMode) : RetrievalPlan :=
  let intent := match mode with mode_trace => trace_flow | _ => inferIntentFromInput query end in
  let intent_is i := bool_decide (intent = i) in
  mkPlan intent (seed_terms query) (REQUIRED_TOOLS_BY_INTENT intent)
    (if intent_is trace_flow || intent_is impact_analysis then 2 else 1) (intent_is trace_flow) (intent_is trace_flow)
    (intent_is explain_module || intent_is broad_codebase_question)
    (if intent_is trace_flow then 12 * 1000 else 8 * 1000)
    (if intent_is bug_investigation then "fallback-keyword-heavy" else "widen-if-low-confidence")
    (match semanticMode with Some always => "medium" | _ => "low" end)
    (semanticMode or_else always).

(** ** Paths of files *)

(** The repository-relative path of a file, when it has one. *)
Definition repo_path (cwd : Path) (repoRoot : string) (file : IndexedFile) : option string :=
  resolveIndexedFileAbsolutePath cwd repoRoot file ≫= toRepoRelativePath cwd repoRoot.

(** [filePathById.set]: a later file with the same id replaces an earlier one. *)
Definition buildRepoRelativeFilePathById (cwd : Path) (repoRoot : string) (files : list IndexedFile) : gmap string string :=
  foldl (λ m file, match repo_path cwd repoRoot file with Some p => <[f_id file := p]> m | None => m end) ∅ files.

Section retrieval.
Context `{Env} (toFixed3 : double → string).

(** Results, each with the next id. *)
Definition with_ids (prefix : string) (build : list (string → NormalizedRetrievalResult)) : SM (list NormalizedRetrievalResult) := λ s,
  (Ret (imap (λ i b, b (draw_id prefix (i_draws s + i))) build),
   set_counters (i_ticks s) (i_draws s + length build) (i_random s) (i_calls s) s).

(** ** Symbols *)

Definition symbol_kind_name (k : SymbolKind) : string :=
  match k with
  | k_function => "function" | k_class => "class" | k_method => "method" | k_interface => "interface" | k_type => "type"
  | k_const => "const" | k_namespace => "namespace" | k_unknown => "unknown"
  end.

Definition symbol_result (filesById : gmap string string) (tool reason : string) (raw rawStep norm normStep : double) (index : nat)
    (symbol : IndexedSymbol) (id : string) : NormalizedRetrievalResult :=
  mkRetrieved et_symbol id (filesById !! s_fileId symbol or_else "unknown") (Some (s_name symbol)) (s_lineStart symbol, s_lineEnd symbol)
    tool reason (step_down raw rawStep index) (step_down norm normStep index) (JObj [("kind", JStr (symbol_kind_name (s_kind symbol)))]).

Definition searchDefinitions (symbols : list IndexedSymbol) (filesById : gmap string string) (seedTerms : list string) :
    SM (list NormalizedRetrievalResult) :=
  let lowered := toLowerCase <$> seedTerms in
  let matches := filter (λ s, existsb (λ t, includes (toLowerCase (s_name s)) t) lowered = true) symbols in
  with_ids "result" (imap (symbol_result filesById "symbol_search" "Matched query seed term in symbol name."
    (d_lit 95 100) (d_lit 5 100) (d_lit 98 100) (d_lit 6 100)) (take 8 matches)).

Definition searchReferences (symbols : list IndexedSymbol) (filesById : gmap string string) (seedTerms : list string) :
    SM (list NormalizedRetrievalResult) :=
  let lowered := toLowerCase <$> seedTerms in
  let matches := filter (λ s, existsb (λ t, startsWith (toLowerCase (s_name s)) t) lowered = true) symbols in
  with_ids "result" (imap (symbol_result filesById "reference_search" "Matched query seed term as reference candidate."
    (d_lit 85 100) (d_lit 5 100) (d_lit 88 100) (d_lit 5 100)) (take 8 matches)).

Definition selectSymbolResults (intent : QueryIntent) (symbols : list IndexedSymbol) (filesById : gmap string string) (seedTerms : list string) :
    SM (list NormalizedRetrievalResult) :=
  if decide (intent = impact_analysis) then searchReferences symbols filesById seedTerms else searchDefinitions symbols filesById seedTerms.

(** ** Files *)

Definition file_path (filePathById : gmap string string) (file : IndexedFile) : string := filePathById !! f_id file or_else f_path file.

Definition selectResults (files : list IndexedFile) (filePathById : gmap string string) (seedTerms selectedTools : list string) :
    SM (list NormalizedRetrievalResult) :=
  let loweredTerms := toLowerCase <$> seedTerms in
  let matches := filter (λ f, existsb (λ t, includes (toLowerCase (file_path filePathById f)) t) loweredTerms = true) files in
  let sourceTool := head selectedTools or_else "keyword_search" in
  let matched := bool_decide (matches ≠ []) in
  let candidates := take 8 (if matched then matches else take 5 files) in
  with_ids "result" (imap (λ index file id,
    mkRetrieved et_file id (file_path filePathById file) None (1, 40)%Z sourceTool
      (if matched then "Matched query seed term in file path." else "Fallback seed result from indexed workspace.")
      (step_down (d_lit 1 1) (d_lit 1 10) index) (d_max (d_lit 3 10) (step_down (d_lit 95 100) (d_lit 8 100) index))
      (JObj [("language", JStr (f_language file))])) candidates).

(** ** Graph expansion *)

Definition edge_kind_name (k : EdgeKind) : string :=
  match k with e_import => "import" | e_export => "export" | e_call => "call" | e_reference => "reference" | e_containment => "containment" end.

(** The result for one edge out of a file. *)
Definition expand_edge (filesByFileId : gmap string IndexedFile) (paths : gmap string string) (symbols : list IndexedSymbol) (fromPath : string)
    (edge : IndexedEdge) : option (string → NormalizedRetrievalResult) :=
  filesByFileId !! ie_toId edge ≫= λ targetFile,
  paths !! f_id targetFile ≫= λ targetFilePath,
    if decide (targetFilePath = "") then None
    else
      let targetSymbol := List.find (λ s, String.eqb (s_fileId s) (f_id targetFile)) symbols in
      Some (λ id, mkRetrieved (match targetSymbol with Some _ => et_symbol | None => et_file end) id targetFilePath (s_name <$> targetSymbol)
        (match targetSymbol with Some s => (s_lineStart s, s_lineEnd s) | None => (1, 40)%Z end)
        "graph_expand" ("Expanded from import edge out of " +:+ fromPath +:+ ".") (d_lit 6 10) (d_lit 62 100)
        (JObj [("edgeKind", JStr (edge_kind_name (ie_kind edge)))])).

Definition expandGraph (cwd : Path) (repoRoot : string) (results : list NormalizedRetrievalResult) (files : list IndexedFile)
    (symbols : list IndexedSymbol) (edges : list IndexedEdge) : SM (list NormalizedRetrievalResult) :=
  let fileById := foldl (λ m f, <[f_id f := f]> m) (∅ : gmap string IndexedFile) files in
  let paths := buildRepoRelativeFilePathById cwd repoRoot files in
  with_ids "result" (take 5 results ≫= λ result,
    match List.find (λ f, bool_decide (paths !! f_id f = Some (nr_filePath result))) files with
    | None => []
    | Some relatedFile =>
      omap (expand_edge fileById paths symbols (nr_filePath result)) (take 2 (filter (λ e, ie_fromId e = f_id relatedFile) edges))
    end).

(** ** Semantic results *)

Record PathResolution : Type := mkPathResolution { pr_filePath : string; pr_normalized : bool; pr_unresolved : bool }.

(** [context.repoRoot] and [filePathById] are given by every caller. *)
Definition normalizeSemanticPath (cwd : Path) (repoRoot : string) (r : SemanticSearchResult) (filePathById : gmap string string) : PathResolution :=
  match (if decide (repoRoot = "") then None else normalizeToRepoRelativePath cwd repoRoot (sr_filePath r)) with
  | Some (String c t) => mkPathResolution (String c t) (negb (bool_decide (String c t = sr_filePath r))) false
  | _ =>
    match (if decide (sr_fileId r = "") then None else filePathById !! sr_fileId r) with
    | Some p => mkPathResolution p true false
    | None => mkPathResolution (sr_filePath r) false true
    end
  end.

Definition semanticResultsToNormalizedWithContext (cwd : Path) (repoRoot : string) (filePathById : gmap string string)
    (results : list SemanticSearchResult) : SM (list NormalizedRetrievalResult) :=
  with_ids "semantic" ((λ r id,
    let p := normalizeSemanticPath cwd repoRoot r filePathById in
    mkRetrieved et_chunk id (pr_filePath p) (sr_symbolId r) (sr_lineStart r, sr_lineEnd r) "semantic_search"
      ("Semantic similarity " +:+ toFixed3 (sr_similarity r) +:+ " to query.") (sr_similarity r) (sr_similarity r)
      (JObj [("chunkId", JStr (sr_chunkId r)); ("language", JStr (sr_language r)); ("semanticPathNormalized", JBool (pr_normalized p));
             ("semanticPathUnresolved", JBool (pr_unresolved p)); ("semanticOriginalFilePath", JStr (sr_filePath r))])) <$> results).
End retrieval.

(** ** Ranking *)

Definition result_key (r : NormalizedRetrievalResult) : string * option string * string :=
  (nr_filePath r, nr_symbolName r, nr_sourceTool r).

(** [array.findIndex(same key) === index]: the first result of each key. *)
Fixpoint first_of_keys {A K : Type} `{EqDecision K} (key : A → K) (seen : list K) (rs : list A) : list A :=
  match rs with
  | [] => []
  | r :: rs => if decide (key r ∈ seen) then first_of_keys key seen rs else r :: first_of_keys key (key r :: seen) rs
  end.

(** [right.score - left.score]: descending, numbers that are equal in their
    order.  The difference of two different doubles is not zero. *)
Definition score_ge {A : Type} (score : A → double) (a b : A) : bool := negb (d_ltb (score a) (score b)).

Definition rerankResults (results : list NormalizedRetrievalResult) : list NormalizedRetrievalResult :=
  take 12 (first_of_keys result_key [] (js_sort (score_ge nr_normalizedScore) results)).

(** ** Dependency edges *)

Inductive GraphAstEngine : Type := engine_rust | engine_ts | engine_compat.
Inductive SelectorSource : Type := src_default | src_environment | src_invalid_environment.

Record GraphAstEngineSelector : Type := mkSelector {
  ge_requestedValue : option string;
  ge_engine : GraphAstEngine;
  ge_source : SelectorSource;
  ge_valid : bool;
  ge_label : string;
  ge_productionBehavior : string;
  ge_rustFirst : bool;
  ge_rollbackOnly : bool;
}.

Definition GRAPH_AST_ENGINE_ENV_VAR : string := "DH_GRAPH_AST_ENGINE".

Definition resolveGraphAstEngineSelector (env : ProcessEnv) : GraphAstEngineSelector :=
  match trim <$> env !! GRAPH_AST_ENGINE_ENV_VAR with
  | None | Some EmptyString => mkSelector None engine_rust src_default true "default_rust" "rust_first" true false
  | Some requestedValue =>
    let normalized := toLowerCase requestedValue in
    if decide (normalized = "rust") then
      mkSelector (Some requestedValue) engine_rust src_environment true "explicit_rust" "rust_first" true false
    else if decide (normalized = "compat") then
      mkSelector (Some requestedValue) engine_compat src_environment true "explicit_compat_rust_first" "compat_rust_first" true true
    else if decide (normalized = "ts") then
      mkSelector (Some requestedValue) engine_ts src_environment true "explicit_ts_rollback_only" "ts_rollback_only" false true
    else mkSelector (Some requestedValue) engine_rust src_invalid_environment false "invalid_fallback_rust" "invalid_fallback_rust" true false
  end.

Definition engine_name (e : GraphAstEngine) : string :=
  match e with engine_rust => "rust" | engine_ts => "ts" | engine_compat => "compat" end.

(** The reason and the runtime behaviour. *)
Definition resolveDependencyEdgeAdapterState (selector : GraphAstEngineSelector) (allowTsRollbackRehearsal : bool) : string * string :=
  if negb (ge_valid selector) then ("invalid_graph_ast_engine_value", "invalid_selector_fallback_rust_unavailable")
  else match ge_engine selector with
  | engine_ts =>
    if allowTsRollbackRehearsal
    then ("ts_graph_engine_rollback_rehearsal_unsupported_at_retrieval_boundary", "ts_rollback_rehearsal_unsupported")
    else ("ts_graph_engine_requires_explicit_rollback_rehearsal_context", "ts_rollback_context_required")
  | engine_compat => ("rust_bridge_api_not_available_at_retrieval_boundary", "compat_rust_first_unavailable")
  | engine_rust => ("rust_bridge_api_not_available_at_retrieval_boundary", "rust_first_unavailable")
  end.

Record DependencyEdgeAdapterResult : Type := mkAdapterResult {
  de_edges : list IndexedEdge;
  de_available : bool;
  de_reason : string;
  de_source : string;
  de_runtimeBehavior : string;
  de_engineSelector : GraphAstEngineSelector;
}.

Definition loadDependencyEdgesFromRustBridge (env : ProcessEnv) (allowTsRollbackRehearsal : bool) : DependencyEdgeAdapterResult :=
  let selector := resolveGraphAstEngineSelector env in
  let '(reason, behavior) := resolveDependencyEdgeAdapterState selector allowTsRollbackRehearsal in
  mkAdapterResult [] false reason "degraded_unavailable_adapter" behavior selector.

(** ** Evidence *)

Record EvidencePacket : Type := mkPacket {
  ep_filePath : string;
  ep_symbol : option string;
  ep_lines : Z * Z;
  ep_reason : string;
  ep_score : double;
  ep_sourceTools : list string;
  ep_snippet : string;
}.

Section run.
Context `{Env} `{Random} `{SearchEnv} (toFixed3 : double → string) (sha256 : string → string) (elapsed : nat → double).
Context (locale_le : string → string → bool) (env : ProcessEnv) (cwd : Path) (fs : FileSystem).
Context (extractSymbols : string → list IndexedFile → list IndexedSymbol) (provider : EmbeddingProvider).

(** The snippet and whether the file was read. *)
Definition readSnippet (filePath : option string) : string * bool :=
  match filePath with
  | None | Some EmptyString => ("Snippet unavailable.", false)
  | Some p =>
    match fst (readFileSync (path_resolve cwd p) fs) with
    | Ret content => (String.substring 0 500 content, true)
    | Throw _ => ("Snippet unavailable.", false)
    end
  end.

Definition evidence_packet (repoRoot : string) (result : NormalizedRetrievalResult) : SM EvidencePacket :=
  let normalizedPath := truthy_string (normalizeToRepoRelativePath cwd repoRoot (nr_filePath result)) in
  let '(snippet, read_ok) := readSnippet (path_join repoRoot <$> normalizedPath) in
  (match normalizedPath, read_ok with
   | Some _, true => mret ()
   | None, _ => recordTelemetry elapsed (λ _, evidence_path_unresolved (nr_filePath result) None (nr_sourceTool result) normalization_failed)
   | Some p, false => recordTelemetry elapsed (λ _, evidence_path_unresolved (nr_filePath result) (Some p) (nr_sourceTool result) file_read_failed)
   end);;
  mret (mkPacket (normalizedPath or_else nr_filePath result) (nr_symbolName result) (nr_lineRange result) (nr_matchReason result)
          (nr_normalizedScore result) [nr_sourceTool result] snippet).

Definition buildEvidencePackets (repoRoot : string) (results : list NormalizedRetrievalResult) : SM (list EvidencePacket) :=
  packets ← fold_each (λ packets r, p ← evidence_packet repoRoot r; mret (packets ++ [p])) [] results;
  mret (js_sort (score_ge ep_score) packets).

(** ** The composition *)

Record RetrievalInput : Type := mkRetrievalInput {
  in_repoRoot : string;
  in_query : string;
  in_mode : RetrievalMode;
  in_semanticMode : option SemanticMode;
  in_scanOptions : option ScanOptions;
  in_liveEvidence : option (list NormalizedRetrievalResult);
}.

Record RetrievalRun : Type := mkRun {
  rr_plan : RetrievalPlan;
  rr_workspaces : list IndexedWorkspace;
  rr_reducedCoverage : bool;
  rr_stopReasons : list ScanStopReason;
  rr_dependencyGraph : DependencyEdgeAdapterResult;
  rr_symbols : list IndexedSymbol;
  rr_results : list NormalizedRetrievalResult;
  rr_liveEvidence : list NormalizedRetrievalResult;
  rr_evidencePackets : list EvidencePacket;
  rr_embeddingStats : option EmbedPipelineResult;
}.

Definition is_true_member (key : string) (j : json) : bool :=
  match j with JObj ms => existsb (λ m, String.eqb m.1 key && match m.2 with JBool true => true | _ => false end) ms | _ => false end.
Definition string_member (key : string) (j : json) (d : string) : string :=
  match j with
  | JObj ms => match List.find (λ m, String.eqb m.1 key) ms with Some (_, JStr s) => s | _ => d end
  | _ => d
  end.

(** The semantic path: index the files when there are no chunks yet, search, and
    report the results whose path could not be resolved.  With the default window
    sizes the chunker returns ([chunks_returned]). *)
Definition semantic_path (repoRoot query : string) (files : list IndexedFile) (symbols : list IndexedSymbol) (filePathById : gmap string string) :
    SM (list NormalizedRetrievalResult * option EmbedPipelineResult) :=
  count ← gets chunks_count;
  let chunkInputs := if (0 <? count)%nat then [] else default [] (chunkFiles cwd repoRoot files symbols None fs) in
  stats ← (if decide (chunkInputs = []) then mret None else (r ← runEmbeddingPipeline sha256 elapsed env chunkInputs provider; mret (Some r)));
  searchResults ← semanticSearch elapsed query (mkSearchOptions None None None) provider;
  semanticResults ← semanticResultsToNormalizedWithContext toFixed3 cwd repoRoot filePathById searchResults;
  for_each (λ result,
    if is_true_member "semanticPathUnresolved" (nr_metadata result) then
      recordTelemetry elapsed (λ _, semantic_path_unresolved (string_member "chunkId" (nr_metadata result) "unknown") (nr_filePath result)
        (string_member "semanticOriginalFilePath" (nr_metadata result) (nr_filePath result)))
    else mret ()) semanticResults;;
  mret (semanticResults, stats).

Definition use_semantic (mode : SemanticMode) (found : nat) : bool :=
  match mode with always => true | auto => (found <? 3)%nat | off => false end.

Definition runRetrieval (input : RetrievalInput) : SM RetrievalRun :=
  let repoRoot := in_repoRoot input in
  let plan := buildRetrievalPlan (in_query input) (in_mode input) (in_semanticMode input) in
  let workspaces := detectProjects sha256 locale_le cwd fs repoRoot (in_scanOptions input) in
  let files := workspaces ≫= w_files in
  let reducedCoverage := existsb w_partial workspaces in
  let scanStopReasons := js_dedup [] (filter (λ r, r ≠ stop_none) ((λ w, stopReason (w_diagnostics w)) <$> workspaces)) in
  let symbols := extractSymbols repoRoot files in
  let dependencyEdges := loadDependencyEdgesFromRustBridge env false in
  (if de_available dependencyEdges then mret ()
   else recordTelemetry elapsed (λ _, retrieval_dependency_graph_unavailable (mkGraphUnavailable (de_reason dependencyEdges) (de_source dependencyEdges)
          (engine_name (ge_engine (de_engineSelector dependencyEdges))) (ge_label (de_engineSelector dependencyEdges))
          (de_runtimeBehavior dependencyEdges))));;
  let filePathById := buildRepoRelativeFilePathById cwd repoRoot files in
  symbolResults ← selectSymbolResults (rp_intent plan) symbols filePathById (rp_seedTerms plan);
  fileResults ← selectResults files filePathById (rp_seedTerms plan) (rp_selectedTools plan);
  expandedResults ← (if (1 <? rp_maxDepth plan)%nat || bool_decide ("graph_expand" ∈ rp_selectedTools plan)
                     then expandGraph cwd repoRoot (if decide (symbolResults = []) then fileResults else symbolResults) files symbols
                            (de_edges dependencyEdges)
                     else mret []);
  '(semanticResults, embeddingStats) ←
    (if use_semantic (rp_semanticMode plan) (length symbolResults + length fileResults)
     then semantic_path repoRoot (in_query input) files symbols filePathById else mret ([], None));
  let liveEvidence := in_liveEvidence input or_else [] in
  let normalizedResults := rerankResults (symbolResults ++ fileResults ++ expandedResults ++ semanticResults ++ liveEvidence) in
  evidencePackets ← buildEvidencePackets repoRoot normalizedResults;
  mret (mkRun plan workspaces reducedCoverage scanStopReasons dependencyEdges symbols normalizedResults liveEvidence evidencePackets embeddingStats).
End run.

(** ** Ranking by a score *)

Section ranking.
Context {A : Type} (score : A → double).

Definition numeric (x : A) : Prop := not_nan (score x) = true.
Definition ranked (a b : A) : Prop := score_ge score a b = true.

Lemma ranked_refl x : ranked x x.
Proof. unfold ranked, score_ge. by rewrite d_ltb_irrefl. Qed.

Lemma ranked_trans x y z : numeric x → numeric y → numeric z → ranked x y → ranked y z → ranked x z.
Proof.
  unfold ranked, score_ge, numeric. rewrite !negb_true_iff. intros Hx Hy Hz Hxy Hyz. by apply (d_notlt_trans (score z) (score y) (score x)).
Qed.

Lemma ranked_total x y : numeric x → numeric y → score_ge score x y = false → ranked y x.
Proof. unfold ranked, score_ge, numeric. rewrite negb_false_iff, negb_true_iff. intros ? ? ?. by apply d_ltb_asym. Qed.

Lemma rank_insert x ys : numeric x → Forall numeric ys → StronglySorted ranked ys → StronglySorted ranked (js_insert (score_ge score) x ys).
Proof.
  intros Hx Hn. induction Hn as [|y ys Hy Hn IH]; simpl; intros Hs; [repeat constructor|].
  apply StronglySorted_inv in Hs as [Hs Hall]. destruct (score_ge score x y) eqn:Hxy.
  - constructor; [by constructor|]. constructor; [done|]. rewrite Forall_forall in Hall, Hn |- *. intros z Hz.
    apply (ranked_trans x y z); auto.
  - constructor; [by apply IH|]. rewrite js_insert_perm. constructor; [by apply ranked_total|done].
Qed.

Lemma rank_sorted xs : Forall numeric xs → StronglySorted ranked (js_sort (score_ge score) xs).
Proof.
  induction 1 as [|x xs Hx Hn IH]; simpl; [constructor|]. apply rank_insert; [done| |done]. by rewrite js_sort_perm.
Qed.
End ranking.

Section keys.
Context {A K : Type} `{EqDecision K} (key : A → K) (R : A → A → Prop).

Lemma first_of_keys_sub seen rs : first_of_keys key seen rs `sublist_of` rs.
Proof. revert seen. induction rs as [|r rs IH]; intros seen; simpl; [done|]. case_decide; by constructor. Qed.

Lemma first_of_keys_distinct seen rs : NoDup (key <$> first_of_keys key seen rs) ∧ ∀ r, r ∈ first_of_keys key seen rs → (key r ∉ seen).
Proof.
  revert seen. induction rs as [|r rs IH]; intros seen; simpl; [split; [constructor|by intros r ?%not_elem_of_nil]|].
  case_decide as Hs; [apply IH|]. destruct (IH (key r :: seen)) as [Hnd Hni]. split.
  - simpl. constructor; [|done]. intros (x & Hx & Hin)%list_elem_of_fmap. apply (Hni x Hin). rewrite <-Hx. by left.
  - intros x [->|Hin]%elem_of_cons; [done|]. intros Hk. apply (Hni x Hin). by right.
Qed.

(** The first of each key stands for the others, which come after it. *)
Lemma first_of_keys_covers seen rs : (∀ x, R x x) → StronglySorted R rs → ∀ r, r ∈ rs → (key r ∉ seen) →
  ∃ r', r' ∈ first_of_keys key seen rs ∧ key r' = key r ∧ R r' r.
Proof.
  intros Hrefl Hs. revert seen. induction Hs as [|x xs Hs IH Hx]; intros seen r; simpl; [by intros ?%not_elem_of_nil|].
  intros [->|Hr]%elem_of_cons Hk.
  - rewrite decide_False by done. exists x. split_and!; [by left|done|apply Hrefl].
  - case_decide as Hd; [by apply IH|]. destruct (decide (key r = key x)) as [Heq|Hne].
    + exists x. rewrite Forall_forall in Hx. split_and!; [by left|done|by apply Hx].
    + destruct (IH (key x :: seen) r Hr) as (r' & ? & ? & ?); [|exists r'; split_and!; [by right|done|done]].
      by intros [?|?]%elem_of_cons.
Qed.
End keys.

Lemma StronglySorted_sublist {A : Type} (R : A → A → Prop) xs ys : xs `sublist_of` ys → StronglySorted R ys → StronglySorted R xs.
Proof.
  induction 1 as [|x xs ys Hsub IH|x xs ys Hsub IH]; intros Hs; [constructor| |]; apply StronglySorted_inv in Hs as [Hs Hx]; [|by apply IH].
  constructor; [by apply IH|]. rewrite Forall_forall in Hx |- *. intros z Hz. apply Hx. by eapply elem_of_sublist.
Qed.

(** The [n] best of a list with one element for each key: nothing that scores
    better is left out. *)
Record best_of {A K : Type} (key : A → K) (score : A → double) (n : nat) (candidates out : list A) : Prop := {
  bo_from : out ⊆ candidates;
  bo_bound : length out ≤ n;
  bo_sorted : StronglySorted (ranked score) out;
  bo_keys : NoDup (key <$> out);
  bo_best : ∀ c, c ∈ candidates → (∃ r, r ∈ out ∧ key r = key c ∧ ranked score r c) ∨ length out = n ∧ ∀ r, r ∈ out → ranked score r c;
}.

Lemma best_of_keys {A K : Type} `{EqDecision K} (key : A → K) (score : A → double) n rs : Forall (numeric score) rs →
  best_of key score n rs (take n (first_of_keys key [] (js_sort (score_ge score) rs))).
Proof.
  intros Hn. set (sorted := js_sort _ rs). set (firsts := first_of_keys key [] sorted).
  pose proof (rank_sorted _ _ Hn) as Hs. fold sorted in Hs.
  assert (firsts `sublist_of` sorted) as Hsub by apply first_of_keys_sub.
  assert (StronglySorted (ranked score) firsts) as Hsf by (by eapply StronglySorted_sublist).
  assert (∀ x, x ∈ firsts → x ∈ rs) as Hin by (intros x Hx; eapply elem_of_sublist in Hx; [|done]; by apply elem_of_js_sort in Hx).
  assert (∀ x, x ∈ firsts → numeric score x) as Hnf by (intros x Hx; rewrite Forall_forall in Hn; auto).
  split.
  - intros x Hx. apply Hin. eapply elem_of_sublist; [exact Hx|apply sublist_take].
  - rewrite length_take. lia.
  - eapply StronglySorted_sublist; [apply sublist_take|done].
  - rewrite fmap_take. eapply sublist_NoDup; [|apply sublist_take]. apply first_of_keys_distinct.
  - intros c Hc. assert (numeric score c) as Hnc by (rewrite Forall_forall in Hn; by apply Hn).
    destruct (first_of_keys_covers key (ranked score) [] sorted (ranked_refl _) Hs c) as (r & Hr & Hk & Hrc); [by apply elem_of_js_sort|by intros ?%not_elem_of_nil|].
    fold firsts in Hr. pose proof Hr as Hr0. rewrite <-(take_drop n firsts) in Hr. apply elem_of_app in Hr as [Hr|Hr]; [left; eauto|]. right. split.
    + rewrite length_take. apply list_elem_of_lookup in Hr as [i Hi%lookup_lt_Some]. rewrite length_drop in Hi. lia.
    + intros x Hx. apply (ranked_trans _ x r c); [|by apply Hnf|done| |done].
      * apply Hnf. eapply elem_of_sublist; [exact Hx|apply sublist_take].
      * by apply (sorted_prefix_before (ranked score) n firsts).
Qed.

Lemma rerank_sub rs : rerankResults rs ⊆ rs.
Proof.
  intros r Hr. unfold rerankResults in Hr. eapply elem_of_sublist in Hr; [|apply sublist_take].
  eapply elem_of_sublist in Hr; [|apply first_of_keys_sub]. by apply elem_of_js_sort in Hr.
Qed.

Abbreviation best := (ranked nr_normalizedScore).

(** What reranking promises of its answer. *)
Record reranked (candidates out : list NormalizedRetrievalResult) : Prop := {
  rk_from : out ⊆ candidates;
  rk_bound : length out ≤ 12;
  rk_sorted : StronglySorted best out;
  rk_keys : NoDup (result_key <$> out);
  rk_best : ∀ c, c ∈ candidates → (∃ r, r ∈ out ∧ result_key r = result_key c ∧ best r c) ∨ length out = 12 ∧ ∀ r, r ∈ out → best r c;
}.

Lemma rerank_spec rs : Forall (numeric nr_normalizedScore) rs → reranked rs (rerankResults rs).
Proof. intros Hn. by destruct (best_of_keys result_key nr_normalizedScore 12 rs Hn). Qed.

(** ** Total runs

    From every state with [P] the operation returns, with [P] again. *)
Definition runs {A : Type} (P : SemanticStore → Prop) (m : SM A) (Q : A → Prop) : Prop :=
  ∀ s, P s → ∃ a s', m s = (Ret a, s') ∧ P s' ∧ Q a.

Lemma runs_ret {A : Type} P (a : A) (Q : A → Prop) : Q a → runs P (mret a) Q.
Proof. intros HQ s HP. by exists a, s. Qed.

Lemma runs_bind {A B : Type} P (m : SM A) (k : A → SM B) (R : A → Prop) (Q : B → Prop) :
  runs P m R → (∀ a, R a → runs P (k a) Q) → runs P (m ≫= k) Q.
Proof.
  intros Hm Hk s HP. destruct (Hm s HP) as (a & s1 & Hrun & HP1 & HR). destruct (Hk a HR s1 HP1) as (b & s2 & Hrun2 & HP2 & HQ).
  exists b, s2. split_and!; [|done|done]. by rewrite (bind_run _ _ _ _ _ Hrun).
Qed.

Lemma runs_gets {A : Type} P (f : SemanticStore → A) : runs P (gets f) (λ _, True).
Proof. intros s HP. by eexists _, _. Qed.

Lemma runs_mono {A : Type} P (m : SM A) (Q Q' : A → Prop) : runs P m Q → (∀ a, Q a → Q' a) → runs P m Q'.
Proof. intros Hm HQ s HP. destruct (Hm s HP) as (a & s' & ? & ? & ?). eauto 6. Qed.

Lemma runs_for_each {A : Type} P (f : A → SM ()) xs : (∀ x, runs P (f x) (λ _, True)) → runs P (for_each f xs) (λ _, True).
Proof. intros Hf. induction xs as [|x xs IH]; simpl; [by apply runs_ret|]. by eapply runs_bind. Qed.

(** A search of a well-formed index returns. *)
Lemma search_returns ix q k ef : index_wf ix → ∃ rows, search ix q k ef = Ret rows.
Proof.
  intros Hwf. unfold search. destruct (_ || _) eqn:He; [by eexists|]. apply orb_false_iff in He as [_ Hne%Nat.eqb_neq].
  destruct (layer0_entry_ok ix q Hwf) as [n Hn]; [by intros Hnil; rewrite Hnil in Hne|]. fold (layer0_entry ix q).
  destruct (searchLayer_shape _ q ((ef or_else c_efSearch (x_config ix)) `max` k) 0 _ n Hn) as [Hi _ _ _].
  destruct (search_rows (x_nodes ix) q (take k (searchLayer (x_nodes ix) q ((ef or_else c_efSearch (x_config ix)) `max` k) 0 (layer0_entry ix q))))
    as (rows & Hrun & _); [by apply Forall_take|]. by exists rows.
Qed.

Lemma not_nan_le x y : d_leb x y = true → not_nan y = true.
Proof. unfold d_leb, SFleb. by destruct x as [[]|[]| |[]], y as [[]|[]| |[]]. Qed.

Lemma imap_take_numeric {A : Type} (f : nat → A → string → NormalizedRetrievalResult) (P : NormalizedRetrievalResult → Prop) n xs :
  (∀ i x, i < n → ∀ id, P (f i x id)) → Forall (λ b, ∀ id, P (b id)) (imap f (take n xs)).
Proof.
  intros Hf. apply Forall_lookup. intros i b Hb. rewrite list_lookup_imap in Hb. apply fmap_Some in Hb as (x & Hx & ->).
  apply Hf. apply lookup_lt_Some in Hx. rewrite length_take in Hx. lia.
Qed.

Section run_facts.
Context `{EnvLaws} `{Random} `{SearchEnv} (toFixed3 : double → string) (sha256 : string → string) (elapsed : nat → double).
Context (locale_le : string → string → bool) (env : ProcessEnv) (cwd : Path) (fs : FileSystem).
Context (extractSymbols : string → list IndexedFile → list IndexedSymbol) (provider : EmbeddingProvider).
Context (provider_answers : answers provider).

Local Set Default Proof Using "Type*".

(** The store is consistent and the index file, when there is one, is well
    formed. *)
Definition ready (s : SemanticStore) : Prop :=
  store_wf sha256 s ∧ ∀ ix, readHnswIndexSync (pc_modelName (config provider)) s = Some ix → index_wf ix.

Lemma ready_same s s' : store_wf sha256 s' → i_hnsw s' = i_hnsw s → ready s → ready s'.
Proof. intros Hwf Heq [_ Hix]. split; [done|]. unfold readHnswIndexSync in *. by rewrite Heq. Qed.

Lemma runs_ids prefix build (Q : NormalizedRetrievalResult → Prop) : Forall (λ b, ∀ id, Q (b id)) build →
  runs ready (with_ids prefix build) (Forall Q).
Proof.
  intros HQ s Hs. eexists _, _. split; [reflexivity|]. split.
  - apply (ready_same s); [|done|exact Hs]. apply store_wf_counters; [apply Hs|lia].
  - apply Forall_lookup. intros i r Hi. rewrite list_lookup_imap in Hi. apply fmap_Some in Hi as (b & Hb & ->).
    by apply (Forall_lookup_1 _ _ _ _ HQ Hb).
Qed.

Lemma runs_telemetry ev : runs ready (recordTelemetry elapsed ev) (λ _, True).
Proof.
  intros s Hs. destruct (recordTelemetry_run sha256 elapsed ev s) as (s' & Hrun & Hwf & _ & _ & Hh & _). exists (), s'.
  split_and!; [done| |done]. eapply ready_same; [|exact Hh|exact Hs]. apply Hwf, Hs.
Qed.

Lemma runs_pipeline inputs : runs ready (runEmbeddingPipeline sha256 elapsed env inputs provider) (λ _, True).
Proof.
  intros s [Hwf _]. destruct (runEmbeddingPipeline_run sha256 elapsed env inputs provider s provider_answers Hwf)
    as (r & rows & s' & Hrun & Hwf' & _ & _ & _ & _ & (ix & Hr & Hix & _) & _). exists r, s'. split_and!; [done| |done]. split; [done|].
  intros ix'. rewrite Hr. by intros [= <-].
Qed.

Lemma runs_search query : runs ready (semanticSearch elapsed query (mkSearchOptions None None None) provider)
  (Forall (λ r, not_nan (sr_similarity r) = true)).
Proof.
  intros s Hs. assert (∃ rs s', semanticSearch elapsed query (mkSearchOptions None None None) provider s = (Ret rs, s') ∧ ready s') as (rs & s' & Hrun & Hr).
  { unfold semanticSearch. destruct (provider_answers (i_calls s) [query] (pc_modelName (config provider))) as (resp & Hresp & _).
    cbn [so_topK so_minSimilarity so_modelName nullish default]. unfold mbind at 1, M_bind at 1, call_embed.
    change (None or_else pc_modelName (config provider)) with (pc_modelName (config provider)). rewrite Hresp.
    set (m := pc_modelName (config provider)) in *. set (s1 := set_counters _ _ _ _ s).
    assert (ready s1) as Hs1 by (apply (ready_same s); [apply store_wf_counters; [apply Hs|done]|done|exact Hs]). clearbody s1.
    destruct (head (er_vectors resp)) as [[|x q]|]; [by eexists _, _|run_step|by eexists _, _].
    assert (∀ strategy results k minSim, ∃ rs s', finish_search elapsed strategy results k minSim m s1 = (Ret rs, s') ∧ ready s') as Hfin.
    { intros strategy results k minSim. destruct (runs_telemetry (λ d, semantic_search (mkSearchMetrics d strategy (length results) k minSim m)) s1 Hs1)
        as (u & s' & Hrun & Hr & _). exists results, s'. split; [|done]. unfold finish_search. by rewrite (bind_run _ _ _ _ _ Hrun). }
    assert (∀ k minSim, ∃ rs s', linear_search elapsed (x :: q) k minSim m s1 = (Ret rs, s') ∧ ready s') as Hlin.
    { intros k minSim. unfold linear_search. run_step. destruct (scan_source m s1) as [strategy rows]. case_decide; [by eexists _, _|]. apply Hfin. }
    destruct (readHnswIndexSync m s1) as [[[|n ns] en ml ni mn cfg]|] eqn:Hix; [apply Hlin| |apply Hlin].
    destruct (search_returns (mkIndex (n :: ns) en ml ni mn cfg) (x :: q) 10 None) as [rows ->]; [by apply Hs1|]. apply Hfin. }
  exists rs, s'. split_and!; [done|done|]. apply search_results in Hrun as (_ & HF & _). eapply Forall_impl; [exact HF|].
  intros r [Hle _]. by eapply not_nan_le.
Qed.

Abbreviation num := (numeric nr_normalizedScore).

Lemma runs_symbols intent symbols paths terms : runs ready (selectSymbolResults intent symbols paths terms) (Forall num).
Proof.
  unfold selectSymbolResults, searchReferences, searchDefinitions. case_decide; apply runs_ids, imap_take_numeric; intros i sym Hi id;
    unfold numeric; do 8 (destruct i as [|i]; [reflexivity|]); lia.
Qed.

Lemma runs_files files paths terms tools : runs ready (selectResults files paths terms tools) (Forall num).
Proof.
  unfold selectResults. apply runs_ids, imap_take_numeric. intros i f Hi id. unfold numeric.
  do 8 (destruct i as [|i]; [reflexivity|]); lia.
Qed.

Lemma runs_expand repoRoot results files symbols edges : runs ready (expandGraph cwd repoRoot results files symbols edges) (Forall num).
Proof.
  unfold expandGraph. apply runs_ids, Forall_forall. intros b (r & Hb & _)%list_elem_of_bind. destruct (List.find _ _); [|by apply elem_of_nil in Hb].
  apply list_elem_of_omap in Hb as (e & _ & Hb). unfold expand_edge in Hb. apply bind_Some in Hb as (f & _ & Hb).
  apply bind_Some in Hb as (p & _ & Hb). case_decide; [done|]. injection Hb as <-. intros id. reflexivity.
Qed.

Lemma runs_semantic repoRoot query files symbols paths :
  runs ready (semantic_path toFixed3 sha256 elapsed env cwd fs provider repoRoot query files symbols paths) (λ r, Forall num r.1).
Proof.
  unfold semantic_path. eapply runs_bind; [apply runs_gets|]. intros count _. set (inputs := if (0 <? count)%nat then _ else _). clearbody inputs.
  eapply runs_bind with (R := λ _, True).
  { case_decide; [by apply runs_ret|]. eapply runs_bind; [apply runs_pipeline|]. intros r _. by apply runs_ret. }
  intros stats _. eapply runs_bind; [apply runs_search|]. intros found Hf.
  eapply runs_bind with (R := Forall num).
  { apply runs_ids, Forall_fmap. eapply Forall_impl; [exact Hf|]. intros r Hr id. exact Hr. }
  intros rs Hrs. eapply runs_bind with (R := λ _, True); [|intros _ _; by apply runs_ret].
  apply runs_for_each. intros r. destruct (is_true_member _ _); [apply runs_telemetry|by apply runs_ret].
Qed.

(** *** Evidence *)

(** The packet of a result. *)
Definition packet_of (repoRoot : string) (r : NormalizedRetrievalResult) : EvidencePacket :=
  let p := truthy_string (normalizeToRepoRelativePath cwd repoRoot (nr_filePath r)) in
  mkPacket (p or_else nr_filePath r) (nr_symbolName r) (nr_lineRange r) (nr_matchReason r) (nr_normalizedScore r) [nr_sourceTool r]
    (readSnippet cwd fs (path_join repoRoot <$> p)).1.

Lemma runs_packet repoRoot r : runs ready (evidence_packet elapsed cwd fs repoRoot r) (λ p, p = packet_of repoRoot r).
Proof.
  unfold evidence_packet, packet_of. set (p := truthy_string _). destruct (readSnippet _ _ _) as [snippet ok].
  eapply runs_bind with (R := λ _, True); [|intros _ _; by apply runs_ret].
  destruct p, ok; first [by apply runs_ret|apply runs_telemetry].
Qed.

Lemma runs_packets repoRoot results : StronglySorted best results →
  runs ready (buildEvidencePackets elapsed cwd fs repoRoot results) (λ ps, ps = packet_of repoRoot <$> results).
Proof.
  intros Hs. unfold buildEvidencePackets. eapply runs_bind with (R := λ ps, ps = packet_of repoRoot <$> results).
  - assert (∀ acc, runs ready (fold_each (λ packets r, p ← evidence_packet elapsed cwd fs repoRoot r; mret (packets ++ [p])) acc results)
      (λ ps, ps = acc ++ (packet_of repoRoot <$> results))) as Hall; [|apply (Hall [])].
    clear Hs. induction results as [|r results IH]; intros acc; simpl; [apply runs_ret; by rewrite app_nil_r|].
    eapply runs_bind with (R := λ ps, ps = acc ++ [packet_of repoRoot r]).
    + eapply runs_bind; [apply runs_packet|]. intros p ->. by apply runs_ret.
    + intros ps ->. eapply runs_mono; [apply IH|]. intros ps ->. by rewrite <-app_assoc.
  - intros ps ->. apply runs_ret, js_sort_id. clear -Hs. induction Hs as [|r rs Hs IH Hr]; [constructor|]. rewrite fmap_cons. constructor; [done|].
    apply Forall_fmap. eapply Forall_impl; [exact Hr|]. done.
Qed.

(** *** The whole run *)

Definition live_of (input : RetrievalInput) : list NormalizedRetrievalResult := in_liveEvidence input or_else [].

Lemma runRetrieval_run input : Forall num (live_of input) →
  runs ready (runRetrieval toFixed3 sha256 elapsed locale_le env cwd fs extractSymbols provider input)
    (λ r, rr_plan r = buildRetrievalPlan (in_query input) (in_mode input) (in_semanticMode input) ∧
          rr_evidencePackets r = packet_of (in_repoRoot input) <$> rr_results r ∧
          ∃ candidates, live_of input ⊆ candidates ∧ reranked candidates (rr_results r)).
Proof.
  intros Hlive. unfold runRetrieval.
  eapply runs_bind with (R := λ _, True); [destruct (de_available _); [by apply runs_ret|apply runs_telemetry]|]. intros _ _.
  set (files := _ ≫= w_files). set (symbols := extractSymbols _ _). set (paths := buildRepoRelativeFilePathById _ _ _).
  eapply runs_bind; [apply runs_symbols|]. intros r1 H1'. eapply runs_bind; [apply runs_files|]. intros r2 H2'.
  eapply runs_bind with (R := Forall num).
  { destruct (_ || _); [apply runs_expand|by apply runs_ret]. }
  intros r3 H3'. eapply runs_bind with (R := λ r, Forall num r.1).
  { destruct (use_semantic _ _); [apply runs_semantic|by apply runs_ret]. }
  intros [r4 stats] H4'. simpl in H4'. fold (live_of input). set (candidates := r1 ++ r2 ++ r3 ++ r4 ++ live_of input).
  assert (reranked candidates (rerankResults candidates)) as Hrank by (apply rerank_spec; unfold candidates; by rewrite !Forall_app).
  eapply runs_bind; [apply runs_packets, Hrank|]. intros ps ->. apply runs_ret. split_and!; [done|done|]. exists candidates.
  split; [|done]. unfold candidates. intros x Hx. rewrite !elem_of_app. tauto.
Qed.
End run_facts.

(** With the default window sizes every file is chunked. *)
Lemma chunks_returned cwd repoRoot files symbols fs : is_Some (chunkFiles cwd repoRoot files symbols None fs).
Proof.
  unfold chunkFiles. apply fmap_is_Some, mapM_is_Some, Forall_forall. intros file _. unfold compose, chunkFile.
  destruct (resolveIndexedFileAbsolutePath cwd repoRoot file) as [a|]; [|by eexists].
  destruct (toRepoRelativePath cwd repoRoot a) as [p|]; [|by eexists].
  destruct (readFileSync (path_resolve cwd a) fs) as [[content|e] fs']; simpl; [|by eexists]. unfold chunkContent. destruct (filter _ symbols); [|by eexists].
  unfold chunkByWindow. set (lines := split_on _ content).
  destruct (windows_terminate (S (length lines)) file p lines DEFAULT_CHUNK_MAX_LINES DEFAULT_CHUNK_OVERLAP_LINES 0) as (chunks & Hrun & _);
    [done|done|lia|lia|]. exists chunks. exact Hrun.
Qed.

(** A retrieval returns, whatever the repository holds, when the embedding
    provider answers, the stored index is consistent and the scores of the live
    evidence are numbers.  Its results are at most 12 candidates in descending
    order of score with distinct keys of path, symbol and tool; every candidate,
    the live evidence among them, is represented by a result of its key that
    scores no lower, or displaced by 12 results that score no lower; and there is
    one evidence packet for each result, in the same order. *)
Theorem retrieval_ranked `{EnvLaws} `{Random} `{SearchEnv} toFixed3 sha256 elapsed locale_le env cwd fs extractSymbols provider input s :
  answers provider → ready sha256 provider s → Forall (numeric nr_normalizedScore) (live_of input) →
  ∃ r s', runRetrieval toFixed3 sha256 elapsed locale_le env cwd fs extractSymbols provider input s = (Ret r, s') ∧
    ready sha256 provider s' ∧ rr_evidencePackets r = packet_of cwd fs (in_repoRoot input) <$> rr_results r ∧
    ∃ candidates, live_of input ⊆ candidates ∧ reranked candidates (rr_results r).
Proof.
  intros Hp Hs Hlive. destruct (runRetrieval_run toFixed3 sha256 elapsed locale_le env cwd fs extractSymbols provider Hp input Hlive s Hs)
    as (r & s' & Hrun & Hs' & _ & Hpk & Hc). by exists r, s'.
Qed.

(** ** Examples *)

#[local] Existing Instance demo_random.
#[local] Instance demo_search : SearchEnv := {| dir_order := λ xs, xs; regexp := λ _ _, None |}.

Definition demo_repo : FileSystem :=
  <[["repo"] := Dir]> (<[["repo"; "package.json"] := File "{}"]> (<[["repo"; "session.ts"] := File "export const session = 1"]> ∅)).

Definition demo_live (path : string) (n d : Z) : NormalizedRetrievalResult :=
  mkRetrieved et_file "live" path None (1, 2)%Z "live" "live" (d_lit n d) (d_lit n d) (JObj []).

Definition demo_input : RetrievalInput :=
  mkRetrievalInput "/repo" "where is the session stored" mode_ask None None (Some [demo_live "session.ts" 1 10; demo_live "session.ts" 2 10]).

Definition demo_retrieval : SM RetrievalRun :=
  runRetrieval (λ _, "n") (λ c, c) (λ _, d_zero) (λ _ _, true) ∅ [] demo_repo (λ _ _, []) (demo_provider "m") demo_input.

Lemma retrieval_ranked_witness :
  ∃ r s', demo_retrieval empty_store = (Ret r, s') ∧ ready (λ c, c) (demo_provider "m") s' ∧
    rr_evidencePackets r = packet_of [] demo_repo "/repo" <$> rr_results r ∧
    ∃ candidates, live_of demo_input ⊆ candidates ∧ reranked candidates (rr_results r).
Proof.
  apply (retrieval_ranked (λ _, "n") (λ c, c) (λ _, d_zero) (λ _ _, true) ∅ [] demo_repo (λ _ _, []) (demo_provider "m") demo_input empty_store).
  - apply demo_answers.
  - split; [apply empty_store_wf|done].
  - repeat constructor.
Defined.

(** The session file is found by its path; of the live evidence, which has one
    key, the better is kept. *)
Example demo_results :
  match fst (demo_retrieval empty_store) with
  | Ret r => (λ x, (nr_filePath x, nr_sourceTool x, nr_normalizedScore x)) <$> rr_results r =
      [("session.ts", "keyword_search", d_lit 95 100); ("session.ts", "live", d_lit 2 10)]
  | Throw _ => False
  end.
Proof. vm_compute. reflexivity. Qed.

(** A plan that is not told a semantic mode searches semantically at the lowest
    cost tier; told the same mode, it is of the medium tier. *)
Example default_mode_cheaper query mode :
  rp_semanticMode (buildRetrievalPlan query mode None) = rp_semanticMode (buildRetrievalPlan query mode (Some always)) ∧
  rp_costTier (buildRetrievalPlan query mode None) = "low" ∧ rp_costTier (buildRetrievalPlan query mode (Some always)) = "medium".
Proof. done. Qed.
