(* ===== verification/VerifyCommands.v ===== *)
(** * Detecting verification commands

    [packages/intelligence/src/workspace/detect-verification-commands.ts]: the
    commands a repository offers for type checks, builds, lints and tests are
    derived from its manifests.  [JSON.parse] is a parameter. *)

From S2P Require Import Prelude Json Files.
From Stdlib Require Import Ascii String Sorted.
From stdpp Require Import prelude list strings gmap sorting.
Set Default Goal Selector "!".
Set Default Proof Using "Type".
Set Warnings "-clear-no-such-hyp".
#[local] Arguments String.append : simpl nomatch.

Inductive VerificationCommandKind : Type := vk_typecheck | vk_build | vk_lint | vk_test.

#[global] Instance VerificationCommandKind_eq_dec : EqDecision VerificationCommandKind.
Proof. solve_decision. Defined.

Record VerificationCommand : Type := mkCommand {
  vc_id : string;
  vc_kind : VerificationCommandKind;
  vc_command : string;
  vc_source : string;
  vc_timeoutMs : N;
}.

Definition KIND_ORDER (k : VerificationCommandKind) : nat :=
  match k with vk_typecheck => 0 | vk_build => 1 | vk_lint => 2 | vk_test => 3 end.

Definition TIMEOUT_BY_KIND (k : VerificationCommandKind) : N :=
  match k with vk_typecheck => 120000 | vk_build => 180000 | vk_lint => 120000 | vk_test => 300000 end%N.

Definition MAX_COMMANDS : nat := 6.

Inductive NodePackageManager : Type := npm | pnpm | yarn | bun.

Definition kind_name (k : VerificationCommandKind) : string :=
  match k with vk_typecheck => "typecheck" | vk_build => "build" | vk_lint => "lint" | vk_test => "test" end.

Definition pm_name (pm : NodePackageManager) : string :=
  match pm with npm => "npm" | pnpm => "pnpm" | yarn => "yarn" | bun => "bun" end.

Definition nodeScriptCommand (pm : NodePackageManager) (script : string) : string :=
  if decide (script = "test") then pm_name pm +:+ " test"
  else match pm with
       | npm => "npm run " +:+ script
       | _ => pm_name pm +:+ " run " +:+ script
       end.

Definition scriptKindCandidates : list (string * VerificationCommandKind) :=
  [("typecheck", vk_typecheck); ("type-check", vk_typecheck); ("check", vk_typecheck); ("tsc", vk_typecheck);
   ("build", vk_build); ("lint", vk_lint); ("test", vk_test)].

(** The loop over the candidates, which carries the set of kinds seen. *)
Fixpoint script_commands (pm : NodePackageManager) (scripts : json) (seen : list VerificationCommandKind)
    (candidates : list (string * VerificationCommandKind)) : list VerificationCommand :=
  match candidates with
  | [] => []
  | (script, kind) :: rest =>
    if decide (kind ∈ seen) then script_commands pm scripts seen rest
    else match json_get script scripts with
         | Some (JStr _) =>
           mkCommand ("node:" +:+ kind_name kind) kind (nodeScriptCommand pm script) ("package.json#scripts." +:+ script)
             (TIMEOUT_BY_KIND kind) :: script_commands pm scripts (kind :: seen) rest
         | _ => script_commands pm scripts seen rest
         end
  end.

Lemma script_commands_spec pm scripts seen candidates c : c ∈ script_commands pm scripts seen candidates →
  ∃ script body, json_get script scripts = Some (JStr body) ∧ (script, vc_kind c) ∈ candidates ∧ (vc_kind c ∉ seen) ∧
    vc_source c = "package.json#scripts." +:+ script ∧ vc_command c = nodeScriptCommand pm script.
Proof.
  revert seen. induction candidates as [|[script kind] rest IH]; intros seen; cbn [script_commands]; [by intros ?%elem_of_nil|].
  assert (∀ seen', c ∈ script_commands pm scripts seen' rest → (∀ k, k ∈ seen → k ∈ seen') → ∃ script' body,
    json_get script' scripts = Some (JStr body) ∧ (script', vc_kind c) ∈ (script, kind) :: rest ∧ (vc_kind c ∉ seen) ∧
    vc_source c = "package.json#scripts." +:+ script' ∧ vc_command c = nodeScriptCommand pm script') as Hrest.
  { intros seen' (s' & b & H1 & H2 & H3 & H4)%IH Hsub. exists s', b. split_and!; [done|by right|naive_solver|apply H4|apply H4]. }
  case_decide as Hk; [intros Hc; by apply (Hrest seen)|].
  destruct (json_get script scripts) as [[| | |body| |]|] eqn:Hs; try (intros Hc; by apply (Hrest seen)).
  intros [->|Hc]%elem_of_cons; [|apply (Hrest (kind :: seen)); [done|by right]]. exists script, body. split_and!; [done|by left|done..].
Qed.

Lemma script_commands_kinds pm scripts seen candidates :
  NoDup (vc_kind <$> script_commands pm scripts seen candidates).
Proof.
  revert seen. induction candidates as [|[script kind] rest IH]; intros seen; cbn [script_commands]; [constructor|].
  case_decide; [apply IH|]. destruct (json_get script scripts) as [[]|]; try apply IH.
  rewrite fmap_cons. apply NoDup_cons. split; [|apply IH]. cbn [vc_kind].
  intros (c & -> & (_ & _ & _ & _ & Hseen & _)%script_commands_spec)%list_elem_of_fmap. apply Hseen. by left.
Qed.
(** [!value] of a parsed document. *)
Definition falsy (v : json) : bool :=
  match v with
  | JNull | JBool false | JStr EmptyString => true
  | JNum l => bool_decide (l = "0" ∨ l = "-0")
  | _ => false
  end.

Definition is_object (v : json) : bool := match v with JObj _ => true | _ => false end.

Section detect.
Context (parse : string → option json) (repoRoot : Path) (fs : FileSystem).

Definition fileExists (name : string) : bool :=
  match fs !! (repoRoot ++ [name]) with Some (File _) => true | _ => false end.

Definition directoryExists (name : string) : bool := is_dir fs (repoRoot ++ [name]).

Definition readTextFile (name : string) : option string :=
  match fst (readFileSync (repoRoot ++ [name]) fs) with Ret t => Some t | Throw _ => None end.

Definition readJsonFile (name : string) : option json := readTextFile name ≫= parse.

Definition detectNodePackageManager : NodePackageManager :=
  if fileExists "pnpm-lock.yaml" then pnpm
  else if fileExists "yarn.lock" then yarn
  else if fileExists "bun.lockb" then bun
  else npm.

Definition detectNodeCommands : list VerificationCommand :=
  match readJsonFile "package.json" with
  | None => []
  | Some pkg =>
    if falsy pkg then []
    else
      let scripts := match json_get "scripts" pkg with
                     | Some v => if is_object v then v else JObj []
                     | None => JObj []
                     end in
      script_commands detectNodePackageManager scripts [] scriptKindCandidates
  end.

Definition detectRustCommands : list VerificationCommand :=
  if fileExists "Cargo.toml" then
    [mkCommand "rust:typecheck" vk_typecheck "cargo check" "Cargo.toml" (TIMEOUT_BY_KIND vk_typecheck);
     mkCommand "rust:test" vk_test "cargo test" "Cargo.toml" (TIMEOUT_BY_KIND vk_test)]
  else [].

Definition detectGoCommands : list VerificationCommand :=
  if fileExists "go.mod" then
    [mkCommand "go:build" vk_build "go build ./..." "go.mod" (TIMEOUT_BY_KIND vk_build);
     mkCommand "go:test" vk_test "go test ./..." "go.mod" (TIMEOUT_BY_KIND vk_test)]
  else [].

Definition mentions_pytest (name : string) : bool :=
  match readTextFile name with
  | Some text => includes (toLowerCase text) "pytest"
  | None => false
  end.

Definition hasPytestSignal (hasPyproject hasRequirements : bool) : option string :=
  if fileExists "pytest.ini" then Some "pytest.ini"
  else if directoryExists "tests" then Some "tests/"
  else if hasPyproject && mentions_pytest "pyproject.toml" then Some "pyproject.toml#pytest"
  else if hasRequirements && mentions_pytest "requirements.txt" then Some "requirements.txt#pytest"
  else None.

Definition detectPythonCommands : list VerificationCommand :=
  let hasPyproject := fileExists "pyproject.toml" in
  let hasSetup := fileExists "setup.py" in
  let hasRequirements := fileExists "requirements.txt" in
  if negb hasPyproject && negb hasSetup && negb hasRequirements then []
  else match hasPytestSignal hasPyproject hasRequirements with
       | None => []
       | Some signal => [mkCommand "python:test" vk_test "python -m pytest" signal (TIMEOUT_BY_KIND vk_test)]
       end.

Definition detectVerificationCommands : list VerificationCommand :=
  let commands := detectNodeCommands ++ detectRustCommands ++ detectGoCommands ++ detectPythonCommands in
  take MAX_COMMANDS (js_sort (λ a b, KIND_ORDER (vc_kind a) <=? KIND_ORDER (vc_kind b)) commands).

(** ** Every command is backed by a manifest *)

(** What a command needs in the repository. *)
Definition backed (c : VerificationCommand) : Prop :=
  (∃ pkg text script body, readTextFile "package.json" = Some text ∧ parse text = Some pkg ∧
     json_get "scripts" pkg ≫= json_get script = Some (JStr body) ∧ (script, vc_kind c) ∈ scriptKindCandidates ∧
     vc_source c = "package.json#scripts." +:+ script ∧ vc_command c = nodeScriptCommand detectNodePackageManager script) ∨
  (vc_source c = "Cargo.toml" ∧ fileExists "Cargo.toml" = true) ∨
  (vc_source c = "go.mod" ∧ fileExists "go.mod" = true) ∨
  ((fileExists "pyproject.toml" || fileExists "setup.py" || fileExists "requirements.txt") = true ∧ vc_command c = "python -m pytest" ∧
   (vc_source c = "pytest.ini" ∧ fileExists "pytest.ini" = true ∨ vc_source c = "tests/" ∧ directoryExists "tests" = true ∨
    vc_source c = "pyproject.toml#pytest" ∧ mentions_pytest "pyproject.toml" = true ∨
    vc_source c = "requirements.txt#pytest" ∧ mentions_pytest "requirements.txt" = true)).

Lemma node_backed c : c ∈ detectNodeCommands → backed c.
Proof.
  unfold detectNodeCommands, readJsonFile. destruct (readTextFile "package.json") as [text|] eqn:Ht; [|by intros ?%elem_of_nil].
  change (Some text ≫= parse) with (parse text). destruct (parse text) as [pkg|] eqn:Hp; [|by intros ?%elem_of_nil]. destruct (falsy pkg); [by intros ?%elem_of_nil|].
  intros (script & body & Hs & Hk & _ & Hsrc & Hcmd)%script_commands_spec. left. exists pkg, text, script, body.
  split_and!; [done|done| |done..]. by destruct (json_get "scripts" pkg) as [[]|].
Qed.

Lemma python_backed c : c ∈ detectPythonCommands → backed c.
Proof.
  unfold detectPythonCommands, hasPytestSignal, backed. intros Hc. right; right; right.
  destruct (fileExists "pyproject.toml"), (fileExists "setup.py"), (fileExists "requirements.txt"); simpl in Hc;
    try (by apply elem_of_nil in Hc); (split; [done|]);
    repeat match type of Hc with context [if ?b then _ else _] => destruct b eqn:? end;
    try (by apply elem_of_nil in Hc); apply list_elem_of_singleton in Hc as ->; simpl; tauto.
Qed.

Lemma all_backed c : c ∈ detectNodeCommands ++ detectRustCommands ++ detectGoCommands ++ detectPythonCommands → backed c.
Proof.
  rewrite !elem_of_app. intros [Hc|[Hc|[Hc|Hc]]]; [by apply node_backed| | |by apply python_backed].
  - unfold detectRustCommands in Hc. destruct (fileExists "Cargo.toml") eqn:E; [|by apply elem_of_nil in Hc]. right; left.
    apply elem_of_cons in Hc as [->|Hc]; [done|]. by apply list_elem_of_singleton in Hc as ->.
  - unfold detectGoCommands in Hc. destruct (fileExists "go.mod") eqn:E; [|by apply elem_of_nil in Hc]. right; right; left.
    apply elem_of_cons in Hc as [->|Hc]; [done|]. by apply list_elem_of_singleton in Hc as ->.
Qed.

(** The verification commands: each is backed by a manifest, a script or a
    test set-up that exists; there are at most six, ordered type checks, builds,
    lints, tests; and a command of the repository is left out only when six
    others of no later kind are listed. *)
Theorem verification_commands_backed :
  let all := detectNodeCommands ++ detectRustCommands ++ detectGoCommands ++ detectPythonCommands in
  let le := λ a b, KIND_ORDER (vc_kind a) ≤ KIND_ORDER (vc_kind b) in
  ∃ left_out,
    detectVerificationCommands ++ left_out ≡ₚ all ∧ Forall backed detectVerificationCommands ∧
    length detectVerificationCommands ≤ MAX_COMMANDS ∧ StronglySorted le detectVerificationCommands ∧
    (left_out ≠ [] → length detectVerificationCommands = MAX_COMMANDS) ∧
    ∀ c d, c ∈ detectVerificationCommands → d ∈ left_out → le c d.
Proof.
  intros all le. unfold detectVerificationCommands. fold all.
  set (kle := λ a b, KIND_ORDER (vc_kind a) <=? KIND_ORDER (vc_kind b)). set (sorted := js_sort kle all).
  assert (StronglySorted le sorted) as Hsorted.
  { assert (StronglySorted (λ a b, kle a b = true) sorted) as Hb.
    { apply js_sort_sorted; unfold kle; [intros a b|intros a b c]; rewrite !Nat.leb_le; [|lia].
      destruct (Nat.leb_spec (KIND_ORDER (vc_kind a)) (KIND_ORDER (vc_kind b))); intros; lia || done. }
    clear -Hb. induction Hb as [|x l Hl IH Hx]; constructor; [done|]. eapply Forall_impl; [exact Hx|]. intros y. apply Nat.leb_le. }
  rewrite <-(take_drop MAX_COMMANDS sorted) in Hsorted. exists (drop MAX_COMMANDS sorted).
  assert (take MAX_COMMANDS sorted ++ drop MAX_COMMANDS sorted ≡ₚ all) as Hperm by (rewrite take_drop; apply js_sort_perm).
  split_and!; [done| |rewrite length_take; lia| | |].
  - apply Forall_forall. intros c Hc. apply all_backed. fold all. rewrite <-Hperm. by apply elem_of_app; left.
  - by apply StronglySorted_app_1_l in Hsorted.
  - intros Hne. rewrite length_take. destruct (decide (length sorted ≤ MAX_COMMANDS)); [|lia]. by rewrite drop_ge in Hne.
  - intros c d Hc Hd. by eapply StronglySorted_app_1_elem_of.
Qed.
End detect.

(** With more than six commands the tests go first: here the Rust, Go and Python
    tests of the repository are not run. *)
Example tests_left_out :
  vc_id <$> detectVerificationCommands
    (λ _, Some (JObj [("scripts", JObj [("check", JStr "tsc"); ("build", JStr "b"); ("lint", JStr "l"); ("test", JStr "t")])]))
    [] (list_to_map [(["package.json"], File ""); (["Cargo.toml"], File ""); (["go.mod"], File ""); (["setup.py"], File ""); (["tests"], Dir)])
  = ["node:typecheck"; "rust:typecheck"; "node:build"; "go:build"; "node:lint"; "node:test"].
Proof. vm_compute. reflexivity. Qed.
