(* ===== verification/Tui.v ===== *)
(** * The terminal interface

    [apps/tui/src]: the state and its reducer ([state.ts]), the operations of the
    application ([app.ts]) and the screen ([render.ts]).

    Payloads are JSON objects.  The client that talks to the server is a record
    of its answers; the application's state changes only by the reducer, so an
    interleaving of operations is a sequence of actions. *)

From S2P Require Import Prelude Json Files.
From Stdlib Require Import Ascii String.
From stdpp Require Import prelude list strings pretty.
Set Default Goal Selector "!".
Set Default Proof Using "Type".
Set Warnings "-clear-no-such-hyp".
#[local] Arguments String.append : simpl nomatch.

(** ** Types *)

Inductive TuiStatus : Type := attaching | connected | running | read_only.

#[global] Instance TuiStatus_eq_dec : EqDecision TuiStatus.
Proof. solve_decision. Defined.

Record TuiSessionSummary : Type := mkSession {
  ts_id : string; ts_title : option string; ts_status : option string; ts_stage : option string; ts_updatedAt : option string;
}.
Record TuiModelOption : Type := mkModel { tm_id : string; tm_name : string; tm_providerId : string; tm_modelId : string }.
Record TuiAgentOption : Type := mkAgent { ta_id : string; ta_displayName : string; ta_role : string; ta_permission : string }.
Record TuiContextItem : Type := mkItem { ci_path : string; ci_label : string; ci_reason : string; ci_byteLength : option nat }.

Inductive TranscriptRole : Type := role_assistant | role_user | role_system.

#[global] Instance TranscriptRole_eq_dec : EqDecision TranscriptRole.
Proof. solve_decision. Defined.

Record TuiTranscriptItem : Type := mkTranscript { tr_role : TranscriptRole; tr_sessionId : option string; tr_text : string }.
Record TuiPermissionPrompt : Type := mkPrompt { pp_sessionId : string; pp_tool : string; pp_reason : option string }.

Inductive RunEventType : Type :=
| session_created | message_started | text_delta | tool_started | tool_delta | tool_finished | permission_requested
| message_finished | session_finished | runtime_degraded.

#[global] Instance RunEventType_eq_dec : EqDecision RunEventType.
Proof. solve_decision. Defined.

Definition run_event_name (t : RunEventType) : string :=
  match t with
  | session_created => "session.created"
  | message_started => "message.started"
  | text_delta => "text.delta"
  | tool_started => "tool.started"
  | tool_delta => "tool.delta"
  | tool_finished => "tool.finished"
  | permission_requested => "permission.requested"
  | message_finished => "message.finished"
  | session_finished => "session.finished"
  | runtime_degraded => "runtime.degraded"
  end.

Inductive TuiEventLogItemType : Type :=
| log_run (t : RunEventType) | agent_selected | model_selected | session_selected | session_forked | session_deleted.

Record TuiEventLogItem : Type := mkLog { el_type : TuiEventLogItemType; el_sessionId : string; el_label : string }.

Record RunEvent : Type := mkRunEvent {
  re_type : RunEventType; re_sessionId : string; re_sequence : nat; re_timestamp : string; re_payload : json;
}.

(** The fields of the report that the interface reads. *)
Record RunDirectReport : Type := mkReport {
  rr_sessionId : string; rr_model : string; rr_agentId : string; rr_title : option string; rr_text : string;
  rr_events : list RunEvent; rr_files : list (string * nat); rr_finalStatus : string; rr_degradedReason : option string;
}.

Record ContextLedgerEntry : Type := mkLedgerEntry { le_filePath : string; le_lineRange : nat * nat; le_reason : string }.
Record ContextInspectReport : Type := mkContextReport { cr_entries : list ContextLedgerEntry; cr_warnings : list string }.

Record TuiState : Type := mkTui {
  serverUrl : string;
  status : TuiStatus;
  sessions : list TuiSessionSummary;
  currentSessionId : option string;
  models : list TuiModelOption;
  agents : list TuiAgentOption;
  transcript : list TuiTranscriptItem;
  eventLog : list TuiEventLogItem;
  contextItems : list TuiContextItem;
  contextWarnings : list string;
  prompt : string;
  model : string;
  agentId : string;
  finalStatus : option string;
  runtimeDegradedReason : option string;
  permissionPrompt : option TuiPermissionPrompt;
  readOnlyReason : option string;
}.

Inductive PermissionDecision : Type := allow | deny.

Inductive TuiAction : Type :=
| server_connected
| server_failed (reason : string)
| sessions_loaded (sessions : list TuiSessionSummary)
| select_session (sessionId : string)
| session_next
| fork_session (sourceSessionId sessionId : string) (title : option string)
| delete_session (sessionId : string)
| models_loaded (models : list TuiModelOption)
| agents_loaded (agents : list TuiAgentOption)
| context_planned (report : ContextInspectReport)
| context_failed (reason : string)
| prompt_changed (value : string)
| select_model (model : string)
| select_agent (agentId : string)
| run_started (message : string)
| run_event (event : RunEvent)
| permission_responded (decision : PermissionDecision) (reason : option string)
| run_reported (report : RunDirectReport).

Definition createInitialTuiState (serverUrl : string) : TuiState :=
  mkTui serverUrl attaching [] None [] [] [] [] [] [] "" "default" "general" None None None None.

(** ** Record updates *)

Definition set_status (v : TuiStatus) (s : TuiState) : TuiState :=
  mkTui (serverUrl s) v (sessions s) (currentSessionId s) (models s) (agents s) (transcript s) (eventLog s) (contextItems s)
    (contextWarnings s) (prompt s) (model s) (agentId s) (finalStatus s) (runtimeDegradedReason s) (permissionPrompt s) (readOnlyReason s).
Definition set_sessions (v : list TuiSessionSummary) (c : option string) (s : TuiState) : TuiState :=
  mkTui (serverUrl s) (status s) v c (models s) (agents s) (transcript s) (eventLog s) (contextItems s)
    (contextWarnings s) (prompt s) (model s) (agentId s) (finalStatus s) (runtimeDegradedReason s) (permissionPrompt s) (readOnlyReason s).
Definition set_options (m : list TuiModelOption) (a : list TuiAgentOption) (s : TuiState) : TuiState :=
  mkTui (serverUrl s) (status s) (sessions s) (currentSessionId s) m a (transcript s) (eventLog s) (contextItems s)
    (contextWarnings s) (prompt s) (model s) (agentId s) (finalStatus s) (runtimeDegradedReason s) (permissionPrompt s) (readOnlyReason s).
Definition set_transcript (v : list TuiTranscriptItem) (s : TuiState) : TuiState :=
  mkTui (serverUrl s) (status s) (sessions s) (currentSessionId s) (models s) (agents s) v (eventLog s) (contextItems s)
    (contextWarnings s) (prompt s) (model s) (agentId s) (finalStatus s) (runtimeDegradedReason s) (permissionPrompt s) (readOnlyReason s).
Definition set_eventLog (v : list TuiEventLogItem) (s : TuiState) : TuiState :=
  mkTui (serverUrl s) (status s) (sessions s) (currentSessionId s) (models s) (agents s) (transcript s) v (contextItems s)
    (contextWarnings s) (prompt s) (model s) (agentId s) (finalStatus s) (runtimeDegradedReason s) (permissionPrompt s) (readOnlyReason s).
Definition set_context (i : list TuiContextItem) (w : list string) (s : TuiState) : TuiState :=
  mkTui (serverUrl s) (status s) (sessions s) (currentSessionId s) (models s) (agents s) (transcript s) (eventLog s) i
    w (prompt s) (model s) (agentId s) (finalStatus s) (runtimeDegradedReason s) (permissionPrompt s) (readOnlyReason s).
Definition set_prompt (v : string) (s : TuiState) : TuiState :=
  mkTui (serverUrl s) (status s) (sessions s) (currentSessionId s) (models s) (agents s) (transcript s) (eventLog s) (contextItems s)
    (contextWarnings s) v (model s) (agentId s) (finalStatus s) (runtimeDegradedReason s) (permissionPrompt s) (readOnlyReason s).
Definition set_choice (m a : string) (s : TuiState) : TuiState :=
  mkTui (serverUrl s) (status s) (sessions s) (currentSessionId s) (models s) (agents s) (transcript s) (eventLog s) (contextItems s)
    (contextWarnings s) (prompt s) m a (finalStatus s) (runtimeDegradedReason s) (permissionPrompt s) (readOnlyReason s).
Definition set_outcome (f d : option string) (s : TuiState) : TuiState :=
  mkTui (serverUrl s) (status s) (sessions s) (currentSessionId s) (models s) (agents s) (transcript s) (eventLog s) (contextItems s)
    (contextWarnings s) (prompt s) (model s) (agentId s) f d (permissionPrompt s) (readOnlyReason s).
Definition set_permission (v : option TuiPermissionPrompt) (s : TuiState) : TuiState :=
  mkTui (serverUrl s) (status s) (sessions s) (currentSessionId s) (models s) (agents s) (transcript s) (eventLog s) (contextItems s)
    (contextWarnings s) (prompt s) (model s) (agentId s) (finalStatus s) (runtimeDegradedReason s) v (readOnlyReason s).
Definition set_readOnly (v : option string) (s : TuiState) : TuiState :=
  mkTui (serverUrl s) (status s) (sessions s) (currentSessionId s) (models s) (agents s) (transcript s) (eventLog s) (contextItems s)
    (contextWarnings s) (prompt s) (model s) (agentId s) (finalStatus s) (runtimeDegradedReason s) (permissionPrompt s) v.

Definition log (item : TuiEventLogItem) (s : TuiState) : TuiState := set_eventLog (eventLog s ++ [item]) s.

(** ** Helpers of the reducer *)

Definition stringPayload (value : option json) : option string :=
  match value with
  | Some (JStr s) => if decide (s = "") then None else Some s
  | _ => None
  end.

Definition toolPayload (payload : json) : option string :=
  match stringPayload (json_get "tool" payload) with
  | Some t => Some t
  | None => stringPayload (json_get "toolName" payload)
  end.

Definition json_string (v : json) : option string := match v with JStr s => Some s | _ => None end.

(** The literal of a number is its decimal text. *)
Definition diffSummaryLabel (metadata : option json) : option string :=
  match metadata ≫= json_get "diffSummary" with
  | Some diffSummary =>
    match json_get "filesChanged" diffSummary, json_get "additions" diffSummary, json_get "deletions" diffSummary, json_get "paths" diffSummary with
    | Some (JNum filesChanged), Some (JNum additions), Some (JNum deletions), Some (JArr values) =>
      let paths := omap json_string values in
      let fileWord := if decide (filesChanged = "1") then "file changed" else "files changed" in
      let pathList := if decide (paths = []) then "" else " (" +:+ Prelude.join ", " (take 3 paths) +:+ ")" in
      Some ("diff: " +:+ filesChanged +:+ " " +:+ fileWord +:+ ", +" +:+ additions +:+ " -" +:+ deletions +:+ pathList)
    | _, _, _, _ => None
    end
  | None => None
  end.

(** The text after a prefix, or nothing. *)
Definition suffix_of (sep : string) (o : option string) : string := match o with Some s => sep +:+ s | None => "" end.

Definition eventLabel (event : RunEvent) : string :=
  let path := stringPayload (json_get "path" (re_payload event)) in
  let diff := diffSummaryLabel (json_get "metadata" (re_payload event)) in
  match toolPayload (re_payload event) with
  | Some tool => run_event_name (re_type event) +:+ ": " +:+ (tool +:+ suffix_of " " path) +:+ suffix_of " " diff
  | None => run_event_name (re_type event)
  end.

Definition toEventLogItem (event : RunEvent) : TuiEventLogItem :=
  mkLog (log_run (re_type event)) (re_sessionId event) (eventLabel event).

Definition has_session (sid : string) (ss : list TuiSessionSummary) : bool := existsb (λ s, bool_decide (ts_id s = sid)) ss.

(** [{ ...entry, ...session }]: a member that [session] has wins. *)
Definition merge_session (entry session : TuiSessionSummary) : TuiSessionSummary :=
  let pick {A : Type} (new old : option A) := match new with Some _ => new | None => old end in
  mkSession (ts_id session) (pick (ts_title session) (ts_title entry)) (pick (ts_status session) (ts_status entry))
    (pick (ts_stage session) (ts_stage entry)) (pick (ts_updatedAt session) (ts_updatedAt entry)).

Definition upsertSession (ss : list TuiSessionSummary) (session : TuiSessionSummary) : list TuiSessionSummary :=
  if has_session (ts_id session) ss
  then (λ entry, if decide (ts_id entry = ts_id session) then merge_session entry session else entry) <$> ss
  else session :: ss.

Definition named_session (sid title : string) : TuiSessionSummary := mkSession sid (Some title) None None None.

Definition toContextItemFromFile (file : string * nat) : TuiContextItem :=
  mkItem file.1 (file.1 +:+ " (" +:+ pretty file.2 +:+ " bytes)") "attached file" (Some file.2).

Definition toContextItemFromLedger (entry : ContextLedgerEntry) : TuiContextItem :=
  mkItem (le_filePath entry)
    (le_filePath entry +:+ ":" +:+ pretty (le_lineRange entry).1 +:+ "-" +:+ pretty (le_lineRange entry).2) (le_reason entry) None.

Definition upsertContextItem (items : list TuiContextItem) (item : TuiContextItem) : list TuiContextItem :=
  if existsb (λ e, bool_decide (ci_path e = ci_path item)) items
  then (λ e, if decide (ci_path e = ci_path item)
             then mkItem (ci_path item) (ci_label item) (ci_reason item)
                    (match ci_byteLength item with Some b => Some b | None => ci_byteLength e end)
             else e) <$> items
  else items ++ [item].

Definition isPermissionEvent (event : RunEvent) : bool := bool_decide (re_type event = permission_requested).

Definition permission_of (event : RunEvent) : TuiPermissionPrompt :=
  mkPrompt (re_sessionId event) (toolPayload (re_payload event) or_else "unknown") (stringPayload (json_get "reason" (re_payload event))).

Definition findPermissionPrompt (report : RunDirectReport) : option TuiPermissionPrompt :=
  permission_of <$> List.find isPermissionEvent (rev (rr_events report)).

Definition appendAssistantDelta (items : list TuiTranscriptItem) (sessionId delta : string) : list TuiTranscriptItem :=
  match last items with
  | Some l =>
    if decide (tr_role l = role_assistant ∧ tr_sessionId l = Some sessionId)
    then removelast items ++ [mkTranscript (tr_role l) (tr_sessionId l) (tr_text l +:+ delta)]
    else items ++ [mkTranscript role_assistant (Some sessionId) delta]
  | None => items ++ [mkTranscript role_assistant (Some sessionId) delta]
  end.

(** ** The reducer *)

Definition selectSession (s : TuiState) (sessionId : string) : TuiState :=
  if has_session sessionId (sessions s)
  then log (mkLog session_selected sessionId ("session.selected: " +:+ sessionId)) (set_sessions (sessions s) (Some sessionId) s)
  else s.

(** [(findIndex(...) + 1) % length], then [?? xs[0]]. *)
Definition next_of {A : Type} (is_current : A → bool) (xs : list A) : option A :=
  let next := match list_find (λ x, is_current x = true) xs with Some (i, _) => S i | None => 0 end in
  match xs !! (next mod length xs) with Some x => Some x | None => head xs end.

Definition selectNextSession (s : TuiState) : TuiState :=
  match next_of (λ x, bool_decide (Some (ts_id x) = currentSessionId s)) (sessions s) with
  | Some next => selectSession s (ts_id next)
  | None => s
  end.

Definition forkSession (s : TuiState) (sourceSessionId sessionId : string) (title : option string) : TuiState :=
  log (mkLog session_forked sessionId ("session.forked: " +:+ sourceSessionId +:+ " -> " +:+ sessionId))
    (set_sessions (upsertSession (sessions s) (named_session sessionId (title or_else ("Fork of " +:+ sourceSessionId)))) (Some sessionId) s).

Definition deleteSession (s : TuiState) (sessionId : string) : TuiState :=
  let rest := filter (λ x, ts_id x ≠ sessionId) (sessions s) in
  log (mkLog session_deleted sessionId ("session.deleted: " +:+ sessionId))
    (set_sessions rest (if decide (currentSessionId s = Some sessionId) then ts_id <$> head rest else currentSessionId s) s).

Definition truthy_text (o : option string) : option string := match o with Some "" => None | _ => o end.

Definition applyPermissionResponse (s : TuiState) (decision : PermissionDecision) (reason : option string) : TuiState :=
  match permissionPrompt s with
  | None => s
  | Some p =>
    let verb := match decision with allow => "approved" | deny => "denied" end in
    log (mkLog (log_run permission_requested) (pp_sessionId p) ("permission." +:+ verb +:+ ": " +:+ pp_tool p +:+ suffix_of " " (truthy_text reason)))
      (set_permission None s)
  end.

Definition is_finished (t : RunEventType) : bool := bool_decide (t = message_finished ∨ t = session_finished).

Definition event_base (s : TuiState) (event : RunEvent) : TuiState :=
  let finished := is_finished (re_type event) in
  let final := match stringPayload (json_get "finalStatus" (re_payload event)) with Some f => Some f | None => finalStatus s end in
  let degraded := match stringPayload (json_get "reason" (re_payload event)) with Some d => Some d | None => runtimeDegradedReason s end in
  set_outcome (if finished then final else finalStatus s)
    (if decide (re_type event = runtime_degraded) then degraded else runtimeDegradedReason s)
    (set_status (if finished then connected else status s) (set_sessions (sessions s) (Some (re_sessionId event)) s)).

Definition applyRunEvent (s : TuiState) (event : RunEvent) : TuiState :=
  let base := event_base s event in
  match re_type event with
  | text_delta =>
    set_transcript (appendAssistantDelta (transcript base) (re_sessionId event) (stringPayload (json_get "text" (re_payload event)) or_else "")) base
  | permission_requested => log (toEventLogItem event) (set_permission (Some (permission_of event)) base)
  | tool_started | tool_delta | tool_finished =>
    let items := match stringPayload (json_get "path" (re_payload event)) with
                 | Some path => upsertContextItem (contextItems base)
                     (mkItem path path (run_event_name (re_type event) +:+ suffix_of ": " (toolPayload (re_payload event))) None)
                 | None => contextItems base
                 end in
    log (toEventLogItem event) (set_context items (contextWarnings base) base)
  | _ => log (toEventLogItem event) base
  end.

Definition reduceTuiState (s : TuiState) (action : TuiAction) : TuiState :=
  match action with
  | server_connected => set_readOnly None (set_status connected s)
  | server_failed reason => set_readOnly (Some reason) (set_status read_only s)
  | sessions_loaded loaded =>
    let current := match truthy_text (currentSessionId s) with
                   | Some c => if has_session c loaded then Some c else ts_id <$> head loaded
                   | None => ts_id <$> head loaded
                   end in
    set_sessions loaded current s
  | select_session sessionId => selectSession s sessionId
  | session_next => selectNextSession s
  | fork_session sourceSessionId sessionId title => forkSession s sourceSessionId sessionId title
  | delete_session sessionId => deleteSession s sessionId
  | models_loaded ms => set_options ms (agents s) s
  | agents_loaded as_ => set_options (models s) as_ s
  | context_planned report => set_context (toContextItemFromLedger <$> cr_entries report) (cr_warnings report) s
  | context_failed reason => set_context (contextItems s) [reason] s
  | prompt_changed value => set_prompt value s
  | select_model m => log (mkLog model_selected (currentSessionId s or_else "") ("model.selected: " +:+ m)) (set_choice m (agentId s) s)
  | select_agent a => log (mkLog agent_selected (currentSessionId s or_else "") ("agent.selected: " +:+ a)) (set_choice (model s) a s)
  | run_started message =>
    set_transcript (transcript s ++ [mkTranscript role_user (currentSessionId s) message])
      (set_outcome None None (set_context [] [] (set_eventLog [] (set_prompt message (set_status running s)))))
  | run_event event => applyRunEvent s event
  | permission_responded decision reason => applyPermissionResponse s decision reason
  | run_reported report =>
    let listed := upsertSession (sessions s) (named_session (rr_sessionId report) (rr_title report or_else rr_sessionId report)) in
    set_permission (findPermissionPrompt report)
      (set_transcript (transcript s ++ [mkTranscript role_assistant (Some (rr_sessionId report)) (rr_text report)])
        (set_outcome (Some (rr_finalStatus report)) (rr_degradedReason report)
          (set_context (if decide (rr_files report = []) then contextItems s else toContextItemFromFile <$> rr_files report) (contextWarnings s)
            (set_choice (rr_model report) (rr_agentId report)
              (set_prompt "" (set_sessions listed (Some (rr_sessionId report)) (set_status connected s)))))))
  end.

(** ** The application *)

Record RunInput : Type := mkRunInput { ri_message : string; ri_sessionId : option string; ri_model : string; ri_agentId : string }.

(** The answers of the client; an optional method may be missing.  A stream is
    the events it yields and the error it may end with. *)
Record TuiAppClient : Type := mkClient {
  c_health : outcome ();
  c_sessions : outcome (list TuiSessionSummary);
  c_models : option (outcome (list TuiModelOption));
  c_agents : option (outcome (list TuiAgentOption));
  c_inspectContext : option (string → outcome ContextInspectReport);
  c_run : RunInput → outcome RunDirectReport;
  c_runStream : option (RunInput → list RunEvent * option string);
  c_respondPermission : option (TuiPermissionPrompt → PermissionDecision → option string → outcome ());
  c_forkSession : option (string → option string → outcome (string * string));
  c_deleteSession : option (string → outcome string);
}.

Section app.
Variable client : TuiAppClient.

Definition fail (reason : string) (s : TuiState) : TuiState := reduceTuiState s (server_failed reason).

(** A step of [attach] that the client need not support. *)
Definition load {A : Type} (answer : option (outcome A)) (action : A → TuiAction) (k : TuiState → TuiState) (s : TuiState) : TuiState :=
  match answer with
  | None => k s
  | Some (Ret v) => k (reduceTuiState s (action v))
  | Some (Throw e) => fail e s
  end.

Definition attach (s : TuiState) : TuiState :=
  load (Some (c_health client)) (λ _, server_connected)
    (load (Some (c_sessions client)) sessions_loaded
      (load (c_models client) models_loaded
        (load (c_agents client) agents_loaded (λ s, s)))) s.

Definition submitPrompt (message : string) (s : TuiState) : TuiState :=
  let trimmed := trim message in
  if decide (trimmed = "" ∨ status s = read_only) then s
  else
    let s := reduceTuiState s (run_started trimmed) in
    let s := match c_inspectContext client with
             | None => s
             | Some inspect => match inspect trimmed with
                               | Ret context => reduceTuiState s (context_planned context)
                               | Throw e => reduceTuiState s (context_failed e)
                               end
             end in
    let input := mkRunInput trimmed (currentSessionId s) (model s) (agentId s) in
    match c_runStream client with
    | Some stream =>
      let (events, error) := stream input in
      let s := foldl (λ s event, reduceTuiState s (run_event event)) s events in
      match error with Some e => fail e s | None => s end
    | None => match c_run client input with
              | Ret report => reduceTuiState s (run_reported report)
              | Throw e => fail e s
              end
    end.

Definition nextModel (s : TuiState) : TuiState :=
  match next_of (λ m, bool_decide (tm_id m = model s)) (models s) with
  | Some next => reduceTuiState s (select_model (tm_id next))
  | None => s
  end.

Definition nextAgent (s : TuiState) : TuiState :=
  match next_of (λ a, bool_decide (ta_id a = agentId s)) (agents s) with
  | Some next => reduceTuiState s (select_agent (ta_id next))
  | None => s
  end.

Definition forkCurrentSession (title : option string) (s : TuiState) : TuiState :=
  match truthy_text (currentSessionId s) with
  | None => s
  | Some current =>
    match c_forkSession client with
    | None => fail "session fork is not supported by this server." s
    | Some fork => match fork current (truthy_text title) with
                   | Ret (source, sid) => reduceTuiState s (fork_session source sid title)
                   | Throw e => fail e s
                   end
    end
  end.

Definition app_deleteSession (sessionId : option string) (s : TuiState) : TuiState :=
  match truthy_text (match sessionId with Some x => Some x | None => currentSessionId s end) with
  | None => s
  | Some target =>
    match c_deleteSession client with
    | None => fail "session delete is not supported by this server." s
    | Some del => match del target with
                  | Ret sid => reduceTuiState s (delete_session sid)
                  | Throw e => fail e s
                  end
    end
  end.

Definition respondPermission (decision : PermissionDecision) (reason : option string) (s : TuiState) : TuiState :=
  match permissionPrompt s with
  | None => s
  | Some p =>
    let answer := match c_respondPermission client with
                  | Some respond => respond p decision (truthy_text reason)
                  | None => Ret ()
                  end in
    match answer with
    | Ret _ => reduceTuiState s (permission_responded decision reason)
    | Throw e => fail e s
    end
  end.
End app.

(** ** The screen *)

Definition status_name (t : TuiStatus) : string :=
  match t with attaching => "attaching" | connected => "connected" | running => "running" | read_only => "read_only" end.
Definition role_name (r : TranscriptRole) : string :=
  match r with role_assistant => "assistant" | role_user => "user" | role_system => "system" end.

(** [xs.slice(-n)]. *)
Definition last_n {A : Type} (n : nat) (xs : list A) : list A := drop (length xs - n) xs.

Definition option_line (marked : bool) (id label : string) : string :=
  trimEnd ("  " +:+ (if marked then "*" else " ") +:+ " " +:+ id +:+ " " +:+ label).

Definition session_lines (s : TuiState) : list string :=
  (λ x, option_line (bool_decide (Some (ts_id x) = currentSessionId s)) (ts_id x) (ts_title x or_else "")) <$> sessions s.

Definition or_none (none : string) (xs : list string) : list string := if decide (xs = []) then [none] else xs.

Definition screen_lines (s : TuiState) : list string :=
  ["DH TUI"; "server: " +:+ serverUrl s; "status: " +:+ status_name (status s)]
  ++ option_list (append "final: " <$> truthy_text (finalStatus s))
  ++ option_list (append "degraded: " <$> truthy_text (runtimeDegradedReason s))
  ++ ["model: " +:+ model s; "agent: " +:+ agentId s; ""; "sessions:"]
  ++ or_none "  none" (session_lines s)
  ++ (if decide (length (models s) = 0) then [] else
        ["";"model options:"] ++ ((λ m, option_line (bool_decide (tm_id m = model s)) (tm_id m) (tm_name m)) <$> take 8 (models s)))
  ++ (if decide (length (agents s) = 0) then [] else
        ["";"agent options:"] ++ ((λ a, option_line (bool_decide (ta_id a = agentId s)) (ta_id a) (ta_displayName a)) <$> take 8 (agents s)))
  ++ ["";"transcript:"] ++ or_none "  empty" ((λ t, "  " +:+ role_name (tr_role t) +:+ ": " +:+ tr_text t) <$> transcript s)
  ++ ["";"context:"] ++ or_none "  none" ((λ i, "  " +:+ ci_label i +:+ " - " +:+ ci_reason i) <$> last_n 8 (contextItems s))
  ++ ((λ w, "  context warning: " +:+ w) <$> contextWarnings s)
  ++ match permissionPrompt s with
     | Some p => [""; "permission: " +:+ pp_tool p; "reason: " +:+ (pp_reason p or_else "not provided")]
     | None => []
     end
  ++ ["";"events:"] ++ or_none "  none" ((λ e, "  " +:+ el_label e) <$> last_n 8 (eventLog s))
  ++ match truthy_text (readOnlyReason s) with Some r => [""; "read-only: " +:+ r] | None => [] end
  ++ [""; "prompt: " +:+ prompt s].

Definition renderTuiScreen (s : TuiState) : string := Prelude.join (String LF "") (screen_lines s).

(** ** Sessions and selection stay consistent *)

(** What the server has to respect: a list names each session once.  Its events
    may be about any session. *)
Definition distinct_list (action : TuiAction) : Prop :=
  match action with sessions_loaded loaded => NoDup (ts_id <$> loaded) | _ => True end.

(** The actions after which the current session is a listed one in any case. *)
Definition lists_current (action : TuiAction) : bool :=
  match action with sessions_loaded _ | fork_session _ _ _ | run_reported _ => true | _ => false end.

(** The last event of a run, after which nothing listed the current session, was
    about this session. *)
Definition last_event (actions : list TuiAction) (sid : string) : Prop :=
  ∃ before event after, actions = before ++ run_event event :: after ∧ re_sessionId event = sid ∧
    Forall (λ a, lists_current a = false ∧ ∀ e, a ≠ run_event e) after.

(** Sessions are listed once, there is a current one if there is any, and it is
    listed unless a run event chose it. *)
Definition consistent (actions : list TuiAction) (s : TuiState) : Prop :=
  NoDup (ts_id <$> sessions s) ∧
  match currentSessionId s with
  | Some c => c ∈ (ts_id <$> sessions s) ∨ last_event actions c
  | None => sessions s = []
  end.

Lemma has_session_spec sid ss : has_session sid ss = true ↔ sid ∈ (ts_id <$> ss).
Proof.
  unfold has_session. rewrite existsb_exists, list_elem_of_fmap. setoid_rewrite bool_decide_eq_true. setoid_rewrite list_elem_of_In. naive_solver.
Qed.

Lemma upsert_ids ss session :
  ts_id <$> upsertSession ss session = if has_session (ts_id session) ss then ts_id <$> ss else ts_id session :: (ts_id <$> ss).
Proof.
  unfold upsertSession. destruct (has_session _ _); [|done]. rewrite <-list_fmap_compose. apply list_fmap_ext. intros i entry _.
  unfold compose. by destruct (decide _).
Qed.

Lemma upsert_wf ss session : NoDup (ts_id <$> ss) →
  NoDup (ts_id <$> upsertSession ss session) ∧ ts_id session ∈ (ts_id <$> upsertSession ss session).
Proof.
  intros Hnd. rewrite upsert_ids. destruct (has_session _ _) eqn:E; [by apply has_session_spec in E|].
  split; [|by left]. apply NoDup_cons. split; [|done]. rewrite <-has_session_spec. by rewrite E.
Qed.

Lemma head_listed (ss : list TuiSessionSummary) : match ts_id <$> head ss with Some c => c ∈ (ts_id <$> ss) | None => ss = [] end.
Proof. destruct ss; simpl; [done|by left]. Qed.

Lemma applyRunEvent_rest s event :
  status (applyRunEvent s event) = (if is_finished (re_type event) then connected else status s) ∧
  currentSessionId (applyRunEvent s event) = Some (re_sessionId event) ∧ sessions (applyRunEvent s event) = sessions s ∧
  prompt (applyRunEvent s event) = prompt s.
Proof. unfold applyRunEvent, event_base. destruct (re_type event); by split_and!. Qed.

Lemma last_event_snoc actions a sid :
  last_event actions sid → lists_current a = false → (∀ e, a ≠ run_event e) → last_event (actions ++ [a]) sid.
Proof.
  intros (before & event & after & -> & Hid & Hafter) Ha He. exists before, event, (after ++ [a]).
  rewrite <-app_assoc. split_and!; [done..|]. apply Forall_app. by repeat constructor.
Qed.

Lemma last_event_new actions event : last_event (actions ++ [run_event event]) (re_sessionId event).
Proof. by exists actions, event, []. Qed.

(** A current session that is listed, with sessions listed once. *)
Lemma listed_consistent actions s c :
  NoDup (ts_id <$> sessions s) → currentSessionId s = Some c → c ∈ (ts_id <$> sessions s) → consistent actions s.
Proof. intros Hnd Hc Hin. split; [done|]. rewrite Hc. by left. Qed.

Lemma head_consistent actions s :
  NoDup (ts_id <$> sessions s) → currentSessionId s = ts_id <$> head (sessions s) → consistent actions s.
Proof.
  intros Hnd Hc. split; [done|]. rewrite Hc. pose proof (head_listed (sessions s)) as Hh.
  destruct (ts_id <$> head (sessions s)); [by left|done].
Qed.

(** An action that keeps the list and the current session. *)
Lemma same_consistent actions a s s' :
  consistent actions s → sessions s' = sessions s → currentSessionId s' = currentSessionId s →
  lists_current a = false → (∀ e, a ≠ run_event e) → consistent (actions ++ [a]) s'.
Proof.
  intros [Hnd Hc] Hs Hcur Ha He. split; [by rewrite Hs|]. rewrite Hcur, Hs.
  destruct (currentSessionId s); [|done]. destruct Hc; [by left|right]. by apply last_event_snoc.
Qed.

Lemma selectSession_consistent actions a s sid :
  consistent actions s → lists_current a = false → (∀ e, a ≠ run_event e) → consistent (actions ++ [a]) (selectSession s sid).
Proof.
  intros Hs Ha He. unfold selectSession. destruct (has_session sid (sessions s)) eqn:E; [|by apply (same_consistent _ _ s)].
  apply (listed_consistent _ _ sid); [apply Hs|done|by apply has_session_spec].
Qed.

Lemma deleteSession_consistent actions s sid :
  consistent actions s → consistent (actions ++ [delete_session sid]) (deleteSession s sid).
Proof.
  intros [Hnd Hc]. set (rest := filter (λ x, ts_id x ≠ sid) (sessions s)).
  assert (NoDup (ts_id <$> rest)) as Hrest by (eapply sublist_NoDup; [exact Hnd|apply fmap_sublist, sublist_filter]).
  destruct (decide (currentSessionId s = Some sid)) as [E|E].
  - apply head_consistent; simpl; [done|]. by rewrite decide_True.
  - split; [done|]. simpl. fold rest. rewrite decide_False by done.
    destruct (currentSessionId s) as [c|]; [|by unfold rest; rewrite Hc].
    destruct Hc as [Hc|Hc]; [left|right; by apply last_event_snoc].
    apply list_elem_of_fmap in Hc as (x & -> & Hx). apply list_elem_of_fmap. exists x. split; [done|].
    apply list_elem_of_filter. naive_solver.
Qed.

Lemma loaded_consistent actions s loaded :
  NoDup (ts_id <$> loaded) → consistent actions (reduceTuiState s (sessions_loaded loaded)).
Proof.
  intros Hnd. simpl. destruct (truthy_text (currentSessionId s)) as [c|]; [|by apply head_consistent].
  destruct (has_session c loaded) eqn:E; [|by apply head_consistent].
  apply (listed_consistent _ _ c); [done|done|by apply has_session_spec].
Qed.

(** The reducer keeps the sessions consistent. *)
Lemma reduce_consistent actions s a :
  consistent actions s → distinct_list a → consistent (actions ++ [a]) (reduceTuiState s a).
Proof.
  intros Hs Ha. pose proof Hs as [Hnd _]. destruct a; cbn [reduceTuiState]; try (by apply (same_consistent _ _ s)).
  - by apply loaded_consistent.
  - by apply selectSession_consistent.
  - unfold selectNextSession. destruct (next_of _ _); [by apply selectSession_consistent|by apply (same_consistent _ _ s)].
  - destruct (upsert_wf (sessions s) (named_session sessionId (title or_else ("Fork of " +:+ sourceSessionId))) Hnd).
    by apply (listed_consistent _ _ sessionId).
  - by apply deleteSession_consistent.
  - destruct (applyRunEvent_rest s event) as (_ & Hc & Hss & _). split; [by rewrite Hss|]. rewrite Hc. right.
    apply last_event_new.
  - apply (same_consistent _ _ s); try done; unfold applyPermissionResponse; by destruct (permissionPrompt s).
  - destruct (upsert_wf (sessions s) (named_session (rr_sessionId report) (rr_title report or_else rr_sessionId report)) Hnd).
    by apply (listed_consistent _ _ (rr_sessionId report)).
Qed.

Lemma reachable_consistent s0 actions :
  consistent [] s0 → Forall distinct_list actions → consistent actions (foldl reduceTuiState s0 actions).
Proof.
  intros Hs0. induction actions as [|a actions IH] using rev_ind; intros Hd; [done|].
  apply Forall_app in Hd as [Hd Ha]. apply Forall_cons in Ha as [Ha _]. rewrite foldl_app. by apply reduce_consistent; [apply IH|].
Qed.

Lemma none_marked (ss : list TuiSessionSummary) c : c ∉ (ts_id <$> ss) → filter (λ x, Some (ts_id x) = Some c) ss = [].
Proof. intros Hc. apply elem_of_nil_inv. intros y [[= <-] Hin]%list_elem_of_filter. apply Hc. by apply list_elem_of_fmap_2. Qed.

Lemma one_marked (ss : list TuiSessionSummary) c : NoDup (ts_id <$> ss) → c ∈ (ts_id <$> ss) → length (filter (λ x, Some (ts_id x) = Some c) ss) = 1.
Proof.
  induction ss as [|x ss IH]; [by intros _ ?%elem_of_nil|]. rewrite fmap_cons. intros [Hx Hnd]%NoDup_cons [->|Hc]%elem_of_cons.
  - rewrite filter_cons_True by done. simpl. f_equal. assert (filter (λ y, Some (ts_id y) = Some (ts_id x)) ss = []) as ->; [|done].
    apply elem_of_nil_inv. intros y [[= Hy] Hin]%list_elem_of_filter. apply Hx. rewrite <-Hy. by apply list_elem_of_fmap_2.
  - rewrite filter_cons_False; [by apply IH|]. intros [= <-]. done.
Qed.

(** The actions that an operation of the application dispatches. *)
Definition dispatches (op : TuiState → TuiState) : Prop := ∀ s, ∃ actions, op s = foldl reduceTuiState s actions.

Lemma dispatches_nil s : ∃ actions, s = foldl reduceTuiState s actions.
Proof. by exists []. Qed.

Lemma dispatches_one s a : ∃ actions, reduceTuiState s a = foldl reduceTuiState s actions.
Proof. by exists [a]. Qed.

Lemma dispatches_after s s1 s2 : (∃ actions, s1 = foldl reduceTuiState s actions) → (∃ actions, s2 = foldl reduceTuiState s1 actions) →
  ∃ actions, s2 = foldl reduceTuiState s actions.
Proof. intros [xs ->] [ys ->]. exists (xs ++ ys). by rewrite foldl_app. Qed.

Lemma dispatches_events s events : ∃ actions, foldl (λ s event, reduceTuiState s (run_event event)) s events = foldl reduceTuiState s actions.
Proof. exists (run_event <$> events). by rewrite foldl_fmap. Qed.

Lemma load_dispatches {A : Type} (answer : option (outcome A)) action k : dispatches k → dispatches (load answer action k).
Proof.
  intros Hk s. destruct answer as [[v|e]|]; simpl; [|apply (dispatches_one s (server_failed e))|apply Hk].
  eapply dispatches_after; [apply dispatches_one|apply Hk].
Qed.

Lemma attach_dispatches client : dispatches (attach client).
Proof. unfold attach. repeat apply load_dispatches. intros s. apply dispatches_nil. Qed.

Lemma submitPrompt_dispatches client message : dispatches (submitPrompt client message).
Proof.
  intros s. unfold submitPrompt. destruct (decide _); [apply dispatches_nil|]. set (s1 := reduceTuiState s (run_started (trim message))).
  set (s2 := match c_inspectContext client with None => s1 | Some inspect => _ end).
  apply dispatches_after with s2.
  { apply dispatches_after with s1; [apply dispatches_one|]. unfold s2. destruct (c_inspectContext client) as [inspect|]; [|apply dispatches_nil].
    destruct (inspect _); apply dispatches_one. }
  destruct (c_runStream client) as [stream|].
  - destruct (stream _) as [events [e|]]; [|apply dispatches_events].
    eapply dispatches_after; [apply dispatches_events|apply (dispatches_one _ (server_failed e))].
  - destruct (c_run client _) as [report|e]; [apply dispatches_one|apply (dispatches_one _ (server_failed e))].
Qed.

(** The other operations dispatch at most one action. *)
Lemma small_operations_dispatch client :
  dispatches nextModel ∧ dispatches nextAgent ∧ (∀ title, dispatches (forkCurrentSession client title)) ∧
  (∀ sid, dispatches (app_deleteSession client sid)) ∧ ∀ decision reason, dispatches (respondPermission client decision reason).
Proof.
  split_and!; [intros s|intros s|intros title s|intros sid s|intros decision reason s];
    unfold nextModel, nextAgent, forkCurrentSession, app_deleteSession, respondPermission, fail;
    repeat match goal with |- context [match ?x with _ => _ end] => destruct x end; auto using dispatches_nil, dispatches_one.
Qed.

(** C26 The session list of the terminal interface under every sequence of
    actions in which the lists of the server name each session once: no session
    is listed twice; if no session is current, none is listed; the current
    session is listed, unless the last event of a run was about it and nothing
    has listed the current session since; and the screen marks exactly one
    session if the current one is listed and none otherwise. *)
Theorem tui_sessions_invariant url actions : Forall distinct_list actions →
  let s := foldl reduceTuiState (createInitialTuiState url) actions in
  let ids := ts_id <$> sessions s in
  NoDup ids ∧ (currentSessionId s = None → sessions s = []) ∧
  (∀ c, currentSessionId s = Some c → c ∉ ids → last_event actions c) ∧
  length (filter (λ x, Some (ts_id x) = currentSessionId s) (sessions s)) =
    match currentSessionId s with Some c => if decide (c ∈ ids) then 1 else 0 | None => 0 end.
Proof.
  intros Hd s ids. assert (consistent actions s) as [Hnd Hc].
  { apply reachable_consistent; [|done]. split; [constructor|done]. }
  fold ids in Hnd, Hc. destruct (currentSessionId s) as [c|]; [|by rewrite Hc].
  split_and!; [done|done| |].
  - intros c' [= <-] Hno. by destruct Hc.
  - case_decide; [by apply one_marked|by rewrite none_marked].
Qed.

Definition demo_session (id : string) : TuiSessionSummary := mkSession id None None None None.

(** A list, a fork and its deletion; then a run creates a session that no list
    has, until the server is asked again. *)
Lemma tui_sessions_invariant_witness :
  let created := run_event (mkRunEvent session_created "n" 0 "" (JObj [])) in
  let actions := [sessions_loaded [demo_session "a"; demo_session "b"]; session_next; fork_session "b" "c" None;
    delete_session "c"; created] in
  let s := foldl reduceTuiState (createInitialTuiState "u") actions in
  ts_id <$> sessions s = ["a"; "b"] ∧ currentSessionId s = Some "n" ∧ last_event actions "n" ∧
  NoDup (ts_id <$> sessions s).
Proof.
  intros created actions s. split; [vm_compute; reflexivity|].
  split; [vm_compute; reflexivity|].
  destruct (tui_sessions_invariant "u" actions) as (Hnd & _ & Hlast & _).
  { repeat constructor; vm_compute; set_solver. }
  split; [|exact Hnd]. apply Hlast; vm_compute; [reflexivity|set_solver].
Defined.

(** ** Streamed answers *)

Definition delta_text (event : RunEvent) : string := stringPayload (json_get "text" (re_payload event)) or_else "".
Definition is_delta (event : RunEvent) : bool := bool_decide (re_type event = text_delta).

(** The answer that the deltas of a stream spell. *)
Definition streamed (sid : string) (events : list RunEvent) : list TuiTranscriptItem :=
  let deltas := filter (λ e, is_delta e = true) events in
  if decide (deltas = []) then [] else [mkTranscript role_assistant (Some sid) (Prelude.join "" (delta_text <$> deltas))].

Definition not_answer (sid : string) (items : list TuiTranscriptItem) : Prop :=
  ∀ l, last items = Some l → ¬ (tr_role l = role_assistant ∧ tr_sessionId l = Some sid).

Lemma append_first items sid delta : not_answer sid items →
  appendAssistantDelta items sid delta = items ++ [mkTranscript role_assistant (Some sid) delta].
Proof. intros Hn. unfold appendAssistantDelta. destruct (last items) as [l|] eqn:E; [|done]. by rewrite decide_False by (by apply Hn). Qed.

Lemma append_next items sid text delta :
  appendAssistantDelta (items ++ [mkTranscript role_assistant (Some sid) text]) sid delta =
  items ++ [mkTranscript role_assistant (Some sid) (text +:+ delta)].
Proof. unfold appendAssistantDelta. rewrite last_snoc, decide_True by done. by rewrite removelast_last. Qed.

Lemma join_snoc (xs : list string) y : Prelude.join "" (xs ++ [y]) = Prelude.join "" xs +:+ y.
Proof.
  induction xs as [|x [|x' xs] IH]; [done|done|]. change (Prelude.join "" ((x :: x' :: xs) ++ [y])) with (x +:+ Prelude.join "" ((x' :: xs) ++ [y])).
  rewrite IH. change (Prelude.join "" (x :: x' :: xs)) with (x +:+ Prelude.join "" (x' :: xs)). by rewrite append_assoc.
Qed.

Lemma applyRunEvent_transcript s event :
  transcript (applyRunEvent s event) =
  if is_delta event then appendAssistantDelta (transcript s) (re_sessionId event) (delta_text event) else transcript s.
Proof. unfold applyRunEvent, is_delta. by destruct (re_type event). Qed.

Lemma streamed_snoc sid events event :
  streamed sid (events ++ [event]) =
  if is_delta event
  then [mkTranscript role_assistant (Some sid) (Prelude.join "" (delta_text <$> filter (λ e, is_delta e = true) events) +:+ delta_text event)]
  else streamed sid events.
Proof.
  unfold streamed. rewrite filter_app. destruct (is_delta event) eqn:E.
  - rewrite filter_cons_True, filter_nil by done. rewrite decide_False by (by destruct (filter _ events)). rewrite fmap_app. change (delta_text <$> [event]) with [delta_text event].
    by rewrite join_snoc.
  - rewrite filter_cons_False, filter_nil, app_nil_r by (by rewrite E). done.
Qed.

(** Events of one session, applied one after the other. *)
Lemma events_applied sid events s :
  not_answer sid (transcript s) → Forall (λ e, re_sessionId e = sid) events →
  let s' := foldl (λ s event, reduceTuiState s (run_event event)) s events in
  transcript s' = transcript s ++ streamed sid events ∧
  status s' = (if existsb (λ e, is_finished (re_type e)) events then connected else status s) ∧
  currentSessionId s' = (if decide (events = []) then currentSessionId s else Some sid) ∧
  sessions s' = sessions s ∧ prompt s' = prompt s.
Proof.
  intros Hn. induction events as [|event events IH] using rev_ind; intros Hsid; [by rewrite app_nil_r|].
  apply Forall_app in Hsid as [Hsid Hev]. inversion Hev as [|? ? Hid _]; subst. specialize (IH Hsid).
  cbv zeta in *. rewrite foldl_app. cbn [foldl]. change (reduceTuiState ?t (run_event ?e)) with (applyRunEvent t e).
  set (s1 := foldl _ s events) in *. destruct IH as (Ht & Hst & _ & Hss & Hp).
  destruct (applyRunEvent_rest s1 event) as (-> & -> & -> & ->). rewrite applyRunEvent_transcript, streamed_snoc, existsb_app, Ht, Hst.
  rewrite decide_False by (by destruct events). split_and!; [|cbn [existsb]; rewrite orb_false_r|done..].
  - destruct (is_delta event) eqn:E; [|done]. unfold streamed. destruct (decide (filter _ events = [])) as [Hnil|Hne].
    + rewrite app_nil_r, append_first by done. by rewrite Hnil.
    + by rewrite append_next.
  - destruct (is_finished (re_type event)); [by rewrite orb_true_r|by rewrite orb_false_r].
Qed.

(** A prompt that is answered by a stream of events of one session: the
    transcript grows by the prompt and by one answer with the concatenation of
    all text deltas, in order, whatever other events are in between; the
    interface is connected again exactly when the stream said that it finished;
    a prompt that is blank, or given while the interface is read-only, changes
    nothing. *)
Theorem streamed_answer client message s sid stream events :
  c_runStream client = Some stream → (∀ input, stream input = (events, None)) → Forall (λ e, re_sessionId e = sid) events →
  let s' := submitPrompt client message s in
  if decide (trim message = "" ∨ status s = read_only) then s' = s
  else
    transcript s' = transcript s ++ mkTranscript role_user (currentSessionId s) (trim message) :: streamed sid events ∧
    status s' = (if existsb (λ e, is_finished (re_type e)) events then connected else running) ∧
    currentSessionId s' = (if decide (events = []) then currentSessionId s else Some sid) ∧
    sessions s' = sessions s ∧ prompt s' = trim message.
Proof.
  intros Hc Hstream Hsid. unfold submitPrompt. rewrite Hc. destruct (decide _) as [|_]; [done|].
  set (s1 := match c_inspectContext client with None => _ | Some inspect => _ end). rewrite Hstream.
  assert (transcript s1 = transcript s ++ [mkTranscript role_user (currentSessionId s) (trim message)] ∧ status s1 = running ∧
    currentSessionId s1 = currentSessionId s ∧ sessions s1 = sessions s ∧ prompt s1 = trim message) as (Ht & Hs & Hcur & Hss & Hp).
  { unfold s1. destruct (c_inspectContext client) as [inspect|]; [|done]. by destruct (inspect _). }
  destruct (events_applied sid events s1) as (Ht' & Hst' & Hc' & Hss' & Hp'); [|done|].
  { intros l Hl. rewrite Ht, last_snoc in Hl. injection Hl as <-. by intros [? _]. }
  rewrite Ht', Hst', Hc', Hss', Hp', Ht, Hs, Hcur, Hss, Hp, <-app_assoc. done.
Qed.

Definition demo_client (events : list RunEvent) : TuiAppClient :=
  mkClient (Ret ()) (Ret []) None None None (λ _, Throw "unused") (Some (λ _, (events, None))) None None None.

Definition demo_events : list RunEvent :=
  [mkRunEvent text_delta "n" 0 "" (JObj [("text", JStr "Hel")]); mkRunEvent tool_started "n" 1 "" (JObj [("tool", JStr "read")]);
   mkRunEvent text_delta "n" 2 "" (JObj [("text", JStr "lo")]); mkRunEvent message_finished "n" 3 "" (JObj [])].

Lemma streamed_answer_witness :
  let s' := submitPrompt (demo_client demo_events) " hi " (createInitialTuiState "u") in
  transcript s' = [mkTranscript role_user None "hi"; mkTranscript role_assistant (Some "n") "Hello"] ∧ status s' = connected.
Proof.
  pose proof (streamed_answer (demo_client demo_events) " hi " (createInitialTuiState "u") "n" _ demo_events eq_refl
    (λ _, eq_refl) ltac:(repeat constructor)) as H.
  destruct (decide _) as [[Hx|Hx]|_]; [vm_compute in Hx; discriminate..|]. destruct H as (Ht & Hs & _).
  split; [etransitivity; [exact Ht|vm_compute; reflexivity]|etransitivity; [exact Hs|vm_compute; reflexivity]].
Defined.

(** ** What the state machine allows *)

(** A stream of a new session makes it current without listing it: the screen
    marks no session, and the sent prompt stays in the input line. *)
Example streamed_session_unlisted :
  let s := submitPrompt (demo_client demo_events) "hi" (reduceTuiState (createInitialTuiState "u") (sessions_loaded [demo_session "a"])) in
  currentSessionId s = Some "n" ∧ ts_id <$> sessions s = ["a"] ∧ session_lines s = ["    a"] ∧ prompt s = "hi".
Proof. vm_compute. done. Qed.

(** A finished event connects an interface that failed, with the reason still shown. *)
Lemma finished_hides_failure s reason event : is_finished (re_type event) = true →
  let s' := reduceTuiState (reduceTuiState s (server_failed reason)) (run_event event) in
  status s' = connected ∧ readOnlyReason s' = Some reason.
Proof.
  intros Hf. cbn [reduceTuiState]. destruct (applyRunEvent_rest (set_readOnly (Some reason) (set_status read_only s)) event) as [Hst _].
  rewrite Hf in Hst. split; [done|]. unfold applyRunEvent. by destruct (re_type event).
Qed.

(** A permission is answered once. *)
Lemma permission_answered_once client decision reason decision' reason' s :
  let s' := respondPermission client decision reason s in
  permissionPrompt s' = None → respondPermission client decision' reason' s' = s'.
Proof. intros s' Hn. unfold respondPermission at 1. by rewrite Hn. Qed.
