(* ===== verification/Worktree.v ===== *)
(** * Operator-safe worktree runs

    [packages/runtime/src/workspace]: [operator-safe-execution-report.ts],
    [operator-safe-project-worktree-snapshot.ts], [operator-safe-temp-workspace.ts],
    [operator-safe-bounded-apply.ts],
    [operator-safe-project-worktree-rollback-light.ts] and
    [operator-safe-project-worktree-utils.ts], with the types of
    [packages/shared/src/types/operator-worktree.ts].

    A run checks its target (the preflight), writes a snapshot manifest and a
    temporary workspace, decides what applying would do, and writes a report;
    all of it below [.dh/runtime/operator-safe-worktree] of the repository.

    The file system is that of [Files] together with the times of its entries
    and with links that lead nowhere, which a directory lists and [stat] does not
    find.  Times are whole milliseconds.  The clock, the random source, the
    printing of numbers to base 36 and of dates, the suffixes that [mkdtemp]
    chooses and the working directory are parameters. *)

From S2P Require Import Prelude Json Files ScanPaths SearchTools Chunker Projects.
From Stdlib Require Import Ascii String Sorted.
From stdpp Require Import prelude list strings gmap pretty.
Set Default Goal Selector "!".
Set Default Proof Using "Type".
Set Warnings "-clear-no-such-hyp".
#[local] Arguments String.append : simpl nomatch.

(** ** Types *)

Inductive OperatorWorktreeMode : Type := mode_check | mode_dry_run | mode_execute.

Definition mode_name (m : OperatorWorktreeMode) : string :=
  match m with mode_check => "check" | mode_dry_run => "dry_run" | mode_execute => "execute" end.

Definition SUPPORTED_OPERATOR_WORKTREE_OPERATIONS : list string := ["index_workspace"].

Inductive OperatorWorktreeReasonCode : Type :=
| empty_target_path | target_outside_repo | invalid_repo_root | workspace_not_detected
| vcs_required_but_missing | already_indexed | operation_not_supported.

Definition reason_name (c : OperatorWorktreeReasonCode) : string :=
  match c with
  | empty_target_path => "empty_target_path" | target_outside_repo => "target_outside_repo"
  | invalid_repo_root => "invalid_repo_root" | workspace_not_detected => "workspace_not_detected"
  | vcs_required_but_missing => "vcs_required_but_missing" | already_indexed => "already_indexed"
  | operation_not_supported => "operation_not_supported"
  end.

Inductive OperatorWorktreeWarningCode : Type :=
| workspace_missing_markers | partial_workspace_scan | vcs_unverified | execute_is_bounded.

Definition warning_name (c : OperatorWorktreeWarningCode) : string :=
  match c with
  | workspace_missing_markers => "workspace_missing_markers"
  | partial_workspace_scan => "partial_workspace_scan"
  | vcs_unverified => "vcs_unverified" | execute_is_bounded => "execute_is_bounded"
  end.

Inductive OperatorWorktreeRiskClass : Type := risk_low | risk_moderate | risk_high.

Definition risk_name (r : OperatorWorktreeRiskClass) : string :=
  match r with risk_low => "low" | risk_moderate => "moderate" | risk_high => "high" end.

Inductive OperatorWorktreeFailureClass : Type :=
| failure_none | preflight_failure | prepare_failure | apply_failure | cleanup_failure
| failure_rollback_degraded.

Definition failure_name (f : OperatorWorktreeFailureClass) : string :=
  match f with
  | failure_none => "none" | preflight_failure => "preflight_failure"
  | prepare_failure => "prepare_failure" | apply_failure => "apply_failure"
  | cleanup_failure => "cleanup_failure" | failure_rollback_degraded => "rollback_degraded"
  end.

Inductive OperatorWorktreeExecutionOutcome : Type :=
| outcome_blocked | outcome_advisory | outcome_dry_run | outcome_succeeded | outcome_failed
| outcome_cleanup_failed | outcome_rollback_degraded.

Definition outcome_name (o : OperatorWorktreeExecutionOutcome) : string :=
  match o with
  | outcome_blocked => "blocked" | outcome_advisory => "advisory" | outcome_dry_run => "dry_run"
  | outcome_succeeded => "succeeded" | outcome_failed => "failed"
  | outcome_cleanup_failed => "cleanup_failed" | outcome_rollback_degraded => "rollback_degraded"
  end.

Inductive OperatorWorktreeExecutionStage : Type :=
| at_preflight | at_prepare | at_apply | at_cleanup | at_rollback.

Definition stage_string (s : OperatorWorktreeExecutionStage) : string :=
  match s with
  | at_preflight => "preflight" | at_prepare => "prepare" | at_apply => "apply"
  | at_cleanup => "cleanup" | at_rollback => "rollback"
  end.

Inductive OperatorWorktreeRecommendation : Type :=
| proceed | run_check | run_dry_run | adjust_target | add_workspace_marker | run_full_index
| disable_vcs_requirement.

Definition recommendation_name (r : OperatorWorktreeRecommendation) : string :=
  match r with
  | proceed => "proceed" | run_check => "run_check" | run_dry_run => "run_dry_run"
  | adjust_target => "adjust_target" | add_workspace_marker => "add_workspace_marker"
  | run_full_index => "run_full_index" | disable_vcs_requirement => "disable_vcs_requirement"
  end.

#[global] Instance OperatorWorktreeMode_eq_dec : EqDecision OperatorWorktreeMode.
Proof. solve_decision. Defined.
#[global] Instance OperatorWorktreeReasonCode_eq_dec : EqDecision OperatorWorktreeReasonCode.
Proof. solve_decision. Defined.
#[global] Instance OperatorWorktreeWarningCode_eq_dec : EqDecision OperatorWorktreeWarningCode.
Proof. solve_decision. Defined.
#[global] Instance OperatorWorktreeExecutionOutcome_eq_dec : EqDecision OperatorWorktreeExecutionOutcome.
Proof. solve_decision. Defined.

(** A workspace as a caller hands it over: diagnostics, markers and scan
    metadata may be missing. *)
Record KnownWorkspace : Type := mkKnown {
  kw_root : string;
  kw_type : string;
  kw_files : list IndexedFile;
  kw_diagnostics : option WorkspaceScanDiagnostics;
  kw_markers : option WorkspaceMarkers;
  kw_partial : option bool;
}.

(** A workspace of [detectProjects] has all of them. *)
Definition scanned (w : IndexedWorkspace) : KnownWorkspace :=
  mkKnown (w_root w) (w_type w) (w_files w) (Some (w_diagnostics w)) (Some (w_markers w)) (Some (w_partial w)).

Record OperatorWorktreePreflightInput : Type := mkPreflightInput {
  pi_mode : OperatorWorktreeMode;
  pi_operation : string;
  pi_repoRoot : string;
  pi_targetPath : string;
  pi_requireVcs : option bool;
  pi_alreadyIndexedFileIds : option (list string);
  pi_knownWorkspaces : option (list KnownWorkspace);
}.

Record OperatorWorktreeWorkspaceContext : Type := mkWorkspaceContext {
  wc_root : string;
  wc_type : string;
  wc_markers : option WorkspaceMarkers;
  wc_partialScan : bool;
  wc_scanStopReason : string;
  wc_targetRelativePath : option string;
  wc_workspaceRelativePath : option string;
  wc_repoRelativePath : option string;
}.

Record OperatorWorktreePreflightResult : Type := mkPreflight {
  pf_mode : OperatorWorktreeMode;
  pf_operation : string;
  pf_allowed : bool;
  pf_warnings : list (OperatorWorktreeWarningCode * string);
  pf_blockingReasons : list (OperatorWorktreeReasonCode * string);
  pf_recommendedAction : OperatorWorktreeRecommendation;
  pf_repoRoot : string;
  pf_targetPath : string;
  pf_canonicalRepoRoot : string;
  pf_canonicalTargetPath : string;
  pf_workspace : option OperatorWorktreeWorkspaceContext;
  pf_idempotentSkip : bool;
}.

(** [null] and [undefined] are different in a document: a path that is absent
    from the workspace is [Some None]. *)
Record OperatorWorktreeSnapshotManifest : Type := mkSnapshotManifest {
  sm_id : string;
  sm_executionId : string;
  sm_reportId : string;
  sm_createdAt : string;
  sm_operation : string;
  sm_mode : OperatorWorktreeMode;
  sm_repoRoot : string;
  sm_targetPath : string;
  sm_workspaceRoot : option string;
  sm_targetRelativePath : option (option string);
  sm_workspaceRelativePath : option (option string);
  sm_repoRelativePath : option (option string);
  sm_files : list string;
  sm_warningCodes : list OperatorWorktreeWarningCode;
  sm_idempotentSkip : bool;
}.

Record OperatorWorktreeSnapshotResult : Type := mkSnapshotResult {
  sr_required : bool;
  sr_captured : bool;
  sr_artifactPath : option string;
  sr_manifest : option OperatorWorktreeSnapshotManifest;
}.

Record OperatorSafeTempWorkspaceManifest : Type := mkTempManifest {
  tm_id : string;
  tm_executionId : string;
  tm_reportId : string;
  tm_createdAt : string;
  tm_lastTouchedAt : string;
  tm_operation : string;
  tm_mode : OperatorWorktreeMode;
  tm_repoRoot : string;
  tm_tempPath : string;
  tm_staleAfterMs : Z;
}.

Record OperatorSafeTempWorkspaceResult : Type := mkTempResult {
  tr_created : bool;
  tr_id : option string;
  tr_executionId : option string;
  tr_reportId : option string;
  tr_path : option string;
  tr_manifestPath : option string;
  tr_createdAt : option string;
  tr_lastTouchedAt : option string;
  tr_staleAfterMs : Z;
  tr_note : string;
}.

Record OperatorWorktreeBoundedApplyResult : Type := mkApply {
  ap_applied : bool;
  ap_simulated : bool;
  ap_delegated : bool;
  ap_changedSurfaces : list string;
  ap_metadata : list (string * json);
  ap_message : string;
}.

Record OperatorWorktreeRollbackLightResult : Type := mkRollback {
  rb_attempted : bool;
  rb_recovered : bool;
  rb_degraded : bool;
  rb_unavailable : bool;
  rb_message : string;
}.

Record OperatorWorktreeStageResult : Type := mkStageResult {
  st_stage : OperatorWorktreeExecutionStage;
  st_success : bool;
  st_details : string;
}.

(** A link to an artifact: its id, and its path when there is one. *)
Record RelatedArtifact : Type := mkRelated { ra_artifactId : string; ra_path : option string }.

Record RelatedArtifacts : Type := mkRelatedArtifacts {
  rl_snapshot : option RelatedArtifact;
  rl_tempWorkspace : option RelatedArtifact;
}.

Record ReportContext : Type := mkReportContext {
  rc_repoRoot : string;
  rc_targetPath : string;
  rc_workspaceRoot : option string;
  rc_workspaceRelativePath : option (option string);
  rc_repoRelativePath : option (option string);
}.

Record OperatorWorktreeExecutionReport : Type := mkReport {
  rp_id : string;
  rp_executionId : string;
  rp_createdAt : string;
  rp_operation : string;
  rp_mode : OperatorWorktreeMode;
  rp_riskClass : OperatorWorktreeRiskClass;
  rp_outcome : OperatorWorktreeExecutionOutcome;
  rp_failureClass : OperatorWorktreeFailureClass;
  rp_recommendedAction : OperatorWorktreeRecommendation;
  rp_allowed : bool;
  rp_warningCodes : list OperatorWorktreeWarningCode;
  rp_blockingCodes : list OperatorWorktreeReasonCode;
  rp_stages : list OperatorWorktreeStageResult;
  rp_context : ReportContext;
  rp_relatedArtifacts : RelatedArtifacts;
  rp_snapshot : option OperatorWorktreeSnapshotResult;
  rp_tempWorkspace : option OperatorSafeTempWorkspaceResult;
  rp_apply : option OperatorWorktreeBoundedApplyResult;
  rp_rollback : option OperatorWorktreeRollbackLightResult;
  rp_notes : list string;
}.

(** The input of [buildOperatorSafeExecutionReport]. *)
Record ExecutionReportInput : Type := mkReportInput {
  ri_operation : string;
  ri_mode : OperatorWorktreeMode;
  ri_riskClass : OperatorWorktreeRiskClass;
  ri_outcome : OperatorWorktreeExecutionOutcome;
  ri_failureClass : OperatorWorktreeFailureClass;
  ri_recommendedAction : OperatorWorktreeRecommendation;
  ri_allowed : bool;
  ri_warningCodes : list OperatorWorktreeWarningCode;
  ri_blockingCodes : list OperatorWorktreeReasonCode;
  ri_stages : list OperatorWorktreeStageResult;
  ri_context : ReportContext;
  ri_snapshot : option OperatorWorktreeSnapshotResult;
  ri_tempWorkspace : option OperatorSafeTempWorkspaceResult;
  ri_apply : option OperatorWorktreeBoundedApplyResult;
  ri_rollback : option OperatorWorktreeRollbackLightResult;
  ri_relatedArtifacts : option RelatedArtifacts;
  ri_notes : option (list string);
  ri_id : option string;
  ri_executionId : option string;
  ri_createdAt : option string;
}.

(** ** The documents *)

(** A member that may be [null], or left out when it is [undefined]. *)
Definition opt_nullable (key : string) (o : option (option string)) : list (string * json) :=
  opt_member key ((λ v, match v with Some s => JStr s | None => JNull end) <$> o).


Definition snapshot_manifest_json (m : OperatorWorktreeSnapshotManifest) : json :=
  JObj ([("id", JStr (sm_id m)); ("executionId", JStr (sm_executionId m)); ("reportId", JStr (sm_reportId m));
         ("createdAt", JStr (sm_createdAt m)); ("operation", JStr (sm_operation m));
         ("mode", JStr (mode_name (sm_mode m))); ("repoRoot", JStr (sm_repoRoot m));
         ("targetPath", JStr (sm_targetPath m))]
        ++ opt_str "workspaceRoot" (sm_workspaceRoot m)
        ++ opt_nullable "targetRelativePath" (sm_targetRelativePath m)
        ++ opt_nullable "workspaceRelativePath" (sm_workspaceRelativePath m)
        ++ opt_nullable "repoRelativePath" (sm_repoRelativePath m)
        ++ [("files", strings_json (sm_files m));
            ("metadata", JObj [("warningCodes", strings_json (warning_name <$> sm_warningCodes m));
                               ("idempotentSkip", JBool (sm_idempotentSkip m))])]).

Definition snapshot_result_json (s : OperatorWorktreeSnapshotResult) : json :=
  JObj ([("required", JBool (sr_required s)); ("captured", JBool (sr_captured s))]
        ++ opt_str "artifactPath" (sr_artifactPath s)
        ++ opt_member "manifest" (snapshot_manifest_json <$> sr_manifest s)
        ++ [("warnings", JArr [])]).

Definition temp_manifest_json (m : OperatorSafeTempWorkspaceManifest) : json :=
  JObj [("id", JStr (tm_id m)); ("executionId", JStr (tm_executionId m)); ("reportId", JStr (tm_reportId m));
        ("createdAt", JStr (tm_createdAt m)); ("lastTouchedAt", JStr (tm_lastTouchedAt m));
        ("operation", JStr (tm_operation m)); ("mode", JStr (mode_name (tm_mode m)));
        ("repoRoot", JStr (tm_repoRoot m)); ("tempPath", JStr (tm_tempPath m));
        ("staleAfterMs", JInt (tm_staleAfterMs m))].

Definition temp_result_json (t : OperatorSafeTempWorkspaceResult) : json :=
  JObj ([("created", JBool (tr_created t))]
        ++ opt_str "id" (tr_id t) ++ opt_str "executionId" (tr_executionId t) ++ opt_str "reportId" (tr_reportId t)
        ++ opt_str "path" (tr_path t) ++ opt_str "manifestPath" (tr_manifestPath t)
        ++ opt_str "createdAt" (tr_createdAt t) ++ opt_str "lastTouchedAt" (tr_lastTouchedAt t)
        ++ [("staleAfterMs", JInt (tr_staleAfterMs t)); ("note", JStr (tr_note t))]).

Definition apply_json (a : OperatorWorktreeBoundedApplyResult) : json :=
  JObj [("applied", JBool (ap_applied a)); ("simulated", JBool (ap_simulated a)); ("delegated", JBool (ap_delegated a));
        ("changedSurfaces", strings_json (ap_changedSurfaces a)); ("metadata", JObj (ap_metadata a));
        ("message", JStr (ap_message a))].

Definition rollback_json (r : OperatorWorktreeRollbackLightResult) : json :=
  JObj [("attempted", JBool (rb_attempted r)); ("recovered", JBool (rb_recovered r)); ("degraded", JBool (rb_degraded r));
        ("unavailable", JBool (rb_unavailable r)); ("message", JStr (rb_message r))].

Definition stage_json (s : OperatorWorktreeStageResult) : json :=
  JObj [("stage", JStr (stage_string (st_stage s))); ("success", JBool (st_success s)); ("details", JStr (st_details s))].

Definition related_json (r : RelatedArtifact) : json :=
  JObj (("artifactId", JStr (ra_artifactId r)) :: opt_str "path" (ra_path r)).

Definition context_json (c : ReportContext) : json :=
  JObj ([("repoRoot", JStr (rc_repoRoot c)); ("targetPath", JStr (rc_targetPath c))]
        ++ opt_str "workspaceRoot" (rc_workspaceRoot c)
        ++ opt_nullable "workspaceRelativePath" (rc_workspaceRelativePath c)
        ++ opt_nullable "repoRelativePath" (rc_repoRelativePath c)).

Definition report_json (r : OperatorWorktreeExecutionReport) : json :=
  JObj ([("id", JStr (rp_id r)); ("executionId", JStr (rp_executionId r)); ("createdAt", JStr (rp_createdAt r));
         ("operation", JStr (rp_operation r)); ("mode", JStr (mode_name (rp_mode r)));
         ("riskClass", JStr (risk_name (rp_riskClass r))); ("outcome", JStr (outcome_name (rp_outcome r)));
         ("failureClass", JStr (failure_name (rp_failureClass r)));
         ("recommendedAction", JStr (recommendation_name (rp_recommendedAction r)));
         ("allowed", JBool (rp_allowed r));
         ("warningCodes", strings_json (warning_name <$> rp_warningCodes r));
         ("blockingCodes", strings_json (reason_name <$> rp_blockingCodes r));
         ("stages", JArr (stage_json <$> rp_stages r));
         ("context", context_json (rp_context r));
         ("relatedArtifacts", JObj (opt_member "snapshot" (related_json <$> rl_snapshot (rp_relatedArtifacts r))
                                    ++ opt_member "tempWorkspace" (related_json <$> rl_tempWorkspace (rp_relatedArtifacts r))))]
        ++ opt_member "snapshot" (snapshot_result_json <$> rp_snapshot r)
        ++ opt_member "tempWorkspace" (temp_result_json <$> rp_tempWorkspace r)
        ++ opt_member "apply" (apply_json <$> rp_apply r)
        ++ opt_member "rollback" (rollback_json <$> rp_rollback r)
        ++ [("notes", strings_json (rp_notes r))]).

(** [JSON.stringify(value, null, 2)]: [indent] is the white space before the
    closing bracket. *)
Fixpoint stringify_indented (indent : string) (v : json) : string :=
  let inner := indent +:+ "  " in
  let lines open close items :=
    open +:+ String LF inner +:+ Prelude.join ("," +:+ String LF inner) items +:+ String LF indent +:+ close in
  match v with
  | JArr [] => "[]"
  | JArr items => lines "[" "]" (map (stringify_indented inner) items)
  | JObj [] => "{}"
  | JObj members => lines "{" "}" (map (λ m, quoted m.1 +:+ ": " +:+ stringify_indented inner m.2) members)
  | v => stringify v
  end.

(** The text of an artifact: the document and a line feed. *)
Definition document_text (v : json) : string := stringify_indented "" v +:+ String LF "".

(** ** The disk *)

Record Times : Type := mkTimes { birthtimeMs : Z; mtimeMs : Z }.

Record OsWorld : Type := mkOs {
  os_tree : FileSystem;
  os_times : Path → Times;
  os_dangling : list Path;
  os_ticks : nat;
  os_draws : nat;
}.

Definition set_tree (t : FileSystem) (w : OsWorld) : OsWorld :=
  mkOs t (os_times w) (os_dangling w) (os_ticks w) (os_draws w).
Definition set_times (f : Path → Times) (w : OsWorld) : OsWorld :=
  mkOs (os_tree w) f (os_dangling w) (os_ticks w) (os_draws w).

Class OsEnv : Type := {
  now_ms : nat → Z;
  base36 : Z → string;
  random_suffix : nat → string;
  mkdtemp_suffix : nat → string;
  toISOString : Z → string;
}.

Section disk.
Context `{OsEnv} (cwd : Path).

(** [Date.now()], or the clock of the file system. *)
Definition Date_now : M OsWorld Z := λ w,
  (Ret (now_ms (os_ticks w)), mkOs (os_tree w) (os_times w) (os_dangling w) (S (os_ticks w)) (os_draws w)).

Definition draw (source : nat → string) : M OsWorld string := λ w,
  (Ret (source (os_draws w)), mkOs (os_tree w) (os_times w) (os_dangling w) (os_ticks w) (S (os_draws w))).

(** The times after a change of the tree at [t]: a new entry is born then, a
    directory changes with its entries, a file with its content. *)
Definition restamp (t : Z) (old new : FileSystem) (times : Path → Times) : Path → Times := λ p,
  match old !! p, new !! p with
  | None, Some _ => mkTimes t t
  | Some (File c), Some (File c') => if decide (c = c') then times p else mkTimes (birthtimeMs (times p)) t
  | _, _ => if decide (children old p = children new p) then times p else mkTimes (birthtimeMs (times p)) t
  end.

(** An operation on the tree. *)
Definition on_tree {A : Type} (m : M FileSystem A) : M OsWorld A := λ w,
  let '(o, tree) := m (os_tree w) in
  (o, mkOs tree (restamp (now_ms (os_ticks w)) (os_tree w) tree (os_times w)) (os_dangling w) (S (os_ticks w)) (os_draws w)).

(** [fs.mkdir(p, { recursive: true })]. *)
Definition mkdir_p (p : string) : M OsWorld () := on_tree (mkdirSync (path_resolve cwd p)).

(** [fs.writeFile(p, text)]. *)
Definition write_file (p text : string) : M OsWorld () := on_tree (writeFileSync (path_resolve cwd p) text).

(** [Promise.all]: every operation runs; the first rejection is reported. *)
Fixpoint promise_all {W : Type} (ms : list (M W ())) : M W () :=
  match ms with
  | [] => mret ()
  | m :: ms => λ w, let '(o, w) := m w in
                    let '(o', w) := promise_all ms w in
                    (match o with Throw e => Throw e | Ret _ => o' end, w)
  end.

(** [path.join] of a path and further segments. *)
Definition path_join_all (a : string) (segments : list string) : string :=
  path_join a (Prelude.join "/" segments).

(** ** [operator-safe-execution-report.ts] *)

Definition OPERATOR_SAFE_RUNTIME_ROOT : list string := [".dh"; "runtime"; "operator-safe-worktree"].

Definition makeArtifactId (prefix : string) : M OsWorld string :=
  t ← Date_now;
  r ← draw random_suffix;
  mret (prefix +:+ "-" +:+ base36 t +:+ "-" +:+ r).

Definition createOperatorSafeExecutionIdentity : M OsWorld (string * string) :=
  reportId ← makeArtifactId "opw";
  executionId ← makeArtifactId "opw-exec";
  mret (reportId, executionId).

Definition resolveOperatorSafeArtifactsRoot (repoRoot : string) : string :=
  path_join_all repoRoot OPERATOR_SAFE_RUNTIME_ROOT.
Definition resolveOperatorSafeReportsDir (repoRoot : string) : string :=
  path_join (resolveOperatorSafeArtifactsRoot repoRoot) "reports".
Definition resolveOperatorSafeSnapshotsDir (repoRoot : string) : string :=
  path_join (resolveOperatorSafeArtifactsRoot repoRoot) "snapshots".
Definition resolveOperatorSafeTempDir (repoRoot : string) : string :=
  path_join (resolveOperatorSafeArtifactsRoot repoRoot) "temp".

Definition ensureOperatorSafeArtifactDirs (repoRoot : string) : M OsWorld () :=
  promise_all [mkdir_p (resolveOperatorSafeReportsDir repoRoot); mkdir_p (resolveOperatorSafeSnapshotsDir repoRoot);
               mkdir_p (resolveOperatorSafeTempDir repoRoot)].

Definition new_Date_ISO : M OsWorld string := t ← Date_now; mret (toISOString t).

Definition buildOperatorSafeExecutionReport (input : ExecutionReportInput) : M OsWorld OperatorWorktreeExecutionReport :=
  reportId ← (match ri_id input with Some i => mret i | None => makeArtifactId "opw" end);
  executionId ← (match ri_executionId input with Some i => mret i | None => makeArtifactId "opw-exec" end);
  createdAt ← (match ri_createdAt input with Some c => mret c | None => new_Date_ISO end);
  let related := ri_relatedArtifacts input or_else mkRelatedArtifacts None None in
  mret (mkReport reportId executionId createdAt (ri_operation input) (ri_mode input) (ri_riskClass input)
    (ri_outcome input) (ri_failureClass input) (ri_recommendedAction input) (ri_allowed input)
    (ri_warningCodes input) (ri_blockingCodes input) (ri_stages input) (ri_context input) related
    (ri_snapshot input) (ri_tempWorkspace input) (ri_apply input) (ri_rollback input) (ri_notes input or_else [])).

Definition writeOperatorSafeExecutionReport (repoRoot : string) (report : OperatorWorktreeExecutionReport) : M OsWorld string :=
  ensureOperatorSafeArtifactDirs repoRoot;;
  let reportPath := path_join (resolveOperatorSafeReportsDir repoRoot) (rp_id report +:+ ".json") in
  write_file reportPath (document_text (report_json report));;
  mret reportPath.

(** ** [operator-safe-project-worktree-snapshot.ts] *)

Definition makeSnapshotId : M OsWorld string := makeArtifactId "snapshot".

Definition buildSnapshotManifest (preflight : OperatorWorktreePreflightResult) (executionId reportId : string) :
    M OsWorld OperatorWorktreeSnapshotManifest :=
  id ← makeSnapshotId;
  let workspace := pf_workspace preflight in
  let targetRelativePath := wc_targetRelativePath <$> workspace in
  let workspaceRelativePath := wc_workspaceRelativePath <$> workspace in
  let repoRelativePath := wc_repoRelativePath <$> workspace in
  createdAt ← new_Date_ISO;
  mret (mkSnapshotManifest id executionId reportId createdAt (pf_operation preflight) (pf_mode preflight)
    (pf_canonicalRepoRoot preflight) (pf_canonicalTargetPath preflight) (wc_root <$> workspace)
    targetRelativePath workspaceRelativePath repoRelativePath
    (match truthy_string (mjoin repoRelativePath) with
     | Some p => [p]
     | None => match truthy_string (mjoin targetRelativePath) with Some p => [p] | None => [] end
     end)
    (fst <$> pf_warnings preflight) (pf_idempotentSkip preflight)).

Definition captureOperatorSafeSnapshot (repoRoot : string) (preflight : OperatorWorktreePreflightResult)
    (executionId reportId : string) : M OsWorld OperatorWorktreeSnapshotResult :=
  if decide (pf_mode preflight = mode_check) then mret (mkSnapshotResult false false None None)
  else
    manifest ← buildSnapshotManifest preflight executionId reportId;
    ensureOperatorSafeArtifactDirs repoRoot;;
    let artifactPath := path_join (resolveOperatorSafeSnapshotsDir repoRoot) (sm_id manifest +:+ ".json") in
    write_file artifactPath (document_text (snapshot_manifest_json manifest));;
    mret (mkSnapshotResult true true (Some artifactPath) (Some manifest)).

(** ** [operator-safe-temp-workspace.ts] *)

Definition DEFAULT_OPERATOR_SAFE_TEMP_TTL_MS : Z := 4 * 60 * 60 * 1000.

(** [fs.mkdtemp(prefix)]: a new directory whose name is completed by the
    system. *)
Definition mkdtemp (prefix : string) : M OsWorld string :=
  suffix ← draw mkdtemp_suffix;
  let p := prefix +:+ suffix in
  on_tree (λ tree,
    let q := path_resolve cwd p in
    if existsSync q tree then (Throw "EEXIST", tree)
    else if is_dir tree (removelast q) then (Ret (), <[q := Dir]> tree)
    else (Throw "ENOENT", tree));;
  mret p.

(** [path.basename] of a path that does not end in a slash. *)
Definition path_basename (p : string) : string := default "" (last (split_on "/" p)).

Definition prepareOperatorSafeTempWorkspace (repoRoot operation : string) (mode : OperatorWorktreeMode)
    (executionId reportId : string) (ttlMs : option Z) : M OsWorld OperatorSafeTempWorkspaceResult :=
  let staleAfterMs := ttlMs or_else DEFAULT_OPERATOR_SAFE_TEMP_TTL_MS in
  if decide (mode = mode_check) then
    mret (mkTempResult false None None None None None None None staleAfterMs
      "Check mode is advisory-only; temp workspace is not provisioned.")
  else
    ensureOperatorSafeArtifactDirs repoRoot;;
    let tempRoot := resolveOperatorSafeTempDir repoRoot in
    t ← Date_now;
    let prefix := operation +:+ "-" +:+ base36 t +:+ "-" in
    tempPath ← mkdtemp (path_join tempRoot prefix);
    now ← new_Date_ISO;
    let id := path_basename tempPath in
    let manifest := mkTempManifest id executionId reportId now now operation mode repoRoot tempPath staleAfterMs in
    let manifestPath := path_join tempPath "manifest.json" in
    write_file manifestPath (document_text (temp_manifest_json manifest));;
    mret (mkTempResult true (Some id) (Some executionId) (Some reportId) (Some tempPath) (Some manifestPath)
      (Some now) (Some now) staleAfterMs "Provisioned bounded temp workspace for operator-safe execution.").
End disk.

(** ** [operator-safe-bounded-apply.ts] *)

Definition runOperatorSafeBoundedApply (preflight : OperatorWorktreePreflightResult) : OperatorWorktreeBoundedApplyResult :=
  if negb (pf_allowed preflight) then
    mkApply false false false []
      [("blocked", JBool true); ("blockingCount", JInt (Z.of_nat (length (pf_blockingReasons preflight))))]
      "Apply stage skipped because preflight blocked execution."
  else match pf_mode preflight with
  | mode_check =>
    mkApply false false false [] [("advisoryOnly", JBool true)]
      "Check mode is advisory-only; no apply action executed."
  | mode_dry_run =>
    mkApply false true false [] [("parityMode", JStr "dry_run")]
      "Dry-run apply completed with bounded simulation only."
  | mode_execute =>
    mkApply false false true
      (match truthy_string (pf_workspace preflight ≫= wc_targetRelativePath) with Some p => [p] | None => [] end)
      [("parityMode", JStr "execute"); ("delegatedToOperation", JStr (pf_operation preflight))]
      "Execute mode passed bounded checks; side effects remain delegated to operation-specific runner."
  end.

(** ** [operator-safe-project-worktree-rollback-light.ts] *)

Definition attemptOperatorSafeRollbackLight (mode : OperatorWorktreeMode) (snapshot : option OperatorWorktreeSnapshotResult)
    (apply : option OperatorWorktreeBoundedApplyResult) : OperatorWorktreeRollbackLightResult :=
  if decide (mode = mode_check) then
    mkRollback false false false true "Rollback-light is not applicable in check mode."
  else if negb (match snapshot with Some s => sr_required s && sr_captured s | None => false end) then
    mkRollback false false false true
      "Rollback-light unavailable because no compatible snapshot artifact was captured."
  else match apply with
  | None =>
    mkRollback false true false false "No apply side effects detected; rollback-light not required."
  | Some a =>
    if negb (ap_applied a) && negb (ap_delegated a) then
      mkRollback false true false false "No apply side effects detected; rollback-light not required."
    else if ap_delegated a && negb (ap_applied a) then
      mkRollback false false false true
        "Rollback-light unavailable for delegated execute apply in this bounded layer."
    else
      mkRollback true false true false
        "Rollback-light currently records degraded state only; explicit reverse apply is not implemented yet."
  end.

(** ** [operator-safe-project-worktree-utils.ts] *)

Section lifecycle.
Context `{SearchEnv} `{OsEnv} (sha256 : string → string) (locale_le : string → string → bool) (cwd : Path).

Definition findWorkspaceForTarget (workspaceRoots : list string) (targetPath : string) : option string :=
  head (js_sort (λ left right, String.length right <=? String.length left)%nat
          (filter (λ root, isPathWithinWorkspace cwd root targetPath = true) workspaceRoots)).

Definition resolveRecommendation (mode : OperatorWorktreeMode)
    (hasBlockingReasons idempotentSkip hasPartialWarning hasMissingMarkerWarning : bool) : OperatorWorktreeRecommendation :=
  if hasMissingMarkerWarning then add_workspace_marker
  else if idempotentSkip then run_full_index
  else if hasBlockingReasons then adjust_target
  else if bool_decide (mode = mode_execute) && hasPartialWarning then run_dry_run
  else if bool_decide (mode = mode_check) then run_dry_run
  else proceed.

Definition resolveRiskClass (mode : OperatorWorktreeMode) (warningsCount : nat) : OperatorWorktreeRiskClass :=
  if bool_decide (mode = mode_execute) then risk_high
  else if (0 <? warningsCount)%nat then risk_moderate
  else risk_low.

Definition resolveOutcome (mode : OperatorWorktreeMode) (preflightAllowed applyDelegated applyFailed rollbackDegraded : bool) :
    OperatorWorktreeExecutionOutcome :=
  if negb preflightAllowed then outcome_blocked
  else match mode with
  | mode_check => outcome_advisory
  | mode_dry_run => outcome_dry_run
  | mode_execute =>
    if applyFailed then outcome_failed
    else if rollbackDegraded then outcome_rollback_degraded
    else if applyDelegated then outcome_succeeded else outcome_failed
  end.

Definition resolveFailureClass (mode : OperatorWorktreeMode) (preflightAllowed applyFailed rollbackDegraded applyDelegated : bool) :
    OperatorWorktreeFailureClass :=
  if negb preflightAllowed then preflight_failure
  else if rollbackDegraded then failure_rollback_degraded
  else if bool_decide (mode = mode_check) || bool_decide (mode = mode_dry_run) then failure_none
  else if applyFailed then apply_failure
  else if negb applyDelegated then apply_failure
  else failure_none.

Definition normalizeWorkspaceRoots (workspaces : list KnownWorkspace) : list KnownWorkspace :=
  (λ w, mkKnown (canonicalizeAbsolutePath cwd (kw_root w)) (kw_type w) (kw_files w) (kw_diagnostics w) (kw_markers w)
          (kw_partial w)) <$> workspaces.

Definition isSupportedOperation (operation : string) : bool :=
  bool_decide (operation ∈ SUPPORTED_OPERATOR_WORKTREE_OPERATIONS).

Definition stop_reason_name (r : ScanStopReason) : string :=
  match r with
  | stop_none => "none" | max_files_reached => "max_files_reached" | max_depth_reached => "max_depth_reached"
  | max_file_size_scan_stopped => "max_file_size_scan_stopped" | io_error => "io_error"
  end.

(** [workspace.diagnostics?.stopReason ?? d]. *)
Definition stop_reason_of (d : string) (w : KnownWorkspace) : string :=
  ((stop_reason_name ∘ stopReason) <$> kw_diagnostics w) or_else d.

Definition is_partial (w : KnownWorkspace) : bool := bool_decide (kw_partial w = Some true).

(** [if (condition) list.push(item)]. *)
Definition push_if {A : Type} (condition : bool) (item : A) : list A := if condition then [item] else [].

(** The checks that come before the workspaces are looked up. *)
Definition target_blocks (tree : FileSystem) (input : OperatorWorktreePreflightInput) :
    list (OperatorWorktreeReasonCode * string) :=
  let canonicalRepoRoot := canonicalizeAbsolutePath cwd (pi_repoRoot input) in
  let canonicalTargetPath := canonicalizeAbsolutePath cwd (pi_targetPath input) in
  push_if (negb (isSupportedOperation (pi_operation input)))
    (operation_not_supported,
     "Operation '" +:+ pi_operation input +:+ "' is not supported by the bounded operator-safe layer.")
  ++ push_if (bool_decide (trim (pi_targetPath input) = "")) (empty_target_path, "Target path is empty.")
  ++ push_if (negb (existsSync (path_resolve cwd canonicalRepoRoot) tree))
       (invalid_repo_root, "Repository root does not exist.")
  ++ push_if (negb (isPathWithinWorkspace cwd canonicalRepoRoot canonicalTargetPath))
       (target_outside_repo, "Target path is outside the repository boundary.").

(** The workspaces that may hold the target. *)
Definition candidate_workspaces (tree : FileSystem) (input : OperatorWorktreePreflightInput) : list KnownWorkspace :=
  if decide (target_blocks tree input = []) then
    match pi_knownWorkspaces input with
    | Some workspaces => normalizeWorkspaceRoots workspaces
    | None => scanned <$> detectProjects sha256 locale_le cwd tree (canonicalizeAbsolutePath cwd (pi_repoRoot input)) None
    end
  else [].

Definition evaluateOperatorSafeProjectWorktree (tree : FileSystem) (input : OperatorWorktreePreflightInput) :
    OperatorWorktreePreflightResult :=
  let mode := pi_mode input in
  let canonicalRepoRoot := canonicalizeAbsolutePath cwd (pi_repoRoot input) in
  let canonicalTargetPath := canonicalizeAbsolutePath cwd (pi_targetPath input) in
  let projects := candidate_workspaces tree input in
  let workspaceRoot := truthy_string (findWorkspaceForTarget (kw_root <$> projects) canonicalTargetPath) in
  let workspace := workspaceRoot ≫= λ root, List.find (λ w, String.eqb (kw_root w) root) projects in
  let hasGit := existsSync (path_resolve cwd (canonicalRepoRoot +:+ "/.git")) tree in
  let requireVcs := pi_requireVcs input or_else false in
  let warnings :=
    push_if (match workspace ≫= kw_markers with
             | Some markers => negb (hasCargoToml markers) && negb (hasPackageJson markers)
             | None => false
             end)
      (workspace_missing_markers,
       "Workspace has no recognized marker file (package.json or Cargo.toml); safety checks run in bounded mode.")
    ++ (match workspace with
        | Some w => push_if (is_partial w)
            (partial_workspace_scan, "Workspace scan is partial (stop reason: " +:+ stop_reason_of "unknown" w +:+ ").")
        | None => []
        end)
    ++ push_if (negb requireVcs && negb hasGit)
         (vcs_unverified, "Git metadata is not present; continuing with bounded workspace checks only.")
    ++ push_if (bool_decide (mode = mode_execute))
         (execute_is_bounded,
          "Execute mode is bounded to utility-safe checks and does not perform full worktree lifecycle actions.") in
  let targetRelativePath := workspaceRoot ≫= λ root, toWorkspaceRelativePath cwd root canonicalTargetPath in
  let repoRelativePath := toRepoRelativePath cwd canonicalRepoRoot canonicalTargetPath in
  let targetWorkspaceFile := truthy_string targetRelativePath ≫= λ p,
    List.find (λ file, String.eqb (f_path file) p) (from_option kw_files [] workspace) in
  let alreadyIndexed := match targetWorkspaceFile with
                        | Some file => bool_decide (f_id file ∈ pi_alreadyIndexedFileIds input or_else [])
                        | None => false
                        end in
  let blockingReasons :=
    target_blocks tree input
    ++ push_if (match workspace with None => true | Some _ => false end)
         (workspace_not_detected, "No detected workspace contains the target path.")
    ++ push_if (requireVcs && negb hasGit)
         (vcs_required_but_missing, "VCS (git) is required for this operation but .git was not found.")
    ++ push_if alreadyIndexed (already_indexed, "Target workspace file is already indexed in this run.") in
  let recommendation := resolveRecommendation mode (negb (bool_decide (blockingReasons = []))) alreadyIndexed
    (bool_decide (partial_workspace_scan ∈ warnings.*1)) (bool_decide (workspace_missing_markers ∈ warnings.*1)) in
  mkPreflight mode (pi_operation input) (bool_decide (blockingReasons = [])) warnings blockingReasons recommendation
    (pi_repoRoot input) (normalizePathSlashes (pi_targetPath input)) canonicalRepoRoot canonicalTargetPath
    ((λ w, mkWorkspaceContext (kw_root w) (kw_type w) (kw_markers w) (is_partial w) (stop_reason_of "none" w)
             targetRelativePath targetRelativePath repoRelativePath) <$> workspace)
    alreadyIndexed.

(** The stages of a run. *)
Definition lifecycle_stages (preflight : OperatorWorktreePreflightResult) (snapshot : OperatorWorktreeSnapshotResult)
    (tempWorkspace : OperatorSafeTempWorkspaceResult) (apply : OperatorWorktreeBoundedApplyResult)
    (rollback : OperatorWorktreeRollbackLightResult) : list OperatorWorktreeStageResult :=
  let allowed := pf_allowed preflight in
  [mkStageResult at_preflight allowed
     (if allowed then "Preflight checks passed for bounded operator-safe execution."
      else "Preflight blocked execution with " +:+ pretty (length (pf_blockingReasons preflight)) +:+ " blocking reason(s).");
   mkStageResult at_prepare (if allowed then sr_captured snapshot || negb (sr_required snapshot) else false)
     (if sr_required snapshot
      then if sr_captured snapshot then "Snapshot metadata captured." else "Snapshot was required but not captured."
      else "Snapshot not required for this mode.");
   mkStageResult at_apply (if allowed then ap_simulated apply || ap_delegated apply || ap_applied apply else false)
     (ap_message apply);
   mkStageResult at_rollback (negb (rb_degraded rollback)) (rb_message rollback);
   mkStageResult at_cleanup true
     (if tr_created tempWorkspace
      then "Temp workspace lifecycle recorded; cleanup controlled by maintenance utilities."
      else "No temp workspace provisioned for advisory mode.")].

(** What the report of a run is built from. *)
Definition lifecycle_report_input (preflight : OperatorWorktreePreflightResult) (reportId executionId : string)
    (snapshot : OperatorWorktreeSnapshotResult) (tempWorkspace : OperatorSafeTempWorkspaceResult) : ExecutionReportInput :=
  let allowed := pf_allowed preflight in
  let apply := runOperatorSafeBoundedApply preflight in
  let rollback := attemptOperatorSafeRollbackLight (pf_mode preflight) (Some snapshot) (Some apply) in
  let applied := ap_delegated apply || ap_applied apply || ap_simulated apply in
  let applyFailed := allowed && negb (ap_delegated apply) && negb (ap_applied apply) && negb (ap_simulated apply) in
  let related := mkRelatedArtifacts
    ((λ m, mkRelated (sm_id m) (sr_artifactPath snapshot)) <$> sr_manifest snapshot)
    (match truthy_string (tr_id tempWorkspace), truthy_string (tr_path tempWorkspace) with
     | Some id, Some path => Some (mkRelated id (Some path))
     | _, _ => None
     end) in
  mkReportInput
    (pf_operation preflight) (pf_mode preflight)
    (resolveRiskClass (pf_mode preflight) (length (pf_warnings preflight)))
    (resolveOutcome (pf_mode preflight) allowed applied applyFailed (rb_degraded rollback))
    (resolveFailureClass (pf_mode preflight) allowed applyFailed (rb_degraded rollback) applied)
    (pf_recommendedAction preflight) allowed (fst <$> pf_warnings preflight) (fst <$> pf_blockingReasons preflight)
    (lifecycle_stages preflight snapshot tempWorkspace apply rollback)
    (mkReportContext (pf_canonicalRepoRoot preflight) (pf_canonicalTargetPath preflight) (wc_root <$> pf_workspace preflight)
       (wc_workspaceRelativePath <$> pf_workspace preflight) (wc_repoRelativePath <$> pf_workspace preflight))
    (Some snapshot) (Some tempWorkspace) (Some apply) (Some rollback) (Some related)
    (Some (["Bounded operator-safe lifecycle executed.";
            "Execution apply remains delegated to operation-specific runner for execute mode."]
           ++ push_if (rb_unavailable rollback)
                "Rollback-light is unavailable for this flow; this is distinct from rollback-degraded execution."))
    (Some reportId) (Some executionId) None.

Definition runOperatorSafeProjectWorktreeLifecycle (input : OperatorWorktreePreflightInput) :
    M OsWorld (OperatorWorktreePreflightResult * OperatorWorktreeExecutionReport * string) :=
  tree ← gets os_tree;
  let preflight := evaluateOperatorSafeProjectWorktree tree input in
  let repoRoot := pf_canonicalRepoRoot preflight in
  '(reportId, executionId) ← createOperatorSafeExecutionIdentity;
  snapshot ← captureOperatorSafeSnapshot cwd repoRoot preflight executionId reportId;
  tempWorkspace ← prepareOperatorSafeTempWorkspace cwd repoRoot (pf_operation preflight) (pf_mode preflight)
    executionId reportId None;
  report ← buildOperatorSafeExecutionReport
    (lifecycle_report_input preflight reportId executionId snapshot tempWorkspace);
  reportPath ← writeOperatorSafeExecutionReport cwd repoRoot report;
  mret (preflight, report, reportPath).
End lifecycle.

(** ** Directories *)

(** The directory [p] can be made: no file is in its way. *)
Definition openable (p : Path) (t : FileSystem) : Prop :=
  ∀ q, q ≠ [] → q `prefix_of` p → ∀ c, t !! q ≠ Some (File c).

(** [t'] is [t] with the directories down to each of [ps]. *)
Definition opened (ps : list Path) (t t' : FileSystem) : Prop :=
  ∀ q, t' !! q = match t !! q with
                 | Some e => Some e
                 | None => if decide (q ≠ [] ∧ Exists (λ p, q `prefix_of` p) ps) then Some Dir else None
                 end.

Lemma prefix_next (front rest : Path) x : front ++ [x] `prefix_of` front ++ x :: rest.
Proof. apply prefix_app, prefix_cons, prefix_nil. Qed.

Lemma snoc_longer (front : Path) x : front ++ [x] ≠ front.
Proof. intros E%(f_equal length). rewrite length_app in E. simpl in E. lia. Qed.

Lemma prefix_snoc_split (front rest q : Path) x :
  q `prefix_of` front ++ x :: rest ↔ q `prefix_of` front ∨ q `prefix_of` (front ++ [x]) ++ rest ∧ (front ++ [x]) `prefix_of` q.
Proof.
  rewrite <-app_assoc. change ([x] ++ rest) with (x :: rest). split.
  - intros Hq. destruct (prefix_weak_total _ _ _ Hq (prefix_next front rest x)) as [Hqx|Hxq]; [|by right].
    destruct (decide (q = front ++ [x])) as [->|Hne]; [by right|]. left.
    destruct Hqx as [k Hk]. destruct k as [|y k _] using rev_ind; [by rewrite app_nil_r in Hk|].
    rewrite app_assoc in Hk. apply app_inj_tail in Hk as [-> _]. by apply prefix_app_r.
  - intros [Hq|[Hq _]]; [|done]. by apply prefix_app_r.
Qed.

Lemma mkdir_from_opens rest : ∀ front t,
  (∀ q, front `prefix_of` q → q ≠ front → q `prefix_of` front ++ rest → ∀ c, t !! q ≠ Some (File c)) →
  ∃ t', mkdir_from front rest t = (Ret (), t') ∧
    ∀ q, t' !! q = match t !! q with
                   | Some e => Some e
                   | None => if decide (q ≠ front ∧ front `prefix_of` q ∧ q `prefix_of` front ++ rest) then Some Dir else None
                   end.
Proof.
  induction rest as [|s rest IH]; intros front t Hopen; cbn [mkdir_from].
  - exists t. split; [done|]. intros q. destruct (t !! q); [done|]. rewrite decide_False; [done|].
    intros (Hne & H1 & H2). rewrite app_nil_r in H2. apply Hne. by apply (anti_symm prefix).
  - assert (∀ q, (q ≠ front ++ [s] ∧ front ++ [s] `prefix_of` q ∧ q `prefix_of` (front ++ [s]) ++ rest) ↔
                 (q ≠ front ++ [s] ∧ q ≠ front ∧ front `prefix_of` q ∧ q `prefix_of` front ++ s :: rest)) as Hiff.
    { intros q. rewrite (prefix_snoc_split front rest q s). split.
      - intros (Hne & Hp & Hq). split_and!; [done| |by destruct Hp as [k ->]; rewrite <-app_assoc; apply prefix_app_r|by right].
        intros ->. apply prefix_length in Hp. rewrite length_app in Hp. simpl in Hp. lia.
      - intros (Hne & Hnf & Hp & [Hq|[Hq Hp']]); [|done]. exfalso. apply Hnf. by apply (anti_symm prefix). }
    assert (front `prefix_of` front ++ [s]) as Hfs by (by apply prefix_app_r).
    pose proof (prefix_next front rest s) as Hnext. pose proof (snoc_longer front s) as Hlong.
    set (t1 := match t !! (front ++ [s]) with None => <[front ++ [s] := Dir]> t | _ => t end).
    assert (∀ q, t1 !! q = match t !! q with Some e => Some e | None => if decide (q = front ++ [s]) then Some Dir else None end) as Ht1.
    { intros q. unfold t1. destruct (decide (q = front ++ [s])) as [->|Hq].
      - destruct (t !! (front ++ [s])) eqn:E; [done|]. by rewrite lookup_insert_eq.
      - destruct (t !! (front ++ [s])); [by destruct (t !! q)|]. rewrite lookup_insert_ne by done. by destruct (t !! q). }
    destruct (IH (front ++ [s]) t1) as (t' & Hrun & Hlook).
    { intros q Hp Hne Hq c. rewrite Ht1. rewrite decide_False by done.
      destruct (Hiff q) as [Hto _]. destruct (Hto (conj Hne (conj Hp Hq))) as (_ & ? & ? & ?). specialize (Hopen q).
      destruct (t !! q); [by apply Hopen|done]. }
    exists t'. split.
    + unfold t1 in Hrun. destruct (t !! (front ++ [s])) as [[c|]|] eqn:E; [|done|done].
      exfalso. by apply (Hopen (front ++ [s]) Hfs Hlong Hnext c).
    + intros q. rewrite Hlook, Ht1. destruct (t !! q); [done|]. destruct (decide (q = front ++ [s])) as [->|Hne].
      * by rewrite decide_True by done.
      * specialize (Hiff q). destruct (decide _) as [Hy|Hn]; destruct (decide _) as [Hy'|Hn']; try done; exfalso; naive_solver.
Qed.

Lemma mkdir_opens p t : openable p t → ∃ t', mkdirSync p t = (Ret (), t') ∧ opened [p] t t'.
Proof.
  intros Ho. destruct (mkdir_from_opens p [] t) as (t' & Hrun & Hlook).
  { intros q _ Hne Hq. by apply Ho. }
  exists t'. split; [done|]. intros q. rewrite Hlook. destruct (t !! q); [done|].
  pose proof (prefix_nil q). assert (Exists (λ p, q `prefix_of` p) [p] ↔ q `prefix_of` p) as Hiff.
  { rewrite Exists_cons, Exists_nil. tauto. }
  destruct (decide _) as [Hy|Hn]; destruct (decide _) as [Hy'|Hn']; try done; exfalso; naive_solver.
Qed.

Lemma opened_trans ps qs t t1 t2 : opened ps t t1 → opened qs t1 t2 → opened (ps ++ qs) t t2.
Proof.
  intros H1 H2 q. rewrite H2, H1. destruct (t !! q); [done|]. pose proof (Exists_app (λ p, q `prefix_of` p) ps qs) as Hiff.
  repeat case_decide; try done; exfalso; naive_solver.
Qed.

Lemma opened_unique ps t t1 t2 : opened ps t t1 → opened ps t t2 → t1 = t2.
Proof. intros H1 H2. apply map_eq. intros q. by rewrite H1, H2. Qed.

Lemma opened_openable ps p t t' : opened ps t t' → openable p t → openable p t'.
Proof.
  intros Ht Ho q Hne Hq c. rewrite Ht. specialize (Ho q Hne Hq c). destruct (t !! q); [done|]. by case_decide.
Qed.

(** All directories down to [ps] are there. *)
Definition has_dirs (ps : list Path) (t : FileSystem) : Prop :=
  ∀ q p, p ∈ ps → q ≠ [] → q `prefix_of` p → t !! q = Some Dir.

Lemma opened_has_dirs ps t t' : Forall (λ p, openable p t) ps → opened ps t t' → has_dirs ps t'.
Proof.
  rewrite Forall_forall. intros Hall Ho q p Hp Hne Hq. rewrite Ho. specialize (Hall p Hp q Hne Hq).
  destruct (t !! q) as [[c|]|]; [by destruct (Hall c)|done|]. rewrite decide_True; [done|]. split; [done|].
  apply Exists_exists. eauto.
Qed.

Lemma has_dirs_opened ps t t' : has_dirs ps t → opened ps t t' → t' = t.
Proof.
  intros Hd Ho. apply map_eq. intros q. rewrite Ho. destruct (t !! q) eqn:E; [done|].
  case_decide as Hq; [|done]. destruct Hq as [Hne (p & Hp & Hq)%Exists_exists]. pose proof (Hd q p Hp Hne Hq). congruence.
Qed.

Lemma has_dirs_openable ps t : has_dirs ps t → Forall (λ p, openable p t) ps.
Proof. intros Hd. apply Forall_forall. intros p Hp q Hne Hq c. pose proof (Hd q p Hp Hne Hq). congruence. Qed.

(** ** Paths of artifacts *)

Lemma resolve_join_clean base (l : Path) : Forall clean l → path_resolve base (Prelude.join "/" l) = base ++ l.
Proof.
  intros Hl. destruct (decide (l = [])) as [->|Hne]; [by rewrite app_nil_r|].
  assert (Forall no_slash l) as Hns by (eapply Forall_impl; [exact Hl|]; by intros s (_ & _ & _ & ?)).
  unfold path_resolve. rewrite split_join_slash by done.
  assert (startsWith (Prelude.join "/" l) "/" = false) as ->; [|by apply resolve_clean].
  destruct l as [|[|c x] l]; [done|by inversion Hl as [|? ? (? & _)]; subst|]. inversion Hns as [|? ? Hc _]; subst.
  unfold no_slash in Hc. cbn [has_char] in Hc. apply orb_false_iff in Hc as [Hc _].
  assert (∃ t, Prelude.join "/" (String c x :: l) = String c t) as [t ->] by (destruct l; by eexists).
  apply not_true_is_false. intros [t' Ht]%startsWith_iff. simpl in Ht. injection Ht as -> _. done.
Qed.

Lemma join_not_absolute (l : Path) : Forall clean l → isAbsolute (Prelude.join "/" l) = false.
Proof.
  intros Hl. pose proof (resolve_join_clean ["x"] l Hl) as H1. apply not_true_is_false. intros Ha. unfold path_resolve, isAbsolute in *.
  rewrite Ha in H1. pose proof (resolve_join_clean [] l Hl) as H2. unfold path_resolve in H2. rewrite Ha in H2. rewrite H1 in H2. apply (f_equal length) in H2. simpl in H2. lia.
Qed.

(** Where a path that was joined to a directory leads. *)
Lemma resolve_below cwd dir (l : Path) : Forall clean l → path_resolve cwd (path_join dir (Prelude.join "/" l)) = path_resolve cwd dir ++ l.
Proof. intros Hl. rewrite resolve_join by (by apply join_not_absolute). by apply resolve_join_clean. Qed.

Lemma resolve_entry cwd dir name : clean name → path_resolve cwd (path_join dir name) = path_resolve cwd dir ++ [name].
Proof. intros Hn. apply (resolve_below cwd dir [name]). by constructor. Qed.

(** A joined absolute path is spelled by its segments. *)
Lemma join_below dir (l : Path) : isAbsolute dir = true → Forall clean l → l ≠ [] →
  path_join dir (Prelude.join "/" l) = path_string (path_resolve [] dir ++ l).
Proof.
  intros Ha Hl Hne. assert (Forall no_slash l) as Hns by (eapply Forall_impl; [exact Hl|]; by intros s (_ & _ & _ & ?)).
  pose proof (resolve_below [] dir l Hl) as Hres. assert (Prelude.join "/" l ≠ "") as Hj.
  { intros E. pose proof (split_join_slash l Hne Hns) as Hs. rewrite E in Hs. simpl in Hs.
    destruct l as [|x [|? ?]]; [done| |done]. inversion Hl as [|? ? (Hx & _)]; subst. by simplify_eq. }
  unfold path_join in *. rewrite !decide_False in * by (done || by intros ->).
  set (s := dir +:+ "/" +:+ Prelude.join "/" l) in *.
  assert (isAbsolute s = true) as Hs.
  { apply startsWith_iff in Ha as [t ->]. apply startsWith_iff. eexists. unfold s. by rewrite append_assoc. }
  rewrite resolve_normalize in Hres. rewrite <-Hres. rewrite (resolve_segments [] s), Hs.
  destruct (segments_normal s) as (k & l' & Hseg & Hl' & Hk). rewrite (Hk Hs) in Hseg. simpl in Hseg.
  assert (foldl resolve_step [] (segments s) = segments s) as E by (rewrite Hseg; by apply resolve_clean).
  rewrite E. unfold path_normalize. rewrite decide_False by (by intros E'; rewrite E' in Hs). rewrite Hs.
  change (foldl (normalize_step true) [] (split_on "/" s)) with (foldl (normalize_step true) [] (split_on "/" s)).
  assert (foldl (normalize_step true) [] (split_on "/" s) = segments s) as -> by (unfold segments; by rewrite Hs).
  rewrite decide_False.
  - assert (endsWith_slash s = false) as ->; [|by rewrite append_nil_r].
    unfold endsWith_slash, s. rewrite split_slash_app, split_join_slash, last_app by done. apply bool_decide_eq_false.
    destruct (last l) as [x|] eqn:El; [|by apply last_None in El]. apply last_Some_elem_of in El.
    rewrite Forall_forall in Hl. destruct (Hl x El) as (? & _). naive_solver.
  - intros E'%segments_join_nil. rewrite (resolve_segments [] s), Hs, E' in Hres. simpl in Hres.
    symmetry in Hres. by apply app_nil in Hres as [_ ?].
Qed.

Lemma join_entry dir name : isAbsolute dir = true → clean name → path_join dir name = path_string (path_resolve [] dir ++ [name]).
Proof. intros Ha Hn. apply (join_below dir [name]); [done|by constructor|done]. Qed.

Lemma path_string_absolute (l : Path) : isAbsolute (path_string l) = true.
Proof. apply startsWith_iff. by eexists. Qed.

Lemma path_string_append (l : Path) x s : path_string (l ++ [x]) +:+ s = path_string (l ++ [x +:+ s]).
Proof.
  unfold path_string. destruct (decide (l = [])) as [->|Hne]; [done|]. rewrite !ScanPaths.join_app by done. by rewrite !append_assoc.
Qed.

(** The directories of the three families of artifacts. *)
Definition artifact_dir (root : Path) (family : string) : Path := root ++ OPERATOR_SAFE_RUNTIME_ROOT ++ [family].

Definition artifact_dirs (root : Path) : list Path :=
  [artifact_dir root "reports"; artifact_dir root "snapshots"; artifact_dir root "temp"].

Lemma clean_check s : bool_decide (s ≠ "" ∧ s ≠ "." ∧ s ≠ "..") && negb (has_char SLASH s) = true → clean s.
Proof. intros [H1 H2]%andb_true_iff. apply bool_decide_eq_true in H1 as (? & ? & ?). apply negb_true_iff in H2. done. Qed.

Lemma runtime_root_clean : Forall clean OPERATOR_SAFE_RUNTIME_ROOT.
Proof. repeat constructor; done. Qed.

Lemma resolve_artifacts_root cwd repoRoot :
  path_resolve cwd (resolveOperatorSafeArtifactsRoot repoRoot) = path_resolve cwd repoRoot ++ OPERATOR_SAFE_RUNTIME_ROOT.
Proof. apply (resolve_below cwd repoRoot), runtime_root_clean. Qed.

Lemma resolve_artifact_dir cwd repoRoot family : clean family →
  path_resolve cwd (path_join (resolveOperatorSafeArtifactsRoot repoRoot) family) = artifact_dir (path_resolve cwd repoRoot) family.
Proof. intros Hf. rewrite resolve_entry, resolve_artifacts_root by done. unfold artifact_dir. by rewrite <-app_assoc. Qed.

Lemma resolve_reports cwd repoRoot : path_resolve cwd (resolveOperatorSafeReportsDir repoRoot) = artifact_dir (path_resolve cwd repoRoot) "reports".
Proof. by apply resolve_artifact_dir, clean_check. Qed.
Lemma resolve_snapshots cwd repoRoot : path_resolve cwd (resolveOperatorSafeSnapshotsDir repoRoot) = artifact_dir (path_resolve cwd repoRoot) "snapshots".
Proof. by apply resolve_artifact_dir, clean_check. Qed.
Lemma resolve_temp cwd repoRoot : path_resolve cwd (resolveOperatorSafeTempDir repoRoot) = artifact_dir (path_resolve cwd repoRoot) "temp".
Proof. by apply resolve_artifact_dir, clean_check. Qed.

(** ** The preflight *)

Lemma find_workspace_spec cwd roots target :
  match findWorkspaceForTarget cwd roots target with
  | Some r => r ∈ roots ∧ isPathWithinWorkspace cwd r target = true ∧
              ∀ r', r' ∈ roots → isPathWithinWorkspace cwd r' target = true → String.length r' ≤ String.length r
  | None => ∀ r', r' ∈ roots → isPathWithinWorkspace cwd r' target = false
  end.
Proof.
  unfold findWorkspaceForTarget. set (le := λ l r : string, _). set (matches := filter _ roots).
  assert (∀ x, x ∈ js_sort le matches ↔ x ∈ roots ∧ isPathWithinWorkspace cwd x target = true) as Hel.
  { intros x. rewrite elem_of_js_sort. unfold matches. rewrite list_elem_of_filter. tauto. }
  pose proof (js_sort_sorted le ltac:(intros x y Hf%Nat.leb_gt; apply Nat.leb_le; lia)
                ltac:(intros x y z H1%Nat.leb_le H2%Nat.leb_le; apply Nat.leb_le; lia) matches) as Hs.
  destruct (js_sort le matches) as [|r rs]; simpl.
  - intros r' Hr'. apply not_true_is_false. intros Hw. by apply (not_elem_of_nil r'), Hel.
  - apply StronglySorted_inv in Hs as [_ Hall]. rewrite Forall_forall in Hall. split_and!; [apply Hel; set_solver..|].
    intros r' Hr' Hw. assert (r' ∈ r :: rs) as [->|Hin]%elem_of_cons by (by apply Hel); [done|]. by apply Nat.leb_le, Hall.
Qed.

Section preflight.
Context `{SearchEnv} (sha256 : string → string) (locale_le : string → string → bool) (cwd : Path).

Lemma push_if_nil {A : Type} (b : bool) (x : A) : push_if b x = [] ↔ b = false.
Proof. by destruct b. Qed.

Lemma canonicalized_not_empty input : canonicalizeAbsolutePath cwd input ≠ "".
Proof. by destruct (canonicalize_absolute cwd input) as [t ->]. Qed.

Lemma truthy_not_empty s : s ≠ "" → truthy_string (Some s) = Some s.
Proof. by destruct s. Qed.

Lemma detected_root_canonical tree repoRoot options w :
  w ∈ detectProjects sha256 locale_le cwd tree repoRoot options → ∃ p, w_root w = canonicalizeAbsolutePath cwd p.
Proof.
  unfold detectProjects. case_decide.
  - intros ->%list_elem_of_singleton. by eexists.
  - intros (root & -> & Hroot)%list_elem_of_fmap. simpl. unfold finalizeWorkspaceRoots in Hroot.
    apply elem_of_js_sort, list_elem_of_filter in Hroot as [_ Hroot]. apply elem_of_js_sort, js_dedup_spec in Hroot as [Hroot _].
    apply list_elem_of_filter in Hroot as [_ (p & -> & _)%list_elem_of_fmap]. by exists p.
Qed.

Lemma candidate_root tree input w : w ∈ candidate_workspaces sha256 locale_le cwd tree input → kw_root w ≠ "".
Proof.
  unfold candidate_workspaces. case_decide; [|by intros ?%not_elem_of_nil]. destruct (pi_knownWorkspaces input).
  - intros (k & -> & _)%list_elem_of_fmap. apply canonicalized_not_empty.
  - intros (k & -> & Hk)%list_elem_of_fmap. destruct (detected_root_canonical _ _ _ _ Hk) as [p Hp]. simpl. rewrite Hp. apply canonicalized_not_empty.
Qed.

(** The workspace that the preflight works with. *)
Definition chosen (tree : FileSystem) (input : OperatorWorktreePreflightInput) : option KnownWorkspace :=
  let projects := candidate_workspaces sha256 locale_le cwd tree input in
  truthy_string (findWorkspaceForTarget cwd (kw_root <$> projects) (canonicalizeAbsolutePath cwd (pi_targetPath input)))
    ≫= λ root, List.find (λ w, String.eqb (kw_root w) root) projects.

Definition contains (w : KnownWorkspace) (input : OperatorWorktreePreflightInput) : Prop :=
  isPathWithinWorkspace cwd (kw_root w) (canonicalizeAbsolutePath cwd (pi_targetPath input)) = true.

Lemma chosen_spec tree input :
  match chosen tree input with
  | Some w => w ∈ candidate_workspaces sha256 locale_le cwd tree input ∧ contains w input ∧
              ∀ w', w' ∈ candidate_workspaces sha256 locale_le cwd tree input → contains w' input →
                String.length (kw_root w') ≤ String.length (kw_root w)
  | None => ∀ w, w ∈ candidate_workspaces sha256 locale_le cwd tree input → ¬ contains w input
  end.
Proof.
  unfold chosen, contains. pose proof (candidate_root tree input) as Hne.
  set (projects := candidate_workspaces _ _ _ _ _) in *. set (target := canonicalizeAbsolutePath _ _).
  pose proof (find_workspace_spec cwd (kw_root <$> projects) target) as Hf.
  destruct (findWorkspaceForTarget _ _ _) as [r|].
  - destruct Hf as ((w0 & -> & Hw0)%list_elem_of_fmap & Hw & Hmax). rewrite truthy_not_empty by (by apply Hne). cbn [mbind option_bind].
    destruct (List.find _ projects) as [w|] eqn:E.
    + apply List.find_some in E as [Hin Heq%String.eqb_eq]. rewrite Heq. split_and!; [by apply list_elem_of_In|done|].
      intros w' Hw' Hc. apply Hmax; [|done]. by apply list_elem_of_fmap_2.
    + exfalso. apply list_elem_of_In in Hw0. pose proof (List.find_none _ _ E w0 Hw0) as Hn. cbv beta in Hn. by rewrite String.eqb_refl in Hn.
  - cbn [truthy_string mbind option_bind]. intros w Hw. rewrite (Hf (kw_root w)); [done|]. by apply list_elem_of_fmap_2.
Qed.

(** The target is a file of the workspace that was indexed already: the first file
    with the path of the target relative to the workspace. *)
Definition target_indexed (w : KnownWorkspace) (input : OperatorWorktreePreflightInput) : Prop :=
  ∃ p file,
    toWorkspaceRelativePath cwd (kw_root w) (canonicalizeAbsolutePath cwd (pi_targetPath input)) = Some p ∧ p ≠ "" ∧
    List.find (λ file, String.eqb (f_path file) p) (kw_files w) = Some file ∧
    f_id file ∈ (pi_alreadyIndexedFileIds input or_else []).

Lemma truthy_string_Some o p : truthy_string o = Some p ↔ o = Some p ∧ p ≠ "".
Proof. clear. destruct o as [[|c t]|]; simpl; naive_solver. Qed.

Lemma skip_spec tree input :
  pf_idempotentSkip (evaluateOperatorSafeProjectWorktree sha256 locale_le cwd tree input) = true ↔
  ∃ w, chosen tree input = Some w ∧ target_indexed w input.
Proof.
  unfold evaluateOperatorSafeProjectWorktree, chosen. cbn [pf_idempotentSkip].
  set (projects := candidate_workspaces _ _ _ _ _). set (target := canonicalizeAbsolutePath cwd (pi_targetPath input)).
  destruct (truthy_string (findWorkspaceForTarget cwd (kw_root <$> projects) target)) as [root|]; cbn [mbind option_bind];
    [|split; [done|by intros (w & ? & _)]].
  destruct (List.find (λ w, String.eqb (kw_root w) root) projects) as [w|] eqn:Hw; cbn [from_option].
  - assert (kw_root w = root) as Hroot by (by apply List.find_some in Hw as [_ ?%String.eqb_eq]). split.
    + destruct (truthy_string (toWorkspaceRelativePath cwd root target)) as [p|] eqn:Hp; [|done]. cbn [mbind option_bind].
      destruct (List.find _ (kw_files w)) as [file|] eqn:Hf; [|done]. intros Hid%bool_decide_eq_true.
      apply truthy_string_Some in Hp as [Hp Hne]. exists w. split; [done|]. exists p, file. rewrite Hroot. done.
    + intros (w' & [= <-] & p & file & Hp & Hne & Hf & Hid). rewrite Hroot in Hp.
      rewrite (proj2 (truthy_string_Some _ p)) by done. cbn [mbind option_bind]. rewrite Hf. by apply bool_decide_eq_true.
  - split; [|by intros (w & ? & _)]. by destruct (truthy_string (toWorkspaceRelativePath cwd root target)).
Qed.

(** C31 What the preflight allows: a supported operation on a path that is not
    blank, in a repository that exists, inside of it and inside of a workspace,
    under version control when that is required, and, in the chosen workspace, not
    a file that is among those indexed already.  The chosen workspace, which the
    context names, holds the target, and no candidate that holds it has a longer
    root; the result is marked as a skip exactly for a file that is indexed
    already. *)
Theorem preflight_exact tree input :
  let r := evaluateOperatorSafeProjectWorktree sha256 locale_le cwd tree input in
  let root := canonicalizeAbsolutePath cwd (pi_repoRoot input) in
  let candidates := candidate_workspaces sha256 locale_le cwd tree input in
  (pf_allowed r = true ↔
     pi_operation input = "index_workspace" ∧ trim (pi_targetPath input) ≠ "" ∧
     existsSync (path_resolve cwd root) tree = true ∧
     isPathWithinWorkspace cwd root (canonicalizeAbsolutePath cwd (pi_targetPath input)) = true ∧
     (∃ w, w ∈ candidates ∧ contains w input) ∧
     (pi_requireVcs input = Some true → existsSync (path_resolve cwd (root +:+ "/.git")) tree = true) ∧
     ¬ ∃ w, chosen tree input = Some w ∧ target_indexed w input) ∧
  (pf_idempotentSkip r = true ↔ ∃ w, chosen tree input = Some w ∧ target_indexed w input) ∧
  wc_root <$> pf_workspace r = kw_root <$> chosen tree input ∧
  (∀ w, chosen tree input = Some w → w ∈ candidates ∧ contains w input ∧
     ∀ w', w' ∈ candidates → contains w' input → String.length (kw_root w') ≤ String.length (kw_root w)).
Proof.
  intros r root candidates. pose proof (chosen_spec tree input) as Hch. fold candidates in Hch.
  pose proof (skip_spec tree input) as Hskip. fold r in Hskip. split; [|split; [done|split]].
  - rewrite <-Hskip, not_true_iff_false. unfold r, evaluateOperatorSafeProjectWorktree. cbn [pf_allowed pf_idempotentSkip].
    fold candidates root. change (truthy_string _ ≫= λ root0, List.find _ candidates) with (chosen tree input).
    rewrite bool_decide_eq_true. rewrite !app_nil. unfold target_blocks. fold root. rewrite !app_nil, !push_if_nil.
    rewrite !negb_false_iff. unfold isSupportedOperation. rewrite bool_decide_eq_true.
    rewrite bool_decide_eq_false. unfold SUPPORTED_OPERATOR_WORKTREE_OPERATIONS. rewrite list_elem_of_singleton.
    assert ((match chosen tree input with Some _ => false | None => true end) = false ↔ ∃ w, w ∈ candidates ∧ contains w input) as ->.
    { destruct (chosen tree input) as [w|]; [destruct Hch as (Hc1 & Hc2 & _)|]; [by split; [intros _; exists w|]|]. split; [done|]. intros (w & Hw & Hc). by destruct (Hch w). }
    assert ((pi_requireVcs input or_else false) && negb (existsSync (path_resolve cwd (root +:+ "/.git")) tree) = false ↔
      (pi_requireVcs input = Some true → existsSync (path_resolve cwd (root +:+ "/.git")) tree = true)) as ->.
    { clear. destruct (pi_requireVcs input) as [[|]|], (existsSync _ tree); simpl; naive_solver. }
    tauto.
  - unfold r, evaluateOperatorSafeProjectWorktree. cbn [pf_workspace]. fold candidates.
    change (truthy_string _ ≫= λ root0, List.find _ candidates) with (chosen tree input).
    by destruct (chosen tree input).
  - intros w Hw. by rewrite Hw in Hch.
Qed.
End preflight.

(** ** What a run leaves behind *)

Lemma bind_ret_inv {W A B : Type} (m : M W A) (k : A → M W B) w b w' :
  (m ≫= k) w = (Ret b, w') → ∃ a w1, m w = (Ret a, w1) ∧ k a w1 = (Ret b, w').
Proof. unfold mbind, M_bind. destruct (m w) as [[a|e] w1]; [|done]. eauto. Qed.

Lemma mkdir_from_ret rest : ∀ front t u t', mkdir_from front rest t = (Ret u, t') →
  ∀ a b c, a ≠ [] → rest = a ++ b → t !! (front ++ a) ≠ Some (File c).
Proof.
  induction rest as [|s rest IH]; intros front t u t' Hrun a b c Ha Heq; [by destruct a|].
  destruct a as [|x a]; [done|]. injection Heq as <- Heq. cbn [mkdir_from] in Hrun.
  assert (∀ t1, (a ≠ [] → t1 !! (front ++ s :: a) = t !! (front ++ s :: a)) → mkdir_from (front ++ [s]) rest t1 = (Ret u, t') →
    a ≠ [] → t !! (front ++ s :: a) ≠ Some (File c)) as Hgo.
  { intros t1 Hsame Hrest Hne. rewrite <-Hsame by done. change (s :: a) with ([s] ++ a). rewrite app_assoc. by eapply IH. }
  destruct (decide (a = [])) as [->|Hne].
  - intros E. by rewrite E in Hrun.
  - destruct (t !! (front ++ [s])) as [[|]|]; [done|by eapply Hgo|]. eapply Hgo; [|exact Hrun|done].
    intros _. apply lookup_insert_ne. intros E. apply (f_equal length) in E. rewrite !length_app in E. destruct a; [done|simpl in E; lia].
Qed.

Lemma mkdir_ret p t u t' : mkdirSync p t = (Ret u, t') → openable p t ∧ opened [p] t t'.
Proof.
  intros Hrun. assert (openable p t) as Ho.
  { intros q Hne [b Hb] c. by apply (mkdir_from_ret p [] t u t' Hrun q b). }
  split; [done|]. destruct (mkdir_opens p t Ho) as (t1 & Hrun1 & Hopen). rewrite Hrun in Hrun1. by injection Hrun1 as _ <-.
Qed.

Section effects.
Context `{OsEnv} (cwd : Path).

Lemma mkdir_p_ret p w u w' : mkdir_p cwd p w = (Ret u, w') →
  openable (path_resolve cwd p) (os_tree w) ∧ opened [path_resolve cwd p] (os_tree w) (os_tree w').
Proof.
  unfold mkdir_p, on_tree. destruct (mkdirSync _ _) as [o t] eqn:E. intros [= -> <-]. by apply mkdir_ret in E.
Qed.

Lemma ensure_ret repoRoot w u w' : ensureOperatorSafeArtifactDirs cwd repoRoot w = (Ret u, w') →
  opened (artifact_dirs (path_resolve cwd repoRoot)) (os_tree w) (os_tree w') ∧
  has_dirs (artifact_dirs (path_resolve cwd repoRoot)) (os_tree w').
Proof.
  unfold ensureOperatorSafeArtifactDirs. cbn [promise_all].
  destruct (mkdir_p cwd (resolveOperatorSafeReportsDir repoRoot) w) as [[[]|] w1] eqn:E1; cbv iota beta;
    destruct (mkdir_p cwd (resolveOperatorSafeSnapshotsDir repoRoot) w1) as [[[]|] w2] eqn:E2; cbv iota beta;
    destruct (mkdir_p cwd (resolveOperatorSafeTempDir repoRoot) w2) as [[[]|] w3] eqn:E3; cbv iota beta;
    unfold mret, M_ret; cbv iota beta; try done. intros [= <- <-].
  apply mkdir_p_ret in E1 as [Ho1 E1], E2 as [Ho2 E2], E3 as [Ho3 E3].
  set (dirs := artifact_dirs _). rewrite resolve_reports in E1, Ho1. rewrite resolve_snapshots in E2, Ho2. rewrite resolve_temp in E3, Ho3.
  assert (opened dirs (os_tree w) (os_tree w3)) as Hopen by (eapply (opened_trans [_]), (opened_trans [_]); eassumption).
  split; [done|]. eapply opened_has_dirs; [|exact Hopen]. apply Forall_cons_2; [done|].
  assert (∀ p q ps, opened ps p q → ∀ d, openable d q → openable d p) as Hback.
  { intros t t' ps Hps d Hd q Hne Hq c Hc. apply (Hd q Hne Hq c). by rewrite Hps, Hc. }
  apply Forall_cons_2; [exact (Hback _ _ _ E1 _ Ho2)|]. apply Forall_cons_2; [|constructor]. exact (Hback _ _ _ E1 _ (Hback _ _ _ E2 _ Ho3)).
Qed.

Lemma promise_all_ok {W : Type} (ms : list (M W ())) w : ∀ (I : W → Prop), I w → Forall (λ m, ∀ w, I w → ∃ w', m w = (Ret (), w') ∧ I w') ms →
  ∃ w', promise_all ms w = (Ret (), w') ∧ I w'.
Proof.
  intros I Hw Hms. revert w Hw. induction Hms as [|m ms Hm _ IH]; intros w Hw; cbn [promise_all]; [by exists w|].
  destruct (Hm w Hw) as (w1 & -> & H1). destruct (IH w1 H1) as (w2 & -> & H2). eauto.
Qed.

(** Where the directories exist, making them changes nothing. *)
Lemma ensure_again repoRoot w : has_dirs (artifact_dirs (path_resolve cwd repoRoot)) (os_tree w) →
  ∃ w', ensureOperatorSafeArtifactDirs cwd repoRoot w = (Ret (), w') ∧ os_tree w' = os_tree w ∧ os_dangling w' = os_dangling w.
Proof.
  intros Hd. apply (promise_all_ok _ w (λ w', os_tree w' = os_tree w ∧ os_dangling w' = os_dangling w)); [done|].
  assert (∀ p, path_resolve cwd p ∈ artifact_dirs (path_resolve cwd repoRoot) → ∀ w1, os_tree w1 = os_tree w ∧ os_dangling w1 = os_dangling w →
    ∃ w', mkdir_p cwd p w1 = (Ret (), w') ∧ os_tree w' = os_tree w ∧ os_dangling w' = os_dangling w) as Hone.
  { intros p Hp w1 [Ht Hl]. unfold mkdir_p, on_tree. rewrite Ht. pose proof (has_dirs_openable _ _ Hd) as Ho. rewrite Forall_forall in Ho.
    destruct (mkdir_opens _ _ (Ho _ Hp)) as (t' & -> & Hopen). eexists. split; [done|]. split; [|done]. simpl.
    eapply has_dirs_opened; [|exact Hopen]. intros q p' ->%list_elem_of_singleton. by apply Hd. }
  repeat apply Forall_cons_2; [..|by apply Forall_nil_2]; apply Hone; rewrite ?resolve_reports, ?resolve_snapshots, ?resolve_temp; set_solver.
Qed.

Lemma write_ret p text w u w' : write_file cwd p text w = (Ret u, w') →
  os_tree w' = <[path_resolve cwd p := File text]> (os_tree w) ∧ is_dir (os_tree w) (path_resolve cwd p) = false ∧
  os_dangling w' = os_dangling w.
Proof.
  unfold write_file, on_tree, writeFileSync. destruct (is_dir _ (path_resolve _ _)); [done|].
  destruct (is_dir _ (removelast _)); [|done]. by intros [= _ <-].
Qed.

Lemma makeArtifactId_ret prefix w : ∃ t r w', makeArtifactId prefix w = (Ret (prefix +:+ "-" +:+ base36 t +:+ "-" +:+ random_suffix r), w') ∧
  os_tree w' = os_tree w ∧ os_dangling w' = os_dangling w.
Proof. by eexists _, _, _. Qed.
End effects.

(** What the parameters promise: none of the printed parts holds a slash. *)
Class OsEnvLaws `{OsEnv} : Prop := {
  base36_plain : ∀ z, no_slash (base36 z);
  random_plain : ∀ n, no_slash (random_suffix n);
  mkdtemp_plain : ∀ n, no_slash (mkdtemp_suffix n);
}.

Lemma no_slash_append s t : no_slash s → no_slash t → no_slash (s +:+ t).
Proof. unfold no_slash. rewrite no_char_append. by intros -> ->. Qed.

Lemma dashed_clean s : no_slash s → has_char "-" s = true → clean s.
Proof. intros Hs Hd. split_and!; [..|done]; by intros ->. Qed.

Lemma artifact_dir_length root family : length (artifact_dir root family) = length root + 4.
Proof. unfold artifact_dir. rewrite !length_app. simpl. lia. Qed.

Lemma has_dirs_write root family (l : Path) e t : l ≠ [] → has_dirs (artifact_dirs root) t →
  has_dirs (artifact_dirs root) (<[artifact_dir root family ++ l := e]> t).
Proof.
  intros Hl Hd q p Hp Hne Hq. rewrite lookup_insert_ne; [by eapply Hd|]. intros <-.
  apply prefix_length in Hq. rewrite length_app, artifact_dir_length in Hq.
  assert (length p = length root + 4) as Hlen by (unfold artifact_dirs in Hp; set_unfold; destruct_or!; subst; try done; apply artifact_dir_length).
  destruct l; [done|simpl in Hq; lia].
Qed.

Lemma resolve_spelled cwd (l : Path) : Forall clean l → path_resolve cwd (path_string l) = l.
Proof.
  intros Hl. unfold path_string. rewrite resolve_absolute. unfold path_resolve. fold (path_string l).
  rewrite path_string_split by (by eapply Forall_impl; [exact Hl|]; intros s (_ & _ & _ & ?)).
  destruct (startsWith _ _); destruct (decide (l = [])) as [->|]; cbn [foldl]; try done; by rewrite resolve_clean.
Qed.

Lemma resolved_clean p : Forall clean (path_resolve [] p).
Proof.
  assert (Forall (λ s, clean s ∧ True) (path_resolve [] p)) as Hall; [|by eapply Forall_impl; [exact Hall|]; intros s [? _]].
  unfold path_resolve. apply (resolve_Forall (λ _, True)); [by destruct (startsWith _ _)|].
  eapply Forall_impl; [apply split_slash_parts|]. done.
Qed.

Section run_effects.
Context `{OsEnvLaws} (cwd : Path).

(** The names of artifacts. *)
Definition artifact_id (prefix id : string) : Prop := ∃ t r, id = prefix +:+ "-" +:+ base36 t +:+ "-" +:+ random_suffix r.

Lemma artifact_id_plain prefix id : no_slash prefix → artifact_id prefix id → no_slash id.
Proof using Type*.
  intros Hp (t & r & ->). pose proof (base36_plain t). pose proof (random_plain r). by repeat apply no_slash_append.
Qed.

Lemma json_name_clean prefix id : no_slash prefix → artifact_id prefix id → clean (id +:+ ".json").
Proof using Type*.
  intros Hp Hid. apply dashed_clean; [apply no_slash_append; [by eapply artifact_id_plain|done]|].
  destruct Hid as (t & r & ->). rewrite !no_char_append. simpl. by rewrite orb_true_r.
Qed.

Lemma snapshot_ret repoRoot preflight executionId reportId w s w' :
  captureOperatorSafeSnapshot cwd repoRoot preflight executionId reportId w = (Ret s, w') → pf_mode preflight ≠ mode_check →
  ∃ m t, sr_required s = true ∧ sr_captured s = true ∧ sr_manifest s = Some m ∧ artifact_id "snapshot" (sm_id m) ∧ sm_reportId m = reportId ∧
    opened (artifact_dirs (path_resolve cwd repoRoot)) (os_tree w) t ∧ has_dirs (artifact_dirs (path_resolve cwd repoRoot)) t ∧
    os_tree w' = <[artifact_dir (path_resolve cwd repoRoot) "snapshots" ++ [sm_id m +:+ ".json"] :=
                     File (document_text (snapshot_manifest_json m))]> t.
Proof using Type*.
  unfold captureOperatorSafeSnapshot. intros Hrun Hmode. rewrite decide_False in Hrun by done.
  apply bind_ret_inv in Hrun as (m & w1 & Hm & Hrun). apply bind_ret_inv in Hrun as ([] & w2 & He & Hrun).
  apply bind_ret_inv in Hrun as ([] & w3 & Hw & Hrun). injection Hrun as <- <-.
  apply bind_ret_inv in Hm as (id & w0 & Hid & Hm). destruct (makeArtifactId_ret "snapshot" w) as (t & r & w0' & Hid' & Ht0 & _).
  unfold makeSnapshotId in Hid. rewrite Hid in Hid'. injection Hid' as -> <-.
  apply bind_ret_inv in Hm as (c & w01 & Hc & Hm). injection Hc as <- <-. injection Hm as <- <-.
  apply ensure_ret in He as [Hopen Hd]. simpl in Hopen. rewrite Ht0 in Hopen. apply write_ret in Hw as (Ht & _ & _).
  eexists _, (os_tree w2). split_and!; [done..|by eexists _, _|done|done|done|].
  rewrite Ht. f_equal. rewrite resolve_entry, resolve_snapshots; [done|]. by apply (json_name_clean "snapshot"); [|eexists _, _].
Qed.

(** The manifest that a temporary workspace was written with. *)
Definition temp_manifest_of (operation : string) (mode : OperatorWorktreeMode) (repoRoot : string)
    (r : OperatorSafeTempWorkspaceResult) : option OperatorSafeTempWorkspaceManifest :=
  match tr_id r, tr_executionId r, tr_reportId r, tr_path r, tr_createdAt r, tr_lastTouchedAt r with
  | Some id, Some executionId, Some reportId, Some path, Some createdAt, Some touchedAt =>
    Some (mkTempManifest id executionId reportId createdAt touchedAt operation mode repoRoot path (tr_staleAfterMs r))
  | _, _, _, _, _, _ => None
  end.

Lemma temp_ret repoRoot operation mode executionId reportId ttl w r w' :
  isAbsolute repoRoot = true → no_slash operation → mode ≠ mode_check →
  prepareOperatorSafeTempWorkspace cwd repoRoot operation mode executionId reportId ttl w = (Ret r, w') →
  ∃ m name t, tr_created r = true ∧ tr_id r = Some name ∧ clean name ∧
    tr_path r = Some (path_string (artifact_dir (path_resolve cwd repoRoot) "temp" ++ [name])) ∧
    tm_id m = name ∧ tm_reportId m = reportId ∧ temp_manifest_of operation mode repoRoot r = Some m ∧
    opened (artifact_dirs (path_resolve cwd repoRoot)) (os_tree w) t ∧ has_dirs (artifact_dirs (path_resolve cwd repoRoot)) t ∧
    t !! (artifact_dir (path_resolve cwd repoRoot) "temp" ++ [name]) = None ∧
    os_tree w' = <[artifact_dir (path_resolve cwd repoRoot) "temp" ++ [name; "manifest.json"] :=
                     File (document_text (temp_manifest_json m))]>
                 (<[artifact_dir (path_resolve cwd repoRoot) "temp" ++ [name] := Dir]> t).
Proof using Type*.
  intros Habs Hop Hmode. unfold prepareOperatorSafeTempWorkspace. rewrite decide_False by done. intros Hrun.
  apply bind_ret_inv in Hrun as ([] & w1 & He & Hrun). apply bind_ret_inv in Hrun as (t & w2 & Ht & Hrun). injection Ht as <- <-.
  apply bind_ret_inv in Hrun as (p & w3 & Hp & Hrun). apply bind_ret_inv in Hrun as (now & w4 & Hn & Hrun). injection Hn as <- <-.
  apply bind_ret_inv in Hrun as ([] & w5 & Hw & Hrun). injection Hrun as <- <-.
  apply ensure_ret in He as [Hopen Hd].
  set (T := artifact_dir (path_resolve cwd repoRoot) "temp") in *.
  set (prefix := operation +:+ "-" +:+ base36 (now_ms (os_ticks w1)) +:+ "-") in *.
  apply bind_ret_inv in Hp as (suffix & w21 & Hs & Hp). injection Hs as <- <-. apply bind_ret_inv in Hp as ([] & w22 & Hm & Hp).
  injection Hp as <- <-. set (suffix := mkdtemp_suffix _) in *.
  assert (no_slash prefix) as Hpre by (pose proof (base36_plain (now_ms (os_ticks w1))); repeat apply no_slash_append; done).
  assert (no_slash (prefix +:+ suffix)) as Hname by (apply no_slash_append; [done|apply mkdtemp_plain]).
  assert (clean (prefix +:+ suffix)) as Hclean.
  { apply dashed_clean; [done|]. unfold prefix. rewrite !no_char_append. simpl. by rewrite !orb_true_r. }
  assert (clean prefix) as Hcp by (apply dashed_clean; [done|]; unfold prefix; rewrite !no_char_append; simpl; by rewrite !orb_true_r).
  assert (isAbsolute (resolveOperatorSafeTempDir repoRoot) = true) as HabsT.
  { unfold resolveOperatorSafeTempDir, resolveOperatorSafeArtifactsRoot, path_join_all.
    rewrite (join_below repoRoot _ Habs runtime_root_clean) by done. rewrite join_entry by (by apply path_string_absolute || by apply clean_check). apply path_string_absolute. }
  assert (path_resolve [] (resolveOperatorSafeTempDir repoRoot) = T) as HT.
  { rewrite resolve_temp. unfold T. f_equal. apply startsWith_iff in Habs as [t ->]. by rewrite (resolve_absolute cwd). }
  rewrite (join_entry _ prefix) in * by done. rewrite HT in *. rewrite path_string_append in *. fold T in Hm.
  assert (Forall clean (T ++ [prefix +:+ suffix])) as Hall.
  { apply Forall_app. split; [|by constructor]. rewrite <-HT. apply resolved_clean. }
  unfold on_tree in Hm. rewrite resolve_spelled in Hm by done. cbv zeta in Hm.
  destruct (existsSync _ _) eqn:Hex; [done|]. destruct (is_dir _ (removelast _)); [|done]. injection Hm as <-.
  apply write_ret in Hw as (Hw & _ & _). rewrite resolve_entry, resolve_spelled in Hw by (done || by apply clean_check).
  rewrite <-app_assoc in Hw.
  match type of Hw with context [temp_manifest_json ?m] => set (manifest := m) in Hw; exists manifest end.
  exists (prefix +:+ suffix), (os_tree w1).
  assert (path_basename (path_string (T ++ [prefix +:+ suffix])) = prefix +:+ suffix) as Hbase.
  { unfold path_basename. rewrite path_string_split by (by eapply Forall_impl; [exact Hall|]; intros s (_ & _ & _ & ?)).
    rewrite decide_False by (by destruct T). by rewrite app_comm_cons, last_snoc. }
  split_and!; try done; [by apply (f_equal Some)|].
  unfold existsSync in Hex. apply orb_false_iff in Hex as [_ Hex]. apply bool_decide_eq_false in Hex. by apply eq_None_not_Some.
Qed.
End run_effects.

Definition safe_root (R : Path) : Path := R ++ OPERATOR_SAFE_RUNTIME_ROOT.

Lemma artifact_dir_below R family : safe_root R `prefix_of` artifact_dir R family.
Proof. unfold artifact_dir, safe_root. apply prefix_app. by apply prefix_app_r. Qed.

(** [t'] differs from [t] below the operator-safe root, and in directories that
    lead there. *)
Definition confined_to (R : Path) (t t' : FileSystem) : Prop :=
  ∀ q, t' !! q ≠ t !! q → safe_root R `prefix_of` q ∨ t !! q = None ∧ t' !! q = Some Dir ∧ q `prefix_of` safe_root R.

Lemma families_differ R f f' (l l' : Path) : f ≠ f' → artifact_dir R f ++ l ≠ artifact_dir R f' ++ l'.
Proof. intros Hf. unfold artifact_dir. rewrite <-!app_assoc. intros E%(inj (app _))%(inj (app _)). by injection E. Qed.

Lemma opened_confined R t t' : opened (artifact_dirs R) t t' → confined_to R t t'.
Proof.
  intros Ho q Hq. rewrite Ho in Hq. destruct (t !! q) eqn:E; [done|]. rewrite Ho, E. case_decide as Hd; [|done].
  destruct Hd as [_ (p & Hp & Hqp)%Exists_exists]. assert (safe_root R `prefix_of` p) as Hsp.
  { unfold artifact_dirs in Hp. set_unfold. destruct_or!; subst; try done; apply artifact_dir_below. }
  destruct (prefix_weak_total _ _ _ Hqp Hsp); [by right|by left].
Qed.

Lemma artifact_confined_write R t t' q e : safe_root R `prefix_of` q → confined_to R t t' → confined_to R t (<[q := e]> t').
Proof.
  intros Hq Ht p Hp. destruct (decide (p = q)) as [->|Hne]; [by left|]. rewrite lookup_insert_ne in * by done. by apply Ht.
Qed.

Lemma below_artifacts R family l : safe_root R `prefix_of` artifact_dir R family ++ l.
Proof. apply prefix_app_r, artifact_dir_below. Qed.


Section lifecycle_effects.
Context `{SearchEnv} `{OsEnvLaws} (sha256 : string → string) (locale_le : string → string → bool) (cwd : Path).

Abbreviation evaluate := (evaluateOperatorSafeProjectWorktree sha256 locale_le cwd).
Abbreviation lifecycle := (runOperatorSafeProjectWorktreeLifecycle sha256 locale_le cwd).

(** Where the artifacts of a run go. *)
Definition run_root (input : OperatorWorktreePreflightInput) : Path := canon cwd (pi_repoRoot input).
Definition report_file (R : Path) (id : string) : Path := artifact_dir R "reports" ++ [id +:+ ".json"].
Definition snapshot_file (R : Path) (id : string) : Path := artifact_dir R "snapshots" ++ [id +:+ ".json"].
Definition temp_dir (R : Path) (id : string) : Path := artifact_dir R "temp" ++ [id].
Definition temp_manifest_file (R : Path) (id : string) : Path := artifact_dir R "temp" ++ [id; "manifest.json"].

(** The outcome that a preflight leads to. *)
Definition expected_outcome (pf : OperatorWorktreePreflightResult) : OperatorWorktreeExecutionOutcome :=
  if pf_allowed pf then match pf_mode pf with
                        | mode_check => outcome_advisory
                        | mode_dry_run => outcome_dry_run
                        | mode_execute => outcome_succeeded
                        end
  else outcome_blocked.

Definition expected_failure (pf : OperatorWorktreePreflightResult) : OperatorWorktreeFailureClass :=
  if pf_allowed pf then failure_none else preflight_failure.

(** The manifests of a run, as its report has them. *)
Definition run_snapshot (rep : OperatorWorktreeExecutionReport) : option OperatorWorktreeSnapshotManifest :=
  rp_snapshot rep ≫= sr_manifest.
Definition run_temp (rep : OperatorWorktreeExecutionReport) : option OperatorSafeTempWorkspaceManifest :=
  rp_tempWorkspace rep ≫= temp_manifest_of (rp_operation rep) (rp_mode rep) (rc_repoRoot (rp_context rep)).

(** The trees before a run, with the directories, and after it. *)
Inductive run_wrote (R : Path) (t : FileSystem) (rep : OperatorWorktreeExecutionReport) : FileSystem → Prop :=
| wrote_report :
  rp_mode rep = mode_check → rp_relatedArtifacts rep = mkRelatedArtifacts None None →
  run_wrote R t rep (<[report_file R (rp_id rep) := File (document_text (report_json rep))]> t)
| wrote_all m tm :
  rp_mode rep ≠ mode_check → artifact_id "snapshot" (sm_id m) → clean (tm_id tm) →
  sm_reportId m = rp_id rep → tm_reportId tm = rp_id rep →
  (ra_artifactId <$> rl_snapshot (rp_relatedArtifacts rep)) = Some (sm_id m) →
  (ra_artifactId <$> rl_tempWorkspace (rp_relatedArtifacts rep)) = Some (tm_id tm) →
  run_snapshot rep = Some m → run_temp rep = Some tm →
  t !! temp_dir R (tm_id tm) = None →
  run_wrote R t rep
    (<[report_file R (rp_id rep) := File (document_text (report_json rep))]>
     (<[temp_manifest_file R (tm_id tm) := File (document_text (temp_manifest_json tm))]>
      (<[temp_dir R (tm_id tm) := Dir]>
       (<[snapshot_file R (sm_id m) := File (document_text (snapshot_manifest_json m))]> t)))).

Lemma apply_mode (pf : OperatorWorktreePreflightResult) s :
  let a := runOperatorSafeBoundedApply pf in
  let r := attemptOperatorSafeRollbackLight (pf_mode pf) s (Some a) in
  let applied := ap_delegated a || ap_applied a || ap_simulated a in
  let failed := pf_allowed pf && negb (ap_delegated a) && negb (ap_applied a) && negb (ap_simulated a) in
  rb_degraded r = false ∧
  resolveOutcome (pf_mode pf) (pf_allowed pf) applied failed (rb_degraded r) = expected_outcome pf ∧
  resolveFailureClass (pf_mode pf) (pf_allowed pf) failed (rb_degraded r) applied = expected_failure pf.
Proof.
  unfold runOperatorSafeBoundedApply, expected_outcome, expected_failure, attemptOperatorSafeRollbackLight.
  destruct (pf_allowed pf), (pf_mode pf); simpl; try done; by destruct (match s with Some s => _ | None => _ end).
Qed.

Lemma capture_check repoRoot pf executionId reportId w : pf_mode pf = mode_check →
  captureOperatorSafeSnapshot cwd repoRoot pf executionId reportId w = (Ret (mkSnapshotResult false false None None), w).
Proof. intros E. unfold captureOperatorSafeSnapshot. by rewrite decide_True. Qed.

(** The temporary workspace as the report links to it. *)
Definition temp_link (tw : OperatorSafeTempWorkspaceResult) : option RelatedArtifact :=
  match truthy_string (tr_id tw), truthy_string (tr_path tw) with
  | Some id, Some path => Some (mkRelated id (Some path))
  | _, _ => None
  end.

Lemma report_ret pf reportId executionId s tw w rep w' :
  buildOperatorSafeExecutionReport (lifecycle_report_input pf reportId executionId s tw) w = (Ret rep, w') →
  os_tree w' = os_tree w ∧ rp_id rep = reportId ∧ rp_mode rep = pf_mode pf ∧ rp_outcome rep = expected_outcome pf ∧
  rp_failureClass rep = expected_failure pf ∧ rp_allowed rep = pf_allowed pf ∧
  rp_blockingCodes rep = (pf_blockingReasons pf).*1 ∧
  rp_relatedArtifacts rep = mkRelatedArtifacts ((λ m, mkRelated (sm_id m) (sr_artifactPath s)) <$> sr_manifest s) (temp_link tw) ∧
  run_snapshot rep = sr_manifest s ∧
  run_temp rep = temp_manifest_of (pf_operation pf) (pf_mode pf) (pf_canonicalRepoRoot pf) tw.
Proof.
  intros Hrun. destruct (apply_mode pf (Some s)) as (_ & Hout & Hfail). cbv zeta in Hout, Hfail.
  injection Hrun as <- <-. cbn [rp_outcome rp_failureClass ri_outcome ri_failureClass lifecycle_report_input].
  split_and!; try done.
Qed.

Lemma identity_ret w : ∃ reportId executionId w', createOperatorSafeExecutionIdentity w = (Ret (reportId, executionId), w') ∧
  artifact_id "opw" reportId ∧ os_tree w' = os_tree w.
Proof. eexists _, _, _. split_and!; [done|by eexists _, _|done]. Qed.

Lemma write_report_ret repoRoot rep w path w' : artifact_id "opw" (rp_id rep) →
  writeOperatorSafeExecutionReport cwd repoRoot rep w = (Ret path, w') →
  path_resolve cwd path = report_file (path_resolve cwd repoRoot) (rp_id rep) ∧
  ∃ t, opened (artifact_dirs (path_resolve cwd repoRoot)) (os_tree w) t ∧ has_dirs (artifact_dirs (path_resolve cwd repoRoot)) t ∧
    os_tree w' = <[report_file (path_resolve cwd repoRoot) (rp_id rep) := File (document_text (report_json rep))]> t.
Proof using Type*.
  intros Hid Hrun. apply bind_ret_inv in Hrun as ([] & w1 & He & Hrun). apply bind_ret_inv in Hrun as ([] & w2 & Hw & Hrun).
  injection Hrun as <- <-. apply ensure_ret in He as [Ho Hd]. apply write_ret in Hw as (Ht & _ & _).
  assert (clean (rp_id rep +:+ ".json")) as Hc by (by apply (json_name_clean "opw")).
  rewrite resolve_entry, resolve_reports in * by done. split; [done|]. by exists (os_tree w1).
Qed.

Lemma lifecycle_ret input w pf rep path w' :
  lifecycle input w = (Ret (pf, rep, path), w') → no_slash (pi_operation input) →
  pf = evaluate (os_tree w) input ∧ artifact_id "opw" (rp_id rep) ∧ rp_mode rep = pi_mode input ∧
  rp_outcome rep = expected_outcome pf ∧ rp_failureClass rep = expected_failure pf ∧ rp_allowed rep = pf_allowed pf ∧
  rp_blockingCodes rep = (pf_blockingReasons pf).*1 ∧ path_resolve cwd path = report_file (run_root input) (rp_id rep) ∧
  ∃ t, opened (artifact_dirs (run_root input)) (os_tree w) t ∧ has_dirs (artifact_dirs (run_root input)) t ∧
       run_wrote (run_root input) t rep (os_tree w').
Proof using Type*.
  intros Hrun Hop. apply bind_ret_inv in Hrun as (tree & w0 & Ht & Hrun). injection Ht as <- <-. cbv zeta in Hrun.
  set (pf0 := evaluate (os_tree w) input) in *. set (root := pf_canonicalRepoRoot pf0) in *.
  assert (isAbsolute root = true ∧ path_resolve cwd root = run_root input) as [Habs HR].
  { split; [|apply resolve_canonicalized]. destruct (canonicalize_absolute cwd (pi_repoRoot input)) as [t Ht].
    apply startsWith_iff. exists t. exact Ht. }
  apply bind_ret_inv in Hrun as ([reportId executionId] & w1 & Hid & Hrun).
  destruct (identity_ret w) as (i1 & i2 & w1' & Hid' & HidR & Ht1). rewrite Hid in Hid'. injection Hid' as <- <- <-.
  apply bind_ret_inv in Hrun as (snap & w2 & Hsnap & Hrun). apply bind_ret_inv in Hrun as (tw & w3 & Htemp & Hrun).
  apply bind_ret_inv in Hrun as (rep' & w4 & Hrep & Hrun). apply bind_ret_inv in Hrun as (path' & w5 & Hwrite & Hrun).
  injection Hrun as <- <- <- <-. apply report_ret in Hrep as (Ht4 & HrepId & HrepMode & HrepOut & HrepFail & HrepAll & HrepCodes & HrepRel & HrepS' & HrepT').
  apply write_report_ret in Hwrite as (Hpath & t3 & Ho3 & Hd3 & Ht5); [|by rewrite HrepId]. rewrite Ht4 in Ho3.
  rewrite HR in *. split_and!; try done; [by rewrite HrepId|].
  change (pf_mode pf0) with (pi_mode input) in *. change (pf_operation pf0) with (pi_operation input) in *.
  destruct (decide (pi_mode input = mode_check)) as [Hc|Hnc].
  - rewrite capture_check in Hsnap by done. injection Hsnap as <- <-. unfold prepareOperatorSafeTempWorkspace in Htemp.
    rewrite decide_True in Htemp by done. injection Htemp as <- <-. rewrite Ht1 in Ho3. exists t3. split_and!; [done..|].
    rewrite Ht5. by constructor; [rewrite HrepMode|].
  - apply snapshot_ret in Hsnap as (m & t1 & Hreq & Hcap & Hman & HidS & HrepS & Ho1 & Hd1 & Ht2); [|done].
    apply temp_ret in Htemp as (tm & name & t2 & Hcr & HidT & Hcl & Hpt & Hn & HrepT & Htm & Ho2 & Hd2 & Hfresh & Ht3); [|done..].
    rewrite HR, ?Ht1 in *. exists t1. split_and!; [done..|].
    assert (t2 = <[snapshot_file (run_root input) (sm_id m) := File (document_text (snapshot_manifest_json m))]> t1) as ->.
    { unfold snapshot_file. rewrite <-Ht2. eapply has_dirs_opened; [|exact Ho2]. rewrite Ht2. by apply has_dirs_write. }
    assert (has_dirs (artifact_dirs (run_root input)) (os_tree w3)) as Hd3'.
    { rewrite Ht3. unfold snapshot_file. by repeat (apply has_dirs_write; [done|]). }
    rewrite Ht5, (has_dirs_opened _ _ _ Hd3' Ho3), Ht3, <-Hn.
    econstructor; [by rewrite HrepMode|done|by rewrite Hn|by rewrite HrepId|by rewrite HrepId|by rewrite HrepRel, Hman| | | |].
    + rewrite HrepRel. cbn [rl_tempWorkspace]. unfold temp_link. rewrite HidT, Hpt, !truthy_not_empty; [by rewrite Hn|done|]. by destruct Hcl.
    + by rewrite HrepS'.
    + rewrite HrepT'. exact Htm.
    + rewrite Hn in *. apply lookup_insert_None in Hfresh as [Hf _]. done.
Qed.

Lemma run_wrote_confined R t0 t rep t' : opened (artifact_dirs R) t0 t → run_wrote R t rep t' → confined_to R t0 t'.
Proof.
  intros Ho%opened_confined Hw. destruct Hw; repeat (apply artifact_confined_write; [apply below_artifacts|]); done.
Qed.

(** C32 A run that returns, of an operation whose name has no slash (as every
    supported one), has written a report of what happened: blocked exactly
    when the preflight refused, advisory, a dry run or succeeded otherwise, and
    never one of the failures.  The report is stored where the returned path
    says; unless the mode is [check], the snapshot and the temporary workspace
    it links to are stored and carry its id.  Nothing changes outside of the
    operator-safe directory, except for directories that lead to it.  (With a
    slash in its name an unsupported operation is blocked as well, but leaves its
    temporary workspace elsewhere: [unsupported_operation_escapes].) *)
Theorem run_recorded input w pf rep path w' :
  lifecycle input w = (Ret (pf, rep, path), w') → no_slash (pi_operation input) →
  pf = evaluate (os_tree w) input ∧ rp_outcome rep = expected_outcome pf ∧ rp_failureClass rep = expected_failure pf ∧
  rp_blockingCodes rep = (pf_blockingReasons pf).*1 ∧
  os_tree w' !! path_resolve cwd path = Some (File (document_text (report_json rep))) ∧
  confined_to (run_root input) (os_tree w) (os_tree w') ∧
  if decide (pi_mode input = mode_check) then rp_relatedArtifacts rep = mkRelatedArtifacts None None
  else ∃ m tm,
    (ra_artifactId <$> rl_snapshot (rp_relatedArtifacts rep)) = Some (sm_id m) ∧
    (ra_artifactId <$> rl_tempWorkspace (rp_relatedArtifacts rep)) = Some (tm_id tm) ∧
    sm_reportId m = rp_id rep ∧ tm_reportId tm = rp_id rep ∧
    os_tree w' !! snapshot_file (run_root input) (sm_id m) = Some (File (document_text (snapshot_manifest_json m))) ∧
    os_tree w' !! temp_manifest_file (run_root input) (tm_id tm) = Some (File (document_text (temp_manifest_json tm))).
Proof using Type*.
  intros Hrun Hop. apply lifecycle_ret in Hrun as (Hpf & Hid & Hmode & Hout & Hfail & _ & Hcodes & Hpath & t & Ho & Hd & Hwrote); [|done].
  pose proof (run_wrote_confined _ _ _ _ _ Ho Hwrote) as Hconf. rewrite Hpath. rewrite <-Hmode.
  destruct Hwrote as [Hm Hrel|m tm Hm HidS Hcl HrepS HrepT HlinkS HlinkT _ _ Hfresh]; split_and!; try done.
  - apply lookup_insert_eq.
  - by rewrite decide_True.
  - apply lookup_insert_eq.
  - rewrite decide_False by done. exists m, tm. split_and!; try done.
    + do 3 rewrite lookup_insert_ne by (by apply families_differ). apply lookup_insert_eq.
    + rewrite lookup_insert_ne by (by apply families_differ). apply lookup_insert_eq.
Qed.

(** A run makes the repository root that it found missing. *)
Lemma blocked_run_creates_root input w pf rep path w' :
  lifecycle input w = (Ret (pf, rep, path), w') → no_slash (pi_operation input) →
  existsSync (run_root input) (os_tree w') = true.
Proof using Type*.
  intros Hrun Hop. apply lifecycle_ret in Hrun as (_ & _ & _ & _ & _ & _ & _ & _ & t & _ & Hd & Hwrote); [|done].
  assert (has_dirs (artifact_dirs (run_root input)) (os_tree w')) as Hd'.
  { destruct Hwrote; repeat (apply has_dirs_write; [done|]); done. }
  destruct (decide (run_root input = [])) as [->|Hne]; [done|]. unfold existsSync.
  rewrite (Hd' (run_root input) (artifact_dir (run_root input) "reports")); [|by left|done|].
  - apply orb_true_iff. right. apply bool_decide_eq_true. by eexists.
  - by apply prefix_app_r.
Qed.

(** A check that the preflight allows is reported with an unsuccessful apply
    stage, although nothing failed. *)
Lemma allowed_check_apply_unsuccessful pf s tw : pf_allowed pf = true → pf_mode pf = mode_check →
  let input := lifecycle_report_input pf "r" "e" s tw in
  ri_outcome input = outcome_advisory ∧ ri_failureClass input = failure_none ∧
  Exists (λ st, st_stage st = at_apply ∧ st_success st = false) (ri_stages input).
Proof.
  intros Ha Hm. destruct (apply_mode pf (Some s)) as (_ & Hout & Hfail). cbv zeta in Hout, Hfail.
  unfold lifecycle_report_input. cbn [ri_outcome ri_failureClass ri_stages]. rewrite Hout, Hfail. unfold expected_outcome, expected_failure.
  rewrite Ha, Hm. split_and!; [done..|]. unfold lifecycle_stages, runOperatorSafeBoundedApply. rewrite Ha, Hm. cbn.
  do 2 apply Exists_cons_tl. by apply Exists_cons_hd.
Qed.
End lifecycle_effects.

(** ** A repository *)

Fixpoint marks (n : nat) : string := match n with O => "" | S n => String "x" (marks n) end.

#[export] Instance demo_os : OsEnv := {
  now_ms := λ n, (1000 * Z.of_nat n)%Z;
  base36 := λ _, "k";
  random_suffix := marks;
  mkdtemp_suffix := marks;
  toISOString := λ _, "T";
}.

Lemma marks_plain n : no_slash (marks n).
Proof. by induction n. Qed.

#[export] Instance demo_os_laws : OsEnvLaws.
Proof. constructor; [done|apply marks_plain..]. Qed.

#[export] Instance demo_listing : SearchEnv := { dir_order := λ names, names; regexp := λ _ _, None }.

Definition demo_tree : FileSystem := <[["r"] := Dir]> (<[["r"; "package.json"] := File "{}"]> ∅).
Definition demo_world : OsWorld := mkOs demo_tree (λ _, mkTimes 0 0) [] 0 0.
Definition demo_workspace : KnownWorkspace := mkKnown "/r" "node" [] None (Some (mkMarkers true false)) (Some false).
Definition demo_input (mode : OperatorWorktreeMode) (operation target : string) : OperatorWorktreePreflightInput :=
  mkPreflightInput mode operation "/r" target None None (Some [demo_workspace]).

Definition demo_run (input : OperatorWorktreePreflightInput) (w : OsWorld) :
    outcome (OperatorWorktreePreflightResult * OperatorWorktreeExecutionReport * string) * OsWorld :=
  runOperatorSafeProjectWorktreeLifecycle (λ s, s) (λ _ _, true) [] input w.

Lemma run_recorded_witness :
  ∃ pf rep path w', demo_run (demo_input mode_execute "index_workspace" "/r/src") demo_world = (Ret (pf, rep, path), w') ∧
    expected_outcome pf = outcome_succeeded ∧ rp_outcome rep = outcome_succeeded ∧ confined_to ["r"] demo_tree (os_tree w').
Proof.
  destruct (demo_run (demo_input mode_execute "index_workspace" "/r/src") demo_world) as [[[[pf rep] path]|e] w'] eqn:E.
  - destruct (run_recorded (λ s, s) (λ _ _, true) [] _ _ _ _ _ _ E) as (Hpf & Hout & _ & _ & _ & Hconf & _); [vm_compute; reflexivity|].
    exists pf, rep, path, w'. assert (expected_outcome pf = outcome_succeeded) as He by (rewrite Hpf; vm_compute; reflexivity).
    split; [reflexivity|]. split; [exact He|]. split; [rewrite Hout; exact He|exact Hconf].
  - exfalso. apply (f_equal (λ r, match fst r with Ret _ => true | Throw _ => false end)) in E. vm_compute in E. discriminate E.
Defined.

(** An operation that is not supported is blocked, but its name is used in the
    path of the temporary workspace: with enough dots it leaves the
    repository. *)
Example unsupported_operation_escapes :
  match demo_run (demo_input mode_dry_run "../../../../../tmp/evil" "/r") (mkOs (<[["tmp"] := Dir]> demo_tree) (λ _, mkTimes 0 0) [] 0 0) with
  | (Ret (pf, rep, _), w') =>
    pf_allowed pf = false ∧ rp_outcome rep = outcome_blocked ∧
    is_Some (os_tree w' !! ["tmp"; "evil-k-xxx"; "manifest.json"])
  | _ => False
  end.
Proof. vm_compute. split; [done|]. split; [done|]. eexists. reflexivity. Qed.
