(* ===== verification/Maintenance.v ===== *)
(** * Maintenance of operator-safe artifacts

    [packages/runtime/src/workspace/operator-safe-maintenance-utils.ts]: listing,
    inspecting, pruning and cleaning up the reports, snapshots and temporary
    workspaces that the runs of [Worktree] leave behind.

    A document is whatever [JSON.parse] makes of a file, and its members are not
    checked, as in the code.  [localeCompare], [JSON.parse], [Date.parse],
    [Number] and the order of directory listings are parameters.  Times are
    whole milliseconds within the range of dates; the sum of a creation time and
    a lifetime is exact. *)

From S2P Require Import Prelude Json Retry Files ScanPaths SearchTools Projects Worktree.
From Stdlib Require Import Ascii String Sorted QArith Qround.
From stdpp Require Import prelude list strings gmap pretty.
Set Default Goal Selector "!".
Set Default Proof Using "Type".
Set Warnings "-clear-no-such-hyp".
#[local] Arguments String.append : simpl nomatch.
Open Scope nat_scope.

(** ** Artifacts *)

Inductive OperatorSafeArtifactFamily : Type := report | snapshot | temp_workspace.

#[global] Instance OperatorSafeArtifactFamily_eq_dec : EqDecision OperatorSafeArtifactFamily.
Proof. solve_decision. Defined.

Definition family_name (f : OperatorSafeArtifactFamily) : string :=
  match f with report => "report" | snapshot => "snapshot" | temp_workspace => "temp_workspace" end.

(** A selector is [None] for "all". *)
Abbreviation OperatorSafeArtifactFamilySelector := (option OperatorSafeArtifactFamily).

Definition selector_name (s : OperatorSafeArtifactFamilySelector) : string := from_option family_name "all" s.

Inductive OperatorSafeMaintenanceMode : Type := dry_run | apply_mode.

#[global] Instance OperatorSafeMaintenanceMode_eq_dec : EqDecision OperatorSafeMaintenanceMode.
Proof. solve_decision. Defined.

Definition maintenance_mode_name (m : OperatorSafeMaintenanceMode) : string :=
  match m with dry_run => "dry_run" | apply_mode => "apply" end.

Inductive OperatorSafeMaintenanceReasonCode : Type :=
| artifact_not_found | family_not_supported | path_outside_operator_safe_root | cleanup_eligibility_unproven
| artifact_too_recent_for_policy_prune | metadata_unreadable_or_untrusted | already_removed
| linked_artifact_missing | eligible_by_policy_prune | eligible_by_degraded_report | eligible_by_orphan_target
| eligible_by_temp_staleness | report_outcome_not_cleanup_eligible | cleanup_requires_report_or_family_target
| target_family_not_cleanup_supported | invalid_cleanup_target.

#[global] Instance OperatorSafeMaintenanceReasonCode_eq_dec : EqDecision OperatorSafeMaintenanceReasonCode.
Proof. solve_decision. Defined.

Definition code_name (c : OperatorSafeMaintenanceReasonCode) : string :=
  match c with
  | artifact_not_found => "artifact_not_found" | family_not_supported => "family_not_supported"
  | path_outside_operator_safe_root => "path_outside_operator_safe_root"
  | cleanup_eligibility_unproven => "cleanup_eligibility_unproven"
  | artifact_too_recent_for_policy_prune => "artifact_too_recent_for_policy_prune"
  | metadata_unreadable_or_untrusted => "metadata_unreadable_or_untrusted"
  | already_removed => "already_removed" | linked_artifact_missing => "linked_artifact_missing"
  | eligible_by_policy_prune => "eligible_by_policy_prune"
  | eligible_by_degraded_report => "eligible_by_degraded_report"
  | eligible_by_orphan_target => "eligible_by_orphan_target"
  | eligible_by_temp_staleness => "eligible_by_temp_staleness"
  | report_outcome_not_cleanup_eligible => "report_outcome_not_cleanup_eligible"
  | cleanup_requires_report_or_family_target => "cleanup_requires_report_or_family_target"
  | target_family_not_cleanup_supported => "target_family_not_cleanup_supported"
  | invalid_cleanup_target => "invalid_cleanup_target"
  end.

Inductive OperatorSafeCleanupEligibility : Type := eligible | retained | unknown.

#[global] Instance OperatorSafeCleanupEligibility_eq_dec : EqDecision OperatorSafeCleanupEligibility.
Proof. solve_decision. Defined.

Definition eligibility_name (e : OperatorSafeCleanupEligibility) : string :=
  match e with eligible => "eligible" | retained => "retained" | unknown => "unknown" end.

Record ListedArtifact : Type := mkListed {
  la_family : OperatorSafeArtifactFamily;
  la_artifactId : json;
  la_path : string;
  la_existsOnDisk : bool;
  la_createdAt : option json;
  la_lastTouchedAt : option json;
  la_operation : option json;
  la_mode : option json;
  la_executionId : option json;
  la_reportId : option json;
  la_outcome : option json;
  la_failureClass : option json;
  la_cleanupEligibility : OperatorSafeCleanupEligibility;
  la_cleanupReason : option OperatorSafeMaintenanceReasonCode;
  la_report : option json;
  la_snapshot : option json;
  la_tempManifest : option json;
  la_metadataUntrusted : bool;
}.

(** The inventory record of an artifact has the fields up to
    [cleanupReason]. *)
Record OperatorSafeArtifactInventoryRecord : Type := mkRecord {
  ir_family : OperatorSafeArtifactFamily;
  ir_artifactId : json;
  ir_executionId : option json;
  ir_reportId : option json;
  ir_path : string;
  ir_existsOnDisk : bool;
  ir_createdAt : option json;
  ir_lastTouchedAt : option json;
  ir_operation : option json;
  ir_mode : option json;
  ir_outcome : option json;
  ir_failureClass : option json;
  ir_cleanupEligibility : OperatorSafeCleanupEligibility;
  ir_cleanupReason : option OperatorSafeMaintenanceReasonCode;
}.

Definition buildInventoryRecord (item : ListedArtifact) : OperatorSafeArtifactInventoryRecord :=
  mkRecord (la_family item) (la_artifactId item) (la_executionId item) (la_reportId item) (la_path item)
    (la_existsOnDisk item) (la_createdAt item) (la_lastTouchedAt item) (la_operation item) (la_mode item)
    (la_outcome item) (la_failureClass item) (la_cleanupEligibility item) (la_cleanupReason item).

Record OperatorSafeMaintenanceActionItem : Type := mkItem {
  ai_family : OperatorSafeArtifactFamily;
  ai_artifactId : json;
  ai_executionId : option json;
  ai_reportId : option json;
  ai_path : string;
  ai_reason : OperatorSafeMaintenanceReasonCode;
  ai_detail : option string;
}.

Definition toActionItem (item : ListedArtifact) (reason : OperatorSafeMaintenanceReasonCode) (detail : option string) :
    OperatorSafeMaintenanceActionItem :=
  mkItem (la_family item) (la_artifactId item) (la_executionId item) (la_reportId item) (la_path item) reason detail.

Record MaintenanceWarning : Type := mkWarning {
  mw_family : OperatorSafeArtifactFamily;
  mw_artifactId : json;
  mw_reason : OperatorSafeMaintenanceReasonCode;
  mw_message : string;
}.

Inductive MaintenanceAction : Type := action_prune | action_cleanup.

Definition action_name (a : MaintenanceAction) : string :=
  match a with action_prune => "prune" | action_cleanup => "cleanup" end.

(** The six lists of an action. *)
Record ActionLists : Type := mkLists {
  al_evaluated : list OperatorSafeMaintenanceActionItem;
  al_planned : list OperatorSafeMaintenanceActionItem;
  al_removed : list OperatorSafeMaintenanceActionItem;
  al_retained : list OperatorSafeMaintenanceActionItem;
  al_skipped : list OperatorSafeMaintenanceActionItem;
  al_warnings : list MaintenanceWarning;
}.

Definition no_items : ActionLists := mkLists [] [] [] [] [] [].

Definition push_evaluated (i : OperatorSafeMaintenanceActionItem) (l : ActionLists) : ActionLists :=
  mkLists (al_evaluated l ++ [i]) (al_planned l) (al_removed l) (al_retained l) (al_skipped l) (al_warnings l).
Definition push_planned (i : OperatorSafeMaintenanceActionItem) (l : ActionLists) : ActionLists :=
  mkLists (al_evaluated l) (al_planned l ++ [i]) (al_removed l) (al_retained l) (al_skipped l) (al_warnings l).
Definition push_removed (i : OperatorSafeMaintenanceActionItem) (l : ActionLists) : ActionLists :=
  mkLists (al_evaluated l) (al_planned l) (al_removed l ++ [i]) (al_retained l) (al_skipped l) (al_warnings l).
Definition push_retained (i : OperatorSafeMaintenanceActionItem) (l : ActionLists) : ActionLists :=
  mkLists (al_evaluated l) (al_planned l) (al_removed l) (al_retained l ++ [i]) (al_skipped l) (al_warnings l).
Definition push_skipped (i : OperatorSafeMaintenanceActionItem) (l : ActionLists) : ActionLists :=
  mkLists (al_evaluated l) (al_planned l) (al_removed l) (al_retained l) (al_skipped l ++ [i]) (al_warnings l).
Definition push_warning (i : MaintenanceWarning) (l : ActionLists) : ActionLists :=
  mkLists (al_evaluated l) (al_planned l) (al_removed l) (al_retained l) (al_skipped l) (al_warnings l ++ [i]).

Record OperatorSafeMaintenanceActionResult : Type := mkActionResult {
  ar_action : MaintenanceAction;
  ar_mode : OperatorSafeMaintenanceMode;
  ar_requestedFamily : OperatorSafeArtifactFamilySelector;
  ar_lists : ActionLists;
}.

(** A retention override per family, [None] when it is not given. *)
Record OperatorSafePruneRequest : Type := mkPruneRequest {
  pr_mode : OperatorSafeMaintenanceMode;
  pr_family : option OperatorSafeArtifactFamilySelector;
  pr_nowMs : option Z;
  pr_retentionOverridesMs : OperatorSafeArtifactFamily → option Z;
}.

Record OperatorSafeCleanupRequest : Type := mkCleanupRequest {
  cr_mode : OperatorSafeMaintenanceMode;
  cr_reportId : option string;
  cr_family : option OperatorSafeArtifactFamily;
  cr_artifactId : option string;
  cr_nowMs : option Z;
}.

Record OperatorWorktreeMaintenanceInventory : Type := mkInventory {
  iv_generatedAt : string;
  iv_selectedFamily : OperatorSafeArtifactFamilySelector;
  iv_limit : option Z;
  iv_totalCount : nat;
  iv_report : list OperatorSafeArtifactInventoryRecord;
  iv_snapshot : list OperatorSafeArtifactInventoryRecord;
  iv_temp_workspace : list OperatorSafeArtifactInventoryRecord;
}.

(** A linked id is a value of the document. *)
Inductive OperatorSafeArtifactInspectDetails : Type :=
| report_details (operation mode outcome failureClass recommendedAction : option json) (warningCodes blockingCodes : json)
    (linkedSnapshotId linkedTempWorkspaceId : option json)
| snapshot_details (operation mode repoRoot targetPath workspaceRoot workspaceRelativePath repoRelativePath : option json)
    (warningCodes idempotentSkip : json) (linkedReportId : option json) (orphaned : bool)
| temp_details (operation mode tempPath staleAfterMs : option json) (nextEligibleCleanupAt : option string)
    (linkedReportId : option json) (orphaned : bool).

Record OperatorSafeArtifactInspectResult : Type := mkInspect {
  in_family : OperatorSafeArtifactFamily;
  in_artifactId : string;
  in_found : bool;
  in_reason : option OperatorSafeMaintenanceReasonCode;
  in_record : option OperatorSafeArtifactInventoryRecord;
  in_details : option OperatorSafeArtifactInspectDetails;
  in_warnings : list (OperatorSafeMaintenanceReasonCode * string);
}.

Definition DEFAULT_RETENTION_MS (f : OperatorSafeArtifactFamily) : Z :=
  match f with
  | report => 7 * 24 * 60 * 60 * 1000
  | snapshot => 3 * 24 * 60 * 60 * 1000
  | temp_workspace => 24 * 60 * 60 * 1000
  end%Z.

(** ** Reading the artifacts *)

Definition defaultFamilySelector (value : option OperatorSafeArtifactFamilySelector) : OperatorSafeArtifactFamilySelector :=
  value or_else None.

Definition isJsonFile (entry : string) : bool := endsWith entry ".json".

Definition stripJsonSuffix (entry : string) : string :=
  if endsWith entry ".json" then String.substring 0 (String.length entry - 5) entry else entry.

(** [a || b || c] on numbers. *)
Definition first_nonzero (a b c : Z) : Z := if (a =? 0)%Z then (if (b =? 0)%Z then c else b) else a.


Section maintenance.
Context `{SearchEnv} `{OsEnv}.
Context (locale_le : string → string → bool) (JSON_parse : string → option json) (date_parse : string → option Z).
Context (Number : string → number) (cwd : Path).

Definition parseJsonSafe (raw : string) : option json := JSON_parse raw.

(** [raw ? parseJsonSafe(raw) : null], when the result is truthy. *)
Definition parsed_document (raw : option string) : option json :=
  match truthy_string raw with
  | Some text => match parseJsonSafe text with
                 | Some v => if falsy (Some v) then None else Some v
                 | None => None
                 end
  | None => None
  end.

(** [fs.readdir], or no entries when it fails. *)
Definition readDirEntriesSafe (w : OsWorld) (dir : string) : list string :=
  let q := path_resolve cwd dir in
  if is_dir (os_tree w) q then
    dir_order (children (os_tree w) q
               ++ omap (λ p, if decide (removelast p = q) then last p else None) (os_dangling w))
  else [].

(** [fs.stat], or [None] when it fails. *)
Definition stat (w : OsWorld) (p : string) : option Times :=
  let q := path_resolve cwd p in
  if existsSync q (os_tree w) then Some (os_times w q) else None.

(** [fs.readFile], or [None] when it fails. *)
Definition read_file (w : OsWorld) (p : string) : option string :=
  match fst (readFileSync (path_resolve cwd p) (os_tree w)) with Ret c => Some c | Throw _ => None end.

Definition toIsoFromMs (ms : Z) : string := toISOString ms.

Definition isPathWithin (base candidate : string) : bool :=
  let rel := relative cwd base candidate in
  bool_decide (rel = "") || (negb (startsWith rel "..") && negb (isAbsolute rel)).

Definition resolveArtifactPath (repoRoot : string) (family : OperatorSafeArtifactFamily) (artifactId : string) : string :=
  match family with
  | report => path_join (resolveOperatorSafeReportsDir repoRoot) (artifactId +:+ ".json")
  | snapshot => path_join (resolveOperatorSafeSnapshotsDir repoRoot) (artifactId +:+ ".json")
  | temp_workspace => path_join (resolveOperatorSafeTempDir repoRoot) artifactId
  end.

Definition pruneEligibleReason (item : ListedArtifact) : OperatorSafeMaintenanceReasonCode :=
  if decide (la_family item = temp_workspace) then eligible_by_temp_staleness else eligible_by_policy_prune.

Definition getReportCleanupEligible (r : json) : bool :=
  existsb (λ s, equals_string s (json_get "outcome" r)) ["blocked"; "failed"; "cleanup_failed"; "rollback_degraded"].

Definition classifyReportEligibility (r : json) : OperatorSafeCleanupEligibility * option OperatorSafeMaintenanceReasonCode :=
  if getReportCleanupEligible r then (eligible, Some eligible_by_degraded_report)
  else (retained, Some cleanup_eligibility_unproven).

(** [Date.parse(value)]. *)
Definition Date_parse (v : json) : option Z := date_parse (js_String v).

(** [createdMs + value]; a string is appended. *)
Definition plus_number (createdMs : Z) (value : json) : number :=
  match value with
  | JNull => Fin (inject_Z createdMs)
  | JBool b => Fin (inject_Z (createdMs + if b then 1 else 0))
  | JNum l => match Number l with Fin q => Fin (inject_Z createdMs + q) | n => n end
  | v => Number (pretty createdMs +:+ js_String v)
  end.

(** [nowMs >= n]. *)
Definition reached (nowMs : Z) (n : number) : bool :=
  match n with
  | Fin q => Qle_bool q (inject_Z nowMs)
  | NegInf => true
  | _ => false
  end.

Definition classifyTempEligibility (nowMs : Z) (createdAt staleAfterMs : option json)
    (linkedReportExists metadataUntrusted : bool) : OperatorSafeCleanupEligibility * option OperatorSafeMaintenanceReasonCode :=
  if metadataUntrusted then (unknown, Some metadata_unreadable_or_untrusted)
  else if negb linkedReportExists then (eligible, Some eligible_by_orphan_target)
  else if falsy createdAt || falsy staleAfterMs then (unknown, Some metadata_unreadable_or_untrusted)
  else match createdAt ≫= Date_parse, staleAfterMs with
  | Some createdMs, Some stale =>
    if reached nowMs (plus_number createdMs stale) then (eligible, Some eligible_by_temp_staleness)
    else (retained, Some cleanup_eligibility_unproven)
  | _, _ => (unknown, Some metadata_unreadable_or_untrusted)
  end.

(** An entry whose [stat] fails. *)
Definition gone (family : OperatorSafeArtifactFamily) (artifactId path : string) : ListedArtifact :=
  mkListed family (JStr artifactId) path false None None None None None None None None unknown (Some already_removed)
    None None None false.

(** An entry whose document cannot be used. *)
Definition untrusted (family : OperatorSafeArtifactFamily) (artifactId path : string) (nowMs : Z) (st : Times)
    (eligibility : OperatorSafeCleanupEligibility * option OperatorSafeMaintenanceReasonCode) : ListedArtifact :=
  mkListed family (JStr artifactId) path true
    (Some (JStr (toIsoFromMs (first_nonzero (birthtimeMs st) (mtimeMs st) nowMs))))
    (Some (JStr (toIsoFromMs (first_nonzero (mtimeMs st) nowMs nowMs))))
    None None None None None None eligibility.1 eligibility.2 None None None true.

Definition readReport (w : OsWorld) (reportsDir : string) (nowMs : Z) (entry : string) : ListedArtifact :=
  let reportPath := path_join reportsDir entry in
  let artifactId := stripJsonSuffix entry in
  match stat w reportPath with
  | None => gone report artifactId reportPath
  | Some st =>
    match parsed_document (read_file w reportPath) with
    | None => untrusted report artifactId reportPath nowMs st (unknown, Some metadata_unreadable_or_untrusted)
    | Some parsed =>
      let eligibility := classifyReportEligibility parsed in
      let id := default (JStr artifactId) (coalesce (json_get "id" parsed) None) in
      mkListed report id reportPath true
        (coalesce (json_get "createdAt" parsed)
           (Some (JStr (toIsoFromMs (first_nonzero (birthtimeMs st) (mtimeMs st) nowMs)))))
        (Some (JStr (toIsoFromMs (first_nonzero (mtimeMs st) nowMs nowMs))))
        (json_get "operation" parsed) (json_get "mode" parsed) (json_get "executionId" parsed) (Some id)
        (json_get "outcome" parsed) (json_get "failureClass" parsed) eligibility.1 eligibility.2 (Some parsed) None None false
    end
  end.

(** [readDirEntriesSafe(dir).filter(...).sort(localeCompare)]. *)
Definition listed_entries (w : OsWorld) (dir : string) (P : string → bool) : list string :=
  js_sort locale_le (filter (λ e, P e = true) (readDirEntriesSafe w dir)).

Definition readReportArtifacts (w : OsWorld) (repoRoot : string) (nowMs : Z) : list ListedArtifact :=
  let reportsDir := resolveOperatorSafeReportsDir repoRoot in
  readReport w reportsDir nowMs <$> listed_entries w reportsDir isJsonFile.

(** [typeof id === "string" && knownReportIds.has(id)]. *)
Definition linked_report_exists (knownReportIds : list json) (id : option json) : bool :=
  match id with
  | Some (JStr s) => existsb (is_string s) knownReportIds
  | _ => false
  end.

Definition readSnapshot (w : OsWorld) (snapshotsDir : string) (nowMs : Z) (knownReportIds : list json) (entry : string) :
    ListedArtifact :=
  let snapshotPath := path_join snapshotsDir entry in
  let artifactId := stripJsonSuffix entry in
  match stat w snapshotPath with
  | None => gone snapshot artifactId snapshotPath
  | Some st =>
    match parsed_document (read_file w snapshotPath) with
    | None => untrusted snapshot artifactId snapshotPath nowMs st (unknown, Some metadata_unreadable_or_untrusted)
    | Some parsed =>
      let linkedReportExists := linked_report_exists knownReportIds (json_get "reportId" parsed) in
      mkListed snapshot (default (JStr artifactId) (coalesce (json_get "id" parsed) None)) snapshotPath true
        (coalesce (json_get "createdAt" parsed)
           (Some (JStr (toIsoFromMs (first_nonzero (birthtimeMs st) (mtimeMs st) nowMs)))))
        (Some (JStr (toIsoFromMs (first_nonzero (mtimeMs st) nowMs nowMs))))
        (json_get "operation" parsed) (json_get "mode" parsed) (json_get "executionId" parsed) (json_get "reportId" parsed)
        None None
        (if linkedReportExists then retained else eligible)
        (Some (if linkedReportExists then cleanup_eligibility_unproven else eligible_by_orphan_target))
        None (Some parsed) None false
    end
  end.

Definition readSnapshotArtifacts (w : OsWorld) (repoRoot : string) (nowMs : Z) (knownReportIds : list json) : list ListedArtifact :=
  let snapshotsDir := resolveOperatorSafeSnapshotsDir repoRoot in
  readSnapshot w snapshotsDir nowMs knownReportIds <$> listed_entries w snapshotsDir isJsonFile.

Definition readTemp (w : OsWorld) (tempDir : string) (nowMs : Z) (knownReportIds : list json) (entry : string) : ListedArtifact :=
  let tempPath := path_join tempDir entry in
  match stat w tempPath with
  | None => gone temp_workspace entry tempPath
  | Some st =>
    match parsed_document (read_file w (path_join tempPath "manifest.json")) with
    | None => untrusted temp_workspace entry tempPath nowMs st (classifyTempEligibility nowMs None None false true)
    | Some manifest =>
      let eligibility := classifyTempEligibility nowMs (json_get "createdAt" manifest) (json_get "staleAfterMs" manifest)
        (linked_report_exists knownReportIds (json_get "reportId" manifest)) false in
      mkListed temp_workspace
        (if falsy (json_get "id" manifest) then JStr entry else default (JStr entry) (json_get "id" manifest)) tempPath true
        (json_get "createdAt" manifest)
        (coalesce (json_get "lastTouchedAt" manifest) (Some (JStr (toIsoFromMs (first_nonzero (mtimeMs st) nowMs nowMs)))))
        (json_get "operation" manifest) (json_get "mode" manifest) (json_get "executionId" manifest) (json_get "reportId" manifest)
        None None eligibility.1 eligibility.2 None None (Some manifest) false
    end
  end.

Definition readTempArtifacts (w : OsWorld) (repoRoot : string) (nowMs : Z) (knownReportIds : list json) : list ListedArtifact :=
  let tempDir := resolveOperatorSafeTempDir repoRoot in
  readTemp w tempDir nowMs knownReportIds <$> listed_entries w tempDir (λ _, true).

Definition collectArtifacts (w : OsWorld) (repoRoot : string) (nowMs : Z) : list ListedArtifact :=
  let reports := readReportArtifacts w repoRoot nowMs in
  let reportIds := la_artifactId <$> reports in
  reports ++ readSnapshotArtifacts w repoRoot nowMs reportIds ++ readTempArtifacts w repoRoot nowMs reportIds.

Definition filterArtifactsByFamily (items : list ListedArtifact) (family : OperatorSafeArtifactFamilySelector) : list ListedArtifact :=
  match family with
  | None => items
  | Some f => filter (λ item, la_family item = f) items
  end.

(** ** Listing *)

(** [Date.parse(item.lastTouchedAt ?? item.createdAt ?? "1970-...")]. *)
Definition inventory_time (item : ListedArtifact) : option Z :=
  Date_parse (default (JStr "1970-01-01T00:00:00.000Z") (coalesce (coalesce (la_lastTouchedAt item) (la_createdAt item)) None)).

(** Two artifacts that are ordered by their ids.  A time that is not a number
    makes the difference NaN, which counts as equal. *)
Definition same_rank (x y : ListedArtifact) : bool :=
  match inventory_time x, inventory_time y with
  | Some a, Some b => (a =? b)%Z && bool_decide (la_family x = la_family y)
  | _, _ => false
  end.

Definition inventory_le (left right : ListedArtifact) : bool :=
  match inventory_time left, inventory_time right with
  | Some leftTs, Some rightTs =>
    if negb (leftTs =? rightTs)%Z then (rightTs <=? leftTs)%Z
    else if negb (bool_decide (la_family left = la_family right))
         then locale_le (family_name (la_family left)) (family_name (la_family right))
         else locale_le (js_String (la_artifactId left)) (js_String (la_artifactId right))
  | _, _ => true
  end.

(** Every pair that [same_rank] relates. *)
Fixpoint pairs_ranked (P : ListedArtifact → ListedArtifact → bool) (items : list ListedArtifact) : bool :=
  match items with
  | [] => true
  | x :: items => forallb (P x) items && pairs_ranked P items
  end.

(** Only a string has the method [localeCompare].  Which elements a sort compares
    is up to the engine; here it is the ones with the same time and family. *)
Definition comparable (x y : ListedArtifact) : bool :=
  negb (same_rank x y)
  || match la_artifactId x, la_artifactId y with JStr _, JStr _ => true | _, _ => false end.

Definition sortArtifactsForInventory (items : list ListedArtifact) : outcome (list ListedArtifact) :=
  if pairs_ranked comparable items then Ret (js_sort inventory_le items) else Throw "TypeError".

Definition current_time (nowMs : option Z) : M OsWorld Z := match nowMs with Some t => mret t | None => Date_now end.

(** [items.slice(0, limit)] for a positive limit. *)
Definition limit_to {A : Type} (limit : option Z) (items : list A) : list A :=
  match limit with
  | Some n => if (0 <? n)%Z then take (Z.to_nat n) items else items
  | None => items
  end.

Definition records_of (family : OperatorSafeArtifactFamily) (items : list ListedArtifact) : list OperatorSafeArtifactInventoryRecord :=
  buildInventoryRecord <$> filter (λ item, la_family item = family) items.

Definition listOperatorSafeArtifacts (repoRoot : string) (family : option OperatorSafeArtifactFamilySelector)
    (limit nowMs : option Z) : M OsWorld OperatorWorktreeMaintenanceInventory :=
  ensureOperatorSafeArtifactDirs cwd repoRoot;;
  let selectedFamily := defaultFamilySelector family in
  now ← current_time nowMs;
  allArtifacts ← gets (λ w, collectArtifacts w repoRoot now);
  filtered ← lift_outcome (sortArtifactsForInventory (filterArtifactsByFamily allArtifacts selectedFamily));
  let limited := limit_to limit filtered in
  mret (mkInventory (toISOString now) selectedFamily limit (length limited)
    (records_of report limited) (records_of snapshot limited) (records_of temp_workspace limited)).

(** ** Inspecting *)

(** [o ?? d] for a list or a flag. *)
Definition value_or (d : json) (o : option json) : json := default d (coalesce o None).

(** [!id || !all.some((c) => c.family === "report" && c.artifactId === id)]. *)
Definition is_orphaned (allArtifacts : list ListedArtifact) (id : option json) : bool :=
  match id with
  | None => true
  | Some v => falsy id
      || negb (existsb (λ c, bool_decide (la_family c = report) && strict_equal (la_artifactId c) v) allArtifacts)
  end.

Definition next_cleanup (createdMs : option Z) (staleAfterMs : option json) : outcome (option string) :=
  match createdMs, staleAfterMs with
  | Some t, Some (JNum l) =>
    match plus_number t (JNum l) with
    | Fin q => Ret (Some (toISOString (if Qle_bool 0 q then Qfloor q else Qceiling q)))
    | _ => Throw "RangeError"
    end
  | _, _ => Ret None
  end.

Definition getInspectDetails (item : ListedArtifact) (allArtifacts : list ListedArtifact) :
    outcome OperatorSafeArtifactInspectDetails :=
  match la_family item with
  | report =>
    let r := la_report item in
    let links kind := match r with
                      | None => Ret None
                      | Some _ => match member "relatedArtifacts" r with
                                  | Throw e => Throw e
                                  | Ret related => match member kind related with
                                                   | Throw e => Throw e
                                                   | Ret link => Ret (opt_get "artifactId" link)
                                                   end
                                  end
                      end in
    match links "snapshot", links "tempWorkspace" with
    | Ret linkedSnapshot, Ret linkedTemp =>
      Ret (report_details (opt_get "operation" r) (opt_get "mode" r) (opt_get "outcome" r) (opt_get "failureClass" r)
             (opt_get "recommendedAction" r) (value_or (JArr []) (opt_get "warningCodes" r))
             (value_or (JArr []) (opt_get "blockingCodes" r))
             (coalesce linkedSnapshot (opt_get "id" (opt_get "manifest" (opt_get "snapshot" r))))
             (coalesce linkedTemp (opt_get "id" (opt_get "tempWorkspace" r))))
    | Throw e, _ | _, Throw e => Throw e
    end
  | snapshot =>
    let s := la_snapshot item in
    let linkedReportId := coalesce (opt_get "reportId" s) (la_reportId item) in
    let metadata key := match s with
                        | None => Ret None
                        | Some _ => match member "metadata" s with Throw e => Throw e | Ret m => member key m end
                        end in
    match metadata "warningCodes", metadata "idempotentSkip" with
    | Ret warningCodes, Ret idempotentSkip =>
      Ret (snapshot_details (opt_get "operation" s) (opt_get "mode" s) (opt_get "repoRoot" s) (opt_get "targetPath" s)
             (opt_get "workspaceRoot" s)
             (coalesce (opt_get "workspaceRelativePath" s) (opt_get "targetRelativePath" s))
             (opt_get "repoRelativePath" s) (value_or (JArr []) warningCodes) (value_or (JBool false) idempotentSkip)
             linkedReportId (is_orphaned allArtifacts linkedReportId))
    | Throw e, _ | _, Throw e => Throw e
    end
  | temp_workspace =>
    let m := la_tempManifest item in
    let linkedReportId := coalesce (opt_get "reportId" m) (la_reportId item) in
    let createdMs := Date_parse (value_or (JStr "") (coalesce (opt_get "createdAt" m) (la_createdAt item))) in
    let staleAfterMs := opt_get "staleAfterMs" m in
    match next_cleanup createdMs staleAfterMs with
    | Ret next =>
      Ret (temp_details (opt_get "operation" m) (opt_get "mode" m) (coalesce (opt_get "tempPath" m) (Some (JStr (la_path item))))
             staleAfterMs next linkedReportId (is_orphaned allArtifacts linkedReportId))
    | Throw e => Throw e
    end
  end.

(** [item.family === family && item.artifactId === artifactId]. *)
Definition has_id (family : OperatorSafeArtifactFamily) (artifactId : string) (item : ListedArtifact) : bool :=
  bool_decide (la_family item = family) && is_string artifactId (la_artifactId item).

Definition inspect_warnings (target : ListedArtifact) : list (OperatorSafeMaintenanceReasonCode * string) :=
  push_if (la_metadataUntrusted target)
    (metadata_unreadable_or_untrusted, "Artifact metadata is unreadable or untrusted; inspect output is partial.")
  ++ push_if (bool_decide (la_cleanupReason target = Some cleanup_eligibility_unproven))
       (cleanup_eligibility_unproven, "Cleanup eligibility is unproven from artifact truth; retained by default.")
  ++ push_if (bool_decide (la_cleanupReason target = Some already_removed))
       (already_removed, "Artifact metadata exists in inventory but path is already removed.").

Definition inspectOperatorSafeArtifact (repoRoot : string) (family : OperatorSafeArtifactFamily) (artifactId : string)
    (nowMs : option Z) : M OsWorld OperatorSafeArtifactInspectResult :=
  ensureOperatorSafeArtifactDirs cwd repoRoot;;
  now ← current_time nowMs;
  allArtifacts ← gets (λ w, collectArtifacts w repoRoot now);
  match List.find (has_id family artifactId) allArtifacts with
  | None =>
    mret (mkInspect family artifactId false (Some artifact_not_found) None None
      [(artifact_not_found, "No " +:+ family_name family +:+ " artifact with id '" +:+ artifactId
                            +:+ "' was found under operator-safe roots.")])
  | Some target =>
    details ← lift_outcome (getInspectDetails target allArtifacts);
    mret (mkInspect family artifactId true None (Some (buildInventoryRecord target)) (Some details) (inspect_warnings target))
  end.

(** ** Removing *)

(** [fs.rm(p, { recursive: true, force: true })]. *)
Definition rm_recursive (p : string) : M OsWorld () :=
  let q := path_resolve cwd p in
  on_tree (λ tree, (Ret (), filter (λ kv, ¬ q `prefix_of` kv.1) tree));;
  modify (λ w, mkOs (os_tree w) (os_times w) (filter (λ d, ¬ q `prefix_of` d) (os_dangling w)) (os_ticks w) (os_draws w)).

Definition family_root (repoRoot : string) (family : OperatorSafeArtifactFamily) : string :=
  match family with
  | report => resolveOperatorSafeReportsDir repoRoot
  | snapshot => resolveOperatorSafeSnapshotsDir repoRoot
  | temp_workspace => resolveOperatorSafeTempDir repoRoot
  end.

(** Whether the artifact was removed, and otherwise why not. *)
Definition removeArtifactPath (repoRoot : string) (item : ListedArtifact) :
    M OsWorld (option (OperatorSafeMaintenanceReasonCode * string)) :=
  if negb (isPathWithin (family_root repoRoot (la_family item)) (la_path item)) then
    mret (Some (path_outside_operator_safe_root, "Refused delete outside family root: " +:+ la_path item))
  else
    st ← gets (λ w, stat w (la_path item));
    match st with
    | None => mret (Some (already_removed, "Artifact path was already removed."))
    | Some _ => rm_recursive (la_path item);; mret None
    end.

(** ** Pruning *)

Definition retention_of (request : OperatorSafePruneRequest) (family : OperatorSafeArtifactFamily) : Z :=
  pr_retentionOverridesMs request family or_else DEFAULT_RETENTION_MS family.

(** The removal of a planned item, and where it is recorded. *)
Definition remove_planned (repoRoot : string) (mode : OperatorSafeMaintenanceMode) (item : ListedArtifact)
    (planned : OperatorSafeMaintenanceActionItem) (l : ActionLists) : M OsWorld ActionLists :=
  if decide (mode = dry_run) then mret l
  else
    deleteResult ← removeArtifactPath repoRoot item;
    match deleteResult with
    | None => mret (push_removed planned l)
    | Some (reason, detail) =>
      mret (push_warning (mkWarning (la_family item) (la_artifactId item) reason detail)
              (push_skipped (toActionItem item reason (Some detail)) l))
    end.

(** [Date.parse(item.lastTouchedAt ?? item.createdAt ?? "")]. *)
Definition touched_at (item : ListedArtifact) : option Z :=
  Date_parse (value_or (JStr "") (coalesce (la_lastTouchedAt item) (la_createdAt item))).

Definition prune_item (repoRoot : string) (request : OperatorSafePruneRequest) (nowMs : Z) (l : ActionLists)
    (item : ListedArtifact) : M OsWorld ActionLists :=
  if negb (la_existsOnDisk item) then
    let i := toActionItem item already_removed (Some "Artifact path not present on disk.") in
    mret (push_skipped i (push_evaluated i l))
  else match touched_at item with
  | None =>
    let i := toActionItem item metadata_unreadable_or_untrusted (Some "Unable to parse recency for policy prune.") in
    mret (push_warning (mkWarning (la_family item) (la_artifactId item) metadata_unreadable_or_untrusted
                          "Artifact retained because recency metadata is unreadable or untrusted.")
            (push_retained i (push_evaluated i l)))
  | Some touchedAt =>
    let ageMs := (nowMs - touchedAt)%Z in
    let retention := retention_of request (la_family item) in
    if (ageMs <=? retention)%Z then
      let i := toActionItem item artifact_too_recent_for_policy_prune
        (Some ("Artifact age " +:+ pretty ageMs +:+ "ms is within retention " +:+ pretty retention +:+ "ms.")) in
      mret (push_retained i (push_evaluated i l))
    else
      let i := toActionItem item (pruneEligibleReason item)
        (Some ("Artifact age " +:+ pretty ageMs +:+ "ms exceeded retention " +:+ pretty retention +:+ "ms.")) in
      remove_planned repoRoot (pr_mode request) item i (push_planned i (push_evaluated i l))
  end.

Definition pruneOperatorSafeArtifacts (repoRoot : string) (request : OperatorSafePruneRequest) :
    M OsWorld OperatorSafeMaintenanceActionResult :=
  ensureOperatorSafeArtifactDirs cwd repoRoot;;
  nowMs ← current_time (pr_nowMs request);
  let requestedFamily := defaultFamilySelector (pr_family request) in
  artifacts ← gets (λ w, filterArtifactsByFamily (collectArtifacts w repoRoot nowMs) requestedFamily);
  lists ← fold_each (prune_item repoRoot request nowMs) no_items artifacts;
  mret (mkActionResult action_prune (pr_mode request) requestedFamily lists).

(** ** Targeted cleanup *)

(** A result that settles the request without looking at targets. *)
Definition settled (request : OperatorSafeCleanupRequest) (requestedFamily : OperatorSafeArtifactFamilySelector)
    (lists : ActionLists) : OperatorSafeMaintenanceActionResult :=
  mkActionResult action_cleanup (cr_mode request) requestedFamily lists.

Definition simple_item (family : OperatorSafeArtifactFamily) (artifactId path : string)
    (reason : OperatorSafeMaintenanceReasonCode) (detail : string) : OperatorSafeMaintenanceActionItem :=
  mkItem family (JStr artifactId) None None path reason (Some detail).

(** An item that is evaluated and skipped, with a warning. *)
Definition refused (i : OperatorSafeMaintenanceActionItem) (message : string) : ActionLists :=
  mkLists [i] [] [] [] [i] [mkWarning (ai_family i) (ai_artifactId i) (ai_reason i) message].

(** The targets of a request, or the result that settles it. *)
Definition cleanup_targets (repoRoot : string) (request : OperatorSafeCleanupRequest) (artifacts : list ListedArtifact) :
    ActionLists + list ListedArtifact :=
  match truthy_string (cr_reportId request), cr_family request, truthy_string (cr_artifactId request) with
  | Some reportId, _, _ =>
    match List.find (has_id report reportId) artifacts with
    | None =>
      inl (refused (simple_item report reportId (resolveArtifactPath repoRoot report reportId) artifact_not_found
                      "Report target not found for cleanup.") "Cleanup report target was not found.")
    | Some r =>
      if from_option getReportCleanupEligible false (la_report r) then
        inr (filter (λ item, is_string reportId (la_artifactId item) || equals_string reportId (la_reportId item) = true) artifacts)
      else
        let i := toActionItem r report_outcome_not_cleanup_eligible
          (Some "Cleanup refused because report outcome is not degraded/failed/blocked.") in
        inl (mkLists [i] [] [] [i] []
               [mkWarning report (la_artifactId r) cleanup_eligibility_unproven
                  "Cleanup refused for recent successful/advisory report."])
    end
  | None, Some family, Some artifactId =>
    if decide (family = report) then
      inl (refused (simple_item report artifactId (resolveOperatorSafeArtifactsRoot repoRoot) target_family_not_cleanup_supported
                      "Targeted cleanup supports snapshot or temp_workspace only.") "Targeted cleanup family is unsupported.")
    else
      match List.find (has_id family artifactId) artifacts with
      | None =>
        inl (refused (simple_item family artifactId (resolveArtifactPath repoRoot family artifactId) artifact_not_found
                        "Cleanup target artifact not found.") "Targeted cleanup artifact was not found.")
      | Some target => inr [target]
      end
  | None, _, _ =>
    let i := simple_item report "(none)" (resolveOperatorSafeArtifactsRoot repoRoot) cleanup_requires_report_or_family_target
      "Cleanup requires --report <id> or --family <snapshot|temp_workspace> --id <artifact-id>." in
    inl (mkLists [] [] [] [] [i]
           [mkWarning report (JStr "(none)") cleanup_requires_report_or_family_target
              "Cleanup requires explicit report or artifact target."])
  end.

(** What may be removed: what is eligible by itself and, when a report is cleaned
    up, everything else that belongs to it. *)
Definition cleanup_eligible (request : OperatorSafeCleanupRequest) (item : ListedArtifact) : bool :=
  bool_decide (la_cleanupEligibility item = eligible)
  || (match truthy_string (cr_reportId request) with
      | Some _ => negb (bool_decide (la_family item = report)) || from_option getReportCleanupEligible false (la_report item)
      | None => false
      end)
  || bool_decide (la_cleanupReason item = Some eligible_by_orphan_target)
  || bool_decide (la_cleanupReason item = Some eligible_by_temp_staleness)
  || bool_decide (la_cleanupReason item = Some eligible_by_degraded_report).

Definition cleanup_item (repoRoot : string) (request : OperatorSafeCleanupRequest) (l : ActionLists) (item : ListedArtifact) :
    M OsWorld ActionLists :=
  let l := push_evaluated (toActionItem item (la_cleanupReason item or_else cleanup_eligibility_unproven) None) l in
  if negb (cleanup_eligible request item) then
    mret (push_retained (toActionItem item cleanup_eligibility_unproven
            (Some "Cleanup target retained because eligibility could not be proven from artifact truth.")) l)
  else
    let planned := toActionItem item (la_cleanupReason item or_else eligible_by_orphan_target)
      (Some "Targeted cleanup eligible by bounded policy.") in
    remove_planned repoRoot (cr_mode request) item planned (push_planned planned l).

Definition cleanupOperatorSafeArtifacts (repoRoot : string) (request : OperatorSafeCleanupRequest) :
    M OsWorld OperatorSafeMaintenanceActionResult :=
  ensureOperatorSafeArtifactDirs cwd repoRoot;;
  nowMs ← current_time (cr_nowMs request);
  let requestedFamily := match truthy_string (cr_reportId request) with
                         | Some _ => None
                         | None => cr_family request
                         end in
  artifacts ← gets (λ w, collectArtifacts w repoRoot nowMs);
  match cleanup_targets repoRoot request artifacts with
  | inl lists => mret (settled request requestedFamily lists)
  | inr targets =>
    lists ← fold_each (cleanup_item repoRoot request) no_items targets;
    mret (settled request requestedFamily lists)
  end.
End maintenance.

Definition resolveOperatorSafePruneRetentionPolicyMs : OperatorSafeArtifactFamily → Z := DEFAULT_RETENTION_MS.

(** [None] is the selector "all". *)
Definition resolveOperatorSafeMaintenanceFamily (value : option string) : option OperatorSafeArtifactFamilySelector :=
  match truthy_string value with
  | None => Some None
  | Some v =>
    if String.eqb v "all" then Some None
    else if String.eqb v "report" then Some (Some report)
    else if String.eqb v "snapshot" then Some (Some snapshot)
    else if String.eqb v "temp_workspace" then Some (Some temp_workspace)
    else if String.eqb v "temp" then Some (Some temp_workspace)
    else None
  end.

Definition resolveOperatorSafeMaintenanceMode (value : option string) : option OperatorSafeMaintenanceMode :=
  match value with
  | Some v => if String.eqb v "dry-run" || String.eqb v "dry_run" then Some dry_run
              else if String.eqb v "apply" then Some apply_mode else None
  | None => None
  end.

(** ** Facts about entries *)

Definition folder (f : OperatorSafeArtifactFamily) : string :=
  match f with report => "reports" | snapshot => "snapshots" | temp_workspace => "temp" end.

(** A file system as one finds it: parents are directories, names are names,
    and a link that leads nowhere is no entry of the tree. *)
Record world_ok (w : OsWorld) : Prop := mkWorldOk {
  wo_parents : ∀ p x, is_Some (os_tree w !! (p ++ [x])) → is_dir (os_tree w) p = true;
  wo_names : ∀ p, is_Some (os_tree w !! p) → Forall clean p;
  wo_dangling : ∀ p, p ∈ os_dangling w → p ≠ [] ∧ os_tree w !! p = None ∧ Forall clean p;
  wo_links : NoDup (os_dangling w);
}.

(** Nothing lies below a path that does not exist. *)
Lemma nothing_below w p q : world_ok w → p ≠ [] → os_tree w !! p = None → p `prefix_of` q → os_tree w !! q = None.
Proof.
  intros Hw Hp Hnone [k ->]. induction k as [|x k IH] using rev_ind; [by rewrite app_nil_r|].
  destruct (os_tree w !! (p ++ k ++ [x])) eqn:E; [|done]. exfalso. rewrite app_assoc in E.
  pose proof (wo_parents w Hw (p ++ k) x ltac:(by rewrite E)) as Hd. rewrite is_dir_entry in Hd by (by destruct p). by rewrite IH in Hd.
Qed.

Lemma relative_entry (P : Path) e : path_relative P (P ++ [e]) = e.
Proof.
  unfold path_relative. assert (relative_segments P (P ++ [e]) = [e]) as ->; [|done].
  induction P as [|x P IH]; [done|]. simpl. by rewrite decide_True.
Qed.

Lemma prefix_same_length {A : Type} (p q : list A) : length p = length q → p `prefix_of` q → p = q.
Proof. intros Hl [k ->]. rewrite length_app in Hl. destruct k; [by rewrite app_nil_r|simpl in Hl; lia]. Qed.

Lemma filter_ext_Forall {A : Type} (P Q : A → Prop) `{∀ x, Decision (P x)} `{∀ x, Decision (Q x)} l :
  Forall (λ x, P x ↔ Q x) l → filter P l = filter Q l.
Proof.
  induction 1 as [|x l Hx Hl IH]; [done|]. destruct (decide (P x)) as [Hp|Hp].
  - rewrite !filter_cons_True by tauto. by rewrite IH.
  - rewrite !filter_cons_False by tauto. done.
Qed.

Section entries.
#[local] Set Default Proof Using "All".
Context `{SearchEnvLaws} `{OsEnv}.
Context (locale_le : string → string → bool) (JSON_parse : string → option json) (date_parse : string → option Z).
Context (Number : string → number) (cwd : Path) (repoRoot : string).

Abbreviation family_dir f := (artifact_dir (path_resolve cwd repoRoot) (folder f)).
Abbreviation collected := (collectArtifacts locale_le JSON_parse date_parse Number cwd).

Lemma resolve_family f : path_resolve cwd (family_root repoRoot f) = family_dir f.
Proof. destruct f; [apply resolve_reports|apply resolve_snapshots|apply resolve_temp]. Qed.

Definition wanted (f : OperatorSafeArtifactFamily) (e : string) : bool :=
  match f with temp_workspace => true | _ => isJsonFile e end.

Definition entries (w : OsWorld) (f : OperatorSafeArtifactFamily) : list string :=
  listed_entries locale_le cwd w (family_root repoRoot f) (wanted f).

Definition read_item (w : OsWorld) (now : Z) (ids : list json) (f : OperatorSafeArtifactFamily) (e : string) : ListedArtifact :=
  match f with
  | report => readReport JSON_parse cwd w (family_root repoRoot report) now e
  | snapshot => readSnapshot JSON_parse cwd w (family_root repoRoot snapshot) now ids e
  | temp_workspace => readTemp JSON_parse date_parse Number cwd w (family_root repoRoot temp_workspace) now ids e
  end.

Definition report_ids (w : OsWorld) (now : Z) : list json :=
  la_artifactId <$> readReportArtifacts locale_le JSON_parse cwd w repoRoot now.

Lemma collect_families w now :
  collected w repoRoot now = [report; snapshot; temp_workspace] ≫= λ f, read_item w now (report_ids w now) f <$> entries w f.
Proof. cbn. by rewrite app_nil_r. Qed.

Lemma elem_of_collect w now item : item ∈ collected w repoRoot now ↔
  ∃ f e, e ∈ entries w f ∧ item = read_item w now (report_ids w now) f e.
Proof.
  rewrite collect_families, list_elem_of_bind. split.
  - intros (f & (e & -> & He)%list_elem_of_fmap & _). by exists f, e.
  - intros (f & e & He & ->). exists f. split; [by apply list_elem_of_fmap_2|]. destruct f; set_solver.
Qed.

Lemma read_item_place w now ids f e :
  la_family (read_item w now ids f e) = f ∧ la_path (read_item w now ids f e) = path_join (family_root repoRoot f) e ∧
  la_existsOnDisk (read_item w now ids f e) = existsSync (path_resolve cwd (path_join (family_root repoRoot f) e)) (os_tree w).
Proof.
  destruct f; cbn [read_item]; unfold readReport, readSnapshot, readTemp, stat; destruct (existsSync _ _); try done;
    by destruct (parsed_document _ _).
Qed.

Lemma elem_of_entries w f e : e ∈ entries w f ↔
  wanted f e = true ∧ is_dir (os_tree w) (family_dir f) = true ∧
  (is_Some (os_tree w !! (family_dir f ++ [e])) ∨ family_dir f ++ [e] ∈ os_dangling w).
Proof.
  unfold entries, listed_entries. rewrite elem_of_js_sort, list_elem_of_filter. unfold readDirEntriesSafe. rewrite resolve_family.
  destruct (is_dir _ _); [|set_solver]. rewrite dir_order_perm, elem_of_app, elem_of_children, list_elem_of_omap.
  assert ((∃ p, p ∈ os_dangling w ∧ (if decide (removelast p = family_dir f) then last p else None) = Some e) ↔
          family_dir f ++ [e] ∈ os_dangling w) as ->; [|tauto].
  split.
  - intros (p & Hp & Hlast). case_decide as Hr; [|done]. apply last_Some in Hlast as [l ->]. rewrite removelast_last in Hr. by rewrite <-Hr.
  - intros Hp. eexists. split; [exact Hp|]. rewrite removelast_last, decide_True by done. by rewrite last_snoc.
Qed.

Lemma entry_clean w f e : world_ok w → e ∈ entries w f → clean e.
Proof.
  intros Hw (_ & _ & [Hin|Hin])%elem_of_entries.
  - apply (wo_names w Hw), Forall_app in Hin as [_ Hin]. by inversion Hin.
  - apply (wo_dangling w Hw) in Hin as (_ & _ & Hin). apply Forall_app in Hin as [_ Hin]. by inversion Hin.
Qed.

Lemma entries_NoDup w f : world_ok w → NoDup (entries w f).
Proof.
  intros Hw. unfold entries, listed_entries. rewrite js_sort_perm. apply NoDup_filter. unfold readDirEntriesSafe.
  destruct (is_dir _ _); [|constructor]. rewrite dir_order_perm. apply NoDup_app. split_and!.
  - apply children_NoDup.
  - intros e [e' He]%elem_of_children (p & Hp & Hlast)%list_elem_of_omap. case_decide as Hr; [|done].
    apply last_Some in Hlast as [l ->]. rewrite removelast_last in Hr. subst l.
    destruct (wo_dangling w Hw _ Hp) as (_ & Hnone & _). congruence.
  - assert (∀ ps : list Path, NoDup ps →
      NoDup (omap (λ p, if decide (removelast p = path_resolve cwd (family_root repoRoot f)) then last p else None) ps)) as Hnd.
    { induction ps as [|p ps IH]; intros Hnd; [constructor|]. apply NoDup_cons in Hnd as [Hp Hnd]. rewrite omap_cons_list.
      case_decide as Hr; [|by apply IH]. destruct (last p) as [e|] eqn:El; [|by apply IH]. simpl. constructor; [|by apply IH].
      intros (p' & Hp' & Hlast)%list_elem_of_omap. case_decide as Hr'; [|done]. apply last_Some in El as [l ->], Hlast as [l' ->].
      rewrite removelast_last in Hr, Hr'. by subst. }
    apply Hnd, (wo_links w Hw).
Qed.

(** Where an item lies. *)
Definition loc (item : ListedArtifact) : Path := path_resolve cwd (la_path item).

Lemma loc_read w now ids f e : clean e → loc (read_item w now ids f e) = family_dir f ++ [e].
Proof.
  intros He. unfold loc. destruct (read_item_place w now ids f e) as (_ & -> & _). by rewrite resolve_entry, resolve_family.
Qed.

Lemma within_entry w now ids f e : clean e →
  isPathWithin cwd (family_root repoRoot f) (la_path (read_item w now ids f e)) = negb (startsWith e "..").
Proof.
  intros He. destruct (read_item_place w now ids f e) as (_ & -> & _). unfold isPathWithin, relative.
  rewrite resolve_entry, resolve_family, relative_entry by done.
  assert (bool_decide (e = "") = false) as -> by (apply bool_decide_eq_false; apply He).
  assert (isAbsolute e = false) as ->; [|by rewrite andb_true_r].
  apply (join_not_absolute [e]). by constructor.
Qed.

Lemma locs_NoDup w now : world_ok w → NoDup (loc <$> collected w repoRoot now).
Proof.
  intros Hw. rewrite collect_families. cbn [mbind list_bind]. rewrite !fmap_app, app_nil_r.
  assert (∀ f, loc <$> (read_item w now (report_ids w now) f <$> entries w f) = (λ e, family_dir f ++ [e]) <$> entries w f) as Hl.
  { intros f. rewrite <-list_fmap_compose. apply list_fmap_ext. intros i e He. apply loc_read. eapply entry_clean; [done|].
    by eapply list_elem_of_lookup_2. }
  assert (∀ f, NoDup ((λ e, family_dir f ++ [e]) <$> entries w f)) as Hnd.
  { intros f. apply NoDup_fmap_2; [|by apply entries_NoDup]. intros e e' E. apply (inj (app _)) in E. by injection E. }
  assert (∀ f f' (p : Path), f ≠ f' → p ∈ (λ e, family_dir f ++ [e]) <$> entries w f → p ∉ (λ e, family_dir f' ++ [e]) <$> entries w f') as Hdis.
  { intros f f' p Hf (e & -> & _)%list_elem_of_fmap (e' & E & _)%list_elem_of_fmap. revert E. apply families_differ.
    by destruct f, f'. }
  rewrite !Hl. apply NoDup_app. split_and!; [apply Hnd| |apply NoDup_app; split_and!; [apply Hnd|intros p; by apply Hdis|apply Hnd]].
  intros p Hp. rewrite not_elem_of_app. split; by apply (Hdis report).
Qed.

Lemma loc_length w now item : world_ok w → item ∈ collected w repoRoot now → length (loc item) = length (path_resolve cwd repoRoot) + 5.
Proof.
  intros Hw (f & e & He & ->)%elem_of_collect. rewrite loc_read by (by eapply entry_clean).
  rewrite length_app, artifact_dir_length. simpl. lia.
Qed.

(** ** Removing several artifacts *)

(** A tree without what lies at or below the given paths. *)
Definition cut (ps : list Path) (t : FileSystem) : FileSystem := filter (λ kv, ¬ Exists (λ p, p `prefix_of` kv.1) ps) t.

Lemma lookup_cut ps t q : cut ps t !! q = if decide (Exists (λ p, p `prefix_of` q) ps) then None else t !! q.
Proof.
  unfold cut. case_decide as Hd.
  - apply map_lookup_filter_None. right. intros e _ Hn. by apply Hn.
  - apply option_eq. intros e. rewrite map_lookup_filter_Some. naive_solver.
Qed.

Lemma cut_nil t : cut [] t = t.
Proof. apply map_eq. intros q. rewrite lookup_cut. rewrite decide_False; [done|]. by intros []%Exists_nil. Qed.

Lemma cut_cut ps qs t : cut qs (cut ps t) = cut (ps ++ qs) t.
Proof.
  apply map_eq. intros q. rewrite !lookup_cut. pose proof (Exists_app (λ p, p `prefix_of` q) ps qs) as Hiff.
  repeat case_decide; try done; exfalso; tauto.
Qed.

Definition removable (t : FileSystem) (item : ListedArtifact) : bool :=
  isPathWithin cwd (family_root repoRoot (la_family item)) (la_path item) && existsSync (loc item) t.

Lemma remove_spec item w : ∃ r w', removeArtifactPath cwd repoRoot item w = (Ret r, w') ∧
  if removable (os_tree w) item then r = None ∧ os_tree w' = cut [loc item] (os_tree w) else is_Some r ∧ w' = w.
Proof.
  unfold removeArtifactPath, removable. destruct (isPathWithin _ _ _); simpl; [|by eexists _, w].
  unfold mbind, M_bind, gets, stat. fold (loc item). destruct (existsSync _ _) eqn:E; [|by eexists _, w].
  eexists None, _. split; [reflexivity|]. split; [done|]. simpl. unfold cut. apply map_filter_ext. intros q e _. simpl.
  rewrite Exists_cons, Exists_nil. tauto.
Qed.

(** What a loop over artifacts does with each of them: the item it evaluates,
    keeps or plans to remove. *)
Record Loop : Type := mkLoop {
  lp_evaluated : ListedArtifact → OperatorSafeMaintenanceActionItem;
  lp_kept : ListedArtifact → option OperatorSafeMaintenanceActionItem;
  lp_plan : ListedArtifact → option OperatorSafeMaintenanceActionItem;
}.

(** The lists after an item, apart from a removal. *)
Definition listed_one (p : Loop) (item : ListedArtifact) (l l' : ActionLists) : Prop :=
  al_evaluated l' = al_evaluated l ++ [lp_evaluated p item] ∧
  al_retained l' = al_retained l ++ option_list (lp_kept p item) ∧
  al_planned l' = al_planned l ++ option_list (lp_plan p item) ∧
  al_removed l' = al_removed l.

Definition loop_body (mode : OperatorSafeMaintenanceMode) (p : Loop)
    (body : ActionLists → ListedArtifact → M OsWorld ActionLists) : Prop :=
  ∀ l item, ∃ l', listed_one p item l l' ∧
    match lp_plan p item with
    | None => body l item = mret l'
    | Some i => body l item = remove_planned cwd repoRoot mode item i l'
    end.

(** The artifacts that a loop removes. *)
Definition removals (mode : OperatorSafeMaintenanceMode) (p : Loop) (t : FileSystem) (items : list ListedArtifact) : list ListedArtifact :=
  if decide (mode = dry_run) then []
  else filter (λ item, is_Some (lp_plan p item) ∧ removable t item = true) items.

Lemma loop_step mode p body l item w : loop_body mode p body → ∃ l' w', body l item w = (Ret l', w') ∧
  al_evaluated l' = al_evaluated l ++ [lp_evaluated p item] ∧
  al_retained l' = al_retained l ++ option_list (lp_kept p item) ∧
  al_planned l' = al_planned l ++ option_list (lp_plan p item) ∧
  al_removed l' = al_removed l ++ omap (lp_plan p) (removals mode p (os_tree w) [item]) ∧
  os_tree w' = cut (loc <$> removals mode p (os_tree w) [item]) (os_tree w).
Proof.
  intros Hb. destruct (Hb l item) as (l1 & (He & Hk & Hp & Hr) & Hbody). unfold removals.
  destruct (lp_plan p item) as [i|] eqn:Ei; rewrite Hbody.
  - unfold remove_planned. destruct (decide (mode = dry_run)) as [|Hm].
    { exists l1, w. rewrite cut_nil, app_nil_r. done. }
    destruct (remove_spec item w) as (r & w' & Hrun & Hres). unfold mbind, M_bind. rewrite Hrun.
    destruct (removable (os_tree w) item) eqn:Er; [destruct Hres as [-> Ht]|destruct Hres as [[[c d] ->] ->]].
    + eexists _, _. split; [reflexivity|]. simpl. rewrite He, Hk, Hp, Hr. rewrite filter_cons_True by (rewrite Ei; eauto). simpl.
      by rewrite Ei.
    + eexists _, _. split; [reflexivity|]. simpl. rewrite He, Hk, Hp, Hr. rewrite filter_cons_False by (rewrite Er; naive_solver).
      simpl. by rewrite cut_nil, app_nil_r.
  - exists l1, w. rewrite He, Hk, Hp, Hr. split; [done|]. case_decide; simpl; rewrite ?cut_nil, ?app_nil_r; [done|].
    rewrite filter_cons_False by (rewrite Ei; intros [[? ?] _]; done). simpl. by rewrite cut_nil, app_nil_r.
Qed.

Lemma removable_cut t item ps : Forall (λ p, length p = length (loc item) ∧ p ≠ loc item) ps →
  removable (cut ps t) item = removable t item.
Proof.
  intros Hps. unfold removable. f_equal. unfold existsSync. f_equal. rewrite lookup_cut, decide_False; [done|].
  intros (p & Hp & Hpre)%Exists_exists. rewrite Forall_forall in Hps. destruct (Hps p Hp) as [Hl Hne].
  by apply Hne, prefix_same_length.
Qed.

Lemma removals_cut mode p t items ps n : Forall (λ q, length q = n) ps → Forall (λ item, length (loc item) = n ∧ loc item ∉ ps) items →
  removals mode p (cut ps t) items = removals mode p t items.
Proof.
  intros Hps Hit. unfold removals. destruct (decide _); [done|]. apply filter_ext_Forall. eapply Forall_impl; [exact Hit|].
  intros item [Hl Hn]. rewrite removable_cut; [done|]. rewrite Forall_forall in *. intros q Hq. rewrite (Hps q Hq). split; [done|]. by intros ->.
Qed.

(** The loop removes what it planned and can remove, and changes nothing else. *)
Lemma loop_spec mode p body n items : loop_body mode p body → ∀ l w,
  NoDup (loc <$> items) → Forall (λ item, length (loc item) = n) items →
  ∃ lists w', fold_each body l items w = (Ret lists, w') ∧
    al_evaluated lists = al_evaluated l ++ (lp_evaluated p <$> items) ∧
    al_retained lists = al_retained l ++ omap (lp_kept p) items ∧
    al_planned lists = al_planned l ++ omap (lp_plan p) items ∧
    al_removed lists = al_removed l ++ omap (lp_plan p) (removals mode p (os_tree w) items) ∧
    os_tree w' = cut (loc <$> removals mode p (os_tree w) items) (os_tree w).
Proof.
  intros Hb. induction items as [|item items IH]; intros l w Hnd Hlen.
  - exists l, w. unfold removals. rewrite !app_nil_r. destruct (decide _); simpl; rewrite ?app_nil_r, cut_nil; done.
  - rewrite fmap_cons in Hnd. apply NoDup_cons in Hnd as [Hnew Hnd]. inversion Hlen as [|? ? Hl Hlen']; subst.
    destruct (loop_step mode p body l item w Hb) as (l1 & w1 & Hrun & He & Hk & Hp & Hr & Ht).
    destruct (IH l1 w1 Hnd Hlen') as (lists & w' & Hrun' & He' & Hk' & Hp' & Hr' & Ht').
    assert (removals mode p (os_tree w1) items = removals mode p (os_tree w) items) as Hsame.
    { rewrite Ht. apply (removals_cut _ _ _ _ _ (length (loc item))).
      - apply Forall_fmap, Forall_forall. intros x Hx. unfold removals in Hx. destruct (decide _); [by apply not_elem_of_nil in Hx|].
        apply list_elem_of_filter in Hx as [_ ->%list_elem_of_singleton]. done.
      - apply Forall_forall. intros x Hx. rewrite Forall_forall in Hlen'. split; [by apply Hlen'|].
        intros (y & Hy & Hin)%list_elem_of_fmap. unfold removals in Hin. destruct (decide _); [by apply not_elem_of_nil in Hin|].
        apply list_elem_of_filter in Hin as [_ ->%list_elem_of_singleton]. apply Hnew. rewrite <-Hy. by apply list_elem_of_fmap_2. }
    rewrite Hsame in Hr', Ht'.
    assert (removals mode p (os_tree w) (item :: items) = removals mode p (os_tree w) [item] ++ removals mode p (os_tree w) items) as Hsplit.
    { unfold removals. destruct (decide _); [done|]. by rewrite <-filter_app. }
    exists lists, w'. split; [cbn [fold_each]; unfold mbind, M_bind; by rewrite Hrun|].
    rewrite He', Hk', Hp', Hr', Ht', He, Hk, Hp, Hr, Ht, Hsplit, fmap_app, omap_app, cut_cut, <-!app_assoc.
    rewrite !omap_cons_list. done.
Qed.

(** ** Pruning *)

Abbreviation ensure := (ensureOperatorSafeArtifactDirs cwd repoRoot).

(** What the retention policy lets go: an artifact that is there and was last
    touched longer ago than its family is kept. *)
Definition expired (request : OperatorSafePruneRequest) (now : Z) (item : ListedArtifact) : bool :=
  la_existsOnDisk item && match touched_at date_parse item with
                          | Some t => (retention_of request (la_family item) <? now - t)%Z
                          | None => false
                          end.

Definition kept (request : OperatorSafePruneRequest) (now : Z) (item : ListedArtifact) : bool :=
  la_existsOnDisk item && negb (expired request now item).

Definition inside_family (item : ListedArtifact) : bool :=
  isPathWithin cwd (family_root repoRoot (la_family item)) (la_path item).

(** The item of the loop for each verdict. *)
Definition prune_loop (request : OperatorSafePruneRequest) (now : Z) : Loop :=
  let item_of item :=
    if negb (la_existsOnDisk item) then toActionItem item already_removed (Some "Artifact path not present on disk.")
    else match touched_at date_parse item with
    | None => toActionItem item metadata_unreadable_or_untrusted (Some "Unable to parse recency for policy prune.")
    | Some t =>
      let age := (now - t)%Z in
      let retention := retention_of request (la_family item) in
      if (age <=? retention)%Z
      then toActionItem item artifact_too_recent_for_policy_prune
             (Some ("Artifact age " +:+ pretty age +:+ "ms is within retention " +:+ pretty retention +:+ "ms."))
      else toActionItem item (pruneEligibleReason item)
             (Some ("Artifact age " +:+ pretty age +:+ "ms exceeded retention " +:+ pretty retention +:+ "ms."))
    end in
  mkLoop item_of (λ item, if kept request now item then Some (item_of item) else None)
    (λ item, if expired request now item then Some (item_of item) else None).

Lemma prune_body request now :
  loop_body (pr_mode request) (prune_loop request now) (prune_item date_parse cwd repoRoot request now).
Proof.
  intros l item. unfold prune_item, listed_one. cbn [lp_plan lp_kept lp_evaluated prune_loop]. unfold kept, expired.
  destruct (la_existsOnDisk item); simpl; [|eexists; split; [|reflexivity]; simpl; rewrite !app_nil_r; done].
  destruct (touched_at date_parse item) as [t|]; simpl; [|eexists; split; [|reflexivity]; simpl; rewrite ?app_nil_r; done].
  destruct (Z.leb_spec (now - t) (retention_of request (la_family item))) as [Hle|Hgt].
  - assert ((retention_of request (la_family item) <? now - t)%Z = false) as -> by (by apply Z.ltb_ge). simpl.
    eexists. split; [|reflexivity]. simpl. rewrite ?app_nil_r. done.
  - assert ((retention_of request (la_family item) <? now - t)%Z = true) as -> by (by apply Z.ltb_lt). simpl.
    eexists. split; [|reflexivity]. simpl. rewrite ?app_nil_r. done.
Qed.

Lemma path_of_omap (P : ListedArtifact → bool) (g : ListedArtifact → OperatorSafeMaintenanceActionItem) (items : list ListedArtifact) :
  (∀ item, ai_path (g item) = la_path item) →
  ai_path <$> omap (λ item, if P item then Some (g item) else None) items = la_path <$> filter (λ item, P item = true) items.
Proof.
  intros Hg. induction items as [|item items IH]; [done|]. rewrite omap_cons_list. destruct (P item) eqn:E.
  - rewrite filter_cons_True by done. cbn. by rewrite IH, Hg.
  - rewrite filter_cons_False by (by rewrite E). done.
Qed.

Lemma prune_item_path request now item : ai_path (lp_evaluated (prune_loop request now) item) = la_path item.
Proof. cbn. destruct (la_existsOnDisk item); simpl; [|done]. destruct (touched_at _ _); [|done]. by destruct (_ <=? _)%Z. Qed.

Lemma filtered_by_family f items : ∃ P : ListedArtifact → bool, filterArtifactsByFamily items f = filter (λ i, P i = true) items.
Proof.
  destruct f as [f|].
  - exists (λ i, bool_decide (la_family i = f)). cbn. apply filter_ext_Forall, Forall_forall. intros x _. by rewrite bool_decide_eq_true.
  - exists (λ _, true). symmetry. by apply filter_all, Forall_forall.
Qed.

(** The items that a command works on have places of their own. *)
Lemma collected_places w now (P : ListedArtifact → bool) : world_ok w →
  let items := filter (λ i, P i = true) (collected w repoRoot now) in
  NoDup (loc <$> items) ∧ Forall (λ item, length (loc item) = length (path_resolve cwd repoRoot) + 5) items.
Proof.
  intros Hw items. pose proof (locs_NoDup w now Hw) as Hnd. split.
  - unfold items. induction (collected w repoRoot now) as [|x xs IH]; [constructor|]. rewrite fmap_cons in Hnd.
    apply NoDup_cons in Hnd as [Hx Hnd]. destruct (P x) eqn:E.
    + rewrite filter_cons_True, fmap_cons by done. constructor; [|by apply IH].
      intros (y & E' & Hy)%list_elem_of_fmap. apply Hx. rewrite E'. apply list_elem_of_filter in Hy as [_ Hy]. by apply list_elem_of_fmap_2.
    + rewrite filter_cons_False by (by rewrite E). by apply IH.
  - apply Forall_forall. intros x [_ Hx]%list_elem_of_filter. by eapply loc_length.
Qed.

Lemma world_ok_ext w w' : os_tree w' = os_tree w → os_dangling w' = os_dangling w → world_ok w → world_ok w'.
Proof. intros Ht Hd [Hp Hn Hl Hnd]. constructor; rewrite ?Ht, ?Hd; done. Qed.

Lemma time_step nowMs w : ∃ now w', current_time nowMs w = (Ret now, w') ∧ os_tree w' = os_tree w ∧ os_dangling w' = os_dangling w.
Proof. destruct nowMs as [t|]; by eexists _, _. Qed.

(** C33 Pruning follows the retention policy exactly.  Whenever the artifact
    directories can be made, it returns; every artifact of the requested family
    is evaluated, in order, and those that are there are either planned, when
    they expired, or retained.  A dry run changes nothing; an applied run
    removes the planned artifacts, each with everything below it, and nothing
    else.  An artifact whose name starts with two dots is planned and refused. *)
Theorem prune_exact request w w1 w2 now :
  ensure w = (Ret (), w1) → current_time (pr_nowMs request) w1 = (Ret now, w2) → world_ok w1 →
  let artifacts := filterArtifactsByFamily (collected w2 repoRoot now) (defaultFamilySelector (pr_family request)) in
  let doomed := filter (λ item, expired request now item && inside_family item = true) artifacts in
  ∃ r w', pruneOperatorSafeArtifacts locale_le JSON_parse date_parse Number cwd repoRoot request w = (Ret r, w') ∧
    (ai_path <$> al_evaluated (ar_lists r)) = (la_path <$> artifacts) ∧
    (ai_path <$> al_planned (ar_lists r)) = (la_path <$> filter (λ item, expired request now item = true) artifacts) ∧
    (ai_path <$> al_retained (ar_lists r)) = (la_path <$> filter (λ item, kept request now item = true) artifacts) ∧
    (ai_path <$> al_removed (ar_lists r)) = (if decide (pr_mode request = dry_run) then [] else la_path <$> doomed) ∧
    os_tree w' = (if decide (pr_mode request = dry_run) then os_tree w1 else cut (loc <$> doomed) (os_tree w1)).
Proof.
  intros He Htime Hw artifacts doomed.
  assert (os_tree w2 = os_tree w1 ∧ os_dangling w2 = os_dangling w1) as [Ht2 Hd2].
  { destruct (time_step (pr_nowMs request) w1) as (? & ? & Hrun & ? & ?). rewrite Htime in Hrun. by injection Hrun as -> ->. }
  assert (world_ok w2) as Hw2 by (by eapply world_ok_ext).
  destruct (filtered_by_family (defaultFamilySelector (pr_family request)) (collected w2 repoRoot now)) as [P HP].
  destruct (collected_places w2 now P Hw2) as [Hnd Hlen]. cbv zeta in Hnd, Hlen. rewrite <-HP in Hnd, Hlen. fold artifacts in Hnd, Hlen.
  destruct (loop_spec _ _ _ _ artifacts (prune_body request now) no_items w2 Hnd Hlen) as (lists & w' & Hrun & Hev & Hk & Hp & Hr & Ht).
  eexists (mkActionResult _ _ _ lists), w'. split.
  { unfold pruneOperatorSafeArtifacts. rewrite (bind_run _ _ _ _ _ He), (bind_run _ _ _ _ _ Htime). unfold mbind at 1, M_bind at 1, gets.
    fold artifacts. by rewrite (bind_run _ _ _ _ _ Hrun). }
  cbn [ar_lists]. rewrite Hev, Hk, Hp, Hr, Ht, !app_nil_l, Ht2.
  assert (removals (pr_mode request) (prune_loop request now) (os_tree w1) artifacts =
    if decide (pr_mode request = dry_run) then [] else doomed) as Hrem.
  { unfold removals. destruct (decide _); [done|]. apply filter_ext_Forall, Forall_forall. intros item Hitem. cbn [lp_plan prune_loop].
    assert (la_existsOnDisk item = existsSync (loc item) (os_tree w1)) as Hex.
    { unfold artifacts in Hitem. rewrite HP in Hitem. apply list_elem_of_filter in Hitem as [_ (f & e & _ & ->)%elem_of_collect].
      destruct (read_item_place w2 now (report_ids w2 now) f e) as (_ & Hpath & ->). unfold loc. by rewrite Hpath, Ht2. }
    unfold removable, inside_family. rewrite <-Hex. destruct (expired request now item) eqn:Ex; simpl.
    - unfold expired in Ex. apply andb_true_iff in Ex as [-> _]. rewrite andb_true_r. naive_solver.
    - split; [intros [[? ?] _]|]; done. }
  rewrite Hrem. split_and!.
  - rewrite <-list_fmap_compose. apply list_fmap_ext. intros i x _. apply prune_item_path.
  - apply path_of_omap. intros item. apply (prune_item_path request now).
  - apply path_of_omap. intros item. apply (prune_item_path request now).
  - destruct (decide _); [done|]. etrans; [apply path_of_omap; intros item; apply (prune_item_path request now)|].
    f_equal. apply filter_all, Forall_forall. intros item [Hx _]%list_elem_of_filter. by apply andb_true_iff in Hx as [? _].
  - destruct (decide _); [apply cut_nil|done].
Qed.

(** ** Targeted cleanup *)

Definition cleanup_loop (request : OperatorSafeCleanupRequest) : Loop :=
  mkLoop (λ item, toActionItem item (la_cleanupReason item or_else cleanup_eligibility_unproven) None)
    (λ item, if cleanup_eligible request item then None
             else Some (toActionItem item cleanup_eligibility_unproven
                    (Some "Cleanup target retained because eligibility could not be proven from artifact truth.")))
    (λ item, if cleanup_eligible request item
             then Some (toActionItem item (la_cleanupReason item or_else eligible_by_orphan_target)
                    (Some "Targeted cleanup eligible by bounded policy."))
             else None).

Lemma cleanup_body request : loop_body (cr_mode request) (cleanup_loop request) (cleanup_item cwd repoRoot request).
Proof.
  intros l item. unfold cleanup_item, listed_one. cbn [lp_plan lp_kept lp_evaluated cleanup_loop].
  destruct (cleanup_eligible request item); simpl; (eexists; split; [|reflexivity]); simpl; rewrite ?app_nil_r; done.
Qed.

Abbreviation cleanup := (cleanupOperatorSafeArtifacts locale_le JSON_parse date_parse Number cwd repoRoot).

(** The targets are artifacts of the repository, each once. *)
Lemma targets_collected request artifacts targets : cleanup_targets repoRoot request artifacts = inr targets →
  (∃ P : ListedArtifact → bool, targets = filter (λ i, P i = true) artifacts) ∨ ∃ x, targets = [x] ∧ x ∈ artifacts.
Proof.
  unfold cleanup_targets. intros Hrun. destruct (truthy_string (cr_reportId request)) as [id|].
  - left. destruct (List.find _ artifacts); [|done]. destruct (from_option _ _ _); [|done]. injection Hrun as <-.
    by exists (λ item, is_string id (la_artifactId item) || equals_string id (la_reportId item)).
  - right. destruct (cr_family request) as [f|]; [|done]. destruct (truthy_string (cr_artifactId request)) as [id|]; [|done].
    destruct (decide (f = report)); [done|]. destruct (List.find _ artifacts) as [x|] eqn:E; [|done]. injection Hrun as <-.
    apply List.find_some in E as [Hin _]. exists x. split; [done|]. by apply list_elem_of_In.
Qed.

Lemma cleanup_loop_run request w w1 w2 now targets :
  ensure w = (Ret (), w1) → current_time (cr_nowMs request) w1 = (Ret now, w2) → world_ok w2 →
  cleanup_targets repoRoot request (collected w2 repoRoot now) = inr targets →
  ∃ r w', cleanup request w = (Ret r, w') ∧
    al_planned (ar_lists r) = omap (lp_plan (cleanup_loop request)) targets ∧
    al_removed (ar_lists r) = omap (lp_plan (cleanup_loop request)) (removals (cr_mode request) (cleanup_loop request) (os_tree w2) targets) ∧
    os_tree w' = cut (loc <$> removals (cr_mode request) (cleanup_loop request) (os_tree w2) targets) (os_tree w2).
Proof.
  intros He Htime Hw Htargets.
  assert (NoDup (loc <$> targets) ∧ Forall (λ item, length (loc item) = length (path_resolve cwd repoRoot) + 5) targets) as [Hnd Hlen].
  { destruct (targets_collected _ _ _ Htargets) as [[P ->]|(x & -> & Hx)]; [by apply collected_places|].
    split; [apply NoDup_singleton|]. apply Forall_singleton. by eapply loc_length. }
  destruct (loop_spec _ _ _ _ targets (cleanup_body request) no_items w2 Hnd Hlen) as (lists & w' & Hrun & _ & _ & Hp & Hr & Ht).
  eexists (mkActionResult _ _ _ lists), w'. split; [|done].
  unfold cleanupOperatorSafeArtifacts. rewrite (bind_run _ _ _ _ _ He), (bind_run _ _ _ _ _ Htime). unfold mbind at 1, M_bind at 1, gets.
  rewrite Htargets. by rewrite (bind_run _ _ _ _ _ Hrun).
Qed.

(** A targeted cleanup touches only what belongs to its target.  Whenever the
    artifact directories can be made it returns; what it plans is eligible and
    is the named artifact, or is called after the named report or refers to it;
    in a dry run nothing changes, and in an applied run only what lies at or
    below a planned artifact disappears. *)
Theorem cleanup_targeted request w w1 w2 now :
  ensure w = (Ret (), w1) → current_time (cr_nowMs request) w1 = (Ret now, w2) → world_ok w1 →
  ∃ r w', cleanup request w = (Ret r, w') ∧
    (∀ i, i ∈ al_planned (ar_lists r) → ∃ item, item ∈ collected w2 repoRoot now ∧ ai_path i = la_path item ∧
       cleanup_eligible request item = true ∧
       match truthy_string (cr_reportId request) with
       | Some id => is_string id (la_artifactId item) || equals_string id (la_reportId item) = true
       | None => ∃ f id, cr_family request = Some f ∧ f ≠ report ∧ cr_artifactId request = Some id ∧ has_id f id item = true
       end) ∧
    (∀ q, os_tree w' !! q ≠ os_tree w1 !! q → cr_mode request = apply_mode ∧ os_tree w' !! q = None ∧
       ∃ i, i ∈ al_removed (ar_lists r) ∧ i ∈ al_planned (ar_lists r) ∧ path_resolve cwd (ai_path i) `prefix_of` q).
Proof.
  intros He Htime Hw.
  assert (os_tree w2 = os_tree w1 ∧ os_dangling w2 = os_dangling w1) as [Ht2 Hd2].
  { destruct (time_step (cr_nowMs request) w1) as (? & ? & Hrun & ? & ?). rewrite Htime in Hrun. by injection Hrun as -> ->. }
  destruct (cleanup_targets repoRoot request (collected w2 repoRoot now)) as [lists|targets] eqn:Et.
  - eexists (settled request _ lists), w2. split.
    { unfold cleanupOperatorSafeArtifacts. rewrite (bind_run _ _ _ _ _ He), (bind_run _ _ _ _ _ Htime).
      unfold mbind, M_bind, gets. by rewrite Et. }
    split; [|intros q Hq; by rewrite Ht2 in Hq]. cbn [ar_lists settled]. intros i Hi. exfalso. unfold cleanup_targets in Et.
    assert (al_planned lists = []) as Hnil; [|by rewrite Hnil in Hi; apply not_elem_of_nil in Hi].
    repeat case_match; simplify_eq; done.
  - assert (world_ok w2) as Hw2 by (by eapply world_ok_ext).
    destruct (cleanup_loop_run _ _ _ _ _ _ He Htime Hw2 Et) as (r & w' & Hrun & Hp & Hr & Ht). exists r, w'. split; [done|]. split.
    + intros i Hi. rewrite Hp in Hi. apply list_elem_of_omap in Hi as (item & Hitem & Hplan). cbn [lp_plan cleanup_loop] in Hplan.
      destruct (cleanup_eligible request item) eqn:Eel; [|done]. injection Hplan as <-. exists item.
      unfold cleanup_targets in Et. destruct (truthy_string (cr_reportId request)) as [id|] eqn:Eid.
      * destruct (List.find _ _); [|done]. destruct (from_option _ _ _); [|done]. injection Et as <-.
        apply list_elem_of_filter in Hitem as [? ?]. done.
      * destruct (cr_family request) as [f|]; [|done]. destruct (truthy_string (cr_artifactId request)) as [id|] eqn:Eaid; [|done].
        destruct (decide (f = report)) as [|Hf]; [done|]. destruct (List.find _ _) as [x|] eqn:Ef; [|done]. injection Et as <-.
        apply list_elem_of_singleton in Hitem as ->. apply List.find_some in Ef as [Hin Hid]. split_and!; [by apply list_elem_of_In|done..|].
        exists f, id. split_and!; try done. destruct (cr_artifactId request) as [[|c s]|]; simpl in Eaid; simplify_eq; done.
    + intros q Hq. rewrite Ht, Ht2, lookup_cut in Hq |- *. case_decide as Hd; [|done].
      apply Exists_exists in Hd as (p & (item & -> & Hin)%list_elem_of_fmap & Hpre). unfold removals in Hin.
      destruct (decide (cr_mode request = dry_run)) as [|Hm]; [by apply not_elem_of_nil in Hin|].
      split; [by destruct (cr_mode request)|]. split; [done|]. pose proof Hin as [[[i Hi] _] Hitem]%list_elem_of_filter.
      exists i. rewrite Hr, Hp. split_and!.
      * apply list_elem_of_omap. exists item. split; [|done]. unfold removals. rewrite decide_False, Ht2 by done. exact Hin.
      * apply list_elem_of_omap. by exists item.
      * cbn [lp_plan cleanup_loop] in Hi. destruct (cleanup_eligible request item); [|done]. by injection Hi as <-.
Qed.

(** ** A run and its cleanup *)

Lemma keeps_dangling_tree {A : Type} (m : M FileSystem A) : keeps os_dangling (on_tree m).
Proof. intros w. unfold on_tree. by destruct (m (os_tree w)). Qed.

Lemma promise_all_keeps {W B : Type} (f : W → B) (ms : list (M W ())) : Forall (keeps f) ms → keeps f (promise_all ms).
Proof.
  induction 1 as [|m ms Hm _ IH]; intros w; [done|]. cbn [promise_all]. specialize (Hm w). destruct (m w) as [o w1]. simpl in Hm.
  specialize (IH w1). destruct (promise_all ms w1) as [o' w2]. simpl in *. congruence.
Qed.

Lemma ensure_keeps_dangling root : keeps os_dangling (ensureOperatorSafeArtifactDirs cwd root).
Proof. apply promise_all_keeps. repeat apply Forall_cons_2; try apply Forall_nil_2; apply keeps_dangling_tree. Qed.

Lemma artifact_id_keeps prefix : keeps os_dangling (makeArtifactId prefix).
Proof. done. Qed.

Lemma lifecycle_keeps_dangling sha input : keeps os_dangling (runOperatorSafeProjectWorktreeLifecycle sha locale_le cwd input).
Proof.
  unfold runOperatorSafeProjectWorktreeLifecycle. apply keeps_bind; [done|]. intros tree. cbv zeta.
  apply keeps_bind; [done|]. intros [reportId executionId]. apply keeps_bind.
  { unfold captureOperatorSafeSnapshot. destruct (decide _); [done|]. apply keeps_bind; [done|]. intros m.
    apply keeps_bind; [apply ensure_keeps_dangling|]. intros []. apply keeps_bind; [apply keeps_dangling_tree|done]. }
  intros s. apply keeps_bind.
  { unfold prepareOperatorSafeTempWorkspace. destruct (decide _); [done|].
    apply keeps_bind; [apply ensure_keeps_dangling|]. intros []. apply keeps_bind; [done|]. intros t.
    apply keeps_bind; [|intros p; apply keeps_bind; [done|]; intros now; apply keeps_bind; [apply keeps_dangling_tree|done]].
    apply keeps_bind; [done|]. intros x. apply keeps_bind; [apply keeps_dangling_tree|done]. }
  intros tw. apply keeps_bind; [done|]. intros rep. apply keeps_bind; [|done].
  apply keeps_bind; [apply ensure_keeps_dangling|]. intros []. apply keeps_bind; [apply keeps_dangling_tree|done].
Qed.

(** A new entry of a directory keeps a file system well formed. *)
Lemma world_ok_write w p x e : world_ok w → is_dir (os_tree w) p = true → Forall clean (p ++ [x]) → p ++ [x] ∉ os_dangling w →
  os_tree w !! (p ++ [x]) = None → world_ok (set_tree (<[p ++ [x] := e]> (os_tree w)) w).
Proof.
  intros Hw Hd Hc Hn Hnone. constructor; cbn [os_tree os_dangling set_tree]; [| | |apply (wo_links w Hw)].
  - intros q y Hq. destruct (decide (q = p ++ [x])) as [->|Hne].
    + exfalso. rewrite lookup_insert_ne in Hq by (apply snoc_longer || (intros E; symmetry in E; by apply snoc_longer in E)).
      pose proof (nothing_below w (p ++ [x]) ((p ++ [x]) ++ [y]) Hw ltac:(by destruct p) Hnone ltac:(by apply prefix_app_r)) as E. rewrite E in Hq. by destruct Hq.
    + assert (is_dir (os_tree w) q = true) as Hqd.
      { destruct (decide (q ++ [y] = p ++ [x])) as [E|E]; [apply app_inj_tail in E as [-> _]; done|].
        rewrite lookup_insert_ne in Hq by done. by apply (wo_parents w Hw q y). }
      destruct q as [|z q]; [done|]. rewrite is_dir_entry in * by done. by rewrite lookup_insert_ne.
  - intros q Hq. destruct (decide (q = p ++ [x])) as [->|Hne]; [done|]. rewrite lookup_insert_ne in Hq by done. by apply (wo_names w Hw).
  - intros q Hq. destruct (wo_dangling w Hw q Hq) as (? & ? & ?). split_and!; [done| |done]. rewrite lookup_insert_ne; [done|]. intros <-. done.
Qed.

(** Directories that are made on the way to a place keep it well formed. *)
Lemma world_ok_opened w ps t : world_ok w → Forall (λ p, Forall clean p) ps → opened ps (os_tree w) t → has_dirs ps t →
  (∀ d, d ∈ os_dangling w → ∀ p, p ∈ ps → ¬ d `prefix_of` p) → world_ok (set_tree t w).
Proof.
  intros Hw Hc Ho Hd Hdang. rewrite Forall_forall in Hc.
  assert (∀ q, t !! q = os_tree w !! q ∨ ∃ p, p ∈ ps ∧ q `prefix_of` p ∧ q ≠ []) as Hcase.
  { intros q. rewrite Ho. destruct (os_tree w !! q); [by left|]. case_decide as Hq; [|by left]. right.
    destruct Hq as [? (p & ? & ?)%Exists_exists]. by exists p. }
  constructor; cbn [os_tree os_dangling set_tree]; [| | |apply (wo_links w Hw)].
  - intros q y Hq. destruct q as [|z q]; [done|]. rewrite is_dir_entry by done. destruct (Hcase ((z :: q) ++ [y])) as [E|(p & Hp & Hpre & _)].
    + rewrite E in Hq. apply (wo_parents w Hw) in Hq. rewrite is_dir_entry in Hq by done. rewrite Ho.
      by destruct (os_tree w !! (z :: q)) as [[]|].
    + by rewrite (Hd (z :: q) p Hp) by (done || by etrans; [by apply prefix_app_r|exact Hpre]).
  - intros q Hq. destruct (Hcase q) as [E|(p & Hp & [k ->] & _)]; [rewrite E in Hq; by apply (wo_names w Hw)|].
    specialize (Hc _ Hp). by apply Forall_app in Hc as [? _].
  - intros q Hq. destruct (wo_dangling w Hw q Hq) as (? & ? & ?). split_and!; [done| |done].
    destruct (Hcase q) as [->|(p & Hp & Hpre & _)]; [done|]. by destruct (Hdang q Hq p Hp).
Qed.

(** *** The documents of a run, read back *)

Lemma report_members r :
  json_get "id" (report_json r) = Some (JStr (rp_id r)) ∧
  json_get "outcome" (report_json r) = Some (JStr (outcome_name (rp_outcome r))).
Proof. unfold report_json. rewrite !json_get_app, !json_get_opt by done. done. Qed.

Lemma snapshot_members m :
  json_get "id" (snapshot_manifest_json m) = Some (JStr (sm_id m)) ∧
  json_get "reportId" (snapshot_manifest_json m) = Some (JStr (sm_reportId m)).
Proof. unfold snapshot_manifest_json, opt_str, opt_nullable. rewrite !json_get_app, !json_get_opt by done. done. Qed.

Lemma temp_members m :
  json_get "id" (temp_manifest_json m) = Some (JStr (tm_id m)) ∧
  json_get "reportId" (temp_manifest_json m) = Some (JStr (tm_reportId m)).
Proof. done. Qed.

Lemma document_text_read v : JSON_parse (document_text v) = Some v → falsy (Some v) = false →
  parsed_document JSON_parse (Some (document_text v)) = Some v.
Proof.
  intros Hp Hf. assert (document_text v ≠ "") as Hne by (unfold document_text; by destruct (stringify_indented "" v)).
  unfold parsed_document, parseJsonSafe. rewrite truthy_not_empty, Hp by done. by rewrite Hf.
Qed.

Lemma json_name (id : string) : isJsonFile (id +:+ ".json") = true.
Proof.
  unfold isJsonFile, endsWith. rewrite length_append. apply andb_true_iff. split; [apply Nat.leb_le; simpl; lia|].
  replace (String.length id + String.length ".json" - String.length ".json") with (String.length id) by (simpl; lia).
  apply String.eqb_eq. induction id as [|c id IH]; [done|]. exact IH.
Qed.

(** What an item is called and refers to, when its document is known. *)
Lemma read_known w now ids f e (doc : json) text : clean e →
  os_tree w !! (family_dir f ++ [e]) = (match f with temp_workspace => Some Dir | _ => Some (File text) end) →
  (f = temp_workspace → os_tree w !! (family_dir f ++ [e; "manifest.json"]) = Some (File text)) →
  parsed_document JSON_parse (Some text) = Some doc →
  ∀ id, json_get "id" doc = Some (JStr id) → id ≠ "" →
  la_artifactId (read_item w now ids f e) = JStr id ∧
  la_reportId (read_item w now ids f e) = (match f with report => Some (JStr id) | _ => json_get "reportId" doc end) ∧
  (f = report → la_report (read_item w now ids f e) = Some doc).
Proof.
  intros Hc He Hm Hdoc id Hid Hne.
  assert (path_resolve cwd (path_join (family_root repoRoot f) e) = family_dir f ++ [e]) as Hloc by (by rewrite resolve_entry, resolve_family).
  assert (existsSync (family_dir f ++ [e]) (os_tree w) = true) as Hex.
  { unfold existsSync. rewrite He. apply orb_true_iff. right. apply bool_decide_eq_true. destruct f; by eexists. }
  assert (∀ p, path_resolve cwd p ≠ [] → os_tree w !! path_resolve cwd p = Some (File text) → read_file cwd w p = Some text) as Hread.
  { intros p Hp Ht. unfold read_file, readFileSync. rewrite is_dir_entry by done. by rewrite Ht. }
  assert (family_dir f ++ [e] ≠ []) as Hnil by (by destruct (family_dir f)).
  destruct f; cbn [read_item]; unfold readReport, readSnapshot, readTemp, stat; cbn [family_root] in *; rewrite Hloc, Hex.
  - rewrite Hread, Hdoc by (by rewrite Hloc). cbn [la_artifactId la_reportId la_report]. rewrite Hid. done.
  - rewrite Hread, Hdoc by (by rewrite Hloc). cbn [la_artifactId la_reportId la_report]. rewrite Hid. done.
  - rewrite Hread, Hdoc.
    + cbn [la_artifactId la_reportId la_report]. rewrite Hid. simpl. destruct (String.eqb_spec id ""); [done|]. done.
    + rewrite resolve_entry, Hloc by (by apply clean_check). by destruct (family_dir temp_workspace).
    + rewrite resolve_entry, Hloc, <-app_assoc by (by apply clean_check). by apply Hm.
Qed.

(** An entry that a run leaves alone keeps its name and its reference. *)
Lemma read_unchanged w w' now ids ids' f e : clean e →
  (∀ l, os_tree w' !! (family_dir f ++ e :: l) = os_tree w !! (family_dir f ++ e :: l)) →
  la_artifactId (read_item w' now ids' f e) = la_artifactId (read_item w now ids f e) ∧
  la_reportId (read_item w' now ids' f e) = la_reportId (read_item w now ids f e).
Proof.
  intros Hc Hsame.
  assert (path_resolve cwd (path_join (family_root repoRoot f) e) = family_dir f ++ [e]) as Hloc by (by rewrite resolve_entry, resolve_family).
  assert (existsSync (family_dir f ++ [e]) (os_tree w') = existsSync (family_dir f ++ [e]) (os_tree w)) as Hex.
  { unfold existsSync. by rewrite (Hsame []). }
  assert (∀ p l, path_resolve cwd p = family_dir f ++ e :: l → read_file cwd w' p = read_file cwd w p) as Hread.
  { intros p l Hp. unfold read_file, readFileSync. rewrite Hp, !is_dir_entry by (by destruct (family_dir f)). rewrite Hsame. by destruct (os_tree w !! _) as [[]|]. }
  assert (path_resolve cwd (path_join (path_join (family_root repoRoot f) e) "manifest.json") = family_dir f ++ e :: ["manifest.json"]) as Hman.
  { by rewrite resolve_entry, Hloc, <-app_assoc by (by apply clean_check). }
  destruct f; cbn [read_item]; unfold readReport, readSnapshot, readTemp, stat; cbn [family_root] in *; rewrite Hloc, Hex;
    (destruct (existsSync _ (os_tree w)); [|done]).
  - rewrite (Hread _ []) by done. by destruct (parsed_document _ _).
  - rewrite (Hread _ []) by done. by destruct (parsed_document _ _).
  - rewrite (Hread _ ["manifest.json"]) by done. by destruct (parsed_document _ _).
Qed.

(** *** The entries that a run added *)

Section added.
Context (w w1 : OsWorld) (t : FileSystem) (names : OperatorSafeArtifactFamily → string) (textR textS textT : string).
Abbreviation place f := (family_dir f ++ [names f]).
Hypothesis Hw : world_ok w.
Hypothesis HR : Forall clean (path_resolve cwd repoRoot).
Hypothesis Hlinks : ∀ d, d ∈ os_dangling w → ¬ safe_root (path_resolve cwd repoRoot) `prefix_of` d ∧ ¬ d `prefix_of` safe_root (path_resolve cwd repoRoot).
Hypothesis Hopen : opened (artifact_dirs (path_resolve cwd repoRoot)) (os_tree w) t.
Hypothesis Hdirs : has_dirs (artifact_dirs (path_resolve cwd repoRoot)) t.
Hypothesis Hfresh : ∀ f, os_tree w !! place f = None.
Hypothesis Hclean : ∀ f, clean (names f).
Hypothesis Htree : os_tree w1 =
  <[place report := File textR]> (<[place temp_workspace ++ ["manifest.json"] := File textT]>
    (<[place temp_workspace := Dir]> (<[place snapshot := File textS]> t))).
Hypothesis Hdangling : os_dangling w1 = os_dangling w.

Lemma family_dir_in f : family_dir f ∈ artifact_dirs (path_resolve cwd repoRoot).
Proof. unfold artifact_dirs. destruct f; set_solver. Qed.

Lemma family_dir_clean f : Forall clean (family_dir f).
Proof.
  unfold artifact_dir. rewrite !Forall_app. split_and!; [done|apply runtime_root_clean|]. constructor; [|constructor].
  destruct f; by apply clean_check.
Qed.

(** Below the artifact directories [t] is still [w]. *)
Lemma opened_below f e l : t !! (family_dir f ++ e :: l) = os_tree w !! (family_dir f ++ e :: l).
Proof.
  rewrite Hopen. destruct (os_tree w !! _); [done|]. rewrite decide_False; [done|]. intros [_ (p & Hp & Hpre)%Exists_exists].
  apply prefix_length in Hpre. rewrite length_app, artifact_dir_length in Hpre. simpl in Hpre.
  assert (length p = length (path_resolve cwd repoRoot) + 4) as Hl; [|lia].
  unfold artifact_dirs in Hp. rewrite !elem_of_cons in Hp. destruct Hp as [->|[->|[->|Hp]]]; [apply artifact_dir_length..|].
  by apply not_elem_of_nil in Hp.
Qed.

Lemma fresh_below f q : place f `prefix_of` q → t !! q = None.
Proof.
  intros [k ->]. rewrite <-app_assoc. simpl. rewrite opened_below. eapply (nothing_below w (place f)); [done|by destruct (family_dir f)|done|].
  change (names f :: k) with ([names f] ++ k). rewrite app_assoc. by apply prefix_app_r.
Qed.

Lemma places_differ f f' l l' : f ≠ f' → place f ++ l ≠ place f' ++ l'.
Proof. intros Hf. rewrite <-!app_assoc. apply families_differ. by destruct f, f'. Qed.

(** The tree after the run, at and below the new places and elsewhere. *)
Lemma after_elsewhere q : (∀ f, ¬ place f `prefix_of` q) → os_tree w1 !! q = t !! q.
Proof.
  intros Hq. rewrite Htree. rewrite !lookup_insert_ne; [done|..]; intros <-.
  - by apply (Hq snapshot).
  - by apply (Hq temp_workspace).
  - apply (Hq temp_workspace). by apply prefix_app_r.
  - by apply (Hq report).
Qed.

Lemma after_report : os_tree w1 !! place report = Some (File textR).
Proof. rewrite Htree. apply lookup_insert_eq. Qed.

Lemma after_manifest : os_tree w1 !! (place temp_workspace ++ ["manifest.json"]) = Some (File textT).
Proof.
  rewrite Htree, lookup_insert_ne; [apply lookup_insert_eq|]. rewrite <-(app_nil_r (place report)). by apply places_differ.
Qed.

Lemma after_temp : os_tree w1 !! place temp_workspace = Some Dir.
Proof.
  rewrite Htree, lookup_insert_ne by (rewrite <-(app_nil_r (place report)), <-(app_nil_r (place temp_workspace)); by apply places_differ).
  rewrite lookup_insert_ne by (by apply snoc_longer). apply lookup_insert_eq.
Qed.

Lemma after_snapshot : os_tree w1 !! place snapshot = Some (File textS).
Proof.
  rewrite Htree. assert (∀ f l, f ≠ snapshot → place f ++ l ≠ place snapshot) as Hne.
  { intros f l Hf. rewrite <-(app_nil_r (place snapshot)). by apply places_differ. }
  rewrite lookup_insert_ne by (rewrite <-(app_nil_r (place report)); by apply Hne). rewrite lookup_insert_ne by (by apply Hne).
  rewrite lookup_insert_ne by (rewrite <-(app_nil_r (place temp_workspace)); by apply Hne). apply lookup_insert_eq.
Qed.

Lemma after_place f : is_Some (os_tree w1 !! place f).
Proof. destruct f; rewrite ?after_report, ?after_snapshot, ?after_temp; by eexists. Qed.

Lemma links_elsewhere d f : d ∈ os_dangling w → ¬ d `prefix_of` family_dir f ∧ ¬ family_dir f `prefix_of` d.
Proof.
  intros Hd. destruct (Hlinks d Hd) as [Ha Hb]. pose proof (artifact_dir_below (path_resolve cwd repoRoot) (folder f)) as Hbelow. split; intros Hp.
  - destruct (prefix_weak_total _ _ _ Hp Hbelow); tauto.
  - apply Ha. by etrans.
Qed.

Lemma world_ok_after : world_ok w1.
Proof.
  set (wt := set_tree t w).
  assert (∀ f, place f ∉ os_dangling w) as Hnl.
  { intros f Hd. destruct (links_elsewhere _ f Hd) as [_ []]. by apply prefix_app_r. }
  assert (∀ f, Forall clean (place f)) as Hpc by (intros f; apply Forall_app; split; [apply family_dir_clean|by constructor]).
  assert (world_ok wt) as Hwt.
  { apply world_ok_opened with (artifact_dirs (path_resolve cwd repoRoot)); try done.
    - apply Forall_forall. intros p Hp. unfold artifact_dirs in Hp. rewrite !elem_of_cons in Hp.
      destruct Hp as [->|[->|[->|Hp]]]; [apply (family_dir_clean report)|apply (family_dir_clean snapshot)|apply (family_dir_clean temp_workspace)|].
      by apply not_elem_of_nil in Hp.
    - intros d Hd p Hp. unfold artifact_dirs in Hp. rewrite !elem_of_cons in Hp.
      destruct Hp as [->|[->|[->|Hp]]]; [apply (links_elsewhere _ report Hd)|apply (links_elsewhere _ snapshot Hd)|apply (links_elsewhere _ temp_workspace Hd)|].
      by apply not_elem_of_nil in Hp. }
  assert (∀ f, is_dir t (family_dir f) = true) as Hdir.
  { intros f. assert (family_dir f ≠ []) as Hne by (unfold artifact_dir; by destruct (path_resolve cwd repoRoot)).
    rewrite is_dir_entry by done. by rewrite (Hdirs _ _ (family_dir_in f) Hne). }
  assert (∀ p q e (x : FileSystem), p ≠ q → is_dir x q = true → is_dir (<[p := e]> x) q = true) as Hkeep.
  { intros p q e x Hne Hx. destruct q as [|y q]; [done|]. rewrite is_dir_entry in * by done. by rewrite lookup_insert_ne. }
  assert (∀ f f', place f ≠ family_dir f' ∧ place f ++ ["manifest.json"] ≠ family_dir f') as Hlong.
  { intros f f'. split; intros E%(f_equal length); rewrite !length_app, !artifact_dir_length in E; simpl in E; lia. }
  assert (∀ f f' l, f ≠ f' → place f ++ l ≠ place f') as Hne.
  { intros f f' l Hf. rewrite <-(app_nil_r (place f')). by apply places_differ. }
  pose proof (fresh_below snapshot (place snapshot) ltac:(done)) as FS. pose proof (fresh_below temp_workspace (place temp_workspace) ltac:(done)) as FT.
  pose proof (fresh_below temp_workspace (place temp_workspace ++ ["manifest.json"]) ltac:(by apply prefix_app_r)) as FM.
  pose proof (fresh_below report (place report) ltac:(done)) as FR.
  pose proof (world_ok_write wt (family_dir snapshot) (names snapshot) (File textS) Hwt (Hdir snapshot) (Hpc snapshot) (Hnl snapshot) FS) as H1'.
  eapply (world_ok_write _ (family_dir temp_workspace) (names temp_workspace) Dir) in H1';
    [|apply Hkeep; [apply Hlong|apply Hdir]|apply Hpc|apply Hnl|].
  2: { cbn [os_tree set_tree]. rewrite lookup_insert_ne; [done|]. rewrite <-(app_nil_r (place snapshot)). by apply Hne. }
  eapply (world_ok_write _ (place temp_workspace) "manifest.json" (File textT)) in H1'.
  2: { cbn [os_tree set_tree]. rewrite is_dir_entry by (by destruct (family_dir temp_workspace)). by rewrite lookup_insert_eq. }
  2: { apply Forall_app. split; [apply Hpc|]. constructor; [by apply clean_check|done]. }
  2: { intros Hd. destruct (links_elsewhere _ temp_workspace Hd) as [_ []]. rewrite <-app_assoc. by apply prefix_app_r. }
  2: { cbn [os_tree set_tree]. rewrite !lookup_insert_ne; [done|by rewrite <-(app_nil_r (place snapshot)); apply places_differ|].
       intros E. symmetry in E. by apply snoc_longer in E. }
  eapply (world_ok_write _ (family_dir report) (names report) (File textR)) in H1'; [|..|apply Hpc|apply Hnl|].
  - eapply world_ok_ext; [| |exact H1']; [by rewrite Htree|done].
  - cbn [os_tree set_tree]. repeat (apply Hkeep; [apply Hlong|]). apply Hdir.
  - cbn [os_tree set_tree]. rewrite !lookup_insert_ne; [done|rewrite <-(app_nil_r (place snapshot))|rewrite <-(app_nil_r (place temp_workspace))|]; by apply Hne.
Qed.


(** The other entries are as they were. *)
Lemma others_unchanged f e l : e ≠ names f → os_tree w1 !! (family_dir f ++ e :: l) = os_tree w !! (family_dir f ++ e :: l).
Proof.
  intros He. rewrite <-opened_below. apply after_elsewhere. intros f' [k Hk]. rewrite <-app_assoc in Hk.
  destruct (decide (f = f')) as [->|Hf]; [apply (inj (app _)) in Hk; by injection Hk|]. revert Hk. apply families_differ. by destruct f, f'.
Qed.

Hypothesis Hwanted : ∀ f, wanted f (names f) = true.

Lemma entries_after f e : e ∈ entries w1 f ↔ e ∈ entries w f ∨ e = names f.
Proof.
  assert (is_dir (os_tree w1) (family_dir f) = true) as Hdir.
  { destruct (after_place f) as [x Hx]. apply (wo_parents w1 world_ok_after _ (names f)). by rewrite Hx. }
  rewrite !elem_of_entries, Hdangling. destruct (decide (e = names f)) as [->|He].
  - split; [by right|]. intros _. split_and!; [done|done|]. left. apply after_place.
  - rewrite (others_unchanged f e []) by done. split.
    + intros (Hwant & _ & Hin). left. split_and!; [done| |done]. destruct Hin as [Hin|Hin]; [by apply (wo_parents w Hw _ e)|].
      exfalso. destruct (links_elsewhere _ f Hin) as [_ []]. by apply prefix_app_r.
    + intros [(Hwant & _ & Hin)|E]; [done|done].
Qed.

Lemma entry_not_new f e : e ∈ entries w f → e ≠ names f.
Proof.
  intros He ->. apply elem_of_entries in He as (_ & _ & [Hin|Hin]); [rewrite Hfresh in Hin; by destruct Hin|].
  destruct (links_elsewhere _ f Hin) as [_ []]. by apply prefix_app_r.
Qed.

(** Removing the new places takes back everything but the directories. *)
Lemma cut_restores ps : (∀ q, q ∈ ps ↔ ∃ f, q = place f) → cut ps (os_tree w1) = t.
Proof.
  intros Hps. apply map_eq. intros q. rewrite lookup_cut. case_decide as Hd.
  - apply Exists_exists in Hd as (p & (f & ->)%Hps & Hpre). symmetry. by eapply fresh_below.
  - apply after_elsewhere. intros f Hpre. apply Hd, Exists_exists. exists (place f). split; [|done]. apply Hps. by exists f.
Qed.

(** *** What belongs to the report *)

Context (now : Z) (id : string) (ids : OperatorSafeArtifactFamily → string) (doc : OperatorSafeArtifactFamily → json).
Hypothesis Hid : ∀ f, json_get "id" (doc f) = Some (JStr (ids f)) ∧ ids f ≠ "".
Hypothesis Hreport : ids report = id.
Hypothesis Hlinked : ∀ f, f ≠ report → json_get "reportId" (doc f) = Some (JStr id).
Hypothesis Hdoc : ∀ f, parsed_document JSON_parse (Some (match f with report => textR | snapshot => textS | temp_workspace => textT end)) = Some (doc f).
Hypothesis Hunused : ∀ item, item ∈ collected w repoRoot now →
  is_string id (la_artifactId item) || equals_string id (la_reportId item) = false.

Abbreviation new_item f := (read_item w1 now (report_ids w1 now) f (names f)).

Lemma new_item_read f : la_artifactId (new_item f) = JStr (ids f) ∧ la_reportId (new_item f) = Some (JStr id) ∧
  (f = report → la_report (new_item f) = Some (doc report)).
Proof.
  destruct (Hid f) as [Hdid Hne].
  destruct (read_known w1 now (report_ids w1 now) f (names f) (doc f)
    (match f with report => textR | snapshot => textS | temp_workspace => textT end) (Hclean f)
    ltac:(destruct f; [apply after_report|apply after_snapshot|apply after_temp])
    ltac:(intros ->; pose proof after_manifest as Hm; rewrite <-app_assoc in Hm; exact Hm) (Hdoc f) (ids f) Hdid Hne) as (Ha & Hr & Hrep).
  split; [done|]. split; [|by intros ->; apply Hrep]. rewrite Hr. destruct f; [by rewrite Hreport|by apply Hlinked..].
Qed.

Definition belongs (item : ListedArtifact) : bool := is_string id (la_artifactId item) || equals_string id (la_reportId item).

Lemma belongs_new item : item ∈ collected w1 repoRoot now → belongs item = true ↔ ∃ f, item = new_item f.
Proof.
  intros (f & e & He & ->)%elem_of_collect. split.
  - intros Hb. exists f. apply entries_after in He as [He| ->]; [|done]. exfalso.
    pose proof (entry_clean w f e Hw He) as Hce. pose proof (entry_not_new f e He) as Hne.
    destruct (read_unchanged w w1 now (report_ids w now) (report_ids w1 now) f e Hce
      ltac:(intros l; by apply others_unchanged)) as [Ha Hr].
    assert (read_item w now (report_ids w now) f e ∈ collected w repoRoot now) as Hin by (apply elem_of_collect; by exists f, e).
    apply Hunused in Hin. unfold belongs in Hb. rewrite Ha, Hr, Hin in Hb. done.
  - intros (f' & ->). unfold belongs. destruct (new_item_read f') as (_ & -> & _). cbn. by rewrite String.eqb_refl, orb_true_r.
Qed.

Lemma new_item_collected f : new_item f ∈ collected w1 repoRoot now.
Proof. apply elem_of_collect. exists f, (names f). split; [|done]. apply entries_after. by right. Qed.

Hypothesis Hdegraded : getReportCleanupEligible (doc report) = true.
Hypothesis Hnodots : ∀ f, startsWith (names f) ".." = false.

Abbreviation cleanup_request := (mkCleanupRequest apply_mode (Some id) None None (Some now)).

Lemma targets_after : cleanup_targets repoRoot cleanup_request (collected w1 repoRoot now) =
  inr (filter (λ item, belongs item = true) (collected w1 repoRoot now)).
Proof.
  destruct (Hid report) as [_ Hne]. rewrite Hreport in Hne. unfold cleanup_targets. cbn [cr_reportId]. rewrite truthy_not_empty by done.
  destruct (new_item_read report) as (Ha & _ & Hrep). destruct (read_item_place w1 now (report_ids w1 now) report (names report)) as [Hf _].
  destruct (List.find _ _) as [r|] eqn:E.
  - apply List.find_some in E as [Hin [Hfam Hstr]%andb_true_iff]. apply list_elem_of_In in Hin. apply bool_decide_eq_true in Hfam.
    assert (r = new_item report) as ->.
    { destruct (proj1 (belongs_new r Hin)) as [f ->]; [by unfold belongs; rewrite Hstr|].
      destruct (read_item_place w1 now (report_ids w1 now) f (names f)) as [Hf' _]. rewrite Hf' in Hfam. by subst. }
    rewrite Hrep by done. cbn [from_option]. by rewrite Hdegraded.
  - exfalso. pose proof (List.find_none _ _ E (new_item report) (proj1 (list_elem_of_In _ _) (new_item_collected report))) as Hn.
    unfold has_id in Hn. rewrite Hf, Ha, Hreport in Hn. cbn in Hn. by rewrite String.eqb_refl in Hn.
Qed.

Lemma new_item_removed f : is_Some (lp_plan (cleanup_loop cleanup_request) (new_item f)) ∧ removable (os_tree w1) (new_item f) = true.
Proof.
  destruct (Hid report) as [_ Hne]. rewrite Hreport in Hne. destruct (read_item_place w1 now (report_ids w1 now) f (names f)) as [Hf _]. split.
  - cbn [lp_plan cleanup_loop]. assert (cleanup_eligible cleanup_request (new_item f) = true) as ->; [|by eexists].
    unfold cleanup_eligible. cbn [cr_reportId]. rewrite truthy_not_empty by done. rewrite Hf.
    assert (negb (bool_decide (f = report)) || from_option getReportCleanupEligible false (la_report (new_item f)) = true) as ->;
      [|by rewrite orb_true_r].
    destruct (decide (f = report)) as [->|Hn]; [|by rewrite bool_decide_eq_false_2]. destruct (new_item_read report) as (_ & _ & Hr).
    rewrite Hr by done. cbn [from_option]. by rewrite Hdegraded, orb_true_r.
  - unfold removable. rewrite Hf, within_entry, Hnodots, loc_read by done. simpl. unfold existsSync. apply orb_true_iff. right.
    apply bool_decide_eq_true, after_place.
Qed.

Lemma cleanup_restores w0 : ensure w0 = (Ret (), w1) →
  ∃ r w2, cleanup cleanup_request w0 = (Ret r, w2) ∧ os_tree w2 = t ∧ al_removed (ar_lists r) = al_planned (ar_lists r) ∧
    ∀ p, p ∈ path_resolve cwd ∘ ai_path <$> al_removed (ar_lists r) ↔ ∃ f, p = place f.
Proof.
  intros He. destruct (cleanup_loop_run cleanup_request w0 w1 w1 now _ He ltac:(done) world_ok_after targets_after) as (r & w2 & Hrun & Hp & Hr & Ht).
  exists r, w2. split; [done|]. rewrite Ht.
  set (targets := filter _ _) in *. unfold removals in *. rewrite decide_False in * by done.
  assert (filter (λ item, is_Some (lp_plan (cleanup_loop cleanup_request) item) ∧ removable (os_tree w1) item = true) targets = targets) as Hall.
  { apply filter_all, Forall_forall. intros item [Hb Hin]%list_elem_of_filter. apply belongs_new in Hb as [f ->]; [|done]. apply new_item_removed. }
  rewrite Hall in *. assert (∀ item, item ∈ targets ↔ ∃ f, item = new_item f) as Htar.
  { intros item. unfold targets. rewrite list_elem_of_filter. split.
    - intros [Hb Hin]. by apply belongs_new.
    - intros [f ->]. pose proof (new_item_collected f). split; [apply belongs_new; [done|by exists f]|done]. }
  split_and!; [|by rewrite Hr, Hp|].
  - apply cut_restores. intros q. rewrite list_elem_of_fmap. split.
    + intros (item & -> & [f ->]%Htar). exists f. by rewrite loc_read.
    + intros [f ->]. exists (new_item f). rewrite loc_read by done. split; [done|]. apply Htar. by exists f.
  - intros p. rewrite Hr, list_elem_of_fmap. split.
    + intros (i & -> & (item & [f ->]%Htar & Hplan)%list_elem_of_omap). exists f. rewrite <-(loc_read w1 now (report_ids w1 now) f) by done.
      cbn [lp_plan cleanup_loop] in Hplan. destruct (cleanup_eligible _ _); [|done]. by injection Hplan as <-.
    + intros [f ->]. destruct (new_item_removed f) as [[i Hi] _]. exists i. split.
      * rewrite <-(loc_read w1 now (report_ids w1 now) f) by done. cbn [lp_plan cleanup_loop] in Hi.
        destruct (cleanup_eligible _ _); [|done]. by injection Hi as <-.
      * apply list_elem_of_omap. exists (new_item f). split; [|done]. apply Htar. by exists f.
Qed.
End added.

Context `{!OsEnvLaws}.

(** The entry of each family that a run of [Worktree] leaves behind. *)
Definition run_names (id snapshotId tempId : string) (f : OperatorSafeArtifactFamily) : string :=
  match f with report => id +:+ ".json" | snapshot => snapshotId +:+ ".json" | temp_workspace => tempId end.

Definition run_documents (rep : OperatorWorktreeExecutionReport) (m : OperatorWorktreeSnapshotManifest)
    (tm : OperatorSafeTempWorkspaceManifest) (f : OperatorSafeArtifactFamily) : json :=
  match f with
  | report => report_json rep
  | snapshot => snapshot_manifest_json m
  | temp_workspace => temp_manifest_json tm
  end.

Definition file_text (e : option Entry) : string := match e with Some (File c) => c | _ => "" end.

(** C34 Cleaning up after a blocked run takes back everything it wrote.  Whenever
    a dry or executing run, of an operation whose name has no slash, returns with
    a refused preflight, its report has the manifests of a snapshot and of a
    temporary workspace, and then a targeted cleanup by the id of the report
    removes exactly the report, the snapshot and the temporary workspace, none of
    them is refused, and the repository is as it was before the run, apart from
    the artifact directories.  This holds if [JSON.parse] reads the three
    documents of the run back, the names that the run drew were free and no
    artifact was stored under the id of its report before, the name of the
    temporary workspace does not begin with two dots, the file tree is well formed,
    and no dangling link is around the artifact directories. *)
Theorem blocked_run_cleaned_up sha input w pf rep path w1 now :
  runOperatorSafeProjectWorktreeLifecycle sha locale_le cwd input w = (Ret (pf, rep, path), w1) →
  pf_allowed pf = false → pi_mode input ≠ mode_check → no_slash (pi_operation input) →
  path_resolve cwd repoRoot = run_root cwd input → world_ok w →
  (∀ d, d ∈ os_dangling w → ¬ safe_root (run_root cwd input) `prefix_of` d ∧ ¬ d `prefix_of` safe_root (run_root cwd input)) →
  ∃ m tm, run_snapshot rep = Some m ∧ run_temp rep = Some tm ∧
  ((∀ f, JSON_parse (document_text (run_documents rep m tm f)) = Some (run_documents rep m tm f)) →
   (∀ f, os_tree w !! (family_dir f ++ [run_names (rp_id rep) (sm_id m) (tm_id tm) f]) = None) →
   startsWith (tm_id tm) ".." = false →
   (∀ item, item ∈ collected w repoRoot now →
      is_string (rp_id rep) (la_artifactId item) || equals_string (rp_id rep) (la_reportId item) = false) →
   ∃ r w2, cleanup (mkCleanupRequest apply_mode (Some (rp_id rep)) None None (Some now)) w1 = (Ret r, w2) ∧
     opened (artifact_dirs (run_root cwd input)) (os_tree w) (os_tree w2) ∧
     al_removed (ar_lists r) = al_planned (ar_lists r) ∧
     ∀ p, p ∈ path_resolve cwd ∘ ai_path <$> al_removed (ar_lists r) ↔
          ∃ f, p = family_dir f ++ [run_names (rp_id rep) (sm_id m) (tm_id tm) f]).
Proof.
  intros Hrun Hblocked Hmode Hop HR Hw Hlinks.
  pose proof (lifecycle_keeps_dangling sha input w) as Hdang. rewrite Hrun in Hdang. simpl in Hdang.
  apply lifecycle_ret in Hrun as (_ & HidR & Hm & Hout & _ & _ & _ & _ & t & Hopen & Hd & Hwrote); [|done].
  unfold expected_outcome in Hout. rewrite Hblocked in Hout. unfold run_root in *. rewrite <-HR in *.
  assert (Forall clean (path_resolve cwd repoRoot)) as Hclean by (rewrite HR; apply canonical_clean, canon_canonical).
  assert (has_dirs (artifact_dirs (path_resolve cwd repoRoot)) (os_tree w1)) as Hd1.
  { destruct Hwrote; repeat (apply has_dirs_write; [done|]); done. }
  destruct (ensure_again cwd repoRoot w1 Hd1) as (w1' & He & Ht1 & Hdang1).
  remember (os_tree w1) as tree1 eqn:Etree.
  destruct Hwrote as [Hc|m tm Hc HidS Hcl HrefS HrefT _ _ HmS HmT _]; [congruence|].
  exists m, tm. split_and!; [done|done|]. intros Hparse Hfresh Hdots Hunused.
  set (names := run_names (rp_id rep) (sm_id m) (tm_id tm)).
  set (ids := λ f, match f with report => rp_id rep | snapshot => sm_id m | temp_workspace => tm_id tm end).
  assert (∀ p id, artifact_id p id → p ≠ "" → id ≠ "") as Hne by (intros p id (? & ? & ->) Hp; by destruct p).
  destruct (cleanup_restores w w1' t names (document_text (report_json rep)) (document_text (snapshot_manifest_json m))
    (document_text (temp_manifest_json tm))) with (now := now) (id := rp_id rep) (ids := ids) (doc := run_documents rep m tm) (w0 := w1)
    as (r & w2 & Hrun2 & Ht2 & Hall & Hplaces); try done.
  - intros [| |]; [by eapply (json_name_clean "opw")|by eapply (json_name_clean "snapshot")|done].
  - rewrite Ht1. unfold report_file, temp_manifest_file, temp_dir, snapshot_file. cbn [names run_names folder]. by rewrite <-app_assoc.
  - congruence.
  - intros [| |]; [apply json_name..|done].
  - intros [| |]; cbn [run_documents ids].
    + exact (conj (proj1 (report_members rep)) (Hne "opw" _ HidR ltac:(done))).
    + exact (conj (proj1 (snapshot_members m)) (Hne "snapshot" _ HidS ltac:(done))).
    + exact (conj (proj1 (temp_members tm)) (proj1 Hcl)).
  - intros [| |] Hf; [done|..]; cbn [run_documents]; [rewrite (proj2 (snapshot_members m)), HrefS|rewrite (proj2 (temp_members tm)), HrefT]; done.
  - intros [| |]; apply document_text_read; done || apply (Hparse report) || apply (Hparse snapshot) || apply (Hparse temp_workspace).
  - cbn [run_documents]. unfold getReportCleanupEligible. rewrite (proj2 (report_members rep)), Hout. done.
  - intros [| |]; [destruct HidR as (? & ? & E); cbn [names run_names]; rewrite E; done|destruct HidS as (? & ? & E); cbn [names run_names]; rewrite E; done|done].
  - exists r, w2. rewrite Ht2. done.
Qed.
End entries.

(** ** A repository with a blocked run *)

Definition cleanb (s : string) : bool := bool_decide (s ≠ "" ∧ s ≠ "." ∧ s ≠ "..") && negb (has_char SLASH s).

Lemma world_ok_check w : os_dangling w = [] →
  forallb (λ kv, forallb cleanb kv.1 && is_dir (os_tree w) (removelast kv.1)) (map_to_list (os_tree w)) = true → world_ok w.
Proof.
  intros Hd Hall. rewrite forallb_forall in Hall.
  assert (∀ p, is_Some (os_tree w !! p) → Forall clean p ∧ is_dir (os_tree w) (removelast p) = true) as Hp.
  { intros p [e He]. apply elem_of_map_to_list, list_elem_of_In, Hall in He. apply andb_true_iff in He as [Hc Hdir]. split; [|done].
    rewrite forallb_forall in Hc. apply Forall_forall. intros s Hs%list_elem_of_In. by apply clean_check, Hc. }
  constructor; rewrite ?Hd; [|by intros p [? _]%Hp|by intros p ?%not_elem_of_nil|constructor].
  intros p x [_ Hdir]%Hp. by rewrite removelast_last in Hdir.
Qed.

Definition blocked_input : OperatorWorktreePreflightInput :=
  mkPreflightInput mode_dry_run "index_workspace" "/r" "/elsewhere" None None (Some [demo_workspace]).

Definition blocked_run := demo_run blocked_input demo_world.

Definition no_report : OperatorWorktreeExecutionReport :=
  mkReport "" "" "" "" mode_check risk_low outcome_blocked failure_none proceed false [] [] [] (mkReportContext "" "" None None None)
    (mkRelatedArtifacts None None) None None None None [].

Definition demo_report : OperatorWorktreeExecutionReport :=
  match fst blocked_run with Ret (_, rep, _) => rep | Throw _ => no_report end.

Definition demo_snapshot : OperatorWorktreeSnapshotManifest :=
  mkSnapshotManifest "snapshot-k-xx" "opw-exec-k-x" "opw-k-" "T" "index_workspace" mode_dry_run "/r" "/elsewhere" None None None None
    [] [vcs_unverified] false.

Definition demo_temp : OperatorSafeTempWorkspaceManifest :=
  mkTempManifest "index_workspace-k-xxx" "opw-exec-k-x" "opw-k-" "T" "T" "index_workspace" mode_dry_run "/r"
    "/r/.dh/runtime/operator-safe-worktree/temp/index_workspace-k-xxx" 14400000.

(** [JSON.parse] on the documents of that run. *)
Definition demo_parse (s : string) : option json :=
  List.find (λ v, String.eqb (document_text v) s) (run_documents demo_report demo_snapshot demo_temp <$> [report; snapshot; temp_workspace]).

Definition demo_ensured : OsWorld := snd (ensureOperatorSafeArtifactDirs [] "/r" (snd blocked_run)).

Lemma demo_ensure : ensureOperatorSafeArtifactDirs [] "/r" (snd blocked_run) = (Ret (), demo_ensured).
Proof.
  assert (fst (ensureOperatorSafeArtifactDirs [] "/r" (snd blocked_run)) = Ret ()) as E by (vm_compute; reflexivity).
  unfold demo_ensured. by rewrite <-E, <-surjective_pairing.
Qed.

Lemma demo_ensured_ok : world_ok demo_ensured.
Proof. apply world_ok_check; vm_compute; reflexivity. Qed.

#[export] Instance demo_listing_laws : SearchEnvLaws.
Proof. by constructor. Qed.

Definition demo_number (s : string) : number := if String.eqb s "14400000" then Fin 14400000 else NaN.
Definition demo_date (s : string) : option Z := if String.eqb s "T" then Some 0%Z else None.
Definition all_le (a b : string) : bool := true.

Definition demo_prune (mode : OperatorSafeMaintenanceMode) (now : Z) : OperatorSafePruneRequest :=
  mkPruneRequest mode (Some None) (Some now) (λ _, None).

Definition demo_file (folder name : string) : Path := ["r"; ".dh"; "runtime"; "operator-safe-worktree"; folder; name].

Lemma prune_exact_witness :
  ∃ r w', pruneOperatorSafeArtifacts all_le demo_parse demo_date demo_number [] "/r" (demo_prune apply_mode 600000000) (snd blocked_run) = (Ret r, w') ∧
    length (al_removed (ar_lists r)) = 2 ∧ length (al_retained (ar_lists r)) = 1 ∧
    os_tree w' !! demo_file "snapshots" "snapshot-k-xx.json" = None ∧ is_Some (os_tree w' !! demo_file "reports" "opw-k-.json").
Proof.
  destruct (prune_exact all_le demo_parse demo_date demo_number [] "/r" (demo_prune apply_mode 600000000) _ _ _ 600000000 demo_ensure eq_refl demo_ensured_ok)
    as (r & w' & Hrun & _ & _ & Hk & Hr & Ht).
  exists r, w'. split; [exact Hrun|]. split; [|split; [|split]].
  - apply (f_equal length) in Hr. rewrite length_fmap in Hr. rewrite Hr. vm_compute. reflexivity.
  - apply (f_equal length) in Hk. rewrite length_fmap in Hk. rewrite Hk. vm_compute. reflexivity.
  - rewrite Ht. vm_compute. reflexivity.
  - rewrite Ht. vm_compute. eexists. reflexivity.
Defined.

Lemma cleanup_targeted_witness :
  ∃ r w', cleanupOperatorSafeArtifacts all_le demo_parse demo_date demo_number [] "/r"
            (mkCleanupRequest dry_run (Some "opw-k-") None None (Some 0%Z)) (snd blocked_run) = (Ret r, w') ∧
    ∀ q, ¬ os_tree w' !! q ≠ os_tree demo_ensured !! q.
Proof.
  destruct (cleanup_targeted all_le demo_parse demo_date demo_number [] "/r" (mkCleanupRequest dry_run (Some "opw-k-") None None (Some 0%Z)) _ _ _ 0%Z
    demo_ensure eq_refl demo_ensured_ok) as (r & w' & Hrun & _ & Hq).
  exists r, w'. split; [exact Hrun|]. intros q E. destruct (Hq q E) as [Hm _]. discriminate Hm.
Defined.

Lemma blocked_run_cleaned_up_witness :
  ∃ r w2, cleanupOperatorSafeArtifacts all_le demo_parse demo_date demo_number [] "/r"
            (mkCleanupRequest apply_mode (Some "opw-k-") None None (Some 0%Z)) (snd blocked_run) = (Ret r, w2) ∧
    opened (artifact_dirs ["r"]) demo_tree (os_tree w2).
Proof.
  assert (∃ pf path, blocked_run = (Ret (pf, demo_report, path), snd blocked_run) ∧ pf_allowed pf = false) as (pf & path & Hrun & Hpf).
  { assert (match fst blocked_run with Ret (pf, _, _) => pf_allowed pf = false | Throw _ => False end) as Hb by (vm_compute; reflexivity).
    unfold demo_report. destruct blocked_run as [[[[pf rep] path]|e] w1]; [by exists pf, path|destruct Hb]. }
  destruct (blocked_run_cleaned_up all_le demo_parse demo_date demo_number [] "/r" (λ s, s) blocked_input demo_world pf demo_report path (snd blocked_run)
    0) as (m & tm & Hm & Htm & Hclean).
  - exact Hrun.
  - exact Hpf.
  - discriminate.
  - vm_compute. reflexivity.
  - vm_compute. reflexivity.
  - apply world_ok_check; vm_compute; reflexivity.
  - intros d Hd. apply not_elem_of_nil in Hd. destruct Hd.
  - assert (run_snapshot demo_report = Some demo_snapshot) as HS by (vm_compute; reflexivity). rewrite HS in Hm. injection Hm as <-.
    assert (run_temp demo_report = Some demo_temp) as HT by (vm_compute; reflexivity). rewrite HT in Htm. injection Htm as <-.
    destruct Hclean as (r & w2 & Hclean & Hopen & _).
    + intros [| |]; vm_compute; reflexivity.
    + intros [| |]; vm_compute; reflexivity.
    + vm_compute. reflexivity.
    + intros item Hin. vm_compute in Hin. apply not_elem_of_nil in Hin. destruct Hin.
    + exists r, w2. assert (rp_id demo_report = "opw-k-") as Hid by (vm_compute; reflexivity). rewrite Hid in Hclean.
      split; [exact Hclean|exact Hopen].
Defined.

(** ** Reasons and partial documents *)

(** What a cleanup of a report removes along with it is recorded under the
    reason for keeping it. *)
Lemma linked_artifact_planned_unproven request item i :
  lp_plan (cleanup_loop request) item = Some i → la_cleanupReason item = Some cleanup_eligibility_unproven →
  ai_reason i = cleanup_eligibility_unproven.
Proof. cbn [lp_plan cleanup_loop]. intros Hp Hr. destruct (cleanup_eligible request item); [|done]. injection Hp as <-. simpl. by rewrite Hr. Qed.

(** Pruning a temporary workspace is explained by its staleness although the
    lifetime in its manifest is not looked at: here it has not passed. *)
Example prune_before_lifetime :
  let item := readTemp demo_parse demo_date demo_number [] (snd blocked_run) "/r/.dh/runtime/operator-safe-worktree/temp" 1000
                [JStr "opw-k-"] "index_workspace-k-xxx" in
  la_cleanupEligibility item = retained ∧
  (λ i, (ai_reason i, ai_artifactId i)) <$>
    lp_plan (prune_loop demo_date (mkPruneRequest dry_run None (Some 1000%Z) (λ _, Some 0%Z)) 1000) item =
  Some (eligible_by_temp_staleness, JStr "index_workspace-k-xxx").
Proof. vm_compute. done. Qed.

(** A report that is JSON but has no related artifacts cannot be inspected. *)
Example inspect_partial_report_throws :
  fst (inspectOperatorSafeArtifact all_le (λ _, Some (JObj [("outcome", JStr "failed")])) demo_date demo_number [] "/r" report "opw-k-" None
         (snd blocked_run)) = Throw "TypeError".
Proof. vm_compute. reflexivity. Qed.

(** An entry whose name starts with two dots is inside of its directory, but its
    removal is refused as outside. *)
Example dotted_artifact_refused :
  isPathWithin [] "/r/.dh/runtime/operator-safe-worktree/temp" "/r/.dh/runtime/operator-safe-worktree/temp/..old" = false.
Proof. vm_compute. reflexivity. Qed.
