(* ===== verification/MaintenanceCommand.v ===== *)
(** * The maintenance command

    [apps/cli/src/commands/operator-safe-maintenance.ts]: the arguments, the
    texts and the exit codes of [dh operator-safe-maintenance], on top of
    [Maintenance].  The runtime client hands its calls on unchanged. *)

From S2P Require Import Prelude Json Retry Files ScanPaths SearchTools Worktree Maintenance.
From Stdlib Require Import Ascii String QArith Qround.
From stdpp Require Import prelude list strings gmap pretty.
Set Default Goal Selector "!".
Set Default Proof Using "Type".
Set Warnings "-clear-no-such-hyp".
#[local] Arguments String.append : simpl nomatch.
Open Scope nat_scope.

(** ** Arguments *)

Definition HELP : string := Prelude.join (String LF "") [
  "dh operator-safe-maintenance <subcommand> [options]";
  "";
  "Subcommands:";
  "  list [--family <all|report|snapshot|temp>] [--limit <n>] [--json]";
  "  inspect --family <report|snapshot|temp> --id <artifact-id> [--json]";
  "  prune --mode <dry-run|apply> [--family <all|report|snapshot|temp>] [--json]";
  "  cleanup --mode <dry-run|apply> (--report <report-id> | --family <snapshot|temp> --id <artifact-id>) [--json]";
  "";
  "Boundaries:";
  "  - This command is bounded to .dh/runtime/operator-safe-worktree/{reports,snapshots,temp}";
  "  - No arbitrary path deletion and no workflow-state mutation are performed";
  "  - Use dry-run first to inspect retained/skipped reasoning before apply"].

Inductive ParsedMaintenanceCommand : Type :=
| cmd_list (family : OperatorSafeArtifactFamilySelector) (limit : option Z)
| cmd_inspect (family : OperatorSafeArtifactFamily) (artifactId : string)
| cmd_prune (request : OperatorSafePruneRequest)
| cmd_cleanup (request : OperatorSafeCleanupRequest).

(** The error, or the [--json] flag and the payload. *)
Abbreviation ParseResult := (string + bool * ParsedMaintenanceCommand)%type.

Definition resolveFamily (value : option string) : option OperatorSafeArtifactFamilySelector :=
  match truthy_string value with
  | None => Some None
  | Some v =>
    if String.eqb v "all" then Some None
    else if String.eqb v "report" then Some (Some report)
    else if String.eqb v "snapshot" then Some (Some snapshot)
    else if String.eqb v "temp" || String.eqb v "temp_workspace" then Some (Some temp_workspace)
    else None
  end.

Definition resolveInspectFamily (value : option string) : option OperatorSafeArtifactFamily :=
  match resolveFamily value with Some (Some f) => Some f | _ => None end.

Definition resolveMode (value : option string) : option OperatorSafeMaintenanceMode :=
  match truthy_string value with
  | None => None
  | Some v => if String.eqb v "dry-run" || String.eqb v "dry_run" then Some dry_run
              else if String.eqb v "apply" then Some apply_mode else None
  end.

Definition readFlagValue (args : list string) (flag : string) : option string :=
  match list_index flag args with
  | None => None
  | Some index => match truthy_string (args !! S index) with
                  | None => None
                  | Some next => if startsWith next "--" then None else Some next
                  end
  end.

Definition wants_json (args : list string) : bool := bool_decide ("--json" ∈ args).

Section parse.
Context (Number : string → number).

Definition parseListArgs (args : list string) : ParseResult :=
  match resolveFamily (readFlagValue args "--family") with
  | None => inl "Invalid --family value for list. Use one of: all, report, snapshot, temp."
  | Some family =>
    match truthy_string (readFlagValue args "--limit") with
    | None => inr (wants_json args, cmd_list family None)
    | Some limitRaw =>
      match Number limitRaw with
      | Fin parsed => if Qle_bool parsed 0 then inl "Invalid --limit value. Expected positive integer."
                      else inr (wants_json args, cmd_list family (Some (Qfloor parsed)))
      | _ => inl "Invalid --limit value. Expected positive integer."
      end
    end
  end.

Definition parseInspectArgs (args : list string) : ParseResult :=
  match resolveInspectFamily (readFlagValue args "--family") with
  | None => inl "inspect requires --family <report|snapshot|temp>."
  | Some family =>
    match truthy_string (readFlagValue args "--id") with
    | None => inl "inspect requires --id <artifact-id>."
    | Some artifactId => inr (wants_json args, cmd_inspect family artifactId)
    end
  end.

Definition no_overrides (f : OperatorSafeArtifactFamily) : option Z := None.

Definition parsePruneArgs (args : list string) : ParseResult :=
  match resolveMode (readFlagValue args "--mode") with
  | None => inl "prune requires --mode <dry-run|apply>."
  | Some mode =>
    match resolveFamily (readFlagValue args "--family") with
    | None => inl "Invalid --family value for prune. Use one of: all, report, snapshot, temp."
    | Some family => inr (wants_json args, cmd_prune (mkPruneRequest mode (Some family) None no_overrides))
    end
  end.

Definition parseCleanupArgs (args : list string) : ParseResult :=
  match resolveMode (readFlagValue args "--mode") with
  | None => inl "cleanup requires --mode <dry-run|apply>."
  | Some mode =>
    match truthy_string (readFlagValue args "--report") with
    | Some reportId => inr (wants_json args, cmd_cleanup (mkCleanupRequest mode (Some reportId) None None None))
    | None =>
      match resolveInspectFamily (readFlagValue args "--family"), truthy_string (readFlagValue args "--id") with
      | Some family, Some artifactId =>
        if decide (family = report)
        then inl "cleanup requires either --report <report-id> or --family <snapshot|temp> --id <artifact-id>."
        else inr (wants_json args, cmd_cleanup (mkCleanupRequest mode None (Some family) (Some artifactId) None))
      | _, _ => inl "cleanup requires either --report <report-id> or --family <snapshot|temp> --id <artifact-id>."
      end
    end
  end.

Definition parseArgs (args : list string) : ParseResult :=
  let subcommand := default "" (head args) in
  let rest := tail args in
  if decide (subcommand = "" ∨ subcommand = "help" ∨ subcommand = "--help") then inl HELP
  else if String.eqb subcommand "list" then parseListArgs rest
  else if String.eqb subcommand "inspect" then parseInspectArgs rest
  else if String.eqb subcommand "prune" then parsePruneArgs rest
  else if String.eqb subcommand "cleanup" then parseCleanupArgs rest
  else inl ("Unknown operator-safe-maintenance subcommand '" +:+ subcommand +:+ "'." +:+ String LF (String LF "") +:+ HELP).
End parse.

(** ** Texts *)

Definition lines (ls : list string) : string := Prelude.join (String LF "") ls.

(** [${value}] of a value that may be absent. *)
Definition shown (d : string) (o : option json) : string := js_String (value_or (JStr d) o).

Definition cleanup_text (e : OperatorSafeCleanupEligibility) (r : option OperatorSafeMaintenanceReasonCode) : string :=
  eligibility_name e +:+ match r with Some c => " (" +:+ code_name c +:+ ")" | None => "" end.

Definition record_text (with_outcome : bool) (item : OperatorSafeArtifactInventoryRecord) : string :=
  "  - " +:+ js_String (ir_artifactId item)
  +:+ (if with_outcome then " outcome=" +:+ shown "unknown" (ir_outcome item) else "")
  +:+ " cleanup=" +:+ cleanup_text (ir_cleanupEligibility item) (ir_cleanupReason item).

Definition formatInventoryText (inventory : OperatorWorktreeMaintenanceInventory) : string :=
  lines (["operator-safe maintenance inventory";
          "generatedAt: " +:+ iv_generatedAt inventory;
          "family: " +:+ selector_name (iv_selectedFamily inventory);
          "total: " +:+ pretty (iv_totalCount inventory);
          "";
          "reports: " +:+ pretty (length (iv_report inventory))]
         ++ (record_text true <$> iv_report inventory)
         ++ ["snapshots: " +:+ pretty (length (iv_snapshot inventory))]
         ++ (record_text false <$> iv_snapshot inventory)
         ++ ["temp_workspaces: " +:+ pretty (length (iv_temp_workspace inventory))]
         ++ (record_text false <$> iv_temp_workspace inventory)).

Definition action_item_text (item : OperatorSafeMaintenanceActionItem) : string :=
  "  - " +:+ family_name (ai_family item) +:+ ":" +:+ js_String (ai_artifactId item) +:+ " (" +:+ code_name (ai_reason item) +:+ ")".

(** [if (items.length > 0) lines.push("", title, ...)]. *)
Definition section_text (title : string) (items : list OperatorSafeMaintenanceActionItem) : list string :=
  match items with [] => [] | _ => [""; title] ++ (action_item_text <$> items) end.

Definition formatActionText (result : OperatorSafeMaintenanceActionResult) : string :=
  let l := ar_lists result in
  lines (["operator-safe maintenance " +:+ action_name (ar_action result);
          "mode: " +:+ maintenance_mode_name (ar_mode result);
          "requestedFamily: " +:+ selector_name (ar_requestedFamily result);
          "evaluated: " +:+ pretty (length (al_evaluated l));
          "planned: " +:+ pretty (length (al_planned l));
          "removed: " +:+ pretty (length (al_removed l));
          "retained: " +:+ pretty (length (al_retained l));
          "skipped: " +:+ pretty (length (al_skipped l))]
         ++ section_text "removed:" (al_removed l)
         ++ section_text "retained:" (al_retained l)
         ++ section_text "skipped:" (al_skipped l)).

Definition detail_texts (details : option OperatorSafeArtifactInspectDetails) : list string :=
  match details with
  | Some (report_details operation mode outcome failureClass recommendedAction _ _ _ _) =>
    ["operation: " +:+ shown "unknown" operation; "mode: " +:+ shown "unknown" mode;
     "outcome: " +:+ shown "unknown" outcome; "failureClass: " +:+ shown "unknown" failureClass;
     "recommendedAction: " +:+ shown "unknown" recommendedAction]
  | Some (snapshot_details operation mode _ _ _ _ _ _ _ linkedReportId orphaned) =>
    ["operation: " +:+ shown "unknown" operation; "mode: " +:+ shown "unknown" mode;
     "linkedReportId: " +:+ shown "(none)" linkedReportId; "orphaned: " +:+ js_String (JBool orphaned)]
  | Some (temp_details operation mode _ _ nextEligibleCleanupAt linkedReportId orphaned) =>
    ["operation: " +:+ shown "unknown" operation; "mode: " +:+ shown "unknown" mode;
     "linkedReportId: " +:+ shown "(none)" linkedReportId; "orphaned: " +:+ js_String (JBool orphaned);
     "nextEligibleCleanupAt: " +:+ (nextEligibleCleanupAt or_else "unknown")]
  | None => []
  end.

Definition formatInspectText (result : OperatorSafeArtifactInspectResult) : string :=
  if negb (in_found result) then
    "inspect: " +:+ code_name (in_reason result or_else artifact_not_found)
    +:+ " (" +:+ family_name (in_family result) +:+ ":" +:+ in_artifactId result +:+ ")"
  else
    lines (["operator-safe maintenance inspect";
            "family: " +:+ family_name (in_family result);
            "id: " +:+ in_artifactId result;
            "cleanup: " +:+ match in_record result with
                            | Some r => cleanup_text (ir_cleanupEligibility r) (ir_cleanupReason r)
                            | None => "unknown"
                            end;
            "path: " +:+ ((ir_path <$> in_record result) or_else "(unknown)")]
           ++ detail_texts (in_details result)
           ++ (match in_warnings result with
               | [] => []
               | warnings => "warnings:" :: ((λ w, "  - " +:+ code_name w.1 +:+ ": " +:+ w.2) <$> warnings)
               end)).

(** ** Documents *)

Definition opt_code (key : string) (o : option OperatorSafeMaintenanceReasonCode) : list (string * json) :=
  opt_str key (code_name <$> o).

Definition record_json (r : OperatorSafeArtifactInventoryRecord) : json :=
  JObj ([("family", JStr (family_name (ir_family r))); ("artifactId", ir_artifactId r)]
        ++ opt_member "executionId" (ir_executionId r) ++ opt_member "reportId" (ir_reportId r)
        ++ [("path", JStr (ir_path r)); ("existsOnDisk", JBool (ir_existsOnDisk r))]
        ++ opt_member "createdAt" (ir_createdAt r) ++ opt_member "lastTouchedAt" (ir_lastTouchedAt r)
        ++ opt_member "operation" (ir_operation r) ++ opt_member "mode" (ir_mode r)
        ++ opt_member "outcome" (ir_outcome r) ++ opt_member "failureClass" (ir_failureClass r)
        ++ [("cleanupEligibility", JStr (eligibility_name (ir_cleanupEligibility r)))]
        ++ opt_code "cleanupReason" (ir_cleanupReason r)).

Definition inventory_json (i : OperatorWorktreeMaintenanceInventory) : json :=
  JObj ([("generatedAt", JStr (iv_generatedAt i)); ("selectedFamily", JStr (selector_name (iv_selectedFamily i)))]
        ++ opt_member "limit" (JInt <$> iv_limit i)
        ++ [("totalCount", JInt (Z.of_nat (iv_totalCount i)));
            ("families", JObj [("report", JArr (record_json <$> iv_report i)); ("snapshot", JArr (record_json <$> iv_snapshot i));
                               ("temp_workspace", JArr (record_json <$> iv_temp_workspace i))])]).

Definition details_json (d : OperatorSafeArtifactInspectDetails) : json :=
  match d with
  | report_details operation mode outcome failureClass recommendedAction warningCodes blockingCodes linkedSnapshotId linkedTempWorkspaceId =>
    JObj ([("family", JStr "report")] ++ opt_member "operation" operation ++ opt_member "mode" mode ++ opt_member "outcome" outcome
          ++ opt_member "failureClass" failureClass ++ opt_member "recommendedAction" recommendedAction
          ++ [("warningCodes", warningCodes); ("blockingCodes", blockingCodes)]
          ++ opt_member "linkedSnapshotId" linkedSnapshotId ++ opt_member "linkedTempWorkspaceId" linkedTempWorkspaceId)
  | snapshot_details operation mode repoRoot targetPath workspaceRoot workspaceRelativePath repoRelativePath warningCodes idempotentSkip
      linkedReportId orphaned =>
    JObj ([("family", JStr "snapshot")] ++ opt_member "operation" operation ++ opt_member "mode" mode
          ++ opt_member "repoRoot" repoRoot ++ opt_member "targetPath" targetPath ++ opt_member "workspaceRoot" workspaceRoot
          ++ opt_member "workspaceRelativePath" workspaceRelativePath ++ opt_member "repoRelativePath" repoRelativePath
          ++ [("warningCodes", warningCodes); ("idempotentSkip", idempotentSkip)]
          ++ opt_member "linkedReportId" linkedReportId ++ [("orphaned", JBool orphaned)])
  | temp_details operation mode tempPath staleAfterMs nextEligibleCleanupAt linkedReportId orphaned =>
    JObj ([("family", JStr "temp_workspace")] ++ opt_member "operation" operation ++ opt_member "mode" mode
          ++ opt_member "tempPath" tempPath ++ opt_member "staleAfterMs" staleAfterMs
          ++ opt_str "nextEligibleCleanupAt" nextEligibleCleanupAt
          ++ opt_member "linkedReportId" linkedReportId ++ [("orphaned", JBool orphaned)])
  end.

Definition inspect_json (r : OperatorSafeArtifactInspectResult) : json :=
  JObj ([("family", JStr (family_name (in_family r))); ("artifactId", JStr (in_artifactId r)); ("found", JBool (in_found r))]
        ++ opt_code "reason" (in_reason r)
        ++ opt_member "record" (record_json <$> in_record r) ++ opt_member "details" (details_json <$> in_details r)
        ++ [("warnings", JArr ((λ w, JObj [("reason", JStr (code_name w.1)); ("message", JStr w.2)]) <$> in_warnings r))]).

Definition item_json (i : OperatorSafeMaintenanceActionItem) : json :=
  JObj ([("family", JStr (family_name (ai_family i))); ("artifactId", ai_artifactId i)]
        ++ opt_member "executionId" (ai_executionId i) ++ opt_member "reportId" (ai_reportId i)
        ++ [("path", JStr (ai_path i)); ("reason", JStr (code_name (ai_reason i)))]
        ++ opt_str "detail" (ai_detail i)).

Definition warning_json (w : MaintenanceWarning) : json :=
  JObj [("family", JStr (family_name (mw_family w))); ("artifactId", mw_artifactId w);
        ("reason", JStr (code_name (mw_reason w))); ("message", JStr (mw_message w))].

Definition action_json (r : OperatorSafeMaintenanceActionResult) : json :=
  let l := ar_lists r in
  JObj [("action", JStr (action_name (ar_action r))); ("mode", JStr (maintenance_mode_name (ar_mode r)));
        ("requestedFamily", JStr (selector_name (ar_requestedFamily r)));
        ("evaluated", JArr (item_json <$> al_evaluated l)); ("planned", JArr (item_json <$> al_planned l));
        ("removed", JArr (item_json <$> al_removed l)); ("retained", JArr (item_json <$> al_retained l));
        ("skipped", JArr (item_json <$> al_skipped l)); ("warnings", JArr (warning_json <$> al_warnings l))].

(** ** The command *)

(** What the process writes, and its exit code. *)
Record CommandResult : Type := mkCommand { co_code : nat; co_stdout : string; co_stderr : string }.

Definition line (s : string) : string := s +:+ String LF "".

Section command.
Context `{SearchEnv} `{OsEnv}.
Context (locale_le : string → string → bool) (JSON_parse : string → option json) (date_parse : string → option Z).
Context (Number : string → number) (cwd : Path).

Definition runOperatorSafeMaintenanceCommand (args : list string) (repoRoot : string) : M OsWorld CommandResult :=
  match parseArgs Number args with
  | inl error => mret (mkCommand 1 "" (line error))
  | inr (json_output, payload) =>
    let text (v : json) (s : string) := if json_output : bool then document_text v else line s in
    match payload with
    | cmd_list family limit =>
      inventory ← listOperatorSafeArtifacts locale_le JSON_parse date_parse Number cwd repoRoot (Some family) limit None;
      mret (mkCommand 0 (text (inventory_json inventory) (formatInventoryText inventory)) "")
    | cmd_inspect family artifactId =>
      inspection ← inspectOperatorSafeArtifact locale_le JSON_parse date_parse Number cwd repoRoot family artifactId None;
      if json_output then mret (mkCommand (if in_found inspection then 0 else 1) (document_text (inspect_json inspection)) "")
      else if negb (in_found inspection) then mret (mkCommand 1 "" (line (formatInspectText inspection)))
      else mret (mkCommand 0 (line (formatInspectText inspection)) "")
    | cmd_prune request =>
      result ← pruneOperatorSafeArtifacts locale_le JSON_parse date_parse Number cwd repoRoot request;
      mret (mkCommand 0 (text (action_json result) (formatActionText result)) "")
    | cmd_cleanup request =>
      result ← cleanupOperatorSafeArtifacts locale_le JSON_parse date_parse Number cwd repoRoot request;
      mret (mkCommand (if existsb (λ i, bool_decide (ai_reason i = artifact_not_found)) (al_skipped (ar_lists result)) then 1 else 0)
        (text (action_json result) (formatActionText result)) "")
    end
  end.
End command.

(** ** The boundaries *)

(** The two readers of a family and of a mode agree. *)
Lemma resolvers_agree value :
  resolveFamily value = resolveOperatorSafeMaintenanceFamily value ∧
  resolveMode value = resolveOperatorSafeMaintenanceMode value.
Proof.
  unfold resolveFamily, resolveMode, resolveOperatorSafeMaintenanceFamily, resolveOperatorSafeMaintenanceMode.
  destruct value as [[|c s]|]; [done| |done]. cbn [truthy_string]. split; [|done].
  destruct (String.eqb _ "all"); [done|]. destruct (String.eqb _ "report"); [done|]. destruct (String.eqb _ "snapshot"); [done|].
  by destruct (String.eqb _ "temp"), (String.eqb _ "temp_workspace").
Qed.

#[local] Instance Entry_eq_dec : EqDecision Entry.
Proof. solve_decision. Defined.

(** The tree gets new directories below the operator-safe directory of [R] or on
    the way to it. *)
Definition grown (R : Path) (t t' : FileSystem) : Prop :=
  ∀ q, t' !! q ≠ t !! q → t !! q = None ∧ t' !! q = Some Dir ∧ (safe_root R `prefix_of` q ∨ q `prefix_of` safe_root R).

(** The tree loses entries of the three families of [R], and only when [removes]. *)
Definition shrunk (R : Path) (removes : Prop) (t t' : FileSystem) : Prop :=
  ∀ q, t' !! q ≠ t !! q → removes ∧ t' !! q = None ∧ ∃ f, artifact_dir R (folder f) `prefix_of` q.

Lemma grown_trans R t t' t'' : grown R t t' → grown R t' t'' → grown R t t''.
Proof.
  intros H1 H2 q Hq. destruct (decide (t' !! q = t !! q)) as [E|E].
  - rewrite <-E in Hq |- *. by apply H2.
  - destruct (H1 q E) as (Hn & Hd & Hp). destruct (decide (t'' !! q = t' !! q)) as [->|E2]; [done|].
    destruct (H2 q E2) as (Hn' & _). congruence.
Qed.

Lemma shrunk_trans R P t t' t'' : shrunk R P t t' → shrunk R P t' t'' → shrunk R P t t''.
Proof.
  intros H1 H2 q Hq. destruct (decide (t' !! q = t !! q)) as [E|E].
  - rewrite <-E in Hq. by apply H2.
  - destruct (H1 q E) as (HP & Hn & Hp). destruct (decide (t'' !! q = t' !! q)) as [->|E2]; [done|]. by apply H2.
Qed.

(** Every run of [m] relates the trees before and after. *)
Definition steps {A : Type} (rel : FileSystem → FileSystem → Prop) (m : M OsWorld A) : Prop :=
  ∀ w, rel (os_tree w) (os_tree (snd (m w))).

Lemma steps_bind {A B : Type} rel (m : M OsWorld A) (k : A → M OsWorld B) :
  (∀ t t' t'', rel t t' → rel t' t'' → rel t t'') → steps rel m → (∀ a, steps rel (k a)) → steps rel (m ≫= k).
Proof.
  intros Ht Hm Hk w. unfold mbind, M_bind. specialize (Hm w). destruct (m w) as [[a|e] w1]; [|done]. simpl in Hm.
  eapply Ht; [exact Hm|apply Hk].
Qed.

Lemma steps_fold {A B : Type} rel (f : B → A → M OsWorld B) xs : (∀ t, rel t t) →
  (∀ t t' t'', rel t t' → rel t' t'' → rel t t'') → (∀ b x, steps rel (f b x)) → ∀ b, steps rel (fold_each f b xs).
Proof.
  intros Hr Ht Hf. induction xs as [|x xs IH]; intros b; [intros w; apply Hr|]. cbn [fold_each]. by apply steps_bind.
Qed.

Lemma steps_promise_all rel (ms : list (M OsWorld ())) : (∀ t, rel t t) →
  (∀ t t' t'', rel t t' → rel t' t'' → rel t t'') → Forall (steps rel) ms → steps rel (promise_all ms).
Proof.
  intros Hr Ht. induction 1 as [|m ms Hm _ IH]; intros w; [apply Hr|]. cbn [promise_all]. specialize (Hm w).
  destruct (m w) as [o w1]. simpl in Hm. specialize (IH w1). destruct (promise_all ms w1) as [o' w2]. simpl in *. by eapply Ht.
Qed.

Lemma mkdir_from_grows rest : ∀ front t q, snd (mkdir_from front rest t) !! q ≠ t !! q →
  t !! q = None ∧ snd (mkdir_from front rest t) !! q = Some Dir ∧ q `prefix_of` front ++ rest.
Proof.
  induction rest as [|s rest IH]; intros front t q; [done|]. cbn [mkdir_from].
  assert (front ++ s :: rest = (front ++ [s]) ++ rest) as -> by (by rewrite <-app_assoc).
  destruct (t !! (front ++ [s])) as [[c|]|] eqn:E; [done|apply IH|]. intros Hq.
  destruct (decide (snd (mkdir_from (front ++ [s]) rest (<[front ++ [s] := Dir]> t)) !! q = <[front ++ [s] := Dir]> t !! q)) as [Es|Es].
  - rewrite Es in Hq |- *. destruct (decide (q = front ++ [s])) as [->|Hne].
    + rewrite lookup_insert_eq. split_and!; [done|done|by apply prefix_app_r].
    + by rewrite lookup_insert_ne in Hq.
  - destruct (IH _ _ _ Es) as (Hn & Hd & Hp). split_and!; [|done|done].
    destruct (decide (q = front ++ [s])) as [->|Hne]; [by rewrite lookup_insert_eq in Hn|by rewrite lookup_insert_ne in Hn].
Qed.


(** What [isPathWithin] accepts leads below the base. *)
Lemma inside_base cwd base candidate : isPathWithin cwd base candidate = true →
  path_resolve cwd base `prefix_of` path_resolve cwd candidate.
Proof.
  unfold isPathWithin, relative, path_relative.
  destruct (relative_segments_cases (path_resolve cwd base) (path_resolve cwd candidate)) as [(rest & -> & _)|(_ & l & ->)].
  - intros _. by apply prefix_app_r.
  - destruct (join_head "/" ".." l) as [t ->]. assert (startsWith (".." +:+ t) ".." = true) as -> by (apply startsWith_iff; eauto).
    by rewrite bool_decide_eq_false_2.
Qed.

Section bounded.
Context `{SearchEnv} `{OsEnv}.
Context (cwd : Path) (repoRoot : string).
Abbreviation R := (path_resolve cwd repoRoot).

Lemma family_root_place f : path_resolve cwd (family_root repoRoot f) = artifact_dir R (folder f).
Proof. destruct f; [apply resolve_reports|apply resolve_snapshots|apply resolve_temp]. Qed.

Lemma ensure_grows : steps (grown R) (ensureOperatorSafeArtifactDirs cwd repoRoot).
Proof.
  assert (∀ f, steps (grown R) (mkdir_p cwd (family_root repoRoot f))) as Hmk.
  { intros f w q Hq. unfold mkdir_p, on_tree in Hq |- *. rewrite family_root_place in Hq |- *.
    pose proof (mkdir_from_grows (artifact_dir R (folder f)) [] (os_tree w) q) as Hg. unfold mkdirSync in Hq |- *.
    destruct (mkdir_from [] _ (os_tree w)) as [o t]. simpl in *. destruct (Hg Hq) as (Hn & Hd & Hp). split_and!; [done|done|].
    destruct (prefix_weak_total q (safe_root R) _ Hp (artifact_dir_below R (folder f))); tauto. }
  apply steps_promise_all; [by intros t q|by apply grown_trans|].
  exact (Forall_cons_2 _ _ _ (Hmk report) (Forall_cons_2 _ _ _ (Hmk snapshot) (Forall_cons_2 _ _ _ (Hmk temp_workspace) (Forall_nil_2 _)))).
Qed.

Lemma same_tree {A : Type} P (m : M OsWorld A) : (∀ w, os_tree (snd (m w)) = os_tree w) → steps (shrunk R P) m.
Proof. intros Hm w q. by rewrite Hm. Qed.

Lemma shrinks_bind {A B : Type} P (m : M OsWorld A) (k : A → M OsWorld B) :
  steps (shrunk R P) m → (∀ a, steps (shrunk R P) (k a)) → steps (shrunk R P) (m ≫= k).
Proof. apply steps_bind. intros t t' t''. apply shrunk_trans. Qed.

Lemma shrinks_time P nowMs : steps (shrunk R P) (current_time nowMs).
Proof. apply same_tree. intros w. by destruct nowMs. Qed.

Lemma shrinks_pure {A : Type} P (a : A) : steps (shrunk R P) (mret a).
Proof. by apply same_tree. Qed.

Lemma shrinks_gets {A : Type} P (f : OsWorld → A) : steps (shrunk R P) (gets f).
Proof. by apply same_tree. Qed.

Lemma shrinks_lift {A : Type} P (o : outcome A) : steps (shrunk R P) (lift_outcome o).
Proof. by apply same_tree. Qed.

Lemma shrinks_fold {A B : Type} P (f : B → A → M OsWorld B) xs b : (∀ b x, steps (shrunk R P) (f b x)) →
  steps (shrunk R P) (fold_each f b xs).
Proof. intros Hf. apply steps_fold; [by intros t q|intros t t' t''; apply shrunk_trans|done]. Qed.

Lemma removal_shrinks (P : Prop) item : P → steps (shrunk R P) (removeArtifactPath cwd repoRoot item).
Proof.
  intros HP. unfold removeArtifactPath. destruct (isPathWithin _ _ _) eqn:Hw; [|apply shrinks_pure]. cbn [negb].
  apply shrinks_bind; [apply shrinks_gets|]. intros [st|]; [|apply shrinks_pure]. apply shrinks_bind; [|intros _; apply shrinks_pure].
  apply inside_base in Hw. rewrite family_root_place in Hw. intros w q Hq. unfold rm_recursive in Hq |- *. simpl in Hq |- *.
  revert Hq. rewrite map_lookup_filter. destruct (os_tree w !! q) as [e|]; simpl; [|done].
  rewrite option_guard_bool_decide. case_bool_decide as Hp; [done|]. intros _.
  split_and!; [done|done|]. exists (la_family item). by etrans.
Qed.

Lemma planned_shrinks P mode item i l : (mode = apply_mode → P) → steps (shrunk R P) (remove_planned cwd repoRoot mode item i l).
Proof.
  intros HP. unfold remove_planned. case_decide as Hm; [apply shrinks_pure|]. destruct mode; [done|].
  apply shrinks_bind; [by apply removal_shrinks, HP|]. intros [[? ?]|]; apply shrinks_pure.
Qed.

Lemma cleanup_item_shrinks P request l item : (cr_mode request = apply_mode → P) →
  steps (shrunk R P) (cleanup_item cwd repoRoot request l item).
Proof. intros HP. unfold cleanup_item. destruct (negb _); [apply shrinks_pure|by apply planned_shrinks]. Qed.

(** The directories are ensured, then [m] runs. *)
Definition bounded {A : Type} (P : Prop) (m : M OsWorld A) : Prop :=
  ∀ w, ∃ t, grown R (os_tree w) t ∧ shrunk R P t (os_tree (snd (m w))).

Lemma ensured_bounded {A : Type} P (m : M OsWorld A) : steps (shrunk R P) m →
  bounded P (ensureOperatorSafeArtifactDirs cwd repoRoot;; m).
Proof.
  intros Hm w. pose proof (ensure_grows w) as Hg. unfold mbind, M_bind. destruct (ensureOperatorSafeArtifactDirs _ _ _) as [[u|e] w'];
    exists (os_tree w'); (split; [exact Hg|]); [apply Hm|by intros q].
Qed.

Lemma bounded_bind {A B : Type} P (m : M OsWorld A) (k : A → M OsWorld B) :
  bounded P m → (∀ a, steps (shrunk R P) (k a)) → bounded P (m ≫= k).
Proof.
  intros Hm Hk w. destruct (Hm w) as (t & Hg & Hs). exists t. split; [done|]. unfold mbind, M_bind.
  destruct (m w) as [[a|e] w']; simpl in *; [|done]. eapply shrunk_trans; [exact Hs|apply Hk].
Qed.

(** The arguments that ask for removals. *)
Definition asks_removal (args : list string) : Prop :=
  (head args = Some "prune" ∨ head args = Some "cleanup") ∧ readFlagValue (tail args) "--mode" = Some "apply".

Lemma mode_apply value : resolveMode value = Some apply_mode → value = Some "apply".
Proof.
  unfold resolveMode. destruct value as [[|c s]|]; [done| |done]. cbn [truthy_string].
  destruct (_ || _); [done|]. destruct (String.eqb _ _) eqn:E; [|done]. apply String.eqb_eq in E. by rewrite E.
Qed.

Context (locale_le : string → string → bool) (JSON_parse : string → option json) (date_parse : string → option Z).
Context (Number : string → number).
Set Default Proof Using "All".

Lemma prune_item_shrinks P request now l item : (pr_mode request = apply_mode → P) →
  steps (shrunk R P) (prune_item date_parse cwd repoRoot request now l item).
Proof.
  intros HP. unfold prune_item. destruct (negb _); [apply shrinks_pure|]. destruct (touched_at _ _); [|apply shrinks_pure].
  cbv zeta. destruct (_ <=? _)%Z; [apply shrinks_pure|by apply planned_shrinks].
Qed.

Lemma list_bounded P family limit now :
  bounded P (listOperatorSafeArtifacts locale_le JSON_parse date_parse Number cwd repoRoot family limit now).
Proof.
  apply ensured_bounded, shrinks_bind; [apply shrinks_time|]. intros t. apply shrinks_bind; [apply shrinks_gets|]. intros items.
  apply shrinks_bind; [apply shrinks_lift|]. intros sorted. apply shrinks_pure.
Qed.

Lemma inspect_bounded P family id now :
  bounded P (inspectOperatorSafeArtifact locale_le JSON_parse date_parse Number cwd repoRoot family id now).
Proof.
  apply ensured_bounded, shrinks_bind; [apply shrinks_time|]. intros t. apply shrinks_bind; [apply shrinks_gets|]. intros items.
  destruct (List.find _ _); [|apply shrinks_pure]. apply shrinks_bind; [apply shrinks_lift|]. intros details. apply shrinks_pure.
Qed.

Lemma prune_bounded (P : Prop) request : (pr_mode request = apply_mode → P) →
  bounded P (pruneOperatorSafeArtifacts locale_le JSON_parse date_parse Number cwd repoRoot request).
Proof.
  intros HP. apply ensured_bounded, shrinks_bind; [apply shrinks_time|]. intros t. apply shrinks_bind; [apply shrinks_gets|]. intros items.
  apply shrinks_bind; [|intros lists; apply shrinks_pure]. apply shrinks_fold. intros l item. by apply prune_item_shrinks.
Qed.

Lemma cleanup_bounded (P : Prop) request : (cr_mode request = apply_mode → P) →
  bounded P (cleanupOperatorSafeArtifacts locale_le JSON_parse date_parse Number cwd repoRoot request).
Proof.
  intros HP. apply ensured_bounded, shrinks_bind; [apply shrinks_time|]. intros t. apply shrinks_bind; [apply shrinks_gets|]. intros items.
  destruct (cleanup_targets _ _ _) as [lists|targets]; [apply shrinks_pure|].
  apply shrinks_bind; [|intros lists; apply shrinks_pure]. apply shrinks_fold. intros l item. by apply cleanup_item_shrinks.
Qed.

Lemma parsed_removal args json_output payload : parseArgs Number args = inr (json_output, payload) →
  match payload with
  | cmd_prune request => pr_mode request = apply_mode → asks_removal args
  | cmd_cleanup request => cr_mode request = apply_mode → asks_removal args
  | _ => True
  end.
Proof.
  unfold parseArgs, asks_removal. destruct args as [|sub rest]; [done|]. cbn [head tail default].
  unfold parseListArgs, parseInspectArgs, parsePruneArgs, parseCleanupArgs.
  repeat case_match; intros [= <- <-]; try done; cbn [pr_mode cr_mode]; intros ->;
    repeat match goal with Hs : String.eqb _ _ = true |- _ => apply String.eqb_eq in Hs; unfold id in Hs; subst sub end;
    (split; [first [by left|by right]|by apply mode_apply]).
Qed.

(** C35 Whatever its arguments, a run of the maintenance command first does nothing
    but create directories of the operator-safe root (or on the way to it), and
    then does nothing but remove entries below the directories of reports,
    snapshots and temporary workspaces: no file is ever written or changed, and
    nothing outside these directories is removed.  It removes anything at all
    only when its subcommand is [prune] or [cleanup] and its mode is given as
    [apply], on every path through the command, failures included. *)
Theorem command_bounded args w : ∃ t, grown R (os_tree w) t ∧
  shrunk R (asks_removal args) t
    (os_tree (snd (runOperatorSafeMaintenanceCommand locale_le JSON_parse date_parse Number cwd args repoRoot w))).
Proof.
  enough (bounded (asks_removal args) (runOperatorSafeMaintenanceCommand locale_le JSON_parse date_parse Number cwd args repoRoot)) as Hb
    by apply Hb.
  unfold runOperatorSafeMaintenanceCommand. destruct (parseArgs Number args) as [error|[json_output payload]] eqn:E.
  { intros w'. exists (os_tree w'). split; by intros q. }
  apply parsed_removal in E. destruct payload as [family limit|family id|request|request]; cbv zeta.
  - apply bounded_bind; [apply list_bounded|]. intros r. apply shrinks_pure.
  - apply bounded_bind; [apply inspect_bounded|]. intros r. destruct json_output, (in_found r); apply shrinks_pure.
  - apply bounded_bind; [by apply prune_bounded|]. intros r. apply shrinks_pure.
  - apply bounded_bind; [by apply cleanup_bounded|]. intros r. apply shrinks_pure.
Qed.
End bounded.

(** A limit between 0 and 1 is accepted and lists everything. *)
Theorem fractional_limit_lists_everything {A : Type} (items : list A) :
  parseListArgs (λ _, Fin (1 # 2)) ["--limit"; "0.5"] = inr (false, cmd_list None (Some 0%Z)) ∧ limit_to (Some 0%Z) items = items.
Proof. split; reflexivity. Qed.
