(* ===== verification/Freshness.v ===== *)
(** * Workspace fingerprints

    [packages/runtime/src/performance/workspace-freshness.ts]: the fingerprint of
    the files of a repository, and what changed since it was last taken.

    The disk is that of [Worktree]; a link that leads nowhere is neither a file
    nor a directory and is passed over.  The hash function, JSON.parse, the order
    in which a directory lists its entries and the size that the system reports
    for a directory are parameters.  Values read back from the state file are
    documents; only their own members are looked up. *)

From S2P Require Import Prelude Json Files ScanPaths SearchTools Projects Worktree Maintenance.
From Stdlib Require Import Ascii String Sorted.
From stdpp Require Import prelude list strings gmap pretty sorting.
Set Default Goal Selector "!".
Set Default Proof Using "Type".
Set Warnings "-clear-no-such-hyp".
#[local] Arguments String.append : simpl nomatch.
Open Scope nat_scope.

Record WorkspaceFingerprint : Type := mkFingerprint {
  fingerprint : string;
  fp_files : list string;
  fp_generatedAt : string;
}.

Inductive FreshnessStatus : Type := first_run | fresh | changed.

#[global] Instance FreshnessStatus_eq_dec : EqDecision FreshnessStatus.
Proof. solve_decision. Defined.

(** [previousFingerprint] is whatever the state file holds. *)
Record WorkspaceFreshnessReport : Type := mkFreshness {
  fr_status : FreshnessStatus;
  fr_workspaceFingerprint : string;
  fr_previousFingerprint : option json;
  fr_indexedFiles : nat;
  fr_changedFiles : list string;
  fr_checkedAt : string;
}.

Definition IGNORED_DIRS : list string := [".git"; ".dh"; "dist"; "node_modules"].

(** Reads the world, or throws. *)
Definition reads {W A : Type} (f : W → outcome A) : M W A := λ w, (f w, w).

(** The values of [new Set(value)]. *)
Definition set_values (value : option json) : outcome (list json) :=
  match value with
  | None | Some JNull => Ret []
  | Some (JArr values) => Ret values
  | Some (JStr s) => Ret ((λ c, JStr (String c "")) <$> list_ascii_of_string s)
  | Some _ => Throw "TypeError"
  end.

(** The keys of an object that look like array indices come first, in the order
    of their numbers. *)
Definition is_index (key : string) : bool :=
  match key with
  | "" => false
  | String c rest => forallb is_digit (list_ascii_of_string key)
                     && (negb (Ascii.eqb c "0") || String.eqb rest "")
                     && ((String.length key <? 10) || (String.length key =? 10) && String.leb key "4294967294")
  end.

Definition index_le (a b : string * json) : bool :=
  (String.length a.1 <? String.length b.1) || (String.length a.1 =? String.length b.1) && String.leb a.1 b.1.

(** [Object.fromEntries] of entries with different keys. *)
Definition fromEntries (entries : list (string * json)) : json :=
  JObj (js_sort index_le (filter (λ e, is_index e.1 = true) entries) ++ filter (λ e, ¬ is_index e.1 = true) entries).

Section freshness.
Context `{SearchEnv} `{OsEnv} (sha256 : string → string) (JSON_parse : string → option json) (dir_size : nat) (cwd : Path).

(** [walk]: the files below a directory, in the order they are found.  A path is
    never longer than the entries of the file system ([files_below_spec]). *)
Fixpoint files_below (fuel : nat) (fs : FileSystem) (base : Path) : list Path :=
  match fuel with
  | O => []
  | S fuel =>
    dir_order (children fs base) ≫= λ name,
      match fs !! (base ++ [name]) with
      | Some Dir => if decide (name ∈ IGNORED_DIRS) then [] else files_below fuel fs (base ++ [name])
      | Some (File _) => [base ++ [name]]
      | None => []
      end
  end.

Definition listFiles (w : OsWorld) (repoRoot : string) : outcome (list string) :=
  let base := path_resolve cwd repoRoot in
  let fs := os_tree w in
  if is_dir fs base then Ret (js_sort String.leb (path_relative base <$> files_below (size fs) fs base))
  else Throw (if decide (is_Some (fs !! base)) then "ENOTDIR" else "ENOENT").

(** [statSync]: the size and the time. *)
Definition statSync (w : OsWorld) (p : string) : outcome (nat * Z) :=
  let q := path_resolve cwd p in
  match os_tree w !! q with
  | Some (File c) => Ret (String.length c, mtimeMs (os_times w q))
  | _ => if is_dir (os_tree w) q then Ret (dir_size, mtimeMs (os_times w q)) else Throw "ENOENT"
  end.

Definition fileFingerprint (w : OsWorld) (repoRoot file : string) : outcome string :=
  try_fmap (λ st, pretty st.1 +:+ ":" +:+ pretty st.2) (statSync w (path_join repoRoot file)).

(** The line that a file adds to the hash. *)
Definition hashed_line (w : OsWorld) (repoRoot file : string) : outcome string :=
  try_fmap (λ st, file +:+ ":" +:+ st +:+ String LF "") (fileFingerprint w repoRoot file).

Definition computeWorkspaceFingerprint (repoRoot : string) : M OsWorld WorkspaceFingerprint :=
  files ← reads (λ w, listFiles w repoRoot);
  lines ← reads (λ w, try_map (hashed_line w repoRoot) files);
  generatedAt ← new_Date_ISO;
  mret (mkFingerprint (sha256 (Prelude.join "" lines)) files generatedAt).

Definition statePath (repoRoot : string) : string := path_join_all repoRoot [".dh"; "cache"; "workspace-freshness.json"].

(** [fs.readFileSync] followed by [JSON.parse]. *)
Definition read_document (file : string) : M OsWorld json :=
  text ← reads (λ w, fst (readFileSync (path_resolve cwd file) (os_tree w)));
  match JSON_parse text with Some v => mret v | None => throw "SyntaxError" end.

Definition readPrior (repoRoot : string) : M OsWorld (option json) :=
  present ← gets (λ w, existsSync (path_resolve cwd (statePath repoRoot)) (os_tree w));
  if negb present then mret None
  else prior ← read_document (statePath repoRoot); mret (Some prior).

(** Whether a file is new or differs from what the state file says. *)
Definition differs (w : OsWorld) (repoRoot : string) (prior : json) (previous : list json) (file : string) : outcome bool :=
  if negb (existsb (is_string file) previous) then Ret true
  else match member file (json_get "fileFingerprints" prior) with
       | Throw e => Throw e
       | Ret before => try_fmap (λ after, negb (equals_string after before)) (fileFingerprint w repoRoot file)
       end.

Definition changedFiles (w : OsWorld) (repoRoot : string) (prior : json) (currentFiles : list string) : outcome (list string) :=
  match set_values (json_get "files" prior) with
  | Throw e => Throw e
  | Ret previous => try_fmap (take 50) (try_filter (differs w repoRoot prior previous) currentFiles)
  end.

Definition stored_fingerprint (current : WorkspaceFingerprint) (prints : list (string * string)) : json :=
  JObj [("fingerprint", JStr (fingerprint current)); ("files", strings_json (fp_files current));
        ("generatedAt", JStr (fp_generatedAt current));
        ("fileFingerprints", fromEntries ((λ e, (e.1, JStr e.2)) <$> prints))].

(** The directory of the state file is [path.dirname] of its path. *)
Definition writePrior (repoRoot : string) (current : WorkspaceFingerprint) : M OsWorld () :=
  mkdir_p cwd (path_join_all repoRoot [".dh"; "cache"]);;
  prints ← reads (λ w, try_map (λ file, try_fmap (pair file) (fileFingerprint w repoRoot file)) (fp_files current));
  write_file cwd (statePath repoRoot) (document_text (stored_fingerprint current prints)).

Definition freshness_status (prior : option json) (current : WorkspaceFingerprint) : FreshnessStatus :=
  if falsy prior then first_run
  else if equals_string (fingerprint current) (opt_get "fingerprint" prior) then fresh else changed.

Definition checkWorkspaceFreshness (repoRoot : string) (update : bool) : M OsWorld WorkspaceFreshnessReport :=
  current ← computeWorkspaceFingerprint repoRoot;
  prior ← readPrior repoRoot;
  let status := freshness_status prior current in
  changed_files ← (match prior with
                   | Some v => if decide (status = changed) then reads (λ w, changedFiles w repoRoot v (fp_files current)) else mret []
                   | None => mret []
                   end);
  (if update then writePrior repoRoot current else mret ());;
  mret (mkFreshness status (fingerprint current) (opt_get "fingerprint" prior) (length (fp_files current)) changed_files
          (fp_generatedAt current)).
End freshness.

(** ** Listing *)

(** The paths below a directory that a fingerprint covers: files that no
    directory with an ignored name holds. *)
Fixpoint tracked (fs : FileSystem) (base rest : Path) : Prop :=
  match rest with
  | [] => False
  | name :: rest =>
    match fs !! (base ++ [name]) with
    | Some Dir => (name ∉ IGNORED_DIRS) ∧ tracked fs (base ++ [name]) rest
    | Some (File _) => rest = []
    | None => False
    end
  end.

Lemma tracked_file fs rest : ∀ base, tracked fs base rest → ∃ c, fs !! (base ++ rest) = Some (File c).
Proof.
  induction rest as [|name rest IH]; intros base; [done|]. cbn [tracked].
  destruct (fs !! (base ++ [name])) as [[c|]|] eqn:E; [intros ->; by exists c| |done].
  intros [_ [c Hc]%IH]. exists c. by rewrite <-app_assoc in Hc.
Qed.

Lemma tracked_prefixes fs rest : ∀ base, tracked fs base rest → ∀ i, 0 < i ≤ length rest → is_Some (fs !! (base ++ take i rest)).
Proof.
  induction rest as [|name rest IH]; intros base Ht i Hi; [done|]. cbn [tracked] in Ht. destruct i as [|i]; [lia|]. cbn [take].
  destruct (fs !! (base ++ [name])) as [[c|]|] eqn:E; [|destruct Ht as [_ Ht]|done].
  - subst rest. simpl in Hi. assert (i = 0) as -> by lia. by eexists.
  - destruct (decide (i = 0)) as [->|Hne]; [rewrite take_0; by eexists|]. destruct (IH _ Ht i) as [e He]; [simpl in Hi; lia|].
    rewrite <-app_assoc in He. by exists e.
Qed.

(** A path whose prefixes exist has no more segments than the file system has
    entries. *)
Lemma tracked_depth fs base rest : tracked fs base rest → length rest ≤ size fs.
Proof.
  intros Ht. pose proof (tracked_prefixes _ _ _ Ht) as Hp.
  assert (length ((λ i, base ++ take i rest) <$> seq 1 (length rest)) ≤ length (map_to_list fs).*1) as Hlen.
  { apply submseteq_length, NoDup_submseteq.
    - apply NoDup_fmap_2_strong; [|apply NoDup_seq]. intros i j Hi%elem_of_seq Hj%elem_of_seq Heq%app_inv_head.
      apply (f_equal length) in Heq. rewrite !length_take in Heq. lia.
    - intros p (i & -> & Hi%elem_of_seq)%list_elem_of_fmap. apply list_elem_of_fmap.
      destruct (Hp i) as [e He]; [lia|]. exists (base ++ take i rest, e). split; [done|]. by apply elem_of_map_to_list. }
  rewrite length_fmap, length_seq, length_fmap, length_map_to_list in Hlen. done.
Qed.

Section listing.
Context `{SearchEnvLaws}.

Lemma files_below_fuel fuel fs : ∀ base,
  NoDup (files_below fuel fs base) ∧
  ∀ f, f ∈ files_below fuel fs base ↔ ∃ rest, f = base ++ rest ∧ length rest ≤ fuel ∧ tracked fs base rest.
Proof using Type*.
  induction fuel as [|fuel IH]; intros base; cbn [files_below].
  { split; [constructor|]. intros f. split; [by intros ?%elem_of_nil|]. intros ([|] & -> & Hl & Ht); [done|simpl in Hl; lia]. }
  assert (∀ name f, (f ∈ (match fs !! (base ++ [name]) with
           | Some Dir => if decide (name ∈ IGNORED_DIRS) then [] else files_below fuel fs (base ++ [name])
           | Some (File _) => [base ++ [name]] | None => [] end)) ↔
    ∃ rest, f = base ++ name :: rest ∧ length rest ≤ fuel ∧ tracked fs base (name :: rest)) as Hname.
  { intros name f. cbn [tracked]. destruct (fs !! (base ++ [name])) as [[c|]|].
    - rewrite list_elem_of_singleton. split; [intros ->; exists []; simpl; split_and!; [done|lia|done]|]. by intros (rest & -> & _ & ->).
    - case_decide as Hs; [split; [by intros ?%elem_of_nil|naive_solver]|]. rewrite (proj2 (IH (base ++ [name])) f). split.
      + intros (rest & -> & Hl & Hv). exists rest. by rewrite <-app_assoc.
      + intros (rest & -> & Hl & _ & Hv). exists rest. by rewrite <-app_assoc.
    - split; [by intros ?%elem_of_nil|naive_solver]. }
  split.
  - apply NoDup_bind.
    + intros n1 n2 f _ _ (r1 & -> & _)%Hname (r2 & Heq & _)%Hname. apply app_inv_head in Heq. by injection Heq.
    + intros name _. destruct (fs !! (base ++ [name])) as [[]|]; [apply NoDup_singleton|case_decide; [constructor|apply IH]|constructor].
    + rewrite dir_order_perm. apply children_NoDup.
  - intros f. rewrite list_elem_of_bind. setoid_rewrite Hname. setoid_rewrite dir_order_perm. setoid_rewrite elem_of_children.
    split.
    + intros (name & (rest & -> & Hl & Hv) & _). exists (name :: rest). simpl in *. split_and!; [done|lia|done].
    + intros ([|name rest] & -> & Hl & Hv); [done|]. exists name. split; [exists rest; simpl in Hl; split_and!; [done|lia|done]|].
      cbn [tracked] in Hv. destruct (fs !! (base ++ [name])); [by eexists|done].
Qed.

Lemma files_below_spec fs base : NoDup (files_below (size fs) fs base) ∧
  ∀ f, f ∈ files_below (size fs) fs base ↔ ∃ rest, f = base ++ rest ∧ tracked fs base rest.
Proof using Type*.
  destruct (files_below_fuel (size fs) fs base) as [Hnd Hall]. split; [done|]. intros f. rewrite Hall. split; [naive_solver|].
  intros (rest & -> & Ht). exists rest. split_and!; [done|by eapply tracked_depth|done].
Qed.
End listing.

Lemma relative_rest (base rest : Path) : path_relative base (base ++ rest) = Prelude.join "/" rest.
Proof.
  unfold path_relative. f_equal. destruct (relative_segments_cases base (base ++ rest)) as [(r & Heq & ->)|(Hno & _)].
  - by apply app_inv_head in Heq.
  - exfalso. apply Hno. by exists rest.
Qed.

(** Every name in the tree is a proper one. *)
Definition clean_names (w : OsWorld) : Prop := ∀ p, is_Some (os_tree w !! p) → Forall clean p.

Lemma tracked_clean w base rest : clean_names w → tracked (os_tree w) base rest → Forall clean rest.
Proof. intros Hw [c Hc]%tracked_file. assert (Forall clean (base ++ rest)) as Ha by (apply Hw; by rewrite Hc). by apply Forall_app in Ha as [_ ?]. Qed.

Lemma clean_no_slash (l : Path) : Forall clean l → Forall no_slash l.
Proof. intros Hl. eapply Forall_impl; [exact Hl|]. by intros s (_ & _ & _ & ?). Qed.

Lemma join_clean_inj (l l' : Path) : l ≠ [] → l' ≠ [] → Forall clean l → Forall clean l' → Prelude.join "/" l = Prelude.join "/" l' → l = l'.
Proof. intros Hn Hn' Hl%clean_no_slash Hl'%clean_no_slash E. by rewrite <-(split_join_slash l), <-(split_join_slash l'), E. Qed.

Lemma tracked_nonempty fs base rest : tracked fs base rest → rest ≠ [].
Proof. by destruct rest. Qed.

Lemma string_leb_antisym s t : String.leb s t = true → String.leb t s = true → s = t.
Proof. apply String.leb_antisym. Qed.

(** Two sorted lists without duplicates and with the same elements are equal. *)
Lemma sorted_same (xs ys : list string) : NoDup xs → NoDup ys → (∀ x, x ∈ xs ↔ x ∈ ys) →
  js_sort String.leb xs = js_sort String.leb ys.
Proof.
  intros Hx Hy Hxy. pose proof (λ zs, js_sort_sorted String.leb string_leb_total_false string_leb_trans zs) as Hs.
  assert (AntiSymm (=) (λ a b, String.leb a b = true)) as Ha by (intros a b; apply string_leb_antisym).
  eapply (StronglySorted_unique _ _ _ (Hs xs) (Hs ys)). rewrite !js_sort_perm. by apply NoDup_Permutation.
Qed.

Section fingerprints.
Context `{SearchEnvLaws} `{OsEnv} (sha256 : string → string) (JSON_parse : string → option json) (dir_size : nat) (cwd : Path).
Context (repoRoot : string).
Abbreviation base := (path_resolve cwd repoRoot).
Abbreviation list_files w := (listFiles cwd w repoRoot).
Abbreviation file_print w := (fileFingerprint dir_size cwd w repoRoot).

(** What [fileFingerprint] gives, when it does not throw. *)
Definition print_of (w : OsWorld) (file : string) : option string :=
  match file_print w file with Ret s => Some s | Throw _ => None end.

Lemma print_tracked w rest : clean_names w → tracked (os_tree w) base rest →
  ∃ c, os_tree w !! (base ++ rest) = Some (File c) ∧
    file_print w (Prelude.join "/" rest) = Ret (pretty (String.length c) +:+ ":" +:+ pretty (mtimeMs (os_times w (base ++ rest)))).
Proof.
  intros Hw Ht. destruct (tracked_file _ _ _ Ht) as [c Hc]. exists c. split; [done|]. unfold fileFingerprint, statSync.
  rewrite resolve_below by (by eapply tracked_clean). by rewrite Hc.
Qed.

Lemma listing w : clean_names w → is_dir (os_tree w) base = true →
  ∃ files, list_files w = Ret files ∧ NoDup files ∧
    (∀ f, f ∈ files ↔ ∃ rest, tracked (os_tree w) base rest ∧ f = Prelude.join "/" rest) ∧
    Forall (λ f, is_Some (print_of w f)) files.
Proof using Type*.
  intros Hw Hd. unfold listFiles. rewrite Hd. destruct (files_below_spec (os_tree w) base) as [Hnd Hall].
  assert (∀ f, f ∈ path_relative base <$> files_below (size (os_tree w)) (os_tree w) base ↔
    ∃ rest, tracked (os_tree w) base rest ∧ f = Prelude.join "/" rest) as Hin.
  { intros f. rewrite list_elem_of_fmap. split.
    - intros (p & -> & (rest & -> & Ht)%Hall). exists rest. by rewrite relative_rest.
    - intros (rest & Ht & ->). exists (base ++ rest). rewrite relative_rest, Hall. split; [done|by exists rest]. }
  eexists. split; [reflexivity|]. split_and!.
  - rewrite js_sort_perm. apply NoDup_fmap_2_strong; [|done]. intros p q (r & -> & Hr)%Hall (r' & -> & Hr')%Hall.
    rewrite !relative_rest. intros E. f_equal.
    apply join_clean_inj; [by eapply tracked_nonempty|by eapply tracked_nonempty|by eapply tracked_clean|by eapply tracked_clean|done].
  - intros f. by rewrite elem_of_js_sort.
  - apply Forall_forall. intros f (rest & Ht & ->)%elem_of_js_sort%Hin. destruct (print_tracked w rest Hw Ht) as (c & _ & Hp).
    unfold print_of. by rewrite Hp.
Qed.
End fingerprints.

(** ** Fingerprints *)

Lemma get_entry key v entries : NoDup entries.*1 → (key, v) ∈ entries → json_get key (fromEntries entries) = Some v.
Proof.
  intros Hnd Hin. unfold fromEntries. apply get_member.
  - assert (js_sort index_le (filter (λ e, is_index e.1 = true) entries) ++ filter (λ e, ¬ is_index e.1 = true) entries ≡ₚ entries) as ->; [|done].
    rewrite js_sort_perm. apply filter_app_complement.
  - rewrite elem_of_app, elem_of_js_sort, !list_elem_of_filter. destruct (decide (is_index key = true)); [by left|by right].
Qed.

Lemma existsb_names f (names : list string) : existsb (is_string f) (JStr <$> names) = bool_decide (f ∈ names).
Proof.
  induction names as [|n names IH]; [done|]. cbn. rewrite IH. destruct (String.eqb_spec f n) as [->|Hne].
  - symmetry. apply bool_decide_eq_true. by left.
  - apply bool_decide_ext. rewrite elem_of_cons. naive_solver.
Qed.

Section sources.
Context (dir_size : nat) (cwd : Path) (repoRoot : string).
Abbreviation base := (path_resolve cwd repoRoot).
Abbreviation print w := (print_of dir_size cwd repoRoot w).

(** Two worlds that differ only below [.dh], which is no file. *)
Record same_sources (w w' : OsWorld) : Prop := mkSameSources {
  ss_tree : ∀ rest, rest ≠ [] → head rest ≠ Some ".dh" → os_tree w' !! (base ++ rest) = os_tree w !! (base ++ rest);
  ss_times : ∀ rest c, rest ≠ [] → os_tree w !! (base ++ rest) = Some (File c) → head rest ≠ Some ".dh" →
    os_times w' (base ++ rest) = os_times w (base ++ rest);
  ss_before : ∀ c, os_tree w !! (base ++ [".dh"]) ≠ Some (File c);
  ss_after : ∀ c, os_tree w' !! (base ++ [".dh"]) ≠ Some (File c);
}.

Lemma tracked_ext fs fs' rest : ∀ b, (∀ r, fs' !! (b ++ r) = fs !! (b ++ r)) → tracked fs' b rest ↔ tracked fs b rest.
Proof.
  induction rest as [|name rest IH]; intros b Hb; [done|]. cbn [tracked]. rewrite Hb. destruct (fs !! (b ++ [name])) as [[c|]|]; [done| |done].
  rewrite (IH (b ++ [name])); [done|]. intros r. rewrite <-app_assoc. apply Hb.
Qed.

Lemma tracked_same w w' rest : same_sources w w' → tracked (os_tree w') base rest ↔ tracked (os_tree w) base rest.
Proof.
  intros Hs. destruct rest as [|name rest]; [done|]. cbn [tracked]. destruct (decide (name = ".dh")) as [->|Hne].
  - pose proof (ss_before _ _ Hs) as Hb. pose proof (ss_after _ _ Hs) as Ha.
    destruct (os_tree w !! (base ++ [".dh"])) as [[c|]|]; [by destruct (Hb c)|..];
      (destruct (os_tree w' !! (base ++ [".dh"])) as [[c|]|]; [by destruct (Ha c)|..]; unfold IGNORED_DIRS; set_solver).
  - rewrite (ss_tree _ _ Hs [name]) by (done || by intros [= ?]). destruct (os_tree w !! (base ++ [name])) as [[c|]|]; [done| |done].
    rewrite (tracked_ext (os_tree w) (os_tree w') rest); [done|]. intros r. rewrite <-app_assoc. apply (ss_tree _ _ Hs); [done|by intros [= ?]].
Qed.

Lemma tracked_head w w' rest : same_sources w w' → tracked (os_tree w) base rest → head rest ≠ Some ".dh".
Proof.
  intros Hs Ht Hh. destruct rest as [|name rest]; [done|]. injection Hh as ->. cbn [tracked] in Ht.
  pose proof (ss_before _ _ Hs) as Hb. destruct (os_tree w !! (base ++ [".dh"])) as [[c|]|]; [by destruct (Hb c)| |done].
  destruct Ht as [Hn _]. apply Hn. unfold IGNORED_DIRS. set_solver.
Qed.

Lemma print_same w w' rest : same_sources w w' → clean_names w → clean_names w' → tracked (os_tree w) base rest →
  print w' (Prelude.join "/" rest) = print w (Prelude.join "/" rest).
Proof.
  intros Hs Hw Hw' Ht. pose proof (tracked_head _ _ _ Hs Ht) as Hh. pose proof (proj2 (tracked_same _ _ _ Hs) Ht) as Ht'.
  destruct (print_tracked dir_size cwd repoRoot w rest Hw Ht) as (c & Hc & Hp).
  destruct (print_tracked dir_size cwd repoRoot w' rest Hw' Ht') as (c' & Hc' & Hp').
  unfold print_of. rewrite Hp, Hp'. rewrite (ss_tree _ _ Hs) in Hc' by (done || by eapply tracked_nonempty).
  rewrite (ss_times _ _ Hs rest c) by (done || by eapply tracked_nonempty). assert (c' = c) as -> by congruence. done.
Qed.

End sources.

Section tracking.
Context `{SearchEnvLaws} `{OsEnv} (sha256 : string → string) (JSON_parse : string → option json) (dir_size : nat) (cwd : Path).
Context (repoRoot : string).
Abbreviation base := (path_resolve cwd repoRoot).
Abbreviation list_files w := (listFiles cwd w repoRoot).
Abbreviation file_print w := (fileFingerprint dir_size cwd w repoRoot).
Abbreviation print w := (print_of dir_size cwd repoRoot w).
Abbreviation take_print := (computeWorkspaceFingerprint sha256 dir_size cwd repoRoot).
Abbreviation check := (checkWorkspaceFreshness sha256 JSON_parse dir_size cwd repoRoot).

(** The fingerprint of the files of [w]. *)
Definition hashed (w : OsWorld) (files : list string) : string :=
  sha256 (Prelude.join "" ((λ f, f +:+ ":" +:+ (print w f or_else "") +:+ String LF "") <$> files)).

Definition tick (w : OsWorld) : OsWorld := mkOs (os_tree w) (os_times w) (os_dangling w) (S (os_ticks w)) (os_draws w).

Definition current_of (w : OsWorld) (files : list string) : WorkspaceFingerprint :=
  mkFingerprint (hashed w files) files (toISOString (now_ms (os_ticks w))).

Lemma compute_run w files : list_files w = Ret files → Forall (λ f, is_Some (print w f)) files →
  take_print w = (Ret (current_of w files), tick w).
Proof.
  intros Hf Hp. unfold computeWorkspaceFingerprint, mbind, M_bind, reads. rewrite Hf.
  rewrite (try_map_ret _ (λ f, f +:+ ":" +:+ (print w f or_else "") +:+ String LF "")); [done|].
  eapply Forall_impl; [exact Hp|]. intros f [s Hs]. unfold hashed_line. unfold print_of in Hs |- *. by destruct (file_print w f).
Qed.

(** What happens below [.dh] does not show in the fingerprint. *)
Lemma fingerprint_same w w' : same_sources cwd repoRoot w w' → clean_names w → clean_names w' →
  is_dir (os_tree w) base = true → is_dir (os_tree w') base = true →
  ∃ files, list_files w = Ret files ∧ list_files w' = Ret files ∧ hashed w' files = hashed w files ∧
    Forall (λ f, print w' f = print w f) files.
Proof using Type*.
  intros Hs Hw Hw' Hd Hd'. destruct (listing dir_size cwd repoRoot w Hw Hd) as (files & Hf & Hnd & Hin & _).
  destruct (listing dir_size cwd repoRoot w' Hw' Hd') as (files' & Hf' & Hnd' & Hin' & _).
  assert (files' = files) as ->.
  { unfold listFiles in Hf, Hf'. rewrite Hd in Hf. rewrite Hd' in Hf'. injection Hf as <-. injection Hf' as <-.
    rewrite js_sort_perm in Hnd, Hnd'. apply sorted_same; [done..|]. intros f. specialize (Hin f). specialize (Hin' f).
    rewrite elem_of_js_sort in Hin, Hin'. rewrite Hin, Hin'. by setoid_rewrite (tracked_same cwd repoRoot w w' _ Hs). }
  assert (Forall (λ f, print w' f = print w f) files) as Hall.
  { apply Forall_forall. intros f (rest & Ht & ->)%Hin. by apply print_same. }
  exists files. split_and!; [done..| |done]. unfold hashed. do 2 f_equal. apply list_fmap_ext. intros i f Hi.
  rewrite Forall_lookup in Hall. by rewrite (Hall i f Hi).
Qed.
End tracking.

(** ** The state file *)

Section cache.
Context `{OsEnv} (cwd : Path) (repoRoot : string).
Abbreviation base := (path_resolve cwd repoRoot).

Definition state_file : Path := base ++ [".dh"; "cache"; "workspace-freshness.json"].

Lemma cache_names : Forall clean [".dh"; "cache"; "workspace-freshness.json"].
Proof. repeat constructor; done. Qed.

Lemma resolve_state : path_resolve cwd (statePath repoRoot) = state_file.
Proof. apply (resolve_below cwd repoRoot), cache_names. Qed.

Lemma resolve_cache : path_resolve cwd (path_join_all repoRoot [".dh"; "cache"]) = base ++ [".dh"; "cache"].
Proof. apply (resolve_below cwd repoRoot). apply (Forall_take _ 2 _ cache_names). Qed.

Lemma base_clean w : clean_names w → is_dir (os_tree w) base = true → Forall clean base.
Proof. intros Hw Hd. destruct (decide (base = [])) as [->|Hne]; [done|]. apply Hw. rewrite is_dir_entry in Hd by done. by destruct (os_tree w !! base). Qed.

Lemma file_time_kept t old new times q c : old !! q = Some (File c) → new !! q = Some (File c) → restamp t old new times q = times q.
Proof. intros Ho Hn. unfold restamp. by rewrite Ho, Hn, decide_True. Qed.

(** Making directories below [.dh] changes no source. *)
Lemma dirs_made w p rest u w' : clean_names w → is_dir (os_tree w) base = true →
  path_resolve cwd p = base ++ ".dh" :: rest → Forall clean (".dh" :: rest) → mkdir_p cwd p w = (Ret u, w') →
  same_sources cwd repoRoot w w' ∧ clean_names w' ∧ is_dir (os_tree w') base = true.
Proof.
  intros Hw Hd Hp Hclean Hmk. pose proof (mkdir_p_ret _ _ _ _ _ Hmk) as [Hopen Ho]. rewrite Hp in Hopen, Ho.
  assert (∀ q c, os_tree w !! q = Some (File c) → os_times w' q = os_times w q) as Htimes.
  { intros q c Hq. unfold mkdir_p, on_tree in Hmk. destruct (mkdirSync _ _) as [o t]. injection Hmk as _ <-.
    apply (file_time_kept _ _ _ _ _ c Hq). cbn [os_tree] in Ho. by rewrite Ho, Hq. }
  assert (∀ r, r `prefix_of` ".dh" :: rest → r = [] ∨ head r = Some ".dh") as Hpre.
  { intros [|x r] [k Hk]; [by left|right]. by injection Hk as <- _. }
  assert (∀ c, os_tree w !! (base ++ [".dh"]) ≠ Some (File c)) as Hno.
  { apply Hopen; [by destruct base|]. by apply prefix_app, prefix_cons, prefix_nil. }
  split_and!.
  - split; [|intros r c _ Hc _; by eapply Htimes|done|].
    + intros r Hne Hh. rewrite Ho. destruct (os_tree w !! (base ++ r)); [done|]. rewrite decide_False; [done|].
      intros [_ Hx]. apply Exists_cons in Hx as [Hx|Hx]; [|by apply Exists_nil in Hx]. apply prefix_app_inv, Hpre in Hx. naive_solver.
    + intros c. rewrite Ho. specialize (Hno c). destruct (os_tree w !! (base ++ [".dh"])); [done|]. by case_decide.
  - intros q. rewrite Ho. destruct (os_tree w !! q) eqn:E; [intros _; apply Hw; by rewrite E|]. case_decide as Hq; [|by intros []].
    intros _. destruct Hq as [_ Hx]. apply Exists_cons in Hx as [[k Hx]|Hx]; [|by apply Exists_nil in Hx].
    assert (Forall clean (base ++ ".dh" :: rest)) as Hc by (apply Forall_app; split; [by eapply base_clean|done]).
    rewrite Hx in Hc. by apply Forall_app in Hc as [? _].
  - destruct (decide (base = [])) as [E|Hne]; [by rewrite E|]. rewrite is_dir_entry in Hd |- * by done. rewrite Ho.
    by destruct (os_tree w !! base).
Qed.

Lemma write_keeps_times p text w u w' q c : write_file cwd p text w = (Ret u, w') → q ≠ path_resolve cwd p →
  os_tree w !! q = Some (File c) → os_times w' q = os_times w q.
Proof.
  intros Hw Hne Hq. pose proof (write_ret _ _ _ _ _ _ Hw) as (Ht & _). unfold write_file, on_tree in Hw.
  destruct (writeFileSync _ _ _) as [o t]. injection Hw as _ <-. cbn [os_tree] in Ht. subst t.
  apply (file_time_kept _ _ _ _ _ c Hq). by rewrite lookup_insert_ne.
Qed.

(** Writing a file below a directory [.dh] that is there changes no source. *)
Lemma write_below_dh w p text u w' rest : clean_names w → is_dir (os_tree w) base = true →
  path_resolve cwd p = base ++ ".dh" :: rest → rest ≠ [] → Forall clean (".dh" :: rest) →
  (∀ c, os_tree w !! (base ++ [".dh"]) ≠ Some (File c)) → write_file cwd p text w = (Ret u, w') →
  os_tree w' !! (base ++ ".dh" :: rest) = Some (File text) ∧ same_sources cwd repoRoot w w' ∧ clean_names w' ∧ is_dir (os_tree w') base = true.
Proof.
  intros Hc Hd Hp Hne Hclean Hno Hw. pose proof (write_ret _ _ _ _ _ _ Hw) as (Ht & _ & _). rewrite Hp in Ht.
  assert (∀ q, q ≠ base ++ ".dh" :: rest → os_tree w' !! q = os_tree w !! q) as Hother by (intros q Hq; by rewrite Ht, lookup_insert_ne).
  assert (∀ r, head r ≠ Some ".dh" → base ++ r ≠ base ++ ".dh" :: rest) as Houtside by (intros r Hr E%app_inv_head; by subst).
  split_and!.
  - rewrite Ht. apply lookup_insert_eq.
  - split; [..|done|].
    + intros r Hr Hh. by rewrite Hother by (by apply Houtside).
    + intros r c Hrn Hr Hh. eapply write_keeps_times; [exact Hw|rewrite Hp; by apply Houtside|done].
    + intros c. rewrite Hother; [done|]. intros E%app_inv_head. by destruct rest.
  - intros q. destruct (decide (q = base ++ ".dh" :: rest)) as [->|Hq].
    + intros _. apply Forall_app. split; [by eapply base_clean|done].
    + rewrite Hother by done. apply Hc.
  - destruct (decide (base = [])) as [E|Hb]; [by rewrite E|]. rewrite is_dir_entry in Hd |- * by done. rewrite Hother; [done|].
    intros E. apply (f_equal length) in E. rewrite length_app in E. simpl in E. lia.
Qed.

Lemma same_sources_trans w w1 w2 : same_sources cwd repoRoot w w1 → same_sources cwd repoRoot w1 w2 → same_sources cwd repoRoot w w2.
Proof.
  intros H1 H2. split; [..|apply (ss_before _ _ _ _ H1)|apply (ss_after _ _ _ _ H2)].
  - intros r Hr Hh. by rewrite (ss_tree _ _ _ _ H2), (ss_tree _ _ _ _ H1).
  - intros r c Hr Hc Hh. rewrite (ss_times _ _ _ _ H2 r c Hr), (ss_times _ _ _ _ H1 r c Hr); [done..| |done].
    by rewrite (ss_tree _ _ _ _ H1).
Qed.
End cache.

Section state.
Context `{SearchEnvLaws} `{OsEnv} (sha256 : string → string) (JSON_parse : string → option json) (dir_size : nat) (cwd : Path).
Context (repoRoot : string).
Abbreviation base := (path_resolve cwd repoRoot).
Abbreviation list_files w := (listFiles cwd w repoRoot).
Abbreviation print w := (print_of dir_size cwd repoRoot w).
Abbreviation check := (checkWorkspaceFreshness sha256 JSON_parse dir_size cwd repoRoot).
Abbreviation current w files := (current_of sha256 dir_size cwd repoRoot w files).

(** The document that stores the fingerprint of [w]. *)
Definition state_document (w : OsWorld) (files : list string) : json :=
  stored_fingerprint (current w files) ((λ f, (f, print w f or_else "")) <$> files).


Lemma same_sources_tick w w' : same_sources cwd repoRoot (tick w) w' → same_sources cwd repoRoot w w'.
Proof. intros []. by constructor. Qed.

Lemma print_after w w' files : same_sources cwd repoRoot w w' → clean_names w → clean_names w' → is_dir (os_tree w) base = true →
  is_dir (os_tree w') base = true → list_files w = Ret files → Forall (λ f, print w' f = print w f) files.
Proof using H0 sha256.
  intros Hs Hw Hw' Hd Hd' Hf. destruct (fingerprint_same sha256 dir_size cwd repoRoot w w' Hs Hw Hw' Hd Hd') as (files' & Hf' & _ & _ & Hp).
  rewrite Hf in Hf'. by injection Hf' as <-.
Qed.

(** What the state file holds after it was written. *)
Lemma prior_written w u w' files : clean_names w → is_dir (os_tree w) base = true → list_files w = Ret files →
  Forall (λ f, is_Some (print w f)) files →
  writePrior dir_size cwd repoRoot (current w files) (tick w) = (Ret u, w') →
  os_tree w' !! state_file cwd repoRoot = Some (File (document_text (state_document w files))) ∧
  same_sources cwd repoRoot w w' ∧ clean_names w' ∧ is_dir (os_tree w') base = true.
Proof using H0.
  intros Hw Hd Hf Hprints. unfold writePrior. intros ([] & w1 & Hmk & Hrun)%bind_ret_inv.
  destruct (dirs_made cwd repoRoot (tick w) _ _ _ _ Hw Hd (resolve_cache cwd repoRoot) (Forall_take _ 2 _ cache_names) Hmk) as (Hs & Hw1 & Hd1). apply same_sources_tick in Hs.
  pose proof (print_after w w1 files Hs Hw Hw1 Hd Hd1 Hf) as Hsame.
  apply bind_ret_inv in Hrun as (prints & w2 & Hread & Hwrite). unfold reads in Hread. injection Hread as Hread ->.
  rewrite (try_map_ret _ (λ f, (f, print w f or_else ""))) in Hread.
  2:{ apply Forall_forall. intros f Hin. rewrite Forall_forall in Hprints, Hsame. rewrite <-(Hsame f Hin). destruct (Hprints f Hin) as [s Hp].
      rewrite <-(Hsame f Hin) in Hp. rewrite Hp. unfold print_of in Hp. destruct (fileFingerprint _ _ _ _ _); [|done]. by injection Hp as ->. }
  injection Hread as <-. destruct (write_below_dh cwd repoRoot _ _ _ _ _ _ Hw1 Hd1 (resolve_state cwd repoRoot) ltac:(done) cache_names
    (ss_after _ _ _ _ Hs) Hwrite) as (? & Hs' & ? & ?). split_and!; [done| |done|done]. by eapply same_sources_trans.
Qed.
End state.

Section tracks.
Context `{SearchEnvLaws} `{OsEnv} (sha256 : string → string) (JSON_parse : string → option json) (dir_size : nat) (cwd : Path).
Context (repoRoot : string).
Abbreviation base := (path_resolve cwd repoRoot).
Abbreviation list_files w := (listFiles cwd w repoRoot).
Abbreviation print w := (print_of dir_size cwd repoRoot w).
Abbreviation check := (checkWorkspaceFreshness sha256 JSON_parse dir_size cwd repoRoot).
Abbreviation hash w files := (hashed sha256 dir_size cwd repoRoot w files).
Abbreviation document w files := (state_document sha256 dir_size cwd repoRoot w files).

#[local] Set Default Proof Using "All".

(** Reading the state file back. *)
Lemma prior_read w doc : os_tree w !! state_file cwd repoRoot = Some (File (document_text doc)) →
  JSON_parse (document_text doc) = Some doc → readPrior JSON_parse cwd repoRoot w = (Ret (Some doc), w).
Proof.
  intros Hs Hp. unfold readPrior, read_document, mbind, M_bind, gets, reads. rewrite resolve_state.
  assert (state_file cwd repoRoot ≠ []) as Hne by (unfold state_file; by destruct base).
  assert (existsSync (state_file cwd repoRoot) (os_tree w) = true) as ->.
  { unfold existsSync. rewrite Hs. rewrite (bool_decide_eq_true_2 (is_Some _)) by done. apply orb_true_r. }
  assert (readFileSync (state_file cwd repoRoot) (os_tree w) = (Ret (document_text doc), os_tree w)) as Hread.
  { unfold readFileSync. rewrite is_dir_entry by done. by rewrite Hs. }
  cbn [negb]. rewrite Hread. cbn [fst]. by rewrite Hp.
Qed.

Lemma prior_world w prior w' : readPrior JSON_parse cwd repoRoot w = (Ret prior, w') → w' = w.
Proof.
  unfold readPrior, read_document, mbind, M_bind, gets, reads. destruct (negb _); [by intros [= _ <-]|].
  destruct (fst _) as [text|]; [|done]. destruct (JSON_parse text); [|done]. by intros [= _ <-].
Qed.

(** Which files a changed workspace reports: the new ones, and the ones whose
    size or time is not the stored one. *)
Lemma changed_exact w w2 files files2 : list_files w = Ret files → NoDup files → Forall (λ f, is_Some (print w f)) files →
  Forall (λ f, is_Some (print w2 f)) files2 →
  changedFiles dir_size cwd w2 repoRoot (document w files) files2 =
    Ret (take 50 (filter (λ f, f ∉ files ∨ print w2 f ≠ print w f) files2)).
Proof.
  intros Hf Hnd Hp Hp2. unfold changedFiles.
  assert (set_values (json_get "files" (document w files)) = Ret (JStr <$> files)) as -> by done.
  rewrite (try_filter_ret _ (λ f, f ∉ files ∨ print w2 f ≠ print w f)); [done|]. apply Forall_forall. intros f Hf2.
  rewrite Forall_forall in Hp, Hp2. destruct (Hp2 f Hf2) as [s2 Hs2]. unfold differs. rewrite existsb_names.
  case_bool_decide as Hin; cbn [negb]; [|f_equal; symmetry; apply bool_decide_eq_true; by left].
  destruct (Hp f Hin) as [s Hs]. 
  assert (json_get "fileFingerprints" (document w files) = Some (fromEntries ((λ f, (f, JStr (print w f or_else ""))) <$> files))) as ->.
  { unfold state_document, stored_fingerprint. rewrite <-list_fmap_compose. reflexivity. }
  cbn [member]. rewrite (get_entry f (JStr s)).
  - unfold print_of in Hs2 |- *. destruct (fileFingerprint _ _ w2 _ f) as [s2'|]; [|done]. injection Hs2 as ->. cbn.
    f_equal. fold (print w f). rewrite Hs. destruct (String.eqb_spec s2 s) as [->|Hne]; symmetry;
      [apply bool_decide_eq_false; naive_solver|apply bool_decide_eq_true; right; congruence].
  - rewrite <-list_fmap_compose. by rewrite list_fmap_id.
  - apply list_elem_of_fmap. exists f. by rewrite Hs.
Qed.

(** C37 The freshness check reports what happened since it was last recorded.  A
    check that records its fingerprint stores it and changes no file outside of
    [.dh], and every later check of a workspace whose state file is as it was
    left returns: it is fresh exactly when the fingerprints agree, which they do
    while no file outside of [.dh] changes; and if not, it lists the first fifty
    files, in order, that are new or have another size or time than they had
    then. *)
Theorem freshness_tracks w r w1 files :
  check true w = (Ret r, w1) → clean_names w → is_dir (os_tree w) base = true → list_files w = Ret files →
  JSON_parse (document_text (document w files)) = Some (document w files) →
  fr_workspaceFingerprint r = hash w files ∧ same_sources cwd repoRoot w w1 ∧ clean_names w1 ∧ is_dir (os_tree w1) base = true ∧
  ∀ w2, os_tree w2 !! state_file cwd repoRoot = os_tree w1 !! state_file cwd repoRoot →
    clean_names w2 → is_dir (os_tree w2) base = true →
    ∃ files2 r2 w3, list_files w2 = Ret files2 ∧ check false w2 = (Ret r2, w3) ∧
      fr_previousFingerprint r2 = Some (JStr (fr_workspaceFingerprint r)) ∧
      fr_status r2 = (if decide (fr_workspaceFingerprint r2 = fr_workspaceFingerprint r) then fresh else changed) ∧
      fr_changedFiles r2 = (if decide (fr_workspaceFingerprint r2 = fr_workspaceFingerprint r) then []
                            else take 50 (filter (λ f, f ∉ files ∨ print w2 f ≠ print w f) files2)) ∧
      (same_sources cwd repoRoot w w2 → fr_status r2 = fresh).
Proof.
  intros Hcheck Hw Hd Hf Hparse.
  destruct (listing dir_size cwd repoRoot w Hw Hd) as (files' & Hf' & Hnd & _ & Hp). rewrite Hf in Hf'. injection Hf' as <-.
  unfold checkWorkspaceFreshness in Hcheck. rewrite (bind_run _ _ _ _ _ (compute_run sha256 dir_size cwd repoRoot w files Hf Hp)) in Hcheck.
  apply bind_ret_inv in Hcheck as (prior & wr & Hread & Hcheck).
  apply prior_world in Hread as ->.
  apply bind_ret_inv in Hcheck as (lst & wc & Hlist & Hcheck).
  assert (wc = tick w) as ->.
  { revert Hlist. destruct prior as [v|]; [|by intros [= _ <-]]. case_decide; [|by intros [= _ <-]]. unfold reads. by intros [= _ <-]. }
  apply bind_ret_inv in Hcheck as ([] & w1' & Hwrite & Hcheck). injection Hcheck as <- <-. cbn [fr_workspaceFingerprint].
  destruct (prior_written sha256 dir_size cwd repoRoot w _ _ files Hw Hd Hf Hp Hwrite) as (Hstate & Hs1 & Hw1 & Hd1).
  split_and!; [done..|]. intros w2 Hsame Hw2 Hd2. rewrite Hstate in Hsame.
  destruct (listing dir_size cwd repoRoot w2 Hw2 Hd2) as (files2 & Hf2 & _ & _ & Hp2). exists files2.
  pose proof (compute_run sha256 dir_size cwd repoRoot w2 files2 Hf2 Hp2) as Hrun2.
  pose proof (prior_read (tick w2) (document w files) Hsame Hparse) as Hread2.
  set (current2 := current_of sha256 dir_size cwd repoRoot w2 files2) in *.
  assert (freshness_status (Some (document w files)) current2 = if decide (hash w2 files2 = hash w files) then fresh else changed) as Hst.
  { change (freshness_status (Some (document w files)) current2) with
      (if String.eqb (hash w2 files2) (hash w files) then fresh else changed).
    destruct (String.eqb_spec (hash w2 files2) (hash w files)) as [Eh|Eh]; [by rewrite decide_True|by rewrite decide_False]. }
  exists (mkFreshness (freshness_status (Some (document w files)) current2) (hash w2 files2) (Some (JStr (hash w files))) (length files2)
    (if decide (hash w2 files2 = hash w files) then [] else take 50 (filter (λ f, f ∉ files ∨ print w2 f ≠ print w f) files2))
    (fp_generatedAt current2)), (tick w2).
  split_and!; [done| |done|exact Hst|done|].
  - unfold checkWorkspaceFreshness. rewrite (bind_run _ _ _ _ _ Hrun2), (bind_run _ _ _ _ _ Hread2). fold current2.
    rewrite Hst. case_decide as Heq.
    + done.
    + rewrite decide_True by done. unfold mbind at 1, M_bind at 1, reads. cbn [fp_files current2 current_of].
      rewrite (changed_exact w (tick w2) files files2 Hf Hnd Hp Hp2). done.
  - intros Hs. cbn [fr_status]. rewrite Hst. destruct (fingerprint_same sha256 dir_size cwd repoRoot w w2 Hs Hw Hw2 Hd Hd2) as (files3 & Hf3 & Hf4 & Hh & _).
    rewrite Hf in Hf3. injection Hf3 as <-. rewrite Hf2 in Hf4. injection Hf4 as ->. by rewrite decide_True.
Qed.
End tracks.

(** ** A workspace *)

Definition sources : FileSystem := <[["r"] := Dir]> (<[["r"; "a.ts"] := File "a"]> (<[["r"; "b.ts"] := File "bb"]> ∅)).
Definition checked_world : OsWorld := mkOs sources (λ _, mkTimes 5 5) [] 0 0.
Definition checked_document : json := state_document (λ s, s) 4096 [] "/r" checked_world ["a.ts"; "b.ts"].
Definition demo_check (update : bool) (w : OsWorld) : outcome WorkspaceFreshnessReport * OsWorld :=
  checkWorkspaceFreshness (λ s, s) (λ _, Some checked_document) 4096 [] "/r" update w.

Definition clean_name (s : string) : bool := bool_decide (s ≠ "" ∧ s ≠ "." ∧ s ≠ "..") && negb (has_char SLASH s).

Lemma clean_names_check w : forallb (λ kv, forallb clean_name kv.1) (map_to_list (os_tree w)) = true → clean_names w.
Proof.
  intros Hall p [e He]. rewrite forallb_forall in Hall.
  assert (forallb clean_name p = true) as Hp by (apply (Hall (p, e)), list_elem_of_In, elem_of_map_to_list, He).
  rewrite forallb_forall in Hp. apply Forall_forall. intros s Hs. apply clean_check, Hp. by apply list_elem_of_In.
Qed.

Lemma freshness_tracks_witness : ∃ r w1, demo_check true checked_world = (Ret r, w1) ∧
  fr_status r = first_run ∧ same_sources [] "/r" checked_world w1 ∧
  ∃ r2, fst (demo_check false w1) = Ret r2 ∧ fr_status r2 = fresh.
Proof.
  destruct (demo_check true checked_world) as [[r|e] w1] eqn:E.
  - assert (fr_status r = first_run) as Hst.
    { apply (f_equal (λ o, match fst o with Ret r => Some (fr_status r) | Throw _ => None end)) in E. vm_compute in E. by injection E. }
    destruct (freshness_tracks (λ s, s) (λ _, Some checked_document) 4096 [] "/r" checked_world r w1 ["a.ts"; "b.ts"] E)
      as (_ & Hs & Hw1 & Hd1 & Hlater); [apply clean_names_check; vm_compute; reflexivity|vm_compute; reflexivity|vm_compute; reflexivity|reflexivity|].
    exists r, w1. split; [reflexivity|]. split; [exact Hst|]. split; [exact Hs|].
    destruct (Hlater w1 eq_refl Hw1 Hd1) as (files2 & r2 & w3 & _ & Hrun & _ & _ & _ & Hfresh).
    exists r2. split; [exact (f_equal fst Hrun)|exact (Hfresh Hs)].
  - exfalso. apply (f_equal (λ r, match fst r with Ret _ => true | Throw _ => false end)) in E. vm_compute in E. discriminate E.
Defined.

(** A deleted file makes the workspace changed, but is not among the changed
    files. *)
Example deletion_not_listed :
  let w1 := snd (demo_check true checked_world) in
  match fst (demo_check false (set_tree (delete ["r"; "b.ts"] (os_tree w1)) w1)) with
  | Ret r => fr_status r = changed ∧ fr_changedFiles r = []
  | Throw _ => False
  end.
Proof. vm_compute. split; reflexivity. Qed.

(** Keys that are array indices come first. *)
Example index_keys_first :
  fromEntries [("b", JNull); ("10", JNull); ("9", JNull); ("01", JNull)] = JObj [("9", JNull); ("10", JNull); ("b", JNull); ("01", JNull)].
Proof. vm_compute. reflexivity. Qed.
