(* ===== verification/ContextPlanner.v ===== *)
(** * Context planning

    [packages/runtime/src/context/context-planner.ts] with the types of
    [packages/shared/src/types/context.ts]: the evidence ledger of a query, its
    report, and the caches below [.dh].

    A run of [Retrieval] works on the tree of the disk of [Worktree] and on the
    store of [Semantic].  The names of files are at most 255 bytes long, as the
    common file systems have it.  The printing of scores is a parameter, and the
    others are those of [Freshness] and [Retrieval]. *)

From S2P Require Import Prelude Json Domain Store Regex Planner Bootstrap Heap Hnsw Files ScanPaths SearchTools Chunker Projects Semantic Retrieval.
From S2P Require Import Worktree Maintenance Freshness.
From Stdlib Require Import Ascii String ZArith SpecFloat Sorted.
From stdpp Require Import prelude list strings gmap pretty sorting.
Set Default Goal Selector "!".
Set Default Proof Using "Type".
Set Warnings "-clear-no-such-hyp".
#[local] Arguments String.append : simpl nomatch.
#[local] Open Scope nat_scope.

(** ** Types *)

Record ContextLedgerEntry : Type := mkEntry {
  ce_id : string;
  ce_filePath : string;
  ce_lineRange : Z * Z;
  ce_reason : string;
  ce_score : double;
  ce_source : string;
  ce_symbolName : option string;
}.

Record ContextLedger : Type := mkLedger { le_id : string; le_entries : list ContextLedgerEntry }.

Record ContextCoverageWarning : Type := mkContextWarning { cw_code : string; cw_message : string; cw_details : option json }.

Inductive BudgetMode : Type := budget_fast | budget_normal | budget_deep.

Definition budget_name (b : BudgetMode) : string :=
  match b with budget_fast => "fast" | budget_normal => "normal" | budget_deep => "deep" end.

(** The input together with the root of the repository. *)
Record ContextInspectInput : Type := mkInspectInput {
  ci_query : string;
  ci_repoRoot : string;
  ci_mode : option RetrievalMode;
  ci_semanticMode : option SemanticMode;
  ci_budgetMode : option BudgetMode;
  ci_scanOptions : option ScanOptions;
}.

Record ContextCoverage : Type := mkCoverage { cv_included : nat; cv_skipped : Z; cv_warnings : list ContextCoverageWarning }.

Record LatencyMs : Type := mkLatency { lm_fingerprint : Z; lm_retrieval : Z; lm_planning : Z; lm_total : Z }.

(** The report of a query that was not in the cache. *)
Record ContextInspectReport : Type := mkContextReport {
  cr_query : string;
  cr_ledger : ContextLedger;
  cr_coverage : ContextCoverage;
  cr_fingerprint : string;
  cr_latency : LatencyMs;
  cr_generatedAt : string;
}.

(** What an inspection returns: a report of its own, or the members of the cached
    one with new times. *)
Inductive Inspection : Type :=
| planned_report (report : ContextInspectReport)
| cached_report (report : json).

(** ** Documents *)

Definition Z_pair_json (r : Z * Z) : json := JArr [JInt r.1; JInt r.2].

Definition latency_json (l : LatencyMs) : json :=
  JObj [("latencyMs", JObj [("fingerprint", JInt (lm_fingerprint l)); ("retrieval", JInt (lm_retrieval l));
                            ("planning", JInt (lm_planning l)); ("total", JInt (lm_total l))])].

Definition cache_json (status fingerprint : string) : json :=
  JObj [("status", JStr status); ("workspaceFingerprint", JStr fingerprint)].

Definition context_warning_json (w : ContextCoverageWarning) : json :=
  JObj ([("code", JStr (cw_code w)); ("message", JStr (cw_message w))] ++ opt_member "details" (cw_details w)).

Definition coverage_json (c : ContextCoverage) : json :=
  JObj [("included", JInt (Z.of_nat (cv_included c))); ("skipped", JInt (cv_skipped c));
        ("warnings", JArr (context_warning_json <$> cv_warnings c))].

Definition symbol_json (s : IndexedSymbol) : json :=
  JObj [("id", JStr (s_id s)); ("fileId", JStr (s_fileId s)); ("name", JStr (s_name s));
        ("kind", JStr (symbol_kind_name (s_kind s))); ("lineStart", JInt (s_lineStart s)); ("lineEnd", JInt (s_lineEnd s))].

Definition edge_json (e : IndexedEdge) : json :=
  JObj [("id", JStr (ie_id e)); ("fromId", JStr (ie_fromId e)); ("toId", JStr (ie_toId e)); ("kind", JStr (edge_kind_name (ie_kind e)))].

(** A score that is not finite is printed as [null]. *)
Definition score_json (number_text : double → string) (x : double) : json :=
  match x with
  | S754_zero _ | S754_finite _ _ _ => JNum (number_text x)
  | _ => JNull
  end.

Section documents.
Context (number_text : double → string).

Definition entry_json (e : ContextLedgerEntry) : json :=
  JObj ([("id", JStr (ce_id e)); ("filePath", JStr (ce_filePath e)); ("lineRange", Z_pair_json (ce_lineRange e));
         ("reason", JStr (ce_reason e)); ("score", score_json number_text (ce_score e)); ("source", JStr (ce_source e))]
        ++ opt_str "symbolName" (ce_symbolName e)).

Definition ledger_json (l : ContextLedger) : json :=
  JObj [("id", JStr (le_id l)); ("entries", JArr (entry_json <$> le_entries l))].

Definition context_report_json (r : ContextInspectReport) : json :=
  JObj [("query", JStr (cr_query r)); ("ledger", ledger_json (cr_ledger r)); ("coverage", coverage_json (cr_coverage r));
        ("cache", cache_json "miss" (cr_fingerprint r)); ("metrics", latency_json (cr_latency r));
        ("generatedAt", JStr (cr_generatedAt r))].

Definition inspection_json (i : Inspection) : json :=
  match i with planned_report r => context_report_json r | cached_report v => v end.
End documents.

(** [{ ...value }]: the own members of a value. *)
Definition spread (v : json) : list (string * json) :=
  match v with
  | JObj members => members
  | JArr items => imap (λ i x, (pretty i, x)) items
  | JStr s => imap (λ i c, (pretty i, JStr (String c ""))) (list_ascii_of_string s)
  | _ => []
  end.

(** ** Names *)

Definition base64url_digit (n : nat) : ascii :=
  ascii_of_nat (if n <? 26 then 65 + n else if n <? 52 then 97 + (n - 26) else if n <? 62 then 48 + (n - 52)
                else if n =? 62 then 45 else 95).

(** [Buffer.from(s).toString("base64url")]: six bits a character, no padding. *)
Fixpoint base64url (bytes : list ascii) : string :=
  match bytes with
  | a :: b :: c :: bytes =>
    let a := nat_of_ascii a in let b := nat_of_ascii b in let c := nat_of_ascii c in
    String (base64url_digit (a / 4)) (String (base64url_digit (a mod 4 * 16 + b / 16))
      (String (base64url_digit (b mod 16 * 4 + c / 64)) (String (base64url_digit (c mod 64)) (base64url bytes))))
  | [a; b] =>
    let a := nat_of_ascii a in let b := nat_of_ascii b in
    String (base64url_digit (a / 4)) (String (base64url_digit (a mod 4 * 16 + b / 16)) (String (base64url_digit (b mod 16 * 4)) ""))
  | [a] =>
    let a := nat_of_ascii a in
    String (base64url_digit (a / 4)) (String (base64url_digit (a mod 4 * 16)) "")
  | [] => ""
  end.

Definition cache_key (workspaceFingerprint query budgetMode : string) : string :=
  base64url (list_ascii_of_string (workspaceFingerprint +:+ ":" +:+ budgetMode +:+ ":" +:+ query)).

Definition CACHE_DIR (repoRoot : string) : string := path_join_all repoRoot [".dh"; "cache"; "context-rankings"].

Definition cachePath (repoRoot workspaceFingerprint query budgetMode : string) : string :=
  path_join_all repoRoot [".dh"; "cache"; "context-rankings"; cache_key workspaceFingerprint query budgetMode +:+ ".json"].

Definition maxEvidenceForBudget (mode : BudgetMode) : nat :=
  match mode with budget_fast => 4 | budget_deep => 24 | budget_normal => 12 end.

Definition normalizeSource (sourceTool : string) : string :=
  if String.eqb sourceTool "symbol_search" then "symbol"
  else if String.eqb sourceTool "reference_search" then "reference"
  else if String.eqb sourceTool "graph_expand" then "graph"
  else if String.eqb sourceTool "lsp_diagnostics" then "lsp_diagnostics"
  else if includes sourceTool "semantic" then "semantic"
  else if includes sourceTool "keyword" then "keyword"
  else sourceTool.

(** [/[A-Za-z0-9_.\-\/]+\.[A-Za-z0-9]+/]. *)
Definition mention_re : regex :=
  seqs [RPlus (RClass (λ c, alphanumeric c || has_char c "_.-/")); lit "."; RPlus (RClass alphanumeric)].

(** [mention.replace(/^\.?\//, "")]. *)
Definition drop_leading_slash (mention : string) : string :=
  match mention with
  | String "." (String "/" rest) => rest
  | String "/" rest => rest
  | _ => mention
  end.

(** ** The world *)

(** The disk and the store of the semantic index. *)
Record PlannerWorld : Type := mkPlanner { pw_os : OsWorld; pw_store : SemanticStore }.

Definition on_os {A : Type} (m : M OsWorld A) : M PlannerWorld A := λ w,
  let '(o, os) := m (pw_os w) in (o, mkPlanner os (pw_store w)).

Definition on_store {A : Type} (m : SM A) : M PlannerWorld A := λ w,
  let '(o, s) := m (pw_store w) in (o, mkPlanner (pw_os w) s).

(** The longest name of a file. *)
Definition NAME_MAX : nat := 255.

Section planner.
Context `{Env} `{Random} `{SearchEnv} `{OsEnv}.
Context (toFixed3 : double → string) (sha256 : string → string) (elapsed : nat → double) (locale_le : string → string → bool).
Context (env : ProcessEnv) (cwd : Path) (extractSymbols : string → list IndexedFile → list IndexedSymbol) (provider : EmbeddingProvider).
Context (JSON_parse : string → option json) (dir_size : nat) (number_text : double → string).

Definition long_name (p : string) : bool := NAME_MAX <? String.length (last (path_resolve cwd p) or_else "").

(** [fs.writeFileSync]. *)
Definition write_named (p text : string) : M PlannerWorld () :=
  if long_name p then throw "ENAMETOOLONG" else on_os (write_file cwd p text).

(** [fs.existsSync]. *)
Definition exists_named (p : string) (w : PlannerWorld) : bool :=
  negb (long_name p) && existsSync (path_resolve cwd p) (os_tree (pw_os w)).

Definition readRankingCache (repoRoot workspaceFingerprint query budgetMode : string) : M PlannerWorld (option json) :=
  let file := cachePath repoRoot workspaceFingerprint query budgetMode in
  present ← gets (exists_named file);
  if negb present then mret None
  else v ← on_os (read_document JSON_parse cwd file); mret (Some v).

Definition toLedgerEntry (result : NormalizedRetrievalResult) : M PlannerWorld ContextLedgerEntry :=
  id ← on_store (Semantic.draw "evidence");
  mret (mkEntry id (nr_filePath result) (nr_lineRange result) (nr_matchReason result) (nr_normalizedScore result)
    (normalizeSource (nr_sourceTool result)) (nr_symbolName result)).

(** Whether a mention names something that exists, as far as a comparison of the
    two paths as texts tells, in the repository. *)
Definition mention_exists (repoRoot normalized : string) (w : PlannerWorld) : bool :=
  let root := path_resolve cwd repoRoot in
  let absolute := path_resolve root normalized in
  startsWith (path_string absolute) (path_string root) && existsSync absolute (os_tree (pw_os w)).

Definition mention_entry (normalized id : string) : ContextLedgerEntry :=
  mkEntry id normalized (1, 80)%Z "Explicit file mention in user query." (d_of_Z 1) "file_mention" None.

Definition fileMentionEntries (repoRoot query : string) : M PlannerWorld (list ContextLedgerEntry) :=
  fold_each (λ entries mention,
    let normalized := drop_leading_slash mention in
    found ← gets (mention_exists repoRoot normalized);
    if negb found then mret entries
    else id ← on_store (Semantic.draw "evidence"); mret (entries ++ [mention_entry normalized id])) [] (match_all mention_re query).

Definition entry_key (e : ContextLedgerEntry) : string :=
  ce_filePath e +:+ ":" +:+ pretty (ce_lineRange e).1 +:+ ":" +:+ pretty (ce_lineRange e).2 +:+ ":" +:+ ce_source e.

Definition dedupeEntries (entries : list ContextLedgerEntry) (maxEvidence : nat) : list ContextLedgerEntry :=
  take maxEvidence (first_of_keys entry_key [] (js_sort (score_ge ce_score) entries)).

Definition coverageWarnings (retrieval : RetrievalRun) (entries : list ContextLedgerEntry) : list ContextCoverageWarning :=
  (if rr_reducedCoverage retrieval
   then [mkContextWarning "reduced_scan_coverage" "Workspace scan was truncated; context may be incomplete."
           (Some (JObj [("stopReasons", strings_json (stop_reason_name <$> rr_stopReasons retrieval))]))]
   else [])
  ++ ((λ reason, mkContextWarning "scan_stopped" ("Workspace scan stopped early: " +:+ stop_reason_name reason +:+ ".")
                   (Some (JObj [("reason", JStr (stop_reason_name reason))]))) <$> rr_stopReasons retrieval)
  ++ (if de_available (rr_dependencyGraph retrieval) then []
      else [mkContextWarning "dependency_graph_unavailable"
              ("Dependency graph unavailable: " +:+ de_reason (rr_dependencyGraph retrieval) +:+ ".")
              (Some (JObj [("source", JStr (de_source (rr_dependencyGraph retrieval)))]))])
  ++ [mkContextWarning "lsp_unconfigured"
        "LSP diagnostics were not included because no live LSP client was configured for context planning." None]
  ++ (match entries with [] => [mkContextWarning "no_evidence" "No context evidence matched the query." None] | _ => [] end)
  ++ (if length entries <? length (rr_results retrieval)
      then [mkContextWarning "truncated_context" "Some retrieval results were skipped by the context ledger budget."
              (Some (JObj [("skipped", JInt (Z.of_nat (length (rr_results retrieval)) - Z.of_nat (length entries)))]))]
      else []).

Definition writeContextLedger (repoRoot : string) (report : ContextInspectReport) : M PlannerWorld () :=
  on_os (mkdir_p cwd (path_join_all repoRoot [".dh"; "context-ledgers"]));;
  write_named (path_join_all repoRoot [".dh"; "context-ledgers"; le_id (cr_ledger report) +:+ ".json"])
    (document_text (context_report_json number_text report)).

Definition writeRankingCache (repoRoot workspaceFingerprint query budgetMode : string) (report : ContextInspectReport) : M PlannerWorld () :=
  on_os (mkdir_p cwd (CACHE_DIR repoRoot));;
  write_named (cachePath repoRoot workspaceFingerprint query budgetMode) (document_text (context_report_json number_text report)).

Definition writeSymbolGraphCache (repoRoot workspaceFingerprint : string) (payload : json) : M PlannerWorld () :=
  on_os (mkdir_p cwd (path_join_all repoRoot [".dh"; "cache"; "symbol-graph"]));;
  write_named (path_join_all repoRoot [".dh"; "cache"; "symbol-graph"; workspaceFingerprint +:+ ".json"]) (document_text payload).

Definition symbol_graph_json (generatedAt : string) (retrieval : RetrievalRun) : json :=
  let edges := de_edges (rr_dependencyGraph retrieval) in
  JObj [("generatedAt", JStr generatedAt); ("symbolCount", JInt (Z.of_nat (length (rr_symbols retrieval))));
        ("edgeCount", JInt (Z.of_nat (length edges))); ("symbols", JArr (symbol_json <$> rr_symbols retrieval));
        ("edges", JArr (edge_json <$> edges))].

(** A cached report with the times of this inspection. *)
Definition from_cache (cached : json) (generatedAt workspaceFingerprint : string) (fingerprintMs total : Z) : json :=
  JObj (set_member "metrics" (latency_json (mkLatency fingerprintMs 0 0 total))
          (set_member "cache" (cache_json "hit" workspaceFingerprint)
             (set_member "generatedAt" (JStr generatedAt) (spread cached)))).

(** The run of the retrieval on the files as they are. *)
Definition retrieve (input : RetrievalInput) : M PlannerWorld RetrievalRun := λ w,
  on_store (runRetrieval toFixed3 sha256 elapsed locale_le env cwd (os_tree (pw_os w)) extractSymbols provider input) w.

(** The inspection of a query that is not in the cache. *)
Definition plan_context (input : ContextInspectInput) (query workspaceFingerprint : string) (budgetMode : BudgetMode)
    (totalStart fingerprintMs : Z) : M PlannerWorld ContextInspectReport :=
  let repoRoot := ci_repoRoot input in
  retrievalStart ← on_os Date_now;
  retrieval ← retrieve (mkRetrievalInput repoRoot query (ci_mode input or_else mode_ask) (Some (ci_semanticMode input or_else auto))
                          (ci_scanOptions input) None);
  retrievalEnd ← on_os Date_now;
  planningStart ← on_os Date_now;
  ledgerEntries ← fold_each (λ entries result, entry ← toLedgerEntry result; mret (entries ++ [entry])) [] (rr_results retrieval);
  mentions ← fileMentionEntries repoRoot query;
  let entries := dedupeEntries (ledgerEntries ++ mentions) (maxEvidenceForBudget budgetMode) in
  let warnings := coverageWarnings retrieval entries in
  graphAt ← on_os new_Date_ISO;
  writeSymbolGraphCache repoRoot workspaceFingerprint (symbol_graph_json graphAt retrieval);;
  ledgerId ← on_store (Semantic.draw "context-ledger");
  planningEnd ← on_os Date_now;
  totalEnd ← on_os Date_now;
  generatedAt ← on_os new_Date_ISO;
  let report := mkContextReport query (mkLedger ledgerId entries)
    (mkCoverage (length entries) (Z.max 0 (Z.of_nat (length (rr_results retrieval)) - Z.of_nat (length entries))) warnings)
    workspaceFingerprint
    (mkLatency fingerprintMs (retrievalEnd - retrievalStart) (planningEnd - planningStart) (totalEnd - totalStart)) generatedAt in
  writeContextLedger repoRoot report;;
  writeRankingCache repoRoot workspaceFingerprint query (budget_name budgetMode) report;;
  mret report.

Definition inspectContext (input : ContextInspectInput) : M PlannerWorld Inspection :=
  totalStart ← on_os Date_now;
  let query := trim (ci_query input) in
  if decide (query = "") then throw "context query is required."
  else
    fingerprintStart ← on_os Date_now;
    current ← on_os (computeWorkspaceFingerprint sha256 dir_size cwd (ci_repoRoot input));
    let workspaceFingerprint := fingerprint current in
    fingerprintEnd ← on_os Date_now;
    let fingerprintMs := (fingerprintEnd - fingerprintStart)%Z in
    let budgetMode := ci_budgetMode input or_else budget_normal in
    cached ← readRankingCache (ci_repoRoot input) workspaceFingerprint query (budget_name budgetMode);
    match cached with
    | Some v =>
      if falsy (Some v) then
        report ← plan_context input query workspaceFingerprint budgetMode totalStart fingerprintMs;
        mret (planned_report report)
      else
        generatedAt ← on_os new_Date_ISO;
        totalEnd ← on_os Date_now;
        mret (cached_report (from_cache v generatedAt workspaceFingerprint fingerprintMs (totalEnd - totalStart)))
    | None =>
      report ← plan_context input query workspaceFingerprint budgetMode totalStart fingerprintMs;
      mret (planned_report report)
    end.
End planner.

(** ** Names of cache entries *)

Lemma digit_inj_check : forallb (λ m, forallb (λ n, negb (Ascii.eqb (base64url_digit m) (base64url_digit n)) || (m =? n)) (seq 0 64)) (seq 0 64) = true.
Proof. vm_compute. reflexivity. Qed.

Lemma digit_inj m n : m < 64 → n < 64 → base64url_digit m = base64url_digit n → m = n.
Proof.
  intros Hm Hn E. pose proof digit_inj_check as Hall. rewrite forallb_forall in Hall.
  specialize (Hall m ltac:(apply in_seq; lia)). rewrite forallb_forall in Hall. specialize (Hall n ltac:(apply in_seq; lia)).
  rewrite E, Ascii.eqb_refl in Hall. by apply Nat.eqb_eq.
Qed.

Lemma byte_bound a : nat_of_ascii a < 256.
Proof. apply nat_ascii_bounded. Qed.

Lemma byte_inj a b : nat_of_ascii a = nat_of_ascii b → a = b.
Proof. intros E. by rewrite <-(ascii_nat_embedding a), <-(ascii_nat_embedding b), E. Qed.

(** The two halves that a byte is cut into. *)
Lemma halves_inj k x y : 0 < k → x / k = y / k → x mod k = y mod k → x = y.
Proof. intros Hk Hd Hm. rewrite (Nat.div_mod_eq x k), (Nat.div_mod_eq y k). congruence. Qed.

Lemma mixed_inj k x y x' y' : x < k → x' < k → y * k + x = y' * k + x' → y = y' ∧ x = x'.
Proof. intros Hx Hx' E. assert (y = y') by nia. subst. split; [done|lia]. Qed.

Ltac bytes :=
  repeat match goal with a : ascii |- _ =>
    lazymatch goal with _ : nat_of_ascii a < 256 |- _ => fail | _ => pose proof (byte_bound a) end end.

Lemma sextet_inj m n : m < 64 → n < 64 → base64url_digit m = base64url_digit n → m = n.
Proof. apply digit_inj. Qed.

Lemma three_bytes_bound a b c : a < 256 → b < 256 → c < 256 →
  a / 4 < 64 ∧ a mod 4 * 16 + b / 16 < 64 ∧ b mod 16 * 4 + c / 64 < 64 ∧ c mod 64 < 64 ∧ a mod 4 * 16 < 64 ∧ b mod 16 * 4 < 64 ∧
  b / 16 < 16 ∧ c / 64 < 4.
Proof.
  intros Ha Hb Hc. pose proof (Nat.mod_upper_bound a 4). pose proof (Nat.mod_upper_bound b 16). pose proof (Nat.mod_upper_bound c 64).
  assert (a / 4 < 64) by (apply Nat.Div0.div_lt_upper_bound; lia). assert (b / 16 < 16) by (apply Nat.Div0.div_lt_upper_bound; lia).
  assert (c / 64 < 4) by (apply Nat.Div0.div_lt_upper_bound; lia). lia.
Qed.

Lemma String_inj a b s t : String a s = String b t → a = b ∧ s = t.
Proof. by intros [= -> ->]. Qed.

Lemma base64url_inj n : ∀ l l', length l ≤ n → base64url l = base64url l' → l = l'.
Proof.
  induction n as [|n IH]; intros l l' Hl E.
  { destruct l; [|simpl in Hl; lia]. destruct l' as [|a' [|b' [|c' l']]]; done. }
  destruct l as [|a [|b [|c l]]], l' as [|a' [|b' [|c' l']]]; try discriminate E; cbn [base64url] in E; try done.
  - apply String_inj in E as [E1 E]. apply String_inj in E as [E2 _]. bytes. destruct (three_bytes_bound (nat_of_ascii a) 0 0), (three_bytes_bound (nat_of_ascii a') 0 0); try lia.
    apply digit_inj in E1, E2; try lia. f_equal. apply byte_inj, (halves_inj 4); lia.
  - apply String_inj in E as [E1 E]. apply String_inj in E as [E2 E]. apply String_inj in E as [E3 _]. bytes. destruct (three_bytes_bound (nat_of_ascii a) (nat_of_ascii b) 0), (three_bytes_bound (nat_of_ascii a') (nat_of_ascii b') 0); try lia.
    apply digit_inj in E1, E2, E3; try lia. apply mixed_inj in E2 as [E2 E2']; try lia.
    f_equal; [|f_equal]; apply byte_inj; [apply (halves_inj 4)|apply (halves_inj 16)]; lia.
  - apply String_inj in E as [E1 E]. apply String_inj in E as [E2 E]. apply String_inj in E as [E3 E]. apply String_inj in E as [E4 E]. bytes.
    destruct (three_bytes_bound (nat_of_ascii a) (nat_of_ascii b) (nat_of_ascii c)), (three_bytes_bound (nat_of_ascii a') (nat_of_ascii b') (nat_of_ascii c')); try lia.
    apply digit_inj in E1, E2, E3, E4; try lia. apply mixed_inj in E2 as [E2 E2'], E3 as [E3 E3']; try lia.
    f_equal; [|f_equal; [|f_equal]].
    + apply byte_inj, (halves_inj 4); lia.
    + apply byte_inj, (halves_inj 16); lia.
    + apply byte_inj, (halves_inj 64); lia.
    + apply IH; [simpl in Hl; lia|done].
Qed.

Lemma base64url_length n : ∀ l, length l ≤ n → 4 * length l ≤ 3 * String.length (base64url l) ≤ 4 * length l + 2.
Proof.
  induction n as [|n IH]; intros l Hl; [destruct l; [simpl; lia|simpl in Hl; lia]|].
  destruct l as [|a [|b [|c l]]]; cbn [base64url String.length length]; [lia..|].
  specialize (IH l ltac:(simpl in Hl; lia)). lia.
Qed.

(** The characters of an encoded name. *)
Lemma digit_check : forallb (λ n, negb (Ascii.eqb (base64url_digit n) "/")) (seq 0 64) = true.
Proof. vm_compute. reflexivity. Qed.

Lemma digit_no_slash n : n < 64 → Ascii.eqb (base64url_digit n) "/" = false.
Proof.
  intros Hn. pose proof digit_check as Hall. rewrite forallb_forall in Hall. specialize (Hall n ltac:(apply in_seq; lia)).
  by apply negb_true_iff in Hall.
Qed.

Lemma base64url_no_slash n : ∀ l, length l ≤ n → has_char "/" (base64url l) = false.
Proof.
  induction n as [|n IH]; intros l Hl; [by destruct l; [|simpl in Hl; lia]|].
  destruct l as [|a [|b [|c l]]]; [done|..]; cbn [base64url has_char]; bytes.
  - destruct (three_bytes_bound (nat_of_ascii a) 0 0) as (? & ? & ? & ? & ? & ? & ? & ?); try lia. by rewrite !digit_no_slash by lia.
  - destruct (three_bytes_bound (nat_of_ascii a) (nat_of_ascii b) 0) as (? & ? & ? & ? & ? & ? & ? & ?); try lia. by rewrite !digit_no_slash by lia.
  - destruct (three_bytes_bound (nat_of_ascii a) (nat_of_ascii b) (nat_of_ascii c)) as (? & ? & ? & ? & ? & ? & ? & ?); try lia.
    rewrite !digit_no_slash by lia. apply IH. simpl in Hl. lia.
Qed.

Lemma ascii_list_length s : length (list_ascii_of_string s) = String.length s.
Proof. induction s; simpl; congruence. Qed.

Lemma ascii_list_inj s t : list_ascii_of_string s = list_ascii_of_string t → s = t.
Proof. intros E. by rewrite <-(string_of_list_ascii_of_string s), E, string_of_list_ascii_of_string. Qed.

(** Different workspaces, budgets and queries have different cache entries. *)
Theorem cache_key_inj fp query b fp' query' b' : has_char ":" fp = false → has_char ":" fp' = false →
  cache_key fp query (budget_name b) = cache_key fp' query' (budget_name b') → fp = fp' ∧ b = b' ∧ query = query'.
Proof.
  intros Hf Hf' E. apply (base64url_inj _ _ _ (le_n _)), ascii_list_inj in E.
  assert (∀ s s' t t', has_char ":" s = false → has_char ":" s' = false → s +:+ ":" +:+ t = s' +:+ ":" +:+ t' → s = s' ∧ t = t') as Hcut.
  { induction s as [|c s IH]; intros [|c' s'] t t' Hs Hs' Heq; cbn in Hs, Hs', Heq.
    - by injection Heq.
    - injection Heq as <- _. done.
    - injection Heq as -> _. done.
    - injection Heq as -> Heq. apply orb_false_iff in Hs as [_ Hs], Hs' as [_ Hs']. by destruct (IH s' t t' Hs Hs' Heq) as [-> ->]. }
  apply Hcut in E as [-> E]; [|done..]. apply Hcut in E as [E ->]; [|by destruct b|by destruct b'].
  split_and!; [done| |done]. by destruct b, b'.
Qed.

(** The length of the name of a cache entry. *)
Lemma cache_name_length fp query b : String.length fp = 64 →
  let n := 65 + String.length (budget_name b) + 1 + String.length query in
  4 * n + 15 ≤ 3 * String.length (cache_key fp query (budget_name b) +:+ ".json") ≤ 4 * n + 17.
Proof.
  intros Hfp n. pose proof (base64url_length _ (list_ascii_of_string (fp +:+ ":" +:+ budget_name b +:+ ":" +:+ query)) (le_n _)) as Hl.
  rewrite ascii_list_length in Hl. rewrite !length_append in Hl |- *. unfold cache_key. simpl in *. rewrite ?length_append in Hl. simpl in Hl. unfold n. lia.
Qed.

(** ** What an inspection leaves behind *)

(** The tree and its times stay as they are. *)
Definition same_disk (w w' : PlannerWorld) : Prop :=
  os_tree (pw_os w') = os_tree (pw_os w) ∧ os_times (pw_os w') = os_times (pw_os w).

Definition quiet {A : Type} (m : M PlannerWorld A) : Prop := ∀ w, same_disk w (snd (m w)).

Lemma quiet_ret {A : Type} (a : A) : quiet (mret a).
Proof. by intros w. Qed.

Lemma quiet_gets {A : Type} (f : PlannerWorld → A) : quiet (gets f).
Proof. by intros w. Qed.

Lemma quiet_store {A : Type} (m : SM A) : quiet (on_store m).
Proof. intros w. unfold on_store. by destruct (m (pw_store w)). Qed.

Lemma quiet_bind {A B : Type} (m : M PlannerWorld A) (k : A → M PlannerWorld B) : quiet m → (∀ a, quiet (k a)) → quiet (m ≫= k).
Proof.
  intros Hm Hk w. unfold mbind, M_bind. specialize (Hm w). destruct (m w) as [[a|e] w1]; [|done]. specialize (Hk a w1).
  destruct Hm as [H1 H2], Hk as [H3 H4]. simpl in *. split; congruence.
Qed.

Lemma quiet_fold {A B : Type} (f : B → A → M PlannerWorld B) xs : (∀ b x, quiet (f b x)) → ∀ b, quiet (fold_each f b xs).
Proof. intros Hf. induction xs as [|x xs IH]; intros b; [apply quiet_ret|]. cbn [fold_each]. by apply quiet_bind. Qed.

Lemma quiet_run {A : Type} (m : M PlannerWorld A) w o w' : quiet m → m w = (o, w') → same_disk w w'.
Proof. intros Hm E. specialize (Hm w). by rewrite E in Hm. Qed.

Section quiet.
Context `{OsEnv}.

Lemma quiet_now : quiet (on_os Date_now).
Proof. by intros w. Qed.

Lemma quiet_ISO : quiet (on_os new_Date_ISO).
Proof. by intros w. Qed.
End quiet.

Create HintDb planner.
#[local] Hint Resolve quiet_ret quiet_gets quiet_store quiet_bind quiet_fold quiet_now quiet_ISO : planner.

Section kept.
Context (cwd : Path) (repoRoot : string).
Abbreviation base := (path_resolve cwd repoRoot).

Record disk_ok (w : PlannerWorld) : Prop := mkDiskOk {
  dk_names : clean_names (pw_os w);
  dk_root : is_dir (os_tree (pw_os w)) base = true;
}.

Lemma same_disk_ok w w' : same_disk w w' → disk_ok w → disk_ok w'.
Proof. intros [Ht _] []. split; unfold clean_names in *; by rewrite Ht. Qed.

(** [w'] differs from [w] only below [.dh]. *)
Definition kept (w w' : PlannerWorld) : Prop := same_sources cwd repoRoot (pw_os w) (pw_os w') ∧ disk_ok w'.

Lemma kept_same_l w w1 w2 : same_disk w w1 → kept w1 w2 → kept w w2.
Proof.
  intros [Ht Htm] [[H1 H2 H3 H4] Hok]. split; [|done]. rewrite Ht in H1, H2, H3. rewrite Htm in H2. by constructor.
Qed.

Lemma kept_same_r w w1 w2 : kept w w1 → same_disk w1 w2 → kept w w2.
Proof.
  intros [[H1 H2 H3 H4] Hok] Hsame. split; [|by eapply same_disk_ok]. destruct Hsame as [Ht Htm]. constructor; [..|done|].
  - intros r Hr Hh. rewrite Ht. by apply H1.
  - intros r c Hr Hc Hh. rewrite Htm. by apply (H2 r c Hr).
  - intros c. rewrite Ht. apply H4.
Qed.

Lemma kept_trans w w1 w2 : kept w w1 → kept w1 w2 → kept w w2.
Proof. intros [H1 _] [H2 Hok]. split; [by eapply same_sources_trans|done]. Qed.
End kept.

Section writes.
Context `{OsEnv} (cwd : Path) (repoRoot : string).
Abbreviation base := (path_resolve cwd repoRoot).

Lemma on_os_ret {A : Type} (m : M OsWorld A) w a w' : on_os m w = (Ret a, w') →
  m (pw_os w) = (Ret a, pw_os w') ∧ pw_store w' = pw_store w.
Proof. unfold on_os. destruct (m (pw_os w)) as [o os]. by intros [= -> <-]. Qed.

(** Making a directory below [.dh] and writing a file there. *)
Lemma dh_written w u w' d dir p rest text : disk_ok cwd repoRoot w →
  path_resolve cwd d = base ++ ".dh" :: dir → Forall clean (".dh" :: dir) →
  path_resolve cwd p = base ++ ".dh" :: rest → rest ≠ [] → Forall clean (".dh" :: rest) →
  (on_os (mkdir_p cwd d);; write_named cwd p text) w = (Ret u, w') →
  os_tree (pw_os w') !! (base ++ ".dh" :: rest) = Some (File text) ∧ kept cwd repoRoot w w' ∧ long_name cwd p = false ∧
  pw_store w' = pw_store w ∧ ∀ q, q ≠ base ++ ".dh" :: rest → is_Some (os_tree (pw_os w) !! q) → os_tree (pw_os w') !! q = os_tree (pw_os w) !! q.
Proof.
  intros [Hn Hr] Hd Hdc Hp Hne Hpc. intros ([] & w1 & Hmk & Hw)%bind_ret_inv. apply on_os_ret in Hmk as [Hmk Hs1].
  pose proof (mkdir_p_ret _ _ _ _ _ Hmk) as [_ Ho].
  destruct (dirs_made cwd repoRoot _ _ _ _ _ Hn Hr Hd Hdc Hmk) as (Hs & Hn1 & Hr1).
  unfold write_named in Hw. destruct (long_name cwd p) eqn:El; [done|]. apply on_os_ret in Hw as [Hw Hs2].
  pose proof (write_ret _ _ _ _ _ _ Hw) as (Ht & _). rewrite Hp in Ht.
  destruct (write_below_dh cwd repoRoot _ _ _ _ _ _ Hn1 Hr1 Hp Hne Hpc (ss_after _ _ _ _ Hs) Hw) as (Hl & Hs' & Hn2 & Hr2).
  split_and!; [done|split; [by eapply same_sources_trans|by split]|done|congruence|].
  intros q Hq [e He]. rewrite Ht, lookup_insert_ne by done. by rewrite Ho, He.
Qed.
End writes.

Section pieces.
Context `{Env} (cwd : Path) (repoRoot : string).
Abbreviation base := (path_resolve cwd repoRoot).

Definition cache_file (fp query : string) (b : BudgetMode) : Path :=
  base ++ [".dh"; "cache"; "context-rankings"; cache_key fp query (budget_name b) +:+ ".json"].
Definition ledger_file (id : string) : Path := base ++ [".dh"; "context-ledgers"; id +:+ ".json"].

Lemma quiet_step {A B : Type} (m : M PlannerWorld A) (k : A → M PlannerWorld B) w b w' : quiet m → (m ≫= k) w = (Ret b, w') →
  ∃ a w1, m w = (Ret a, w1) ∧ same_disk w w1 ∧ k a w1 = (Ret b, w').
Proof. intros Hm (a & w1 & Hrun & Hk)%bind_ret_inv. exists a, w1. split_and!; [done|by eapply quiet_run|done]. Qed.

Lemma quiet_entries results entries :
  quiet (fold_each (λ entries result, entry ← toLedgerEntry result; mret (entries ++ [entry])) entries results).
Proof. unfold toLedgerEntry. auto 8 with planner. Qed.

Lemma quiet_mentions query : quiet (fileMentionEntries cwd repoRoot query).
Proof.
  unfold fileMentionEntries. apply quiet_fold. intros es mention. apply quiet_bind; [apply quiet_gets|]. intros found.
  destruct (negb found); auto with planner.
Qed.

Lemma same_disk_trans w1 w2 w3 : same_disk w1 w2 → same_disk w2 w3 → same_disk w1 w3.
Proof. intros [] []. split; congruence. Qed.

(** The entry of a result, whatever its id. *)
Definition entry_of (result : NormalizedRetrievalResult) (e : ContextLedgerEntry) : Prop :=
  e = mkEntry (ce_id e) (nr_filePath result) (nr_lineRange result) (nr_matchReason result) (nr_normalizedScore result)
        (normalizeSource (nr_sourceTool result)) (nr_symbolName result).

(** An entry of a file that the query names and that exists. *)
Definition mentioned (query : string) (w : PlannerWorld) (e : ContextLedgerEntry) : Prop :=
  ∃ mention, mention ∈ match_all mention_re query ∧ e = mention_entry (drop_leading_slash mention) (ce_id e) ∧
    mention_exists cwd repoRoot (drop_leading_slash mention) w = true.

Lemma entries_ret results : ∀ entries w es w',
  fold_each (λ entries result, entry ← toLedgerEntry result; mret (entries ++ [entry])) entries results w = (Ret es, w') →
  ∃ new, es = entries ++ new ∧ Forall2 entry_of results new.
Proof.
  induction results as [|result results IH]; intros entries w es w' Hrun; cbn [fold_each] in Hrun.
  { injection Hrun as <- <-. exists []. by rewrite app_nil_r. }
  apply bind_ret_inv in Hrun as (entries' & w1 & Hone & Hrun). apply bind_ret_inv in Hone as (e & w2 & He & Hmk). injection Hmk as <- <-.
  apply IH in Hrun as (new & -> & Hnew). exists (e :: new). rewrite <-app_assoc. split; [done|]. constructor; [|done].
  unfold toLedgerEntry in He. apply bind_ret_inv in He as (id & w3 & _ & He). by injection He as <- <-.
Qed.

Lemma mention_same w w' normalized : same_disk w w' → mention_exists cwd repoRoot normalized w' = mention_exists cwd repoRoot normalized w.
Proof. intros [Ht _]. unfold mention_exists. by rewrite Ht. Qed.

Lemma mentions_ret query w0 mentions : ∀ entries w es w', same_disk w0 w → mentions ⊆ match_all mention_re query → Forall (mentioned query w0) entries →
  fold_each (λ entries mention, let normalized := drop_leading_slash mention in
    found ← gets (mention_exists cwd repoRoot normalized);
    if negb found then mret entries
    else id ← on_store (Semantic.draw "evidence"); mret (entries ++ [mention_entry normalized id])) entries mentions w = (Ret es, w') →
  Forall (mentioned query w0) es.
Proof.
  induction mentions as [|m mentions IH]; intros entries w es w' Hsame Hsub Hall Hrun; cbn [fold_each] in Hrun; [by injection Hrun as <- _|].
  apply bind_ret_inv in Hrun as (entries' & w1 & Hone & Hrun). apply bind_ret_inv in Hone as (found & w2 & Hf & Hone).
  unfold gets in Hf. injection Hf as <- <-. rewrite (mention_same _ _ _ Hsame) in Hone.
  destruct (mention_exists cwd repoRoot (drop_leading_slash m) w0) eqn:E; cbn [negb] in Hone.
  - apply bind_ret_inv in Hone as (id & w3 & Hid & Hmk). injection Hmk as <- <-.
    eapply IH; [|by set_solver| |exact Hrun].
    + eapply same_disk_trans; [exact Hsame|]. by eapply quiet_run; [apply quiet_store|].
    + apply Forall_app. split; [done|]. constructor; [|constructor]. exists m. split_and!; [set_solver|done|done].
  - injection Hone as <- <-. eapply IH; [exact Hsame|by set_solver|done|exact Hrun].
Qed.

Lemma json_file_clean s : no_slash s → clean (s +:+ ".json").
Proof.
  intros Hs. assert (has_char SLASH (s +:+ ".json") = false) as Hh.
  { unfold no_slash in Hs. induction s as [|c s IH]; [done|]. cbn in Hs |- *. apply orb_false_iff in Hs as [Hc Hs]. rewrite Hc. by apply IH. }
  assert (5 ≤ String.length (s +:+ ".json")) as Hl by (rewrite length_append; simpl; lia).
  split_and!; [..|done]; intros E; rewrite E in Hl; simpl in Hl; lia.
Qed.

Lemma dh_clean : clean ".dh" ∧ clean "cache" ∧ clean "symbol-graph" ∧ clean "context-rankings" ∧ clean "context-ledgers".
Proof. by split_and!. Qed.

Lemma cache_file_place fp query b : path_resolve cwd (cachePath repoRoot fp query (budget_name b)) = cache_file fp query b ∧
  Forall clean [".dh"; "cache"; "context-rankings"; cache_key fp query (budget_name b) +:+ ".json"].
Proof.
  destruct dh_clean as (? & ? & ? & ? & ?).
  assert (Forall clean [".dh"; "cache"; "context-rankings"; cache_key fp query (budget_name b) +:+ ".json"]) as Hc.
  { repeat (apply Forall_cons; split; [done|]). apply Forall_cons. split; [|done]. apply json_file_clean. by apply (base64url_no_slash _ _ (le_n _)). }
  split; [|done]. by apply (resolve_below cwd repoRoot).
Qed.
End pieces.

Section inspections.
Context `{Env} `{Random} `{SearchEnv} `{OsEnv}.
Context (toFixed3 : double → string) (sha256 : string → string) (elapsed : nat → double) (locale_le : string → string → bool).
Context (env : ProcessEnv) (cwd : Path) (extractSymbols : string → list IndexedFile → list IndexedSymbol) (provider : EmbeddingProvider).
Context (JSON_parse : string → option json) (dir_size : nat) (number_text : double → string) (repoRoot : string).
Abbreviation base := (path_resolve cwd repoRoot).
Abbreviation planned_json := (context_report_json number_text).
Abbreviation inspect := (inspectContext toFixed3 sha256 elapsed locale_le env cwd extractSymbols provider JSON_parse dir_size number_text).
Abbreviation plan := (plan_context toFixed3 sha256 elapsed locale_le env cwd extractSymbols provider number_text).
Abbreviation ok := (disk_ok cwd repoRoot).
Abbreviation kept := (kept cwd repoRoot).

Lemma quiet_retrieve input : quiet (retrieve toFixed3 sha256 elapsed locale_le env cwd extractSymbols provider input).
Proof using Type. intros w. apply quiet_store. Qed.


Abbreviation retrieval_of fs input := (runRetrieval toFixed3 sha256 elapsed locale_le env cwd fs extractSymbols provider input).

(** What the report of a planned context is made of. *)
Definition planned_from (input : ContextInspectInput) (query : string) (b : BudgetMode) (w : PlannerWorld) (r : ContextInspectReport) : Prop :=
  ∃ run s s' es ms,
    retrieval_of (os_tree (pw_os w)) (mkRetrievalInput repoRoot query (ci_mode input or_else mode_ask)
      (Some (ci_semanticMode input or_else auto)) (ci_scanOptions input) None) s = (Ret run, s') ∧
    Forall2 entry_of (rr_results run) es ∧ Forall (mentioned cwd repoRoot query w) ms ∧
    le_entries (cr_ledger r) = dedupeEntries (es ++ ms) (maxEvidenceForBudget b) ∧
    cr_coverage r = mkCoverage (length (le_entries (cr_ledger r)))
      (Z.max 0 (Z.of_nat (length (rr_results run)) - Z.of_nat (length (le_entries (cr_ledger r)))))
      (coverageWarnings run (le_entries (cr_ledger r))).

Lemma plan_ret input query fp b t0 fpms w r w' : ci_repoRoot input = repoRoot → ok w → no_slash fp → (∀ n, no_slash (random36 n)) →
  plan input query fp b t0 fpms w = (Ret r, w') →
  cr_query r = query ∧ cr_fingerprint r = fp ∧ kept w w' ∧ long_name cwd (cachePath repoRoot fp query (budget_name b)) = false ∧
  os_tree (pw_os w') !! cache_file cwd repoRoot fp query b = Some (File (document_text (planned_json r))) ∧
  os_tree (pw_os w') !! ledger_file cwd repoRoot (le_id (cr_ledger r)) = Some (File (document_text (planned_json r))) ∧
  planned_from input query b w r.
Proof.
  intros HR Hok Hfp Hids Hrun. unfold plan_context in Hrun. rewrite HR in Hrun.
  destruct (cache_file_place cwd repoRoot fp query b) as [Hcp Hcc]. pose proof dh_clean as (Hc1 & Hc2 & Hc3 & Hc4 & Hc5).
  apply quiet_step in Hrun as (t1 & w1 & _ & Q1 & Hrun); [|apply quiet_now].
  apply quiet_step in Hrun as (run & w2 & Hretr & Q2 & Hrun); [|apply quiet_retrieve].
  apply quiet_step in Hrun as (t2 & w3 & _ & Q3 & Hrun); [|apply quiet_now].
  apply quiet_step in Hrun as (t3 & w4 & _ & Q4 & Hrun); [|apply quiet_now].
  apply quiet_step in Hrun as (es & w5 & Hes & Q5 & Hrun); [|apply quiet_entries].
  apply quiet_step in Hrun as (ms & w6 & Hms & Q6 & Hrun); [|apply quiet_mentions].
  apply quiet_step in Hrun as (at1 & w7 & _ & Q7 & Hrun); [|apply quiet_ISO].
  pose proof (same_disk_trans _ _ _ Q1 (same_disk_trans _ _ _ Q2 (same_disk_trans _ _ _ Q3 (same_disk_trans _ _ _ Q4 Q5)))) as Q15.
  pose proof (same_disk_trans _ _ _ Q15 (same_disk_trans _ _ _ Q6 Q7)) as Q17.
  apply bind_ret_inv in Hrun as ([] & w8 & Hgraph & Hrun).
  assert (ok w7) as Hok7 by (by eapply same_disk_ok).
  eapply (dh_written cwd repoRoot) in Hgraph as (_ & K8 & _ & _ & _);
    [|done|apply (resolve_below cwd repoRoot); by repeat constructor|by repeat constructor
     |apply (resolve_below cwd repoRoot); repeat (apply Forall_cons; split; [done|]); apply Forall_cons; split; [by apply json_file_clean|done]|done
     |repeat (apply Forall_cons; split; [done|]); apply Forall_cons; split; [by apply json_file_clean|done]].
  apply quiet_step in Hrun as (lid & w9 & Hlid & Q9 & Hrun); [|apply quiet_store].
  apply quiet_step in Hrun as (t4 & w10 & _ & Q10 & Hrun); [|apply quiet_now].
  apply quiet_step in Hrun as (t5 & w11 & _ & Q11 & Hrun); [|apply quiet_now].
  apply quiet_step in Hrun as (at2 & w12 & _ & Q12 & Hrun); [|apply quiet_ISO].
  set (report := mkContextReport _ _ _ _ _ _) in Hrun.
  pose proof (same_disk_trans _ _ _ Q9 (same_disk_trans _ _ _ Q10 (same_disk_trans _ _ _ Q11 Q12))) as Q912.
  pose proof (kept_same_r _ _ _ _ _ (kept_same_l _ _ _ _ _ Q17 K8) Q912) as K12.
  assert (no_slash lid) as Hl.
  { unfold on_store, Semantic.draw in Hlid. injection Hlid as <- _. unfold no_slash, draw_id. cbn. apply Hids. }
  apply bind_ret_inv in Hrun as ([] & w13 & Hled & Hrun). apply bind_ret_inv in Hrun as ([] & w14 & Hcache & Hrun). injection Hrun as <- <-.
  eapply (dh_written cwd repoRoot) in Hled as (Hlf & K13 & _ & _ & _);
    [|apply K12|apply (resolve_below cwd repoRoot); by repeat constructor|by repeat constructor
     |apply (resolve_below cwd repoRoot); repeat (apply Forall_cons; split; [done|]); apply Forall_cons; split; [by apply json_file_clean|done]|done
     |repeat (apply Forall_cons; split; [done|]); apply Forall_cons; split; [by apply json_file_clean|done]].
  eapply (dh_written cwd repoRoot) in Hcache as (Hcf & K14 & Hlong & _ & Hother);
    [|apply K13|apply (resolve_below cwd repoRoot); by repeat constructor|by repeat constructor|exact Hcp|done|exact Hcc].
  split_and!; [done..| |done|done| |].
  - eapply kept_trans; [exact K12|]. by eapply kept_trans.
  - unfold ledger_file. rewrite <-Hlf. apply Hother; [by intros [=]%app_inv_head|by rewrite Hlf].
  - destruct Q1 as [Ht1 _]. unfold retrieve, on_store in Hretr. rewrite Ht1 in Hretr.
    destruct (retrieval_of _ _ (pw_store w1)) as [o s'] eqn:E. injection Hretr as -> _.
    apply entries_ret in Hes as (new & -> & Hnew).
    exists run, (pw_store w1), s', new, ms. split_and!; [exact E|done| |done|done].
    unfold fileMentionEntries in Hms.
    eapply (mentions_ret cwd repoRoot query w); [exact Q15|done|by constructor|exact Hms].
Qed.
End inspections.

Section caching.
Context `{Env} `{Random} `{SearchEnvLaws} `{OsEnv}.
Context (toFixed3 : double → string) (sha256 : string → string) (elapsed : nat → double) (locale_le : string → string → bool).
Context (env : ProcessEnv) (cwd : Path) (extractSymbols : string → list IndexedFile → list IndexedSymbol) (provider : EmbeddingProvider).
Context (JSON_parse : string → option json) (dir_size : nat) (number_text : double → string) (repoRoot : string).
Hypothesis hex_digest : ∀ s, no_slash (sha256 s).
Hypothesis ids_plain : ∀ n, no_slash (random36 n).
#[local] Set Default Proof Using "All".
Abbreviation base := (path_resolve cwd repoRoot).
Abbreviation planned_json := (context_report_json number_text).
Abbreviation inspect := (inspectContext toFixed3 sha256 elapsed locale_le env cwd extractSymbols provider JSON_parse dir_size number_text).
Abbreviation plan := (plan_context toFixed3 sha256 elapsed locale_le env cwd extractSymbols provider number_text).
Abbreviation ok := (disk_ok cwd repoRoot).
Abbreviation kept := (kept cwd repoRoot).
Abbreviation planned_from := (planned_from toFixed3 sha256 elapsed locale_le env cwd extractSymbols provider repoRoot).
Abbreviation budget input := (ci_budgetMode input or_else budget_normal).

(** What happens once the cache was read. *)
Definition answer (input : ContextInspectInput) (query fp : string) (t0 ms : Z) (cached : option json) : M PlannerWorld Inspection :=
  match cached with
  | Some v =>
    if falsy (Some v) then report ← plan input query fp (budget input) t0 ms; mret (planned_report report)
    else generatedAt ← on_os new_Date_ISO; totalEnd ← on_os Date_now;
         mret (cached_report (from_cache v generatedAt fp ms (totalEnd - t0)))
  | None => report ← plan input query fp (budget input) t0 ms; mret (planned_report report)
  end.

Lemma inspect_start input w : ci_repoRoot input = repoRoot → ok w → trim (ci_query input) ≠ "" →
  ∃ files t0 ms w1, listFiles cwd (pw_os w) repoRoot = Ret files ∧ same_disk w w1 ∧ pw_store w1 = pw_store w ∧
    inspect input w =
      (readRankingCache cwd JSON_parse repoRoot (hashed sha256 dir_size cwd repoRoot (pw_os w) files) (trim (ci_query input)) (budget_name (budget input))
       ≫= answer input (trim (ci_query input)) (hashed sha256 dir_size cwd repoRoot (pw_os w) files) t0 ms) w1.
Proof.
  intros HR [Hn Hr] Hq. destruct (listing dir_size cwd repoRoot (pw_os w) Hn Hr) as (files & Hf & _ & _ & Hp).
  set (w2 := mkPlanner (tick (tick (pw_os w))) (pw_store w)).
  assert (on_os (computeWorkspaceFingerprint sha256 dir_size cwd repoRoot) w2 =
    (Ret (current_of sha256 dir_size cwd repoRoot (tick (tick (pw_os w))) files), mkPlanner (tick (tick (tick (pw_os w)))) (pw_store w))) as Hrun.
  { unfold on_os. cbn [pw_os w2]. by rewrite (compute_run sha256 dir_size cwd repoRoot (tick (tick (pw_os w))) files Hf Hp). }
  exists files, (now_ms (os_ticks (pw_os w))), (now_ms (S (S (S (os_ticks (pw_os w))))) - now_ms (S (os_ticks (pw_os w))))%Z,
    (mkPlanner (tick (tick (tick (tick (pw_os w))))) (pw_store w)).
  split_and!; [done|done|done|]. unfold inspectContext. rewrite HR.
  rewrite (bind_run _ _ _ _ _ (eq_refl : on_os Date_now w = (Ret _, mkPlanner (tick (pw_os w)) (pw_store w)))). cbv zeta.
  rewrite decide_False by done.
  rewrite (bind_run _ _ _ _ _ (eq_refl : on_os Date_now (mkPlanner (tick (pw_os w)) (pw_store w)) = (Ret _, w2))).
  rewrite (bind_run _ _ _ _ _ Hrun). cbv zeta. cbn [fingerprint current_of].
  rewrite (bind_run _ _ _ _ _ (eq_refl : on_os Date_now (mkPlanner (tick (tick (tick (pw_os w)))) (pw_store w)) =
    (Ret _, mkPlanner (tick (tick (tick (tick (pw_os w))))) (pw_store w)))). cbv zeta. reflexivity.
Qed.

Lemma long_cache_name fp query b : long_name cwd (cachePath repoRoot fp query (budget_name b)) =
  (NAME_MAX <? String.length (cache_key fp query (budget_name b) +:+ ".json")).
Proof.
  unfold long_name. rewrite (proj1 (cache_file_place cwd repoRoot fp query b)). unfold cache_file.
  change [".dh"; "cache"; "context-rankings"; cache_key fp query (budget_name b) +:+ ".json"]
    with ([".dh"; "cache"; "context-rankings"] ++ [cache_key fp query (budget_name b) +:+ ".json"]).
  by rewrite app_assoc, last_snoc.
Qed.

Lemma cache_read fp query b doc w : os_tree (pw_os w) !! cache_file cwd repoRoot fp query b = Some (File (document_text doc)) →
  long_name cwd (cachePath repoRoot fp query (budget_name b)) = false → JSON_parse (document_text doc) = Some doc →
  readRankingCache cwd JSON_parse repoRoot fp query (budget_name b) w = (Ret (Some doc), w).
Proof.
  intros Hf Hl Hp. destruct (cache_file_place cwd repoRoot fp query b) as [Hc _]. unfold readRankingCache, exists_named, read_document.
  unfold mbind, M_bind, gets, on_os, reads. rewrite Hl, Hc.
  assert (cache_file cwd repoRoot fp query b ≠ []) as Hne by (unfold cache_file; by destruct base).
  assert (existsSync (cache_file cwd repoRoot fp query b) (os_tree (pw_os w)) = true) as ->.
  { unfold existsSync. rewrite Hf. rewrite (bool_decide_eq_true_2 (is_Some _)) by done. apply orb_true_r. }
  assert (readFileSync (cache_file cwd repoRoot fp query b) (os_tree (pw_os w)) = (Ret (document_text doc), os_tree (pw_os w))) as Hread.
  { unfold readFileSync. rewrite is_dir_entry by done. by rewrite Hf. }
  cbn [negb andb]. rewrite Hread. cbn [fst]. rewrite Hp. by destruct w.
Qed.

Lemma cache_world fp query b cached w w' : readRankingCache cwd JSON_parse repoRoot fp query b w = (Ret cached, w') → w' = w.
Proof.
  unfold readRankingCache, read_document, mbind, M_bind, gets, on_os, reads. destruct (negb _); [by intros [= _ <-]|].
  destruct (fst _) as [text|]; [|done]. destruct (JSON_parse text); [|done]. intros [= _ <-]. by destruct w.
Qed.

Lemma planned_same input query b w w' r : same_disk w w' → planned_from input query b w' r → planned_from input query b w r.
Proof.
  intros Hs (run & s & s' & es & ms & Hr & He & Hm & Hl & Hc). exists run, s, s', es, ms. destruct Hs as [Ht Htm]. rewrite <-Ht.
  split_and!; [done|done| |done|done]. eapply Forall_impl; [exact Hm|]. intros e (m & ? & ? & Hx). exists m. split_and!; [done|done|].
  by rewrite (mention_same cwd repoRoot w w') in Hx.
Qed.

Lemma no_query input w i w' : inspect input w = (Ret i, w') → trim (ci_query input) ≠ "".
Proof.
  intros Hrun Hq. unfold inspectContext in Hrun.
  rewrite (bind_run _ _ _ _ _ (eq_refl : on_os Date_now w = (Ret _, mkPlanner (tick (pw_os w)) (pw_store w)))) in Hrun.
  rewrite decide_True in Hrun by done. discriminate Hrun.
Qed.

(** An inspection that was not answered from the cache planned the context. *)
Lemma inspect_planned input w r w1 files : ci_repoRoot input = repoRoot → ok w → inspect input w = (Ret (planned_report r), w1) →
  listFiles cwd (pw_os w) repoRoot = Ret files →
  cr_query r = trim (ci_query input) ∧ cr_fingerprint r = hashed sha256 dir_size cwd repoRoot (pw_os w) files ∧ kept w w1 ∧
  long_name cwd (cachePath repoRoot (cr_fingerprint r) (cr_query r) (budget_name (budget input))) = false ∧
  os_tree (pw_os w1) !! cache_file cwd repoRoot (cr_fingerprint r) (cr_query r) (budget input) = Some (File (document_text (planned_json r))) ∧
  os_tree (pw_os w1) !! ledger_file cwd repoRoot (le_id (cr_ledger r)) = Some (File (document_text (planned_json r))) ∧
  planned_from input (trim (ci_query input)) (budget input) w r.
Proof.
  intros HR Hok Hrun Hf. pose proof (no_query _ _ _ _ Hrun) as Hq.
  destruct (inspect_start input w HR Hok Hq) as (files' & t0 & ms & w' & Hf' & Hsame & _ & E). rewrite Hf in Hf'. injection Hf' as <-.
  rewrite E in Hrun. set (fp := hashed _ _ _ _ _ _) in *. apply bind_ret_inv in Hrun as (cached & w'' & Hread & Hrun).
  apply cache_world in Hread as ->. assert (ok w') as Hok' by (by eapply same_disk_ok).
  assert (∃ t0 ms, plan input (trim (ci_query input)) fp (budget input) t0 ms w' = (Ret r, w1)) as (t1 & ms1 & Hplan).
  { unfold answer in Hrun. destruct cached as [v|]; [destruct (falsy (Some v))|].
    - apply bind_ret_inv in Hrun as (r' & w3 & Hp & Hm). injection Hm as <- <-. by exists t0, ms.
    - apply bind_ret_inv in Hrun as (? & ? & _ & Hrun). apply bind_ret_inv in Hrun as (? & ? & _ & Hm). discriminate Hm.
    - apply bind_ret_inv in Hrun as (r' & w3 & Hp & Hm). injection Hm as <- <-. by exists t0, ms. }
  destruct (plan_ret _ _ _ _ _ _ _ _ _ _ _ _ _ _ _ _ _ _ _ HR Hok' (hex_digest _) ids_plain Hplan) as (H1' & H2' & H3' & H4' & H5' & H6' & H7').
  rewrite H1', H2'. split_and!; [done|done| |done|done|done|].
  - by eapply kept_same_l.
  - by eapply planned_same.
Qed.

(** C36 A planned context is stored and found again.  An inspection that planned
    its context has stored its report as a ledger and in the cache and changed no
    file outside of [.dh]; its entries are made of the results of the retrieval
    and of the files that the query names.  While that holds and the cache entry
    is left alone, every later inspection of the same query and budget returns,
    whatever its mode, semantic mode and scan options, with that ledger and that
    coverage, without running the retrieval or changing a file. *)
Theorem repeated_inspection_hits input w r w1 :
  ci_repoRoot input = repoRoot → ok w → inspect input w = (Ret (planned_report r), w1) →
  JSON_parse (document_text (planned_json r)) = Some (planned_json r) →
  kept w w1 ∧ planned_from input (trim (ci_query input)) (budget input) w r ∧
  os_tree (pw_os w1) !! ledger_file cwd repoRoot (le_id (cr_ledger r)) = Some (File (document_text (planned_json r))) ∧
  ∀ input2 w2, ci_repoRoot input2 = repoRoot → trim (ci_query input2) = trim (ci_query input) → budget input2 = budget input →
    kept w w2 → os_tree (pw_os w2) !! cache_file cwd repoRoot (cr_fingerprint r) (cr_query r) (budget input) =
                os_tree (pw_os w1) !! cache_file cwd repoRoot (cr_fingerprint r) (cr_query r) (budget input) →
    ∃ v w3, inspect input2 w2 = (Ret (cached_report v), w3) ∧ same_disk w2 w3 ∧ pw_store w3 = pw_store w2 ∧
      json_get "query" v = Some (JStr (trim (ci_query input))) ∧
      json_get "ledger" v = Some (ledger_json number_text (cr_ledger r)) ∧
      json_get "coverage" v = Some (coverage_json (cr_coverage r)) ∧
      json_get "cache" v = Some (cache_json "hit" (cr_fingerprint r)).
Proof.
  intros HR Hok Hrun Hparse. destruct (listing dir_size cwd repoRoot (pw_os w) (dk_names _ _ _ Hok) (dk_root _ _ _ Hok)) as (files & Hf & _).
  destruct (inspect_planned _ _ _ _ _ HR Hok Hrun Hf) as (Hq & Hfp & Hk & Hlong & Hcache & Hledger & Hfrom).
  split_and!; [done..|]. intros input2 w2 HR2 Hq2 Hb2 [Hs2 Hok2] Hsame. rewrite Hcache in Hsame.
  destruct (fingerprint_same sha256 dir_size cwd repoRoot _ _ Hs2 (dk_names _ _ _ Hok) (dk_names _ _ _ Hok2) (dk_root _ _ _ Hok) (dk_root _ _ _ Hok2))
    as (files' & Hf' & Hf2 & Hh & _). rewrite Hf in Hf'. injection Hf' as <-.
  pose proof (no_query _ _ _ _ Hrun) as Hne. rewrite <-Hq2 in Hne.
  destruct (inspect_start input2 w2 HR2 Hok2 Hne) as (files' & t0 & ms & w' & Hf' & Hd & Hst & E). rewrite Hf2 in Hf'. injection Hf' as <-.
  rewrite Hh, <-Hfp, Hq2, <-Hq, Hb2 in E. rewrite <-(proj1 Hd) in Hsame.
  pose proof (cache_read _ _ _ _ _ Hsame Hlong Hparse) as Hread. rewrite (bind_run _ _ _ _ _ Hread) in E.
  eexists _, (mkPlanner (tick (tick (pw_os w'))) (pw_store w')). split; [rewrite E; reflexivity|]. split; [exact Hd|]. split; [exact Hst|].
  rewrite <-Hq. done.
Qed.

(** A query of at most 115 characters has a cache entry whose name fits.  One of
    118 or more is never answered: each inspection runs the retrieval, or what
    comes before it, and throws in the end. *)
Theorem long_query_never_answered : (∀ s, String.length (sha256 s) = 64) →
  (∀ s query b, String.length query ≤ 115 → long_name cwd (cachePath repoRoot (sha256 s) query (budget_name b)) = false) ∧
  (∀ input w, ci_repoRoot input = repoRoot → ok w → 118 ≤ String.length (trim (ci_query input)) → ∃ e w', inspect input w = (Throw e, w')).
Proof.
  intros H64. split.
  - intros s query b Hl. rewrite long_cache_name. pose proof (cache_name_length (sha256 s) query b (H64 s)) as Hn. cbv zeta in Hn.
    apply Nat.ltb_ge. unfold NAME_MAX. assert (String.length (budget_name b) ≤ 6) by (destruct b; simpl; lia). lia.
  - intros input w HR Hok Hl. destruct (inspect input w) as [[i|e] w1] eqn:Hrun; [|by exists e, w1]. exfalso.
    destruct (listing dir_size cwd repoRoot (pw_os w) (dk_names _ _ _ Hok) (dk_root _ _ _ Hok)) as (files & Hf & _).
    assert (∀ query b s, 118 ≤ String.length query → long_name cwd (cachePath repoRoot (sha256 s) query (budget_name b)) = true) as Hlong.
    { intros query b s Hle. rewrite long_cache_name. pose proof (cache_name_length (sha256 s) query b (H64 s)) as Hn. cbv zeta in Hn.
      apply Nat.ltb_lt. unfold NAME_MAX. assert (4 ≤ String.length (budget_name b)) by (destruct b; simpl; lia). lia. }
    destruct i as [r|v].
    + destruct (inspect_planned _ _ _ _ _ HR Hok Hrun Hf) as (Hq & Hfp & _ & Hfits & _). rewrite Hq, Hfp in Hfits.
      unfold hashed in Hfits. by rewrite Hlong in Hfits.
    + pose proof (no_query _ _ _ _ Hrun) as Hne. destruct (inspect_start input w HR Hok Hne) as (files' & t0 & ms & w' & _ & _ & _ & E).
      rewrite E in Hrun. apply bind_ret_inv in Hrun as (cached & w'' & Hread & Hrun).
      assert (cached = None) as ->.
      { unfold readRankingCache, mbind at 1, M_bind at 1, gets, exists_named, hashed in Hread. rewrite Hlong in Hread by done. by injection Hread as <- _. }
      apply bind_ret_inv in Hrun as (? & ? & _ & Hm). discriminate Hm.
Qed.
End caching.

(** ** The ledger *)

(** The ledger keeps the best entries within its budget: at most one of each file,
    range and source, none better left out, in descending order of score. *)
Theorem ledger_best entries n : Forall (numeric ce_score) entries → best_of entry_key ce_score n entries (dedupeEntries entries n).
Proof. apply best_of_keys. Qed.

(** ** An inspection *)

#[local] Instance planner_env : Env := {| clock := λ _, "T"; random36 := marks |}.
#[local] Instance planner_random : Random := λ _, d_zero.

Definition demo_planner : PlannerWorld := mkPlanner checked_world empty_store.
Definition demo_query (mode : option RetrievalMode) : ContextInspectInput :=
  mkInspectInput " what is in a.ts " "/r" mode (Some off) None None.
Definition demo_inspect (parse : string → option json) (input : ContextInspectInput) (w : PlannerWorld) : outcome Inspection * PlannerWorld :=
  inspectContext (λ _, "1") (λ _, "h") (λ _, d_zero) (λ _ _, true) ∅ [] (λ _ _, []) (demo_provider "m") parse 4096 (λ _, "1") input w.
Definition demo_report_document (o : outcome Inspection) : json :=
  match o with Ret (planned_report r) => context_report_json (λ _, "1") r | _ => JNull end.
Definition demo_cached : json := demo_report_document (fst (demo_inspect (λ _, None) (demo_query None) demo_planner)).

Example demo_ledger :
  match fst (demo_inspect (λ _, None) (demo_query None) demo_planner) with
  | Ret (planned_report r) => (λ e, (ce_filePath e, ce_source e)) <$> le_entries (cr_ledger r) = [("a.ts", "file_mention"); ("a.ts", "keyword")]
  | _ => False
  end.
Proof. vm_compute. reflexivity. Qed.

(** The second inspection, in another mode, finds the ledger of the first. *)
Lemma repeated_inspection_hits_witness : ∃ r w1 v, demo_inspect (λ _, Some demo_cached) (demo_query None) demo_planner = (Ret (planned_report r), w1) ∧
  fst (demo_inspect (λ _, Some demo_cached) (demo_query (Some mode_trace)) w1) = Ret (cached_report v) ∧
  json_get "ledger" v = Some (ledger_json (λ _, "1") (cr_ledger r)).
Proof.
  destruct (demo_inspect (λ _, Some demo_cached) (demo_query None) demo_planner) as [[[r|v]|e] w1] eqn:E.
  - assert (disk_ok [] "/r" demo_planner) as Hok.
    { constructor; [apply clean_names_check; vm_compute; reflexivity|vm_compute; reflexivity]. }
    assert (Some demo_cached = Some (context_report_json (λ _, "1") r)) as Hparse.
    { apply (f_equal (λ o, demo_report_document (fst o))) in E. cbn [fst demo_report_document] in E. rewrite <-E. vm_compute. reflexivity. }
    destruct (repeated_inspection_hits (λ _, "1") (λ _, "h") (λ _, d_zero) (λ _ _, true) ∅ [] (λ _ _, []) (demo_provider "m")
      (λ _, Some demo_cached) 4096 (λ _, "1") "/r" ltac:(done) marks_plain (demo_query None) demo_planner r w1 eq_refl Hok E Hparse)
      as (Hk & _ & _ & Hlater).
    destruct (Hlater (demo_query (Some mode_trace)) w1 eq_refl eq_refl eq_refl Hk eq_refl) as (v & w3 & Hrun & _ & _ & _ & Hl & _ & _).
    exists r, w1, v. split; [reflexivity|]. split; [exact (f_equal fst Hrun)|exact Hl].
  - exfalso. apply (f_equal (λ o, match fst o with Ret (planned_report _) => true | _ => false end)) in E. vm_compute in E. discriminate E.
  - exfalso. apply (f_equal (λ o, match fst o with Ret (planned_report _) => true | _ => false end)) in E. vm_compute in E. discriminate E.
Defined.

(** A mention that leads to a directory beside the repository whose name begins
    like that of the repository passes the comparison of the paths. *)
Example sibling_mention :
  let w := mkPlanner (mkOs (<[["r2"] := Dir]> (<[["r2"; "secret.ts"] := File "x"]> sources)) (λ _, mkTimes 0 0) [] 0 0) empty_store in
  match_all mention_re "see ../r2/secret.ts" = ["../r2/secret.ts"] ∧
  mention_exists [] "/r" (drop_leading_slash "../r2/secret.ts") w = true ∧
  path_resolve (path_resolve [] "/r") "../r2/secret.ts" = ["r2"; "secret.ts"].
Proof. vm_compute. done. Qed.
