(* ===== verification/GeminiSchema.v ===== *)
(** * Tool schemas for Gemini

    [schema] of [packages/providers/src/provider/transform.ts]: the JSON schema of
    a tool's input, rewritten to what the Gemini services accept.

    A schema is a document.  Every object has the members of [Object.prototype],
    every array those of [Array.prototype], as far as the operator [in] is
    concerned; no member is called [__proto__]. *)

From S2P Require Import Prelude Json.
From Stdlib Require Import Ascii String.
From stdpp Require Import prelude list strings pretty.
Set Default Goal Selector "!".
Set Default Proof Using "Type".
Set Warnings "-register-all,-clear-no-such-hyp".
#[local] Open Scope nat_scope.

(** ** JavaScript *)

(** [key in value]. *)
Definition js_in (key : string) (value : json) : outcome bool :=
  match value with
  | JObj members => Ret (bool_decide (key ∈ members.*1 ∨ key ∈ OBJECT_PROTOTYPE))
  | JArr items => Ret (existsb (λ i, String.eqb (pretty i) key) (seq 0 (length items)) || bool_decide (key ∈ ARRAY_PROTOTYPE))
  | _ => Throw "TypeError"
  end.

(** [delete object[key]]. *)
Definition delete_member (key : string) (members : list (string * json)) : list (string * json) :=
  filter (λ m, m.1 ≠ key) members.

Definition is_array (o : option json) : bool := match o with Some (JArr _) => true | _ => false end.

Definition isPlainObject (node : json) : bool := match node with JObj _ => true | _ => false end.

(** ** The schema of a node *)

Definition hasCombiner (node : json) : bool :=
  isPlainObject node &&
  (is_array (json_get "anyOf" node) || is_array (json_get "oneOf" node) || is_array (json_get "allOf" node)).

Definition INTENT_KEYS : list string :=
  ["type"; "properties"; "items"; "prefixItems"; "enum"; "const"; "$ref"; "additionalProperties"; "patternProperties";
   "required"; "not"; "if"; "then"; "else"].

Definition hasSchemaIntent (node : json) : bool :=
  isPlainObject node &&
  (hasCombiner node || existsb (λ key, match json_get key node with Some _ => true | None => false end) INTENT_KEYS).

Definition has_type (type : string) (members : list (string * json)) : bool :=
  equals_string type (json_get "type" (JObj members)).

(** An array below [enum]: its values become strings, and a numeric type that
    was seen before becomes [string]. *)
Definition enum_entry (values : list json) (result : list (string * json)) : list (string * json) :=
  let result := set_member "enum" (JArr ((λ v, JStr (js_String v)) <$> values)) result in
  if has_type "integer" result || has_type "number" result then set_member "type" (JStr "string") result else result.

(** Only the required fields that the properties have. *)
Definition filter_required (result : list (string * json)) : outcome (list (string * json)) :=
  let properties := json_get "properties" (JObj result) in
  match properties, json_get "required" (JObj result) with
  | Some fields, Some (JArr required) =>
    if has_type "object" result && negb (falsy properties) then
      try_fmap (λ kept, set_member "required" (JArr kept) result)
        (try_filter (λ field, js_in (js_String field) fields) required)
    else Ret result
  | _, _ => Ret result
  end.

(** An array has items, and items that say nothing are strings. *)
Definition complete_items (result : list (string * json)) : list (string * json) :=
  if has_type "array" result && negb (hasCombiner (JObj result)) then
    let result := match json_get "items" (JObj result) with
                  | None | Some JNull => set_member "items" (JObj []) result
                  | _ => result
                  end in
    match json_get "items" (JObj result) with
    | Some (JObj items) =>
      if hasSchemaIntent (JObj items) then result
      else set_member "items" (JObj (set_member "type" (JStr "string") items)) result
    | _ => result
    end
  else result.

(** What belongs to objects is removed from other types. *)
Definition drop_object_members (result : list (string * json)) : list (string * json) :=
  let type := json_get "type" (JObj result) in
  if negb (falsy type) && negb (equals_string "object" type) && negb (hasCombiner (JObj result))
  then delete_member "required" (delete_member "properties" result)
  else result.

Definition finish (result : list (string * json)) : outcome json :=
  try_fmap (λ result, JObj (drop_object_members (complete_items result))) (filter_required result).

Fixpoint sanitizeGemini (obj : json) : outcome json :=
  match obj with
  | JArr items => try_fmap JArr (try_map sanitizeGemini items)
  | JObj members =>
    (fix entries (members result : list (string * json)) : outcome json :=
       match members with
       | [] => finish result
       | (key, value) :: members =>
         match (if String.eqb key "enum" then match value with JArr values => Some values | _ => None end else None), value with
         | Some values, _ => entries members (enum_entry values result)
         | None, (JArr _ | JObj _) =>
           match sanitizeGemini value with
           | Ret v => entries members (set_member key v result)
           | Throw e => Throw e
           end
         | None, _ => entries members (set_member key value result)
         end
       end) members []
  | _ => Ret obj
  end.

(** [schema], for a model of [providerID] whose service calls it [api_id]. *)
Definition schema (providerID api_id : string) (document : json) : outcome json :=
  if String.eqb providerID "google" || includes api_id "gemini" then sanitizeGemini document else Ret document.

(** ** What a sanitized schema is *)

Definition numeric_type (members : list (string * json)) : bool := has_type "integer" members || has_type "number" members.

Definition is_text (v : json) : Prop := ∃ s, v = JStr s.

(** The members of an object: of an array below [enum] only texts are left, and a
    numeric type beside it comes after it; of a type "object" with properties, the
    operator [in] finds the required fields there; a type "array" without a
    combiner has items, which say something if they are an object; and another type
    without a combiner has neither properties nor required fields.  Only the first
    rule is about an object without a type. *)
Record node_normal (members : list (string * json)) : Prop := mkNodeNormal {
  nn_unique : NoDup members.*1;
  nn_enum : ∀ values, json_get "enum" (JObj members) = Some (JArr values) →
    Forall is_text values ∧
    (numeric_type members = true → ∃ l1 l2 l3, members.*1 = l1 ++ "enum" :: l2 ++ "type" :: l3);
  nn_required : ∀ fields required, has_type "object" members = true → json_get "properties" (JObj members) = Some fields →
    falsy (Some fields) = false → json_get "required" (JObj members) = Some (JArr required) →
    Forall (λ field, js_in (js_String field) fields = Ret true) required;
  nn_items : has_type "array" members = true → hasCombiner (JObj members) = false →
    ∃ items, json_get "items" (JObj members) = Some items ∧ (items ≠ JNull) ∧ (isPlainObject items = true → hasSchemaIntent items = true);
  nn_other : falsy (json_get "type" (JObj members)) = false → has_type "object" members = false → hasCombiner (JObj members) = false →
    ("properties" ∉ members.*1) ∧ ("required" ∉ members.*1);
}.

Definition scalar (v : json) : Prop := match v with JArr _ | JObj _ => False | _ => True end.

Inductive normal : json → Prop :=
| normal_scalar v : scalar v → normal v
| normal_array items : Forall normal items → normal (JArr items)
| normal_object members : node_normal members → Forall (λ m, normal m.2) members → normal (JObj members).

(** A schema as it is read: the members of an object have different names, and
    what is below [properties] is an object, an array or nothing. *)
Inductive schema_document : json → Prop :=
| document_scalar v : scalar v → schema_document v
| document_array items : Forall schema_document items → schema_document (JArr items)
| document_object members : NoDup members.*1 →
    (∀ fields, json_get "properties" (JObj members) = Some fields → scalar fields → falsy (Some fields) = true) →
    Forall (λ m, schema_document m.2) members → schema_document (JObj members).

(** The loop over the members of an object. *)
Fixpoint entries (members result : list (string * json)) : outcome json :=
  match members with
  | [] => finish result
  | (key, value) :: members =>
    match (if String.eqb key "enum" then match value with JArr values => Some values | _ => None end else None), value with
    | Some values, _ => entries members (enum_entry values result)
    | None, (JArr _ | JObj _) =>
      match sanitizeGemini value with
      | Ret v => entries members (set_member key v result)
      | Throw e => Throw e
      end
    | None, _ => entries members (set_member key value result)
    end
  end.

Lemma sanitize_object members : sanitizeGemini (JObj members) = entries members [].
Proof.
  cbn [sanitizeGemini]. generalize ([] : list (string * json)) as result.
  induction members as [|[key value] members IH]; intros result; [done|]. cbn [entries].
  destruct (if String.eqb key "enum" then _ else _); [apply IH|].
  destruct value; try apply IH; (destruct (sanitizeGemini _); [apply IH|done]).
Qed.

Lemma sanitize_scalar v : scalar v → sanitizeGemini v = Ret v.
Proof. by destruct v. Qed.

(** One step of the loop. *)
Lemma entries_cons key value members result :
  entries ((key, value) :: members) result =
    match (if String.eqb key "enum" then match value with JArr values => Some values | _ => None end else None) with
    | Some values => entries members (enum_entry values result)
    | None => match sanitizeGemini value with
              | Ret v => entries members (set_member key v result)
              | Throw e => Throw e
              end
    end.
Proof. cbn [entries]. destruct (if String.eqb key "enum" then _ else _); [done|]. by destruct value. Qed.

(** *** Members *)

Lemma get_app_other key (ms : list (string * json)) m : key ≠ m.1 → json_get key (JObj (ms ++ [m])) = json_get key (JObj ms).
Proof. intros Hne. rewrite json_get_app. cbn [json_get]. by rewrite filter_cons_False by congruence. Qed.

Lemma get_app_same (ms : list (string * json)) key v : json_get key (JObj (ms ++ [(key, v)])) = Some v.
Proof. rewrite json_get_app. cbn [json_get]. by rewrite filter_cons_True. Qed.

Lemma set_member_id key v ms : NoDup ms.*1 → json_get key (JObj ms) = Some v → set_member key v ms = ms.
Proof.
  induction ms as [|[k x] ms IH]; intros Hnd Hget; [done|]. rewrite fmap_cons in Hnd. apply NoDup_cons in Hnd as [Hk Hnd].
  rewrite json_get_cons in Hget. cbn [set_member fst snd] in *. destruct (String.eqb_spec k key) as [->|Hne].
  - apply json_get_None in Hk. rewrite Hk, decide_True in Hget by done. by injection Hget as ->.
  - rewrite IH; [done..|]. destruct (json_get key (JObj ms)); [done|]. by rewrite decide_False in Hget by done.
Qed.

Lemma get_delete key key' ms : json_get key (JObj (delete_member key' ms)) = if decide (key = key') then None else json_get key (JObj ms).
Proof.
  unfold delete_member, json_get. rewrite list_filter_filter. case_decide as E.
  - subst. by rewrite filter_none by (apply Forall_forall; intros m _; naive_solver).
  - do 2 f_equal. apply list_filter_iff. intros m. naive_solver.
Qed.

Lemma delete_keys key ms : (delete_member key ms).*1 = filter (λ k, k ≠ key) ms.*1.
Proof.
  induction ms as [|m ms IH]; [done|]. unfold delete_member in *. rewrite fmap_cons, !filter_cons. case_decide; rewrite ?fmap_cons, IH; done.
Qed.

Lemma delete_absent key ms : key ∉ ms.*1 → delete_member key ms = ms.
Proof. intros Hk. apply filter_all, Forall_forall. intros m Hm <-. by apply Hk, list_elem_of_fmap_2. Qed.

Lemma type_get type ms ms' : json_get "type" (JObj ms) = json_get "type" (JObj ms') → has_type type ms = has_type type ms'.
Proof. unfold has_type. by intros ->. Qed.

(** ** A sanitized schema is left as it is *)

Lemma split_unique {A} (x : A) l1 l2 r1 r2 : NoDup (l1 ++ x :: l2) → l1 ++ x :: l2 = r1 ++ x :: r2 → l1 = r1.
Proof.
  revert r1. induction l1 as [|y l1 IH]; intros [|z r1] Hnd E; [done|..]; cbn in *; injection E as -> E.
  - exfalso. subst. apply NoDup_cons in Hnd as [Hno _]. apply Hno, elem_of_app. right. by left.
  - exfalso. apply NoDup_cons in Hnd as [Hno _]. apply Hno, elem_of_app. right. by left.
  - f_equal. apply NoDup_cons in Hnd as [_ Hnd]. by eapply IH.
Qed.

Lemma get_is_Some key ms : key ∈ ms.*1 ↔ is_Some (json_get key (JObj ms)).
Proof.
  rewrite <-not_eq_None_Some, json_get_None. split; [by intros ? ?|]. apply dec_stable.
Qed.

Lemma get_prefix key pre post : NoDup (pre ++ post).*1 → key ∈ pre.*1 → json_get key (JObj (pre ++ post)) = json_get key (JObj pre).
Proof.
  intros Hnd Hk. rewrite json_get_app. destruct (json_get key (JObj post)) eqn:E; [|done]. exfalso.
  rewrite fmap_app in Hnd. apply NoDup_app in Hnd as (_ & Hd & _). apply (Hd key Hk). apply get_is_Some. by eexists.
Qed.

Lemma numeric_has_type ms : numeric_type ms = true → "type" ∈ ms.*1.
Proof. unfold numeric_type, has_type. intros E. apply get_is_Some. by destruct (json_get _ _). Qed.

Lemma numeric_get ms ms' : json_get "type" (JObj ms) = json_get "type" (JObj ms') → numeric_type ms = numeric_type ms'.
Proof. unfold numeric_type, has_type. by intros ->. Qed.

Lemma texts_same values : Forall is_text values → (λ v, JStr (js_String v)) <$> values = values.
Proof. induction 1 as [|v values [s ->] _ IH]; [done|]. by rewrite fmap_cons, IH. Qed.

(** No numeric type is seen before an array below [enum]. *)
Lemma enum_before_type pre values post : node_normal (pre ++ ("enum", JArr values) :: post) →
  Forall is_text values ∧ numeric_type pre = false.
Proof.
  intros Hn. pose proof (nn_unique _ Hn) as Hnd. destruct (nn_enum _ Hn values) as [Htext Horder].
  { apply get_member; [done|]. apply elem_of_app. right. by left. }
  split; [done|]. apply not_true_iff_false. intros E. pose proof (numeric_has_type _ E) as Hin.
  rewrite <-(numeric_get (pre ++ ("enum", JArr values) :: post)) in E by (by apply get_prefix).
  destruct (Horder E) as (l1 & l2 & l3 & Hkeys). rewrite fmap_app, fmap_cons in Hkeys, Hnd. cbn [fst] in Hkeys, Hnd.
  pose proof (split_unique _ _ _ _ _ Hnd Hkeys) as Hpre. rewrite Hkeys in Hnd. rewrite Hpre in Hin.
  apply NoDup_app in Hnd as (_ & Hd & _). apply (Hd _ Hin). apply elem_of_cons. right. apply elem_of_app. right. by left.
Qed.

Lemma finish_normal ms : node_normal ms → finish ms = Ret (JObj ms).
Proof.
  intros Hn. unfold finish. assert (filter_required ms = Ret ms) as ->.
  { unfold filter_required. destruct (json_get "properties" (JObj ms)) as [fields|] eqn:Hf; [|done].
    destruct (json_get "required" (JObj ms)) as [[]|] eqn:Hr; try done.
    destruct (has_type "object" ms) eqn:Ht; [|done]. destruct (falsy (Some fields)) eqn:Hfalse; [done|]. cbn [andb negb].
    pose proof (nn_required _ Hn fields items Ht Hf Hfalse Hr) as Hall.
    rewrite (try_filter_ret _ (λ _, True)).
    - rewrite filter_all by (by apply Forall_true). cbn [try_fmap]. f_equal. apply set_member_id; [apply Hn|done].
    - eapply Forall_impl; [exact Hall|]. intros field Hin. by rewrite Hin, bool_decide_eq_true_2. }
  assert (complete_items ms = ms) as Hitems.
  { unfold complete_items. destruct (has_type "array" ms) eqn:Ht; [|done]. destruct (hasCombiner (JObj ms)) eqn:Hc; [done|]. cbn [andb negb].
    destruct (nn_items _ Hn Ht Hc) as (items & Hi & Hnull & Hint). rewrite Hi. destruct items; try done; rewrite Hi; [done..|].
    by rewrite Hint. }
  cbn [try_fmap]. rewrite Hitems. do 2 f_equal. unfold drop_object_members.
  destruct (falsy (json_get "type" (JObj ms))) eqn:Hf; [done|]. fold (has_type "object" ms).
  destruct (has_type "object" ms) eqn:Ht; [done|]. destruct (hasCombiner (JObj ms)) eqn:Hc; [done|]. cbn [andb negb].
  destruct (nn_other _ Hn Hf Ht Hc) as [Hp Hr]. rewrite (delete_absent "properties") by done. by rewrite delete_absent.
Qed.

Lemma entries_normal members : ∀ result, node_normal (result ++ members) →
  Forall (λ m, sanitizeGemini m.2 = Ret m.2) members → entries members result = Ret (JObj (result ++ members)).
Proof.
  induction members as [|[key value] members IH]; intros result Hn Hall.
  { rewrite app_nil_r in *. by apply finish_normal. }
  apply Forall_cons in Hall as [Hv Hall]. cbn [snd] in Hv. rewrite entries_cons.
  assert (set_member key value result = result ++ [(key, value)]) as Hset.
  { apply set_member_new. pose proof (nn_unique _ Hn) as Hnd. rewrite fmap_app in Hnd. apply NoDup_app in Hnd as (_ & Hd & _).
    intros Hk. apply (Hd _ Hk). by left. }
  assert (result ++ (key, value) :: members = set_member key value result ++ members) as Hsplit by (rewrite Hset; by rewrite <-app_assoc).
  destruct (String.eqb_spec key "enum") as [->|Hne]; [destruct value as [| | | |values|]|];
    try (rewrite Hv, Hsplit in *; by apply IH).
  destruct (enum_before_type _ _ _ Hn) as [Htext Hnum]. unfold enum_entry. rewrite texts_same by done.
  assert (numeric_type (set_member "enum" (JArr values) result) = false) as Hnum'.
  { rewrite Hset. rewrite (numeric_get _ result); [done|]. by apply get_app_other. }
  unfold numeric_type in Hnum'. rewrite Hnum'. rewrite Hsplit in *. by apply IH.
Qed.

Lemma sanitize_normal v : normal v → sanitizeGemini v = Ret v.
Proof.
  induction v as [| | | |items IH|members IH] using json_nested_ind; intros Hv; try done; inversion Hv as [? Hs|? Hall|? Hn Hall]; subst; try done.
  - cbn [sanitizeGemini]. rewrite (try_map_ret _ (λ v, v)); [by rewrite list_fmap_id|].
    rewrite Forall_forall in IH, Hall |- *. intros v Hin. by apply IH, Hall.
  - rewrite sanitize_object. apply (entries_normal members []); [done|].
    rewrite Forall_forall in IH, Hall |- *. intros m Hin. by apply IH, Hall.
Qed.

(** ** Sanitizing *)

(** What holds of the members while they are collected. *)
Record collected (result : list (string * json)) : Prop := mkCollected {
  co_unique : NoDup result.*1;
  co_normal : Forall (λ m, normal m.2) result;
  co_enum : ∀ values, json_get "enum" (JObj result) = Some (JArr values) →
    Forall is_text values ∧
    (numeric_type result = true → ∃ l1 l2 l3, result.*1 = l1 ++ "enum" :: l2 ++ "type" :: l3);
  co_properties : ∀ fields, json_get "properties" (JObj result) = Some fields → scalar fields → falsy (Some fields) = true;
}.

Lemma forall_set_member (P : json → Prop) key v ms : P v → Forall (λ m, P m.2) ms → Forall (λ m, P m.2) (set_member key v ms).
Proof.
  intros Hv. induction 1 as [|[k x] ms Hx Hms IH]; cbn [set_member]; [by constructor|].
  destruct (String.eqb k key); by constructor.
Qed.

Lemma forall_get (P : json → Prop) key v ms : Forall (λ m, P m.2) ms → json_get key (JObj ms) = Some v → P v.
Proof.
  intros Hall Hget. cbn [json_get] in Hget. apply fmap_Some in Hget as ([k x] & Hl & ->). apply last_Some_elem_of in Hl.
  apply list_elem_of_filter in Hl as [_ Hin]. rewrite Forall_forall in Hall. by apply (Hall (k, x)).
Qed.

Lemma get_set key key' v ms : NoDup ms.*1 → key ≠ key' → json_get key (JObj (set_member key' v ms)) = json_get key (JObj ms).
Proof. intros Hnd Hne. rewrite set_member_get by done. by rewrite decide_False. Qed.

Lemma get_set_same key v ms : NoDup ms.*1 → json_get key (JObj (set_member key v ms)) = Some v.
Proof. intros Hnd. rewrite set_member_get by done. by rewrite decide_True. Qed.

(** Where the keys go, one more of them does not change their order. *)
Lemma order_kept key v ms : (∃ l1 l2 l3, ms.*1 = l1 ++ "enum" :: l2 ++ "type" :: l3) →
  ∃ l1 l2 l3, (set_member key v ms).*1 = l1 ++ "enum" :: l2 ++ "type" :: l3.
Proof.
  intros (l1 & l2 & l3 & E). rewrite set_member_keys. case_decide; [by exists l1, l2, l3|].
  exists l1, l2, (l3 ++ [key]). by rewrite E, <-app_assoc, <-app_comm_cons, <-app_assoc.
Qed.

(** Members that do not matter to the rules. *)
Lemma collected_other result key v : collected result → normal v → key ∉ ["type"; "enum"; "properties"] → collected (set_member key v result).
Proof.
  intros Hc Hv Hk. pose proof (co_unique _ Hc) as Hnd. assert (key ≠ "type" ∧ key ≠ "enum" ∧ key ≠ "properties") as (H1 & H2 & H3) by set_solver.
  split; [by apply set_member_unique|by apply forall_set_member, Hc| |].
  - intros values. rewrite get_set by done. intros Hget. destruct (co_enum _ Hc values Hget) as [Ht Ho]. split; [done|].
    rewrite (numeric_get _ result) by (by apply get_set). intros Hn. by apply order_kept, Ho.
  - intros fields. rewrite get_set by done. apply Hc.
Qed.

(** A new member that the rules say something of. *)
Lemma collected_new result key v : collected result → normal v → key ∉ result.*1 → (key = "enum" → ∀ values, v ≠ JArr values) →
  (key = "properties" → scalar v → falsy (Some v) = true) → collected (set_member key v result).
Proof.
  intros Hc Hv Hk Henum Hprop. pose proof (co_unique _ Hc) as Hnd.
  destruct (decide (key ∈ ["type"; "enum"; "properties"])) as [Hin|]; [|by apply collected_other].
  split; [by apply set_member_unique|by apply forall_set_member, Hc| |].
  - intros values Hget. destruct (decide (key = "enum")) as [->|Hne].
    { rewrite get_set_same in Hget by done. injection Hget as ->. by destruct (Henum eq_refl values). }
    rewrite get_set in Hget by done. destruct (co_enum _ Hc values Hget) as [Ht Ho]. split; [done|].
    destruct (decide (key = "type")) as [->|Hne'].
    + intros _. assert ("enum" ∈ result.*1) as (l1 & l2 & E)%list_elem_of_split by (apply get_is_Some; by eexists).
      exists l1, l2, []. rewrite set_member_keys, decide_False, E by done. by rewrite <-app_assoc.
    + rewrite (numeric_get _ result) by (by apply get_set). intros Hn. by apply order_kept, Ho.
  - intros fields Hget. destruct (decide (key = "properties")) as [->|Hne].
    + rewrite get_set_same in Hget by done. injection Hget as <-. by apply Hprop.
    + rewrite get_set in Hget by done. by apply (co_properties _ Hc).
Qed.

Lemma enum_entry_other result values key : NoDup result.*1 → key ∉ ["type"; "enum"] →
  json_get key (JObj (enum_entry values result)) = json_get key (JObj result).
Proof.
  intros Hnd Hk. assert (key ≠ "type" ∧ key ≠ "enum") as [H1 H2] by set_solver. unfold enum_entry.
  assert (NoDup (set_member "enum" (JArr ((λ v, JStr (js_String v)) <$> values)) result).*1) by (by apply set_member_unique).
  destruct (_ || _); by rewrite !get_set.
Qed.

Lemma enum_entry_keys result values : "enum" ∉ result.*1 → (enum_entry values result).*1 = result.*1 ++ ["enum"].
Proof.
  intros Hk. unfold enum_entry. set (result' := set_member _ _ _).
  assert (result'.*1 = result.*1 ++ ["enum"]) as Hkeys by (unfold result'; by rewrite set_member_keys, decide_False).
  fold (numeric_type result'). destruct (numeric_type result') eqn:E; [|done]. rewrite set_member_keys, decide_True; [done|].
  by apply numeric_has_type.
Qed.

Lemma collected_enum result values : collected result → "enum" ∉ result.*1 →
  collected (enum_entry values result).
Proof.
  intros Hc Hk. pose proof (co_unique _ Hc) as Hnd. unfold enum_entry.
  set (texts := (λ v, JStr (js_String v)) <$> values). set (result' := set_member "enum" (JArr texts) result).
  assert (NoDup result'.*1) as Hnd' by (by apply set_member_unique).
  assert (Forall is_text texts) as Htexts.
  { apply Forall_forall. intros v (x & -> & _)%list_elem_of_fmap. by eexists. }
  assert (Forall (λ m, normal m.2) result') as Hnormal.
  { apply forall_set_member; [|apply Hc]. apply normal_array. eapply Forall_impl; [exact Htexts|]. intros v [s ->]. by constructor. }
  assert (∀ key, key ≠ "enum" → json_get key (JObj result') = json_get key (JObj result)) as Hget by (intros; by apply get_set).
  assert (json_get "enum" (JObj result') = Some (JArr texts)) as Hgete by (by apply get_set_same).
  clearbody result' texts. fold (numeric_type result'). destruct (numeric_type result') eqn:En.
  - split; [by apply set_member_unique|apply forall_set_member; [by constructor|done]| |].
    + intros vs. rewrite get_set, Hgete by done. intros [= <-]. split; [done|]. unfold numeric_type, has_type. rewrite get_set_same by done. done.
    + intros fields. rewrite get_set, Hget by done. apply Hc.
  - split; [done..| |].
    + intros vs. rewrite Hgete. intros [= <-]. split; [done|]. by rewrite En.
    + intros fields. rewrite Hget by done. apply Hc.
Qed.

Lemma normal_object_inv ms : normal (JObj ms) → node_normal ms ∧ Forall (λ m, normal m.2) ms.
Proof. by inversion 1. Qed.

Lemma combiner_same ms ms' : (∀ key, key ∈ ["anyOf"; "oneOf"; "allOf"] → json_get key (JObj ms) = json_get key (JObj ms')) →
  hasCombiner (JObj ms) = hasCombiner (JObj ms').
Proof. intros E. unfold hasCombiner. by rewrite !E by set_solver. Qed.

Lemma try_filter_kept {A} (f : A → outcome bool) (P : A → Prop) xs : (∀ x, ∃ b, f x = Ret b) → Forall P xs →
  ∃ ys, try_filter f xs = Ret ys ∧ Forall (λ y, f y = Ret true) ys ∧ Forall P ys.
Proof.
  intros Hf. induction 1 as [|x xs Hx _ (ys & E & Htrue & Hys)]; [by exists []|]. cbn [try_filter]. destruct (Hf x) as [b Hb]. rewrite Hb, E.
  destruct b; eexists; split_and!; [done|by constructor..|done|done|done].
Qed.

Lemma js_in_some key v : scalar v ∨ ∃ b, js_in key v = Ret b.
Proof. destruct v; try (by left); right; by eexists. Qed.

(** The required fields. *)
Lemma required_kept result : collected result → ∃ out, filter_required result = Ret out ∧ collected out ∧
  (∀ fields required, has_type "object" out = true → json_get "properties" (JObj out) = Some fields →
    falsy (Some fields) = false → json_get "required" (JObj out) = Some (JArr required) →
    Forall (λ field, js_in (js_String field) fields = Ret true) required).
Proof.
  intros Hc. pose proof (co_unique _ Hc) as Hnd. unfold filter_required.
  destruct (json_get "properties" (JObj result)) as [fields|] eqn:Hf; [|by exists result; rewrite Hf].
  destruct (json_get "required" (JObj result)) as [required|] eqn:Hr; [|by exists result; rewrite Hr].
  destruct required as [| | | |required|]; try (exists result; rewrite Hr; split_and!; [done..|]; by intros).
  destruct (has_type "object" result && negb (falsy (Some fields))) eqn:Hcond.
  2:{ exists result. split_and!; [done..|]. intros fields' required' Ht. rewrite Hf. intros [= <-] Hfalse _. by rewrite Ht, Hfalse in Hcond. }
  apply andb_true_iff in Hcond as [Ht Hfalse]. apply negb_true_iff in Hfalse.
  assert (Forall normal required) as Hreq.
  { pose proof (forall_get _ _ _ _ (co_normal _ Hc) Hr) as Hn. by inversion Hn. }
  destruct (try_filter_kept (λ field, js_in (js_String field) fields) normal required) as (kept & -> & Htrue & Hkept); [|done|].
  { intros x. destruct (js_in_some (js_String x) fields) as [Hs|]; [|done]. apply (co_properties _ Hc _ Hf) in Hs. congruence. }
  exists (set_member "required" (JArr kept) result). split_and!; [done|apply collected_other; [done|by constructor|set_solver]|].
  intros fields' required' _. rewrite get_set, get_set_same, Hf by done. by intros [= <-] _ [= <-].
Qed.

(** Items that say nothing become strings. *)
Lemma typed_items ms : node_normal ms → hasSchemaIntent (JObj ms) = false → node_normal (set_member "type" (JStr "string") ms) ∧
  hasSchemaIntent (JObj (set_member "type" (JStr "string") ms)) = true.
Proof.
  intros Hn Hint. pose proof (nn_unique _ Hn) as Hnd. set (ms' := set_member "type" (JStr "string") ms).
  assert (∀ key, key ∈ INTENT_KEYS → json_get key (JObj ms) = None) as Hnone.
  { intros key Hk. unfold hasSchemaIntent in Hint. cbn [isPlainObject andb] in Hint. apply orb_false_iff in Hint as [_ Hint].
    destruct (json_get key (JObj ms)) eqn:E; [|done]. exfalso. apply not_true_iff_false in Hint. apply Hint, existsb_exists. exists key.
    rewrite E. split; [by apply list_elem_of_In|done]. }
  assert (json_get "type" (JObj ms') = Some (JStr "string")) as Ht by (by apply get_set_same).
  assert (∀ key, key ∈ INTENT_KEYS → key ≠ "type" → json_get key (JObj ms') = None) as Hnone'.
  { intros key Hk Hne. unfold ms'. rewrite get_set by done. by apply Hnone. }
  split.
  - split; [by apply set_member_unique|..]; unfold has_type; try rewrite Ht; try done.
    + intros values. rewrite Hnone'; [done|set_solver|done].
    + intros _ _ _. split; apply json_get_None, Hnone'; try done; set_solver.
  - unfold hasSchemaIntent. cbn [isPlainObject andb]. apply orb_true_iff. right. cbn [INTENT_KEYS existsb]. by rewrite Ht.
Qed.

(** The items of an array. *)
Lemma items_completed result : collected result → collected (complete_items result) ∧
  (∀ key, key ≠ "items" → json_get key (JObj (complete_items result)) = json_get key (JObj result)) ∧
  (has_type "array" result = true → hasCombiner (JObj result) = false →
    ∃ items, json_get "items" (JObj (complete_items result)) = Some items ∧ (items ≠ JNull) ∧ (isPlainObject items = true → hasSchemaIntent items = true)).
Proof.
  intros Hc. pose proof (co_unique _ Hc) as Hnd. unfold complete_items.
  destruct (has_type "array" result && negb (hasCombiner (JObj result))) eqn:Hcond.
  2:{ split_and!; [done..|]. intros Ht Hcomb. by rewrite Ht, Hcomb in Hcond. }
  assert (normal (JObj [])) as Hempty.
  { apply normal_object; [split; try done; by constructor|by constructor]. }
  set (result' := match json_get "items" (JObj result) with None | Some JNull => _ | _ => _ end).
  assert (collected result' ∧ ∃ items, json_get "items" (JObj result') = Some items ∧ (items ≠ JNull) ∧
    ∀ key, key ≠ "items" → json_get key (JObj result') = json_get key (JObj result)) as (Hc' & items & Hi & Hnull & Hsame).
  { assert (collected (set_member "items" (JObj []) result) ∧ ∃ items, json_get "items" (JObj (set_member "items" (JObj []) result)) = Some items ∧ (items ≠ JNull) ∧
      ∀ key, key ≠ "items" → json_get key (JObj (set_member "items" (JObj []) result)) = json_get key (JObj result)) as Hnew.
    { split; [apply collected_other; [done..|set_solver]|]. exists (JObj []). rewrite get_set_same by done. split_and!; [done..|].
      intros key Hk. by apply get_set. }
    unfold result'. destruct (json_get "items" (JObj result)) as [[]|] eqn:E; try done; (split; [done|]); by eexists. }
  clearbody result'. rewrite Hi. destruct items as [| | | | |ms]; [done|..]; try (split_and!; [done..|]; intros; by eexists).
  destruct (hasSchemaIntent (JObj ms)) eqn:Hint; [split_and!; [done..|]; intros; by eexists|].
  assert (normal (JObj (set_member "type" (JStr "string") ms)) ∧ hasSchemaIntent (JObj (set_member "type" (JStr "string") ms)) = true) as [Hn2 Hint2].
  { pose proof (forall_get _ _ _ _ (co_normal _ Hc') Hi) as [Hnode Hall]%normal_object_inv.
    destruct (typed_items _ Hnode Hint). split; [|done]. apply normal_object; [done|]. apply forall_set_member; [by constructor|done]. }
  split_and!.
  - apply collected_other; [done..|set_solver].
  - intros key Hk. rewrite get_set by (apply Hc' || done). by apply Hsame.
  - intros _ _. eexists. rewrite get_set_same by apply Hc'. split_and!; [done..|]. by intros.
Qed.

Lemma forall_delete (P : json → Prop) key ms : Forall (λ m, P m.2) ms → Forall (λ m, P m.2) (delete_member key ms).
Proof. intros Hall. apply Forall_forall. intros m [_ Hm]%list_elem_of_filter. rewrite Forall_forall in Hall. by apply Hall. Qed.

(** Removing members keeps the order of the others. *)
Lemma order_deleted key ms : key ≠ "enum" → key ≠ "type" → (∃ l1 l2 l3, ms.*1 = l1 ++ "enum" :: l2 ++ "type" :: l3) →
  ∃ l1 l2 l3, (delete_member key ms).*1 = l1 ++ "enum" :: l2 ++ "type" :: l3.
Proof.
  intros H1 H2 (l1 & l2 & l3 & E). rewrite delete_keys, E, filter_app, filter_cons_True, filter_app, filter_cons_True by done. by do 3 eexists.
Qed.

Lemma collected_deleted result key : collected result → key ≠ "enum" → key ≠ "type" → collected (delete_member key result).
Proof.
  intros Hc H1 H2. split.
  - rewrite delete_keys. apply NoDup_filter, Hc.
  - apply forall_delete, Hc.
  - intros values. rewrite get_delete, decide_False by done. intros Hget. destruct (co_enum _ Hc values Hget) as [Ht Ho]. split; [done|].
    rewrite (numeric_get _ result) by (by rewrite get_delete, decide_False). intros Hn. by apply order_deleted, Ho.
  - intros fields. rewrite get_delete. case_decide; [done|]. apply Hc.
Qed.

(** The object that is left in the end. *)
Lemma finished result : collected result → ∃ out, finish result = Ret (JObj out) ∧ node_normal out ∧ Forall (λ m, normal m.2) out.
Proof.
  intros Hc. destruct (required_kept _ Hc) as (r1 & E1 & Hc1 & Hreq). destruct (items_completed _ Hc1) as (Hc2 & Hsame & Hitems).
  unfold finish. rewrite E1. cbn [try_fmap]. set (r2 := complete_items r1) in *. exists (drop_object_members r2). split; [done|].
  assert (∀ key, key ≠ "items" → json_get key (JObj r2) = json_get key (JObj r1)) as Hs by done. clear Hsame. clearbody r2.
  assert (hasCombiner (JObj r2) = hasCombiner (JObj r1)) as Hcomb by (apply combiner_same; intros; apply Hs; set_solver).
  assert (∀ t, has_type t r2 = has_type t r1) as Ht by (intros t; apply type_get, Hs; done).
  unfold drop_object_members. fold (has_type "object" r2).
  destruct (negb (falsy (json_get "type" (JObj r2))) && negb (has_type "object" r2) && negb (hasCombiner (JObj r2))) eqn:Hcond.
  - apply andb_true_iff in Hcond as [[H1 H2]%andb_true_iff H3].
    set (r3 := delete_member "required" (delete_member "properties" r2)).
    assert (collected r3) as Hc3 by (by repeat apply collected_deleted).
    assert (∀ key, key ≠ "properties" → key ≠ "required" → json_get key (JObj r3) = json_get key (JObj r2)) as Hs3.
    { intros key Ha Hb. unfold r3. by rewrite !get_delete, !decide_False. }
    assert (hasCombiner (JObj r3) = hasCombiner (JObj r2)) as Hcomb3 by (apply combiner_same; intros; apply Hs3; set_solver).
    assert (∀ t, has_type t r3 = has_type t r2) as Ht3 by (intros t; by apply type_get, Hs3).
    split; [|apply Hc3]. split; [apply Hc3|apply Hc3|..].
    + intros fields required. rewrite Ht3. by destruct (has_type "object" r2).
    + rewrite Ht3, Ht, Hcomb3, Hcomb, Hs3 by done. apply Hitems.
    + intros _ _ _. split; apply json_get_None; unfold r3; rewrite !get_delete; [rewrite decide_False by done|]; by rewrite decide_True.
  - split; [|apply Hc2]. split; [apply Hc2|apply Hc2|..].
    + intros fields required. rewrite Ht, !Hs by done. apply Hreq.
    + rewrite Ht, Hcomb. apply Hitems.
    + intros H1 H2 H3. by rewrite H1, H2, H3 in Hcond.
Qed.

(** An array stays an array, an object an object, and everything else what it is. *)
Definition same_shape (v w : json) : Prop :=
  match v with
  | JArr _ => ∃ items, w = JArr items
  | JObj _ => ∃ members, w = JObj members
  | _ => w = v
  end.

(** The loop ends in an object that follows the rules. *)
Lemma entries_finish members : ∀ result, collected result → NoDup (result.*1 ++ members.*1) →
  Forall (λ m, ∃ v, sanitizeGemini m.2 = Ret v ∧ normal v ∧ same_shape m.2 v) members →
  (∀ fields, ("properties", fields) ∈ members → scalar fields → falsy (Some fields) = true) →
  ∃ out, entries members result = Ret (JObj out) ∧ normal (JObj out).
Proof.
  induction members as [|[key value] members IH]; intros result Hc Hnd Hall Hprop.
  { destruct (finished _ Hc) as (out & E & Hn & Ho). exists out. split; [done|]. by apply normal_object. }
  apply Forall_cons in Hall as [(v & Hv & Hn & Hshape) Hall]. cbn [snd] in *. rewrite fmap_cons in Hnd. cbn [fst] in Hnd.
  assert (key ∉ result.*1) as Hk.
  { intros Hin. apply NoDup_app in Hnd as (_ & Hd & _). apply (Hd _ Hin). by left. }
  assert (∀ fields, ("properties", fields) ∈ members → scalar fields → falsy (Some fields) = true) as Hprop'.
  { intros fields Hin. apply Hprop. by right. }
  rewrite entries_cons. rewrite Hv.
  assert ((key = "enum" → ∀ values, value ≠ JArr values) → ∃ out, entries members (set_member key v result) = Ret (JObj out) ∧ normal (JObj out)) as Hstep.
  { intros Henum. apply IH; [|by rewrite set_member_keys, decide_False, <-app_assoc|done..]. apply collected_new; [done..| |].
    - intros Hk' values ->. destruct value; cbn in Hshape; try done; [by destruct (Henum Hk' items)|by destruct Hshape].
    - intros -> Hs. assert (v = value) as ->; [|by apply Hprop; [left|]].
      destruct value; cbn in Hshape; try done; by destruct Hshape as [? ->]. }
  destruct (String.eqb_spec key "enum") as [->|Hne]; [|by apply Hstep].
  destruct value as [| | | |values|]; try (by apply Hstep; intros _ ?).
  apply IH; [by apply collected_enum| |done..]. by rewrite enum_entry_keys, <-app_assoc.
Qed.

Lemma sanitize_document v : schema_document v → ∃ out, sanitizeGemini v = Ret out ∧ normal out ∧ same_shape v out.
Proof.
  induction v as [| | | |items IH|members IH] using json_nested_ind; intros Hv; try (eexists; split_and!; [done|by constructor|done]);
    inversion Hv as [? Hs|? Hall|? Hnd Hprop Hall]; subst; try done.
  - assert (∃ out, try_map sanitizeGemini items = Ret out ∧ Forall normal out) as (out & E & Hout).
    { clear Hv. induction items as [|x items IHi]; [by exists []|]. apply Forall_cons in IH as [Hx IH]. apply Forall_cons in Hall as [Hd Hall].
      destruct (Hx Hd) as (y & Ey & Hy & _). destruct (IHi IH Hall) as (ys & Eys & Hys). exists (y :: ys). cbn [try_map]. rewrite Ey, Eys.
      split; [done|by constructor]. }
    exists (JArr out). cbn [sanitizeGemini]. rewrite E. split_and!; [done|by apply normal_array|by eexists].
  - destruct (entries_finish members []) as (out & E & Hout).
    + split; [by constructor|by constructor|done..].
    + done.
    + rewrite Forall_forall in IH, Hall |- *. intros m Hm. by apply IH, Hall.
    + intros fields Hin. apply Hprop. by apply get_member.
    + exists (JObj out). rewrite sanitize_object. split_and!; [done..|by eexists].
Qed.

(** *** What is kept *)

(** The members that the rules are about. *)
Definition REWRITTEN : list string := ["type"; "enum"; "items"; "required"; "properties"].

Definition sanitized (v : json) : option json := match sanitizeGemini v with Ret y => Some y | Throw _ => None end.

Lemma drop_keeps key ms : (key ≠ "properties" ∧ key ≠ "required") ∨ has_type "object" ms = true →
  json_get key (JObj (drop_object_members ms)) = json_get key (JObj ms).
Proof.
  unfold drop_object_members, has_type. intros Hk. destruct (_ && _) eqn:E; [|done]. rewrite !get_delete.
  destruct Hk as [[H1 H2]|Ht]; [by rewrite !decide_False|]. by rewrite Ht, andb_false_r in E.
Qed.

Lemma complete_keeps key ms : NoDup ms.*1 → key ≠ "items" ∨ has_type "array" ms = false →
  json_get key (JObj (complete_items ms)) = json_get key (JObj ms) ∧ NoDup (complete_items ms).*1.
Proof.
  intros Hnd Hk. unfold complete_items. destruct Hk as [Hk| ->]; [|done]. destruct (_ && _); [|done].
  set (ms' := match json_get "items" (JObj ms) with None | Some JNull => _ | _ => _ end).
  assert (NoDup ms'.*1 ∧ json_get key (JObj ms') = json_get key (JObj ms)) as [Hnd' <-].
  { unfold ms'. destruct (json_get "items" (JObj ms)) as [[]|]; try done; (split; [by apply set_member_unique|by apply get_set]). }
  destruct (json_get "items" (JObj ms')) as [[]|]; try done. destruct (hasSchemaIntent _); [done|].
  split; [by apply get_set|by apply set_member_unique].
Qed.

Lemma filter_keeps key ms ms' : NoDup ms.*1 → filter_required ms = Ret ms' → key ≠ "required" →
  json_get key (JObj ms') = json_get key (JObj ms) ∧ NoDup ms'.*1.
Proof.
  intros Hnd E Hk. revert E. unfold filter_required. destruct (json_get "properties" _); [|by intros [= <-]].
  destruct (json_get "required" _) as [[]|]; try (by intros [= <-]). destruct (_ && _); [|by intros [= <-]].
  destruct (try_filter _ _); [|done]. intros [= <-]. split; [by apply get_set|by apply set_member_unique].
Qed.

Lemma finish_other result out key : NoDup result.*1 → key ∉ REWRITTEN → finish result = Ret (JObj out) →
  json_get key (JObj out) = json_get key (JObj result).
Proof.
  intros Hnd Hk. assert (key ≠ "items" ∧ key ≠ "required" ∧ key ≠ "properties") as (H1 & H2 & H3) by set_solver.
  unfold finish. destruct (filter_required result) as [r1|] eqn:E1; [|done]. cbn [try_fmap]. intros [= <-].
  destruct (filter_keeps key _ _ Hnd E1 H2) as [<- Hnd1]. rewrite drop_keeps by auto. by apply complete_keeps; [|left].
Qed.

Lemma finish_object result y : finish result = Ret y → ∃ ms, y = JObj ms.
Proof. unfold finish. destruct (filter_required result); [|done]. intros [= <-]. by eexists. Qed.

Lemma entries_object members : ∀ result y, entries members result = Ret y → ∃ ms, y = JObj ms.
Proof.
  induction members as [|[key value] members IH]; intros result y; [apply finish_object|]. rewrite entries_cons.
  destruct (if String.eqb key "enum" then _ else _); [apply IH|]. destruct (sanitizeGemini value); [apply IH|done].
Qed.

Definition numeric_value (o : option json) : bool := equals_string "integer" o || equals_string "number" o.

Lemma numeric_type_get ms : numeric_type ms = numeric_value (json_get "type" (JObj ms)).
Proof. done. Qed.

Lemma numeric_sanitized value : numeric_value (sanitized value) = numeric_value (Some value).
Proof.
  unfold sanitized. destruct value as [| | | |items|members]; try done; cbn [sanitizeGemini].
  - by destruct (try_map sanitizeGemini items).
  - change (numeric_value (match sanitizeGemini (JObj members) with Ret y => Some y | Throw _ => None end) = false).
    destruct (sanitizeGemini (JObj members)) as [y|] eqn:E; [|done]. rewrite sanitize_object in E.
    by destruct (entries_object _ _ _ E) as [ms ->].
Qed.

Lemma enum_entry_type result values : NoDup result.*1 → numeric_type result = false →
  json_get "type" (JObj (enum_entry values result)) = json_get "type" (JObj result).
Proof.
  intros Hnd Hnum. unfold enum_entry. set (result' := set_member "enum" _ result).
  assert (json_get "type" (JObj result') = json_get "type" (JObj result)) as E by (by apply get_set).
  fold (numeric_type result'). by rewrite (numeric_get _ _ E), Hnum.
Qed.

(** What the loop hands to [finish]: [enum] apart, the members are rewritten in
    place; the type too, unless it is numeric. *)
Lemma entries_collect members : ∀ result out, NoDup (result.*1 ++ members.*1) → entries members result = Ret out →
  ∃ raw, finish raw = Ret out ∧ NoDup raw.*1 ∧
    ∀ key, key ≠ "enum" → (key = "type" → numeric_type members = false ∧ numeric_type result = false) →
      json_get key (JObj raw) = match json_get key (JObj members) with Some x => sanitized x | None => json_get key (JObj result) end.
Proof.
  induction members as [|[k value] members IH]; intros result out Hnd Hrun.
  { exists result. rewrite app_nil_r in Hnd. split_and!; done. }
  rewrite fmap_cons in Hnd. cbn [fst] in Hnd. pose proof Hnd as (Hr & Hd & Hm)%NoDup_app. apply NoDup_cons in Hm as [Hkm Hm].
  assert (k ∉ result.*1) as Hk by (intros Hin; apply (Hd _ Hin); by left).
  rewrite entries_cons in Hrun.
  assert (∀ result', result'.*1 = result.*1 ++ [k] →
    (∀ key, key ≠ "enum" → (key = "type" → numeric_type ((k, value) :: members) = false ∧ numeric_type result = false) →
      json_get key (JObj result') = if decide (k = key) then sanitized value else json_get key (JObj result)) →
    entries members result' = Ret out →
    ∃ raw, finish raw = Ret out ∧ NoDup raw.*1 ∧
      ∀ key, key ≠ "enum" → (key = "type" → numeric_type ((k, value) :: members) = false ∧ numeric_type result = false) →
        json_get key (JObj raw) = match json_get key (JObj ((k, value) :: members)) with Some x => sanitized x | None => json_get key (JObj result) end) as Hstep.
  { intros result' Hkeys Hget Hrest. destruct (IH result' out) as (raw & Hfin & Hraw & Hall); [by rewrite Hkeys, <-app_assoc|done|].
    exists raw. split_and!; [done..|]. intros key He Ht. specialize (Hget key He Ht). rewrite Hall; [|done|].
    - rewrite Hget, json_get_cons. cbn [fst snd]. destruct (decide (k = key)) as [<-|Hne].
      + apply json_get_None in Hkm. by rewrite Hkm.
      + by destruct (json_get key (JObj members)).
    - intros ->. destruct (Ht eq_refl) as [Hnum Hres]. rewrite numeric_type_get in Hnum, Hres |- *. rewrite numeric_type_get, Hget.
      rewrite json_get_cons in Hnum. cbn [fst snd] in Hnum. destruct (decide (k = "type")) as [->|Hne].
      + apply json_get_None in Hkm. rewrite Hkm in *. by rewrite numeric_sanitized.
      + by destruct (json_get "type" (JObj members)). }
  destruct (if String.eqb k "enum" then _ else _) as [values|] eqn:Eenum.
  - destruct (String.eqb_spec k "enum") as [->|]; [|done]. apply (Hstep (enum_entry values result)); [by apply enum_entry_keys| |done].
    intros key He Ht. rewrite decide_False by done. destruct (decide (key = "type")) as [->|Hne].
    + by apply enum_entry_type, Ht.
    + apply enum_entry_other; [done|set_solver].
  - destruct (sanitizeGemini value) as [v|] eqn:Ev; [|done].
    apply (Hstep (set_member k v result)); [by rewrite set_member_keys, decide_False| |done].
    intros key _ _. rewrite set_member_get by done. unfold sanitized. rewrite Ev. by destruct (decide (k = key)), (decide (key = k)).
Qed.

Lemma entries_other members key out : key ∉ REWRITTEN → NoDup members.*1 → entries members [] = Ret (JObj out) →
  json_get key (JObj out) = json_get key (JObj members) ≫= sanitized.
Proof.
  intros Hkey Hnd Hrun. destruct (entries_collect members [] (JObj out)) as (raw & Hfin & Hraw & Hall); [done..|].
  rewrite (finish_other raw out) by done. rewrite Hall by set_solver. by destruct (json_get key (JObj members)).
Qed.

(** *** What is rewritten *)

Definition known_fields (fields : list (string * json)) (required : list json) : list json :=
  filter (λ field, js_String field ∈ fields.*1 ∨ js_String field ∈ OBJECT_PROTOTYPE) required.

(** What the rules keep of the members they are about: a type that is not numeric;
    the properties of an object with those of the required fields that [in] finds
    there; and the items of an array that say something. *)
Record rewritten (members out : list (string * json)) : Prop := mkRewritten {
  rw_type : numeric_type members = false → json_get "type" (JObj out) = json_get "type" (JObj members) ≫= sanitized;
  rw_fields : ∀ fields fields' required, has_type "object" members = true →
    json_get "properties" (JObj members) = Some fields → sanitized fields = Some (JObj fields') →
    json_get "required" (JObj members) = Some (JArr required) → Forall is_text required →
    json_get "properties" (JObj out) = Some (JObj fields') ∧
    json_get "required" (JObj out) = Some (JArr (known_fields fields' required));
  rw_items : ∀ items items', has_type "array" members = true → json_get "items" (JObj members) = Some items →
    sanitized items = Some items' → hasSchemaIntent items' = true → json_get "items" (JObj out) = Some items';
}.

Lemma has_type_get t ms : has_type t ms = true ↔ json_get "type" (JObj ms) = Some (JStr t).
Proof.
  unfold has_type, equals_string, is_string. destruct (json_get "type" (JObj ms)) as [[]|]; try done. cbn [from_option].
  rewrite String.eqb_eq. naive_solver.
Qed.

(** What [finish] does to the properties and the items. *)
Lemma finish_fields raw out fields required : NoDup raw.*1 → finish raw = Ret (JObj out) → has_type "object" raw = true →
  json_get "properties" (JObj raw) = Some (JObj fields) → json_get "required" (JObj raw) = Some (JArr required) →
  json_get "properties" (JObj out) = Some (JObj fields) ∧ json_get "required" (JObj out) = Some (JArr (known_fields fields required)).
Proof.
  intros Hnd Hfin Ht Hf Hr. revert Hfin. unfold finish.
  assert (filter_required raw = Ret (set_member "required" (JArr (known_fields fields required)) raw)) as ->.
  { unfold filter_required. rewrite Hf, Hr, Ht. cbn [andb negb falsy]. unfold known_fields. erewrite try_filter_ret; [done|].
    by apply Forall_true. }
  intros [= <-]. set (ms := set_member _ _ raw).
  assert (NoDup ms.*1) as Hms by (by apply set_member_unique).
  assert (∀ key, json_get key (JObj (complete_items ms)) = json_get key (JObj ms)) as Hkeep.
  { intros key. apply complete_keeps; [done|]. right. apply has_type_get in Ht. unfold has_type, ms. by rewrite get_set, Ht. }
  rewrite !drop_keeps, !Hkeep by (right; apply has_type_get; rewrite Hkeep; unfold ms; rewrite get_set by done; by apply has_type_get).
  unfold ms. by rewrite get_set, get_set_same.
Qed.

Lemma finish_items raw out items : NoDup raw.*1 → finish raw = Ret (JObj out) → has_type "array" raw = true →
  json_get "items" (JObj raw) = Some items → hasSchemaIntent items = true → json_get "items" (JObj out) = Some items.
Proof.
  intros Hnd Hfin Ht Hi Hint. revert Hfin. unfold finish. destruct (filter_required raw) as [r|] eqn:E; [|done]. intros [= <-].
  destruct (filter_keeps "items" _ _ Hnd E) as [Er _]; [done|]. rewrite Hi in Er. rewrite drop_keeps by (left; done).
  unfold complete_items. destruct (_ && _); [|done]. rewrite Er. destruct items; try done. by rewrite Er, Hint.
Qed.

Lemma finish_type raw out : NoDup raw.*1 → finish raw = Ret (JObj out) → json_get "type" (JObj out) = json_get "type" (JObj raw).
Proof.
  intros Hnd. unfold finish. destruct (filter_required raw) as [r|] eqn:E; [|done]. intros [= <-].
  destruct (filter_keeps "type" _ _ Hnd E) as [<- Hr]; [done|]. rewrite drop_keeps by (left; done). by apply complete_keeps; [|left].
Qed.

Lemma sanitize_texts required : Forall is_text required → sanitized (JArr required) = Some (JArr required).
Proof.
  intros Hall. assert (try_map sanitizeGemini required = Ret required) as E; [|unfold sanitized; cbn [sanitizeGemini]; by rewrite E].
  induction Hall as [|x required [t ->] _ IH]; [done|]. cbn [try_map sanitizeGemini]. by rewrite IH.
Qed.

Lemma entries_rewritten members out : NoDup members.*1 → entries members [] = Ret (JObj out) → rewritten members out.
Proof.
  intros Hnd Hrun. destruct (entries_collect members [] (JObj out)) as (raw & Hfin & Hraw & Hall); [done..|].
  assert (∀ key, key ≠ "enum" → (key = "type" → numeric_type members = false) →
    json_get key (JObj raw) = json_get key (JObj members) ≫= sanitized) as Hget.
  { intros key He Ht. rewrite Hall; [by destruct (json_get key (JObj members))|done|]. intros ->. by split; [apply Ht|]. }
  assert (∀ t, t ≠ "integer" → t ≠ "number" → has_type t members = true → has_type t raw = true) as Htype.
  { intros t Hi Hn Ht%has_type_get. apply has_type_get. rewrite Hget; [by rewrite Ht|done|]. intros _.
    apply orb_false_iff. split; apply not_true_iff_false; rewrite has_type_get; congruence. }
  split.
  - intros Ht. rewrite (finish_type raw out), Hget by done. done.
  - intros fields fields' required Ht Hf Hs Hr Htexts. apply finish_fields with raw; [done..|by apply Htype| |].
    + by rewrite Hget, Hf.
    + rewrite Hget, Hr by done. by apply sanitize_texts.
  - intros items items' Ht Hi Hs Hint. apply (finish_items raw out); [done..|by apply Htype| |done]. rewrite Hget, Hi by done. done.
Qed.

(** ** The schema that is sent *)

Definition for_gemini (providerID api_id : string) : bool := String.eqb providerID "google" || includes api_id "gemini".

Lemma document_unique members : schema_document (JObj members) → NoDup members.*1.
Proof. by inversion 1. Qed.


Definition demo_schema : json :=
  JObj [("type", JStr "object");
        ("properties", JObj [("level", JObj [("type", JStr "integer"); ("enum", JArr [JNum "1"; JNum "2"])]);
                             ("tags", JObj [("type", JStr "array")])]);
        ("required", JArr [JStr "level"; JStr "colour"])].

(** Decides concrete documents. *)
Ltac solve_document :=
  lazymatch goal with
  | |- schema_document (JObj _) =>
    apply document_object;
      [apply (bool_decide_unpack _); vm_compute; exact I
      |intros fields Hf; vm_compute in Hf; first [discriminate Hf|injection Hf as <-; intros []]
      |solve_document]
  | |- schema_document (JArr _) => apply document_array; solve_document
  | |- schema_document _ => apply document_scalar; exact I
  | |- Forall _ [] => apply Forall_nil_2
  | |- Forall _ (_ :: _) => apply Forall_cons_2; [cbn [snd]; solve_document|solve_document]
  end.


(** An enumeration that comes before its type keeps the numeric type beside the
    texts. *)
Example enum_before_its_type :
  sanitizeGemini (JObj [("enum", JArr [JNum "1"; JNum "2"]); ("type", JStr "integer")]) =
    Ret (JObj [("enum", JArr [JStr "1"; JStr "2"]); ("type", JStr "integer")]).
Proof. vm_compute. reflexivity. Qed.

(** An object that may be [null] loses its properties. *)
Example nullable_object_emptied :
  sanitizeGemini (JObj [("type", JArr [JStr "object"; JStr "null"]); ("properties", JObj [("a", JObj [("type", JStr "string")])]);
                        ("required", JArr [JStr "a"])]) =
    Ret (JObj [("type", JArr [JStr "object"; JStr "null"])]).
Proof. vm_compute. reflexivity. Qed.

(** Properties are rewritten as if they were a schema: beside a property called
    [type] the properties called [properties] and [required] are lost. *)
Example property_lost :
  sanitizeGemini (JObj [("type", JStr "object");
                        ("properties", JObj [("type", JObj [("type", JStr "string")]); ("required", JObj [("type", JStr "boolean")])]);
                        ("required", JArr [JStr "type"; JStr "required"])]) =
    Ret (JObj [("type", JStr "object"); ("properties", JObj [("type", JObj [("type", JStr "string")])]); ("required", JArr [JStr "type"])]).
Proof. vm_compute. reflexivity. Qed.

(** A required field that is not a property but a member of [Object.prototype]
    stays. *)
Example inherited_field_kept :
  sanitizeGemini (JObj [("type", JStr "object"); ("properties", JObj []); ("required", JArr [JStr "constructor"; JStr "a"])]) =
    Ret (JObj [("type", JStr "object"); ("properties", JObj []); ("required", JArr [JStr "constructor"])]).
Proof. vm_compute. reflexivity. Qed.
