(* ===== verification/ModelOptions.v ===== *)
(** * Options of models

    The sampling parameters, reasoning variants and provider options of
    [packages/providers/src/provider/transform.ts].

    A model has the members of [packages/shared/src/types/model.ts] that are read
    here.  Token counts are integers, at which the doubles of the source are
    exact.  Options are objects; of what an object inherits nothing is looked up. *)

From S2P Require Import Prelude Json Regex.
From Stdlib Require Import Ascii String ZArith QArith.
From stdpp Require Import prelude list strings pretty.
Set Default Goal Selector "!".
Set Default Proof Using "Type".
Set Warnings "-clear-no-such-hyp".
Open Scope nat_scope.

(** ** Models *)

Inductive Modality : Type := modality_text | modality_audio | modality_image | modality_video | modality_pdf.

Definition modality_name (m : Modality) : string :=
  match m with
  | modality_text => "text" | modality_audio => "audio" | modality_image => "image" | modality_video => "video" | modality_pdf => "pdf"
  end.

(** [boolean | { field }]. *)
Inductive Interleaved : Type := interleaved_flag (b : bool) | interleaved_field (field : string).

Record Model : Type := mkModel {
  md_id : string;
  md_providerID : string;
  md_npm : string;
  md_api_id : string;
  md_reasoning : bool;
  md_input : Modality → bool;
  md_interleaved : Interleaved;
  md_output : Z;
  md_release_date : option string;
}.

Abbreviation options_t := (list (string * json)).

(** [keys.some((s) => text.includes(s))]. *)
Definition includes_any (text : string) (keys : list string) : bool := existsb (includes text) keys.

(** [names.includes(name)], and the labels of a [case]. *)
Definition is_one_of (name : string) (names : list string) : bool := existsb (String.eqb name) names.

(** ** Sampling *)

Definition temperature (model : Model) : option Q :=
  let id := toLowerCase (md_id model) in
  if includes id "qwen" then Some (55 # 100)%Q
  else if includes id "claude" then None
  else if includes id "gemini" then Some 1%Q
  else if includes id "glm-4.6" then Some 1%Q
  else if includes id "glm-4.7" then Some 1%Q
  else if includes id "minimax-m2" then Some 1%Q
  else if includes id "kimi-k2" then
    if includes_any id ["thinking"; "k2."; "k2p"; "k2-5"] then Some 1%Q else Some (6 # 10)%Q
  else None.

Definition topP (model : Model) : option Q :=
  let id := toLowerCase (md_id model) in
  if includes id "qwen" then Some 1%Q
  else if includes_any id ["minimax-m2"; "gemini"; "kimi-k2.5"; "kimi-k2p5"; "kimi-k2-5"] then Some (95 # 100)%Q
  else None.

Definition topK (model : Model) : option Z :=
  let id := toLowerCase (md_id model) in
  if includes id "minimax-m2" then
    if includes_any id ["m2."; "m25"; "m21"] then Some 40%Z else Some 20%Z
  else if includes id "gemini" then Some 64%Z
  else None.

(** ** Variants *)

Definition WIDELY_SUPPORTED_EFFORTS : list string := ["low"; "medium"; "high"].
Definition OPENAI_EFFORTS : list string := ["none"; "minimal"] ++ WIDELY_SUPPORTED_EFFORTS ++ ["xhigh"].

Definition anthropicAdaptiveEfforts (apiId : string) : option (list string) :=
  if includes_any apiId ["opus-4-7"; "opus-4.7"] then Some ["low"; "medium"; "high"; "xhigh"; "max"]
  else if includes_any apiId ["opus-4-6"; "opus-4.6"; "sonnet-4-6"; "sonnet-4.6"] then Some ["low"; "medium"; "high"; "max"]
  else None.

(** [Object.fromEntries(efforts.map((effort) => [effort, f(effort)]))], for
    different efforts. *)
Definition each_effort (efforts : list string) (f : string → options_t) : options_t := (λ effort, (effort, JObj (f effort))) <$> efforts.

Definition reasoning_effort (effort : string) : options_t := [("reasoningEffort", JStr effort)].

Definition reasoning_nested (effort : string) : options_t := [("reasoning", JObj [("effort", JStr effort)])].

Definition reasoning_encrypted (effort : string) : options_t :=
  [("reasoningEffort", JStr effort); ("reasoningSummary", JStr "auto"); ("include", JArr [JStr "reasoning.encrypted_content"])].

(** [{ thinking: { type: "adaptive" }, effort }]. *)
Definition thinking_adaptive (display : options_t) (effort : string) : options_t :=
  [("thinking", JObj ([("type", JStr "adaptive")] ++ display)); ("effort", JStr effort)].

Definition thinking_budget (tokens : Z) : json :=
  JObj [("thinking", JObj [("type", JStr "enabled"); ("budgetTokens", JInt tokens)])].

Definition thinking_budgets (high max : Z) : options_t := [("high", thinking_budget high); ("max", thinking_budget max)].

Definition google_budget (tokens : Z) : json :=
  JObj [("thinkingConfig", JObj [("includeThoughts", JBool true); ("thinkingBudget", JInt tokens)])].

Definition google_budgets : options_t := [("high", google_budget 16000); ("max", google_budget 24576)].

Definition google_level (effort : string) : options_t :=
  [("thinkingConfig", JObj [("includeThoughts", JBool true); ("thinkingLevel", JStr effort)])].

Definition bedrock_budget (tokens : Z) : json :=
  JObj [("reasoningConfig", JObj [("type", JStr "enabled"); ("budgetTokens", JInt tokens)])].

Definition bedrock_adaptive (display : options_t) (effort : string) : options_t :=
  [("reasoningConfig", JObj ([("type", JStr "adaptive"); ("maxReasoningEffort", JStr effort)] ++ display))].

Definition bedrock_effort (effort : string) : options_t :=
  [("reasoningConfig", JObj [("type", JStr "enabled"); ("maxReasoningEffort", JStr effort)])].

(** [...(opus 4.7 ? { display: "summarized" } : {})]. *)
Definition summarized (apiId : string) : options_t :=
  if includes apiId "opus-4-7" || includes apiId "opus-4.7" then [("display", JStr "summarized")] else [].

(** [model.release_date >= date]; a comparison with [undefined] is false. *)
Definition released_since (model : Model) (date : string) : bool :=
  match md_release_date model with Some d => String.leb date d | None => false end.

Definition gpt5 (id : string) : bool := includes id "gpt-5-" || String.eqb id "gpt-5".

Definition copilotEfforts (model : Model) (id : string) : list string :=
  if includes id "5.1-codex-max" || includes id "5.2" || includes id "5.3" then WIDELY_SUPPORTED_EFFORTS ++ ["xhigh"]
  else WIDELY_SUPPORTED_EFFORTS ++ (if includes id "gpt-5" && released_since model "2025-12-04" then ["xhigh"] else []).

Definition azureEfforts (id : string) : list string := (if gpt5 id then ["minimal"] else []) ++ ["low"; "medium"; "high"].

Definition openaiEfforts (model : Model) (id : string) : list string :=
  if includes id "codex" then
    if includes id "5.2" || includes id "5.3" then WIDELY_SUPPORTED_EFFORTS ++ ["xhigh"] else WIDELY_SUPPORTED_EFFORTS
  else (if released_since model "2025-11-13" then ["none"] else []) ++ (if gpt5 id then ["minimal"] else [])
       ++ WIDELY_SUPPORTED_EFFORTS ++ (if released_since model "2025-12-04" then ["xhigh"] else []).

(** [/\bo[1-9]/]. *)
Definition o_series : regex :=
  RSeq RWordB (RSeq (chr "o") (RClass (λ c, let n := nat_of_ascii c in (49 <=? n) && (n <=? 57)))).

Definition gateway_variants (model : Model) (id : string) (adaptive : option (list string)) : options_t :=
  if includes (md_id model) "anthropic" then
    match adaptive with
    | Some efforts => each_effort efforts (thinking_adaptive [])
    | None => thinking_budgets 16000 31999
    end
  else if includes (md_id model) "google" then
    if includes id "2.5" then google_budgets
    else each_effort ["low"; "high"] (λ effort, [("includeThoughts", JBool true); ("thinkingLevel", JStr effort)])
  else each_effort OPENAI_EFFORTS reasoning_effort.

Definition anthropic_variants (model : Model) (adaptive : option (list string)) : options_t :=
  if String.eqb (md_providerID model) "github-copilot" && includes (md_api_id model) "opus-4.7"
  then each_effort ["medium"] reasoning_effort
  else match adaptive with
       | Some efforts => each_effort efforts (thinking_adaptive (summarized (md_api_id model)))
       | None => thinking_budgets (Z.min 16000 ((md_output model - 2) / 2)) (Z.min 31999 (md_output model - 1))
       end.

Definition bedrock_variants (model : Model) (adaptive : option (list string)) : options_t :=
  match adaptive with
  | Some efforts => each_effort efforts (bedrock_adaptive (summarized (md_api_id model)))
  | None =>
    if includes (md_api_id model) "anthropic" then [("high", bedrock_budget 16000); ("max", bedrock_budget 31999)]
    else each_effort WIDELY_SUPPORTED_EFFORTS bedrock_effort
  end.

Definition sap_variants (model : Model) (id : string) (adaptive : option (list string)) : options_t :=
  if includes (md_api_id model) "anthropic" then
    match adaptive with
    | Some efforts => each_effort efforts (thinking_adaptive [])
    | None => thinking_budgets 16000 31999
    end
  else if includes (md_api_id model) "gemini" && includes id "2.5" then google_budgets
  else if includes (md_api_id model) "gpt" || test o_series (md_api_id model)
  then each_effort WIDELY_SUPPORTED_EFFORTS reasoning_effort
  else [].

Definition google_variants (id : string) : options_t :=
  if includes id "2.5" then google_budgets
  else each_effort (if includes id "3.1" then ["low"; "medium"; "high"] else ["low"; "high"]) google_level.

Definition mistral_variants (model : Model) : options_t :=
  let mistralId := toLowerCase (md_api_id model) in
  if negb (md_reasoning model) then []
  else if negb (includes mistralId "mistral-small-2603") && negb (includes mistralId "mistral-small-latest") then []
  else [("high", JObj (reasoning_effort "high"))].

(** The [switch] on the package of the model's SDK. *)
Definition npm_variants (model : Model) (id : string) (adaptive : option (list string)) : options_t :=
  let npm := md_npm model in
  if String.eqb npm "@openrouter/ai-sdk-provider" then
    if negb (includes_any (md_id model) ["gpt"; "gemini-3"; "claude"]) then [] else each_effort OPENAI_EFFORTS reasoning_nested
  else if String.eqb npm "@ai-sdk/gateway" then gateway_variants model id adaptive
  else if String.eqb npm "@ai-sdk/github-copilot" then
    if includes (md_id model) "gemini" then []
    else if includes (md_id model) "claude" then each_effort WIDELY_SUPPORTED_EFFORTS reasoning_effort
    else each_effort (copilotEfforts model id) reasoning_encrypted
  else if is_one_of npm ["@ai-sdk/cerebras"; "@ai-sdk/togetherai"; "@ai-sdk/xai"; "@ai-sdk/deepinfra"; "venice-ai-sdk-provider";
                      "@ai-sdk/openai-compatible"] then
    each_effort (WIDELY_SUPPORTED_EFFORTS ++ (if includes (md_api_id model) "deepseek-v4" then ["max"] else [])) reasoning_effort
  else if String.eqb npm "@ai-sdk/azure" then
    if String.eqb id "o1-mini" then [] else each_effort (azureEfforts id) reasoning_encrypted
  else if String.eqb npm "@ai-sdk/openai" then
    if String.eqb id "gpt-5-pro" then [] else each_effort (openaiEfforts model id) reasoning_encrypted
  else if is_one_of npm ["@ai-sdk/anthropic"; "@ai-sdk/google-vertex/anthropic"] then anthropic_variants model adaptive
  else if String.eqb npm "@ai-sdk/amazon-bedrock" then bedrock_variants model adaptive
  else if is_one_of npm ["@ai-sdk/google-vertex"; "@ai-sdk/google"] then
    google_variants id
  else if String.eqb npm "@ai-sdk/mistral" then mistral_variants model
  else if String.eqb npm "@ai-sdk/cohere" then []
  else if String.eqb npm "@ai-sdk/groq" then each_effort ("none" :: WIDELY_SUPPORTED_EFFORTS) reasoning_effort
  else if String.eqb npm "@ai-sdk/perplexity" then []
  else if String.eqb npm "@jerome-benoit/sap-ai-provider-v2" then sap_variants model id adaptive
  else [].

Definition variants (model : Model) : options_t :=
  if negb (md_reasoning model) then []
  else
    let id := toLowerCase (md_id model) in
    let adaptive := anthropicAdaptiveEfforts (md_api_id model) in
    if includes_any id ["deepseek-chat"; "deepseek-reasoner"; "deepseek-r1"; "deepseek-v3"; "minimax"; "glm"; "kimi"; "k2p"; "qwen";
                        "big-pickle"] then []
    else if includes id "grok" && includes id "grok-3-mini" then
      if String.eqb (md_npm model) "@openrouter/ai-sdk-provider"
      then each_effort ["low"; "high"] reasoning_nested
      else each_effort ["low"; "high"] reasoning_effort
    else if includes id "grok" then []
    else npm_variants model id adaptive.

(** ** Default options *)

(** [if (condition) result[key] = value]. *)
Definition put (condition : bool) (key : string) (value : json) (result : options_t) : options_t :=
  if condition then set_member key value result else result.

(** The model, the id of the session and the options of the provider. *)
Record OptionsInput : Type := mkOptionsInput {
  oi_model : Model;
  oi_sessionID : string;
  oi_providerOptions : option json;
}.

Definition options (input : OptionsInput) : options_t :=
  let model := oi_model input in
  let session := JStr (oi_sessionID input) in
  let npm := md_npm model in let providerID := md_providerID model in let api_id := md_api_id model in
  let modelId := toLowerCase api_id in
  let result := put (String.eqb npm "@ai-sdk/google-vertex/anthropic") "toolStreaming" (JBool false) [] in
  let result := put (String.eqb providerID "openai" || String.eqb npm "@ai-sdk/openai" || String.eqb npm "@ai-sdk/github-copilot")
                  "store" (JBool false) result in
  let azure := String.eqb npm "@ai-sdk/azure" in
  let result := put azure "promptCacheKey" session (put azure "store" (JBool true) result) in
  let router := String.eqb npm "@openrouter/ai-sdk-provider" || String.eqb npm "@llmgateway/ai-sdk-provider" in
  let result := put router "usage" (JObj [("include", JBool true)]) result in
  let result := put (router && includes api_id "gemini-3") "reasoning" (JObj [("effort", JStr "high")]) result in
  let result := put (String.eqb providerID "baseten"
                     || String.eqb providerID "opencode" && is_one_of api_id ["kimi-k2-thinking"; "glm-4.6"])
                  "chat_template_args" (JObj [("enable_thinking", JBool true)]) result in
  let result := put (includes_any providerID ["zai"; "zhipuai"] && String.eqb npm "@ai-sdk/openai-compatible")
                  "thinking" (JObj [("type", JStr "enabled"); ("clear_thinking", JBool false)]) result in
  let result := put (String.eqb providerID "openai" || negb (falsy (opt_get "setCacheKey" (oi_providerOptions input))))
                  "promptCacheKey" session result in
  let result := put (is_one_of npm ["@ai-sdk/google"; "@ai-sdk/google-vertex"] && md_reasoning model) "thinkingConfig"
                  (JObj ([("includeThoughts", JBool true)]
                         ++ (if includes api_id "gemini-3" then [("thinkingLevel", JStr "high")] else []))) result in
  let result := put (is_one_of npm ["@ai-sdk/anthropic"; "@ai-sdk/google-vertex/anthropic"]
                     && includes_any modelId ["k2p"; "kimi-k2."; "kimi-k2p"]) "thinking"
                  (JObj [("type", JStr "enabled"); ("budgetTokens", JInt (Z.min 16000 ((md_output model - 2) / 2)))]) result in
  let result := put (String.eqb providerID "alibaba-cn" && md_reasoning model && String.eqb npm "@ai-sdk/openai-compatible"
                     && negb (includes modelId "kimi-k2-thinking")) "enable_thinking" (JBool true) result in
  let gpt := includes api_id "gpt-5" && negb (includes api_id "gpt-5-chat") in
  let effort := gpt && negb (includes api_id "gpt-5-pro") in
  let result := put effort "reasoningEffort" (JStr "medium") result in
  let result := put (effort && is_one_of npm ["@ai-sdk/openai"; "@ai-sdk/azure"; "@ai-sdk/github-copilot"])
                  "reasoningSummary" (JStr "auto") result in
  let result := put (gpt && includes api_id "gpt-5." && negb (includes api_id "codex") && negb (includes api_id "-chat")
                     && negb (String.eqb providerID "azure")) "textVerbosity" (JStr "low") result in
  let opencode := gpt && startsWith providerID "opencode" in
  let result := put opencode "promptCacheKey" session result in
  let result := put opencode "include" (JArr [JStr "reasoning.encrypted_content"]) result in
  let result := put opencode "reasoningSummary" (JStr "auto") result in
  let result := put (String.eqb providerID "venice") "promptCacheKey" session result in
  let result := put (String.eqb providerID "openrouter") "prompt_cache_key" session result in
  put (String.eqb npm "@ai-sdk/gateway") "gateway" (JObj [("caching", JStr "auto")]) result.

Definition smallOptions (model : Model) : options_t :=
  let providerID := md_providerID model in let npm := md_npm model in let api_id := md_api_id model in
  if String.eqb providerID "openai" || String.eqb npm "@ai-sdk/openai" || String.eqb npm "@ai-sdk/github-copilot" then
    if includes api_id "gpt-5" then
      if includes api_id "5." || includes api_id "5-mini"
      then [("store", JBool false); ("reasoningEffort", JStr "low")]
      else [("store", JBool false); ("reasoningEffort", JStr "minimal")]
    else [("store", JBool false)]
  else if String.eqb providerID "google" then
    if includes api_id "gemini-3" then [("thinkingConfig", JObj [("thinkingLevel", JStr "minimal")])]
    else [("thinkingConfig", JObj [("thinkingBudget", JInt 0)])]
  else if String.eqb providerID "openrouter" || String.eqb providerID "llmgateway" then
    if includes api_id "google" then [("reasoning", JObj [("enabled", JBool false)])] else [("reasoningEffort", JStr "minimal")]
  else if String.eqb providerID "venice" then [("veniceParameters", JObj [("disableThinking", JBool true)])]
  else [].

(** ** Options of a request *)

(** The key that the SDK of a package reads its options from. *)
Definition sdkKey (npm : string) : option string :=
  if String.eqb npm "@ai-sdk/github-copilot" then Some "copilot"
  else if String.eqb npm "@ai-sdk/azure" then Some "azure"
  else if String.eqb npm "@ai-sdk/openai" then Some "openai"
  else if String.eqb npm "@ai-sdk/amazon-bedrock" then Some "bedrock"
  else if is_one_of npm ["@ai-sdk/anthropic"; "@ai-sdk/google-vertex/anthropic"] then Some "anthropic"
  else if String.eqb npm "@ai-sdk/google-vertex" then Some "vertex"
  else if String.eqb npm "@ai-sdk/google" then Some "google"
  else if String.eqb npm "@ai-sdk/gateway" then Some "gateway"
  else if String.eqb npm "@openrouter/ai-sdk-provider" then Some "openrouter"
  else None.

Definition SLUG_OVERRIDES : list (string * string) := [("amazon", "bedrock")].

(** The part of a model's name before its first slash, if that is not empty. *)
Definition upstream_slug (api_id : string) : option string :=
  match indexOf api_id "/" with
  | Some (S i) =>
    let rawSlug := substring 0 (S i) api_id in
    Some (match find (λ o, String.eqb o.1 rawSlug) SLUG_OVERRIDES with Some o => o.2 | None => rawSlug end)
  | _ => None
  end.

(** [{ ...object, ...rest }]. *)
Definition spread_over (members rest : options_t) : options_t := foldl (λ result m, set_member m.1 m.2 result) members rest.

Definition gateway_options (api_id : string) (options : options_t) : options_t :=
  let gateway := json_get "gateway" (JObj options) in
  let rest := filter (λ m, m.1 ≠ "gateway") options in
  let result := opt_member "gateway" gateway in
  match rest with
  | [] => result
  | _ => match upstream_slug api_id, gateway with
         | Some slug, _ => set_member slug (JObj rest) result
         | None, Some (JObj members) => set_member "gateway" (JObj (spread_over members rest)) result
         | None, _ => set_member "gateway" (JObj rest) result
         end
  end.

Definition providerOptions (model : Model) (options : options_t) : options_t :=
  if String.eqb (md_npm model) "@ai-sdk/gateway" then gateway_options (md_api_id model) options
  else if String.eqb (md_npm model) "@ai-sdk/azure" then [("openai", JObj options); ("azure", JObj options)]
  else [(sdkKey (md_npm model) or_else md_providerID model, JObj options)].

(** [Flag.OPENCODE_EXPERIMENTAL_OUTPUT_TOKEN_MAX || 32_000]; a flag that is no
    number is absent. *)
Definition OUTPUT_TOKEN_MAX (flag : option Z) : Z :=
  match flag with Some z => if (z =? 0)%Z then 32000 else z | None => 32000 end%Z.

Definition maxOutputTokens (flag : option Z) (model : Model) : Z :=
  let m := Z.min (md_output model) (OUTPUT_TOKEN_MAX flag) in
  if (m =? 0)%Z then OUTPUT_TOKEN_MAX flag else m.

(** ** What the variants are *)

(** The efforts, from the least to the most. *)
Definition EFFORTS : list string := ["none"; "minimal"; "low"; "medium"; "high"; "xhigh"; "max"].

Lemma each_effort_names efforts f : (each_effort efforts f).*1 = efforts.
Proof. unfold each_effort. rewrite <-list_fmap_compose. apply list_fmap_id. Qed.

(** Splits on every condition in the goal. *)
Ltac split_conditions :=
  repeat match goal with
         | |- context [if ?b then _ else _] => lazymatch b with context [if _ then _ else _] => fail | _ => destruct b eqn:? end
         | |- context [match ?o with Some _ => _ | None => _ end] => destruct o eqn:?
         end.

Ltac ascending := cbn; solve [repeat first [apply sublist_nil_l|apply sublist_skip|apply sublist_cons]].

Lemma adaptive_ascending apiId efforts : anthropicAdaptiveEfforts apiId = Some efforts → efforts `sublist_of` EFFORTS.
Proof. unfold anthropicAdaptiveEfforts. split_conditions; intros [= <-]; ascending. Qed.

(** The names of variants on every branch of a definition. *)
Ltac names_ascending := split_conditions; rewrite ?each_effort_names; first [done|ascending|by eapply adaptive_ascending].

Lemma efforts_ascending model id : copilotEfforts model id `sublist_of` EFFORTS ∧ azureEfforts id `sublist_of` EFFORTS ∧
  openaiEfforts model id `sublist_of` EFFORTS.
Proof. unfold copilotEfforts, azureEfforts, openaiEfforts. split_and!; split_conditions; ascending. Qed.

Lemma npm_variants_ascending model id : (npm_variants model id (anthropicAdaptiveEfforts (md_api_id model))).*1 `sublist_of` EFFORTS.
Proof.
  destruct (efforts_ascending model id) as (? & ? & ?).
  unfold npm_variants, gateway_variants, anthropic_variants, bedrock_variants, sap_variants, google_variants, mistral_variants. names_ascending.
Qed.

(** The variants of a model are efforts, each at most once, from the least to the
    most; a model that does not reason has none. *)
Theorem variants_ascending model : (variants model).*1 `sublist_of` EFFORTS ∧ (md_reasoning model = false → variants model = []).
Proof.
  split; [|unfold variants; by intros ->]. unfold variants. pose proof (npm_variants_ascending model (toLowerCase (md_id model))) as Hn.
  destruct (negb _); [ascending|]. split_conditions; rewrite ?each_effort_names; first [done|ascending].
Qed.

(** ** Budgets *)

Definition ANTHROPIC_PACKAGES : list string := ["@ai-sdk/anthropic"; "@ai-sdk/google-vertex/anthropic"].

(** The tokens that a variant sets aside for thinking. *)
Definition budget_of (variant : json) : option json := json_get "thinking" variant ≫= json_get "budgetTokens".

(** Through the packages of Anthropic a variant never sets more tokens aside for
    thinking than a response may have, and some when a response may have four. *)
Theorem anthropic_budget_fits model name v b :
  md_npm model ∈ ANTHROPIC_PACKAGES → (0 ≤ md_output model)%Z → (name, v) ∈ variants model → budget_of v = Some b →
  ∃ tokens, b = JInt tokens ∧ (tokens < md_output model)%Z ∧ (tokens ≤ 31999)%Z ∧ (4 ≤ md_output model → 0 < tokens)%Z.
Proof.
  intros Hnpm Hout Hv Hb. unfold variants in Hv.
  assert (∀ efforts f, (∀ e, budget_of (JObj (f e)) = None) → (name, v) ∉ each_effort efforts f) as Hnone.
  { intros efforts f Hf (e & [= -> ->] & _)%list_elem_of_fmap. by rewrite Hf in Hb. }
  assert (∀ e, budget_of (JObj (thinking_adaptive (summarized (md_api_id model)) e)) = None) as Hadaptive.
  { intros e. unfold summarized. by destruct (_ || _). }
  destruct (negb _); [by apply elem_of_nil in Hv|]. destruct (includes_any _ _); [by apply elem_of_nil in Hv|].
  destruct (includes _ "grok" && _).
  { exfalso. destruct (String.eqb (md_npm model) _); by eapply Hnone in Hv. }
  destruct (includes _ "grok"); [by apply elem_of_nil in Hv|].
  assert (npm_variants model (toLowerCase (md_id model)) (anthropicAdaptiveEfforts (md_api_id model)) =
    anthropic_variants model (anthropicAdaptiveEfforts (md_api_id model))) as E.
  { unfold npm_variants. apply elem_of_cons in Hnpm as [->|Hnpm%list_elem_of_singleton]; [done|]. by rewrite Hnpm. }
  rewrite E in Hv. unfold anthropic_variants in Hv. destruct (_ && _); [exfalso; by eapply Hnone in Hv|].
  destruct (anthropicAdaptiveEfforts _); [exfalso; by eapply Hnone in Hv|].
  assert (∀ tokens, v = thinking_budget tokens → b = JInt tokens) as Hbudget.
  { intros tokens ->. by injection Hb as <-. }
  pose proof (Z.mul_div_le (md_output model - 2) 2) as Hlow. pose proof (Z.mul_succ_div_gt (md_output model - 2) 2) as Hhigh.
  apply elem_of_cons in Hv as [[= -> Hv]|[= -> Hv]%list_elem_of_singleton]; (eexists; split; [by apply Hbudget|]); lia.
Qed.

(** Through other packages the budgets are fixed, whatever the limit. *)
Example fixed_budget_above_limit :
  let model := mkModel "anthropic/claude-3-haiku" "gateway" "@ai-sdk/gateway" "anthropic/claude-3-haiku" true (λ _, true) (interleaved_flag false) 4096 None in
  option_map budget_of (json_get "max" (JObj (variants model))) = Some (Some (JInt 31999)).
Proof. vm_compute. reflexivity. Qed.

(** ** Requests *)

(** Behind a gateway the options for the gateway stay where they are, and all
    others go below the name of the upstream provider, unless that is called like
    the gateway itself; nothing else is there. *)
Theorem gateway_options_routed model opts slug : md_npm model = "@ai-sdk/gateway" → NoDup opts.*1 →
  upstream_slug (md_api_id model) = Some slug → slug ≠ "gateway" →
  let result := JObj (providerOptions model opts) in
  json_get "gateway" result = json_get "gateway" (JObj opts) ∧
  (∀ key, key ≠ "gateway" → json_get slug result ≫= json_get key = json_get key (JObj opts)) ∧
  (∀ key, key ≠ "gateway" → key ≠ slug → json_get key result = None).
Proof.
  intros Hnpm Hnd Hslug Hne result. subst result. unfold providerOptions. rewrite Hnpm. cbn [String.eqb Ascii.eqb Bool.eqb].
  unfold gateway_options. rewrite Hslug. cbv zeta.
  set (gateway := json_get "gateway" (JObj opts)). set (rest := filter (λ m : string * json, m.1 ≠ "gateway") opts).
  assert (NoDup (opt_member "gateway" gateway).*1) as Hndg by (destruct gateway; [apply NoDup_singleton|constructor]).
  assert (json_get "gateway" (JObj (opt_member "gateway" gateway)) = gateway) as Hg by (by destruct gateway).
  assert (∀ key, key ≠ "gateway" → json_get key (JObj (opt_member "gateway" gateway)) = None) as Hother by (intros; by apply json_get_opt).
  assert (∀ key, key ≠ "gateway" → json_get key (JObj rest) = json_get key (JObj opts)) as Hrest.
  { intros key Hk. unfold rest, json_get. rewrite list_filter_filter. do 2 f_equal. apply list_filter_iff. intros m. naive_solver. }
  destruct rest as [|m ms] eqn:E.
  - split_and!; [exact Hg| |intros; by apply Hother]. intros key Hk. rewrite Hother by done. by rewrite <-Hrest.
  - split_and!.
    + rewrite set_member_get by done. by rewrite decide_False.
    + intros key Hk. rewrite set_member_get by done. rewrite decide_True by done. by apply Hrest.
    + intros key Hk Hk'. rewrite set_member_get by done. rewrite decide_False by done. by apply Hother.
Qed.

(** The options for the gateway are lost when the upstream provider is called
    like it. *)
Example gateway_overwritten :
  let model := mkModel "m" "gateway" "@ai-sdk/gateway" "gateway/m" true (λ _, true) (interleaved_flag false) 4096 None in
  providerOptions model [("gateway", JObj [("caching", JStr "auto")]); ("effort", JStr "high")] =
    [("gateway", JObj [("effort", JStr "high")])].
Proof. vm_compute. reflexivity. Qed.

(** The limit of a response is positive and neither above the limit of the model
    nor above the configured one. *)
Theorem output_limit flag model : (0 ≤ md_output model)%Z → (0 < OUTPUT_TOKEN_MAX flag)%Z →
  (0 < maxOutputTokens flag model ≤ OUTPUT_TOKEN_MAX flag)%Z ∧
  (0 < md_output model → maxOutputTokens flag model ≤ md_output model)%Z.
Proof.
  intros Hm Hf. unfold maxOutputTokens. destruct (Z.eqb_spec (Z.min (md_output model) (OUTPUT_TOKEN_MAX flag)) 0); lia.
Qed.
