(* ===== verification/MessageTransform.v ===== *)
(** * Messages for providers

    [message] of [packages/providers/src/provider/transform.ts]: the messages of a
    conversation, rewritten to what the service behind a model accepts.

    Messages and their parts are objects that the caller keeps and that are
    changed in place in some branches, so they are cells of a store and a
    conversation is a list of references.  A message has the members [role],
    [content] and [providerOptions]; of a part all members are kept.  Lists are
    never changed in place.  [mergeDeep] and [unique] of the package remeda and
    the lower case of the locale are parameters.  Options are objects; of what an
    object inherits nothing is looked up. *)

From S2P Require Import Prelude Json Regex Files ModelOptions.
From Stdlib Require Import Ascii String.
From stdpp Require Import prelude list strings pretty.
Set Default Goal Selector "!".
Set Default Proof Using "Type".
Set Warnings "-clear-no-such-hyp".
#[local] Arguments String.append : simpl nomatch.
Open Scope nat_scope.

(** ** Messages and parts *)

Inductive Role : Type := role_system | role_user | role_assistant | role_tool.

#[global] Instance Role_eq_dec : EqDecision Role.
Proof. solve_decision. Defined.

(** The content of a message, with parts of some kind. *)
Inductive ContentOf (P : Type) : Type := text_content (s : string) | parts_content (parts : list P).
Arguments text_content {P} _.
Arguments parts_content {P} _.

Record MessageOf (P : Type) : Type := mkMessage {
  mg_role : Role;
  mg_content : ContentOf P;
  mg_providerOptions : option json;
}.
Arguments mkMessage {P} _ _ _.
Arguments mg_role {P} _.
Arguments mg_content {P} _.
Arguments mg_providerOptions {P} _.

Abbreviation part := (list (string * json)).

(** A message cell refers to the cells of its parts. *)
Abbreviation ModelMessage := (MessageOf nat).

Record Objects : Type := mkObjects { ob_messages : list ModelMessage; ob_parts : list part }.

Definition read_message (r : nat) : M Objects ModelMessage := λ o,
  match ob_messages o !! r with Some m => (Ret m, o) | None => (Throw "no such object", o) end.

Definition read_part (p : nat) : M Objects part := λ o,
  match ob_parts o !! p with Some m => (Ret m, o) | None => (Throw "no such object", o) end.

Definition new_message (m : ModelMessage) : M Objects nat := λ o,
  (Ret (length (ob_messages o)), mkObjects (ob_messages o ++ [m]) (ob_parts o)).

Definition new_part (p : part) : M Objects nat := λ o,
  (Ret (length (ob_parts o)), mkObjects (ob_messages o) (ob_parts o ++ [p])).

Definition write_message (r : nat) (m : ModelMessage) : M Objects () := λ o,
  (Ret (), mkObjects (<[r := m]> (ob_messages o)) (ob_parts o)).

Definition write_part (p : nat) (m : part) : M Objects () := λ o,
  (Ret (), mkObjects (ob_messages o) (<[p := m]> (ob_parts o))).

(** [{ ...msg, content }]. *)
Definition with_content {P : Type} (m : MessageOf P) (content : ContentOf P) : MessageOf P :=
  mkMessage (mg_role m) content (mg_providerOptions m).

Definition with_options {P : Type} (m : MessageOf P) (options : option json) : MessageOf P :=
  mkMessage (mg_role m) (mg_content m) options.

(** [part.type === t]. *)
Definition type_is (t : string) (p : part) : bool := equals_string t (json_get "type" (JObj p)).

Definition text_part (text : string) : part := [("type", JStr "text"); ("text", JStr text)].

Definition reasoning_part (text : string) : part := [("type", JStr "reasoning"); ("text", JStr text)].

(** [parts.filter(keep)]. *)
Definition filter_parts (keep : part → bool) (ps : list nat) : M Objects (list nat) :=
  members ← mapM read_part ps;
  mret (filter (λ x, keep x.2 = true) (zip ps members)).*1.

(** ** Parts that a model does not read *)

Definition mimeToModality (mime : string) : option Modality :=
  if startsWith mime "image/" then Some modality_image
  else if startsWith mime "audio/" then Some modality_audio
  else if startsWith mime "video/" then Some modality_video
  else if String.eqb mime "application/pdf" then Some modality_pdf
  else None.

(** A data URL in base64, with the groups of its media type and its payload. *)
Definition data_url : regex :=
  seqs [RBol; lit "data:"; RGroup 1 (RPlus (RClass (λ c, negb (Ascii.eqb c ";")))); lit ";base64,"; RGroup 2 (RStar dot); REol].

(** [String(part[key])]. *)
Definition member_text (key : string) (p : part) : string :=
  match json_get key (JObj p) with Some v => js_String v | None => "undefined" end.

Definition empty_image (p : part) : bool :=
  let imageStr := member_text "image" p in
  startsWith imageStr "data:" &&
  match exec_match data_url imageStr with
  | Some gs => match group 2 gs with Some s => String.eqb s "" | None => true end
  | None => false
  end.

(** What a part of a user's message is replaced by.  A file has a media type. *)
Definition replaced_part (model : Model) (p : part) : option part :=
  if negb (type_is "file" p) && negb (type_is "image" p) then None
  else if type_is "image" p && empty_image p
  then Some (text_part "ERROR: Image file is empty or corrupted. Please provide a valid image.")
  else
    let mime := if type_is "image" p then replace_first "data:" "" (hd "" (split_on ";" (member_text "image" p))) else member_text "mediaType" p in
    let filename := if type_is "file" p then json_get "filename" (JObj p) else None in
    match mimeToModality mime with
    | None => None
    | Some modality =>
      if md_input model modality then None
      else
        let name := match filename with
                    | Some v => if falsy (Some v) then modality_name modality else QUOTE +:+ js_String v +:+ QUOTE
                    | None => modality_name modality
                    end in
        Some (text_part ("ERROR: Cannot read " +:+ name +:+ " (this model does not support " +:+ modality_name modality
                           +:+ " input). Inform the user."))
    end.

Definition unsupportedParts (model : Model) (msgs : list nat) : M Objects (list nat) :=
  mapM (λ r,
    msg ← read_message r;
    match mg_role msg, mg_content msg with
    | role_user, parts_content ps =>
      filtered ← mapM (λ p, members ← read_part p;
                            match replaced_part model members with Some replacement => new_part replacement | None => mret p end) ps;
      new_message (with_content msg (parts_content filtered))
    | _, _ => mret r
    end) msgs.

(** ** Messages as a service wants them *)

(** A text or a reasoning that says nothing. *)
Definition empty_part (p : part) : bool :=
  (type_is "text" p || type_is "reasoning" p) && equals_string "" (json_get "text" (JObj p)).

Definition has_content (m : ModelMessage) : bool := match mg_content m with text_content "" => false | _ => true end.

(** The branches for Anthropic and for Bedrock: empty parts and messages are left
    out. *)
Definition drop_empty (msgs : list nat) : M Objects (list nat) :=
  kept ← mapM (λ r,
    msg ← read_message r;
    match mg_content msg with
    | text_content s => mret (if String.eqb s "" then None else Some r)
    | parts_content ps =>
      filtered ← filter_parts (λ p, negb (empty_part p)) ps;
      match filtered with
      | [] => mret None
      | _ => copy ← new_message (with_content msg (parts_content filtered)); mret (Some copy)
      end
    end) msgs;
  messages ← mapM read_message (omap id kept);
  mret (filter (λ x, has_content x.2 = true) (zip (omap id kept) messages)).*1.

Fixpoint map_string (f : ascii → ascii) (s : string) : string :=
  match s with EmptyString => "" | String c s => String (f c) (map_string f s) end.

Fixpoint filter_string (f : ascii → bool) (s : string) : string :=
  match s with EmptyString => "" | String c s => if f c then String c (filter_string f s) else filter_string f s end.

(** [id.replace(/[^a-zA-Z0-9_-]/g, "_")]. *)
Definition scrub_claude (id : string) : string :=
  map_string (λ c, if alphanumeric c || has_char c "_-" then c else "_"%char) id.

(** [s.padEnd(n, c)]. *)
Definition padEnd (n : nat) (c : ascii) (s : string) : string :=
  s +:+ string_of_list_ascii (replicate (n - String.length s) c).

(** [id.replace(/[^a-zA-Z0-9]/g, "").substring(0, 9).padEnd(9, "0")]. *)
Definition scrub_mistral (id : string) : string := padEnd 9 "0" (substring 0 9 (filter_string alphanumeric id)).

(** The parts whose ids are rewritten in the messages of a role. *)
Definition carries_id (role : Role) (p : part) : bool :=
  match role with
  | role_assistant => type_is "tool-call" p || type_is "tool-result" p
  | role_tool => type_is "tool-result" p
  | _ => false
  end.

(** [{ ...part, toolCallId: scrub(part.toolCallId) }]. *)
Definition scrub_parts (scrub : string → string) (role : Role) (ps : list nat) : M Objects (list nat) :=
  mapM (λ p,
    members ← read_part p;
    if carries_id role members then
      match json_get "toolCallId" (JObj members) with
      | Some (JStr id) => new_part (set_member "toolCallId" (JStr (scrub id)) members)
      | _ => throw "TypeError"
      end
    else mret p) ps.

Definition scrub_ids_claude (msgs : list nat) : M Objects (list nat) :=
  mapM (λ r,
    msg ← read_message r;
    match mg_role msg, mg_content msg with
    | (role_assistant | role_tool), parts_content ps =>
      content ← scrub_parts scrub_claude (mg_role msg) ps;
      new_message (with_content msg (parts_content content))
    | _, _ => mret r
    end) msgs.

(** [xs.slice(xs.findIndex(f))], or nothing. *)
Fixpoint drop_until {A : Type} (f : A → bool) (xs : list A) : list A :=
  match xs with [] => [] | x :: rest => if f x then xs else drop_until f rest end.

(** Tool calls go behind everything else that an assistant says. *)
Definition calls_last (msgs : list nat) : M Objects (list nat) :=
  lists ← mapM (λ r,
    msg ← read_message r;
    match mg_role msg, mg_content msg with
    | role_assistant, parts_content ps =>
      members ← mapM read_part ps;
      let from_first := drop_until (type_is "tool-call") members in
      if forallb (type_is "tool-call") from_first then mret [r]
      else
        others ← filter_parts (λ p, negb (type_is "tool-call" p)) ps;
        calls ← filter_parts (type_is "tool-call") ps;
        first ← new_message (with_content msg (parts_content others));
        second ← new_message (with_content msg (parts_content calls));
        mret [first; second]
    | _, _ => mret [r]
    end) msgs;
  mret (lists ≫= id).

(** [msg.content = msg.content.map(...)]. *)
Definition scrub_in_place (scrub : string → string) (r : nat) (msg : ModelMessage) : M Objects () :=
  match mg_role msg, mg_content msg with
  | (role_assistant | role_tool), parts_content ps =>
    content ← scrub_parts scrub (mg_role msg) ps;
    write_message r (with_content msg (parts_content content))
  | _, _ => mret ()
  end.

(** Ids of nine letters and digits, and a message between those of a tool and of
    the user.  Messages are changed in place. *)
Fixpoint mistral_messages (msgs : list nat) : M Objects (list nat) :=
  match msgs with
  | [] => mret []
  | r :: rest =>
    msg ← read_message r;
    scrub_in_place scrub_mistral r msg;;
    next ← (match rest with n :: _ => m ← read_message n; mret (Some (mg_role m)) | [] => mret None end);
    between ← (if decide (mg_role msg = role_tool ∧ next = Some role_user)
               then p ← new_part (text_part "Done."); m ← new_message (mkMessage role_assistant (parts_content [p]) None); mret [m]
               else mret []);
    result ← mistral_messages rest;
    mret (r :: between ++ result)
  end.

(** Every message of an assistant has a reasoning. *)
Definition add_reasoning (msgs : list nat) : M Objects (list nat) :=
  mapM (λ r,
    msg ← read_message r;
    match mg_role msg, mg_content msg with
    | role_assistant, parts_content ps =>
      members ← mapM read_part ps;
      if existsb (type_is "reasoning") members then mret r
      else p ← new_part (reasoning_part ""); new_message (with_content msg (parts_content (ps ++ [p])))
    | role_assistant, text_content s =>
      texts ← (if String.eqb s "" then mret [] else p ← new_part (text_part s); mret [p]);
      p ← new_part (reasoning_part "");
      new_message (with_content msg (parts_content (texts ++ [p])))
    | _, _ => mret r
    end) msgs.

(** The members of an optional object. *)
Definition members_of (o : option json) : list (string * json) := match o with Some (JObj ms) => ms | _ => [] end.

(** The text of a reasoning in [texts.join("")]. *)
Definition joined_text (p : part) : string :=
  match json_get "text" (JObj p) with None | Some JNull => "" | Some v => js_String v end.

(** [{ ...options, openaiCompatible: { ...options?.openaiCompatible, [field]: text } }]. *)
Definition with_reasoning (field text : string) (options : option json) : json :=
  JObj (set_member "openaiCompatible"
          (JObj (set_member field (JStr text) (members_of (opt_get "openaiCompatible" options)))) (members_of options)).

(** The reasoning of an assistant moves from its parts to a field of its own. *)
Definition interleave_reasoning (field : string) (msgs : list nat) : M Objects (list nat) :=
  mapM (λ r,
    msg ← read_message r;
    match mg_role msg, mg_content msg with
    | role_assistant, parts_content ps =>
      members ← mapM read_part ps;
      let reasoningText := Prelude.join "" (joined_text <$> filter (λ p, type_is "reasoning" p = true) members) in
      filteredContent ← filter_parts (λ p, negb (type_is "reasoning" p)) ps;
      new_message (mkMessage role_assistant (parts_content filteredContent)
                     (Some (with_reasoning field reasoningText (mg_providerOptions msg))))
    | _, _ => mret r
    end) msgs.

Definition apply_when (condition : bool) (f : list nat → M Objects (list nat)) (msgs : list nat) : M Objects (list nat) :=
  if condition then f msgs else mret msgs.

Section transform.
Context (toLocaleLowerCase : string → string) (mergeDeep : json → json → json) (unique : list nat → list nat).

Definition is_mistral (model : Model) : bool :=
  String.eqb (md_providerID model) "mistral" || includes (toLowerCase (md_api_id model)) "mistral"
  || includes (toLocaleLowerCase (md_api_id model)) "devstral".

(** The field that takes the reasoning, if there is one. *)
Definition interleaved_of (model : Model) : option string :=
  match md_interleaved model with
  | interleaved_field field =>
    if negb (String.eqb field "") && negb (String.eqb (md_npm model) "@openrouter/ai-sdk-provider") then Some field else None
  | interleaved_flag _ => None
  end.

Definition normalizeMessages (model : Model) (msgs : list nat) : M Objects (list nat) :=
  msgs ← apply_when (String.eqb (md_npm model) "@ai-sdk/anthropic") drop_empty msgs;
  msgs ← apply_when (String.eqb (md_npm model) "@ai-sdk/amazon-bedrock") drop_empty msgs;
  msgs ← apply_when (includes (md_api_id model) "claude") scrub_ids_claude msgs;
  msgs ← apply_when (is_one_of (md_npm model) ["@ai-sdk/anthropic"; "@ai-sdk/google-vertex/anthropic"]) calls_last msgs;
  if is_mistral model then mistral_messages msgs
  else
    msgs ← apply_when (includes (md_api_id model) "deepseek") add_reasoning msgs;
    match interleaved_of model with
    | Some field => interleave_reasoning field msgs
    | None => mret msgs
    end.

(** ** Cache points *)

Definition ephemeral (key : string) : json := JObj [(key, JObj [("type", JStr "ephemeral")])].

Definition CACHE_OPTIONS : json :=
  JObj [("anthropic", ephemeral "cacheControl"); ("openrouter", ephemeral "cacheControl");
        ("bedrock", JObj [("cachePoint", JObj [("type", JStr "default")])]); ("openaiCompatible", ephemeral "cache_control");
        ("copilot", ephemeral "copilot_cache_control"); ("alibaba", ephemeral "cacheControl")].

(** [mergeDeep(options ?? {}, providerOptions)]. *)
Definition cached_options (options : option json) : json :=
  mergeDeep (match options with None | Some JNull => JObj [] | Some v => v end) CACHE_OPTIONS.

Definition message_level (model : Model) : bool :=
  String.eqb (md_providerID model) "anthropic" || includes (md_providerID model) "bedrock"
  || String.eqb (md_npm model) "@ai-sdk/amazon-bedrock".

Definition approval (p : part) : bool := type_is "tool-approval-request" p || type_is "tool-approval-response" p.

(** The part of a message that takes a cache point. *)
Definition cache_part (model : Model) (msg : ModelMessage) : M Objects (option (nat * part)) :=
  match mg_content msg with
  | parts_content ps =>
    match last ps with
    | Some p =>
      if message_level model then mret None
      else lastContent ← read_part p; mret (if approval lastContent then None else Some (p, lastContent))
    | None => mret None
    end
  | text_content _ => mret None
  end.

Definition mark_cached (model : Model) (r : nat) : M Objects () :=
  msg ← read_message r;
  target ← cache_part model msg;
  match target with
  | Some (p, lastContent) =>
    write_part p (set_member "providerOptions" (cached_options (json_get "providerOptions" (JObj lastContent))) lastContent)
  | None => write_message r (with_options msg (Some (cached_options (mg_providerOptions msg))))
  end.

Definition with_role (keep : Role → bool) (msgs : list nat) : M Objects (list nat) :=
  messages ← mapM read_message msgs;
  mret (filter (λ x, keep (mg_role x.2) = true) (zip msgs messages)).*1.

Definition applyCaching (model : Model) (msgs : list nat) : M Objects (list nat) :=
  systems ← with_role (λ role, bool_decide (role = role_system)) msgs;
  others ← with_role (λ role, negb (bool_decide (role = role_system))) msgs;
  for_each (mark_cached model) (unique (take 2 systems ++ slice_tail 2 others));;
  mret msgs.

(** ** The key of the options *)

(** [remap]: what is stored below the provider goes below the key of its SDK. *)
Definition remap (providerID key : string) (opts : option json) : option json :=
  match opts with
  | Some (JObj members) =>
    match json_get providerID (JObj members) with
    | Some v => Some (JObj (filter (λ m, m.1 ≠ providerID) (set_member key v members)))
    | None => opts
    end
  | _ => opts
  end.

(** [{ ...part, providerOptions: remap(part.providerOptions) }]. *)
Definition remap_part (providerID key : string) (p : part) : part :=
  if approval p then p
  else match remap providerID key (json_get "providerOptions" (JObj p)) with
       | Some v => set_member "providerOptions" v p
       | None => p
       end.

Definition remap_messages (providerID key : string) (msgs : list nat) : M Objects (list nat) :=
  mapM (λ r,
    msg ← read_message r;
    let options := remap providerID key (mg_providerOptions msg) in
    match mg_content msg with
    | text_content s => new_message (with_options msg options)
    | parts_content ps =>
      content ← mapM (λ p, members ← read_part p; new_part (remap_part providerID key members)) ps;
      new_message (mkMessage (mg_role msg) (parts_content content) options)
    end) msgs.

Definition wants_caching (model : Model) : bool :=
  (String.eqb (md_providerID model) "anthropic" || String.eqb (md_providerID model) "google-vertex-anthropic"
   || includes (md_api_id model) "anthropic" || includes (md_api_id model) "claude"
   || includes (md_id model) "anthropic" || includes (md_id model) "claude"
   || String.eqb (md_npm model) "@ai-sdk/anthropic" || String.eqb (md_npm model) "@ai-sdk/alibaba")
  && negb (String.eqb (md_npm model) "@ai-sdk/gateway").

(** The key that options are moved to, if they are. *)
Definition remap_key (model : Model) : option string :=
  match sdkKey (md_npm model) with
  | Some key => if String.eqb key (md_providerID model) then None else Some key
  | None => None
  end.

Definition message (model : Model) (msgs : list nat) : M Objects (list nat) :=
  msgs ← unsupportedParts model msgs;
  msgs ← normalizeMessages model msgs;
  msgs ← apply_when (wants_caching model) (applyCaching model) msgs;
  match remap_key model with
  | Some key => remap_messages (md_providerID model) key msgs
  | None => mret msgs
  end.
End transform.
