(* ===== verification/MessageSteps.v ===== *)
(** * The steps of the message transformation

    Views of the conversations of [MessageTransform], what each step makes of a
    view, and that the steps over the store do just that, with the changes in
    place that some of them make. *)

From S2P Require Import Prelude Json Regex Files ModelOptions MessageTransform.
From Stdlib Require Import Ascii String.
From stdpp Require Import prelude list strings pretty.
Set Default Goal Selector "!".
Set Default Proof Using "Type".
Set Warnings "-register-all,-clear-no-such-hyp".
#[local] Arguments String.append : simpl nomatch.
Open Scope nat_scope.

(** ** Conversations in the store *)

Abbreviation View := (MessageOf part).

Definition parts_are (o : Objects) (ps : list nat) (ms : list part) : Prop := Forall2 (λ p m, ob_parts o !! p = Some m) ps ms.

Definition content_is (o : Objects) (c : ContentOf nat) (v : ContentOf part) : Prop :=
  match c, v with
  | text_content s, text_content t => s = t
  | parts_content ps, parts_content ms => parts_are o ps ms
  | _, _ => False
  end.

(** The message that a reference leads to. *)
Definition shows (o : Objects) (r : nat) (v : View) : Prop :=
  ∃ c, ob_messages o !! r = Some (mkMessage (mg_role v) c (mg_providerOptions v)) ∧ content_is o c (mg_content v).

Definition conversation (o : Objects) (msgs : list nat) (vs : list View) : Prop := Forall2 (shows o) msgs vs.

Definition content_refs (c : ContentOf nat) : list nat := match c with parts_content ps => ps | text_content _ => [] end.

Definition message_parts (o : Objects) (r : nat) : list nat :=
  match ob_messages o !! r with Some m => content_refs (mg_content m) | None => [] end.

Definition part_refs (o : Objects) (msgs : list nat) : list nat := msgs ≫= message_parts o.

(** Messages that are different objects and share no parts. *)
Definition separate (o : Objects) (msgs : list nat) : Prop := NoDup msgs ∧ NoDup (part_refs o msgs).

(** Nothing that was there has changed. *)
Definition grows (o o' : Objects) : Prop := ob_messages o `prefix_of` ob_messages o' ∧ ob_parts o `prefix_of` ob_parts o'.

(** The messages [out] are made of [msgs] and of new objects. *)
Definition made_of (o : Objects) (msgs : list nat) (o' : Objects) (out : list nat) : Prop :=
  (∀ r, r ∈ out → r ∈ msgs ∨ length (ob_messages o) ≤ r) ∧
  (∀ p, p ∈ part_refs o' out → p ∈ part_refs o msgs ∨ length (ob_parts o) ≤ p).

#[global] Instance grows_preorder : PreOrder grows.
Proof. split; [intros o; by split|]. intros o1 o2 o3 [] []. split; by etrans. Qed.

Lemma prefix_lookup_Some {A} (l l' : list A) i x : l `prefix_of` l' → l !! i = Some x → l' !! i = Some x.
Proof. intros [k ->] Hi. by apply lookup_app_l_Some. Qed.

Lemma parts_grow o o' ps ms : ob_parts o `prefix_of` ob_parts o' → parts_are o ps ms → parts_are o' ps ms.
Proof. intros Hp Hps. eapply Forall2_impl; [exact Hps|]. intros p m. by apply prefix_lookup_Some. Qed.

Lemma content_grow o o' c v : ob_parts o `prefix_of` ob_parts o' → content_is o c v → content_is o' c v.
Proof. intros Hp. destruct c, v; cbn [content_is]; [done..|]. by apply parts_grow. Qed.

Lemma shows_grow o o' r v : grows o o' → shows o r v → shows o' r v.
Proof. intros [Hm Hp] (c & Hr & Hc). exists c. split; [by eapply prefix_lookup_Some|by eapply content_grow]. Qed.

Lemma conversation_grow o o' msgs vs : grows o o' → conversation o msgs vs → conversation o' msgs vs.
Proof. intros Hg Hc. eapply Forall2_impl; [exact Hc|]. intros r v. by apply shows_grow. Qed.

Lemma message_parts_grow o o' r v : grows o o' → shows o r v → message_parts o' r = message_parts o r.
Proof. intros [Hm _] (c & Hr & _). unfold message_parts. by rewrite Hr, (prefix_lookup_Some _ _ _ _ Hm Hr). Qed.

Lemma part_refs_grow o o' msgs vs : grows o o' → conversation o msgs vs → part_refs o' msgs = part_refs o msgs.
Proof.
  intros Hg. induction 1 as [|r v msgs vs Hr _ IH]; [done|]. unfold part_refs in *. rewrite !bind_cons, IH.
  by rewrite (message_parts_grow o o' r v).
Qed.

Lemma shows_bound o r v : shows o r v → r < length (ob_messages o).
Proof. intros (c & Hr & _). by apply lookup_lt_Some in Hr. Qed.

Lemma parts_bound o ps ms p : parts_are o ps ms → p ∈ ps → p < length (ob_parts o).
Proof.
  intros Hps [i Hi]%list_elem_of_lookup. destruct (Forall2_lookup_l _ _ _ _ _ Hps Hi) as (m & _ & Hl). by apply lookup_lt_Some in Hl.
Qed.

Lemma part_refs_bound o msgs vs p : conversation o msgs vs → p ∈ part_refs o msgs → p < length (ob_parts o).
Proof.
  intros Hc (r & Hp & Hr)%list_elem_of_bind. apply list_elem_of_lookup in Hr as [i Hi].
  destruct (Forall2_lookup_l _ _ _ _ _ Hc Hi) as (v & _ & c & Hm & Hcv). unfold message_parts in Hp. rewrite Hm in Hp.
  destruct c as [|ps]; cbn in Hp; [by apply elem_of_nil in Hp|]. destruct (mg_content v); [done|]. by eapply parts_bound.
Qed.

Lemma conversation_bound o msgs vs r : conversation o msgs vs → r ∈ msgs → r < length (ob_messages o).
Proof.
  intros Hc [i Hi]%list_elem_of_lookup. destruct (Forall2_lookup_l _ _ _ _ _ Hc Hi) as (v & _ & Hs). by eapply shows_bound.
Qed.

Lemma part_refs_app o a b : part_refs o (a ++ b) = part_refs o a ++ part_refs o b.
Proof. apply bind_app. Qed.

Lemma NoDup_parts o msgs r : NoDup (part_refs o msgs) → r ∈ msgs → NoDup (message_parts o r).
Proof.
  intros Hnd (l1 & l2 & ->)%list_elem_of_split. rewrite part_refs_app in Hnd. apply NoDup_app in Hnd as (_ & _ & Hnd).
  unfold part_refs in Hnd. rewrite bind_cons in Hnd. by apply NoDup_app in Hnd as [? _].
Qed.

(** *** Steps over parts *)

(** What a step over the parts of a message leaves: parts that were there or are
    new, and everything else as it was. *)
Record parts_step (o : Objects) (ps : list nat) (o' : Objects) (ps' : list nat) (ms' : list part) : Prop := mkPartsStep {
  ps_messages : ob_messages o' = ob_messages o;
  ps_grow : ob_parts o `prefix_of` ob_parts o';
  ps_are : parts_are o' ps' ms';
  ps_unique : NoDup ps';
  ps_from : ∀ p, p ∈ ps' → p ∈ ps ∨ length (ob_parts o) ≤ p;
}.

Lemma step_grows o ps o' ps' ms' : parts_step o ps o' ps' ms' → grows o o'.
Proof. intros []. split; [by rewrite ps_messages0|done]. Qed.

(** A step for one part, as a function of what the part holds. *)
Definition part_op (Q : part → Prop) (g : nat → M Objects nat) (G : part → part) : Prop :=
  ∀ o p m, ob_parts o !! p = Some m → Q m → ∃ p' o', g p o = (Ret p', o') ∧ parts_step o [p] o' [p'] [G m].

Lemma mapM_cons {A B} (g : A → M Objects B) x xs :
  mapM g (x :: xs) = (y ← g x; ys ← mapM g xs; mret (y :: ys)).
Proof. done. Qed.

Lemma map_parts Q g G ps ms : part_op Q g G → ∀ o, parts_are o ps ms → NoDup ps → Forall Q ms →
  ∃ ps' o', mapM g ps o = (Ret ps', o') ∧ parts_step o ps o' ps' (G <$> ms).
Proof.
  intros Hg. revert ms. induction ps as [|p ps IH]; intros ms o Hps Hnd HQ.
  { apply Forall2_nil_inv_l in Hps as ->. exists [], o. split; [done|]. split; [done..|by constructor|constructor|].
    intros p Hp. by apply elem_of_nil in Hp. }
  destruct ms as [|m ms]; [by apply Forall2_cons_nil_inv in Hps|]. apply Forall2_cons in Hps as [Hp Hps].
  apply NoDup_cons in Hnd as [Hno Hnd]. apply Forall_cons in HQ as [Hm HQ].
  destruct (Hg o p m Hp Hm) as (p' & o1 & E1 & [Hms1 Hgr1 Hare1 _ Hfrom1]). apply Forall2_cons in Hare1 as [Hp' _].
  destruct (IH ms o1) as (ps' & o2 & E2 & [Hms2 Hgr2 Hare2 Hu2 Hfrom2]); [by eapply parts_grow|done..|].
  exists (p' :: ps'), o2. split; [rewrite mapM_cons, (bind_run _ _ _ _ _ E1), (bind_run _ _ _ _ _ E2); done|].
  pose proof (lookup_lt_Some _ _ _ Hp') as Hlt1. pose proof (prefix_length _ _ Hgr1) as Hlen1.
  specialize (Hfrom1 p' ltac:(by left)). split.
  - congruence.
  - by etrans.
  - constructor; [by eapply prefix_lookup_Some|done].
  - apply NoDup_cons. split; [|done]. intros [Hin|Hge]%Hfrom2; [|lia].
    pose proof (parts_bound _ _ _ _ Hps Hin). destruct Hfrom1 as [->%list_elem_of_singleton|]; [done|lia].
  - intros q [->|Hq]%elem_of_cons.
    + destruct Hfrom1 as [->%list_elem_of_singleton|]; [left; by left|by right].
    + destruct (Hfrom2 q Hq); [left; by right|right; lia].
Qed.

Lemma read_parts o ps ms : parts_are o ps ms → mapM read_part ps o = (Ret ms, o).
Proof.
  revert ms. induction ps as [|p ps IH]; intros ms Hps.
  { by apply Forall2_nil_inv_l in Hps as ->. }
  destruct ms as [|m ms]; [by apply Forall2_cons_nil_inv in Hps|]. apply Forall2_cons in Hps as [Hp Hps].
  rewrite mapM_cons. assert (read_part p o = (Ret m, o)) as E by (unfold read_part; by rewrite Hp).
  by rewrite (bind_run _ _ _ _ _ E), (bind_run _ _ _ _ _ (IH ms Hps)).
Qed.

Lemma read_messages o msgs vs : conversation o msgs vs → ∃ ms, mapM read_message msgs o = (Ret ms, o) ∧
  Forall2 (λ m v, ∃ c, m = mkMessage (mg_role v) c (mg_providerOptions v) ∧ content_is o c (mg_content v)) ms vs.
Proof.
  induction 1 as [|r v msgs vs (c & Hr & Hc) _ (ms & E & Hms)]; [by exists []|].
  exists (mkMessage (mg_role v) c (mg_providerOptions v) :: ms). rewrite mapM_cons.
  assert (read_message r o = (Ret (mkMessage (mg_role v) c (mg_providerOptions v)), o)) as Er by (unfold read_message; by rewrite Hr).
  rewrite (bind_run _ _ _ _ _ Er), (bind_run _ _ _ _ _ E). split; [done|]. constructor; [by exists c|done].
Qed.

(** Filtering two lists side by side. *)
Lemma filter_zip {A B C} (R : A → C → Prop) (keep : B → bool) (keep' : C → bool) xs ys zs :
  Forall2 R xs zs → Forall2 (λ y z, keep y = keep' z) ys zs →
  Forall2 R (filter (λ x, keep x.2 = true) (zip xs ys)).*1 (filter (λ z, keep' z = true) zs) ∧
  (filter (λ x, keep x.2 = true) (zip xs ys)).*1 `sublist_of` xs.
Proof.
  intros Hxz. revert ys. induction Hxz as [|x z xs zs Hx _ IH]; intros ys Hyz.
  { apply Forall2_nil_inv_r in Hyz as ->. split; constructor. }
  destruct ys as [|y ys]; [by apply Forall2_nil_cons_inv in Hyz|]. apply Forall2_cons in Hyz as [Hy Hyz]. destruct (IH ys Hyz) as [IH1 IH2].
  cbn [zip zip_with]. rewrite !filter_cons. cbn [snd]. rewrite Hy. destruct (keep' z); cbn.
  - split; [by constructor|by apply sublist_skip].
  - split; [done|by apply sublist_cons].
Qed.

Lemma filter_parts_run keep o ps ms : parts_are o ps ms → NoDup ps →
  ∃ ps', filter_parts keep ps o = (Ret ps', o) ∧ parts_step o ps o ps' (filter (λ m, keep m = true) ms) ∧ ps' `sublist_of` ps.
Proof.
  intros Hps Hnd. destruct (filter_zip (λ p m, ob_parts o !! p = Some m) keep keep ps ms ms Hps) as [Hare Hsub].
  { apply Forall2_same_length_lookup. split; [done|]. intros i x y -> [= ->]. done. }
  eexists. unfold filter_parts. rewrite (bind_run _ _ _ _ _ (read_parts o ps ms Hps)). split; [done|]. split; [|done].
  split; [done..|by eapply sublist_NoDup|]. intros p Hp. left. eapply elem_of_submseteq; [exact Hp|by apply sublist_submseteq].
Qed.

(** *** Steps over messages *)

(** What a step makes of one message. *)
Record message_step (o : Objects) (r : nat) (o' : Objects) (rs : list nat) (vs : list View) : Prop := mkMessageStep {
  me_grow : grows o o';
  me_are : conversation o' rs vs;
  me_separate : separate o' rs;
  me_from : made_of o [r] o' rs;
}.

(** A step for one message, as a function of what the message is. *)
Definition message_op {X} (refs : X → list nat) (Q : View → Prop) (g : nat → M Objects X) (G : View → list View) : Prop :=
  ∀ o r v, shows o r v → NoDup (message_parts o r) → Q v → ∃ x o', g r o = (Ret x, o') ∧ message_step o r o' (refs x) (G v).

Lemma part_refs_cons o r msgs : part_refs o (r :: msgs) = message_parts o r ++ part_refs o msgs.
Proof. done. Qed.

Lemma part_refs_one o r : part_refs o [r] = message_parts o r.
Proof. unfold part_refs. cbn. apply app_nil_r. Qed.

Lemma part_refs_elem o msgs r p : r ∈ msgs → p ∈ message_parts o r → p ∈ part_refs o msgs.
Proof. intros Hr Hp. apply list_elem_of_bind. by exists r. Qed.

Lemma map_messages {X} (refs : X → list nat) Q g G : message_op refs Q g G → ∀ msgs vs o, conversation o msgs vs → separate o msgs → Forall Q vs →
  ∃ xs o', mapM g msgs o = (Ret xs, o') ∧ grows o o' ∧ conversation o' (xs ≫= refs) (vs ≫= G) ∧
    separate o' (xs ≫= refs) ∧ made_of o msgs o' (xs ≫= refs).
Proof.
  intros Hg. induction msgs as [|r msgs IH]; intros vs o Hc Hsep HQ.
  { apply Forall2_nil_inv_l in Hc as ->. exists [], o. split_and!; [done..|constructor|split; constructor|].
    split; intros ? Hin; by apply elem_of_nil in Hin. }
  destruct vs as [|v vs]; [by apply Forall2_cons_nil_inv in Hc|]. apply Forall2_cons in Hc as [Hr Hc].
  apply Forall_cons in HQ as [HQv HQ]. destruct Hsep as [[Hno Hnd]%NoDup_cons Hparts].
  rewrite part_refs_cons in Hparts. apply NoDup_app in Hparts as (Hpr & Hdis & Hps).
  destruct (Hg o r v Hr Hpr HQv) as (x & o1 & E1 & [Hg1 Hare1 [Hu1 Hup1] [Hfm1 Hfp1]]).
  pose proof (conversation_grow _ _ _ _ Hg1 Hc) as Hc1. pose proof (part_refs_grow _ _ _ _ Hg1 Hc) as Hrefs1.
  destruct (IH vs o1 Hc1 ltac:(split; [done|by rewrite Hrefs1]) HQ) as (xs & o2 & E2 & Hg2 & Hare2 & [Hu2 Hup2] & [Hfm2 Hfp2]).
  rewrite Hrefs1 in Hfp2. pose proof (part_refs_grow _ _ _ _ Hg2 Hare1) as Hrefs2.
  pose proof (prefix_length _ _ (proj1 Hg1)) as Hlm. pose proof (prefix_length _ _ (proj2 Hg1)) as Hlp.
  exists (x :: xs), o2. rewrite mapM_cons, (bind_run _ _ _ _ _ E1), (bind_run _ _ _ _ _ E2). rewrite !bind_cons.
  rewrite part_refs_one in Hfp1. split_and!; [done|by etrans|..].
  - apply Forall2_app; [by eapply conversation_grow|done].
  - split.
    + apply NoDup_app. split_and!; [done| |done]. intros r' Hr1 Hr2.
      pose proof (conversation_bound _ _ _ _ Hare1 Hr1). destruct (Hfm2 r' Hr2) as [Hin|]; [|lia].
      pose proof (conversation_bound _ _ _ _ Hc Hin). destruct (Hfm1 r' Hr1) as [->%list_elem_of_singleton|]; [done|lia].
    + rewrite part_refs_app, Hrefs2. apply NoDup_app. split_and!; [done| |done]. intros p Hp1 Hp2.
      pose proof (part_refs_bound _ _ _ _ Hare1 Hp1). destruct (Hfp2 p Hp2) as [Hin|]; [|lia].
      pose proof (part_refs_bound _ _ _ _ Hc Hin). destruct (Hfp1 p Hp1) as [Hin'|]; [by apply (Hdis p)|lia].
  - split.
    + intros r' [Hr'|Hr']%elem_of_app.
      * destruct (Hfm1 r' Hr') as [->%list_elem_of_singleton|]; [left; by left|by right].
      * destruct (Hfm2 r' Hr'); [left; by right|right; lia].
    + intros p. rewrite part_refs_app, Hrefs2. rewrite part_refs_cons.
      rewrite !elem_of_app. intros [Hp|Hp].
      * destruct (Hfp1 p Hp) as [Hin|]; [left; by left|by right].
      * destruct (Hfp2 p Hp) as [Hin|]; [left; by right|right; lia].
Qed.

(** A message that is passed on. *)
Lemma step_same o r v : shows o r v → NoDup (message_parts o r) → message_step o r o [r] [v].
Proof.
  intros Hs Hnd. split; [done|by constructor|split; [apply NoDup_singleton|by rewrite part_refs_one]|].
  split; intros ? Hin; [by left|]. left. done.
Qed.

Lemma step_nothing o r : message_step o r o [] [].
Proof. split; [done|constructor|split; constructor|]. split; intros ? Hin; by apply elem_of_nil in Hin. Qed.

(** A new message made of parts that a step left. *)
Lemma step_new o r v ps o1 ps' ms' role options : shows o r v → message_parts o r = ps → parts_step o ps o1 ps' ms' →
  ∃ r' o', new_message (mkMessage role (parts_content ps') options) o1 = (Ret r', o') ∧
    message_step o r o' [r'] [mkMessage role (parts_content ms') options] ∧ grows o1 o' ∧ length (ob_messages o1) = r' ∧ message_parts o' r' = ps'.
Proof.
  intros Hs Hps Hstep. pose proof (step_grows _ _ _ _ _ Hstep) as Hg. destruct Hstep as [Hm Hp Hare Hu Hfrom]. eexists _, _. split; [reflexivity|].
  set (o' := mkObjects _ _). assert (grows o1 o') as Hg' by (split; [by eexists|reflexivity]).
  assert (ob_messages o' !! length (ob_messages o1) = Some (mkMessage role (parts_content ps') options)) as Hl by (by apply list_lookup_middle).
  assert (message_parts o' (length (ob_messages o1)) = ps') as Hparts by (unfold message_parts; by rewrite Hl).
  split_and!; [|done|done|done]. split.
  - by etrans.
  - constructor; [|constructor]. exists (parts_content ps'). split; [done|]. exact (parts_grow _ _ _ _ (proj2 Hg') Hare).
  - split; [apply NoDup_singleton|]. by rewrite part_refs_one, Hparts.
  - split.
    + intros r' ->%list_elem_of_singleton. right. by rewrite Hm.
    + intros p. rewrite !part_refs_one, Hparts, Hps. apply Hfrom.
Qed.

(** ** The conversation as a value *)

(** What the steps make of a message, as functions of what it is. *)
Definition unsupported_view (model : Model) (v : View) : View :=
  match mg_role v, mg_content v with
  | role_user, parts_content ms => with_content v (parts_content ((λ m, replaced_part model m or_else m) <$> ms))
  | _, _ => v
  end.

Definition nonempty_view (v : View) : option View :=
  match mg_content v with
  | text_content s => if String.eqb s "" then None else Some v
  | parts_content ms =>
    match filter (λ m, negb (empty_part m) = true) ms with
    | [] => None
    | kept => Some (with_content v (parts_content kept))
    end
  end.

Definition scrub_part (scrub : string → string) (role : Role) (m : part) : part :=
  if carries_id role m then
    match json_get "toolCallId" (JObj m) with Some (JStr id) => set_member "toolCallId" (JStr (scrub id)) m | _ => m end
  else m.

Definition scrub_view (scrub : string → string) (v : View) : View :=
  match mg_role v, mg_content v with
  | (role_assistant | role_tool), parts_content ms => with_content v (parts_content (scrub_part scrub (mg_role v) <$> ms))
  | _, _ => v
  end.

Definition calls_last_view (v : View) : list View :=
  match mg_role v, mg_content v with
  | role_assistant, parts_content ms =>
    if forallb (type_is "tool-call") (drop_until (type_is "tool-call") ms) then [v]
    else [with_content v (parts_content (filter (λ m, negb (type_is "tool-call" m) = true) ms));
          with_content v (parts_content (filter (λ m, type_is "tool-call" m = true) ms))]
  | _, _ => [v]
  end.

Definition reasoning_view (v : View) : View :=
  match mg_role v, mg_content v with
  | role_assistant, parts_content ms =>
    if existsb (type_is "reasoning") ms then v else with_content v (parts_content (ms ++ [reasoning_part ""]))
  | role_assistant, text_content s =>
    with_content v (parts_content ((if String.eqb s "" then [] else [text_part s]) ++ [reasoning_part ""]))
  | _, _ => v
  end.

Definition interleave_view (field : string) (v : View) : View :=
  match mg_role v, mg_content v with
  | role_assistant, parts_content ms =>
    mkMessage role_assistant (parts_content (filter (λ m, negb (type_is "reasoning" m) = true) ms))
      (Some (with_reasoning field (Prelude.join "" (joined_text <$> filter (λ p, type_is "reasoning" p = true) ms)) (mg_providerOptions v)))
  | _, _ => v
  end.

Definition remap_view (providerID key : string) (v : View) : View :=
  mkMessage (mg_role v)
    (match mg_content v with text_content s => text_content s | parts_content ms => parts_content (remap_part providerID key <$> ms) end)
    (remap providerID key (mg_providerOptions v)).

(** The members of a part have different names, and the id of a call or of a
    result is a text of some form. *)
Definition part_ok (ok : string → Prop) (role : Role) (m : part) : Prop :=
  NoDup m.*1 ∧ (carries_id role m = true → ∃ id, json_get "toolCallId" (JObj m) = Some (JStr id) ∧ ok id).

Definition ids_ok (ok : string → Prop) (v : View) : Prop :=
  match mg_content v with parts_content ms => Forall (part_ok ok (mg_role v)) ms | text_content _ => True end.

(** The ids are texts, as the types of the messages have it. *)
Definition ids_typed : View → Prop := ids_ok (λ _, True).

(** *** The steps, one by one *)

(** A step for a list of messages. *)
Definition stage (Q : View → Prop) (f : list nat → M Objects (list nat)) (F : list View → list View) : Prop :=
  ∀ o msgs vs, conversation o msgs vs → separate o msgs → Forall Q vs →
    ∃ out o', f msgs o = (Ret out, o') ∧ grows o o' ∧ conversation o' out (F vs) ∧ separate o' out.

Lemma bind_one {A} (xs : list A) : xs ≫= (λ x, [x]) = xs.
Proof. induction xs as [|x xs IH]; [done|]. rewrite bind_cons, IH. done. Qed.

Lemma bind_one_map {A B} (f : A → B) (xs : list A) : xs ≫= (λ x, [f x]) = f <$> xs.
Proof. induction xs as [|x xs IH]; [done|]. rewrite bind_cons, IH. done. Qed.

Lemma map_stage Q g G : message_op (λ x, [x]) Q g (λ v, [G v]) → stage Q (mapM g) (fmap G).
Proof.
  intros Hg o msgs vs Hc Hs HQ. destruct (map_messages _ _ _ _ Hg msgs vs o Hc Hs HQ) as (xs & o' & E & Hgr & Hare & Hsep & _).
  rewrite bind_one in Hare, Hsep. rewrite bind_one_map in Hare. by exists xs, o'.
Qed.

(** What is read of a message that is there. *)
Lemma read_shown o r v : shows o r v → ∃ c, read_message r o = (Ret (mkMessage (mg_role v) c (mg_providerOptions v)), o) ∧
  content_is o c (mg_content v) ∧ message_parts o r = content_refs c.
Proof.
  intros (c & Hr & Hc). exists c. unfold read_message, message_parts. by rewrite Hr.
Qed.

(** Starts the proof for one message: [c] is the content of the cell. *)
Ltac open_message r v :=
  let E := fresh "Eread" in let c := fresh "c" in let Hc := fresh "Hc" in let Hrefs := fresh "Hrefs" in
  match goal with
  | Hs : shows ?o r v |- _ =>
    destruct (read_shown o r v Hs) as (c & E & Hc & Hrefs); rewrite (bind_run _ _ _ _ _ E); clear E;
    destruct v as [role content options]; cbn [mg_role mg_content mg_providerOptions] in *;
    destruct c as [s|ps], content as [s'|ms]; cbn [content_is content_refs] in *; try done
  end.

(** The message is passed on. *)
Ltac same_message := eexists _, _; split; [reflexivity|]; apply step_same; [done|congruence].

Lemma part_kept o p m : ob_parts o !! p = Some m → parts_step o [p] o [p] [m].
Proof.
  intros Hp. split; [done..|by constructor|apply NoDup_singleton|]. intros q Hq. by left.
Qed.

Lemma part_made o p m : ∃ p' o', new_part m o = (Ret p', o') ∧ parts_step o [p] o' [p'] [m].
Proof.
  eexists _, _. split; [reflexivity|]. split; cbn; [done|by eexists| |apply NoDup_singleton|].
  - constructor; [|constructor]. by apply list_lookup_middle.
  - intros q ->%list_elem_of_singleton. by right.
Qed.

Lemma read_part_at o p m : ob_parts o !! p = Some m → read_part p o = (Ret m, o).
Proof. unfold read_part. by intros ->. Qed.

Lemma unsupported_stage model : stage (λ _, True) (unsupportedParts model) (fmap (unsupported_view model)).
Proof.
  apply map_stage. intros o r v Hs Hnd _. open_message r v; [destruct role; same_message|].
  destruct role; try same_message.
  destruct (map_parts (λ _, True) (λ p, members ← read_part p;
      match replaced_part model members with Some replacement => new_part replacement | None => mret p end)
      (λ m, replaced_part model m or_else m) ps ms) with (o := o) as (ps' & o1 & E & Hstep); [|done|congruence|by apply Forall_true|].
  { intros o1 p m Hp _. rewrite (bind_run _ _ _ _ _ (read_part_at _ _ _ Hp)). destruct (replaced_part model m); cbn.
    - apply part_made.
    - exists p, o1. split; [done|by apply part_kept]. }
  rewrite (bind_run _ _ _ _ _ E).
  destruct (step_new o r _ ps o1 ps' _ role_user options Hs Hrefs Hstep) as (r' & o' & E' & Hm & _). by exists r', o'.
Qed.

Definition option_list {A} (o : option A) : list A := match o with Some x => [x] | None => [] end.

Lemma bind_option_list {A} (xs : list (option A)) : xs ≫= option_list = omap id xs.
Proof. induction xs as [|[x|] xs IH]; [done|..]; rewrite bind_cons, IH; done. Qed.

Lemma bind_option_view {A B} (f : A → option B) (xs : list A) : xs ≫= (λ x, option_list (f x)) = omap f xs.
Proof. induction xs as [|x xs IH]; [done|]. rewrite bind_cons, IH. cbn. by destruct (f x). Qed.

Lemma nonempty_op : message_op option_list (λ _, True) (λ r,
    msg ← read_message r;
    match mg_content msg with
    | text_content s => mret (if String.eqb s "" then None else Some r)
    | parts_content ps =>
      filtered ← filter_parts (λ p, negb (empty_part p)) ps;
      match filtered with
      | [] => mret None
      | _ => copy ← new_message (with_content msg (parts_content filtered)); mret (Some copy)
      end
    end) (λ v, option_list (nonempty_view v)).
Proof.
  intros o r v Hs Hnd _. open_message r v; unfold nonempty_view; cbn [mg_content].
  - rewrite Hc in *. eexists _, _. split; [reflexivity|]. destruct (String.eqb s' ""); [apply step_nothing|]. apply step_same; [done|congruence].
  - destruct (filter_parts_run (λ p, negb (empty_part p)) o ps ms Hc) as (ps' & E & Hstep & _); [congruence|].
    rewrite (bind_run _ _ _ _ _ E). pose proof (ps_are _ _ _ _ _ Hstep) as Hare.
    destruct ps' as [|p ps']; destruct (filter _ ms) as [|m ms'];
      [|by apply Forall2_nil_cons_inv in Hare|by apply Forall2_cons_nil_inv in Hare|].
    + eexists _, _. split; [reflexivity|]. apply step_nothing.
    + destruct (step_new o r _ ps o _ _ role options Hs Hrefs Hstep) as (r' & o' & E' & Hm & _).
      exists (Some r'), o'. unfold with_content. cbn [mg_role mg_providerOptions]. rewrite (bind_run _ _ _ _ _ E'). by split.
Qed.

Lemma nonempty_has_content v w : nonempty_view v = Some w → mg_content w ≠ text_content "".
Proof.
  unfold nonempty_view. destruct (mg_content v) as [s|ms] eqn:E.
  - destruct (String.eqb_spec s ""); [done|]. intros [= <-]. rewrite E. congruence.
  - destruct (filter _ ms); [done|]. by intros [= <-].
Qed.

Lemma drop_empty_stage : stage (λ _, True) drop_empty (omap nonempty_view).
Proof.
  intros o msgs vs Hc Hsep HQ. destruct (map_messages _ _ _ _ nonempty_op msgs vs o Hc Hsep HQ) as (xs & o' & E & Hgr & Hare & Hsep' & _).
  rewrite bind_option_list in Hare, Hsep'. rewrite bind_option_view in Hare.
  unfold drop_empty. rewrite (bind_run _ _ _ _ _ E). destruct (read_messages o' _ _ Hare) as (ms & E' & Hms).
  rewrite (bind_run _ _ _ _ _ E'). eexists _, o'. split; [reflexivity|].
  assert ((filter (λ x : nat * ModelMessage, has_content x.2 = true) (zip (omap id xs) ms)).*1 = omap id xs) as ->.
  { assert (Forall (λ m, has_content m = true) ms) as Hall.
    { assert (Forall (λ v, mg_content v ≠ text_content "") (omap nonempty_view vs)) as Hvs.
      { apply Forall_forall. intros w (v & _ & Hv)%list_elem_of_omap. by eapply nonempty_has_content. }
      clear -Hms Hvs. induction Hms as [|m v ms views (c & -> & Hc) _ IH]; [constructor|]. apply Forall_cons in Hvs as [Hv Hvs].
      constructor; [|by apply IH]. unfold has_content. cbn [mg_content]. destruct c as [s|ps]; [|done].
      destruct (mg_content v) as [s'|]; [|done]. cbn in Hc. subst s'. by destruct s. }
    assert (length (omap id xs) = length ms) as Hlen by (by rewrite (Forall2_length _ _ _ Hare), (Forall2_length _ _ _ Hms)).
    rewrite filter_all.
    - apply fst_zip. lia.
    - apply Forall_forall. intros [r m] Hin. apply elem_of_zip_r in Hin. rewrite Forall_forall in Hall. by apply Hall. }
  done.
Qed.

Lemma scrub_op scrub role ps ms : ∀ o, parts_are o ps ms → NoDup ps →
  Forall (part_ok (λ _, True) role) ms →
  ∃ ps' o', scrub_parts scrub role ps o = (Ret ps', o') ∧ parts_step o ps o' ps' (scrub_part scrub role <$> ms).
Proof.
  apply (map_parts _ _ (scrub_part scrub role)). intros o p m Hp [_ Hid]. rewrite (bind_run _ _ _ _ _ (read_part_at _ _ _ Hp)).
  unfold scrub_part. destruct (carries_id role m).
  - destruct (Hid eq_refl) as (id & -> & _). apply part_made.
  - exists p, o. split; [done|by apply part_kept].
Qed.

Lemma scrub_claude_stage : stage ids_typed scrub_ids_claude (fmap (scrub_view scrub_claude)).
Proof.
  apply map_stage. intros o r v Hs Hnd HQ. unfold ids_typed, ids_ok in HQ. open_message r v; [destruct role; same_message|].
  destruct role; try same_message.
  all: destruct (scrub_op scrub_claude _ ps ms o Hc ltac:(congruence) HQ) as (ps' & o1 & E & Hstep); rewrite (bind_run _ _ _ _ _ E);
    match type of Hs with
    | shows _ _ (mkMessage ?role _ _) => destruct (step_new o r _ ps o1 ps' _ role options Hs Hrefs Hstep) as (r' & o' & E' & Hm & _)
    end; by exists r', o'.
Qed.

Lemma interleave_stage field : stage (λ _, True) (interleave_reasoning field) (fmap (interleave_view field)).
Proof.
  apply map_stage. intros o r v Hs Hnd _. open_message r v; [destruct role; same_message|].
  destruct role; try same_message. rewrite (bind_run _ _ _ _ _ (read_parts o ps ms Hc)).
  destruct (filter_parts_run (λ p, negb (type_is "reasoning" p)) o ps ms Hc) as (ps' & E & Hstep & _); [congruence|].
  cbv zeta. rewrite (bind_run _ _ _ _ _ E).
  destruct (step_new o r _ ps o ps' _ role_assistant (Some (with_reasoning field (Prelude.join "" (joined_text <$> filter (λ p, type_is "reasoning" p = true) ms)) options)) Hs Hrefs Hstep) as (r' & o' & E' & Hm & _).
  by exists r', o'.
Qed.

(** A new part behind the parts that are kept. *)
Lemma part_added o ps o1 ps1 ms1 m : parts_step o ps o1 ps1 ms1 →
  ∃ p o2, new_part m o1 = (Ret p, o2) ∧ parts_step o ps o2 (ps1 ++ [p]) (ms1 ++ [m]).
Proof.
  intros [Hm Hp Hare Hu Hfrom]. eexists _, _. split; [reflexivity|].
  assert (ob_parts o1 `prefix_of` ob_parts o1 ++ [m]) as Hgrow by (by eexists). split; cbn.
  - done.
  - by etrans.
  - apply Forall2_app; [by eapply parts_grow|]. constructor; [|constructor]. by apply list_lookup_middle.
  - apply NoDup_app. split_and!; [done| |apply NoDup_singleton]. intros q Hq ->%list_elem_of_singleton.
    pose proof (parts_bound _ _ _ _ Hare Hq). lia.
  - intros q [Hq| ->%list_elem_of_singleton]%elem_of_app; [by apply Hfrom|]. right. by apply prefix_length.
Qed.

Lemma parts_start o ps ms : parts_are o ps ms → NoDup ps → parts_step o ps o ps ms.
Proof. intros Hc Hnd. split; [done..|]. intros p Hp. by left. Qed.

Lemma no_parts o ps : parts_step o ps o [] [].
Proof. split; [done..|constructor|constructor|]. intros p Hp. by apply elem_of_nil in Hp. Qed.

Lemma add_reasoning_stage : stage (λ _, True) add_reasoning (fmap reasoning_view).
Proof.
  apply map_stage. intros o r v Hs Hnd _. open_message r v.
  - subst s'. destruct role; try same_message. unfold reasoning_view. cbn [mg_role mg_content].
    assert (∃ texts o1, (if String.eqb s "" then mret [] else p ← new_part (text_part s); mret [p]) o = (Ret texts, o1) ∧
      parts_step o [] o1 texts (if String.eqb s "" then [] else [text_part s])) as (texts & o1 & E1 & Hstep1).
    { destruct (String.eqb s ""); [exists [], o; split; [done|apply no_parts]|].
      destruct (part_added o [] o [] [] (text_part s) (no_parts o [])) as (p & o1 & E & Hstep).
      exists [p], o1. rewrite (bind_run _ _ _ _ _ E). done. }
    rewrite (bind_run _ _ _ _ _ E1). destruct (part_added _ _ _ _ _ (reasoning_part "") Hstep1) as (p & o2 & E2 & Hstep2).
    rewrite (bind_run _ _ _ _ _ E2).
    destruct (step_new o r _ [] o2 _ _ role_assistant options Hs Hrefs Hstep2) as (r' & o' & E' & Hm & _). by exists r', o'.
  - destruct role; try same_message. rewrite (bind_run _ _ _ _ _ (read_parts o ps ms Hc)). unfold reasoning_view. cbn [mg_role mg_content].
    destruct (existsb _ ms); [same_message|].
    destruct (part_added o ps o ps ms (reasoning_part "")) as (p & o1 & E & Hstep); [apply parts_start; [done|congruence]|].
    rewrite (bind_run _ _ _ _ _ E).
    destruct (step_new o r _ ps o1 _ _ role_assistant options Hs Hrefs Hstep) as (r' & o' & E' & Hm & _). by exists r', o'.
Qed.

Lemma remap_stage providerID key : stage (λ _, True) (remap_messages providerID key) (fmap (remap_view providerID key)).
Proof.
  apply map_stage. intros o r v Hs Hnd _. open_message r v; unfold remap_view; cbn [mg_role mg_content mg_providerOptions].
  - subst s'. set (options' := remap providerID key options). eexists _, _. split; [reflexivity|].
    set (o' := mkObjects _ _). set (r' := length (ob_messages o)).
    assert (ob_messages o' !! r' = Some (mkMessage role (text_content s) options')) as Hl by (by apply list_lookup_middle).
    assert (message_parts o' r' = []) as Hp by (unfold message_parts; by rewrite Hl). split.
    + split; [by eexists|reflexivity].
    + constructor; [|constructor]. by exists (text_content s).
    + split; [apply NoDup_singleton|]. rewrite part_refs_one, Hp. constructor.
    + split; [intros q ->%list_elem_of_singleton; by right|]. rewrite part_refs_one, Hp. intros q Hq. by apply elem_of_nil in Hq.
  - destruct (map_parts (λ _, True) (λ p, members ← read_part p; new_part (remap_part providerID key members))
      (remap_part providerID key) ps ms) with (o := o) as (ps' & o1 & E & Hstep); [|done|congruence|by apply Forall_true|].
    { intros o1 p m Hp _. rewrite (bind_run _ _ _ _ _ (read_part_at _ _ _ Hp)). apply part_made. }
    rewrite (bind_run _ _ _ _ _ E).
    destruct (step_new o r _ ps o1 ps' _ role (remap providerID key options) Hs Hrefs Hstep) as (r' & o' & E' & Hm & _). by exists r', o'.
Qed.

Lemma parts_elem o ps ms p : parts_are o ps ms → p ∈ ps → ∃ m, ob_parts o !! p = Some m ∧ m ∈ ms.
Proof.
  intros Hps [i Hi]%list_elem_of_lookup. destruct (Forall2_lookup_l _ _ _ _ _ Hps Hi) as (m & Hm & Hl). exists m. split; [done|].
  by eapply list_elem_of_lookup_2.
Qed.

(** Two new messages that share no part. *)
Lemma two_steps o r o1 r1 v1 o2 r2 v2 : message_step o r o1 [r1] [v1] → message_step o1 r o2 [r2] [v2] →
  message_parts o1 r = message_parts o r → r1 < r2 → length (ob_messages o) ≤ r2 →
  (∀ p, p ∈ message_parts o1 r1 → p ∉ message_parts o2 r2) → message_step o r o2 [r1; r2] [v1; v2].
Proof.
  intros [Hg1 Hare1 [_ Hu1] [Hm1 Hf1]] [Hg2 Hare2 [_ Hu2] [Hm2 Hf2]] Hsame Hlt Hle Hdis.
  pose proof (part_refs_grow _ _ _ _ Hg2 Hare1) as Hrefs. rewrite !part_refs_one in *. split.
  - by etrans.
  - change (conversation o2 ([r1] ++ [r2]) ([v1] ++ [v2])). apply Forall2_app; [by eapply conversation_grow|done].
  - split; [apply NoDup_cons; split; [|apply NoDup_singleton]; intros ?%list_elem_of_singleton; lia|].
    rewrite part_refs_cons, part_refs_one, Hrefs. apply NoDup_app. by split_and!.
  - split.
    + intros q [->|Hq]%elem_of_cons; [apply Hm1; by left|]. apply list_elem_of_singleton in Hq as ->. by right.
    + intros p. rewrite part_refs_cons, !part_refs_one, Hrefs, elem_of_app. intros [Hp|Hp]; [by apply Hf1|].
      destruct (Hf2 p Hp) as [Hin|Hge]; [left; by rewrite Hsame in Hin|]. right.
      pose proof (prefix_length _ _ (proj2 Hg1)). lia.
Qed.

Lemma calls_last_stage : stage (λ _, True) calls_last (λ vs, vs ≫= calls_last_view).
Proof.
  intros o msgs vs Hc Hsep HQ.
  match goal with |- context [calls_last msgs] => unfold calls_last end.
  match goal with |- context [mapM ?g msgs] => assert (message_op id (λ _, True) g calls_last_view) as Hop end.
  { clear. intros o r v Hs Hnd _. open_message r v; [destruct role; same_message|]. destruct role; try same_message.
    rewrite (bind_run _ _ _ _ _ (read_parts o ps ms Hc)). unfold calls_last_view. cbn [mg_role mg_content].
    destruct (forallb _ _); [same_message|].
    destruct (filter_parts_run (λ p, negb (type_is "tool-call" p)) o ps ms Hc) as (ps1 & E1 & Hstep1 & _); [congruence|].
    destruct (filter_parts_run (type_is "tool-call") o ps ms Hc) as (ps2 & E2 & Hstep2 & _); [congruence|].
    rewrite (bind_run _ _ _ _ _ E1), (bind_run _ _ _ _ _ E2).
    destruct (step_new o r _ ps o ps1 _ role_assistant options Hs Hrefs Hstep1) as (r1 & o1 & E3 & Hm1 & Hg1 & Hr1 & Hp1).
    assert (parts_step o1 ps o1 ps2 (filter (λ m, type_is "tool-call" m = true) ms)) as Hstep2'.
    { destruct Hstep2 as [_ _ Hare Hu Hfrom]. split; [done..|by eapply parts_grow; [apply Hg1|]|done|].
      intros p Hp. destruct (Hfrom p Hp) as [|Hge]; [by left|]. left. exfalso. pose proof (parts_bound _ _ _ _ Hare Hp). lia. }
    pose proof (shows_grow _ _ _ _ Hg1 Hs) as Hs1. pose proof (message_parts_grow _ _ _ _ Hg1 Hs) as Hrefs1.
    destruct (step_new o1 r _ ps o1 ps2 _ role_assistant options Hs1 ltac:(congruence) Hstep2') as (r2 & o2 & E4 & Hm2 & Hg2 & Hr2 & Hp2).
    unfold with_content. cbn [mg_role mg_providerOptions]. rewrite (bind_run _ _ _ _ _ E3), (bind_run _ _ _ _ _ E4).
    eexists _, o2. split; [reflexivity|]. pose proof (me_are _ _ _ _ _ Hm1) as Hare1. apply Forall2_cons in Hare1 as [Hb _]. apply shows_bound in Hb.
    eapply two_steps; [exact Hm1|exact Hm2|exact Hrefs1|lia|lia|]. rewrite Hp1, Hp2. intros p Hin1 Hin2.
    destruct (parts_elem _ _ _ _ (ps_are _ _ _ _ _ Hstep1) Hin1) as (m1 & Hl1 & [Hk1 _]%list_elem_of_filter).
    destruct (parts_elem _ _ _ _ (ps_are _ _ _ _ _ Hstep2) Hin2) as (m2 & Hl2 & [Hk2 _]%list_elem_of_filter).
    assert (m1 = m2) as -> by congruence. by rewrite Hk2 in Hk1. }
  destruct (map_messages _ _ _ _ Hop msgs vs o Hc Hsep HQ) as (xs & o' & E & Hgr & Hare & Hsep' & _).
  rewrite (bind_run _ _ _ _ _ E). exists (xs ≫= id), o'. split_and!; [|done..]. done.
Qed.

(** *** Changes in place *)

(** Messages other than [msgs] and the old parts are as they were. *)
Record kept_except (msgs : list nat) (o o' : Objects) : Prop := mkKept {
  ke_other : ∀ r m, r ∉ msgs → ob_messages o !! r = Some m → ob_messages o' !! r = Some m;
  ke_length : length (ob_messages o) ≤ length (ob_messages o');
  ke_parts : ob_parts o `prefix_of` ob_parts o';
}.

Lemma kept_grows msgs o o' : grows o o' → kept_except msgs o o'.
Proof. intros [Hm Hp]. split; [|by apply prefix_length|done]. intros r m _. by apply prefix_lookup_Some. Qed.

Lemma kept_except_trans msgs o1 o2 o3 : kept_except msgs o1 o2 → kept_except msgs o2 o3 → kept_except msgs o1 o3.
Proof. intros [] []. split; [naive_solver|lia|by etrans]. Qed.

Lemma kept_more msgs msgs' o o' : kept_except msgs o o' → (∀ r, r ∈ msgs → r ∈ msgs') → kept_except msgs' o o'.
Proof. intros [] Hin. split; [|done..]. intros r m Hr. apply ke_other0. intros Hr'. by apply Hr, Hin. Qed.

Lemma shows_kept msgs o o' r v : kept_except msgs o o' → r ∉ msgs → shows o r v → shows o' r v ∧ message_parts o' r = message_parts o r.
Proof.
  intros [Ho _ Hp] Hr (c & Hm & Hc). pose proof (Ho r _ Hr Hm) as Hm'. unfold message_parts. rewrite Hm, Hm'. split; [|done].
  exists c. split; [done|by eapply content_grow].
Qed.

Lemma conversation_kept msgs o o' rs vs : kept_except msgs o o' → (∀ r, r ∈ rs → r ∉ msgs) → conversation o rs vs →
  conversation o' rs vs ∧ part_refs o' rs = part_refs o rs.
Proof.
  intros Hk Hdis. induction 1 as [|r v rs vs Hr _ IH]; [by split; [constructor|]|].
  destruct IH as [IH1 IH2]; [intros r' Hr'; apply Hdis; by right|]. destruct (shows_kept _ _ _ _ _ Hk (Hdis r ltac:(by left)) Hr) as [Hs Hp].
  rewrite !part_refs_cons, Hp, IH2. split; [by constructor|done].
Qed.

(** The message [r] becomes [v]. *)
Record changed_in_place (o : Objects) (r : nat) (o' : Objects) (v : View) : Prop := mkChanged {
  ci_length : length (ob_messages o') = length (ob_messages o);
  ci_kept : kept_except [r] o o';
  ci_shows : shows o' r v;
  ci_unique : NoDup (message_parts o' r);
  ci_from : ∀ p, p ∈ message_parts o' r → p ∈ message_parts o r ∨ length (ob_parts o) ≤ p;
}.

Lemma not_changed o r v : shows o r v → NoDup (message_parts o r) → changed_in_place o r o v.
Proof. intros Hs Hnd. split; [done|by apply kept_grows|done..|]. intros p Hp. by left. Qed.

Lemma write_changed o r ps o1 ps' ms' role options : r < length (ob_messages o) → message_parts o r = ps → parts_step o ps o1 ps' ms' →
  ∃ o', write_message r (mkMessage role (parts_content ps') options) o1 = (Ret (), o') ∧
    changed_in_place o r o' (mkMessage role (parts_content ms') options).
Proof.
  intros Hr Hps [Hm Hp Hare Hu Hfrom]. eexists. split; [reflexivity|].
  set (o' := mkObjects _ _). assert (ob_messages o' !! r = Some (mkMessage role (parts_content ps') options)) as Hl.
  { apply list_lookup_insert_eq. by rewrite Hm. }
  assert (message_parts o' r = ps') as Hparts by (unfold message_parts; by rewrite Hl). split.
  - cbn. by rewrite length_insert, Hm.
  - split; cbn; [|by rewrite length_insert, Hm|done]. intros r' m Hne Hr'. rewrite list_lookup_insert_ne by (intros <-; apply Hne; by left). by rewrite Hm.
  - exists (parts_content ps'). split; [done|]. exact (parts_grow o1 o' _ _ (reflexivity _) Hare).
  - by rewrite Hparts.
  - rewrite Hparts, Hps. done.
Qed.

Lemma scrub_in_place_run scrub o r v m : shows o r v → NoDup (message_parts o r) → ids_typed v → ob_messages o !! r = Some m →
  ∃ o', scrub_in_place scrub r m o = (Ret (), o') ∧ changed_in_place o r o' (scrub_view scrub v).
Proof.
  intros Hs Hnd HQ Hm. pose proof (shows_bound _ _ _ Hs) as Hb. destruct (read_shown o r v Hs) as (c & E & Hc & Hrefs).
  unfold read_message in E. rewrite Hm in E. injection E as ->. unfold ids_typed, ids_ok in HQ.
  destruct v as [role content options]. cbn [mg_role mg_content mg_providerOptions] in *.
  destruct c as [s|ps], content as [s'|ms]; cbn [content_is content_refs] in *; try done; unfold scrub_in_place, scrub_view; cbn [mg_role mg_content].
  - exists o. split; [by destruct role|]. destruct role; by apply not_changed.
  - destruct role; try (exists o; split; [done|by apply not_changed]).
    all: destruct (scrub_op scrub _ ps ms o Hc ltac:(congruence) HQ) as (ps' & o1 & E & Hstep); rewrite (bind_run _ _ _ _ _ E);
      unfold with_content; cbn [mg_role mg_providerOptions]; by apply (write_changed o r ps o1).
Qed.

Definition done_view : View := mkMessage role_assistant (parts_content [text_part "Done."]) None.

Fixpoint mistral_views (vs : list View) : list View :=
  match vs with
  | [] => []
  | v :: rest =>
    scrub_view scrub_mistral v ::
    (if decide (mg_role v = role_tool ∧ mg_role <$> head rest = Some role_user) then [done_view] else []) ++ mistral_views rest
  end.

(** The message between a tool and the user. *)
Lemma between_run (P : Prop) `{Decision P} o : ∃ out o',
  (if decide P then p ← new_part (text_part "Done."); m ← new_message (mkMessage role_assistant (parts_content [p]) None); mret [m] else mret []) o = (Ret out, o') ∧
  grows o o' ∧ conversation o' out (if decide P then [done_view] else []) ∧ separate o' out ∧ made_of o [] o' out.
Proof.
  destruct (decide P).
  - eexists _, _. split; [reflexivity|]. set (o' := mkObjects _ _). set (r := length _). cbn in r.
    assert (ob_messages o' !! r = Some (mkMessage role_assistant (parts_content [length (ob_parts o)]) None)) as Hl by (by apply list_lookup_middle).
    assert (message_parts o' r = [length (ob_parts o)]) as Hp by (unfold message_parts; by rewrite Hl). split_and!.
    + split; by eexists.
    + constructor; [|constructor]. exists (parts_content [length (ob_parts o)]). split; [done|]. constructor; [|constructor]. by apply list_lookup_middle.
    + split; [apply NoDup_singleton|]. rewrite part_refs_one, Hp. apply NoDup_singleton.
    + split; [intros q ->%list_elem_of_singleton; by right|]. rewrite part_refs_one, Hp. intros q ->%list_elem_of_singleton. by right.
  - exists [], o. split; [done|]. split_and!; [done|constructor|split; constructor|]. split; intros q Hq; by apply elem_of_nil in Hq.
Qed.

(** A step that makes one conversation out of another; it may change the objects of the first. *)
Definition transforms (Q : View → Prop) (f : list nat → M Objects (list nat)) (F : list View → list View) : Prop :=
  ∀ o msgs vs, conversation o msgs vs → separate o msgs → Forall Q vs →
    ∃ out o', f msgs o = (Ret out, o') ∧ conversation o' out (F vs) ∧ separate o' out.

(** One message changed in place, new ones behind it, and the rest. *)
Lemma changed_then o r msgs vs v o1 o2 o3 b bvs res resvs :
  r < length (ob_messages o) → r ∉ msgs → conversation o msgs vs → (∀ p, p ∈ message_parts o r → p ∉ part_refs o msgs) →
  changed_in_place o r o1 v →
  grows o1 o2 → conversation o2 b bvs → separate o2 b → made_of o1 [] o2 b →
  kept_except msgs o2 o3 → conversation o3 res resvs → separate o3 res → made_of o2 msgs o3 res →
  kept_except (r :: msgs) o o3 ∧ conversation o3 (r :: b ++ res) (v :: bvs ++ resvs) ∧ separate o3 (r :: b ++ res) ∧
  made_of o (r :: msgs) o3 (r :: b ++ res).
Proof.
  intros Hlt Hno Hc Hdis [Hl1 Hk1 Hs1 Hu1 Hf1] Hg2 Hcb [Hub Hupb] [Hmb Hfb] Hk3 Hcr [Hur Hupr] [Hmr Hfr].
  assert (∀ r', r' ∈ msgs → r' ∉ [r]) as Hnr by (intros r' Hr' ->%list_elem_of_singleton; done).
  destruct (conversation_kept _ _ _ _ _ Hk1 Hnr Hc) as [Hc1 Hrefs1].
  pose proof (part_refs_grow _ _ _ _ Hg2 Hc1) as Hrefs2. rewrite Hrefs1 in Hrefs2. rewrite Hrefs2 in Hfr.
  pose proof (shows_grow _ _ _ _ Hg2 Hs1) as Hs2. pose proof (message_parts_grow _ _ _ _ Hg2 Hs1) as Hp2.
  destruct (shows_kept _ _ _ _ _ Hk3 Hno Hs2) as [Hs3 Hp3]. rewrite Hp2 in Hp3.
  assert (∀ r', r' ∈ b → r' ∉ msgs) as Hnb.
  { intros r' Hb Hin. destruct (Hmb r' Hb) as [Hr'|]; [by apply elem_of_nil in Hr'|]. pose proof (conversation_bound _ _ _ _ Hc Hin). lia. }
  destruct (conversation_kept _ _ _ _ _ Hk3 Hnb Hcb) as [Hcb3 Hrefsb].
  assert (∀ r', r' ∈ b → length (ob_messages o1) ≤ r' < length (ob_messages o2)) as Hbb.
  { intros r' Hb. split; [|by eapply conversation_bound]. destruct (Hmb r' Hb) as [Hr'|]; [by apply elem_of_nil in Hr'|done]. }
  assert (∀ p, p ∈ part_refs o2 b → length (ob_parts o1) ≤ p < length (ob_parts o2)) as Hpb.
  { intros p Hb. split; [|by eapply part_refs_bound]. destruct (Hfb p Hb) as [Hp|]; [by apply elem_of_nil in Hp|done]. }
  assert (∀ p, p ∈ message_parts o1 r → p < length (ob_parts o1)) as Hpr.
  { intros p Hp. apply (part_refs_bound o1 [r] [v]); [by constructor|by rewrite part_refs_one]. }
  pose proof (prefix_length _ _ (ke_parts _ _ _ Hk1)) as Hlp1. pose proof (prefix_length _ _ (proj2 Hg2)) as Hlp2.
  pose proof (prefix_length _ _ (proj1 Hg2)) as Hlm2.
  assert (∀ p, p ∈ part_refs o msgs → p < length (ob_parts o)) as Hpm by (intros p; by apply part_refs_bound with (vs := vs)).
  split_and!.
  - apply (kept_except_trans _ _ o1); [eapply kept_more; [exact Hk1|]; intros ? ->%list_elem_of_singleton; by left|].
    apply (kept_except_trans _ _ o2); [by apply kept_grows|]. eapply kept_more; [exact Hk3|]. intros; by right.
  - constructor; [done|]. by apply Forall2_app.
  - split.
    + apply NoDup_cons. split.
      * intros [Hb|Hr]%elem_of_app; [pose proof (Hbb _ Hb); lia|]. destruct (Hmr _ Hr); [done|lia].
      * apply NoDup_app. split_and!; [done| |done]. intros r' Hb Hr. pose proof (Hbb _ Hb). destruct (Hmr _ Hr); [by apply (Hnb r')|lia].
    + rewrite part_refs_cons, part_refs_app, Hp3, Hrefsb. apply NoDup_app. split_and!; [done| |].
      * intros p Hp [Hb|Hr]%elem_of_app; pose proof (Hpr _ Hp); [pose proof (Hpb _ Hb); lia|].
        destruct (Hfr _ Hr) as [Hin|]; [|lia]. destruct (Hf1 _ Hp) as [Hp'|]; [by apply (Hdis p)|]. pose proof (Hpm _ Hin). lia.
      * apply NoDup_app. split_and!; [done| |done]. intros p Hb Hr. pose proof (Hpb _ Hb). destruct (Hfr _ Hr) as [Hin|]; [|lia].
        pose proof (Hpm _ Hin). lia.
  - split.
    + intros r' [->|[Hb|Hr]%elem_of_app]%elem_of_cons; [left; by left|pose proof (Hbb _ Hb); right; lia|].
      destruct (Hmr _ Hr); [left; by right|right; lia].
    + intros p. rewrite !part_refs_cons, part_refs_app, Hp3, Hrefsb, !elem_of_app. intros [Hp|[Hb|Hr]].
      * destruct (Hf1 _ Hp); [left; by left|by right].
      * pose proof (Hpb _ Hb). right. lia.
      * destruct (Hfr _ Hr); [left; by right|right; lia].
Qed.

Lemma mistral_run : ∀ msgs vs o, conversation o msgs vs → separate o msgs → Forall ids_typed vs →
  ∃ out o', mistral_messages msgs o = (Ret out, o') ∧ kept_except msgs o o' ∧ conversation o' out (mistral_views vs) ∧ separate o' out ∧ made_of o msgs o' out.
Proof.
  induction msgs as [|r msgs IH]; intros vs o Hc Hsep HQ.
  { apply Forall2_nil_inv_l in Hc as ->. exists [], o. split_and!; [done|by apply kept_grows|constructor|split; constructor|].
    split; intros ? Hin; by apply elem_of_nil in Hin. }
  destruct vs as [|v vs]; [by apply Forall2_cons_nil_inv in Hc|]. apply Forall2_cons in Hc as [Hr Hc].
  apply Forall_cons in HQ as [HQv HQ]. destruct Hsep as [[Hno Hnd]%NoDup_cons Hparts].
  rewrite part_refs_cons in Hparts. apply NoDup_app in Hparts as (Hpr & Hdis & Hps).
  destruct (read_shown o r v Hr) as (c & Eread & _). cbn [mistral_messages]. rewrite (bind_run _ _ _ _ _ Eread).
  assert (ob_messages o !! r = Some (mkMessage (mg_role v) c (mg_providerOptions v))) as Hm.
  { unfold read_message in Eread. destruct (_ !! _) as [m|]; [|done]. by injection Eread as ->. }
  destruct (scrub_in_place_run scrub_mistral o r v _ Hr Hpr HQv Hm) as (o1 & E1 & [Hl1 Hk1 Hs1 Hu1 Hf1]). rewrite (bind_run _ _ _ _ _ E1).
  destruct (conversation_kept _ _ _ msgs vs Hk1) as [Hc1 Hrefs1]; [by intros r' Hr' ->%list_elem_of_singleton|done|].
  assert ((match msgs with n :: _ => m ← read_message n; mret (Some (mg_role m)) | [] => mret None end) o1 = (Ret (mg_role <$> head vs), o1)) as Enext.
  { destruct msgs as [|n msgs']; [by apply Forall2_nil_inv_l in Hc1 as ->|]. destruct vs as [|v' vs']; [by apply Forall2_cons_nil_inv in Hc1|].
    apply Forall2_cons in Hc1 as [Hn _]. destruct (read_shown _ _ _ Hn) as (c' & E & _). by rewrite (bind_run _ _ _ _ _ E). }
  rewrite (bind_run _ _ _ _ _ Enext). cbn [mg_role].
  destruct (between_run (mg_role v = role_tool ∧ mg_role <$> head vs = Some role_user) o1) as (b & o2 & Eb & Hg2 & Hcb & Hsb & Hmb).
  rewrite (bind_run _ _ _ _ _ Eb). pose proof (part_refs_grow _ _ _ _ Hg2 Hc1) as Hrefs2.
  destruct (IH vs o2) as (res & o3 & E3 & Hk3 & Hcr & Hsr & Hmr); [by eapply conversation_grow|split; [done|by rewrite Hrefs2, Hrefs1]|done|].
  rewrite (bind_run _ _ _ _ _ E3). exists (r :: b ++ res), o3. split; [done|]. cbn [mistral_views].
  apply (changed_then o r msgs vs _ o1 o2); try done. by eapply shows_bound.
Qed.

Lemma mistral_stage : transforms ids_typed mistral_messages mistral_views.
Proof. intros o msgs vs Hc Hs HQ. destruct (mistral_run msgs vs o Hc Hs HQ) as (out & o' & E & _ & Hare & Hsep & _). by exists out, o'. Qed.

(** *** Cache points *)

Section caching.
Context (mergeDeep : json → json → json).
Abbreviation cached := (cached_options mergeDeep).

Definition mark_options (v : View) : View := with_options v (Some (cached (mg_providerOptions v))).

Definition mark_part (m : part) : part := set_member "providerOptions" (cached (json_get "providerOptions" (JObj m))) m.

(** A message with a cache point: on its last part, or on the message. *)
Definition mark_view (model : Model) (v : View) : View :=
  match mg_content v with
  | parts_content ms =>
    match last ms with
    | Some m => if message_level model || approval m then mark_options v
                else with_content v (parts_content (removelast ms ++ [mark_part m]))
    | None => mark_options v
    end
  | text_content _ => mark_options v
  end.

(** Cache points on the first [n] messages of a kind. *)
Fixpoint mark_first (model : Model) (keep : Role → bool) (n : nat) (vs : list View) : list View :=
  match vs with
  | [] => []
  | v :: rest =>
    if keep (mg_role v) then match n with S n => mark_view model v :: mark_first model keep n rest | O => vs end
    else v :: mark_first model keep n rest
  end.

Definition is_system (role : Role) : bool := bool_decide (role = role_system).

(** On the first two messages of the system, and on the last two others. *)
Definition cached_views (model : Model) (vs : list View) : list View :=
  rev (mark_first model (λ role, negb (is_system role)) 2 (rev (mark_first model is_system 2 vs))).

Lemma separate_disjoint o msgs r r' : separate o msgs → r ∈ msgs → r' ∈ msgs → r ≠ r' → ∀ p, p ∈ message_parts o r → p ∉ message_parts o r'.
Proof.
  intros [Hnd Hp]. induction msgs as [|x msgs IH]; intros Hr Hr' Hne p Hin Hin'; [by apply elem_of_nil in Hr|].
  apply NoDup_cons in Hnd as [Hx Hnd]. rewrite part_refs_cons in Hp. apply NoDup_app in Hp as (Hpx & Hd & Hp).
  apply elem_of_cons in Hr as [->|Hr]; apply elem_of_cons in Hr' as [->|Hr']; [done| | |by eapply (IH Hnd Hp)].
  - apply (Hd p Hin). by eapply part_refs_elem.
  - apply (Hd p Hin'). by eapply part_refs_elem.
Qed.

Lemma message_parts_shown o r v : shows o r v →
  match mg_content v with parts_content ms => parts_are o (message_parts o r) ms | text_content _ => message_parts o r = [] end.
Proof.
  intros Hs. destruct (read_shown o r v Hs) as (c & _ & Hc & ->). destruct c, (mg_content v); cbn in *; done.
Qed.

(** Writing another message or a part of another one. *)
Lemma parts_written o p m ps ms : p ∉ ps → parts_are o ps ms → parts_are (mkObjects (ob_messages o) (<[p := m]> (ob_parts o))) ps ms.
Proof.
  intros Hp. induction 1 as [|q n ps ms Hq _ IH]; [constructor|]. apply not_elem_of_cons in Hp as [Hne Hp].
  constructor; [|by apply IH]. cbn. by rewrite list_lookup_insert_ne.
Qed.

(** What one cache point changes. *)
Record marked (o : Objects) (r : nat) (o' : Objects) (v : View) : Prop := mkMarked {
  mk_shows : shows o' r v;
  mk_parts : ∀ r', message_parts o' r' = message_parts o r';
  mk_others : ∀ r' v', r' ≠ r → (∀ p, p ∈ message_parts o r → p ∉ message_parts o r') → shows o r' v' → shows o' r' v';
}.

Lemma options_marked o r v c : ob_messages o !! r = Some (mkMessage (mg_role v) c (mg_providerOptions v)) → content_is o c (mg_content v) →
  ∃ o', write_message r (with_options (mkMessage (mg_role v) c (mg_providerOptions v)) (Some (cached (mg_providerOptions v)))) o = (Ret (), o') ∧
    marked o r o' (mark_options v).
Proof.
  intros Hm Hc. pose proof (lookup_lt_Some _ _ _ Hm) as Hlt. eexists. split; [reflexivity|]. set (o' := mkObjects _ _). cbn [mg_providerOptions].
  assert (ob_messages o' !! r = Some (mkMessage (mg_role v) c (Some (cached (mg_providerOptions v))))) as Hl by (by apply list_lookup_insert_eq).
  split.
  - exists c. split; [done|]. destruct c, (mg_content v) eqn:E; cbn in Hc |- *; rewrite E; done.
  - intros r'. unfold message_parts. destruct (decide (r' = r)) as [->|Hne]; [by rewrite Hl, Hm|]. cbn. by rewrite list_lookup_insert_ne.
  - intros r' v' Hne _ (c' & Hm' & Hc'). exists c'. split; [cbn; by rewrite list_lookup_insert_ne|]. done.
Qed.

Lemma part_marked o r v ps ms p m : ob_messages o !! r = Some (mkMessage (mg_role v) (parts_content ps) (mg_providerOptions v)) →
  parts_are o ps ms → NoDup ps → last ps = Some p → last ms = Some m →
  ∃ o', write_part p (mark_part m) o = (Ret (), o') ∧ marked o r o' (with_content v (parts_content (removelast ms ++ [mark_part m]))).
Proof.
  intros Hm Hc Hnd Hp Hlast. eexists. split; [reflexivity|]. set (o' := mkObjects _ _).
  apply last_Some in Hp as [ps0 ->]. apply last_Some in Hlast as [ms0 ->].
  apply Forall2_app_inv in Hc as [Hc0 Hcp]; [|apply Forall2_length in Hc; rewrite !length_app in Hc; cbn in Hc; lia].
  apply Forall2_cons in Hcp as [Hlp _]. apply NoDup_app in Hnd as (Hnd0 & Hdis & _).
  assert (p ∉ ps0) as Hp0 by (intros Hin; apply (Hdis p Hin); by left).
  split.
  - exists (parts_content (ps0 ++ [p])). split; [done|]. cbn [mg_content with_content content_is]. rewrite removelast_last.
    apply Forall2_app; [by apply parts_written|]. constructor; [|constructor]. cbn. apply list_lookup_insert_eq. by eapply lookup_lt_Some.
  - done.
  - intros r' v' Hne Hd (c' & Hm' & Hc'). exists c'. split; [done|].
    assert (p ∉ message_parts o r') as Hp'.
    { apply Hd. unfold message_parts. rewrite Hm. apply elem_of_app. right. by left. }
    unfold message_parts in Hp'. rewrite Hm' in Hp'. destruct c', (mg_content v'); cbn in *; try done. by apply parts_written.
Qed.

Lemma mark_run model o r v : shows o r v → NoDup (message_parts o r) →
  ∃ o', mark_cached mergeDeep model r o = (Ret (), o') ∧ marked o r o' (mark_view model v).
Proof.
  intros (c & Hm & Hc) Hnd. unfold mark_cached.
  assert (read_message r o = (Ret (mkMessage (mg_role v) c (mg_providerOptions v)), o)) as E by (unfold read_message; by rewrite Hm).
  rewrite (bind_run _ _ _ _ _ E). unfold message_parts in Hnd. rewrite Hm in Hnd. cbn [mg_content content_refs] in Hnd.
  unfold cache_part, mark_view. cbn [mg_content]. destruct c as [s|ps], (mg_content v) as [s'|ms] eqn:Ev; cbn [content_is content_refs] in *; try done.
  - apply options_marked; [done|by rewrite Ev].
  - assert (last ps = None ∧ last ms = None ∨ ∃ p m, last ps = Some p ∧ last ms = Some m ∧ ob_parts o !! p = Some m) as Hlast.
    { destruct ps as [|p0 ps0 _] using rev_ind; destruct ms as [|m0 ms0 _] using rev_ind;
        [by left|by apply Forall2_length in Hc; rewrite length_app in Hc; cbn in Hc; lia..|].
      right. exists p0, m0. rewrite !last_snoc. split_and!; [done..|]. apply Forall2_app_inv in Hc as [_ Hc]; [by apply Forall2_cons in Hc as [? _]|].
      apply Forall2_length in Hc. rewrite !length_app in Hc. cbn in Hc. lia. }
    destruct Hlast as [[Hp Hl]|(p & m & Hp & Hl & Hpm)]; rewrite Hp, Hl.
    { apply options_marked; [done|by rewrite Ev]. }
    destruct (message_level model); cbn [orb].
    { apply options_marked; [done|by rewrite Ev]. }
    assert ((lastContent ← read_part p; mret (if approval lastContent then None else Some (p, lastContent))) o =
      (Ret (if approval m then None else Some (p, m)), o)) as E2 by (by rewrite (bind_run _ _ _ _ _ (read_part_at _ _ _ Hpm))).
    rewrite (bind_run _ _ _ _ _ E2). destruct (approval m).
    + apply options_marked; [done|by rewrite Ev].
    + by eapply part_marked.
Qed.

(** Cache points on several messages. *)
Lemma mark_all model msgs targets : (∀ r, r ∈ targets → r ∈ msgs) → NoDup targets → ∀ o (f : nat → View), separate o msgs →
  (∀ r, r ∈ msgs → shows o r (f r)) →
  ∃ o', for_each (mark_cached mergeDeep model) targets o = (Ret (), o') ∧ (∀ r, message_parts o' r = message_parts o r) ∧
    (∀ r, r ∈ msgs → shows o' r (if decide (r ∈ targets) then mark_view model (f r) else f r)).
Proof.
  induction targets as [|t targets IH]; intros Hin Hnd o f Hsep Hf.
  { exists o. split_and!; [done..|]. intros r Hr. rewrite decide_False by set_solver. by apply Hf. }
  apply NoDup_cons in Hnd as [Hno Hnd]. assert (t ∈ msgs) as Ht by (apply Hin; by left).
  destruct (mark_run model o t (f t) (Hf t Ht)) as (o1 & E1 & [Hs1 Hp1 Ho1]); [eapply NoDup_parts; [apply Hsep|done]|].
  assert (part_refs o1 msgs = part_refs o msgs) as Hrefs by (unfold part_refs; apply list_bind_ext; done).
  destruct (IH ltac:(intros; apply Hin; by right) Hnd o1 (λ r, if decide (r = t) then mark_view model (f t) else f r)) as (o2 & E2 & Hp2 & Hs2).
  - split; [apply Hsep|by rewrite Hrefs; apply Hsep].
  - intros r Hr. case_decide as Hrt; [by subst|]. apply Ho1; [done| |by apply Hf]. by eapply separate_disjoint.
  - exists o2. cbn [for_each]. rewrite (bind_run _ _ _ _ _ E1), E2. split_and!; [done|by intros r; rewrite Hp2|].
    intros r Hr. specialize (Hs2 r Hr). destruct (decide (r = t)) as [->|Hne].
    + rewrite decide_False in Hs2 by done. by rewrite decide_True by (by left).
    + destruct (decide (r ∈ targets)); [by rewrite decide_True by (by right)|]. by rewrite decide_False by (intros [?|?]%elem_of_cons; done).
Qed.

(** The messages of a conversation as a function of the references. *)
Lemma conversation_function o msgs vs : conversation o msgs vs → NoDup msgs → ∃ f, vs = f <$> msgs ∧ ∀ r, r ∈ msgs → shows o r (f r).
Proof.
  induction 1 as [|r v msgs vs Hr _ IH]; intros Hnd; [exists (λ _, done_view); split; [done|]; intros r Hr; by apply elem_of_nil in Hr|].
  apply NoDup_cons in Hnd as [Hno Hnd]. destruct (IH Hnd) as (f & -> & Hf). exists (λ x, if decide (x = r) then v else f x). split.
  - rewrite fmap_cons, decide_True by done. f_equal. apply list_fmap_ext. intros i x Hx. rewrite decide_False; [done|].
    intros ->. apply Hno. by eapply list_elem_of_lookup_2.
  - intros x [->|Hx]%elem_of_cons; [by rewrite decide_True|]. rewrite decide_False by congruence. by apply Hf.
Qed.

Lemma with_role_run keep o msgs (f : nat → View) : (∀ r, r ∈ msgs → shows o r (f r)) →
  with_role keep msgs o = (Ret (filter (λ r, keep (mg_role (f r)) = true) msgs), o).
Proof.
  intros Hf. assert (conversation o msgs (f <$> msgs)) as Hc.
  { apply Forall2_fmap_r, Forall_Forall2_diag, Forall_forall. done. }
  destruct (read_messages o msgs _ Hc) as (ms & E & Hms). unfold with_role. rewrite (bind_run _ _ _ _ _ E).
  enough ((filter (λ x : nat * ModelMessage, keep (mg_role x.2) = true) (zip msgs ms)).*1 = filter (λ r, keep (mg_role (f r)) = true) msgs) as -> by done.
  clear -Hms. revert ms Hms. induction msgs as [|r msgs IH]; intros ms Hms; cbn in Hms.
  { by apply Forall2_nil_inv_r in Hms as ->. }
  destruct ms as [|m ms]; [by apply Forall2_nil_cons_inv in Hms|]. apply Forall2_cons in Hms as [(c & -> & _) Hms].
  cbn [zip zip_with]. rewrite !filter_cons. cbn [snd mg_role]. case_decide; rewrite ?fmap_cons, IH by done; done.
Qed.

(** Which messages a pass over the list marks. *)
Lemma mark_first_map model keep (f : nat → View) msgs : NoDup msgs → ∀ n,
  mark_first model keep n (f <$> msgs) =
    (λ r, if decide (r ∈ take n (filter (λ r, keep (mg_role (f r)) = true) msgs)) then mark_view model (f r) else f r) <$> msgs.
Proof.
  induction msgs as [|r msgs IH]; intros Hnd n; [done|]. apply NoDup_cons in Hnd as [Hno Hnd]. rewrite fmap_cons. cbn [mark_first]. rewrite filter_cons.
  destruct (keep (mg_role (f r))) eqn:E.
  - rewrite decide_True by done. destruct n as [|n]; cbn [take].
    + done.
    + rewrite fmap_cons, decide_True by (by left). rewrite IH by done. f_equal. apply list_fmap_ext. intros i x Hx.
      assert (x ≠ r) by (intros ->; apply Hno; by eapply list_elem_of_lookup_2). apply decide_ext. rewrite elem_of_cons. naive_solver.
  - rewrite decide_False by done. rewrite fmap_cons, IH by done. f_equal. rewrite decide_False; [done|].
    intros Hin. apply Hno. apply elem_of_take in Hin as (i & Hi & _). apply list_elem_of_lookup_2, list_elem_of_filter in Hi. apply Hi.
Qed.

Lemma rev_filter {A} (P : A → Prop) `{∀ x, Decision (P x)} (xs : list A) : filter P (rev xs) = rev (filter P xs).
Proof.
  induction xs as [|x xs IH]; [done|]. cbn [rev]. rewrite filter_app, IH, !filter_cons. case_decide; cbn; [done|]. apply app_nil_r.
Qed.

Lemma map_rev_list {A B} (f : A → B) (xs : list A) : f <$> rev xs = rev (f <$> xs).
Proof. apply map_rev. Qed.

Lemma mark_role model v : mg_role (mark_view model v) = mg_role v.
Proof. unfold mark_view. destruct (mg_content v); [done|]. destruct (last _); [|done]. by destruct (_ || _). Qed.

(** The last [n] in a list are the first [n] from behind. *)
Lemma take_rev_elem {A} (x : A) n xs : n ≠ 0 → x ∈ take n (rev xs) ↔ x ∈ slice_tail n xs.
Proof.
  intros Hn. rewrite firstn_rev. unfold slice_tail. destruct n as [|n]; [done|]. rewrite !list_elem_of_In. by rewrite <-in_rev.
Qed.
End caching.

Section apply_caching.
Context (mergeDeep : json → json → json) (unique : list nat → list nat).

(** [unique] leaves different objects alone. *)
Hypothesis unique_spec : ∀ xs, NoDup xs → unique xs = xs.

Lemma caching_stage model : transforms (λ _, True) (applyCaching mergeDeep unique model) (cached_views mergeDeep model).
Proof using unique_spec.
  intros o msgs vs Hc Hsep _. destruct (conversation_function o msgs vs Hc (proj1 Hsep)) as (f & -> & Hf).
  unfold applyCaching. rewrite (bind_run _ _ _ _ _ (with_role_run (λ role, bool_decide (role = role_system)) o msgs f Hf)).
  rewrite (bind_run _ _ _ _ _ (with_role_run (λ role, negb (bool_decide (role = role_system))) o msgs f Hf)).
  set (systems := filter (λ r, is_system (mg_role (f r)) = true) msgs).
  set (others := filter (λ r, negb (is_system (mg_role (f r))) = true) msgs).
  assert (∀ r, r ∈ take 2 systems → is_system (mg_role (f r)) = true ∧ r ∈ msgs) as Hsys.
  { intros r (i & Hi & _)%elem_of_take. by apply list_elem_of_lookup_2, list_elem_of_filter in Hi. }
  assert (∀ r, r ∈ slice_tail 2 others → is_system (mg_role (f r)) = false ∧ r ∈ msgs) as Hoth.
  { intros r Hr. apply take_rev_elem, elem_of_take in Hr as (i & Hi & _); [|done]. apply list_elem_of_lookup_2 in Hi.
    apply list_elem_of_In, in_rev, list_elem_of_In, list_elem_of_filter in Hi as [Hi ?]. by apply negb_true_iff in Hi. }
  assert (NoDup (take 2 systems ++ slice_tail 2 others)) as Hnd.
  { apply NoDup_app. split_and!.
    - eapply (sublist_NoDup _ systems); [by apply NoDup_filter, Hsep|apply sublist_take].
    - intros r [H1 _]%Hsys [H2 _]%Hoth. congruence.
    - eapply (sublist_NoDup _ others); [by apply NoDup_filter, Hsep|apply sublist_drop]. }
  fold systems others. change (filter (λ r, bool_decide (mg_role (f r) = role_system) = true) msgs) with systems.
  change (filter (λ r, negb (bool_decide (mg_role (f r) = role_system)) = true) msgs) with others. rewrite unique_spec by done.
  destruct (mark_all mergeDeep model msgs (take 2 systems ++ slice_tail 2 others)) with (o := o) (f := f) as (o' & E & Hp & Hs); [|done..|].
  { intros r [Hr|Hr]%elem_of_app; [by apply Hsys|by apply Hoth]. }
  rewrite (bind_run _ _ _ _ _ E). exists msgs, o'. split; [done|].
  assert (part_refs o' msgs = part_refs o msgs) as Hrefs by (unfold part_refs; apply list_bind_ext; done).
  split; [|split; [apply Hsep|rewrite Hrefs; apply Hsep]].
  enough (cached_views mergeDeep model (f <$> msgs) = (λ r, if decide (r ∈ take 2 systems ++ slice_tail 2 others) then mark_view mergeDeep model (f r) else f r) <$> msgs) as ->.
  { apply Forall2_fmap_r, Forall_Forall2_diag, Forall_forall. done. }
  unfold cached_views. rewrite mark_first_map by apply Hsep. fold systems.
  set (g := λ r, if decide (r ∈ take 2 systems) then mark_view mergeDeep model (f r) else f r).
  rewrite <-map_rev_list, mark_first_map by (rewrite <-Permutation_rev; apply Hsep). rewrite <-map_rev_list, rev_involutive.
  assert (∀ r, mg_role (g r) = mg_role (f r)) as Hrole by (intros r; unfold g; case_decide; [apply mark_role|done]).
  assert (filter (λ r, negb (is_system (mg_role (g r))) = true) (rev msgs) = rev others) as ->.
  { unfold others. rewrite <-rev_filter. apply list_filter_iff. intros r. by rewrite Hrole. }
  apply list_fmap_ext. intros i r _. unfold g. destruct (decide (r ∈ take 2 systems)) as [Hr|Hr].
  - rewrite decide_False, decide_True; [done|apply elem_of_app; by left|]. rewrite take_rev_elem by done. intros [Hf' _]%Hoth. apply Hsys in Hr as [Hr _]. congruence.
  - apply decide_ext. rewrite take_rev_elem, elem_of_app by done. naive_solver.
Qed.
End apply_caching.

(** ** The whole transformation *)

Lemma stage_transforms Q f F : stage Q f F → transforms Q f F.
Proof. intros Hf o msgs vs Hc Hs HQ. destruct (Hf o msgs vs Hc Hs HQ) as (out & o' & E & _ & ? & ?). by exists out, o'. Qed.

Lemma transforms_more Q Q' f F : (∀ v, Q' v → Q v) → transforms Q f F → transforms Q' f F.
Proof. intros HQ Hf o msgs vs Hc Hs Hv. apply Hf; [done..|]. by eapply Forall_impl. Qed.

Lemma transforms_then Q Q' f F g G : transforms Q f F → transforms Q' g G → (∀ vs, Forall Q vs → Forall Q' (F vs)) →
  transforms Q (λ msgs, out ← f msgs; g out) (λ vs, G (F vs)).
Proof.
  intros Hf Hg HQ o msgs vs Hc Hs Hv. destruct (Hf o msgs vs Hc Hs Hv) as (out & o' & E & Hc' & Hs'). rewrite (bind_run _ _ _ _ _ E).
  apply Hg; [done|done|by apply HQ].
Qed.

Lemma transforms_when Q (b : bool) f F : transforms Q f F → transforms Q (apply_when b f) (λ vs, if b then F vs else vs).
Proof. intros Hf o msgs vs Hc Hs Hv. unfold apply_when. destruct b; [by apply Hf|]. by exists msgs, o. Qed.

Lemma transforms_same Q : transforms Q mret (λ vs, vs).
Proof. intros o msgs vs Hc Hs Hv. by exists msgs, o. Qed.

(** *** Ids *)

Section ids.
Context (ok : string → Prop).

Lemma ids_ok_parts v ms : mg_content v = parts_content ms → ids_ok ok v → Forall (part_ok ok (mg_role v)) ms.
Proof. unfold ids_ok. by intros ->. Qed.

(** Fewer parts, or other parts that are all right. *)
Lemma ids_ok_content v ms' : Forall (part_ok ok (mg_role v)) ms' → ids_ok ok (with_content v (parts_content ms')).
Proof. done. Qed.

Lemma ids_ok_filter v ms (P : part → Prop) `{∀ m, Decision (P m)} : mg_content v = parts_content ms → ids_ok ok v →
  ids_ok ok (with_content v (parts_content (filter P ms))).
Proof.
  intros Hc Hv. apply ids_ok_content, Forall_forall. intros m [_ Hm]%list_elem_of_filter. pose proof (ids_ok_parts v ms Hc Hv) as Hall.
  rewrite Forall_forall in Hall. by apply Hall.
Qed.

Lemma text_part_ok role s : part_ok ok role (text_part s) ∧ part_ok ok role (reasoning_part s).
Proof. split; (split; [by apply (bool_decide_unpack _)|]); by destruct role. Qed.

Lemma unsupported_ok model v : ids_ok ok v → ids_ok ok (unsupported_view model v).
Proof.
  unfold unsupported_view. destruct (mg_role v) eqn:Er, (mg_content v) eqn:Ec; try done. intros Hv. apply ids_ok_content.
  apply Forall_fmap. eapply Forall_impl; [by apply (ids_ok_parts v)|]. intros m Hm. cbn.
  destruct (replaced_part model m) as [p|] eqn:E; [|done]. unfold replaced_part in E. cbv zeta in E.
  destruct (_ && _) in E; [done|]. destruct (_ && _) in E; [injection E as <-; apply text_part_ok|].
  destruct (mimeToModality _); [|done]. destruct (md_input _ _); [done|]. injection E as <-. apply text_part_ok.
Qed.

Lemma nonempty_ok vs : Forall (ids_ok ok) vs → Forall (ids_ok ok) (omap nonempty_view vs).
Proof.
  intros Hvs. apply Forall_forall. intros w (v & Hv & Hw)%list_elem_of_omap. rewrite Forall_forall in Hvs. specialize (Hvs v Hv).
  unfold nonempty_view in Hw. destruct (mg_content v) eqn:Ec; [destruct (String.eqb _ _); [done|by injection Hw as <-]|].
  destruct (filter _ _) eqn:Ef; [done|]. injection Hw as <-. rewrite <-Ef. by apply ids_ok_filter.
Qed.

Lemma calls_last_ok vs : Forall (ids_ok ok) vs → Forall (ids_ok ok) (vs ≫= calls_last_view).
Proof.
  intros Hvs. apply Forall_forall. intros w (v & Hw & Hv)%list_elem_of_bind. rewrite Forall_forall in Hvs. specialize (Hvs v Hv).
  unfold calls_last_view in Hw. destruct (mg_role v) eqn:Er, (mg_content v) eqn:Ec; try (by apply list_elem_of_singleton in Hw as ->).
  destruct (forallb _ _); [by apply list_elem_of_singleton in Hw as ->|].
  apply elem_of_cons in Hw as [->| ->%list_elem_of_singleton]; by apply ids_ok_filter.
Qed.

Lemma reasoning_ok v : ids_ok ok v → ids_ok ok (reasoning_view v).
Proof.
  unfold reasoning_view. intros Hv. destruct (mg_role v) eqn:Er, (mg_content v) as [s|ms] eqn:Ec; try done.
  - apply ids_ok_content. rewrite Er. apply Forall_app. split; [|apply Forall_singleton, text_part_ok].
    destruct (String.eqb s ""); [constructor|]. constructor; [apply text_part_ok|constructor].
  - destruct (existsb _ ms); [done|]. apply ids_ok_content, Forall_app. split; [by apply ids_ok_parts|]. constructor; [apply text_part_ok|constructor].
Qed.

Lemma interleave_ok field v : ids_ok ok v → ids_ok ok (interleave_view field v).
Proof.
  unfold interleave_view. intros Hv. destruct (mg_role v) eqn:Er, (mg_content v) as [s|ms] eqn:Ec; try done.
  pose proof (ids_ok_filter v ms (λ m, negb (type_is "reasoning" m) = true) Ec Hv) as Hf. unfold ids_ok in *.
  cbn [with_content mg_content mg_role] in *. by rewrite Er in Hf.
Qed.

(** A part with another member that is neither its type nor its id. *)
Lemma part_ok_set role m key x : key ≠ "type" → key ≠ "toolCallId" → part_ok ok role m → part_ok ok role (set_member key x m).
Proof.
  intros H1 H2 [Hnd Hid]. split; [by apply set_member_unique|].
  assert (∀ t, type_is t (set_member key x m) = type_is t m) as Ht.
  { intros t. unfold type_is. rewrite set_member_get by done. by rewrite decide_False. }
  rewrite set_member_get, decide_False by done. unfold carries_id in *. by rewrite !Ht.
Qed.

Lemma remap_ok providerID key v : ids_ok ok v → ids_ok ok (remap_view providerID key v).
Proof.
  unfold ids_ok, remap_view. cbn [mg_content mg_role]. destruct (mg_content v) as [s|ms]; [done|]. intros Hall. apply Forall_fmap.
  eapply Forall_impl; [exact Hall|]. intros m Hm. cbn. unfold remap_part. destruct (approval m); [done|].
  destruct (remap _ _ _); [|done]. by apply part_ok_set.
Qed.

Lemma mark_ok mergeDeep model v : ids_ok ok v → ids_ok ok (mark_view mergeDeep model v).
Proof.
  unfold mark_view. intros Hv. destruct (mg_content v) as [s|ms] eqn:Ec; [done|].
  assert (ids_ok ok (mark_options mergeDeep v)) as Hopt by done. destruct (last ms) as [m|] eqn:El; [|done].
  destruct (_ || _); [done|]. pose proof (ids_ok_parts v ms Ec Hv) as Hall. apply last_Some in El as [ms0 ->]. apply Forall_app in Hall as [H0 Hm].
  apply Forall_cons in Hm as [Hm _]. apply ids_ok_content. rewrite removelast_last. apply Forall_app. split; [done|].
  constructor; [by apply part_ok_set|constructor].
Qed.

Lemma mark_first_forall (Q : View → Prop) mergeDeep model keep vs : (∀ v, Q v → Q (mark_view mergeDeep model v)) → ∀ n,
  Forall Q vs → Forall Q (mark_first mergeDeep model keep n vs).
Proof.
  intros HQ n Hvs. revert n. induction Hvs as [|v vs Hv Hvs IH]; intros n; cbn [mark_first]; [constructor|].
  destruct (keep (mg_role v)); [destruct n as [|n]|]; constructor; auto.
Qed.

Lemma cached_forall (Q : View → Prop) mergeDeep model vs : (∀ v, Q v → Q (mark_view mergeDeep model v)) → Forall Q vs → Forall Q (cached_views mergeDeep model vs).
Proof. intros HQ Hvs. unfold cached_views. by apply Forall_rev, mark_first_forall, Forall_rev, mark_first_forall. Qed.
End ids.

(** *** Scrubbing *)

(** What scrubbing does to a part. *)
Lemma scrub_part_get scrub role m : NoDup m.*1 →
  NoDup (scrub_part scrub role m).*1 ∧ ∀ key, key ≠ "toolCallId" → json_get key (JObj (scrub_part scrub role m)) = json_get key (JObj m).
Proof.
  intros Hnd. unfold scrub_part. destruct (carries_id role m); [|done]. destruct (json_get "toolCallId" (JObj m)) as [[]|]; try done.
  split; [by apply set_member_unique|]. intros key Hk. rewrite set_member_get by done. by rewrite decide_False.
Qed.

Lemma scrub_part_ok ok ok' scrub role m : (∀ id, ok id → ok' (scrub id)) → part_ok ok role m → part_ok ok' role (scrub_part scrub role m).
Proof.
  intros Hok [Hnd Hid]. destruct (scrub_part_get scrub role m Hnd) as [Hnd' Hget]. split; [done|].
  assert (carries_id role (scrub_part scrub role m) = carries_id role m) as -> by (unfold carries_id, type_is; by rewrite Hget).
  intros Hc. destruct (Hid Hc) as (id & E & Hi). exists (scrub id). split; [|by apply Hok]. unfold scrub_part.
  rewrite Hc, E, set_member_get by done. by rewrite decide_True.
Qed.

Lemma scrub_ok ok ok' scrub v : (∀ id, ok id → ok' (scrub id)) → ids_ok ok v → ids_ok ok' (scrub_view scrub v).
Proof.
  intros Hok Hv. unfold scrub_view. destruct (mg_content v) as [s|ms] eqn:Ec; [unfold ids_ok; destruct (mg_role v); by rewrite Ec|].
  pose proof (ids_ok_parts ok v ms Ec Hv) as Hall. destruct (mg_role v) eqn:Er.
  1,2: unfold ids_ok; rewrite Ec, Er; eapply Forall_impl; [exact Hall|]; by intros m [Hnd _].
  all: apply ids_ok_content; rewrite Er; apply Forall_fmap; eapply Forall_impl; [exact Hall|]; intros m; by apply scrub_part_ok.
Qed.

Section whole.
Context (toLocaleLowerCase : string → string) (mergeDeep : json → json → json) (unique : list nat → list nat).
Abbreviation mistral := (is_mistral toLocaleLowerCase).

Definition normalized_views (model : Model) (vs : list View) : list View :=
  let vs := if String.eqb (md_npm model) "@ai-sdk/anthropic" then omap nonempty_view vs else vs in
  let vs := if String.eqb (md_npm model) "@ai-sdk/amazon-bedrock" then omap nonempty_view vs else vs in
  let vs := if includes (md_api_id model) "claude" then scrub_view scrub_claude <$> vs else vs in
  let vs := if is_one_of (md_npm model) ["@ai-sdk/anthropic"; "@ai-sdk/google-vertex/anthropic"] then vs ≫= calls_last_view else vs in
  if mistral model then mistral_views vs
  else
    let vs := if includes (md_api_id model) "deepseek" then reasoning_view <$> vs else vs in
    match interleaved_of model with Some field => interleave_view field <$> vs | None => vs end.

(** The messages that are sent, as a function of the conversation. *)
Definition transformed (model : Model) (vs : list View) : list View :=
  let vs := normalized_views model (unsupported_view model <$> vs) in
  let vs := if wants_caching model then cached_views mergeDeep model vs else vs in
  match remap_key model with Some key => remap_view (md_providerID model) key <$> vs | None => vs end.

Hypothesis unique_spec : ∀ xs, NoDup xs → unique xs = xs.

Lemma typed_when (b : bool) (F : list View → list View) : (∀ vs, Forall ids_typed vs → Forall ids_typed (F vs)) →
  ∀ vs, Forall ids_typed vs → Forall ids_typed (if b then F vs else vs).
Proof. intros HF vs Hvs. destruct b; [by apply HF|done]. Qed.

Lemma map_typed f vs : (∀ v, ids_typed v → ids_typed (f v)) → Forall ids_typed vs → Forall ids_typed (f <$> vs).
Proof. intros Hf Hvs. apply Forall_fmap. eapply Forall_impl; [exact Hvs|]. intros v. apply Hf. Qed.

(** Runs one step of a program on the conversation at hand. *)
Ltac run_step H :=
  lazymatch goal with
  | Hc : conversation ?o ?msgs ?vs, Hs : separate ?o ?msgs, Hv : Forall ids_typed ?vs |- _ =>
    let E := fresh in let Hc' := fresh in let Hs' := fresh in let out := fresh "out" in let o' := fresh "o" in
    destruct (H o msgs vs Hc Hs Hv) as (out & o' & E & Hc' & Hs'); rewrite (bind_run _ _ _ _ _ E); clear E Hc Hs
  end.

Ltac typed_views H := lazymatch goal with Hv : Forall ids_typed _ |- _ => apply H in Hv end.

Lemma any_typed f F : transforms (λ _, True) f F → transforms ids_typed f F.
Proof. apply transforms_more. done. Qed.

Lemma normalize_run model : transforms ids_typed (normalizeMessages toLocaleLowerCase model) (normalized_views model).
Proof.
  pose proof (any_typed _ _ (stage_transforms _ _ _ drop_empty_stage)) as Hdrop.
  intros o msgs vs Hc Hs Hv. unfold normalizeMessages, normalized_views.
  run_step (transforms_when _ (String.eqb (md_npm model) "@ai-sdk/anthropic") _ _ Hdrop).
  typed_views (typed_when (String.eqb (md_npm model) "@ai-sdk/anthropic") _ (nonempty_ok _)).
  run_step (transforms_when _ (String.eqb (md_npm model) "@ai-sdk/amazon-bedrock") _ _ Hdrop).
  typed_views (typed_when (String.eqb (md_npm model) "@ai-sdk/amazon-bedrock") _ (nonempty_ok _)).
  run_step (transforms_when _ (includes (md_api_id model) "claude") _ _ (stage_transforms _ _ _ scrub_claude_stage)).
  typed_views (typed_when (includes (md_api_id model) "claude") _ (λ vs, map_typed _ vs (λ v, scrub_ok (λ _, True) (λ _, True) scrub_claude v (λ _ _, I)))).
  run_step (transforms_when _ (is_one_of (md_npm model) ["@ai-sdk/anthropic"; "@ai-sdk/google-vertex/anthropic"]) _ _
    (any_typed _ _ (stage_transforms _ _ _ calls_last_stage))).
  typed_views (typed_when (is_one_of (md_npm model) ["@ai-sdk/anthropic"; "@ai-sdk/google-vertex/anthropic"]) _ (calls_last_ok _)).
  destruct (mistral model); [by apply mistral_stage|].
  run_step (transforms_when _ (includes (md_api_id model) "deepseek") _ _ (any_typed _ _ (stage_transforms _ _ _ add_reasoning_stage))).
  destruct (interleaved_of model) as [field|]; [|by apply (transforms_same (λ _, True)); [..|apply Forall_true]].
  by apply (stage_transforms _ _ _ (interleave_stage field)); [..|apply Forall_true].
Qed.

Lemma message_run model : transforms ids_typed (message toLocaleLowerCase mergeDeep unique model) (transformed model).
Proof using unique_spec.
  intros o msgs vs Hc Hs Hv. unfold message, transformed.
  run_step (any_typed _ _ (stage_transforms _ _ _ (unsupported_stage model))).
  typed_views (λ vs, map_typed _ vs (unsupported_ok _ model)).
  run_step (normalize_run model). clear Hv.
  match goal with Hc : conversation ?o ?msgs ?vs, Hs : separate ?o ?msgs |- _ =>
    destruct (transforms_when _ (wants_caching model) _ _ (caching_stage mergeDeep unique unique_spec model) o msgs vs Hc Hs) as (out' & o' & E & Hc' & Hs');
      [by apply Forall_true|]; rewrite (bind_run _ _ _ _ _ E)
  end.
  destruct (remap_key model) as [key|].
  - by apply (stage_transforms _ _ _ (remap_stage (md_providerID model) key)); [..|apply Forall_true].
  - by apply (transforms_same (λ _, True)); [..|apply Forall_true].
Qed.
End whole.
