(* ===== verification/MessageRules.v ===== *)
(** * What services ask of messages

    The rules of the services behind the models of [MessageTransform], and that
    the rewritten conversations follow them. *)

From S2P Require Import Prelude Json Regex Files ModelOptions MessageTransform MessageSteps.
From Stdlib Require Import Ascii String.
From stdpp Require Import prelude list strings pretty.
Set Default Goal Selector "!".
Set Default Proof Using "Type".
Set Warnings "-register-all,-clear-no-such-hyp".
#[local] Arguments String.append : simpl nomatch.
Open Scope nat_scope.

(** ** What the services ask for *)

(** Letters, digits, underscores and hyphens. *)
Definition claude_id (id : string) : Prop := Forall (λ c, alphanumeric c || has_char c "_-" = true) (list_ascii_of_string id).

(** Nine letters and digits. *)
Definition mistral_id (id : string) : Prop := String.length id = 9 ∧ Forall (λ c, alphanumeric c = true) (list_ascii_of_string id).

(** The tool calls of an assistant come after everything else it says. *)
Definition calls_trailing (v : View) : Prop :=
  match mg_role v, mg_content v with
  | role_assistant, parts_content ms => ∃ n k, type_is "tool-call" <$> ms = replicate n false ++ replicate k true
  | _, _ => True
  end.

(** A message that says something in every part. *)
Definition says_something (v : View) : Prop :=
  match mg_content v with
  | text_content s => s ≠ ""
  | parts_content ms => ms ≠ [] ∧ Forall (λ m, empty_part m = false) ms
  end.

(** No message of a tool is followed by one of the user. *)
Definition answered (roles : list Role) : Prop := ∀ i, roles !! i = Some role_tool → roles !! S i ≠ Some role_user.

Lemma scrub_claude_valid id : claude_id (scrub_claude id).
Proof.
  unfold claude_id, scrub_claude. set (f := λ c, if alphanumeric c || has_char c "_-" then c else "_"%char).
  assert (∀ c, alphanumeric (f c) || has_char (f c) "_-" = true) as Hf.
  { intros c. unfold f. destruct (alphanumeric c || has_char c "_-") eqn:E; [done|reflexivity]. }
  clearbody f. induction id as [|c id IH]; constructor; [apply Hf|done].
Qed.

Lemma ascii_of_app s t : list_ascii_of_string (s +:+ t) = list_ascii_of_string s ++ list_ascii_of_string t.
Proof. induction s as [|c s IH]; [done|]. cbn. by rewrite IH. Qed.

Lemma ascii_length s : length (list_ascii_of_string s) = String.length s.
Proof. induction s as [|c s IH]; [done|]. cbn. by rewrite IH. Qed.

Lemma filter_string_all f s : Forall (λ c, f c = true) (list_ascii_of_string (filter_string f s)).
Proof. induction s as [|c s IH]; cbn; [constructor|]. destruct (f c) eqn:E; [by constructor|done]. Qed.

Lemma substring_prefix n s : list_ascii_of_string (substring 0 n s) = take n (list_ascii_of_string s).
Proof. revert n. induction s as [|c s IH]; intros [|n]; cbn; [done..|]. by rewrite IH. Qed.

Lemma scrub_mistral_valid id : mistral_id (scrub_mistral id).
Proof.
  unfold mistral_id, scrub_mistral, padEnd. set (s := substring 0 9 (filter_string alphanumeric id)).
  assert (Forall (λ c, alphanumeric c = true) (list_ascii_of_string s)) as Hs.
  { unfold s. rewrite substring_prefix. apply Forall_take, filter_string_all. }
  assert (String.length s ≤ 9) as Hl by (rewrite <-ascii_length; unfold s; rewrite substring_prefix, length_take; lia).
  clearbody s. rewrite <-ascii_length, ascii_of_app, list_ascii_of_string_of_list_ascii. split.
  - rewrite length_app, length_replicate, ascii_length. lia.
  - apply Forall_app. split; [done|]. by apply Forall_replicate.
Qed.

(** *** Tool calls behind the rest *)

Lemma all_of_type (b : bool) (ms : list part) (P : part → Prop) `{∀ m, Decision (P m)} : (∀ m, P m → type_is "tool-call" m = b) →
  type_is "tool-call" <$> filter P ms = replicate (length (filter P ms)) b.
Proof.
  intros HP. induction ms as [|m ms IH]; [done|]. rewrite filter_cons. case_decide as Hm; [|done]. rewrite fmap_cons, IH, HP by done. done.
Qed.

Lemma drop_until_split (ms : list part) : forallb (type_is "tool-call") (drop_until (type_is "tool-call") ms) = true →
  ∃ n k, type_is "tool-call" <$> ms = replicate n false ++ replicate k true.
Proof.
  induction ms as [|m ms IH]; intros Hall; [by exists 0, 0|]. cbn [drop_until] in Hall. rewrite fmap_cons. destruct (type_is "tool-call" m) eqn:E.
  - exists 0, (S (length ms)). cbn. f_equal. cbn [forallb] in Hall. rewrite E in Hall. cbn [andb] in Hall. clear IH E. induction ms as [|x ms IH]; [done|].
    cbn [forallb] in Hall. apply andb_true_iff in Hall as [E Hall]. rewrite fmap_cons, E, IH by done. done.
  - destruct (IH Hall) as (n & k & ->). by exists (S n), k.
Qed.

Lemma calls_last_trailing vs : Forall calls_trailing (vs ≫= calls_last_view).
Proof.
  apply Forall_forall. intros w (v & Hw & _)%list_elem_of_bind. unfold calls_last_view in Hw.
  destruct (mg_role v) eqn:Er, (mg_content v) as [s|ms] eqn:Ec;
    try (apply list_elem_of_singleton in Hw as ->; unfold calls_trailing; rewrite Er, ?Ec; exact I).
  destruct (forallb _ _) eqn:Ef.
  { apply list_elem_of_singleton in Hw as ->. unfold calls_trailing. rewrite Er, Ec. by apply drop_until_split. }
  apply elem_of_cons in Hw as [->| ->%list_elem_of_singleton]; unfold calls_trailing; cbn [with_content mg_role mg_content]; rewrite Er.
  - eexists _, 0. rewrite app_nil_r. apply all_of_type. intros m Hm. by apply negb_true_iff.
  - exists 0. eexists. apply all_of_type. done.
Qed.

Lemma trailing_types v v' : mg_role v' = mg_role v →
  (∀ ms', mg_content v' = parts_content ms' → ∃ ms, mg_content v = parts_content ms ∧ type_is "tool-call" <$> ms' = type_is "tool-call" <$> ms) →
  calls_trailing v → calls_trailing v'.
Proof.
  intros Hr Hc Hv. unfold calls_trailing. rewrite Hr. destruct (mg_role v) eqn:Er; try done. destruct (mg_content v') as [s|ms']; [done|].
  destruct (Hc ms' eq_refl) as (ms & E & ->). unfold calls_trailing in Hv. by rewrite Er, E in Hv.
Qed.

Lemma interleave_trailing field v : calls_trailing v → calls_trailing (interleave_view field v).
Proof.
  unfold interleave_view. intros Hv. destruct (mg_role v) eqn:Er, (mg_content v) as [s|ms] eqn:Ec; try done.
  unfold calls_trailing in *. rewrite Er, Ec in Hv. cbn [mg_role mg_content]. destruct Hv as (n & k & E).
  apply fmap_app_inv in E as (a & b & Ea & Eb & ->). rewrite filter_app, fmap_app.
  exists (length (filter (λ m, negb (type_is "reasoning" m) = true) a)), (length (filter (λ m, negb (type_is "reasoning" m) = true) b)).
  f_equal.
  - clear -Ea. revert n Ea. induction a as [|m a IH]; intros n Ea; [done|]. destruct n as [|n]; [done|]. rewrite fmap_cons in Ea. cbn [replicate] in Ea. injection Ea as E Ea.
    rewrite filter_cons. case_decide; [rewrite fmap_cons, <-E; cbn [length replicate]; f_equal|]; by apply (IH n).
  - clear -Eb. revert k Eb. induction b as [|m b IH]; intros k Eb; [done|]. destruct k as [|k]; [done|]. rewrite fmap_cons in Eb. cbn [replicate] in Eb. injection Eb as E Eb.
    rewrite filter_cons. case_decide; [rewrite fmap_cons, <-E; cbn [length replicate]; f_equal|]; by apply (IH k).
Qed.

(** *** Parts that differ in one member *)

Definition same_but (key0 : string) (ms' ms : list part) : Prop :=
  Forall2 (λ m' m, ∀ key, key ≠ key0 → json_get key (JObj m') = json_get key (JObj m)) ms' ms.

(** A view with the same role, and the same content but for one member of its
    parts. *)
Definition similar (key0 : string) (v' v : View) : Prop :=
  mg_role v' = mg_role v ∧
  match mg_content v', mg_content v with
  | text_content s, text_content t => s = t
  | parts_content ms', parts_content ms => same_but key0 ms' ms
  | _, _ => False
  end.

Lemma same_but_refl key0 ms : same_but key0 ms ms.
Proof. apply Forall_Forall2_diag. by apply Forall_true. Qed.

Lemma similar_refl key0 v : similar key0 v v.
Proof. split; [done|]. destruct (mg_content v); [done|apply same_but_refl]. Qed.

Lemma same_but_map key0 f ms : Forall (λ m, NoDup m.*1) ms →
  (∀ m key, NoDup m.*1 → key ≠ key0 → json_get key (JObj (f m)) = json_get key (JObj m)) → same_but key0 (f <$> ms) ms.
Proof. intros Hms Hf. apply Forall2_fmap_l, Forall_Forall2_diag. eapply Forall_impl; [exact Hms|]. intros m Hm key. by apply Hf. Qed.

Lemma typed_unique ok v ms : ids_ok ok v → mg_content v = parts_content ms → Forall (λ m, NoDup m.*1) ms.
Proof. intros Hv Hc. eapply Forall_impl; [by apply (ids_ok_parts ok v)|]. by intros m []. Qed.

Lemma scrub_similar ok scrub v : ids_ok ok v → similar "toolCallId" (scrub_view scrub v) v.
Proof.
  intros Hv. unfold scrub_view. destruct (mg_content v) as [s|ms] eqn:Ec; [destruct (mg_role v); apply similar_refl|].
  assert (similar "toolCallId" (with_content v (parts_content (scrub_part scrub (mg_role v) <$> ms))) v) as Hs.
  { split; [done|]. cbn [with_content mg_content]. rewrite Ec. apply same_but_map; [by eapply typed_unique|]. intros m key Hnd. by apply scrub_part_get. }
  destruct (mg_role v); try apply similar_refl; exact Hs.
Qed.

Lemma options_set m key v : NoDup m.*1 → key ≠ "providerOptions" → json_get key (JObj (set_member "providerOptions" v m)) = json_get key (JObj m).
Proof. intros Hnd Hk. rewrite set_member_get by done. by rewrite decide_False. Qed.

Lemma remap_similar ok providerID key v : ids_ok ok v → similar "providerOptions" (remap_view providerID key v) v.
Proof.
  intros Hv. split; [done|]. cbn [remap_view mg_content]. destruct (mg_content v) as [s|ms] eqn:Ec; [done|].
  apply same_but_map; [by eapply typed_unique|]. intros m k Hnd Hk. unfold remap_part. destruct (approval m); [done|].
  destruct (remap _ _ _); [by apply options_set|done].
Qed.

Lemma mark_similar ok mergeDeep model v : ids_ok ok v → similar "providerOptions" (mark_view mergeDeep model v) v.
Proof.
  intros Hv. assert (similar "providerOptions" (mark_options mergeDeep v) v) as Hopt.
  { split; [done|]. cbn [mark_options with_options mg_content]. destruct (mg_content v); [done|apply same_but_refl]. }
  unfold mark_view. destruct (mg_content v) as [s|ms] eqn:Ec; [exact Hopt|]. destruct (last ms) as [m|] eqn:El; [|exact Hopt].
  destruct (_ || _); [exact Hopt|]. split; [done|]. cbn [with_content mg_content]. rewrite Ec. apply last_Some in El as [ms0 ->].
  pose proof (typed_unique _ _ _ Hv Ec) as Hnd. apply Forall_app in Hnd as [_ Hm]. apply Forall_cons in Hm as [Hm _].
  rewrite removelast_last. apply Forall2_app; [apply same_but_refl|]. constructor; [|constructor]. intros key. by apply options_set.
Qed.

Lemma same_but_types key0 ms' ms t : key0 ≠ "type" → same_but key0 ms' ms → type_is t <$> ms' = type_is t <$> ms.
Proof.
  intros Hk. induction 1 as [|m' m ms' ms Hm _ IH]; [done|]. rewrite !fmap_cons, IH. f_equal. unfold type_is. by rewrite Hm.
Qed.

Lemma similar_trailing key0 v' v : key0 ≠ "type" → similar key0 v' v → calls_trailing v → calls_trailing v'.
Proof.
  intros Hk [Hr Hc]. unfold calls_trailing. rewrite Hr. destruct (mg_role v); try done.
  destruct (mg_content v') as [s'|ms'], (mg_content v) as [s|ms]; try done. by rewrite (same_but_types key0 ms' ms).
Qed.

Lemma similar_says key0 v' v : key0 ≠ "type" → key0 ≠ "text" → similar key0 v' v → says_something v → says_something v'.
Proof.
  intros Hk1 Hk2 [_ Hc]. unfold says_something. destruct (mg_content v') as [s'|ms'], (mg_content v) as [s|ms]; try done; [by subst|].
  intros [Hne Hall]. destruct Hc as [|m' m ms' ms Hm Hms]; [done|]. split; [done|].
  assert (∀ m' m : part, (∀ key, key ≠ key0 → json_get key (JObj m') = json_get key (JObj m)) → empty_part m' = empty_part m) as Hempty.
  { intros x y Hxy. unfold empty_part, type_is. by rewrite !Hxy by done. }
  apply Forall_cons in Hall as [H1 Hall]. constructor; [by rewrite (Hempty _ _ Hm)|]. clear -Hms Hall Hempty.
  induction Hms as [|x y ms' ms Hxy _ IH]; [constructor|]. apply Forall_cons in Hall as [H1 Hall]. constructor; [by rewrite (Hempty _ _ Hxy)|by apply IH].
Qed.

(** *** Messages that say something *)

Lemma nonempty_says vs : Forall says_something (omap nonempty_view vs).
Proof.
  apply Forall_forall. intros w (v & _ & Hw)%list_elem_of_omap. unfold nonempty_view in Hw. unfold says_something.
  destruct (mg_content v) as [s|ms] eqn:Ec.
  - destruct (String.eqb_spec s ""); [done|]. injection Hw as <-. by rewrite Ec.
  - destruct (filter _ ms) as [|m kept] eqn:Ef; [done|]. injection Hw as <-. cbn [with_content mg_content]. split; [done|].
    rewrite <-Ef. apply Forall_forall. intros x [Hx _]%list_elem_of_filter. by apply negb_true_iff.
Qed.

Lemma forallb_false {A} (f : A → bool) xs : forallb f xs = false → ∃ x, x ∈ xs ∧ f x = false.
Proof.
  induction xs as [|x xs IH]; cbn [forallb]; [done|]. destruct (f x) eqn:E; intros Hf.
  - destruct (IH Hf) as (y & Hy & Ey). exists y. split; [by right|done].
  - exists x. split; [by left|done].
Qed.

Lemma calls_last_says vs : Forall says_something vs → Forall says_something (vs ≫= calls_last_view).
Proof.
  intros Hvs. apply Forall_forall. intros w (v & Hw & Hv)%list_elem_of_bind. rewrite Forall_forall in Hvs. specialize (Hvs v Hv).
  unfold calls_last_view in Hw. destruct (mg_role v) eqn:Er, (mg_content v) as [s|ms] eqn:Ec; try (by apply list_elem_of_singleton in Hw as ->).
  destruct (forallb _ _) eqn:Ef; [by apply list_elem_of_singleton in Hw as ->|]. unfold says_something in Hvs. rewrite Ec in Hvs. destruct Hvs as [_ Hall].
  assert (∀ (P : part → Prop) `{∀ m, Decision (P m)}, filter P ms ≠ [] → says_something (with_content v (parts_content (filter P ms)))) as Hsome.
  { intros P ? Hne. split; [done|]. apply Forall_forall. intros m [_ Hm]%list_elem_of_filter. rewrite Forall_forall in Hall. by apply Hall. }
  assert ((∃ m, m ∈ ms ∧ type_is "tool-call" m = true) ∧ ∃ m, m ∈ ms ∧ type_is "tool-call" m = false) as [(m1 & Hin1 & H1) (m2 & Hin2 & H2)].
  { clear -Ef. induction ms as [|m ms IH]; [done|]. cbn [drop_until] in Ef. destruct (type_is "tool-call" m) eqn:E.
    - split; [exists m; split; [by left|done]|]. by apply forallb_false.
    - destruct (IH Ef) as [(m1 & ? & ?) (m2 & ? & ?)]. split; [exists m1|exists m2]; (split; [by right|done]). }
  apply elem_of_cons in Hw as [->| ->%list_elem_of_singleton]; apply Hsome; intros E.
  - assert (m2 ∈ filter (λ m, negb (type_is "tool-call" m) = true) ms) as Hm by (apply list_elem_of_filter; by rewrite H2).
    rewrite E in Hm. by apply elem_of_nil in Hm.
  - assert (m1 ∈ filter (λ m, type_is "tool-call" m = true) ms) as Hm by (by apply list_elem_of_filter).
    rewrite E in Hm. by apply elem_of_nil in Hm.
Qed.

(** *** Roles *)

Lemma mark_first_roles mergeDeep model keep vs : ∀ n, mg_role <$> mark_first mergeDeep model keep n vs = mg_role <$> vs.
Proof.
  induction vs as [|v vs IH]; intros n; cbn [mark_first]; [done|]. destruct (keep (mg_role v)); [destruct n as [|n]; [done|]|];
    rewrite !fmap_cons, ?mark_role, IH; done.
Qed.

Lemma cached_roles mergeDeep model vs : mg_role <$> cached_views mergeDeep model vs = mg_role <$> vs.
Proof. unfold cached_views. by rewrite map_rev_list, mark_first_roles, map_rev_list, rev_involutive, mark_first_roles. Qed.

Lemma answered_cons r l : answered (r :: l) ↔ (r = role_tool → head l ≠ Some role_user) ∧ answered l.
Proof.
  unfold answered. split.
  - intros Hall. split; [|intros i; apply (Hall (S i))]. intros ->. rewrite head_lookup. exact (Hall 0 eq_refl).
  - intros [Hh Hall] [|i]; [|apply Hall]. intros [= ->]. specialize (Hh eq_refl). rewrite head_lookup in Hh. exact Hh.
Qed.

Lemma scrub_role scrub v : mg_role (scrub_view scrub v) = mg_role v.
Proof. unfold scrub_view. destruct (mg_role v) eqn:E, (mg_content v); cbn; congruence. Qed.

Lemma mistral_answered vs : answered (mg_role <$> mistral_views vs) ∧ head (mg_role <$> mistral_views vs) = mg_role <$> head vs.
Proof.
  induction vs as [|v vs [IH1 IH2]]; cbn [mistral_views]; [done|]. rewrite fmap_cons, scrub_role. split; [|done].
  rewrite fmap_app. case_decide as Hb; cbn [app fmap list_fmap]; rewrite !answered_cons.
  - split_and!; [done|done|done].
  - split; [|done]. intros Hr. rewrite IH2. intros Hu. by apply Hb.
Qed.

Lemma mistral_ids vs : Forall ids_typed vs → Forall (ids_ok mistral_id) (mistral_views vs).
Proof.
  induction 1 as [|v vs Hv _ IH]; cbn [mistral_views]; [constructor|]. constructor.
  - eapply scrub_ok; [|exact Hv]. intros id _. apply scrub_mistral_valid.
  - apply Forall_app. split; [|done]. case_decide; [|constructor]. apply Forall_singleton. unfold ids_ok. cbn [done_view mg_content].
    apply Forall_singleton, text_part_ok.
Qed.

(** Ids for Mistral are ids for Claude. *)
Lemma mistral_claude_id id : mistral_id id → claude_id id.
Proof. intros [_ Hid]. eapply Forall_impl; [exact Hid|]. by intros c ->. Qed.

Lemma ids_weaken (ok ok' : string → Prop) vs : (∀ id, ok id → ok' id) → Forall (ids_ok ok) vs → Forall (ids_ok ok') vs.
Proof.
  intros Himp Hvs. eapply Forall_impl; [exact Hvs|]. intros v. unfold ids_ok. destruct (mg_content v) as [|ms]; [done|].
  intros Hms. eapply Forall_impl; [exact Hms|]. intros m [Hnd Hm]. split; [done|]. intros Hc. destruct (Hm Hc) as (id & ? & ?). eauto.
Qed.

(** The branch for Mistral keeps what holds of messages whatever their ids are, and
    of the message that it adds. *)
Lemma mistral_forall (Q : View → Prop) vs : Q done_view → (∀ v v', similar "toolCallId" v' v → Q v → Q v') →
  Forall ids_typed vs → Forall Q vs → Forall Q (mistral_views vs).
Proof.
  intros Hdone HQ. induction 1 as [|v vs Hv _ IH]; intros Hall; cbn [mistral_views]; [constructor|].
  apply Forall_cons in Hall as [H1 Hall]. constructor; [by eapply HQ, H1; eapply scrub_similar|].
  apply Forall_app. split; [|by apply IH]. case_decide; [by apply Forall_singleton|constructor].
Qed.

(** A reasoning that is added and then moved leaves the calls at the end. *)
Lemma reasoning_moved_trailing field v : calls_trailing v → calls_trailing (interleave_view field (reasoning_view v)).
Proof.
  intros Hv. destruct (mg_role v) eqn:Er; try (by unfold reasoning_view, interleave_view, calls_trailing; rewrite ?Er).
  destruct (mg_content v) as [s|ms] eqn:Ec.
  - unfold reasoning_view, interleave_view. rewrite Er, Ec. cbn [with_content mg_role mg_content].
    unfold calls_trailing. rewrite ?Er. cbn [mg_role mg_content]. destruct (String.eqb s ""); cbn.
    + by exists 0, 0.
    + by exists 1, 0.
  - pose proof (interleave_trailing field v Hv) as Hi. unfold reasoning_view. rewrite Er, Ec.
    destruct (existsb (type_is "reasoning") ms); [done|]. revert Hi. unfold interleave_view. cbn [with_content mg_role mg_content]. rewrite Er, Ec.
    unfold calls_trailing. cbn [mg_role mg_content]. by rewrite filter_app, filter_cons_False, filter_nil, app_nil_r.
Qed.

(** *** How many cache points there are *)

Definition mark_if (mergeDeep : json → json → json) (model : Model) (b : bool) (v : View) : View :=
  if b then mark_view mergeDeep model v else v.

Definition count_true (marks : list bool) : nat := length (filter (λ b, b = true) marks).

Lemma count_cons b marks : count_true (b :: marks) = (if b then 1 else 0) + count_true marks.
Proof. unfold count_true. rewrite filter_cons. by destruct b. Qed.

Lemma mark_first_marks mergeDeep model keep vs : ∀ n, ∃ marks, length marks = length vs ∧ count_true marks ≤ n ∧
  Forall2 (λ b v, b = true → keep (mg_role v) = true) marks vs ∧ mark_first mergeDeep model keep n vs = zip_with (mark_if mergeDeep model) marks vs.
Proof.
  assert (∀ vs : list View, ∃ marks, length marks = length vs ∧ count_true marks ≤ 0 ∧
    Forall2 (λ b v, b = true → keep (mg_role v) = true) marks vs ∧ vs = zip_with (mark_if mergeDeep model) marks vs) as Hnone.
  { clear vs. intros vs. exists (replicate (length vs) false). rewrite length_replicate. induction vs as [|v vs (_ & IH1 & IH2 & IH3)]; [done|].
    split_and!; [done|exact IH1|by constructor|]. cbn. by rewrite <-IH3. }
  induction vs as [|v vs IH]; intros n; cbn [mark_first]; [by exists []; split_and!; [|unfold count_true; cbn; lia|constructor|]|].
  destruct (keep (mg_role v)) eqn:E; [destruct n as [|n]|].
  - destruct (Hnone (v :: vs)) as (marks & ? & ? & ? & Heq). exists marks. split_and!; done.
  - destruct (IH n) as (marks & Hl & Hc & Hk & ->). exists (true :: marks). cbn [length zip_with]. rewrite Hl. split_and!; [done| |by constructor|done].
    rewrite count_cons. lia.
  - destruct (IH n) as (marks & Hl & Hc & Hk & ->). exists (false :: marks). cbn [length zip_with]. rewrite Hl. split_and!; [done|by rewrite count_cons|by constructor|done].
Qed.

Lemma rev_zip {A B C} (f : A → B → C) xs ys : length xs = length ys → rev (zip_with f xs ys) = zip_with f (rev xs) (rev ys).
Proof.
  revert ys. induction xs as [|x xs IH]; intros [|y ys] Hl; try done. injection Hl as Hl. cbn [zip_with rev]. rewrite IH by done.
  rewrite zip_with_app by (by rewrite !length_rev). done.
Qed.

Lemma forall2_rev {A B} (R : A → B → Prop) xs ys : Forall2 R xs ys → Forall2 R (rev xs) (rev ys).
Proof. induction 1; cbn [rev]; [constructor|]. apply Forall2_app; [done|]. by constructor. Qed.

Lemma marks_or mergeDeep model m1 m2 vs : Forall2 (λ b v, b = true → is_system (mg_role v) = true) m1 vs →
  Forall2 (λ b v, b = true → is_system (mg_role v) = false) m2 vs →
  zip_with (mark_if mergeDeep model) m2 (zip_with (mark_if mergeDeep model) m1 vs) = zip_with (mark_if mergeDeep model) (zip_with orb m1 m2) vs ∧
  length (zip_with orb m1 m2) = length vs ∧ count_true (zip_with orb m1 m2) ≤ count_true m1 + count_true m2.
Proof.
  intros H1. revert m2. induction H1 as [|b1 v m1 vs Hb1 _ IH]; intros m2 H2.
  { apply Forall2_nil_inv_r in H2 as ->. done. }
  destruct m2 as [|b2 m2]; [by apply Forall2_nil_cons_inv in H2|]. apply Forall2_cons in H2 as [Hb2 H2]. destruct (IH m2 H2) as (IH1 & IH2 & IH3).
  cbn [zip_with]. rewrite IH1. split_and!; [|cbn; by rewrite IH2|].
  - f_equal. destruct b1, b2; cbn; try done. rewrite Hb1 in Hb2 by done. by specialize (Hb2 eq_refl).
  - rewrite !count_cons. destruct b1, b2; cbn; lia.
Qed.

(** At most two on messages of the system, and two on others. *)
Lemma cached_marks mergeDeep model vs : ∃ marks, length marks = length vs ∧ count_true marks ≤ 4 ∧
  cached_views mergeDeep model vs = zip_with (mark_if mergeDeep model) marks vs.
Proof.
  destruct (mark_first_marks mergeDeep model is_system vs 2) as (m1 & Hl1 & Hc1 & Hk1 & E1).
  pose proof (mark_first_roles mergeDeep model is_system vs 2) as Hroles. unfold cached_views. rewrite E1 in *. set (vs1 := zip_with _ m1 vs) in *.
  destruct (mark_first_marks mergeDeep model (λ role, negb (is_system role)) (rev vs1) 2) as (m2 & Hl2 & Hc2 & Hk2 & E2).
  rewrite E2, rev_zip, rev_involutive by done.
  assert (Forall2 (λ b v, b = true → is_system (mg_role v) = false) (rev m2) vs) as Hk2'.
  { apply forall2_rev in Hk2. rewrite rev_involutive in Hk2. clearbody vs1. clear -Hk2 Hroles. revert vs Hroles. induction Hk2 as [|b v m ws Hb _ IH]; intros vs Hr.
    - destruct vs; [constructor|done].
    - destruct vs as [|v' vs]; [done|]. rewrite !fmap_cons in Hr. injection Hr as Hv Hr. constructor; [|by apply IH].
      intros Ht. rewrite <-Hv. by apply negb_true_iff, Hb. }
  destruct (marks_or mergeDeep model m1 (rev m2) vs Hk1 Hk2') as (Heq & Hlen & Hcount). exists (zip_with orb m1 (rev m2)).
  split_and!; [done| |exact Heq]. assert (count_true (rev m2) = count_true m2) as E by (unfold count_true; by rewrite rev_filter, length_rev). lia.
Qed.

(** *** The conversation that is sent *)

Section accepted.
Context (toLocaleLowerCase : string → string) (mergeDeep : json → json → json) (unique : list nat → list nat).
Hypothesis unique_spec : ∀ xs, NoDup xs → unique xs = xs.
Abbreviation mistral := (is_mistral toLocaleLowerCase).
Abbreviation normalized := (normalized_views toLocaleLowerCase).

Definition remapped (model : Model) (vs : list View) : list View :=
  match remap_key model with Some key => remap_view (md_providerID model) key <$> vs | None => vs end.

(** The models behind the packages of Anthropic, and of Bedrock. *)
Definition anthropic_package (model : Model) : bool := is_one_of (md_npm model) ["@ai-sdk/anthropic"; "@ai-sdk/google-vertex/anthropic"].

Definition refuses_empty (model : Model) : bool :=
  String.eqb (md_npm model) "@ai-sdk/anthropic" || String.eqb (md_npm model) "@ai-sdk/amazon-bedrock".

(** What holds of the parts of every message holds of the messages that are sent. *)
Lemma sent_forall (Q : View → Prop) ok model ws :
  (∀ v v', ids_ok ok v → similar "providerOptions" v' v → Q v → Q v') → Forall (ids_ok ok) ws → Forall Q ws →
  Forall (ids_ok ok) (remapped model (if wants_caching model then cached_views mergeDeep model ws else ws)) ∧
  Forall Q (remapped model (if wants_caching model then cached_views mergeDeep model ws else ws)).
Proof.
  intros HQ Hok Hws.
  assert (Forall (λ v, ids_ok ok v ∧ Q v) (if wants_caching model then cached_views mergeDeep model ws else ws)) as Hc.
  { assert (Forall (λ v, ids_ok ok v ∧ Q v) ws) as Hall by (apply Forall_and; by split).
    destruct (wants_caching model); [|done]. apply cached_forall; [|done]. intros v [H1 H2]. split; [by apply mark_ok|].
    eapply HQ; [exact H1|by eapply mark_similar|done]. }
  assert (Forall (λ v, ids_ok ok v ∧ Q v) (remapped model (if wants_caching model then cached_views mergeDeep model ws else ws))) as Hr.
  { unfold remapped. destruct (remap_key model) as [key|]; [|done]. apply Forall_fmap. eapply Forall_impl; [exact Hc|].
    intros v [H1 H2]. split; [by apply remap_ok|]. eapply HQ; [exact H1|by eapply remap_similar|done]. }
  by apply Forall_and in Hr.
Qed.

Lemma sent_roles model ws : mg_role <$> remapped model (if wants_caching model then cached_views mergeDeep model ws else ws) = mg_role <$> ws.
Proof.
  unfold remapped. assert (∀ key (us : list View), mg_role <$> (remap_view (md_providerID model) key <$> us) = mg_role <$> us) as Hr.
  { intros key us. rewrite <-list_fmap_compose. by apply list_fmap_ext. }
  destruct (remap_key model); rewrite ?Hr; (destruct (wants_caching model); [apply cached_roles|done]).
Qed.

(** *** The steps of the normalization, as far as the ids go *)

Lemma ids_when ok (b : bool) (F : list View → list View) vs : (∀ vs, Forall (ids_ok ok) vs → Forall (ids_ok ok) (F vs)) →
  Forall (ids_ok ok) vs → Forall (ids_ok ok) (if b then F vs else vs).
Proof. intros HF Hvs. destruct b; [by apply HF|done]. Qed.

Lemma ids_map ok f vs : (∀ v, ids_ok ok v → ids_ok ok (f v)) → Forall (ids_ok ok) vs → Forall (ids_ok ok) (f <$> vs).
Proof. intros Hf Hvs. apply Forall_fmap. eapply Forall_impl; [exact Hvs|]. exact Hf. Qed.

(** The messages before the branch for Mistral. *)
Definition scrubbed (model : Model) (vs : list View) : list View :=
  let vs := if String.eqb (md_npm model) "@ai-sdk/anthropic" then omap nonempty_view vs else vs in
  let vs := if String.eqb (md_npm model) "@ai-sdk/amazon-bedrock" then omap nonempty_view vs else vs in
  if includes (md_api_id model) "claude" then scrub_view scrub_claude <$> vs else vs.

Definition before_mistral (model : Model) (vs : list View) : list View :=
  if anthropic_package model then scrubbed model vs ≫= calls_last_view else scrubbed model vs.

Lemma normalized_split model vs : normalized model vs =
  if mistral model then mistral_views (before_mistral model vs)
  else let us := if includes (md_api_id model) "deepseek" then reasoning_view <$> before_mistral model vs else before_mistral model vs in
       match interleaved_of model with Some field => interleave_view field <$> us | None => us end.
Proof. done. Qed.

Lemma scrubbed_ok model vs : Forall ids_typed vs →
  Forall ids_typed (scrubbed model vs) ∧ (includes (md_api_id model) "claude" = true → Forall (ids_ok claude_id) (scrubbed model vs)).
Proof.
  intros Hvs. unfold scrubbed.
  assert (Forall ids_typed (let us := if String.eqb (md_npm model) "@ai-sdk/anthropic" then omap nonempty_view vs else vs in
    if String.eqb (md_npm model) "@ai-sdk/amazon-bedrock" then omap nonempty_view us else us)) as Hn.
  { cbv zeta. apply (ids_when _ _ (omap nonempty_view)); [apply nonempty_ok|]. apply (ids_when _ _ (omap nonempty_view)); [apply nonempty_ok|done]. }
  cbv zeta in Hn |- *. set (us := if String.eqb (md_npm model) "@ai-sdk/amazon-bedrock" then _ else _) in *. clearbody us. split.
  - apply (ids_when _ _ (fmap (scrub_view scrub_claude))); [|done]. intros ws. apply ids_map. intros v. by apply scrub_ok.
  - intros ->. apply Forall_fmap. eapply Forall_impl; [exact Hn|]. intros v Hv. eapply scrub_ok; [|exact Hv]. intros id _. apply scrub_claude_valid.
Qed.

Lemma before_mistral_ok model vs : Forall ids_typed vs →
  Forall ids_typed (before_mistral model vs) ∧ (includes (md_api_id model) "claude" = true → Forall (ids_ok claude_id) (before_mistral model vs)).
Proof.
  intros Hvs. destruct (scrubbed_ok model vs Hvs) as [H1 H2]. unfold before_mistral.
  split; [|intros Hc; specialize (H2 Hc)]; (destruct (anthropic_package model); [by apply calls_last_ok|done]).
Qed.

Lemma normalized_ok ok model vs : mistral model = false → Forall (ids_ok ok) (before_mistral model vs) → Forall (ids_ok ok) (normalized model vs).
Proof.
  intros Hm Hvs. rewrite normalized_split, Hm. cbv zeta.
  assert (Forall (ids_ok ok) (if includes (md_api_id model) "deepseek" then reasoning_view <$> before_mistral model vs else before_mistral model vs)) as Hr.
  { apply (ids_when _ _ (fmap reasoning_view)); [|done]. intros ws. apply ids_map, reasoning_ok. }
  destruct (interleaved_of model) as [field|]; [|done]. apply ids_map; [apply interleave_ok|done].
Qed.

(** A reasoning stays behind the tool calls of a model called deepseek, unless it
    moves to the options or Mistral takes the messages. *)
Definition reasoning_last (model : Model) : bool :=
  includes (md_api_id model) "deepseek" && negb (mistral model)
  && match interleaved_of model with None => true | Some _ => false end.

Lemma before_mistral_trailing model vs : anthropic_package model = true → Forall calls_trailing (before_mistral model vs).
Proof. unfold before_mistral. intros ->. apply calls_last_trailing. Qed.

Lemma normalized_trailing model vs : Forall ids_typed vs → anthropic_package model = true → reasoning_last model = false →
  Forall calls_trailing (normalized model vs).
Proof.
  intros Hvs Ha Hl. pose proof (before_mistral_trailing model vs Ha) as Ht. rewrite normalized_split.
  unfold reasoning_last in Hl. destruct (mistral model).
  { apply mistral_forall; [by exists 1, 0| |by apply before_mistral_ok|done]. intros v v'. by apply similar_trailing. }
  cbv zeta. destruct (includes (md_api_id model) "deepseek"), (interleaved_of model) as [field|]; try done; rewrite ?Forall_fmap;
    (eapply Forall_impl; [exact Ht|]); [apply reasoning_moved_trailing|apply interleave_trailing].
Qed.

(** The messages whose empty parts are dropped are sent without a reasoning that
    another service asks for. *)
Definition reasoning_changed (model : Model) : bool :=
  negb (mistral model)
  && (includes (md_api_id model) "deepseek" || match interleaved_of model with None => false | Some _ => true end).

Lemma before_mistral_says model vs : Forall ids_typed vs → refuses_empty model = true → Forall says_something (before_mistral model vs).
Proof.
  intros Hvs Hr. assert (Forall says_something (scrubbed model vs)) as Hs.
  { unfold scrubbed. cbv zeta. set (us := if String.eqb (md_npm model) "@ai-sdk/anthropic" then omap nonempty_view vs else vs).
    assert (Forall ids_typed us) as Hus by (apply (ids_when _ _ (omap nonempty_view)); [apply nonempty_ok|done]).
    set (ws := if String.eqb (md_npm model) "@ai-sdk/amazon-bedrock" then omap nonempty_view us else us).
    assert (Forall ids_typed ws) as Hws by (apply (ids_when _ _ (omap nonempty_view)); [apply nonempty_ok|done]).
    assert (Forall says_something ws) as Hsay.
    { unfold ws, us. unfold refuses_empty in Hr. destruct (String.eqb (md_npm model) "@ai-sdk/amazon-bedrock"); [apply nonempty_says|].
      destruct (String.eqb (md_npm model) "@ai-sdk/anthropic"); [apply nonempty_says|done]. }
    clearbody ws. destruct (includes _ "claude"); [|done]. apply Forall_fmap. rewrite Forall_forall in Hws, Hsay |- *. intros v Hv.
    eapply similar_says; [..|by apply Hsay]; [| |by eapply scrub_similar, Hws]; done. }
  unfold before_mistral. destruct (anthropic_package model); [by apply calls_last_says|done].
Qed.

Lemma normalized_says model vs : Forall ids_typed vs → refuses_empty model = true → reasoning_changed model = false →
  Forall says_something (normalized model vs).
Proof.
  intros Hvs Hr Hc. pose proof (before_mistral_says model vs Hvs Hr) as Hs. rewrite normalized_split.
  unfold reasoning_changed in Hc. destruct (mistral model).
  { apply mistral_forall; [|intros v v'; by apply similar_says|by apply before_mistral_ok|done]. split; [done|]. by apply Forall_singleton. }
  cbv zeta. by destruct (includes (md_api_id model) "deepseek"), (interleaved_of model).
Qed.

(** What the service behind a model asks for, of the messages [ws]. *)
Record accepted (model : Model) (ws : list View) : Prop := mkAccepted {
  ac_claude : includes (md_api_id model) "claude" = true → Forall (ids_ok claude_id) ws;
  ac_mistral : mistral model = true → Forall (ids_ok mistral_id) ws ∧ answered (mg_role <$> ws);
  ac_calls : anthropic_package model = true → reasoning_last model = false → Forall calls_trailing ws;
  ac_empty : refuses_empty model = true → reasoning_changed model = false → Forall says_something ws;
}.

Lemma transformed_sent model vs : transformed toLocaleLowerCase mergeDeep model vs =
  remapped model (let ws := normalized model (unsupported_view model <$> vs) in if wants_caching model then cached_views mergeDeep model ws else ws).
Proof. done. Qed.

Lemma unsupported_typed model vs : Forall ids_typed vs → Forall ids_typed (unsupported_view model <$> vs).
Proof. apply ids_map, unsupported_ok. Qed.

Lemma transformed_accepted model vs : Forall ids_typed vs → accepted model (transformed toLocaleLowerCase mergeDeep model vs).
Proof.
  intros Hvs%(unsupported_typed model). rewrite transformed_sent. cbv zeta. set (us := unsupported_view model <$> vs) in *. clearbody us.
  destruct (before_mistral_ok model us Hvs) as [Hb1 Hb2].
  assert (∀ ok, Forall (ids_ok ok) (normalized model us) →
    Forall (ids_ok ok) (remapped model (if wants_caching model then cached_views mergeDeep model (normalized model us) else normalized model us))) as Hsent.
  { intros ok Hok. apply (sent_forall (λ _, True) ok); [done|done|]. by apply Forall_true. }
  assert (Forall ids_typed (normalized model us)) as Htyped.
  { destruct (mistral model) eqn:Hm; [|by apply normalized_ok]. rewrite normalized_split, Hm.
    by eapply (ids_weaken mistral_id), mistral_ids. }
  split.
  - intros Hc. apply Hsent. destruct (mistral model) eqn:Hm; [|by apply normalized_ok, Hb2].
    rewrite normalized_split, Hm. apply (ids_weaken mistral_id); [apply mistral_claude_id|by apply mistral_ids].
  - intros Hm. split; [apply Hsent|rewrite sent_roles]; rewrite normalized_split, Hm; [by apply mistral_ids|apply mistral_answered].
  - intros Ha Hl. apply (sent_forall calls_trailing (λ _, True)); [|done|by apply normalized_trailing].
    intros v v' _ Hs. by apply (similar_trailing "providerOptions" _ v).
  - intros Hr Hc. apply (sent_forall says_something (λ _, True)); [|done|by apply normalized_says].
    intros v v' _ Hs. by apply (similar_says "providerOptions" _ v).
Qed.

(** C38 The messages of a conversation, rewritten.  For a conversation of different
    message objects that share no parts, the program returns, with the in-place
    changes that some branches make, the conversation that a function of its
    value describes, again of different objects: unsupported parts are replaced,
    messages are normalized for the service, at most two messages of the system
    and two others take a cache point, and the options move to the key of the
    SDK. *)
Theorem message_refines model o msgs vs : conversation o msgs vs → separate o msgs → Forall ids_typed vs →
  ∃ out o', message toLocaleLowerCase mergeDeep unique model msgs o = (Ret out, o') ∧ separate o' out ∧
    conversation o' out (transformed toLocaleLowerCase mergeDeep model vs) ∧
    ∃ marks, transformed toLocaleLowerCase mergeDeep model vs =
        remapped model (zip_with (mark_if mergeDeep model) marks (normalized model (unsupported_view model <$> vs))) ∧
      length marks = length (normalized model (unsupported_view model <$> vs)) ∧ count_true marks ≤ (if wants_caching model then 4 else 0).
Proof using unique_spec.
  intros Hc Hs Hv. destruct (message_run toLocaleLowerCase mergeDeep unique unique_spec model o msgs vs Hc Hs Hv) as (out & o' & E & Hc' & Hs').
  exists out, o'. split_and!; [done..|]. rewrite transformed_sent. cbv zeta. set (ws := normalized _ _) in *. destruct (wants_caching model).
  - destruct (cached_marks mergeDeep model ws) as (marks & Hl & Hn & Heq). exists marks. by rewrite Heq.
  - exists (replicate (length ws) false). rewrite length_replicate.
    assert (zip_with (mark_if mergeDeep model) (replicate (length ws) false) ws = ws ∧ count_true (replicate (length ws) false) = 0) as [-> ->].
    { clear. induction ws as [|w ws [IH1 IH2]]; [done|]. cbn [length replicate zip_with]. rewrite IH1, count_cons, IH2. done. }
    by split_and!.
Qed.

(** C39 What the services ask for.  The rewritten messages carry ids of letters,
    digits, underscores and hyphens if the model is a Claude, whatever the
    service, and ids of nine letters and digits if it counts as Mistral, where no
    message of a tool is followed by one of the user.  Behind the two packages of
    Anthropic tool calls come after everything else that an assistant says, unless
    the model is called deepseek, is not taken by Mistral and keeps its reasoning
    in the content: then an empty reasoning comes last ([reasoning_after_calls]).
    And the package @ai-sdk/anthropic and Bedrock get no message and no part that is
    empty, unless, outside of Mistral, the model is called deepseek or its
    reasoning is moved to the options. *)
Theorem messages_accepted model o msgs vs : conversation o msgs vs → separate o msgs → Forall ids_typed vs →
  ∃ out o' ws, message toLocaleLowerCase mergeDeep unique model msgs o = (Ret out, o') ∧ conversation o' out ws ∧ accepted model ws.
Proof using unique_spec.
  intros Hc Hs Hv. destruct (message_run toLocaleLowerCase mergeDeep unique unique_spec model o msgs vs Hc Hs Hv) as (out & o' & E & Hc' & _).
  exists out, o', (transformed toLocaleLowerCase mergeDeep model vs). split_and!; [done|done|by apply transformed_accepted].
Qed.
End accepted.

(** ** A conversation *)

(** A merge of objects, member by member. *)
Fixpoint merge_demo (destination source : json) : json :=
  match destination, source with
  | JObj ms, JObj ns =>
    JObj (foldl (λ acc n, set_member n.1 (snd n) acc)
            ((fix merged (ms : list (string * json)) : list (string * json) :=
                match ms with
                | [] => []
                | (k, v) :: ms => (k, match json_get k (JObj ns) with Some w => merge_demo v w | None => v end) :: merged ms
                end) ms)
            (filter (λ n, n.1 ∉ ms.*1) ns))
  | _, _ => source
  end.

Lemma dedup_id (xs seen : list nat) : NoDup xs → (∀ x, x ∈ xs → x ∉ seen) → js_dedup seen xs = xs.
Proof.
  revert seen. induction xs as [|x xs IH]; intros seen Hnd Hs; [done|]. apply NoDup_cons in Hnd as [Hx Hnd]. cbn [js_dedup].
  rewrite decide_False by (apply Hs; by left). f_equal. apply IH; [done|]. intros y Hy. specialize (Hs y ltac:(by right)). set_solver.
Qed.

Lemma dedup_spec : ∀ xs : list nat, NoDup xs → js_dedup [] xs = xs.
Proof. intros xs Hnd. apply dedup_id; [done|]. intros x _ Hx. by apply elem_of_nil in Hx. Qed.

Definition demo_message : Model → list nat → M Objects (list nat) := message toLowerCase merge_demo (js_dedup []).

Definition claude : Model :=
  mkModel "claude-sonnet" "anthropic" "@ai-sdk/anthropic" "claude-sonnet-4-6" true (λ _, false) (interleaved_flag false) 64000 None.

Definition call_part (id : string) : part := [("type", JStr "tool-call"); ("toolCallId", JStr id)].
Definition result_part (id : string) : part := [("type", JStr "tool-result"); ("toolCallId", JStr id)].

Definition demo_views : list View :=
  [mkMessage role_system (text_content "Be brief.") None;
   mkMessage role_user (parts_content [text_part "Look"; [("type", JStr "file"); ("mediaType", JStr "image/png"); ("filename", JStr "a.png")]]) None;
   mkMessage role_assistant (parts_content [call_part "call.1"; text_part "Looking"; text_part ""]) None;
   mkMessage role_tool (parts_content [result_part "call.1"]) None].

Definition demo_objects : Objects :=
  mkObjects
    [mkMessage role_system (text_content "Be brief.") None; mkMessage role_user (parts_content [0; 1]) None;
     mkMessage role_assistant (parts_content [2; 3; 4]) None; mkMessage role_tool (parts_content [5]) None]
    [text_part "Look"; [("type", JStr "file"); ("mediaType", JStr "image/png"); ("filename", JStr "a.png")];
     call_part "call.1"; text_part "Looking"; text_part ""; result_part "call.1"].

Lemma demo_conversation : conversation demo_objects [0; 1; 2; 3] demo_views ∧ separate demo_objects [0; 1; 2; 3] ∧ Forall ids_typed demo_views.
Proof.
  split; [|split].
  - repeat constructor; (eexists; split; [reflexivity|]); repeat constructor.
  - split; apply (bool_decide_unpack _); vm_compute; exact I.
  - unfold demo_views. repeat (apply Forall_cons_2); try apply Forall_nil_2; try exact I.
    all: split; [apply (bool_decide_unpack _); vm_compute; exact I|]; intros Hc;
      first [by vm_compute in Hc|eexists; split; [reflexivity|exact I]].
Qed.

(** The image is replaced, the empty part is gone, the call comes last with a clean
    id, and the options of the messages hold the cache points. *)
Lemma message_refines_witness : ∃ out o', demo_message claude [0; 1; 2; 3] demo_objects = (Ret out, o') ∧ separate o' out ∧
  transformed toLowerCase merge_demo claude demo_views =
    let cached := Some CACHE_OPTIONS in
    [mkMessage role_system (text_content "Be brief.") cached;
     mkMessage role_user (parts_content [text_part "Look";
       text_part ("ERROR: Cannot read " +:+ QUOTE +:+ "a.png" +:+ QUOTE +:+ " (this model does not support image input). Inform the user.")]) None;
     mkMessage role_assistant (parts_content [text_part "Looking"]) None;
     mkMessage role_assistant (parts_content [call_part "call_1"]) cached;
     mkMessage role_tool (parts_content [result_part "call_1"]) cached].
Proof.
  destruct demo_conversation as (Hc & Hs & Hv).
  destruct (message_refines toLowerCase merge_demo (js_dedup []) dedup_spec claude demo_objects [0; 1; 2; 3] demo_views Hc Hs Hv)
    as (out & o' & E & Hs' & _). exists out, o'. split; [exact E|]. split; [exact Hs'|]. vm_compute. reflexivity.
Defined.

Lemma messages_accepted_witness : ∃ out o' ws, demo_message claude [0; 1; 2; 3] demo_objects = (Ret out, o') ∧ conversation o' out ws ∧
  Forall (ids_ok claude_id) ws ∧ Forall calls_trailing ws ∧ Forall says_something ws.
Proof.
  destruct demo_conversation as (Hc & Hs & Hv).
  destruct (messages_accepted toLowerCase merge_demo (js_dedup []) dedup_spec claude demo_objects [0; 1; 2; 3] demo_views Hc Hs Hv)
    as (out & o' & ws & E & Hc' & Ha). exists out, o', ws. split; [exact E|]. split; [exact Hc'|].
  split; [apply (ac_claude _ _ _ Ha); reflexivity|]. split; [apply (ac_calls _ _ _ Ha); reflexivity|apply (ac_empty _ _ _ Ha); reflexivity].
Defined.

(** Mistral on Bedrock: empty messages are dropped there too, and a message comes
    between the tool and the user. *)
Example mistral_on_bedrock :
  let bedrock := mkModel "mistral-large" "bedrock" "@ai-sdk/amazon-bedrock" "mistral.mistral-large" false (λ _, false) (interleaved_flag false) 8000 None in
  normalized_views toLowerCase bedrock
    [mkMessage role_assistant (parts_content [text_part ""; call_part "call_1"]) None; mkMessage role_tool (parts_content [result_part "call_1"]) None;
     mkMessage role_user (text_content "more") None; mkMessage role_user (text_content "") None] =
    [mkMessage role_assistant (parts_content [call_part "call10000"]) None; mkMessage role_tool (parts_content [result_part "call10000"]) None;
     mkMessage role_assistant (parts_content [text_part "Done."]) None; mkMessage role_user (text_content "more") None].
Proof. vm_compute. reflexivity. Qed.

(** Behind a package of Anthropic a model called deepseek gets a reasoning behind
    the tool calls. *)
Example reasoning_after_calls :
  let deepseek := mkModel "deepseek-chat" "deepseek" "@ai-sdk/anthropic" "deepseek-chat" false (λ _, true) (interleaved_flag false) 8000 None in
  normalized_views toLowerCase deepseek [mkMessage role_assistant (parts_content [text_part "hi"; call_part "c"]) None] =
    [mkMessage role_assistant (parts_content [text_part "hi"; call_part "c"; reasoning_part ""]) None].
Proof. vm_compute. reflexivity. Qed.

(** Different calls get one id for Mistral. *)
Example ids_collide : scrub_mistral "call_abcdefgh1" = "callabcde" ∧ scrub_mistral "call_abcdefgh2" = "callabcde".
Proof. vm_compute. done. Qed.

(** The cache points of a turn stay on the caller's objects: the next turn, two
    messages later, is sent with five of them. *)
Example cache_points_accumulate :
  let text role s := mkMessage role (text_content s) None in
  let objects := mkObjects [text role_system "s"; text role_user "a"; text role_assistant "b"; text role_user "c"; text role_assistant "d";
                            text role_user "e"] [] in
  let points o msgs := length (filter (λ r, match ob_messages o !! r with Some (mkMessage _ _ (Some _)) => true | _ => false end = true) msgs) in
  let first := demo_message claude [0; 1; 2; 3] objects in
  let second := demo_message claude [0; 1; 2; 3; 4; 5] (snd first) in
  match fst first, fst second with
  | Ret sent1, Ret sent2 => points (snd first) sent1 = 3 ∧ points (snd second) sent2 = 5
  | _, _ => False
  end.
Proof. vm_compute. done. Qed.
